(* ===== verification/_CoqProject ===== *)
-Q . S2P
Prelude.v
Geometry.v
Buffers.v
Swapper.v
Bundle.v
GbmBuffers.v
EglImages.v
GbmTexture.v
AndroidBuffers.v
PageFlip.v
Drm.v
KmsOutput.v
DisplayConfig.v
Egl.v
AndroidDisplay.v
Hwc.v
GbmPlatform.v
GbmDisplay.v
GbmFlip.v
GbmConfigure.v
KmsFlipper.v
GbmDemo.v
AndroidDemo.v
Input.v
AndroidEvents.v
InputTransport.v
InputState.v
Dispatcher.v
DispatchTargets.v
DispatchLoop.v
DispatchMemory.v
DispatchSafe.v
DispatchInvariant.v
DispatchInterface.v
DispatchRouting.v
InputFocus.v
ReaderData.v
ReaderLoop.v
ReaderView.v
ReaderSteps.v
ReaderInvariant.v
ReaderListener.v
KeyText.v
KeyLayout.v
KeyCharacters.v
GenericMaps.v
KeyMaps.v
InputHub.v
HubEvents.v
HubStream.v
HubCalls.v
TouchData.v
TouchIds.v
TouchMatching.v
TouchMapper.v
TouchGestures.v
TouchStream.v
TouchSamples.v
TouchReports.v
TouchListener.v
SurfaceParams.v
Surfaces.v
GlRenderer.v
Compositing.v
Compositor.v
Sessions.v
SessionManager.v
Messages.v
Mediator.v
Wire.v
Server.v
RunServer.v
Reports.v
Configuration.v
Options.v
Depository.v
ClientPlatform.v
ClientLib.v
ClientApi.v
AndroidClient.v
