(* ===== verification/Prelude.v ===== *)
(** * eMir display server: verification library

    eMir is a display server.  Clients connect over a Unix socket, create
    surfaces and draw into buffers that the server shares with them; the server
    keeps the surfaces in a stack, decides which session has the focus, and
    composites the buffers onto the displays.

    ** Parts of the program and the files that model them

    The flow of a frame, bottom up (paths below [src/src] unless said
    otherwise):

    - [Geometry] ([include/shared/mir/geometry]): coordinates and sizes as
      32-bit wrappers; [Buffers] ([server/compositor/buffer_basic.cpp]): buffer
      identifiers, properties, IPC packages.
    - [Swapper] ([server/compositor/buffer_swapper_multi.cpp]): the queues a
      surface's buffers go through.  The state is the class's members; the
      condition variable is the outcome [Wait] with an explicit resumption, and
      [swap_step] interleaves client, compositor and shutdown.
    - [Bundle] ([swapper_factory.cpp], [buffer_bundle_*.cpp],
      [temporary_buffers.cpp]) and [GbmBuffers]
      ([server/graphics/gbm/gbm_buffer*.cpp]): who makes the buffers, and the
      temporary buffers that give them back.  The device is an interface.
      [EglImages] is the interface of EGL images, and [GbmTexture] the binding
      of a GBM buffer to a texture.
    - [PageFlip] ([server/graphics/gbm/kms_page_flipper.cpp]): threads that wait
      for page flips, one of which runs the event loop for all.
    - The GBM display ([server/graphics/gbm]): [Drm], the interface of libdrm
      and the resources of a card; [KmsOutput] ([kms_output.cpp]);
      [DisplayConfig] ([kms_display_configuration.cpp] and
      [server/graphics/display_configuration.cpp]); [Egl]
      ([gbm_display_helpers.cpp]); [GbmPlatform]; [GbmDisplay]
      ([gbm_display.cpp], [gbm_display_buffer.cpp]) with its theorems on
      flipping in [GbmFlip] and on configuration in [GbmConfigure];
      [KmsFlipper], where the page flipper implements the interface that the
      outputs use; [GbmDemo], a concrete device for the witnesses.
    - The Android platform ([server/graphics/android]): [AndroidBuffers],
      [AndroidDisplay] and [Hwc], with a concrete device in [AndroidDemo].
    - [Input] ([server/input]): filters, the translation of events, the pointer
      controller, the focus of the input, over an interface of the dispatcher.
    - The Android input stack (vendored and adapted, in
      [3rd_party/android-input/android/frameworks]): [AndroidEvents]
      ([Input.cpp], the validation of events), [InputTransport]
      ([InputTransport.cpp]: channels, publisher, consumer), [InputState] (what a
      connection has been sent), and [InputDispatcher.cpp] in [Dispatcher] (its
      state, entries and dispatch cycles), [DispatchTargets] (which windows an
      event goes to) and [DispatchLoop] (queues, commands, interface).  Event
      entries are on a heap, with their counters; a connection is a number, and
      an entry that is gone cannot be read.  The proofs are in [DispatchMemory]
      (counted references), [DispatchSafe] (the windows), [DispatchInvariant]
      and [DispatchInterface] (every function keeps both), and
      [DispatchRouting].  [InputReader.cpp] and what it uses
      ([InputListener.cpp], [Keyboard.cpp], [VelocityControl.cpp]) are in
      [ReaderData] (events, accumulators, mappers, devices) and [ReaderLoop] (the
      operations, and the loop as its thread and its callers run it); the proofs
      are in [ReaderView] (what a listener sees), [ReaderSteps] (mappers),
      [ReaderInvariant] (devices) and [ReaderListener].  The touch mappers of the
      same file are in [TouchData] (accumulators, pointers, settings), [TouchIds]
      (which pointer of a report is which) and [TouchMapper] (cooking, virtual keys,
      dispatch), with their proofs in [TouchMatching] (identifiers), [TouchGestures]
      (what a listener takes for granted), [TouchStream] and [TouchReports] (motions
      and keys), [TouchSamples] (pointers) and [TouchListener].  The key maps are text:
      [KeyText] ([Tokenizer.cpp], the tables of labels), [KeyLayout]
      ([KeyLayoutMap.cpp], [VirtualKeyMap.cpp]), [KeyCharacters]
      ([KeyCharacterMap.cpp]), [GenericMaps] ([GenericKeyMap.cpp], with its whole
      text) and [KeyMaps] ([InputDevice.cpp], [KeyMap]: which files a device gets).
      [EventHub.cpp] is in [InputHub] (devices) and [HubEvents] ([getEvents] and the
      threads), with its proofs in [HubStream] and [HubCalls].
      [InputFocus] puts the input manager and Mir's handles on the dispatcher, with
      the other threads between its calls.
    - [SurfaceParams], [Surfaces] ([server/surfaces]): surfaces on a heap, the
      stack that owns them, weak references to them.
    - [GlRenderer] ([server/graphics/gl_renderer.cpp]) and [Compositing]
      ([server/compositor/default_compositing_strategy.cpp],
      [rendering_operator.cpp]): drawing the visible surfaces, over interfaces
      of GL and of the matrix library.
    - [Compositor] ([server/compositor/multi_threaded_compositor.cpp]): the
      compositing threads and the notification of changes.
    - [Sessions] ([server/shell/application_session.cpp], [surface.cpp],
      [consuming_placement_strategy.cpp], factories) and [SessionManager]
      ([session_manager.cpp], [session_container.cpp],
      [registration_order_focus_sequence.cpp],
      [single_visibility_focus_mechanism.cpp]): the shell.
    - [Messages] ([shared/protobuf/mir_protobuf.proto]) and [Mediator]
      ([server/frontend/session_mediator*.cpp], [resource_cache.cpp],
      [protobuf_message_processor.cpp]): the handlers of the protocol, for one
      connection.
    - [Wire] ([server/frontend/socket_session.cpp],
      [client/mir_basic_rpc_channel.cpp], [client/mir_socket_rpc_channel.cpp],
      [3rd_party/libancillary]): both ends of a connection, framing, file
      descriptors, pending calls.
    - [Server] ([server/frontend/protobuf_socket_communicator.cpp],
      [connected_sessions.h]): many connections on one shell, driven by the
      events of the I/O service.
    - [RunServer] ([server/run_mir.cpp], [server/display_server.cpp]): the main
      thread and the signal dispatcher; [Configuration]
      ([server/default_server_configuration.cpp], [cached_ptr.h]): which objects
      are made and who owns them; [Options]
      ([server/options/program_option.cpp]); [Reports] ([server/logging]).
    - [Depository] ([client/client_buffer_depository.cpp], [aging_buffer.cpp])
      and [ClientLib] ([client/mir_wait_handle.cpp], [mir_surface.cpp],
      [mir_connection.cpp]): the client library; [ClientPlatform]
      ([client/gbm]) and [AndroidClient] ([client/android]): its buffers on each
      platform; [ClientApi] ([client/mir_client_library.cpp]): its C interface.

    ** How code is represented

    A member function is a value of [M S A], a function of the state [S] of its
    component to an [outcome]: a returned value, a thrown exception, a call that
    blocks, or undefined behaviour (a dereferenced null or dangling pointer, an
    iterator at the end, a signed overflow, an array index out of range, a failed
    assertion); exceptions and blocking keep the effects made so far.  [zoom]
    runs a component inside a larger state.  Machine integers are in [Z], with
    their reduction written where the code can wrap, and doubles are those of
    [SpecFloat].  [std::map] is the sorted
    list of its entries ([OrdMap]).  What the program calls and does not contain
    (DRM and GBM, EGL, GL, GLM, gralloc and the hardware composer, protobuf, the
    kernel's sockets, the looper) is a
    class of operations, with a class of laws for what is documented of it; each
    has a concrete instance on which the witnesses compute.  Threads are step
    relations whose steps are the critical sections of the code.

    ** What is shown

    - Buffers: every buffer is in one place at any time ([buffer_ownership]),
      frames are shown in order and none is lost ([frames_shown_in_order]), the
      compositor never waits, no wake-up is lost, [shutdown] frees a blocked
      client where it is defined, and where it is not.
    - Drawing: a rendering draws the visible surfaces from the bottom of the
      stack, in order, or up to the one whose buffer cannot be bound to a texture,
      and gives the buffers back in any case ([render_composites]); GL
      objects are released on every path; a change is always rendered, and the
      threads stop ([no_change_lost], [change_is_rendered],
      [compositor_stop_returns]); no thread waits in vain for a page flip, also
      without spurious wake-ups ([waiting_for_flips], [every_wait_can_end]), and the flipper keeps the
      promise the outputs rely on ([kms_flipper_refines]).
    - The displays: an output takes a free crtc one of its encoders can drive,
      the first there is ([ensure_crtc_choice]), and gives back the crtc it found
      ([delete_restores]); the configuration is that of the device
      ([configuration_of_device]); an update keeps exactly the buffer it
      shows locked and gives back the one before ([post_update_flips]); configuring covers the outputs
      ([configure_covers_outputs]).  On Android, buffers and displays give back
      what they take ([android_buffer_lifetime]), except where the display's
      constructor throws ([android_display_accounting]), and a wait for vsync
      ends with a report that came after it ([vsync_wait_ends]).
    - The assembly: the parts are connected as they must be whatever the options
      ([server_is_wired]); a signal ends the server ([signal_ends_server]); the
      report follows the invocations ([report_tracks_invocations]).
    - The input: whatever the threads do, only the socket of the surface in
      focus is written to ([input_only_to_focus]; [input_goes_to_focus] against an
      interface of the dispatcher), and the pointer stays on the screen
      ([pointer_stays_inside]).  The dispatcher
      returns from every call, without undefined behaviour, and counts its
      entries right, on motions whose index and coordinates are in range, which it
      does not test ([dispatcher_never_goes_wrong], [index_out_of_range]); a key reaches the focused
      window and the monitors only ([keys_go_to_focus]); what is queued for a
      connection is published in order ([dispatch_cycle_in_order]).  The state
      kept for a connection is what the client has seen of keys and gestures
      ([mementos_follow_view]), and a cancelation ends all of it
      ([cancelation_releases]).  The consumer repeats no message and loses only
      those it cannot give out ([consume_conserves]) and finishes all of a batch
      ([finishing_finishes_batch]); packed axes are read back as written
      ([packed_coordinates]).  With keyboards, game pads, mice, switches and
      vibrators the reader returns from every call, tells its
      listener of keys and gestures exactly what its mappers hold
      ([listener_never_misled]), and a keyboard's are those that the hardware
      reported ([keys_follow_hardware]).  The heap that matches the pointers of two
      touch reports finds the matching that takes the closest pair first
      ([pointers_matched_greedily]), and what a touch screen's mapper tells is in its
      place and adds up to what it holds, but for one kind of report at which its
      assertion fails and for another configuration at the wrong time
      ([touch_stream_consistent], [hover_lost_fails], [finger_stays_told]).  The event hub returns from every call too,
      and tells of devices and their input consistently and completely, but for the
      identifier under which the built-in keyboard is removed
      ([hub_stream_consistent]); a pass without news of devices stays inside the
      caller's buffer ([quiet_pass_fits]), one with as many as there is room for does
      not ([removals_overflow]).
    - The key maps: whatever the text, the parsers end; a layout that is printed is
      read back as it was ([layout_roundtrip]); every device has both maps
      ([loadKeyMap_complete]), and with the generic ones every text of printable
      characters can be typed ([generic_map_types_text]).
    - The shell: the stack stays well-formed, exactly the focused session is
      visible among those that are registered, and what else is visible belongs to a
      closed session ([focus_is_what_is_visible], [closed_stays_visible]), identifiers are not reused, placement
      fits the display, closing a session removes its surfaces.
    - The protocol: one answer per request ([one_answer_per_request]), requests
      and answers of less than 65536 bytes arrive unchanged, with the descriptors that
      are sent beside them, which are not those of a surface
      ([request_reaches_processor], [answer_reaches_client],
      [surface_descriptors_lost]), and the whole server with any number of clients
      stays in order, handling one event at a time, up to a request for
      [test_file_descriptors] that the generated code does not answer
      ([server_stays_in_order], [test_file_descriptors_undefined]).
    - The client: buffer ages refine the history of the deposits
      ([ages_count_submissions]), answers to [next_buffer] and [configure] end
      the waits for them and wake who waits ([next_buffer_answered]); native handles survive the connection
      ([native_handle_roundtrip]); connecting gives a connection or an error
      ([connect_sync_result]).
    - Faults the model shows: [shutdown_undefined_reachable],
      [destroy_while_rendering], [unregistered_neighbours],
      [vanished_client_stays], [call_in_callback_deadlocks],
      [failed_deposit_loses_current], [failed_select_strands_waiters],
      [populate_bounds], [partial_flip_releases_shown],
      [late_signal_uses_destroyed_server], [incompatible_display_stays],
      [second_waiter_resets], [unknown_method_logs_empty],
      [focus_change_leaves_key_down], [removals_overflow],
      [stylus_release_fails], [hover_lost_fails], [finger_stays_told],
      [index_out_of_range], [surface_descriptors_lost],
      [failed_send_keeps_resource], [test_file_descriptors_undefined],
      [closed_stays_visible], [batch_lost].

    ** Bounds and fuel

    Loops of the code over containers are structural recursions.  One loop needs
    fuel, [Buffers.skip_invalid], which skips the one invalid identifier: one
    round is always enough ([skip_invalid_total]).  The loops of a compositing
    thread are step relations instead, as are those of the threads that wait for
    page flips and for vsync; [KmsFlipper.event_loop] has fuel and the events
    that are left are enough of it ([event_loop_fuel]).  A send or receive that
    signals interrupt is repeated as often as the socket will be interrupted;
    [InputTransport.consume] and the callback of the dispatcher read at most the
    messages that wait, and their theorems ask for that much fuel; the commands
    of the dispatcher are run with [commands_left], which a command that breaks
    a connection uses up.  The parsers of key maps use a character for every round
    ([layout_loads], [virtual_loads], [char_loads]); the passes of [getEvents] have
    [pass_bound], which their theorem shows to be enough; a run of the event hub that
    would give out the last device identifier ends there.  Making the objects of
    the server recurses to the depth [Configuration.depth], which
    [server_is_wired] shows to be enough, and what an object owns is followed
    for as many steps as there are objects.  Counters of type [int] that the
    program never takes near their limit ([next_id] of the channel and of the
    communicator) are undefined at their limit, and the theorems ask to be below
    it; the counts of a wait handle are unbounded.

    ** What is not modelled

    In the reader of the Android input stack, the mappers of joysticks, how the
    settings of touch mappers are worked out and the gestures by which they drive a pointer on
    the screen, and the estimate of velocities; for the reader itself all mappers of
    touch screens and joysticks are an interface ([OtherMappers]; its theorems are
    for devices without them).  The looper, and the
    configuration that creates the objects; the injection of events into the
    dispatcher, which the server does not use, and its dump; calls that other
    threads make while the dispatcher has released its lock to ask the policy;
    the functions of the C interface
    that only forward their arguments; the loggers and the clock; the reference
    counts and the tables of function pointers of Android's native windows.
    boost, protobuf, asio and the drivers are interfaces.  A handler that blocks
    for a buffer keeps its connection blocked in [Server]; its resumption is in
    [Swapper].  An asynchronous write is taken to complete before the next one
    starts. *)

From stdpp Require Export base tactics list gmap strings sorting.
From Stdlib Require Export ZArith Lia.

#[global] Open Scope Z_scope.

(** ** Machine integers

    [uint32_t] values are integers in [0, 2^32); every arithmetic operation of
    the code on them is followed by the reduction [u32].  [int] values are
    integers in [-2^31, 2^31), reduced by [i32]. *)

Definition u32 (z : Z) : Z := z mod 4294967296.

Definition i32 (z : Z) : Z := (z + 2147483648) mod 4294967296 - 2147483648.

Definition is_u32 (z : Z) : Prop := 0 <= z < 4294967296.

Definition is_i32 (z : Z) : Prop := -2147483648 <= z < 2147483648.

(** ** Outcomes of C++ code

    A member function is a state transformer that returns, throws, blocks on
    a condition variable, or has undefined behaviour.  A thrown exception and
    a blocked call keep the effects made so far. *)

Inductive exn : Type :=
| logic_error (what : string)
| runtime_error (what : string)
| errno_error (what : string) (code : Z).

#[export] Instance exn_eq_dec : EqDecision exn.
Proof. solve_decision. Defined.

Inductive outcome (S A : Type) : Type :=
| Ret (a : A) (s : S)
| Throw (e : exn) (s : S)
| Wait (s : S)
| Undef.
Arguments Ret {S A} a s.
Arguments Throw {S A} e s.
Arguments Wait {S A} s.
Arguments Undef {S A}.

Definition M (S A : Type) : Type := S -> outcome S A.

#[export] Instance M_ret {S} : MRet (M S) := fun A a s => Ret a s.

#[export] Instance M_bind {S} : MBind (M S) := fun A B k m s =>
  match m s with
  | Ret a s' => k a s'
  | Throw e s' => Throw e s'
  | Wait s' => Wait s'
  | Undef => Undef
  end.

Definition get {S} : M S S := fun s => Ret s s.

Definition gets {S A} (f : S -> A) : M S A := fun s => Ret (f s) s.

Definition modify {S} (f : S -> S) : M S unit := fun s => Ret tt (f s).

Definition throw {S A} (e : exn) : M S A := fun s => Throw e s.

Definition wait {S A} : M S A := fun s => Wait s.

Definition undefined {S A} : M S A := fun _ => Undef.

(** Dereferencing: a null or dangling access is undefined behaviour. *)
Definition deref {S A} (f : S -> option A) : M S A := fun s =>
  match f s with Some a => Ret a s | None => Undef end.

(** A range-based [for] loop. *)
Fixpoint for_each {S A} (l : list A) (f : A -> M S unit) : M S unit :=
  match l with
  | [] => mret tt
  | x :: l' => f x ;; for_each l' f
  end.

(** [try { m } catch (std::exception const& e) { h e }]. *)
Definition try_catch {S A} (m : M S A) (h : exn -> M S A) : M S A := fun s =>
  match m s with
  | Throw e s' => h e s'
  | o => o
  end.

(** ** Components inside a larger state *)

Record lens (S T : Type) : Type := Lens {
  view : S -> T;
  over : T -> S -> S;
}.
Arguments Lens {S T} view over.
Arguments view {S T} l s.
Arguments over {S T} l t s.

(** Run the code of a component that is a part of a larger state. *)
Definition zoom {S T A} (l : lens S T) (m : M T A) : M S A := fun s =>
  match m (view l s) with
  | Ret a t => Ret a (over l t s)
  | Throw e t => Throw e (over l t s)
  | Wait t => Wait (over l t s)
  | Undef => Undef
  end.

(** ** Weakest preconditions

    [wp m Q E W s]: run from [s], [m] has no undefined behaviour; a normal
    return satisfies [Q], a throw [E], and a blocked call [W]. *)

Definition wp {S A} (m : M S A) (Q : A -> S -> Prop) (E : exn -> S -> Prop)
    (W : S -> Prop) (s : S) : Prop :=
  match m s with
  | Ret a s' => Q a s'
  | Throw e s' => E e s'
  | Wait s' => W s'
  | Undef => False
  end.

(** The state [m] leaves behind, whichever way it ends, satisfies [I] when
    the initial one does; an undefined outcome leaves no state. *)
Definition keeps {S A} (I : S -> Prop) (m : M S A) : Prop :=
  forall s, I s ->
  match m s with
  | Ret _ s' | Throw _ s' | Wait s' => I s'
  | Undef => True
  end.

(** ** [std::map] with integer keys

    The map is its sequence of entries in iteration order, strictly
    increasing in the key. *)

Module OrdMap.

Definition t (V : Type) : Type := list (Z * V).

Fixpoint find {V} (k : Z) (m : list (Z * V)) : option V :=
  match m with
  | [] => None
  | (k', v) :: m' => if Z.eqb k k' then Some v else find k m'
  end.

(** [m[k] = v]. *)
Fixpoint insert {V} (k : Z) (v : V) (m : list (Z * V)) : list (Z * V) :=
  match m with
  | [] => [(k, v)]
  | (k', v') :: m' =>
      if Z.ltb k k' then (k, v) :: (k', v') :: m'
      else if Z.eqb k k' then (k, v) :: m'
      else (k', v') :: insert k v m'
  end.

(** [m.erase(k)]. *)
Fixpoint erase {V} (k : Z) (m : list (Z * V)) : list (Z * V) :=
  match m with
  | [] => []
  | (k', v') :: m' => if Z.eqb k k' then m' else (k', v') :: erase k m'
  end.

Definition keys {V} (m : list (Z * V)) : list Z := map fst m.

Definition sorted {V} (m : list (Z * V)) : Prop := StronglySorted Z.lt (keys m).

Definition to_gmap {V} (m : list (Z * V)) : gmap Z V := list_to_map m.

End OrdMap.

(** ** Lemmas on machine integers *)

Lemma u32_range z : is_u32 (u32 z).
Proof. unfold is_u32, u32. apply Z.mod_pos_bound. lia. Qed.

Lemma u32_id z : is_u32 z -> u32 z = z.
Proof. unfold is_u32, u32. intros. apply Z.mod_small. lia. Qed.

Lemma u32_idemp z : u32 (u32 z) = u32 z.
Proof. apply u32_id, u32_range. Qed.

Lemma u32_add_l a b : u32 (u32 a + b) = u32 (a + b).
Proof. unfold u32. apply Zplus_mod_idemp_l. Qed.

Lemma u32_add_r a b : u32 (a + u32 b) = u32 (a + b).
Proof. unfold u32. apply Zplus_mod_idemp_r. Qed.

Lemma u32_sub_l a b : u32 (u32 a - b) = u32 (a - b).
Proof. unfold u32. apply Zminus_mod_idemp_l. Qed.

Lemma u32_sub_r a b : u32 (a - u32 b) = u32 (a - b).
Proof. unfold u32. apply Zminus_mod_idemp_r. Qed.

Lemma i32_range z : is_i32 (i32 z).
Proof.
  unfold is_i32, i32.
  pose proof (Z.mod_pos_bound (z + 2147483648) 4294967296 ltac:(lia)). lia.
Qed.

Lemma i32_id z : is_i32 z -> i32 z = z.
Proof. unfold is_i32, i32. intros. rewrite Z.mod_small; lia. Qed.

(** The cast of an [int] to [uint32_t] and back is the identity. *)
Lemma i32_u32 z : is_i32 z -> i32 (u32 z) = z.
Proof.
  intros Hz. unfold i32, u32. rewrite Zplus_mod_idemp_l.
  apply i32_id in Hz. exact Hz.
Qed.

(** ** Lemmas on outcomes *)

Section Wp.
Context {S A B : Type}.
Implicit Types (m : M S A) (k : A -> M S B) (s : S).

Lemma wp_bind m k Q E W s :
  wp m (fun a s' => wp (k a) Q E W s') E W s -> wp (m ≫= k) Q E W s.
Proof. unfold wp, mbind, M_bind. destruct (m s); auto. Qed.

Lemma wp_mono m (Q Q' : A -> S -> Prop) (E E' : exn -> S -> Prop) (W W' : S -> Prop) s :
  wp m Q E W s ->
  (forall a s', Q a s' -> Q' a s') -> (forall e s', E e s' -> E' e s') ->
  (forall s', W s' -> W' s') -> wp m Q' E' W' s.
Proof. unfold wp. destruct (m s); auto. Qed.

Lemma keeps_ret (I : S -> Prop) (a : A) : keeps I (mret a).
Proof. intros s Hs. exact Hs. Qed.

Lemma keeps_bind (I : S -> Prop) m k :
  keeps I m -> (forall a, keeps I (k a)) -> keeps I (m ≫= k).
Proof.
  intros Hm Hk s Hs. specialize (Hm s Hs). unfold mbind, M_bind.
  destruct (m s); auto. apply Hk, Hm.
Qed.

Lemma keeps_throw (I : S -> Prop) e : keeps I (throw e : M S A).
Proof. intros s Hs. exact Hs. Qed.

Lemma keeps_wait (I : S -> Prop) : keeps I (wait : M S A).
Proof. intros s Hs. exact Hs. Qed.

Lemma keeps_undefined (I : S -> Prop) : keeps I (undefined : M S A).
Proof. intros s Hs. exact Logic.I. Qed.

Lemma keeps_gets (I : S -> Prop) (f : S -> A) : keeps I (gets f).
Proof. intros s Hs. exact Hs. Qed.

Lemma keeps_deref (I : S -> Prop) (f : S -> option A) : keeps I (deref f).
Proof. intros s Hs. unfold deref. destruct (f s); auto. Qed.

Lemma keeps_modify (I : S -> Prop) f : (forall s, I s -> I (f s)) -> keeps I (modify f).
Proof. intros Hf s Hs. apply Hf, Hs. Qed.

Lemma keeps_for_each (I : S -> Prop) (l : list A) (f : A -> M S unit) :
  (forall x, keeps I (f x)) -> keeps I (for_each l f).
Proof.
  intros Hf. induction l as [|x l IH]; simpl.
  - intros s Hs. exact Hs.
  - intros s Hs. specialize (Hf x s Hs). unfold mbind, M_bind.
    destruct (f x s); auto. apply IH, Hf.
Qed.

Lemma keeps_try_catch (I : S -> Prop) m (h : exn -> M S A) :
  keeps I m -> (forall e, keeps I (h e)) -> keeps I (try_catch m h).
Proof.
  intros Hm Hh s Hs. specialize (Hm s Hs). unfold try_catch.
  destruct (m s); auto. apply Hh, Hm.
Qed.

End Wp.

Create HintDb emir.
#[export] Hint Resolve keeps_ret keeps_throw keeps_wait keeps_undefined keeps_gets
  keeps_deref keeps_for_each : emir.
#[export] Hint Resolve u32_range i32_range : emir.
Create Rewrite HintDb emir.
#[export] Hint Rewrite u32_idemp u32_add_l u32_add_r u32_sub_l u32_sub_r : emir.

(** ** Lemmas on [std::map] *)

Section OrdMapLemmas.
Context {V : Type}.
Implicit Types (m : list (Z * V)) (k : Z) (v : V).

Lemma find_to_gmap m k : OrdMap.to_gmap m !! k = OrdMap.find k m.
Proof.
  unfold OrdMap.to_gmap.
  induction m as [|[k' v'] m IH]; simpl; [apply lookup_empty|].
  destruct (Z.eqb_spec k k') as [->|Hne].
  - apply lookup_insert_eq.
  - rewrite lookup_insert_ne by congruence. exact IH.
Qed.

Lemma find_keys_none m k : k ∉ OrdMap.keys m -> OrdMap.find k m = None.
Proof.
  unfold OrdMap.keys. induction m as [|[k' v'] m IH]; simpl; [done|].
  rewrite not_elem_of_cons. intros [Hne Hni].
  destruct (Z.eqb_spec k k'); [congruence|auto].
Qed.

Lemma find_some_keys m k v : OrdMap.find k m = Some v -> k ∈ OrdMap.keys m.
Proof.
  intros H. destruct (decide (k ∈ OrdMap.keys m)) as [|Hn]; [done|].
  apply find_keys_none in Hn. congruence.
Qed.

Lemma find_some_In m k v : OrdMap.find k m = Some v -> (k, v) ∈ m.
Proof.
  induction m as [|[k' v'] m IH]; simpl; [done|].
  destruct (Z.eqb_spec k k') as [->|Hne]; intros H; simplify_eq.
  - apply list_elem_of_here.
  - apply list_elem_of_further, IH, H.
Qed.

Lemma sorted_nil_map : OrdMap.sorted (@nil (Z * V)).
Proof. constructor. Qed.

Lemma sorted_cons_inv m k v :
  OrdMap.sorted ((k, v) :: m) -> OrdMap.sorted m /\ Forall (Z.lt k) (OrdMap.keys m).
Proof. unfold OrdMap.sorted. simpl. inversion 1; auto. Qed.

Lemma sorted_head_fresh m k v : OrdMap.sorted ((k, v) :: m) -> k ∉ OrdMap.keys m.
Proof.
  intros [_ Hall]%sorted_cons_inv Hin.
  rewrite Forall_forall in Hall. specialize (Hall k Hin). lia.
Qed.

Lemma find_insert m k v k' :
  OrdMap.find k' (OrdMap.insert k v m) = if Z.eqb k' k then Some v else OrdMap.find k' m.
Proof.
  induction m as [|[k0 v0] m IH]; simpl; [done|].
  destruct (Z.ltb_spec k k0); simpl.
  - destruct (Z.eqb_spec k' k); done.
  - destruct (Z.eqb_spec k k0) as [->|Hne]; simpl.
    + destruct (Z.eqb_spec k' k0); done.
    + rewrite IH. destruct (Z.eqb_spec k' k0), (Z.eqb_spec k' k); congruence.
Qed.

Lemma find_erase m k k' :
  OrdMap.sorted m ->
  OrdMap.find k' (OrdMap.erase k m) = if Z.eqb k' k then None else OrdMap.find k' m.
Proof.
  induction m as [|[k0 v0] m IH]; simpl; intros Hs.
  - destruct (Z.eqb k' k); done.
  - pose proof (sorted_head_fresh _ _ _ Hs) as Hf.
    apply sorted_cons_inv in Hs as [Hs _].
    destruct (Z.eqb_spec k k0) as [->|Hne]; simpl.
    + destruct (Z.eqb_spec k' k0) as [E|]; [|done]. rewrite E. by apply find_keys_none.
    + rewrite (IH Hs). destruct (Z.eqb_spec k' k0), (Z.eqb_spec k' k); congruence.
Qed.

Lemma keys_insert m k v k' :
  k' ∈ OrdMap.keys (OrdMap.insert k v m) <-> k' = k \/ k' ∈ OrdMap.keys m.
Proof.
  unfold OrdMap.keys. induction m as [|[k0 v0] m IH]; simpl.
  - rewrite list_elem_of_singleton. set_solver.
  - destruct (Z.ltb_spec k k0); simpl; [set_solver|].
    destruct (Z.eqb_spec k k0) as [->|Hne]; simpl; set_solver.
Qed.

Lemma keys_erase_sub m k : OrdMap.keys (OrdMap.erase k m) ⊆ OrdMap.keys m.
Proof.
  unfold OrdMap.keys. induction m as [|[k0 v0] m IH]; simpl; [done|].
  destruct (Z.eqb_spec k k0); simpl; set_solver.
Qed.

Lemma insert_sorted m k v : OrdMap.sorted m -> OrdMap.sorted (OrdMap.insert k v m).
Proof.
  induction m as [|[k0 v0] m IH]; intros Hs; simpl.
  - repeat constructor.
  - pose proof Hs as [Hm Hall]%sorted_cons_inv.
    destruct (Z.ltb_spec k k0); [|destruct (Z.eqb_spec k k0) as [->|Hne]].
    + constructor; [exact Hs|]. constructor; [simpl; lia|].
      eapply Forall_impl; [exact Hall|]. simpl. intros. lia.
    + exact Hs.
    + constructor; [apply IH, Hm|]. apply Forall_forall. intros x Hx.
      apply keys_insert in Hx as [->|Hx]; [simpl; lia|].
      rewrite Forall_forall in Hall. auto.
Qed.

Lemma erase_sorted m k : OrdMap.sorted m -> OrdMap.sorted (OrdMap.erase k m).
Proof.
  induction m as [|[k0 v0] m IH]; intros Hs; simpl; [done|].
  pose proof Hs as [Hm Hall]%sorted_cons_inv.
  destruct (Z.eqb_spec k k0); [exact Hm|].
  constructor; [apply IH, Hm|]. apply Forall_forall. intros x Hx.
  rewrite Forall_forall in Hall. apply Hall, (keys_erase_sub _ _ _ Hx).
Qed.

Lemma sorted_NoDup m : OrdMap.sorted m -> NoDup (OrdMap.keys m).
Proof.
  induction m as [|[k0 v0] m IH]; intros Hs; simpl; [constructor|].
  constructor; [by eapply sorted_head_fresh|]. apply IH. by apply sorted_cons_inv in Hs as [? _].
Qed.

Lemma find_In_sorted m k v : OrdMap.sorted m -> (k, v) ∈ m -> OrdMap.find k m = Some v.
Proof.
  induction m as [|[k0 v0] m IH]; intros Hs Hin; [inversion Hin|].
  pose proof (sorted_head_fresh _ _ _ Hs) as Hf.
  apply sorted_cons_inv in Hs as [Hs _]. simpl.
  apply elem_of_cons in Hin as [Heq|Hin]; simplify_eq.
  - by rewrite Z.eqb_refl.
  - destruct (Z.eqb_spec k k0) as [->|]; [|auto].
    exfalso. apply Hf. apply list_elem_of_fmap. by exists (k0, v).
Qed.

Lemma find_erase_eq m k : OrdMap.sorted m -> OrdMap.find k (OrdMap.erase k m) = None.
Proof. intros Hs. rewrite find_erase by done. by rewrite Z.eqb_refl. Qed.

Lemma find_insert_eq m k v : OrdMap.find k (OrdMap.insert k v m) = Some v.
Proof. rewrite find_insert. by rewrite Z.eqb_refl. Qed.

Lemma find_insert_ne m k v k' :
  k' <> k -> OrdMap.find k' (OrdMap.insert k v m) = OrdMap.find k' m.
Proof. intros Hne. rewrite find_insert. by destruct (Z.eqb_spec k' k). Qed.

Lemma length_insert_fresh m k v :
  OrdMap.find k m = None -> length (OrdMap.insert k v m) = S (length m).
Proof.
  induction m as [|[k0 v0] m IH]; simpl; [done|].
  destruct (Z.eqb_spec k k0); [done|]. intros Hf.
  destruct (Z.ltb k k0); simpl; [done|]. by rewrite IH.
Qed.

Lemma to_gmap_insert m k v :
  OrdMap.to_gmap (OrdMap.insert k v m) = <[k := v]> (OrdMap.to_gmap m).
Proof.
  apply map_eq. intros k'. rewrite find_to_gmap, find_insert.
  destruct (Z.eqb_spec k' k) as [->|Hne].
  - by rewrite lookup_insert_eq.
  - by rewrite lookup_insert_ne, find_to_gmap by congruence.
Qed.

Lemma to_gmap_erase m k :
  OrdMap.sorted m -> OrdMap.to_gmap (OrdMap.erase k m) = delete k (OrdMap.to_gmap m).
Proof.
  intros Hs. apply map_eq. intros k'. rewrite find_to_gmap, find_erase by done.
  destruct (Z.eqb_spec k' k) as [->|Hne].
  - by rewrite lookup_delete_eq.
  - by rewrite lookup_delete_ne, find_to_gmap by congruence.
Qed.

End OrdMapLemmas.

(** What holds of the entries of an ordered map. *)
Lemma insert_Forall {V} (P : Z * V -> Prop) k v m : P (k, v) -> Forall P m -> Forall P (OrdMap.insert k v m).
Proof. intros Hp. induction 1 as [|[k' v'] m]; cbn; repeat case_match; auto. Qed.

Lemma erase_Forall {V} (P : Z * V -> Prop) k m : Forall P m -> Forall P (OrdMap.erase k m).
Proof. induction 1 as [|[k' v'] m]; cbn; repeat case_match; auto. Qed.

#[export] Hint Resolve sorted_nil_map insert_sorted erase_sorted : emir.

(** ** Double-ended queues *)

(** [front()] and [pop_front()]; [None] on an empty deque. *)
Definition uncons {A} (l : list A) : option (A * list A) :=
  match l with [] => None | a :: l' => Some (a, l') end.

(** [back()] and [pop_back()]. *)
Definition unsnoc {A} (l : list A) : option (list A * A) :=
  match rev l with [] => None | a :: l' => Some (rev l', a) end.

Lemma unsnoc_app {A} (l : list A) (a : A) : unsnoc (l ++ [a]) = Some (l, a).
Proof. unfold unsnoc. rewrite rev_app_distr. simpl. by rewrite rev_involutive. Qed.

Lemma unsnoc_Some {A} (l l' : list A) (a : A) : unsnoc l = Some (l', a) -> l = l' ++ [a].
Proof.
  unfold unsnoc. destruct (rev l) as [|b r] eqn:E; [done|].
  intros [= <- <-]. rewrite <- (rev_involutive l), E. reflexivity.
Qed.

Lemma unsnoc_None {A} (l : list A) : unsnoc l = None -> l = [].
Proof.
  unfold unsnoc. destruct (rev l) as [|b r] eqn:E; [|done]. intros _.
  by rewrite <- (rev_involutive l), E.
Qed.

(** Removing one occurrence of an element. *)
Fixpoint remove1 {A} `{EqDecision A} (a : A) (l : list A) : list A :=
  match l with
  | [] => []
  | b :: l' => if decide (a = b) then l' else b :: remove1 a l'
  end.

Lemma remove1_perm {A} `{EqDecision A} (a : A) (l : list A) :
  a ∈ l -> Permutation l (a :: remove1 a l).
Proof.
  induction l as [|b l IH]; intros Hin; [inversion Hin|]. simpl.
  destruct (decide (a = b)) as [->|Hne]; [done|].
  apply elem_of_cons in Hin as [->|Hin]; [done|].
  rewrite (IH Hin) at 1. apply Permutation_swap.
Qed.

Lemma remove1_length {A} `{EqDecision A} (a : A) (l : list A) :
  a ∈ l -> length l = S (length (remove1 a l)).
Proof. intros Hin. by rewrite (remove1_perm a l Hin) at 1. Qed.

Lemma remove1_elem_of {X} `{EqDecision X} (x y : X) l :
  NoDup l -> y ∈ remove1 x l <-> y ∈ l /\ y <> x.
Proof.
  induction l as [|z l IH]; intros Hnd; simpl; [set_solver|].
  apply NoDup_cons in Hnd as [Hz Hnd]. case_decide as E; [set_solver|].
  rewrite !elem_of_cons, (IH Hnd). set_solver.
Qed.

Lemma remove1_NoDup {X} `{EqDecision X} (x : X) l : NoDup l -> NoDup (remove1 x l).
Proof.
  induction l as [|z l IH]; intros Hnd; simpl; [done|].
  apply NoDup_cons in Hnd as [Hz Hnd]. case_decide as E; [done|].
  constructor; [|auto]. rewrite remove1_elem_of by done. tauto.
Qed.

(** ** Condition variables

    [std::condition_variable]: the number of threads blocked in [wait], and
    of threads that a notification has taken out of [wait] and that have not
    yet run again. *)

Record CondVar : Set := mkCondVar { waiting : nat; woken : nat }.

Definition cv_init : CondVar := mkCondVar 0 0.

Definition cv_block (cv : CondVar) : CondVar := mkCondVar (S (waiting cv)) (woken cv).

Definition cv_notify_one (cv : CondVar) : CondVar :=
  match waiting cv with
  | O => cv
  | S n => mkCondVar n (S (woken cv))
  end.

Definition cv_notify_all (cv : CondVar) : CondVar :=
  mkCondVar 0 (waiting cv + woken cv).

(** A woken thread takes the mutex again. *)
Definition cv_resume (cv : CondVar) : CondVar := mkCondVar (waiting cv) (pred (woken cv)).

Lemma keys_insert_perm {V} (m : list (Z * V)) k v :
  OrdMap.find k m = None ->
  Permutation (OrdMap.keys (OrdMap.insert k v m)) (k :: OrdMap.keys m).
Proof.
  unfold OrdMap.keys. induction m as [|[k0 v0] m IH]; simpl; [done|].
  destruct (Z.eqb_spec k k0); [done|]. intros Hf.
  destruct (Z.ltb k k0); simpl; [done|]. rewrite (IH Hf). apply Permutation_swap.
Qed.

Lemma find_none_keys {V} (m : list (Z * V)) k : OrdMap.find k m = None -> k ∉ OrdMap.keys m.
Proof.
  unfold OrdMap.keys. induction m as [|[k0 v0] m IH]; simpl; [set_solver|].
  destruct (Z.eqb_spec k k0); [done|]. set_solver.
Qed.

Lemma keys_find {V} (m : list (Z * V)) k :
  k ∈ OrdMap.keys m -> exists v, OrdMap.find k m = Some v.
Proof.
  intros Hin. destruct (OrdMap.find k m) eqn:E; [eauto|].
  by apply find_none_keys in E.
Qed.

(** Case analysis on the test of an [if] or the scrutinee of a [match] in a
    hypothesis or the goal, closing the impossible cases. *)
Ltac split_cases :=
  repeat (case_match; simplify_eq/=; try done).

Lemma remove1_app_last {A} `{EqDecision A} (a : A) (l : list A) :
  a ∉ l -> remove1 a (l ++ [a]) = l.
Proof.
  induction l as [|b l IH]; intros Hn; simpl.
  - by rewrite decide_True.
  - rewrite decide_False by set_solver. f_equal. apply IH. set_solver.
Qed.

Lemma remove1_notin {A} `{EqDecision A} (a : A) (l : list A) : a ∉ l -> remove1 a l = l.
Proof.
  induction l as [|b l IH]; intros Hn; simpl; [done|].
  rewrite decide_False by set_solver. f_equal. apply IH. set_solver.
Qed.

Lemma erase_subset {V} (m : list (Z * V)) k v : v ∈ OrdMap.erase k m -> v ∈ m.
Proof.
  induction m as [|[k0 v0] m IH]; simpl; [done|].
  destruct (Z.eqb k k0); set_solver.
Qed.

Lemma insert_elem {V} (m : list (Z * V)) k (x : V) k' v :
  (k', v) ∈ OrdMap.insert k x m -> (k' = k /\ v = x) \/ (k', v) ∈ m.
Proof.
  induction m as [|[k0 v0] m IH]; simpl.
  - intros [= -> ->]%list_elem_of_singleton. by left.
  - destruct (Z.ltb k k0); [|destruct (Z.eqb k k0)];
      rewrite ?elem_of_cons; intros; naive_solver.
Qed.

Lemma list_elem_of_split_length {A} (l : list A) i x :
  l !! i = Some x -> exists l1 l2, l = l1 ++ x :: l2 /\ i = length l1.
Proof.
  intros Hi. exists (take i l), (drop (S i) l). split.
  - symmetry. by apply take_drop_middle.
  - rewrite length_take. apply lookup_lt_Some in Hi. lia.
Qed.

(** ** A number that is not in a set *)

Definition above (s : gset Z) : Z := 1 + foldr Z.max 0 (elements s).

Lemma above_fresh s : (above s ∉ s) /\ 0 < above s.
Proof.
  assert (forall l : list Z, 0 <= foldr Z.max 0 l /\ forall x, x ∈ l -> x <= foldr Z.max 0 l) as Hl.
  { induction l as [|y l [H0 IH]]; simpl; [split; [done|set_solver]|]. split; [lia|].
    intros x [->|Hx]%elem_of_cons; [lia|]. specialize (IH x Hx). lia. }
  unfold above. destruct (Hl (elements s)) as [H0 H1]. split; [|lia]. intros Hin%elem_of_elements%H1. lia.
Qed.
