(* ===== verification/Geometry.v ===== *)
(** * Geometry

    The typed integers, points, sizes, rectangles and displacements of
    [include/shared/mir/geometry/].  Every dimension is a tagged [uint32_t]:
    the tag keeps widths, heights, coordinates and deltas apart, and all
    arithmetic wraps around at 2^32. *)

From S2P Require Import Prelude.

(** The tags of [dimensions.h]. *)
Module Dim.
Inductive DimensionTag : Set := width | height | x | y | dx | dy | stride.
End Dim.

#[export] Instance DimensionTag_eq_dec : EqDecision Dim.DimensionTag.
Proof. solve_decision. Defined.

Record IntWrapper (Tag : Dim.DimensionTag) : Set := wrap_raw { as_uint32_t : Z }.
Arguments wrap_raw {Tag} _.
Arguments as_uint32_t {Tag} _.

#[export] Instance IntWrapper_eq_dec Tag : EqDecision (IntWrapper Tag).
Proof. solve_decision. Defined.

(** [explicit IntWrapper(AnyInteger value)]: the cast to [uint32_t]. *)
Definition wrap {Tag} (value : Z) : IntWrapper Tag := wrap_raw (u32 value).

(** [IntWrapper() : value(0)]. *)
Definition wrap0 {Tag} : IntWrapper Tag := wrap_raw 0.

Definition dim_eqb {Tag} (lhs rhs : IntWrapper Tag) : bool :=
  Z.eqb (as_uint32_t lhs) (as_uint32_t rhs).

Definition dim_neqb {Tag} (lhs rhs : IntWrapper Tag) : bool :=
  negb (Z.eqb (as_uint32_t lhs) (as_uint32_t rhs)).

Definition dim_leb {Tag} (lhs rhs : IntWrapper Tag) : bool :=
  Z.leb (as_uint32_t lhs) (as_uint32_t rhs).

Definition dim_geb {Tag} (lhs rhs : IntWrapper Tag) : bool :=
  Z.leb (as_uint32_t rhs) (as_uint32_t lhs).

Definition dim_ltb {Tag} (lhs rhs : IntWrapper Tag) : bool :=
  Z.ltb (as_uint32_t lhs) (as_uint32_t rhs).

Definition dim_gtb {Tag} (lhs rhs : IntWrapper Tag) : bool :=
  Z.ltb (as_uint32_t rhs) (as_uint32_t lhs).

Abbreviation Width := (IntWrapper Dim.width).
Abbreviation Height := (IntWrapper Dim.height).
Abbreviation Stride := (IntWrapper Dim.stride).
Abbreviation X := (IntWrapper Dim.x).
Abbreviation Y := (IntWrapper Dim.y).
Abbreviation DeltaX := (IntWrapper Dim.dx).
Abbreviation DeltaY := (IntWrapper Dim.dy).

(** The overloads of [operator+] and [operator-]: deltas with deltas, deltas
    with coordinates, and the difference of two coordinates. *)
Definition dim_add {T1 T2 T3} (lhs : IntWrapper T1) (rhs : IntWrapper T2) : IntWrapper T3 :=
  wrap (u32 (as_uint32_t lhs + as_uint32_t rhs)).

Definition dim_sub {T1 T2 T3} (lhs : IntWrapper T1) (rhs : IntWrapper T2) : IntWrapper T3 :=
  wrap (u32 (as_uint32_t lhs - as_uint32_t rhs)).

Definition deltax_add : DeltaX -> DeltaX -> DeltaX := dim_add.
Definition deltay_add : DeltaY -> DeltaY -> DeltaY := dim_add.
Definition deltax_sub : DeltaX -> DeltaX -> DeltaX := dim_sub.
Definition deltay_sub : DeltaY -> DeltaY -> DeltaY := dim_sub.
Definition x_add : X -> DeltaX -> X := dim_add.
Definition y_add : Y -> DeltaY -> Y := dim_add.
Definition x_sub : X -> DeltaX -> X := dim_sub.
Definition y_sub : Y -> DeltaY -> Y := dim_sub.
Definition x_diff : X -> X -> DeltaX := dim_sub.
Definition y_diff : Y -> Y -> DeltaY := dim_sub.

(** [dim_cast<Target>(s)]. *)
Definition dim_cast {Source Target} (s : IntWrapper Source) : IntWrapper Target :=
  wrap (as_uint32_t s).

Record Point : Set := mkPoint { point_x : X; point_y : Y }.

Definition point_eqb (lhs rhs : Point) : bool :=
  dim_eqb (point_x lhs) (point_x rhs) && dim_eqb (point_y lhs) (point_y rhs).

Definition point_neqb (lhs rhs : Point) : bool :=
  dim_neqb (point_x lhs) (point_x rhs) || dim_neqb (point_y lhs) (point_y rhs).

Record Size : Set := mkSize { size_width : Width; size_height : Height }.

(** [Size() {}]: both members default-constructed. *)
Definition size0 : Size := mkSize wrap0 wrap0.

Definition size_eqb (lhs rhs : Size) : bool :=
  dim_eqb (size_width lhs) (size_width rhs) && dim_eqb (size_height lhs) (size_height rhs).

Definition size_neqb (lhs rhs : Size) : bool :=
  dim_neqb (size_width lhs) (size_width rhs) || dim_neqb (size_height lhs) (size_height rhs).

Record Rectangle : Set := mkRectangle { top_left : Point; rect_size : Size }.

Definition rectangle_eqb (lhs rhs : Rectangle) : bool :=
  point_eqb (top_left lhs) (top_left rhs) && size_eqb (rect_size lhs) (rect_size rhs).

Definition rectangle_neqb (lhs rhs : Rectangle) : bool :=
  point_neqb (top_left lhs) (top_left rhs) || size_neqb (rect_size lhs) (rect_size rhs).

Record Displacement : Set := mkDisplacement { disp_dx : DeltaX; disp_dy : DeltaY }.

Definition displacement_eqb (lhs rhs : Displacement) : bool :=
  dim_eqb (disp_dx lhs) (disp_dx rhs) && dim_eqb (disp_dy lhs) (disp_dy rhs).

Definition displacement_neqb (lhs rhs : Displacement) : bool :=
  dim_neqb (disp_dx lhs) (disp_dx rhs) || dim_neqb (disp_dy lhs) (disp_dy rhs).

Definition displacement_add (lhs rhs : Displacement) : Displacement :=
  mkDisplacement (deltax_add (disp_dx lhs) (disp_dx rhs)) (deltay_add (disp_dy lhs) (disp_dy rhs)).

Definition displacement_sub (lhs rhs : Displacement) : Displacement :=
  mkDisplacement (deltax_sub (disp_dx lhs) (disp_dx rhs)) (deltay_sub (disp_dy lhs) (disp_dy rhs)).

Definition point_add (lhs : Point) (rhs : Displacement) : Point :=
  mkPoint (x_add (point_x lhs) (disp_dx rhs)) (y_add (point_y lhs) (disp_dy rhs)).

Definition point_sub (lhs : Point) (rhs : Displacement) : Point :=
  mkPoint (x_sub (point_x lhs) (disp_dx rhs)) (y_sub (point_y lhs) (disp_dy rhs)).

Definition point_diff (lhs rhs : Point) : Displacement :=
  mkDisplacement (x_diff (point_x lhs) (point_x rhs)) (y_diff (point_y lhs) (point_y rhs)).

(** [enum class PixelFormat : uint32_t] has a fixed underlying type, so a
    [static_cast] of any [uint32_t] gives a value of it: the enumerators are
    named constants of a 32-bit integer. *)
Record PixelFormat : Set := mkPixelFormat { pf_value : Z }.

#[export] Instance PixelFormat_eq_dec : EqDecision PixelFormat.
Proof. solve_decision. Defined.

Definition pf_invalid : PixelFormat := mkPixelFormat 0.
Definition abgr_8888 : PixelFormat := mkPixelFormat 1.
Definition xbgr_8888 : PixelFormat := mkPixelFormat 2.
Definition argb_8888 : PixelFormat := mkPixelFormat 3.
Definition xrgb_8888 : PixelFormat := mkPixelFormat 4.
Definition bgr_888 : PixelFormat := mkPixelFormat 5.

(** [static_cast<PixelFormat>(v)] of an integer [v]. *)
Definition pixel_format_cast (v : Z) : PixelFormat := mkPixelFormat (u32 v).

(** ** Well-formed values: what the constructors can build. *)

Definition dim_ok {Tag} (d : IntWrapper Tag) : Prop := is_u32 (as_uint32_t d).

Definition point_ok (p : Point) : Prop := dim_ok (point_x p) /\ dim_ok (point_y p).

Definition size_ok (s : Size) : Prop := dim_ok (size_width s) /\ dim_ok (size_height s).

Definition disp_ok (d : Displacement) : Prop := dim_ok (disp_dx d) /\ dim_ok (disp_dy d).

Lemma wrap_ok Tag (v : Z) : dim_ok (wrap (Tag := Tag) v).
Proof. apply u32_range. Qed.

Lemma dim_eqb_eq Tag (a b : IntWrapper Tag) : dim_eqb a b = true <-> a = b.
Proof.
  unfold dim_eqb. destruct a, b. simpl. rewrite Z.eqb_eq. split; congruence.
Qed.

Lemma size_eqb_eq (a b : Size) : size_eqb a b = true <-> a = b.
Proof.
  unfold size_eqb. rewrite andb_true_iff, !dim_eqb_eq.
  destruct a, b; simpl. split; [intros [-> ->]|intros [=]]; auto.
Qed.

Lemma point_eqb_eq (a b : Point) : point_eqb a b = true <-> a = b.
Proof.
  unfold point_eqb. rewrite andb_true_iff, !dim_eqb_eq.
  destruct a, b; simpl. split; [intros [-> ->]|intros [=]]; auto.
Qed.

Lemma wrap_eq Tag (a b : Z) : u32 a = u32 b -> wrap (Tag := Tag) a = wrap b.
Proof. unfold wrap. by intros ->. Qed.

(** [(a + d) - d] and [(a - b) + b] give [a] back, wrap-around included. *)
Lemma dim_add_sub T1 T2 (a : IntWrapper T1) (d : IntWrapper T2) :
  dim_ok a -> dim_sub (dim_add a d : IntWrapper T1) d = a.
Proof.
  unfold dim_ok, dim_sub, dim_add, wrap. destruct a as [a], d as [d]; simpl.
  intros Ha. f_equal. autorewrite with emir. rewrite Z.add_simpl_r. by apply u32_id.
Qed.

Lemma dim_sub_add T1 T2 (a b : IntWrapper T1) :
  dim_ok a -> dim_add b (dim_sub a b : IntWrapper T2) = a.
Proof.
  unfold dim_ok, dim_sub, dim_add, wrap. destruct a as [a], b as [b]; simpl.
  intros Ha. f_equal. autorewrite with emir.
  replace (b + (a - b)) with a by lia. by apply u32_id.
Qed.

Lemma dim_add_assoc T1 T2 (a : IntWrapper T1) (d e : IntWrapper T2) :
  dim_add (dim_add a d : IntWrapper T1) e = (dim_add a (dim_add d e : IntWrapper T2) : IntWrapper T1).
Proof.
  unfold dim_add, wrap. destruct a as [a], d as [d], e as [e]; simpl.
  f_equal. autorewrite with emir. f_equal. lia.
Qed.

#[export] Hint Resolve wrap_ok dim_add_sub dim_sub_add : emir.

(** Geometry arithmetic is exact in spite of the unsigned representation:
    moving a point by a displacement and back is the identity, the
    displacement between two points leads from one to the other, and two
    moves are one move by the sum, for all 32-bit values, wrap-around
    included. *)
Theorem point_displacement_laws (p q : Point) (d e : Displacement) :
  point_ok p ->
  point_sub (point_add p d) d = p /\
  point_add q (point_diff p q) = p /\
  point_add (point_add p d) e = point_add p (displacement_add d e).
Proof.
  intros [Hx Hy]. unfold point_add, point_sub, point_diff, displacement_add.
  destruct p as [px py], q as [qx qy]; simpl in *.
  unfold x_add, y_add, x_sub, y_sub, x_diff, y_diff, deltax_add, deltay_add.
  rewrite !dim_add_assoc. repeat split; f_equal; auto with emir.
Qed.

Lemma point_displacement_laws_witness :
  let p := mkPoint (wrap 3) (wrap (-2)) in
  let d := mkDisplacement (wrap (-7)) (wrap 5) in
  point_sub (point_add p d) d = p /\
  point_add (mkPoint wrap0 wrap0) (point_diff p (mkPoint wrap0 wrap0)) = p /\
  point_add (point_add p d) d = point_add p (displacement_add d d).
Proof.
  intros p d. apply (point_displacement_laws p (mkPoint wrap0 wrap0) d d).
  split; apply wrap_ok.
Defined.
