(* ===== verification/Buffers.v ===== *)
(** * Graphics buffers

    Buffer identifiers and their generator ([buffer_id.h],
    [buffer_basic.cpp]), buffer properties ([buffer_properties.h]) and the
    buffer interface seen by the compositor and by IPC ([buffer.h],
    [buffer_ipc_package.h]). *)

From S2P Require Import Prelude Geometry.

(** [class BufferID]: a [uint32_t] with 0 as the invalid value. *)
Record BufferID : Set := mkBufferID { bid_value : Z }.

#[export] Instance BufferID_eq_dec : EqDecision BufferID.
Proof. solve_decision. Defined.

Definition id_invalid : Z := 0.

Definition bid_default : BufferID := mkBufferID id_invalid.

Definition is_valid (b : BufferID) : bool := negb (Z.eqb id_invalid (bid_value b)).

Definition bid_ltb (lhs rhs : BufferID) : bool := Z.ltb (bid_value lhs) (bid_value rhs).

Definition bid_eqb (lhs rhs : BufferID) : bool := Z.eqb (bid_value lhs) (bid_value rhs).

Definition bid_neqb (lhs rhs : BufferID) : bool := negb (Z.eqb (bid_value lhs) (bid_value rhs)).

(** [next_id.fetch_add(1)] on the static [std::atomic<uint32_t>]: returns the
    old value and the new one. *)
Definition fetch_add1 (next_id : Z) : Z * Z := (u32 next_id, u32 (next_id + 1)).

(** [while (!id.is_valid()) id = BufferID(next_id.fetch_add(1));], at most
    [fuel] times round; [None] when the fuel runs out first. *)
Fixpoint skip_invalid (fuel : nat) (id : BufferID) (next_id : Z) : option (BufferID * Z) :=
  if is_valid id then Some (id, next_id)
  else match fuel with
       | O => None
       | S fuel' =>
           let '(v, next_id') := fetch_add1 next_id in
           skip_invalid fuel' (mkBufferID v) next_id'
       end.

(** [generate_next_buffer_id()] on the counter's value.  One iteration of the
    loop is always enough ([skip_invalid_total]). *)
Definition generate_next_buffer_id (next_id : Z) : option (BufferID * Z) :=
  let '(v, next_id') := fetch_add1 next_id in
  skip_invalid 1 (mkBufferID v) next_id'.

(** The identifiers of [n] buffers constructed in a row. *)
Fixpoint generate_ids (n : nat) (next_id : Z) : option (list BufferID * Z) :=
  match n with
  | O => Some ([], next_id)
  | S n' =>
      '(b, next') ← generate_next_buffer_id next_id;
      '(bs, next'') ← generate_ids n' next';
      Some (b :: bs, next'')
  end.

(** [enum class BufferUsage]: an [int] underneath, so a cast of any [int] is
    a value of it. *)
Record BufferUsage : Set := mkBufferUsage { usage_value : Z }.

Definition usage_undefined : BufferUsage := mkBufferUsage 0.
Definition usage_hardware : BufferUsage := mkBufferUsage 1.
Definition usage_software : BufferUsage := mkBufferUsage 2.

Definition usage_eqb (a b : BufferUsage) : bool := Z.eqb (usage_value a) (usage_value b).

Definition pf_eqb (a b : PixelFormat) : bool := Z.eqb (pf_value a) (pf_value b).

Record BufferProperties : Set := mkBufferProperties {
  bp_size : Size;
  bp_format : PixelFormat;
  bp_usage : BufferUsage;
}.

(** [BufferProperties()]. *)
Definition buffer_properties0 : BufferProperties :=
  mkBufferProperties size0 pf_invalid usage_undefined.

Definition buffer_properties_eqb (lhs rhs : BufferProperties) : bool :=
  size_eqb (bp_size lhs) (bp_size rhs) &&
  pf_eqb (bp_format lhs) (bp_format rhs) &&
  usage_eqb (bp_usage lhs) (bp_usage rhs).

Definition buffer_properties_neqb (lhs rhs : BufferProperties) : bool :=
  negb (buffer_properties_eqb lhs rhs).

(** [struct BufferIPCPackage]. *)
Record BufferIPCPackage : Set := mkBufferIPCPackage {
  ipc_data : list Z;
  ipc_fds : list Z;
  ipc_stride : Z;
}.

(** A [compositor::Buffer] as its interface shows it. *)
Record Buffer : Set := mkBuffer {
  buffer_id : BufferID;
  buffer_size : Size;
  buffer_stride : Stride;
  buffer_pixel_format : PixelFormat;
  buffer_ipc_package : BufferIPCPackage;
}.

(** ** The generator *)

Lemma is_valid_spec (b : BufferID) : is_valid b = true <-> bid_value b <> 0.
Proof.
  unfold is_valid, id_invalid. rewrite negb_true_iff, Z.eqb_neq. lia.
Qed.

(** What one call does, in closed form. *)
Lemma generate_next_spec (next_id : Z) :
  generate_next_buffer_id next_id =
    let v := if Z.eqb (u32 next_id) 0 then 1 else u32 next_id in
    Some (mkBufferID v, u32 (v + 1)).
Proof.
  unfold generate_next_buffer_id, fetch_add1; simpl.
  unfold is_valid, id_invalid; cbn [bid_value]. rewrite (Z.eqb_sym 0).
  destruct (Z.eqb_spec (u32 next_id) 0) as [E|Hne]; simpl.
  - rewrite <- u32_add_l, E. reflexivity.
  - by rewrite u32_add_l.
Qed.

(** The loop needs at most one more round, whatever extra fuel it has. *)
Lemma skip_invalid_total (fuel : nat) (next_id : Z) :
  skip_invalid (S fuel) (mkBufferID (u32 next_id)) (u32 (next_id + 1)) =
  generate_next_buffer_id next_id.
Proof.
  rewrite generate_next_spec. simpl.
  unfold is_valid, id_invalid; cbn [bid_value]. rewrite (Z.eqb_sym 0).
  destruct (Z.eqb_spec (u32 next_id) 0) as [E|Hne]; simpl.
  - rewrite <- u32_add_l, E. by destruct fuel.
  - by rewrite u32_add_l.
Qed.

(** The [i]-th identifier generated from [next_id] is the [i]-th successor on
    the cycle 1, ..., 2^32 - 1. *)
Definition nth_id (next_id : Z) (i : Z) : Z :=
  ((if Z.eqb (u32 next_id) 0 then 0 else u32 next_id - 1) + i) mod 4294967295 + 1.

Lemma nth_id_succ next_id i :
  nth_id (nth_id next_id 0 + 1) i = nth_id next_id (i + 1).
Proof.
  unfold nth_id at 2. rewrite Z.add_0_r.
  pose proof (u32_range next_id) as Hn. unfold is_u32 in Hn.
  set (p := if Z.eqb (u32 next_id) 0 then 0 else u32 next_id - 1).
  assert (0 <= p < 4294967295) as Hp.
  { unfold p. destruct (Z.eqb_spec (u32 next_id) 0); lia. }
  rewrite (Z.mod_small p) by lia. unfold nth_id. fold p. f_equal.
  destruct (Z.eq_dec p 4294967294) as [->|Hne].
  - replace (u32 (4294967294 + 1 + 1)) with 0 by reflexivity. simpl Z.eqb. cbv iota.
    replace (4294967294 + (i + 1)) with (i + 1 * 4294967295) by lia.
    by rewrite Z.mod_add by lia.
  - rewrite (u32_id (p + 1 + 1)) by (unfold is_u32; lia).
    destruct (Z.eqb_spec (p + 1 + 1) 0); [lia|]. f_equal. lia.
Qed.

Lemma nth_id_u32 next_id i : nth_id (u32 next_id) i = nth_id next_id i.
Proof. unfold nth_id. by rewrite u32_idemp. Qed.

Lemma generate_ids_spec (n : nat) (next_id : Z) :
  exists next',
    generate_ids n next_id =
      Some ((fun i : nat => mkBufferID (nth_id next_id (Z.of_nat i))) <$> seq 0 n, next').
Proof.
  revert next_id. induction n as [|n IH]; intros next_id; [by exists next_id|].
  simpl generate_ids. rewrite generate_next_spec. cbv zeta.
  set (v := if Z.eqb (u32 next_id) 0 then 1 else u32 next_id).
  assert (Hv : v = nth_id next_id 0).
  { unfold v, nth_id. pose proof (u32_range next_id) as Hn. unfold is_u32 in Hn.
    rewrite Z.add_0_r.
    destruct (Z.eqb_spec (u32 next_id) 0); [reflexivity|]. rewrite Z.mod_small by lia. lia. }
  destruct (IH (u32 (v + 1))) as (next' & Hg).
  exists next'. simpl. rewrite Hg. simpl. f_equal. f_equal.
  f_equal; [by rewrite Hv|].
  rewrite <- fmap_S_seq, <- list_fmap_compose. apply list_fmap_ext. intros i j _. simpl.
  rewrite nth_id_u32, Hv, nth_id_succ. f_equal. f_equal. lia.
Qed.

Lemma nth_id_range next_id i : 1 <= nth_id next_id i <= 4294967295.
Proof. unfold nth_id. pose proof (Z.mod_pos_bound
  ((if Z.eqb (u32 next_id) 0 then 0 else u32 next_id - 1) + i) 4294967295). lia. Qed.

Lemma nth_id_inj next_id i j :
  0 <= i < 4294967295 -> 0 <= j < 4294967295 -> nth_id next_id i = nth_id next_id j -> i = j.
Proof.
  unfold nth_id. set (p := if Z.eqb (u32 next_id) 0 then 0 else u32 next_id - 1).
  intros Hi Hj Heq.
  assert ((p + i) mod 4294967295 = (p + j) mod 4294967295) as Hm by lia.
  clearbody p. clear Heq. Z.to_euclidean_division_equations. lia.
Qed.

Lemma generate_ids_NoDup (n : nat) (next_id : Z) ids next' :
  Z.of_nat n <= 4294967295 -> generate_ids n next_id = Some (ids, next') -> NoDup ids.
Proof.
  intros Hlen Hg. destruct (generate_ids_spec n next_id) as (next2 & Hg2).
  rewrite Hg in Hg2. injection Hg2 as -> _.
  apply NoDup_fmap_2_strong; [|apply NoDup_seq].
  intros i j Hi Hj [= Heq]. apply elem_of_seq in Hi, Hj.
  apply Nat2Z.inj, (nth_id_inj next_id); [lia|lia|done].
Qed.

(** The buffer identifier generator always returns, never returns the
    invalid identifier 0, and any 2^32 - 1 buffers created in a row have
    pairwise distinct identifiers, whatever the counter's value, its
    wrap-around included. *)
Theorem generated_ids_valid_distinct (n : nat) (next_id : Z) :
  Z.of_nat n <= 4294967295 ->
  exists ids next',
    generate_ids n next_id = Some (ids, next') /\ length ids = n /\
    Forall (fun b => is_valid b = true /\ is_u32 (bid_value b)) ids /\ NoDup ids.
Proof.
  intros Hlen. destruct (generate_ids_spec n next_id) as (next' & Hg).
  eexists _, next'. split; [exact Hg|]. split; [by rewrite length_fmap, length_seq|].
  split; [|by eapply generate_ids_NoDup].
  apply Forall_fmap, Forall_forall. intros i _. simpl. rewrite is_valid_spec.
  pose proof (nth_id_range next_id (Z.of_nat i)). unfold is_u32. simpl. lia.
Qed.

Lemma generated_ids_valid_distinct_witness :
  exists ids next',
    generate_ids 3 4294967295 = Some (ids, next') /\ length ids = 3%nat /\
    Forall (fun b => is_valid b = true /\ is_u32 (bid_value b)) ids /\ NoDup ids.
Proof. apply (generated_ids_valid_distinct 3 4294967295). lia. Defined.
