(* ===== verification/Swapper.v ===== *)
(** * The buffer swapper

    [compositor::BufferSwapperMulti] ([buffer_swapper_multi.cpp]): the
    double or triple buffering between one client, which draws, and the
    compositor, which displays.  The member functions run under
    [swapper_mutex], so each is one atomic step; [client_acquire] may wait on
    [client_available_cv].  The second half of the file lets any number of
    acquisitions and releases interleave and proves what the swapper promises
    to both sides. *)

From S2P Require Import Prelude Geometry Buffers.

Record BufferSwapperMulti : Set := mkSwapper {
  buffers : list (Z * option Buffer);
  client_available_cv : CondVar;
  client_queue : list BufferID;
  compositor_queue : list BufferID;
  in_use_by_client : Z;
}.

Definition swapper0 : BufferSwapperMulti := mkSwapper [] cv_init [] [] 0.

Definition set_buffers (b : list (Z * option Buffer)) (s : BufferSwapperMulti) :=
  mkSwapper b (client_available_cv s) (client_queue s) (compositor_queue s) (in_use_by_client s).
Definition set_cv (cv : CondVar) (s : BufferSwapperMulti) :=
  mkSwapper (buffers s) cv (client_queue s) (compositor_queue s) (in_use_by_client s).
Definition set_client_queue (q : list BufferID) (s : BufferSwapperMulti) :=
  mkSwapper (buffers s) (client_available_cv s) q (compositor_queue s) (in_use_by_client s).
Definition set_compositor_queue (q : list BufferID) (s : BufferSwapperMulti) :=
  mkSwapper (buffers s) (client_available_cv s) (client_queue s) q (in_use_by_client s).
Definition set_in_use (n : Z) (s : BufferSwapperMulti) :=
  mkSwapper (buffers s) (client_available_cv s) (client_queue s) (compositor_queue s) n.

(** [buffers[id]] on a [std::map]: a missing key is inserted with a null
    pointer. *)
Definition buffers_at (id : BufferID) : M BufferSwapperMulti (option Buffer) := fun s =>
  match OrdMap.find (bid_value id) (buffers s) with
  | Some b => Ret b s
  | None => Ret None (set_buffers (OrdMap.insert (bid_value id) None (buffers s)) s)
  end.

(** [initialize_queues(buffer_list)]. *)
Definition initialize_queues (buffer_list : list Buffer) : M BufferSwapperMulti unit :=
  if (negb (Nat.eqb (length buffer_list) 2)) && (negb (Nat.eqb (length buffer_list) 3))
  then throw (logic_error "BufferSwapperMulti is only validated for 2 or 3 buffers")
  else for_each buffer_list (fun buffer =>
    modify (fun s =>
      set_buffers (OrdMap.insert (bid_value (buffer_id buffer)) (Some buffer) (buffers s)) s) ;;
    modify (fun s => set_client_queue (client_queue s ++ [buffer_id buffer]) s)).

(** The constructor: the new swapper, or the exception. *)
Definition BufferSwapperMulti_new (buffer_list : list Buffer) : outcome BufferSwapperMulti unit :=
  initialize_queues buffer_list swapper0.

(** [client_queue.empty() || in_use_by_client == buffers.size() - 1], the
    right-hand side computed on [size_t]. *)
Definition client_must_wait (s : BufferSwapperMulti) : bool :=
  match client_queue s with
  | [] => true
  | _ => Z.eqb (in_use_by_client s)
           ((Z.of_nat (length (buffers s)) - 1) mod 18446744073709551616)
  end.

(** The body of [client_acquire] from the test of the [while] loop on: a
    blocked thread waits on the condition variable, and starts here again
    when it is woken. *)
Definition client_acquire : M BufferSwapperMulti (option Buffer * BufferID) := fun s =>
  if client_must_wait s then Wait (set_cv (cv_block (client_available_cv s)) s)
  else match uncons (client_queue s) with
       | None => Undef
       | Some (dequeued_buffer, q) =>
           let s1 := set_client_queue q s in
           match buffers_at dequeued_buffer s1 with
           | Ret buffer_reference s2 =>
               Ret (buffer_reference, dequeued_buffer)
                   (set_in_use (u32 (in_use_by_client s2 + 1)) s2)
           | _ => Undef
           end
       end.

(** A thread woken in [client_acquire] takes the mutex and tests again. *)
Definition client_acquire_resume : M BufferSwapperMulti (option Buffer * BufferID) :=
  modify (fun s => set_cv (cv_resume (client_available_cv s)) s) ;; client_acquire.

Definition client_release (queued_buffer : BufferID) : M BufferSwapperMulti unit :=
  modify (fun s => set_compositor_queue (compositor_queue s ++ [queued_buffer]) s) ;;
  modify (fun s => set_in_use (u32 (in_use_by_client s - 1)) s).

(** [back()] or [front()] of an empty deque is undefined behaviour. *)
Definition compositor_acquire : M BufferSwapperMulti (option Buffer * BufferID) :=
  dequeued_buffer ← (fun s =>
    match uncons (compositor_queue s) with
    | None =>
        match unsnoc (client_queue s) with
        | None => Undef
        | Some (q, b) => Ret b (set_client_queue q s)
        end
    | Some (b, q) => Ret b (set_compositor_queue q s)
    end) ;
  buffer_reference ← buffers_at dequeued_buffer ;
  mret (buffer_reference, dequeued_buffer).

Definition compositor_release (released_buffer : BufferID) : M BufferSwapperMulti unit :=
  modify (fun s => set_client_queue (client_queue s ++ [released_buffer]) s) ;;
  modify (fun s => set_cv (cv_notify_one (client_available_cv s)) s).

Definition shutdown : M BufferSwapperMulti unit :=
  (fun s =>
    match client_queue s with
    | [] =>
        match uncons (compositor_queue s) with
        | None => Undef
        | Some (dequeued_buffer, q) =>
            Ret tt (set_client_queue (client_queue s ++ [dequeued_buffer])
                      (set_compositor_queue q s))
        end
    | _ => Ret tt s
    end) ;;
  modify (fun s => set_cv (cv_notify_all (client_available_cv s)) s).

(** ** The swapper in use

    The swapper together with what its users hold: [client_held] and
    [comp_held] are the buffers acquired and not yet released by the client
    and by the compositor.  [posted] and [shown] are the histories of the
    frames posted by [client_release] and of the posted frames taken by
    [compositor_acquire]; [displayed] is the buffer the compositor released
    last. *)
Record swap_sys : Set := mkSys {
  sw : BufferSwapperMulti;
  client_held : list BufferID;
  comp_held : list BufferID;
  posted : list BufferID;
  shown : list BufferID;
  displayed : option BufferID;
}.

Definition set_sw (w : BufferSwapperMulti) (s : swap_sys) : swap_sys :=
  mkSys w (client_held s) (comp_held s) (posted s) (shown s) (displayed s).

Inductive swap_action : Set :=
| ClientAcquire
| ClientWake
| Spurious
| ClientRelease (b : BufferID)
| CompositorAcquire
| CompositorRelease (b : BufferID)
| Shutdown.

Definition client_got (b : BufferID) (w : BufferSwapperMulti) (s : swap_sys) : swap_sys :=
  mkSys w (b :: client_held s) (comp_held s) (posted s) (shown s) (displayed s).

(** One member function call.  A holder releases only what it holds, as the
    destructors of the temporary buffers do. *)
Inductive swap_step : swap_sys -> swap_action -> swap_sys -> Prop :=
| step_client_acquire s r b w :
    client_acquire (sw s) = Ret (r, b) w ->
    swap_step s ClientAcquire (client_got b w s)
| step_client_block s w :
    client_acquire (sw s) = Wait w ->
    swap_step s ClientAcquire (set_sw w s)
| step_client_wake s r b w :
    (0 < woken (client_available_cv (sw s)))%nat ->
    client_acquire_resume (sw s) = Ret (r, b) w ->
    swap_step s ClientWake (client_got b w s)
| step_client_wake_block s w :
    (0 < woken (client_available_cv (sw s)))%nat ->
    client_acquire_resume (sw s) = Wait w ->
    swap_step s ClientWake (set_sw w s)
| step_spurious s :
    swap_step s Spurious
      (set_sw (set_cv (cv_notify_one (client_available_cv (sw s))) (sw s)) s)
| step_client_release s b w :
    b ∈ client_held s ->
    client_release b (sw s) = Ret tt w ->
    swap_step s (ClientRelease b)
      (mkSys w (remove1 b (client_held s)) (comp_held s) (posted s ++ [b]) (shown s) (displayed s))
| step_compositor_acquire s r b w :
    compositor_acquire (sw s) = Ret (r, b) w ->
    swap_step s CompositorAcquire
      (mkSys w (client_held s) (b :: comp_held s) (posted s)
         (match compositor_queue (sw s) with [] => shown s | _ => shown s ++ [b] end)
         (displayed s))
| step_compositor_release s b w :
    b ∈ comp_held s ->
    compositor_release b (sw s) = Ret tt w ->
    swap_step s (CompositorRelease b)
      (mkSys w (client_held s) (remove1 b (comp_held s)) (posted s) (shown s) (Some b))
| step_shutdown s w :
    shutdown (sw s) = Ret tt w ->
    swap_step s Shutdown (set_sw w s).

(** States reached by calls that respect the discipline [G]. *)
Inductive swap_reach (G : swap_sys -> swap_action -> Prop) (s0 : swap_sys) : swap_sys -> Prop :=
| reach_refl : swap_reach G s0 s0
| reach_step s a s' :
    swap_reach G s0 s -> G s a -> swap_step s a s' -> swap_reach G s0 s'.

Definition any_use (s : swap_sys) (a : swap_action) : Prop := True.

Definition no_shutdown (s : swap_sys) (a : swap_action) : Prop := a <> Shutdown.

(** How the server uses a swapper: one client thread that holds nothing when
    it asks for a buffer, and a compositor that holds one buffer at a time. *)
Definition server_use (s : swap_sys) (a : swap_action) : Prop :=
  match a with
  | ClientAcquire =>
      client_held s = [] /\
      waiting (client_available_cv (sw s)) = 0%nat /\ woken (client_available_cv (sw s)) = 0%nat
  | CompositorAcquire => comp_held s = []
  | _ => True
  end.

Definition start (w : BufferSwapperMulti) : swap_sys := mkSys w [] [] [] [] None.

(** ** The invariant *)

Definition all_ids (w : BufferSwapperMulti) : list BufferID :=
  mkBufferID <$> OrdMap.keys (buffers w).

Record swap_inv (s : swap_sys) : Prop := {
  inv_sorted : OrdMap.sorted (buffers (sw s));
  inv_present : forall k o, OrdMap.find k (buffers (sw s)) = Some o ->
    exists buf, o = Some buf /\ buffer_id buf = mkBufferID k;
  inv_perm : Permutation
    (client_queue (sw s) ++ compositor_queue (sw s) ++ client_held s ++ comp_held s)
    (all_ids (sw s));
  inv_in_use : in_use_by_client (sw s) = Z.of_nat (length (client_held s));
  inv_size : length (buffers (sw s)) = 2%nat \/ length (buffers (sw s)) = 3%nat;
  inv_bound : (length (client_held s) < length (buffers (sw s)))%nat;
}.

Lemma buffers_at_known b o (w : BufferSwapperMulti) :
  OrdMap.find (bid_value b) (buffers w) = Some o -> buffers_at b w = Ret o w.
Proof. unfold buffers_at. by intros ->. Qed.

Section Inv.
Context (s : swap_sys) (Hinv : swap_inv s).

Lemma inv_find b :
  b ∈ client_queue (sw s) ++ compositor_queue (sw s) ++ client_held s ++ comp_held s ->
  exists buf, OrdMap.find (bid_value b) (buffers (sw s)) = Some (Some buf) /\ buffer_id buf = b.
Proof.
  intros Hin. rewrite (inv_perm s Hinv) in Hin.
  unfold all_ids in Hin. apply list_elem_of_fmap in Hin as (k & -> & Hk). simpl.
  apply keys_find in Hk as [o Ho].
  destruct (inv_present s Hinv _ _ Ho) as (buf & -> & Hid). eauto.
Qed.

Lemma inv_total :
  (length (client_queue (sw s)) + length (compositor_queue (sw s)) +
   length (client_held s) + length (comp_held s))%nat = length (buffers (sw s)).
Proof.
  pose proof (Permutation_length (inv_perm s Hinv)) as H. unfold all_ids, OrdMap.keys in H.
  rewrite length_fmap, length_map, !length_app in H. lia.
Qed.

Lemma must_wait_spec :
  client_must_wait (sw s) = true <->
  client_queue (sw s) = [] \/ S (length (client_held s)) = length (buffers (sw s)).
Proof.
  unfold client_must_wait. rewrite (inv_in_use s Hinv).
  destruct (inv_size s Hinv) as [-> | ->]; destruct (client_queue (sw s));
    (split; [|by intros [[=]|H]; try (apply Z.eqb_eq; vm_compute Z.modulo; lia)]);
    rewrite ?Z.eqb_eq; vm_compute Z.modulo; intros; (left; done) || (right; lia).
Qed.

Lemma client_acquire_ready :
  client_must_wait (sw s) = false ->
  exists buf b q,
    client_queue (sw s) = b :: q /\
    OrdMap.find (bid_value b) (buffers (sw s)) = Some (Some buf) /\ buffer_id buf = b /\
    client_acquire (sw s) =
      Ret (Some buf, b)
        (set_in_use (Z.of_nat (S (length (client_held s)))) (set_client_queue q (sw s))).
Proof.
  intros Hw. unfold client_acquire. rewrite Hw.
  destruct (client_queue (sw s)) as [|b q] eqn:Hq.
  { unfold client_must_wait in Hw. by rewrite Hq in Hw. }
  destruct (inv_find b) as (buf & Hf & Hid); [rewrite Hq; set_solver|].
  exists buf, b, q. repeat split; [done|done|]. simpl.
  rewrite (buffers_at_known b (Some buf)) by done. simpl.
  rewrite (inv_in_use s Hinv). pose proof (inv_bound s Hinv).
  rewrite u32_id by (unfold is_u32; destruct (inv_size s Hinv); lia).
  do 2 f_equal. lia.
Qed.

Lemma compositor_acquire_ready :
  client_queue (sw s) ++ compositor_queue (sw s) <> [] ->
  exists buf b w,
    compositor_acquire (sw s) = Ret (Some buf, b) w /\ buffer_id buf = b /\
    match compositor_queue (sw s) with
    | [] => exists q, client_queue (sw s) = q ++ [b] /\ w = set_client_queue q (sw s)
    | b' :: q => b = b' /\ w = set_compositor_queue q (sw s)
    end.
Proof.
  intros Hne. unfold compositor_acquire, mbind, M_bind.
  destruct (compositor_queue (sw s)) as [|b q] eqn:Hq; simpl.
  - destruct (unsnoc (client_queue (sw s))) as [[q b]|] eqn:Hu.
    + apply unsnoc_Some in Hu.
      destruct (inv_find b) as (buf & Hf & Hid); [rewrite Hu; set_solver|].
      exists buf, b, (set_client_queue q (sw s)).
      rewrite (buffers_at_known b (Some buf)) by done. eauto.
    + apply unsnoc_None in Hu. rewrite Hu in Hne. done.
  - destruct (inv_find b) as (buf & Hf & Hid); [rewrite Hq; set_solver|].
    exists buf, b, (set_compositor_queue q (sw s)).
    rewrite (buffers_at_known b (Some buf)) by done. eauto.
Qed.

(** The exact effect of each call that returns. *)

Lemma client_acquire_effect r b w :
  client_acquire (sw s) = Ret (r, b) w ->
  client_must_wait (sw s) = false /\
  exists q, client_queue (sw s) = b :: q /\
    w = set_in_use (Z.of_nat (S (length (client_held s)))) (set_client_queue q (sw s)).
Proof.
  intros H. destruct (client_must_wait (sw s)) eqn:Hw.
  - unfold client_acquire in H. by rewrite Hw in H.
  - split; [done|].
    destruct (client_acquire_ready Hw) as (buf & b' & q & Hq & _ & _ & Heq).
    rewrite H in Heq. injection Heq as -> -> ->. eauto.
Qed.

Lemma compositor_acquire_effect r b w :
  compositor_acquire (sw s) = Ret (r, b) w ->
  match compositor_queue (sw s) with
  | [] => exists q, client_queue (sw s) = q ++ [b] /\ w = set_client_queue q (sw s)
  | b' :: q => b = b' /\ w = set_compositor_queue q (sw s)
  end.
Proof.
  intros H. destruct (decide (client_queue (sw s) ++ compositor_queue (sw s) = [])) as [Hn|Hn].
  { apply app_eq_nil in Hn as [H1 H2]. revert H.
    unfold compositor_acquire, mbind, M_bind. by rewrite H2, H1. }
  destruct (compositor_acquire_ready Hn) as (buf & b' & w' & Heq & _ & Hm).
  rewrite H in Heq. by injection Heq as -> -> ->.
Qed.

End Inv.

Lemma client_wait_effect w w' :
  client_acquire w = Wait w' ->
  client_must_wait w = true /\ w' = set_cv (cv_block (client_available_cv w)) w.
Proof.
  unfold client_acquire, buffers_at.
  destruct (client_must_wait w); [by intros [= <-]|]. split_cases.
Qed.

(** The state seen by a woken thread once it has the mutex again. *)
Definition resumed (s : swap_sys) : swap_sys :=
  set_sw (set_cv (cv_resume (client_available_cv (sw s))) (sw s)) s.

Lemma client_acquire_resume_eq s : client_acquire_resume (sw s) = client_acquire (sw (resumed s)).
Proof. done. Qed.

Lemma shutdown_effect w w' :
  shutdown w = Ret tt w' ->
  exists q, w' = set_cv (cv_notify_all (client_available_cv w)) q /\
    ((client_queue w <> [] /\ q = w) \/
     (client_queue w = [] /\ exists b cq, compositor_queue w = b :: cq /\
        q = set_client_queue [b] (set_compositor_queue cq w))).
Proof.
  unfold shutdown, mbind, M_bind. destruct (client_queue w) eqn:Hq.
  - destruct (compositor_queue w) eqn:Hc; [done|]. intros [= <-].
    eexists. split; [reflexivity|]. right. split; [done|]. eauto.
  - intros [= <-]. eexists. split; [reflexivity|]. by left.
Qed.

(** ** Preservation *)

Section Preservation.
Context (s : swap_sys) (Hinv : swap_inv s).

Lemma inv_client_got r b w :
  client_acquire (sw s) = Ret (r, b) w -> swap_inv (client_got b w s).
Proof.
  intros [Hw (q & Hq & ->)]%client_acquire_effect; [|done].
  pose proof (must_wait_spec s Hinv) as Hspec.
  destruct Hinv as [Hso Hpr Hpe Hiu Hsi Hbo]. split; simpl; try done.
  - rewrite Hq in Hpe. rewrite <- Hpe. simpl. solve_Permutation.
  - enough (S (length (client_held s)) <> length (buffers (sw s))) by lia.
    intros Heq. destruct Hspec as [_ Hspec]. rewrite Hspec in Hw by (by right). done.
Qed.

Lemma inv_set_cv cv : swap_inv (set_sw (set_cv cv (sw s)) s).
Proof. by destruct Hinv; split. Qed.

Lemma inv_client_release b w :
  b ∈ client_held s -> client_release b (sw s) = Ret tt w ->
  swap_inv (mkSys w (remove1 b (client_held s)) (comp_held s) (posted s ++ [b]) (shown s)
              (displayed s)).
Proof.
  intros Hb [= <-]. destruct Hinv as [Hso Hpr Hpe Hiu Hsi Hbo].
  pose proof (remove1_length _ _ Hb) as Hl.
  split; simpl; try done.
  - rewrite <- Hpe. rewrite (remove1_perm b (client_held s) Hb) at 2. solve_Permutation.
  - rewrite Hiu, u32_id; [lia|]. unfold is_u32. destruct Hsi; lia.
  - lia.
Qed.

Lemma inv_compositor_acquire r b w sh :
  compositor_acquire (sw s) = Ret (r, b) w ->
  swap_inv (mkSys w (client_held s) (b :: comp_held s) (posted s) sh (displayed s)).
Proof.
  intros Hm%compositor_acquire_effect; [|done].
  destruct Hinv as [Hso Hpr Hpe Hiu Hsi Hbo].
  destruct (compositor_queue (sw s)) as [|b0 q0] eqn:Hq.
  - destruct Hm as (q & Hc & ->). split; simpl; try done.
    rewrite Hc in Hpe. rewrite <- Hpe, Hq. simpl. solve_Permutation.
  - destruct Hm as [-> ->]. split; simpl; try done.
    rewrite <- Hpe. simpl. solve_Permutation.
Qed.

Lemma inv_compositor_release b w :
  b ∈ comp_held s -> compositor_release b (sw s) = Ret tt w ->
  swap_inv (mkSys w (client_held s) (remove1 b (comp_held s)) (posted s) (shown s) (Some b)).
Proof.
  intros Hb [= <-]. destruct Hinv as [Hso Hpr Hpe Hiu Hsi Hbo].
  split; simpl; try done.
  rewrite <- Hpe. rewrite (remove1_perm b (comp_held s) Hb) at 2. solve_Permutation.
Qed.

Lemma inv_shutdown w : shutdown (sw s) = Ret tt w -> swap_inv (set_sw w s).
Proof.
  destruct Hinv as [Hso Hpr Hpe Hiu Hsi Hbo].
  intros (q & -> & [[_ ->]|(Hq & b & cq & Hc & ->)])%shutdown_effect; split; simpl; try done.
  rewrite <- Hpe, Hq, Hc. done.
Qed.

End Preservation.

Definition acquired (b : BufferID) (q : list BufferID) (s : swap_sys) : swap_sys :=
  client_got b
    (set_in_use (Z.of_nat (S (length (client_held s)))) (set_client_queue q (sw s))) s.

Definition blocked (s : swap_sys) : swap_sys :=
  set_sw (set_cv (cv_block (client_available_cv (sw s))) (sw s)) s.

(** What a call of the client did: it has the front of its queue, or waits. *)
Definition client_effect (s s' : swap_sys) : Prop :=
  (client_must_wait (sw s) = false /\
   exists b q, client_queue (sw s) = b :: q /\ s' = acquired b q s) \/
  (client_must_wait (sw s) = true /\ s' = blocked s).

(** The effect of every step, in terms of the queues. *)
Definition swap_effect (s : swap_sys) (a : swap_action) (s' : swap_sys) : Prop :=
  match a with
  | ClientAcquire => client_effect s s'
  | ClientWake =>
      (0 < woken (client_available_cv (sw s)))%nat /\ client_effect (resumed s) s'
  | Spurious => s' = set_sw (set_cv (cv_notify_one (client_available_cv (sw s))) (sw s)) s
  | ClientRelease b =>
      b ∈ client_held s /\
      s' = mkSys (set_in_use (u32 (in_use_by_client (sw s) - 1))
                    (set_compositor_queue (compositor_queue (sw s) ++ [b]) (sw s)))
             (remove1 b (client_held s)) (comp_held s) (posted s ++ [b]) (shown s) (displayed s)
  | CompositorAcquire =>
      exists b, match compositor_queue (sw s) with
      | [] => exists q, client_queue (sw s) = q ++ [b] /\
          s' = mkSys (set_client_queue q (sw s)) (client_held s) (b :: comp_held s)
                 (posted s) (shown s) (displayed s)
      | b' :: q => b = b' /\
          s' = mkSys (set_compositor_queue q (sw s)) (client_held s) (b :: comp_held s)
                 (posted s) (shown s ++ [b]) (displayed s)
      end
  | CompositorRelease b =>
      b ∈ comp_held s /\
      s' = mkSys (set_cv (cv_notify_one (client_available_cv (sw s)))
                    (set_client_queue (client_queue (sw s) ++ [b]) (sw s)))
             (client_held s) (remove1 b (comp_held s)) (posted s) (shown s) (Some b)
  | Shutdown =>
      exists w, s' = set_sw (set_cv (cv_notify_all (client_available_cv (sw s))) w) s /\
        ((client_queue (sw s) <> [] /\ w = sw s) \/
         (client_queue (sw s) = [] /\ exists b q, compositor_queue (sw s) = b :: q /\
            w = set_client_queue [b] (set_compositor_queue q (sw s))))
  end.

Lemma client_effect_intro s :
  swap_inv s ->
  (forall r b w, client_acquire (sw s) = Ret (r, b) w -> client_effect s (client_got b w s)) /\
  (forall w, client_acquire (sw s) = Wait w -> client_effect s (set_sw w s)).
Proof.
  intros Hinv. split.
  - intros r b w (Hw & q & Hq & ->)%client_acquire_effect; [|done]. left. eauto.
  - intros w [Hw ->]%client_wait_effect. by right.
Qed.

Lemma swap_step_effect s a s' : swap_inv s -> swap_step s a s' -> swap_effect s a s'.
Proof.
  intros Hinv Hstep.
  destruct (client_effect_intro s Hinv) as [Hg Hb].
  destruct (client_effect_intro (resumed s) (inv_set_cv s Hinv _)) as [Hg' Hb'].
  destruct Hstep as [s r b w H|s w H|s r b w ? H|s w ? H|s|s b w ? H|s r b w H|s b w ? H|s w H];
    simpl; try done.
  - by eapply Hg.
  - by apply Hb.
  - rewrite client_acquire_resume_eq in H. split; [done|]. by eapply (Hg' r).
  - rewrite client_acquire_resume_eq in H. split; [done|]. by apply Hb'.
  - injection H as <-. done.
  - apply compositor_acquire_effect in H; [|done]. exists b.
    destruct (compositor_queue (sw s)).
    + destruct H as (q & Hq & ->). eauto.
    + by destruct H as [-> ->].
  - injection H as <-. done.
  - apply shutdown_effect in H as (q & -> & H). eauto.
Qed.

Lemma client_effect_inv s s' : swap_inv s -> client_effect s s' -> swap_inv s'.
Proof.
  intros Hinv [[Hw (b & q & Hq & ->)]|[_ ->]]; [|by apply inv_set_cv].
  destruct (client_acquire_ready s Hinv Hw) as (buf & b' & q' & Hq' & _ & _ & Heq).
  rewrite Hq in Hq'. injection Hq' as <- <-. by eapply inv_client_got.
Qed.

Lemma swap_step_inv s a s' : swap_inv s -> swap_step s a s' -> swap_inv s'.
Proof.
  intros Hinv Hstep. pose proof (swap_step_effect _ _ _ Hinv Hstep) as He.
  pose proof (inv_set_cv s Hinv) as Hcv.
  destruct Hstep; simpl in He;
    eauto using client_effect_inv, inv_client_release, inv_compositor_acquire,
      inv_compositor_release, inv_shutdown;
    destruct He as [_ He]; apply (client_effect_inv (resumed s)); auto; apply Hcv.
Qed.

Lemma swap_reach_inv G s0 s : swap_inv s0 -> swap_reach G s0 s -> swap_inv s.
Proof. intros H0. induction 1; eauto using swap_step_inv. Qed.

(** ** Construction *)

Lemma init_loop (l : list Buffer) (w : BufferSwapperMulti) :
  OrdMap.sorted (buffers w) ->
  (forall k o, OrdMap.find k (buffers w) = Some o ->
     exists buf, o = Some buf /\ buffer_id buf = mkBufferID k) ->
  NoDup ((buffer_id <$> l) ++ all_ids w) ->
  exists w',
    for_each l (fun buffer =>
      modify (fun s =>
        set_buffers (OrdMap.insert (bid_value (buffer_id buffer)) (Some buffer) (buffers s)) s) ;;
      modify (fun s => set_client_queue (client_queue s ++ [buffer_id buffer]) s)) w = Ret tt w' /\
    OrdMap.sorted (buffers w') /\
    (forall k o, OrdMap.find k (buffers w') = Some o ->
       exists buf, o = Some buf /\ buffer_id buf = mkBufferID k) /\
    Permutation (all_ids w') ((buffer_id <$> l) ++ all_ids w) /\
    client_queue w' = client_queue w ++ (buffer_id <$> l) /\
    compositor_queue w' = compositor_queue w /\
    in_use_by_client w' = in_use_by_client w /\
    client_available_cv w' = client_available_cv w.
Proof.
  revert w. induction l as [|b l IH]; intros w Hs Hp Hnd.
  { exists w. by rewrite app_nil_r. }
  destruct (buffer_id b) as [k] eqn:Hid.
  assert (OrdMap.find k (buffers w) = None) as Hfree.
  { destruct (OrdMap.find k (buffers w)) eqn:E; [|done].
    apply find_some_keys in E. rewrite fmap_cons, Hid in Hnd. simpl in Hnd.
    apply NoDup_cons in Hnd as [Hnd _]. exfalso. apply Hnd. apply elem_of_app. right.
    unfold all_ids. apply list_elem_of_fmap. eauto. }
  set (w1 := set_client_queue (client_queue w ++ [mkBufferID k])
               (set_buffers (OrdMap.insert k (Some b) (buffers w)) w)).
  assert (Permutation (all_ids w1) (mkBufferID k :: all_ids w)) as Hp1.
  { unfold all_ids. simpl. by rewrite keys_insert_perm. }
  destruct (IH w1) as (w' & Hrun & Hs' & Hp' & Hperm & Hcq & Hco & Hin & Hcv).
  - simpl. by apply insert_sorted.
  - simpl. intros k' o. rewrite find_insert.
    destruct (Z.eqb_spec k' k) as [->|]; [intros [= <-]; eauto|apply Hp].
  - rewrite Hp1. rewrite fmap_cons, Hid in Hnd.
    rewrite <- Permutation_middle. done.
  - exists w'. split.
    { simpl. unfold mbind, M_bind. simpl. rewrite Hid. simpl. exact Hrun. }
    repeat split; try done.
    + rewrite Hperm, Hp1, fmap_cons, Hid. simpl. by rewrite <- Permutation_middle.
    + rewrite Hcq, fmap_cons, Hid. simpl. by rewrite <- app_assoc.
Qed.

(** A swapper built from two or three distinct buffers is a good start. *)
Lemma swapper_new_ok (l : list Buffer) :
  NoDup (buffer_id <$> l) -> length l = 2%nat \/ length l = 3%nat ->
  exists w, BufferSwapperMulti_new l = Ret tt w /\ swap_inv (start w) /\
    client_queue w = buffer_id <$> l /\ compositor_queue w = [] /\
    Permutation (all_ids w) (buffer_id <$> l) /\
    client_available_cv w = cv_init.
Proof.
  intros Hnd Hlen.
  destruct (init_loop l swapper0) as (w & Hrun & Hs & Hp & Hperm & Hcq & Hco & Hin & Hcv).
  { apply sorted_nil_map. } { done. } { by rewrite app_nil_r. }
  rewrite app_nil_r in Hperm. simpl in *.
  exists w. split.
  { unfold BufferSwapperMulti_new, initialize_queues. by destruct Hlen as [-> | ->]. }
  assert (length (buffers w) = length l) as Hl.
  { apply Permutation_length in Hperm. unfold all_ids, OrdMap.keys in Hperm.
    by rewrite !length_fmap in Hperm. }
  split; [|done]. split; simpl; try done; rewrite ?Hl; try done.
  - rewrite Hcq, Hco, !app_nil_r. done.
  - destruct Hlen; lia.
Qed.

(** Any other number of buffers is refused. *)
Lemma swapper_new_refuses (l : list Buffer) :
  length l <> 2%nat -> length l <> 3%nat ->
  BufferSwapperMulti_new l =
    Throw (logic_error "BufferSwapperMulti is only validated for 2 or 3 buffers") swapper0.
Proof.
  intros H2 H3. unfold BufferSwapperMulti_new, initialize_queues.
  apply Nat.eqb_neq in H2, H3. by rewrite H2, H3.
Qed.

(** ** What the swapper promises *)

Section Promises.
Context (l : list Buffer) (w0 : BufferSwapperMulti).
Hypothesis Hids : NoDup (buffer_id <$> l).
Hypothesis Hnew : BufferSwapperMulti_new l = Ret tt w0.

Lemma new_length : length l = 2%nat \/ length l = 3%nat.
Proof using Hnew.
  destruct (decide (length l = 2%nat)) as [|H2]; [by left|].
  destruct (decide (length l = 3%nat)) as [|H3]; [by right|].
  by rewrite swapper_new_refuses in Hnew.
Qed.

Lemma start_inv :
  swap_inv (start w0) /\ client_queue w0 = buffer_id <$> l /\ compositor_queue w0 = [] /\
  Permutation (all_ids w0) (buffer_id <$> l) /\ client_available_cv w0 = cv_init.
Proof using Hids Hnew.
  destruct (swapper_new_ok l Hids new_length) as (w & Hw & H).
  rewrite Hnew in Hw. injection Hw as <-. exact H.
Qed.

Lemma reach_inv G s : swap_reach G (start w0) s -> swap_inv s.
Proof using Hids Hnew. apply swap_reach_inv, start_inv. Qed.

Lemma step_buffers s a s' : swap_inv s -> swap_step s a s' -> buffers (sw s') = buffers (sw s).
Proof.
  intros Hinv He%swap_step_effect; [|done].
  destruct a; simpl in He; unfold client_effect in He; try (destruct (compositor_queue (sw s)));
    naive_solver.
Qed.

Lemma reach_buffers G s : swap_reach G (start w0) s -> buffers (sw s) = buffers w0.
Proof using Hids Hnew.
  induction 1 as [|s a s' Hr IH _ Hstep]; [done|].
  rewrite <- IH. by apply (step_buffers _ a); [apply (reach_inv G)|].
Qed.

Lemma reach_length G s : swap_reach G (start w0) s -> length (buffers (sw s)) = length l.
Proof using Hids Hnew.
  intros Hr. rewrite (reach_buffers G s Hr).
  destruct start_inv as (_ & _ & _ & Hp & _).
  apply Permutation_length in Hp. unfold all_ids, OrdMap.keys in Hp.
  by rewrite !length_fmap in Hp.
Qed.

(** C2: buffer ownership.  However acquisitions, releases, wake-ups and
    shutdown interleave, every buffer of the swapper is at any time in exactly
    one place: one of the two queues, the client's hands or the compositor's
    hands.  The client and the compositor never hold the same buffer, the
    counter [in_use_by_client] is the number of buffers the client holds (no
    wrap-around), and the client never holds them all. *)
Theorem buffer_ownership s :
  swap_reach any_use (start w0) s ->
  Permutation
    (client_queue (sw s) ++ compositor_queue (sw s) ++ client_held s ++ comp_held s)
    (buffer_id <$> l) /\
  NoDup (client_queue (sw s) ++ compositor_queue (sw s) ++ client_held s ++ comp_held s) /\
  in_use_by_client (sw s) = Z.of_nat (length (client_held s)) /\
  (length (client_held s) < length l)%nat.
Proof using Hids Hnew.
  intros Hr. pose proof (reach_inv _ s Hr) as Hinv.
  assert (Permutation
    (client_queue (sw s) ++ compositor_queue (sw s) ++ client_held s ++ comp_held s)
    (buffer_id <$> l)) as Hp.
  { rewrite (inv_perm s Hinv). unfold all_ids. rewrite (reach_buffers _ s Hr).
    apply start_inv. }
  split; [exact Hp|]. split; [by rewrite Hp|].
  split; [apply (inv_in_use s Hinv)|].
  rewrite <- (reach_length _ s Hr). apply (inv_bound s Hinv).
Qed.

(** The compositor is never kept waiting and never fails: whenever it
    holds no buffer, [compositor_acquire] returns at once a buffer of the
    swapper, with its identifier, that the client does not hold. *)
Theorem compositor_acquire_no_wait s :
  swap_reach any_use (start w0) s -> comp_held s = [] ->
  exists buf b w,
    compositor_acquire (sw s) = Ret (Some buf, b) w /\
    buffer_id buf = b /\ b ∈ buffer_id <$> l /\ b ∉ client_held s.
Proof using Hids Hnew.
  intros Hr Hc. pose proof (reach_inv _ s Hr) as Hinv.
  assert (client_queue (sw s) ++ compositor_queue (sw s) <> []) as Hne.
  { intros [H1 H2]%app_eq_nil. pose proof (inv_total s Hinv) as Ht.
    rewrite H1, H2, Hc in Ht. simpl in Ht. pose proof (inv_bound s Hinv). lia. }
  destruct (compositor_acquire_ready s Hinv Hne) as (buf & b & w & Heq & Hid & Hm).
  exists buf, b, w. split; [done|]. split; [done|].
  assert (b ∈ client_queue (sw s) ++ compositor_queue (sw s)) as Hin.
  { destruct (compositor_queue (sw s)); [destruct Hm as (q & -> & _)|destruct Hm as [-> _]];
      set_solver. }
  destruct (start_inv) as (_ & _ & _ & Hp0 & _).
  pose proof (inv_perm s Hinv) as Hp. unfold all_ids in Hp.
  rewrite (reach_buffers _ s Hr) in Hp. fold (all_ids w0) in Hp. rewrite Hp0 in Hp.
  split; [rewrite <- Hp; set_solver|].
  assert (NoDup ((client_queue (sw s) ++ compositor_queue (sw s)) ++ client_held s ++ comp_held s))
    as Hnd by (rewrite <- app_assoc, Hp; done).
  apply NoDup_app in Hnd as (_ & Hd & _). intros Hb. apply (Hd b Hin). set_solver.
Qed.

(** C11: no frame is lost, duplicated or reordered: at any time before
    shutdown the frames posted by the client are, in order, those the
    compositor has taken followed by those in the compositor queue. *)
Theorem frames_shown_in_order s :
  swap_reach no_shutdown (start w0) s ->
  posted s = shown s ++ compositor_queue (sw s).
Proof using Hids Hnew.
  induction 1 as [|s a s' Hr IH Hg Hstep].
  { destruct start_inv as (_ & _ & Hq & _). simpl. by rewrite Hq. }
  apply swap_step_effect in Hstep as He; [|by eapply reach_inv].
  destruct a; simpl in He; unfold client_effect in He.
  - naive_solver.
  - naive_solver.
  - by subst.
  - destruct He as [_ ->]. simpl. by rewrite IH, app_assoc.
  - destruct He as [b' He]. destruct (compositor_queue (sw s)) eqn:Hq.
    + destruct He as (q & _ & ->). simpl. by rewrite IH, Hq.
    + destruct He as [-> ->]. simpl. by rewrite IH, <- app_assoc.
  - by destruct He as [_ ->].
  - done.
Qed.

(** Between two frames of the client the compositor keeps showing the
    same buffer: before shutdown, when it holds nothing and no new frame is
    queued, [compositor_acquire] gives back the buffer it displayed last. *)
Theorem idle_compositor_shows_last s d :
  swap_reach no_shutdown (start w0) s ->
  comp_held s = [] -> compositor_queue (sw s) = [] -> displayed s = Some d ->
  exists r w, compositor_acquire (sw s) = Ret (r, d) w.
Proof using Hids Hnew.
  intros Hr Hc Hq Hd.
  assert (exists q, client_queue (sw s) = q ++ [d]) as [q Hlast].
  { revert Hc Hq Hd. induction Hr as [|s a s' Hr IH Hg Hstep]; [done|].
    pose proof (reach_inv _ s Hr) as Hinv.
    apply swap_step_effect in Hstep as He; [|done].
    assert (forall t, swap_inv t -> client_effect t s' -> client_queue (sw t) = client_queue (sw s) ->
        compositor_queue (sw t) = compositor_queue (sw s) -> comp_held t = comp_held s ->
        displayed t = displayed s ->
        comp_held s' = [] -> compositor_queue (sw s') = [] -> displayed s' = Some d ->
        exists q, client_queue (sw s') = q ++ [d]) as Hclient.
    { intros t Ht [[Hw (b & q & Hq & ->)]|[_ ->]] E1 E2 E3 E4; simpl; intros Hc Hco Hd;
        rewrite <- E1, <- E2, <- E3, <- E4 in IH; destruct (IH Hc Hco Hd) as [q' Hl]; [|eauto].
      rewrite Hq in Hl. destruct q' as [|b' q']; [|simplify_eq/=; eauto].
      exfalso. simplify_eq/=. pose proof (inv_total t Ht) as Htot.
      rewrite Hq, Hc, Hco in Htot. simpl in Htot.
      assert (client_must_wait (sw t) = true) as Hw'; [|congruence].
      apply (must_wait_spec t Ht). right. lia. }
    destruct a; simpl in He.
    - by apply (Hclient s).
    - destruct He as [_ He]. apply (Hclient (resumed s)); try done. by apply inv_set_cv.
    - subst. apply IH.
    - destruct He as [_ ->]. simpl. intros _ [=]. by destruct (compositor_queue (sw s)).
    - destruct He as [b He].
      destruct (compositor_queue (sw s)); [destruct He as (q & _ & ->)|destruct He as [_ ->]]; done.
    - destruct He as [_ ->]. simpl. intros _ _ [= ->]. eauto.
    - done. }
  destruct (compositor_acquire_ready s (reach_inv _ s Hr)) as (buf & b & w & Heq & _ & Hm).
  { rewrite Hlast. by destruct q. }
  rewrite Hq in Hm. destruct Hm as (q' & Hl & _). rewrite Hlast in Hl.
  apply app_inj_tail in Hl as [_ ->]. eauto.
Qed.

(** The compositor never starves a client that may take one more buffer:
    after the compositor, starting with empty hands, has acquired and released
    once, [client_acquire] returns a buffer without waiting. *)
Theorem compositor_cycle_frees_client s :
  swap_reach any_use (start w0) s -> comp_held s = [] ->
  (S (length (client_held s)) < length l)%nat ->
  exists r b w1 w2 buf c w3,
    compositor_acquire (sw s) = Ret (r, b) w1 /\ compositor_release b w1 = Ret tt w2 /\
    client_acquire w2 = Ret (Some buf, c) w3.
Proof using Hids Hnew.
  intros Hr Hc Hlen. pose proof (reach_inv _ s Hr) as Hinv.
  destruct (compositor_acquire_ready s Hinv) as (buf & b & w1 & Heq & _ & _).
  { intros [H1 H2]%app_eq_nil. pose proof (inv_total s Hinv) as Ht.
    rewrite H1, H2, Hc in Ht. simpl in Ht. pose proof (inv_bound s Hinv). lia. }
  pose proof (step_compositor_acquire s _ _ _ Heq) as Hs1.
  set (s1 := mkSys w1 _ _ _ _ _) in Hs1.
  set (w2 := set_cv (cv_notify_one (client_available_cv w1))
               (set_client_queue (client_queue w1 ++ [b]) w1)).
  assert (swap_step s1 (CompositorRelease b)
    (mkSys w2 (client_held s1) (remove1 b (comp_held s1)) (posted s1) (shown s1) (Some b)))
    as Hs2 by (apply step_compositor_release; [apply list_elem_of_here|done]).
  set (s2 := mkSys w2 _ _ _ _ _) in Hs2.
  pose proof (reach_step _ _ _ _ _ (reach_step _ _ _ _ _ Hr I Hs1) I Hs2) as Hr2.
  assert (client_must_wait (sw s2) = false) as Hw.
  { destruct (client_must_wait (sw s2)) eqn:Hw; [|done].
    apply (must_wait_spec s2 (reach_inv _ _ Hr2)) in Hw as [Hw|Hw].
    - simpl in Hw. by destruct (client_queue w1).
    - rewrite (reach_length _ _ Hr2) in Hw. simpl in Hw. lia. }
  destruct (client_acquire_ready s2 (reach_inv _ _ Hr2) Hw) as (buf' & c & q & _ & _ & _ & Ha).
  eexists (Some buf), b, w1, w2, buf', c, _. split; [done|]. split; [done|]. exact Ha.
Qed.

(** A client that waits, or is about to run again, holds nothing; one that
    sleeps sees an empty queue. *)
Definition wake_inv (s : swap_sys) : Prop :=
  let cv := client_available_cv (sw s) in
  (waiting cv + woken cv <= 1)%nat /\
  ((0 < waiting cv + woken cv)%nat -> client_held s = []) /\
  ((0 < waiting cv)%nat -> client_queue (sw s) = []).

Lemma client_effect_wake s s' :
  swap_inv s -> client_effect s s' -> client_held s = [] ->
  waiting (client_available_cv (sw s)) = 0%nat -> woken (client_available_cv (sw s)) = 0%nat ->
  wake_inv s'.
Proof.
  intros Hinv [[_ (b & q & _ & ->)]|[Hw ->]] Hh H1 H2; unfold wake_inv; simpl; rewrite H1, H2.
  - simpl. repeat split; lia.
  - apply (must_wait_spec s Hinv) in Hw as [Hw|Hw].
    + simpl. repeat split; auto.
    + rewrite Hh in Hw. destruct (inv_size s Hinv); simpl in Hw; lia.
Qed.

Lemma reach_wake_inv s : swap_reach server_use (start w0) s -> wake_inv s.
Proof using Hids Hnew.
  induction 1 as [|s a s' Hr IH Hg Hstep].
  { destruct start_inv as (_ & _ & _ & _ & Hcv). unfold wake_inv. simpl. rewrite Hcv. simpl.
    repeat split; lia. }
  pose proof (reach_inv _ s Hr) as Hinv.
  apply swap_step_effect in Hstep as He; [|done].
  destruct IH as (Hle & Hheld & Hempty).
  destruct a; simpl in He.
  - destruct Hg as (? & ? & ?). by apply (client_effect_wake s).
  - destruct He as [Hwk He]. apply (client_effect_wake (resumed s)); try done; simpl.
    + by apply inv_set_cv.
    + apply Hheld. lia.
    + lia.
    + lia.
  - subst. unfold wake_inv. simpl. unfold cv_notify_one.
    destruct (waiting _) eqn:Hwt; simpl; [rewrite Hwt|]; repeat split; try lia;
      intros; apply Hheld; lia.
  - destruct He as [Hb ->]. unfold wake_inv. simpl. repeat split; [done| |done].
    intros H. rewrite (Hheld H) in Hb. by apply not_elem_of_nil in Hb.
  - destruct He as [b He]. destruct (compositor_queue (sw s)).
    + destruct He as (q & Hq & ->). unfold wake_inv. simpl. repeat split; [done|done|].
      intros H. rewrite (Hempty H) in Hq. by destruct q.
    + destruct He as [_ ->]. done.
  - destruct He as [_ ->]. unfold wake_inv. simpl. unfold cv_notify_one.
    destruct (waiting _) eqn:Hwt; simpl; [rewrite Hwt|]; repeat split; try lia;
      intros; apply Hheld; lia.
  - destruct He as (w & -> & _). unfold wake_inv. simpl. repeat split; try lia.
    intros. apply Hheld. lia.
Qed.

(** C12: no lost wake-up.  Used the way the server does, although
    [client_release] signals nothing, a client never sleeps in
    [client_acquire] while it could have a buffer; and once there is a buffer
    for a blocked client, nothing the compositor does takes it away before the
    client runs. *)
Theorem no_lost_wakeup s :
  swap_reach server_use (start w0) s ->
  let cv := client_available_cv (sw s) in
  ((0 < waiting cv)%nat -> client_must_wait (sw s) = true) /\
  ((0 < waiting cv + woken cv)%nat -> client_must_wait (sw s) = false ->
   forall a s', a <> ClientWake -> server_use s a -> swap_step s a s' ->
   client_must_wait (sw s') = false).
Proof using Hids Hnew.
  intros Hr cv. pose proof (reach_inv _ s Hr) as Hinv.
  destruct (reach_wake_inv s Hr) as (Hle & Hheld & Hempty). split.
  - intros H. apply (must_wait_spec s Hinv). left. by apply Hempty.
  - intros Hpend Hw a s' Ha Hg Hstep.
    pose proof (swap_step_inv _ _ _ Hinv Hstep) as Hinv'.
    specialize (Hheld Hpend). apply swap_step_effect in Hstep as He; [|done].
    assert (client_held s' = [] /\ client_queue (sw s') <> []) as [Hh' Hq'].
    { assert (client_queue (sw s) <> []) as Hq.
      { intros Hq. rewrite (proj2 (must_wait_spec s Hinv)) in Hw; [done|by left]. }
      destruct a; simpl in He.
      - destruct Hg as (? & ? & ?). subst cv. lia.
      - done.
      - by subst.
      - destruct He as [Hb _]. rewrite Hheld in Hb. by apply not_elem_of_nil in Hb.
      - destruct He as [b He]. destruct (compositor_queue (sw s)) eqn:Hco.
        + destruct He as (q & Hcq & ->). split; [done|]. simpl. intros ->.
          pose proof (inv_total s Hinv) as Ht. simpl in Hg.
          rewrite Hcq, Hco, Hheld, Hg in Ht. simpl in Ht. destruct (inv_size s Hinv); lia.
        + by destruct He as [_ ->].
      - destruct He as [_ ->]. split; [done|]. simpl. by destruct (client_queue (sw s)).
      - by destruct He as (w & -> & [[_ ->]|(_ & b & q & _ & ->)]). }
    destruct (client_must_wait (sw s')) eqn:Hw'; [|done].
    apply (must_wait_spec s' Hinv') in Hw' as [Hw'|Hw']; [done|].
    rewrite Hh' in Hw'. destruct (inv_size s' Hinv'); simpl in Hw'; lia.
Qed.

(** C13: [shutdown] frees a blocked client: in any state where it is defined,
    that is when the two queues are not both empty, it leaves a buffer that a
    client with empty hands gets without waiting, and every sleeping thread is
    woken.  With three buffers it is defined in every state the server can
    reach. *)
Theorem shutdown_frees_client s :
  swap_reach server_use (start w0) s ->
  (client_queue (sw s) ++ compositor_queue (sw s) <> [] <->
   exists w, shutdown (sw s) = Ret tt w) /\
  (length l = 3%nat -> (length (client_held s) <= 1)%nat -> (length (comp_held s) <= 1)%nat ->
   exists w, shutdown (sw s) = Ret tt w) /\
  (forall w, shutdown (sw s) = Ret tt w -> client_held s = [] ->
   waiting (client_available_cv w) = 0%nat /\
   exists buf b w', client_acquire w = Ret (Some buf, b) w').
Proof using Hids Hnew.
  intros Hr. pose proof (reach_inv _ s Hr) as Hinv.
  assert (client_queue (sw s) ++ compositor_queue (sw s) <> [] <->
          exists w, shutdown (sw s) = Ret tt w) as Hiff.
  { unfold shutdown, mbind, M_bind. destruct (client_queue (sw s)); simpl; [|split; eauto].
    destruct (compositor_queue (sw s)); simpl; split; eauto; naive_solver. }
  split; [exact Hiff|]. split.
  - intros Hl Hc1 Hc2. apply Hiff. intros [H1 H2]%app_eq_nil.
    pose proof (inv_total s Hinv) as Ht. rewrite H1, H2, (reach_length _ s Hr), Hl in Ht.
    simpl in Ht. lia.
  - intros w Hw Hheld. pose proof (step_shutdown s w Hw) as Hs.
    pose proof (swap_step_inv _ _ _ Hinv Hs) as Hinv'.
    destruct (shutdown_effect _ _ Hw) as (q & -> & Hq). split; [done|].
    destruct (client_must_wait (sw (set_sw (set_cv (cv_notify_all
      (client_available_cv (sw s))) q) s))) eqn:Hmw.
    + exfalso. apply (must_wait_spec _ Hinv') in Hmw as [Hmw|Hmw].
      * simpl in Hmw. by destruct Hq as [[? ->]|(_ & b & cq & _ & ->)].
      * simpl in Hmw. rewrite Hheld in Hmw.
        pose proof (inv_size _ Hinv') as Hsz. simpl in Hsz, Hmw. lia.
    + destruct (client_acquire_ready _ Hinv' Hmw) as (buf & b & cq & _ & _ & _ & Ha).
      exists buf, b. eauto.
Qed.

(** With two buffers the server can reach a state in which [shutdown] has
    undefined behaviour: the client holds one buffer and the compositor the
    other, so both queues are empty and [compositor_queue.front()] is read. *)
Theorem shutdown_undefined_reachable :
  length l = 2%nat ->
  exists s b c,
    swap_reach server_use (start w0) s /\ client_held s = [b] /\ comp_held s = [c] /\
    shutdown (sw s) = Undef.
Proof using Hids Hnew.
  intros Hl. destruct start_inv as (Hinv & Hcq & Hco & _ & Hcv).
  destruct l as [|b1 [|b2 [|]]]; try done. simpl in Hcq.
  assert (client_must_wait w0 = false) as Hw.
  { destruct (client_must_wait w0) eqn:E; [|done].
    apply (must_wait_spec (start w0) Hinv) in E as [E|E]; simpl in E; [congruence|].
    destruct (inv_size _ Hinv) as [H|H]; simpl in H; congruence. }
  destruct (client_acquire_ready (start w0) Hinv Hw) as (buf & b & q & Hq & _ & _ & Ha).
  simpl in Hq. rewrite Hcq in Hq. injection Hq as <- <-.
  pose proof (step_client_acquire (start w0) _ _ _ Ha) as S1.
  assert (server_use (start w0) ClientAcquire) as G1 by (simpl; by rewrite Hcv).
  pose proof (reach_step _ _ _ _ _ (reach_refl _ _) G1 S1) as R1.
  set (s1 := client_got _ _ _) in R1.
  destruct (compositor_acquire_ready s1 (swap_reach_inv _ _ _ Hinv R1)) as (buf2 & c & w2 & Hca & _ & Hm);
    [done|].
  pose proof (step_compositor_acquire s1 _ _ _ Hca) as S2.
  eexists _, (buffer_id b1), c. split; [exact (reach_step server_use _ _ CompositorAcquire _ R1 eq_refl S2)|].
  simpl in Hm |- *. rewrite Hco in Hm. destruct Hm as (q & Hq & ->).
  destruct q as [|? [|]]; simplify_eq/=. repeat split.
  unfold shutdown, mbind, M_bind. simpl. by rewrite Hco.
Qed.

End Promises.

(** ** Concrete runs *)

Definition demo_buffer (k : Z) : Buffer :=
  mkBuffer (mkBufferID k) (mkSize (wrap 640) (wrap 480)) (wrap 2560) abgr_8888
    (mkBufferIPCPackage [k] [] 2560).

Definition demo_buffers : list Buffer := [demo_buffer 1; demo_buffer 2].

Definition demo_start : BufferSwapperMulti :=
  match BufferSwapperMulti_new demo_buffers with Ret _ w => w | _ => swapper0 end.

(** Steps by evaluation. *)
Definition swap_exec (s : swap_sys) (a : swap_action) : option swap_sys :=
  match a with
  | ClientAcquire =>
      match client_acquire (sw s) with
      | Ret (_, b) w => Some (client_got b w s)
      | Wait w => Some (set_sw w s)
      | _ => None
      end
  | ClientWake =>
      if Nat.ltb 0 (woken (client_available_cv (sw s))) then
        match client_acquire_resume (sw s) with
        | Ret (_, b) w => Some (client_got b w s)
        | Wait w => Some (set_sw w s)
        | _ => None
        end
      else None
  | Spurious =>
      Some (set_sw (set_cv (cv_notify_one (client_available_cv (sw s))) (sw s)) s)
  | ClientRelease b =>
      if decide (b ∈ client_held s) then
        match client_release b (sw s) with
        | Ret _ w => Some (mkSys w (remove1 b (client_held s)) (comp_held s) (posted s ++ [b])
                             (shown s) (displayed s))
        | _ => None
        end
      else None
  | CompositorAcquire =>
      match compositor_acquire (sw s) with
      | Ret (_, b) w => Some (mkSys w (client_held s) (b :: comp_held s) (posted s)
          (match compositor_queue (sw s) with [] => shown s | _ => shown s ++ [b] end)
          (displayed s))
      | _ => None
      end
  | CompositorRelease b =>
      if decide (b ∈ comp_held s) then
        match compositor_release b (sw s) with
        | Ret _ w => Some (mkSys w (client_held s) (remove1 b (comp_held s)) (posted s)
                             (shown s) (Some b))
        | _ => None
        end
      else None
  | Shutdown =>
      match shutdown (sw s) with Ret _ w => Some (set_sw w s) | _ => None end
  end.

Lemma swap_exec_sound s a s' : swap_exec s a = Some s' -> swap_step s a s'.
Proof.
  destruct a; simpl; intros H; split_cases; simplify_eq/=;
    repeat match goal with u : unit |- _ => destruct u end;
    rewrite ?Nat.ltb_lt in *.
  - by eapply step_client_acquire.
  - by apply step_client_block.
  - by eapply step_client_wake.
  - by apply step_client_wake_block.
  - apply step_spurious.
  - by apply step_client_release.
  - pose proof (step_compositor_acquire s _ _ _ H0) as Hs. by rewrite H in Hs.
  - pose proof (step_compositor_acquire s _ _ _ H0) as Hs. by rewrite H in Hs.
  - by apply step_compositor_release.
  - by apply step_shutdown.
Qed.

Definition server_useb (s : swap_sys) (a : swap_action) : bool :=
  match a with
  | ClientAcquire =>
      bool_decide (client_held s = []) &&
      Nat.eqb (waiting (client_available_cv (sw s))) 0 &&
      Nat.eqb (woken (client_available_cv (sw s))) 0
  | CompositorAcquire => bool_decide (comp_held s = [])
  | _ => true
  end.

Lemma server_useb_true s a : server_useb s a = true -> server_use s a.
Proof.
  destruct a; simpl; try done.
  - rewrite !andb_true_iff, bool_decide_eq_true, !Nat.eqb_eq. tauto.
  - by rewrite bool_decide_eq_true.
Qed.

(** A run without shutdown that uses the swapper as the server does. *)
Fixpoint swap_run (acts : list swap_action) (s : swap_sys) : option swap_sys :=
  match acts with
  | [] => Some s
  | a :: acts' =>
      if server_useb s a && negb (match a with Shutdown => true | _ => false end)
      then match swap_exec s a with Some s1 => swap_run acts' s1 | None => None end
      else None
  end.

Lemma swap_run_reach G acts s0 s s' :
  (forall t a, server_use t a -> a <> Shutdown -> G t a) ->
  swap_reach G s0 s -> swap_run acts s = Some s' -> swap_reach G s0 s'.
Proof.
  intros HG. revert s. induction acts as [|a acts IH]; intros s Hr; simpl.
  - by intros [= <-].
  - destruct (server_useb s a) eqn:Hu; [|done]. simpl.
    destruct (negb _) eqn:Hn; [|done].
    destruct (swap_exec s a) as [s1|] eqn:He; [|done]. apply IH.
    eapply reach_step; [exact Hr| |by apply swap_exec_sound].
    apply HG; [by apply server_useb_true|]. by intros ->.
Qed.

(** The compositor shows buffer 2 once and gives it back. *)
Definition demo_shown_run : list swap_action :=
  [CompositorAcquire; CompositorRelease (mkBufferID 2)].

Definition demo_shown : swap_sys :=
  default (start demo_start) (swap_run demo_shown_run (start demo_start)).

(** The client posts buffer 1 and waits for the next one while the compositor
    holds buffer 2. *)
Definition demo_waiting_run : list swap_action :=
  [ClientAcquire; CompositorAcquire; ClientRelease (mkBufferID 1); ClientAcquire].

Definition demo_waiting : swap_sys :=
  default (start demo_start) (swap_run demo_waiting_run (start demo_start)).

Lemma demo_ids : NoDup (buffer_id <$> demo_buffers).
Proof. apply (bool_decide_unpack _). vm_compute. exact I. Qed.

Lemma demo_shown_reach G :
  (forall t a, server_use t a -> a <> Shutdown -> G t a) ->
  swap_reach G (start demo_start) demo_shown.
Proof.
  intros HG. apply (swap_run_reach G demo_shown_run _ (start demo_start)); [exact HG|apply reach_refl|].
  vm_compute. reflexivity.
Qed.

Lemma demo_waiting_reach G :
  (forall t a, server_use t a -> a <> Shutdown -> G t a) ->
  swap_reach G (start demo_start) demo_waiting.
Proof.
  intros HG. apply (swap_run_reach G demo_waiting_run _ (start demo_start)); [exact HG|apply reach_refl|].
  vm_compute. reflexivity.
Qed.

Lemma buffer_ownership_witness :
  let s := demo_waiting in
  Permutation
    (client_queue (sw s) ++ compositor_queue (sw s) ++ client_held s ++ comp_held s)
    (buffer_id <$> demo_buffers) /\
  NoDup (client_queue (sw s) ++ compositor_queue (sw s) ++ client_held s ++ comp_held s) /\
  in_use_by_client (sw s) = Z.of_nat (length (client_held s)) /\
  (length (client_held s) < length demo_buffers)%nat.
Proof.
  intros s. apply (buffer_ownership demo_buffers demo_start demo_ids eq_refl demo_waiting).
  by apply demo_waiting_reach.
Defined.

Lemma compositor_acquire_no_wait_witness :
  exists buf b w,
    compositor_acquire (sw demo_shown) = Ret (Some buf, b) w /\
    buffer_id buf = b /\ b ∈ buffer_id <$> demo_buffers /\ b ∉ client_held demo_shown.
Proof.
  apply (compositor_acquire_no_wait demo_buffers demo_start demo_ids eq_refl demo_shown).
  - by apply demo_shown_reach.
  - reflexivity.
Defined.

Lemma frames_shown_in_order_witness :
  posted demo_waiting = shown demo_waiting ++ compositor_queue (sw demo_waiting).
Proof.
  apply (frames_shown_in_order demo_buffers demo_start demo_ids eq_refl demo_waiting).
  by apply demo_waiting_reach.
Defined.

Lemma idle_compositor_shows_last_witness :
  exists r w, compositor_acquire (sw demo_shown) = Ret (r, mkBufferID 2) w.
Proof.
  apply (idle_compositor_shows_last demo_buffers demo_start demo_ids eq_refl demo_shown);
    try reflexivity. by apply demo_shown_reach.
Defined.

Lemma compositor_cycle_frees_client_witness :
  exists r b w1 w2 buf c w3,
    compositor_acquire (sw demo_shown) = Ret (r, b) w1 /\ compositor_release b w1 = Ret tt w2 /\
    client_acquire w2 = Ret (Some buf, c) w3.
Proof.
  apply (compositor_cycle_frees_client demo_buffers demo_start demo_ids eq_refl demo_shown).
  - by apply demo_shown_reach.
  - reflexivity.
  - simpl. lia.
Defined.

Lemma no_lost_wakeup_witness :
  (0 < waiting (client_available_cv (sw demo_waiting)))%nat /\
  client_must_wait (sw demo_waiting) = true.
Proof.
  split; [vm_compute; lia|].
  apply (no_lost_wakeup demo_buffers demo_start demo_ids eq_refl demo_waiting).
  - by apply demo_waiting_reach.
  - vm_compute. lia.
Defined.

Lemma shutdown_frees_client_witness :
  exists w, shutdown (sw demo_waiting) = Ret tt w /\ waiting (client_available_cv w) = 0%nat.
Proof.
  eexists. split; [vm_compute; reflexivity|].
  eapply (shutdown_frees_client demo_buffers demo_start demo_ids eq_refl demo_waiting).
  - by apply demo_waiting_reach.
  - vm_compute. reflexivity.
  - reflexivity.
Defined.

Lemma shutdown_undefined_reachable_witness :
  exists s b c,
    swap_reach server_use (start demo_start) s /\ client_held s = [b] /\ comp_held s = [c] /\
    shutdown (sw s) = Undef.
Proof. apply (shutdown_undefined_reachable demo_buffers demo_start demo_ids eq_refl eq_refl). Defined.
