(* ===== verification/Bundle.v ===== *)
(** * Buffer bundles

    From the graphics allocator to a surface's buffers: [SwapperFactory]
    ([swapper_factory.cpp]), [BufferBundleManager]
    ([buffer_bundle_manager.cpp]), [BufferBundleSurfaces]
    ([buffer_bundle_surfaces.cpp]) and the temporary buffers that acquire in
    their constructor and release in their destructor
    ([temporary_buffers.cpp]).  The allocator is the interface
    [GraphicBufferAllocator]; what the swapper needs of it are the laws
    [AllocatorLaws]. *)

From S2P Require Import Prelude Geometry Buffers Swapper.

(** [compositor::GraphicBufferAllocator], on the platform's state [A]. *)
Class GraphicBufferAllocator (A : Type) : Type := {
  alloc_buffer : BufferProperties -> M A Buffer;
  supported_pixel_formats : list PixelFormat;
}.

Section Factory.
Context {A : Type} `{GraphicBufferAllocator A}.

(** The loop of [create_swapper]: [n] allocations, appended in order. *)
Fixpoint alloc_buffers (n : nat) (p : BufferProperties) (acc : list Buffer) : M A (list Buffer) :=
  match n with
  | O => mret acc
  | S n' => b ← alloc_buffer p ; alloc_buffers n' p (acc ++ [b])
  end.

(** [SwapperFactory::create_swapper], with the member [number_of_buffers]; it
    gives the swapper and the actual buffer properties.  [buffers[0]] of an
    empty vector is undefined behaviour; the swapper's constructor may
    throw. *)
Definition create_swapper (number_of_buffers : Z) (requested : BufferProperties)
    : M A (BufferSwapperMulti * BufferProperties) :=
  buffers ← alloc_buffers (Z.to_nat number_of_buffers) requested [] ;
  match buffers with
  | [] => undefined
  | b0 :: _ =>
      let actual := mkBufferProperties (buffer_size b0) (buffer_pixel_format b0) (bp_usage requested) in
      match BufferSwapperMulti_new buffers with
      | Ret _ w => mret (w, actual)
      | Throw e _ => throw e
      | Wait _ => wait
      | Undef => undefined
      end
  end.

(** The constructor without a count uses two buffers. *)
Definition default_number_of_buffers : Z := 2.

Record BufferBundleSurfaces : Set := mkBundle {
  swapper : BufferSwapperMulti;
  bundle_size : Size;
  bundle_pixel_format : PixelFormat;
}.

(** [BufferBundleManager::create_buffer_bundle]. *)
Definition create_buffer_bundle (number_of_buffers : Z) (p : BufferProperties)
    : M A BufferBundleSurfaces :=
  '(w, actual) ← create_swapper number_of_buffers p ;
  mret (mkBundle w (bp_size actual) (bp_format actual)).

End Factory.

(** ** Temporary buffers

    The acquired buffer and its identifier.  The weak pointer to the swapper
    is the swapper the operations run on, or none when it is gone. *)
Record TemporaryBuffer : Set := mkTemporary {
  tb_buffer : option Buffer;
  tb_id : BufferID;
}.

Definition TemporaryClientBuffer_new : M BufferSwapperMulti TemporaryBuffer :=
  '(b, id) ← client_acquire ; mret (mkTemporary b id).

Definition TemporaryClientBuffer_delete (t : TemporaryBuffer) : M BufferSwapperMulti unit :=
  client_release (tb_id t).

Definition TemporaryCompositorBuffer_new : M BufferSwapperMulti TemporaryBuffer :=
  '(b, id) ← compositor_acquire ; mret (mkTemporary b id).

Definition TemporaryCompositorBuffer_delete (t : TemporaryBuffer) : M BufferSwapperMulti unit :=
  compositor_release (tb_id t).

(** The accessors go through the pointer to the buffer; [None] is the null
    pointer. *)
Definition tb_size (t : TemporaryBuffer) : option Size := buffer_size <$> tb_buffer t.
Definition tb_stride (t : TemporaryBuffer) : option Stride := buffer_stride <$> tb_buffer t.
Definition tb_pixel_format (t : TemporaryBuffer) : option PixelFormat :=
  buffer_pixel_format <$> tb_buffer t.
Definition tb_buffer_id (t : TemporaryBuffer) : option BufferID := buffer_id <$> tb_buffer t.
Definition tb_ipc_package (t : TemporaryBuffer) : option BufferIPCPackage :=
  buffer_ipc_package <$> tb_buffer t.

(** [BufferBundleSurfaces::secure_client_buffer], [lock_back_buffer] and
    [shutdown] on the bundle's swapper. *)
Definition secure_client_buffer : M BufferSwapperMulti TemporaryBuffer := TemporaryClientBuffer_new.
Definition lock_back_buffer : M BufferSwapperMulti TemporaryBuffer := TemporaryCompositorBuffer_new.
Definition bundle_shutdown : M BufferSwapperMulti unit := shutdown.

(** ** A swapper and its holders

    [swapper_ok w c k]: the swapper's invariant when the client holds the
    buffers [c] and the compositor the buffers [k]. *)
Definition swapper_ok (w : BufferSwapperMulti) (c k : list BufferID) : Prop :=
  swap_inv (mkSys w c k [] [] None).

(** A temporary buffer refers to the buffer whose identifier it releases. *)
Definition temporary_ok (t : TemporaryBuffer) : Prop :=
  exists buf, tb_buffer t = Some buf /\ buffer_id buf = tb_id t.

Lemma secure_client_buffer_ok w k :
  swapper_ok w [] k ->
  wp secure_client_buffer
    (fun t w' => swapper_ok w' [tb_id t] k /\ temporary_ok t)
    (fun _ _ => False)
    (fun w' => client_queue w = [] /\ swapper_ok w' [] k) w.
Proof.
  intros Hok. unfold wp, secure_client_buffer, TemporaryClientBuffer_new, mbind, M_bind.
  destruct (client_must_wait w) eqn:Hw.
  - unfold client_acquire. rewrite Hw. split.
    + apply (must_wait_spec _ Hok) in Hw as [Hw|Hw]; [done|].
      simpl in Hw. destruct (inv_size _ Hok) as [H|H]; simpl in H; congruence.
    + apply (inv_set_cv _ Hok).
  - destruct (client_acquire_ready _ Hok Hw) as (buf & b & q & Hq & Hf & Hid & Heq).
    simpl in Heq. rewrite Heq. split.
    + apply (inv_client_got _ Hok _ _ _ Heq).
    + by exists buf.
Qed.

Lemma client_delete_ok w t k :
  swapper_ok w [tb_id t] k ->
  exists w', TemporaryClientBuffer_delete t w = Ret tt w' /\ swapper_ok w' [] k /\
    client_queue w' = client_queue w /\ compositor_queue w' = compositor_queue w ++ [tb_id t].
Proof.
  intros Hok. eexists. split; [reflexivity|]. split; [|done].
  assert (swap_inv _) as Hi
    by (apply (inv_client_release _ Hok (tb_id t)); [apply list_elem_of_here|reflexivity]).
  simpl in Hi. rewrite decide_True in Hi by done. by destruct Hi; split.
Qed.

Lemma lock_back_buffer_ok w c :
  swapper_ok w c [] ->
  exists t w', lock_back_buffer w = Ret t w' /\ swapper_ok w' c [tb_id t] /\ temporary_ok t /\
    match compositor_queue w with
    | [] => exists q, client_queue w = q ++ [tb_id t] /\ w' = set_client_queue q w
    | b :: q => tb_id t = b /\ w' = set_compositor_queue q w
    end.
Proof.
  intros Hok.
  destruct (compositor_acquire_ready _ Hok) as (buf & b & w' & Heq & Hid & Hm); simpl in *.
  { intros [H1 H2]%app_eq_nil. pose proof (inv_total _ Hok) as Ht. simpl in Ht.
    rewrite H1, H2 in Ht. simpl in Ht. pose proof (inv_bound _ Hok). simpl in *. lia. }
  exists (mkTemporary (Some buf) b), w'.
  unfold lock_back_buffer, TemporaryCompositorBuffer_new, mbind, M_bind. rewrite Heq.
  split; [done|]. split; [apply (inv_compositor_acquire _ Hok _ _ _ [] Heq)|].
  split; [by exists buf|]. destruct (compositor_queue w); naive_solver.
Qed.

Lemma compositor_delete_ok w t c :
  swapper_ok w c [tb_id t] ->
  exists w', TemporaryCompositorBuffer_delete t w = Ret tt w' /\ swapper_ok w' c [] /\
    client_queue w' = client_queue w ++ [tb_id t] /\ compositor_queue w' = compositor_queue w.
Proof.
  intros Hok. eexists. split; [reflexivity|]. split; [|done].
  assert (swap_inv _) as Hi
    by (apply (inv_compositor_release _ Hok (tb_id t)); [apply list_elem_of_here|reflexivity]).
  simpl in Hi. rewrite decide_True in Hi by done. by destruct Hi; split.
Qed.

(** A bundle may be shut down unless the client and the compositor hold all
    its buffers. *)
Lemma bundle_shutdown_ok w c k :
  swapper_ok w c k -> (length c + length k < length (buffers w))%nat ->
  exists w', bundle_shutdown w = Ret tt w' /\ swapper_ok w' c k /\ client_queue w' <> [].
Proof.
  intros Hok Hlen. unfold bundle_shutdown.
  destruct (shutdown w) as [[] w'| | |] eqn:Hs.
  - exists w'. split; [done|]. split; [apply (inv_shutdown _ Hok _ Hs)|].
    by apply shutdown_effect in Hs as (q & -> & [[? ->]|(_ & b & cq & _ & ->)]).
  - revert Hs. unfold shutdown, mbind, M_bind. split_cases.
  - revert Hs. unfold shutdown, mbind, M_bind. split_cases.
  - exfalso. revert Hs. unfold shutdown, mbind, M_bind.
    pose proof (inv_total _ Hok) as Ht. simpl in Ht.
    destruct (client_queue w); [|done]. destruct (compositor_queue w); [|done].
    simpl in Ht. lia.
Qed.

(** ** What the allocator owes the swapper *)

(** Allocation returns or throws, and the buffers allocated for one swapper
    have different identifiers. *)
Class AllocatorLaws (A : Type) `{GraphicBufferAllocator A} : Prop := {
  alloc_returns : forall p a, match alloc_buffer p a with Wait _ | Undef => False | _ => True end;
  alloc_distinct : forall n p a l a',
    (n <= 3)%nat -> alloc_buffers n p [] a = Ret l a' -> NoDup (buffer_id <$> l);
}.

(** An allocator whose buffers take their identifiers from the generator, one
    each, meets the laws. *)
Section CountedAllocator.
Context {A : Type} `{GraphicBufferAllocator A} (next_id : A -> Z).
Hypothesis takes_id : forall p a,
  match alloc_buffer p a with
  | Ret b a' => generate_next_buffer_id (next_id a) = Some (buffer_id b, next_id a')
  | Throw _ _ => True
  | _ => False
  end.

Lemma counted_ids n p a acc l a' :
  alloc_buffers n p acc a = Ret l a' ->
  exists bs, l = acc ++ bs /\ generate_ids n (next_id a) = Some (buffer_id <$> bs, next_id a').
Proof.
  revert acc a. induction n as [|n IH]; intros acc a; simpl.
  - intros [= <- <-]. exists []. by rewrite app_nil_r.
  - unfold mbind at 1, M_bind. pose proof (takes_id p a) as Hid.
    destruct (alloc_buffer p a) as [b a1| | |]; try done.
    intros Hrun. apply IH in Hrun as (bs & -> & Hg). exists (b :: bs).
    rewrite <- app_assoc. split; [done|]. rewrite Hid. simpl. by rewrite Hg.
Qed.

Lemma counted_allocator_laws : AllocatorLaws A.
Proof.
  split.
  - intros p a. pose proof (takes_id p a). by destruct (alloc_buffer p a).
  - intros n p a l a' Hn Hrun. apply counted_ids in Hrun as (bs & -> & Hg). simpl.
    eapply generate_ids_NoDup; [|exact Hg]. lia.
Qed.

End CountedAllocator.

Section FactoryLaws.
Context {A : Type} `{AllocatorLaws A}.

Lemma alloc_buffers_returns n p acc a :
  wp (alloc_buffers n p acc) (fun l _ => length l = (n + length acc)%nat)
    (fun _ _ => True) (fun _ => False) a.
Proof.
  revert acc a. induction n as [|n IH]; intros acc a; [done|]. simpl.
  apply wp_bind. unfold wp at 1. pose proof (alloc_returns p a) as Hr.
  destruct (alloc_buffer p a) as [b a'|e a'|a'|]; try done.
  eapply wp_mono; [apply IH|..]; try done. intros l s' ->.
  rewrite length_app. simpl. lia.
Qed.

Lemma create_swapper_ok n p a :
  n = 2 \/ n = 3 ->
  wp (create_swapper n p)
    (fun '(w, actual) _ => swapper_ok w [] [] /\ length (buffers w) = Z.to_nat n /\
       bp_usage actual = bp_usage p /\ client_available_cv w = cv_init)
    (fun _ _ => True) (fun _ => False) a.
Proof.
  intros Hn. unfold create_swapper. apply wp_bind. unfold wp at 1.
  pose proof (alloc_buffers_returns (Z.to_nat n) p [] a) as Hret. unfold wp in Hret.
  destruct (alloc_buffers (Z.to_nat n) p [] a) as [l a'|e a'|a'|] eqn:Ha; try done.
  apply alloc_distinct in Ha; [|lia].
  rewrite Nat.add_0_r in Hret.
  destruct (swapper_new_ok l Ha) as (w & Hnew & Hinv & Hcq & _ & Hp & Hcv); [lia|].
  destruct l as [|b0 l]; [simpl in *; lia|].
  rewrite Hnew. unfold wp. simpl. split; [exact Hinv|]. split; [|done].
  apply Permutation_length in Hp. unfold all_ids, OrdMap.keys in Hp.
  rewrite !length_fmap in Hp. lia.
Qed.

Lemma create_buffer_bundle_ok n p a :
  n = 2 \/ n = 3 ->
  wp (create_buffer_bundle n p)
    (fun bundle _ => swapper_ok (swapper bundle) [] [] /\
       length (buffers (swapper bundle)) = Z.to_nat n)
    (fun _ _ => True) (fun _ => False) a.
Proof.
  intros Hn. unfold create_buffer_bundle. apply wp_bind.
  eapply wp_mono; [apply (create_swapper_ok n p a Hn)|..]; try done.
  intros [w actual] a' (? & ? & _). by unfold wp.
Qed.

(** What a factory configured with [n] buffers can do: it yields a swapper only
    for two or three buffers, and then a well-formed one holding that many
    distinct buffers with the usage that was asked for; it throws (the swapper
    refuses the count, or an allocation fails) only when there is a buffer to
    allocate; and it reads [buffers[0]] of an empty vector, which is undefined,
    only when the count is not positive. It never waits. *)
Theorem create_swapper_count n p a :
  match create_swapper n p a with
  | Ret (w, actual) _ => (n = 2 \/ n = 3) /\ swapper_ok w [] [] /\
      length (buffers w) = Z.to_nat n /\ bp_usage actual = bp_usage p
  | Throw _ _ => 0 < n
  | Wait _ => False
  | Undef => n <= 0
  end.
Proof.
  destruct (decide (n = 2 \/ n = 3)) as [Hn|Hn].
  - pose proof (create_swapper_ok n p a Hn) as Hw. unfold wp in Hw.
    destruct (create_swapper n p a) as [[w actual] a'| | |]; try done; [naive_solver|lia].
  - unfold create_swapper, mbind, M_bind.
    pose proof (alloc_buffers_returns (Z.to_nat n) p [] a) as Hret. unfold wp in Hret.
    rewrite Nat.add_0_r in Hret.
    destruct (alloc_buffers (Z.to_nat n) p [] a) as [l a'|e a'|a'|] eqn:Ha; try done.
    + destruct l as [|b0 l]; [simpl in *; lia|].
      rewrite swapper_new_refuses by (rewrite Hret; lia). simpl in *. lia.
    + destruct (Z.to_nat n) eqn:E; [done|lia].
Qed.

End FactoryLaws.
