(* ===== verification/GbmBuffers.v ===== *)
(** * GBM buffers

    The buffer allocator of the desktop platform
    ([src/server/graphics/gbm/gbm_buffer.cpp], [gbm_buffer_allocator.cpp]).
    The GBM library and the kernel are parameters: creating a buffer object
    and giving it a global (flink) name, on a device state that only they can
    see.  The allocator meets [AllocatorLaws]. *)

From S2P Require Import Prelude Geometry Buffers Swapper Bundle.

(** ** Pixel formats

    The constants of [gbm.h]: fourcc codes and the two legacy format numbers. *)
Definition GBM_FORMAT_XRGB8888 : Z := 0x34325258.
Definition GBM_FORMAT_ARGB8888 : Z := 0x34325241.
Definition GBM_BO_FORMAT_XRGB8888 : Z := 0.
Definition GBM_BO_FORMAT_ARGB8888 : Z := 1.
Definition GBM_BO_USE_RENDERING : Z := 4.
Definition GBM_BO_USE_WRITE : Z := 8.

Definition gbm_format_to_mir_format (format : Z) : PixelFormat :=
  if Z.eqb format GBM_BO_FORMAT_ARGB8888 then argb_8888
  else if Z.eqb format GBM_FORMAT_ARGB8888 then argb_8888
  else if Z.eqb format GBM_BO_FORMAT_XRGB8888 then xrgb_8888
  else if Z.eqb format GBM_FORMAT_XRGB8888 then xrgb_8888
  else pf_invalid.

Definition mir_format_to_gbm_format (format : PixelFormat) : Z :=
  if pf_eqb format argb_8888 then GBM_FORMAT_ARGB8888
  else if pf_eqb format xrgb_8888 then GBM_FORMAT_XRGB8888
  else 4294967295.

(** [GBMBufferAllocator::supported_pixel_formats]. *)
Definition gbm_supported_pixel_formats : list PixelFormat := [argb_8888; xrgb_8888].

(** The formats the GBM allocator advertises are exactly those that
    survive the conversion to GBM and back; every other format becomes the
    invalid one. *)
Theorem gbm_format_roundtrip (pf : PixelFormat) :
  gbm_format_to_mir_format (mir_format_to_gbm_format pf) =
    if decide (pf ∈ gbm_supported_pixel_formats) then pf else pf_invalid.
Proof.
  destruct pf as [v]. unfold mir_format_to_gbm_format, pf_eqb, gbm_supported_pixel_formats. simpl.
  case_decide as Hin.
  - apply elem_of_cons in Hin as [[= ->]|[[= ->]|Hin]%elem_of_cons]; [done|done|].
    by apply not_elem_of_nil in Hin.
  - destruct (Z.eqb_spec v 3) as [->|]; [exfalso; apply Hin; apply list_elem_of_here|].
    destruct (Z.eqb_spec v 4) as [->|]; [|done].
    exfalso. apply Hin. apply list_elem_of_further, list_elem_of_here.
Qed.

Section Gbm.

(** The GBM device and what the library does with it. *)
Context {G gbm_bo : Type}.
Context (gbm_bo_create : Z -> Z -> Z -> Z -> G -> option gbm_bo * G).
Context (gbm_bo_get_width gbm_bo_get_height gbm_bo_get_stride gbm_bo_get_format : gbm_bo -> Z).
(** [drmIoctl(DRM_IOCTL_GEM_FLINK)]: a flink name, or the error number. *)
Context (gem_flink : gbm_bo -> G -> (Z + Z) * G).
(** The [BufferInitializer] of the server configuration; it sees the buffer,
    not its description. *)
Context (buffer_initializer : Buffer -> G -> G).

Record gbm_state : Type := mkGbm {
  next_buffer_id : Z;
  device : G;
}.

Definition set_device (g : G) (s : gbm_state) : gbm_state := mkGbm (next_buffer_id s) g.

(** What the accessors of [GBMBuffer] report of a buffer object. *)
Definition gbm_buffer_of (id : BufferID) (bo : gbm_bo) (gem_flink_name : Z) : Buffer :=
  mkBuffer id
    (mkSize (wrap (gbm_bo_get_width bo)) (wrap (gbm_bo_get_height bo)))
    (wrap (gbm_bo_get_stride bo))
    (gbm_format_to_mir_format (gbm_bo_get_format bo))
    (mkBufferIPCPackage [i32 gem_flink_name] []
       (i32 (as_uint32_t (wrap (Tag := Dim.stride) (gbm_bo_get_stride bo))))).

(** The constructor: [BufferBasic] takes an identifier first, then the buffer
    object is given its flink name or the exception carries [errno]. *)
Definition GBMBuffer_new (bo : gbm_bo) : M gbm_state Buffer := fun s =>
  match generate_next_buffer_id (next_buffer_id s) with
  | None => Undef
  | Some (id, next') =>
      match gem_flink bo (device s) with
      | (inr errno, g) =>
          Throw (errno_error "Failed to get GEM flink name from gbm bo" errno) (mkGbm next' g)
      | (inl gem_flink_name, g) => Ret (gbm_buffer_of id bo gem_flink_name) (mkGbm next' g)
      end
  end.

Definition gbm_alloc_buffer (p : BufferProperties) : M gbm_state Buffer :=
  let bo_flags := if usage_eqb (bp_usage p) usage_software then GBM_BO_USE_WRITE
                  else GBM_BO_USE_RENDERING in
  bo_raw ← (fun s =>
    let '(bo, g) := gbm_bo_create (as_uint32_t (size_width (bp_size p)))
                      (as_uint32_t (size_height (bp_size p)))
                      (mir_format_to_gbm_format (bp_format p)) bo_flags (device s) in
    Ret bo (set_device g s)) ;
  match bo_raw with
  | None => throw (runtime_error "Failed to create GBM buffer object")
  | Some bo =>
      buffer ← GBMBuffer_new bo ;
      modify (fun s => set_device (buffer_initializer buffer (device s)) s) ;;
      mret buffer
  end.

#[local] Instance gbm_allocator : GraphicBufferAllocator gbm_state := {
  alloc_buffer := gbm_alloc_buffer;
  supported_pixel_formats := gbm_supported_pixel_formats;
}.

(** A successful allocation takes one identifier from the generator. *)
Lemma gbm_alloc_id p s :
  match gbm_alloc_buffer p s with
  | Ret b s' => generate_next_buffer_id (next_buffer_id s) = Some (buffer_id b, next_buffer_id s')
  | Throw _ _ => True
  | _ => False
  end.
Proof.
  unfold gbm_alloc_buffer, GBMBuffer_new, mbind, M_bind.
  destruct (gbm_bo_create _ _ _ _ _) as [[bo|] g]; [|done].
  cbn [next_buffer_id set_device device].
  rewrite generate_next_spec. cbv zeta iota beta.
  destruct (gem_flink bo g) as [[n|e] g']; done.
Qed.

#[local] Instance gbm_allocator_laws : AllocatorLaws gbm_state.
Proof. exact (counted_allocator_laws next_buffer_id gbm_alloc_id). Qed.

End Gbm.

(** ** A concrete platform

    A device that counts the buffer objects it has created; buffer objects
    are their width, height, format and number, and are 32-bit per pixel. *)
Definition demo_bo : Set := (Z * Z * Z * Z)%type.

Definition demo_bo_create (w h f flags g : Z) : option demo_bo * Z := (Some (w, h, f, g), g + 1).

Definition demo_platform : Type := @gbm_state Z.

#[export] Instance demo_allocator : GraphicBufferAllocator demo_platform :=
  gbm_allocator demo_bo_create
    (fun '(w, _, _, _) => w) (fun '(_, h, _, _) => h) (fun '(w, _, _, _) => 4 * w)
    (fun '(_, _, f, _) => f) (fun '(_, _, _, n) g => (inl n, g)) (fun _ g => g).

#[export] Instance demo_allocator_laws : AllocatorLaws demo_platform.
Proof. apply gbm_allocator_laws. Qed.

Definition demo_device : demo_platform := mkGbm 0 100.

Definition demo_properties : BufferProperties :=
  mkBufferProperties (mkSize (wrap 640) (wrap 480)) argb_8888 usage_hardware.

Lemma create_swapper_count_witness :
  match create_swapper 2 demo_properties demo_device with
  | Ret (w, actual) _ => (2 = 2 \/ 2 = 3) /\ swapper_ok w [] [] /\
      length (buffers w) = 2%nat /\ bp_usage actual = usage_hardware
  | Throw _ _ => 0 < 2
  | Wait _ => False
  | Undef => 2 <= 0
  end.
Proof. apply (create_swapper_count (A := demo_platform) 2 demo_properties demo_device). Defined.

Example demo_create_swapper :
  exists w a', create_swapper 2 demo_properties demo_device = Ret (w, demo_properties) a'.
Proof. eexists _, _. vm_compute. reflexivity. Qed.
