(* ===== verification/EglImages.v ===== *)
(** * EGL images

    The calls with which a buffer is made into a texture, on a world [W], for
    native buffers of type [N], and what EGL keeps. *)

From S2P Require Import Prelude.

Class EglImages (W N : Type) : Type := {
  (** Zero is [EGL_NO_DISPLAY]. *)
  eglGetCurrentDisplay : W -> Z;
  (** Display and native buffer; zero is [EGL_NO_IMAGE_KHR]. *)
  eglCreateImageKHR : Z -> N -> W -> Z * W;
  eglDestroyImageKHR : Z -> Z -> W -> W;
  glEGLImageTargetTexture2DOES : Z -> W -> W;
}.

Class EglImageLaws (W N : Type) `{EglImages W N} : Type := {
  (** The images there are, with their displays. *)
  live_images : W -> gset (Z * Z);
  create_image_law disp buf w :
    let '(image, w') := eglCreateImageKHR disp buf w in
    if image =? 0 then live_images w' = live_images w
    else ((disp, image) ∉ live_images w) /\ live_images w' = {[ (disp, image) ]} ∪ live_images w;
  destroy_image_law disp image w :
    live_images (eglDestroyImageKHR disp image w) = live_images w ∖ {[ (disp, image) ]};
  target_law image w : live_images (glEGLImageTargetTexture2DOES image w) = live_images w;
}.
