(* ===== verification/GbmTexture.v ===== *)
(** * Textures of GBM buffers

    [EGLImageBufferTextureBinder] and [EGLExtensions]
    ([src/server/graphics/gbm/gbm_buffer_allocator.cpp]): the image through which
    a buffer object is bound to a texture. *)

From S2P Require Import Prelude EglImages.

(** The constructor of [EGLExtensions]: which of the three functions
    [eglGetProcAddress] finds. *)
Definition EGLExtensions_new {S} (create destroy target : bool) : M S unit :=
  if negb create || negb destroy then throw (runtime_error "EGL implementation doesn't support EGLImage")
  else if negb target
  then throw (runtime_error "GLES2 implementation doesn't support updating a texture from an EGLImage")
  else mret tt.

(** The binder of buffer object [bo]; [egl_display] is not set before there is
    an image. *)
Record EGLImageBufferTextureBinder (N : Type) : Type := mkBinder {
  binder_bo : N;
  egl_display : option Z;
  egl_image : Z;
}.
Arguments mkBinder {N} _ _ _.
Arguments binder_bo {N} _.
Arguments egl_display {N} _.
Arguments egl_image {N} _.

Record binding (W N : Type) : Type := mkBinding { bd_binder : EGLImageBufferTextureBinder N; bd_world : W }.
Arguments mkBinding {W N} _ _.
Arguments bd_binder {W N} _.
Arguments bd_world {W N} _.

Section Binder.
Context {W N : Type} {images : EglImages W N}.

Definition Binder_new (bo : N) : EGLImageBufferTextureBinder N := mkBinder bo None 0.

Definition update_binder (f : EGLImageBufferTextureBinder N -> EGLImageBufferTextureBinder N) : M (binding W N) unit :=
  modify (fun s => mkBinding (f (bd_binder s)) (bd_world s)).

Definition ensure_egl_image : M (binding W N) unit :=
  s ← get ;
  if egl_image (bd_binder s) =? 0 then
    let display := eglGetCurrentDisplay (bd_world s) in
    update_binder (fun b => mkBinder (binder_bo b) (Some display) (egl_image b)) ;;
    image ← (fun s => let '(i, w) := eglCreateImageKHR display (binder_bo (bd_binder s)) (bd_world s) in
                      Ret i (mkBinding (bd_binder s) w)) ;
    update_binder (fun b => mkBinder (binder_bo b) (egl_display b) image) ;;
    if image =? 0 then throw (runtime_error "Failed to create EGLImage from GBM bo") else mret tt
  else mret tt.

Definition bind_to_texture : M (binding W N) unit :=
  ensure_egl_image ;;
  modify (fun s => mkBinding (bd_binder s) (glEGLImageTargetTexture2DOES (egl_image (bd_binder s)) (bd_world s))).

(** The destructor. *)
Definition Binder_delete : M (binding W N) unit :=
  s ← get ;
  if egl_image (bd_binder s) =? 0 then mret tt
  else
    display ← deref (fun s => egl_display (bd_binder s)) ;
    modify (fun s => mkBinding (bd_binder s) (eglDestroyImageKHR display (egl_image (bd_binder s)) (bd_world s))).

End Binder.

(** ** The life of an image *)

Section BinderLaws.
Context {W N : Type} `{EglImageLaws W N}.

(** Runs of a binder: it binds, in whatever context is current, and other code
    makes and destroys images of its own, [rest]. *)
Inductive binder_runs (bo : N) : gset (Z * Z) -> binding W N -> Prop :=
| binder_made w : binder_runs bo (live_images w) (mkBinding (Binder_new bo) w)
| binder_binds rest s s' :
    binder_runs bo rest s ->
    (bind_to_texture s = Ret tt s' \/ exists e, bind_to_texture s = Throw e s') -> binder_runs bo rest s'
| binder_others rest s w' rest' :
    binder_runs bo rest s ->
    (if egl_image (bd_binder s) =? 0 then live_images w' = rest'
     else exists d, egl_display (bd_binder s) = Some d /\ ((d, egl_image (bd_binder s)) ∉ rest') /\
       live_images w' = {[ (d, egl_image (bd_binder s)) ]} ∪ rest') ->
    binder_runs bo rest' (mkBinding (bd_binder s) w').

(** The binder has no image, or one on its display. *)
Definition binder_inv (rest : gset (Z * Z)) (s : binding W N) : Prop :=
  if egl_image (bd_binder s) =? 0 then live_images (bd_world s) = rest
  else exists d, egl_display (bd_binder s) = Some d /\ ((d, egl_image (bd_binder s)) ∉ rest) /\
    live_images (bd_world s) = {[ (d, egl_image (bd_binder s)) ]} ∪ rest.

Lemma bind_keeps_binder_inv rest s :
  binder_inv rest s ->
  match bind_to_texture s with Ret _ s' | Throw _ s' => binder_inv rest s' | _ => False end.
Proof.
  destruct s as [[bo d i] w]. unfold binder_inv. cbn [bd_binder bd_world egl_image egl_display].
  unfold bind_to_texture, ensure_egl_image, get, mbind, M_bind, modify, mret, M_ret, throw. cbn [bd_binder bd_world egl_image].
  destruct (i =? 0) eqn:Ei; intros Hinv.
  - unfold update_binder, modify. cbn [bd_binder bd_world binder_bo egl_display egl_image].
    set (disp := eglGetCurrentDisplay w). pose proof (create_image_law disp bo w) as Hc.
    destruct (eglCreateImageKHR disp bo w) as [image w1]. cbn [bd_binder bd_world binder_bo egl_display egl_image].
    destruct (image =? 0) eqn:Eim; cbn [bd_binder bd_world egl_display egl_image]; rewrite ?Eim.
    + by rewrite Hc.
    + destruct Hc as [Hf Hc]. exists disp. rewrite target_law, Hc, Hinv in *. done.
  - cbn [bd_binder bd_world egl_display egl_image]. rewrite Ei, target_law. exact Hinv.
Qed.

(** A binder makes at most one image, on the display that is current when it
    succeeds for the first time, and its destructor destroys exactly that image
    and leaves those of others.  Later bindings use the same image, whichever
    display is current then. *)
Theorem texture_binder_life bo rest (s : binding W N) :
  binder_runs bo rest s ->
  (exists s', Binder_delete s = Ret tt s' /\ live_images (bd_world s') = rest) /\
  (egl_image (bd_binder s) <> 0 ->
   bind_to_texture s =
     Ret tt (mkBinding (bd_binder s) (glEGLImageTargetTexture2DOES (egl_image (bd_binder s)) (bd_world s)))).
Proof.
  intros Hruns.
  assert (binder_inv rest s) as Hinv.
  { induction Hruns as [w|rest s s' _ IH Hb|rest s w' rest' _ IH Ho]; [done| |exact Ho].
    pose proof (bind_keeps_binder_inv _ _ IH) as Hk. destruct Hb as [Hb|[e Hb]]; by rewrite Hb in Hk. }
  destruct s as [[bo' d i] w]. unfold binder_inv in Hinv. cbn [bd_binder bd_world egl_image egl_display] in Hinv.
  split.
  - unfold Binder_delete, get, deref, mbind, M_bind, modify, mret, M_ret. cbn [bd_binder bd_world egl_image egl_display].
    destruct (i =? 0); [by eexists|]. destruct Hinv as (x & -> & Hf & Hl). eexists. split; [reflexivity|].
    cbn [bd_world]. rewrite destroy_image_law, Hl. set_solver.
  - cbn [bd_binder egl_image]. intros Hi. unfold bind_to_texture, ensure_egl_image, get, mbind, M_bind.
    cbn [bd_binder egl_image]. by rewrite (proj2 (Z.eqb_neq i 0) Hi).
Qed.

End BinderLaws.

(** ** A concrete EGL: its images and the current display *)

Definition demo_egl : Type := gset (Z * Z) * Z.

Definition demo_fresh (w : demo_egl) : Z := above (set_map snd (fst w)).

#[export] Instance demo_images : EglImages demo_egl Z := {
  eglGetCurrentDisplay w := snd w;
  eglCreateImageKHR disp _ w := if disp =? 0 then (0, w) else (demo_fresh w, ({[ (disp, demo_fresh w) ]} ∪ fst w, snd w));
  eglDestroyImageKHR disp image w := (fst w ∖ {[ (disp, image) ]}, snd w);
  glEGLImageTargetTexture2DOES _ w := w;
}.

#[export, refine] Instance demo_image_laws : EglImageLaws demo_egl Z := { live_images := fst }.
Proof.
  - intros disp buf w. simpl. destruct (disp =? 0); [done|].
    destruct (above_fresh (set_map snd (fst w))) as [Hf Hp]. fold (demo_fresh w) in Hf, Hp.
    destruct (Z.eqb_spec (demo_fresh w) 0); [lia|]. split; [|done].
    intros Hin. apply Hf, elem_of_map. by exists (disp, demo_fresh w).
  - done.
  - done.
Defined.

(** Bound without a context, which fails, and then on display 3. *)
Lemma texture_binder_life_witness :
  let s := mkBinding (mkBinder 8 (Some 3) 1) (({[ (3, 1) ]}, 3) : demo_egl) in
  (exists s', Binder_delete s = Ret tt s' /\ live_images (bd_world s') = ∅) /\
  (egl_image (bd_binder s) <> 0 ->
   bind_to_texture s =
     Ret tt (mkBinding (bd_binder s) (glEGLImageTargetTexture2DOES (egl_image (bd_binder s)) (bd_world s)))).
Proof.
  apply (texture_binder_life 8 ∅).
  apply (binder_binds 8 _ (mkBinding (mkBinder 8 (Some 0) 0) ((∅, 3) : demo_egl))).
  - apply (binder_others 8 ∅ (mkBinding (mkBinder 8 (Some 0) 0) ((∅, 0) : demo_egl))); [|done].
    apply (binder_binds 8 _ (mkBinding (Binder_new 8) ((∅, 0) : demo_egl))); [|right; eexists; vm_compute; reflexivity].
    exact (binder_made 8 ((∅, 0) : demo_egl)).
  - left. vm_compute. reflexivity.
Defined.
