(* ===== verification/AndroidBuffers.v ===== *)
(** * Android buffers

    The buffer allocator of the Android platform
    ([src/server/graphics/android/]): [AndroidAllocAdaptor]
    ([android_alloc_adaptor.cpp]), [AndroidBufferHandleDefault]
    ([android_buffer_handle.cpp]), [AndroidBuffer] ([android_buffer.cpp]) and
    [AndroidBufferAllocator] ([android_buffer_allocator.cpp]).

    The gralloc device and EGL's images are classes of calls on a world [W]. *)

From S2P Require Import Prelude Geometry Buffers Swapper Bundle EglImages.

(** The end of some messages. *)
Definition newline : string := String (Ascii.ascii_of_nat 10) EmptyString.

(** ** Handles *)

(** [native_handle_t]; [data] has the descriptors and then the integers. *)
Record native_handle : Set := mkNative {
  nh_version : Z;
  numFds : Z;
  numInts : Z;
  nh_data : list Z;
}.

(** A [buffer_handle_t]: a pointer and what it points to. *)
Record buffer_handle : Set := mkHandle { bh_address : Z; bh_native : native_handle }.

Inductive BufferUsage : Set := use_hardware | use_software | use_framebuffer_gles.

Definition GRALLOC_USAGE_HW_TEXTURE : Z := 256.
Definition GRALLOC_USAGE_HW_RENDER : Z := 512.
Definition GRALLOC_USAGE_HW_COMPOSER : Z := 2048.
Definition GRALLOC_USAGE_HW_FB : Z := 4096.

Definition convert_to_android_usage (usage : BufferUsage) : Z :=
  match usage with
  | use_hardware => Z.lor GRALLOC_USAGE_HW_TEXTURE GRALLOC_USAGE_HW_RENDER
  | use_framebuffer_gles => Z.lor (Z.lor GRALLOC_USAGE_HW_RENDER GRALLOC_USAGE_HW_COMPOSER) GRALLOC_USAGE_HW_FB
  | use_software => -1
  end.

Definition HAL_PIXEL_FORMAT_RGBA_8888 : Z := 1.
Definition HAL_PIXEL_FORMAT_RGBX_8888 : Z := 2.
Definition HAL_PIXEL_FORMAT_RGB_888 : Z := 3.

Definition convert_to_android_pixel_code (mir_pixel_format : PixelFormat) : Z :=
  if pf_eqb mir_pixel_format abgr_8888 then HAL_PIXEL_FORMAT_RGBA_8888
  else if pf_eqb mir_pixel_format xbgr_8888 then HAL_PIXEL_FORMAT_RGBX_8888
  else if pf_eqb mir_pixel_format bgr_888 then HAL_PIXEL_FORMAT_RGB_888
  else 0.

(** [ANativeWindowBuffer], without its reference-counting hooks, which do
    nothing, and its constants. *)
Record ANativeWindowBuffer : Set := mkAnw {
  anw_width : Z;
  anw_height : Z;
  anw_stride : Z;
  anw_handle : buffer_handle;
  anw_format : Z;
  anw_usage : Z;
}.

Record AndroidBufferHandleDefault : Set := mkHandleDefault {
  anw_buffer : ANativeWindowBuffer;
  handle_pixel_format : PixelFormat;
  buffer_usage : BufferUsage;
  ipc_package : BufferIPCPackage;
}.

(** [data[i]]. *)
Definition native_data (h : native_handle) (i : Z) : option Z := if i <? 0 then None else nh_data h !! Z.to_nat i.

(** The loops of [pack_ipc_package]: [n] items from [data[offset]] on. *)
Fixpoint pack_items (h : native_handle) (offset : Z) (n : nat) : option (list Z) :=
  match n with
  | O => Some []
  | S n' => x ← native_data h offset ; l ← pack_items h (offset + 1) n' ; Some (x :: l)
  end.

(** [resize] with an [int] that is converted to [size_t]. *)
Definition resize {S} (n : Z) : M S nat :=
  if n <? 0 then throw (logic_error "vector::_M_default_append") else mret (Z.to_nat n).

Definition pack_ipc_package {S} (anw : ANativeWindowBuffer) : M S BufferIPCPackage :=
  let native_handle := bh_native (anw_handle anw) in
  ints ← resize (numInts native_handle) ;
  data ← deref (fun _ => pack_items native_handle (numFds native_handle) ints) ;
  fds ← resize (numFds native_handle) ;
  fd_items ← deref (fun _ => pack_items native_handle 0 fds) ;
  mret (mkBufferIPCPackage data fd_items (anw_stride anw)).

Definition AndroidBufferHandleDefault_new {S} (buf : ANativeWindowBuffer) (pf : PixelFormat) (use : BufferUsage)
    : M S AndroidBufferHandleDefault :=
  package ← pack_ipc_package buf ;
  mret (mkHandleDefault buf pf use package).

(** [size], [stride] and [format] of a handle. *)
Definition handle_size (h : AndroidBufferHandleDefault) : Size :=
  mkSize (wrap (anw_width (anw_buffer h))) (wrap (anw_height (anw_buffer h))).

Definition handle_stride (h : AndroidBufferHandleDefault) : Stride := wrap (anw_stride (anw_buffer h)).

(** ** Allocation *)

(** [hw_get_module] and the gralloc device. *)
Class Gralloc (W : Type) : Type := {
  hw_get_gralloc_module : W -> Z * W;
  gralloc_open : W -> Z * W;
  (** Width, height, format and usage; the result, the handle and the stride. *)
  gralloc_alloc : Z -> Z -> Z -> Z -> W -> (Z * option buffer_handle * Z) * W;
  gralloc_free : Z -> W -> W;
}.

Section Allocation.
Context {W : Type} {gralloc : Gralloc W}.

Definition device {A} (f : W -> A * W) : M W A := fun w => let '(a, w') := f w in Ret a w'.

(** [AndroidAllocAdaptor::alloc_buffer]. *)
Definition adaptor_alloc_buffer (size : Size) (pf : PixelFormat) (usage : BufferUsage)
    : M W (option AndroidBufferHandleDefault) :=
  let format := convert_to_android_pixel_code pf in
  let usage_flag := convert_to_android_usage usage in
  let width := i32 (as_uint32_t (size_width size)) in
  let height := i32 (as_uint32_t (size_height size)) in
  '(ret, buf_handle, stride_as_int) ← device (gralloc_alloc width height format usage_flag) ;
  match buf_handle with
  | Some handle =>
      if negb (ret =? 0) || (stride_as_int =? 0) then mret None
      else
        h ← AndroidBufferHandleDefault_new (mkAnw width height stride_as_int handle format usage_flag) pf usage ;
        mret (Some h)
  | None => mret None
  end.

(** [AndroidBufferHandleDefaultDeleter]. *)
Definition handle_delete (h : AndroidBufferHandleDefault) : M W unit :=
  modify (gralloc_free (bh_address (anw_handle (anw_buffer h)))).

(** [BufferBasic]'s generator and the world. *)
Record android : Type := mkAndroid { next_buffer_id : Z; android_world : W }.

Definition to_world : lens android W := Lens android_world (fun w a => mkAndroid (next_buffer_id a) w).

Record AndroidBuffer : Type := mkAndroidBuffer {
  ab_id : BufferID;
  egl_image_map : OrdMap.t Z;
  native_window_buffer_handle : AndroidBufferHandleDefault;
}.

Definition BufferBasic_new : M android BufferID := fun a =>
  match generate_next_buffer_id (next_buffer_id a) with
  | Some (id, next) => Ret id (mkAndroid next (android_world a))
  | None => Undef
  end.

(** The constructor; [alloc_device] is whether there is a device. *)
Definition AndroidBuffer_new (alloc_device : bool) (size : Size) (pf : PixelFormat) : M android AndroidBuffer :=
  id ← BufferBasic_new ;
  if negb alloc_device then throw (runtime_error "No allocation device for graphics buffer")
  else
    handle ← zoom to_world (adaptor_alloc_buffer size pf use_hardware) ;
    match handle with
    | None => throw (runtime_error "Graphics buffer allocation failed")
    | Some h => mret (mkAndroidBuffer id [] h)
    end.

(** The buffer as [compositor::Buffer] shows it. *)
Definition buffer_of (b : AndroidBuffer) : Buffer :=
  let h := native_window_buffer_handle b in
  mkBuffer (ab_id b) (handle_size h) (handle_stride h) (handle_pixel_format h) (ipc_package h).

Definition android_supported_pixel_formats : list PixelFormat := [abgr_8888; xbgr_8888; bgr_888].

(** The constructor of [AndroidBufferAllocator]. *)
Definition AndroidBufferAllocator_new : M W unit :=
  err ← device hw_get_gralloc_module ;
  if err <? 0 then throw (runtime_error "Could not open hardware module")
  else
    err ← device gralloc_open ;
    if err <? 0 then throw (runtime_error "Could not open hardware module") else mret tt.

(** Its [alloc_buffer], with the configuration's [BufferInitializer]. *)
Definition android_alloc_buffer (buffer_initializer : Buffer -> W -> W) (p : BufferProperties) : M android Buffer :=
  buffer ← AndroidBuffer_new true (bp_size p) (bp_format p) ;
  modify (fun a => mkAndroid (next_buffer_id a) (buffer_initializer (buffer_of buffer) (android_world a))) ;;
  mret (buffer_of buffer).

Definition android_allocator (buffer_initializer : Buffer -> W -> W) : GraphicBufferAllocator android := {|
  alloc_buffer := android_alloc_buffer buffer_initializer;
  supported_pixel_formats := android_supported_pixel_formats;
|}.

End Allocation.

Arguments android : clear implicits.

(** ** Textures *)

(** A buffer and the world. *)
Record texture (W : Type) : Type := mkTexture { tx_buffer : AndroidBuffer; tx_world : W }.
Arguments mkTexture {W} _ _.
Arguments tx_buffer {W} _.
Arguments tx_world {W} _.

Section Textures.
Context {W : Type} {gralloc : Gralloc W} {images : EglImages W ANativeWindowBuffer}.

Definition from_world : lens (texture W) W := Lens tx_world (fun w s => mkTexture (tx_buffer s) w).

(** [egl_image_map[disp] = image]. *)
Definition remember_image (disp image : Z) : M (texture W) unit :=
  modify (fun s =>
    let b := tx_buffer s in
    mkTexture (mkAndroidBuffer (ab_id b) (OrdMap.insert disp image (egl_image_map b)) (native_window_buffer_handle b))
      (tx_world s)).

Definition bind_to_texture : M (texture W) unit :=
  s ← get ;
  let disp := eglGetCurrentDisplay (tx_world s) in
  if disp =? 0 then throw (runtime_error ("cannot bind buffer to texture without EGL context" +:+ newline))
  else
    image ←
      (match OrdMap.find disp (egl_image_map (tx_buffer s)) with
       | Some image => mret image
       | None =>
           let buf := anw_buffer (native_window_buffer_handle (tx_buffer s)) in
           image ← zoom from_world (device (eglCreateImageKHR disp buf)) ;
           if image =? 0 then throw (runtime_error ("error binding buffer to texture" +:+ newline))
           else remember_image disp image ;; mret image
       end) ;
    zoom from_world (modify (glEGLImageTargetTexture2DOES image)).

(** The destructor, and then the one of the handle. *)
Definition AndroidBuffer_delete : M (texture W) unit :=
  b ← gets tx_buffer ;
  for_each (egl_image_map b) (fun it => zoom from_world (modify (eglDestroyImageKHR (fst it) (snd it)))) ;;
  zoom from_world (handle_delete (native_window_buffer_handle b)).

End Textures.

(** ** What the device and EGL keep *)

(** The array has the announced number of items. *)
Definition handle_ok (h : native_handle) : Prop :=
  0 <= numFds h /\ 0 <= numInts h /\ Z.of_nat (length (nh_data h)) = numFds h + numInts h.

Class GrallocLaws (W : Type) `{Gralloc W} : Type := {
  allocated : W -> gset Z;
  alloc_law width height format usage w :
    let '((ret, handle, stride), w') := gralloc_alloc width height format usage w in
    if ret =? 0 then
      exists x, handle = Some x /\ stride <> 0 /\ handle_ok (bh_native x) /\
        (bh_address x ∉ allocated w) /\ allocated w' = {[ bh_address x ]} ∪ allocated w
    else allocated w' = allocated w;
  free_law x w : allocated (gralloc_free x w) = allocated w ∖ {[ x ]};
}.

(** Images and allocations do not touch each other. *)
Class GrallocImageLaws (W : Type) `{EglImageLaws W ANativeWindowBuffer} `{GrallocLaws W} : Prop := {
  create_image_allocated disp buf w : allocated (snd (eglCreateImageKHR disp buf w)) = allocated w;
  destroy_image_allocated disp image w : allocated (eglDestroyImageKHR disp image w) = allocated w;
  target_allocated image w : allocated (glEGLImageTargetTexture2DOES image w) = allocated w;
  alloc_images_law width height format usage w :
    live_images (snd (gralloc_alloc width height format usage w)) = live_images w;
  free_images_law x w : live_images (gralloc_free x w) = live_images w;
}.

(** ** Packing a handle *)

Lemma pack_items_spec h offset n :
  0 <= offset -> (Z.to_nat offset + n <= length (nh_data h))%nat ->
  pack_items h offset n = Some (take n (drop (Z.to_nat offset) (nh_data h))).
Proof.
  revert offset. induction n as [|n IH]; intros offset Ho Hlen; [done|]. cbn [pack_items].
  unfold native_data. destruct (Z.ltb_spec offset 0) as [|_]; [lia|].
  destruct (lookup_lt_is_Some_2 (nh_data h) (Z.to_nat offset) ltac:(lia)) as [x Hx]. rewrite Hx. simpl.
  rewrite IH by lia. replace (Z.to_nat (offset + 1)) with (S (Z.to_nat offset)) by lia.
  by rewrite (drop_S _ _ _ Hx).
Qed.

(** The package of a buffer whose handle is well-formed. *)
Definition package_of (buf : ANativeWindowBuffer) : BufferIPCPackage :=
  let h := bh_native (anw_handle buf) in
  mkBufferIPCPackage (drop (Z.to_nat (numFds h)) (nh_data h)) (take (Z.to_nat (numFds h)) (nh_data h)) (anw_stride buf).

Lemma pack_ipc_package_spec {S} buf (s : S) :
  handle_ok (bh_native (anw_handle buf)) -> pack_ipc_package buf s = Ret (package_of buf) s.
Proof.
  intros (Hf & Hi & Hlen). unfold pack_ipc_package, resize, deref, mbind, M_bind. set (h := bh_native _) in *.
  destruct (Z.ltb_spec (numInts h) 0) as [|_]; [lia|]. destruct (Z.ltb_spec (numFds h) 0) as [|_]; [lia|].
  unfold mret, M_ret. rewrite !pack_items_spec by lia.
  unfold package_of. fold h. rewrite drop_0, (take_ge (drop _ _)); [done|]. rewrite length_drop. lia.
Qed.

Section AllocationLaws.
Context {W : Type} `{GrallocLaws W}.

Lemma wrap_i32 {Tag} (d : IntWrapper Tag) : dim_ok d -> wrap (i32 (as_uint32_t d)) = d.
Proof.
  destruct d as [v]. unfold dim_ok, wrap. simpl. intros Hv. f_equal. unfold u32, i32.
  rewrite Zminus_mod_idemp_l. replace (v + 2147483648 - 2147483648) with v by lia. by apply Z.mod_small.
Qed.

(** The handle of a buffer: of the requested size and format, allocated for the
    hardware. *)
Record handle_made (size : Size) (pf : PixelFormat) (usage : BufferUsage) (h : AndroidBufferHandleDefault) : Prop := {
  hm_size : size_ok size -> handle_size h = size;
  hm_format : handle_pixel_format h = pf;
  hm_code : anw_format (anw_buffer h) = convert_to_android_pixel_code pf;
  hm_usage : anw_usage (anw_buffer h) = convert_to_android_usage usage;
  hm_native : handle_ok (bh_native (anw_handle (anw_buffer h)));
  hm_package : ipc_package h = package_of (anw_buffer h);
}.

Definition handle_address (h : AndroidBufferHandleDefault) : Z := bh_address (anw_handle (anw_buffer h)).

(** An allocation adds one buffer to the device's, or none. *)
Lemma adaptor_alloc_spec size pf usage w :
  exists r w', adaptor_alloc_buffer size pf usage w = Ret r w' /\
    w' = snd (gralloc_alloc (i32 (as_uint32_t (size_width size))) (i32 (as_uint32_t (size_height size)))
                (convert_to_android_pixel_code pf) (convert_to_android_usage usage) w) /\
    match r with
    | Some h => handle_made size pf usage h /\
        (handle_address h ∉ allocated w) /\ allocated w' = {[ handle_address h ]} ∪ allocated w
    | None => allocated w' = allocated w
    end.
Proof.
  unfold adaptor_alloc_buffer, device, mbind, M_bind.
  set (width := i32 _). set (height := i32 _). set (code := convert_to_android_pixel_code pf).
  set (flag := convert_to_android_usage usage). pose proof (alloc_law width height code flag w) as Hl.
  destruct (gralloc_alloc width height code flag w) as [[[ret handle] stride] w'].
  destruct (ret =? 0); simpl.
  - destruct Hl as (x & -> & Hs & Hok & Hfresh & Hall). rewrite (proj2 (Z.eqb_neq stride 0) Hs). simpl.
    unfold AndroidBufferHandleDefault_new, mbind, M_bind. rewrite pack_ipc_package_spec by done.
    eexists _, w'. split; [reflexivity|]. split; [done|]. split; [|done]. split; try done.
    intros [Hw Hh]. unfold handle_size. simpl. subst width height. rewrite !wrap_i32 by done. by destruct size.
  - exists None, w'. by destruct handle.
Qed.

Lemma BufferBasic_new_spec (a : android W) :
  exists id next, generate_next_buffer_id (next_buffer_id a) = Some (id, next) /\
    BufferBasic_new a = Ret id (mkAndroid next (android_world a)).
Proof. unfold BufferBasic_new. rewrite generate_next_spec. eexists _, _. split; reflexivity. Qed.

(** What the constructor of [AndroidBuffer] does: it takes one identifier, and
    either has allocated one buffer or throws and has allocated none. *)
Lemma AndroidBuffer_new_spec size pf (a : android W) :
  exists id next, generate_next_buffer_id (next_buffer_id a) = Some (id, next) /\
    ((exists h w', AndroidBuffer_new true size pf a = Ret (mkAndroidBuffer id [] h) (mkAndroid next w') /\
        handle_made size pf use_hardware h /\ (handle_address h ∉ allocated (android_world a)) /\
        allocated w' = {[ handle_address h ]} ∪ allocated (android_world a)) \/
     (exists w', AndroidBuffer_new true size pf a =
          Throw (runtime_error "Graphics buffer allocation failed") (mkAndroid next w') /\
        allocated w' = allocated (android_world a))).
Proof.
  destruct (BufferBasic_new_spec a) as (id & next & Hg & Hn). exists id, next. split; [done|].
  unfold AndroidBuffer_new, mbind, M_bind. rewrite Hn. cbn [negb]. unfold zoom. cbn [view to_world android_world].
  destruct (adaptor_alloc_spec size pf use_hardware (android_world a)) as (r & w' & -> & _ & Hr). cbn [over to_world].
  destruct r as [h|]; [left; exists h, w'; tauto|right; by exists w'].
Qed.

Context (buffer_initializer : Buffer -> W -> W).

Lemma android_alloc_id p (a : android W) :
  match @alloc_buffer _ (android_allocator buffer_initializer) p a with
  | Ret b a' => generate_next_buffer_id (next_buffer_id a) = Some (buffer_id b, next_buffer_id a')
  | Throw _ _ => True
  | _ => False
  end.
Proof.
  simpl. unfold android_alloc_buffer, mbind, M_bind.
  destruct (AndroidBuffer_new_spec (bp_size p) (bp_format p) a) as (id & next & Hg & [(h & w' & -> & _)|(w' & -> & _)]);
    done.
Qed.

(** The allocator meets what the swapper asks of one. *)
#[local] Instance android_allocator_laws : @AllocatorLaws _ (android_allocator buffer_initializer).
Proof.
  apply (@counted_allocator_laws (android W) (android_allocator buffer_initializer) next_buffer_id android_alloc_id).
Qed.

End AllocationLaws.

(** ** The life of a buffer *)

Section Lifetime.
Context {W : Type} `{GrallocImageLaws W}.

Definition own_images (b : AndroidBuffer) : gset (Z * Z) := list_to_set (egl_image_map b).

Definition own_address (b : AndroidBuffer) : Z := handle_address (native_window_buffer_handle b).

(** Runs of a buffer: it is bound, in whatever context is current, and other
    code makes and destroys images and buffers of its own, [rest] and [held]. *)
Inductive buffer_runs (b : AndroidBuffer) (w : W) : gset (Z * Z) -> gset Z -> texture W -> Prop :=
| runs_new : buffer_runs b w (live_images w) (allocated w ∖ {[ own_address b ]}) (mkTexture b w)
| runs_bind rest held s s' :
    buffer_runs b w rest held s ->
    (bind_to_texture s = Ret tt s' \/ exists e, bind_to_texture s = Throw e s') ->
    buffer_runs b w rest held s'
| runs_other rest held s rest' held' w' :
    buffer_runs b w rest held s ->
    live_images w' = own_images (tx_buffer s) ∪ rest' -> own_images (tx_buffer s) ## rest' ->
    allocated w' = {[ own_address (tx_buffer s) ]} ∪ held' -> own_address (tx_buffer s) ∉ held' ->
    buffer_runs b w rest' held' (mkTexture (tx_buffer s) w').

(** What is there is the buffer's and the others'; one image per display. *)
Record buffer_inv (rest : gset (Z * Z)) (held : gset Z) (s : texture W) : Prop := {
  bi_sorted : OrdMap.sorted (egl_image_map (tx_buffer s));
  bi_images : live_images (tx_world s) = own_images (tx_buffer s) ∪ rest;
  bi_apart : own_images (tx_buffer s) ## rest;
  bi_allocated : allocated (tx_world s) = {[ own_address (tx_buffer s) ]} ∪ held;
  bi_held : own_address (tx_buffer s) ∉ held;
}.

Lemma own_images_insert disp image m :
  OrdMap.find disp m = None ->
  (list_to_set (OrdMap.insert disp image m) : gset (Z * Z)) = {[ (disp, image) ]} ∪ list_to_set m.
Proof.
  induction m as [|[k v] m IH]; simpl; intros Hf; [done|].
  destruct (Z.eqb_spec disp k) as [|Hne]; [done|]. destruct (Z.ltb_spec disp k); simpl; [done|].
  rewrite IH by done. set_solver.
Qed.

Lemma bind_keeps_inv rest held s :
  buffer_inv rest held s ->
  match bind_to_texture s with Ret _ s' | Throw _ s' => buffer_inv rest held s' | _ => False end.
Proof.
  destruct s as [b w]. intros [Hs Hi Ha Hl Hh]. simpl in *.
  unfold bind_to_texture, get, mbind, M_bind, mret, M_ret. cbn [tx_world tx_buffer].
  destruct (eglGetCurrentDisplay w =? 0); [by split|]. set (disp := eglGetCurrentDisplay w).
  destruct (OrdMap.find disp (egl_image_map b)) as [image|] eqn:Hf.
  - unfold zoom, modify. simpl. pose proof (target_law image w) as T2. pose proof (target_allocated image w) as T1. split; simpl; rewrite ?T1, ?T2; done.
  - unfold zoom at 1, device. simpl. set (buf := anw_buffer (native_window_buffer_handle b)).
    pose proof (create_image_law disp buf w) as C2. pose proof (create_image_allocated disp buf w) as C1.
    destruct (eglCreateImageKHR disp buf w) as [image w1]. simpl in C1. simpl. destruct (image =? 0).
    + split; simpl; rewrite ?C1, ?C2; done.
    + destruct C2 as [Hfresh C2]. unfold zoom, modify. simpl. pose proof (target_law image w1) as T2. pose proof (target_allocated image w1) as T1. split; simpl.
      * by apply insert_sorted.
      * unfold own_images. simpl. rewrite T2, C2, Hi, own_images_insert by done. unfold own_images. set_solver.
      * unfold own_images. simpl. rewrite own_images_insert by done. unfold own_images in *. set_solver.
      * by rewrite T1, C1.
      * done.
Qed.

Lemma runs_inv b w rest held s :
  egl_image_map b = [] -> own_address b ∈ allocated w -> buffer_runs b w rest held s -> buffer_inv rest held s.
Proof.
  intros Hm Ha Hruns. induction Hruns as [|rest held s s' _ IH Hb|rest held s rest' held' w' _ IH E1 E2 E3 E4].
  - split; simpl; unfold own_images; rewrite ?Hm; simpl; [constructor|set_solver..| |set_solver].
    apply set_eq. intros x. destruct (decide (x = own_address b)); set_solver.
  - pose proof (bind_keeps_inv _ _ _ IH) as Hk. destruct Hb as [Hb|[e Hb]]; by rewrite Hb in Hk.
  - destruct IH. by split.
Qed.

Lemma destroy_images l b (w : W) :
  exists w', for_each l (fun it => zoom from_world (modify (eglDestroyImageKHR (fst it) (snd it)))) (mkTexture b w) =
      Ret tt (mkTexture b w') /\
    live_images w' = live_images w ∖ list_to_set l /\ allocated w' = allocated w.
Proof.
  revert w. induction l as [|[d i] l IH]; intros w; simpl.
  - exists w. split; [done|]. split; [set_solver|done].
  - unfold mbind at 1, M_bind. unfold zoom at 1, modify at 1. simpl.
    pose proof (destroy_image_law d i w) as D2. pose proof (destroy_image_allocated d i w) as D1. destruct (IH (eglDestroyImageKHR d i w)) as (w' & -> & L & A).
    exists w'. split; [done|]. rewrite L, A, D1, D2. split; [set_solver|done].
Qed.

(** C37: an Android buffer gives everything back.  Its handle has the requested
    size and format.  However often it is bound to a texture, in whatever
    contexts and with whatever failures in between, it has at most one image per
    display, and its destructor destroys exactly its images and frees its
    allocation, and leaves what others have made. *)
Theorem android_buffer_lifetime size pf (a a1 : android W) b rest held s :
  AndroidBuffer_new true size pf a = Ret b a1 -> buffer_runs b (android_world a1) rest held s ->
  handle_made size pf use_hardware (native_window_buffer_handle b) /\
  NoDup (OrdMap.keys (egl_image_map (tx_buffer s))) /\
  exists s', AndroidBuffer_delete s = Ret tt s' /\ live_images (tx_world s') = rest /\ allocated (tx_world s') = held.
Proof.
  intros Hnew Hruns.
  destruct (AndroidBuffer_new_spec size pf a) as (id & next & _ & [(h & w' & E & Hh & Hf & Hall)|(w' & E & _)]);
    rewrite E in Hnew; [|done]. injection Hnew as <- <-. split; [done|]. simpl in Hruns.
  apply runs_inv in Hruns as [Hs Hi Ha Hl Hheld]; [|done|unfold own_address; simpl; rewrite Hall; set_solver].
  split; [by apply sorted_NoDup|]. destruct s as [b w]. simpl in *.
  destruct (destroy_images (egl_image_map b) b w) as (w2 & Hd & L & A).
  unfold AndroidBuffer_delete, mbind at 1, M_bind, gets. simpl. unfold mbind, M_bind. rewrite Hd.
  unfold zoom, handle_delete, modify. simpl. eexists. split; [reflexivity|]. simpl.
  rewrite free_images_law, free_law, L, A, Hi, Hl. fold (own_images b). fold (handle_address (native_window_buffer_handle b)).
  fold (own_address b). split; set_solver.
Qed.

End Lifetime.

(** ** A concrete device

    Handles have one descriptor and two integers; a width of zero cannot be
    allocated. *)

Record demo_gralloc : Set := mkDemoGralloc { dg_allocated : gset Z; dg_images : gset (Z * Z); dg_display : Z }.

Definition demo_handle (w : demo_gralloc) : buffer_handle :=
  mkHandle (above (dg_allocated w)) (mkNative 12 1 2 [40; 7; 8]).

Definition demo_image (w : demo_gralloc) : Z := above (set_map snd (dg_images w)).

#[export] Instance demo_gralloc_device : Gralloc demo_gralloc := {
  hw_get_gralloc_module w := (0, w);
  gralloc_open w := (0, w);
  gralloc_alloc width _ _ _ w :=
    if width =? 0 then ((-22, None, 0), w)
    else ((0, Some (demo_handle w), 4 * width),
          mkDemoGralloc ({[ bh_address (demo_handle w) ]} ∪ dg_allocated w) (dg_images w) (dg_display w));
  gralloc_free x w := mkDemoGralloc (dg_allocated w ∖ {[ x ]}) (dg_images w) (dg_display w);
}.

#[export, refine] Instance demo_gralloc_laws : GrallocLaws demo_gralloc := { allocated := dg_allocated }.
Proof.
  - intros width height format usage w. simpl. destruct (Z.eqb_spec width 0) as [|Hw]; simpl; [done|].
    eexists. split; [reflexivity|]. split; [lia|]. split; [done|]. split; [apply above_fresh|done].
  - done.
Defined.

#[export] Instance demo_egl_images : EglImages demo_gralloc ANativeWindowBuffer := {
  eglGetCurrentDisplay := dg_display;
  eglCreateImageKHR disp _ w :=
    (demo_image w, mkDemoGralloc (dg_allocated w) ({[ (disp, demo_image w) ]} ∪ dg_images w) (dg_display w));
  eglDestroyImageKHR disp image w := mkDemoGralloc (dg_allocated w) (dg_images w ∖ {[ (disp, image) ]}) (dg_display w);
  glEGLImageTargetTexture2DOES _ w := w;
}.

#[export, refine] Instance demo_egl_image_laws : EglImageLaws demo_gralloc ANativeWindowBuffer := {
  live_images := dg_images;
}.
Proof.
  - intros disp buf w. simpl. destruct (above_fresh (set_map snd (dg_images w))) as [Hf Hp].
    fold (demo_image w) in Hf, Hp. destruct (Z.eqb_spec (demo_image w) 0); [lia|]. split; [|done].
    intros Hin. apply Hf, elem_of_map. by exists (disp, demo_image w).
  - done.
  - done.
Defined.

#[export] Instance demo_gralloc_image_laws : GrallocImageLaws demo_gralloc.
Proof. split; try done. intros width height format usage w. simpl. by destruct (width =? 0). Qed.

Definition demo_android : android demo_gralloc := mkAndroid 0 (mkDemoGralloc {[ 3 ]} {[ (9, 1) ]} 9).

Definition demo_android_size : Size := mkSize (wrap 64) (wrap 32).

Definition demo_ab : AndroidBuffer :=
  mkAndroidBuffer (mkBufferID 1) [] (mkHandleDefault
    (mkAnw 64 32 256 (mkHandle 4 (mkNative 12 1 2 [40; 7; 8])) 1 768) abgr_8888 use_hardware
    (mkBufferIPCPackage [7; 8] [40] 256)).

Definition demo_made : android demo_gralloc := mkAndroid 2 (mkDemoGralloc {[ 4; 3 ]} {[ (9, 1) ]} 9).

(** Bound twice in the same context. *)
Definition demo_texture : texture demo_gralloc :=
  mkTexture (mkAndroidBuffer (ab_id demo_ab) [(9, 2)] (native_window_buffer_handle demo_ab))
    (mkDemoGralloc {[ 4; 3 ]} {[ (9, 2); (9, 1) ]} 9).

Lemma android_buffer_lifetime_witness :
  handle_made demo_android_size abgr_8888 use_hardware (native_window_buffer_handle demo_ab) /\
  NoDup (OrdMap.keys (egl_image_map (tx_buffer demo_texture))) /\
  exists s', AndroidBuffer_delete demo_texture = Ret tt s' /\
    live_images (tx_world s') = {[ (9, 1) ]} /\ allocated (tx_world s') = {[ 4; 3 ]} ∖ {[ 4 ]}.
Proof.
  apply (android_buffer_lifetime demo_android_size abgr_8888 demo_android demo_made demo_ab {[ (9, 1) ]}
    ({[ 4; 3 ]} ∖ {[ 4 ]}) demo_texture); [vm_compute; reflexivity|].
  apply (runs_bind _ _ _ _ demo_texture); [|left; vm_compute; reflexivity].
  apply (runs_bind _ _ _ _ (mkTexture demo_ab (android_world demo_made))); [|left; vm_compute; reflexivity].
  exact (runs_new demo_ab (android_world demo_made)).
Defined.
