(* ===== verification/PageFlip.v ===== *)
(** * Page flips

    [graphics::gbm::KMSPageFlipper]
    ([src/server/graphics/gbm/kms_page_flipper.cpp]).

    Several threads wait for the flips of their own crtc, and one of them at a
    time, the worker, runs the event loop for all.  The two critical sections
    of [wait_for_flip] and [schedule_flip] are functions on the state the mutex
    guards; a thread is between them in one of the phases below, and [step]
    interleaves the threads. *)

From S2P Require Import Prelude.

(** ** The state the mutex guards *)

Record KMSPageFlipper : Set := mkFlipper {
  pending_page_flips : gset Z;
  worker_tid : option nat;
}.

Definition KMSPageFlipper_new : KMSPageFlipper := mkFlipper ∅ None.

Definition page_flip_is_done (crtc_id : Z) (f : KMSPageFlipper) : bool :=
  bool_decide (crtc_id ∉ pending_page_flips f).

(** [page_flip_handler]. *)
Definition page_flip_handler (crtc_id : Z) (f : KMSPageFlipper) : KMSPageFlipper :=
  mkFlipper (pending_page_flips f ∖ {[ crtc_id ]}) (worker_tid f).

(** [schedule_flip]; [ret] is what [drmModePageFlip] returns. *)
Definition schedule_flip (crtc_id ret : Z) : M KMSPageFlipper bool :=
  f ← get ;
  if decide (crtc_id ∈ pending_page_flips f)
  then throw (logic_error "Page flip for crtc_id is already scheduled")
  else
    modify (fun f => mkFlipper ({[ crtc_id ]} ∪ pending_page_flips f) (worker_tid f)) ;;
    (if ret =? 0 then mret tt else modify (page_flip_handler crtc_id)) ;;
    mret (ret =? 0).

(** ** The threads *)

(** Where a thread is: about to take the mutex, asleep on [pf_cv], the worker
    in [select], past its critical section and about to notify (its own flip
    has arrived, or not), and the two ends of the call. *)
Inductive phase : Set :=
| entering
| sleeping
| selecting
| notifying (done : bool)
| finished
| failed.

(** The first critical section, up to [pf_cv.wait] or the end of the block:
    the phase the thread is in afterwards. *)
Definition wait_for_flip_begin (tid : nat) (crtc_id : Z) (f : KMSPageFlipper) : phase * KMSPageFlipper :=
  match worker_tid f with
  | Some _ =>
      if negb (page_flip_is_done crtc_id f) then (sleeping, f) else (finished, f)
  | None =>
      if page_flip_is_done crtc_id f then (finished, f)
      else (selecting, mkFlipper (pending_page_flips f) (Some tid))
  end.

(** The second one, after [select] has returned: [ret > 0] with the events
    [drmHandleEvent] finds, a signal ([EINTR] or a timeout), or an error. *)
Inductive select_result : Set :=
| select_events (crtc_ids : list Z)
| select_interrupted
| select_error (errno : Z).

Definition wait_for_flip_turn (crtc_id : Z) (ret : select_result) (f : KMSPageFlipper) : phase * KMSPageFlipper :=
  match ret with
  | select_error _ => (failed, f)
  | _ =>
      let f1 := match ret with
                | select_events l => foldl (fun f c => page_flip_handler c f) f l
                | _ => f
                end in
      if page_flip_is_done crtc_id f1
      then (notifying true, mkFlipper (pending_page_flips f1) None)
      else (notifying false, f1)
  end.

Record thread : Set := mkThread { th_crtc : Z; th_phase : phase }.

Record system : Set := mkSystem {
  sy_flipper : KMSPageFlipper;
  sy_threads : gmap nat thread;
}.

Definition phase_of (t : nat) (s : system) : option phase := th_phase <$> sy_threads s !! t.

Definition set_phase (t : nat) (c : Z) (p : phase * KMSPageFlipper) (s : system) : system :=
  mkSystem (snd p) (<[t := mkThread c (fst p)]> (sy_threads s)).

(** [notify_all]: every sleeping thread goes for the mutex again. *)
Definition wake (x : thread) : thread :=
  match th_phase x with sleeping => mkThread (th_crtc x) entering | _ => x end.

Definition notify_all (s : system) : system := mkSystem (sy_flipper s) (wake <$> sy_threads s).

Definition idle (o : option thread) : Prop :=
  match o with
  | None => True
  | Some x => th_phase x = finished \/ th_phase x = failed
  end.

(** One step; [errors] tells whether [select] may fail. *)
Inductive step (errors : bool) : system -> system -> Prop :=
| step_call t c s :
    idle (sy_threads s !! t) ->
    step errors s (mkSystem (sy_flipper s) (<[t := mkThread c entering]> (sy_threads s)))
| step_begin t c s :
    sy_threads s !! t = Some (mkThread c entering) ->
    step errors s (set_phase t c (wait_for_flip_begin t c (sy_flipper s)) s)
| step_spurious t c s :
    sy_threads s !! t = Some (mkThread c sleeping) ->
    step errors s (set_phase t c (entering, sy_flipper s) s)
| step_select t c ret s :
    sy_threads s !! t = Some (mkThread c selecting) ->
    (match ret with select_error _ => errors = true | _ => True end) ->
    step errors s (set_phase t c (wait_for_flip_turn c ret (sy_flipper s)) s)
| step_notify t c d s :
    sy_threads s !! t = Some (mkThread c (notifying d)) ->
    step errors s (set_phase t c (if d then finished else selecting, sy_flipper s) (notify_all s))
| step_schedule c r b f' s :
    schedule_flip c r (sy_flipper s) = Ret b f' ->
    step errors s (mkSystem f' (sy_threads s)).

Inductive steps (errors : bool) : system -> system -> Prop :=
| steps_refl s : steps errors s s
| steps_cons s1 s2 s3 : step errors s1 s2 -> steps errors s2 s3 -> steps errors s1 s3.

Definition system_new : system := mkSystem KMSPageFlipper_new ∅.

Lemma steps_trans errors s1 s2 s3 : steps errors s1 s2 -> steps errors s2 s3 -> steps errors s1 s3.
Proof. induction 1; eauto using steps. Qed.

(** ** The invariant *)

(** The thread that runs the event loop. *)
Definition is_worker (p : phase) : Prop := p = selecting \/ p = notifying false.

(** A thread that will call [notify_all]. *)
Definition will_notify (p : phase) : Prop := p = selecting \/ exists d, p = notifying d.

Record flipper_ok (s : system) : Prop := {
  fo_worker : forall t x, sy_threads s !! t = Some x -> is_worker (th_phase x) -> worker_tid (sy_flipper s) = Some t;
  fo_alive : forall t, worker_tid (sy_flipper s) = Some t ->
    exists x, sy_threads s !! t = Some x /\ is_worker (th_phase x);
  fo_waiters : forall t c, sy_threads s !! t = Some (mkThread c sleeping) ->
    exists t' x, sy_threads s !! t' = Some x /\ will_notify (th_phase x);
}.

Lemma lookup_wake (m : gmap nat thread) t x :
  (wake <$> m) !! t = Some x ->
  exists y, m !! t = Some y /\ th_crtc x = th_crtc y /\ th_phase x <> sleeping /\
    (th_phase x = th_phase y \/ th_phase y = sleeping /\ th_phase x = entering).
Proof.
  rewrite lookup_fmap. destruct (m !! t) as [y|]; [|done]. simpl. intros [= <-]. exists y.
  destruct y as [c []]; simpl; naive_solver.
Qed.

Lemma handler_fold_pending l f :
  pending_page_flips (foldl (fun f c => page_flip_handler c f) f l) =
    pending_page_flips f ∖ list_to_set l /\
  worker_tid (foldl (fun f c => page_flip_handler c f) f l) = worker_tid f.
Proof.
  revert f. induction l as [|c l IH]; intros f; simpl; [split; [set_solver|done]|].
  destruct (IH (page_flip_handler c f)) as [-> ->]. simpl. split; [set_solver|done].
Qed.

(** Replacing the phase of one thread, with the worker it leaves. *)
Lemma flipper_ok_set t c p f s (old : option thread) :
  flipper_ok s -> sy_threads s !! t = old ->
  (is_worker p -> worker_tid f = Some t) ->
  (forall t', t' <> t -> worker_tid f = Some t' <-> worker_tid (sy_flipper s) = Some t') ->
  (worker_tid f = Some t -> is_worker p) ->
  ((exists x, old = Some x /\ will_notify (th_phase x)) -> will_notify p) ->
  (p = sleeping -> exists t' x, t' <> t /\ sy_threads s !! t' = Some x /\ will_notify (th_phase x)) ->
  flipper_ok (mkSystem f (<[t := mkThread c p]> (sy_threads s))).
Proof.
  intros [Hw Ha Hs] Hold Hp Hothers Hback Hnotify Hsleep. split; simpl.
  - intros t' x Hx Hwx. destruct (decide (t' = t)) as [->|Hne].
    + rewrite lookup_insert_eq in Hx. simplify_eq. auto.
    + rewrite lookup_insert_ne in Hx by congruence. apply Hothers; [done|]. by eapply Hw.
  - intros t' Ht'. destruct (decide (t' = t)) as [->|Hne].
    + exists (mkThread c p). rewrite lookup_insert_eq. auto.
    + rewrite lookup_insert_ne by congruence. apply Ha. by apply Hothers.
  - intros t' c' Hx. assert (exists t2 x, sy_threads s !! t2 = Some x /\ will_notify (th_phase x) /\
      (t2 = t -> will_notify p)) as (t2 & x & Hx2 & Hn & Hp2).
    { destruct (decide (t' = t)) as [->|Hne].
      - rewrite lookup_insert_eq in Hx. simplify_eq.
        destruct (Hsleep eq_refl) as (t2 & x & Hne & Hx2 & Hn). exists t2, x. done.
      - rewrite lookup_insert_ne in Hx by congruence. destruct (Hs t' c' Hx) as (t2 & x & Hx2 & Hn).
        exists t2, x. split; [done|]. split; [done|]. intros ->. apply Hnotify. exists x.
        split; [congruence|done]. }
    destruct (decide (t2 = t)) as [->|Hne].
    + exists t, (mkThread c p). rewrite lookup_insert_eq. auto.
    + exists t2, x. rewrite lookup_insert_ne by congruence. auto.
Qed.

Lemma step_begin_ok t c s :
  flipper_ok s -> sy_threads s !! t = Some (mkThread c entering) ->
  flipper_ok (set_phase t c (wait_for_flip_begin t c (sy_flipper s)) s).
Proof.
  intros Hok Ht. pose proof Hok as [Hw Ha Hs].
  assert (worker_tid (sy_flipper s) <> Some t) as Hnt.
  { intros E. destruct (Ha t E) as (x & Hx & Hwx). rewrite Ht in Hx. simplify_eq. by destruct Hwx. }
  assert (~ (exists x, Some (mkThread c entering) = Some x /\ will_notify (th_phase x))) as Hno.
  { intros (x & [= <-] & [|[d ?]]); done. }
  unfold set_phase, wait_for_flip_begin.
  destruct (worker_tid (sy_flipper s)) as [w|] eqn:Ew.
  - destruct (page_flip_is_done c (sy_flipper s)); simpl;
      apply (flipper_ok_set t c _ _ s _ Hok Ht); rewrite ?Ew; try done.
    + by intros [].
    + by intros [].
    + intros _. destruct (Ha w eq_refl) as (x & Hx & Hwx). exists w, x. split; [congruence|]. split; [done|].
      destruct Hwx; [by left|right; eauto].
  - destruct (page_flip_is_done c (sy_flipper s)); simpl;
      apply (flipper_ok_set t c _ _ s _ Hok Ht); simpl; rewrite ?Ew; try done.
    + by intros [].
    + intros t' Hne. split; congruence.
    + by left.
Qed.

Lemma step_select_ok t c ret s :
  flipper_ok s -> sy_threads s !! t = Some (mkThread c selecting) ->
  match ret with select_error _ => False | _ => True end ->
  flipper_ok (set_phase t c (wait_for_flip_turn c ret (sy_flipper s)) s).
Proof.
  intros Hok Ht Hne. pose proof (fo_worker _ Hok t _ Ht (or_introl eq_refl)) as Hwt.
  assert (forall f1, worker_tid f1 = Some t -> flipper_ok (set_phase t c
    (if page_flip_is_done c f1 then (notifying true, mkFlipper (pending_page_flips f1) None)
     else (notifying false, f1)) s)) as Hgo.
  { intros f1 Hf1. unfold set_phase. destruct (page_flip_is_done c f1); simpl;
      apply (flipper_ok_set t c _ _ s _ Hok Ht); simpl; rewrite ?Hf1, ?Hwt; try done.
    - by intros [|].
    - intros t' Hne'. split; congruence.
    - right; eauto.
    - by right.
    - right; eauto. }
  unfold wait_for_flip_turn. destruct ret as [l| |e]; [| |done].
  - apply Hgo. by rewrite (proj2 (handler_fold_pending l (sy_flipper s))).
  - by apply Hgo.
Qed.

Lemma notify_all_ok s : flipper_ok s -> flipper_ok (notify_all s).
Proof.
  intros [Hw Ha Hs]. split; simpl.
  - intros t x Hx Hwx. apply lookup_wake in Hx as (y & Hy & _ & _ & [E|[_ E]]).
    + eapply Hw; [exact Hy|]. by rewrite <- E.
    + rewrite E in Hwx. by destruct Hwx.
  - intros t Ht. destruct (Ha t Ht) as (x & Hx & Hwx). exists x. split; [|done].
    rewrite lookup_fmap, Hx. simpl. f_equal. unfold wake. by destruct Hwx as [-> | ->].
  - intros t c Hx. apply lookup_wake in Hx as (y & _ & _ & Hn & _). done.
Qed.

Lemma step_notify_ok t c d s :
  flipper_ok s -> sy_threads s !! t = Some (mkThread c (notifying d)) ->
  flipper_ok (set_phase t c (if d then finished else selecting, sy_flipper s) (notify_all s)).
Proof.
  intros Hok Ht. pose proof (notify_all_ok s Hok) as Hok'. unfold set_phase. simpl.
  assert (sy_threads (notify_all s) !! t = Some (mkThread c (notifying d))) as Ht'.
  { simpl. rewrite lookup_fmap, Ht. done. }
  assert (forall t' c', sy_threads (notify_all s) !! t' <> Some (mkThread c' sleeping)) as Hawake.
  { intros t' c' Hx. simpl in Hx. apply lookup_wake in Hx as (y & _ & _ & Hn & _). done. }
  split; simpl.
  - intros t' x Hx Hwx. destruct (decide (t' = t)) as [->|Hne].
    + rewrite lookup_insert_eq in Hx. simplify_eq. destruct d; [by destruct Hwx|].
      eapply (fo_worker s Hok); [exact Ht|by right].
    + rewrite lookup_insert_ne in Hx by congruence. by eapply (fo_worker _ Hok').
  - intros t' Hw. destruct (fo_alive _ Hok' t' Hw) as (x & Hx & Hwx).
    destruct (decide (t' = t)) as [->|Hne].
    + rewrite Ht' in Hx. simplify_eq. destruct Hwx as [|[= ->]]; [done|].
      exists (mkThread c selecting). rewrite lookup_insert_eq. split; [done|by left].
    + exists x. by rewrite lookup_insert_ne by congruence.
  - intros t' c' Hx. exfalso. destruct (decide (t' = t)) as [->|Hne].
    + rewrite lookup_insert_eq in Hx. destruct d; congruence.
    + rewrite lookup_insert_ne in Hx by congruence. by apply (Hawake t' c').
Qed.

Lemma schedule_worker c r b f f' : schedule_flip c r f = Ret b f' -> worker_tid f' = worker_tid f.
Proof.
  unfold schedule_flip, get, mbind, M_bind. case_decide; [done|]. unfold modify, mret, M_ret.
  destruct (r =? 0); intros; by simplify_eq.
Qed.

Lemma step_ok s s' : flipper_ok s -> step false s s' -> flipper_ok s'.
Proof.
  intros Hok Hst. destruct Hst as [t c s Hidle|t c s Ht|t c s Ht|t c ret s Ht Hret|t c d s Ht|c r b f' s Hsch].
  - apply (flipper_ok_set t c entering _ s _ Hok eq_refl); try done.
    + by intros [].
    + intros E. destruct (fo_alive _ Hok t E) as (x & Hx & Hwx). rewrite Hx in Hidle.
      destruct Hidle as [E'|E']; rewrite E' in Hwx; by destruct Hwx.
    + intros (x & Hx & Hn). rewrite Hx in Hidle.
      destruct Hidle as [E'|E']; rewrite E' in Hn; destruct Hn as [|[d ?]]; done.
  - by apply step_begin_ok.
  - unfold set_phase. simpl. apply (flipper_ok_set t c entering _ s _ Hok Ht); try done.
    + by intros [].
    + intros E. destruct (fo_alive _ Hok t E) as (x & Hx & Hwx). rewrite Ht in Hx. simplify_eq. by destruct Hwx.
    + intros (x & [= <-] & Hn). destruct Hn as [|[d ?]]; done.
  - apply step_select_ok; [done|done|]. by destruct ret.
  - by apply step_notify_ok.
  - destruct Hok as [Hw Ha Hs]. pose proof (schedule_worker _ _ _ _ _ Hsch) as Hwt.
    split; simpl; [|..]; rewrite ?Hwt; done.
Qed.

Lemma steps_ok s s' : flipper_ok s -> steps false s s' -> flipper_ok s'.
Proof. intros Hok Hst. induction Hst; [done|]. eauto using step_ok. Qed.

Lemma system_new_ok : flipper_ok system_new.
Proof. by split. Qed.

(** ** Theorems *)

(** The step in which a call ends, or from which it is bound to end, is taken
    when the flip has arrived. *)
Definition over (p : phase) : Prop := p = finished \/ p = notifying true.

Lemma turn_over c f1 :
  let q := if page_flip_is_done c f1
    then (notifying true, mkFlipper (pending_page_flips f1) None) else (notifying false, f1) in
  over (fst q) -> c ∉ pending_page_flips (snd q).
Proof.
  unfold page_flip_is_done. destruct (bool_decide (c ∉ pending_page_flips f1)) eqn:E; simpl.
  - by apply bool_decide_eq_true in E.
  - by intros [|].
Qed.

Lemma begin_over t c f :
  over (fst (wait_for_flip_begin t c f)) -> c ∉ pending_page_flips (snd (wait_for_flip_begin t c f)).
Proof.
  unfold wait_for_flip_begin, page_flip_is_done.
  destruct (worker_tid f), (bool_decide (c ∉ pending_page_flips f)) eqn:E; simpl; intros Hov;
    first [by destruct Hov|by apply bool_decide_eq_true in E].
Qed.

(** A call ends when its flip has arrived. *)
Lemma step_over s s' t c p p' :
  step false s s' -> sy_threads s !! t = Some (mkThread c p) -> ~ over p ->
  sy_threads s' !! t = Some (mkThread c p') -> over p' -> c ∉ pending_page_flips (sy_flipper s').
Proof.
  intros Hone Hp Hno Hp' Hov.
  destruct Hone as [u k s Hidle|u k s Hu|u k s Hu|u k ret s Hu Hret|u k d s Hu|k r b f' s Hsch];
    cbn [set_phase sy_threads sy_flipper notify_all snd fst] in *; [..|congruence];
    (destruct (decide (u = t)) as [->|Hne];
      [rewrite lookup_insert_eq in Hp'; simplify_eq|rewrite lookup_insert_ne in Hp' by congruence]);
    try (exfalso; congruence).
  - by destruct Hov.
  - by apply begin_over.
  - by destruct Hov.
  - unfold wait_for_flip_turn in *. destruct ret; [by apply turn_over|by apply turn_over|done].
  - destruct d; [by destruct Hno; right|by destruct Hov].
  - apply lookup_wake in Hp' as (y & Hy & _ & _ & Hph). rewrite Hp in Hy. simplify_eq. simpl in *.
    destruct Hph as [<-|[-> ->]]; [done|by destruct Hov].
Qed.

(** C27: threads that wait for page flips never wait for nothing: as long as
    [select] does not fail, at most one of them runs the event loop, and when
    one sleeps another one is in the event loop or about to wake it.  A call
    ends only when the flip it is for has arrived. *)
Theorem waiting_for_flips s s' t c p p' :
  steps false system_new s ->
  (forall t1 t2 x1 x2, sy_threads s !! t1 = Some x1 -> sy_threads s !! t2 = Some x2 ->
     is_worker (th_phase x1) -> is_worker (th_phase x2) -> t1 = t2) /\
  (sy_threads s !! t = Some (mkThread c sleeping) ->
   exists t' x, sy_threads s !! t' = Some x /\ will_notify (th_phase x)) /\
  (step false s s' -> sy_threads s !! t = Some (mkThread c p) -> ~ over p ->
   sy_threads s' !! t = Some (mkThread c p') -> over p' -> c ∉ pending_page_flips (sy_flipper s')).
Proof.
  intros Hst. pose proof (steps_ok _ _ system_new_ok Hst) as Hok. split; [|split].
  - intros t1 t2 x1 x2 H1 H2 W1 W2. pose proof (fo_worker _ Hok _ _ H1 W1) as E1.
    pose proof (fo_worker _ Hok _ _ H2 W2) as E2. congruence.
  - apply (fo_waiters _ Hok).
  - apply step_over.
Qed.

(** *** Calls that end *)

(** The steps that the threads in a call and the kernel take by themselves: no new call, nothing else scheduled, no
    error of [select], only events of flips that are pending, and no wake-up but those of [notify_all]. *)
Inductive progress : system -> system -> Prop :=
| progress_begin t c s :
    sy_threads s !! t = Some (mkThread c entering) ->
    progress s (set_phase t c (wait_for_flip_begin t c (sy_flipper s)) s)
| progress_events t c l s :
    sy_threads s !! t = Some (mkThread c selecting) -> Forall (fun e => e ∈ pending_page_flips (sy_flipper s)) l ->
    progress s (set_phase t c (wait_for_flip_turn c (select_events l) (sy_flipper s)) s)
| progress_notify t c d s :
    sy_threads s !! t = Some (mkThread c (notifying d)) ->
    progress s (set_phase t c (if d then finished else selecting, sy_flipper s) (notify_all s)).

Lemma flip_progress_step s s' : progress s s' -> step false s s'.
Proof. destruct 1; [by eapply step_begin|by eapply step_select|by eapply step_notify]. Qed.

(** A thread whose flip has arrived ends its call when it gets the mutex. *)
Lemma arrived_finishes s t c :
  sy_threads s !! t = Some (mkThread c entering) -> c ∉ pending_page_flips (sy_flipper s) ->
  exists s', rtc progress s s' /\ sy_threads s' !! t = Some (mkThread c finished).
Proof.
  intros Ht Hc. eexists. split; [by eapply rtc_once, progress_begin|].
  unfold set_phase. simpl. rewrite lookup_insert_eq. unfold wait_for_flip_begin, page_flip_is_done.
  rewrite bool_decide_eq_true_2 by done. by destruct (worker_tid (sy_flipper s)).
Qed.

(** The event of a flip, if it is pending. *)
Definition event_of (c : Z) (s : system) : list Z := if decide (c ∈ pending_page_flips (sy_flipper s)) then [c] else [].

Lemma event_of_pending c s : Forall (fun e => e ∈ pending_page_flips (sy_flipper s)) (event_of c s).
Proof. unfold event_of. case_decide; [by apply Forall_singleton|constructor]. Qed.

Lemma event_of_arrives c s :
  c ∉ pending_page_flips (foldl (fun f c => page_flip_handler c f) (sy_flipper s) (event_of c s)).
Proof. unfold event_of. case_decide; simpl; set_solver. Qed.

(** The worker that gets its event ends its call. *)
Lemma worker_finishes s t c :
  sy_threads s !! t = Some (mkThread c selecting) ->
  exists s', rtc progress s s' /\ sy_threads s' !! t = Some (mkThread c finished).
Proof.
  intros Ht. set (s1 := set_phase t c (wait_for_flip_turn c (select_events (event_of c s)) (sy_flipper s)) s).
  assert (sy_threads s1 !! t = Some (mkThread c (notifying true))) as H1.
  { unfold s1, set_phase. cbn [sy_threads]. rewrite lookup_insert_eq. unfold wait_for_flip_turn, page_flip_is_done.
    by rewrite bool_decide_eq_true_2 by apply event_of_arrives. }
  eexists. split.
  - eapply rtc_l; [apply progress_events; [exact Ht|apply event_of_pending]|].
    eapply rtc_once, (progress_notify t c true), H1.
  - simpl. by rewrite lookup_insert_eq.
Qed.

(** The event loop is told of the flip of another thread. *)
Lemma worker_handles s w cw t c p :
  sy_threads s !! w = Some (mkThread cw selecting) -> sy_threads s !! t = Some (mkThread c p) -> w <> t ->
  exists s' d, progress s s' /\ sy_threads s' !! t = Some (mkThread c p) /\
    sy_threads s' !! w = Some (mkThread cw (notifying d)) /\ c ∉ pending_page_flips (sy_flipper s').
Proof.
  intros Hw Ht Hne. set (q := wait_for_flip_turn cw (select_events (event_of c s)) (sy_flipper s)).
  assert (exists d, fst q = notifying d /\ c ∉ pending_page_flips (snd q)) as (d & Hd & Hc).
  { subst q. cbn [wait_for_flip_turn]. pose proof (event_of_arrives c s).
    destruct (page_flip_is_done cw _); simpl; eexists; (split; [reflexivity|done]). }
  exists (set_phase w cw q s), d. split; [apply progress_events; [done|apply event_of_pending]|]. unfold set_phase. simpl.
  rewrite lookup_insert_eq, lookup_insert_ne, Hd by congruence. done.
Qed.

Lemma notifier_wakes s w cw d t c p :
  sy_threads s !! w = Some (mkThread cw (notifying d)) -> sy_threads s !! t = Some (mkThread c p) ->
  w <> t -> p = sleeping \/ p = entering ->
  exists s', progress s s' /\ sy_threads s' !! t = Some (mkThread c entering) /\
    sy_threads s' !! w = Some (mkThread cw (if d then finished else selecting)).
Proof.
  intros Hw Ht Hne Hp. eexists. split; [by eapply progress_notify|]. simpl.
  rewrite lookup_insert_eq, lookup_insert_ne, lookup_fmap, Ht by congruence.
  split; [|done]. by destruct Hp as [-> | ->].
Qed.

(** A thread that goes for the mutex can end its call. *)
Lemma entering_finishes s t c :
  flipper_ok s -> sy_threads s !! t = Some (mkThread c entering) ->
  exists s', rtc progress s s' /\ sy_threads s' !! t = Some (mkThread c finished).
Proof.
  intros Hok Ht. destruct (decide (c ∈ pending_page_flips (sy_flipper s))) as [Hin|]; [|by apply arrived_finishes].
  destruct (worker_tid (sy_flipper s)) as [w|] eqn:Ew.
  - destruct (fo_alive _ Hok w Ew) as ([cw pw] & Hw & Hwp). simpl in Hwp.
    assert (w <> t) as Hne by (intros ->; rewrite Ht in Hw; simplify_eq; by destruct Hwp).
    assert (exists s1, rtc progress s s1 /\ sy_threads s1 !! t = Some (mkThread c entering) /\
      sy_threads s1 !! w = Some (mkThread cw selecting)) as (s1 & Hs1 & Ht1 & Hw1).
    { destruct Hwp as [-> | ->]; [by exists s|].
      destruct (notifier_wakes s w cw false t c entering Hw Ht Hne) as (s1 & ? & ? & ?); [by right|].
      exists s1. split; [by apply rtc_once|done]. }
    destruct (worker_handles s1 w cw t c entering Hw1 Ht1 Hne) as (s2 & d & Hs2 & Ht2 & _ & Hc).
    destruct (arrived_finishes s2 t c Ht2 Hc) as (s3 & Hs3 & Ht3).
    exists s3. split; [|done]. etrans; [exact Hs1|]. by eapply rtc_l.
  - set (s1 := set_phase t c (wait_for_flip_begin t c (sy_flipper s)) s).
    assert (sy_threads s1 !! t = Some (mkThread c selecting)) as Ht1.
    { unfold s1, set_phase. simpl. rewrite lookup_insert_eq. unfold wait_for_flip_begin, page_flip_is_done.
      rewrite Ew, bool_decide_eq_false_2 by (intros Hn; by apply Hn). done. }
    destruct (worker_finishes s1 t c Ht1) as (s2 & Hs2 & Ht2).
    exists s2. split; [|done]. eapply rtc_l; [by eapply progress_begin|done].
Qed.

(** C28: no call of [wait_for_flip] can get stuck: from every state the threads can reach while [select] does not fail,
    a call in progress can still end, by steps of the calls in progress and events of flips that are pending only, in
    which a sleeping thread is woken by [notify_all] and never spuriously. *)
Theorem every_wait_can_end s t c p :
  steps false system_new s -> sy_threads s !! t = Some (mkThread c p) -> p <> failed ->
  exists s', rtc progress s s' /\ sy_threads s' !! t = Some (mkThread c finished).
Proof.
  intros Hst Ht Hp. pose proof (steps_ok _ _ system_new_ok Hst) as Hok.
  destruct p as [| | |d| |]; [by apply entering_finishes| |by apply worker_finishes| |by exists s|done].
  - destruct (fo_waiters _ Hok t c Ht) as (w & [cw pw] & Hw & Hn). simpl in Hn.
    assert (w <> t) as Hne by (intros ->; rewrite Ht in Hw; simplify_eq; destruct Hn as [|[]]; done).
    assert (exists s1 d, rtc progress s s1 /\ flipper_ok s1 /\ sy_threads s1 !! t = Some (mkThread c sleeping) /\
      sy_threads s1 !! w = Some (mkThread cw (notifying d))) as (s1 & d & Hs1 & Hok1 & Ht1 & Hw1).
    { destruct Hn as [->|[d ->]]; [|by exists s, d].
      destruct (worker_handles s w cw t c sleeping Hw Ht Hne) as (s1 & d & Hs1 & ? & ? & _).
      exists s1, d. split; [by apply rtc_once|]. split; [by eapply step_ok, flip_progress_step|done]. }
    destruct (notifier_wakes s1 w cw d t c sleeping Hw1 Ht1 Hne) as (s2 & Hs2 & Ht2 & _); [by left|].
    destruct (entering_finishes s2 t c) as (s3 & Hs3 & Ht3); [by eapply step_ok, flip_progress_step|done|].
    exists s3. split; [|done]. etrans; [exact Hs1|]. by eapply rtc_l.
  - set (s1 := set_phase t c (if d then finished else selecting, sy_flipper s) (notify_all s)).
    assert (progress s s1) as Hs1 by by eapply progress_notify.
    assert (sy_threads s1 !! t = Some (mkThread c (if d then finished else selecting))) as Ht1.
    { unfold s1. simpl. by rewrite lookup_insert_eq. }
    destruct d; [exists s1; split; [by apply rtc_once|done]|].
    destruct (worker_finishes s1 t c Ht1) as (s2 & Hs2 & Ht2).
    exists s2. split; [by eapply rtc_l|done].
Qed.

(** The event loop is lost: a thread is registered as the worker, but none
    runs it. *)
Record lost (w : nat) (s : system) : Prop := {
  lo_worker : worker_tid (sy_flipper s) = Some w;
  lo_none : forall t x, sy_threads s !! t = Some x -> ~ is_worker (th_phase x);
}.

Lemma lost_step w s s' :
  lost w s -> step true s s' ->
  lost w s' /\ pending_page_flips (sy_flipper s) ⊆ pending_page_flips (sy_flipper s').
Proof.
  intros [Hw Hn] Hst.
  assert (forall f t c p, worker_tid f = Some w -> ~ is_worker p ->
    lost w (mkSystem f (<[t := mkThread c p]> (sy_threads s)))) as Hset.
  { intros f t c p Hf Hp. split; simpl; [done|]. intros t' x Hx. destruct (decide (t' = t)) as [->|Hne].
    - rewrite lookup_insert_eq in Hx. by simplify_eq.
    - rewrite lookup_insert_ne in Hx by congruence. by eapply Hn. }
  destruct Hst as [t c s Hidle|t c s Ht|t c s Ht|t c ret s Ht Hret|t c d s Ht|c r b f' s Hsch].
  - split; [|done]. apply Hset; [done|]. by intros [].
  - unfold set_phase, wait_for_flip_begin. rewrite Hw.
    destruct (page_flip_is_done c (sy_flipper s)); (split; [|done]); (apply Hset; [done|]); by intros [].
  - split; [|done]. apply Hset; [done|]. by intros [].
  - destruct (Hn t _ Ht). by left.
  - destruct d; [|destruct (Hn t _ Ht); by right]. split; [|done]. split; simpl; [done|].
    intros t' x Hx. destruct (decide (t' = t)) as [->|Hne].
    + rewrite lookup_insert_eq in Hx. simplify_eq. by intros [].
    + rewrite lookup_insert_ne in Hx by congruence. apply lookup_wake in Hx as (y & Hy & _ & _ & [E|[_ E]]).
      * rewrite E. by eapply Hn.
      * rewrite E. by intros [].
  - pose proof (schedule_worker _ _ _ _ _ Hsch) as Hwt. split.
    + split; simpl; [by rewrite Hwt|done].
    + unfold schedule_flip, get, mbind, M_bind in Hsch. case_decide; [done|].
      unfold modify, mret, M_ret in Hsch. destruct (r =? 0); simplify_eq; simpl; set_solver.
Qed.

(** The call of [t] for [c] has not ended. *)
Definition waits (t : nat) (c : Z) (s : system) : Prop :=
  forall p, sy_threads s !! t = Some (mkThread c p) -> ~ over p.

Lemma lost_waits w t c s s' :
  lost w s -> c ∈ pending_page_flips (sy_flipper s) -> waits t c s -> step true s s' -> waits t c s'.
Proof.
  intros [Hw Hn] Hc Hwait Hst p Hp Hov.
  destruct Hst as [u k s Hidle|u k s Hu|u k s Hu|u k ret s Hu Hret|u k d s Hu|k r b f' s Hsch];
    cbn [set_phase sy_threads sy_flipper notify_all snd fst] in *; [..|by apply (Hwait p)];
    (destruct (decide (u = t)) as [->|Hne];
      [rewrite lookup_insert_eq in Hp; simplify_eq|rewrite lookup_insert_ne in Hp by congruence]);
    try (by apply (Hwait p)).
  - by destruct Hov.
  - unfold wait_for_flip_begin, page_flip_is_done in Hov. rewrite Hw, bool_decide_eq_false_2 in Hov
      by (intros Hno; by apply Hno). by destruct Hov.
  - by destruct Hov.
  - destruct (Hn t _ Hu). by left.
  - destruct d; [|by destruct Hov]. apply (Hwait _ Hu). by right.
  - apply lookup_wake in Hp as (y & Hy & Hcy & _ & Hph). destruct y as [cy py]. simpl in *. subst cy.
    destruct Hph as [->|[-> ->]]; [by apply (Hwait py)|by destruct Hov].
Qed.

(** An error of [select] stops all page flips.  The worker throws without
    giving up the event loop: from then on nobody runs it, a flip that is
    pending is never marked as done, and a call that waits for one never ends,
    whatever happens. *)
Theorem failed_select_strands_waiters s w cw errno s1 s2 t c :
  steps false system_new s -> sy_threads s !! w = Some (mkThread cw selecting) ->
  s1 = set_phase w cw (wait_for_flip_turn cw (select_error errno) (sy_flipper s)) s ->
  c ∈ pending_page_flips (sy_flipper s1) -> waits t c s1 ->
  steps true s1 s2 ->
  worker_tid (sy_flipper s2) = Some w /\ c ∈ pending_page_flips (sy_flipper s2) /\ waits t c s2.
Proof.
  intros Hst Hw -> Hc Ht Hrun. pose proof (steps_ok _ _ system_new_ok Hst) as Hok.
  pose proof (fo_worker _ Hok w _ Hw (or_introl eq_refl)) as Hwt.
  assert (lost w (set_phase w cw (wait_for_flip_turn cw (select_error errno) (sy_flipper s)) s)) as Hlost.
  { split; simpl; [done|]. intros t' x Hx. destruct (decide (t' = w)) as [->|Hne].
    - rewrite lookup_insert_eq in Hx. simplify_eq. by intros [].
    - rewrite lookup_insert_ne in Hx by congruence. intros Hwx.
      apply Hne. pose proof (fo_worker _ Hok t' x Hx Hwx). congruence. }
  clear Hwt Hw Hst Hok. induction Hrun as [s0|s0 s1 s2 Hs _ IH]; [by destruct Hlost|].
  destruct (lost_step w _ _ Hlost Hs) as [Hlost' Hsub].
  apply IH; [by apply Hsub|by eapply (lost_waits w t c s0)|done].
Qed.

(** ** Concrete threads *)

(** Two threads wait for two flips; the first one is the worker. *)
Definition demo_flips : system :=
  mkSystem (mkFlipper {[ 10; 20 ]} (Some 1%nat))
    (<[2%nat := mkThread 20 sleeping]> {[ 1%nat := mkThread 10 selecting ]}).

Lemma demo_flips_reached : steps false system_new demo_flips.
Proof.
  eapply steps_cons; [eapply (step_schedule _ 20 0); reflexivity|].
  eapply steps_cons; [eapply (step_schedule _ 10 0); reflexivity|].
  eapply steps_cons; [eapply (step_call _ 1 10); exact Logic.I|].
  eapply steps_cons; [eapply (step_begin _ 1 10); reflexivity|].
  eapply steps_cons; [eapply (step_call _ 2 20); exact Logic.I|].
  eapply steps_cons; [eapply (step_begin _ 2 20); reflexivity|].
  replace demo_flips with (set_phase 2 20 (wait_for_flip_begin 2 20 (mkFlipper {[ 10; 20 ]} (Some 1%nat)))
    (mkSystem (mkFlipper {[ 10; 20 ]} (Some 1%nat))
      (<[2%nat := mkThread 20 entering]> {[ 1%nat := mkThread 10 selecting ]}))) by (vm_compute; reflexivity).
  vm_compute. apply steps_refl.
Qed.

Lemma waiting_for_flips_witness :
  (forall t1 t2 x1 x2, sy_threads demo_flips !! t1 = Some x1 -> sy_threads demo_flips !! t2 = Some x2 ->
     is_worker (th_phase x1) -> is_worker (th_phase x2) -> t1 = t2) /\
  (sy_threads demo_flips !! 2%nat = Some (mkThread 20 sleeping) ->
   exists t' x, sy_threads demo_flips !! t' = Some x /\ will_notify (th_phase x)) /\
  (step false demo_flips demo_flips -> sy_threads demo_flips !! 2%nat = Some (mkThread 20 sleeping) ->
   ~ over sleeping -> sy_threads demo_flips !! 2%nat = Some (mkThread 20 finished) -> over finished ->
   20 ∉ pending_page_flips (sy_flipper demo_flips)).
Proof. apply (waiting_for_flips demo_flips demo_flips 2 20 sleeping finished demo_flips_reached). Defined.

Lemma every_wait_can_end_witness :
  exists s', rtc progress demo_flips s' /\ sy_threads s' !! 2%nat = Some (mkThread 20 finished).
Proof.
  apply (every_wait_can_end demo_flips 2 20 sleeping demo_flips_reached); [reflexivity|discriminate].
Defined.

Lemma failed_select_strands_waiters_witness :
  let s1 := set_phase 1 10 (wait_for_flip_turn 10 (select_error 9) (sy_flipper demo_flips)) demo_flips in
  worker_tid (sy_flipper s1) = Some 1%nat /\ 20 ∈ pending_page_flips (sy_flipper s1) /\ waits 2 20 s1.
Proof.
  assert (waits 2 20 (set_phase 1 10 (wait_for_flip_turn 10 (select_error 9) (sy_flipper demo_flips)) demo_flips)) as Hw.
  { intros p Hp. vm_compute in Hp. injection Hp as <-. intros []; discriminate. }
  cbv zeta.
  eapply (failed_select_strands_waiters demo_flips 1 10 9); [apply demo_flips_reached|reflexivity|reflexivity|..].
  - apply (bool_decide_unpack _). vm_compute. exact Logic.I.
  - exact Hw.
  - apply steps_refl.
Defined.
