(* ===== verification/Drm.v ===== *)
(** * DRM mode setting resources

    [graphics::gbm::DRMModeResources]
    ([src/server/graphics/gbm/drm_mode_resources.cpp]) over the calls of libdrm
    it makes, and [PageFlipper] ([page_flipper.h]).

    The kernel's device is a type [D] with the operations of class [Drm]; the
    queries do not change it.  The structures have the members libdrm gives
    them that describe the configuration. *)

From S2P Require Import Prelude.

(** ** The structures of libdrm *)

Record drmModeModeInfo : Set := mkMode {
  clock : Z;
  hdisplay : Z; hsync_start : Z; hsync_end : Z; htotal : Z; hskew : Z;
  vdisplay : Z; vsync_start : Z; vsync_end : Z; vtotal : Z; vscan : Z;
  vrefresh : Z; mode_flags : Z; mode_type : Z;
}.

(** [drmModeModeInfo()]. *)
Definition drmModeModeInfo0 : drmModeModeInfo := mkMode 0 0 0 0 0 0 0 0 0 0 0 0 0 0.

Record drmModeCrtc : Set := mkCrtc {
  crtc_id : Z;
  buffer_id : Z;
  crtc_x : Z; crtc_y : Z;
  crtc_mode : drmModeModeInfo;
}.

(** [saved_crtc()] in an initializer list. *)
Definition drmModeCrtc0 : drmModeCrtc := mkCrtc 0 0 0 0 drmModeModeInfo0.

Record drmModeEncoder : Set := mkEncoder {
  encoder_id : Z;
  encoder_crtc_id : Z;
  possible_crtcs : Z;
}.

Inductive drmModeConnection : Set :=
| DRM_MODE_CONNECTED | DRM_MODE_DISCONNECTED | DRM_MODE_UNKNOWNCONNECTION.

Record drmModeConnector : Set := mkConnector {
  connector_connector_id : Z;
  connector_encoder_id : Z;
  connection : drmModeConnection;
  mmWidth : Z; mmHeight : Z;
  connector_modes : list drmModeModeInfo;
  connector_encoders : list Z;
}.

Record drmModeRes : Set := mkRes {
  res_crtcs : list Z;
  res_connectors : list Z;
  res_encoders : list Z;
}.

#[export] Instance drmModeModeInfo_eq_dec : EqDecision drmModeModeInfo.
Proof. solve_decision. Defined.
#[export] Instance drmModeCrtc_eq_dec : EqDecision drmModeCrtc.
Proof. solve_decision. Defined.
#[export] Instance drmModeConnection_eq_dec : EqDecision drmModeConnection.
Proof. solve_decision. Defined.

(** ** The calls of libdrm *)

Class Drm (D : Type) : Type := {
  drmModeGetResources : D -> option drmModeRes;
  drmModeGetConnector : Z -> D -> option drmModeConnector;
  drmModeGetEncoder : Z -> D -> option drmModeEncoder;
  drmModeGetCrtc : Z -> D -> option drmModeCrtc;
  (** crtc, framebuffer, x, y, connectors, mode: the return value and the
      device afterwards. *)
  drmModeSetCrtc : Z -> Z -> Z -> Z -> list Z -> drmModeModeInfo -> D -> Z * D;
  (** width, height, depth, bits per pixel, pitch, handle: the return value
      and the identifier of the framebuffer. *)
  drmModeAddFB : Z -> Z -> Z -> Z -> Z -> Z -> D -> (Z * Z) * D;
  drmModeRmFB : Z -> D -> D;
}.

(** ** The interface [PageFlipper] *)

Class PageFlipper (D : Type) : Type := {
  flipper_schedule_flip : Z -> Z -> M D bool;
  flipper_wait_for_flip : Z -> M D unit;
}.

(** What is known of the crtcs from the calls made and the events read so far:
    the framebuffer each one shows, and the framebuffers of the flips that are
    under way; [device_ok] is what the device keeps true of itself. *)
Class Scanout (D : Type) : Type := {
  device_ok : D -> Prop;
  shown : D -> Z -> option Z;
  flips : D -> gmap Z Z;
}.

(** The flips that are no longer under way have taken place, and nothing else
    has changed. *)
Definition flips_arrived {D} `{Scanout D} (d d' : D) : Prop :=
  device_ok d' /\
  forall c, (flips d' !! c = flips d !! c /\ shown d' c = shown d c) \/
            (flips d' !! c = None /\ exists fb, flips d !! c = Some fb /\ shown d' c = Some fb).

Definition same_scanout {D} `{Scanout D} (d d' : D) : Prop :=
  device_ok d' /\ flips d' = flips d /\ forall c, shown d' c = shown d c.

Section Arrived.
Context {D : Type} `{Scanout D}.

Lemma flips_arrived_refl (d : D) : device_ok d -> flips_arrived d d.
Proof. split; [done|]. by left. Qed.

Lemma flips_arrived_trans (d1 d2 d3 : D) : flips_arrived d1 d2 -> flips_arrived d2 d3 -> flips_arrived d1 d3.
Proof.
  intros [_ H12] [Hok H23]. split; [done|]. intros c.
  destruct (H12 c) as [[E1 E2]|(E1 & fb & E2 & E3)], (H23 c) as [[E4 E5]|(E4 & fb' & E5 & E6)].
  - left. split; congruence.
  - right. split; [done|]. exists fb'. split; congruence.
  - right. split; [congruence|]. exists fb. split; congruence.
  - congruence.
Qed.

End Arrived.

(** What a page flipper promises: at most one flip per crtc, which is under way
    exactly when [schedule_flip] returns true, and has taken place when
    [wait_for_flip] returns. *)
Class PageFlipperLaws (D : Type) `{PageFlipper D} `{Scanout D} : Prop := {
  schedule_flip_law c fb d :
    device_ok d ->
    match flipper_schedule_flip c fb d with
    | Ret b d' => flips d !! c = None /\
        (if b then device_ok d' /\ flips d' = <[c := fb]> (flips d) /\ forall c', shown d' c' = shown d c'
         else same_scanout d d')
    | Throw _ d' => is_Some (flips d !! c) /\ same_scanout d d'
    | Wait _ | Undef => False
    end;
  wait_for_flip_law c d :
    device_ok d ->
    match flipper_wait_for_flip c d with
    | Ret _ d' => flips d' !! c = None /\ flips_arrived d d'
    | Throw _ d' | Wait d' => flips_arrived d d'
    | Undef => False
    end;
}.

(** What the documentation of the calls says that the theorems use: setting a
    crtc shows the framebuffer on it, and creating a framebuffer changes
    nothing that is shown. *)
Class DrmLaws (D : Type) `{Drm D} `{Scanout D} : Prop := {
  set_crtc_law c fb x y ks m d :
    device_ok d ->
    device_ok (snd (drmModeSetCrtc c fb x y ks m d)) /\
    (fst (drmModeSetCrtc c fb x y ks m d) = 0 -> shown (snd (drmModeSetCrtc c fb x y ks m d)) c = Some fb);
  add_fb_law w h depth bpp pitch handle d :
    device_ok d -> same_scanout d (snd (drmModeAddFB w h depth bpp pitch handle d));
  rm_fb_law fb d : device_ok d -> device_ok (drmModeRmFB fb d);
}.

(** ** Local variables

    [local l0 m]: code that changes only the variables a lambda captures by
    reference, which start as [l0]. *)
Definition local {S L} (l0 : L) (m : M L unit) : M S L := fun s =>
  match m l0 with
  | Ret _ l => Ret l s
  | Throw e _ => Throw e s
  | Wait _ => Wait s
  | Undef => Undef
  end.

(** ** [DRMModeResources] *)

Section Resources.
Context {D : Type} {drm : Drm D}.

(** The constructor; the object is the list of identifiers read here, and
    queries go to the device. *)
Definition DRMModeResources_new {S} (d : D) : M S drmModeRes :=
  match drmModeGetResources d with
  | Some resources => mret resources
  | None => throw (runtime_error "Couldn't get DRM resources")
  end.

Definition connector (id : Z) (d : D) : option drmModeConnector := drmModeGetConnector id d.
Definition encoder (id : Z) (d : D) : option drmModeEncoder := drmModeGetEncoder id d.
Definition crtc (id : Z) (d : D) : option drmModeCrtc := drmModeGetCrtc id d.

Definition for_each_connector {S} (d : D) (resources : drmModeRes) (f : drmModeConnector -> M S unit) : M S unit :=
  for_each (res_connectors resources) (fun id =>
    match connector id d with None => mret tt | Some connector_ptr => f connector_ptr end).

Definition for_each_encoder {S} (d : D) (resources : drmModeRes) (f : drmModeEncoder -> M S unit) : M S unit :=
  for_each (res_encoders resources) (fun id =>
    match encoder id d with None => mret tt | Some encoder_ptr => f encoder_ptr end).

Definition for_each_crtc {S} (d : D) (resources : drmModeRes) (f : drmModeCrtc -> M S unit) : M S unit :=
  for_each (res_crtcs resources) (fun id =>
    match crtc id d with None => mret tt | Some crtc_ptr => f crtc_ptr end).

(** The objects of the device that can be read. *)
Definition connectors_of (d : D) (r : drmModeRes) : list drmModeConnector :=
  omap (fun id => connector id d) (res_connectors r).

Definition crtcs_of (d : D) (r : drmModeRes) : list drmModeCrtc :=
  omap (fun id => crtc id d) (res_crtcs r).

End Resources.

(** ** Loops over the readable objects *)

Lemma for_each_omap {S A B} (g : A -> option B) (f : B -> M S unit) (l : list A) s :
  for_each l (fun x => match g x with None => mret tt | Some y => f y end) s = for_each (omap g l) f s.
Proof.
  revert s. induction l as [|x l IH]; intros s; [done|]. simpl.
  destruct (g x) as [y|]; simpl; [|apply IH].
  unfold mbind, M_bind. destruct (f y s); auto.
Qed.

(** A loop that only updates its variables is a fold. *)
Lemma for_each_modify {S A} (f : A -> S -> S) (l : list A) s :
  for_each l (fun x => modify (f x)) s = Ret tt (foldl (fun s x => f x s) s l).
Proof. revert s. induction l as [|x l IH]; intros s; [done|]. apply IH. Qed.

(** A loop that looks for something. *)
Lemma foldl_flag {A} (p : A -> bool) (l : list A) (b : bool) :
  foldl (fun b x => if p x then true else b) b l = b || existsb p l.
Proof.
  revert b. induction l as [|x l IH]; intros b; simpl; [by destruct b|].
  rewrite IH. by destruct (p x), b.
Qed.

Lemma foldl_flag_ext {A} (p : A -> bool) (f : bool -> A -> bool) (l : list A) :
  (forall b x, f b x = if p x then true else b) -> foldl f false l = existsb p l.
Proof.
  intros Hf. rewrite <- (orb_false_l (existsb p l)), <- foldl_flag.
  generalize false. induction l as [|x l IH]; intros b; simpl; [done|]. by rewrite Hf, IH.
Qed.
