(* ===== verification/KmsOutput.v ===== *)
(** * KMS outputs

    [graphics::gbm::KMSOutput] ([src/server/graphics/gbm/kms_output.cpp]): the
    crtc an output uses, setting and flipping it, and putting back what was
    there before. *)

From S2P Require Import Prelude Geometry Drm.

(** ** Which encoders and crtcs are in use *)

Section Use.
Context {D : Type} {drm : Drm D}.

Definition encoder_is_used {S} (d : D) (resources : drmModeRes) (id : Z) : M S bool :=
  local false (for_each_connector d resources (fun connector => modify (fun encoder_used =>
    if connector_encoder_id connector =? id then
      match encoder (connector_encoder_id connector) d with
      | Some enc =>
          match crtc (encoder_crtc_id enc) d with
          | Some _ => true
          | None => encoder_used
          end
      | None => encoder_used
      end
    else encoder_used))).

Definition crtc_is_used {S} (d : D) (resources : drmModeRes) (id : Z) : M S bool :=
  local false (for_each_connector d resources (fun connector => modify (fun crtc_used =>
    match encoder (connector_encoder_id connector) d with
    | Some enc => if encoder_crtc_id enc =? id then true else crtc_used
    | None => crtc_used
    end))).

(** The encoders are pointers, null where the encoder cannot be read. *)
Definition connector_available_encoders {S} (d : D) (resources : drmModeRes) (connector : drmModeConnector)
    : M S (list (option drmModeEncoder)) :=
  local [] (for_each (connector_encoders connector) (fun id =>
    used ← encoder_is_used d resources id ;
    if used : bool then mret tt else modify (fun encoders => encoders ++ [encoder id d]))).

(** [1 << crtc_index] is undefined from the width of [int] on. *)
Definition encoder_supports_crtc_index {S} (enc : option drmModeEncoder) (crtc_index : Z) : M S bool :=
  match enc with
  | None => undefined
  | Some enc =>
      if crtc_index <? 32
      then mret (negb (Z.land (possible_crtcs enc) (Z.shiftl 1 crtc_index) =? 0))
      else undefined
  end.

End Use.

(** ** The output *)

Record KMSOutput : Set := mkOutput {
  out_connector_id : Z;
  out_connector : option drmModeConnector;
  mode_index : Z;
  current_crtc : option drmModeCrtc;
  saved_crtc : drmModeCrtc;
  using_saved_crtc : bool;
}.

Definition set_connector (c : option drmModeConnector) (o : KMSOutput) : KMSOutput :=
  mkOutput (out_connector_id o) c (mode_index o) (current_crtc o) (saved_crtc o) (using_saved_crtc o).
Definition set_current_crtc (c : option drmModeCrtc) (o : KMSOutput) : KMSOutput :=
  mkOutput (out_connector_id o) (out_connector o) (mode_index o) c (saved_crtc o) (using_saved_crtc o).
Definition set_saved_crtc (c : drmModeCrtc) (o : KMSOutput) : KMSOutput :=
  mkOutput (out_connector_id o) (out_connector o) (mode_index o) (current_crtc o) c (using_saved_crtc o).
Definition set_using_saved (b : bool) (o : KMSOutput) : KMSOutput :=
  mkOutput (out_connector_id o) (out_connector o) (mode_index o) (current_crtc o) (saved_crtc o) b.

(** An output and the device it drives. *)
Record kms (D : Type) : Type := mkKms { k_output : KMSOutput; k_device : D }.
Arguments mkKms {D} _ _.
Arguments k_output {D} _.
Arguments k_device {D} _.

Definition device {D} : lens (kms D) D := Lens k_device (fun d s => mkKms (k_output s) d).

Definition update {D} (f : KMSOutput -> KMSOutput) : M (kms D) unit :=
  modify (fun s => mkKms (f (k_output s)) (k_device s)).

Section Output.
Context {D : Type} {drm : Drm D} {flipper : PageFlipper D}.

Definition reset : M (kms D) unit :=
  s ← get ;
  _ ← DRMModeResources_new (k_device s) ;
  let c := connector (out_connector_id (k_output s)) (k_device s) in
  update (set_connector c) ;;
  match c with
  | None => throw (runtime_error "No DRM connector found")
  | Some _ => update (set_current_crtc None)
  end.

(** The constructor.  An exception leaves it before there is an object. *)
Definition KMSOutput_new (connector_id : Z) : M D KMSOutput := fun d =>
  let init := mkOutput connector_id None 0 None drmModeCrtc0 true in
  let body :=
    reset ;;
    _ ← DRMModeResources_new d ;
    c ← deref (fun s => out_connector (k_output s)) ;
    match encoder (connector_encoder_id c) d with
    | Some enc =>
        match crtc (encoder_crtc_id enc) d with
        | Some crtc => update (set_saved_crtc crtc)
        | None => mret tt
        end
    | None => mret tt
    end in
  match body (mkKms init d) with
  | Ret _ s => Ret (k_output s) (k_device s)
  | Throw e s => Throw e (k_device s)
  | Wait s => Wait (k_device s)
  | Undef => Undef
  end.

(** [modes[mode_index]]: past the end of the array is undefined. *)
Definition current_mode (o : KMSOutput) : option drmModeModeInfo :=
  c ← out_connector o ; connector_modes c !! Z.to_nat (mode_index o).

Definition size : M (kms D) Size :=
  mode ← deref (fun s => current_mode (k_output s)) ;
  mret (mkSize (wrap (hdisplay mode)) (wrap (vdisplay mode))).

(** The loop over the encoders in [ensure_crtc]: the first one that supports
    the crtc ends it. *)
Fixpoint try_encoders (crtc : drmModeCrtc) (crtc_index : Z) (encs : list (option drmModeEncoder))
    : M (option drmModeCrtc * Z) unit :=
  match encs with
  | [] => mret tt
  | enc :: encs' =>
      supports ← encoder_supports_crtc_index enc crtc_index ;
      if supports : bool then modify (fun v => (Some crtc, snd v)) else try_encoders crtc crtc_index encs'
  end.

(** The callback of [for_each_crtc] there; its variables are [current_crtc]
    and [crtc_index]. *)
Definition find_crtc (d : D) (resources : drmModeRes) (available_encoders : list (option drmModeEncoder))
    (crtc : drmModeCrtc) : M (option drmModeCrtc * Z) unit :=
  '(current, crtc_index) ← get ;
  (match current with
   | Some _ => mret tt
   | None =>
       used ← crtc_is_used d resources (crtc_id crtc) ;
       if used : bool then mret tt else try_encoders crtc crtc_index available_encoders
   end) ;;
  modify (fun v => (fst v, snd v + 1)).

Definition ensure_crtc : M (kms D) bool :=
  s ← get ;
  match current_crtc (k_output s) with
  | Some _ => mret true
  | None =>
      c ← deref (fun s => out_connector (k_output s)) ;
      if negb (bool_decide (connection c = DRM_MODE_CONNECTED)) then mret false
      else
        let d := k_device s in
        resources ← DRMModeResources_new d ;
        (match encoder (connector_encoder_id c) d with
         | Some enc => update (set_current_crtc (crtc (encoder_crtc_id enc) d))
         | None => mret tt
         end) ;;
        current ← gets (fun s => current_crtc (k_output s)) ;
        (match current with
         | Some _ => mret tt
         | None =>
             available_encoders ← connector_available_encoders d resources c ;
             v ← local (None, 0) (for_each_crtc d resources (find_crtc d resources available_encoders)) ;
             update (set_current_crtc (fst v))
         end) ;;
        gets (fun s => match current_crtc (k_output s) with Some _ => true | None => false end)
  end.

Definition set_crtc (fb_id : Z) : M (kms D) bool :=
  ensured ← ensure_crtc ;
  if negb ensured then throw (runtime_error "Output has no associated crtc")
  else
    current ← deref (fun s => current_crtc (k_output s)) ;
    c ← deref (fun s => out_connector (k_output s)) ;
    mode ← deref (fun s => current_mode (k_output s)) ;
    ret ← zoom device (fun d =>
      let '(ret, d') := drmModeSetCrtc (crtc_id current) fb_id 0 0 [connector_connector_id c] mode d in Ret ret d') ;
    if negb (ret =? 0) then
      update (set_current_crtc None) ;;
      mret false
    else
      update (set_using_saved false) ;;
      mret true.

Definition schedule_page_flip (fb_id : Z) : M (kms D) bool :=
  s ← get ;
  match current_crtc (k_output s) with
  | None => throw (runtime_error "Output has no associated crtc")
  | Some c => zoom device (flipper_schedule_flip (crtc_id c) fb_id)
  end.

Definition wait_for_page_flip : M (kms D) unit :=
  s ← get ;
  match current_crtc (k_output s) with
  | None => throw (runtime_error "Output has no associated crtc")
  | Some c => zoom device (flipper_wait_for_flip (crtc_id c))
  end.

Definition restore_saved_crtc : M (kms D) unit :=
  s ← get ;
  if using_saved_crtc (k_output s) then mret tt
  else
    c ← deref (fun s => out_connector (k_output s)) ;
    let saved := saved_crtc (k_output s) in
    zoom device (fun d => Ret tt (snd (drmModeSetCrtc (crtc_id saved) (buffer_id saved) (crtc_x saved) (crtc_y saved)
      [connector_connector_id c] (crtc_mode saved) d))) ;;
    update (set_using_saved true).

(** [~KMSOutput]. *)
Definition KMSOutput_delete : M (kms D) unit := restore_saved_crtc.

End Output.

(** ** The crtc an output gets *)

Section Choice.
Context {D : Type} {drm : Drm D}.
Implicit Types (d : D) (r : drmModeRes) (c : drmModeConnector) (k : drmModeCrtc).

(** The crtc behind an encoder. *)
Definition encoder_crtc (id : Z) d : option drmModeCrtc :=
  enc ← encoder id d ; crtc (encoder_crtc_id enc) d.

(** Some connector has the encoder, and it has a crtc. *)
Definition encoder_busy d r (id : Z) : bool :=
  existsb (fun c => (connector_encoder_id c =? id) && bool_decide (is_Some (encoder_crtc id d))) (connectors_of d r).

(** The encoder of some connector is set to the crtc. *)
Definition crtc_busy d r (id : Z) : bool :=
  existsb (fun c => match encoder (connector_encoder_id c) d with
                    | Some enc => encoder_crtc_id enc =? id
                    | None => false
                    end) (connectors_of d r).

(** The encoders of [c] that are free. *)
Definition free_encoders d r c : list drmModeEncoder :=
  omap (fun id => encoder id d) (filter (fun id => encoder_busy d r id = false) (connector_encoders c)).

(** Crtc [k], the [i]-th one, can be used for [c]. *)
Definition usable d r c (i : Z) k : bool :=
  negb (crtc_busy d r (crtc_id k)) && existsb (fun enc => Z.testbit (possible_crtcs enc) i) (free_encoders d r c).

Fixpoint first_usable d r c (i : Z) (ks : list drmModeCrtc) : option drmModeCrtc :=
  match ks with
  | [] => None
  | k :: ks' => if usable d r c i k then Some k else first_usable d r c (i + 1) ks'
  end.

(** The crtc the connector has, or else the first one that can be used. *)
Definition chosen_crtc d r c : option drmModeCrtc :=
  match encoder_crtc (connector_encoder_id c) d with
  | Some k => Some k
  | None => first_usable d r c 0 (crtcs_of d r)
  end.

Lemma encoder_is_used_spec {S} d r id (s : S) : encoder_is_used d r id s = Ret (encoder_busy d r id) s.
Proof.
  unfold encoder_is_used, local, for_each_connector. rewrite for_each_omap, for_each_modify.
  fold (connectors_of d r). rewrite (foldl_flag_ext (fun c => (connector_encoder_id c =? id) &&
    bool_decide (is_Some (encoder_crtc id d)))); [done|].
  intros b c. unfold encoder_crtc. destruct (Z.eqb_spec (connector_encoder_id c) id) as [->|]; [|done].
  simpl. destruct (encoder id d) as [e|]; [|done]. simpl.
  by destruct (crtc (encoder_crtc_id e) d).
Qed.

Lemma crtc_is_used_spec {S} d r id (s : S) : crtc_is_used d r id s = Ret (crtc_busy d r id) s.
Proof.
  unfold crtc_is_used, local, for_each_connector. rewrite for_each_omap, for_each_modify.
  fold (connectors_of d r). rewrite (foldl_flag_ext (fun c => match encoder (connector_encoder_id c) d with
    | Some enc => encoder_crtc_id enc =? id | None => false end)); [done|].
  intros b c. by destruct (encoder (connector_encoder_id c) d).
Qed.

Lemma available_encoders_spec {S} d r c (s : S) :
  connector_available_encoders d r c s =
    Ret (map (fun id => encoder id d) (filter (fun id => encoder_busy d r id = false) (connector_encoders c))) s.
Proof.
  unfold connector_available_encoders, local.
  assert (forall ids acc, for_each ids (fun id =>
    used ← encoder_is_used d r id ;
    if used : bool then mret tt else modify (fun encoders => encoders ++ [encoder id d])) acc =
    Ret tt (acc ++ map (fun id => encoder id d) (filter (fun id => encoder_busy d r id = false) ids))) as Hloop.
  { induction ids as [|id ids IH]; intros acc; simpl; [by rewrite app_nil_r|].
    unfold mbind, M_bind in *. rewrite encoder_is_used_spec, filter_cons.
    destruct (encoder_busy d r id); simpl; rewrite IH; [done|]. by rewrite <- app_assoc. }
  by rewrite Hloop.
Qed.

Lemma supports_testbit {S} enc i (s : S) :
  0 <= i < 32 ->
  encoder_supports_crtc_index (Some enc) i s = Ret (Z.testbit (possible_crtcs enc) i) s.
Proof.
  intros Hi. unfold encoder_supports_crtc_index. destruct (Z.ltb_spec i 32); [|lia].
  f_equal. rewrite Z.shiftl_1_l. destruct (Z.testbit (possible_crtcs enc) i) eqn:E.
  - apply negb_true_iff, Z.eqb_neq. intros H0.
    assert (Z.testbit (Z.land (possible_crtcs enc) (2 ^ i)) i = true) as Hb.
    { by rewrite Z.land_spec, E, Z.pow2_bits_true by lia. }
    by rewrite H0, Z.bits_0 in Hb.
  - apply negb_false_iff, Z.eqb_eq, Z.bits_inj'. intros j Hj. rewrite Z.land_spec, Z.bits_0.
    destruct (decide (i = j)) as [->|Hne]; [by rewrite E|]. rewrite Z.pow2_bits_false by lia. apply andb_false_r.
Qed.

Lemma try_encoders_spec k i (encs : list drmModeEncoder) v :
  0 <= i < 32 ->
  try_encoders k i (map Some encs) v =
    Ret tt (if existsb (fun enc => Z.testbit (possible_crtcs enc) i) encs then (Some k, snd v) else v).
Proof.
  intros Hi. induction encs as [|e encs IH]; [done|].
  cbn [map try_encoders existsb]. unfold mbind, M_bind.
  rewrite supports_testbit by done. by destruct (Z.testbit (possible_crtcs e) i).
Qed.

(** Where every encoder can be read, the available ones are the free ones. *)
Lemma free_encoders_read d r c :
  (forall id, id ∈ connector_encoders c -> is_Some (encoder id d)) ->
  map (fun id => encoder id d) (filter (fun id => encoder_busy d r id = false) (connector_encoders c)) =
    map Some (free_encoders d r c).
Proof.
  unfold free_encoders. induction (connector_encoders c) as [|id ids IH]; intros Hr; [done|].
  rewrite filter_cons. case_decide; simpl; [|apply IH; set_solver].
  destruct (Hr id) as [e He]; [set_solver|]. rewrite He. simpl. f_equal. apply IH. set_solver.
Qed.

Lemma find_crtc_loop d r c ks cur i :
  0 <= i -> i + Z.of_nat (length ks) <= 32 ->
  for_each ks (find_crtc d r (map Some (free_encoders d r c))) (cur, i) =
    Ret tt (match cur with Some k => Some k | None => first_usable d r c i ks end, i + Z.of_nat (length ks)).
Proof.
  revert cur i. induction ks as [|k ks IH]; intros cur i Hi Hlen.
  { simpl. rewrite Z.add_0_r. by destruct cur. }
  cbn [length] in *. cbn [for_each first_usable]. unfold mbind, M_bind.
  assert (find_crtc d r (map Some (free_encoders d r c)) k (cur, i) =
    Ret tt (match cur with Some k => Some k | None => if usable d r c i k then Some k else None end, i + 1)) as ->.
  { unfold find_crtc, get, modify, mbind, M_bind. destruct cur as [k0|]; [done|].
    rewrite crtc_is_used_spec. unfold usable. destruct (crtc_busy d r (crtc_id k)); [done|].
    rewrite try_encoders_spec by lia. simpl.
    by destruct (existsb _ (free_encoders d r c)). }
  rewrite IH by lia. f_equal. f_equal; [|lia]. destruct cur; [done|]. by destruct (usable d r c i k).
Qed.

Lemma ensure_crtc_spec o d c r :
  current_crtc o = None -> out_connector o = Some c -> connection c = DRM_MODE_CONNECTED ->
  drmModeGetResources d = Some r ->
  (forall id, id ∈ connector_encoders c -> is_Some (encoder id d)) ->
  (length (crtcs_of d r) <= 32)%nat ->
  ensure_crtc (mkKms o d) =
    Ret (match chosen_crtc d r c with Some _ => true | None => false end)
        (mkKms (set_current_crtc (chosen_crtc d r c) o) d).
Proof.
  intros Hcur Hc Hconn Hr Hread Hlen.
  unfold ensure_crtc, get, gets, deref, mbind, M_bind, DRMModeResources_new. cbn [k_output k_device].
  rewrite Hcur. cbn [k_output]. rewrite Hc, bool_decide_eq_true_2 by done. rewrite Hr. cbn [negb mret M_ret].
  unfold chosen_crtc, encoder_crtc.
  destruct (encoder (connector_encoder_id c) d) as [e|] eqn:He; simpl.
  - destruct (crtc (encoder_crtc_id e) d) as [k|] eqn:Hk; [done|].
    rewrite available_encoders_spec, free_encoders_read by done. unfold local, for_each_crtc.
    rewrite for_each_omap. fold (crtcs_of d r). rewrite find_crtc_loop by lia. done.
  - rewrite Hcur. rewrite available_encoders_spec, free_encoders_read by done. unfold local, for_each_crtc.
    rewrite for_each_omap. fold (crtcs_of d r). rewrite find_crtc_loop by lia. done.
Qed.

(** ** What the choice is *)

Lemma first_usable_spec d r c i ks :
  match first_usable d r c i ks with
  | Some k => exists j, ks !! j = Some k /\ usable d r c (i + Z.of_nat j) k = true /\
      forall j' k', (j' < j)%nat -> ks !! j' = Some k' -> usable d r c (i + Z.of_nat j') k' = false
  | None => forall j k, ks !! j = Some k -> usable d r c (i + Z.of_nat j) k = false
  end.
Proof.
  revert i. induction ks as [|k ks IH]; intros i; simpl; [done|].
  destruct (usable d r c i k) eqn:E.
  - exists 0%nat. rewrite Z.add_0_r. split; [done|]. split; [done|]. lia.
  - specialize (IH (i + 1)). destruct (first_usable d r c (i + 1) ks) as [k0|].
    + destruct IH as (j & Hj & Hu & Hbefore). exists (S j). split; [done|].
      split; [by replace (i + Z.of_nat (S j)) with (i + 1 + Z.of_nat j) by lia|].
      intros [|j'] k' Hlt; simpl; [intros [= <-]; by rewrite Z.add_0_r|].
      intros Hk'. replace (i + Z.of_nat (S j')) with (i + 1 + Z.of_nat j') by lia. apply Hbefore; [lia|done].
    + intros [|j] k' Hk'; simpl in Hk'; [injection Hk' as <-; by rewrite Z.add_0_r|].
      replace (i + Z.of_nat (S j)) with (i + 1 + Z.of_nat j) by lia. by apply IH.
Qed.

(** Crtc [k] is free, and a free encoder of [c] can be driven by the [i]-th
    crtc. *)
Definition can_drive d r c (i : Z) k : Prop :=
  crtc_busy d r (crtc_id k) = false /\
  exists id enc, id ∈ connector_encoders c /\ encoder_busy d r id = false /\ encoder id d = Some enc /\
    Z.testbit (possible_crtcs enc) i = true.

Lemma usable_spec d r c i k : usable d r c i k = true <-> can_drive d r c i k.
Proof.
  unfold usable, can_drive, free_encoders. rewrite andb_true_iff, negb_true_iff. f_equiv.
  rewrite existsb_exists. setoid_rewrite <- list_elem_of_In. setoid_rewrite list_elem_of_omap.
  setoid_rewrite list_elem_of_filter. naive_solver.
Qed.

Lemma unusable_spec d r c i k : usable d r c i k = false <-> ~ can_drive d r c i k.
Proof. rewrite <- usable_spec. by destruct (usable d r c i k). Qed.

(** A connected output without a crtc gets the one its connector is
    attached to, or else the first crtc, in the order of the device, that no
    connector uses and that a free encoder of the connector supports; it gets
    none only if there is no such crtc.  The device is not changed. *)
Theorem ensure_crtc_choice o d c r :
  current_crtc o = None -> out_connector o = Some c -> connection c = DRM_MODE_CONNECTED ->
  drmModeGetResources d = Some r ->
  (forall id, id ∈ connector_encoders c -> is_Some (encoder id d)) ->
  (length (crtcs_of d r) <= 32)%nat ->
  exists res,
    ensure_crtc (mkKms o d) = Ret (bool_decide (is_Some res)) (mkKms (set_current_crtc res o) d) /\
    match encoder_crtc (connector_encoder_id c) d, res with
    | Some k, _ => res = Some k
    | None, Some k => exists i, crtcs_of d r !! i = Some k /\ can_drive d r c (Z.of_nat i) k /\
        forall j k', (j < i)%nat -> crtcs_of d r !! j = Some k' -> ~ can_drive d r c (Z.of_nat j) k'
    | None, None => forall i k, crtcs_of d r !! i = Some k -> ~ can_drive d r c (Z.of_nat i) k
    end.
Proof.
  intros Hcur Hc Hconn Hr Hread Hlen. exists (chosen_crtc d r c). split.
  { rewrite (ensure_crtc_spec o d c r) by done. by destruct (chosen_crtc d r c). }
  unfold chosen_crtc. destruct (encoder_crtc (connector_encoder_id c) d); [done|].
  pose proof (first_usable_spec d r c 0 (crtcs_of d r)) as Hf.
  destruct (first_usable d r c 0 (crtcs_of d r)) as [k|].
  - destruct Hf as (j & Hj & Hu & Hb). exists j. rewrite <- usable_spec. split; [done|]. split; [done|].
    intros j' k' Hlt Hk'. by apply unusable_spec, Hb.
  - intros j k Hk. by apply unusable_spec, Hf.
Qed.

End Choice.

(** ** What an output leaves behind *)

Section Lifetime.
Context {D : Type} {drm : Drm D} {flipper : PageFlipper D}.

(** The calls an output gets from its display buffer and its container. *)
Inductive output_call : Set :=
| call_reset
| call_set_crtc (fb_id : Z)
| call_schedule_page_flip (fb_id : Z)
| call_wait_for_page_flip.

Definition run_call (c : output_call) : M (kms D) bool :=
  match c with
  | call_reset => reset ;; mret false
  | call_set_crtc fb => set_crtc fb
  | call_schedule_page_flip fb => schedule_page_flip fb ;; mret false
  | call_wait_for_page_flip => wait_for_page_flip ;; mret false
  end.

(** Calls one after the other, the exceptions of which are caught by the
    callers: whether a crtc was set, and the state they leave. *)
Fixpoint run_calls (l : list output_call) (set : bool) (s : kms D) : option (bool * kms D) :=
  match l with
  | [] => Some (set, s)
  | c :: l' =>
      match run_call c s with
      | Ret b s' => run_calls l' (set || b) s'
      | Throw _ s' | Wait s' => run_calls l' set s'
      | Undef => None
      end
  end.

(** What an output keeps: the crtc it has saved, and whether it is in place. *)
Definition remembers (id : Z) (saved : drmModeCrtc) (set : bool) (s : kms D) : Prop :=
  out_connector_id (k_output s) = id /\ saved_crtc (k_output s) = saved /\ using_saved_crtc (k_output s) = negb set.

(** [m] leaves what is remembered as it is, up to a crtc it sets. *)
Definition remembering (m : M (kms D) bool) : Prop :=
  forall id saved set s, remembers id saved set s ->
  match m s with
  | Ret b s' => remembers id saved (set || b) s'
  | Throw _ s' | Wait s' => remembers id saved set s'
  | Undef => True
  end.

Lemma remembering_keeps {A} (m : M (kms D) A) :
  (forall id saved set, keeps (remembers id saved set) m) -> remembering (m ;; mret false).
Proof.
  intros Hm id saved set s Hs. specialize (Hm id saved set s Hs). unfold mbind, M_bind.
  destruct (m s); auto. unfold mret, M_ret. by rewrite orb_false_r.
Qed.

Lemma keeps_resources (I : kms D -> Prop) d : keeps I (DRMModeResources_new d).
Proof. unfold DRMModeResources_new. destruct (drmModeGetResources d); eauto with emir. Qed.

Lemma keeps_get {S} (I : S -> Prop) : keeps I get.
Proof. by intros s Hs. Qed.

Lemma keeps_local {S L} (I : S -> Prop) (l0 : L) m : keeps I (local l0 m).
Proof. intros s Hs. unfold local. by destruct (m l0). Qed.

Lemma keeps_device {A} id saved set (m : M D A) : keeps (remembers id saved set) (zoom device m).
Proof. intros s Hs. unfold zoom. by destruct (m (view device s)). Qed.

Lemma keeps_update id saved set f :
  (forall o, out_connector_id (f o) = out_connector_id o /\ saved_crtc (f o) = saved_crtc o /\
     using_saved_crtc (f o) = using_saved_crtc o) ->
  keeps (remembers id saved set) (update (D := D) f).
Proof.
  intros Hf. apply keeps_modify. intros s. unfold remembers. simpl. by destruct (Hf (k_output s)) as (-> & -> & ->).
Qed.

#[local] Hint Resolve keeps_resources keeps_get keeps_local keeps_device keeps_update keeps_bind : emir.
#[local] Hint Extern 1 (_ /\ _) => done : emir.

Lemma reset_remembers id saved set : keeps (remembers id saved set) reset.
Proof.
  unfold reset. apply keeps_bind; [auto with emir|]. intros s. apply keeps_bind; [auto with emir|]. intros _.
  apply keeps_bind; [auto with emir|]. intros _. destruct (connector _ _); auto with emir.
Qed.

Lemma ensure_crtc_remembers id saved set : keeps (remembers id saved set) ensure_crtc.
Proof.
  unfold ensure_crtc. apply keeps_bind; [auto with emir|]. intros s.
  destruct (current_crtc (k_output s)); [auto with emir|].
  apply keeps_bind; [auto with emir|]. intros c. destruct (negb _); [auto with emir|].
  apply keeps_bind; [auto with emir|]. intros r. apply keeps_bind.
  { destruct (encoder _ _); auto with emir. }
  intros _. apply keeps_bind; [auto with emir|]. intros [k|]; (apply keeps_bind; [|auto with emir]); [auto with emir|].
  apply keeps_bind; [unfold connector_available_encoders; auto with emir|]. intros encs.
  apply keeps_bind; auto with emir.
Qed.

Lemma set_crtc_remembers fb : remembering (set_crtc fb).
Proof.
  intros id saved set s Hs. unfold set_crtc, mbind, M_bind.
  pose proof (ensure_crtc_remembers id saved set s Hs) as He.
  destruct (ensure_crtc s) as [b s1|e s1|s1|]; [|done|done|done].
  destruct b; simpl; [|done]. unfold deref.
  destruct (current_crtc (k_output s1)) as [k|]; [|done]. destruct (out_connector (k_output s1)) as [c|]; [|done].
  destruct (current_mode (k_output s1)) as [m|]; [|done]. unfold zoom. simpl.
  destruct (drmModeSetCrtc _ _ _ _ _ _ _) as [ret d']. destruct (ret =? 0); simpl.
  - rewrite orb_true_r. destruct He as (? & ? & ?). by split.
  - by rewrite orb_false_r.
Qed.

Lemma run_call_remembers c : remembering (run_call c).
Proof.
  destruct c as [|fb|fb|]; simpl; [|apply set_crtc_remembers|..]; apply remembering_keeps; intros id saved set.
  - apply reset_remembers.
  - unfold schedule_page_flip. apply keeps_bind; [auto with emir|]. intros s.
    destruct (current_crtc _); auto with emir.
  - unfold wait_for_page_flip. apply keeps_bind; [auto with emir|]. intros s.
    destruct (current_crtc _); auto with emir.
Qed.

Lemma run_calls_remember l id saved set s set' s' :
  remembers id saved set s -> run_calls l set s = Some (set', s') -> remembers id saved set' s'.
Proof.
  revert set s. induction l as [|c l IH]; intros set s Hs; simpl; [by intros [= <- <-]|].
  pose proof (run_call_remembers c id saved set s Hs) as Hc.
  destruct (run_call c s) as [b s1|e s1|s1|]; [..|done]; by apply IH.
Qed.

(** The crtc an output finds on its connector when it is made. *)
Definition crtc_found (id : Z) (d : D) : drmModeCrtc :=
  default drmModeCrtc0 (c ← connector id d ; encoder_crtc (connector_encoder_id c) d).

Lemma KMSOutput_new_remembers id d o d' :
  KMSOutput_new id d = Ret o d' -> d' = d /\ remembers id (crtc_found id d) false (mkKms o d).
Proof.
  unfold KMSOutput_new, reset, get, deref, mbind, M_bind, DRMModeResources_new, crtc_found, encoder_crtc. simpl.
  destruct (drmModeGetResources d); [|done]. simpl. destruct (connector id d) as [c|]; [|done]. simpl.
  destruct (encoder (connector_encoder_id c) d) as [e|]; simpl; [|by intros [= <- <-]].
  destruct (crtc (encoder_crtc_id e) d); simpl; by intros [= <- <-].
Qed.

(** An output puts back what it found.  Whatever calls it gets, and
    whichever of them throw, its destructor leaves the device alone if no crtc
    was set, and otherwise sets the crtc, framebuffer, position and mode the
    connector had when the output was made.  If it had none, the identifier in
    that call is zero; if the connector has been lost in a [reset], the
    destructor dereferences a null pointer. *)
Theorem delete_restores id d0 o d1 l set s :
  KMSOutput_new id d0 = Ret o d1 -> run_calls l false (mkKms o d1) = Some (set, s) ->
  KMSOutput_delete s =
    (if set then
       match out_connector (k_output s) with
       | Some c =>
           let saved := crtc_found id d0 in
           let call := drmModeSetCrtc (crtc_id saved) (buffer_id saved) (crtc_x saved) (crtc_y saved)
                         [connector_connector_id c] (crtc_mode saved) (k_device s) in
           Ret tt (mkKms (set_using_saved true (k_output s)) (snd call))
       | None => Undef
       end
     else Ret tt s).
Proof.
  intros Hnew Hrun. destruct (KMSOutput_new_remembers _ _ _ _ Hnew) as [-> Hr].
  destruct (run_calls_remember _ _ _ _ _ _ _ Hr Hrun) as (_ & Hsaved & Husing).
  unfold KMSOutput_delete, restore_saved_crtc, get, deref, mbind, M_bind, zoom, update, modify.
  rewrite Husing, <- Hsaved. destruct set; simpl; [|done]. by destruct (out_connector (k_output s)).
Qed.

End Lifetime.
