(* ===== verification/DisplayConfig.v ===== *)
(** * Display configurations

    [graphics::DisplayConfigurationOutput] with its comparison and its text
    ([src/server/graphics/display_configuration.cpp]), and
    [graphics::gbm::KMSDisplayConfiguration]
    ([src/server/graphics/gbm/kms_display_configuration.cpp]), which reads it
    from a DRM device.

    A [double] is a binary64 number of [SpecFloat], rounded to nearest. *)

From Stdlib Require Import SpecFloat.
From stdpp Require Import pretty.
From S2P Require Import Prelude Geometry Drm.

(** ** Floating point *)

Abbreviation double := spec_float.

Definition double_of_Z (z : Z) : double := binary_normalize 53 1024 z 0 false.

Definition double_mul : double -> double -> double := SFmul 53 1024.

Definition double_div : double -> double -> double := SFdiv 53 1024.

(** [round] of the C library: to the nearest integer, halves away from zero. *)
Definition round (x : double) : double :=
  match x with
  | S754_finite s m e =>
      if 0 <=? e then x
      else binary_normalize 53 1024 (cond_Zopp s ((Z.pos m + 2 ^ (- e - 1)) / 2 ^ (- e))) 0 s
  | _ => x
  end.

(** ** Modes and outputs *)

Record DisplayConfigurationMode : Set := mkConfMode {
  conf_mode_size : Size;
  vrefresh_hz : double;
}.

Record DisplayConfigurationOutput : Set := mkConfOutput {
  conf_id : Z;
  conf_card_id : Z;
  conf_modes : list DisplayConfigurationMode;
  physical_size_mm : Size;
  connected : bool;
  current_mode_index : Z;
}.

Definition mode_eqb (val1 val2 : DisplayConfigurationMode) : bool :=
  size_eqb (conf_mode_size val1) (conf_mode_size val2) && SFeqb (vrefresh_hz val1) (vrefresh_hz val2).

(** The loop over [modes[i]] of [operator==]; the second vector is read at the
    indices of the first. *)
Fixpoint modes_eqb (modes1 modes2 : list DisplayConfigurationMode) : bool :=
  match modes1, modes2 with
  | m1 :: l1, m2 :: l2 => if mode_eqb m1 m2 then modes_eqb l1 l2 else false
  | _, _ => true
  end.

Definition output_eqb (val1 val2 : DisplayConfigurationOutput) : bool :=
  let equal :=
    (conf_id val1 =? conf_id val2) &&
    (conf_card_id val1 =? conf_card_id val2) &&
    size_eqb (physical_size_mm val1) (physical_size_mm val2) &&
    Bool.eqb (connected val1) (connected val2) &&
    (current_mode_index val1 =? current_mode_index val2) &&
    Nat.eqb (length (conf_modes val1)) (length (conf_modes val2)) in
  if equal then modes_eqb (conf_modes val1) (conf_modes val2) else equal.

Definition output_neqb (val1 val2 : DisplayConfigurationOutput) : bool := negb (output_eqb val1 val2).

(** ** Text *)

(** An output stream: its text, and the properties the code changes. *)
Record ostream : Set := mkStream {
  text : string;
  fixed : bool;
  precision : Z;
}.

Definition put (x : string) (out : ostream) : ostream := mkStream (text out +:+ x) (fixed out) (precision out).

(** A number in fixed notation with one digit after the point, as [printf]
    writes it: the exact value rounded to nearest, halves to even. *)
Definition tenths (m : positive) (e : Z) : Z :=
  if 0 <=? e then 10 * Z.pos m * 2 ^ e
  else
    let n := 10 * Z.pos m in
    let q := n / 2 ^ (- e) in
    let r := 2 * (n mod 2 ^ (- e)) in
    if (2 ^ (- e) <? r) || ((r =? 2 ^ (- e)) && Z.odd q) then q + 1 else q.

Definition print_fixed1 (x : double) : string :=
  match x with
  | S754_zero s => (if s then "-" else "") +:+ "0.0"
  | S754_infinity s => (if s then "-" else "") +:+ "inf"
  | S754_nan => "nan"
  | S754_finite s m e =>
      (if s then "-" else "") +:+ pretty (tenths m e / 10) +:+ "." +:+ pretty (tenths m e mod 10)
  end.

(** [StreamPropertiesRecovery]: the destructor puts back what the constructor
    has read. *)
Definition with_properties_recovered (f : ostream -> ostream) (out : ostream) : ostream :=
  let out' := f out in mkStream (text out') (fixed out) (precision out).

Definition print_mode (val : DisplayConfigurationMode) : ostream -> ostream :=
  with_properties_recovered (fun out =>
    let out := mkStream (text out) true 1 in
    put (pretty (as_uint32_t (size_width (conf_mode_size val))) +:+ "x" +:+
         pretty (as_uint32_t (size_height (conf_mode_size val))) +:+ "@" +:+ print_fixed1 (vrefresh_hz val)) out).

(** The loop over the modes: a comma after each but the last one. *)
Fixpoint print_modes (modes : list DisplayConfigurationMode) (out : ostream) : ostream :=
  match modes with
  | [] => out
  | m :: modes' =>
      let out := print_mode m out in
      print_modes modes' (match modes' with [] => out | _ => put ", " out end)
  end.

Definition print_output (val : DisplayConfigurationOutput) (out : ostream) : ostream :=
  let out := put ("{ id: " +:+ pretty (conf_id val) +:+ ", card_id: " +:+ pretty (conf_card_id val) +:+ " modes: [") out in
  let out := print_modes (conf_modes val) out in
  let out := put ("], physical_size_mm: " +:+ pretty (as_uint32_t (size_width (physical_size_mm val))) +:+ "x" +:+
                  pretty (as_uint32_t (size_height (physical_size_mm val)))) out in
  let out := put (", connected: " +:+ (if connected val then "true" else "false")) out in
  let out := put (", current_mode: " +:+ pretty (current_mode_index val) +:+ " (") out in
  let out :=
    match (if current_mode_index val <? Z.of_nat (length (conf_modes val))
           then conf_modes val !! Z.to_nat (current_mode_index val) else None) with
    | Some m => print_mode m out
    | None => put "none" out
    end in
  put ") }" out.

(** ** Reading the configuration of a device *)

Definition kms_modes_are_equal (info1 info2 : drmModeModeInfo) : bool :=
  (clock info1 =? clock info2) &&
  (hdisplay info1 =? hdisplay info2) &&
  (hsync_start info1 =? hsync_start info2) &&
  (hsync_end info1 =? hsync_end info2) &&
  (htotal info1 =? htotal info2) &&
  (hskew info1 =? hskew info2) &&
  (vdisplay info1 =? vdisplay info2) &&
  (vsync_start info1 =? vsync_start info2) &&
  (vsync_end info1 =? vsync_end info2) &&
  (vtotal info1 =? vtotal info2).

(** The product of the totals is an [int]. *)
Definition calculate_vrefresh_hz {S} (mode : drmModeModeInfo) : M S double :=
  if (htotal mode =? 0) || (vtotal mode =? 0) then mret (S754_zero false)
  else
    let total := htotal mode * vtotal mode in
    if 2147483647 <? total then undefined
    else
      let hz := double_div (double_mul (double_of_Z (clock mode)) (double_of_Z 1000)) (double_of_Z total) in
      mret (double_div (round (double_mul hz (double_of_Z 10))) (double_of_Z 10)).

(** [std::numeric_limits<size_t>::max()]. *)
Definition size_t_max : Z := 18446744073709551615.

Section Kms.
Context {D : Type} {drm : Drm D}.

(** The outputs, the only member. *)
Definition KMSDisplayConfiguration : Set := list DisplayConfigurationOutput.

(** The loop over the modes of [add_output]; its variables are [modes],
    [current_mode_index] and [m]. *)
Definition add_mode (current_mode_info mode_info : drmModeModeInfo)
    : M (list DisplayConfigurationMode * Z * Z) unit :=
  let size := mkSize (wrap (hdisplay mode_info)) (wrap (vdisplay mode_info)) in
  hz ← calculate_vrefresh_hz mode_info ;
  modify (fun '(modes, current, m) =>
    (modes ++ [mkConfMode size hz],
     if kms_modes_are_equal mode_info current_mode_info then m else current,
     m + 1)).

Definition add_output (d : D) (connector : drmModeConnector) : M KMSDisplayConfiguration unit :=
  let current_mode_info :=
    match encoder (connector_encoder_id connector) d with
    | Some enc =>
        match crtc (encoder_crtc_id enc) d with
        | Some k => crtc_mode k
        | None => drmModeModeInfo0
        end
    | None => drmModeModeInfo0
    end in
  v ← local ([], size_t_max, 0) (for_each (connector_modes connector) (add_mode current_mode_info)) ;
  let '(modes, current, _) := v in
  modify (fun outputs => outputs ++
    [mkConfOutput (i32 (connector_connector_id connector)) 0 modes
       (mkSize (wrap (mmWidth connector)) (wrap (mmHeight connector)))
       (bool_decide (connection connector = DRM_MODE_CONNECTED)) current]).

Definition KMSDisplayConfiguration_new : M D KMSDisplayConfiguration :=
  d ← get ;
  resources ← DRMModeResources_new d ;
  local [] (for_each_connector d resources (add_output d)).

(** [for_each_card]: one card. *)
Definition for_each_card {S} (f : Z -> M S unit) : M S unit := f 0.

Definition for_each_output {S} (conf : KMSDisplayConfiguration) (f : DisplayConfigurationOutput -> M S unit) : M S unit :=
  for_each conf f.

Definition get_kms_connector_id {S} (conf : KMSDisplayConfiguration) (id : Z) : M S Z :=
  (fix loop outputs :=
     match outputs with
     | [] => throw (runtime_error "Failed to find DisplayConfigurationOutput with provided id")
     | output :: outputs' => if conf_id output =? id then mret (u32 id) else loop outputs'
     end) conf.

End Kms.

Definition mode_1080p : drmModeModeInfo := mkMode 148500 1920 2008 2052 2200 0 1080 1084 1089 1125 0 60 5 64.

Example vrefresh_1080p : calculate_vrefresh_hz mode_1080p tt = Ret (double_of_Z 60) tt.
Proof. vm_compute. reflexivity. Qed.

Example print_1080p :
  print_mode (mkConfMode (mkSize (wrap 1366) (wrap 768)) (double_div (double_of_Z 597) (double_of_Z 10)))
    (mkStream "" false 6) = mkStream "1366x768@59.7" false 6.
Proof. vm_compute. reflexivity. Qed.

(** ** Equality and text *)

(** The modes are the same: the same size, and refresh rates that compare
    equal as numbers. *)
Definition same_mode (val1 val2 : DisplayConfigurationMode) : Prop :=
  conf_mode_size val1 = conf_mode_size val2 /\ SFeqb (vrefresh_hz val1) (vrefresh_hz val2) = true.

Lemma mode_eqb_spec val1 val2 : mode_eqb val1 val2 = true <-> same_mode val1 val2.
Proof. unfold mode_eqb, same_mode. by rewrite andb_true_iff, size_eqb_eq. Qed.

Lemma modes_eqb_spec l1 l2 :
  length l1 = length l2 -> modes_eqb l1 l2 = true <-> Forall2 same_mode l1 l2.
Proof.
  revert l2. induction l1 as [|m1 l1 IH]; intros [|m2 l2] Hlen; simpl in *; try done.
  destruct (mode_eqb m1 m2) eqn:E.
  - apply mode_eqb_spec in E. rewrite Forall2_cons, <- IH by lia. tauto.
  - rewrite Forall2_cons, <- mode_eqb_spec. split; [done|]. intros [? _]. congruence.
Qed.

(** Two outputs compare equal exactly when all their members do, the modes
    one by one; in particular the loop over the modes, which reads the second
    vector at the indices of the first, stays inside both. *)
Theorem output_equality val1 val2 :
  output_eqb val1 val2 = true <->
  conf_id val1 = conf_id val2 /\ conf_card_id val1 = conf_card_id val2 /\
  physical_size_mm val1 = physical_size_mm val2 /\ connected val1 = connected val2 /\
  current_mode_index val1 = current_mode_index val2 /\
  Forall2 same_mode (conf_modes val1) (conf_modes val2).
Proof.
  unfold output_eqb. set (equal := _ && _).
  assert (equal = true <-> conf_id val1 = conf_id val2 /\ conf_card_id val1 = conf_card_id val2 /\
    physical_size_mm val1 = physical_size_mm val2 /\ connected val1 = connected val2 /\
    current_mode_index val1 = current_mode_index val2 /\ length (conf_modes val1) = length (conf_modes val2)) as He.
  { subst equal. rewrite !andb_true_iff, !Z.eqb_eq, size_eqb_eq, Bool.eqb_true_iff, Nat.eqb_eq. tauto. }
  destruct equal.
  - destruct He as [He _]. destruct (He eq_refl) as (-> & -> & -> & -> & -> & Hlen).
    rewrite modes_eqb_spec by done. tauto.
  - split; [done|]. intros (? & ? & ? & ? & ? & H2). apply He. apply Forall2_length in H2. tauto.
Qed.

Lemma print_mode_keeps m out :
  fixed (print_mode m out) = fixed out /\ precision (print_mode m out) = precision out.
Proof. done. Qed.

Lemma print_modes_keeps l out :
  fixed (print_modes l out) = fixed out /\ precision (print_modes l out) = precision out.
Proof.
  revert out. induction l as [|m l IH]; intros out; [done|]. cbn [print_modes].
  destruct (IH (match l with [] => print_mode m out | _ => put ", " (print_mode m out) end)) as [-> ->].
  by destruct l.
Qed.

(** Writing an output leaves the properties of the stream as they were. *)
Lemma print_output_keeps val out :
  fixed (print_output val out) = fixed out /\ precision (print_output val out) = precision out.
Proof.
  unfold print_output. cbv zeta. set (out1 := put _ out).
  pose proof (print_modes_keeps (conf_modes val) out1) as [Hf Hp].
  set (out2 := print_modes _ _) in *. destruct (if _ <? _ then _ else None); simpl; by rewrite Hf, Hp.
Qed.

(** ** The outputs of a device *)

Section Device.
Context {D : Type} {drm : Drm D}.
Implicit Types (d : D) (c : drmModeConnector) (m : drmModeModeInfo).

(** The totals of a mode fit the arithmetic of the refresh rate. *)
Definition mode_fits m : Prop := htotal m * vtotal m <= 2147483647.

(** The mode a connector is in: zero when it has no crtc. *)
Definition mode_in_use d c : drmModeModeInfo :=
  match encoder (connector_encoder_id c) d ≫= (fun enc => crtc (encoder_crtc_id enc) d) with
  | Some k => crtc_mode k
  | None => drmModeModeInfo0
  end.

Definition rate (m : drmModeModeInfo) : double :=
  match calculate_vrefresh_hz m tt with Ret hz _ => hz | _ => S754_nan end.

Definition conf_mode m : DisplayConfigurationMode := mkConfMode (mkSize (wrap (hdisplay m)) (wrap (vdisplay m))) (rate m).

Lemma rate_spec {S} m (s : S) : mode_fits m -> calculate_vrefresh_hz m s = Ret (rate m) s.
Proof.
  unfold mode_fits, rate, calculate_vrefresh_hz. intros Hm.
  destruct ((htotal m =? 0) || (vtotal m =? 0)); [done|].
  destruct (Z.ltb_spec 2147483647 (htotal m * vtotal m)); [lia|done].
Qed.

(** The index of the last mode in use among those from [i] on. *)
Fixpoint last_match (cur : drmModeModeInfo) (idx i : Z) (ms : list drmModeModeInfo) : Z :=
  match ms with
  | [] => idx
  | m :: ms' => last_match cur (if kms_modes_are_equal m cur then i else idx) (i + 1) ms'
  end.

Lemma add_mode_spec cur m modes idx i :
  mode_fits m ->
  add_mode cur m (modes, idx, i) =
    Ret tt (modes ++ [conf_mode m], if kms_modes_are_equal m cur then i else idx, i + 1).
Proof. intros Hm. unfold add_mode, mbind, M_bind. by rewrite rate_spec. Qed.

Lemma add_mode_loop cur ms modes idx i :
  (forall m, m ∈ ms -> mode_fits m) ->
  for_each ms (add_mode cur) (modes, idx, i) =
    Ret tt (modes ++ map conf_mode ms, last_match cur idx i ms, i + Z.of_nat (length ms)).
Proof.
  revert modes idx i. induction ms as [|m ms IH]; intros modes idx i Hfit; cbn [for_each map last_match length].
  { simpl. by rewrite app_nil_r, Z.add_0_r. }
  unfold mbind, M_bind. rewrite add_mode_spec by (apply Hfit; set_solver).
  rewrite IH by set_solver. rewrite <- app_assoc. simpl. do 2 f_equal. lia.
Qed.

Lemma last_match_spec cur idx i ms :
  (last_match cur idx i ms = idx /\ forall m, m ∈ ms -> kms_modes_are_equal m cur = false) \/
  exists j m, last_match cur idx i ms = i + Z.of_nat j /\ ms !! j = Some m /\ kms_modes_are_equal m cur = true /\
    forall j' m', (j < j')%nat -> ms !! j' = Some m' -> kms_modes_are_equal m' cur = false.
Proof.
  revert idx i. induction ms as [|m ms IH]; intros idx i; [left; split; [done|set_solver]|]. simpl.
  destruct (IH (if kms_modes_are_equal m cur then i else idx) (i + 1)) as [[-> Hno]|(j & m' & -> & Hj & He & Hlast)].
  - destruct (kms_modes_are_equal m cur) eqn:E; [right|left; split; [done|set_solver]].
    exists 0%nat, m. split; [lia|]. split; [done|]. split; [done|].
    intros [|j'] m' Hlt Hm'; [lia|]. simpl in Hm'. eapply Hno, list_elem_of_lookup_2, Hm'.
  - right. exists (S j), m'. split; [lia|]. split; [done|]. split; [done|].
    intros [|j'] m0 Hlt Hm0; [lia|]. eapply Hlast; [|exact Hm0]. lia.
Qed.

(** [o] describes connector [c]. *)
Record describes d c (o : DisplayConfigurationOutput) : Prop := {
  de_id : conf_id o = i32 (connector_connector_id c);
  de_card : conf_card_id o = 0;
  de_connected : connected o = true <-> connection c = DRM_MODE_CONNECTED;
  de_physical : physical_size_mm o = mkSize (wrap (mmWidth c)) (wrap (mmHeight c));
  de_modes : conf_modes o = map conf_mode (connector_modes c);
  de_current :
    (current_mode_index o = size_t_max /\
     forall m, m ∈ connector_modes c -> kms_modes_are_equal m (mode_in_use d c) = false) \/
    exists i m, current_mode_index o = Z.of_nat i /\ connector_modes c !! i = Some m /\
      kms_modes_are_equal m (mode_in_use d c) = true /\
      forall j m', (i < j)%nat -> connector_modes c !! j = Some m' -> kms_modes_are_equal m' (mode_in_use d c) = false;
}.

Lemma add_output_spec d c conf :
  (forall m, m ∈ connector_modes c -> mode_fits m) ->
  exists o, add_output d c conf = Ret tt (conf ++ [o]) /\ describes d c o.
Proof.
  intros Hfit. unfold add_output, local, mbind, M_bind. rewrite add_mode_loop by done. simpl.
  eexists. split; [reflexivity|].
  replace (match encoder (connector_encoder_id c) d with Some _ => _ | None => _ end) with (mode_in_use d c)
    by (unfold mode_in_use; by destruct (encoder (connector_encoder_id c) d)).
  split; simpl; try done.
  - by rewrite bool_decide_eq_true.
  - destruct (last_match_spec (mode_in_use d c) size_t_max 0 (connector_modes c))
      as [[-> ?]|(j & m & -> & ?)]; [by left|right]. exists j, m. by rewrite Z.add_0_l.
Qed.

Lemma add_outputs_spec d cs conf :
  (forall c m, c ∈ cs -> m ∈ connector_modes c -> mode_fits m) ->
  exists os, for_each cs (add_output d) conf = Ret tt (conf ++ os) /\ Forall2 (describes d) cs os.
Proof.
  revert conf. induction cs as [|c cs IH]; intros conf Hfit.
  { exists []. rewrite app_nil_r. split; [done|constructor]. }
  destruct (add_output_spec d c conf) as (o & Ho & Hd); [set_solver|].
  destruct (IH (conf ++ [o])) as (os & Hos & Hds); [set_solver|].
  exists (o :: os). split; [|by constructor]. cbn [for_each]. unfold mbind, M_bind. rewrite Ho, Hos.
  by rewrite <- app_assoc.
Qed.

Lemma configuration_read d r :
  drmModeGetResources d = Some r ->
  (forall c m, c ∈ connectors_of d r -> m ∈ connector_modes c -> mode_fits m) ->
  exists conf, KMSDisplayConfiguration_new d = Ret conf d /\ Forall2 (describes d) (connectors_of d r) conf.
Proof.
  intros Hr Hfit. destruct (add_outputs_spec d (connectors_of d r) [] Hfit) as (os & Hos & Hds).
  exists os. split; [|done].
  unfold KMSDisplayConfiguration_new, get, mbind, M_bind, DRMModeResources_new, local, for_each_connector.
  rewrite Hr. unfold mret at 1, M_ret at 1. rewrite for_each_omap. unfold connectors_of in Hos.
  by rewrite Hos.
Qed.

(** The configuration lists the readable connectors of the device, in its
    order, each with all its modes; the current mode is the last one with the
    timings the crtc is in, and [size_t]'s maximum when there is none.  Looking
    an output up by its identifier, which is the connector's as an [int], gives
    the connector's identifier back, and an identifier of no output throws. *)
Theorem configuration_of_device d r :
  drmModeGetResources d = Some r ->
  (forall c m, c ∈ connectors_of d r -> m ∈ connector_modes c -> mode_fits m) ->
  exists conf, KMSDisplayConfiguration_new d = Ret conf d /\
    Forall2 (describes d) (connectors_of d r) conf /\
    (forall c, c ∈ connectors_of d r -> is_u32 (connector_connector_id c) ->
       get_kms_connector_id conf (i32 (connector_connector_id c)) d = Ret (connector_connector_id c) d) /\
    (forall id, (forall c, c ∈ connectors_of d r -> i32 (connector_connector_id c) <> id) ->
       get_kms_connector_id conf id d =
         Throw (runtime_error "Failed to find DisplayConfigurationOutput with provided id") d).
Proof.
  intros Hr Hfit. destruct (configuration_read d r Hr Hfit) as (conf & Hnew & Hds).
  exists conf. split; [done|]. split; [done|]. clear Hnew Hfit Hr. split.
  - intros c Hc Hid. assert (u32 (i32 (connector_connector_id c)) = connector_connector_id c) as Hback.
    { unfold u32, i32. rewrite Zminus_mod_idemp_l, Z.add_simpl_r. by apply u32_id. }
    induction Hds as [|c0 o cs os Hd Hds IH]; [set_solver|]. simpl. rewrite (de_id _ _ _ Hd).
    destruct (Z.eqb_spec (i32 (connector_connector_id c0)) (i32 (connector_connector_id c))) as [E|E].
    + by rewrite Hback.
    + apply IH. apply elem_of_cons in Hc as [->|]; [by destruct E|done].
  - intros id Hno. induction Hds as [|c0 o cs os Hd Hds IH]; [done|]. simpl. rewrite (de_id _ _ _ Hd).
    destruct (Z.eqb_spec (i32 (connector_connector_id c0)) id) as [E|E]; [destruct (Hno c0); set_solver|].
    apply IH. set_solver.
Qed.

End Device.
