(* ===== verification/Egl.v ===== *)
(** * EGL contexts and surfaces

    [graphics::gbm::helpers::EGLHelper]
    ([src/server/graphics/gbm/gbm_display_helpers.cpp]): sets up a context, with
    or without a window surface, and takes it down again.

    EGL is a class of calls on a state [G]; handles are numbers and zero is the
    null handle of each kind. *)

From S2P Require Import Prelude.

Class Egl (G : Type) : Type := {
  eglGetDisplay : Z -> G -> Z * G;
  (** The major and the minor version, [None] for [EGL_FALSE]. *)
  eglInitialize : Z -> G -> option (Z * Z) * G;
  eglBindAPI : Z -> G -> G;
  (** The configuration and the number of them, [None] for [EGL_FALSE]. *)
  eglChooseConfig : Z -> list Z -> G -> option (Z * Z) * G;
  (** Display, configuration, shared context, attributes. *)
  eglCreateContext : Z -> Z -> Z -> list Z -> G -> Z * G;
  (** Display, configuration, native window. *)
  eglCreateWindowSurface : Z -> Z -> Z -> G -> Z * G;
  eglGetCurrentContext : G -> Z;
  (** Display, surfaces to draw to and to read from, context. *)
  eglMakeCurrent : Z -> Z -> Z -> Z -> G -> bool * G;
  eglSwapBuffers : Z -> Z -> G -> bool * G;
  eglDestroyContext : Z -> Z -> G -> G;
  eglDestroySurface : Z -> Z -> G -> G;
  eglTerminate : Z -> G -> G;
}.

(** The constants of [EGL/egl.h] the code passes. *)
Definition EGL_NONE : Z := 12344.
Definition EGL_CONTEXT_CLIENT_VERSION : Z := 12440.
Definition EGL_SURFACE_TYPE : Z := 12339.
Definition EGL_WINDOW_BIT : Z := 4.
Definition EGL_RED_SIZE : Z := 12324.
Definition EGL_GREEN_SIZE : Z := 12323.
Definition EGL_BLUE_SIZE : Z := 12322.
Definition EGL_ALPHA_SIZE : Z := 12321.
Definition EGL_DEPTH_SIZE : Z := 12325.
Definition EGL_RENDERABLE_TYPE : Z := 12352.
Definition EGL_OPENGL_ES2_BIT : Z := 4.
Definition EGL_OPENGL_ES_API : Z := 12448.

Definition context_attr : list Z := [EGL_CONTEXT_CLIENT_VERSION; 2; EGL_NONE].

Definition config_attr : list Z :=
  [EGL_SURFACE_TYPE; EGL_WINDOW_BIT; EGL_RED_SIZE; 8; EGL_GREEN_SIZE; 8; EGL_BLUE_SIZE; 8;
   EGL_ALPHA_SIZE; 0; EGL_DEPTH_SIZE; 1; EGL_RENDERABLE_TYPE; EGL_OPENGL_ES2_BIT; EGL_NONE].

Record EGLHelper : Set := mkEgl {
  egl_display : Z;
  egl_config : Z;
  egl_context : Z;
  egl_surface : Z;
  should_terminate_egl : bool;
}.

Definition EGLHelper_new : EGLHelper := mkEgl 0 0 0 0 false.

(** A helper and EGL. *)
Record egl (G : Type) : Type := mkEglState { e_helper : EGLHelper; e_egl : G }.
Arguments mkEglState {G} _ _.
Arguments e_helper {G} _.
Arguments e_egl {G} _.

Section Helper.
Context {G : Type} {eglG : Egl G}.

Definition call {A} (f : G -> A * G) : M (egl G) A := fun s =>
  let '(a, g) := f (e_egl s) in Ret a (mkEglState (e_helper s) g).

Definition call_ (f : G -> G) : M (egl G) unit := modify (fun s => mkEglState (e_helper s) (f (e_egl s))).

Definition helper : M (egl G) EGLHelper := gets e_helper.

Definition set_helper (f : EGLHelper -> EGLHelper) : M (egl G) unit :=
  modify (fun s => mkEglState (f (e_helper s)) (e_egl s)).

Definition set_display (x : Z) (h : EGLHelper) : EGLHelper :=
  mkEgl x (egl_config h) (egl_context h) (egl_surface h) (should_terminate_egl h).
Definition set_config (x : Z) (h : EGLHelper) : EGLHelper :=
  mkEgl (egl_display h) x (egl_context h) (egl_surface h) (should_terminate_egl h).
Definition set_context (x : Z) (h : EGLHelper) : EGLHelper :=
  mkEgl (egl_display h) (egl_config h) x (egl_surface h) (should_terminate_egl h).
Definition set_surface (x : Z) (h : EGLHelper) : EGLHelper :=
  mkEgl (egl_display h) (egl_config h) (egl_context h) x (should_terminate_egl h).
Definition set_terminate (x : bool) (h : EGLHelper) : EGLHelper :=
  mkEgl (egl_display h) (egl_config h) (egl_context h) (egl_surface h) x.

(** The two halves of [setup_internal] after the display is known. *)
Definition initialize_display (dpy : Z) : M (egl G) unit :=
  v ← call (eglInitialize dpy) ;
  match v with
  | None => throw (runtime_error "Failed to initialize EGL display")
  | Some (major, minor) =>
      if negb (major =? 1) || negb (minor =? 4)
      then throw (runtime_error "Incompatible EGL version")
      else set_helper (set_terminate true)
  end.

Definition choose_config (dpy : Z) : M (egl G) unit :=
  call_ (eglBindAPI EGL_OPENGL_ES_API) ;;
  c ← call (eglChooseConfig dpy config_attr) ;
  match c with
  | None => throw (runtime_error "Failed to choose ARGB EGL config")
  | Some (config, num_egl_configs) =>
      set_helper (set_config config) ;;
      if negb (num_egl_configs =? 1) then throw (runtime_error "Failed to choose ARGB EGL config") else mret tt
  end.

Definition setup_internal (gbm_device : Z) (initialize : bool) : M (egl G) unit :=
  dpy ← call (eglGetDisplay gbm_device) ;
  set_helper (set_display dpy) ;;
  if dpy =? 0 then throw (runtime_error "Failed to get EGL display")
  else
    (if initialize then initialize_display dpy else mret tt) ;;
    choose_config dpy.

(** [setup(gbm)]. *)
Definition egl_setup (gbm_device : Z) : M (egl G) unit :=
  setup_internal gbm_device true ;;
  h ← helper ;
  ctx ← call (eglCreateContext (egl_display h) (egl_config h) 0 context_attr) ;
  set_helper (set_context ctx) ;;
  if ctx =? 0 then throw (runtime_error "Failed to create EGL context") else mret tt.

(** [setup(gbm, surface_gbm, shared_context)]. *)
Definition egl_setup_surface (gbm_device surface_gbm shared_context : Z) : M (egl G) unit :=
  setup_internal gbm_device false ;;
  h ← helper ;
  surf ← call (eglCreateWindowSurface (egl_display h) (egl_config h) surface_gbm) ;
  set_helper (set_surface surf) ;;
  if surf =? 0 then throw (runtime_error "Failed to create EGL window surface")
  else
    ctx ← call (eglCreateContext (egl_display h) (egl_config h) shared_context context_attr) ;
    set_helper (set_context ctx) ;;
    if ctx =? 0 then throw (runtime_error "Failed to create EGL context") else mret tt.

(** [~EGLHelper], one part after the other. *)
Definition delete_context (h : EGLHelper) : M (egl G) unit :=
  if egl_context h =? 0 then mret tt
  else
    s ← get ;
    (if eglGetCurrentContext (e_egl s) =? egl_context h
     then _ ← call (eglMakeCurrent (egl_display h) 0 0 0) ; mret tt
     else mret tt) ;;
    call_ (eglDestroyContext (egl_display h) (egl_context h)).

Definition delete_surface (h : EGLHelper) : M (egl G) unit :=
  if egl_surface h =? 0 then mret tt else call_ (eglDestroySurface (egl_display h) (egl_surface h)).

Definition terminate (h : EGLHelper) : M (egl G) unit :=
  if should_terminate_egl h then call_ (eglTerminate (egl_display h)) else mret tt.

Definition EGLHelper_delete : M (egl G) unit :=
  h ← helper ;
  if egl_display h =? 0 then mret tt
  else delete_context h ;; delete_surface h ;; terminate h.

Definition swap_buffers : M (egl G) bool :=
  h ← helper ; call (eglSwapBuffers (egl_display h) (egl_surface h)).

Definition make_current : M (egl G) bool :=
  h ← helper ; call (eglMakeCurrent (egl_display h) (egl_surface h) (egl_surface h) (egl_context h)).

Definition release_current : M (egl G) bool :=
  h ← helper ; call (eglMakeCurrent (egl_display h) 0 0 0).

End Helper.

(** ** What EGL keeps for a client *)

Class EglLaws (G : Type) `{Egl G} : Type := {
  contexts : G -> gset Z;
  surfaces : G -> gset Z;
  initialized : G -> gset Z;
  objects g : gset Z * gset Z * gset Z := (contexts g, surfaces g, initialized g);
  get_display_law n g : objects (snd (eglGetDisplay n g)) = objects g;
  bind_api_law n g : objects (eglBindAPI n g) = objects g;
  choose_config_law n l g : objects (snd (eglChooseConfig n l g)) = objects g;
  make_current_law d a b c g : objects (snd (eglMakeCurrent d a b c g)) = objects g;
  swap_buffers_law d a g : objects (snd (eglSwapBuffers d a g)) = objects g;
  initialize_law d g :
    objects (snd (eglInitialize d g)) =
      (contexts g, surfaces g,
       match fst (eglInitialize d g) with Some _ => {[ d ]} ∪ initialized g | None => initialized g end);
  create_context_law d c sh l g :
    let x := fst (eglCreateContext d c sh l g) in
    objects (snd (eglCreateContext d c sh l g)) =
      (if decide (x = 0) then contexts g else {[ x ]} ∪ contexts g, surfaces g, initialized g);
  create_surface_law d c n g :
    let x := fst (eglCreateWindowSurface d c n g) in
    objects (snd (eglCreateWindowSurface d c n g)) =
      (contexts g, if decide (x = 0) then surfaces g else {[ x ]} ∪ surfaces g, initialized g);
  destroy_context_law d x g :
    objects (eglDestroyContext d x g) = (contexts g ∖ {[ x ]}, surfaces g, initialized g);
  destroy_surface_law d x g :
    objects (eglDestroySurface d x g) = (contexts g, surfaces g ∖ {[ x ]}, initialized g);
  (** Terminating a display also ends what was made on it. *)
  terminate_law d g :
    contexts (eglTerminate d g) ⊆ contexts g /\ surfaces (eglTerminate d g) ⊆ surfaces g /\
    initialized (eglTerminate d g) = initialized g ∖ {[ d ]};
}.

Section HelperLaws.
Context {G : Type} `{EglLaws G}.

(** A handle the helper holds. *)
Definition own (x : Z) : gset Z := if decide (x = 0) then ∅ else {[ x ]}.

(** What there is beyond [g] is what the helper holds. *)
Record owned (g : G) (s : egl G) : Prop := {
  ow_contexts : contexts (e_egl s) ⊆ own (egl_context (e_helper s)) ∪ contexts g;
  ow_surfaces : surfaces (e_egl s) ⊆ own (egl_surface (e_helper s)) ∪ surfaces g;
  ow_initialized : initialized (e_egl s) ⊆
    (if should_terminate_egl (e_helper s) then {[ egl_display (e_helper s) ]} else ∅) ∪ initialized g;
  ow_display : egl_display (e_helper s) = 0 ->
    egl_context (e_helper s) = 0 /\ egl_surface (e_helper s) = 0 /\ should_terminate_egl (e_helper s) = false;
}.

(** Nothing is left beyond [g]. *)
Definition nothing_left (g g' : G) : Prop :=
  contexts g' ⊆ contexts g /\ surfaces g' ⊆ surfaces g /\ initialized g' ⊆ initialized g.

Lemma objects_eq (g : G) c su i : objects g = (c, su, i) -> contexts g = c /\ surfaces g = su /\ initialized g = i.
Proof. unfold objects. intros [= <- <- <-]. done. Qed.

Lemma objects_same (g g' : G) :
  objects g' = objects g -> contexts g' = contexts g /\ surfaces g' = surfaces g /\ initialized g' = initialized g.
Proof. apply objects_eq. Qed.

Lemma owned_same g h x x' : objects x' = objects x -> owned g (mkEglState h x) -> owned g (mkEglState h x').
Proof. intros (E1 & E2 & E3)%objects_same [H1 H2 H3 H4]. split; simpl in *; rewrite ?E1, ?E2, ?E3; done. Qed.

(** A display is set up, and nothing else yet. *)
Definition ready (g : G) (dpy : Z) (s : egl G) : Prop :=
  owned g s /\ egl_display (e_helper s) = dpy /\ egl_context (e_helper s) = 0 /\ egl_surface (e_helper s) = 0.

Lemma wp_call {A} (f : G -> A * G) Q E W s :
  Q (fst (f (e_egl s))) (mkEglState (e_helper s) (snd (f (e_egl s)))) -> wp (call f) Q E W s.
Proof. unfold wp, call. by destruct (f (e_egl s)). Qed.

Definition incompatible : exn := runtime_error "Incompatible EGL version".

Lemma initialize_display_ready g dpy h x :
  dpy <> 0 -> ready g dpy (mkEglState h x) -> should_terminate_egl h = false ->
  wp (initialize_display dpy) (fun _ => ready g dpy) (fun e s => e <> incompatible -> owned g s) (fun _ => False)
    (mkEglState h x).
Proof.
  intros Hd (Hown & Hdpy & Hc & Hs) Ht. unfold initialize_display. apply wp_bind, wp_call.
  pose proof (initialize_law dpy x) as (C & S & I)%objects_eq. cbn [e_egl e_helper].
  destruct (fst (eglInitialize dpy x)) as [[major minor]|].
  - destruct (negb (major =? 1) || negb (minor =? 4)); unfold wp; simpl; [done|].
    destruct Hown as [H1 H2 H3 H4]. simpl in *. rewrite Ht in H3. split; [|done].
    split; simpl; rewrite ?C, ?S, ?I, ?Hdpy; [done|done|set_solver|done].
  - intros _. eapply owned_same; [|exact Hown]. unfold objects. simpl in *. by rewrite C, S, I.
Qed.

Lemma choose_config_ready g dpy s :
  ready g dpy s -> wp (choose_config dpy) (fun _ => ready g dpy) (fun _ => owned g) (fun _ => False) s.
Proof.
  destruct s as [h x]. intros (Hown & Hdpy & Hc & Hs). unfold choose_config. apply wp_bind. unfold wp at 1. simpl.
  apply wp_bind, wp_call. cbn [e_egl e_helper].
  set (x2 := snd _). assert (objects x2 = objects x) as Ho by (subst x2; by rewrite choose_config_law, bind_api_law).
  pose proof (owned_same g h x x2 Ho Hown) as Hown2.
  destruct (fst (eglChooseConfig _ _ _)) as [[config num]|]; [|done].
  assert (owned g (mkEglState (set_config config h) x2)) as Hown3 by (destruct Hown2; by split).
  unfold wp. simpl. destruct (num =? 1); simpl; done.
Qed.

Lemma setup_internal_ready g dev (init : bool) :
  wp (setup_internal dev init) (fun _ s => exists dpy, dpy <> 0 /\ ready g dpy s)
    (fun e s => e <> incompatible -> owned g s) (fun _ => False) (mkEglState EGLHelper_new g).
Proof.
  unfold setup_internal. apply wp_bind, wp_call. apply wp_bind. cbn [e_egl e_helper].
  pose proof (get_display_law dev g) as (C & S & I)%objects_same.
  set (dpy := fst _). set (x := snd _) in *. unfold wp at 1. simpl.
  assert (ready g dpy (mkEglState (set_display dpy EGLHelper_new) x)) as Hr.
  { split; [|done]. split; simpl; rewrite ?C, ?S, ?I; [set_solver..|done]. }
  destruct (Z.eqb_spec dpy 0) as [Hd|Hd]; [intros _; apply Hr|]. apply wp_bind.
  assert (wp (if init then initialize_display dpy else mret tt) (fun _ => ready g dpy)
    (fun e s => e <> incompatible -> owned g s) (fun _ => False)
    (mkEglState (set_display dpy EGLHelper_new) x)) as Hinit.
  { destruct init; [|exact Hr]. by apply initialize_display_ready. }
  eapply wp_mono; [exact Hinit| |done|done]. intros [] s Hs.
  eapply wp_mono; [by apply choose_config_ready|..]; simpl; eauto.
Qed.

Lemma create_context_owned g dpy cfg sh s :
  owned g s -> egl_context (e_helper s) = 0 -> egl_display (e_helper s) <> 0 ->
  wp (ctx ← call (eglCreateContext dpy cfg sh context_attr) ;
      set_helper (set_context ctx) ;;
      if ctx =? 0 then throw (runtime_error "Failed to create EGL context") else mret tt)
    (fun _ => owned g) (fun _ => owned g) (fun _ => False) s.
Proof.
  destruct s as [h x]. intros [H1 H2 H3 H4] Hc Hd. apply wp_bind, wp_call. cbn [e_egl e_helper].
  pose proof (create_context_law dpy cfg sh context_attr x) as (C & S & I)%objects_eq.
  set (ctx := fst _) in *. set (x2 := snd _) in *. simpl in *. rewrite Hc in H1. change (own 0) with (∅ : gset Z) in H1.
  assert (owned g (mkEglState (set_context ctx h) x2)) as Hown.
  { split; simpl; rewrite ?C, ?S, ?I; [|done|done|done]. unfold own. case_decide; set_solver. }
  unfold wp. simpl. by destruct (ctx =? 0).
Qed.

Lemma egl_setup_owned g dev :
  wp (egl_setup dev) (fun _ => owned g) (fun e s => e <> incompatible -> owned g s) (fun _ => False)
    (mkEglState EGLHelper_new g).
Proof.
  unfold egl_setup. apply wp_bind. eapply wp_mono; [apply (setup_internal_ready g)| |done|done].
  intros [] s (dpy & Hd & Hown & Hdpy & Hc & Hs). apply wp_bind. unfold wp at 1. simpl.
  eapply wp_mono; [apply (create_context_owned g)|..]; auto. congruence.
Qed.

Lemma egl_setup_surface_owned g dev native share :
  wp (egl_setup_surface dev native share) (fun _ => owned g) (fun e s => e <> incompatible -> owned g s)
    (fun _ => False) (mkEglState EGLHelper_new g).
Proof.
  unfold egl_setup_surface. apply wp_bind. eapply wp_mono; [apply (setup_internal_ready g)| |done|done].
  intros [] [h x] (dpy & Hd & Hown & Hdpy & Hc & Hs). apply wp_bind. unfold wp at 1. simpl in *.
  apply wp_bind, wp_call. cbn [e_egl e_helper].
  pose proof (create_surface_law (egl_display h) (egl_config h) native x) as (C & S & I)%objects_eq.
  set (surf := fst _) in *. set (x2 := snd _) in *. destruct Hown as [H1 H2 H3 H4]. simpl in *.
  rewrite Hs in H2. change (own 0) with (∅ : gset Z) in H2.
  assert (owned g (mkEglState (set_surface surf h) x2)) as Hown.
  { split; simpl; rewrite ?C, ?S, ?I; [done| |done|]; [unfold own; case_decide; set_solver|].
    intros E. congruence. }
  apply wp_bind. unfold wp at 1. simpl. destruct (surf =? 0); [by intros _|].
  eapply wp_mono; [apply (create_context_owned g)|..]; auto. simpl. congruence.
Qed.

Lemma delete_context_spec h0 h x :
  exists x', delete_context h (mkEglState h0 x) = Ret tt (mkEglState h0 x') /\
    contexts x' = contexts x ∖ own (egl_context h) /\ surfaces x' = surfaces x /\ initialized x' = initialized x.
Proof.
  unfold delete_context, own. destruct (Z.eqb_spec (egl_context h) 0) as [Hc|Hc].
  { exists x. rewrite decide_True by done. by rewrite difference_empty_L. }
  rewrite decide_False by done. unfold get, call, call_, modify, mbind, M_bind. simpl.
  pose proof (make_current_law (egl_display h) 0 0 0 x) as (C & S & I)%objects_same.
  destruct (eglGetCurrentContext x =? egl_context h); simpl.
  - destruct (eglMakeCurrent _ _ _ _ _) as [b x0]. simpl in *. eexists. split; [reflexivity|].
    pose proof (destroy_context_law (egl_display h) (egl_context h) x0) as (-> & -> & ->)%objects_eq.
    by rewrite C, S, I.
  - eexists. split; [reflexivity|]. apply objects_eq, destroy_context_law.
Qed.

Lemma delete_surface_spec h0 h x :
  exists x', delete_surface h (mkEglState h0 x) = Ret tt (mkEglState h0 x') /\
    contexts x' = contexts x /\ surfaces x' = surfaces x ∖ own (egl_surface h) /\ initialized x' = initialized x.
Proof.
  unfold delete_surface, own. destruct (Z.eqb_spec (egl_surface h) 0) as [Hc|Hc].
  { exists x. rewrite decide_True by done. by rewrite difference_empty_L. }
  rewrite decide_False by done. eexists. split; [reflexivity|]. apply objects_eq, destroy_surface_law.
Qed.

Lemma terminate_spec h0 h x :
  exists x', terminate h (mkEglState h0 x) = Ret tt (mkEglState h0 x') /\
    contexts x' ⊆ contexts x /\ surfaces x' ⊆ surfaces x /\
    initialized x' = initialized x ∖ (if should_terminate_egl h then {[ egl_display h ]} else ∅).
Proof.
  unfold terminate. destruct (should_terminate_egl h).
  - eexists. split; [reflexivity|]. apply terminate_law.
  - exists x. by rewrite difference_empty_L.
Qed.

Lemma delete_owned g s :
  owned g s -> exists s', EGLHelper_delete s = Ret tt s' /\ nothing_left g (e_egl s').
Proof.
  destruct s as [h x]. intros [H1 H2 H3 H4]. simpl in *. unfold EGLHelper_delete, helper, gets, mbind, M_bind. simpl.
  destruct (Z.eqb_spec (egl_display h) 0) as [Hd|Hd].
  { destruct (H4 Hd) as (E1 & E2 & E3). eexists. split; [reflexivity|]. unfold nothing_left. simpl.
    rewrite E1 in H1. rewrite E2 in H2. rewrite E3 in H3. change (own 0) with (∅ : gset Z) in *. set_solver. }
  destruct (delete_context_spec h h x) as (x1 & -> & C1 & S1 & I1).
  destruct (delete_surface_spec h h x1) as (x2 & -> & C2 & S2 & I2).
  destruct (terminate_spec h h x2) as (x3 & -> & C3 & S3 & I3).
  eexists. split; [reflexivity|]. unfold nothing_left. simpl. rewrite I3, I2, I1. set_solver.
Qed.

(** The two ways a helper is set up. *)
Inductive egl_use : Set := use_context (dev : Z) | use_surface (dev native share : Z).

Definition setup_of (u : egl_use) : M (egl G) unit :=
  match u with
  | use_context dev => egl_setup dev
  | use_surface dev native share => egl_setup_surface dev native share
  end.

Lemma setup_of_owned g u :
  wp (setup_of u) (fun _ => owned g) (fun e s => e <> incompatible -> owned g s) (fun _ => False)
    (mkEglState EGLHelper_new g).
Proof. destruct u; [apply egl_setup_owned|apply egl_setup_surface_owned]. Qed.

(** Whatever way setting up a helper ends, a failure at any of its steps
    included, the destructor of the helper leaves none of the contexts, surfaces
    and initialized displays it has made.  The one exception is a display of an
    incompatible version: it is initialized, and the exception leaves before the
    helper notes that it has to terminate it. *)
Theorem egl_setup_releases g u :
  match setup_of u (mkEglState EGLHelper_new g) with
  | Ret _ s => exists s', EGLHelper_delete s = Ret tt s' /\ nothing_left g (e_egl s')
  | Throw e s => e <> incompatible -> exists s', EGLHelper_delete s = Ret tt s' /\ nothing_left g (e_egl s')
  | Wait _ | Undef => False
  end.
Proof.
  pose proof (setup_of_owned g u) as Hw. unfold wp in Hw.
  destruct (setup_of u (mkEglState EGLHelper_new g)) as [[] s|e s|s|]; [|..|done|done].
  - by apply delete_owned.
  - intros He. by apply delete_owned, Hw.
Qed.

(** A display of another version than 1.4 stays initialized: [setup] throws,
    and the destructor does not call [eglTerminate]. *)
Theorem incompatible_display_stays g dev major minor :
  fst (eglGetDisplay dev g) <> 0 ->
  fst (eglInitialize (fst (eglGetDisplay dev g)) (snd (eglGetDisplay dev g))) = Some (major, minor) ->
  major <> 1 \/ minor <> 4 ->
  exists s s', egl_setup dev (mkEglState EGLHelper_new g) = Throw incompatible s /\
    EGLHelper_delete s = Ret tt s' /\ fst (eglGetDisplay dev g) ∈ initialized (e_egl s').
Proof.
  intros Hd Hi Hv. set (dpy := fst (eglGetDisplay dev g)) in *. set (x := snd (eglGetDisplay dev g)) in *.
  set (x2 := snd (eglInitialize dpy x)).
  exists (mkEglState (set_display dpy EGLHelper_new) x2), (mkEglState (set_display dpy EGLHelper_new) x2).
  split; [|split].
  - unfold egl_setup, setup_internal, initialize_display, call, set_helper, modify, mbind, M_bind. simpl.
    rewrite (surjective_pairing (eglGetDisplay dev g)). fold dpy x. simpl.
    destruct (Z.eqb_spec dpy 0) as [|_]; [done|]. simpl.
    rewrite (surjective_pairing (eglInitialize dpy x)), Hi. fold x2.
    assert (negb (major =? 1) || negb (minor =? 4) = true) as -> by lia. done.
  - unfold EGLHelper_delete, helper, gets, mbind, M_bind. simpl. by destruct (Z.eqb_spec dpy 0).
  - simpl. pose proof (initialize_law dpy x) as (_ & _ & I)%objects_eq. fold x2 in I. rewrite I, Hi. set_solver.
Qed.

End HelperLaws.
