(* ===== verification/AndroidDisplay.v ===== *)
(** * The Android display

    [src/server/graphics/android/]: [AndroidFramebufferWindow]
    ([android_framebuffer_window.cpp]), [AndroidDisplay]
    ([android_display.cpp]), [HWCDisplay] ([hwc_display.cpp]) over the interface
    [HWCDevice], [AndroidFBFactory] ([android_fb_factory.cpp]) and
    [AndroidDisplaySelector] ([android_display_selector.cpp]), which
    [AndroidPlatform] uses to make its display ([android_platform.cpp]).

    EGL is the class of [Egl] with the calls only this platform makes. *)

From S2P Require Import Prelude Geometry Buffers Swapper Bundle AndroidBuffers Egl.

Class AndroidEgl (G : Type) `{Egl G} : Type := {
  (** How many configurations there are. *)
  eglGetConfigs : Z -> G -> Z * G;
  (** The configurations that match, of which there is room for so many. *)
  eglChooseConfigs : Z -> list Z -> Z -> G -> list Z * G;
  eglGetConfigAttrib : Z -> Z -> Z -> G -> Z;
  eglCreatePbufferSurface : Z -> Z -> list Z -> G -> Z * G;
  eglQuerySurface : Z -> Z -> Z -> G -> Z;
  glClearBuffers : G -> G;
}.

Definition EGL_WIDTH : Z := 12375.
Definition EGL_HEIGHT : Z := 12374.
Definition EGL_NATIVE_VISUAL_ID : Z := 12334.

Definition default_egl_context_attr : list Z := [EGL_CONTEXT_CLIENT_VERSION; 2; EGL_NONE].

Definition default_egl_config_attr : list Z :=
  [EGL_SURFACE_TYPE; EGL_WINDOW_BIT; EGL_RENDERABLE_TYPE; EGL_OPENGL_ES2_BIT; EGL_NONE].

(** An [ANativeWindow]: its pointer, and what it answers to
    [NATIVE_WINDOW_FORMAT]. *)
Record NativeWindow : Set := mkWindow { native_window : Z; window_format : Z }.

Record AndroidDisplay : Set := mkAndroidDisplay {
  ad_display : Z;
  ad_config : Z;
  ad_context : Z;
  ad_surface : Z;
  ad_context_shared : Z;
  ad_surface_dummy : Z;
}.

Section Display.
Context {G : Type} {eglG : Egl G} {androidG : AndroidEgl G}.

Definition egl_call {A} (f : G -> A * G) : M G A := fun g => let '(a, g') := f g in Ret a g'.

(** [AndroidFramebufferWindow::android_display_egl_config]. *)
Definition android_display_egl_config (window : NativeWindow) (display : Z) : M G Z :=
  num_potential_configs ← egl_call (eglGetConfigs display) ;
  config_slots ← egl_call (eglChooseConfigs display default_egl_config_attr num_potential_configs) ;
  g ← get ;
  match List.find (fun current => eglGetConfigAttrib display current EGL_NATIVE_VISUAL_ID g =? window_format window) config_slots with
  | None => throw (runtime_error "could not select EGL config for use with framebuffer")
  | Some config => mret config
  end.

Definition no_handle (handle : Z) (what : string) : M G unit :=
  if handle =? 0 then throw (runtime_error (what +:+ newline)) else mret tt.

(** The constructor, from the configuration on. *)
Definition create_surfaces (window : NativeWindow) (display : Z) : M G AndroidDisplay :=
  config ← android_display_egl_config window display ;
  surface ← egl_call (eglCreateWindowSurface display config (native_window window)) ;
  no_handle surface "could not create egl surface" ;;
  context_shared ← egl_call (eglCreateContext display config 0 default_egl_context_attr) ;
  no_handle context_shared "could not create egl context dummy" ;;
  context ← egl_call (eglCreateContext display config context_shared default_egl_context_attr) ;
  no_handle context "could not create egl context" ;;
  surface_dummy ← egl_call (eglCreatePbufferSurface display config [EGL_WIDTH; 1; EGL_HEIGHT; 1; EGL_NONE]) ;
  no_handle surface_dummy "could not create dummy egl surface" ;;
  current ← egl_call (eglMakeCurrent display surface_dummy surface_dummy context_shared) ;
  if negb current then throw (runtime_error ("could not activate dummy surface with eglMakeCurrent" +:+ newline))
  else mret (mkAndroidDisplay display config context surface context_shared surface_dummy).

Definition AndroidDisplay_new (window : NativeWindow) : M G AndroidDisplay :=
  display ← egl_call (eglGetDisplay 0) ;
  no_handle display "eglGetDisplay failed" ;;
  version ← egl_call (eglInitialize display) ;
  match version with
  | None => throw (runtime_error ("eglInitialize failure" +:+ newline))
  | Some (major, minor) =>
      if negb (major =? 1) || negb (minor =? 4) then throw (runtime_error ("must have EGL 1.4" +:+ newline))
      else create_surfaces window display
  end.

Definition AndroidDisplay_delete (d : AndroidDisplay) : M G unit :=
  modify (eglDestroyContext (ad_display d) (ad_context d)) ;;
  modify (eglDestroySurface (ad_display d) (ad_surface d)) ;;
  modify (eglDestroyContext (ad_display d) (ad_context_shared d)) ;;
  modify (eglDestroySurface (ad_display d) (ad_surface_dummy d)) ;;
  modify (eglTerminate (ad_display d)).

Definition android_view_area (d : AndroidDisplay) : M G Rectangle :=
  g ← get ;
  let display_width := eglQuerySurface (ad_display d) (ad_surface d) EGL_WIDTH g in
  let display_height := eglQuerySurface (ad_display d) (ad_surface d) EGL_HEIGHT g in
  mret (mkRectangle (mkPoint (wrap 0) (wrap 0)) (mkSize (wrap display_width) (wrap display_height))).

Definition android_clear : M G unit := modify glClearBuffers.

Definition android_post_update (d : AndroidDisplay) : M G bool :=
  egl_call (eglSwapBuffers (ad_display d) (ad_surface d)).

Definition android_make_current (d : AndroidDisplay) : M G unit :=
  ok ← egl_call (eglMakeCurrent (ad_display d) (ad_surface d) (ad_surface d) (ad_context d)) ;
  if negb ok then throw (runtime_error ("could not activate surface with eglMakeCurrent" +:+ newline)) else mret tt.

(** ** With a hardware composer *)

(** [HWCDevice]. *)
Class HWCDevice (D : Type) : Type := {
  commit_frame : M D unit;
  wait_for_vsync : M D unit;
}.

(** [HWCDisplay::post_update], on EGL and a device. *)
Definition hwc_post_update {D} `{HWCDevice D} (d : AndroidDisplay) : M (G * D) bool :=
  rc ← zoom (Lens fst (fun g p => (g, snd p))) (android_post_update d) ;
  zoom (Lens snd (fun dev p => (fst p, dev))) commit_frame ;;
  zoom (Lens snd (fun dev p => (fst p, dev))) wait_for_vsync ;;
  mret rc.

(** ** Which display *)

(** What the pointer [hwc_device] is after [open]: not set, null, or a device of
    some version. *)
Inductive hwc_pointer : Set := hwc_unset | hwc_null | hwc_device (version : Z).

(** [hw_get_module(HWC_HARDWARE_MODULE_ID)] and the module's [open]. *)
Class HwcModule : Type := {
  hw_get_hwc_module : G -> Z * G;
  hwc_open : G -> (Z * hwc_pointer) * G;
}.

(** [HARDWARE_DEVICE_API_VERSION_2(1, 1, HWC_HEADER_VERSION)]. *)
Definition HWC_DEVICE_API_VERSION_1_1 : Z := 16842753.

Inductive primary_fb : Set := gpu_display | hwc1_1_gpu_display.

(** The constructor of [AndroidDisplaySelector]; reading the pointer before it
    is set is undefined. *)
Definition AndroidDisplaySelector_new `{HwcModule} : M G primary_fb :=
  rc ← egl_call hw_get_hwc_module ;
  if negb (rc =? 0) then mret gpu_display
  else
    '(rc, device) ← egl_call hwc_open ;
    match device with
    | hwc_unset => undefined
    | hwc_null => mret gpu_display
    | hwc_device version =>
        if (rc =? 0) && (version =? HWC_DEVICE_API_VERSION_1_1) then mret hwc1_1_gpu_display else mret gpu_display
    end.

(** [FBFactory] and [primary_display]: both displays are made on a new window of
    the framebuffer. *)
Definition primary_display (framebuffer_window : G -> NativeWindow * G) (fb : primary_fb)
    : M G (primary_fb * AndroidDisplay) :=
  window ← egl_call framebuffer_window ;
  d ← AndroidDisplay_new window ;
  mret (fb, d).

(** [AndroidPlatform::create_display]. *)
Definition create_display `{HwcModule} (framebuffer_window : G -> NativeWindow * G) : M G (primary_fb * AndroidDisplay) :=
  fb ← AndroidDisplaySelector_new ;
  primary_display framebuffer_window fb.

End Display.

Arguments HwcModule : clear implicits.

(** ** Theorems *)

Class AndroidEglLaws (G : Type) `{EglLaws G} `{!AndroidEgl G} : Prop := {
  get_configs_law d g : objects (snd (eglGetConfigs d g)) = objects g;
  choose_configs_law d l n g : objects (snd (eglChooseConfigs d l n g)) = objects g;
  pbuffer_law d c l g :
    let x := fst (eglCreatePbufferSurface d c l g) in
    objects (snd (eglCreatePbufferSurface d c l g)) =
      (contexts g, if decide (x = 0) then surfaces g else {[ x ]} ∪ surfaces g, initialized g);
}.

Section DisplayLaws.
Context {G : Type} `{AndroidEglLaws G}.
Implicit Types g : G.

(** What has been made on display [dpy] since [g]. *)
Definition made g (dpy : Z) (cs ss : gset Z) g' : Prop :=
  contexts g' = cs ∪ contexts g /\ surfaces g' = ss ∪ surfaces g /\ initialized g' = {[ dpy ]} ∪ initialized g.

Lemma made_same g dpy cs ss g1 g2 : objects g2 = objects g1 -> made g dpy cs ss g1 -> made g dpy cs ss g2.
Proof. intros (E1 & E2 & E3)%objects_same (H1' & H2' & H3'). unfold made. by rewrite E1, E2, E3. Qed.

Lemma wp_egl_call {A} (f : G -> A * G) Q E W g : Q (fst (f g)) (snd (f g)) -> wp (egl_call f) Q E W g.
Proof. unfold wp, egl_call. by destruct (f g). Qed.

(** The first configuration, of those that match, with the window's format. *)
Lemma config_spec window dpy g :
  let g1 := snd (eglGetConfigs dpy g) in
  let r := eglChooseConfigs dpy default_egl_config_attr (fst (eglGetConfigs dpy g)) g1 in
  let fits c := eglGetConfigAttrib dpy c EGL_NATIVE_VISUAL_ID (snd r) = window_format window in
  match android_display_egl_config window dpy g with
  | Ret c g' => g' = snd r /\ exists l1 l2, fst r = l1 ++ c :: l2 /\ fits c /\ Forall (fun c' => ~ fits c') l1
  | Throw e g' => g' = snd r /\ e = runtime_error "could not select EGL config for use with framebuffer" /\
      Forall (fun c' => ~ fits c') (fst r)
  | _ => False
  end.
Proof.
  intros g1 r fits. unfold android_display_egl_config, egl_call, get, mbind, M_bind.
  destruct (eglGetConfigs dpy g) as [n g1'] eqn:E1. simpl in *. subst g1.
  destruct (eglChooseConfigs dpy default_egl_config_attr n g1') as [l g2] eqn:E2. simpl in *.
  assert (forall l', match List.find (fun c => eglGetConfigAttrib dpy c EGL_NATIVE_VISUAL_ID g2 =? window_format window) l' with
    | Some c => exists l1 l2, l' = l1 ++ c :: l2 /\ fits c /\ Forall (fun c' => ~ fits c') l1
    | None => Forall (fun c' => ~ fits c') l' end) as Hfind.
  { induction l' as [|c l' IH]; simpl; [done|]. destruct (Z.eqb_spec (eglGetConfigAttrib dpy c EGL_NATIVE_VISUAL_ID g2) (window_format window)).
    - by exists [], l'.
    - destruct (List.find _ l') as [c'|].
      + destruct IH as (l1 & l2 & -> & ? & ?). exists (c :: l1), l2. split; [done|]. split; [done|]. by constructor.
      + by constructor. }
  specialize (Hfind l). destruct (List.find _ l) as [c|]; simpl; auto.
Qed.

Lemma config_objects window dpy g :
  match android_display_egl_config window dpy g with
  | Ret _ g' | Throw _ g' => objects g' = objects g
  | _ => False
  end.
Proof.
  pose proof (config_spec window dpy g) as Hc.
  destruct (android_display_egl_config window dpy g) as [c g'|e g'| |]; try done;
    destruct Hc as [-> _]; by rewrite choose_configs_law, get_configs_law.
Qed.

(** The exceptions before the display is initialised. *)
Definition early (e : exn) : Prop :=
  e = runtime_error ("eglGetDisplay failed" +:+ newline) \/ e = runtime_error ("eglInitialize failure" +:+ newline).

(** How a failed constructor leaves EGL. *)
Definition left_behind g (e : exn) g' : Prop :=
  (early e /\ objects g' = objects g) \/
  (~ early e /\ exists cs ss, made g (fst (eglGetDisplay 0 g)) cs ss g').

Lemma wp_no_handle x what (Q : unit -> G -> Prop) E W g :
  (x <> 0 -> Q tt g) -> (x = 0 -> E (runtime_error (what +:+ newline)) g) -> wp (no_handle x what) Q E W g.
Proof. intros HQ HE. unfold wp, no_handle. destruct (Z.eqb_spec x 0); [by apply HE|by apply HQ]. Qed.

(** Everything made so far stays. *)
Definition stays g (dpy : Z) (e : exn) g' : Prop := ~ early e /\ exists cs ss, made g dpy cs ss g'.

Lemma wp_create_context {A} g dpy cs ss g1 d c sh l what (k : Z -> M G A) Q :
  made g dpy cs ss g1 -> ~ early (runtime_error (what +:+ newline)) ->
  (forall x g2, made g dpy ({[ x ]} ∪ cs) ss g2 -> wp (k x) Q (stays g dpy) (fun _ => False) g2) ->
  wp (x ← egl_call (eglCreateContext d c sh l) ; no_handle x what ;; k x) Q (stays g dpy) (fun _ => False) g1.
Proof.
  intros (M1 & M2 & M3) He Hk. apply wp_bind, wp_egl_call. set (x := fst _).
  pose proof (create_context_law d c sh l g1) as (C & S & I)%objects_eq. fold x in C, S, I.
  set (g2 := snd _) in *. apply wp_bind, wp_no_handle; intros Hx.
  - apply Hk. rewrite decide_False in C by done. split; [rewrite C, M1; set_solver|]. by rewrite S, I, M2, M3.
  - split; [done|]. exists cs, ss. rewrite decide_True in C by done. unfold made. by rewrite C, S, I, M1, M2, M3.
Qed.

Lemma wp_create_surface {A} g dpy cs ss g1 (f : G -> Z * G) what (k : Z -> M G A) Q :
  objects (snd (f g1)) =
    (contexts g1, if decide (fst (f g1) = 0) then surfaces g1 else {[ fst (f g1) ]} ∪ surfaces g1, initialized g1) ->
  made g dpy cs ss g1 -> ~ early (runtime_error (what +:+ newline)) ->
  (forall x g2, made g dpy cs ({[ x ]} ∪ ss) g2 -> wp (k x) Q (stays g dpy) (fun _ => False) g2) ->
  wp (x ← egl_call f ; no_handle x what ;; k x) Q (stays g dpy) (fun _ => False) g1.
Proof.
  intros (C & S & I)%objects_eq (M1 & M2 & M3) He Hk. apply wp_bind, wp_egl_call. set (x := fst _) in *.
  set (g2 := snd _) in *. apply wp_bind, wp_no_handle; intros Hx.
  - apply Hk. rewrite decide_False in S by done. split; [by rewrite C, M1|]. split; [rewrite S, M2; set_solver|].
    by rewrite I, M3.
  - split; [done|]. exists cs, ss. rewrite decide_True in S by done. unfold made. by rewrite C, S, I, M1, M2, M3.
Qed.

(** The constructor's second half: what it makes is in the members, and stays
    when it throws. *)
Lemma create_surfaces_spec window dpy g g0 :
  made g dpy ∅ ∅ g0 ->
  wp (create_surfaces window dpy)
    (fun d g' => ad_display d = dpy /\
       made g dpy {[ ad_context d; ad_context_shared d ]} {[ ad_surface_dummy d; ad_surface d ]} g')
    (stays g dpy) (fun _ => False) g0.
Proof.
  intros M0. unfold create_surfaces. apply wp_bind. pose proof (config_objects window dpy g0) as Hc. unfold wp at 1.
  pose proof (config_spec window dpy g0) as Hs.
  destruct (android_display_egl_config window dpy g0) as [config g1|e g1| |]; try done;
    pose proof (made_same _ _ _ _ _ _ Hc M0) as M1.
  2: { destruct Hs as (_ & -> & _). split; [by intros [|]|eauto]. }
  eapply wp_create_surface; [apply create_surface_law|exact M1|by intros [|]|]. intros surface g2 M2.
  eapply wp_create_context; [exact M2|by intros [|]|]. intros shared g3 M3.
  eapply wp_create_context; [exact M3|by intros [|]|]. intros context g4 M4.
  eapply wp_create_surface; [apply pbuffer_law|exact M4|by intros [|]|]. intros dummy g5 M5.
  apply wp_bind, wp_egl_call. pose proof (made_same _ _ _ _ _ _ (make_current_law dpy dummy dummy shared g5) M5) as M6.
  destruct (fst (eglMakeCurrent dpy dummy dummy shared g5)).
  - split; [done|]. simpl. rewrite !(right_id_L ∅ (∪)) in M6. exact M6.
  - split; [by intros [|]|eauto].
Qed.

Lemma display_new_spec window g :
  let dpy := fst (eglGetDisplay 0 g) in
  wp (AndroidDisplay_new window)
    (fun d g' => ad_display d = dpy /\
       made g dpy {[ ad_context d; ad_context_shared d ]} {[ ad_surface_dummy d; ad_surface d ]} g')
    (fun e g' => (early e /\ objects g' = objects g) \/ stays g dpy e g') (fun _ => False) g.
Proof.
  intros dpy. unfold AndroidDisplay_new. apply wp_bind, wp_egl_call. fold dpy.
  pose proof (get_display_law 0 g) as O1. set (g1 := snd (eglGetDisplay 0 g)) in *.
  apply wp_bind, wp_no_handle; intros Hd; [|left; split; [by left|done]].
  apply wp_bind, wp_egl_call. pose proof (initialize_law dpy g1) as (C & S & I)%objects_eq.
  set (g2 := snd (eglInitialize dpy g1)) in *.
  destruct (objects_same _ _ O1) as (C1 & S1 & I1).
  destruct (fst (eglInitialize dpy g1)) as [[major minor]|].
  - assert (made g dpy ∅ ∅ g2) as M0.
    { unfold made. rewrite C, S, I, C1, S1, I1. split; [set_solver|]. split; set_solver. }
    destruct (negb (major =? 1) || negb (minor =? 4)).
    + right. split; [by intros [|]|eauto].
    + eapply wp_mono; [by apply create_surfaces_spec|auto..].
  - left. split; [by right|]. unfold objects. by rewrite C, S, I, C1, S1, I1.
Qed.

(** A display that was made takes down everything it has made; but its
    constructor, when it throws after initialising EGL, takes down nothing: the
    display stays initialised, and the surfaces and contexts made so far stay,
    since the destructor does not run. *)
Theorem android_display_accounting window g :
  match AndroidDisplay_new window g with
  | Ret d g' => exists g'', AndroidDisplay_delete d g' = Ret tt g'' /\ nothing_left g g''
  | Throw e g' =>
      (early e /\ objects g' = objects g) \/
      (~ early e /\ fst (eglGetDisplay 0 g) ∈ initialized g' /\
       contexts g ⊆ contexts g' /\ surfaces g ⊆ surfaces g')
  | _ => False
  end.
Proof.
  pose proof (display_new_spec window g) as Hs. unfold wp in Hs.
  destruct (AndroidDisplay_new window g) as [d g'|e g'| |]; try done.
  - destruct Hs as [Hd (M1 & M2 & M3)]. eexists. split; [reflexivity|]. rewrite <- Hd in M3. cbv zeta.
    set (g1 := eglDestroyContext _ _ g'). set (g2 := eglDestroySurface _ _ g1).
    set (g3 := eglDestroyContext _ _ g2). set (g4 := eglDestroySurface _ _ g3).
    destruct (objects_eq _ _ _ _ (destroy_context_law (ad_display d) (ad_context d) g')) as (A1 & A2 & A3).
    destruct (objects_eq _ _ _ _ (destroy_surface_law (ad_display d) (ad_surface d) g1)) as (B1 & B2 & B3).
    destruct (objects_eq _ _ _ _ (destroy_context_law (ad_display d) (ad_context_shared d) g2)) as (D1 & D2 & D3).
    destruct (objects_eq _ _ _ _ (destroy_surface_law (ad_display d) (ad_surface_dummy d) g3)) as (F1 & F2 & F3).
    destruct (terminate_law (ad_display d) g4) as (T1 & T2 & T3).
    fold g1 in A1, A2, A3. fold g2 in B1, B2, B3. fold g3 in D1, D2, D3. fold g4 in F1, F2, F3.
    unfold nothing_left. rewrite T3, F3, D3, B3, A3, M3. rewrite F1, D1, B1, A1, M1 in T1. rewrite F2, D2, B2, A2, M2 in T2.
    split; [set_solver|]. split; set_solver.
  - destruct Hs as [Hs|[He (cs & ss & M1 & M2 & M3)]]; [by left|]. right. rewrite M1, M2, M3. set_solver.
Qed.

End DisplayLaws.
