(* ===== verification/Hwc.v ===== *)
(** * The hardware composer

    [graphics::android::HWC11Device]
    ([src/server/graphics/android/hwc11_device.cpp]): its life cycle and frames
    over an interface of the composer, and the threads that wait for the vertical
    synchronisation while the composer's thread reports it. *)

From S2P Require Import Prelude Egl AndroidDisplay.

(** ** The device *)

(** [hwc_display_contents_1_t]. *)
Record contents : Set := mkContents { numHwLayers : Z; retireFenceFd : Z }.

Class HwcComposer (W : Type) : Type := {
  (** The hooks, which hold a pointer to the device. *)
  registerProcs : Z -> W -> W;
  (** Display, event, whether to enable it. *)
  eventControl : Z -> Z -> bool -> W -> Z * W;
  (** Display, whether to blank it. *)
  blank : Z -> bool -> W -> Z * W;
  (** How many displays, and the array of their contents. *)
  hwc_set : Z -> list contents -> W -> Z * W;
}.

Definition HWC_EVENT_VSYNC : Z := 0.
Definition HWC_DISPLAY_PRIMARY : Z := 0.
Definition HWC_NUM_DISPLAY_TYPES : Z := 2.

Section Device.
Context {W : Type} {composer : HwcComposer W}.

Definition composer_call {A} (f : W -> A * W) : M W A := fun w => let '(a, w') := f w in Ret a w'.

(** The constructor of the device at address [self]. *)
Definition HWC11Device_new (self : Z) : M W unit :=
  modify (registerProcs self) ;;
  rc ← composer_call (eventControl 0 HWC_EVENT_VSYNC true) ;
  if negb (rc =? 0) then throw (runtime_error "could not enable hwc vsync notifications")
  else
    rc ← composer_call (blank HWC_DISPLAY_PRIMARY false) ;
    if negb (rc =? 0) then throw (runtime_error "could not blank display") else mret tt.

Definition HWC11Device_delete : M W unit :=
  _ ← composer_call (blank HWC_DISPLAY_PRIMARY true) ;
  _ ← composer_call (eventControl 0 HWC_EVENT_VSYNC false) ;
  mret tt.

(** The array has one element. *)
Definition hwc11_commit_frame : M W unit :=
  rc ← composer_call (hwc_set HWC_NUM_DISPLAY_TYPES [mkContents 0 (-1)]) ;
  if negb (rc =? 0) then throw (runtime_error "error during hwc set()") else mret tt.

End Device.

(** [EmptyHWC], the device [AndroidFBFactory] uses. *)
#[export] Instance EmptyHWC : HWCDevice unit := { commit_frame := mret tt; wait_for_vsync := mret tt }.

(** ** Waiting for the vertical synchronisation *)

(** A thread in [wait_for_vsync]: in [vsync_trigger.wait], woken and about to
    take the mutex again, or past the call; and how often the composer has
    reported since the call began. *)
Inductive wait_phase : Set := w_sleeping | w_awake | w_finished.

Record waiter : Set := mkWaiter { wt_phase : wait_phase; wt_vsyncs : nat }.

Record vsync : Set := mkVsync {
  vsync_occurred : bool;
  waiters : gmap nat waiter;
}.

Definition vsync_new : vsync := mkVsync false ∅.

(** [notify_vsync]. *)
Definition hear (w : waiter) : waiter :=
  match wt_phase w with
  | w_finished => w
  | _ => mkWaiter w_awake (S (wt_vsyncs w))
  end.

Definition notify_vsync (s : vsync) : vsync := mkVsync true (hear <$> waiters s).

(** [wait_for_vsync] up to the first [wait], and the part after a [wait]. *)
Definition wait_for_vsync_begin (t : nat) (s : vsync) : vsync :=
  mkVsync false (<[t := mkWaiter w_sleeping 0]> (waiters s)).

Definition wait_for_vsync_turn (t n : nat) (s : vsync) : vsync :=
  mkVsync (vsync_occurred s)
    (<[t := mkWaiter (if vsync_occurred s then w_finished else w_sleeping) n]> (waiters s)).

Definition at_rest (o : option waiter) : Prop :=
  match o with Some w => wt_phase w = w_finished | None => True end.

(** One step; [begins] tells whether threads may begin to wait. *)
Inductive vsync_step (begins : bool) : vsync -> vsync -> Prop :=
| step_vsync s : vsync_step begins s (notify_vsync s)
| step_wait t s : begins = true -> at_rest (waiters s !! t) -> vsync_step begins s (wait_for_vsync_begin t s)
| step_wake_up t n s :
    waiters s !! t = Some (mkWaiter w_sleeping n) ->
    vsync_step begins s (mkVsync (vsync_occurred s) (<[t := mkWaiter w_awake n]> (waiters s)))
| step_turn t n s :
    waiters s !! t = Some (mkWaiter w_awake n) -> vsync_step begins s (wait_for_vsync_turn t n s).

Inductive vsync_steps (begins : bool) : vsync -> vsync -> Prop :=
| vs_refl s : vsync_steps begins s s
| vs_cons s1 s2 s3 : vsync_step begins s1 s2 -> vsync_steps begins s2 s3 -> vsync_steps begins s1 s3.

(** When the flag is set, every thread that waits has a report since it
    began; so has every thread that has finished. *)
Record vsync_inv (s : vsync) : Prop := {
  vi_flag t w : vsync_occurred s = true -> waiters s !! t = Some w -> (0 < wt_vsyncs w)%nat;
  vi_done t n : waiters s !! t = Some (mkWaiter w_finished n) -> (0 < n)%nat;
}.

Lemma vsync_step_inv b s s' : vsync_inv s -> vsync_step b s s' -> vsync_inv s'.
Proof.
  intros [Hf Hd] Hst. inversion Hst as [s0|t s0 Hb Hr|t n s0 Ht|t n s0 Ht]; subst; split; simpl.
  - intros t w _. rewrite lookup_fmap. destruct (waiters s !! t) as [[[] n]|] eqn:E; simpl; intros [= <-]; simpl; [lia..|].
    by eapply Hd.
  - intros t n. rewrite lookup_fmap. destruct (waiters s !! t) as [[[] m]|] eqn:E; simpl; intros [= <-]. by eapply Hd.
  - done.
  - intros t' n [[<- [= ]]|[_ H']]%lookup_insert_Some. by eapply Hd.
  - intros t' w Hv [[<- <-]|[_ H']]%lookup_insert_Some; [exact (Hf t _ Hv Ht)|by eapply Hf].
  - intros t' m [[<- [= ]]|[_ H']]%lookup_insert_Some. by eapply Hd.
  - intros t' w Hv [[<- <-]|[_ H']]%lookup_insert_Some; [exact (Hf t _ Hv Ht)|by eapply Hf].
  - intros t' m [[<- E]|[_ H']]%lookup_insert_Some; [|by eapply Hd]. destruct (vsync_occurred s) eqn:Ev; [|done].
    injection E as <-. exact (Hf t _ eq_refl Ht).
Qed.

Lemma vsync_steps_inv b s s' : vsync_inv s -> vsync_steps b s s' -> vsync_inv s'.
Proof. intros Hi Hst. induction Hst; eauto using vsync_step_inv. Qed.

Lemma vsync_new_inv : vsync_inv vsync_new.
Proof. split; simpl; [done|]. by intros t n; rewrite lookup_empty. Qed.

(** The flag is set and the thread awake or past the call. *)
Definition will_return (t : nat) (s : vsync) : Prop :=
  vsync_occurred s = true /\ exists w, waiters s !! t = Some w /\ wt_phase w <> w_sleeping.

Lemma will_return_step t s s' : will_return t s -> vsync_step false s s' -> will_return t s'.
Proof.
  intros [Hv (w & Hw & Hp)] Hst. inversion Hst as [s0|u s0 Hb Hr|u n s0 Hu|u n s0 Hu]; subst; [|done|..]; split; simpl; try done.
  - rewrite lookup_fmap, Hw. simpl. eexists. split; [done|]. unfold hear. by destruct (wt_phase w) eqn:E; rewrite ?E.
  - destruct (decide (u = t)) as [->|Hne]; [rewrite Hw in Hu; injection Hu as ->; done|].
    exists w. by rewrite lookup_insert_ne.
  - destruct (decide (u = t)) as [->|Hne].
    + rewrite lookup_insert_eq. eexists. split; [done|]. simpl. by rewrite Hv.
    + exists w. by rewrite lookup_insert_ne.
Qed.

(** [wait_for_vsync] returns only after a report of the composer that came
    after the call, whatever threads wait and however they are scheduled.  And
    once the composer reports, a thread that waits returns when it gets the
    mutex, as long as no thread begins to wait in between. *)
Theorem vsync_wait_ends s t w :
  vsync_steps true vsync_new s -> waiters s !! t = Some w ->
  (wt_phase w = w_finished -> (0 < wt_vsyncs w)%nat) /\
  (wt_phase w <> w_finished ->
   forall s', vsync_steps false (notify_vsync s) s' ->
     exists w', waiters s' !! t = Some w' /\
       (wt_phase w' = w_finished \/
        exists s'', vsync_step false s' s'' /\ wt_phase <$> waiters s'' !! t = Some w_finished)).
Proof.
  intros Hst Hw. pose proof (vsync_steps_inv _ _ _ vsync_new_inv Hst) as Hi. split.
  - intros Hp. destruct w as [p n]. simpl in *. subst p. by eapply (vi_done _ Hi).
  - intros Hp s' Hst'.
    assert (will_return t (notify_vsync s)) as Hr.
    { split; [done|]. simpl. rewrite lookup_fmap, Hw. simpl. eexists. split; [done|]. unfold hear.
      by destruct (wt_phase w). }
    assert (will_return t s') as (Hv & w' & Hw' & Hp') by (induction Hst'; eauto using will_return_step).
    exists w'. split; [done|]. destruct w' as [[] n]; simpl in *; [done| |by left]. right.
    exists (wait_for_vsync_turn t n s'). split; [by apply step_turn|]. simpl. rewrite lookup_insert_eq. simpl. by rewrite Hv.
Qed.

(** The flag is shared by all threads that wait: if another thread begins to
    wait after the report and before a woken thread has the mutex again, it
    resets the flag, and the woken thread goes back to sleep although the
    composer has reported since it began. *)
Theorem second_waiter_resets s t u n :
  vsync_steps true vsync_new s -> t <> u -> at_rest (waiters s !! u) ->
  waiters s !! t = Some (mkWaiter w_sleeping n) ->
  exists s', vsync_steps true (notify_vsync s) s' /\
    waiters s' !! t = Some (mkWaiter w_sleeping (S n)).
Proof.
  intros _ Hne Hu Ht. set (s1 := notify_vsync s). set (s2 := wait_for_vsync_begin u s1).
  exists (wait_for_vsync_turn t (S n) s2). split.
  - apply (vs_cons _ _ s2); [apply step_wait; [done|]|].
    + simpl. rewrite lookup_fmap. destruct (waiters s !! u) as [w|]; [|done]. simpl in *. unfold hear. by rewrite Hu.
    + apply (vs_cons _ _ (wait_for_vsync_turn t (S n) s2)); [|constructor]. apply step_turn. simpl.
      rewrite lookup_insert_ne by done. by rewrite lookup_fmap, Ht.
  - simpl. by rewrite lookup_insert_eq.
Qed.

(** ** What the composer keeps *)

Class HwcComposerLaws (W : Type) `{HwcComposer W} : Type := {
  hooks : W -> Z;
  vsync_enabled : W -> bool;
  register_law self w :
    hooks (registerProcs self w) = self /\ vsync_enabled (registerProcs self w) = vsync_enabled w;
  event_control_law enabled w :
    let '(rc, w') := eventControl 0 HWC_EVENT_VSYNC enabled w in
    hooks w' = hooks w /\ vsync_enabled w' = if rc =? 0 then enabled else vsync_enabled w;
  blank_law disp b w :
    hooks (snd (blank disp b w)) = hooks w /\ vsync_enabled (snd (blank disp b w)) = vsync_enabled w;
}.

Section DeviceLaws.
Context {W : Type} `{HwcComposerLaws W}.

(** The life of the device.  Once it is made, vertical synchronisation is
    reported to it; a constructor that throws because the display cannot be
    unblanked leaves the reports on and the hooks pointing to the device that
    does not exist.  The destructor turns the reports off if the composer agrees;
    the hooks keep pointing to the device. *)
Theorem hwc_device_life self (w : W) :
  match HWC11Device_new self w with
  | Ret _ w1 => hooks w1 = self /\ vsync_enabled w1 = true /\
      exists w2, HWC11Device_delete w1 = Ret tt w2 /\ hooks w2 = self /\
        vsync_enabled w2 = negb (fst (eventControl 0 HWC_EVENT_VSYNC false (snd (blank HWC_DISPLAY_PRIMARY true w1))) =? 0)
  | Throw e w1 => hooks w1 = self /\
      (e = runtime_error "could not blank display" /\ vsync_enabled w1 = true \/
       e = runtime_error "could not enable hwc vsync notifications" /\ vsync_enabled w1 = vsync_enabled w)
  | _ => False
  end.
Proof.
  unfold HWC11Device_new, HWC11Device_delete, composer_call, mbind, M_bind. simpl.
  destruct (register_law self w) as [R1 R2]. set (w0 := registerProcs self w) in *.
  pose proof (event_control_law true w0) as E1. destruct (eventControl 0 HWC_EVENT_VSYNC true w0) as [rc1 w1].
  destruct E1 as [E1 E1']. destruct (rc1 =? 0); simpl; [|split; [congruence|right; split; congruence]].
  pose proof (blank_law HWC_DISPLAY_PRIMARY false w1) as [B1 B2].
  destruct (blank HWC_DISPLAY_PRIMARY false w1) as [rc2 w2]. simpl in *.
  destruct (rc2 =? 0); simpl; [|split; [congruence|left; split; congruence]].
  split; [congruence|]. split; [congruence|].
  pose proof (blank_law HWC_DISPLAY_PRIMARY true w2) as [D1 D2].
  destruct (blank HWC_DISPLAY_PRIMARY true w2) as [rc3 w3]. simpl in *.
  pose proof (event_control_law false w3) as F1. destruct (eventControl 0 HWC_EVENT_VSYNC false w3) as [rc4 w4].
  destruct F1 as [F1 F2]. eexists. split; [reflexivity|]. split; [congruence|]. simpl. rewrite F2.
  destruct (rc4 =? 0); simpl; congruence.
Qed.

End DeviceLaws.

(** ** On concrete runs *)

Definition demo_waiters : vsync := mkVsync false {[ 1%nat := mkWaiter w_sleeping 0 ]}.

Lemma demo_waiters_reached : vsync_steps true vsync_new demo_waiters.
Proof. apply (vs_cons _ _ demo_waiters); [|constructor]. by apply (step_wait true 1). Qed.

Lemma vsync_wait_ends_witness :
  exists w', waiters (notify_vsync demo_waiters) !! 1%nat = Some w' /\
    (wt_phase w' = w_finished \/
     exists s'', vsync_step false (notify_vsync demo_waiters) s'' /\ wt_phase <$> waiters s'' !! 1%nat = Some w_finished).
Proof.
  apply (proj2 (vsync_wait_ends demo_waiters 1 (mkWaiter w_sleeping 0) demo_waiters_reached eq_refl)); [done|].
  constructor.
Defined.

Lemma second_waiter_resets_witness :
  exists s', vsync_steps true (notify_vsync demo_waiters) s' /\ waiters s' !! 1%nat = Some (mkWaiter w_sleeping 1).
Proof. exact (second_waiter_resets demo_waiters 1 2 0 demo_waiters_reached ltac:(lia) Logic.I eq_refl). Defined.

(** A composer that cannot unblank its display. *)
Record demo_composer : Set := mkComposer { dc_hooks : Z; dc_vsync : bool }.

#[export] Instance demo_hwc_composer : HwcComposer demo_composer := {
  registerProcs self w := mkComposer self (dc_vsync w);
  eventControl _ _ enabled w := (0, mkComposer (dc_hooks w) enabled);
  blank _ b w := (if b then 0 else -5, w);
  hwc_set _ _ w := (0, w);
}.

#[export, refine] Instance demo_composer_laws : HwcComposerLaws demo_composer := {
  hooks := dc_hooks; vsync_enabled := dc_vsync;
}.
Proof. all: done. Defined.

Lemma hwc_device_life_witness :
  match HWC11Device_new 77 (mkComposer 0 false) with
  | Throw e w1 => hooks w1 = 77 /\
      (e = runtime_error "could not blank display" /\ vsync_enabled w1 = true \/
       e = runtime_error "could not enable hwc vsync notifications" /\ vsync_enabled w1 = false)
  | _ => False
  end.
Proof. exact (hwc_device_life 77 (mkComposer 0 false)). Defined.
