(* ===== verification/GbmPlatform.v ===== *)
(** * The GBM platform

    [DRMHelper] and [GBMHelper]
    ([src/server/graphics/gbm/gbm_display_helpers.cpp]) and
    [graphics::gbm::GBMPlatform] ([gbm_platform.cpp]): opening the DRM device,
    handing authenticated descriptors to clients, and giving all of it back. *)

From S2P Require Import Prelude.

(** The calls of libdrm and GBM; a device or surface of GBM is a pointer, zero
    is null. *)
Class DrmAccess (K : Type) : Type := {
  drmOpen : string -> K -> Z * K;
  drmClose : Z -> K -> K;
  close : Z -> K -> K;
  (** The return value and the magic cookie. *)
  drmGetMagic : Z -> K -> (Z * Z) * K;
  drmAuthMagic : Z -> Z -> K -> Z * K;
  gbm_create_device : Z -> K -> Z * K;
  gbm_device_destroy : Z -> K -> K;
  (** Device, width, height, format, flags. *)
  gbm_surface_create : Z -> Z -> Z -> Z -> Z -> K -> Z * K;
}.

(** The constants of [gbm.h]. *)
Definition GBM_BO_FORMAT_XRGB8888 : Z := 0.
Definition GBM_BO_USE_SCANOUT : Z := 1.
Definition GBM_BO_USE_RENDERING : Z := 4.

Section Helpers.
Context {K : Type} {access : DrmAccess K}.

Definition sys {A} (f : K -> A * K) : M K A := fun k => let '(a, k') := f k in Ret a k'.

(** ** [DRMHelper]: its descriptor, -1 before [setup] *)

Definition DRMHelper : Set := Z.

Definition DRMHelper_new : DRMHelper := -1.

Definition drivers : list string := ["i915"; "radeon"; "nouveau"]%string.

(** The loop of [open_drm_device]. *)
Fixpoint open_first (l : list string) (tmp_fd : Z) : M K Z :=
  match l with
  | [] => mret tmp_fd
  | driver :: l' => if tmp_fd <? 0 then fd ← sys (drmOpen driver) ; open_first l' fd else mret tmp_fd
  end.

Definition open_drm_device : M K Z :=
  tmp_fd ← open_first drivers (-1) ;
  if tmp_fd <? 0 then throw (errno_error "Problem opening DRM device" (- tmp_fd)) else mret tmp_fd.

(** [DRMHelper::setup]: the new value of [fd]. *)
Definition drm_setup : M K DRMHelper :=
  fd ← open_drm_device ;
  if fd <? 0 then throw (runtime_error "Failed to open DRM device") else mret fd.

Definition get_authenticated_fd (drm : DRMHelper) : M K Z :=
  if drm <? 0
  then throw (runtime_error "Tried to get authenticated DRM fd before setting up the DRM master")
  else
    auth_fd ← open_drm_device ;
    if auth_fd <? 0 then throw (runtime_error "Failed to open DRM device for authenticated fd")
    else
      '(ret, magic) ← sys (drmGetMagic auth_fd) ;
      if ret <? 0 then
        modify (close auth_fd) ;;
        throw (errno_error "Failed to get DRM device magic cookie" ret)
      else
        ret ← sys (drmAuthMagic drm magic) ;
        if ret <? 0 then
          modify (close auth_fd) ;;
          throw (errno_error "Failed to authenticate DRM device magic cookie" ret)
        else mret auth_fd.

Definition auth_magic (drm : DRMHelper) (magic : Z) : M K unit :=
  if drm <? 0
  then throw (runtime_error "Tried to authenticate magic cookie before setting up the DRM master")
  else
    ret ← sys (drmAuthMagic drm magic) ;
    if ret <? 0 then throw (errno_error "Failed to authenticate DRM device magic cookie" ret) else mret tt.

(** [~DRMHelper]. *)
Definition DRMHelper_delete (drm : DRMHelper) : M K unit :=
  if 0 <=? drm then modify (drmClose drm) else mret tt.

(** ** [GBMHelper]: its device *)

Definition GBMHelper : Set := Z.

Definition gbm_setup (drm : DRMHelper) : M K GBMHelper :=
  device ← sys (gbm_create_device drm) ;
  if device =? 0 then throw (runtime_error "Failed to create GBM device") else mret device.

Definition create_scanout_surface (device : GBMHelper) (width height : Z) : M K Z :=
  surface ← sys (gbm_surface_create device width height GBM_BO_FORMAT_XRGB8888
                   (Z.lor GBM_BO_USE_SCANOUT GBM_BO_USE_RENDERING)) ;
  if surface =? 0 then throw (runtime_error "Failed to create GBM scanout surface") else mret surface.

(** [~GBMHelper]. *)
Definition GBMHelper_delete (device : GBMHelper) : M K unit :=
  if device =? 0 then mret tt else modify (gbm_device_destroy device).

(** ** [GBMPlatform] *)

Record GBMPlatform : Set := mkPlatform { platform_drm : DRMHelper; platform_gbm : GBMHelper }.

(** The constructor; when it throws, the members made so far are destroyed. *)
Definition GBMPlatform_new : M K GBMPlatform :=
  drm ← drm_setup ;
  try_catch
    (gbm ← gbm_setup drm ; mret (mkPlatform drm gbm))
    (fun e => DRMHelper_delete drm ;; throw e).

(** Destroying it: [gbm] is the later member. *)
Definition GBMPlatform_delete (p : GBMPlatform) : M K unit :=
  GBMHelper_delete (platform_gbm p) ;; DRMHelper_delete (platform_drm p).

(** [GBMPlatformIPCPackage]: its descriptors. *)
Definition get_ipc_package (p : GBMPlatform) : M K (list Z) :=
  fd ← get_authenticated_fd (platform_drm p) ; mret [fd].

Definition ipc_package_delete (ipc_fds : list Z) : M K unit :=
  match ipc_fds with
  | fd :: _ => if 0 <=? fd then modify (drmClose fd) else mret tt
  | [] => mret tt
  end.

Definition drm_auth_magic (p : GBMPlatform) (magic : Z) : M K unit := auth_magic (platform_drm p) magic.

End Helpers.

(** ** What the kernel and GBM keep *)

Class DrmAccessLaws (K : Type) `{DrmAccess K} : Type := {
  open_fds : K -> gset Z;
  devices : K -> gset Z;
  (** The descriptors whose magic cookie a master has accepted. *)
  authenticated : K -> gset Z;
  cookie : Z -> K -> Z;
  open_law s k :
    let '(fd, k') := drmOpen s k in
    devices k' = devices k /\ authenticated k' = authenticated k /\
    (if fd <? 0 then open_fds k' = open_fds k
     else (fd ∉ open_fds k) /\ (fd ∉ authenticated k) /\ open_fds k' = {[ fd ]} ∪ open_fds k);
  drm_close_law fd k :
    open_fds (drmClose fd k) = open_fds k ∖ {[ fd ]} /\ devices (drmClose fd k) = devices k /\
    authenticated (drmClose fd k) = authenticated k ∖ {[ fd ]};
  close_law fd k :
    open_fds (close fd k) = open_fds k ∖ {[ fd ]} /\ devices (close fd k) = devices k /\
    authenticated (close fd k) = authenticated k ∖ {[ fd ]};
  get_magic_law fd k :
    let '((ret, magic), k') := drmGetMagic fd k in
    open_fds k' = open_fds k /\ devices k' = devices k /\ authenticated k' = authenticated k /\
    (0 <= ret -> cookie fd k' = magic);
  (** A cookie authenticates the open descriptors that have it. *)
  auth_magic_law master magic k :
    let '(ret, k') := drmAuthMagic master magic k in
    open_fds k' = open_fds k /\ devices k' = devices k /\
    (if ret <? 0 then authenticated k' = authenticated k
     else forall fd, fd ∈ authenticated k' <->
       fd ∈ authenticated k \/ (fd ∈ open_fds k /\ cookie fd k = magic));
  create_device_law fd k :
    let '(dev, k') := gbm_create_device fd k in
    open_fds k' = open_fds k /\ authenticated k' = authenticated k /\
    (if dev =? 0 then devices k' = devices k else (dev ∉ devices k) /\ devices k' = {[ dev ]} ∪ devices k);
  destroy_device_law dev k :
    open_fds (gbm_device_destroy dev k) = open_fds k /\
    authenticated (gbm_device_destroy dev k) = authenticated k /\
    devices (gbm_device_destroy dev k) = devices k ∖ {[ dev ]};
}.

Section Accounting.
Context {K : Type} `{DrmAccessLaws K}.

(** The kernel holds the same descriptors and devices. *)
Definition same_access (k k' : K) : Prop := open_fds k' = open_fds k /\ devices k' = devices k.

(** One more descriptor, [fd], which is new. *)
Definition one_more (k : K) (fd : Z) (k' : K) : Prop :=
  0 <= fd /\ (fd ∉ open_fds k) /\ open_fds k' = {[ fd ]} ∪ open_fds k /\ devices k' = devices k.

Lemma open_first_spec l fd0 k :
  fd0 < 0 ->
  exists fd k', open_first l fd0 k = Ret fd k' /\ (if fd <? 0 then same_access k k' else one_more k fd k').
Proof.
  revert fd0 k. induction l as [|s l IH]; intros fd0 k Hfd0; cbn [open_first].
  { exists fd0, k. split; [done|]. by destruct (Z.ltb_spec fd0 0); [|lia]. }
  destruct (Z.ltb_spec fd0 0); [|lia]. unfold sys, mbind, M_bind.
  pose proof (open_law s k) as Hlaw. destruct (drmOpen s k) as [fd k1].
  destruct Hlaw as (Hd & _ & Hlaw). destruct (Z.ltb_spec fd 0) as [Hneg|Hpos].
  - destruct (IH fd k1 Hneg) as (fd' & k2 & -> & Hres). exists fd', k2. split; [done|].
    destruct (fd' <? 0); unfold same_access, one_more in *; by rewrite <- Hlaw, <- Hd.
  - exists fd, k1. destruct Hlaw as (? & _ & ?). destruct (Z.ltb_spec fd 0); [lia|]. split; [|done].
    destruct l; [done|]. cbn [open_first]. by destruct (Z.ltb_spec fd 0); [lia|].
Qed.

Lemma open_drm_device_spec k :
  match open_drm_device k with
  | Ret fd k' => one_more k fd k'
  | Throw _ k' => same_access k k'
  | Wait _ | Undef => False
  end.
Proof.
  unfold open_drm_device, mbind, M_bind.
  destruct (open_first_spec drivers (-1) k) as (fd & k' & -> & Hres); [lia|]. by destruct (fd <? 0).
Qed.

Lemma closed_again k fd k1 k2 :
  one_more k fd k1 -> open_fds k2 = open_fds k1 ∖ {[ fd ]} -> devices k2 = devices k1 -> same_access k k2.
Proof. intros (_ & Hn & Ho & Hd) Ho2 Hd2. split; [rewrite Ho2, Ho|congruence]. set_solver. Qed.

Lemma one_more_same k fd k1 k2 : one_more k fd k1 -> same_access k1 k2 -> one_more k fd k2.
Proof. intros (Hp & Hn & Ho & Hd) [Ho2 Hd2]. repeat split; congruence || done. Qed.

(** An authenticated descriptor is new and authenticated, or there is none. *)
Lemma get_authenticated_fd_spec drm k :
  match get_authenticated_fd drm k with
  | Ret fd k' => one_more k fd k' /\ fd ∈ authenticated k'
  | Throw _ k' => same_access k k'
  | Wait _ | Undef => False
  end.
Proof.
  unfold get_authenticated_fd. destruct (drm <? 0); [done|]. unfold sys, modify, mbind, M_bind.
  pose proof (open_drm_device_spec k) as Ho. destruct (open_drm_device k) as [fd k1|e k1|k1|]; try done.
  destruct (Z.ltb_spec fd 0) as [Hneg|_]; [destruct Ho; lia|].
  pose proof (get_magic_law fd k1) as Hm. destruct (drmGetMagic fd k1) as [[ret magic] k2].
  destruct Hm as (Hf2 & Hd2 & _ & Hmagic).
  assert (one_more k fd k2) as Ho2 by (by eapply one_more_same).
  destruct (Z.ltb_spec ret 0).
  { destruct (close_law fd k2) as (? & ? & _). by eapply closed_again. }
  pose proof (auth_magic_law drm magic k2) as Ha. destruct (drmAuthMagic drm magic k2) as [ret2 k3].
  destruct Ha as (Hf3 & Hd3 & Ha). assert (one_more k fd k3) as Ho3 by (by eapply one_more_same).
  destruct (ret2 <? 0).
  { destruct (close_law fd k3) as (? & ? & _). by eapply closed_again. }
  split; [done|]. apply Ha. right. split; [|auto]. destruct Ho2 as (_ & _ & -> & _). set_solver.
Qed.

(** Descriptors and devices are given back.  Making a platform opens one
    descriptor and one device, or throws and leaves neither; a package for a
    client adds one new descriptor that is authenticated with the master, or
    throws and adds none, and is closed with the package; destroying the
    platform closes what making it opened. *)
Theorem platform_gives_back k :
  match GBMPlatform_new k with
  | Ret p k1 =>
      one_more k (platform_drm p) (gbm_device_destroy (platform_gbm p) k1) /\
      (match get_ipc_package p k1 with
       | Ret fds k2 => exists fd, fds = [fd] /\ one_more k1 fd k2 /\ fd ∈ authenticated k2 /\
           exists k3, ipc_package_delete fds k2 = Ret tt k3 /\ same_access k1 k3
       | Throw _ k2 => same_access k1 k2
       | Wait _ | Undef => False
       end) /\
      exists k4, GBMPlatform_delete p k1 = Ret tt k4 /\ same_access k k4
  | Throw _ k1 => same_access k k1
  | Wait _ | Undef => False
  end.
Proof.
  unfold GBMPlatform_new, drm_setup, gbm_setup, try_catch, sys, mbind, M_bind.
  pose proof (open_drm_device_spec k) as Ho. destruct (open_drm_device k) as [fd k1|e k1|k1|]; try done.
  destruct (Z.ltb_spec fd 0) as [Hneg|Hpos]; [destruct Ho; lia|]. simpl.
  pose proof (create_device_law fd k1) as Hc. destruct (gbm_create_device fd k1) as [dev k2].
  destruct Hc as (Hf & _ & Hc). destruct (Z.eqb_spec dev 0) as [Hdev|Hdev]; simpl.
  { unfold DRMHelper_delete. destruct (Z.leb_spec 0 fd); [|lia]. simpl.
    destruct (drm_close_law fd k2) as (? & ? & _). eapply (closed_again k fd k2); [|done|done].
    by eapply one_more_same. }
  destruct Hc as [Hnew Hdevs]. destruct (destroy_device_law dev k2) as (Hf3 & _ & Hd3).
  assert (one_more k fd (gbm_device_destroy dev k2)) as Ho3.
  { eapply one_more_same; [exact Ho|]. split; [congruence|]. rewrite Hd3, Hdevs. set_solver. }
  split; [done|]. split.
  - unfold get_ipc_package, mbind, M_bind. pose proof (get_authenticated_fd_spec fd k2) as Ha. simpl.
    destruct (get_authenticated_fd fd k2) as [fd2 k3|e k3|k3|]; try done. destruct Ha as [Ha Hauth].
    exists fd2. split; [done|]. split; [done|]. split; [done|]. unfold ipc_package_delete.
    destruct (Z.leb_spec 0 fd2); [|destruct Ha; lia]. eexists. split; [reflexivity|].
    destruct (drm_close_law fd2 k3) as (? & ? & _). by eapply closed_again.
  - unfold GBMPlatform_delete, GBMHelper_delete, DRMHelper_delete, mbind, M_bind. simpl.
    destruct (Z.eqb_spec dev 0); [done|]. simpl. destruct (Z.leb_spec 0 fd); [|lia].
    eexists. split; [reflexivity|]. destruct (drm_close_law fd (gbm_device_destroy dev k2)) as (? & ? & _).
    by eapply closed_again.
Qed.

End Accounting.
