(* ===== verification/GbmDisplay.v ===== *)
(** * GBM display buffers and the GBM display

    [graphics::gbm::KMSOutputContainer] ([kms_output_container.cpp]),
    [GBMDisplayBuffer] with its [BufferObject]s ([gbm_display_buffer.cpp]) and
    [GBMDisplay] ([gbm_display.cpp]), under [src/server/graphics/gbm/].

    The outputs are shared by the container, which never drops one, and the
    display buffer: they are named by their connector.  A [BufferObject] is the
    user data of its [gbm_bo] and is named by it. *)

From Stdlib Require Import String.
From S2P Require Import Prelude Geometry Drm KmsOutput DisplayConfig Egl GbmPlatform.

(** The calls of GBM on a surface, and those of GL and EGL the display buffer
    makes itself. *)
Class GbmSurface (G : Type) : Type := {
  gbm_surface_lock_front_buffer : Z -> G -> option Z * G;
  gbm_surface_release_buffer : Z -> Z -> G -> G;
  gbm_surface_destroy : Z -> G -> G;
  gbm_bo_get_handle : Z -> G -> Z;
  gbm_bo_get_stride : Z -> G -> Z;
  glClear : G -> G;
  egl_extensions : G -> option string;
  gl_extensions : G -> option string;
}.

(** The kernel's device, the outputs, and the user-space graphics libraries. *)
Record world (D G : Type) : Type := mkWorld {
  w_device : D;
  w_outputs : gmap Z KMSOutput;
  w_gbm : G;
}.
Arguments mkWorld {D G} _ _ _.
Arguments w_device {D G} _.
Arguments w_outputs {D G} _.
Arguments w_gbm {D G} _.

Record GBMDisplayBuffer : Set := mkDisplayBuffer {
  last_flipped_bufobj : option Z;
  db_outputs : list Z;
  surface_gbm : Z;
  db_egl : EGLHelper;
  db_size : Size;
  (** The framebuffer of each [gbm_bo] that has a [BufferObject]. *)
  bufobjs : gmap Z Z;
}.

Record display (D G : Type) : Type := mkDisplay {
  s_buffer : GBMDisplayBuffer;
  s_world : world D G;
}.
Arguments mkDisplay {D G} _ _.
Arguments s_buffer {D G} _.
Arguments s_world {D G} _.

Definition set_last (bo : option Z) (b : GBMDisplayBuffer) : GBMDisplayBuffer :=
  mkDisplayBuffer bo (db_outputs b) (surface_gbm b) (db_egl b) (db_size b) (bufobjs b).
Definition set_egl (h : EGLHelper) (b : GBMDisplayBuffer) : GBMDisplayBuffer :=
  mkDisplayBuffer (last_flipped_bufobj b) (db_outputs b) (surface_gbm b) h (db_size b) (bufobjs b).
Definition add_bufobj (bo fb : Z) (b : GBMDisplayBuffer) : GBMDisplayBuffer :=
  mkDisplayBuffer (last_flipped_bufobj b) (db_outputs b) (surface_gbm b) (db_egl b) (db_size b) (<[bo := fb]> (bufobjs b)).

Section Display.
Context {D G : Type} {drm : Drm D} {flipper : PageFlipper D}.
Context {eglG : Egl G} {surfaceG : GbmSurface G} {accessG : DrmAccess G}.

Definition world_device : lens (world D G) D := Lens w_device (fun d w => mkWorld d (w_outputs w) (w_gbm w)).
Definition world_gbm : lens (world D G) G := Lens w_gbm (fun g w => mkWorld (w_device w) (w_outputs w) g).
Definition to_world : lens (display D G) (world D G) := Lens s_world (fun w s => mkDisplay (s_buffer s) w).
Definition to_egl : lens (display D G) (egl G) :=
  Lens (fun s => mkEglState (db_egl (s_buffer s)) (w_gbm (s_world s)))
       (fun e s => mkDisplay (set_egl (e_helper e) (s_buffer s))
                     (mkWorld (w_device (s_world s)) (w_outputs (s_world s)) (e_egl e))).

Definition gbm {A} (f : G -> A * G) : M (display D G) A := zoom to_world (zoom world_gbm (sys f)).
Definition gbm_ (f : G -> G) : M (display D G) unit := zoom to_world (zoom world_gbm (modify f)).
Definition update_buffer (f : GBMDisplayBuffer -> GBMDisplayBuffer) : M (display D G) unit :=
  modify (fun s => mkDisplay (f (s_buffer s)) (s_world s)).

(** ** The container of outputs *)

(** Run a member function of the output of a connector. *)
Definition with_output {A} (id : Z) (m : M (kms D) A) : M (world D G) A := fun w =>
  match w_outputs w !! id with
  | None => Undef
  | Some o =>
      let back s := mkWorld (k_device s) (<[id := k_output s]> (w_outputs w)) (w_gbm w) in
      match m (mkKms o (w_device w)) with
      | Ret a s => Ret a (back s)
      | Throw e s => Throw e (back s)
      | Wait s => Wait (back s)
      | Undef => Undef
      end
  end.

Definition get_kms_output_for (connector_id : Z) : M (world D G) Z :=
  w ← get ;
  match w_outputs w !! connector_id with
  | None =>
      output ← zoom world_device (KMSOutput_new connector_id) ;
      modify (fun w => mkWorld (w_device w) (<[connector_id := output]> (w_outputs w)) (w_gbm w)) ;;
      mret connector_id
  | Some _ =>
      with_output connector_id reset ;;
      mret connector_id
  end.

(** ** [GBMDisplayBuffer] *)

Definition bufobj_release (bo : Z) : M (display D G) unit :=
  s ← get ; gbm_ (gbm_surface_release_buffer (surface_gbm (s_buffer s)) bo).

Definition get_front_buffer_object : M (display D G) (option Z) :=
  s ← get ;
  let b := s_buffer s in
  bo ← gbm (gbm_surface_lock_front_buffer (surface_gbm b)) ;
  match bo with
  | None => mret None
  | Some bo =>
      match bufobjs b !! bo with
      | Some _ => mret (Some bo)
      | None =>
          g ← gets (fun s => w_gbm (s_world s)) ;
          '(ret, fb_id) ← zoom to_world (zoom world_device (fun d =>
            let '(r, d') := drmModeAddFB (as_uint32_t (size_width (db_size b))) (as_uint32_t (size_height (db_size b)))
                              24 32 (gbm_bo_get_stride bo g) (gbm_bo_get_handle bo g) d in Ret r d')) ;
          if negb (ret =? 0) then
            gbm_ (gbm_surface_release_buffer (surface_gbm b) bo) ;;
            mret None
          else
            update_buffer (add_bufobj bo fb_id) ;;
            mret (Some bo)
      end
  end.

(** [bufobj->get_drm_fb_id()]. *)
Definition get_drm_fb_id (bo : Z) : M (display D G) Z := deref (fun s => bufobjs (s_buffer s) !! bo).

(** The first loop of [schedule_and_wait_for_page_flip]. *)
Fixpoint schedule_flips (outs : list Z) (fb_id page_flips_pending : Z) : M (display D G) Z :=
  match outs with
  | [] => mret page_flips_pending
  | id :: outs' =>
      b ← zoom to_world (with_output id (schedule_page_flip fb_id)) ;
      schedule_flips outs' fb_id (if b : bool then page_flips_pending + 1 else page_flips_pending)
  end.

Definition schedule_and_wait_for_page_flip (bo : Z) : M (display D G) bool :=
  s ← get ;
  fb_id ← get_drm_fb_id bo ;
  page_flips_pending ← schedule_flips (db_outputs (s_buffer s)) fb_id 0 ;
  if page_flips_pending =? 0 then mret false
  else
    for_each (db_outputs (s_buffer s)) (fun id => zoom to_world (with_output id wait_for_page_flip)) ;;
    mret true.

Definition post_update : M (display D G) bool :=
  swapped ← zoom to_egl swap_buffers ;
  if negb swapped then mret false
  else
    bufobj ← get_front_buffer_object ;
    match bufobj with
    | None => mret false
    | Some bo =>
        flipped ← schedule_and_wait_for_page_flip bo ;
        if negb flipped then
          bufobj_release bo ;;
          mret false
        else
          s ← get ;
          (match last_flipped_bufobj (s_buffer s) with
           | Some last => bufobj_release last
           | None => mret tt
           end) ;;
          update_buffer (set_last (Some bo)) ;;
          mret true
    end.

Definition db_make_current : M (display D G) unit :=
  ok ← zoom to_egl make_current ;
  if negb ok then throw (runtime_error "Failed to make EGL surface current") else mret tt.

Definition clear : M (display D G) unit := gbm_ glClear.

Definition db_view_area (b : GBMDisplayBuffer) : Rectangle := mkRectangle (mkPoint (wrap 0) (wrap 0)) (db_size b).

(** [ext_string.find(name) != npos]. *)
Definition contains (name ext_string : string) : bool :=
  match String.index 0 name ext_string with Some _ => true | None => false end.

Definition ensure_egl_image_extensions : M (display D G) unit :=
  g ← gets (fun s => w_gbm (s_world s)) ;
  if negb (contains "EGL_MESA_drm_image" (default "" (egl_extensions g)))
  then throw (runtime_error "EGL implementation doesn't support EGL_MESA_drm_image extension")
  else if negb (contains "GL_OES_EGL_image" (default "" (gl_extensions g)))
  then throw (runtime_error "GLES2 implementation doesn't support GL_OES_EGL_image extension")
  else mret tt.

(** The loop over the outputs in the constructor. *)
Definition set_output_crtc (bo id : Z) : M (display D G) unit :=
  fb_id ← get_drm_fb_id bo ;
  ok ← zoom to_world (with_output id (set_crtc fb_id)) ;
  if negb ok then throw (runtime_error "Failed to set DRM crtc") else mret tt.

(** The body of the constructor. *)
Definition construct (gbm_device shared_context : Z) : M (display D G) unit :=
  s ← get ;
  zoom to_egl (egl_setup_surface gbm_device (surface_gbm (s_buffer s)) shared_context) ;;
  db_make_current ;;
  ensure_egl_image_extensions ;;
  clear ;;
  swapped ← zoom to_egl swap_buffers ;
  if negb swapped then throw (runtime_error "Failed to perform initial surface buffer swap")
  else
    bufobj ← get_front_buffer_object ;
    update_buffer (set_last bufobj) ;;
    match bufobj with
    | None => throw (runtime_error "Failed to get frontbuffer")
    | Some bo =>
        for_each (db_outputs (s_buffer s)) (set_output_crtc bo) ;;
        _ ← zoom to_egl release_current ;
        mret tt
    end.

(** [~BufferObject], which GBM calls for the user data of a buffer. *)
Definition BufferObject_delete (fb_id : Z) : M (display D G) unit :=
  if fb_id =? 0 then mret tt else zoom to_world (zoom world_device (modify (drmModeRmFB fb_id))).

(** The members, in reverse order: the EGL helper, and the surface with the
    user data of its buffers. *)
Definition delete_members : M (display D G) unit :=
  zoom to_egl EGLHelper_delete ;;
  s ← get ;
  for_each (map_to_list (bufobjs (s_buffer s))).*2 BufferObject_delete ;;
  gbm_ (gbm_surface_destroy (surface_gbm (s_buffer s))).

(** The constructor; an exception destroys the members. *)
Definition GBMDisplayBuffer_new (gbm_device : Z) (outputs : list Z) (surface : Z) (size : Size)
    (shared_context : Z) : M (world D G) GBMDisplayBuffer := fun w =>
  let init := mkDisplay (mkDisplayBuffer None outputs surface EGLHelper_new size ∅) w in
  match try_catch (construct gbm_device shared_context) (fun e => delete_members ;; throw e) init with
  | Ret _ s => Ret (s_buffer s) (s_world s)
  | Throw e s => Throw e (s_world s)
  | Wait s => Wait (s_world s)
  | Undef => Undef
  end.

(** [~GBMDisplayBuffer]. *)
Definition GBMDisplayBuffer_delete : M (display D G) unit :=
  s ← get ;
  (match last_flipped_bufobj (s_buffer s) with
   | Some bo => bufobj_release bo
   | None => mret tt
   end) ;;
  delete_members.

(** ** [GBMDisplay] *)

Record GBMDisplay : Set := mkGbmDisplay {
  shared_egl : EGLHelper;
  display_buffers : list GBMDisplayBuffer;
}.

Record gbm_display : Type := mkGD {
  gd_display : GBMDisplay;
  gd_world : world D G;
}.

Definition gd_to_world : lens gbm_display (world D G) := Lens gd_world (fun w s => mkGD (gd_display s) w).

Definition gd_to_egl : lens gbm_display (egl G) :=
  Lens (fun s => mkEglState (shared_egl (gd_display s)) (w_gbm (gd_world s)))
       (fun e s => mkGD (mkGbmDisplay (e_helper e) (display_buffers (gd_display s)))
                     (mkWorld (w_device (gd_world s)) (w_outputs (gd_world s)) (e_egl e))).

(** Destroy a display buffer. *)
Definition delete_buffer (b : GBMDisplayBuffer) : M (world D G) unit := fun w =>
  match GBMDisplayBuffer_delete (mkDisplay b w) with
  | Ret _ s => Ret tt (s_world s)
  | Throw e s => Throw e (s_world s)
  | Wait s => Wait (s_world s)
  | Undef => Undef
  end.

(** [display_buffers.clear()]. *)
Definition clear_buffers : M gbm_display unit :=
  s ← get ;
  for_each (display_buffers (gd_display s)) (fun b => zoom gd_to_world (delete_buffer b)) ;;
  modify (fun s => mkGD (mkGbmDisplay (shared_egl (gd_display s)) []) (gd_world s)).

(** The first loop of [configure]: the outputs that are enabled. *)
Fixpoint enable_outputs (conf outs : KMSDisplayConfiguration) (enabled : list Z) : M (world D G) (list Z) :=
  match outs with
  | [] => mret enabled
  | conf_output :: outs' =>
      connector_id ← get_kms_connector_id conf (conf_id conf_output) ;
      output ← get_kms_output_for connector_id ;
      enable_outputs conf outs' (if connected conf_output then enabled ++ [output] else enabled)
  end.

(** The second one: the size of the largest output. *)
Fixpoint largest (outs : list Z) (max_size : Size) : M (world D G) Size :=
  match outs with
  | [] => mret max_size
  | id :: outs' =>
      sz ← with_output id size ;
      let width := if dim_gtb (size_width sz) (size_width max_size) then size_width sz else size_width max_size in
      let height := if dim_gtb (size_height sz) (size_height max_size) then size_height sz else size_height max_size in
      largest outs' (mkSize width height)
  end.

Definition configure (p : GBMPlatform) (conf : KMSDisplayConfiguration) : M gbm_display unit :=
  clear_buffers ;;
  enabled_outputs ← zoom gd_to_world (enable_outputs conf conf []) ;
  max_size ← zoom gd_to_world (largest enabled_outputs size0) ;
  surface ← zoom gd_to_world (zoom world_gbm
    (create_scanout_surface (platform_gbm p) (as_uint32_t (size_width max_size)) (as_uint32_t (size_height max_size)))) ;
  s ← get ;
  db ← zoom gd_to_world (GBMDisplayBuffer_new (platform_gbm p) enabled_outputs surface max_size
                           (egl_context (shared_egl (gd_display s)))) ;
  modify (fun s => mkGD (mkGbmDisplay (shared_egl (gd_display s)) (display_buffers (gd_display s) ++ [db])) (gd_world s)).

Definition configuration : M (world D G) KMSDisplayConfiguration := zoom world_device KMSDisplayConfiguration_new.

(** The outputs the container drops. *)
Definition delete_outputs (ids : list Z) : M (world D G) unit :=
  for_each ids (fun id =>
    with_output id KMSOutput_delete ;;
    modify (fun w => mkWorld (w_device w) (delete id (w_outputs w)) (w_gbm w))).

(** The members of a display whose constructor throws: there is no display
    buffer yet. *)
Definition delete_display_members : M gbm_display unit :=
  s ← get ;
  zoom gd_to_world (delete_outputs (map_to_list (w_outputs (gd_world s))).*1) ;;
  zoom gd_to_egl EGLHelper_delete.

Definition GBMDisplay_new (p : GBMPlatform) (w : world D G) : outcome gbm_display unit :=
  try_catch
    (zoom gd_to_egl (egl_setup (platform_gbm p)) ;;
     conf ← zoom gd_to_world configuration ;
     configure p conf ;;
     _ ← zoom gd_to_egl make_current ;
     mret tt)
    (fun e => delete_display_members ;; throw e)
    (mkGD (mkGbmDisplay EGLHelper_new []) (mkWorld (w_device w) ∅ (w_gbm w))).

(** [display_buffers[0]]. *)
Definition view_area : M gbm_display Rectangle :=
  b ← deref (fun s => head (display_buffers (gd_display s))) ;
  mret (db_view_area b).

Definition for_each_display_buffer (f : GBMDisplayBuffer -> M gbm_display unit) : M gbm_display unit :=
  s ← get ; for_each (display_buffers (gd_display s)) f.

End Display.

Arguments gbm_display : clear implicits.

(** ** What GBM keeps for a surface *)

Class GbmLaws (G : Type) `{Egl G} `{GbmSurface G} : Type := {
  (** The buffers of the surface the client has locked. *)
  locked : Z -> G -> gset Z;
  lock_law s g :
    match gbm_surface_lock_front_buffer s g with
    | (Some bo, g') => (bo ∉ locked s g) /\ locked s g' = {[ bo ]} ∪ locked s g
    | (None, g') => locked s g' = locked s g
    end;
  release_law s bo g : locked s (gbm_surface_release_buffer s bo g) = locked s g ∖ {[ bo ]};
  swap_law s d x g : locked s (snd (eglSwapBuffers d x g)) = locked s g;
}.
