(* ===== verification/GbmFlip.v ===== *)
(** * The front buffer's life

    [GBMDisplayBuffer::post_update]: which buffer of the surface stays locked,
    and what the outputs show, over the interface [PageFlipper] and what GBM
    documents of surfaces. *)

From S2P Require Import Prelude Geometry Drm KmsOutput Egl GbmPlatform GbmDisplay.

Section Flip.
Context {D G : Type} `{!Drm D} `{!PageFlipper D} `{!Scanout D} `{!PageFlipperLaws D} `{!DrmLaws D}.
Context `{!Egl G} `{!GbmSurface G} `{!GbmLaws G}.
Implicit Types (s : display D G) (w : world D G) (d : D) (g : G).

(** The crtc an output has. *)
Definition output_crtc w (id : Z) : option Z :=
  o ← w_outputs w !! id ; crtc_id <$> current_crtc o.

Definition with_device d s : display D G :=
  mkDisplay (s_buffer s) (mkWorld d (w_outputs (s_world s)) (w_gbm (s_world s))).

Definition device_of s : D := w_device (s_world s).

(** The buffers of the surface that are locked. *)
Definition locked_of s : gset Z := locked (surface_gbm (s_buffer s)) (w_gbm (s_world s)).

(** The crtcs of the display buffer's outputs. *)
Definition crtcs s (cs : list Z) : Prop :=
  Forall2 (fun id c => output_crtc (s_world s) id = Some c) (db_outputs (s_buffer s)) cs.

(** The display buffer has flipped to [bo], with framebuffer [fb]: it is the
    only buffer that is locked, and no flip is under way on the crtcs [cs] of
    the outputs. *)
Record flipped_to (bo fb : Z) (cs : list Z) s : Prop := {
  ft_device : device_ok (device_of s);
  ft_last : last_flipped_bufobj (s_buffer s) = Some bo;
  ft_bufobj : bufobjs (s_buffer s) !! bo = Some fb;
  ft_locked : locked_of s = {[ bo ]};
  ft_crtcs : crtcs s cs;
  ft_distinct : NoDup cs;
  ft_idle : forall c, c ∈ cs -> flips (device_of s) !! c = None;
}.

Lemma output_unchanged {A} id c (f : Z -> M D A) w :
  output_crtc w id = Some c ->
  with_output id (k ← get ;
    match current_crtc (k_output k) with
    | None => throw (runtime_error "Output has no associated crtc")
    | Some crtc => zoom device (f (crtc_id crtc))
    end) w = zoom world_device (f c) w.
Proof.
  unfold output_crtc, with_output, get, mbind, M_bind. destruct w as [d outs g]. simpl.
  destruct (outs !! id) as [o|] eqn:Ho; [|done]. simpl. destruct (current_crtc o) as [k|] eqn:Hk; [|done].
  intros [= <-]. unfold zoom. simpl. destruct (f (crtc_id k) d); simpl; rewrite ?insert_id; done.
Qed.

Lemma with_output_schedule id c fb w :
  output_crtc w id = Some c ->
  with_output id (schedule_page_flip fb) w = zoom world_device (flipper_schedule_flip c fb) w.
Proof. apply (output_unchanged id c (fun c => flipper_schedule_flip c fb)). Qed.

Lemma with_output_wait id c w :
  output_crtc w id = Some c ->
  with_output id wait_for_page_flip w = zoom world_device (flipper_wait_for_flip c) w.
Proof. apply (output_unchanged id c flipper_wait_for_flip). Qed.

(** The answers of the page flipper, asked for a flip of each of the crtcs in turn. *)
Inductive attempts (fb : Z) : list Z -> list bool -> D -> D -> Prop :=
| attempts_nil d : attempts fb [] [] d d
| attempts_cons c cs b answers d d1 d2 :
    flipper_schedule_flip c fb d = Ret b d1 -> attempts fb cs answers d1 d2 -> attempts fb (c :: cs) (b :: answers) d d2.

(** A flip to [fb] is under way on the crtcs where the answer is yes, and on no other crtc a new one. *)
Definition scheduled (fb : Z) (cs : list Z) (answers : list bool) d d' : Prop :=
  device_ok d' /\ (forall c, shown d' c = shown d c) /\
  Forall2 (fun c (b : bool) => flips d' !! c = if b then Some fb else None) cs answers /\
  forall c, c ∉ cs -> flips d' !! c = flips d !! c.

Definition accepted (answers : list bool) : Z := Z.of_nat (length (List.filter id answers)).

Lemma none_accepted answers : accepted answers = 0 -> answers = replicate (length answers) false.
Proof. unfold accepted. induction answers as [|[] l IH]; simpl; [done|lia|]. intros E. f_equal. auto. Qed.

Lemma some_accepted answers : accepted answers <> 0 -> true ∈ answers.
Proof. unfold accepted. induction answers as [|[] l IH]; simpl; [done|by left|]. intros E. right. auto. Qed.

Lemma schedule_flips_spec outs cs fb n s :
  device_ok (device_of s) ->
  Forall2 (fun id c => output_crtc (s_world s) id = Some c) outs cs -> NoDup cs ->
  (forall c, c ∈ cs -> flips (device_of s) !! c = None) ->
  exists answers d', schedule_flips outs fb n s = Ret (n + accepted answers) (with_device d' s) /\
    attempts fb cs answers (device_of s) d' /\ scheduled fb cs answers (device_of s) d'.
Proof.
  intros Hok Hcs. revert n s Hok Hcs. induction outs as [|id outs IH] in cs |- *; intros n s Hok Hcs Hnd Hidle.
  { apply Forall2_nil_inv_l in Hcs as ->. exists [], (device_of s). unfold accepted. rewrite Z.add_0_r. split; [by destruct s as [? []]|].
    split; [constructor|]. split; [done|]. split; [done|]. split; [constructor|done]. }
  apply Forall2_cons_inv_l in Hcs as (c & cs' & Hc & Hcs' & ->). apply NoDup_cons in Hnd as [Hnew Hnd].
  cbn [schedule_flips]. unfold mbind, M_bind, zoom at 1. cbn [view to_world].
  rewrite (with_output_schedule id c) by done. unfold zoom. cbn [view over world_device to_world].
  pose proof (schedule_flip_law c fb (w_device (s_world s)) Hok) as Hlaw. fold (device_of s) in *.
  destruct (flipper_schedule_flip c fb (device_of s)) as [b d1|e d1|d1|] eqn:Eb; [|exfalso|done|done].
  2:{ destruct Hlaw as [[x Hx] _]. rewrite Hidle in Hx by set_solver. done. }
  destruct Hlaw as [Hnone Hlaw]. set (s1 := mkDisplay _ _).
  assert (device_ok d1 /\ (forall c', shown d1 c' = shown (device_of s) c') /\
    flips d1 !! c = (if b then Some fb else None) /\ forall c', c' <> c -> flips d1 !! c' = flips (device_of s) !! c') as (Hok1 & Hsh1 & Hflc & Hfl1).
  { destruct b; [destruct Hlaw as (? & Hf & ?)|destruct Hlaw as (? & Hf & ?)]; rewrite Hf; (split; [done|]; split; [done|]);
      (split; [rewrite ?lookup_insert_eq; done|]); intros c' Hne; [by rewrite lookup_insert_ne|done]. }
  destruct (IH cs' (if b then n + 1 else n) s1 Hok1 Hcs' Hnd) as (answers & d' & Hrun & Hatt & Hok' & Hsh & Hfl & Hrest).
  { intros c' Hc'. change (device_of s1) with d1. rewrite Hfl1; [apply Hidle; set_solver|]. intros ->. done. }
  change (device_of s1) with d1 in *. exists (b :: answers), d'. rewrite Hrun. split; [|split].
  - unfold with_device, accepted. simpl. f_equal. destruct b; simpl; lia.
  - by econstructor.
  - split; [done|]. split; [intros; by rewrite Hsh, Hsh1|]. split.
    + constructor; [by rewrite Hrest by done|done].
    + intros c' [Hne Hc']%not_elem_of_cons. by rewrite Hrest, Hfl1 by done.
Qed.

Lemma wait_flips_spec outs cs s :
  device_ok (device_of s) ->
  Forall2 (fun id c => output_crtc (s_world s) id = Some c) outs cs ->
  match for_each outs (fun id => zoom to_world (with_output id wait_for_page_flip)) s with
  | Ret _ s' => exists d', s' = with_device d' s /\ flips_arrived (device_of s) d' /\
      forall c, c ∈ cs -> flips d' !! c = None
  | Throw _ s' | Wait s' => exists d', s' = with_device d' s /\ flips_arrived (device_of s) d'
  | Undef => False
  end.
Proof.
  revert cs s. induction outs as [|id outs IH]; intros cs s Hok Hcs.
  { apply Forall2_nil_inv_l in Hcs as ->. exists (device_of s). split; [by destruct s as [? []]|].
    split; [by apply flips_arrived_refl|set_solver]. }
  apply Forall2_cons_inv_l in Hcs as (c & cs' & Hc & Hcs' & ->).
  cbn [for_each]. unfold mbind, M_bind, zoom at 1. cbn [view to_world].
  rewrite (with_output_wait id c) by done. unfold zoom at 1. cbn [view over world_device to_world].
  pose proof (wait_for_flip_law c (w_device (s_world s)) Hok) as Hlaw. fold (device_of s) in *.
  destruct (flipper_wait_for_flip c (device_of s)) as [[] d1|e d1|d1|]; try done; [|by exists d1..].
  destruct Hlaw as [Hnone Harr]. set (s1 := mkDisplay _ _).
  specialize (IH cs' s1 (proj1 Harr) Hcs'). change (device_of s1) with d1 in IH.
  assert (forall d', with_device d' s1 = with_device d' s) as Hwd by done.
  destruct (for_each outs _ s1) as [[] s'|e s'|s'|]; try done.
  - destruct IH as (d' & -> & Harr' & Hidle). exists d'. split; [done|].
    split; [by eapply flips_arrived_trans|]. intros c' [->|Hc']%elem_of_cons; [|by apply Hidle].
    destruct Harr' as [_ Harr']. destruct (Harr' c) as [[-> _]|[-> _]]; done.
  - destruct IH as (d' & -> & Harr'). exists d'. split; [done|by eapply flips_arrived_trans].
  - destruct IH as (d' & -> & Harr'). exists d'. split; [done|by eapply flips_arrived_trans].
Qed.

(** The display buffer and its outputs are the same, up to buffer objects that
    are new; what the crtcs show is the same. *)
Record untouched s s' : Prop := {
  un_last : last_flipped_bufobj (s_buffer s') = last_flipped_bufobj (s_buffer s);
  un_outputs : db_outputs (s_buffer s') = db_outputs (s_buffer s);
  un_surface : surface_gbm (s_buffer s') = surface_gbm (s_buffer s);
  un_bufobjs : bufobjs (s_buffer s) ⊆ bufobjs (s_buffer s');
  un_kms : w_outputs (s_world s') = w_outputs (s_world s);
  un_scanout : same_scanout (device_of s) (device_of s');
}.

Lemma untouched_refl s : device_ok (device_of s) -> untouched s s.
Proof. by split. Qed.

Lemma untouched_trans s1 s2 s3 : untouched s1 s2 -> untouched s2 s3 -> untouched s1 s3.
Proof.
  intros [H1 H2 H3 H4 H5 (H6 & H7 & H8)] [K1 K2 K3 K4 K5 (K6 & K7 & K8)].
  split; try congruence; [by etrans|]. split; [done|]. split; [congruence|]. intros c. by rewrite K8.
Qed.

Lemma swap_buffers_spec s :
  device_ok (device_of s) ->
  exists b s', zoom to_egl swap_buffers s = Ret b s' /\ untouched s s' /\ locked_of s' = locked_of s.
Proof.
  intros Hok. unfold zoom, swap_buffers, helper, gets, call, mbind, M_bind. simpl.
  pose proof (swap_law (surface_gbm (s_buffer s)) (egl_display (db_egl (s_buffer s)))
    (egl_surface (db_egl (s_buffer s))) (w_gbm (s_world s))) as Hlaw.
  destruct (eglSwapBuffers _ _ _) as [b g']. simpl in *. eexists _, _. split; [reflexivity|]. split; [by split|done].
Qed.

Lemma get_front_buffer_object_spec s :
  device_ok (device_of s) ->
  exists r s', get_front_buffer_object s = Ret r s' /\ untouched s s' /\
    match r with
    | None => locked_of s' = locked_of s
    | Some bo => (bo ∉ locked_of s) /\ locked_of s' = {[ bo ]} ∪ locked_of s /\ is_Some (bufobjs (s_buffer s') !! bo)
    end.
Proof.
  intros Hok. unfold get_front_buffer_object, get, gbm, gbm_, gets, zoom, sys, update_buffer, modify, mbind, M_bind. simpl.
  destruct s as [b [d outs g]]. unfold locked_of, device_of in *. simpl in *.
  pose proof (lock_law (surface_gbm b) g) as Hlock.
  destruct (gbm_surface_lock_front_buffer (surface_gbm b) g) as [[bo|] g1]; simpl.
  2:{ eexists _, _. split; [reflexivity|]. split; [by split|done]. }
  destruct Hlock as [Hnew Hlock]. destruct (bufobjs b !! bo) as [fb|] eqn:Hfb; simpl.
  { eexists _, _. split; [reflexivity|]. split; [by split|]. simpl. rewrite Hfb. eauto. }
  pose proof (add_fb_law (as_uint32_t (size_width (db_size b))) (as_uint32_t (size_height (db_size b))) 24 32
    (gbm_bo_get_stride bo g1) (gbm_bo_get_handle bo g1) d Hok) as Hadd.
  destruct (drmModeAddFB _ _ _ _ _ _ _) as [[ret fb] d1]. simpl in *. destruct (ret =? 0); simpl.
  - eexists _, _. split; [reflexivity|]. split; [split; simpl; try done; by apply insert_subseteq|].
    simpl. rewrite lookup_insert_eq. eauto.
  - eexists _, _. split; [reflexivity|]. split; [by split|]. simpl. rewrite release_law, Hlock. set_solver.
Qed.

Lemma bufobj_release_spec bo s :
  device_ok (device_of s) ->
  exists s', bufobj_release bo s = Ret tt s' /\ untouched s s' /\ locked_of s' = locked_of s ∖ {[ bo ]}.
Proof.
  intros Hok. unfold bufobj_release, get, gbm_, zoom, modify, mbind, M_bind. simpl. eexists. split; [reflexivity|].
  split; [by split|]. unfold locked_of. simpl. by rewrite release_law.
Qed.

Lemma crtcs_untouched s s' cs : untouched s s' -> crtcs s cs -> crtcs s' cs.
Proof. intros [_ Ho _ _ Hk _]. unfold crtcs, output_crtc. by rewrite Ho, Hk. Qed.

(** What is shown when the answers for [fb] were these. *)
Definition shows (fb : Z) (cs : list Z) (answers : list bool) d d' : Prop :=
  Forall2 (fun c (b : bool) => shown d' c = if b then Some fb else shown d c) cs answers.

(** What scheduling the flips of [bo] and waiting for them does. *)
Lemma schedule_and_wait_spec bo fb cs s :
  device_ok (device_of s) -> crtcs s cs -> NoDup cs -> bufobjs (s_buffer s) !! bo = Some fb ->
  (forall c, c ∈ cs -> flips (device_of s) !! c = None) ->
  match schedule_and_wait_for_page_flip bo s with
  | Ret true s' => exists d' d1 answers, s' = with_device d' s /\ device_ok d' /\
      attempts fb cs answers (device_of s) d1 /\ true ∈ answers /\ shows fb cs answers (device_of s) d' /\
      forall c, c ∈ cs -> flips d' !! c = None
  | Ret false s' => untouched s s' /\ locked_of s' = locked_of s /\
      exists d1, attempts fb cs (replicate (length cs) false) (device_of s) d1
  | Throw _ s' | Wait s' => exists d', s' = with_device d' s
  | Undef => False
  end.
Proof.
  intros Hok Hcs Hnd Hfb Hidle. unfold schedule_and_wait_for_page_flip, get, get_drm_fb_id, deref, mbind, M_bind.
  rewrite Hfb. destruct (schedule_flips_spec _ cs fb 0 s Hok Hcs Hnd Hidle) as (answers & d1 & -> & Hatt & Hok1 & Hsh & Hfl & Hrest).
  rewrite Z.add_0_l. destruct (Z.eqb_spec (accepted answers) 0) as [Hz|Hz].
  { apply none_accepted in Hz. rewrite <- (Forall2_length _ _ _ Hfl) in Hz. rewrite Hz in *.
    split; [|split; [done|by exists d1]]. split; try done. split; [done|]. split; [|done]. apply map_eq. intros c.
    change (device_of (with_device d1 s)) with d1. destruct (decide (c ∈ cs)) as [Hc|Hc]; [|by apply Hrest]. rewrite (Hidle c Hc).
    apply list_elem_of_lookup in Hc as [i Hi]. destruct (Forall2_lookup_l _ _ _ _ _ Hfl Hi) as (b & Hb & ->).
    apply lookup_replicate in Hb as [-> _]. done. }
  pose proof (wait_flips_spec (db_outputs (s_buffer s)) cs (with_device d1 s) Hok1 Hcs) as Hw.
  destruct (for_each _ _ (with_device d1 s)) as [[] s'|e s'|s'|]; [|by destruct Hw as (d' & -> & _); exists d'..|done].
  destruct Hw as (d' & -> & [Hok' Harr] & Hnone). change (device_of (with_device d1 s)) with d1 in Harr.
  exists d', d1, answers. split; [done|]. split; [done|]. split; [done|]. split; [by apply some_accepted|]. split; [|done].
  apply Forall2_same_length_lookup_2; [by eapply Forall2_length|]. intros i c b Hi Hb. pose proof (Forall2_lookup_lr _ _ _ _ _ _ Hfl Hi Hb) as Hflc.
  assert (c ∈ cs) as Hc by (by eapply list_elem_of_lookup_2). specialize (Hnone c Hc). cbn beta in Hflc.
  destruct (Harr c) as [[E1 E2]|(E1 & fb' & E2 & E3)].
  - rewrite E1, Hflc in Hnone. destruct b; [done|]. by rewrite E2, Hsh.
  - rewrite Hflc in E2. destruct b; congruence.
Qed.

(** Why [post_update] does not flip: the buffers were not swapped, there was no front buffer, or the flips of all
    outputs were refused. *)
Definition no_flip (cs : list Z) s : Prop :=
  (exists s1, zoom to_egl swap_buffers s = Ret false s1) \/
  exists s1, zoom to_egl swap_buffers s = Ret true s1 /\
    ((exists s2, get_front_buffer_object s1 = Ret None s2) \/
     exists s2 bo fb d, get_front_buffer_object s1 = Ret (Some bo) s2 /\ bufobjs (s_buffer s2) !! bo = Some fb /\
       attempts fb cs (replicate (length cs) false) (device_of s2) d).

Lemma post_update_spec bo fb cs s :
  flipped_to bo fb cs s ->
  match post_update s with
  | Ret true s' => exists bo' fb' answers d1 d2, bo' <> bo /\ flipped_to bo' fb' cs s' /\
      same_scanout (device_of s) d1 /\ attempts fb' cs answers d1 d2 /\ true ∈ answers /\ shows fb' cs answers (device_of s) (device_of s')
  | Ret false s' => no_flip cs s /\ flipped_to bo fb cs s' /\ forall c, shown (device_of s') c = shown (device_of s) c
  | Throw _ s' | Wait s' => last_flipped_bufobj (s_buffer s') = Some bo /\
      exists bo', bo' <> bo /\ locked_of s' = {[ bo'; bo ]}
  | Undef => False
  end.
Proof.
  intros [Hok Hlast Hbo Hlocked Hcs Hnd Hidle].
  assert (forall s', untouched s s' -> locked_of s' = locked_of s ->
    flipped_to bo fb cs s' /\ forall c, shown (device_of s') c = shown (device_of s) c) as Hsame.
  { intros s' Hun Hl. pose proof (crtcs_untouched _ _ _ Hun Hcs). destruct Hun as [U1 U2 U3 U4 U5 (U6 & U7 & U8)].
    split; [|done]. split; [done|congruence|by eapply lookup_weaken|congruence|done|done|]. intros c Hc. rewrite U7. auto. }
  unfold post_update, mbind, M_bind. destruct (swap_buffers_spec s Hok) as (b & s1 & Esw & Hun1 & Hl1). rewrite Esw.
  destruct b; cbn [negb]; [|split; [left; eauto|by apply Hsame]].
  destruct (get_front_buffer_object_spec s1) as (r & s2 & Efr & Hun2 & Hr); [apply (un_scanout _ _ Hun1)|]. rewrite Efr.
  pose proof (untouched_trans _ _ _ Hun1 Hun2) as Hun. destruct r as [bo'|]; [|split; [right; eauto 6|apply Hsame; congruence]].
  destruct Hr as (Hnew & Hl2 & fb' & Hfb'). rewrite Hl1, Hlocked in Hnew, Hl2.
  assert (bo' <> bo) as Hne by set_solver. destruct (un_scanout _ _ Hun) as (Hok2 & Hfl2 & Hsh2).
  pose proof (schedule_and_wait_spec bo' fb' cs s2 Hok2 (crtcs_untouched _ _ _ Hun Hcs) Hnd Hfb') as Hsw.
  rewrite Hfl2 in Hsw. specialize (Hsw Hidle).
  assert (forall d', last_flipped_bufobj (s_buffer (with_device d' s2)) = Some bo /\
    exists bo', bo' <> bo /\ locked_of (with_device d' s2) = {[ bo'; bo ]}) as Hboth.
  { intros d'. split; [simpl; by rewrite (un_last _ _ Hun)|]. exists bo'. done. }
  destruct (schedule_and_wait_for_page_flip bo' s2) as [[] s3|e s3|s3|]; cbn [negb]; [| |by destruct Hsw as [d' ->]..|done].
  - destruct Hsw as (d' & d2 & answers & -> & Hok' & Hatt & Hsome & Hall & Hnone). cbn [get s_buffer with_device]. rewrite (un_last _ _ Hun), Hlast.
    destruct (bufobj_release_spec bo (with_device d' s2) Hok') as (s4 & -> & Hun4 & Hl4). simpl.
    destruct (un_scanout _ _ Hun4) as (Hok4 & Hfl4 & Hsh4). exists bo', fb', answers, (device_of s2), d2. split; [done|]. split; [|split; [done|split; [done|split; [done|]]]].
    + split; simpl; try done.
      * by eapply lookup_weaken; [|apply Hun4].
      * change (locked_of s4 = {[ bo' ]}). rewrite Hl4. change (locked_of (with_device d' s2)) with (locked_of s2).
        rewrite Hl2. set_solver.
      * apply (crtcs_untouched (with_device d' s2) s4 cs Hun4). by apply (crtcs_untouched _ _ _ Hun).
      * intros c Hc. unfold device_of in *. simpl. rewrite Hfl4. by apply Hnone.
    + eapply Forall2_impl; [exact Hall|]. intros c b. unfold device_of in *. simpl. by rewrite Hsh4, Hsh2.
  - destruct Hsw as (Hun3 & Hl3 & d1 & Hatt). destruct (un_scanout _ _ Hun3) as (Hok3 & _).
    destruct (bufobj_release_spec bo' s3 Hok3) as (s4 & -> & Hun4 & Hl4). split.
    + right. exists s1. split; [done|]. right. by exists s2, bo', fb', d1.
    + apply Hsame; [by eapply untouched_trans; [|eapply untouched_trans]|]. rewrite Hl4, Hl3, Hl2, Hlocked. set_solver.
Qed.

(** C29: a display buffer keeps exactly the buffer it shows locked.  [post_update] asks for a flip of every output to
    the new front buffer.  If one of them is granted it returns true: the new buffer is then the only one that is
    locked, an output whose flip was granted shows it, and one whose flip was refused shows what it showed before.
    Otherwise, when the buffers could not be swapped, there is no front buffer, or all the flips were refused, it
    returns false and leaves the last buffer, and only it, locked and what the outputs show as it was.  It has no
    undefined behaviour; when waiting for a flip fails or blocks, the new buffer is locked besides the last one. *)
Theorem post_update_flips bo fb cs s :
  flipped_to bo fb cs s ->
  match post_update s with
  | Ret true s' => exists bo' fb' answers d1 d2, bo' <> bo /\ flipped_to bo' fb' cs s' /\
      same_scanout (device_of s) d1 /\ attempts fb' cs answers d1 d2 /\ true ∈ answers /\ shows fb' cs answers (device_of s) (device_of s')
  | Ret false s' => no_flip cs s /\ flipped_to bo fb cs s' /\ forall c, shown (device_of s') c = shown (device_of s) c
  | Throw _ s' | Wait s' => last_flipped_bufobj (s_buffer s') = Some bo /\
      exists bo', bo' <> bo /\ locked_of s' = {[ bo'; bo ]}
  | Undef => False
  end.
Proof. apply post_update_spec. Qed.

(** When the flip of one of several outputs is refused, [post_update] still
    succeeds, and gives the last buffer back to GBM for rendering although that
    output goes on showing it. *)
Theorem partial_flip_releases_shown bo fb cs s s' c :
  flipped_to bo fb cs s -> post_update s = Ret true s' ->
  c ∈ cs -> shown (device_of s) c = Some fb ->
  (forall bo' fb', last_flipped_bufobj (s_buffer s') = Some bo' -> bufobjs (s_buffer s') !! bo' = Some fb' ->
     shown (device_of s') c <> Some fb') ->
  shown (device_of s') c = Some fb /\ bo ∉ locked_of s'.
Proof.
  intros Hft Hpost Hc Hshown Hno. pose proof (post_update_spec bo fb cs s Hft) as Hpu. rewrite Hpost in Hpu.
  destruct Hpu as (bo' & fb' & answers & d1 & d2 & Hne & Hft' & _ & _ & _ & Hall). split.
  - apply list_elem_of_lookup in Hc as [i Hi]. destruct (Forall2_lookup_l _ _ _ _ _ Hall Hi) as ([] & _ & E); [|congruence].
    destruct (Hno bo' fb'); [apply Hft'|apply Hft'|exact E].
  - rewrite (ft_locked _ _ _ _ Hft'). set_solver.
Qed.

End Flip.
