(* ===== verification/GbmConfigure.v ===== *)
(** * Configuring the GBM display

    [GBMDisplay::configure]: the one display buffer it makes is for all the
    connected outputs, and large enough for each of them. *)

From S2P Require Import Prelude Geometry Drm KmsOutput DisplayConfig Egl GbmPlatform GbmDisplay.

Section Configure.
Context {D G : Type} {drm : Drm D} {flipper : PageFlipper D}.
Context {eglG : Egl G} {surfaceG : GbmSurface G} {accessG : DrmAccess G}.
Implicit Types (w : world D G) (s : display D G) (o : KMSOutput).

(** ** What setting up a display buffer does to the outputs *)

(** The modes the outputs are in. *)
Definition modes_of w : gmap Z (option drmModeModeInfo) := current_mode <$> w_outputs w.

Definition same_modes (ms : gmap Z (option drmModeModeInfo)) s : Prop := modes_of (s_world s) = ms.

(** The output of [id] has a crtc it has set. *)
Definition lit w (id : Z) : Prop :=
  exists o, w_outputs w !! id = Some o /\ is_Some (current_crtc o) /\ using_saved_crtc o = false.

Lemma ensure_crtc_mode (m : option drmModeModeInfo) :
  keeps (fun k : kms D => current_mode (k_output k) = m) ensure_crtc.
Proof.
  unfold ensure_crtc. apply keeps_bind; [by intros ?|]. intros k. destruct (current_crtc (k_output k)); [apply keeps_ret|].
  apply keeps_bind; [apply keeps_deref|]. intros c. destruct (negb _); [apply keeps_ret|].
  apply keeps_bind; [apply keeps_resources|]. intros r. apply keeps_bind.
  { destruct (encoder _ _); [|apply keeps_ret]. by apply keeps_modify. }
  intros _. apply keeps_bind; [apply keeps_gets|]. intros [?|]; (apply keeps_bind; [|intros _; apply keeps_gets]);
    [apply keeps_ret|]. apply keeps_bind; [apply keeps_local|]. intros encs.
  apply keeps_bind; [apply keeps_local|]. intros v. by apply keeps_modify.
Qed.

(** Setting a crtc, whatever way it ends: the mode stays, and true means that
    the output has its crtc. *)
Lemma set_crtc_effect fb (k : kms D) :
  match set_crtc fb k with
  | Ret b k' => current_mode (k_output k') = current_mode (k_output k) /\
      (b = true -> is_Some (current_crtc (k_output k')) /\ using_saved_crtc (k_output k') = false)
  | Throw _ k' | Wait k' => current_mode (k_output k') = current_mode (k_output k)
  | Undef => True
  end.
Proof.
  unfold set_crtc, mbind, M_bind. pose proof (ensure_crtc_mode (current_mode (k_output k)) k eq_refl) as He.
  destruct (ensure_crtc k) as [b k1|e k1|k1|]; try done. destruct b; [|done]. unfold deref. simpl.
  destruct (current_crtc (k_output k1)) as [c|] eqn:Hc; [|done].
  destruct (out_connector (k_output k1)); [|done]. destruct (current_mode (k_output k1)) eqn:Hm; [|done].
  unfold zoom. simpl. destruct (drmModeSetCrtc _ _ _ _ _ _ _) as [ret d']. destruct (ret =? 0); simpl.
  - rewrite <- Hm in He. split; [exact He|]. intros _. rewrite Hc. eauto.
  - rewrite <- Hm in He. by split.
Qed.

Lemma modes_insert w id o o' :
  w_outputs w !! id = Some o -> current_mode o' = current_mode o ->
  current_mode <$> <[id := o']> (w_outputs w) = modes_of w.
Proof.
  intros Ho Hm. unfold modes_of. rewrite fmap_insert, Hm. apply insert_id. by rewrite lookup_fmap, Ho.
Qed.

Lemma with_output_set_crtc id fb w :
  match with_output id (set_crtc fb) w with
  | Ret b w' => modes_of w' = modes_of w /\ (forall id', lit w id' -> id' <> id -> lit w' id') /\ (b = true -> lit w' id)
  | Throw _ w' | Wait w' => modes_of w' = modes_of w
  | Undef => True
  end.
Proof.
  unfold with_output. destruct (w_outputs w !! id) as [o|] eqn:Ho; [|done].
  pose proof (set_crtc_effect fb (mkKms o (w_device w))) as He.
  destruct (set_crtc fb (mkKms o (w_device w))) as [b k|e k|k|]; try done.
  - destruct He as [Hm Hlit]. split; [by eapply modes_insert|]. split.
    + intros id' (o' & Ho' & ?) Hne. exists o'. simpl. by rewrite lookup_insert_ne by congruence.
    + intros ->. destruct (Hlit eq_refl). exists (k_output k). simpl. by rewrite lookup_insert_eq.
  - by eapply modes_insert.
  - by eapply modes_insert.
Qed.

Lemma set_output_crtc_effect bo id s :
  match set_output_crtc bo id s with
  | Ret _ s' => modes_of (s_world s') = modes_of (s_world s) /\ s_buffer s' = s_buffer s /\ lit (s_world s') id /\
      forall id', lit (s_world s) id' -> lit (s_world s') id'
  | Throw _ s' | Wait s' => modes_of (s_world s') = modes_of (s_world s)
  | Undef => True
  end.
Proof.
  unfold set_output_crtc, get_drm_fb_id, deref, mbind, M_bind.
  destruct (bufobjs (s_buffer s) !! bo) as [fb|]; [|done]. unfold zoom. simpl.
  pose proof (with_output_set_crtc id fb (s_world s)) as He.
  destruct (with_output id (set_crtc fb) (s_world s)) as [b w'|e w'|w'|]; try done.
  destruct He as (Hm & Hother & Hlit). destruct b; simpl; [|done]. split; [done|]. split; [done|].
  split; [auto|]. intros id' Hl. destruct (decide (id' = id)) as [->|Hne]; auto.
Qed.

Lemma set_crtcs_effect bo ids s :
  match for_each ids (set_output_crtc bo) s with
  | Ret _ s' => modes_of (s_world s') = modes_of (s_world s) /\ s_buffer s' = s_buffer s /\
      (forall id, id ∈ ids -> lit (s_world s') id) /\ forall id, lit (s_world s) id -> lit (s_world s') id
  | Throw _ s' | Wait s' => modes_of (s_world s') = modes_of (s_world s)
  | Undef => True
  end.
Proof.
  revert s. induction ids as [|id ids IH]; intros s; cbn [for_each].
  { split; [done|]. split; [done|]. split; [set_solver|done]. }
  unfold mbind, M_bind. pose proof (set_output_crtc_effect bo id s) as He.
  destruct (set_output_crtc bo id s) as [[] s1|e s1|s1|]; try done. destruct He as (Hm & Hb & Hl & Hkeep).
  specialize (IH s1). destruct (for_each ids (set_output_crtc bo) s1) as [[] s'|e s'|s'|]; try done.
  - destruct IH as (Hm' & Hb' & Hl' & Hkeep'). split; [congruence|]. split; [congruence|]. split; [|auto].
    intros id' [->|Hin]%elem_of_cons; auto.
  - congruence.
  - congruence.
Qed.

(** What a part of the set-up that does not touch the outputs keeps. *)
Definition spared (outs : list Z) (sz : Size) (kms : gmap Z KMSOutput) s : Prop :=
  db_outputs (s_buffer s) = outs /\ db_size (s_buffer s) = sz /\ w_outputs (s_world s) = kms.

Lemma spared_egl {A} outs sz kms (m : M (egl G) A) : keeps (spared outs sz kms) (zoom to_egl m).
Proof. intros s Hs. unfold zoom. by destruct (m (view to_egl s)). Qed.

Lemma spared_gbm {A} outs sz kms (f : G -> A * G) : keeps (spared outs sz kms) (gbm f).
Proof. intros s Hs. unfold gbm, zoom, sys. simpl. by destruct (f _). Qed.

Lemma spared_gbm_ outs sz kms f : keeps (spared outs sz kms) (gbm_ f).
Proof. by intros s Hs. Qed.

Lemma spared_front outs sz kms : keeps (spared outs sz kms) get_front_buffer_object.
Proof.
  unfold get_front_buffer_object. apply keeps_bind; [by intros ?|]. intros s0. apply keeps_bind; [apply spared_gbm|].
  intros [bo|]; [|apply keeps_ret]. destruct (bufobjs _ !! bo); [apply keeps_ret|].
  apply keeps_bind; [apply keeps_gets|]. intros g. apply keeps_bind.
  { intros s Hs. unfold zoom. simpl. by destruct (drmModeAddFB _ _ _ _ _ _ _). }
  intros [ret fb]. destruct (negb _); (apply keeps_bind; [|intros _; apply keeps_ret]).
  - apply spared_gbm_.
  - by apply keeps_modify.
Qed.

(** Run a part that does not touch the outputs. *)
Lemma spared_step {A B} outs sz kms (m : M (display D G) A) (k : A -> M (display D G) B) s b s' :
  keeps (spared outs sz kms) m -> spared outs sz kms s -> (m ≫= k) s = Ret b s' ->
  exists a s1, spared outs sz kms s1 /\ k a s1 = Ret b s'.
Proof.
  intros Hm Hs. unfold mbind, M_bind. specialize (Hm s Hs). destruct (m s) as [a s1| | |]; try done.
  intros Hk. by exists a, s1.
Qed.

Lemma spared_update outs sz kms bo : keeps (spared outs sz kms) (update_buffer (D := D) (G := G) (set_last bo)).
Proof. by apply keeps_modify. Qed.

Lemma spared_current outs sz kms : keeps (spared outs sz kms) db_make_current.
Proof.
  unfold db_make_current. apply keeps_bind; [apply spared_egl|]. intros []; [apply keeps_ret|apply keeps_throw].
Qed.

Lemma spared_extensions outs sz kms : keeps (spared outs sz kms) ensure_egl_image_extensions.
Proof.
  unfold ensure_egl_image_extensions. apply keeps_bind; [apply keeps_gets|]. intros g.
  destruct (negb _); [apply keeps_throw|]. destruct (negb _); [apply keeps_throw|apply keeps_ret].
Qed.

(** A display buffer that has been made: it is for the outputs and of the size
    it was asked for, and every output has set a crtc, in the mode it was in. *)
Lemma construct_effect dev ctx s s' :
  construct dev ctx s = Ret tt s' ->
  db_outputs (s_buffer s') = db_outputs (s_buffer s) /\ db_size (s_buffer s') = db_size (s_buffer s) /\
  modes_of (s_world s') = modes_of (s_world s) /\ forall id, id ∈ db_outputs (s_buffer s) -> lit (s_world s') id.
Proof.
  set (outs := db_outputs (s_buffer s)). set (sz := db_size (s_buffer s)). set (kms := w_outputs (s_world s)).
  assert (spared outs sz kms s) as H0 by done. unfold construct. intros Hrun.
  unfold mbind at 1, M_bind at 1, get at 1 in Hrun.
  apply (spared_step outs sz kms) in Hrun as (_ & s1 & H1 & Hrun); [|apply spared_egl|done].
  apply (spared_step outs sz kms) in Hrun as (_ & s2 & H2 & Hrun); [|apply spared_current|done].
  apply (spared_step outs sz kms) in Hrun as (_ & s3 & H3 & Hrun); [|apply spared_extensions|done].
  apply (spared_step outs sz kms) in Hrun as (_ & s4 & H4 & Hrun); [|apply spared_gbm_|done].
  apply (spared_step outs sz kms) in Hrun as (swapped & s5 & H5 & Hrun); [|apply spared_egl|done].
  destruct swapped; [|done]. cbn [negb] in Hrun.
  apply (spared_step outs sz kms) in Hrun as (bufobj & s6 & H6 & Hrun); [|apply spared_front|done].
  apply (spared_step outs sz kms) in Hrun as (_ & s7 & H7 & Hrun); [|apply spared_update|done].
  destruct bufobj as [bo|]; [|done]. change (db_outputs (s_buffer s)) with outs in Hrun.
  pose proof (set_crtcs_effect bo outs s7) as He. unfold mbind, M_bind in Hrun.
  destruct (for_each outs (set_output_crtc bo) s7) as [[] s8|e s8|s8|]; try done.
  destruct He as (Hm & Hb & Hlit & _). unfold zoom in Hrun.
  destruct (release_current (view to_egl s8)) as [r e8|e e8|e8|]; try done. injection Hrun as <-. simpl.
  destruct H7 as (E1 & E2 & E3). rewrite Hb. split; [done|]. split; [done|]. split; [|exact Hlit].
  etrans; [exact Hm|]. unfold modes_of. by rewrite E3.
Qed.

Lemma GBMDisplayBuffer_new_effect dev outs surface sz ctx w b w' :
  GBMDisplayBuffer_new dev outs surface sz ctx w = Ret b w' ->
  db_outputs b = outs /\ db_size b = sz /\ modes_of w' = modes_of w /\ forall id, id ∈ outs -> lit w' id.
Proof.
  unfold GBMDisplayBuffer_new, try_catch. set (s0 := mkDisplay _ _).
  destruct (construct dev ctx s0) as [[] s|e s|s|] eqn:E; try done.
  - intros [= <- <-]. apply (construct_effect dev ctx s0 s E).
  - unfold mbind, M_bind. by destruct (delete_members s).
Qed.

(** ** The outputs that are enabled, and the size *)

Lemma connector_id_found (conf : KMSDisplayConfiguration) (c : DisplayConfigurationOutput) w :
  c ∈ conf -> get_kms_connector_id conf (conf_id c) w = Ret (u32 (conf_id c)) w.
Proof.
  induction conf as [|c0 conf IH]; intros Hin; [set_solver|]. simpl.
  destruct (Z.eqb_spec (conf_id c0) (conf_id c)); [done|]. apply IH. set_solver.
Qed.

(** The connectors of the connected outputs. *)
Definition enabled_ids (conf : list DisplayConfigurationOutput) : list Z :=
  map (fun c => u32 (conf_id c)) (filter (fun c => connected c = true) conf).

Lemma get_kms_output_for_id id w a w' : get_kms_output_for id w = Ret a w' -> a = id.
Proof.
  unfold get_kms_output_for, get, zoom, modify, mbind, M_bind. destruct (w_outputs w !! id).
  - destruct (with_output id reset w); try done. by intros [= <- _].
  - destruct (KMSOutput_new id (view world_device w)); try done. by intros [= <- _].
Qed.

Lemma enable_outputs_ids conf outs acc w l w' :
  (forall c, c ∈ outs -> c ∈ conf) -> enable_outputs conf outs acc w = Ret l w' -> l = acc ++ enabled_ids outs.
Proof.
  revert acc w. induction outs as [|c outs IH]; intros acc w Hin; cbn [enable_outputs].
  { intros [= <- _]. by rewrite app_nil_r. }
  unfold mbind, M_bind. rewrite connector_id_found by (apply Hin; set_solver).
  destruct (get_kms_output_for (u32 (conf_id c)) w) as [id w1| | |] eqn:Hg; try done.
  apply get_kms_output_for_id in Hg as ->. intros Hrun. apply IH in Hrun as ->; [|set_solver].
  unfold enabled_ids. rewrite filter_cons. destruct (connected c); simpl; [|done]. by rewrite <- app_assoc.
Qed.

(** [sz] is large enough for mode [m]. *)
Definition covers (sz : Size) (m : drmModeModeInfo) : Prop :=
  u32 (hdisplay m) <= as_uint32_t (size_width sz) /\ u32 (vdisplay m) <= as_uint32_t (size_height sz).

Lemma with_output_size id w :
  match with_output id size w with
  | Ret sz w' => w' = w /\ exists m, modes_of w !! id = Some (Some m) /\ sz = mkSize (wrap (hdisplay m)) (wrap (vdisplay m))
  | Undef => True
  | _ => False
  end.
Proof.
  unfold with_output, size, deref, mbind, M_bind, modes_of. destruct w as [d outs g]. simpl.
  destruct (outs !! id) as [o|] eqn:Ho; [|done]. rewrite lookup_fmap, Ho. simpl.
  destruct (current_mode o) as [m|]; simpl; [|done]. rewrite insert_id by done. eauto.
Qed.

(** The loop gives the largest of the widths and of the heights. *)
Lemma largest_spec ids sz0 w sz w' :
  largest ids sz0 w = Ret sz w' ->
  w' = w /\ as_uint32_t (size_width sz0) <= as_uint32_t (size_width sz) /\
  as_uint32_t (size_height sz0) <= as_uint32_t (size_height sz) /\
  forall id, id ∈ ids -> exists m, modes_of w !! id = Some (Some m) /\ covers sz m.
Proof.
  revert sz0. induction ids as [|id ids IH]; intros sz0; cbn [largest].
  { intros [= <- <-]. split; [done|]. split; [done|]. split; [done|set_solver]. }
  unfold mbind, M_bind. pose proof (with_output_size id w) as Hs.
  destruct (with_output id size w) as [sz1 w1| | |]; try done. destruct Hs as (-> & m & Hm & ->).
  cbn [size_width size_height]. unfold dim_gtb. cbn [as_uint32_t wrap].
  intros Hrun. apply IH in Hrun as (-> & Hw & Hh & Hall). cbn [size_width size_height] in Hw, Hh.
  assert (as_uint32_t (size_width sz0) <= as_uint32_t (size_width sz) /\ u32 (hdisplay m) <= as_uint32_t (size_width sz) /\
    as_uint32_t (size_height sz0) <= as_uint32_t (size_height sz) /\ u32 (vdisplay m) <= as_uint32_t (size_height sz))
    as (? & ? & ? & ?).
  { destruct (Z.ltb_spec (as_uint32_t (size_width sz0)) (u32 (hdisplay m)));
    destruct (Z.ltb_spec (as_uint32_t (size_height sz0)) (u32 (vdisplay m))); cbn [as_uint32_t wrap] in *; lia. }
  repeat (split; [done|]). intros id' [->|Hin]%elem_of_cons; [|auto]. exists m. by split.
Qed.

(** C31: when a configuration has been applied, the display has exactly one
    display buffer.  It is for the outputs the configuration says are
    connected, in its order; every one of them has set a crtc; and the buffer is
    at least as wide and as high as the mode of each of them. *)
Theorem configure_covers_outputs p conf (s s' : gbm_display D G) :
  configure p conf s = Ret tt s' ->
  exists b, display_buffers (gd_display s') = [b] /\ db_outputs b = enabled_ids conf /\
    view_area s' = Ret (mkRectangle (mkPoint (wrap 0) (wrap 0)) (db_size b)) s' /\
    forall id, id ∈ enabled_ids conf -> lit (gd_world s') id /\
      exists o m, w_outputs (gd_world s') !! id = Some o /\ current_mode o = Some m /\ covers (db_size b) m.
Proof.
  unfold configure, mbind, M_bind. destruct (clear_buffers s) as [[] s1|e s1|s1|] eqn:Hclear; try done.
  assert (display_buffers (gd_display s1) = []) as Hempty.
  { revert Hclear. unfold clear_buffers, get, modify, mbind, M_bind.
    destruct (for_each _ _ s); try done. by intros [= <-]. }
  unfold zoom. cbn [view over gd_to_world].
  destruct (enable_outputs conf conf [] (gd_world s1)) as [ids w2|e w2|w2|] eqn:Hen; try done.
  apply enable_outputs_ids in Hen as ->; [|done]. cbn [gd_world gd_display app].
  destruct (largest (enabled_ids conf) size0 w2) as [sz w3|e w3|w3|] eqn:Hl; try done.
  apply largest_spec in Hl as (-> & _ & _ & Hcov). cbn [gd_world gd_display].
  destruct (create_scanout_surface _ _ _ _) as [surface g|e g|g|]; try done. cbn [gd_world gd_display get].
  destruct (GBMDisplayBuffer_new _ _ _ _ _ _) as [b w5|e w5|w5|] eqn:Hnew; try done.
  apply GBMDisplayBuffer_new_effect in Hnew as (Hout & Hsz & Hmodes & Hlit). unfold modify. intros [= <-].
  cbn [gd_world gd_display display_buffers]. rewrite Hempty. exists b. split; [done|]. split; [done|].
  split; [done|].
  intros id Hid. split; [auto|]. destruct (Hcov id Hid) as (m & Hm & Hc).
  change (modes_of (over world_gbm g w2)) with (modes_of w2) in Hmodes.
  rewrite <- Hmodes in Hm. unfold modes_of in Hm. rewrite lookup_fmap in Hm.
  destruct (w_outputs w5 !! id) as [o|] eqn:Ho; [|done]. injection Hm as Hm. exists o, m. rewrite Hsz. done.
Qed.

End Configure.
