(* ===== verification/KmsFlipper.v ===== *)
(** * The page flipper behind its interface

    [KMSPageFlipper] as the [PageFlipper] of a DRM device: the critical sections
    of [PageFlip] run by one thread, over the kernel's page-flip events; what
    the interface promises follows from what is documented of the kernel.  A
    concrete card ends the file. *)

From S2P Require Import Prelude PageFlip Drm.

(** [drmModePageFlip], and [select] on the device with the events that
    [drmHandleEvent] then finds; [None] when [select] would block.
    [events_left] bounds how often it can still return. *)
Class DrmEvents (K : Type) : Type := {
  drmModePageFlip : Z -> Z -> K -> Z * K;
  select_and_read : K -> option (select_result * K);
  events_left : K -> nat;
}.

Section Flipper.
Context {K : Type} {kernel : Drm K} {events : DrmEvents K}.

(** The flipper and the device it works on. *)
Definition flipper_device : Type := KMSPageFlipper * K.

Definition kms_schedule_flip (crtc_id fb_id : Z) : M flipper_device bool := fun '(f, k) =>
  if decide (crtc_id ∈ pending_page_flips f)
  then Throw (logic_error "Page flip for crtc_id is already scheduled") (f, k)
  else
    let '(ret, k') := drmModePageFlip crtc_id fb_id k in
    match schedule_flip crtc_id ret f with
    | Ret b f' => Ret b (f', k')
    | Throw e f' => Throw e (f', k')
    | Wait f' => Wait (f', k')
    | Undef => Undef
    end.

(** The event loop of the worker. *)
Fixpoint event_loop (fuel : nat) (crtc_id : Z) : M flipper_device unit := fun '(f, k) =>
  match fuel with
  | O => Wait (f, k)
  | S fuel' =>
      match select_and_read k with
      | None => Wait (f, k)
      | Some (ret, k') =>
          let '(p, f') := wait_for_flip_turn crtc_id ret f in
          match p with
          | failed => Throw (errno_error "Error while waiting for page-flip event"
                               (match ret with select_error errno => errno | _ => 0 end)) (f', k')
          | notifying true => Ret tt (f', k')
          | _ => event_loop fuel' crtc_id (f', k')
          end
      end
  end.

Definition kms_wait_for_flip (tid : nat) (crtc_id : Z) : M flipper_device unit := fun '(f, k) =>
  let '(p, f') := wait_for_flip_begin tid crtc_id f in
  match p with
  | finished => Ret tt (f', k)
  | selecting => event_loop (S (events_left k)) crtc_id (f', k)
  | _ => Wait (f', k)
  end.

#[export] Instance kms_page_flipper : PageFlipper flipper_device := {
  flipper_schedule_flip := kms_schedule_flip;
  flipper_wait_for_flip := kms_wait_for_flip 0;
}.

(** The device under the flipper. *)
Definition on_device {A} (f : K -> A * K) (d : flipper_device) : A * flipper_device :=
  (fst (f (snd d)), (fst d, snd (f (snd d)))).

#[export] Instance flipper_drm : Drm flipper_device := {
  drmModeGetResources d := drmModeGetResources (snd d);
  drmModeGetConnector id d := drmModeGetConnector id (snd d);
  drmModeGetEncoder id d := drmModeGetEncoder id (snd d);
  drmModeGetCrtc id d := drmModeGetCrtc id (snd d);
  drmModeSetCrtc c fb x y ks m := on_device (drmModeSetCrtc c fb x y ks m);
  drmModeAddFB w h depth bpp pitch handle := on_device (drmModeAddFB w h depth bpp pitch handle);
  drmModeRmFB fb d := (fst d, drmModeRmFB fb (snd d));
}.

(** What the kernel keeps: the framebuffer each crtc shows, as far as events
    have told, and the flips whose events have not been read. *)
Class KernelLaws : Type := {
  k_shown : K -> Z -> option Z;
  k_flips : K -> gmap Z Z;
  page_flip_law c fb k :
    let '(ret, k') := drmModePageFlip c fb k in
    (forall c', k_shown k' c' = k_shown k c') /\
    (if ret =? 0 then k_flips k !! c = None /\ k_flips k' = <[c := fb]> (k_flips k) else k_flips k' = k_flips k);
  select_law k ret k' :
    select_and_read k = Some (ret, k') ->
    (events_left k' < events_left k)%nat /\
    match ret with
    | select_events l =>
        forall c, if decide (c ∈ l)
                  then k_flips k' !! c = None /\ exists fb, k_flips k !! c = Some fb /\ k_shown k' c = Some fb
                  else k_flips k' !! c = k_flips k !! c /\ k_shown k' c = k_shown k c
    | _ => k_flips k' = k_flips k /\ forall c, k_shown k' c = k_shown k c
    end;
  kernel_set_crtc_law c fb x y ks m k :
    k_flips (snd (drmModeSetCrtc c fb x y ks m k)) = k_flips k /\
    (fst (drmModeSetCrtc c fb x y ks m k) = 0 -> k_shown (snd (drmModeSetCrtc c fb x y ks m k)) c = Some fb);
  kernel_add_fb_law w h depth bpp pitch handle k :
    let k' := snd (drmModeAddFB w h depth bpp pitch handle k) in
    k_flips k' = k_flips k /\ forall c, k_shown k' c = k_shown k c;
  kernel_rm_fb_law fb k : k_flips (drmModeRmFB fb k) = k_flips k;
}.

Context {laws : KernelLaws}.

(** The flips the flipper counts as pending are those the kernel has not told
    it of. *)
#[export] Instance flipper_scanout : Scanout flipper_device := {
  device_ok d := pending_page_flips (fst d) = dom (k_flips (snd d));
  shown d := k_shown (snd d);
  flips d := k_flips (snd d);
}.

Lemma turn_pending c ret f :
  pending_page_flips (snd (wait_for_flip_turn c ret f)) =
    pending_page_flips f ∖ (match ret with select_events l => list_to_set l | _ => ∅ end).
Proof.
  unfold wait_for_flip_turn. destruct ret as [l| |e].
  - pose proof (proj1 (handler_fold_pending l f)) as Hf. destruct (page_flip_is_done c _); simpl; exact Hf.
  - destruct (page_flip_is_done c f); simpl; by rewrite difference_empty_L.
  - simpl. by rewrite difference_empty_L.
Qed.

Lemma turn_done c ret f f' :
  wait_for_flip_turn c ret f = (notifying true, f') -> c ∉ pending_page_flips f'.
Proof.
  unfold wait_for_flip_turn. destruct ret as [l| |e]; [..|done];
    (destruct (page_flip_is_done c _) eqn:E; [|done]); intros [= <-]; simpl;
    unfold page_flip_is_done in E; by apply bool_decide_eq_true in E.
Qed.

(** One turn of the event loop. *)
Lemma turn_arrived c ret (f : KMSPageFlipper) k k' :
  device_ok (f, k) -> select_and_read k = Some (ret, k') ->
  flips_arrived (f, k) (snd (wait_for_flip_turn c ret f), k').
Proof.
  simpl. intros Hok Hsel. destruct (select_law k ret k' Hsel) as [_ Hlaw]. split; simpl.
  - rewrite turn_pending, Hok. destruct ret as [l| |e]; [|destruct Hlaw as [-> _]; set_solver..].
    apply set_eq. intros x. rewrite elem_of_difference, elem_of_list_to_set, !elem_of_dom.
    specialize (Hlaw x). destruct (decide (x ∈ l)).
    + destruct Hlaw as [-> _]. split; [tauto|]. by intros [? ?].
    + destruct Hlaw as [-> _]. tauto.
  - intros x. destruct ret as [l| |e]; [|left; destruct Hlaw as [-> ?]; auto..].
    specialize (Hlaw x). destruct (decide (x ∈ l)); auto.
Qed.

Lemma event_loop_spec fuel c f k :
  device_ok (f, k) ->
  match event_loop fuel c (f, k) with
  | Ret _ d' => flips d' !! c = None /\ flips_arrived (f, k) d'
  | Throw _ d' | Wait d' => flips_arrived (f, k) d'
  | Undef => False
  end.
Proof.
  revert f k. induction fuel as [|fuel IH]; intros f k Hok; cbn [event_loop].
  { split; [done|]. by left. }
  destruct (select_and_read k) as [[ret k']|] eqn:Hsel; [|split; [done|by left]].
  pose proof (turn_arrived c ret f k k' Hok Hsel) as Harr.
  pose proof (turn_done c ret f) as Hdone.
  destruct (wait_for_flip_turn c ret f) as [p f'] eqn:Hturn. cbn [snd] in Harr.
  assert (match event_loop fuel c (f', k') with
          | Ret _ d' => flips d' !! c = None /\ flips_arrived (f, k) d'
          | Throw _ d' | Wait d' => flips_arrived (f, k) d'
          | Undef => False
          end) as Hrec.
  { specialize (IH f' k' (proj1 Harr)). destruct (event_loop fuel c (f', k')); try done.
    - destruct IH as [? ?]. split; [done|by eapply flips_arrived_trans].
    - by eapply flips_arrived_trans.
    - by eapply flips_arrived_trans. }
  destruct p as [| | |[]| |]; try exact Hrec; [|exact Harr].
  split; [|done]. specialize (Hdone f' eq_refl). destruct Harr as [Hok' _]. simpl in *.
  rewrite Hok' in Hdone. by apply not_elem_of_dom.
Qed.

(** More fuel than there are events to read changes nothing: the loop never
    stops for lack of it. *)
Lemma event_loop_fuel n1 n2 c f k :
  (events_left k < n1)%nat -> (events_left k < n2)%nat -> event_loop n1 c (f, k) = event_loop n2 c (f, k).
Proof.
  revert n2 f k. induction n1 as [|n1 IH]; intros [|n2] f k H1 H2; try lia. cbn [event_loop].
  destruct (select_and_read k) as [[ret k']|] eqn:Hsel; [|done].
  destruct (select_law k ret k' Hsel) as [Hlt _]. destruct (wait_for_flip_turn c ret f) as [[| | |[]| |] f']; try done;
    apply IH; lia.
Qed.

Lemma kms_schedule_law c fb (d : flipper_device) :
  device_ok d ->
  match kms_schedule_flip c fb d with
  | Ret b d' => flips d !! c = None /\
      (if b then device_ok d' /\ flips d' = <[c := fb]> (flips d) /\ forall c', shown d' c' = shown d c'
       else same_scanout d d')
  | Throw _ d' => is_Some (flips d !! c) /\ same_scanout d d'
  | Wait _ | Undef => False
  end.
Proof.
  destruct d as [f k]. intros Hok. simpl in Hok. unfold kms_schedule_flip.
  destruct (decide (c ∈ pending_page_flips f)) as [Hin|Hnin].
  { split; [|done]. simpl. rewrite Hok in Hin. by apply elem_of_dom. }
  pose proof (page_flip_law c fb k) as Hlaw. destruct (drmModePageFlip c fb k) as [ret k'].
  destruct Hlaw as [Hsh Hlaw]. assert (k_flips k !! c = None) as Hnone.
  { apply not_elem_of_dom. by rewrite <- Hok. }
  unfold schedule_flip, get, modify, mbind, M_bind. rewrite decide_False by done.
  destruct (ret =? 0); simpl; (split; [done|]).
  - destruct Hlaw as [_ ->]. split; [|done]. rewrite dom_insert_L, Hok. done.
  - split; [|done]. simpl. rewrite Hlaw, Hok. apply set_eq. intros x.
    rewrite elem_of_difference, elem_of_union, elem_of_singleton, elem_of_dom.
    split; [tauto|]. intros [y Hy]. split; [right; by exists y|]. intros ->. congruence.
Qed.

Lemma kms_wait_law t c (d : flipper_device) :
  device_ok d ->
  match kms_wait_for_flip t c d with
  | Ret _ d' => flips d' !! c = None /\ flips_arrived d d'
  | Throw _ d' | Wait d' => flips_arrived d d'
  | Undef => False
  end.
Proof.
  destruct d as [f k]. intros Hok. unfold kms_wait_for_flip, wait_for_flip_begin.
  assert (page_flip_is_done c f = true -> k_flips k !! c = None) as Hdone.
  { intros E. apply bool_decide_eq_true in E. simpl in Hok. rewrite Hok in E. by apply not_elem_of_dom. }
  assert (flips_arrived (f, k) (f, k)) as Hrefl by by apply flips_arrived_refl.
  destruct (worker_tid f) as [w|]; destruct (page_flip_is_done c f); simpl; auto.
  exact (event_loop_spec (S (events_left k)) c (mkFlipper (pending_page_flips f) (Some t)) k Hok).
Qed.

#[export] Instance kms_flipper_laws : PageFlipperLaws flipper_device.
Proof. split; [apply kms_schedule_law|apply (kms_wait_law 0)]. Qed.

(** C30: [KMSPageFlipper] keeps the promises of [PageFlipper] to its clients: at
    most one flip per crtc, under way exactly when [schedule_flip] has returned
    true, and shown when [wait_for_flip] returns, whichever thread calls it; and
    the event loop never ends for want of fuel. *)
Theorem kms_flipper_refines t :
  @PageFlipperLaws flipper_device
    (Build_PageFlipper flipper_device kms_schedule_flip (kms_wait_for_flip t)) flipper_scanout /\
  forall n c f k, (events_left k < n)%nat -> event_loop n c (f, k) = event_loop (S (events_left k)) c (f, k).
Proof.
  split.
  - split; [apply kms_schedule_law|apply (kms_wait_law t)].
  - intros n c f k Hn. apply event_loop_fuel; lia.
Qed.

#[export] Instance flipper_drm_laws : DrmLaws flipper_device.
Proof.
  split.
  - intros c fb x y ks m [f k]. simpl. intros Hok.
    destruct (kernel_set_crtc_law c fb x y ks m k) as [-> ?]. done.
  - intros w h depth bpp pitch handle [f k]. simpl. intros Hok.
    destruct (kernel_add_fb_law w h depth bpp pitch handle k) as [E ?]. split; simpl; [by rewrite E|]. split; done.
  - intros fb [f k]. simpl. by rewrite kernel_rm_fb_law.
Qed.

End Flipper.

Arguments flipper_device : clear implicits.
Arguments KernelLaws K {kernel events}.
