(* ===== verification/GbmDemo.v ===== *)
(** * A concrete card and concrete graphics libraries

    Instances of the classes that stand for the kernel's DRM device and for GBM,
    EGL and GL, with the laws the theorems ask of them, and the theorems on
    concrete outputs and display buffers. *)

From S2P Require Import Prelude Geometry PageFlip Drm KmsOutput DisplayConfig Egl GbmPlatform GbmDisplay GbmFlip GbmConfigure KmsFlipper.

(** ** A card *)

Record card : Set := mkCard {
  cd_resources : drmModeRes;
  cd_connectors : gmap Z drmModeConnector;
  cd_encoders : gmap Z drmModeEncoder;
  cd_crtcs : gmap Z drmModeCrtc;
  cd_next_fb : Z;
  cd_flips : gmap Z Z;
  (** The crtcs on which page flips fail. *)
  cd_refuse : gset Z;
}.

Definition set_crtcs (crtcs : gmap Z drmModeCrtc) (k : card) : card :=
  mkCard (cd_resources k) (cd_connectors k) (cd_encoders k) crtcs (cd_next_fb k) (cd_flips k) (cd_refuse k).
Definition set_flips (fl : gmap Z Z) (k : card) : card :=
  mkCard (cd_resources k) (cd_connectors k) (cd_encoders k) (cd_crtcs k) (cd_next_fb k) fl (cd_refuse k).

(** Connect the first of the connectors to the crtc, through the encoder it has
    or its first one. *)
Definition route (c : Z) (ks : list Z) (k : card) : card :=
  match ks with
  | [id] =>
      match cd_connectors k !! id with
      | None => k
      | Some con =>
          let e := if connector_encoder_id con =? 0 then default 0 (head (connector_encoders con))
                   else connector_encoder_id con in
          mkCard (cd_resources k)
            (<[id := mkConnector (connector_connector_id con) e (connection con) (mmWidth con) (mmHeight con)
                       (connector_modes con) (connector_encoders con)]> (cd_connectors k))
            (alter (fun en => mkEncoder (encoder_id en) c (possible_crtcs en)) e (cd_encoders k))
            (cd_crtcs k) (cd_next_fb k) (cd_flips k) (cd_refuse k)
      end
  | _ => k
  end.

#[export] Instance card_drm : Drm card := {
  drmModeGetResources k := Some (cd_resources k);
  drmModeGetConnector id k := cd_connectors k !! id;
  drmModeGetEncoder id k := cd_encoders k !! id;
  drmModeGetCrtc id k := cd_crtcs k !! id;
  drmModeSetCrtc c fb x y ks m k :=
    match cd_crtcs k !! c with
    | None => (-2, k)
    | Some _ => (0, set_crtcs (<[c := mkCrtc c fb x y m]> (cd_crtcs k)) (route c ks k))
    end;
  drmModeAddFB w h depth bpp pitch handle k :=
    ((0, cd_next_fb k),
     mkCard (cd_resources k) (cd_connectors k) (cd_encoders k) (cd_crtcs k) (cd_next_fb k + 1) (cd_flips k) (cd_refuse k));
  drmModeRmFB fb k := k;
}.

#[export] Instance card_events : DrmEvents card := {
  drmModePageFlip c fb k :=
    if decide (c ∈ cd_refuse k \/ is_Some (cd_flips k !! c)) then (-16, k)
    else (0, set_flips (<[c := fb]> (cd_flips k)) k);
  select_and_read k :=
    match map_to_list (cd_flips k) with
    | [] => None
    | (c, fb) :: _ =>
        Some (select_events [c],
              set_crtcs (<[c := mkCrtc c fb 0 0 (default drmModeModeInfo0 (crtc_mode <$> cd_crtcs k !! c))]> (cd_crtcs k))
                (set_flips (delete c (cd_flips k)) k))
    end;
  events_left k := base.size (cd_flips k);
}.

Definition card_shown (k : card) (c : Z) : option Z := buffer_id <$> cd_crtcs k !! c.

Lemma route_flips c ks k : cd_flips (route c ks k) = cd_flips k.
Proof. unfold route. destruct ks as [|id [|]]; try done. by destruct (cd_connectors k !! id). Qed.

#[export, refine] Instance card_laws : KernelLaws card := {
  k_shown := card_shown;
  k_flips := cd_flips;
}.
Proof.
  - intros c fb k. simpl. case_decide as H; simpl; [done|]. split; [done|]. split; [|done].
    apply eq_None_not_Some. tauto.
  - intros k ret k'. simpl. destruct (map_to_list (cd_flips k)) as [|[c fb] l] eqn:E; [done|].
    assert (cd_flips k !! c = Some fb) as Hc by (apply elem_of_map_to_list; rewrite E; left).
    intros [= <- <-]. simpl. split.
    { rewrite <- (insert_delete_id (cd_flips k) c fb Hc) at 2. rewrite map_size_insert_None; [lia|]. apply lookup_delete_eq. }
    intros c'. destruct (decide (c' ∈ [c])) as [->%list_elem_of_singleton|Hne].
    + split; [apply lookup_delete_eq|]. exists fb. split; [done|]. unfold card_shown. simpl. by rewrite lookup_insert_eq.
    + rewrite list_elem_of_singleton in Hne. unfold card_shown. simpl.
      by rewrite lookup_delete_ne, lookup_insert_ne by congruence.
  - intros c fb x y ks m k. simpl. destruct (cd_crtcs k !! c); simpl; [|done]. rewrite route_flips. split; [done|].
    intros _. unfold card_shown. simpl. by rewrite lookup_insert_eq.
  - done.
  - done.
Defined.

(** ** Graphics libraries *)

Record libs : Set := mkLibs {
  li_contexts : gset Z; li_surfaces : gset Z; li_initialized : gset Z;
  li_current : Z; li_version : Z * Z;
  li_fds : gset Z; li_authenticated : gset Z; li_devices : gset Z;
  li_locked : gset Z; li_front : Z;
}.

Definition set_contexts x (l : libs) := mkLibs x (li_surfaces l) (li_initialized l) (li_current l) (li_version l)
  (li_fds l) (li_authenticated l) (li_devices l) (li_locked l) (li_front l).
Definition set_surfaces x (l : libs) := mkLibs (li_contexts l) x (li_initialized l) (li_current l) (li_version l)
  (li_fds l) (li_authenticated l) (li_devices l) (li_locked l) (li_front l).
Definition set_initialized x (l : libs) := mkLibs (li_contexts l) (li_surfaces l) x (li_current l) (li_version l)
  (li_fds l) (li_authenticated l) (li_devices l) (li_locked l) (li_front l).
Definition set_fds x y (l : libs) := mkLibs (li_contexts l) (li_surfaces l) (li_initialized l) (li_current l) (li_version l)
  x y (li_devices l) (li_locked l) (li_front l).
Definition set_devices x (l : libs) := mkLibs (li_contexts l) (li_surfaces l) (li_initialized l) (li_current l) (li_version l)
  (li_fds l) (li_authenticated l) x (li_locked l) (li_front l).
Definition set_locked x (l : libs) := mkLibs (li_contexts l) (li_surfaces l) (li_initialized l) (li_current l) (li_version l)
  (li_fds l) (li_authenticated l) (li_devices l) x (li_front l).
Definition set_front x (l : libs) := mkLibs (li_contexts l) (li_surfaces l) (li_initialized l) (li_current l) (li_version l)
  (li_fds l) (li_authenticated l) (li_devices l) (li_locked l) x.

#[export] Instance libs_egl : Egl libs := {
  eglGetDisplay _ g := (7, g);
  eglInitialize d g := (Some (li_version g), set_initialized ({[ d ]} ∪ li_initialized g) g);
  eglBindAPI _ g := g;
  eglChooseConfig _ _ g := (Some (3, 1), g);
  eglCreateContext _ _ _ _ g := (above (li_contexts g), set_contexts ({[ above (li_contexts g) ]} ∪ li_contexts g) g);
  eglCreateWindowSurface _ _ _ g := (above (li_surfaces g), set_surfaces ({[ above (li_surfaces g) ]} ∪ li_surfaces g) g);
  eglGetCurrentContext := li_current;
  eglMakeCurrent _ _ _ _ g := (true, g);
  (** The new front buffer is one of three that is not locked. *)
  eglSwapBuffers _ _ g := (true, set_front (if decide (1 ∈ li_locked g) then if decide (2 ∈ li_locked g) then 3 else 2 else 1) g);
  eglDestroyContext _ c g := set_contexts (li_contexts g ∖ {[ c ]}) g;
  eglDestroySurface _ s g := set_surfaces (li_surfaces g ∖ {[ s ]}) g;
  eglTerminate d g := set_initialized (li_initialized g ∖ {[ d ]}) g;
}.

#[export, refine] Instance libs_egl_laws : EglLaws libs := {
  contexts := li_contexts; surfaces := li_surfaces; initialized := li_initialized;
}.
Proof.
  all: try done.
  - intros d c sh l g x. subst x. simpl. rewrite decide_False; [done|].
    destruct (above_fresh (li_contexts g)). lia.
  - intros d c n g x. subst x. simpl. rewrite decide_False; [done|].
    destruct (above_fresh (li_surfaces g)). lia.
Defined.

#[export] Instance libs_surface : GbmSurface libs := {
  gbm_surface_lock_front_buffer _ g :=
    if decide (li_front g ∈ li_locked g) then (None, g)
    else (Some (li_front g), set_locked ({[ li_front g ]} ∪ li_locked g) g);
  gbm_surface_release_buffer _ bo g := set_locked (li_locked g ∖ {[ bo ]}) g;
  gbm_surface_destroy _ g := g;
  gbm_bo_get_handle bo _ := bo;
  gbm_bo_get_stride _ _ := 7680;
  glClear g := g;
  egl_extensions _ := Some "EGL_MESA_drm_image"%string;
  gl_extensions _ := Some "GL_OES_EGL_image"%string;
}.

#[export, refine] Instance libs_gbm_laws : GbmLaws libs := { locked _ g := li_locked g }.
Proof.
  - intros s g. simpl. by case_decide.
  - done.
  - done.
Defined.

#[export] Instance libs_access : DrmAccess libs := {
  drmOpen driver g :=
    if String.eqb driver "i915" then (-19, g)
    else let fd := above (li_fds g ∪ li_authenticated g) in (fd, set_fds ({[ fd ]} ∪ li_fds g) (li_authenticated g) g);
  drmClose fd g := set_fds (li_fds g ∖ {[ fd ]}) (li_authenticated g ∖ {[ fd ]}) g;
  close fd g := set_fds (li_fds g ∖ {[ fd ]}) (li_authenticated g ∖ {[ fd ]}) g;
  drmGetMagic fd g := ((0, fd), g);
  drmAuthMagic _ magic g :=
    (0, set_fds (li_fds g) (li_authenticated g ∪ (if decide (magic ∈ li_fds g) then {[ magic ]} else ∅)) g);
  gbm_create_device _ g := (above (li_devices g), set_devices ({[ above (li_devices g) ]} ∪ li_devices g) g);
  gbm_device_destroy dev g := set_devices (li_devices g ∖ {[ dev ]}) g;
  gbm_surface_create _ _ _ _ _ g := (1, g);
}.

#[export, refine] Instance libs_access_laws : DrmAccessLaws libs := {
  open_fds := li_fds; devices := li_devices; authenticated := li_authenticated; cookie fd _ := fd;
}.
Proof.
  all: try done.
  - intros s k. simpl. destruct (String.eqb s "i915"); [done|]. simpl.
    destruct (above_fresh (li_fds k ∪ li_authenticated k)) as [Hn Hp]. destruct (Z.ltb_spec (above (li_fds k ∪ li_authenticated k)) 0); [lia|].
    split; [done|]. split; [done|]. set_solver.
  - intros m magic k. simpl. split; [done|]. split; [done|]. intros fd. case_decide; set_solver.
  - intros fd k. simpl. destruct (above_fresh (li_devices k)) as [Hn Hp].
    destruct (Z.eqb_spec (above (li_devices k)) 0); [lia|]. done.
Defined.

(** ** A card with two monitors

    One is lit by the firmware through crtc 10, the other one is off. *)

Definition demo_mode : drmModeModeInfo := mode_1080p.
Definition demo_mode2 : drmModeModeInfo := mkMode 85500 1366 1436 1579 1792 0 768 771 774 798 0 60 5 64.

Definition demo_card (refuse : gset Z) : card :=
  mkCard (mkRes [10; 11] [30; 31] [20; 21])
    (<[30 := mkConnector 30 20 DRM_MODE_CONNECTED 510 290 [demo_mode2; demo_mode] [20]]>
      {[ 31 := mkConnector 31 0 DRM_MODE_CONNECTED 410 230 [demo_mode2] [21] ]})
    (<[20 := mkEncoder 20 10 1]> {[ 21 := mkEncoder 21 0 3 ]})
    (<[10 := mkCrtc 10 99 0 0 demo_mode]> {[ 11 := mkCrtc 11 0 0 0 drmModeModeInfo0 ]})
    100 ∅ refuse.

Definition demo_libs : libs := mkLibs ∅ ∅ ∅ 0 (1, 4) ∅ ∅ ∅ ∅ 1.

Definition demo_world (refuse : gset Z) : world (flipper_device card) libs :=
  mkWorld (KMSPageFlipper_new, demo_card refuse) ∅ demo_libs.

Definition demo_start (refuse : gset Z) : outcome (gbm_display (flipper_device card) libs) unit :=
  GBMDisplay_new (mkPlatform 5 6) (demo_world refuse).


(** The display buffer of the display once it is set up. *)
Definition demo_display (refuse : gset Z) : option (display (flipper_device card) libs) :=
  match demo_start refuse with
  | Ret _ s => (fun b => mkDisplay b (gd_world s)) <$> head (display_buffers (gd_display s))
  | _ => None
  end.

Lemma demo_flipped refuse :
  refuse = ∅ \/ refuse = {[ 11 ]} ->
  match demo_display refuse with
  | Some s => flipped_to 1 100 [10; 11] s /\ shown (device_of s) 10 = Some 100 /\ shown (device_of s) 11 = Some 100
  | None => False
  end.
Proof.
  intros [-> | ->].
  all: vm_compute demo_display; split; [|by split].
  all: split; [reflexivity|reflexivity|reflexivity|vm_compute; reflexivity| | |].
  all: try (repeat constructor; vm_compute; try reflexivity; set_solver).
  all: intros c Hc; reflexivity.
Qed.

(** ** The theorems on it *)

Definition demo_connector : drmModeConnector :=
  mkConnector 31 0 DRM_MODE_CONNECTED 410 230 [demo_mode2] [21].

Definition demo_output : KMSOutput := mkOutput 31 (Some demo_connector) 0 None drmModeCrtc0 true.

(** The output that is off gets the crtc the other one does not use. *)
Lemma ensure_crtc_choice_witness :
  exists res,
    ensure_crtc (mkKms demo_output (demo_card ∅)) =
      Ret (bool_decide (is_Some res)) (mkKms (set_current_crtc res demo_output) (demo_card ∅)) /\
    match encoder_crtc 0 (demo_card ∅), res with
    | Some k, _ => res = Some k
    | None, Some k => exists i, crtcs_of (demo_card ∅) (cd_resources (demo_card ∅)) !! i = Some k /\
        can_drive (demo_card ∅) (cd_resources (demo_card ∅)) demo_connector (Z.of_nat i) k /\
        forall j k', (j < i)%nat -> crtcs_of (demo_card ∅) (cd_resources (demo_card ∅)) !! j = Some k' ->
          ~ can_drive (demo_card ∅) (cd_resources (demo_card ∅)) demo_connector (Z.of_nat j) k'
    | None, None => forall i k, crtcs_of (demo_card ∅) (cd_resources (demo_card ∅)) !! i = Some k ->
        ~ can_drive (demo_card ∅) (cd_resources (demo_card ∅)) demo_connector (Z.of_nat i) k
    end.
Proof.
  apply (ensure_crtc_choice demo_output (demo_card ∅) demo_connector (cd_resources (demo_card ∅)));
    try reflexivity.
  - intros id Hid. apply list_elem_of_singleton in Hid as ->. vm_compute. eexists. reflexivity.
  - vm_compute. lia.
Defined.

Example demo_choice :
  ensure_crtc (mkKms demo_output (demo_card ∅)) =
    Ret true (mkKms (set_current_crtc (Some (mkCrtc 11 0 0 0 drmModeModeInfo0)) demo_output) (demo_card ∅)).
Proof. vm_compute. reflexivity. Qed.

Definition demo_device : flipper_device card := (KMSPageFlipper_new, demo_card ∅).

Definition demo_lit : KMSOutput :=
  mkOutput 30 (Some (mkConnector 30 20 DRM_MODE_CONNECTED 510 290 [demo_mode2; demo_mode] [20])) 0
    None (mkCrtc 10 99 0 0 demo_mode) true.

(** The monitor the firmware had lit is put back to its framebuffer. *)
Lemma delete_restores_witness :
  match run_calls [call_set_crtc 100] false (mkKms demo_lit demo_device) with
  | Some (set, s) => set = true /\
      KMSOutput_delete s =
        match out_connector (k_output s) with
        | Some c => Ret tt (mkKms (set_using_saved true (k_output s))
            (snd (drmModeSetCrtc 10 99 0 0 [connector_connector_id c] demo_mode (k_device s))))
        | None => Undef
        end
  | None => False
  end.
Proof.
  destruct (run_calls [call_set_crtc 100] false (mkKms demo_lit demo_device)) as [[set s]|] eqn:E; [|by vm_compute in E].
  assert (set = true) as -> by (vm_compute in E; by injection E as <- _).
  split; [reflexivity|].
  exact (delete_restores 30 demo_device demo_lit demo_device [call_set_crtc 100] true s eq_refl E).
Defined.

Lemma configuration_of_device_witness :
  let d := demo_card ∅ in let r := cd_resources d in
  exists conf, KMSDisplayConfiguration_new d = Ret conf d /\
    Forall2 (describes d) (connectors_of d r) conf /\
    (forall c, c ∈ connectors_of d r -> is_u32 (connector_connector_id c) ->
       get_kms_connector_id conf (i32 (connector_connector_id c)) d = Ret (connector_connector_id c) d) /\
    (forall id, (forall c, c ∈ connectors_of d r -> i32 (connector_connector_id c) <> id) ->
       get_kms_connector_id conf id d =
         Throw (runtime_error "Failed to find DisplayConfigurationOutput with provided id") d).
Proof.
  cbv zeta. apply configuration_of_device; [reflexivity|].
  intros c m Hc Hm. vm_compute in Hc.
  repeat (apply elem_of_cons in Hc as [->|Hc]; [|]); [| |by apply elem_of_nil in Hc].
  all: vm_compute in Hm; repeat (apply elem_of_cons in Hm as [->|Hm]; [vm_compute; discriminate|]);
    by apply elem_of_nil in Hm.
Defined.

(** The second of the two modes is the one the firmware has set. *)
Example demo_configuration :
  match KMSDisplayConfiguration_new (demo_card ∅) with
  | Ret [a; b] _ => current_mode_index a = 1 /\ current_mode_index b = size_t_max
  | _ => False
  end.
Proof. vm_compute. done. Qed.

Lemma egl_setup_releases_witness :
  match setup_of (use_context 6) (mkEglState EGLHelper_new demo_libs) with
  | Ret _ s => exists s', EGLHelper_delete s = Ret tt s' /\ nothing_left demo_libs (e_egl s')
  | Throw e s => e <> incompatible -> exists s', EGLHelper_delete s = Ret tt s' /\ nothing_left demo_libs (e_egl s')
  | Wait _ | Undef => False
  end.
Proof. exact (egl_setup_releases demo_libs (use_context 6)). Defined.

(** EGL of another version. *)
Definition demo_libs15 : libs := mkLibs ∅ ∅ ∅ 0 (1, 5) ∅ ∅ ∅ ∅ 1.

Lemma incompatible_display_stays_witness :
  exists s s', egl_setup 6 (mkEglState EGLHelper_new demo_libs15) = Throw incompatible s /\
    EGLHelper_delete s = Ret tt s' /\ fst (eglGetDisplay 6 demo_libs15) ∈ initialized (e_egl s').
Proof.
  apply (incompatible_display_stays demo_libs15 6 1 5); [discriminate|reflexivity|right; discriminate].
Defined.

Lemma platform_gives_back_witness :
  match GBMPlatform_new demo_libs with
  | Ret p k1 =>
      one_more demo_libs (platform_drm p) (gbm_device_destroy (platform_gbm p) k1) /\
      (match get_ipc_package p k1 with
       | Ret fds k2 => exists fd, fds = [fd] /\ one_more k1 fd k2 /\ fd ∈ authenticated k2 /\
           exists k3, ipc_package_delete fds k2 = Ret tt k3 /\ same_access k1 k3
       | Throw _ k2 => same_access k1 k2
       | Wait _ | Undef => False
       end) /\
      exists k4, GBMPlatform_delete p k1 = Ret tt k4 /\ same_access demo_libs k4
  | Throw _ k1 => same_access demo_libs k1
  | Wait _ | Undef => False
  end.
Proof. exact (platform_gives_back demo_libs). Defined.

Lemma kms_flipper_refines_witness :
  @PageFlipperLaws (flipper_device card)
    (Build_PageFlipper (flipper_device card) kms_schedule_flip (kms_wait_for_flip 3)) flipper_scanout.
Proof. exact (proj1 (kms_flipper_refines (K := card) 3)). Defined.

Lemma post_update_flips_witness :
  match demo_display ∅ with
  | Some s =>
      match post_update s with
      | Ret true s' => exists bo' fb' answers d1 d2, bo' <> 1 /\ flipped_to bo' fb' [10; 11] s' /\
          same_scanout (device_of s) d1 /\ attempts fb' [10; 11] answers d1 d2 /\ true ∈ answers /\
          shows fb' [10; 11] answers (device_of s) (device_of s')
      | Ret false s' => no_flip [10; 11] s /\ flipped_to 1 100 [10; 11] s' /\ forall c, shown (device_of s') c = shown (device_of s) c
      | Throw _ s' | Wait s' => last_flipped_bufobj (s_buffer s') = Some 1 /\
          exists bo', bo' <> 1 /\ locked_of s' = {[ bo'; 1 ]}
      | Undef => False
      end
  | None => False
  end.
Proof.
  pose proof (demo_flipped ∅ (or_introl eq_refl)) as H. destruct (demo_display ∅) as [s|]; [|exact H].
  exact (post_update_flips 1 100 [10; 11] s (proj1 H)).
Defined.

Example demo_post_update :
  match demo_display ∅ with
  | Some s =>
      match post_update s with
      | Ret true s' => last_flipped_bufobj (s_buffer s') = Some 2 /\ locked_of s' = {[ 2 ]} /\
          shown (device_of s') 10 = Some 101 /\ shown (device_of s') 11 = Some 101
      | _ => False
      end
  | None => False
  end.
Proof. vm_compute. done. Qed.

(** The second crtc refuses flips: it keeps showing buffer 1, which is given
    back. *)
Lemma partial_flip_releases_shown_witness :
  match demo_display {[ 11 ]} with
  | Some s =>
      match post_update s with
      | Ret true s' => shown (device_of s') 11 = Some 100 /\ 1 ∉ locked_of s'
      | _ => False
      end
  | None => False
  end.
Proof.
  pose proof (demo_flipped {[ 11 ]} (or_intror eq_refl)) as H. destruct (demo_display {[ 11 ]}) as [s|] eqn:Hs; [|exact H].
  assert (match post_update s with
          | Ret true s' => last_flipped_bufobj (s_buffer s') = Some 2 /\ bufobjs (s_buffer s') !! 2 = Some 101 /\
              shown (device_of s') 11 = Some 100
          | _ => False
          end) as Hrun by (vm_compute in Hs; injection Hs as <-; vm_compute; done).
  destruct (post_update s) as [[] s'| | |] eqn:E; try exact Hrun. destruct Hrun as (H1 & H2 & H3), H as (Hft & _ & H11).
  apply (partial_flip_releases_shown 1 100 [10; 11] s s' 11 Hft E); [right; left|exact H11|].
  intros bo' fb' Hb Hf. rewrite H1 in Hb. injection Hb as <-. rewrite H2 in Hf. injection Hf as <-. rewrite H3. discriminate.
Defined.

Definition demo_gd : gbm_display (flipper_device card) libs := mkGD (mkGbmDisplay EGLHelper_new []) (demo_world ∅).

Definition demo_conf : KMSDisplayConfiguration :=
  match KMSDisplayConfiguration_new (demo_card ∅) with Ret conf _ => conf | _ => [] end.

Lemma configure_covers_outputs_witness :
  match configure (mkPlatform 5 6) demo_conf demo_gd with
  | Ret _ s' => exists b, display_buffers (gd_display s') = [b] /\ db_outputs b = enabled_ids demo_conf /\
      view_area s' = Ret (mkRectangle (mkPoint (wrap 0) (wrap 0)) (db_size b)) s' /\
      forall id, id ∈ enabled_ids demo_conf -> lit (gd_world s') id /\
        exists o m, w_outputs (gd_world s') !! id = Some o /\ current_mode o = Some m /\ covers (db_size b) m
  | _ => False
  end.
Proof.
  assert (match configure (mkPlatform 5 6) demo_conf demo_gd with Ret _ _ => True | _ => False end) as Hret
    by (vm_compute; exact Logic.I).
  destruct (configure (mkPlatform 5 6) demo_conf demo_gd) as [[] s'|e s'|s'|] eqn:E;
    [|destruct Hret|destruct Hret|destruct Hret].
  exact (configure_covers_outputs (mkPlatform 5 6) demo_conf demo_gd s' E).
Defined.
