(* ===== verification/AndroidDemo.v ===== *)
(** * The Android display on concrete libraries

    The calls of EGL that only the Android display makes, for the libraries of
    [GbmDemo], and the display's theorem on them. *)

From S2P Require Import Prelude Geometry Buffers Swapper Bundle AndroidBuffers Egl AndroidDisplay GbmDisplay GbmDemo.

(** Configuration 3 has the visual of format 1; there is no other. *)
#[export] Instance libs_android_egl : AndroidEgl libs := {
  eglGetConfigs _ g := (2, g);
  eglChooseConfigs _ _ _ g := ([2; 3], g);
  eglGetConfigAttrib _ c _ _ := if c =? 3 then 1 else 0;
  eglCreatePbufferSurface _ _ _ g :=
    (above (li_surfaces g), GbmDemo.set_surfaces ({[ above (li_surfaces g) ]} ∪ li_surfaces g) g);
  eglQuerySurface _ _ attr _ := if attr =? EGL_WIDTH then 1080 else 1920;
  glClearBuffers g := g;
}.

#[export] Instance libs_android_egl_laws : AndroidEglLaws libs.
Proof.
  split; try done. intros d c l g x. subst x. simpl. rewrite decide_False; [done|].
  destruct (above_fresh (li_surfaces g)). lia.
Qed.

(** The window's format is one no configuration has: EGL stays initialised. *)
Lemma android_display_accounting_witness :
  match AndroidDisplay_new (mkWindow 5 7) demo_libs with
  | Throw e g' =>
      (early e /\ objects g' = objects demo_libs) \/
      (~ early e /\ fst (eglGetDisplay 0 demo_libs) ∈ initialized g' /\
       contexts demo_libs ⊆ contexts g' /\ surfaces demo_libs ⊆ surfaces g')
  | _ => False
  end.
Proof. exact (android_display_accounting (mkWindow 5 7) demo_libs). Defined.

(** With the right format the display is made and its area known. *)
Example demo_android_display :
  match (d ← AndroidDisplay_new (mkWindow 5 1) ; android_view_area d) demo_libs with
  | Ret r _ => r = mkRectangle (mkPoint (wrap 0) (wrap 0)) (mkSize (wrap 1080) (wrap 1920))
  | _ => False
  end.
Proof. vm_compute. reflexivity. Qed.
