(* ===== verification/Input.v ===== *)
(** * Input

    [input::EventFilterChain] ([src/server/input/event_filter_chain.cpp]), and
    what sits between it and the Android input stack
    ([src/server/input/android/]): the translation of events
    ([android_input_lexicon.cpp]), the dispatcher's policy
    ([event_filter_dispatcher_policy.cpp]), the pointer
    ([android_pointer_controller.cpp]) and the input manager with its window
    handles ([android_input_manager.cpp], [android_input_window_handle.cpp]).

    A [float] is a binary32 number of [SpecFloat], rounded to nearest. *)

From Stdlib Require Import SpecFloat.
From S2P Require Import Prelude Geometry.

Abbreviation float := spec_float.

Definition float_of_Z (z : Z) : float := binary_normalize 24 128 z 0 false.

Definition float_add : float -> float -> float := SFadd 24 128.

(** [std::min] and [std::max]. *)
Definition std_min (a b : float) : float := if SFltb b a then b else a.
Definition std_max (a b : float) : float := if SFltb a b then b else a.

(** ** Events *)

(** What the Android stack's events have getters for. *)
Record AndroidKeyEvent : Set := mkAKey {
  ak_action : Z; ak_flags : Z; ak_meta_state : Z;
  ak_key_code : Z; ak_scan_code : Z; ak_repeat_count : Z;
  ak_down_time : Z; ak_event_time : Z;
}.

Record AndroidPointer : Set := mkAPointer {
  ap_id : Z;
  ap_x : float; ap_raw_x : float; ap_y : float; ap_raw_y : float;
  ap_touch_major : float; ap_touch_minor : float; ap_size : float; ap_pressure : float; ap_orientation : float;
}.

Record AndroidMotionEvent : Set := mkAMotion {
  am_action : Z; am_flags : Z; am_meta_state : Z;
  am_edge_flags : Z; am_button_state : Z;
  am_x_offset : float; am_y_offset : float; am_x_precision : float; am_y_precision : float;
  am_down_time : Z; am_event_time : Z;
  am_pointers : list AndroidPointer;
}.

Inductive AndroidEventDetails : Set :=
| AINPUT_EVENT_TYPE_KEY (kev : AndroidKeyEvent)
| AINPUT_EVENT_TYPE_MOTION (mev : AndroidMotionEvent)
| AINPUT_EVENT_TYPE_OTHER (type : Z).

Record AndroidEvent : Set := mkAEvent {
  ae_device_id : Z;
  ae_source : Z;
  ae_details : AndroidEventDetails;
}.

Record KeyEvent : Set := mkKeyEvent {
  key_code : Z; scan_code : Z; repeat_count : Z;
  key_down_time : Z; key_event_time : Z;
  is_system_key : bool;
}.

Record PointerCoordinates : Set := mkPointer {
  pointer_id : Z;
  pointer_x : float; pointer_raw_x : float; pointer_y : float; pointer_raw_y : float;
  pointer_touch_major : float; pointer_touch_minor : float; pointer_size : float;
  pointer_pressure : float; pointer_orientation : float;
}.

Record MotionEvent : Set := mkMotionEvent {
  edge_flags : Z; button_state : Z;
  x_offset : float; y_offset : float; x_precision : float; y_precision : float;
  motion_down_time : Z; motion_event_time : Z;
  pointer_count : Z;
  (** The entries of the array that have been written. *)
  pointer_coordinates : list PointerCoordinates;
}.

Record HardwareSwitchEvent : Set := mkSwitchEvent {
  switch_event_time : Z; policy_flags : Z; switch_code : Z; switch_value : Z;
}.

Inductive MirEventDetails : Set :=
| MIR_INPUT_EVENT_TYPE_KEY (key : KeyEvent)
| MIR_INPUT_EVENT_TYPE_MOTION (motion : MotionEvent)
| MIR_INPUT_EVENT_TYPE_HW_SWITCH (hw_switch : HardwareSwitchEvent).

Record MirEvent : Set := mkMirEvent {
  device_id : Z; source_id : Z; action : Z; flags : Z; meta_state : Z;
  details : MirEventDetails;
}.

Definition MIR_INPUT_EVENT_MAX_POINTER_COUNT : nat := 16.

Definition translate_pointer (p : AndroidPointer) : PointerCoordinates :=
  mkPointer (ap_id p) (ap_x p) (ap_raw_x p) (ap_y p) (ap_raw_y p)
    (ap_touch_major p) (ap_touch_minor p) (ap_size p) (ap_pressure p) (ap_orientation p).

(** The loop over the pointers, from index [i]: writing past the array is
    undefined. *)
Fixpoint translate_pointers {S} (i : nat) (ps : list AndroidPointer) : M S (list PointerCoordinates) :=
  match ps with
  | [] => mret []
  | p :: ps' =>
      if decide (i < MIR_INPUT_EVENT_MAX_POINTER_COUNT)%nat then
        l ← translate_pointers (Datatypes.S i) ps' ; mret (translate_pointer p :: l)
      else undefined
  end.

(** [Lexicon::translate]; [None] is an event whose members have not been set. *)
Definition translate {S} (android_event : AndroidEvent) : M S (option MirEvent) :=
  match ae_details android_event with
  | AINPUT_EVENT_TYPE_KEY kev =>
      mret (Some (mkMirEvent (ae_device_id android_event) (ae_source android_event)
        (ak_action kev) (ak_flags kev) (ak_meta_state kev)
        (MIR_INPUT_EVENT_TYPE_KEY (mkKeyEvent (ak_key_code kev) (ak_scan_code kev) (ak_repeat_count kev)
           (ak_down_time kev) (ak_event_time kev) false))))
  | AINPUT_EVENT_TYPE_MOTION mev =>
      ps ← translate_pointers 0 (am_pointers mev) ;
      mret (Some (mkMirEvent (ae_device_id android_event) (ae_source android_event)
        (am_action mev) (am_flags mev) (am_meta_state mev)
        (MIR_INPUT_EVENT_TYPE_MOTION (mkMotionEvent (am_edge_flags mev) (am_button_state mev)
           (am_x_offset mev) (am_y_offset mev) (am_x_precision mev) (am_y_precision mev)
           (am_down_time mev) (am_event_time mev) (Z.of_nat (length (am_pointers mev))) ps))))
  | AINPUT_EVENT_TYPE_OTHER _ => mret None
  end.

(** ** Filters *)

Section Filters.
Context {S : Type}.

(** [EventFilter::handles], with the state [S] the filters share.  [None] is a
    [MirEvent] whose members have never been set: what a filter does with it is
    the filter's affair. *)
Definition EventFilter : Type := option MirEvent -> M S bool.

(** [EventFilterChain::handles]. *)
Fixpoint chain_handles (filters : list EventFilter) (event : option MirEvent) : M S bool :=
  match filters with
  | [] => mret false
  | filter :: filters' =>
      handled ← filter event ;
      if handled : bool then mret true else chain_handles filters' event
  end.

(** [EventFilterDispatcherPolicy::filterInputEvent]: whether to pass the event
    on. *)
Definition filterInputEvent (event_filter : EventFilter) (input_event : AndroidEvent) : M S bool :=
  mir_ev ← translate input_event ;
  handled ← event_filter mir_ev ;
  mret (if handled : bool then false else true).

End Filters.

Arguments EventFilter : clear implicits.

Definition POLICY_FLAG_PASS_TO_USER : Z := 1073741824.

(** [interceptKeyBeforeQueueing]: the new flags. *)
Definition interceptKeyBeforeQueueing (policy_flags : Z) : Z := Z.lor policy_flags POLICY_FLAG_PASS_TO_USER.

(** ** The pointer *)

Record PointerController : Set := mkController {
  pc_state : Z;
  pc_x : float;
  pc_y : float;
}.

Definition PointerController_new : PointerController := mkController 0 (S754_zero false) (S754_zero false).

(** The calls of [cursor_moved_to] the listener gets. *)
Record pointer : Set := mkPointerState {
  controller : PointerController;
  notified : list (float * float);
}.

Section Pointer.
(** [view_area()] of the viewable area, and whether there is a listener. *)
Variable area : Rectangle.
Variable has_listener : bool.

Definition get_bounds_locked : (float * float) * (float * float) :=
  let x := float_of_Z (as_uint32_t (point_x (top_left area))) in
  let y := float_of_Z (as_uint32_t (point_y (top_left area))) in
  ((x, y),
   (float_add x (float_of_Z (as_uint32_t (size_width (rect_size area)))),
    float_add y (float_of_Z (as_uint32_t (size_height (rect_size area)))))).

Definition notify_listener (p : pointer) : pointer :=
  if has_listener
  then mkPointerState (controller p) (notified p ++ [(pc_x (controller p), pc_y (controller p))])
  else p.

Definition setPosition (new_x new_y : float) (p : pointer) : pointer :=
  let '((min_x, min_y), (max_x, max_y)) := get_bounds_locked in
  notify_listener (mkPointerState
    (mkController (pc_state (controller p))
       (std_max min_x (std_min max_x new_x)) (std_max min_y (std_min max_y new_y)))
    (notified p)).

Definition move (delta_x delta_y : float) (p : pointer) : pointer :=
  setPosition (float_add (pc_x (controller p)) delta_x) (float_add (pc_y (controller p)) delta_y) p.

Definition setButtonState (state : Z) (p : pointer) : pointer :=
  mkPointerState (mkController state (pc_x (controller p)) (pc_y (controller p))) (notified p).

Definition getButtonState (p : pointer) : Z := pc_state (controller p).

Definition getPosition (p : pointer) : float * float := (pc_x (controller p), pc_y (controller p)).

End Pointer.

(** ** Window handles *)

(** [input::SurfaceTarget]. *)
Record SurfaceTarget : Set := mkTarget {
  st_name : string;
  st_size : Size;
  st_server_input_fd : Z;
}.

(** An input channel of the Android stack: which one it is, and its
    descriptor. *)
Record InputChannel : Set := mkChannel { channel_object : nat; channel_fd : Z }.

Record InputWindowInfo : Set := mkWindowInfo {
  wi_channel : InputChannel;
  frameLeft : Z; frameTop : Z; frameRight : Z; frameBottom : Z;
  wi_name : string;
  layoutParamsFlags : Z; layoutParamsType : Z;
  scaleFactor : float;
  wi_visible : bool; canReceiveKeys : bool; hasFocus : bool; hasWallpaper : bool; paused : bool;
  dispatchingTimeout : Z;
  ownerPid : Z; ownerUid : Z; inputFeatures : Z;
  touchableRegionLeft : Z; touchableRegionTop : Z; touchableRegionRight : Z; touchableRegionBottom : Z;
  wi_layer : Z;
}.

Definition FLAG_NOT_TOUCH_MODAL : Z := 32.
Definition TYPE_APPLICATION : Z := 2.
Definition INT_MAX : Z := 2147483647.

#[export] Instance InputChannel_eq_dec : EqDecision InputChannel.
Proof. solve_decision. Defined.
#[export] Instance InputChannel_countable : Countable InputChannel.
Proof.
  refine (inj_countable' (fun c => (channel_object c, channel_fd c)) (fun p => mkChannel (fst p) (snd p)) _).
  by intros [].
Defined.

(** [InputWindowHandle::updateInfo] on a handle that has [info]; [fresh] is the
    channel made for a handle that has none.  The touchable region and the layer
    are not set: they are what they were, or the zeros of a new object. *)
Definition updateInfo (surface : SurfaceTarget) (fresh : nat) (info : option InputWindowInfo) : InputWindowInfo :=
  let channel := match info with
                 | Some i => wi_channel i
                 | None => mkChannel fresh (st_server_input_fd surface)
                 end in
  let kept (field : InputWindowInfo -> Z) := match info with Some i => field i | None => 0 end in
  mkWindowInfo channel 0 0
    (i32 (as_uint32_t (size_width (st_size surface)))) (i32 (as_uint32_t (size_height (st_size surface))))
    (st_name surface) FLAG_NOT_TOUCH_MODAL TYPE_APPLICATION (float_of_Z 1)
    true true true false false INT_MAX 0 0 0
    (kept touchableRegionLeft) (kept touchableRegionTop) (kept touchableRegionRight) (kept touchableRegionBottom)
    (kept wi_layer).

(** ** The input manager *)

(** The dispatcher of the Android stack. *)
Class InputDispatcher (W : Type) : Type := {
  setInputDispatchMode : bool -> bool -> W -> W;
  setInputFilterEnabled : bool -> W -> W;
  setFocusedApplication : string -> W -> W;
  registerInputChannel : InputChannel -> W -> W;
  unregisterInputChannel : InputChannel -> W -> W;
  setInputWindows : list InputWindowInfo -> W -> W;
}.

(** The threads of the manager, and the event hub's wake-up. *)
Class InputThreads (W : Type) : Type := {
  start_reader : W -> W; start_dispatcher : W -> W;
  stop_reader : W -> W; stop_dispatcher : W -> W;
  join_reader : M W unit; join_dispatcher : M W unit;
  hub_wake : W -> W;
}.

Record InputManager (W : Type) : Type := mkManager {
  focused_window_handle : option InputWindowInfo;
  focused_application_handle : option string;
  (** How many channels have been made. *)
  im_channels : nat;
  im_world : W;
}.
Arguments mkManager {W} _ _ _ _.
Arguments focused_window_handle {W} _.
Arguments focused_application_handle {W} _.
Arguments im_channels {W} _.
Arguments im_world {W} _.

Section Manager.
Context {W : Type} {dispatcher : InputDispatcher W} {threads : InputThreads W}.

Definition on_world (f : W -> W) (m : InputManager W) : InputManager W :=
  mkManager (focused_window_handle m) (focused_application_handle m) (im_channels m) (f (im_world m)).

(** [set_input_focus_to(session, surface)]; the session counts by its name. *)
Definition set_input_focus_to (session : string) (surface : option SurfaceTarget) (m : InputManager W) : InputManager W :=
  let m :=
    match focused_window_handle m with
    | Some handle =>
        let m := on_world (unregisterInputChannel (wi_channel handle)) m in
        mkManager None None (im_channels m) (im_world m)
    | None => m
    end in
  match surface with
  | Some surface =>
      let handle := updateInfo surface (im_channels m) None in
      let m := mkManager (Some handle) (Some session) (S (im_channels m)) (im_world m) in
      let m := on_world (setFocusedApplication session) m in
      let m := on_world (registerInputChannel (wi_channel handle)) m in
      on_world (setInputWindows [handle]) m
  | None => on_world (setInputWindows []) m
  end.

Definition im_start : M (InputManager W) unit :=
  modify (on_world (setInputDispatchMode true false)) ;;
  modify (on_world (setInputFilterEnabled true)) ;;
  modify (on_world start_reader) ;;
  modify (on_world start_dispatcher).

Definition im_lens : lens (InputManager W) W := Lens im_world (fun w m => on_world (fun _ => w) m).

Definition im_stop : M (InputManager W) unit :=
  modify (on_world stop_dispatcher) ;;
  modify (on_world (setInputDispatchMode false true)) ;;
  zoom im_lens join_dispatcher ;;
  modify (on_world stop_reader) ;;
  modify (on_world hub_wake) ;;
  zoom im_lens join_reader.

End Manager.

(** ** Filters: theorems *)

Section FilterLaws.
Context {S : Type}.
Implicit Types (f : EventFilter S) (fs : list (EventFilter S)).

(** A chain asks the second part only if the first one has not handled the
    event. *)
Lemma chain_app fs1 fs2 ev (s : S) :
  chain_handles (fs1 ++ fs2) ev s =
    match chain_handles fs1 ev s with
    | Ret false s' => chain_handles fs2 ev s'
    | o => o
    end.
Proof.
  revert s. induction fs1 as [|f fs1 IH]; intros s; [done|]. simpl. unfold mbind, M_bind.
  destruct (f ev s) as [[] s'|e s'|s'|]; auto.
Qed.

Lemma translate_pointers_spec i ps (s : S) :
  translate_pointers i ps s =
    if decide (i + length ps <= MIR_INPUT_EVENT_MAX_POINTER_COUNT \/ length ps = 0)%nat
    then Ret (map translate_pointer ps) s else Undef.
Proof.
  revert i. induction ps as [|p ps IH]; intros i; cbn [translate_pointers map length].
  { by rewrite decide_True by auto. }
  destruct (decide (i < MIR_INPUT_EVENT_MAX_POINTER_COUNT)%nat) as [Hi|Hi].
  - unfold mbind, M_bind. rewrite IH.
    destruct (decide (Datatypes.S i + length ps <= _ \/ _)%nat) as [H1|H1], (decide (i + _ <= _ \/ _)%nat) as [H2|H2];
      try done; exfalso; lia.
  - rewrite decide_False; [done|]. lia.
Qed.

(** There is room for the event's pointers. *)
Definition pointers_fit (ev : AndroidEvent) : bool :=
  match ae_details ev with
  | AINPUT_EVENT_TYPE_MOTION mev => bool_decide (length (am_pointers mev) <= MIR_INPUT_EVENT_MAX_POINTER_COUNT)%nat
  | _ => true
  end.

(** What the filters see of an event. *)
Definition seen_as (ev : AndroidEvent) (mir_ev : option MirEvent) : Prop :=
  match ae_details ev, mir_ev with
  | AINPUT_EVENT_TYPE_KEY kev, Some m =>
      device_id m = ae_device_id ev /\ source_id m = ae_source ev /\ action m = ak_action kev /\
      exists k, details m = MIR_INPUT_EVENT_TYPE_KEY k /\ key_code k = ak_key_code kev
  | AINPUT_EVENT_TYPE_MOTION mev, Some m =>
      device_id m = ae_device_id ev /\ source_id m = ae_source ev /\ action m = am_action mev /\
      exists k, details m = MIR_INPUT_EVENT_TYPE_MOTION k /\
        pointer_coordinates k = map translate_pointer (am_pointers mev) /\
        pointer_count k = Z.of_nat (length (pointer_coordinates k))
  | AINPUT_EVENT_TYPE_OTHER _, None => True
  | _, _ => False
  end.

Lemma translate_spec ev (s : S) :
  if pointers_fit ev then exists mir_ev, translate ev s = Ret mir_ev s /\ seen_as ev mir_ev
  else translate ev s = Undef.
Proof.
  destruct ev as [dev src [kev|mev|ty]]; simpl.
  - eexists. split; [reflexivity|]. repeat (split; [done|]). eexists. done.
  - unfold pointers_fit, translate, mbind, M_bind. cbn [ae_details].
    rewrite (translate_pointers_spec 0 (am_pointers mev) s). case_bool_decide as Hlen.
    + rewrite decide_True by auto. eexists. split; [reflexivity|]. repeat (split; [done|]). eexists.
      split; [reflexivity|]. split; [done|]. simpl. by rewrite length_map.
    + by rewrite decide_False by lia.
  - by exists None.
Qed.

(** The opposite of an answer. *)
Definition pass_on (o : outcome S bool) : outcome S bool :=
  match o with
  | Ret b s => Ret (negb b) s
  | Throw e s => Throw e s
  | Wait s => Wait s
  | Undef => Undef
  end.

(** An event of the Android stack is passed on exactly when no filter of the
    chain handles it: behind filters that do not, the next filter decides, and
    the filters after it are asked only if it does not handle the event either.
    The filters see the device, source, action, key or pointers of the original.
    An event with more than 16 pointers writes past the array; of an event that
    is neither a key nor a motion event they see memory that was never set. *)
Theorem filter_sees_event fs1 f fs2 ev (s s1 : S) :
  (forall mir_ev, chain_handles fs1 mir_ev s = Ret false s1) ->
  if pointers_fit ev then
    exists mir_ev,
      seen_as ev mir_ev /\
      filterInputEvent (chain_handles (fs1 ++ f :: fs2)) ev s =
        match f mir_ev s1 with
        | Ret false s2 => pass_on (chain_handles fs2 mir_ev s2)
        | o => pass_on o
        end
  else filterInputEvent (chain_handles (fs1 ++ f :: fs2)) ev s = Undef.
Proof.
  intros Hfs1. pose proof (translate_spec ev s) as Ht. destruct (pointers_fit ev).
  - destruct Ht as (mir_ev & Ht & Hseen). exists mir_ev. split; [done|].
    unfold filterInputEvent, mbind, M_bind. rewrite Ht, chain_app, Hfs1. simpl. unfold mbind, M_bind.
    by destruct (f mir_ev s1) as [[] s2|e s2|s2|].
  - unfold filterInputEvent, mbind, M_bind. by rewrite Ht.
Qed.

End FilterLaws.

(** ** The pointer stays on the screen *)

(** [a <= b], which excludes NaN. *)
Abbreviation fle a b := (SFleb a b = true).

Lemma ltb_leb a b : SFltb a b = true -> fle a b.
Proof. unfold SFltb, SFleb. by destruct (SFcompare a b) as [[]|]. Qed.

Lemma compare_refl a : a <> S754_nan -> SFcompare a a = Some Eq.
Proof.
  destruct a as [s|s| |s m e]; simpl; try done; try by destruct s.
  intros _. destruct s; by rewrite Z.compare_refl, Pos.compare_cont_refl.
Qed.

Lemma leb_nan a b : fle a b -> a <> S754_nan /\ b <> S754_nan.
Proof. unfold SFleb. by destruct a, b. Qed.

Lemma leb_refl a : a <> S754_nan -> fle a a.
Proof. intros H. unfold SFleb. by rewrite compare_refl. Qed.

(** Clamping gives a number between the bounds, whatever it is given. *)
Lemma clamp_bounds lo hi v : fle lo hi -> fle lo (std_max lo (std_min hi v)) /\ fle (std_max lo (std_min hi v)) hi.
Proof.
  intros Hb. destruct (leb_nan _ _ Hb) as [Hlo Hhi]. unfold std_max, std_min.
  destruct (SFltb v hi) eqn:E1.
  - destruct (SFltb lo v) eqn:E2; [by split; apply ltb_leb|]. split; [by apply leb_refl|done].
  - destruct (SFltb lo hi) eqn:E2; [by split; [apply ltb_leb|apply leb_refl]|]. split; [by apply leb_refl|done].
Qed.

(** The number of a non-negative integer is not negative and not NaN. *)
Definition nonneg (x : float) : Prop :=
  match x with S754_zero s | S754_infinity s | S754_finite s _ _ => s = false | S754_nan => False end.

Lemma shr_1_nonneg mrs : 0 <= shr_m mrs -> 0 <= shr_m (shr_1 mrs).
Proof. destruct mrs as [[|p|p] r s]; simpl; [lia| |lia]. intros _. destruct p; simpl; lia. Qed.

Lemma iter_nonneg n mrs : 0 <= shr_m mrs -> 0 <= shr_m (SpecFloat.iter_pos shr_1 n mrs).
Proof.
  revert mrs. induction n as [n IH|n IH|]; intros mrs H; simpl; auto using shr_1_nonneg.
Qed.

Lemma shr_nonneg mrs e n : 0 <= shr_m mrs -> 0 <= shr_m (fst (shr mrs e n)).
Proof. intros H. unfold shr. destruct n; simpl; auto using iter_nonneg. Qed.

Lemma shr_record_nonneg m l : 0 <= m -> 0 <= shr_m (shr_record_of_loc m l).
Proof. destruct l as [|[]]; done. Qed.

Lemma round_nonneg mx lx : 0 <= mx -> 0 <= round_nearest_even mx lx.
Proof. destruct lx as [|[]]; simpl; try lia. destruct (Z.even mx); lia. Qed.

Lemma round_aux_nonneg mx ex : nonneg (binary_round_aux 24 128 false (Z.pos mx) ex loc_Exact).
Proof.
  unfold binary_round_aux, shr_fexp.
  destruct (shr (shr_record_of_loc (Z.pos mx) loc_Exact) ex _) as [mrs' e'] eqn:E1.
  assert (0 <= shr_m mrs') as H1.
  { replace mrs' with (fst (mrs', e')) by done. rewrite <- E1. apply shr_nonneg, shr_record_nonneg. lia. }
  destruct (shr (shr_record_of_loc (round_nearest_even (shr_m mrs') (loc_of_shr_record mrs')) loc_Exact) e' _)
    as [mrs'' e''] eqn:E2.
  assert (0 <= shr_m mrs'') as H2.
  { replace mrs'' with (fst (mrs'', e'')) by done. rewrite <- E2. by apply shr_nonneg, shr_record_nonneg, round_nonneg. }
  destruct (shr_m mrs'') as [|p|p]; [done| |lia]. by destruct (e'' <=? 128 - 24).
Qed.

Lemma float_of_Z_nonneg z : 0 <= z -> nonneg (float_of_Z z).
Proof.
  intros Hz. unfold float_of_Z, binary_normalize. destruct z as [|p|p]; [done| |lia].
  unfold binary_round. destruct (shl_align _ _ _) as [mz ez]. apply round_aux_nonneg.
Qed.

Lemma zero_least x : nonneg x -> fle (S754_zero false) x /\ float_add (S754_zero false) x = x.
Proof. destruct x as [[]|[]| |[] m e]; simpl; try done. Qed.

Section PointerLaws.
Variable area : Rectangle.
Variable has_listener : bool.

(** A position is inside the bounds. *)
Definition in_bounds (pos : float * float) : Prop :=
  let '((min_x, min_y), (max_x, max_y)) := get_bounds_locked area in
  fle min_x (fst pos) /\ fle (fst pos) max_x /\ fle min_y (snd pos) /\ fle (snd pos) max_y.

(** The area starts at the origin, as those of the displays do. *)
Definition at_origin : Prop :=
  top_left area = mkPoint (wrap 0) (wrap 0) /\
  0 <= as_uint32_t (size_width (rect_size area)) /\ 0 <= as_uint32_t (size_height (rect_size area)).

Inductive pointer_call : Set :=
| call_move (delta_x delta_y : float)
| call_setPosition (x y : float)
| call_setButtonState (state : Z).

Definition run_pointer_call (p : pointer) (c : pointer_call) : pointer :=
  match c with
  | call_move dx dy => move area has_listener dx dy p
  | call_setPosition x y => setPosition area has_listener x y p
  | call_setButtonState b => setButtonState b p
  end.

Lemma bounds_at_origin :
  at_origin -> get_bounds_locked area =
    ((S754_zero false, S754_zero false),
     (float_of_Z (as_uint32_t (size_width (rect_size area))), float_of_Z (as_uint32_t (size_height (rect_size area))))).
Proof.
  intros (Htl & Hw & Hh). unfold get_bounds_locked. rewrite Htl.
  change (float_of_Z (as_uint32_t (point_x (mkPoint (wrap 0) (wrap 0))))) with (S754_zero false).
  change (float_of_Z (as_uint32_t (point_y (mkPoint (wrap 0) (wrap 0))))) with (S754_zero false).
  by rewrite (proj2 (zero_least _ (float_of_Z_nonneg _ Hw))), (proj2 (zero_least _ (float_of_Z_nonneg _ Hh))).
Qed.

Lemma setPosition_in_bounds x y p :
  at_origin -> in_bounds (getPosition (setPosition area has_listener x y p)) /\
    notified (setPosition area has_listener x y p) =
      notified p ++ (if has_listener then [getPosition (setPosition area has_listener x y p)] else []).
Proof.
  intros Ho. pose proof (bounds_at_origin Ho) as Hb. destruct Ho as (_ & Hw & Hh).
  unfold in_bounds, setPosition, getPosition, notify_listener. rewrite Hb.
  destruct (zero_least _ (float_of_Z_nonneg _ Hw)) as [Hx _], (zero_least _ (float_of_Z_nonneg _ Hh)) as [Hy _].
  split; [|by destruct has_listener; simpl; rewrite ?app_nil_r].
  destruct has_listener; simpl; (destruct (clamp_bounds _ _ x Hx), (clamp_bounds _ _ y Hy); auto).
Qed.

(** On a screen that starts at the origin the pointer never leaves it:
    after any sequence of moves and positions, infinities and NaN included, it
    is inside the bounds, and so is every position the listener was told. *)
Theorem pointer_stays_inside calls :
  at_origin ->
  let p := fold_left run_pointer_call calls (mkPointerState PointerController_new []) in
  in_bounds (getPosition p) /\ Forall in_bounds (notified p).
Proof.
  intros Ho. cbv zeta.
  assert (in_bounds (getPosition (mkPointerState PointerController_new [])) /\
    Forall in_bounds (notified (mkPointerState PointerController_new []))) as Hinit.
  { split; [|constructor]. unfold in_bounds. rewrite (bounds_at_origin Ho). destruct Ho as (_ & Hw & Hh). simpl.
    by destruct (zero_least _ (float_of_Z_nonneg _ Hw)) as [-> _], (zero_least _ (float_of_Z_nonneg _ Hh)) as [-> _]. }
  revert Hinit. generalize (mkPointerState PointerController_new []) as p.
  induction calls as [|c calls IH]; intros p Hp; [done|]. simpl. apply IH. destruct Hp as [Hp Hn].
  assert (forall x y, in_bounds (getPosition (setPosition area has_listener x y p)) /\
    Forall in_bounds (notified (setPosition area has_listener x y p))) as Hset.
  { intros x y. destruct (setPosition_in_bounds x y p Ho) as [Hin Hnot]. split; [done|]. rewrite Hnot.
    apply Forall_app. split; [done|]. destruct has_listener; auto. }
  destruct c as [dx dy|x y|b]; simpl; [apply Hset|apply Hset|done].
Qed.

End PointerLaws.

(** ** Where input goes *)

Class InputDispatcherLaws (W : Type) `{InputDispatcher W} : Type := {
  registered : W -> gset InputChannel;
  windows : W -> list InputWindowInfo;
  application : W -> option string;
  set_application_law a w :
    registered (setFocusedApplication a w) = registered w /\ windows (setFocusedApplication a w) = windows w /\
    application (setFocusedApplication a w) = Some a;
  register_law c w :
    registered (registerInputChannel c w) = {[ c ]} ∪ registered w /\ windows (registerInputChannel c w) = windows w /\
    application (registerInputChannel c w) = application w;
  unregister_law c w :
    registered (unregisterInputChannel c w) = registered w ∖ {[ c ]} /\ windows (unregisterInputChannel c w) = windows w /\
    application (unregisterInputChannel c w) = application w;
  set_windows_law l w :
    registered (setInputWindows l w) = registered w /\ windows (setInputWindows l w) = l /\
    application (setInputWindows l w) = application w;
}.

Section ManagerLaws.
Context {W : Type} `{InputDispatcherLaws W}.

(** The dispatcher knows the channel and the window of the focused surface,
    and nothing else. *)
Record focus_ok (m : InputManager W) : Prop := {
  fc_registered : registered (im_world m) =
    match focused_window_handle m with Some h => {[ wi_channel h ]} | None => ∅ end;
  fc_windows : windows (im_world m) = option_list (focused_window_handle m);
  fc_fresh : forall h, focused_window_handle m = Some h -> (channel_object (wi_channel h) < im_channels m)%nat;
}.

Lemma set_input_focus_spec session surface m :
  focus_ok m ->
  let m' := set_input_focus_to session surface m in
  focus_ok m' /\
  match surface with
  | Some t => exists h, focused_window_handle m' = Some h /\
      channel_fd (wi_channel h) = st_server_input_fd t /\ wi_name h = st_name t /\
      focused_application_handle m' = Some session /\ application (im_world m') = Some session
  | None => focused_window_handle m' = None /\ application (im_world m') = application (im_world m)
  end.
Proof.
  intros [Hr Hw Hf]. destruct m as [[h|] app n w]; simpl in *; destruct surface as [t|]; simpl.
  - pose proof (unregister_law (wi_channel h) w) as (U1 & U2 & U3).
    set (w1 := unregisterInputChannel (wi_channel h) w) in *.
    pose proof (set_application_law session w1) as (A1 & A2 & A3). set (w2 := setFocusedApplication session w1) in *.
    set (c := wi_channel (updateInfo t n None)) in *.
    pose proof (register_law c w2) as (R1 & R2 & R3). set (w3 := registerInputChannel c w2) in *.
    match goal with |- context [setInputWindows ?l _] => pose proof (set_windows_law l w3) as (S1 & S2 & S3) end.
    split; [split; cbn [focused_window_handle im_world im_channels on_world]|];
      [|exact S2|intros h' [= <-]; simpl; lia|].
    + etrans; [exact S1|]. rewrite R1, A1, U1, Hr. change (wi_channel (updateInfo t n None)) with c. set_solver.
    + eexists. split; [reflexivity|]. do 3 (split; [done|]). etrans; [exact S3|]. by rewrite R3, A3.
  - pose proof (unregister_law (wi_channel h) w) as (U1 & U2 & U3).
    set (w1 := unregisterInputChannel (wi_channel h) w) in *.
    pose proof (set_windows_law [] w1) as (S1 & S2 & S3).
    split; [split; simpl; [rewrite S1, U1, Hr; set_solver|exact S2|done]|]. split; [done|]. by rewrite S3, U3.
  - pose proof (set_application_law session w) as (A1 & A2 & A3). set (w2 := setFocusedApplication session w) in *.
    set (c := wi_channel (updateInfo t n None)) in *.
    pose proof (register_law c w2) as (R1 & R2 & R3). set (w3 := registerInputChannel c w2) in *.
    match goal with |- context [setInputWindows ?l _] => pose proof (set_windows_law l w3) as (S1 & S2 & S3) end.
    split; [split; cbn [focused_window_handle im_world im_channels on_world]|];
      [|exact S2|intros h' [= <-]; simpl; lia|].
    + etrans; [exact S1|]. rewrite R1, A1, Hr. change (wi_channel (updateInfo t n None)) with c. set_solver.
    + eexists. split; [reflexivity|]. do 3 (split; [done|]). etrans; [exact S3|]. by rewrite R3, A3.
  - pose proof (set_windows_law [] w) as (S1 & S2 & S3).
    split; [split; simpl; [by rewrite S1, Hr|exact S2|done]|]. split; [done|]. by rewrite S3.
Qed.

(** The dispatcher sends input to the focused surface only: after any
    sequence of focus changes, the channels it knows are that of the surface
    focused last, or none when the last change was to no surface, and so are its
    windows.  Taking the focus away does not reset the dispatcher's focused
    application. *)
Theorem input_goes_to_focus changes session surface (w : W) :
  registered w = ∅ -> windows w = [] ->
  let m0 := fold_left (fun m c => set_input_focus_to (fst c) (snd c) m) changes (mkManager None None 0 w) in
  let m := set_input_focus_to session surface m0 in
  match surface with
  | Some t => exists h, wi_name h = st_name t /\ channel_fd (wi_channel h) = st_server_input_fd t /\
      registered (im_world m) = {[ wi_channel h ]} /\ windows (im_world m) = [h] /\
      application (im_world m) = Some session
  | None => registered (im_world m) = ∅ /\ windows (im_world m) = [] /\
      application (im_world m) = application (im_world m0)
  end.
Proof.
  intros Hr Hw m0 m. assert (focus_ok m0) as Hok0.
  { subst m0. clear m. assert (focus_ok (mkManager None None 0 w)) as Hi by (split; simpl; [done|done|done]).
    revert Hi. generalize (mkManager None None 0 w) as m. induction changes as [|c l IH]; intros m Hm; [done|].
    simpl. by apply IH, set_input_focus_spec. }
  pose proof (set_input_focus_spec session surface m0 Hok0) as [[Hr' Hw' _] Hsp]. fold m in Hr', Hw', Hsp.
  destruct surface as [t|].
  - destruct Hsp as (h & Hh & Hfd & Hn & _ & Happ). exists h. rewrite Hh in Hr', Hw'. done.
  - destruct Hsp as [Hh Happ]. rewrite Hh in Hr', Hw'. done.
Qed.

End ManagerLaws.

(** ** On concrete values *)

Lemma pointer_stays_inside_witness :
  let area := mkRectangle (mkPoint (wrap 0) (wrap 0)) (mkSize (wrap 1920) (wrap 1080)) in
  let p := fold_left (run_pointer_call area true)
             [call_move (float_of_Z 3000) (float_of_Z (-20)); call_setPosition S754_nan (S754_infinity true)]
             (mkPointerState PointerController_new []) in
  in_bounds area (getPosition p) /\ Forall (in_bounds area) (notified p).
Proof.
  apply (pointer_stays_inside (mkRectangle (mkPoint (wrap 0) (wrap 0)) (mkSize (wrap 1920) (wrap 1080))) true).
  split; [reflexivity|]. split; vm_compute; discriminate.
Defined.

(** What a filter might be: it counts the events, and handles those of one
    device. *)
Definition demo_filter (dev : Z) : EventFilter Z := fun ev n =>
  match ev with
  | Some ev => if device_id ev =? dev then Ret true (n + 1) else Ret false (n + 1)
  | None => Undef
  end.

Definition demo_motion (n : nat) : AndroidEvent :=
  let z := S754_zero false in
  mkAEvent 4 0 (AINPUT_EVENT_TYPE_MOTION (mkAMotion 0 0 0 0 0 z z z z 0 0 (repeat (mkAPointer 0 z z z z z z z z z) n))).

Lemma filter_sees_event_witness :
  exists mir_ev,
    seen_as (demo_motion 2) mir_ev /\
    filterInputEvent (chain_handles ([] ++ demo_filter 4 :: [demo_filter 5])) (demo_motion 2) 0 =
      match demo_filter 4 mir_ev 0 with
      | Ret false s2 => pass_on (chain_handles [demo_filter 5] mir_ev s2)
      | o => pass_on o
      end.
Proof. exact (filter_sees_event [] (demo_filter 4) [demo_filter 5] (demo_motion 2) 0 0 (fun _ => eq_refl)). Defined.

Example demo_filtered :
  filterInputEvent (chain_handles [demo_filter 4; demo_filter 5]) (demo_motion 2) 0 = Ret false 1.
Proof. reflexivity. Qed.

Example demo_too_many : filterInputEvent (chain_handles [demo_filter 4]) (demo_motion 17) 0 = Undef.
Proof. reflexivity. Qed.

Record demo_dispatcher : Set := mkDispatcher {
  di_channels : gset InputChannel; di_windows : list InputWindowInfo; di_application : option string;
}.

#[export] Instance demo_input_dispatcher : InputDispatcher demo_dispatcher := {
  setInputDispatchMode _ _ w := w;
  setInputFilterEnabled _ w := w;
  setFocusedApplication a w := mkDispatcher (di_channels w) (di_windows w) (Some a);
  registerInputChannel c w := mkDispatcher ({[ c ]} ∪ di_channels w) (di_windows w) (di_application w);
  unregisterInputChannel c w := mkDispatcher (di_channels w ∖ {[ c ]}) (di_windows w) (di_application w);
  setInputWindows l w := mkDispatcher (di_channels w) l (di_application w);
}.

#[export, refine] Instance demo_dispatcher_laws : InputDispatcherLaws demo_dispatcher := {
  registered := di_channels; windows := di_windows; application := di_application;
}.
Proof. all: done. Defined.

Definition demo_target : SurfaceTarget := mkTarget "editor" (mkSize (wrap 640) (wrap 480)) 12.

(** The focus goes to a surface and then to none: the application stays. *)
Lemma input_goes_to_focus_witness :
  let m0 := set_input_focus_to "mir" (Some demo_target) (mkManager None None 0 (mkDispatcher ∅ [] None)) in
  let m := set_input_focus_to "mir" None m0 in
  registered (im_world m) = ∅ /\ windows (im_world m) = [] /\ application (im_world m) = application (im_world m0).
Proof.
  exact (input_goes_to_focus [("mir"%string, Some demo_target)] "mir" None (mkDispatcher ∅ [] None) eq_refl eq_refl).
Defined.
