(* ===== verification/AndroidEvents.v ===== *)
(** * Events of the Android input stack

    [android::PointerCoords], [PointerProperties] and the validation of events
    ([3rd_party/android-input/android/frameworks/base/services/input/Input.cpp],
    [InputDispatcher.cpp], [include/androidfw/Input.h]) and [BitSet32]
    ([android-deps/std/BitSet.h]).

    The coordinates of a pointer are packed: [bits] says which of the 64 axes
    are present, and [values] holds those that are, in the order of the axes.
    The theorem is that this is a map from axes to values. *)

From Stdlib Require Import SpecFloat.
From S2P Require Import Prelude Geometry Input.

(** ** Constants *)

Definition AKEY_EVENT_ACTION_DOWN : Z := 0.
Definition AKEY_EVENT_ACTION_UP : Z := 1.

Definition AMOTION_EVENT_ACTION_MASK : Z := 255.
Definition AMOTION_EVENT_ACTION_POINTER_INDEX_MASK : Z := 65280.
Definition AMOTION_EVENT_ACTION_POINTER_INDEX_SHIFT : Z := 8.
Definition AMOTION_EVENT_ACTION_DOWN : Z := 0.
Definition AMOTION_EVENT_ACTION_UP : Z := 1.
Definition AMOTION_EVENT_ACTION_MOVE : Z := 2.
Definition AMOTION_EVENT_ACTION_CANCEL : Z := 3.
Definition AMOTION_EVENT_ACTION_OUTSIDE : Z := 4.
Definition AMOTION_EVENT_ACTION_POINTER_DOWN : Z := 5.
Definition AMOTION_EVENT_ACTION_POINTER_UP : Z := 6.
Definition AMOTION_EVENT_ACTION_HOVER_MOVE : Z := 7.
Definition AMOTION_EVENT_ACTION_SCROLL : Z := 8.
Definition AMOTION_EVENT_ACTION_HOVER_ENTER : Z := 9.
Definition AMOTION_EVENT_ACTION_HOVER_EXIT : Z := 10.

Definition AMOTION_EVENT_AXIS_X : Z := 0.
Definition AMOTION_EVENT_AXIS_Y : Z := 1.
Definition AMOTION_EVENT_AXIS_TOUCH_MAJOR : Z := 4.
Definition AMOTION_EVENT_AXIS_TOUCH_MINOR : Z := 5.
Definition AMOTION_EVENT_AXIS_TOOL_MAJOR : Z := 6.
Definition AMOTION_EVENT_AXIS_TOOL_MINOR : Z := 7.

Definition AINPUT_SOURCE_CLASS_POINTER : Z := 2.
Definition AINPUT_SOURCE_CLASS_NAVIGATION : Z := 4.
Definition AINPUT_SOURCE_CLASS_JOYSTICK : Z := 16.

Definition MAX_POINTERS : nat := 16.
Definition MAX_POINTER_ID : Z := 31.
Definition MAX_AXES : nat := 14.

(** [status_t]: an [errno] is negated. *)
Definition OK : Z := 0.
Definition UNKNOWN_ERROR : Z := -2147483648.
Definition NO_MEMORY : Z := -12.
Definition BAD_VALUE : Z := -22.
Definition NAME_NOT_FOUND : Z := -2.
Definition WOULD_BLOCK : Z := -11.
Definition DEAD_OBJECT : Z := -32.

(** The test [x & mask] in a condition. *)
Definition has (x mask : Z) : bool := negb (Z.land x mask =? 0).

(** ** Sets of bits *)

(** How many of the lowest [n] bits are set. *)
Fixpoint rank (z : Z) (n : nat) : nat :=
  match n with
  | O => O
  | S m => (rank z m + (if Z.testbit z (Z.of_nat m) then 1 else 0))%nat
  end.

Definition popcountll (z : Z) : nat := rank z 64.
Definition popcount (z : Z) : nat := rank z 32.

(** [BitSet32], the bit of [n] counted from the top. *)
Definition valueForBit (n : Z) : Z := Z.shiftr 2147483648 n.
Definition hasBit (value n : Z) : bool := has value (valueForBit n).
Definition markBit (value n : Z) : Z := Z.lor value (valueForBit n).
Definition clearBit (value n : Z) : Z := Z.ldiff value (valueForBit n).
Definition bit_count (value : Z) : Z := Z.of_nat (popcount value).

(** ** Pointers *)

Record PointerProperties : Set := mkProperties { pp_id : Z; toolType : Z }.

#[export] Instance PointerProperties_eq_dec : EqDecision PointerProperties.
Proof. solve_decision. Defined.

Record PointerCoords : Set := mkCoords { coords_bits : Z; coords_values : list float }.

Definition zero : float := S754_zero false.

Definition coords_clear (c : PointerCoords) : PointerCoords := mkCoords 0 (coords_values c).

Definition getAxisValue (c : PointerCoords) (axis : Z) : float :=
  if (axis <? 0) || (63 <? axis) then zero
  else
    let axisBit := Z.shiftl 1 axis in
    if negb (has (coords_bits c) axisBit) then zero
    else default zero (coords_values c !! popcountll (Z.land (coords_bits c) (axisBit - 1))).

(** [for (i = count; i > index; i--) values[i] = values[i - 1]]. *)
Fixpoint shift_up (i index : nat) (values : list float) : list float :=
  match i with
  | O => values
  | S i' =>
      if (index <? i)%nat
      then shift_up i' index (<[ i := default zero (values !! i') ]> values)
      else values
  end.

Definition is_zero (x : float) : bool := SFeqb x zero.

Definition setAxisValue (axis : Z) (value : float) (c : PointerCoords) : Z * PointerCoords :=
  if (axis <? 0) || (63 <? axis) then (NAME_NOT_FOUND, c)
  else
    let axisBit := Z.shiftl 1 axis in
    let index := popcountll (Z.land (coords_bits c) (axisBit - 1)) in
    if negb (has (coords_bits c) axisBit) then
      if is_zero value then (OK, c)
      else
        let count := popcountll (coords_bits c) in
        if (MAX_AXES <=? count)%nat then (NO_MEMORY, c)
        else
          (OK, mkCoords (Z.lor (coords_bits c) axisBit)
                 (<[ index := value ]> (shift_up count index (coords_values c))))
    else (OK, mkCoords (coords_bits c) (<[ index := value ]> (coords_values c))).

Definition float_mul : float -> float -> float := SFmul 24 128.

Definition scaleAxisValue (scaleFactor : float) (c : PointerCoords) (axis : Z) : PointerCoords :=
  let value := getAxisValue c axis in
  if negb (is_zero value) then snd (setAxisValue axis (float_mul value scaleFactor) c) else c.

Definition scale (scaleFactor : float) (c : PointerCoords) : PointerCoords :=
  fold_left (scaleAxisValue scaleFactor)
    [AMOTION_EVENT_AXIS_X; AMOTION_EVENT_AXIS_Y; AMOTION_EVENT_AXIS_TOUCH_MAJOR; AMOTION_EVENT_AXIS_TOUCH_MINOR;
     AMOTION_EVENT_AXIS_TOOL_MAJOR; AMOTION_EVENT_AXIS_TOOL_MINOR] c.

Definition getX (c : PointerCoords) : float := getAxisValue c AMOTION_EVENT_AXIS_X.
Definition getY (c : PointerCoords) : float := getAxisValue c AMOTION_EVENT_AXIS_Y.

(** ** Validation *)

Definition getMotionEventActionPointerIndex (action : Z) : Z :=
  Z.shiftr (Z.land action AMOTION_EVENT_ACTION_POINTER_INDEX_MASK) AMOTION_EVENT_ACTION_POINTER_INDEX_SHIFT.

Definition validateKeyEvent (action : Z) : bool :=
  (action =? AKEY_EVENT_ACTION_DOWN) || (action =? AKEY_EVENT_ACTION_UP).

Definition isValidMotionAction (action : Z) (pointerCount : nat) : bool :=
  let masked := Z.land action AMOTION_EVENT_ACTION_MASK in
  if bool_decide (masked ∈ [AMOTION_EVENT_ACTION_DOWN; AMOTION_EVENT_ACTION_UP; AMOTION_EVENT_ACTION_CANCEL;
       AMOTION_EVENT_ACTION_MOVE; AMOTION_EVENT_ACTION_OUTSIDE; AMOTION_EVENT_ACTION_HOVER_ENTER;
       AMOTION_EVENT_ACTION_HOVER_MOVE; AMOTION_EVENT_ACTION_HOVER_EXIT; AMOTION_EVENT_ACTION_SCROLL]) then true
  else if bool_decide (masked ∈ [AMOTION_EVENT_ACTION_POINTER_DOWN; AMOTION_EVENT_ACTION_POINTER_UP]) then
    let index := getMotionEventActionPointerIndex action in
    (0 <=? index) && (index <? Z.of_nat pointerCount)
  else false.

(** The loop over the identifiers, with the set of those seen. *)
Fixpoint valid_ids (pointerIdBits : Z) (ids : list Z) : bool :=
  match ids with
  | [] => true
  | id :: ids' =>
      if (id <? 0) || (MAX_POINTER_ID <? id) then false
      else if hasBit pointerIdBits id then false
      else valid_ids (markBit pointerIdBits id) ids'
  end.

Definition validateMotionEvent (action : Z) (pointerProperties : list PointerProperties) : bool :=
  let pointerCount := length pointerProperties in
  if negb (isValidMotionAction action pointerCount) then false
  else if ((pointerCount <? 1) || (MAX_POINTERS <? pointerCount))%nat then false
  else valid_ids 0 (map pp_id pointerProperties).

(** ** The packed coordinates are a map *)

Lemma has_shiftl z n : 0 <= n -> has z (Z.shiftl 1 n) = Z.testbit z n.
Proof.
  intros Hn. unfold has. rewrite Z.shiftl_1_l. destruct (Z.testbit z n) eqn:E.
  - rewrite (proj2 (Z.eqb_neq _ _)); [done|]. intros H0.
    assert (Z.testbit (Z.land z (2 ^ n)) n = true) as H1 by (by rewrite Z.land_spec, E, Z.pow2_bits_true).
    by rewrite H0, Z.bits_0 in H1.
  - rewrite (proj2 (Z.eqb_eq _ _)); [done|]. apply Z.bits_inj'. intros k Hk.
    rewrite Z.land_spec, Z.bits_0, Z.pow2_bits_eqb by done. destruct (Z.eqb_spec n k) as [<-|]; [by rewrite E|apply andb_false_r].
Qed.

Lemma rank_ext z z' n :
  (forall k, 0 <= k < Z.of_nat n -> Z.testbit z k = Z.testbit z' k) -> rank z n = rank z' n.
Proof.
  induction n as [|n IH]; intros H; [done|]. simpl. rewrite IH by (intros; apply H; lia). by rewrite (H (Z.of_nat n)) by lia.
Qed.

Lemma rank_mono z n m : (n <= m)%nat -> (rank z n <= rank z m)%nat.
Proof. induction 1; simpl; lia. Qed.

(** The bits below [n], counted over a longer range. *)
Lemma rank_low z n m : (n <= m)%nat -> rank (Z.land z (Z.shiftl 1 (Z.of_nat n) - 1)) m = rank z n.
Proof.
  intros Hle. rewrite Z.shiftl_1_l.
  replace (2 ^ Z.of_nat n - 1) with (Z.ones (Z.of_nat n)) by (rewrite Z.ones_equiv; lia).
  induction Hle as [|m Hle IH]; simpl.
  - apply rank_ext. intros k Hk. rewrite Z.land_spec, Z.ones_spec_low by lia. apply andb_true_r.
  - rewrite IH, Z.land_spec, Z.ones_spec_high by lia. rewrite andb_false_r. lia.
Qed.

Lemma rank_lt z n m : (n < m)%nat -> Z.testbit z (Z.of_nat n) = true -> (rank z n < rank z m)%nat.
Proof. intros Hlt Hb. pose proof (rank_mono z (S n) m Hlt) as Hm. simpl in Hm. rewrite Hb in Hm. lia. Qed.

Lemma rank_set z a n :
  Z.testbit z (Z.of_nat a) = false ->
  rank (Z.lor z (Z.shiftl 1 (Z.of_nat a))) n = (rank z n + (if (a <? n)%nat then 1 else 0))%nat.
Proof.
  intros Hb. rewrite Z.shiftl_1_l. induction n as [|n IH]; [done|]. simpl.
  rewrite IH, Z.lor_spec, Z.pow2_bits_eqb by lia.
  destruct (Nat.ltb_spec a n), (Nat.ltb_spec a (S n)); try lia; destruct (Z.eqb_spec (Z.of_nat a) (Z.of_nat n)); try lia.
  - rewrite orb_false_r. lia.
  - assert (a = n) as -> by lia. rewrite Hb. simpl. lia.
  - rewrite orb_false_r. lia.
Qed.

Lemma shift_up_length i index values : length (shift_up i index values) = length values.
Proof.
  revert values. induction i as [|i IH]; intros values; simpl; [done|].
  case_match; [|done]. by rewrite IH, length_insert.
Qed.

Lemma shift_up_lookup i index values k :
  (i < length values)%nat ->
  shift_up i index values !! k =
    if ((index <? k) && (k <=? i))%nat then Some (default zero (values !! pred k)) else values !! k.
Proof.
  revert values. induction i as [|i IH]; intros values Hi; cbn [shift_up].
  - destruct (Nat.ltb_spec index k), (Nat.leb_spec k 0); simpl; try done; lia.
  - destruct (Nat.ltb_spec index (S i)) as [Hx|Hx].
    + rewrite IH by (rewrite length_insert; lia).
      destruct (Nat.ltb_spec index k), (Nat.leb_spec k i), (Nat.leb_spec k (S i)); simpl; try lia;
        try (by rewrite list_lookup_insert_ne by lia).
      assert (k = S i) as -> by lia. by rewrite list_lookup_insert_eq by lia.
    + destruct (Nat.ltb_spec index k), (Nat.leb_spec k (S i)); simpl; try done; lia.
Qed.

Record coords_ok (c : PointerCoords) : Prop := {
  co_length : length (coords_values c) = MAX_AXES;
  co_count : (popcountll (coords_bits c) <= MAX_AXES)%nat;
}.

Lemma get_spec c a :
  (a <= 63)%nat ->
  getAxisValue c (Z.of_nat a) =
    if Z.testbit (coords_bits c) (Z.of_nat a) then default zero (coords_values c !! rank (coords_bits c) a) else zero.
Proof.
  intros Ha. unfold getAxisValue. rewrite (proj2 (Z.ltb_ge _ _)), (proj2 (Z.ltb_ge _ _)) by lia. cbn [orb].
  rewrite has_shiftl by lia. unfold popcountll. rewrite rank_low by lia. by destruct (Z.testbit _ _).
Qed.

(** Where the value of another axis is after a new one has been put in. *)
Lemma stored_elsewhere bits values a b value :
  (a <= 63)%nat -> (b <= 63)%nat -> a <> b ->
  Z.testbit bits (Z.of_nat a) = false -> Z.testbit bits (Z.of_nat b) = true ->
  (rank bits 64 < length values)%nat ->
  <[ rank bits a := value ]> (shift_up (rank bits 64) (rank bits a) values) !! rank (Z.lor bits (Z.shiftl 1 (Z.of_nat a))) b =
  values !! rank bits b.
Proof.
  intros Ha Hb Hne Hna Hnb Hlen. rewrite rank_set by done.
  pose proof (rank_lt bits b 64 ltac:(lia) Hnb) as Hr.
  destruct (Nat.ltb_spec a b) as [Hab|Hab].
  - pose proof (rank_mono bits a b ltac:(lia)) as Hm.
    rewrite list_lookup_insert_ne by lia. rewrite shift_up_lookup by done.
    rewrite (proj2 (Nat.ltb_lt _ _)), (proj2 (Nat.leb_le _ _)) by lia. simpl.
    rewrite Nat.add_1_r. simpl. destruct (lookup_lt_is_Some_2 values (rank bits b) ltac:(lia)) as [x ->]. done.
  - pose proof (rank_lt bits b a ltac:(lia) Hnb) as Hm. rewrite Nat.add_0_r.
    rewrite list_lookup_insert_ne by lia. rewrite shift_up_lookup by done.
    by rewrite (proj2 (Nat.ltb_ge _ _)) by lia.
Qed.

Lemma set_new c a value :
  coords_ok c -> (a <= 63)%nat -> Z.testbit (coords_bits c) (Z.of_nat a) = false ->
  (popcountll (coords_bits c) < MAX_AXES)%nat ->
  let c' := mkCoords (Z.lor (coords_bits c) (Z.shiftl 1 (Z.of_nat a)))
              (<[ rank (coords_bits c) a := value ]>
                 (shift_up (popcountll (coords_bits c)) (rank (coords_bits c) a) (coords_values c))) in
  coords_ok c' /\ getAxisValue c' (Z.of_nat a) = value /\
  forall b, (b <= 63)%nat -> b <> a -> getAxisValue c' (Z.of_nat b) = getAxisValue c (Z.of_nat b).
Proof.
  intros [Hl Hc] Ha Hb Hroom. cbv zeta. unfold popcountll in *.
  pose proof (rank_mono (coords_bits c) a 64 ltac:(lia)) as Hm.
  split; [|split].
  - split; cbn [coords_bits coords_values]; [by rewrite length_insert, shift_up_length|].
    unfold popcountll. rewrite rank_set by done. rewrite (proj2 (Nat.ltb_lt _ _)) by lia. lia.
  - rewrite get_spec by done. cbn [coords_bits coords_values]. rewrite Z.lor_spec, Z.shiftl_1_l, Z.pow2_bits_true by lia.
    rewrite orb_true_r, <- Z.shiftl_1_l, rank_set by done. rewrite (proj2 (Nat.ltb_ge _ _)) by lia.
    rewrite Nat.add_0_r, list_lookup_insert_eq by (rewrite shift_up_length; lia). done.
  - intros b Hb63 Hne. rewrite !get_spec by done. cbn [coords_bits coords_values].
    rewrite Z.lor_spec, Z.shiftl_1_l, Z.pow2_bits_eqb, (proj2 (Z.eqb_neq _ _)), orb_false_r by lia.
    destruct (Z.testbit (coords_bits c) (Z.of_nat b)) eqn:E; [|done].
    rewrite <- Z.shiftl_1_l, stored_elsewhere; auto; lia.
Qed.

Lemma set_present c a value :
  coords_ok c -> (a <= 63)%nat -> Z.testbit (coords_bits c) (Z.of_nat a) = true ->
  let c' := mkCoords (coords_bits c) (<[ rank (coords_bits c) a := value ]> (coords_values c)) in
  coords_ok c' /\ getAxisValue c' (Z.of_nat a) = value /\
  forall b, (b <= 63)%nat -> b <> a -> getAxisValue c' (Z.of_nat b) = getAxisValue c (Z.of_nat b).
Proof.
  intros [Hl Hc] Ha Hb. cbv zeta. pose proof (rank_lt _ a 64 ltac:(lia) Hb) as Hr. unfold popcountll in *.
  split; [|split].
  - split; cbn [coords_bits coords_values]; [by rewrite length_insert|done].
  - rewrite get_spec by done. cbn [coords_bits coords_values]. by rewrite Hb, list_lookup_insert_eq by lia.
  - intros b Hb63 Hne. rewrite !get_spec by done. cbn [coords_bits coords_values].
    destruct (Z.testbit (coords_bits c) (Z.of_nat b)) eqn:E; [|done].
    assert (rank (coords_bits c) a <> rank (coords_bits c) b) as Hd.
    { destruct (Nat.lt_total a b) as [H|[H|H]]; [|lia|].
      - pose proof (rank_lt _ a b H Hb). lia.
      - pose proof (rank_lt _ b a H E). lia. }
    by rewrite list_lookup_insert_ne.
Qed.

(** The packed coordinates of a pointer are a map from axes to values.
    Setting an axis gives that axis the value (a zero that is not stored reads
    as zero) and leaves every other axis as it was, stays within the fourteen
    places, and fails, changing nothing, exactly for an axis that does not exist
    or for a fifteenth one. *)
Theorem packed_coordinates axis value c :
  coords_ok c ->
  let '(status, c') := setAxisValue axis value c in
  coords_ok c' /\
  (forall b, 0 <= b <= 63 -> b <> axis -> getAxisValue c' b = getAxisValue c b) /\
  ((status = OK /\ 0 <= axis <= 63 /\
    (getAxisValue c' axis = value \/ is_zero value = true /\ getAxisValue c' axis = zero)) \/
   (status = NAME_NOT_FOUND /\ c' = c /\ ~ 0 <= axis <= 63) \/
   (status = NO_MEMORY /\ c' = c /\ popcountll (coords_bits c) = MAX_AXES /\
    is_zero value = false /\ Z.testbit (coords_bits c) axis = false)).
Proof.
  intros Hok. unfold setAxisValue.
  destruct (Z.ltb_spec axis 0) as [Hneg|Hneg]; cbn [orb].
  { split; [done|]. split; [done|]. right; left. split; [done|]. split; [done|lia]. }
  destruct (Z.ltb_spec 63 axis) as [Hbig|Hbig].
  { split; [done|]. split; [done|]. right; left. split; [done|]. split; [done|lia]. }
  rewrite has_shiftl by done. set (a := Z.to_nat axis).
  replace axis with (Z.of_nat a) by lia. assert (popcountll (Z.land (coords_bits c) (Z.shiftl 1 (Z.of_nat a) - 1)) = rank (coords_bits c) a) as -> by
    (unfold popcountll; by rewrite rank_low by lia).
  assert (a <= 63)%nat as Ha by lia. destruct (Z.testbit (coords_bits c) (Z.of_nat a)) eqn:Eb; cbn [negb].
  - destruct (set_present c a value Hok Ha Eb) as (Hok' & Hget & Hother). split; [done|]. split.
    + intros b Hb Hne. specialize (Hother (Z.to_nat b)). rewrite Z2Nat.id in Hother by lia. apply Hother; lia.
    + left. split; [done|]. split; [lia|]. by left.
  - destruct (is_zero value) eqn:Ez.
    { split; [done|]. split; [done|]. left. split; [done|]. split; [lia|]. right. split; [done|].
      by rewrite get_spec, Eb. }
    destruct (Nat.leb_spec MAX_AXES (popcountll (coords_bits c))) as [Hfull|Hroom].
    { split; [done|]. split; [done|]. right; right. split; [done|]. split; [done|]. split; [|done].
      destruct Hok as [_ Hc]. lia. }
    destruct (set_new c a value Hok Ha Eb Hroom) as (Hok' & Hget & Hother). split; [done|]. split.
    + intros b Hb Hne. specialize (Hother (Z.to_nat b)). rewrite Z2Nat.id in Hother by lia. apply Hother; lia.
    + left. split; [done|]. split; [lia|]. by left.
Qed.

Definition demo_coords : PointerCoords := mkCoords 3 (float_of_Z 10 :: float_of_Z 20 :: replicate 12 zero).

Lemma demo_coords_ok : coords_ok demo_coords.
Proof. split; vm_compute; [done|lia]. Qed.

Lemma packed_coordinates_witness :
  exists c', setAxisValue 5 (float_of_Z 7) demo_coords = (OK, c') /\ coords_ok c' /\
    getAxisValue c' 1 = float_of_Z 20 /\ getAxisValue c' 5 = float_of_Z 7.
Proof.
  pose proof (packed_coordinates 5 (float_of_Z 7) demo_coords demo_coords_ok) as H.
  destruct (setAxisValue 5 (float_of_Z 7) demo_coords) as [st c'] eqn:E.
  exists c'. destruct H as (Hok & Ho & _). split; [|split; [done|split]].
  - apply (f_equal fst) in E. vm_compute in E. by rewrite <- E.
  - rewrite Ho by lia. vm_compute. reflexivity.
  - vm_compute in E. injection E as _ <-. vm_compute. reflexivity.
Defined.
