(* ===== verification/InputTransport.v ===== *)
(** * Input channels

    [InputMessage], [InputChannel], [InputPublisher] and [InputConsumer]
    ([3rd_party/android-input/android/frameworks/base/services/input/InputTransport.cpp],
    [include/androidfw/InputTransport.h]): how the dispatcher's events reach an
    application and how it is told that they are finished.

    The socket pair is an interface, of the calls [send] and [recv].  A message
    arrives whole or not at all ([SOCK_SEQPACKET]), with the number of its
    bytes; the sizes are those of a 64-bit machine. *)

From Stdlib Require Import SpecFloat.
From S2P Require Import Prelude Geometry Input AndroidEvents.

(** ** Messages *)

Record KeyMessage : Set := mkKeyMessage {
  km_seq : Z; km_eventTime : Z; km_deviceId : Z; km_source : Z; km_action : Z; km_flags : Z;
  km_keyCode : Z; km_scanCode : Z; km_metaState : Z; km_repeatCount : Z; km_downTime : Z;
}.

Record MotionMessage : Set := mkMotionMessage {
  mm_seq : Z; mm_eventTime : Z; mm_deviceId : Z; mm_source : Z; mm_action : Z; mm_flags : Z;
  mm_metaState : Z; mm_buttonState : Z; mm_edgeFlags : Z; mm_downTime : Z;
  mm_xOffset : float; mm_yOffset : float; mm_xPrecision : float; mm_yPrecision : float;
  mm_pointers : list (PointerProperties * PointerCoords);
}.

Inductive InputMessage : Set :=
| TYPE_KEY (key : KeyMessage)
| TYPE_MOTION (motion : MotionMessage)
| TYPE_FINISHED (seq : Z) (handled : bool)
| TYPE_UNKNOWN (type : Z).

Definition sizeof_Header : Z := 8.
Definition sizeof_Key : Z := 56.
Definition sizeof_Pointer : Z := 72.
Definition sizeof_Motion_head : Z := 80.
Definition sizeof_Finished : Z := 8.

Definition message_size (msg : InputMessage) : Z :=
  match msg with
  | TYPE_KEY _ => sizeof_Header + sizeof_Key
  | TYPE_MOTION m => sizeof_Header + (sizeof_Motion_head + sizeof_Pointer * Z.of_nat (length (mm_pointers m)))
  | TYPE_FINISHED _ _ => sizeof_Header + sizeof_Finished
  | TYPE_UNKNOWN _ => sizeof_Header
  end.

Definition isValid (msg : InputMessage) (actualSize : Z) : bool :=
  if message_size msg =? actualSize then
    match msg with
    | TYPE_KEY _ | TYPE_FINISHED _ _ => true
    | TYPE_MOTION m => ((0 <? length (mm_pointers m)) && (length (mm_pointers m) <=? MAX_POINTERS))%nat
    | TYPE_UNKNOWN _ => false
    end
  else false.

Definition EINTR : Z := 4.
Definition EAGAIN : Z := 11.
Definition EPIPE : Z := 32.
Definition ENOTCONN : Z := 107.

(** ** Channels *)

Inductive send_result : Set := sent (n : Z) | send_failed (errno : Z).
Inductive recv_result : Set := received (msg : InputMessage) (n : Z) | recv_eof | recv_failed (errno : Z).

(** The calls on the end of a channel with the descriptor [fd]. *)
Class InputSocket (K : Type) : Type := {
  sock_send : Z -> InputMessage -> Z -> K -> send_result * K;
  sock_recv : Z -> K -> recv_result * K;
  (** How many more calls will be interrupted. *)
  interrupts : K -> nat;
}.

Section Channel.
Context {K : Type} `{InputSocket K}.

(** [do { ... } while (nWrite == -1 && errno == EINTR)]. *)
Fixpoint send_loop (fuel : nat) (fd : Z) (msg : InputMessage) : M K send_result := fun k =>
  match sock_send fd msg (message_size msg) k with
  | (send_failed e, k') =>
      if e =? EINTR then match fuel with O => Wait k' | S n => send_loop n fd msg k' end
      else Ret (send_failed e) k'
  | (r, k') => Ret r k'
  end.

Fixpoint recv_loop (fuel : nat) (fd : Z) : M K recv_result := fun k =>
  match sock_recv fd k with
  | (recv_failed e, k') =>
      if e =? EINTR then match fuel with O => Wait k' | S n => recv_loop n fd k' end
      else Ret (recv_failed e) k'
  | (r, k') => Ret r k'
  end.

Definition status_of_errno (error : Z) : Z :=
  if error =? EAGAIN then WOULD_BLOCK
  else if (error =? EPIPE) || (error =? ENOTCONN) then DEAD_OBJECT
  else - error.

Definition sendMessage (fd : Z) (msg : InputMessage) : M K Z :=
  k ← get ;
  nWrite ← send_loop (interrupts k) fd msg ;
  mret (match nWrite with
        | send_failed error => status_of_errno error
        | sent n => if negb (n =? message_size msg) then DEAD_OBJECT else OK
        end).

Definition receiveMessage (fd : Z) : M K (Z * option InputMessage) :=
  k ← get ;
  nRead ← recv_loop (interrupts k) fd ;
  mret (match nRead with
        | recv_failed error => (status_of_errno error, None)
        | recv_eof => (DEAD_OBJECT, None)
        | received msg n => if negb (isValid msg n) then (BAD_VALUE, None) else (OK, Some msg)
        end).

(** ** The publisher *)

Definition publishKeyEvent (fd seq deviceId source action flags keyCode scanCode metaState repeatCount downTime
    eventTime : Z) : M K Z :=
  if seq =? 0 then mret BAD_VALUE
  else sendMessage fd (TYPE_KEY (mkKeyMessage seq eventTime deviceId source action flags keyCode scanCode metaState
         repeatCount downTime)).

Definition publishMotionEvent (fd seq deviceId source action flags edgeFlags metaState buttonState : Z)
    (xOffset yOffset xPrecision yPrecision : float) (downTime eventTime : Z)
    (pointers : list (PointerProperties * PointerCoords)) : M K Z :=
  if seq =? 0 then mret BAD_VALUE
  else if ((MAX_POINTERS <? length pointers) || (length pointers <? 1))%nat then mret BAD_VALUE
  else sendMessage fd (TYPE_MOTION (mkMotionMessage seq eventTime deviceId source action flags metaState buttonState
         edgeFlags downTime xOffset yOffset xPrecision yPrecision pointers)).

(** The status, the sequence number and whether the event was handled; [None]
    where the two are left unset. *)
Definition receiveFinishedSignal (fd : Z) : M K (Z * option (Z * bool)) :=
  r ← receiveMessage fd ;
  mret (match r with
        | (_, Some (TYPE_FINISHED seq handled)) => (OK, Some (seq, handled))
        | (_, Some _) => (UNKNOWN_ERROR, None)
        | (result, None) => (result, Some (0, false))
        end).

End Channel.

(** ** The consumer *)

Record KeyInput : Set := mkKeyInput {
  ki_deviceId : Z; ki_source : Z; ki_action : Z; ki_flags : Z; ki_keyCode : Z; ki_scanCode : Z;
  ki_metaState : Z; ki_repeatCount : Z; ki_downTime : Z; ki_eventTime : Z;
}.

(** [MotionEvent]: one time and the coordinates of all pointers per sample. *)
Record MotionInput : Set := mkMotionInput {
  mi_deviceId : Z; mi_source : Z; mi_action : Z; mi_flags : Z; mi_edgeFlags : Z; mi_metaState : Z;
  mi_buttonState : Z; mi_xOffset : float; mi_yOffset : float; mi_xPrecision : float; mi_yPrecision : float;
  mi_downTime : Z;
  mi_properties : list PointerProperties;
  mi_samples : list (Z * list PointerCoords);
}.

Inductive InputEvent : Set := key_event (e : KeyInput) | motion_event (e : MotionInput).

Definition initializeKeyEvent (m : KeyMessage) : KeyInput :=
  mkKeyInput (km_deviceId m) (km_source m) (km_action m) (km_flags m) (km_keyCode m) (km_scanCode m)
    (km_metaState m) (km_repeatCount m) (km_downTime m) (km_eventTime m).

Definition coords_of (m : MotionMessage) : list PointerCoords := map snd (mm_pointers m).

Definition initializeMotionEvent (m : MotionMessage) : MotionInput :=
  mkMotionInput (mm_deviceId m) (mm_source m) (mm_action m) (mm_flags m) (mm_edgeFlags m) (mm_metaState m)
    (mm_buttonState m) (mm_xOffset m) (mm_yOffset m) (mm_xPrecision m) (mm_yPrecision m) (mm_downTime m)
    (map fst (mm_pointers m)) [(mm_eventTime m, coords_of m)].

Definition add_sample (eventTime : Z) (coords : list PointerCoords) (e : MotionInput) : MotionInput :=
  mkMotionInput (mi_deviceId e) (mi_source e) (mi_action e) (mi_flags e) (mi_edgeFlags e) (mi_metaState e)
    (mi_buttonState e) (mi_xOffset e) (mi_yOffset e) (mi_xPrecision e) (mi_yPrecision e) (mi_downTime e)
    (mi_properties e) (mi_samples e ++ [(eventTime, coords)]).

Definition addSample (m : MotionMessage) (e : MotionInput) : MotionInput :=
  add_sample (mm_eventTime m) (coords_of m)
    (mkMotionInput (mi_deviceId e) (mi_source e) (mi_action e) (mi_flags e) (mi_edgeFlags e)
       (Z.lor (mi_metaState e) (mm_metaState m))
       (mi_buttonState e) (mi_xOffset e) (mi_yOffset e) (mi_xPrecision e) (mi_yPrecision e) (mi_downTime e)
       (mi_properties e) (mi_samples e)).

(** A sample of the touch state: the coordinates of each identifier. *)
Record History : Set := mkHistory {
  hs_eventTime : Z;
  hs_idBits : Z;
  hs_idToIndex : gmap Z nat;
  hs_pointers : list PointerCoords;
}.

Record TouchHistory : Set := mkTouch {
  th_deviceId : Z; th_source : Z;
  (** [history], the latest first; at most two. *)
  th_history : list History;
  th_lastResample : History;
}.

Definition initializeFrom (m : MotionMessage) : History :=
  let ids := map (fun p => pp_id (fst p)) (mm_pointers m) in
  mkHistory (mm_eventTime m) (fold_left markBit ids 0)
    (list_to_map (reverse (zip ids (seq 0 (length ids))))) (coords_of m).

Definition getPointerById (h : History) (id : Z) : PointerCoords :=
  default (mkCoords 0 []) (i ← hs_idToIndex h !! id ; hs_pointers h !! i).

Definition no_resample : History := mkHistory 0 0 ∅ [].

Definition touch_initialize (deviceId source : Z) : TouchHistory := mkTouch deviceId source [] no_resample.

Definition addHistory (m : MotionMessage) (t : TouchHistory) : TouchHistory :=
  mkTouch (th_deviceId t) (th_source t) (take 2 (initializeFrom m :: th_history t)) (th_lastResample t).

Definition set_resample (h : History) (t : TouchHistory) : TouchHistory :=
  mkTouch (th_deviceId t) (th_source t) (th_history t) h.

Definition clear_resample_ids (f : Z -> Z) (t : TouchHistory) : TouchHistory :=
  let h := th_lastResample t in
  set_resample (mkHistory (hs_eventTime h) (f (hs_idBits h)) (hs_idToIndex h) (hs_pointers h)) t.

Record InputConsumer : Set := mkConsumer {
  mResampleTouch : bool;
  (** [mMsg], when [mMsgDeferred]. *)
  deferred : option InputMessage;
  mBatches : list (list MotionMessage);
  mTouchStates : list TouchHistory;
  (** A sequence number, and that of the message before it in the batch. *)
  mSeqChains : list (Z * Z);
}.

Definition set_deferred (d : option InputMessage) (c : InputConsumer) : InputConsumer :=
  mkConsumer (mResampleTouch c) d (mBatches c) (mTouchStates c) (mSeqChains c).
Definition set_batches (b : list (list MotionMessage)) (c : InputConsumer) : InputConsumer :=
  mkConsumer (mResampleTouch c) (deferred c) b (mTouchStates c) (mSeqChains c).
Definition set_touch (t : list TouchHistory) (c : InputConsumer) : InputConsumer :=
  mkConsumer (mResampleTouch c) (deferred c) (mBatches c) t (mSeqChains c).
Definition set_chains (l : list (Z * Z)) (c : InputConsumer) : InputConsumer :=
  mkConsumer (mResampleTouch c) (deferred c) (mBatches c) (mTouchStates c) l.

Definition InputConsumer_new (resample : bool) : InputConsumer := mkConsumer resample None [] [] [].

Definition hasDeferredEvent (c : InputConsumer) : bool := bool_decide (is_Some (deferred c)).
Definition hasPendingBatch (c : InputConsumer) : bool := negb (bool_decide (mBatches c = [])).

(** *** Resampling *)

Definition NANOS_PER_MS : Z := 1000000.
Definition RESAMPLE_LATENCY : Z := 5 * NANOS_PER_MS.
Definition RESAMPLE_MIN_DELTA : Z := 2 * NANOS_PER_MS.
Definition RESAMPLE_MAX_PREDICTION : Z := 8 * NANOS_PER_MS.

Definition AMOTION_EVENT_TOOL_TYPE_UNKNOWN : Z := 0.
Definition AMOTION_EVENT_TOOL_TYPE_FINGER : Z := 1.

Definition lerp (a b alpha : float) : float := float_add a (float_mul alpha (SFsub 24 128 b a)).

Definition is_touch (deviceId source : Z) (t : TouchHistory) : bool :=
  (th_deviceId t =? deviceId) && (th_source t =? source).

Definition findTouchState (deviceId source : Z) (c : InputConsumer) : option (nat * TouchHistory) :=
  list_find (fun t => is_touch deviceId source t = true) (mTouchStates c).

Definition rewrite_pointer (h : History) (p : PointerProperties * PointerCoords) : PointerProperties * PointerCoords :=
  let id := pp_id (fst p) in
  if hasBit (hs_idBits h) id then
    let resampled := getPointerById h id in
    (fst p, snd (setAxisValue AMOTION_EVENT_AXIS_Y (getY resampled)
             (snd (setAxisValue AMOTION_EVENT_AXIS_X (getX resampled) (snd p)))))
  else p.

Definition set_pointers (ps : list (PointerProperties * PointerCoords)) (m : MotionMessage) : MotionMessage :=
  mkMotionMessage (mm_seq m) (mm_eventTime m) (mm_deviceId m) (mm_source m) (mm_action m) (mm_flags m)
    (mm_metaState m) (mm_buttonState m) (mm_edgeFlags m) (mm_downTime m)
    (mm_xOffset m) (mm_yOffset m) (mm_xPrecision m) (mm_yPrecision m) ps.

Definition rewriteMessage (t : TouchHistory) (m : MotionMessage) : MotionMessage :=
  set_pointers (map (rewrite_pointer (th_lastResample t)) (mm_pointers m)) m.

(** [getActionId]; an index past the pointers reads what is not there. *)
Definition getActionId (m : MotionMessage) : Z :=
  default 0 ((fun p => pp_id (fst p)) <$> mm_pointers m !! Z.to_nat (getMotionEventActionPointerIndex (mm_action m))).

Definition updateTouchState (m : MotionMessage) (c : InputConsumer) : MotionMessage * InputConsumer :=
  if negb (mResampleTouch c) || negb (has (mm_source m) AINPUT_SOURCE_CLASS_POINTER) then (m, c)
  else
    let found := findTouchState (mm_deviceId m) (mm_source m) c in
    let action := Z.land (mm_action m) AMOTION_EVENT_ACTION_MASK in
    let put i t := set_touch (<[ i := t ]> (mTouchStates c)) c in
    if action =? AMOTION_EVENT_ACTION_DOWN then
      let t := addHistory m (touch_initialize (mm_deviceId m) (mm_source m)) in
      match found with
      | Some (i, _) => (m, put i t)
      | None => (m, set_touch (mTouchStates c ++ [t]) c)
      end
    else
      match found with
      | None => (m, c)
      | Some (i, t) =>
          if action =? AMOTION_EVENT_ACTION_MOVE then
            let t := addHistory m t in
            if mm_eventTime m <? hs_eventTime (th_lastResample t) then (rewriteMessage t m, put i t)
            else (m, put i (clear_resample_ids (fun _ => 0) t))
          else if action =? AMOTION_EVENT_ACTION_POINTER_DOWN then
            let t := clear_resample_ids (fun bits => clearBit bits (getActionId m)) t in
            (rewriteMessage t m, put i t)
          else if action =? AMOTION_EVENT_ACTION_POINTER_UP then
            (rewriteMessage t m, put i (clear_resample_ids (fun bits => clearBit bits (getActionId m)) t))
          else if action =? AMOTION_EVENT_ACTION_SCROLL then (rewriteMessage t m, c)
          else if (action =? AMOTION_EVENT_ACTION_UP) || (action =? AMOTION_EVENT_ACTION_CANCEL) then
            (rewriteMessage t m, set_touch (delete i (mTouchStates c)) c)
          else (m, c)
      end.

Definition shouldResampleTool (tool : Z) : bool :=
  (tool =? AMOTION_EVENT_TOOL_TYPE_FINGER) || (tool =? AMOTION_EVENT_TOOL_TYPE_UNKNOWN).

(** The other sample, the factor and the time to resample at, if there is enough
    data. *)
Definition resample_with (sampleTime : Z) (next : option MotionMessage) (t : TouchHistory) (current : History)
    : option (History * float * Z) :=
  match next, th_history t with
  | Some m, _ =>
      let future := initializeFrom m in
      let delta := hs_eventTime future - hs_eventTime current in
      if delta <? RESAMPLE_MIN_DELTA then None
      else Some (future, SFdiv 24 128 (float_of_Z (sampleTime - hs_eventTime current)) (float_of_Z delta), sampleTime)
  | None, _ :: other :: _ =>
      let delta := hs_eventTime current - hs_eventTime other in
      if delta <? RESAMPLE_MIN_DELTA then None
      else
        let maxPredict := hs_eventTime current + Z.min (Z.quot delta 2) RESAMPLE_MAX_PREDICTION in
        let sampleTime := if maxPredict <? sampleTime then maxPredict else sampleTime in
        Some (other, SFdiv 24 128 (float_of_Z (hs_eventTime current - sampleTime)) (float_of_Z delta), sampleTime)
  | None, _ => None
  end.

Definition resample_pointer (current other : History) (alpha : float) (p : PointerProperties) : PointerCoords :=
  let currentCoords := getPointerById current (pp_id p) in
  if hasBit (hs_idBits other) (pp_id p) && shouldResampleTool (toolType p) then
    let otherCoords := getPointerById other (pp_id p) in
    snd (setAxisValue AMOTION_EVENT_AXIS_Y (lerp (getY currentCoords) (getY otherCoords) alpha)
      (snd (setAxisValue AMOTION_EVENT_AXIS_X (lerp (getX currentCoords) (getX otherCoords) alpha) currentCoords)))
  else currentCoords.

Definition resampleTouchState (sampleTime : Z) (event : MotionInput) (next : option MotionMessage) (c : InputConsumer)
    : MotionInput * InputConsumer :=
  if negb (mResampleTouch c) || negb (has (mi_source event) AINPUT_SOURCE_CLASS_POINTER)
     || negb (mi_action event =? AMOTION_EVENT_ACTION_MOVE) then (event, c)
  else
    match findTouchState (mi_deviceId event) (mi_source event) c with
    | None => (event, c)
    | Some (i, t) =>
        match th_history t with
        | [] => (event, c)
        | current :: _ =>
            if negb (forallb (fun p => hasBit (hs_idBits current) (pp_id p)) (mi_properties event)) then (event, c)
            else
              match resample_with sampleTime next t current with
              | None => (event, c)
              | Some (other, alpha, sampleTime) =>
                  let ids := map pp_id (mi_properties event) in
                  let coords := map (resample_pointer current other alpha) (mi_properties event) in
                  let h := mkHistory sampleTime (fold_left markBit ids 0)
                             (list_to_map (reverse (zip ids (seq 0 (length ids))))) coords in
                  (add_sample sampleTime coords event,
                   set_touch (<[ i := set_resample h t ]> (mTouchStates c)) c)
              end
        end
    end.

(** *** Batches *)

Definition is_batch (deviceId source : Z) (batch : list MotionMessage) : bool :=
  match batch with
  | head :: _ => (mm_deviceId head =? deviceId) && (mm_source head =? source)
  | [] => false
  end.

Definition findBatch (deviceId source : Z) (c : InputConsumer) : option (nat * list MotionMessage) :=
  list_find (fun b => is_batch deviceId source b = true) (mBatches c).

Definition canAddSample (batch : list MotionMessage) (m : MotionMessage) : bool :=
  match batch with
  | [] => false
  | head :: _ =>
      if negb (length (mm_pointers head) =? length (mm_pointers m))%nat || negb (mm_action head =? mm_action m) then false
      else bool_decide (map fst (mm_pointers head) = map fst (mm_pointers m))
  end.

(** The index of the last sample that is no later than [time], plus one. *)
Fixpoint samples_until (time : Z) (batch : list MotionMessage) : nat :=
  match batch with
  | m :: batch' => if mm_eventTime m <=? time then S (samples_until time batch') else O
  | [] => O
  end.

(** The loop of [consumeSamples]: the event, the last sequence number. *)
Fixpoint consume_loop (samples : list MotionMessage) (event : option MotionInput) (chain : Z) (c : InputConsumer)
    : option MotionInput * Z * InputConsumer :=
  match samples with
  | [] => (event, chain, c)
  | m :: samples' =>
      let '(m, c) := updateTouchState m c in
      match event with
      | Some e => consume_loop samples' (Some (addSample m e)) (mm_seq m) (set_chains (mSeqChains c ++ [(mm_seq m, chain)]) c)
      | None => consume_loop samples' (Some (initializeMotionEvent m)) (mm_seq m) c
      end
  end.

(** What a call of [consume] gives. *)
Record consumed : Set := mkConsumed { cs_status : Z; cs_seq : Z; cs_event : option InputEvent }.

(** [consumeSamples] on the first [count] samples of the batch at [i]; [created]
    is whether the factory could make the event. *)
Definition consumeSamples (created : bool) (i count : nat) (batch : list MotionMessage) (c : InputConsumer)
    : Z * Z * option MotionInput * InputConsumer :=
  if negb created then (NO_MEMORY, 0, None, c)
  else
    let '(event, chain, c) := consume_loop (take count batch) None 0 c in
    (OK, chain, event, set_batches (<[ i := drop count batch ]> (mBatches c)) c).

(** The loop of [consumeBatch] over the batches, from the last. *)
Fixpoint consume_batches (created : bool) (frameTime : Z) (i : nat) (c : InputConsumer)
    : Z * Z * option MotionInput * InputConsumer :=
  match i with
  | O => (WOULD_BLOCK, 0, None, c)
  | S i' =>
      match mBatches c !! i' with
      | None => (WOULD_BLOCK, 0, None, c)
      | Some batch =>
          if frameTime <? 0 then
            let '(result, seq, event, c) := consumeSamples created i' (length batch) batch c in
            (result, seq, event, set_batches (delete i' (mBatches c)) c)
          else
            let sampleTime := frameTime - RESAMPLE_LATENCY in
            match samples_until sampleTime batch with
            | O => consume_batches created frameTime i' c
            | S split =>
                let '(result, seq, event, c) := consumeSamples created i' (S split) batch c in
                let rest := default [] (mBatches c !! i') in
                let c := if bool_decide (rest = []) then set_batches (delete i' (mBatches c)) c else c in
                match event with
                | Some e => let '(e, c) := resampleTouchState sampleTime e (head rest) c in (result, seq, Some e, c)
                | None => (result, seq, None, c)
                end
            end
      end
  end.

Definition consumeBatch (created : bool) (frameTime : Z) (c : InputConsumer) : consumed * InputConsumer :=
  let '(result, seq, event, c) := consume_batches created frameTime (length (mBatches c)) c in
  (mkConsumed result seq (motion_event <$> event), c).

Definition push_sample (i : nat) (m : MotionMessage) (batch : list MotionMessage) (c : InputConsumer) : InputConsumer :=
  set_batches (<[ i := batch ++ [m] ]> (mBatches c)) c.

(** A turn of the loop of [consume] with a message: [None] to go on. *)
Definition consume_message (created : bool) (msg : InputMessage) (c : InputConsumer) : option consumed * InputConsumer :=
  match msg with
  | TYPE_KEY m =>
      if negb created then (Some (mkConsumed NO_MEMORY 0 None), c)
      else (Some (mkConsumed OK (km_seq m) (Some (key_event (initializeKeyEvent m)))), c)
  | TYPE_MOTION m =>
      match findBatch (mm_deviceId m) (mm_source m) c with
      | Some (i, batch) =>
          if canAddSample batch m then (None, push_sample i m batch c)
          else
            let c := set_deferred (Some msg) c in
            let '(result, seq, event, c) := consumeSamples created i (length batch) batch c in
            (Some (mkConsumed result seq (motion_event <$> event)), set_batches (delete i (mBatches c)) c)
      | None =>
          if (mm_action m =? AMOTION_EVENT_ACTION_MOVE) || (mm_action m =? AMOTION_EVENT_ACTION_HOVER_MOVE)
          then (None, set_batches (mBatches c ++ [[m]]) c)
          else if negb created then (Some (mkConsumed NO_MEMORY 0 None), c)
          else
            let '(m, c) := updateTouchState m c in
            (Some (mkConsumed OK (mm_seq m) (Some (motion_event (initializeMotionEvent m)))), c)
      end
  | _ => (Some (mkConsumed UNKNOWN_ERROR 0 None), c)
  end.

Section Consume.
Context {K : Type} `{InputSocket K}.

Definition on_consumer : lens (InputConsumer * K) InputConsumer := Lens fst (fun c s => (c, snd s)).
Definition on_socket : lens (InputConsumer * K) K := Lens snd (fun k s => (fst s, k)).

Definition consumer_do {A} (f : InputConsumer -> A * InputConsumer) : M (InputConsumer * K) A :=
  fun s => let '(a, c) := f (fst s) in Ret a (c, snd s).

(** [consume] on the channel [fd].  [fuel] bounds the messages that are read. *)
Fixpoint consume (fuel : nat) (fd : Z) (created consumeBatches : bool) (frameTime : Z) : M (InputConsumer * K) consumed :=
  c ← gets fst ;
  next ←
    match deferred c with
    | Some msg => consumer_do (fun c => ((OK, Some msg), set_deferred None c))
    | None => zoom on_socket (receiveMessage fd)
    end ;
  match next with
  | (result, None) =>
      if consumeBatches || negb (result =? WOULD_BLOCK)
      then consumer_do (consumeBatch created frameTime)
      else mret (mkConsumed result 0 None)
  | (_, Some msg) =>
      r ← consumer_do (consume_message created msg) ;
      match r : option consumed with
      | Some r => mret r
      | None => match fuel with O => wait | S n => consume n fd created consumeBatches frameTime end
      end
  end.

(** *** Finished signals *)

Definition sendUnchainedFinishedSignal (fd seq : Z) (handled : bool) : M (InputConsumer * K) Z :=
  zoom on_socket (sendMessage fd (TYPE_FINISHED seq handled)).

(** The loop over the chains from the last: those that are left, and the
    sequence numbers that are chained to [currentSeq], in that order. *)
Fixpoint unchain (chains_rev : list (Z * Z)) (currentSeq : Z) : list (Z * Z) * list Z :=
  match chains_rev with
  | [] => ([], [])
  | (seq, chain) :: l =>
      if seq =? currentSeq
      then let '(rest, seqs) := unchain l chain in (rest, chain :: seqs)
      else let '(rest, seqs) := unchain l currentSeq in (rest ++ [(seq, chain)], seqs)
  end.

(** [while (!status && chainIndex-- > 0)]: the signals of [seqs] in order; the
    status, and those that were not sent. *)
Fixpoint send_chain (fd : Z) (handled : bool) (seqs : list Z) : M (InputConsumer * K) (Z * list Z) :=
  match seqs with
  | [] => mret (OK, [])
  | s :: seqs' =>
      status ← sendUnchainedFinishedSignal fd s handled ;
      if status =? OK then send_chain fd handled seqs' else mret (status, seqs)
  end.

(** The chains that the [do] loop puts back; [unsent] are the sequence numbers
    that were not sent, the oldest first. *)
Fixpoint rechain (unsent : list Z) (seq : Z) : list (Z * Z) :=
  match unsent with
  | [] => []
  | [s] => [(seq, s)]
  | s :: ((s' :: _) as l) => (s', s) :: rechain l seq
  end.

Definition sendFinishedSignal (fd seq : Z) (handled : bool) : M (InputConsumer * K) Z :=
  if seq =? 0 then mret BAD_VALUE
  else
    chains ← gets (fun s => mSeqChains (fst s)) ;
    let '(rest, seqs) := unchain (reverse chains) seq in
    modify (fun s => (set_chains rest (fst s), snd s)) ;;
    r ← send_chain fd handled (reverse seqs) ;
    match r : Z * list Z with
    | (status, unsent) =>
        if status =? OK then sendUnchainedFinishedSignal fd seq handled
        else
          modify (fun s => (set_chains (mSeqChains (fst s) ++ rechain unsent seq) (fst s), snd s)) ;;
          mret status
    end.

End Consume.

(** ** Finished signals: theorems *)

(** What is documented of the sockets: a message is sent whole or not at all,
    and they are received in order. *)
Class InputSocketLaws (K : Type) `{InputSocket K} : Type := {
  (** The messages sent from [fd], and those that can be received there, with
      their sizes. *)
  outgoing : Z -> K -> list InputMessage;
  incoming : Z -> K -> list (InputMessage * Z);
  send_law fd msg n k :
    match sock_send fd msg n k with
    | (sent m, k') => m = n /\ outgoing fd k' = outgoing fd k ++ [msg] /\ (interrupts k' <= interrupts k)%nat
    | (send_failed e, k') =>
        0 < e /\ outgoing fd k' = outgoing fd k /\
        (interrupts k' <= interrupts k)%nat /\ (e = EINTR -> (interrupts k' < interrupts k)%nat)
    end;
  recv_law fd k :
    match sock_recv fd k with
    | (received msg n, k') => incoming fd k = (msg, n) :: incoming fd k' /\ (interrupts k' <= interrupts k)%nat
    | (recv_eof, k') => incoming fd k' = incoming fd k
    | (recv_failed e, k') =>
        0 < e /\ incoming fd k' = incoming fd k /\
        (interrupts k' <= interrupts k)%nat /\ (e = EINTR -> (interrupts k' < interrupts k)%nat)
    end;
}.

Section SocketLemmas.
Context {K : Type} `{InputSocketLaws K}.

Lemma send_loop_spec fd msg n (k : K) :
  (interrupts k <= n)%nat ->
  exists r k', send_loop n fd msg k = Ret r k' /\
    match r with
    | sent m => m = message_size msg /\ outgoing fd k' = outgoing fd k ++ [msg]
    | send_failed e => 0 < e /\ outgoing fd k' = outgoing fd k
    end.
Proof.
  revert k. induction n as [|n IH]; intros k Hn; cbn [send_loop];
    pose proof (send_law fd msg (message_size msg) k) as L;
    destruct (sock_send fd msg (message_size msg) k) as [[m|e] k'].
  - eexists _, _. split; [reflexivity|]. naive_solver.
  - destruct L as (He & Ho & _ & Hi). destruct (Z.eqb_spec e EINTR) as [E|_]; [specialize (Hi E); lia|].
    eexists _, _. split; [reflexivity|]. done.
  - eexists _, _. split; [reflexivity|]. naive_solver.
  - destruct L as (He & Ho & _ & Hi). destruct (Z.eqb_spec e EINTR) as [E|_].
    + destruct (IH k') as (r & k2 & -> & Hr); [specialize (Hi E); lia|]. eexists _, _. split; [reflexivity|].
      destruct r; rewrite <- Ho; done.
    + eexists _, _. split; [reflexivity|]. done.
Qed.

Lemma status_of_errno_nonzero e : 0 < e -> status_of_errno e <> OK.
Proof. intros He. unfold status_of_errno. unfold OK, WOULD_BLOCK, DEAD_OBJECT. repeat case_match; lia. Qed.

Lemma sendMessage_spec fd msg (k : K) :
  exists st k', sendMessage fd msg k = Ret st k' /\
    outgoing fd k' = outgoing fd k ++ (if st =? OK then [msg] else []).
Proof.
  unfold sendMessage, get, mbind, M_bind. destruct (send_loop_spec fd msg (interrupts k) k) as (r & k' & -> & Hr); [lia|].
  eexists _, _. split; [reflexivity|]. destruct r as [m|e].
  - destruct Hr as [-> ->]. by rewrite Z.eqb_refl.
  - destruct Hr as [He ->]. rewrite (proj2 (Z.eqb_neq _ _)); [by rewrite app_nil_r|by apply status_of_errno_nonzero].
Qed.

Lemma receive_loop_spec fd n (k : K) :
  (interrupts k <= n)%nat ->
  exists r k', recv_loop n fd k = Ret r k' /\
    match r with
    | received msg m => incoming fd k = (msg, m) :: incoming fd k'
    | recv_eof => incoming fd k' = incoming fd k
    | recv_failed e => 0 < e /\ incoming fd k' = incoming fd k
    end.
Proof.
  revert k. induction n as [|n IH]; intros k Hn; cbn [recv_loop];
    pose proof (recv_law fd k) as L; destruct (sock_recv fd k) as [[msg m| |e] k'];
    try (eexists _, _; split; [reflexivity|]; naive_solver).
  - destruct L as (He & Ho & _ & Hi). destruct (Z.eqb_spec e EINTR) as [E|_]; [specialize (Hi E); lia|].
    eexists _, _. split; [reflexivity|]. done.
  - destruct L as (He & Ho & _ & Hi). destruct (Z.eqb_spec e EINTR) as [E|_].
    + destruct (IH k') as (r & k2 & -> & Hr); [specialize (Hi E); lia|]. eexists _, _. split; [reflexivity|].
      destruct r; rewrite <- Ho; done.
    + eexists _, _. split; [reflexivity|]. done.
Qed.

(** Receiving gives a valid message that was at the front, or a status that is
    not [OK]; what is invalid is dropped. *)
Lemma receiveMessage_spec fd (k : K) :
  exists st m k', receiveMessage fd k = Ret (st, m) k' /\
    match m with
    | Some msg => st = OK /\ exists n, isValid msg n = true /\ incoming fd k = (msg, n) :: incoming fd k'
    | None => st <> OK /\ (incoming fd k' = incoming fd k \/
        st = BAD_VALUE /\ exists msg n, isValid msg n = false /\ incoming fd k = (msg, n) :: incoming fd k')
    end.
Proof.
  unfold receiveMessage, get, mbind, M_bind. destruct (receive_loop_spec fd (interrupts k) k) as (r & k' & -> & Hr); [lia|].
  destruct r as [msg n| |e]; simpl.
  - destruct (isValid msg n) eqn:E; eexists _, _, _; (split; [reflexivity|]); simpl; eauto 10.
  - eexists _, _, _; (split; [reflexivity|]). simpl. by auto.
  - destruct Hr as [He Hi]. eexists _, _, _; (split; [reflexivity|]). simpl. split; [by apply status_of_errno_nonzero|auto].
Qed.

End SocketLemmas.

(** *** Chains *)

(** The messages of an event, each chained to the one before it. *)
Fixpoint links (prev : Z) (l : list Z) : list (Z * Z) :=
  match l with
  | [] => []
  | s :: l' => (s, prev) :: links s l'
  end.

Definition chain_of (g : list Z) : list (Z * Z) := match g with [] => [] | s :: l => links s l end.

Definition chains_of (gs : list (list Z)) : list (Z * Z) := concat (map chain_of gs).

Lemma chains_of_app gs1 gs2 : chains_of (gs1 ++ gs2) = chains_of gs1 ++ chains_of gs2.
Proof. unfold chains_of. by rewrite map_app, concat_app. Qed.

Lemma last_cons (a : Z) l d : List.last (a :: l) d = List.last l a.
Proof.
  revert a d. induction l as [|b l IH]; intros a d; [done|].
  change (List.last (a :: b :: l) d) with (List.last (b :: l) d). rewrite !(IH b). done.
Qed.

Lemma links_snoc prev l s : links prev (l ++ [s]) = links prev l ++ [(s, List.last l prev)].
Proof.
  revert prev. induction l as [|a l IH]; intros prev; [done|]. rewrite last_cons. simpl. by rewrite IH.
Qed.

Lemma chain_of_snoc g s : g <> [] -> chain_of (g ++ [s]) = chain_of g ++ [(s, List.last g 0)].
Proof. destruct g as [|a g]; [done|]. intros _. rewrite last_cons. simpl. by rewrite links_snoc. Qed.

Lemma links_keys prev l : map fst (links prev l) = l.
Proof. revert prev. induction l as [|a l IH]; intros prev; simpl; [done|]. by rewrite IH. Qed.

Lemma chains_of_keys gs x : x ∈ map fst (chains_of gs) -> x ∈ concat gs.
Proof.
  unfold chains_of. induction gs as [|g gs IH]; [done|]. simpl. rewrite map_app, !elem_of_app.
  intros [Hx|Hx]; [|auto]. left. destruct g as [|s l]; [done|]. simpl in Hx. rewrite links_keys in Hx. set_solver.
Qed.

(** Chains of other messages stay. *)
Lemma unchain_other l rest cur :
  cur ∉ map fst l -> unchain (reverse l ++ rest) cur = (fst (unchain rest cur) ++ l, snd (unchain rest cur)).
Proof.
  induction l as [|[s ch] l IH] using rev_ind; intros Hn.
  - rewrite reverse_nil, app_nil_l. rewrite app_nil_r. by destruct (unchain rest cur).
  - rewrite map_app, not_elem_of_app in Hn. destruct Hn as [Hl Hs].
    rewrite reverse_snoc. simpl. rewrite (proj2 (Z.eqb_neq _ _)) by set_solver. rewrite IH by done. simpl.
    by rewrite app_assoc.
Qed.

Lemma unchain_links g s rest :
  NoDup (g ++ [s]) -> (forall x, x ∈ g -> x ∉ map fst rest) ->
  unchain (reverse (chain_of (g ++ [s])) ++ reverse rest) s =
    match g with
    | [] => unchain (reverse rest) s
    | _ => (rest, reverse g)
    end.
Proof.
  revert s. induction g as [|x g IH] using rev_ind; intros s Hnd Hr; [done|].
  rewrite chain_of_snoc by (by destruct g). rewrite List.last_last, reverse_snoc. simpl. rewrite Z.eqb_refl.
  assert (g ++ [x] <> []) as Hne by (by destruct g).
  assert (unchain (reverse (chain_of (g ++ [x])) ++ reverse rest) x = (rest, reverse g)) as ->.
  { rewrite IH; [|by apply NoDup_app in Hnd as [? _]|set_solver].
    destruct g as [|y g]; [|done]. pose proof (unchain_other rest [] x) as Hu. rewrite app_nil_r in Hu.
    rewrite Hu by set_solver. done. }
  rewrite reverse_snoc. by destruct (g ++ [x]) eqn:E.
Qed.

(** Finding the chain of an event among those of the others. *)
Lemma unchain_group gs1 g s gs2 :
  NoDup (concat (gs1 ++ (g ++ [s]) :: gs2)) ->
  unchain (reverse (chains_of (gs1 ++ (g ++ [s]) :: gs2))) s = (chains_of (gs1 ++ gs2), reverse g).
Proof.
  intros Hnd. rewrite !chains_of_app. unfold chains_of at 2. cbn [map concat]. fold (chains_of gs2).
  rewrite concat_app in Hnd. cbn [concat] in Hnd. apply NoDup_app in Hnd as (_ & H1 & Hnd).
  apply NoDup_app in Hnd as (Hg & H2 & Hnd').
  rewrite !reverse_app, <- app_assoc, unchain_other.
  2:{ intros Hx. apply chains_of_keys in Hx. apply (H2 s); [set_solver|exact Hx]. }
  assert (forall x, x ∈ g ++ [s] -> x ∉ map fst (chains_of gs1)) as Hx1.
  { intros x Hx Hc. apply chains_of_keys in Hc. apply (H1 x Hc). set_solver. }
  rewrite unchain_links; [|done|intros x Hx; apply Hx1, elem_of_app; by left].
  destruct g as [|y g]; [|done]. pose proof (unchain_other (chains_of gs1) [] s) as Hu. rewrite app_nil_r in Hu.
  rewrite Hu; [done|]. apply Hx1. set_solver.
Qed.

Lemma rechain_chain unsent s : unsent <> [] -> rechain unsent s = chain_of (unsent ++ [s]).
Proof.
  induction unsent as [|x l IH]; [done|]. intros _. destruct l as [|y l]; [done|].
  change (rechain (x :: y :: l) s) with ((y, x) :: rechain (y :: l) s). by rewrite IH.
Qed.

Section Finish.
Context {K : Type} `{InputSocketLaws K}.

Definition finished (handled : bool) (l : list Z) : list InputMessage := map (fun s => TYPE_FINISHED s handled) l.

Lemma send_chain_spec fd handled seqs c (k : K) :
  exists st unsent sentl k', send_chain fd handled seqs (c, k) = Ret (st, unsent) (c, k') /\
    seqs = sentl ++ unsent /\ outgoing fd k' = outgoing fd k ++ finished handled sentl /\ (st = OK <-> unsent = []).
Proof.
  revert k. induction seqs as [|s seqs IH]; intros k; cbn [send_chain].
  { exists OK, [], [], k. split; [done|]. split; [done|]. split; [by rewrite app_nil_r|done]. }
  unfold mbind at 1, M_bind, sendUnchainedFinishedSignal, zoom. simpl.
  destruct (sendMessage_spec fd (TYPE_FINISHED s handled) k) as (st & k' & -> & Ho). simpl.
  destruct (Z.eqb_spec st OK) as [->|Hst].
  - destruct (IH k') as (st & unsent & sentl & k2 & -> & -> & Ho2 & Hiff). exists st, unsent, (s :: sentl), k2.
    split; [done|]. split; [done|]. split; [|done]. rewrite Ho2, Ho, <- app_assoc. done.
  - exists st, (s :: seqs), [], k'. split; [done|]. split; [done|]. rewrite Ho, app_nil_r. split; [by rewrite app_nil_r|done].
Qed.

(** When an application finishes an event that was made of several batched
    messages, every one of them is finished, in the order in which they came and
    once.  If the socket refuses one, the ones not sent stay chained to the
    event, so that finishing it again sends exactly the rest; the chains of
    other events are not touched. *)
Theorem finishing_finishes_batch fd handled gs1 g s gs2 c (k : K) :
  NoDup (concat (gs1 ++ (g ++ [s]) :: gs2)) -> s <> 0 ->
  mSeqChains c = chains_of (gs1 ++ (g ++ [s]) :: gs2) ->
  exists st c' k' sentl unsent,
    sendFinishedSignal fd s handled (c, k) = Ret st (c', k') /\
    g ++ [s] = sentl ++ unsent /\ outgoing fd k' = outgoing fd k ++ finished handled sentl /\
    (st = OK <-> unsent = []) /\ mSeqChains c' = chains_of (gs1 ++ gs2 ++ [unsent]).
Proof.
  intros Hnd Hs Hc. unfold sendFinishedSignal. rewrite (proj2 (Z.eqb_neq _ _)) by done.
  unfold mbind at 1, M_bind, gets. simpl. rewrite Hc, unchain_group by done. rewrite reverse_involutive.
  unfold mbind, M_bind, modify. simpl.
  destruct (send_chain_spec fd handled g (set_chains (chains_of (gs1 ++ gs2)) c) k)
    as (st & unsent & sentl & k1 & -> & -> & Ho & Hiff).
  destruct (Z.eqb_spec st OK) as [->|Hst].
  - destruct Hiff as [Hiff _]. rewrite (Hiff eq_refl), app_nil_r in *. unfold sendUnchainedFinishedSignal, zoom. simpl.
    destruct (sendMessage_spec fd (TYPE_FINISHED s handled) k1) as (st & k2 & -> & Ho2). simpl.
    eexists st, _, k2, (if st =? OK then sentl ++ [s] else sentl), (if st =? OK then [] else [s]).
    split; [reflexivity|]. rewrite Ho2, Ho, (app_assoc gs1), (chains_of_app (gs1 ++ gs2)).
    destruct (Z.eqb_spec st OK) as [->|Hst].
    + split; [by rewrite app_nil_r|]. split; [unfold finished; by rewrite map_app, app_assoc|].
      split; [done|]. exact (eq_sym (app_nil_r _)).
    + split; [done|]. split; [by rewrite app_nil_r|]. split; [done|]. exact (eq_sym (app_nil_r _)).
  - eexists st, _, k1, sentl, (unsent ++ [s]). split; [reflexivity|]. simpl.
    split; [by rewrite app_assoc|]. split; [done|]. split; [split; [done|by destruct unsent]|].
    rewrite (app_assoc gs1), (chains_of_app (gs1 ++ gs2)). f_equal. unfold chains_of. simpl. rewrite app_nil_r.
    apply rechain_chain. intros ->. by apply Hst, Hiff.
Qed.

End Finish.

(** ** Consuming: no message is lost *)

Definition msg_seq (msg : InputMessage) : Z :=
  match msg with TYPE_KEY m => km_seq m | TYPE_MOTION m => mm_seq m | TYPE_FINISHED s _ => s | TYPE_UNKNOWN _ => 0 end.

(** A message of the kind a publisher sends. *)
Definition is_input (msg : InputMessage) : Prop :=
  match msg with TYPE_KEY _ | TYPE_MOTION _ => True | _ => False end.

(** The messages a consumer has received and not given out. *)
Definition held (c : InputConsumer) : list InputMessage :=
  concat (map (map TYPE_MOTION) (mBatches c)) ++ option_list (deferred c).

(** The event that is made of messages. *)
Definition combined (g : list InputMessage) : option InputEvent :=
  match g with
  | [TYPE_KEY m] => Some (key_event (initializeKeyEvent m))
  | TYPE_MOTION m :: l =>
      Some (motion_event (fold_left (fun e msg => match msg with TYPE_MOTION m => addSample m e | _ => e end) l
              (initializeMotionEvent m)))
  | _ => None
  end.

(** The consumer's fields that touches do not concern. *)
Definition same_queues (c c' : InputConsumer) : Prop :=
  mResampleTouch c' = mResampleTouch c /\ deferred c' = deferred c /\ mBatches c' = mBatches c.

Lemma same_queues_refl c : same_queues c c.
Proof. done. Qed.

Lemma same_queues_trans c1 c2 c3 : same_queues c1 c2 -> same_queues c2 c3 -> same_queues c1 c3.
Proof. unfold same_queues. intuition congruence. Qed.

Lemma updateTouchState_spec m c :
  let '(m', c') := updateTouchState m c in
  same_queues c c' /\ mSeqChains c' = mSeqChains c /\ mm_seq m' = mm_seq m /\ (mResampleTouch c = false -> m' = m).
Proof.
  unfold updateTouchState. destruct (mResampleTouch c) eqn:E; simpl; [|by repeat split].
  destruct (has _ _); simpl; [|by repeat split].
  repeat case_match; simplify_eq; by repeat split.
Qed.

Lemma consume_loop_some ms e chain c :
  exists e' c', consume_loop ms (Some e) chain c = (Some e', List.last (map mm_seq ms) chain, c') /\
    same_queues c c' /\ mSeqChains c' = mSeqChains c ++ links chain (map mm_seq ms) /\
    (mResampleTouch c = false -> e' = fold_left (fun e m => addSample m e) ms e).
Proof.
  revert e chain c. induction ms as [|m ms IH]; intros e chain c.
  { eexists e, c. by rewrite app_nil_r. }
  cbn [consume_loop]. pose proof (updateTouchState_spec m c) as Hu. destruct (updateTouchState m c) as [m' c1].
  destruct Hu as (Hq & Hch & Hseq & Hm).
  destruct (IH (addSample m' e) (mm_seq m') (set_chains (mSeqChains c1 ++ [(mm_seq m', chain)]) c1))
    as (e' & c' & -> & Hq' & Hch' & He).
  eexists e', c'. cbn [map]. rewrite last_cons, Hseq. split; [done|]. split; [by eapply same_queues_trans|]. split.
  - rewrite Hch'. simpl. rewrite Hch, <- app_assoc, Hseq. done.
  - intros Hr. rewrite He; [|simpl; destruct Hq as (-> & _); done]. simpl. by rewrite (Hm Hr).
Qed.

Lemma fold_motion ms e :
  fold_left (fun e msg => match msg with TYPE_MOTION m => addSample m e | _ => e end) (map TYPE_MOTION ms) e =
  fold_left (fun e m => addSample m e) ms e.
Proof. revert e. induction ms as [|m ms IH]; intros e; simpl; auto. Qed.

Lemma consumeSamples_spec i count batch c :
  take count batch <> [] ->
  let g := map TYPE_MOTION (take count batch) in
  exists e c', consumeSamples true i count batch c = (OK, List.last (map msg_seq g) 0, Some e, c') /\
    mResampleTouch c' = mResampleTouch c /\ deferred c' = deferred c /\
    mBatches c' = <[ i := drop count batch ]> (mBatches c) /\
    mSeqChains c' = mSeqChains c ++ chain_of (map msg_seq g) /\
    (mResampleTouch c = false -> combined g = Some (motion_event e)).
Proof.
  intros Hne g. subst g. unfold consumeSamples. cbn [negb].
  destruct (take count batch) as [|m ms] eqn:E; [done|]. cbn [consume_loop].
  pose proof (updateTouchState_spec m c) as Hu. destruct (updateTouchState m c) as [m' c1].
  destruct Hu as ((Hr1 & Hd1 & Hb1) & Hch & Hseq & Hm).
  destruct (consume_loop_some ms (initializeMotionEvent m') (mm_seq m') c1) as (e & c' & -> & (Hr2 & Hd2 & Hb2) & Hch' & He).
  eexists e, _. rewrite map_map. cbn [map]. rewrite last_cons. rewrite Hseq.
  split; [done|]. cbn [set_batches mResampleTouch deferred mBatches mSeqChains].
  rewrite Hr2, Hd2, Hb2, Hr1, Hd1, Hb1. repeat (split; [done|]). split.
  - rewrite Hch', Hch, Hseq. done.
  - intros Hr. cbn [combined map]. rewrite fold_motion, He by congruence. by rewrite (Hm Hr).
Qed.

(** The device and the source of an input message. *)
Definition msg_stream (msg : InputMessage) : option (Z * Z) :=
  match msg with
  | TYPE_KEY m => Some (km_deviceId m, km_source m)
  | TYPE_MOTION m => Some (mm_deviceId m, mm_source m)
  | _ => None
  end.

Definition one_stream (l : list InputMessage) : Prop := exists stream, Forall (fun msg => msg_stream msg = Some stream) l.

(** What is dropped by a call that returns [status] without an event: nothing;
    or, where the factory cannot make an event, the messages of the event that
    it could not make, all of a device and a source; or a valid message that is
    not one of input. *)
Definition refused (created : bool) (status : Z) (l : list InputMessage) : Prop :=
  l = [] \/ created = false /\ status = NO_MEMORY /\ one_stream l \/
  status = UNKNOWN_ERROR /\ exists msg, l = [msg] /\ ~ is_input msg.

(** What is given out of what was held: the messages [g] made the event. *)
Definition gives (created : bool) (before : list InputMessage) (c : InputConsumer) (r : consumed) (c' : InputConsumer) : Prop :=
  match cs_event r with
  | Some e => created = true /\ exists g, g <> [] /\ one_stream g /\ cs_status r = OK /\ before ≡ₚ g ++ held c' /\
      cs_seq r = List.last (map msg_seq g) 0 /\ mSeqChains c' = mSeqChains c ++ chain_of (map msg_seq g) /\
      (mResampleTouch c = false -> combined g = Some e)
  | None => exists l, refused created (cs_status r) l /\ before ≡ₚ l ++ held c' /\ cs_seq r = 0 /\ mSeqChains c' = mSeqChains c
  end.

(** A batch has samples, all of a device and a source. *)
Definition batch_ok (b : list MotionMessage) : Prop := b <> [] /\ one_stream (map TYPE_MOTION b).

Definition batches_ok (c : InputConsumer) : Prop := Forall batch_ok (mBatches c).

(** A consumer in order: so is a new one. *)
Definition consumer_ok (c : InputConsumer) : Prop := batches_ok c /\ Forall is_input (option_list (deferred c)).

Lemma consumer_ok_new resample : consumer_ok (InputConsumer_new resample).
Proof. split; constructor. Qed.

Lemma one_stream_take n l : one_stream l -> one_stream (take n l).
Proof. intros [s Hs]. exists s. by apply Forall_take. Qed.

Lemma one_stream_drop n l : one_stream l -> one_stream (drop n l).
Proof. intros [s Hs]. exists s. by apply Forall_drop. Qed.

Lemma one_stream_single msg : is_input msg -> one_stream [msg].
Proof. destruct msg as [m|m|s h|t]; try done; intros _; eexists; constructor; (reflexivity || constructor). Qed.

Lemma is_batch_stream d s batch : batch_ok batch -> is_batch d s batch = true ->
  Forall (fun msg => msg_stream msg = Some (d, s)) (map TYPE_MOTION batch).
Proof.
  intros [Hne [st Hst]] Hb. destruct batch as [|m batch]; [done|]. simpl in Hb.
  apply andb_prop in Hb as [H1%Z.eqb_eq H2%Z.eqb_eq]. inversion Hst as [|?? Hm ?]; subst. simpl in Hm. by simplify_eq.
Qed.

(** Nothing is dropped, nothing is given. *)
Lemma gives_none created c r : cs_event r = None -> cs_seq r = 0 -> gives created (held c) c r c.
Proof. intros He Hs. unfold gives. rewrite He. exists []. split; [by left|]. by repeat split. Qed.

Lemma held_split c i batch :
  mBatches c !! i = Some batch ->
  held c ≡ₚ map TYPE_MOTION batch ++ concat (map (map TYPE_MOTION) (delete i (mBatches c))) ++ option_list (deferred c).
Proof.
  intros Hi. unfold held. rewrite app_assoc. apply Permutation_app_tail.
  rewrite <- (take_drop_middle _ _ _ Hi) at 1. rewrite delete_take_drop, !map_app, !concat_app. cbn [map concat].
  rewrite !app_assoc. apply Permutation_app_tail. apply Permutation_app_comm.
Qed.

Lemma held_insert c i batch b' :
  mBatches c !! i = Some batch ->
  concat (map (map TYPE_MOTION) (<[ i := b' ]> (mBatches c))) ≡ₚ
  map TYPE_MOTION b' ++ concat (map (map TYPE_MOTION) (delete i (mBatches c))).
Proof.
  intros Hi. rewrite insert_take_drop by (by eapply lookup_lt_Some). rewrite delete_take_drop, !map_app, !concat_app.
  cbn [map concat]. rewrite !app_assoc. apply Permutation_app_tail, Permutation_app_comm.
Qed.

Lemma delete_insert_list {A} (l : list A) i x : delete i (<[ i := x ]> l) = delete i l.
Proof.
  destruct (decide (i < length l)%nat).
  - rewrite !delete_take_drop, take_insert_ge, drop_insert_lt by lia. done.
  - by rewrite list_insert_ge by lia.
Qed.

(** A batch is given out whole, or dropped whole. *)
Lemma give_batch created i batch c :
  batches_ok c -> mBatches c !! i = Some batch ->
  let '(st, seq, ev, c1) := consumeSamples created i (length batch) batch c in
  let c' := set_batches (delete i (mBatches c1)) c1 in
  gives created (held c) c (mkConsumed st seq (motion_event <$> ev)) c' /\
  batches_ok c' /\ mResampleTouch c' = mResampleTouch c /\ deferred c' = deferred c.
Proof.
  intros Hok Hi. destruct (Forall_lookup_1 _ _ _ _ Hok Hi) as [Hne Hone]. destruct created.
  - destruct (consumeSamples_spec i (length batch) batch c) as (e & c' & -> & Hr & Hd & Hb & Hch & He); [by rewrite firstn_all|].
    rewrite firstn_all in *. split; [|split; [|done]].
    + split; [done|]. exists (map TYPE_MOTION batch). split; [by destruct batch|]. split; [done|]. split; [done|]. split; [|done].
      rewrite (held_split _ _ _ Hi). unfold held. simpl. by rewrite Hb, delete_insert_list, Hd.
    + unfold batches_ok. simpl. rewrite Hb, delete_insert_list. by apply Forall_delete.
  - cbn [consumeSamples negb]. split; [|split; [by apply Forall_delete|done]].
    exists (map TYPE_MOTION batch). split; [by right; left|]. split; [|done]. exact (held_split _ _ _ Hi).
Qed.

(** A motion for a batch that is there. *)
Lemma batch_message_spec created m i batch c :
  batches_ok c -> deferred c = None -> findBatch (mm_deviceId m) (mm_source m) c = Some (i, batch) ->
  let '(r, c') := consume_message created (TYPE_MOTION m) c in
  consumer_ok c' /\ mResampleTouch c' = mResampleTouch c /\
  match r with
  | Some r => gives created (TYPE_MOTION m :: held c) c r c'
  | None => TYPE_MOTION m :: held c ≡ₚ held c' /\ mSeqChains c' = mSeqChains c /\ deferred c' = None
  end.
Proof.
  intros Hok Hd Ef. cbn [consume_message]. rewrite Ef. apply list_find_Some in Ef as (Hi & Hb & _).
  pose proof (Forall_lookup_1 _ _ _ _ Hok Hi) as Hbok. destruct (canAddSample batch m).
  - split; [split|split; [done|]].
    { unfold batches_ok, push_sample. simpl. apply Forall_insert; [done|]. split; [by destruct batch|].
      eexists. rewrite map_app. apply Forall_app. split; [by apply is_batch_stream|by repeat constructor]. }
    { simpl. by rewrite Hd. }
    split; [|done]. rewrite (held_split _ _ _ Hi). unfold held, push_sample. simpl.
    rewrite (held_insert c i batch _ Hi), map_app. simpl. rewrite <- app_assoc. simpl.
    rewrite <- !app_assoc. simpl. apply Permutation_middle.
  - pose proof (give_batch created i batch (set_deferred (Some (TYPE_MOTION m)) c) Hok Hi) as Hs.
    destruct (consumeSamples _ _ _ _ _) as [[[st seq] ev] c1]. cbv zeta in Hs. destruct Hs as (Hg & Hok' & Hr & Hd').
    split; [split; [done|]; rewrite Hd'; by repeat constructor|]. split; [done|].
    assert (TYPE_MOTION m :: held c ≡ₚ held (set_deferred (Some (TYPE_MOTION m)) c)) as Hp.
    { unfold held. simpl. rewrite Hd. simpl. rewrite app_nil_r. apply Permutation_cons_append. }
    unfold gives in *. destruct ev as [e|]; simpl in *.
    + destruct Hg as (Hc & g & H1 & H2 & H3 & H4 & H5). split; [done|]. exists g. by rewrite Hp.
    + destruct Hg as (l & H1 & H2 & H3). exists l. by rewrite Hp.
Qed.

Lemma consume_message_spec created msg c :
  batches_ok c -> deferred c = None ->
  let '(r, c') := consume_message created msg c in
  consumer_ok c' /\ mResampleTouch c' = mResampleTouch c /\
  match r with
  | Some r => gives created (msg :: held c) c r c'
  | None => msg :: held c ≡ₚ held c' /\ mSeqChains c' = mSeqChains c /\ deferred c' = None
  end.
Proof.
  intros Hok Hd. assert (consumer_ok c) as Hcok by (split; [done|by rewrite Hd]).
  assert (forall s, is_input msg -> created = false -> gives created (msg :: held c) c (mkConsumed NO_MEMORY s None) c \/ s <> 0) as Hdrop.
  { intros s Hin Hc. destruct (decide (s = 0)) as [->|]; [left|by right]. exists [msg].
    split; [right; left; auto using one_stream_single|]. by repeat split. }
  destruct msg as [m|m|s h|t]; cbn [consume_message].
  - destruct created; cbn [negb].
    + split; [done|]. split; [done|]. split; [done|]. exists [TYPE_KEY m]. split; [done|]. split; [by apply one_stream_single|].
      split; [done|]. simpl. split; [done|]. split; [done|]. split; [by rewrite app_nil_r|done].
    + split; [done|]. split; [done|]. by destruct (Hdrop 0).
  - destruct (findBatch (mm_deviceId m) (mm_source m) c) as [[i batch]|] eqn:Ef.
    + pose proof (batch_message_spec created m i batch c Hok Hd Ef) as Hs. cbn [consume_message] in Hs. by rewrite Ef in Hs.
    + destruct ((mm_action m =? _) || (mm_action m =? _)).
      * split; [split; [|simpl; by rewrite Hd]|split; [done|]].
        { apply Forall_app. split; [done|]. constructor; [|done]. split; [done|]. by apply one_stream_single. }
        split; [|done]. unfold held. simpl. rewrite Hd. simpl. rewrite !app_nil_r, map_app, concat_app. simpl.
        apply Permutation_cons_append.
      * destruct created; cbn [negb]; [|split; [done|]; split; [done|]; by destruct (Hdrop 0)].
        pose proof (updateTouchState_spec m c) as Hu. destruct (updateTouchState m c) as [m' c1].
        destruct Hu as ((Hr1 & Hd1 & Hb1) & Hch & Hseq & Hm).
        split; [split; [unfold batches_ok; by rewrite Hb1|by rewrite Hd1, Hd]|]. split; [done|]. split; [done|].
        exists [TYPE_MOTION m]. split; [done|]. split; [by apply one_stream_single|]. split; [done|]. unfold held. simpl.
        rewrite Hd1, Hb1, Hch. split; [done|]. split; [done|]. split; [by rewrite app_nil_r|]. intros Hr. by rewrite (Hm Hr).
  - split; [done|]. split; [done|]. exists [TYPE_FINISHED s h]. split; [|by repeat split]. right; right. split; [done|]. eauto.
  - split; [done|]. split; [done|]. exists [TYPE_UNKNOWN t]. split; [|by repeat split]. right; right. split; [done|]. eauto.
Qed.

Lemma resampleTouchState_spec t e next c :
  let '(e', c') := resampleTouchState t e next c in
  same_queues c c' /\ mSeqChains c' = mSeqChains c /\ (mResampleTouch c = false -> e' = e).
Proof.
  unfold resampleTouchState. destruct (mResampleTouch c) eqn:E; simpl; [|by repeat split].
  destruct (_ || _); [by repeat split|]. repeat case_match; simplify_eq; by repeat split.
Qed.

Lemma samples_until_take t batch n : samples_until t batch = S n -> take (S n) batch <> [].
Proof. by destruct batch. Qed.

(** Part of a batch is given out. *)
Lemma give_samples t next i n batch c :
  batches_ok c -> mBatches c !! i = Some batch -> take (S n) batch <> [] ->
  exists seq e c', consumeSamples true i (S n) batch c = (OK, seq, Some e, c') /\
    mBatches c' !! i = Some (drop (S n) batch) /\
    let c1 := if bool_decide (drop (S n) batch = []) then set_batches (delete i (mBatches c')) c' else c' in
    let '(e2, c2) := resampleTouchState t e next c1 in
    gives true (held c) c (mkConsumed OK seq (Some (motion_event e2))) c2 /\ batches_ok c2 /\
    mResampleTouch c2 = mResampleTouch c /\ deferred c2 = deferred c.
Proof.
  intros Hok Hi Hne. destruct (consumeSamples_spec i (S n) batch c Hne) as (e & c' & -> & Hr & Hd & Hb & Hch & He).
  eexists _, e, c'. split; [reflexivity|]. pose proof (lookup_lt_Some _ _ _ Hi) as Hlt.
  destruct (Forall_lookup_1 _ _ _ _ Hok Hi) as [_ Hone].
  split; [by rewrite Hb, list_lookup_insert_eq|]. cbv zeta. set (c1 := if bool_decide _ then _ else _).
  assert (mSeqChains c1 = mSeqChains c' /\ mResampleTouch c1 = mResampleTouch c /\ deferred c1 = deferred c /\
    batches_ok c1 /\ held c ≡ₚ map TYPE_MOTION (take (S n) batch) ++ held c1) as (Hch1 & Hr1 & Hd1 & Hok1 & Hp).
  { subst c1. case_bool_decide as Ed; simpl; rewrite ?Hr, ?Hd; repeat (split; [done|]).
    - split; [unfold batches_ok; simpl; rewrite Hb, delete_insert_list; by apply Forall_delete|].
      rewrite (held_split _ _ _ Hi). unfold held. simpl. rewrite Hb, delete_insert_list, Hd.
      by rewrite <- (firstn_skipn (S n) batch), Ed, app_nil_r at 1.
    - split; [unfold batches_ok; rewrite Hb; apply Forall_insert; [done|]; split; [done|];
        rewrite <- skipn_map; by apply one_stream_drop|].
      rewrite (held_split _ _ _ Hi). unfold held. rewrite Hb, Hd, (held_insert c i batch _ Hi).
      rewrite <- (firstn_skipn (S n) batch) at 1. by rewrite map_app, <- !app_assoc. }
  pose proof (resampleTouchState_spec t e next c1) as Hs. destruct (resampleTouchState t e next c1) as [e2 c2].
  destruct Hs as ((Hr2 & Hd2 & Hb2) & Hch2 & He2). split; [|split; [unfold batches_ok; by rewrite Hb2|split; congruence]].
  split; [done|]. exists (map TYPE_MOTION (take (S n) batch)). split; [by destruct (take (S n) batch)|].
  split; [rewrite <- firstn_map; by apply one_stream_take|]. split; [done|].
  split; [rewrite Hp; unfold held; by rewrite Hb2, Hd2|]. split; [done|]. split; [congruence|].
  intros Hf. rewrite He2 by congruence. by apply He.
Qed.

Lemma consume_batches_spec created frameTime i c :
  batches_ok c ->
  let '(st, seq, ev, c') := consume_batches created frameTime i c in
  gives created (held c) c (mkConsumed st seq (motion_event <$> ev)) c' /\ batches_ok c' /\
  mResampleTouch c' = mResampleTouch c /\ deferred c' = deferred c.
Proof.
  intros Hok. induction i as [|i IH]; cbn [consume_batches]; [split; [by apply gives_none|done]|].
  destruct (mBatches c !! i) as [batch|] eqn:Hi; [|split; [by apply gives_none|done]].
  destruct (frameTime <? 0).
  - pose proof (give_batch created i batch c Hok Hi) as Hs. by destruct (consumeSamples _ _ _ _ _) as [[[st seq] ev] c1].
  - destruct (samples_until (frameTime - RESAMPLE_LATENCY) batch) as [|n] eqn:En; [done|].
    set (t := frameTime - RESAMPLE_LATENCY) in *. destruct created.
    + destruct (give_samples t (head (drop (S n) batch)) i n batch c Hok Hi (samples_until_take _ _ _ En))
        as (seq & e & c' & -> & Hb & Hg). rewrite Hb. cbn [default from_option id]. cbv zeta in Hg.
      destruct (resampleTouchState t e _ _) as [e2 c2]. done.
    + cbn [consumeSamples negb]. rewrite Hi. cbn [default from_option id].
      destruct (Forall_lookup_1 _ _ _ _ Hok Hi) as [Hne _]. rewrite bool_decide_false by done.
      split; [by apply gives_none|done].
Qed.

Section ConsumeLaws.
Context {K : Type} `{InputSocketLaws K}.

(** What a call reads: valid messages, and at most one malformed one, which
    ends the reading. *)
Definition reads (read good : list (InputMessage * Z)) : Prop :=
  exists bad, read = good ++ bad /\ Forall (fun p => isValid (fst p) (snd p) = true) good /\
    (bad = [] \/ exists msg n, bad = [(msg, n)] /\ isValid msg n = false).

Lemma reads_nil : reads [] [].
Proof. exists []. split; [done|]. split; [constructor|by left]. Qed.

Lemma reads_bad msg n : isValid msg n = false -> reads [(msg, n)] [].
Proof. intros Hv. exists [(msg, n)]. split; [done|]. split; [constructor|]. right. eauto. Qed.

Lemma reads_cons msg n read good : isValid msg n = true -> reads read good -> reads ((msg, n) :: read) ((msg, n) :: good).
Proof. intros Hv (bad & -> & Hg & Hb). exists bad. split; [done|]. split; [by constructor|done]. Qed.

Lemma consume_last created result batches frameTime c (k : K) :
  consumer_ok c ->
  exists r c', (if batches || negb (result =? WOULD_BLOCK) then consumer_do (consumeBatch created frameTime)
                else mret (mkConsumed result 0 None)) (c, k) = Ret r (c', k) /\
    gives created (held c) c r c' /\ consumer_ok c'.
Proof.
  intros [Hok Hd]. destruct (_ || _).
  - unfold consumer_do, consumeBatch. cbn [fst snd].
    pose proof (consume_batches_spec created frameTime (length (mBatches c)) c Hok) as Hs.
    destruct (consume_batches _ _ _ _) as [[[st seq] ev] c']. destruct Hs as (Hg & Hok' & Hr & Hd'). eexists _, c'.
    split; [reflexivity|]. split; [done|]. split; [done|]. by rewrite Hd'.
  - eexists _, c. split; [reflexivity|]. split; [by apply gives_none|done].
Qed.

(** What [consume] achieves, as long as the fuel covers what can be read. *)
Definition consume_result (created : bool) (fd : Z) (c : InputConsumer) (k : K) (o : outcome (InputConsumer * K) consumed) : Prop :=
  exists r c' k' read good, o = Ret r (c', k') /\ incoming fd k = read ++ incoming fd k' /\ reads read good /\
    consumer_ok c' /\ gives created (map fst good ++ held c) c r c'.

(** A message is put into a batch, and the loop goes on. *)
Lemma gives_after created before c c1 r c' :
  before ≡ₚ held c1 -> mSeqChains c1 = mSeqChains c -> mResampleTouch c1 = mResampleTouch c ->
  forall l, gives created (l ++ held c1) c1 r c' -> gives created (l ++ before) c r c'.
Proof.
  intros Hp Hch Hr l. unfold gives. destruct (cs_event r); rewrite Hch, ?Hr.
  - intros (Hc & g & H1 & H2 & H3 & H4 & H5). split; [done|]. exists g. by rewrite Hp.
  - intros (l' & H1 & H2 & H3). exists l'. by rewrite Hp.
Qed.

Lemma gives_perm created before before' c r c' :
  before ≡ₚ before' -> gives created before c r c' -> gives created before' c r c'.
Proof.
  intros Hp. unfold gives. destruct (cs_event r).
  - intros (Hc & g & H1 & H2 & H3 & H4 & H5). split; [done|]. exists g. by rewrite <- Hp.
  - intros (l' & H1 & H2 & H3). exists l'. by rewrite <- Hp.
Qed.

(** A turn of the loop with a message, when the turns after it are right. *)
Lemma consume_turn (again : M (InputConsumer * K) consumed) created fd msg c (k : K) :
  batches_ok c -> deferred c = None ->
  (forall c1, deferred c1 = None -> consumer_ok c1 -> consume_result created fd c1 k (again (c1, k))) ->
  exists r c' k' read good,
    (r ← consumer_do (consume_message created msg) ;
     match r : option consumed with Some r => mret r | None => again end) (c, k) = Ret r (c', k') /\
    incoming fd k = read ++ incoming fd k' /\ reads read good /\ consumer_ok c' /\
    gives created (map fst good ++ msg :: held c) c r c'.
Proof.
  intros Hok Hd Hagain. unfold mbind, M_bind, consumer_do. cbn [fst snd].
  pose proof (consume_message_spec created msg c Hok Hd) as Hs.
  destruct (consume_message created msg c) as [[r|] c1]; destruct Hs as (Hok1 & Hr1 & Hs).
  - eexists r, c1, k, [], []. split; [reflexivity|]. split; [done|]. split; [apply reads_nil|done].
  - destruct Hs as (Hp1 & Hch1 & Hd1). destruct (Hagain c1 Hd1 Hok1) as (r & c' & k' & read & good & -> & Hi & Hrd & Hok' & Hg).
    eexists r, c', k', read, good. split; [reflexivity|]. split; [done|]. split; [done|]. split; [done|]. by eapply gives_after.
Qed.

Lemma consume_spec created fuel fd batches frameTime c (k : K) :
  (length (incoming fd k) + length (option_list (deferred c)) <= fuel)%nat -> consumer_ok c ->
  consume_result created fd c k (consume fuel fd created batches frameTime (c, k)).
Proof.
  revert c k. induction fuel as [|n IH]; intros c k Hn Hok.
  all: cbn [consume]; unfold mbind at 1, M_bind at 1, gets; cbn [fst].
  all: destruct (deferred c) as [msg|] eqn:Ed; [simpl in Hn; try lia|].
  2: { unfold mbind at 1, M_bind at 1, consumer_do at 1. cbn [fst snd].
    destruct (consume_turn (consume n fd created batches frameTime) created fd msg (set_deferred None c) k)
      as (r & c' & k' & read & good & -> & Hi & Hrd & Hok' & Hg); [apply Hok|done| |].
    - intros c1 Hd1 Hok1. apply IH; rewrite ?Hd1; simpl; auto; lia.
    - eexists r, c', k', read, good. split; [reflexivity|]. split; [done|]. split; [done|]. split; [done|].
      eapply gives_perm; [|exact Hg]. apply Permutation_app_head. unfold held. rewrite Ed. simpl. rewrite app_nil_r.
      apply Permutation_cons_append. }
  all: unfold mbind at 1, M_bind at 1, zoom; cbn [view on_socket snd];
    destruct (receiveMessage_spec fd k) as (st & m & k1 & -> & Hm); cbn [over on_socket fst].
  all: destruct m as [msg|]; [destruct Hm as (_ & x & Hv & Hi); rewrite Hi in Hn; simpl in Hn; try lia|destruct Hm as (_ & Hm)].
  2: { destruct (consume_turn (consume n fd created batches frameTime) created fd msg c k1)
      as (r & c' & k' & read & good & -> & Hi2 & Hrd & Hok' & Hg); [apply Hok|done| |].
    - intros c1 Hd1 Hok1. apply IH; rewrite ?Hd1; simpl in *; auto; lia.
    - eexists r, c', k', ((msg, x) :: read), ((msg, x) :: good). split; [reflexivity|]. split; [by rewrite Hi, Hi2|].
      split; [by apply reads_cons|]. split; [done|]. eapply gives_perm; [|exact Hg]. symmetry. apply Permutation_middle. }
  all: destruct (consume_last created st batches frameTime c k1 Hok) as (r & c' & -> & Hg & Hok'); eexists r, c', k1.
  all: destruct Hm as [Hi|(_ & msg & x & Hv & Hi)]; [exists [], []|exists [(msg, x)], []]; (split; [reflexivity|]);
    rewrite Hi; (split; [done|]); (split; [|done]); [apply reads_nil|by apply reads_bad].
Qed.


End ConsumeLaws.

(** ** A pair of sockets *)

(** What has been sent from a descriptor, and what waits at it; the descriptors
    [2 n] and [2 n + 1] are the ends of a pair. *)
Record demo_sockets : Set := mkSockets {
  ds_sent : gmap Z (list InputMessage);
  ds_waiting : gmap Z (list (InputMessage * Z));
}.

Definition peer (fd : Z) : Z := Z.lxor fd 1.

Definition demo_sock_send (fd : Z) (msg : InputMessage) (n : Z) (k : demo_sockets) : send_result * demo_sockets :=
  (sent n, mkSockets (<[ fd := default [] (ds_sent k !! fd) ++ [msg] ]> (ds_sent k))
             (<[ peer fd := default [] (ds_waiting k !! peer fd) ++ [(msg, n)] ]> (ds_waiting k))).

Definition demo_sock_recv (fd : Z) (k : demo_sockets) : recv_result * demo_sockets :=
  match ds_waiting k !! fd with
  | Some ((msg, n) :: l) => (received msg n, mkSockets (ds_sent k) (<[ fd := l ]> (ds_waiting k)))
  | _ => (recv_failed EAGAIN, k)
  end.

#[export] Instance demo_socket : InputSocket demo_sockets := {|
  sock_send := demo_sock_send; sock_recv := demo_sock_recv; interrupts := fun _ => O;
|}.

#[export, refine] Instance demo_socket_laws : InputSocketLaws demo_sockets := {|
  outgoing fd k := default [] (ds_sent k !! fd);
  incoming fd k := default [] (ds_waiting k !! fd);
|}.
Proof.
  - intros fd msg n k. simpl. split; [done|]. by rewrite lookup_insert_eq.
  - intros fd k. simpl. unfold demo_sock_recv. destruct (ds_waiting k !! fd) as [[|[msg n] l]|] eqn:E; rewrite ?E; try done.
    simpl. by rewrite lookup_insert_eq.
Defined.

Definition demo_move (seq time : Z) : InputMessage :=
  TYPE_MOTION (mkMotionMessage seq time 1 4098 AMOTION_EVENT_ACTION_MOVE 0 0 0 0 0 zero zero zero zero
    [(mkProperties 0 1, demo_coords)]).

Definition demo_waiting : demo_sockets :=
  mkSockets ∅ {[ 7 := [(demo_move 1 10, 160); (demo_move 2 20, 160); (demo_move 3 30, 160)] ]}.


(** A factory that cannot make the event of a batch: the batch is lost. *)
Example batch_lost :
  let o := consume 4 7 false true (-1) (InputConsumer_new false, demo_waiting) in
  match o with Ret r (c', k') => cs_status r = NO_MEMORY /\ held c' = [] /\ incoming 7 k' = [] | _ => False end.
Proof. by vm_compute. Qed.

Definition demo_chained : InputConsumer := set_chains [(2, 1); (3, 2)] (InputConsumer_new false).

Lemma finishing_finishes_batch_witness :
  exists st c' k', sendFinishedSignal 7 3 true (demo_chained, mkSockets ∅ ∅) = Ret st (c', k') /\
    mSeqChains c' = [] /\ outgoing 7 k' = finished true [1; 2; 3].
Proof.
  destruct (finishing_finishes_batch 7 true [] [1; 2] 3 [] demo_chained (mkSockets ∅ ∅))
    as (st & c' & k' & sentl & unsent & E & H1 & H2 & H3 & H4); [|done|reflexivity|].
  { apply (bool_decide_unpack _). vm_compute. exact I. }
  exists st, c', k'. split; [done|].
  assert (st = OK) as Hst by (apply (f_equal (fun o => match o with Ret r _ => r | _ => -1 end)) in E; vm_compute in E; by rewrite <- E).
  destruct H3 as [H3 _]. rewrite (H3 Hst) in *. rewrite app_nil_r in H1. rewrite H4, H2, <- H1. done.
Defined.
