(* ===== verification/InputState.v ===== *)
(** * What an application has been told

    [InputDispatcher::InputState]
    ([3rd_party/android-input/android/frameworks/base/services/input/InputDispatcher.cpp],
    [InputDispatcher.h]): per connection, the keys and gestures that have been
    dispatched and not ended, so that they can be canceled; and the entries of
    the dispatcher's queues that it works on.

    The theorems relate it to the application's view: the keys that are pressed
    and the gestures in progress, as the events it was sent tell. *)

From Stdlib Require Import SpecFloat.
From S2P Require Import Prelude Geometry Input AndroidEvents InputTransport.

(** ** Entries *)

Inductive InterceptKeyResult : Set :=
| INTERCEPT_KEY_RESULT_UNKNOWN | INTERCEPT_KEY_RESULT_SKIP | INTERCEPT_KEY_RESULT_CONTINUE
| INTERCEPT_KEY_RESULT_TRY_AGAIN_LATER.

Record KeyEntry : Set := mkKeyEntry {
  ke_deviceId : Z; ke_source : Z; ke_action : Z; ke_flags : Z; ke_keyCode : Z; ke_scanCode : Z;
  ke_metaState : Z; ke_repeatCount : Z; ke_downTime : Z;
  syntheticRepeat : bool;
  interceptKeyResult : InterceptKeyResult;
  interceptKeyWakeupTime : Z;
}.

(** The constructor of [KeyEntry]. *)
Definition KeyEntry_new (deviceId source action flags keyCode scanCode metaState repeatCount downTime : Z) : KeyEntry :=
  mkKeyEntry deviceId source action flags keyCode scanCode metaState repeatCount downTime
    false INTERCEPT_KEY_RESULT_UNKNOWN 0.

Record MotionEntry : Set := mkMotionEntry {
  me_deviceId : Z; me_source : Z; me_action : Z; me_flags : Z; me_metaState : Z; me_buttonState : Z;
  me_edgeFlags : Z; me_xPrecision : float; me_yPrecision : float; me_downTime : Z;
  me_pointers : list (PointerProperties * PointerCoords);
}.

Inductive event_type : Set :=
| TYPE_CONFIGURATION_CHANGED
| TYPE_DEVICE_RESET (deviceId : Z)
| KEY (key : KeyEntry)
| MOTION (motion : MotionEntry).

Record EventEntry : Set := mkEntry {
  refCount : Z;
  eventTime : Z;
  entry_policyFlags : Z;
  dispatchInProgress : bool;
  entry_type : event_type;
}.

Definition EventEntry_new (time flags : Z) (t : event_type) : EventEntry := mkEntry 1 time flags false t.

(** ** Canceling *)

Definition AKEY_EVENT_FLAG_CANCELED : Z := 32.
Definition AKEY_EVENT_FLAG_FALLBACK : Z := 1024.

Inductive cancel_mode : Set :=
| CANCEL_ALL_EVENTS | CANCEL_POINTER_EVENTS | CANCEL_NON_POINTER_EVENTS | CANCEL_FALLBACK_EVENTS.

Record CancelationOptions : Set := mkOptions { co_mode : cancel_mode; co_keyCode : Z; co_deviceId : Z }.

Definition CancelationOptions_new (mode : cancel_mode) : CancelationOptions := mkOptions mode (-1) (-1).

Record KeyMemento : Set := mkKeyMemento {
  kmo_deviceId : Z; kmo_source : Z; kmo_keyCode : Z; kmo_scanCode : Z; kmo_metaState : Z; kmo_flags : Z;
  kmo_downTime : Z; kmo_policyFlags : Z;
}.

Record MotionMemento : Set := mkMotionMemento {
  mmo_deviceId : Z; mmo_source : Z; mmo_flags : Z; mmo_xPrecision : float; mmo_yPrecision : float; mmo_downTime : Z;
  mmo_pointers : list (PointerProperties * PointerCoords);
  mmo_hovering : bool;
  mmo_policyFlags : Z;
}.

Record InputState : Set := mkInputState {
  mKeyMementos : list KeyMemento;
  mMotionMementos : list MotionMemento;
  mFallbackKeys : list (Z * Z);
}.

Definition InputState_new : InputState := mkInputState [] [] [].

Definition isNeutral (s : InputState) : bool :=
  bool_decide (mKeyMementos s = []) && bool_decide (mMotionMementos s = []).

Definition isHovering (deviceId source : Z) (s : InputState) : bool :=
  existsb (fun m => (mmo_deviceId m =? deviceId) && (mmo_source m =? source) && mmo_hovering m) (mMotionMementos s).

(** What a memento is found by. *)
Definition is_key (k : KeyEntry) (m : KeyMemento) : bool :=
  (kmo_deviceId m =? ke_deviceId k) && (kmo_source m =? ke_source k) &&
  (kmo_keyCode m =? ke_keyCode k) && (kmo_scanCode m =? ke_scanCode k).

Definition is_motion (e : MotionEntry) (hovering : bool) (m : MotionMemento) : bool :=
  (mmo_deviceId m =? me_deviceId e) && (mmo_source m =? me_source e) && Bool.eqb (mmo_hovering m) hovering.

Definition findKeyMemento (k : KeyEntry) (s : InputState) : option (nat * KeyMemento) :=
  list_find (fun m => is_key k m = true) (mKeyMementos s).

Definition findMotionMemento (e : MotionEntry) (hovering : bool) (s : InputState) : option (nat * MotionMemento) :=
  list_find (fun m => is_motion e hovering m = true) (mMotionMementos s).

Definition set_keys (l : list KeyMemento) (s : InputState) : InputState := mkInputState l (mMotionMementos s) (mFallbackKeys s).
Definition set_motions (l : list MotionMemento) (s : InputState) : InputState := mkInputState (mKeyMementos s) l (mFallbackKeys s).
Definition set_fallback (l : list (Z * Z)) (s : InputState) : InputState := mkInputState (mKeyMementos s) (mMotionMementos s) l.

Definition key_memento (policyFlags : Z) (k : KeyEntry) (flags : Z) : KeyMemento :=
  mkKeyMemento (ke_deviceId k) (ke_source k) (ke_keyCode k) (ke_scanCode k) (ke_metaState k) flags (ke_downTime k) policyFlags.

Definition addKeyMemento (policyFlags : Z) (k : KeyEntry) (flags : Z) (s : InputState) : InputState :=
  set_keys (mKeyMementos s ++ [key_memento policyFlags k flags]) s.

Definition motion_memento (policyFlags : Z) (e : MotionEntry) (flags : Z) (hovering : bool) : MotionMemento :=
  mkMotionMemento (me_deviceId e) (me_source e) flags (me_xPrecision e) (me_yPrecision e) (me_downTime e)
    (me_pointers e) hovering policyFlags.

Definition addMotionMemento (policyFlags : Z) (e : MotionEntry) (flags : Z) (hovering : bool) (s : InputState) : InputState :=
  set_motions (mMotionMementos s ++ [motion_memento policyFlags e flags hovering]) s.

Definition setPointers (e : MotionEntry) (m : MotionMemento) : MotionMemento :=
  mkMotionMemento (mmo_deviceId m) (mmo_source m) (mmo_flags m) (mmo_xPrecision m) (mmo_yPrecision m) (mmo_downTime m)
    (me_pointers e) (mmo_hovering m) (mmo_policyFlags m).

(** Removing the memento of a key, if there is one. *)
Definition drop_key (k : KeyEntry) (s : InputState) : InputState :=
  match findKeyMemento k s with Some (i, _) => set_keys (delete i (mKeyMementos s)) s | None => s end.

Definition drop_motion (e : MotionEntry) (hovering : bool) (s : InputState) : InputState :=
  match findMotionMemento e hovering s with Some (i, _) => set_motions (delete i (mMotionMementos s)) s | None => s end.

Definition trackKey (policyFlags : Z) (k : KeyEntry) (action flags : Z) (s : InputState) : bool * InputState :=
  if action =? AKEY_EVENT_ACTION_UP then
    let s :=
      if has (ke_flags k) AKEY_EVENT_FLAG_FALLBACK
      then set_fallback (List.filter (fun p => negb (snd p =? ke_keyCode k)) (mFallbackKeys s)) s else s in
    (true, drop_key k s)
  else if action =? AKEY_EVENT_ACTION_DOWN then (true, addKeyMemento policyFlags k flags (drop_key k s))
  else (true, s).

Definition trackMotion (policyFlags : Z) (e : MotionEntry) (action flags : Z) (s : InputState) : bool * InputState :=
  let masked := Z.land action AMOTION_EVENT_ACTION_MASK in
  if (masked =? AMOTION_EVENT_ACTION_UP) || (masked =? AMOTION_EVENT_ACTION_CANCEL) then
    match findMotionMemento e false s with
    | Some (i, _) => (true, set_motions (delete i (mMotionMementos s)) s)
    | None => (false, s)
    end
  else if masked =? AMOTION_EVENT_ACTION_DOWN then
    (true, addMotionMemento policyFlags e flags false (drop_motion e false s))
  else if (masked =? AMOTION_EVENT_ACTION_POINTER_UP) || (masked =? AMOTION_EVENT_ACTION_POINTER_DOWN)
          || (masked =? AMOTION_EVENT_ACTION_MOVE) then
    match findMotionMemento e false s with
    | Some (i, m) => (true, set_motions (<[ i := setPointers e m ]> (mMotionMementos s)) s)
    | None =>
        if (masked =? AMOTION_EVENT_ACTION_MOVE)
           && has (me_source e) (Z.lor AINPUT_SOURCE_CLASS_JOYSTICK AINPUT_SOURCE_CLASS_NAVIGATION)
        then (true, s) else (false, s)
    end
  else if masked =? AMOTION_EVENT_ACTION_HOVER_EXIT then
    match findMotionMemento e true s with
    | Some (i, _) => (true, set_motions (delete i (mMotionMementos s)) s)
    | None => (false, s)
    end
  else if (masked =? AMOTION_EVENT_ACTION_HOVER_ENTER) || (masked =? AMOTION_EVENT_ACTION_HOVER_MOVE) then
    (true, addMotionMemento policyFlags e flags true (drop_motion e true s))
  else (true, s).

Definition shouldCancelKey (o : CancelationOptions) (m : KeyMemento) : bool :=
  if negb (co_keyCode o =? -1) && negb (kmo_keyCode m =? co_keyCode o) then false
  else if negb (co_deviceId o =? -1) && negb (kmo_deviceId m =? co_deviceId o) then false
  else
    match co_mode o with
    | CANCEL_ALL_EVENTS | CANCEL_NON_POINTER_EVENTS => true
    | CANCEL_FALLBACK_EVENTS => has (kmo_flags m) AKEY_EVENT_FLAG_FALLBACK
    | CANCEL_POINTER_EVENTS => false
    end.

Definition shouldCancelMotion (o : CancelationOptions) (m : MotionMemento) : bool :=
  if negb (co_deviceId o =? -1) && negb (mmo_deviceId m =? co_deviceId o) then false
  else
    match co_mode o with
    | CANCEL_ALL_EVENTS => true
    | CANCEL_POINTER_EVENTS => has (mmo_source m) AINPUT_SOURCE_CLASS_POINTER
    | CANCEL_NON_POINTER_EVENTS => negb (has (mmo_source m) AINPUT_SOURCE_CLASS_POINTER)
    | CANCEL_FALLBACK_EVENTS => false
    end.

Definition cancel_key (currentTime : Z) (m : KeyMemento) : EventEntry :=
  EventEntry_new currentTime (kmo_policyFlags m)
    (KEY (KeyEntry_new (kmo_deviceId m) (kmo_source m) AKEY_EVENT_ACTION_UP
       (Z.lor (kmo_flags m) AKEY_EVENT_FLAG_CANCELED) (kmo_keyCode m) (kmo_scanCode m) (kmo_metaState m) 0 (kmo_downTime m))).

Definition cancel_motion (currentTime : Z) (m : MotionMemento) : EventEntry :=
  EventEntry_new currentTime (mmo_policyFlags m)
    (MOTION (mkMotionEntry (mmo_deviceId m) (mmo_source m)
       (if mmo_hovering m then AMOTION_EVENT_ACTION_HOVER_EXIT else AMOTION_EVENT_ACTION_CANCEL)
       (mmo_flags m) 0 0 0 (mmo_xPrecision m) (mmo_yPrecision m) (mmo_downTime m) (mmo_pointers m))).

Definition synthesizeCancelationEvents (currentTime : Z) (o : CancelationOptions) (s : InputState) : list EventEntry :=
  map (cancel_key currentTime) (List.filter (shouldCancelKey o) (mKeyMementos s)) ++
  map (cancel_motion currentTime) (List.filter (shouldCancelMotion o) (mMotionMementos s)).

Definition state_clear (s : InputState) : InputState := InputState_new.

Definition copy_memento (other : InputState) (m : MotionMemento) : InputState :=
  if has (mmo_source m) AINPUT_SOURCE_CLASS_POINTER then
    set_motions (List.filter (fun m' => negb ((mmo_deviceId m =? mmo_deviceId m') && (mmo_source m =? mmo_source m')))
                   (mMotionMementos other) ++ [m]) other
  else other.

Definition copyPointerStateTo (s other : InputState) : InputState := fold_left copy_memento (mMotionMementos s) other.

Definition getFallbackKey (originalKeyCode : Z) (s : InputState) : Z :=
  match OrdMap.find originalKeyCode (mFallbackKeys s) with Some k => k | None => -1 end.

Definition setFallbackKey (originalKeyCode fallbackKeyCode : Z) (s : InputState) : InputState :=
  set_fallback (OrdMap.insert originalKeyCode fallbackKeyCode (mFallbackKeys s)) s.

Definition removeFallbackKey (originalKeyCode : Z) (s : InputState) : InputState :=
  set_fallback (OrdMap.erase originalKeyCode (mFallbackKeys s)) s.


(** What [enqueueDispatchEntryLocked] does with an entry: it is delivered when
    tracking accepts it. *)
Definition track (e : EventEntry) (s : InputState) : bool * InputState :=
  match entry_type e with
  | KEY k => trackKey (entry_policyFlags e) k (ke_action k) (ke_flags k) s
  | MOTION m => trackMotion (entry_policyFlags e) m (me_action m) (me_flags m) s
  | _ => (true, s)
  end.

(** ** The application's view *)

(** What a key and a gesture are known by. *)
Definition key_id (k : KeyEntry) : Z * Z * Z * Z := (ke_deviceId k, ke_source k, ke_keyCode k, ke_scanCode k).
Definition memento_key (m : KeyMemento) : Z * Z * Z * Z := (kmo_deviceId m, kmo_source m, kmo_keyCode m, kmo_scanCode m).
Definition motion_id (e : MotionEntry) (hovering : bool) : Z * Z * bool := (me_deviceId e, me_source e, hovering).
Definition memento_motion (m : MotionMemento) : Z * Z * bool := (mmo_deviceId m, mmo_source m, mmo_hovering m).

(** The keys that are pressed and the gestures in progress, for one that sees
    the events: no queue, no order, no memento. *)
Record view : Type := mkView { pressed : gset (Z * Z * Z * Z); gestures : gset (Z * Z * bool) }.

Definition starts (a : Z) : option bool :=
  if a =? AMOTION_EVENT_ACTION_DOWN then Some false
  else if (a =? AMOTION_EVENT_ACTION_HOVER_ENTER) || (a =? AMOTION_EVENT_ACTION_HOVER_MOVE) then Some true else None.

Definition ends (a : Z) : option bool :=
  if (a =? AMOTION_EVENT_ACTION_UP) || (a =? AMOTION_EVENT_ACTION_CANCEL) then Some false
  else if a =? AMOTION_EVENT_ACTION_HOVER_EXIT then Some true else None.

Definition see (e : EventEntry) (v : view) : view :=
  match entry_type e with
  | KEY k =>
      if ke_action k =? AKEY_EVENT_ACTION_DOWN then mkView (pressed v ∪ {[ key_id k ]}) (gestures v)
      else if ke_action k =? AKEY_EVENT_ACTION_UP then mkView (pressed v ∖ {[ key_id k ]}) (gestures v)
      else v
  | MOTION m =>
      let a := Z.land (me_action m) AMOTION_EVENT_ACTION_MASK in
      match starts a, ends a with
      | Some h, _ => mkView (pressed v) (gestures v ∪ {[ motion_id m h ]})
      | None, Some h => mkView (pressed v) (gestures v ∖ {[ motion_id m h ]})
      | None, None => v
      end
  | _ => v
  end.

Definition view_of (s : InputState) : view :=
  mkView (list_to_set (memento_key <$> mKeyMementos s)) (list_to_set (memento_motion <$> mMotionMementos s)).

(** No key and no gesture is remembered twice. *)
Record unique (s : InputState) : Prop := {
  u_keys : NoDup (memento_key <$> mKeyMementos s);
  u_motions : NoDup (memento_motion <$> mMotionMementos s);
}.

(** ** Mementos by identity *)

Lemma is_key_spec k m : is_key k m = true <-> memento_key m = key_id k.
Proof.
  unfold is_key, memento_key, key_id. rewrite !andb_true_iff, !Z.eqb_eq. split; [intros [[[-> ->] ->] ->]; done|].
  by inversion 1.
Qed.

Lemma is_motion_spec e h m : is_motion e h m = true <-> memento_motion m = motion_id e h.
Proof.
  unfold is_motion, memento_motion, motion_id. rewrite !andb_true_iff, !Z.eqb_eq, Bool.eqb_true_iff.
  split; [intros [[-> ->] ->]; done|]. by inversion 1.
Qed.

Section by_identity.
Context {A I : Type} `{Countable I} (ident : A -> I) (p : A -> bool) (i : I).
Hypothesis p_spec : forall a, p a = true <-> ident a = i.

Definition others (l : list A) : list A := List.filter (fun a => negb (p a)) l.

Lemma others_ids l x : x ∈ ident <$> others l <-> x ∈ ident <$> l /\ x <> i.
Proof using p_spec.
  unfold others. rewrite !list_elem_of_fmap. setoid_rewrite list_elem_of_In. setoid_rewrite filter_In.
  setoid_rewrite negb_true_iff. setoid_rewrite <- not_true_iff_false. setoid_rewrite p_spec.
  split; [intros (a & -> & Ha & Hn); eauto|]. intros [(a & -> & Ha) Hn]. eauto.
Qed.

Lemma others_unique l : NoDup (ident <$> l) -> NoDup (ident <$> others l).
Proof using p_spec.
  induction l as [|b l IH]; [done|]. cbn. rewrite NoDup_cons. intros [Hn Hd].
  destruct (p b); [by apply IH|]. cbn. rewrite NoDup_cons. split; [|by apply IH].
  intros Hb. by apply others_ids in Hb as [? _].
Qed.

Lemma others_none l : i ∉ ident <$> l -> others l = l.
Proof using p_spec.
  intros Hn. apply forallb_filter_id, forallb_forall. intros b Hb%list_elem_of_In. apply negb_true_iff, not_true_iff_false.
  intros E%p_spec. apply Hn. rewrite <- E. by apply list_elem_of_fmap_2.
Qed.

(** The element found is taken out, and with it the identity. *)
Lemma take_out l n a :
  NoDup (ident <$> l) -> list_find (fun a => p a = true) l = Some (n, a) ->
  ident a = i /\ i ∈ ident <$> l /\ delete n l = others l.
Proof using p_spec.
  intros Hnd Hf. pose proof Hf as (Hl & Hp%p_spec & _)%list_find_Some. split; [done|].
  split; [rewrite <- Hp; by eapply list_elem_of_fmap_2, list_elem_of_lookup_2|].
  revert n Hnd Hf Hl. induction l as [|b l IH]; intros n Hnd Hf Hl; [done|].
  cbn [fmap list_fmap] in Hnd. apply NoDup_cons in Hnd as [Hn Hd]. cbn [list_find] in Hf. unfold others. cbn [List.filter].
  destruct (decide (p b = true)) as [E|E]; rewrite ?E.
  - injection Hf as <- <-. cbn. symmetry. apply others_none. congruence.
  - apply not_true_iff_false in E. rewrite E. cbn [negb].
    apply fmap_Some in Hf as ([n' a'] & Hf & [= -> ->]). cbn. f_equal. by apply IH.
Qed.

Lemma not_found l : list_find (fun a => p a = true) l = None -> i ∉ ident <$> l.
Proof using p_spec.
  intros Hf%list_find_None (a & -> & Ha)%list_elem_of_fmap. rewrite Forall_forall in Hf. by eapply Hf, p_spec.
Qed.

(** Adding an element in the place of the one with its identity. *)
Lemma replace_unique l a : ident a = i -> NoDup (ident <$> l) -> NoDup (ident <$> others l ++ [a]).
Proof using p_spec.
  intros Hi Hd. rewrite fmap_app, NoDup_app. split; [by apply others_unique|]. split; [|apply NoDup_singleton].
  intros x Hx ->%list_elem_of_singleton. apply others_ids in Hx as [_ Hx]. congruence.
Qed.

(** An element changed in place keeps its identity. *)
Lemma update_ids (l : list A) (n : nat) a a' : l !! n = Some a -> ident a' = ident a -> ident <$> <[ n := a' ]> l = ident <$> l.
Proof.
  intros Hl He. rewrite list_fmap_insert, He. apply list_insert_id. by rewrite list_lookup_fmap, Hl.
Qed.
End by_identity.

Lemma drop_key_others k s :
  unique s -> drop_key k s = set_keys (others (is_key k) (mKeyMementos s)) s.
Proof.
  intros [Hk _]. unfold drop_key, findKeyMemento. destruct (list_find _ _) as [[n m]|] eqn:E.
  - by destruct (take_out _ _ _ (is_key_spec k) _ _ _ Hk E) as (_ & _ & ->).
  - rewrite (others_none _ _ _ (is_key_spec k)); [by destruct s|]. by eapply not_found, E; apply is_key_spec.
Qed.

Lemma drop_motion_others e h s :
  unique s -> drop_motion e h s = set_motions (others (is_motion e h) (mMotionMementos s)) s.
Proof.
  intros [_ Hm]. unfold drop_motion, findMotionMemento. destruct (list_find _ _) as [[n m]|] eqn:E.
  - by destruct (take_out _ _ _ (is_motion_spec e h) _ _ _ Hm E) as (_ & _ & ->).
  - rewrite (others_none _ _ _ (is_motion_spec e h)); [by destruct s|]. by eapply not_found, E; apply is_motion_spec.
Qed.

Lemma view_eq (v w : view) :
  (forall x, x ∈ pressed v <-> x ∈ pressed w) -> (forall x, x ∈ gestures v <-> x ∈ gestures w) -> v = w.
Proof. destruct v, w; cbn. intros H1 H2. f_equal; apply set_eq; auto. Qed.

Lemma pressed_view s x : x ∈ pressed (view_of s) <-> x ∈ memento_key <$> mKeyMementos s.
Proof. unfold view_of; cbn. apply elem_of_list_to_set. Qed.

Lemma gestures_view s x : x ∈ gestures (view_of s) <-> x ∈ memento_motion <$> mMotionMementos s.
Proof. unfold view_of; cbn. apply elem_of_list_to_set. Qed.

(** A key is forgotten, or remembered anew. *)
Lemma drop_key_view k s :
  unique s -> unique (drop_key k s) /\ view_of (drop_key k s) = mkView (pressed (view_of s) ∖ {[ key_id k ]}) (gestures (view_of s)).
Proof.
  intros U. pose proof U as [Hk Hm]. rewrite drop_key_others by done. split.
  - split; cbn; [|done]. by apply (others_unique _ _ _ (is_key_spec k)).
  - apply view_eq; [|done]. intros x. rewrite pressed_view. cbn [mKeyMementos set_keys pressed].
    rewrite (others_ids _ _ _ (is_key_spec k)), elem_of_difference, pressed_view, elem_of_singleton. done.
Qed.

Lemma drop_motion_view e h s :
  unique s ->
  unique (drop_motion e h s) /\
  view_of (drop_motion e h s) = mkView (pressed (view_of s)) (gestures (view_of s) ∖ {[ motion_id e h ]}).
Proof.
  intros U. pose proof U as [Hk Hm]. rewrite drop_motion_others by done. split.
  - split; cbn; [done|]. by apply (others_unique _ _ _ (is_motion_spec e h)).
  - apply view_eq; [done|]. intros x. rewrite gestures_view. cbn [mMotionMementos set_motions gestures].
    rewrite (others_ids _ _ _ (is_motion_spec e h)), elem_of_difference, gestures_view, elem_of_singleton. done.
Qed.

Lemma add_key_view flags k f s :
  unique s ->
  unique (addKeyMemento flags k f (drop_key k s)) /\
  view_of (addKeyMemento flags k f (drop_key k s)) = mkView (pressed (view_of s) ∪ {[ key_id k ]}) (gestures (view_of s)).
Proof.
  intros U. pose proof U as [Hk Hm]. rewrite drop_key_others by done. split.
  - split; cbn; [|done]. by apply (replace_unique _ _ _ (is_key_spec k)).
  - apply view_eq; [|done]. intros x. rewrite pressed_view. cbn [mKeyMementos set_keys addKeyMemento pressed].
    rewrite fmap_app, elem_of_app, (others_ids _ _ _ (is_key_spec k)), elem_of_union, pressed_view, elem_of_singleton.
    cbn. rewrite list_elem_of_singleton. destruct (decide (x = key_id k)); naive_solver.
Qed.

Lemma add_motion_view flags e f h s :
  unique s ->
  unique (addMotionMemento flags e f h (drop_motion e h s)) /\
  view_of (addMotionMemento flags e f h (drop_motion e h s)) =
    mkView (pressed (view_of s)) (gestures (view_of s) ∪ {[ motion_id e h ]}).
Proof.
  intros U. pose proof U as [Hk Hm]. rewrite drop_motion_others by done. split.
  - split; cbn; [done|]. by apply (replace_unique _ _ _ (is_motion_spec e h)).
  - apply view_eq; [done|]. intros x. rewrite gestures_view. cbn [mMotionMementos set_motions addMotionMemento gestures].
    rewrite fmap_app, elem_of_app, (others_ids _ _ _ (is_motion_spec e h)), elem_of_union, gestures_view, elem_of_singleton.
    cbn. rewrite list_elem_of_singleton. destruct (decide (x = motion_id e h)); naive_solver.
Qed.

(** Ending a gesture: delivered when there is one. *)
Lemma end_motion e h s :
  unique s ->
  match findMotionMemento e h s with
  | Some (i, _) => motion_id e h ∈ gestures (view_of s) /\ set_motions (delete i (mMotionMementos s)) s = drop_motion e h s
  | None => motion_id e h ∉ gestures (view_of s)
  end.
Proof.
  intros [Hk Hm]. unfold drop_motion. destruct (findMotionMemento e h s) as [[i m]|] eqn:E; unfold findMotionMemento in E.
  - split; [|done]. rewrite gestures_view. by eapply take_out, E; [apply is_motion_spec|].
  - rewrite gestures_view. by eapply not_found, E; apply is_motion_spec.
Qed.

Lemma move_motion e h s i m :
  unique s -> findMotionMemento e h s = Some (i, m) ->
  let s' := set_motions (<[ i := setPointers e m ]> (mMotionMementos s)) s in
  unique s' /\ view_of s' = view_of s.
Proof.
  intros [Hk Hm] (Hl & _ & _)%list_find_Some. cbv zeta.
  assert (memento_motion <$> <[ i := setPointers e m ]> (mMotionMementos s) = memento_motion <$> mMotionMementos s) as He
    by (by eapply update_ids).
  split; [by split; cbn; rewrite ?He|]. unfold view_of. cbn. by rewrite He.
Qed.

(** What may be sent to one that has this view: a gesture that is ended or goes
    on must be in progress, except for the moves of joysticks and trackballs. *)
Definition acceptable (e : EventEntry) (v : view) : bool :=
  match entry_type e with
  | MOTION m =>
      let a := Z.land (me_action m) AMOTION_EVENT_ACTION_MASK in
      match ends a with
      | Some h => bool_decide (motion_id m h ∈ gestures v)
      | None =>
          if (a =? AMOTION_EVENT_ACTION_POINTER_UP) || (a =? AMOTION_EVENT_ACTION_POINTER_DOWN)
             || (a =? AMOTION_EVENT_ACTION_MOVE)
          then bool_decide (motion_id m false ∈ gestures v) ||
               (a =? AMOTION_EVENT_ACTION_MOVE) &&
               has (me_source m) (Z.lor AINPUT_SOURCE_CLASS_JOYSTICK AINPUT_SOURCE_CLASS_NAVIGATION)
          else true
      end
  | _ => true
  end.

Lemma fallback_view l s : (unique (set_fallback l s) <-> unique s) /\ view_of (set_fallback l s) = view_of s.
Proof. split; [|done]. split; intros [? ?]; by split. Qed.

(** What tracking must do with an event: the state stays unique and follows the
    view, and what is not delivered leaves no trace. *)
Definition tracks (e : EventEntry) (s : InputState) (r : bool * InputState) : Prop :=
  fst r = acceptable e (view_of s) /\ unique (snd r) /\
  view_of (snd r) = (if fst r then see e (view_of s) else view_of s).

Lemma view_eta v : mkView (pressed v) (gestures v) = v.
Proof. by destruct v. Qed.

Lemma track_key_tracks e k s : entry_type e = KEY k -> unique s -> tracks e s (track e s).
Proof.
  intros He U. unfold tracks, track, acceptable, see, trackKey. rewrite He.
  destruct (Z.eqb_spec (ke_action k) AKEY_EVENT_ACTION_UP) as [E|_].
  - rewrite E. cbn [fst snd Z.eqb AKEY_EVENT_ACTION_UP AKEY_EVENT_ACTION_DOWN]. split; [done|].
    case_match; [|by apply drop_key_view]. set (s' := set_fallback _ s).
    destruct (fallback_view (mFallbackKeys s') s) as [Hu Hv]. destruct (drop_key_view k s' (proj2 Hu U)) as [Hu' ->].
    done.
  - destruct (ke_action k =? AKEY_EVENT_ACTION_DOWN); cbn [fst snd]; [|done].
    split; [done|]. by apply add_key_view.
Qed.

Lemma track_motion_tracks e m s : entry_type e = MOTION m -> unique s -> tracks e s (track e s).
Proof.
  intros He U. unfold tracks, track, acceptable, see, trackMotion, starts, ends. rewrite He.
  set (a := Z.land _ _). clearbody a.
  destruct (Z.eqb_spec a AMOTION_EVENT_ACTION_UP) as [->|?]; [|destruct (Z.eqb_spec a AMOTION_EVENT_ACTION_CANCEL) as [->|?]];
    [| |destruct (Z.eqb_spec a AMOTION_EVENT_ACTION_DOWN) as [->|?]];
    cbn [orb fst snd Z.eqb AMOTION_EVENT_ACTION_UP AMOTION_EVENT_ACTION_CANCEL AMOTION_EVENT_ACTION_DOWN Pos.eqb
         AMOTION_EVENT_ACTION_HOVER_ENTER AMOTION_EVENT_ACTION_HOVER_MOVE AMOTION_EVENT_ACTION_HOVER_EXIT
         AMOTION_EVENT_ACTION_POINTER_UP AMOTION_EVENT_ACTION_POINTER_DOWN AMOTION_EVENT_ACTION_MOVE].
  1, 2: pose proof (end_motion m false s U) as Hend; destruct (findMotionMemento m false s) as [[i m']|]; cbn [fst snd];
    [destruct Hend as [Hin ->]; rewrite bool_decide_eq_true_2 by done; split; [done|by apply drop_motion_view]
    |rewrite bool_decide_eq_false_2 by done; done].
  - split; [done|]. by apply add_motion_view.
  - destruct (_ || _ || (a =? AMOTION_EVENT_ACTION_MOVE)) eqn:Ego.
    + assert ((a =? AMOTION_EVENT_ACTION_HOVER_EXIT) = false /\
              ((a =? AMOTION_EVENT_ACTION_HOVER_ENTER) || (a =? AMOTION_EVENT_ACTION_HOVER_MOVE)) = false) as [-> ->].
      { apply orb_true_iff in Ego as [[Ego|Ego]%orb_true_iff|Ego]; apply Z.eqb_eq in Ego as ->; done. }
      pose proof (end_motion m false s U) as Hend. destruct (findMotionMemento m false s) as [[i m']|] eqn:Ef; cbn [fst snd].
      * rewrite bool_decide_eq_true_2 by apply Hend. split; [done|]. by apply (move_motion m false).
      * rewrite bool_decide_eq_false_2 by done. by case_match.
    + destruct (Z.eqb_spec a AMOTION_EVENT_ACTION_HOVER_EXIT) as [->|?]; cbn [orb Z.eqb AMOTION_EVENT_ACTION_HOVER_EXIT
        AMOTION_EVENT_ACTION_HOVER_ENTER AMOTION_EVENT_ACTION_HOVER_MOVE Pos.eqb fst snd].
      * pose proof (end_motion m true s U) as Hend. destruct (findMotionMemento m true s) as [[i m']|]; cbn [fst snd].
        -- destruct Hend as [Hin ->]. rewrite bool_decide_eq_true_2 by done. split; [done|by apply drop_motion_view].
        -- rewrite bool_decide_eq_false_2 by done. done.
      * case_match; cbn [fst snd]; split; try done. by apply add_motion_view.
Qed.

Lemma track_tracks e s : unique s -> tracks e s (track e s).
Proof.
  intros U. destruct (entry_type e) as [|d|k|m] eqn:E.
  1, 2: by unfold tracks, track, acceptable, see; rewrite E.
  - by eapply track_key_tracks.
  - by eapply track_motion_tracks.
Qed.

(** Tracking a sequence of events: those that are delivered, and the state. *)
Fixpoint track_all (es : list EventEntry) (s : InputState) : list EventEntry * InputState :=
  match es with
  | [] => ([], s)
  | e :: es' =>
      let '(d, s1) := track e s in
      let '(ds, s2) := track_all es' s1 in (if d then e :: ds else ds, s2)
  end.

Definition see_all (es : list EventEntry) (v : view) : view := fold_left (fun v e => see e v) es v.

Lemma track_all_tracks es s :
  unique s -> unique (snd (track_all es s)) /\ view_of (snd (track_all es s)) = see_all (fst (track_all es s)) (view_of s).
Proof.
  revert s. induction es as [|e es IH]; intros s U; [done|]. cbn [track_all].
  destruct (track_tracks e s U) as (_ & Hu & Hv). destruct (track e s) as [d s1]. cbn [fst snd] in *.
  destruct (IH s1 Hu) as [Hu' Hv']. destruct (track_all es s1) as [ds s2]. cbn [fst snd] in *.
  split; [done|]. rewrite Hv', Hv. by destruct d.
Qed.

(** ** Canceling *)

Lemma track_all_app es es' s :
  track_all (es ++ es') s =
  let '(ds, s1) := track_all es s in let '(ds', s2) := track_all es' s1 in (ds ++ ds', s2).
Proof.
  revert s. induction es as [|e es IH]; intros s; cbn.
  - by destruct (track_all es' s).
  - destruct (track e s) as [d s1]. rewrite IH. destruct (track_all es s1) as [ds s2]. destruct (track_all es' s2). by destruct d.
Qed.

Section leaving_out.
Context {A I : Type} `{Countable I} (ident : A -> I).

(** The elements of [l] whose identity is not one of [ms]. *)
Definition leaving_out (ms l : list A) : list A := List.filter (fun a => negb (bool_decide (ident a ∈ ident <$> ms))) l.

Lemma leaving_out_cons p m ms l :
  (forall a, p a = true <-> ident a = ident m) -> leaving_out ms (others p l) = leaving_out (m :: ms) l.
Proof.
  intros Hp. unfold leaving_out, others. induction l as [|a l IH]; [done|]. cbn [List.filter].
  destruct (p a) eqn:E; cbn [negb].
  - rewrite (bool_decide_eq_true_2 (ident a ∈ ident <$> m :: ms)); [done|]. apply Hp in E. rewrite E. cbn. set_solver.
  - cbn [List.filter]. rewrite IH. rewrite (bool_decide_ext (ident a ∈ ident <$> m :: ms) (ident a ∈ ident <$> ms)); [done|].
    cbn. rewrite elem_of_cons. apply not_true_iff_false in E. rewrite Hp in E. naive_solver.
Qed.

Lemma leaving_out_selected (p : A -> bool) l :
  NoDup (ident <$> l) -> leaving_out (List.filter p l) l = List.filter (fun a => negb (p a)) l.
Proof.
  intros Hd. unfold leaving_out. apply filter_ext_in. intros a Ha%list_elem_of_In. f_equal.
  destruct (p a) eqn:E.
  - apply bool_decide_eq_true_2, list_elem_of_fmap_2, list_elem_of_In, filter_In. by rewrite <- list_elem_of_In.
  - apply bool_decide_eq_false_2. intros (b & Hb & Hin)%list_elem_of_fmap.
    apply list_elem_of_In, filter_In in Hin as [Hin Hp]. apply list_elem_of_In in Hin.
    apply list_elem_of_lookup in Ha as [i Hi], Hin as [j Hj].
    assert (i = j) as -> by (apply (NoDup_lookup (ident <$> l) i j (ident a)); [done| |];
                             rewrite list_lookup_fmap, ?Hi, ?Hj; cbn; congruence).
    congruence.
Qed.
End leaving_out.

Lemma cancel_keys t ms s :
  unique s ->
  let r := track_all (map (cancel_key t) ms) s in
  fst r = map (cancel_key t) ms /\
  mKeyMementos (snd r) = leaving_out memento_key ms (mKeyMementos s) /\ mMotionMementos (snd r) = mMotionMementos s.
Proof.
  cbv zeta. revert s. induction ms as [|m ms IH]; intros s U.
  { cbn. split; [done|]. split; [|done]. symmetry. apply forallb_filter_id, forallb_forall. intros x _.
    rewrite bool_decide_eq_false_2; [done|]. set_solver. }
  cbn [map track_all]. set (k := KeyEntry_new (kmo_deviceId m) (kmo_source m) AKEY_EVENT_ACTION_UP
    (Z.lor (kmo_flags m) AKEY_EVENT_FLAG_CANCELED) (kmo_keyCode m) (kmo_scanCode m) (kmo_metaState m) 0 (kmo_downTime m)).
  pose proof (track_tracks (cancel_key t m) s U) as (_ & Hu & _).
  assert (exists l, track (cancel_key t m) s = (true, drop_key k (set_fallback l s))) as [l Ht].
  { unfold track, trackKey. cbn -[drop_key]. case_match; eexists; [done|].
    instantiate (1 := mFallbackKeys s). by destruct s. }
  rewrite Ht in *. cbn [snd fst] in Hu. rewrite drop_key_others in * by (by apply fallback_view).
  destruct (IH _ Hu) as (Hf & Hk & Hm). destruct (track_all _ _) as [ds s2]. cbn [fst snd] in *.
  split; [by rewrite Hf|]. split; [|by rewrite Hm]. rewrite Hk. cbn [set_keys set_fallback mKeyMementos].
  apply leaving_out_cons. apply (is_key_spec k).
Qed.

Lemma cancel_motions t ms s :
  unique s -> NoDup (memento_motion <$> ms) -> (memento_motion <$> ms) ⊆ (memento_motion <$> mMotionMementos s) ->
  let r := track_all (map (cancel_motion t) ms) s in
  fst r = map (cancel_motion t) ms /\
  mMotionMementos (snd r) = leaving_out memento_motion ms (mMotionMementos s) /\ mKeyMementos (snd r) = mKeyMementos s.
Proof.
  cbv zeta. revert s. induction ms as [|m ms IH]; intros s U Hd Hsub.
  { cbn. split; [done|]. split; [|done]. symmetry. apply forallb_filter_id, forallb_forall. intros x _.
    rewrite bool_decide_eq_false_2; [done|]. set_solver. }
  cbn [fmap list_fmap] in Hd, Hsub. apply NoDup_cons in Hd as [Hn Hd].
  cbn [map track_all]. set (e := mkMotionEntry (mmo_deviceId m) (mmo_source m)
       (if mmo_hovering m then AMOTION_EVENT_ACTION_HOVER_EXIT else AMOTION_EVENT_ACTION_CANCEL)
       (mmo_flags m) 0 0 0 (mmo_xPrecision m) (mmo_yPrecision m) (mmo_downTime m) (mmo_pointers m)).
  pose proof (end_motion e (mmo_hovering m) s U) as Hend.
  assert (memento_motion m ∈ gestures (view_of s)) as Hin by (apply gestures_view; set_solver).
  assert (track (cancel_motion t m) s = (true, drop_motion e (mmo_hovering m) s)) as Ht.
  { unfold track, trackMotion. cbn -[drop_motion findMotionMemento]. fold e.
    destruct (mmo_hovering m) eqn:Eh; cbn -[drop_motion findMotionMemento];
      (destruct (findMotionMemento e _ s) as [[i m']|]; [by destruct Hend as [_ ->]|]);
      destruct Hend; unfold memento_motion in Hin; by rewrite Eh in Hin. }
  pose proof (drop_motion_view e (mmo_hovering m) s U) as [Hu _].
  rewrite Ht. rewrite drop_motion_others in * by done.
  destruct (IH _ Hu Hd) as (Hf & Hk & Hm).
  { cbn [set_motions mMotionMementos]. intros x Hx.
    rewrite (others_ids _ _ _ (is_motion_spec e (mmo_hovering m))). split; [set_solver|]. intros ->. by apply Hn. }
  destruct (track_all _ _) as [ds s2]. cbn [fst snd] in *.
  split; [by rewrite Hf|]. split; [|by rewrite Hm]. rewrite Hk. cbn [set_motions mMotionMementos].
  apply leaving_out_cons. apply (is_motion_spec e (mmo_hovering m)).
Qed.

Lemma filter_unique {A I} (ident : A -> I) (p : A -> bool) l : NoDup (ident <$> l) -> NoDup (ident <$> List.filter p l).
Proof.
  induction l as [|a l IH]; [done|]. cbn. rewrite NoDup_cons. intros [Hn Hd]. case_match; [|auto]. cbn. rewrite NoDup_cons.
  split; [|auto]. intros (b & E & Hb)%list_elem_of_fmap. apply Hn. rewrite E. apply list_elem_of_fmap_2.
  apply list_elem_of_In, filter_In in Hb as [Hb _]. by apply list_elem_of_In.
Qed.

(** Canceling reaches the application, and ends exactly what the options select. *)
Lemma cancel_selected t o s :
  unique s ->
  let events := synthesizeCancelationEvents t o s in
  let '(delivered, s') := track_all events s in
  delivered = events /\ unique s' /\
  mKeyMementos s' = List.filter (fun m => negb (shouldCancelKey o m)) (mKeyMementos s) /\
  mMotionMementos s' = List.filter (fun m => negb (shouldCancelMotion o m)) (mMotionMementos s).
Proof.
  intros U. cbv zeta. pose proof U as [Hk Hm]. unfold synthesizeCancelationEvents. rewrite track_all_app.
  set (ks := List.filter _ (mKeyMementos s)). set (gs := List.filter (shouldCancelMotion o) _).
  destruct (cancel_keys t ks s U) as (Hf1 & Hk1 & Hm1).
  destruct (track_all_tracks (map (cancel_key t) ks) s U) as [Hu1 _].
  destruct (track_all (map (cancel_key t) ks) s) as [ds1 s1]. cbn [fst snd] in *. subst ds1.
  destruct (cancel_motions t gs s1 Hu1) as (Hf2 & Hm2 & Hk2).
  { by apply filter_unique. }
  { rewrite Hm1. intros x (b & -> & Hb)%list_elem_of_fmap. apply list_elem_of_In, filter_In in Hb as [Hb _].
    by apply list_elem_of_fmap_2, list_elem_of_In. }
  destruct (track_all_tracks (map (cancel_motion t) gs) s1 Hu1) as [Hu2 _].
  destruct (track_all (map (cancel_motion t) gs) s1) as [ds2 s2]. cbn [fst snd] in *. subst ds2.
  split; [done|]. split; [done|]. rewrite Hk2, Hk1, Hm2, Hm1. split; by apply leaving_out_selected.
Qed.

Lemma new_unique : unique InputState_new.
Proof. split; cbn; apply NoDup_nil_2. Qed.

Definition empty_view : view := mkView ∅ ∅.

(** C21: the dispatcher's record of a connection is the application's view.
    Whatever events are tracked, in whatever order, after those that were let
    through the mementos are, each once, the keys that are pressed and the
    gestures that are in progress; the next event is let through exactly when it
    makes sense to that view, and one that is held back leaves the record as
    the application's. *)
Theorem mementos_follow_view (history : list EventEntry) (next : EventEntry) :
  let '(delivered, s) := track_all history InputState_new in
  unique s /\ view_of s = see_all delivered empty_view /\
  fst (track next s) = acceptable next (see_all delivered empty_view) /\
  view_of (snd (track next s)) = see_all (delivered ++ (if fst (track next s) then [next] else [])) empty_view.
Proof.
  pose proof (track_all_tracks history _ new_unique) as [Hu Hv]. destruct (track_all history InputState_new) as [ds s].
  cbn [fst snd] in *. assert (view_of InputState_new = empty_view) as E by done. rewrite E in Hv.
  split; [done|]. split; [done|]. destruct (track_tracks next s Hu) as (Ha & _ & Hn). rewrite Ha, Hv. split; [done|].
  rewrite Hn, Ha, Hv. unfold see_all. rewrite fold_left_app. generalize (acceptable next (fold_left (fun v e => see e v) ds empty_view)). by intros [].
Qed.

(** C22: canceling releases exactly what it should.  After any history, the
    events made to cancel what the options select are all let through; what the
    application has pressed or in progress afterwards is what was not
    selected, and when everything is canceled that is nothing. *)
Theorem cancelation_releases (history : list EventEntry) (t : Z) (o : CancelationOptions) :
  let '(delivered, s) := track_all history InputState_new in
  let cancel := synthesizeCancelationEvents t o s in
  let '(canceled, s') := track_all cancel s in
  canceled = cancel /\
  view_of s' = see_all (delivered ++ cancel) empty_view /\
  mKeyMementos s' = List.filter (fun m => negb (shouldCancelKey o m)) (mKeyMementos s) /\
  mMotionMementos s' = List.filter (fun m => negb (shouldCancelMotion o m)) (mMotionMementos s) /\
  (o = CancelationOptions_new CANCEL_ALL_EVENTS -> see_all (delivered ++ cancel) empty_view = empty_view /\ isNeutral s' = true).
Proof.
  pose proof (track_all_tracks history _ new_unique) as [Hu Hv]. destruct (track_all history InputState_new) as [ds s].
  cbn [fst snd] in *. cbv zeta. pose proof (cancel_selected t o s Hu) as Hc. cbv zeta in Hc.
  pose proof (track_all_tracks (synthesizeCancelationEvents t o s) s Hu) as [_ Hv'].
  destruct (track_all (synthesizeCancelationEvents t o s) s) as [cs s']. cbn [fst snd] in *.
  destruct Hc as (-> & Hu' & Hk & Hm).
  assert (view_of s' = see_all (ds ++ synthesizeCancelationEvents t o s) empty_view) as Hs.
  { unfold see_all. rewrite fold_left_app. rewrite Hv', Hv. done. }
  do 4 (split; [done|]). intros ->. rewrite <- Hs. unfold isNeutral, view_of. rewrite Hk, Hm.
  assert (forall A (l : list A), List.filter (fun _ => negb true) l = []) as Hnil by (intros A l; by induction l).
  unfold shouldCancelKey, shouldCancelMotion. cbn -[negb]. rewrite !Hnil. done.
Qed.

(** A key held and a finger down; then the finger is lifted twice. *)
Definition demo_key (action : Z) : EventEntry := EventEntry_new 10 0 (KEY (KeyEntry_new 1 257 action 0 30 30 0 0 10)).
Definition demo_motion (action : Z) : EventEntry :=
  EventEntry_new 10 0 (MOTION (mkMotionEntry 2 4098 action 0 0 0 0 zero zero 10 [])).

Lemma cancelation_releases_witness :
  fst (track_all [demo_key 0; demo_motion 0; demo_motion 1; demo_motion 1] InputState_new) = [demo_key 0; demo_motion 0; demo_motion 1] /\
  let '(delivered, s) := track_all [demo_key 0; demo_motion 0] InputState_new in
  length (synthesizeCancelationEvents 20 (CancelationOptions_new CANCEL_ALL_EVENTS) s) = 2%nat /\
  see_all (delivered ++ synthesizeCancelationEvents 20 (CancelationOptions_new CANCEL_ALL_EVENTS) s) empty_view = empty_view.
Proof.
  split; [vm_compute; reflexivity|].
  pose proof (cancelation_releases [demo_key 0; demo_motion 0] 20 (CancelationOptions_new CANCEL_ALL_EVENTS)) as H.
  destruct (track_all [demo_key 0; demo_motion 0] InputState_new) as [ds s] eqn:E. cbv zeta in H.
  destruct (track_all (synthesizeCancelationEvents 20 _ s) s) as [cs s'].
  destruct H as (_ & _ & _ & _ & H). split.
  - assert (s = snd (track_all [demo_key 0; demo_motion 0] InputState_new)) as -> by (rewrite E; reflexivity). vm_compute. reflexivity.
  - apply H. reflexivity.
Defined.
