(* ===== verification/Dispatcher.v ===== *)
(** * The input dispatcher: state and dispatch cycles

    [InputDispatcher]
    ([3rd_party/android-input/android/frameworks/base/services/input/InputDispatcher.cpp],
    [InputDispatcher.h]): its members, the entries it counts references to, its
    connections, and the cycle that publishes an event on a connection and waits
    for it to be finished.  [DispatchTargets] has the choice of the windows,
    [DispatchLoop] the queues, the commands and the interface.

    An [EventEntry] lives on a heap: [release] deletes it when no reference is
    left, and to reach one that is gone is undefined behaviour, as is a failed
    [ALOG_ASSERT].  Connections and handles are [sp]s, named by numbers; they are
    not taken away.  The policy, the handles' [updateInfo], and the world (the
    sockets, the clock, the looper) are interfaces.  Events are not injected, so
    the injection state is null everywhere.  Times are not near the ends of their
    64 bits. *)

From Stdlib Require Import SpecFloat.
From S2P Require Import Prelude Geometry Input AndroidEvents InputTransport InputState.

(** ** Constants *)

Definition LONG_LONG_MAX : Z := 9223372036854775807.
Definition LONG_LONG_MIN : Z := -9223372036854775808.

Definition DEFAULT_INPUT_DISPATCHING_TIMEOUT : Z := 5000 * 1000000.
Definition APP_SWITCH_TIMEOUT : Z := 500 * 1000000.
Definition STALE_EVENT_TIMEOUT : Z := 10000 * 1000000.
Definition STREAM_AHEAD_EVENT_TIMEOUT : Z := 500 * 1000000.

(** [InputDispatcherConfiguration]; the policy does not change it. *)
Definition keyRepeatTimeout : Z := 500 * 1000000.
Definition keyRepeatDelay : Z := 50 * 1000000.

(** [InputTarget]. *)
Definition FLAG_FOREGROUND : Z := Z.shiftl 1 0.
Definition FLAG_WINDOW_IS_OBSCURED : Z := Z.shiftl 1 1.
Definition FLAG_SPLIT : Z := Z.shiftl 1 2.
Definition FLAG_ZERO_COORDS : Z := Z.shiftl 1 3.
Definition FLAG_DISPATCH_AS_IS : Z := Z.shiftl 1 8.
Definition FLAG_DISPATCH_AS_OUTSIDE : Z := Z.shiftl 1 9.
Definition FLAG_DISPATCH_AS_HOVER_ENTER : Z := Z.shiftl 1 10.
Definition FLAG_DISPATCH_AS_HOVER_EXIT : Z := Z.shiftl 1 11.
Definition FLAG_DISPATCH_AS_SLIPPERY_EXIT : Z := Z.shiftl 1 12.
Definition FLAG_DISPATCH_AS_SLIPPERY_ENTER : Z := Z.shiftl 1 13.
Definition FLAG_DISPATCH_MASK : Z :=
  fold_left Z.lor [FLAG_DISPATCH_AS_OUTSIDE; FLAG_DISPATCH_AS_HOVER_ENTER; FLAG_DISPATCH_AS_HOVER_EXIT;
    FLAG_DISPATCH_AS_SLIPPERY_EXIT; FLAG_DISPATCH_AS_SLIPPERY_ENTER] FLAG_DISPATCH_AS_IS.

Definition AMOTION_EVENT_FLAG_WINDOW_IS_OBSCURED : Z := 1.

Record InputTarget : Set := mkInputTarget {
  it_channel : InputChannel;
  it_flags : Z;
  it_xOffset : float; it_yOffset : float; it_scaleFactor : float;
  it_pointerIds : Z;
}.

(** ** Members *)

Record DispatchEntry : Set := mkDispatch {
  de_seq : Z;
  de_event : nat;
  de_targetFlags : Z;
  de_xOffset : float; de_yOffset : float; de_scaleFactor : float;
  de_deliveryTime : Z;
  de_resolvedAction : Z; de_resolvedFlags : Z;
}.

Definition hasForegroundTarget (de : DispatchEntry) : bool := has (de_targetFlags de) FLAG_FOREGROUND.

Inductive conn_status : Set := STATUS_NORMAL | STATUS_BROKEN | STATUS_ZOMBIE.

#[export] Instance conn_status_eq_dec : EqDecision conn_status.
Proof. solve_decision. Defined.

Record Connection : Set := mkConnection {
  cn_status : conn_status;
  cn_channel : InputChannel;
  cn_window : option nat;
  cn_monitor : bool;
  cn_state : InputState;
  cn_blocked : bool;
  outboundQueue : list DispatchEntry;
  waitQueue : list DispatchEntry;
}.

Definition Connection_new (inputChannel : InputChannel) (inputWindowHandle : option nat) (monitor : bool) : Connection :=
  mkConnection STATUS_NORMAL inputChannel inputWindowHandle monitor InputState_new false [] [].

Inductive CommandEntry : Set :=
| doNotifyConfigurationChanged (time : Z)
| doNotifyInputChannelBroken (connection : nat)
| doNotifyANR (application window : option nat)
| doInterceptKeyBeforeDispatching (window : option nat) (keyEntry : nat)
| doDispatchCycleFinished (connection : nat) (time seq : Z) (handled : bool).

Record InputApplicationInfo : Set := mkApplicationInfo { ai_name : string; ai_dispatchingTimeout : Z }.

Record WindowHandle : Set := mkWindowHandle {
  inputApplicationHandle : option nat;
  wh_info : option InputWindowInfo;
}.

Record TouchedWindow : Set := mkTouched { tw_window : nat; tw_flags : Z; tw_pointerIds : Z }.

Record TouchState : Set := mkTouchState {
  ts_down : bool; ts_split : bool; ts_deviceId : Z; ts_source : Z;
  ts_windows : list TouchedWindow;
}.

Inductive WaitCause : Set :=
| INPUT_TARGET_WAIT_CAUSE_NONE
| INPUT_TARGET_WAIT_CAUSE_SYSTEM_NOT_READY
| INPUT_TARGET_WAIT_CAUSE_APPLICATION_NOT_READY.

#[export] Instance WaitCause_eq_dec : EqDecision WaitCause.
Proof. solve_decision. Defined.

(** [mInputTargetWait*]. *)
Record TargetWait : Set := mkTargetWait {
  tgw_cause : WaitCause; tgw_startTime : Z; tgw_timeoutTime : Z; tgw_expired : bool;
  tgw_application : option nat;
}.

(** The modes, and the optimisation of application switches. *)
Record Modes : Set := mkModes {
  mDispatchEnabled : bool; mDispatchFrozen : bool; mInputFilterEnabled : bool;
  mAppSwitchSawKeyDown : bool; mAppSwitchDueTime : Z;
}.

(** The windows and applications, and what has the focus. *)
Record Focus : Set := mkFocus {
  fo_handles : gmap nat WindowHandle;
  fo_applications : gmap nat (option InputApplicationInfo);
  (** How many input channels there have been. *)
  fo_channels : nat;
  mWindowHandles : list nat;
  mFocusedWindowHandle : option nat;
  mFocusedApplicationHandle : option nat;
  mTouchState : TouchState;
  mLastHoverWindowHandle : option nat;
  mMonitoringChannels : list InputChannel;
}.

Record Dispatcher (K : Type) : Type := mkDispatcher {
  d_heap : gmap nat EventEntry;
  d_next : nat;
  d_connections : list Connection;
  mConnectionsByFd : list (Z * nat);
  mPendingEvent : option nat;
  mInboundQueue : list nat;
  mCommandQueue : list CommandEntry;
  lastKeyEntry : option nat;
  nextRepeatTime : Z;
  mNextUnblockedEvent : option nat;
  d_modes : Modes;
  d_focus : Focus;
  d_wait : TargetWait;
  sNextSeq : Z;
  d_world : K;
}.
Arguments mkDispatcher {K}.
Arguments d_heap {K}.
Arguments d_next {K}.
Arguments d_connections {K}.
Arguments mConnectionsByFd {K}.
Arguments mPendingEvent {K}.
Arguments mInboundQueue {K}.
Arguments mCommandQueue {K}.
Arguments lastKeyEntry {K}.
Arguments nextRepeatTime {K}.
Arguments mNextUnblockedEvent {K}.
Arguments d_modes {K}.
Arguments d_focus {K}.
Arguments d_wait {K}.
Arguments sNextSeq {K}.
Arguments d_world {K}.

(** *** Assignments *)

Section Assign.
Context {K : Type}.
Implicit Types d : Dispatcher K.

Definition set_heap h n d : Dispatcher K :=
  mkDispatcher h n (d_connections d) (mConnectionsByFd d) (mPendingEvent d) (mInboundQueue d) (mCommandQueue d)
    (lastKeyEntry d) (nextRepeatTime d) (mNextUnblockedEvent d) (d_modes d) (d_focus d) (d_wait d) (sNextSeq d) (d_world d).
Definition set_connections l d : Dispatcher K :=
  mkDispatcher (d_heap d) (d_next d) l (mConnectionsByFd d) (mPendingEvent d) (mInboundQueue d) (mCommandQueue d)
    (lastKeyEntry d) (nextRepeatTime d) (mNextUnblockedEvent d) (d_modes d) (d_focus d) (d_wait d) (sNextSeq d) (d_world d).
Definition set_byFd l d : Dispatcher K :=
  mkDispatcher (d_heap d) (d_next d) (d_connections d) l (mPendingEvent d) (mInboundQueue d) (mCommandQueue d)
    (lastKeyEntry d) (nextRepeatTime d) (mNextUnblockedEvent d) (d_modes d) (d_focus d) (d_wait d) (sNextSeq d) (d_world d).
Definition set_pending p d : Dispatcher K :=
  mkDispatcher (d_heap d) (d_next d) (d_connections d) (mConnectionsByFd d) p (mInboundQueue d) (mCommandQueue d)
    (lastKeyEntry d) (nextRepeatTime d) (mNextUnblockedEvent d) (d_modes d) (d_focus d) (d_wait d) (sNextSeq d) (d_world d).
Definition set_inbound q d : Dispatcher K :=
  mkDispatcher (d_heap d) (d_next d) (d_connections d) (mConnectionsByFd d) (mPendingEvent d) q (mCommandQueue d)
    (lastKeyEntry d) (nextRepeatTime d) (mNextUnblockedEvent d) (d_modes d) (d_focus d) (d_wait d) (sNextSeq d) (d_world d).
Definition set_commands q d : Dispatcher K :=
  mkDispatcher (d_heap d) (d_next d) (d_connections d) (mConnectionsByFd d) (mPendingEvent d) (mInboundQueue d) q
    (lastKeyEntry d) (nextRepeatTime d) (mNextUnblockedEvent d) (d_modes d) (d_focus d) (d_wait d) (sNextSeq d) (d_world d).
Definition set_lastKey k d : Dispatcher K :=
  mkDispatcher (d_heap d) (d_next d) (d_connections d) (mConnectionsByFd d) (mPendingEvent d) (mInboundQueue d)
    (mCommandQueue d) k (nextRepeatTime d) (mNextUnblockedEvent d) (d_modes d) (d_focus d) (d_wait d) (sNextSeq d) (d_world d).
Definition set_nextRepeat t d : Dispatcher K :=
  mkDispatcher (d_heap d) (d_next d) (d_connections d) (mConnectionsByFd d) (mPendingEvent d) (mInboundQueue d)
    (mCommandQueue d) (lastKeyEntry d) t (mNextUnblockedEvent d) (d_modes d) (d_focus d) (d_wait d) (sNextSeq d) (d_world d).
Definition set_unblocked u d : Dispatcher K :=
  mkDispatcher (d_heap d) (d_next d) (d_connections d) (mConnectionsByFd d) (mPendingEvent d) (mInboundQueue d)
    (mCommandQueue d) (lastKeyEntry d) (nextRepeatTime d) u (d_modes d) (d_focus d) (d_wait d) (sNextSeq d) (d_world d).
Definition set_modes m d : Dispatcher K :=
  mkDispatcher (d_heap d) (d_next d) (d_connections d) (mConnectionsByFd d) (mPendingEvent d) (mInboundQueue d)
    (mCommandQueue d) (lastKeyEntry d) (nextRepeatTime d) (mNextUnblockedEvent d) m (d_focus d) (d_wait d) (sNextSeq d) (d_world d).
Definition set_focus f d : Dispatcher K :=
  mkDispatcher (d_heap d) (d_next d) (d_connections d) (mConnectionsByFd d) (mPendingEvent d) (mInboundQueue d)
    (mCommandQueue d) (lastKeyEntry d) (nextRepeatTime d) (mNextUnblockedEvent d) (d_modes d) f (d_wait d) (sNextSeq d) (d_world d).
Definition set_wait w d : Dispatcher K :=
  mkDispatcher (d_heap d) (d_next d) (d_connections d) (mConnectionsByFd d) (mPendingEvent d) (mInboundQueue d)
    (mCommandQueue d) (lastKeyEntry d) (nextRepeatTime d) (mNextUnblockedEvent d) (d_modes d) (d_focus d) w (sNextSeq d) (d_world d).
Definition set_seq n d : Dispatcher K :=
  mkDispatcher (d_heap d) (d_next d) (d_connections d) (mConnectionsByFd d) (mPendingEvent d) (mInboundQueue d)
    (mCommandQueue d) (lastKeyEntry d) (nextRepeatTime d) (mNextUnblockedEvent d) (d_modes d) (d_focus d) (d_wait d) n (d_world d).
Definition set_world k d : Dispatcher K :=
  mkDispatcher (d_heap d) (d_next d) (d_connections d) (mConnectionsByFd d) (mPendingEvent d) (mInboundQueue d)
    (mCommandQueue d) (lastKeyEntry d) (nextRepeatTime d) (mNextUnblockedEvent d) (d_modes d) (d_focus d) (d_wait d) (sNextSeq d) k.

Definition world_lens : lens (Dispatcher K) K := Lens d_world set_world.

End Assign.

Definition with_touch (t : TouchState) (f : Focus) : Focus :=
  mkFocus (fo_handles f) (fo_applications f) (fo_channels f) (mWindowHandles f) (mFocusedWindowHandle f)
    (mFocusedApplicationHandle f) t (mLastHoverWindowHandle f) (mMonitoringChannels f).
Definition with_hover (h : option nat) (f : Focus) : Focus :=
  mkFocus (fo_handles f) (fo_applications f) (fo_channels f) (mWindowHandles f) (mFocusedWindowHandle f)
    (mFocusedApplicationHandle f) (mTouchState f) h (mMonitoringChannels f).
Definition with_monitors (l : list InputChannel) (f : Focus) : Focus :=
  mkFocus (fo_handles f) (fo_applications f) (fo_channels f) (mWindowHandles f) (mFocusedWindowHandle f)
    (mFocusedApplicationHandle f) (mTouchState f) (mLastHoverWindowHandle f) l.

(** ** What the dispatcher calls *)

(** The sockets, the monotonic clock and the looper. *)
Class InputWorld (K : Type) : Type := {
  world_socket :: InputSocket K;
  now : K -> Z * K;
  looper_addFd : Z -> K -> K;
  looper_removeFd : Z -> K -> K;
  looper_wake : K -> K;
}.

(** [InputDispatcherPolicyInterface].  A filter may keep a state of its own, in the
    world; the other calls answer without effects on the dispatcher. *)
Class InputDispatcherPolicy (K : Type) : Type := {
  isKeyRepeatEnabled : bool;
  notifyANR : option nat -> option nat -> Z;
  interceptKeyBeforeQueueing_policy : KeyInput -> Z -> Z;
  interceptMotionBeforeQueueing_policy : Z -> Z -> Z;
  interceptKeyBeforeDispatching : option nat -> KeyInput -> Z -> Z;
  (** The fallback event, if there is one. *)
  dispatchUnhandledKey : option nat -> KeyInput -> Z -> option KeyInput;
  filterInputEvent_policy : InputEvent -> Z -> K -> bool * K;
}.

(** [updateInfo] of a window handle, given what it has and a number for a new
    channel, and of an application handle; [None] when it returns false. *)
Class InputHandles : Type := {
  window_updateInfo : nat -> nat -> option InputWindowInfo -> option InputWindowInfo;
  application_updateInfo : nat -> option InputApplicationInfo;
}.

Section Cycle.
Context {K : Type} `{InputWorld K}.
Abbreviation D := (M (Dispatcher K)).

(** ** Entries *)

Definition entry (a : nat) : D EventEntry := deref (fun d => d_heap d !! a).

Definition update_entry (a : nat) (f : EventEntry -> EventEntry) : D unit :=
  e ← entry a ;
  modify (fun d => set_heap (<[ a := f e ]> (d_heap d)) (d_next d) d).

Definition with_refs (n : Z) (e : EventEntry) : EventEntry :=
  mkEntry n (eventTime e) (entry_policyFlags e) (dispatchInProgress e) (entry_type e).

(** [new], with the one reference it starts with. *)
Definition new_entry (e : EventEntry) : D nat := fun d =>
  Ret (d_next d) (set_heap (<[ d_next d := e ]> (d_heap d)) (S (d_next d)) d).

Fixpoint new_entries (es : list EventEntry) : D (list nat) :=
  match es with
  | [] => mret []
  | e :: es' => a ← new_entry e ; l ← new_entries es' ; mret (a :: l)
  end.

(** [refCount += 1]. *)
Definition acquire (a : nat) : D unit := update_entry a (fun e => with_refs (refCount e + 1) e).

Definition release (a : nat) : D unit :=
  e ← entry a ;
  let count := refCount e - 1 in
  if count =? 0 then modify (fun d => set_heap (delete a (d_heap d)) (d_next d) d)
  else if 0 <? count then update_entry a (with_refs count)
  else undefined.

(** ** Connections *)

Definition connection (c : nat) : D Connection := deref (fun d => d_connections d !! c).

Definition update_connection (c : nat) (f : Connection -> Connection) : D unit :=
  conn ← connection c ;
  modify (fun d => set_connections (<[ c := f conn ]> (d_connections d)) d).

Definition with_status (s : conn_status) (c : Connection) : Connection :=
  mkConnection s (cn_channel c) (cn_window c) (cn_monitor c) (cn_state c) (cn_blocked c) (outboundQueue c) (waitQueue c).
Definition with_state (s : InputState) (c : Connection) : Connection :=
  mkConnection (cn_status c) (cn_channel c) (cn_window c) (cn_monitor c) s (cn_blocked c) (outboundQueue c) (waitQueue c).
Definition with_blocked (b : bool) (c : Connection) : Connection :=
  mkConnection (cn_status c) (cn_channel c) (cn_window c) (cn_monitor c) (cn_state c) b (outboundQueue c) (waitQueue c).
Definition with_queues (out wait : list DispatchEntry) (c : Connection) : Connection :=
  mkConnection (cn_status c) (cn_channel c) (cn_window c) (cn_monitor c) (cn_state c) (cn_blocked c) out wait.

(** The connection registered for a channel, if any. *)
Definition getConnectionIndexLocked (channel : InputChannel) : D (option nat) := fun d =>
  match OrdMap.find (channel_fd channel) (mConnectionsByFd d) with
  | Some c =>
      match d_connections d !! c with
      | Some conn =>
          if (channel_object (cn_channel conn) =? channel_object channel)%nat then Ret (Some c) d else Ret None d
      | None => Undef
      end
  | None => Ret None d
  end.

Definition findWaitQueueEntry (seq : Z) (conn : Connection) : option DispatchEntry :=
  List.find (fun de => de_seq de =? seq) (waitQueue conn).

(** [waitQueue.dequeue(entry)], for the entry found by [seq]. *)
Fixpoint dequeue_seq (seq : Z) (q : list DispatchEntry) : list DispatchEntry :=
  match q with
  | [] => []
  | de :: q' => if de_seq de =? seq then q' else de :: dequeue_seq seq q'
  end.

(** ** The clock and the sequence numbers *)

Definition clock : D Z := fun d => let '(t, k) := now (d_world d) in Ret t (set_world k d).

(** The counter skips zero, also when it comes round. *)
Definition nextSeq : D Z := fun d =>
  let seq := if sNextSeq d =? 0 then 1 else sNextSeq d in
  Ret seq (set_seq (u32 (seq + 1)) d).

Definition postCommandLocked (cmd : CommandEntry) : D unit :=
  modify (fun d => set_commands (mCommandQueue d ++ [cmd]) d).

(** ** Enqueueing on a connection *)

Definition resolved_action (dispatchMode : Z) (m : MotionEntry) (s : InputState) : Z :=
  let action :=
    if has dispatchMode FLAG_DISPATCH_AS_OUTSIDE then AMOTION_EVENT_ACTION_OUTSIDE
    else if has dispatchMode FLAG_DISPATCH_AS_HOVER_EXIT then AMOTION_EVENT_ACTION_HOVER_EXIT
    else if has dispatchMode FLAG_DISPATCH_AS_HOVER_ENTER then AMOTION_EVENT_ACTION_HOVER_ENTER
    else if has dispatchMode FLAG_DISPATCH_AS_SLIPPERY_EXIT then AMOTION_EVENT_ACTION_CANCEL
    else if has dispatchMode FLAG_DISPATCH_AS_SLIPPERY_ENTER then AMOTION_EVENT_ACTION_DOWN
    else me_action m in
  if (action =? AMOTION_EVENT_ACTION_HOVER_MOVE) && negb (isHovering (me_deviceId m) (me_source m) s)
  then AMOTION_EVENT_ACTION_HOVER_ENTER else action.

(** The resolved action and flags, and the connection's state: none for an event
    that is inconsistent with it. *)
Definition resolve (dispatchMode targetFlags : Z) (e : EventEntry) (s : InputState) : option (Z * Z) * InputState :=
  match entry_type e with
  | KEY k =>
      let '(ok, s') := trackKey (entry_policyFlags e) k (ke_action k) (ke_flags k) s in
      (if ok then Some (ke_action k, ke_flags k) else None, s')
  | MOTION m =>
      let action := resolved_action dispatchMode m s in
      let flags :=
        if has targetFlags FLAG_WINDOW_IS_OBSCURED then Z.lor (me_flags m) AMOTION_EVENT_FLAG_WINDOW_IS_OBSCURED
        else me_flags m in
      let '(ok, s') := trackMotion (entry_policyFlags e) m action flags s in
      (if ok then Some (action, flags) else None, s')
  | _ => (Some (0, 0), s)
  end.

Definition enqueueDispatchEntryLocked (c a : nat) (target : InputTarget) (dispatchMode : Z) : D unit :=
  if negb (has (it_flags target) dispatchMode) then mret tt
  else
    let flags := Z.lor (Z.ldiff (it_flags target) FLAG_DISPATCH_MASK) dispatchMode in
    seq ← nextSeq ;
    acquire a ;;
    e ← entry a ;
    conn ← connection c ;
    let '(resolved, state) := resolve dispatchMode flags e (cn_state conn) in
    update_connection c (with_state state) ;;
    match resolved with
    | Some (action, rflags) =>
        let de := mkDispatch seq a flags (it_xOffset target) (it_yOffset target) (it_scaleFactor target) 0 action rflags in
        update_connection c (fun conn => with_queues (outboundQueue conn ++ [de]) (waitQueue conn) conn)
    | None => release a
    end.

(** ** Publishing *)

Definition one : float := float_of_Z 1.

(** The coordinates that are sent, and their offset. *)
Definition outgoing_coords (de : DispatchEntry) (m : MotionEntry)
    : float * float * list (PointerProperties * PointerCoords) :=
  let pointers := me_pointers m in
  if has (me_source m) AINPUT_SOURCE_CLASS_POINTER && negb (has (de_targetFlags de) FLAG_ZERO_COORDS) then
    let scaleFactor := de_scaleFactor de in
    (float_mul (de_xOffset de) scaleFactor, float_mul (de_yOffset de) scaleFactor,
     if negb (SFeqb scaleFactor one) then map (fun p => (fst p, scale scaleFactor (snd p))) pointers else pointers)
  else
    (zero, zero,
     if has (de_targetFlags de) FLAG_ZERO_COORDS
     then map (fun p => (fst p, mkCoords 0 (replicate MAX_AXES zero))) pointers else pointers).

Definition publish (fd : Z) (de : DispatchEntry) (e : EventEntry) : M K Z :=
  match entry_type e with
  | KEY k =>
      publishKeyEvent fd (de_seq de) (ke_deviceId k) (ke_source k) (de_resolvedAction de) (de_resolvedFlags de)
        (ke_keyCode k) (ke_scanCode k) (ke_metaState k) (ke_repeatCount k) (ke_downTime k) (eventTime e)
  | MOTION m =>
      let '(xOffset, yOffset, pointers) := outgoing_coords de m in
      publishMotionEvent fd (de_seq de) (me_deviceId m) (me_source m) (de_resolvedAction de) (de_resolvedFlags de)
        (me_edgeFlags m) (me_metaState m) (me_buttonState m) xOffset yOffset (me_xPrecision m) (me_yPrecision m)
        (me_downTime m) (eventTime e) pointers
  | _ => undefined
  end.

Definition delivered_at (t : Z) (de : DispatchEntry) : DispatchEntry :=
  mkDispatch (de_seq de) (de_event de) (de_targetFlags de) (de_xOffset de) (de_yOffset de) (de_scaleFactor de) t
    (de_resolvedAction de) (de_resolvedFlags de).

Definition releaseDispatchEntryLocked (de : DispatchEntry) : D unit := release (de_event de).

(** Each drained queue is emptied entry by entry. *)
Fixpoint drain_outbound (n : nat) (c : nat) : D unit :=
  conn ← connection c ;
  match outboundQueue conn with
  | [] => mret tt
  | de :: q =>
      match n with
      | O => wait
      | S n' =>
          update_connection c (with_queues q (waitQueue conn)) ;;
          releaseDispatchEntryLocked de ;; drain_outbound n' c
      end
  end.

Fixpoint drain_wait (n : nat) (c : nat) : D unit :=
  conn ← connection c ;
  match waitQueue conn with
  | [] => mret tt
  | de :: q =>
      match n with
      | O => wait
      | S n' =>
          update_connection c (with_queues (outboundQueue conn) q) ;;
          releaseDispatchEntryLocked de ;; drain_wait n' c
      end
  end.

Definition onDispatchCycleBrokenLocked (c : nat) : D unit := postCommandLocked (doNotifyInputChannelBroken c).

Definition abortBrokenDispatchCycleLocked (c : nat) (notify : bool) : D unit :=
  conn ← connection c ;
  drain_outbound (length (outboundQueue conn)) c ;;
  drain_wait (length (waitQueue conn)) c ;;
  conn ← connection c ;
  if decide (cn_status conn = STATUS_NORMAL) then
    update_connection c (with_status STATUS_BROKEN) ;;
    if notify then onDispatchCycleBrokenLocked c else mret tt
  else mret tt.

(** The loop of [startDispatchCycleLocked]; an entry leaves the outbound queue in
    every turn but the last. *)
Fixpoint start_cycle (n : nat) (currentTime : Z) (c : nat) : D unit :=
  conn ← connection c ;
  match cn_status conn, outboundQueue conn with
  | STATUS_NORMAL, de :: q =>
      match n with
      | O => wait
      | S n' =>
          let de := delivered_at currentTime de in
          update_connection c (with_queues (de :: q) (waitQueue conn)) ;;
          e ← entry (de_event de) ;
          status ← zoom world_lens (publish (channel_fd (cn_channel conn)) de e) ;
          if negb (status =? OK) then
            if (status =? WOULD_BLOCK) && negb (bool_decide (waitQueue conn = [])) then
              update_connection c (with_blocked true)
            else abortBrokenDispatchCycleLocked c true
          else
            update_connection c (with_queues q (waitQueue conn ++ [de])) ;;
            start_cycle n' currentTime c
      end
  | _, _ => mret tt
  end.

Definition startDispatchCycleLocked (currentTime : Z) (c : nat) : D unit :=
  conn ← connection c ;
  start_cycle (length (outboundQueue conn)) currentTime c.

Definition enqueueDispatchEntriesLocked (currentTime : Z) (c a : nat) (target : InputTarget) : D unit :=
  conn ← connection c ;
  let wasEmpty := bool_decide (outboundQueue conn = []) in
  for_each [FLAG_DISPATCH_AS_HOVER_EXIT; FLAG_DISPATCH_AS_OUTSIDE; FLAG_DISPATCH_AS_HOVER_ENTER; FLAG_DISPATCH_AS_IS;
            FLAG_DISPATCH_AS_SLIPPERY_EXIT; FLAG_DISPATCH_AS_SLIPPERY_ENTER]
    (enqueueDispatchEntryLocked c a target) ;;
  conn ← connection c ;
  if wasEmpty && negb (bool_decide (outboundQueue conn = []))
  then startDispatchCycleLocked currentTime c else mret tt.

(** ** Splitting *)

(** The position of the pointer in the split event; the search ends, for the
    pointer is one of them. *)
Fixpoint split_index (i : Z) (pointerId : Z) (l : list (PointerProperties * PointerCoords)) : option Z :=
  match l with
  | [] => None
  | p :: l' => if pp_id (fst p) =? pointerId then Some i else split_index (i + 1) pointerId l'
  end.

Definition split_pointers (m : MotionEntry) (pointerIds : Z) : list (PointerProperties * PointerCoords) :=
  List.filter (fun p => hasBit pointerIds (pp_id (fst p))) (me_pointers m).

(** The action of the split event; reaching past the pointers is undefined. *)
Definition split_action (m : MotionEntry) (pointerIds : Z) : option Z :=
  let maskedAction := Z.land (me_action m) AMOTION_EVENT_ACTION_MASK in
  if (maskedAction =? AMOTION_EVENT_ACTION_POINTER_DOWN) || (maskedAction =? AMOTION_EVENT_ACTION_POINTER_UP) then
    p ← me_pointers m !! Z.to_nat (getMotionEventActionPointerIndex (me_action m)) ;
    let pointerId := pp_id (fst p) in
    if hasBit pointerIds pointerId then
      if bit_count pointerIds =? 1 then
        Some (if maskedAction =? AMOTION_EVENT_ACTION_POINTER_DOWN then AMOTION_EVENT_ACTION_DOWN else AMOTION_EVENT_ACTION_UP)
      else
        i ← split_index 0 pointerId (split_pointers m pointerIds) ;
        Some (Z.lor maskedAction (Z.shiftl i AMOTION_EVENT_ACTION_POINTER_INDEX_SHIFT))
    else Some AMOTION_EVENT_ACTION_MOVE
  else Some (me_action m).

Definition splitMotionEvent (e : EventEntry) (m : MotionEntry) (pointerIds : Z) : D (option nat) :=
  if pointerIds =? 0 then undefined
  else
    let pointers := split_pointers m pointerIds in
    if negb (Z.of_nat (length pointers) =? bit_count pointerIds) then mret None
    else
      action ← deref (fun _ => split_action m pointerIds) ;
      a ← new_entry (EventEntry_new (eventTime e) (entry_policyFlags e)
        (MOTION (mkMotionEntry (me_deviceId m) (me_source m) action (me_flags m) (me_metaState m) (me_buttonState m)
           (me_edgeFlags m) (me_xPrecision m) (me_yPrecision m) (me_downTime m) pointers))) ;
      mret (Some a).

Definition prepareDispatchCycleLocked (currentTime : Z) (c a : nat) (target : InputTarget) : D unit :=
  conn ← connection c ;
  if negb (bool_decide (cn_status conn = STATUS_NORMAL)) then mret tt
  else if has (it_flags target) FLAG_SPLIT then
    e ← entry a ;
    match entry_type e with
    | MOTION m =>
        if negb (bit_count (it_pointerIds target) =? Z.of_nat (length (me_pointers m))) then
          split ← splitMotionEvent e m (it_pointerIds target) ;
          match split with
          | None => mret tt
          | Some b => enqueueDispatchEntriesLocked currentTime c b target ;; release b
          end
        else enqueueDispatchEntriesLocked currentTime c a target
    | _ => undefined
    end
  else enqueueDispatchEntriesLocked currentTime c a target.

(** The targets in order; a channel that is no longer registered is passed over. *)
Definition dispatchEventLocked (currentTime : Z) (a : nat) (targets : list InputTarget) : D unit :=
  e ← entry a ;
  if negb (dispatchInProgress e) then undefined
  else
    for_each targets (fun target =>
      index ← getConnectionIndexLocked (it_channel target) ;
      match index with
      | Some c => prepareDispatchCycleLocked currentTime c a target
      | None => mret tt
      end).

(** ** Cancelation *)

Definition getWindowHandleLocked (channel : InputChannel) (f : Focus) : option nat :=
  List.find (fun w => bool_decide ((fo_handles f !! w ≫= wh_info) ≫= (fun i => Some (channel_object (wi_channel i))) =
                                   Some (channel_object channel))) (mWindowHandles f).

(** Where the events made for a connection go. *)
Definition cancel_target (conn : Connection) (f : Focus) : InputTarget :=
  match getWindowHandleLocked (cn_channel conn) f ≫= (fun w => fo_handles f !! w ≫= wh_info) with
  | Some info =>
      mkInputTarget (cn_channel conn) FLAG_DISPATCH_AS_IS (float_of_Z (- frameLeft info)) (float_of_Z (- frameTop info))
        (scaleFactor info) 0
  | None => mkInputTarget (cn_channel conn) FLAG_DISPATCH_AS_IS zero zero one 0
  end.

Definition synthesizeCancelationEventsForConnectionLocked (c : nat) (options : CancelationOptions) : D unit :=
  conn ← connection c ;
  if bool_decide (cn_status conn = STATUS_BROKEN) then mret tt
  else
    currentTime ← clock ;
    let events := synthesizeCancelationEvents currentTime options (cn_state conn) in
    match events with
    | [] => mret tt
    | _ =>
        addresses ← new_entries events ;
        target ← gets (fun d => cancel_target conn (d_focus d)) ;
        for_each addresses (fun a =>
          enqueueDispatchEntryLocked c a target FLAG_DISPATCH_AS_IS ;;
          release a) ;;
        startDispatchCycleLocked currentTime c
    end.

Definition synthesizeCancelationEventsForAllConnectionsLocked (options : CancelationOptions) : D unit :=
  byFd ← gets mConnectionsByFd ;
  for_each byFd (fun p => synthesizeCancelationEventsForConnectionLocked (snd p) options).

Definition synthesizeCancelationEventsForInputChannelLocked (channel : InputChannel) (options : CancelationOptions) : D unit :=
  index ← getConnectionIndexLocked channel ;
  match index with
  | Some c => synthesizeCancelationEventsForConnectionLocked c options
  | None => mret tt
  end.

End Cycle.
