(* ===== verification/DispatchTargets.v ===== *)
(** * The input dispatcher: which windows get an event

    The parts of [InputDispatcher]
    ([3rd_party/android-input/android/frameworks/base/services/input/InputDispatcher.cpp],
    [InputWindow.cpp]) that choose the targets of an event: the focused window for
    keys and trackballs, the touched windows for pointers, and the wait for
    windows that are not ready.

    The functions jump to [Failed] or [Unresponsive]; a stage of them ends in one
    of three ways.  [mTempTouchState] holds nothing between calls, and is a value
    passed between the stages.  To use the information of a handle that has none,
    to read a pointer that the event does not have, and to convert a coordinate
    that is no 32-bit integer are undefined behaviour. *)

From Stdlib Require Import SpecFloat.
From S2P Require Import Prelude Geometry Input AndroidEvents InputTransport InputState Dispatcher.

(** ** Windows *)

Definition FLAG_NOT_FOCUSABLE : Z := 8.
Definition FLAG_NOT_TOUCHABLE : Z := 16.
Definition FLAG_WATCH_OUTSIDE_TOUCH : Z := 262144.
Definition FLAG_SPLIT_TOUCH : Z := 8388608.
Definition FLAG_SLIPPERY : Z := 67108864.
Definition FLAG_SYSTEM_ERROR : Z := 1073741824.
Definition TYPE_INPUT_METHOD : Z := 2011.
Definition TYPE_INPUT_METHOD_DIALOG : Z := 2012.
Definition TYPE_WALLPAPER : Z := 2013.
Definition TYPE_SECURE_SYSTEM_OVERLAY : Z := 2015.

Definition touchableRegionContainsPoint (i : InputWindowInfo) (x y : Z) : bool :=
  (touchableRegionLeft i <=? x) && (x <=? touchableRegionRight i) &&
  (touchableRegionTop i <=? y) && (y <=? touchableRegionBottom i).

Definition frameContainsPoint (i : InputWindowInfo) (x y : Z) : bool :=
  (frameLeft i <=? x) && (x <=? frameRight i) && (frameTop i <=? y) && (y <=? frameBottom i).

Definition isTrustedOverlay (i : InputWindowInfo) : bool :=
  (layoutParamsType i =? TYPE_INPUT_METHOD) || (layoutParamsType i =? TYPE_INPUT_METHOD_DIALOG)
  || (layoutParamsType i =? TYPE_SECURE_SYSTEM_OVERLAY).

Definition supportsSplitTouch (i : InputWindowInfo) : bool := has (layoutParamsFlags i) FLAG_SPLIT_TOUCH.

(** ** The touch state *)

Definition TouchState_new : TouchState := mkTouchState false false (-1) 0 [].

Definition same_window (w : nat) (t : TouchedWindow) : bool := (tw_window t =? w)%nat.

Definition merge_window (targetFlags pointerIds : Z) (t : TouchedWindow) : TouchedWindow :=
  let flags := Z.lor (tw_flags t) targetFlags in
  mkTouched (tw_window t)
    (if has targetFlags FLAG_DISPATCH_AS_SLIPPERY_EXIT then Z.ldiff flags FLAG_DISPATCH_AS_IS else flags)
    (Z.lor (tw_pointerIds t) pointerIds).

Fixpoint add_window (w : nat) (targetFlags pointerIds : Z) (l : list TouchedWindow) : list TouchedWindow :=
  match l with
  | [] => [mkTouched w targetFlags pointerIds]
  | t :: l' =>
      if same_window w t then merge_window targetFlags pointerIds t :: l'
      else t :: add_window w targetFlags pointerIds l'
  end.

Definition set_ts_windows (l : list TouchedWindow) (s : TouchState) : TouchState :=
  mkTouchState (ts_down s) (ts_split s) (ts_deviceId s) (ts_source s) l.

Definition addOrUpdateWindow (w : nat) (targetFlags pointerIds : Z) (s : TouchState) : TouchState :=
  mkTouchState (ts_down s) (has targetFlags FLAG_SPLIT || ts_split s) (ts_deviceId s) (ts_source s)
    (add_window w targetFlags pointerIds (ts_windows s)).

Fixpoint remove_window (w : nat) (l : list TouchedWindow) : list TouchedWindow :=
  match l with
  | [] => []
  | t :: l' => if same_window w t then l' else t :: remove_window w l'
  end.

Definition removeWindow (w : nat) (s : TouchState) : TouchState := set_ts_windows (remove_window w (ts_windows s)) s.

Definition is_as_is (t : TouchedWindow) : bool :=
  has (tw_flags t) (Z.lor FLAG_DISPATCH_AS_IS FLAG_DISPATCH_AS_SLIPPERY_ENTER).

Definition made_as_is (t : TouchedWindow) : TouchedWindow :=
  mkTouched (tw_window t) (Z.lor (Z.ldiff (tw_flags t) FLAG_DISPATCH_MASK) FLAG_DISPATCH_AS_IS) (tw_pointerIds t).

Definition filterNonAsIsTouchWindows (s : TouchState) : TouchState :=
  set_ts_windows (map made_as_is (List.filter is_as_is (ts_windows s))) s.

Definition is_foreground (t : TouchedWindow) : bool := has (tw_flags t) FLAG_FOREGROUND.

Definition getFirstForegroundWindowHandle (s : TouchState) : option nat :=
  tw_window <$> List.find is_foreground (ts_windows s).

(** ** The coordinates of a touch *)

(** The conversion of a [float] to [int32_t]. *)
Definition int_of_float (x : float) : option Z :=
  match x with
  | S754_zero _ => Some 0
  | S754_finite s m e =>
      let v := if 0 <=? e then Z.pos m * 2 ^ e else Z.pos m / 2 ^ (- e) in
      let z := if s then - v else v in
      if (-2147483648 <=? z) && (z <=? 2147483647) then Some z else None
  | _ => None
  end.

Inductive InjectionResult : Set :=
| INPUT_EVENT_INJECTION_PENDING | INPUT_EVENT_INJECTION_SUCCEEDED | INPUT_EVENT_INJECTION_PERMISSION_DENIED
| INPUT_EVENT_INJECTION_FAILED | INPUT_EVENT_INJECTION_TIMED_OUT.

(** How a stage ends: it goes on, or jumps to [Failed] with the touch state so
    far, or to [Unresponsive] with the time to wake up at. *)
Inductive stage (X A : Type) : Type :=
| Next (a : A)
| Failed (work : X) (result : InjectionResult)
| Unresponsive (result : InjectionResult) (nextWakeupTime : Z).
Arguments Next {X A} a.
Arguments Failed {X A} work result.
Arguments Unresponsive {X A} result nextWakeupTime.

(** What [findTouchedWindowTargetsLocked] keeps in its variables. *)
Record TouchWork : Set := mkWork {
  wk_temp : TouchState;
  wk_split : bool;
  wk_switchedDevice : bool;
  wk_wrongDevice : bool;
  wk_newHover : option nat;
}.

Definition wk_set_temp (t : TouchState) (w : TouchWork) : TouchWork :=
  mkWork t (wk_split w) (wk_switchedDevice w) (wk_wrongDevice w) (wk_newHover w).
Definition wk_set_split (b : bool) (w : TouchWork) : TouchWork :=
  mkWork (wk_temp w) b (wk_switchedDevice w) (wk_wrongDevice w) (wk_newHover w).
Definition wk_set_hover (h : option nat) (w : TouchWork) : TouchWork :=
  mkWork (wk_temp w) (wk_split w) (wk_switchedDevice w) (wk_wrongDevice w) h.

Definition is_hover (maskedAction : Z) : bool :=
  (maskedAction =? AMOTION_EVENT_ACTION_HOVER_MOVE) || (maskedAction =? AMOTION_EVENT_ACTION_HOVER_ENTER)
  || (maskedAction =? AMOTION_EVENT_ACTION_HOVER_EXIT).

Definition is_new_gesture (maskedAction : Z) : bool :=
  (maskedAction =? AMOTION_EVENT_ACTION_DOWN) || (maskedAction =? AMOTION_EVENT_ACTION_SCROLL) || is_hover maskedAction.

Definition masked_action (m : MotionEntry) : Z := Z.land (me_action m) AMOTION_EVENT_ACTION_MASK.

Section Targets.
Context {K : Type} `{InputWorld K}.
Abbreviation D := (M (Dispatcher K)).
Abbreviation stageD A := (M (Dispatcher K) (stage TouchWork A)).

(** [and_then s k]: the next stage, unless there was a jump. *)
Definition and_then {X A B} (s : D (stage X A)) (k : A -> D (stage X B)) : D (stage X B) :=
  r ← s ;
  match r with
  | Next a => k a
  | Failed w res => mret (Failed w res)
  | Unresponsive res t => mret (Unresponsive res t)
  end.

Definition getInfo (w : nat) : D InputWindowInfo := deref (fun d => fo_handles (d_focus d) !! w ≫= wh_info).

Definition point_of (m : MotionEntry) (index : nat) : D (Z * Z) :=
  p ← deref (fun _ => me_pointers m !! index) ;
  x ← deref (fun _ => int_of_float (getX (snd p))) ;
  y ← deref (fun _ => int_of_float (getY (snd p))) ;
  mret (x, y).

(** ** Waiting for targets *)

Definition resetANRTimeoutsLocked : D unit :=
  modify (fun d => let w := d_wait d in
    set_wait (mkTargetWait INPUT_TARGET_WAIT_CAUSE_NONE (tgw_startTime w) (tgw_timeoutTime w) (tgw_expired w) None) d).

Definition window_timeout (w : nat) (f : Focus) : Z :=
  match fo_handles f !! w ≫= wh_info with
  | Some i => dispatchingTimeout i
  | None => DEFAULT_INPUT_DISPATCHING_TIMEOUT
  end.

Definition application_timeout (a : nat) (f : Focus) : Z :=
  match fo_applications f !! a with
  | Some (Some i) => ai_dispatchingTimeout i
  | _ => DEFAULT_INPUT_DISPATCHING_TIMEOUT
  end.

(** What is being waited for, from now on or still. *)
Definition targets_wait (currentTime : Z) (application window : option nat) (f : Focus) (w : TargetWait) : TargetWait :=
  match application, window with
  | None, None =>
      if decide (tgw_cause w = INPUT_TARGET_WAIT_CAUSE_SYSTEM_NOT_READY) then w
      else mkTargetWait INPUT_TARGET_WAIT_CAUSE_SYSTEM_NOT_READY currentTime LONG_LONG_MAX false None
  | _, _ =>
      if decide (tgw_cause w = INPUT_TARGET_WAIT_CAUSE_APPLICATION_NOT_READY) then w
      else
        let timeout :=
          match window, application with
          | Some w, _ => window_timeout w f
          | None, Some a => application_timeout a f
          | None, None => DEFAULT_INPUT_DISPATCHING_TIMEOUT
          end in
        let waited :=
          match (w ← window ; h ← fo_handles f !! w ; inputApplicationHandle h) with
          | Some a => Some a
          | None => application
          end in
        mkTargetWait INPUT_TARGET_WAIT_CAUSE_APPLICATION_NOT_READY currentTime (currentTime + timeout) false waited
  end.

Definition handleTargetsNotReadyLocked (currentTime : Z) (application window : option nat) (nextWakeupTime : Z)
    : D (InjectionResult * Z) :=
  modify (fun d => set_wait (targets_wait currentTime application window (d_focus d) (d_wait d)) d) ;;
  w ← gets d_wait ;
  if tgw_expired w then mret (INPUT_EVENT_INJECTION_TIMED_OUT, nextWakeupTime)
  else if tgw_timeoutTime w <=? currentTime then
    postCommandLocked (doNotifyANR application window) ;;
    mret (INPUT_EVENT_INJECTION_PENDING, LONG_LONG_MIN)
  else mret (INPUT_EVENT_INJECTION_PENDING, Z.min (tgw_timeoutTime w) nextWakeupTime).

(** Jump to [Unresponsive]. *)
Definition not_ready {A} (currentTime : Z) (application window : option nat) (nextWakeupTime : Z) : stageD A :=
  r ← handleTargetsNotReadyLocked currentTime application window nextWakeupTime ;
  mret (Unresponsive (fst r) (snd r)).

Definition isWindowReadyForMoreInputLocked (currentTime : Z) (w : nat) (is_key : bool) : D bool :=
  info ← getInfo w ;
  index ← getConnectionIndexLocked (wi_channel info) ;
  match index with
  | None => mret true
  | Some c =>
      conn ← connection c ;
      if cn_blocked conn then mret false
      else if is_key then mret (bool_decide (outboundQueue conn = []) && bool_decide (waitQueue conn = []))
      else
        match waitQueue conn with
        | [] => mret true
        | de :: _ =>
            e ← entry (de_event de) ;
            mret (negb (eventTime e + STREAM_AHEAD_EVENT_TIMEOUT <=? currentTime))
        end
  end.

Definition addWindowTargetLocked (w : nat) (targetFlags pointerIds : Z) : D InputTarget :=
  i ← getInfo w ;
  mret (mkInputTarget (wi_channel i) targetFlags (float_of_Z (- frameLeft i)) (float_of_Z (- frameTop i)) (scaleFactor i)
          pointerIds).

Definition addMonitoringTargetsLocked : D (list InputTarget) :=
  gets (fun d => map (fun c => mkInputTarget c FLAG_DISPATCH_AS_IS zero zero one 0) (mMonitoringChannels (d_focus d))).

(** ** The focused window *)

Definition findFocusedWindowTargetsLocked (currentTime : Z) (is_key : bool) (nextWakeupTime : Z)
    : D (InjectionResult * list InputTarget * Z) :=
  f ← gets d_focus ;
  match mFocusedWindowHandle f with
  | None =>
      match mFocusedApplicationHandle f with
      | Some app =>
          r ← handleTargetsNotReadyLocked currentTime (Some app) None nextWakeupTime ;
          mret (fst r, [], snd r)
      | None => mret (INPUT_EVENT_INJECTION_FAILED, [], nextWakeupTime)
      end
  | Some w =>
      info ← getInfo w ;
      ready ← (if paused info then mret false else isWindowReadyForMoreInputLocked currentTime w is_key : D bool) ;
      if (ready : bool) then
        t ← addWindowTargetLocked w (Z.lor FLAG_FOREGROUND FLAG_DISPATCH_AS_IS) 0 ;
        mret (INPUT_EVENT_INJECTION_SUCCEEDED, [t], nextWakeupTime)
      else
        r ← handleTargetsNotReadyLocked currentTime (mFocusedApplicationHandle f) (Some w) nextWakeupTime ;
        mret (fst r, [], snd r)
  end.

(** ** The touched windows *)

Definition takes_touch (i : InputWindowInfo) (x y : Z) : bool :=
  wi_visible i && negb (has (layoutParamsFlags i) FLAG_NOT_TOUCHABLE) &&
  (negb (has (layoutParamsFlags i) (Z.lor FLAG_NOT_FOCUSABLE FLAG_NOT_TOUCH_MODAL)) || touchableRegionContainsPoint i x y).

Fixpoint find_touched (ws : list nat) (x y : Z) : D (option nat) :=
  match ws with
  | [] => mret None
  | w :: ws' =>
      i ← getInfo w ;
      if takes_touch i x y then mret (Some w)
      else if has (layoutParamsFlags i) FLAG_SYSTEM_ERROR then mret None
      else find_touched ws' x y
  end.

Definition findTouchedWindowAtLocked (x y : Z) : D (option nat) :=
  ws ← gets (fun d => mWindowHandles (d_focus d)) ; find_touched ws x y.

Fixpoint obscured_by (ws : list nat) (w : nat) (x y : Z) : D bool :=
  match ws with
  | [] => mret false
  | o :: ws' =>
      if (o =? w)%nat then mret false
      else
        i ← getInfo o ;
        if wi_visible i && negb (isTrustedOverlay i) && frameContainsPoint i x y then mret true
        else obscured_by ws' w x y
  end.

Definition isWindowObscuredAtPointLocked (w : nat) (x y : Z) : D bool :=
  ws ← gets (fun d => mWindowHandles (d_focus d)) ; obscured_by ws w x y.

Definition obscured_flag (b : bool) : Z := if b then FLAG_WINDOW_IS_OBSCURED else 0.
Definition split_flag (b : bool) : Z := if b then FLAG_SPLIT else 0.

Fixpoint slippery (found : bool) (l : list TouchedWindow) : D bool :=
  match l with
  | [] => mret found
  | t :: l' =>
      if is_foreground t then
        if found then mret false
        else
          i ← getInfo (tw_window t) ;
          if has (layoutParamsFlags i) FLAG_SLIPPERY then slippery true l' else mret false
      else slippery found l'
  end.

Definition isSlippery (s : TouchState) : D bool := slippery false (ts_windows s).

(** The windows from front to back: the one that is touched, the first error
    window, and the windows above that watch touches outside of them. *)
Fixpoint find_new_touched (ws : list nat) (down : bool) (x y : Z) (topError : option nat) (temp : TouchState)
    : D (option nat * option nat * TouchState) :=
  match ws with
  | [] => mret (None, topError, temp)
  | w :: ws' =>
      i ← getInfo w ;
      let topError := if has (layoutParamsFlags i) FLAG_SYSTEM_ERROR && bool_decide (topError = None) then Some w else topError in
      if takes_touch i x y then mret (Some w, topError, temp)
      else if wi_visible i && down && has (layoutParamsFlags i) FLAG_WATCH_OUTSIDE_TOUCH then
        obscured ← isWindowObscuredAtPointLocked w x y ;
        find_new_touched ws' down x y topError
          (addOrUpdateWindow w (Z.lor FLAG_DISPATCH_AS_OUTSIDE (obscured_flag obscured)) 0 temp)
      else find_new_touched ws' down x y topError temp
  end.

(** What the touch starts from; a gesture of another device is left alone while
    a pointer is down. *)
Definition touch_begin (m : MotionEntry) (s : TouchState) : stage TouchWork TouchWork :=
  let masked := masked_action m in
  let switchedDevice :=
    (0 <=? ts_deviceId s) && (negb (ts_deviceId s =? me_deviceId m) || negb (ts_source s =? me_source m)) in
  if is_new_gesture masked then
    let down := masked =? AMOTION_EVENT_ACTION_DOWN in
    if switchedDevice && ts_down s && negb down then
      Failed (mkWork s (ts_split s) false true None) INPUT_EVENT_INJECTION_FAILED
    else Next (mkWork (mkTouchState down false (me_deviceId m) (me_source m) []) false switchedDevice false None)
  else Next (mkWork s (ts_split s) switchedDevice false None).

(** Case 1: a new pointer that may be split, a hover or a scroll. *)
Definition touch_new (currentTime : Z) (m : MotionEntry) (nextWakeupTime : Z) (work : TouchWork) : stageD TouchWork :=
  let masked := masked_action m in
  let down := masked =? AMOTION_EVENT_ACTION_DOWN in
  let pointerIndex := Z.to_nat (getMotionEventActionPointerIndex (me_action m)) in
  p ← point_of m pointerIndex ;
  let '(x, y) := p in
  f ← gets d_focus ;
  found ← find_new_touched (mWindowHandles f) down x y None (wk_temp work) ;
  let '(touched, topError, temp) := found in
  let work := wk_set_temp temp work in
  if negb (bool_decide (topError = None)) && negb (bool_decide (touched = topError)) then
    not_ready currentTime None None nextWakeupTime
  else
    supports ← (match touched with Some w => i ← getInfo w ; mret (supportsSplitTouch i) | None => mret false end : D bool) ;
    let touched := if negb supports && wk_split work then None else touched in
    let split := supports || wk_split work in
    let work := wk_set_split split work in
    let touched := match touched with Some w => Some w | None => getFirstForegroundWindowHandle temp end in
    match touched with
    | None =>
        if down && negb (bool_decide (mFocusedApplicationHandle f = None))
        then not_ready currentTime (mFocusedApplicationHandle f) None nextWakeupTime
        else mret (Failed work INPUT_EVENT_INJECTION_FAILED)
    | Some w =>
        obscured ← isWindowObscuredAtPointLocked w x y ;
        let flags := Z.lor (Z.lor (Z.lor FLAG_FOREGROUND FLAG_DISPATCH_AS_IS) (split_flag split)) (obscured_flag obscured) in
        let hover := if is_hover masked then Some w
                     else if masked =? AMOTION_EVENT_ACTION_SCROLL then mLastHoverWindowHandle f else wk_newHover work in
        pointerIds ← (if split then
                        p ← deref (fun _ => me_pointers m !! pointerIndex) ; mret (markBit 0 (pp_id (fst p)))
                      else mret 0 : D Z) ;
        mret (Next (wk_set_hover hover (wk_set_temp (addOrUpdateWindow w flags pointerIds temp) work)))
    end.

(** Case 2: a move, an up, a cancel, or a pointer that cannot be split. *)
Definition touch_more (m : MotionEntry) (work : TouchWork) : stageD TouchWork :=
  let temp := wk_temp work in
  if negb (ts_down temp) then mret (Failed work INPUT_EVENT_INJECTION_FAILED)
  else
    slips ← (if (masked_action m =? AMOTION_EVENT_ACTION_MOVE) && (length (me_pointers m) =? 1)%nat
             then isSlippery temp else mret false : D bool) ;
    if (slips : bool) then
      p ← point_of m 0 ;
      let '(x, y) := p in
      let old := getFirstForegroundWindowHandle temp in
      new ← findTouchedWindowAtLocked x y ;
      match new with
      | None => mret (Next work)
      | Some w =>
          if bool_decide (old = Some w) then mret (Next work)
          else
            o ← deref (fun _ => old) ;
            let temp := addOrUpdateWindow o FLAG_DISPATCH_AS_SLIPPERY_EXIT 0 temp in
            i ← getInfo w ;
            let split := supportsSplitTouch i || wk_split work in
            obscured ← isWindowObscuredAtPointLocked w x y ;
            let flags := Z.lor (Z.lor (Z.lor FLAG_FOREGROUND FLAG_DISPATCH_AS_SLIPPERY_ENTER) (split_flag split))
                           (obscured_flag obscured) in
            pointerIds ← (if split then p ← deref (fun _ => me_pointers m !! 0%nat) ; mret (markBit 0 (pp_id (fst p)))
                          else mret 0 : D Z) ;
            mret (Next (wk_set_split split (wk_set_temp (addOrUpdateWindow w flags pointerIds temp) work)))
      end
    else mret (Next work).

(** The windows that the hover leaves and enters. *)
Definition touch_hover (last : option nat) (work : TouchWork) : TouchWork :=
  if bool_decide (wk_newHover work = last) then work
  else
    let temp := match last with
                | Some w => addOrUpdateWindow w FLAG_DISPATCH_AS_HOVER_EXIT 0 (wk_temp work) | None => wk_temp work end in
    let temp := match wk_newHover work with
                | Some w => addOrUpdateWindow w FLAG_DISPATCH_AS_HOVER_ENTER 0 temp | None => temp end in
    wk_set_temp temp work.

(** A window of another user that watches outside touches is not told where. *)
Fixpoint hide_coords (uid : Z) (ws : list TouchedWindow) (temp : TouchState) : D TouchState :=
  match ws with
  | [] => mret temp
  | t :: ws' =>
      if has (tw_flags t) FLAG_DISPATCH_AS_OUTSIDE then
        i ← getInfo (tw_window t) ;
        hide_coords uid ws'
          (if negb (ownerUid i =? uid) then addOrUpdateWindow (tw_window t) FLAG_ZERO_COORDS 0 temp else temp)
      else hide_coords uid ws' temp
  end.

(** All touched foreground windows must be ready. *)
Fixpoint touch_ready (currentTime nextWakeupTime : Z) (ws : list TouchedWindow) : stageD unit :=
  match ws with
  | [] => mret (Next tt)
  | t :: ws' =>
      if is_foreground t then
        i ← getInfo (tw_window t) ;
        ready ← (if paused i then mret false else isWindowReadyForMoreInputLocked currentTime (tw_window t) false : D bool) ;
        if (ready : bool) then touch_ready currentTime nextWakeupTime ws'
        else not_ready currentTime None (Some (tw_window t)) nextWakeupTime
      else touch_ready currentTime nextWakeupTime ws'
  end.

(** The wallpaper behind the window that is touched first. *)
Fixpoint add_wallpapers (ws : list nat) (temp : TouchState) : D TouchState :=
  match ws with
  | [] => mret temp
  | w :: ws' =>
      i ← getInfo w ;
      add_wallpapers ws'
        (if layoutParamsType i =? TYPE_WALLPAPER
         then addOrUpdateWindow w (Z.lor FLAG_WINDOW_IS_OBSCURED FLAG_DISPATCH_AS_IS) 0 temp else temp)
  end.

Fixpoint window_targets (ws : list TouchedWindow) : D (list InputTarget) :=
  match ws with
  | [] => mret []
  | t :: ws' =>
      target ← addWindowTargetLocked (tw_window t) (tw_flags t) (tw_pointerIds t) ;
      rest ← window_targets ws' ; mret (target :: rest)
  end.

(** From the hover on: the targets, and the touch state without the windows that
    are told only once. *)
Definition touch_targets (currentTime : Z) (m : MotionEntry) (nextWakeupTime : Z) (work : TouchWork)
    : stageD (TouchWork * list InputTarget) :=
  let down := masked_action m =? AMOTION_EVENT_ACTION_DOWN in
  f ← gets d_focus ;
  let work := touch_hover (mLastHoverWindowHandle f) work in
  if negb (existsb is_foreground (ts_windows (wk_temp work))) then mret (Failed work INPUT_EVENT_INJECTION_FAILED)
  else
    temp ← (if down then
              w ← deref (fun _ => getFirstForegroundWindowHandle (wk_temp work)) ;
              i ← getInfo w ;
              hide_coords (ownerUid i) (ts_windows (wk_temp work)) (wk_temp work)
            else mret (wk_temp work) : D TouchState) ;
    and_then (touch_ready currentTime nextWakeupTime (ts_windows temp)) (fun _ =>
      temp ← (if down then
                w ← deref (fun _ => getFirstForegroundWindowHandle temp) ;
                i ← getInfo w ;
                if hasWallpaper i then add_wallpapers (mWindowHandles f) temp else mret temp
              else mret temp : D TouchState) ;
      targets ← window_targets (ts_windows temp) ;
      mret (Next (wk_set_temp (filterNonAsIsTouchWindows temp) work, targets))).

Definition touch_find (currentTime : Z) (m : MotionEntry) (nextWakeupTime : Z) : stageD (TouchWork * list InputTarget) :=
  s ← gets (fun d => mTouchState (d_focus d)) ;
  and_then (mret (touch_begin m s)) (fun work =>
  and_then (if is_new_gesture (masked_action m)
               || wk_split work && (masked_action m =? AMOTION_EVENT_ACTION_POINTER_DOWN)
            then touch_new currentTime m nextWakeupTime work else touch_more m work)
    (touch_targets currentTime m nextWakeupTime)).

(** A pointer leaves a split window; a window it was the last of is left out. *)
Fixpoint lift_pointer (pointerId : Z) (l : list TouchedWindow) : list TouchedWindow :=
  match l with
  | [] => []
  | t :: l' =>
      if has (tw_flags t) FLAG_SPLIT then
        let bits := clearBit (tw_pointerIds t) pointerId in
        if bits =? 0 then lift_pointer pointerId l'
        else mkTouched (tw_window t) (tw_flags t) bits :: lift_pointer pointerId l'
      else t :: lift_pointer pointerId l'
  end.

(** [Failed:], the touch state that is kept; true for conflicting pointer
    actions. *)
Definition touch_commit (m : MotionEntry) (work : TouchWork) : D bool :=
  if wk_wrongDevice work then mret false
  else
    let masked := masked_action m in
    s ← gets (fun d => mTouchState (d_focus d)) ;
    r ← (if is_hover masked then
           mret (wk_switchedDevice work || ts_down s,
             if (masked =? AMOTION_EVENT_ACTION_HOVER_ENTER) || (masked =? AMOTION_EVENT_ACTION_HOVER_MOVE)
             then mkTouchState false false (me_deviceId m) (me_source m) [] else TouchState_new)
         else if (masked =? AMOTION_EVENT_ACTION_UP) || (masked =? AMOTION_EVENT_ACTION_CANCEL) then
           mret (wk_switchedDevice work, TouchState_new)
         else if masked =? AMOTION_EVENT_ACTION_DOWN then mret (wk_switchedDevice work || ts_down s, wk_temp work)
         else if masked =? AMOTION_EVENT_ACTION_POINTER_UP then
           if wk_split work then
             p ← deref (fun _ => me_pointers m !! Z.to_nat (getMotionEventActionPointerIndex (me_action m))) ;
             mret (wk_switchedDevice work,
                   set_ts_windows (lift_pointer (pp_id (fst p)) (ts_windows (wk_temp work))) (wk_temp work))
           else mret (wk_switchedDevice work, wk_temp work)
         else if masked =? AMOTION_EVENT_ACTION_SCROLL then mret (wk_switchedDevice work, s)
         else mret (wk_switchedDevice work, wk_temp work) : D (bool * TouchState)) ;
    modify (fun d => set_focus (with_hover (wk_newHover work) (with_touch (snd r) (d_focus d))) d) ;;
    mret (fst r).

(** The result, the targets, whether pointer actions conflict, and the time to
    wake up at. *)
Definition findTouchedWindowTargetsLocked (currentTime : Z) (m : MotionEntry) (nextWakeupTime : Z)
    : D (InjectionResult * list InputTarget * bool * Z) :=
  clock ;;
  r ← touch_find currentTime m nextWakeupTime ;
  match r with
  | Next (work, targets) =>
      conflict ← touch_commit m work ; mret (INPUT_EVENT_INJECTION_SUCCEEDED, targets, conflict, nextWakeupTime)
  | Failed work result => conflict ← touch_commit m work ; mret (result, [], conflict, nextWakeupTime)
  | Unresponsive result t => mret (result, [], false, t)
  end.

End Targets.
