(* ===== verification/DispatchLoop.v ===== *)
(** * The input dispatcher: queues, commands and interface

    The rest of [InputDispatcher]
    ([3rd_party/android-input/android/frameworks/base/services/input/InputDispatcher.cpp]):
    the inbound queue and what is dropped from it, key repeats, the dispatching of
    one event, the commands, and the functions that other components call.

    [dispatchOnce] is modelled up to the looper's [pollOnce], whose timeout it
    returns; the looper calls [handleReceiveCallback].  The commands and
    [notify*] release the lock around the policy; the policies of the server do
    nothing to the dispatcher meanwhile. *)

From Stdlib Require Import SpecFloat.
From S2P Require Import Prelude Geometry Input AndroidEvents InputTransport InputState Dispatcher DispatchTargets.

(** ** Constants *)

Definition POLICY_FLAG_SHIFT : Z := 4.
Definition POLICY_FLAG_CAPS_LOCK : Z := 8.
Definition POLICY_FLAG_ALT : Z := 16.
Definition POLICY_FLAG_ALT_GR : Z := 32.
Definition POLICY_FLAG_VIRTUAL : Z := 256.
Definition POLICY_FLAG_FUNCTION : Z := 512.
Definition POLICY_FLAG_RAW_MASK : Z := 65535.
Definition POLICY_FLAG_TRUSTED : Z := 33554432.
Definition POLICY_FLAG_FILTERED : Z := 67108864.
Definition POLICY_FLAG_DISABLE_KEY_REPEAT : Z := 134217728.
Definition POLICY_FLAG_WOKE_HERE : Z := 268435456.

Definition AKEY_EVENT_FLAG_WOKE_HERE : Z := 1.
Definition AKEY_EVENT_FLAG_VIRTUAL_HARD_KEY : Z := 64.
Definition AKEY_EVENT_FLAG_LONG_PRESS : Z := 128.
Definition AMETA_SHIFT_ON : Z := 1.
Definition AMETA_ALT_ON : Z := 2.
Definition AMETA_FUNCTION_ON : Z := 8.
Definition AMETA_ALT_LEFT_ON : Z := 16.
Definition AMETA_ALT_RIGHT_ON : Z := 32.
Definition AMETA_SHIFT_LEFT_ON : Z := 64.
Definition AMETA_CAPS_LOCK_ON : Z := 1048576.
Definition AKEYCODE_UNKNOWN : Z := 0.
Definition AKEYCODE_HOME : Z := 3.
Definition AKEYCODE_ENDCALL : Z := 6.

Definition ALOOPER_EVENT_INPUT : Z := 1.
Definition ALOOPER_EVENT_ERROR : Z := 4.
Definition ALOOPER_EVENT_HANGUP : Z := 8.

Inductive DropReason : Set :=
| DROP_REASON_NOT_DROPPED | DROP_REASON_POLICY | DROP_REASON_APP_SWITCH | DROP_REASON_DISABLED
| DROP_REASON_BLOCKED | DROP_REASON_STALE.

#[export] Instance DropReason_eq_dec : EqDecision DropReason.
Proof. solve_decision. Defined.

(** ** Pure helpers *)

Definition isAppSwitchKeyCode (keyCode : Z) : bool := (keyCode =? AKEYCODE_HOME) || (keyCode =? AKEYCODE_ENDCALL).

Definition isAppSwitchKeyEventLocked (e : EventEntry) (k : KeyEntry) : bool :=
  negb (has (ke_flags k) AKEY_EVENT_FLAG_CANCELED) && isAppSwitchKeyCode (ke_keyCode k) &&
  has (entry_policyFlags e) POLICY_FLAG_TRUSTED && has (entry_policyFlags e) POLICY_FLAG_PASS_TO_USER.

Definition isStaleEventLocked (currentTime : Z) (e : EventEntry) : bool := STALE_EVENT_TIMEOUT <=? currentTime - eventTime e.

Definition with_appSwitch (saw : bool) (due : Z) (m : Modes) : Modes :=
  mkModes (mDispatchEnabled m) (mDispatchFrozen m) (mInputFilterEnabled m) saw due.

(** [initializeKeyEvent(event, entry)]. *)
Definition key_input (e : EventEntry) (k : KeyEntry) : KeyInput :=
  mkKeyInput (ke_deviceId k) (ke_source k) (ke_action k) (ke_flags k) (ke_keyCode k) (ke_scanCode k) (ke_metaState k)
    (ke_repeatCount k) (ke_downTime k) (eventTime e).

Definition with_key (k : KeyEntry) (e : EventEntry) : EventEntry :=
  mkEntry (refCount e) (eventTime e) (entry_policyFlags e) (dispatchInProgress e) (KEY k).

Definition in_progress (e : EventEntry) : EventEntry :=
  mkEntry (refCount e) (eventTime e) (entry_policyFlags e) true (entry_type e).

Definition key_repeatCount (n : Z) (k : KeyEntry) : KeyEntry :=
  mkKeyEntry (ke_deviceId k) (ke_source k) (ke_action k) (ke_flags k) (ke_keyCode k) (ke_scanCode k) (ke_metaState k) n
    (ke_downTime k) (syntheticRepeat k) (interceptKeyResult k) (interceptKeyWakeupTime k).

Definition key_longPress (k : KeyEntry) : KeyEntry :=
  let flags := if ke_repeatCount k =? 1 then Z.lor (ke_flags k) AKEY_EVENT_FLAG_LONG_PRESS
               else Z.ldiff (ke_flags k) AKEY_EVENT_FLAG_LONG_PRESS in
  mkKeyEntry (ke_deviceId k) (ke_source k) (ke_action k) flags (ke_keyCode k) (ke_scanCode k) (ke_metaState k)
    (ke_repeatCount k) (ke_downTime k) (syntheticRepeat k) (interceptKeyResult k) (interceptKeyWakeupTime k).

Definition key_intercept (r : InterceptKeyResult) (wakeup : Z) (k : KeyEntry) : KeyEntry :=
  mkKeyEntry (ke_deviceId k) (ke_source k) (ke_action k) (ke_flags k) (ke_keyCode k) (ke_scanCode k) (ke_metaState k)
    (ke_repeatCount k) (ke_downTime k) (syntheticRepeat k) r wakeup.

(** The key as [recycle] leaves it, made the next repeat. *)
Definition repeated_key (k : KeyEntry) : KeyEntry :=
  mkKeyEntry (ke_deviceId k) (ke_source k) (ke_action k) (ke_flags k) (ke_keyCode k) (ke_scanCode k) (ke_metaState k)
    (ke_repeatCount k + 1) (ke_downTime k) true INTERCEPT_KEY_RESULT_UNKNOWN 0.

(** The key that takes the place of one the application did not handle. *)
Definition fallback_key (k : KeyEntry) (event : KeyInput) (fallbackKeyCode : Z) : KeyEntry :=
  mkKeyEntry (ki_deviceId event) (ki_source event) (ke_action k) (Z.lor (ki_flags event) AKEY_EVENT_FLAG_FALLBACK)
    fallbackKeyCode (ki_scanCode event) (ki_metaState event) (ki_repeatCount event) (ki_downTime event) false
    (interceptKeyResult k) (interceptKeyWakeupTime k).

Definition toMillisecondTimeoutDelay (referenceTime timeoutTime : Z) : Z :=
  if referenceTime <? timeoutTime then
    let delay := (timeoutTime - referenceTime) mod 2 ^ 64 in
    if (INT_MAX - 1) * 1000000 <? delay then -1 else (delay + 999999) / 1000000
  else 0.

Section Loop.
Context {K : Type} `{InputWorld K} `{InputDispatcherPolicy K} `{InputHandles}.
Abbreviation D := (M (Dispatcher K)).

Definition key_of (e : EventEntry) : D KeyEntry := deref (fun _ => match entry_type e with KEY k => Some k | _ => None end).

Definition wake : D unit := modify (fun d => set_world (looper_wake (d_world d)) d).

(** ** Inbound events *)

Definition point_below (m : MotionEntry) : D (option nat) :=
  p ← point_of m 0 ; findTouchedWindowAtLocked (fst p) (snd p).

Definition enqueueInboundEventLocked (a : nat) : D bool :=
  needWake ← gets (fun d => bool_decide (mInboundQueue d = [])) ;
  modify (fun d => set_inbound (mInboundQueue d ++ [a]) d) ;;
  e ← entry a ;
  match entry_type e with
  | KEY k =>
      if isAppSwitchKeyEventLocked e k then
        if ke_action k =? AKEY_EVENT_ACTION_DOWN then
          modify (fun d => set_modes (with_appSwitch true (mAppSwitchDueTime (d_modes d)) (d_modes d)) d) ;; mret needWake
        else if ke_action k =? AKEY_EVENT_ACTION_UP then
          saw ← gets (fun d => mAppSwitchSawKeyDown (d_modes d)) ;
          if (saw : bool) then
            modify (fun d => set_modes (with_appSwitch false (eventTime e + APP_SWITCH_TIMEOUT) (d_modes d)) d) ;; mret true
          else mret needWake
        else mret needWake
      else mret needWake
  | MOTION m =>
      w ← gets d_wait ;
      match tgw_application w with
      | Some waited =>
          if (me_action m =? AMOTION_EVENT_ACTION_DOWN) && has (me_source m) AINPUT_SOURCE_CLASS_POINTER &&
             bool_decide (tgw_cause w = INPUT_TARGET_WAIT_CAUSE_APPLICATION_NOT_READY) then
            touched ← point_below m ;
            f ← gets d_focus ;
            match touched with
            | Some h =>
                if negb (bool_decide ((fo_handles f !! h ≫= inputApplicationHandle) = Some waited)) then
                  modify (set_unblocked (Some a)) ;; mret true
                else mret needWake
            | None => mret needWake
            end
          else mret needWake
      | None => mret needWake
      end
  | _ => mret needWake
  end.

Definition dropInboundEventLocked (a : nat) (dropReason : DropReason) : D unit :=
  if bool_decide (dropReason = DROP_REASON_NOT_DROPPED) then undefined
  else
    e ← entry a ;
    match entry_type e with
    | KEY _ =>
        synthesizeCancelationEventsForAllConnectionsLocked (CancelationOptions_new CANCEL_NON_POINTER_EVENTS)
    | MOTION m =>
        synthesizeCancelationEventsForAllConnectionsLocked (CancelationOptions_new
          (if has (me_source m) AINPUT_SOURCE_CLASS_POINTER then CANCEL_POINTER_EVENTS else CANCEL_NON_POINTER_EVENTS))
    | _ => mret tt
    end.

Definition resetPendingAppSwitchLocked : D unit :=
  modify (fun d => set_modes (with_appSwitch (mAppSwitchSawKeyDown (d_modes d)) LONG_LONG_MAX (d_modes d)) d).

Definition releaseInboundEventLocked (a : nat) : D unit :=
  modify (fun d => if bool_decide (mNextUnblockedEvent d = Some a) then set_unblocked None d else d) ;;
  release a.

Definition releasePendingEventLocked : D unit :=
  pending ← gets mPendingEvent ;
  match pending with
  | Some a => resetANRTimeoutsLocked ;; modify (set_pending None) ;; releaseInboundEventLocked a
  | None => mret tt
  end.

Fixpoint drain_inbound (n : nat) : D unit :=
  q ← gets mInboundQueue ;
  match q with
  | [] => mret tt
  | a :: q' =>
      match n with
      | O => wait
      | S n' => modify (set_inbound q') ;; releaseInboundEventLocked a ;; drain_inbound n'
      end
  end.

Definition drainInboundQueueLocked : D unit := q ← gets mInboundQueue ; drain_inbound (length q).

(** ** Key repeats *)

Definition resetKeyRepeatLocked : D unit :=
  last ← gets lastKeyEntry ;
  match last with
  | Some a => modify (set_lastKey None) ;; release a
  | None => mret tt
  end.

Definition synthesizeKeyRepeatLocked (currentTime : Z) : D nat :=
  a ← deref lastKeyEntry ;
  e ← entry a ;
  k ← key_of e ;
  let policyFlags := Z.lor (Z.lor (Z.land (entry_policyFlags e) POLICY_FLAG_RAW_MASK) POLICY_FLAG_PASS_TO_USER)
                       POLICY_FLAG_TRUSTED in
  let fresh n := mkEntry n currentTime policyFlags false (KEY (repeated_key k)) in
  b ← (if refCount e =? 1 then update_entry a (fun _ => fresh 1) ;; mret a
       else b ← new_entry (fresh 1) ; modify (set_lastKey (Some b)) ;; release a ;; mret b : D nat) ;
  acquire b ;;
  modify (set_nextRepeat (currentTime + keyRepeatDelay)) ;;
  mret b.

(** ** Dispatching one event *)

(** What is done once, before the policy is asked. *)
Definition dispatch_key_first (a : nat) : D unit :=
  e ← entry a ;
  k ← key_of e ;
  (if (ke_repeatCount k =? 0) && (ke_action k =? AKEY_EVENT_ACTION_DOWN) && has (entry_policyFlags e) POLICY_FLAG_TRUSTED
      && negb (has (entry_policyFlags e) POLICY_FLAG_DISABLE_KEY_REPEAT) then
     last ← gets lastKeyEntry ;
     repeated ← (match last with
                 | Some l => le ← entry l ; lk ← key_of le ;
                     mret (if ke_keyCode lk =? ke_keyCode k then Some (ke_repeatCount lk + 1) else None)
                 | None => mret None
                 end : D (option Z)) ;
     match repeated with
     | Some n =>
         update_entry a (with_key (key_repeatCount n k)) ;; resetKeyRepeatLocked ;;
         modify (set_nextRepeat LONG_LONG_MAX)
     | None => resetKeyRepeatLocked ;; modify (set_nextRepeat (eventTime e + keyRepeatTimeout))
     end ;;
     modify (set_lastKey (Some a)) ;; acquire a
   else if negb (syntheticRepeat k) then resetKeyRepeatLocked else mret tt) ;;
  e ← entry a ;
  k ← key_of e ;
  update_entry a (fun e => in_progress (with_key (key_longPress k) e)).

(** The rest, when the policy has said that the key is to go on. *)
Definition dispatch_key_targets (currentTime : Z) (a : nat) (dropReason : DropReason) (nextWakeupTime : Z)
    : D (bool * DropReason * Z) :=
  if negb (bool_decide (dropReason = DROP_REASON_NOT_DROPPED)) then mret (true, dropReason, nextWakeupTime)
  else
    r ← findFocusedWindowTargetsLocked currentTime true nextWakeupTime ;
    let '(result, targets, nextWakeupTime) := r in
    match result with
    | INPUT_EVENT_INJECTION_PENDING => mret (false, dropReason, nextWakeupTime)
    | INPUT_EVENT_INJECTION_SUCCEEDED =>
        monitors ← addMonitoringTargetsLocked ;
        dispatchEventLocked currentTime a (targets ++ monitors) ;;
        mret (true, dropReason, nextWakeupTime)
    | _ => mret (true, dropReason, nextWakeupTime)
    end.

Definition dispatchKeyLocked (currentTime : Z) (a : nat) (dropReason : DropReason) (nextWakeupTime : Z)
    : D (bool * DropReason * Z) :=
  e ← entry a ;
  (if dispatchInProgress e then mret tt else dispatch_key_first a) ;;
  e ← entry a ;
  k ← key_of e ;
  let later := match interceptKeyResult k with INTERCEPT_KEY_RESULT_TRY_AGAIN_LATER => true | _ => false end in
  if later && (currentTime <? interceptKeyWakeupTime k)
  then mret (false, dropReason, Z.min (interceptKeyWakeupTime k) nextWakeupTime)
  else
    (if later then update_entry a (with_key (key_intercept INTERCEPT_KEY_RESULT_UNKNOWN 0 k)) else mret tt) ;;
    match (if later then INTERCEPT_KEY_RESULT_UNKNOWN else interceptKeyResult k) with
    | INTERCEPT_KEY_RESULT_UNKNOWN =>
        if has (entry_policyFlags e) POLICY_FLAG_PASS_TO_USER then
          w ← gets (fun d => mFocusedWindowHandle (d_focus d)) ;
          postCommandLocked (doInterceptKeyBeforeDispatching w a) ;;
          acquire a ;;
          mret (false, dropReason, nextWakeupTime)
        else
          update_entry a (with_key (key_intercept INTERCEPT_KEY_RESULT_CONTINUE
            (if later then 0 else interceptKeyWakeupTime k) k)) ;;
          dispatch_key_targets currentTime a dropReason nextWakeupTime
    | INTERCEPT_KEY_RESULT_SKIP =>
        dispatch_key_targets currentTime a
          (if bool_decide (dropReason = DROP_REASON_NOT_DROPPED) then DROP_REASON_POLICY else dropReason) nextWakeupTime
    | _ => dispatch_key_targets currentTime a dropReason nextWakeupTime
    end.

Definition dispatchMotionLocked (currentTime : Z) (a : nat) (dropReason : DropReason) (nextWakeupTime : Z)
    : D (bool * DropReason * Z) :=
  update_entry a in_progress ;;
  if negb (bool_decide (dropReason = DROP_REASON_NOT_DROPPED)) then mret (true, dropReason, nextWakeupTime)
  else
    e ← entry a ;
    m ← deref (fun _ => match entry_type e with MOTION m => Some m | _ => None end) ;
    r ← (if has (me_source m) AINPUT_SOURCE_CLASS_POINTER then findTouchedWindowTargetsLocked currentTime m nextWakeupTime
         else
           r ← findFocusedWindowTargetsLocked currentTime false nextWakeupTime ;
           let '(result, targets, t) := r in mret (result, targets, false, t)
         : D (InjectionResult * list InputTarget * bool * Z)) ;
    let '(result, targets, conflict, nextWakeupTime) := r in
    match result with
    | INPUT_EVENT_INJECTION_PENDING => mret (false, dropReason, nextWakeupTime)
    | INPUT_EVENT_INJECTION_SUCCEEDED =>
        monitors ← addMonitoringTargetsLocked ;
        (if (conflict : bool)
         then synthesizeCancelationEventsForAllConnectionsLocked (CancelationOptions_new CANCEL_POINTER_EVENTS)
         else mret tt) ;;
        dispatchEventLocked currentTime a (targets ++ monitors) ;;
        mret (true, dropReason, nextWakeupTime)
    | _ => mret (true, dropReason, nextWakeupTime)
    end.

Definition dispatchConfigurationChangedLocked (e : EventEntry) : D unit :=
  resetKeyRepeatLocked ;; postCommandLocked (doNotifyConfigurationChanged (eventTime e)).

Definition dispatchDeviceResetLocked (deviceId : Z) : D unit :=
  synthesizeCancelationEventsForAllConnectionsLocked (mkOptions CANCEL_ALL_EVENTS (-1) deviceId).

(** The pending event is dispatched, if it is not to be dropped. *)
Definition dispatch_pending (currentTime : Z) (isAppSwitchDue : bool) (a : nat) (nextWakeupTime : Z) : D Z :=
  e ← entry a ;
  m ← gets d_modes ;
  let dropReason :=
    if negb (has (entry_policyFlags e) POLICY_FLAG_PASS_TO_USER) then DROP_REASON_POLICY
    else if negb (mDispatchEnabled m) then DROP_REASON_DISABLED else DROP_REASON_NOT_DROPPED in
  modify (fun d => if bool_decide (mNextUnblockedEvent d = Some a) then set_unblocked None d else d) ;;
  unblocked ← gets mNextUnblockedEvent ;
  let late reason :=
    if bool_decide (reason = DROP_REASON_NOT_DROPPED) then
      if isStaleEventLocked currentTime e then DROP_REASON_STALE
      else if negb (bool_decide (unblocked = None)) then DROP_REASON_BLOCKED else DROP_REASON_NOT_DROPPED
    else reason in
  r ← (match entry_type e with
       | TYPE_CONFIGURATION_CHANGED =>
           dispatchConfigurationChangedLocked e ;; mret (true, DROP_REASON_NOT_DROPPED, nextWakeupTime)
       | TYPE_DEVICE_RESET deviceId =>
           dispatchDeviceResetLocked deviceId ;; mret (true, DROP_REASON_NOT_DROPPED, nextWakeupTime)
       | KEY k =>
           dropReason ←
             (if isAppSwitchDue then
                if isAppSwitchKeyEventLocked e k then resetPendingAppSwitchLocked ;; mret dropReason
                else mret (if bool_decide (dropReason = DROP_REASON_NOT_DROPPED) then DROP_REASON_APP_SWITCH else dropReason)
              else mret dropReason : D DropReason) ;
           dispatchKeyLocked currentTime a (late dropReason) nextWakeupTime
       | MOTION _ =>
           let dropReason :=
             if bool_decide (dropReason = DROP_REASON_NOT_DROPPED) && isAppSwitchDue then DROP_REASON_APP_SWITCH else dropReason in
           dispatchMotionLocked currentTime a (late dropReason) nextWakeupTime
       end : D (bool * DropReason * Z)) ;
  let '(done, dropReason, nextWakeupTime) := r in
  if (done : bool) then
    (if negb (bool_decide (dropReason = DROP_REASON_NOT_DROPPED)) then dropInboundEventLocked a dropReason else mret tt) ;;
    releasePendingEventLocked ;;
    mret LONG_LONG_MIN
  else mret nextWakeupTime.

(** Takes the next event; [None] when there is none, with the time to wake up. *)
Definition grab_event (currentTime : Z) (isAppSwitchDue : bool) (nextWakeupTime : Z) : D (bool * option nat * Z) :=
  pending ← gets mPendingEvent ;
  match pending with
  | Some a => mret (isAppSwitchDue, Some a, nextWakeupTime)
  | None =>
      q ← gets mInboundQueue ;
      match q with
      | [] =>
          (if isAppSwitchDue then resetPendingAppSwitchLocked else mret tt) ;;
          last ← gets lastKeyEntry ;
          next ← gets nextRepeatTime ;
          match last with
          | Some _ =>
              if next <=? currentTime then
                a ← synthesizeKeyRepeatLocked currentTime ;
                modify (set_pending (Some a)) ;; resetANRTimeoutsLocked ;; mret (false, Some a, nextWakeupTime)
              else mret (false, None, Z.min next nextWakeupTime)
          | None => mret (false, None, nextWakeupTime)
          end
      | a :: q' =>
          modify (set_inbound q') ;; modify (set_pending (Some a)) ;; resetANRTimeoutsLocked ;;
          mret (isAppSwitchDue, Some a, nextWakeupTime)
      end
  end.

Definition dispatchOnceInnerLocked (nextWakeupTime : Z) : D Z :=
  currentTime ← clock ;
  (if isKeyRepeatEnabled then mret tt else resetKeyRepeatLocked) ;;
  m ← gets d_modes ;
  if mDispatchFrozen m then mret nextWakeupTime
  else
    let isAppSwitchDue := mAppSwitchDueTime m <=? currentTime in
    r ← grab_event currentTime isAppSwitchDue (Z.min (mAppSwitchDueTime m) nextWakeupTime) ;
    match r with
    | (due, Some a, t) => dispatch_pending currentTime due a t
    | (_, None, t) => mret t
    end.

(** ** Commands *)

Definition resumeAfterTargetsNotReadyTimeoutLocked (newTimeout : Z) (channel : option InputChannel) : D unit :=
  if 0 <? newTimeout then
    t ← clock ;
    modify (fun d => let w := d_wait d in
      set_wait (mkTargetWait (tgw_cause w) (tgw_startTime w) (t + newTimeout) (tgw_expired w) (tgw_application w)) d)
  else
    modify (fun d => let w := d_wait d in
      set_wait (mkTargetWait (tgw_cause w) (tgw_startTime w) (tgw_timeoutTime w) true (tgw_application w)) d) ;;
    match channel with
    | None => mret tt
    | Some ch =>
        index ← getConnectionIndexLocked ch ;
        match index with
        | None => mret tt
        | Some c =>
            conn ← connection c ;
            match cn_window conn with
            | Some w => modify (fun d => set_focus (with_touch (removeWindow w (mTouchState (d_focus d))) (d_focus d)) d)
            | None => mret tt
            end ;;
            if bool_decide (cn_status conn = STATUS_NORMAL)
            then synthesizeCancelationEventsForConnectionLocked c (CancelationOptions_new CANCEL_ALL_EVENTS)
            else mret tt
        end
    end.

(** The result of asking the policy is kept in the entry, and the command's
    reference to it given up. *)
Definition intercepted (window : option nat) (a : nat) : D unit :=
  e ← entry a ;
  k ← key_of e ;
  let delay := interceptKeyBeforeDispatching window (key_input e k) (entry_policyFlags e) in
  (if delay <? 0 then update_entry a (with_key (key_intercept INTERCEPT_KEY_RESULT_SKIP (interceptKeyWakeupTime k) k))
   else if delay =? 0 then
     update_entry a (with_key (key_intercept INTERCEPT_KEY_RESULT_CONTINUE (interceptKeyWakeupTime k) k))
   else
     t ← clock ; update_entry a (with_key (key_intercept INTERCEPT_KEY_RESULT_TRY_AGAIN_LATER (t + delay) k))) ;;
  release a.

Definition update_state (c : nat) (f : InputState -> InputState) : D unit :=
  update_connection c (fun conn => with_state (f (cn_state conn)) conn).

Definition cancel_fallback (c : nat) (fallbackKeyCode : Z) : D unit :=
  synthesizeCancelationEventsForConnectionLocked c (mkOptions CANCEL_FALLBACK_EVENTS fallbackKeyCode (-1)).

(** A key that was handled, or went to a window in the background: what it fell
    back to is canceled. *)
Definition after_handled_key (c : nat) (originalKeyCode fallbackKeyCode : Z) : D unit :=
  if fallbackKeyCode =? -1 then mret tt
  else
    (if negb (fallbackKeyCode =? AKEYCODE_UNKNOWN) then cancel_fallback c fallbackKeyCode else mret tt) ;;
    update_state c (removeFallbackKey originalKeyCode).

(** A key that was not handled: the policy may have one to fall back to.  The
    entry is read again after the cancelation, which may have broken the
    connection and with it let go of the entry. *)
Definition after_unhandled_key (c a : nat) (e : EventEntry) (k : KeyEntry) (fallbackKeyCode : Z) : D bool :=
  let originalKeyCode := ke_keyCode k in
  let initialDown := (ke_action k =? AKEY_EVENT_ACTION_DOWN) && (ke_repeatCount k =? 0) in
  if (fallbackKeyCode =? -1) && negb initialDown then mret false
  else
    conn ← connection c ;
    let fallback := dispatchUnhandledKey (cn_window conn) (key_input e k) (entry_policyFlags e) in
    if negb (bool_decide (cn_status conn = STATUS_NORMAL)) then
      update_state c (removeFallbackKey originalKeyCode) ;; mret false
    else
      let latched := match fallback with Some event => ki_keyCode event | None => AKEYCODE_UNKNOWN end in
      (if initialDown then update_state c (setFallbackKey originalKeyCode latched) else mret tt) ;;
      let code := if initialDown then latched else fallbackKeyCode in
      if code =? -1 then undefined
      else
        let wanted := match fallback with Some event => ki_keyCode event =? code | None => false end in
        if negb (code =? AKEYCODE_UNKNOWN) && negb wanted then
          cancel_fallback c code ;;
          e ← entry a ;
          k ← key_of e ;
          (if negb (ke_action k =? AKEY_EVENT_ACTION_UP)
           then update_state c (setFallbackKey originalKeyCode AKEYCODE_UNKNOWN) else mret tt) ;;
          mret false
        else
          match fallback with
          | Some event =>
              update_entry a (fun e => mkEntry (refCount e) (ki_eventTime event) (entry_policyFlags e) (dispatchInProgress e)
                                         (KEY (fallback_key k event code))) ;;
              mret true
          | None => mret false
          end.

Definition afterKeyEventLockedInterruptible (c a : nat) (de : DispatchEntry) (handled : bool) : D bool :=
  e ← entry a ;
  k ← key_of e ;
  if has (ke_flags k) AKEY_EVENT_FLAG_FALLBACK then mret false
  else
    conn ← connection c ;
    let fallbackKeyCode := getFallbackKey (ke_keyCode k) (cn_state conn) in
    (if ke_action k =? AKEY_EVENT_ACTION_UP then update_state c (removeFallbackKey (ke_keyCode k)) else mret tt) ;;
    if handled || negb (hasForegroundTarget de) then after_handled_key c (ke_keyCode k) fallbackKeyCode ;; mret false
    else after_unhandled_key c a e k fallbackKeyCode.

Definition doDispatchCycleFinishedLockedInterruptible (c : nat) (seq : Z) (handled : bool) : D unit :=
  conn ← connection c ;
  match findWaitQueueEntry seq conn with
  | None => mret tt
  | Some de =>
      e ← entry (de_event de) ;
      restartEvent ← (match entry_type e with
                      | KEY _ => afterKeyEventLockedInterruptible c (de_event de) de handled
                      | _ => mret false
                      end : D bool) ;
      conn ← connection c ;
      match findWaitQueueEntry seq conn with
      | Some de =>
          update_connection c (fun conn => with_queues (outboundQueue conn) (dequeue_seq seq (waitQueue conn)) conn) ;;
          if (restartEvent : bool) && bool_decide (cn_status conn = STATUS_NORMAL)
          then update_connection c (fun conn => with_queues (de :: outboundQueue conn) (waitQueue conn) conn)
          else releaseDispatchEntryLocked de
      | None => mret tt
      end ;;
      t ← clock ;
      startDispatchCycleLocked t c
  end.

Definition run_command (cmd : CommandEntry) : D unit :=
  match cmd with
  | doNotifyConfigurationChanged _ => mret tt
  | doNotifyInputChannelBroken c => connection c ;; mret tt
  | doNotifyANR application window =>
      f ← gets d_focus ;
      resumeAfterTargetsNotReadyTimeoutLocked (notifyANR application window)
        (w ← window ; h ← fo_handles f !! w ; i ← wh_info h ; Some (wi_channel i))
  | doInterceptKeyBeforeDispatching window a => intercepted window a
  | doDispatchCycleFinished c _ seq handled => doDispatchCycleFinishedLockedInterruptible c seq handled
  end.

(** How many commands there can be: those that wait, and for each connection one
    more when it breaks. *)
Definition commands_left (d : Dispatcher K) : nat :=
  length (mCommandQueue d) + length (List.filter (fun c => bool_decide (cn_status c = STATUS_NORMAL)) (d_connections d)).

Fixpoint run_commands (n : nat) : D unit :=
  q ← gets mCommandQueue ;
  match q with
  | [] => mret tt
  | cmd :: q' =>
      match n with
      | O => wait
      | S n' => modify (set_commands q') ;; run_command cmd ;; run_commands n'
      end
  end.

Definition runCommandsLockedInterruptible : D bool :=
  q ← gets mCommandQueue ;
  match q with
  | [] => mret false
  | _ => n ← gets commands_left ; run_commands n ;; mret true
  end.

(** ** The dispatcher's thread *)

(** Returns the timeout of the poll. *)
Definition dispatchOnce : D Z :=
  t ← dispatchOnceInnerLocked LONG_LONG_MAX ;
  ran ← runCommandsLockedInterruptible ;
  currentTime ← clock ;
  mret (toMillisecondTimeoutDelay currentTime (if (ran : bool) then LONG_LONG_MIN else t)).

Definition finishDispatchCycleLocked (currentTime : Z) (c : nat) (seq : Z) (handled : bool) : D unit :=
  update_connection c (with_blocked false) ;;
  conn ← connection c ;
  match cn_status conn with
  | STATUS_NORMAL => postCommandLocked (doDispatchCycleFinished c currentTime seq handled)
  | _ => mret tt
  end.

(** The finished signals that have arrived; [fuel] bounds their number. *)
Fixpoint receive_signals (fuel : nat) (currentTime : Z) (c : nat) (gotOne : bool) : D (bool * Z) :=
  conn ← connection c ;
  r ← zoom world_lens (receiveFinishedSignal (channel_fd (cn_channel conn))) ;
  match r with
  | (status, Some (seq, handled)) =>
      if negb (status =? OK) then mret (gotOne, status)
      else
        finishDispatchCycleLocked currentTime c seq handled ;;
        match fuel with O => wait | S n => receive_signals n currentTime c true end
  | (status, None) => mret (gotOne, status)
  end.

Definition remove_monitor (channel : InputChannel) (l : list InputChannel) : list InputChannel :=
  match list_find (fun c => channel_object c = channel_object channel) l with
  | Some (i, _) => delete i l
  | None => l
  end.

Definition unregisterInputChannelLocked (channel : InputChannel) (notify : bool) : D Z :=
  index ← getConnectionIndexLocked channel ;
  match index with
  | None => mret BAD_VALUE
  | Some c =>
      modify (fun d => set_byFd (OrdMap.erase (channel_fd channel) (mConnectionsByFd d)) d) ;;
      conn ← connection c ;
      (if cn_monitor conn then
         modify (fun d => set_focus (with_monitors (remove_monitor channel (mMonitoringChannels (d_focus d))) (d_focus d)) d)
       else mret tt) ;;
      modify (fun d => set_world (looper_removeFd (channel_fd channel) (d_world d)) d) ;;
      clock ;;
      abortBrokenDispatchCycleLocked c notify ;;
      runCommandsLockedInterruptible ;;
      update_connection c (with_status STATUS_ZOMBIE) ;;
      mret OK
  end.

(** Zero removes the callback, one keeps it. *)
Definition handleReceiveCallback (fuel : nat) (fd events : Z) : D Z :=
  byFd ← gets mConnectionsByFd ;
  match OrdMap.find fd byFd with
  | None => mret 0
  | Some c =>
      conn ← connection c ;
      let unregister (notify : bool) : D Z := unregisterInputChannelLocked (cn_channel conn) notify ;; mret 0 in
      if has events (Z.lor ALOOPER_EVENT_ERROR ALOOPER_EVENT_HANGUP) then unregister (negb (cn_monitor conn))
      else if negb (has events ALOOPER_EVENT_INPUT) then mret 1
      else
        currentTime ← clock ;
        r ← receive_signals fuel currentTime c false ;
        let '(gotOne, status) := r in
        (if (gotOne : bool) then runCommandsLockedInterruptible ;; mret tt else mret tt) ;;
        if gotOne && (status =? WOULD_BLOCK) then mret 1
        else unregister (negb (status =? DEAD_OBJECT) || negb (cn_monitor conn))
  end.

(** ** Notifications *)

Definition ask_filter (event : InputEvent) (policyFlags : Z) : D bool := fun d =>
  let '(pass, k) := filterInputEvent_policy event policyFlags (d_world d) in Ret pass (set_world k d).

(** The flags to go on with, unless the filter consumes the event. *)
Definition filter_event (event : InputEvent) (policyFlags : Z) : D (option Z) :=
  enabled ← gets (fun d => mInputFilterEnabled (d_modes d)) ;
  if (enabled : bool) then
    let policyFlags := Z.lor policyFlags POLICY_FLAG_FILTERED in
    pass ← ask_filter event policyFlags ;
    mret (if (pass : bool) then Some policyFlags else None)
  else mret (Some policyFlags).

(** [new] and [enqueueInboundEventLocked]. *)
Definition enqueue_new (e : EventEntry) : D unit :=
  a ← new_entry e ;
  needWake ← enqueueInboundEventLocked a ;
  if (needWake : bool) then wake else mret tt.

Definition notifyConfigurationChanged (eventTime : Z) : D unit :=
  enqueue_new (EventEntry_new eventTime 0 TYPE_CONFIGURATION_CHANGED).

Definition notifyDeviceReset (eventTime deviceId : Z) : D unit :=
  enqueue_new (EventEntry_new eventTime 0 (TYPE_DEVICE_RESET deviceId)).

Definition when (b : bool) (mask x : Z) : Z := if b then Z.lor x mask else x.

Definition notifyKey (eventTime deviceId source policyFlags action flags keyCode scanCode metaState downTime : Z) : D unit :=
  if negb (validateKeyEvent action) then mret tt
  else
    let virtual := has policyFlags POLICY_FLAG_VIRTUAL || has flags AKEY_EVENT_FLAG_VIRTUAL_HARD_KEY in
    let policyFlags := when virtual POLICY_FLAG_VIRTUAL policyFlags in
    let flags := when virtual AKEY_EVENT_FLAG_VIRTUAL_HARD_KEY flags in
    let metaState := when (has policyFlags POLICY_FLAG_ALT) (Z.lor AMETA_ALT_ON AMETA_ALT_LEFT_ON) metaState in
    let metaState := when (has policyFlags POLICY_FLAG_ALT_GR) (Z.lor AMETA_ALT_ON AMETA_ALT_RIGHT_ON) metaState in
    let metaState := when (has policyFlags POLICY_FLAG_SHIFT) (Z.lor AMETA_SHIFT_ON AMETA_SHIFT_LEFT_ON) metaState in
    let metaState := when (has policyFlags POLICY_FLAG_CAPS_LOCK) AMETA_CAPS_LOCK_ON metaState in
    let metaState := when (has policyFlags POLICY_FLAG_FUNCTION) AMETA_FUNCTION_ON metaState in
    let policyFlags := Z.lor policyFlags POLICY_FLAG_TRUSTED in
    let event := mkKeyInput deviceId source action flags keyCode scanCode metaState 0 downTime eventTime in
    let policyFlags := interceptKeyBeforeQueueing_policy event policyFlags in
    let flags := when (has policyFlags POLICY_FLAG_WOKE_HERE) AKEY_EVENT_FLAG_WOKE_HERE flags in
    pass ← filter_event (key_event event) policyFlags ;
    match pass with
    | None => mret tt
    | Some policyFlags =>
        enqueue_new (EventEntry_new eventTime policyFlags
          (KEY (KeyEntry_new deviceId source action flags keyCode scanCode metaState 0 downTime)))
    end.

Definition notifyMotion (eventTime policyFlags : Z) (m : MotionEntry) : D unit :=
  if negb (validateMotionEvent (me_action m) (map fst (me_pointers m))) then mret tt
  else
    let policyFlags := interceptMotionBeforeQueueing_policy eventTime (Z.lor policyFlags POLICY_FLAG_TRUSTED) in
    let event := motion_event (mkMotionInput (me_deviceId m) (me_source m) (me_action m) (me_flags m) (me_edgeFlags m)
      (me_metaState m) (me_buttonState m) zero zero (me_xPrecision m) (me_yPrecision m) (me_downTime m)
      (map fst (me_pointers m)) [(eventTime, map snd (me_pointers m))]) in
    pass ← filter_event event policyFlags ;
    match pass with
    | None => mret tt
    | Some policyFlags => enqueue_new (EventEntry_new eventTime policyFlags (MOTION m))
    end.

(** ** Channels *)

Definition registerInputChannel (channel : InputChannel) (window : option nat) (monitor : bool) : D Z :=
  index ← getConnectionIndexLocked channel ;
  match index with
  | Some _ => mret BAD_VALUE
  | None =>
      modify (fun d =>
        set_byFd (OrdMap.insert (channel_fd channel) (length (d_connections d)) (mConnectionsByFd d))
          (set_connections (d_connections d ++ [Connection_new channel window monitor]) d)) ;;
      (if monitor then modify (fun d => set_focus (with_monitors (mMonitoringChannels (d_focus d) ++ [channel]) (d_focus d)) d)
       else mret tt) ;;
      modify (fun d => set_world (looper_addFd (channel_fd channel) (d_world d)) d) ;;
      runCommandsLockedInterruptible ;;
      mret OK
  end.

Definition unregisterInputChannel (channel : InputChannel) : D Z :=
  status ← unregisterInputChannelLocked channel false ;
  if negb (status =? OK) then mret status else wake ;; mret OK.

(** ** Modes *)

Definition resetAndDropEverythingLocked : D unit :=
  synthesizeCancelationEventsForAllConnectionsLocked (CancelationOptions_new CANCEL_ALL_EVENTS) ;;
  resetKeyRepeatLocked ;; releasePendingEventLocked ;; drainInboundQueueLocked ;; resetANRTimeoutsLocked ;;
  modify (fun d => set_focus (with_hover None (with_touch TouchState_new (d_focus d))) d).

Definition setInputDispatchMode (enabled frozen : bool) : D unit :=
  m ← gets d_modes ;
  if negb (Bool.eqb (mDispatchEnabled m) enabled) || negb (Bool.eqb (mDispatchFrozen m) frozen) then
    (if mDispatchFrozen m && negb frozen then resetANRTimeoutsLocked else mret tt) ;;
    (if mDispatchEnabled m && negb enabled then resetAndDropEverythingLocked else mret tt) ;;
    modify (fun d => let m := d_modes d in
      set_modes (mkModes enabled frozen (mInputFilterEnabled m) (mAppSwitchSawKeyDown m) (mAppSwitchDueTime m)) d) ;;
    wake
  else mret tt.

Definition setInputFilterEnabled (enabled : bool) : D unit :=
  m ← gets d_modes ;
  if Bool.eqb (mInputFilterEnabled m) enabled then mret tt
  else
    modify (fun d => let m := d_modes d in
      set_modes (mkModes (mDispatchEnabled m) (mDispatchFrozen m) enabled (mAppSwitchSawKeyDown m) (mAppSwitchDueTime m)) d) ;;
    resetAndDropEverythingLocked ;;
    wake.

(** ** Focus *)

Definition with_applications (h : gmap nat (option InputApplicationInfo)) (focused : option nat) (f : Focus) : Focus :=
  mkFocus (fo_handles f) h (fo_channels f) (mWindowHandles f) (mFocusedWindowHandle f) focused (mTouchState f)
    (mLastHoverWindowHandle f) (mMonitoringChannels f).

(** The old application's information is released and the timeouts reset. *)
Definition leave_application (a : nat) (focused : option nat) : D unit :=
  resetANRTimeoutsLocked ;;
  modify (fun d => let f := d_focus d in set_focus (with_applications (<[ a := None ]> (fo_applications f)) focused f) d).

Definition setFocusedApplication (handle : option nat) : D unit :=
  f ← gets d_focus ;
  match handle ≫= (fun a => i ← application_updateInfo a ; Some (a, i)) with
  | Some (a, i) =>
      modify (fun d => let f := d_focus d in
        set_focus (with_applications (<[ a := Some i ]> (fo_applications f)) (mFocusedApplicationHandle f) f) d) ;;
      if bool_decide (mFocusedApplicationHandle f = Some a) then mret tt
      else
        match mFocusedApplicationHandle f with
        | Some old => leave_application old (Some a)
        | None => modify (fun d => let f := d_focus d in set_focus (with_applications (fo_applications f) (Some a) f) d)
        end
  | None =>
      match mFocusedApplicationHandle f with
      | Some old => leave_application old None
      | None => mret tt
      end
  end ;;
  wake.

Definition with_handles (h : gmap nat WindowHandle) (channels : nat) (f : Focus) : Focus :=
  mkFocus h (fo_applications f) channels (mWindowHandles f) (mFocusedWindowHandle f)
    (mFocusedApplicationHandle f) (mTouchState f) (mLastHoverWindowHandle f) (mMonitoringChannels f).
Definition with_windows (ws : list nat) (f : Focus) : Focus :=
  mkFocus (fo_handles f) (fo_applications f) (fo_channels f) ws (mFocusedWindowHandle f)
    (mFocusedApplicationHandle f) (mTouchState f) (mLastHoverWindowHandle f) (mMonitoringChannels f).
Definition with_focused (w : option nat) (f : Focus) : Focus :=
  mkFocus (fo_handles f) (fo_applications f) (fo_channels f) (mWindowHandles f) w
    (mFocusedApplicationHandle f) (mTouchState f) (mLastHoverWindowHandle f) (mMonitoringChannels f).

(** [updateInfo()] of a window handle: false when it is no longer valid. *)
Definition update_window (w : nat) (f : Focus) : bool * Focus :=
  match fo_handles f !! w with
  | None => (false, f)
  | Some h =>
      match window_updateInfo w (fo_channels f) (wh_info h) with
      | Some i =>
          (true, with_handles (<[ w := mkWindowHandle (inputApplicationHandle h) (Some i) ]> (fo_handles f))
                   (match wh_info h with None => S (fo_channels f) | Some _ => fo_channels f end) f)
      | None => (false, f)
      end
  end.

(** The handles that are valid, and the last of them that has the focus. *)
Fixpoint update_windows (ws : list nat) (f : Focus) : list nat * option nat * Focus :=
  match ws with
  | [] => ([], None, f)
  | w :: ws' =>
      let '(ok, f1) := update_window w f in
      let '(rest, focused, f2) := update_windows ws' f1 in
      if ok then
        let has_focus := match fo_handles f1 !! w ≫= wh_info with Some i => hasFocus i | None => false end in
        (w :: rest, match focused with Some x => Some x | None => if has_focus then Some w else None end, f2)
      else (rest, focused, f2)
  end.

Definition channel_of (w : nat) (f : Focus) : option InputChannel := wi_channel <$> (fo_handles f !! w ≫= wh_info).

Definition cancel_for_window (w : nat) (mode : cancel_mode) : D unit :=
  f ← gets d_focus ;
  match channel_of w f with
  | Some ch => synthesizeCancelationEventsForInputChannelLocked ch (CancelationOptions_new mode)
  | None => mret tt
  end.

Definition releaseInfo (w : nat) (f : Focus) : Focus :=
  match fo_handles f !! w with
  | Some h => with_handles (<[ w := mkWindowHandle (inputApplicationHandle h) None ]> (fo_handles f)) (fo_channels f) f
  | None => f
  end.

Definition setInputWindows (handles : list nat) : D unit :=
  old ← gets (fun d => mWindowHandles (d_focus d)) ;
  f ← gets d_focus ;
  let '(ws, focused, f1) := update_windows handles f in
  let hover := if existsb (fun w => bool_decide (Some w = mLastHoverWindowHandle f)) ws then mLastHoverWindowHandle f else None in
  modify (set_focus (with_hover hover (with_windows ws f1))) ;;
  (if bool_decide (mFocusedWindowHandle f = focused) then mret tt
   else
     match mFocusedWindowHandle f with
     | Some w => cancel_for_window w CANCEL_NON_POINTER_EVENTS
     | None => mret tt
     end ;;
     modify (fun d => set_focus (with_focused focused (d_focus d)) d)) ;;
  touched ← gets (fun d => ts_windows (mTouchState (d_focus d))) ;
  for_each (List.filter (fun t => negb (bool_decide (tw_window t ∈ ws))) touched)
    (fun t => cancel_for_window (tw_window t) CANCEL_POINTER_EVENTS) ;;
  modify (fun d => let s := mTouchState (d_focus d) in
    set_focus (with_touch (set_ts_windows (List.filter (fun t => bool_decide (tw_window t ∈ ws)) (ts_windows s)) s) (d_focus d)) d) ;;
  modify (fun d => set_focus (fold_left (fun f w => if bool_decide (w ∈ ws) then f else releaseInfo w f) old (d_focus d)) d) ;;
  wake.

Definition transferTouchFocus (fromChannel toChannel : InputChannel) : D bool :=
  f ← gets d_focus ;
  match getWindowHandleLocked fromChannel f, getWindowHandleLocked toChannel f with
  | Some from, Some to =>
      if (from =? to)%nat then mret true
      else
        let s := mTouchState f in
        match List.find (same_window from) (ts_windows s) with
        | None => mret false
        | Some t =>
            let newFlags := Z.land (tw_flags t) (Z.lor (Z.lor FLAG_FOREGROUND FLAG_SPLIT) FLAG_DISPATCH_AS_IS) in
            modify (fun d => set_focus (with_touch (addOrUpdateWindow to newFlags (tw_pointerIds t) (removeWindow from s))
                                          (d_focus d)) d) ;;
            fromConnection ← getConnectionIndexLocked fromChannel ;
            toConnection ← getConnectionIndexLocked toChannel ;
            match fromConnection, toConnection with
            | Some c1, Some c2 =>
                conn ← connection c1 ;
                update_state c2 (copyPointerStateTo (cn_state conn)) ;;
                synthesizeCancelationEventsForConnectionLocked c1 (CancelationOptions_new CANCEL_POINTER_EVENTS)
            | _, _ => mret tt
            end ;;
            wake ;; mret true
        end
  | _, _ => mret false
  end.

(** ** Construction and destruction *)

Definition InputDispatcher_new (k : K) (handles : gmap nat WindowHandle) (applications : gmap nat (option InputApplicationInfo))
    (channels : nat) : Dispatcher K :=
  mkDispatcher ∅ 0 [] [] None [] [] None 0 None (mkModes false false false false LONG_LONG_MAX)
    (mkFocus handles applications channels [] None None TouchState_new None [])
    (mkTargetWait INPUT_TARGET_WAIT_CAUSE_NONE 0 0 false None) 0 k.

(** [while (mConnectionsByFd.size() != 0) unregisterInputChannel(...)]. *)
Fixpoint unregister_all (n : nat) : D unit :=
  byFd ← gets mConnectionsByFd ;
  match byFd with
  | [] => mret tt
  | (_, c) :: _ =>
      match n with
      | O => wait
      | S n' => conn ← connection c ; unregisterInputChannel (cn_channel conn) ;; unregister_all n'
      end
  end.

Definition InputDispatcher_delete : D unit :=
  resetKeyRepeatLocked ;; releasePendingEventLocked ;; drainInboundQueueLocked ;;
  n ← gets (fun d => length (mConnectionsByFd d)) ;
  unregister_all n.

End Loop.
