(* ===== verification/DispatchMemory.v ===== *)
(** * The input dispatcher: references to entries

    The invariant that counts the references to the entries of the dispatcher
    ([Dispatcher]): every entry on the heap is referred to as often as its
    [refCount] says, by the queues, the pending event, the key repeat, the
    commands, or by the function that runs ([held]).  The rules for the parts of
    a dispatch cycle are proved here: each returns, without undefined behaviour,
    and keeps the count. *)

From Stdlib Require Import SpecFloat.
From S2P Require Import Prelude Geometry Input AndroidEvents InputTransport InputState Dispatcher DispatchTargets DispatchLoop.

(** ** Total correctness *)

Definition returns {S A} (m : M S A) (Q : A -> S -> Prop) (s : S) : Prop :=
  match m s with Ret a s' => Q a s' | _ => False end.

Lemma returns_wp {S A} (m : M S A) Q s : returns m Q s <-> wp m Q (fun _ _ => False) (fun _ => False) s.
Proof. unfold returns, wp. by destruct (m s). Qed.

Section Returns.
Context {S A B : Type}.

Lemma returns_ret (a : A) (Q : A -> S -> Prop) s : Q a s -> returns (mret a) Q s.
Proof. done. Qed.

Lemma returns_bind (m : M S A) (k : A -> M S B) Q s :
  returns m (fun a => returns (k a) Q) s -> returns (m ≫= k) Q s.
Proof. unfold returns, mbind, M_bind. by destruct (m s). Qed.

Lemma returns_mono (m : M S A) (Q Q' : A -> S -> Prop) s :
  returns m Q s -> (forall a s', Q a s' -> Q' a s') -> returns m Q' s.
Proof. unfold returns. destruct (m s); auto. Qed.

Lemma returns_gets (f : S -> A) Q s : Q (f s) s -> returns (gets f) Q s.
Proof. done. Qed.

Lemma returns_modify (f : S -> S) Q s : Q tt (f s) -> returns (modify f) Q s.
Proof. done. Qed.

Lemma returns_deref (f : S -> option A) Q s a : f s = Some a -> Q a s -> returns (deref f) Q s.
Proof. intros Hf HQ. unfold returns, deref. by rewrite Hf. Qed.

Lemma returns_some (m : M S A) Q s : returns m Q s -> exists a s', m s = Ret a s' /\ Q a s'.
Proof. unfold returns. destruct (m s); try done. eauto. Qed.

End Returns.

(** A loop over a list, with an invariant. *)
Lemma returns_for_each {S A} (l : list A) (f : A -> M S unit) (I : S -> Prop) s :
  (forall x s, x ∈ l -> I s -> returns (f x) (fun _ => I) s) -> I s -> returns (for_each l f) (fun _ => I) s.
Proof.
  revert s. induction l as [|x l IH]; intros s Hf HI; [done|]. cbn [for_each]. apply returns_bind.
  eapply returns_mono; [apply Hf; [left|done]|]. intros [] s' HI'. apply IH; [|done]. intros y s'' Hy. apply Hf. by right.
Qed.

(** ** Counting *)

Fixpoint occ (a : nat) (l : list nat) : nat :=
  match l with
  | [] => 0
  | b :: l' => (if (b =? a)%nat then 1 else 0) + occ a l'
  end.

Lemma occ_app a l1 l2 : occ a (l1 ++ l2) = (occ a l1 + occ a l2)%nat.
Proof. induction l1 as [|b l1 IH]; simpl; [done|]. rewrite IH. lia. Qed.

Lemma occ_in a l : a ∈ l <-> (0 < occ a l)%nat.
Proof.
  induction l as [|b l IH]; simpl; [split; [by intros []%not_elem_of_nil|lia]|].
  rewrite elem_of_cons, IH. destruct (Nat.eqb_spec b a); [split; [lia|by left]|]. split; [intros [?|?]; [congruence|lia]|right; lia].
Qed.

Definition conn_refs (c : Connection) : list nat := map de_event (outboundQueue c ++ waitQueue c).

Definition cmd_refs (c : CommandEntry) : list nat :=
  match c with doInterceptKeyBeforeDispatching _ a => [a] | _ => [] end.

Definition conns_refs (l : list Connection) : list nat := List.concat (map conn_refs l).
Definition cmds_refs (l : list CommandEntry) : list nat := List.concat (map cmd_refs l).

Lemma concat_update {A} (f : A -> list nat) a (l : list A) i x y :
  l !! i = Some x ->
  (occ a (List.concat (map f (<[ i := y ]> l))) + occ a (f x) = occ a (List.concat (map f l)) + occ a (f y))%nat.
Proof.
  revert i. induction l as [|z l IH]; intros [|i] Hl; [done..| |].
  - injection Hl as ->. cbn. rewrite !occ_app. lia.
  - specialize (IH i Hl). change (<[ S i := y ]> (z :: l)) with (z :: <[ i := y ]> l). cbn [map List.concat].
    rewrite !occ_app. lia.
Qed.

Lemma conns_update a l c conn conn' :
  l !! c = Some conn ->
  (occ a (conns_refs (<[ c := conn' ]> l)) + occ a (conn_refs conn) = occ a (conns_refs l) + occ a (conn_refs conn'))%nat.
Proof. apply concat_update. Qed.

Lemma cmds_app a l l' : occ a (cmds_refs (l ++ l')) = (occ a (cmds_refs l) + occ a (cmds_refs l'))%nat.
Proof. unfold cmds_refs. by rewrite map_app, concat_app, occ_app. Qed.

Lemma conns_app a l l' : occ a (conns_refs (l ++ l')) = (occ a (conns_refs l) + occ a (conns_refs l'))%nat.
Proof. unfold conns_refs. by rewrite map_app, concat_app, occ_app. Qed.

Lemma conns_in l c conn a : l !! c = Some conn -> a ∈ conn_refs conn -> a ∈ conns_refs l.
Proof.
  intros Hl Ha. unfold conns_refs. apply list_elem_of_In, in_concat. exists (conn_refs conn). split.
  - apply in_map, list_elem_of_In. by eapply list_elem_of_lookup_2.
  - by apply list_elem_of_In.
Qed.

(** ** The invariant *)

Definition is_key (e : EventEntry) : Prop := match entry_type e with KEY _ => True | _ => False end.
Definition is_input (e : EventEntry) : Prop := match entry_type e with KEY _ | MOTION _ => True | _ => False end.

(** A motion whose action names a pointer it has, at a place on the screen. *)
Definition motion_ok (m : MotionEntry) : Prop :=
  (Z.to_nat (getMotionEventActionPointerIndex (me_action m)) < length (me_pointers m))%nat /\
  Forall (fun p => is_Some (int_of_float (getX (snd p))) /\ is_Some (int_of_float (getY (snd p))) /\
                   0 <= pp_id (fst p) <= 31) (me_pointers m).

Definition inbound_ok (e : EventEntry) : Prop := match entry_type e with MOTION m => motion_ok m | _ => True end.

(** What is known of the entry at an address, as long as it is there. *)
Definition at_addr (P : EventEntry -> Prop) (h : gmap nat EventEntry) (a : nat) : Prop := forall e, h !! a = Some e -> P e.

Definition counted (h : gmap nat EventEntry) (l : list nat) : Prop :=
  forall a, match h !! a with
            | Some e => refCount e = Z.of_nat (occ a l) /\ (0 < occ a l)%nat
            | None => occ a l = 0%nat
            end.

Ltac d_simpl :=
  cbn [d_heap d_next d_connections mConnectionsByFd mPendingEvent mInboundQueue mCommandQueue lastKeyEntry nextRepeatTime
       mNextUnblockedEvent d_modes d_focus d_wait sNextSeq d_world set_heap set_connections set_byFd set_pending set_inbound
       set_commands set_lastKey set_nextRepeat set_unblocked set_modes set_focus set_wait set_seq set_world] in *.

Section Memory.
Context {K : Type}.
Implicit Types d : Dispatcher K.

Definition refs d : list nat :=
  mInboundQueue d ++ option_list (mPendingEvent d) ++ option_list (lastKeyEntry d) ++ cmds_refs (mCommandQueue d) ++
  conns_refs (d_connections d).

Definition cmd_ok d (c : CommandEntry) : Prop :=
  match c with
  | doNotifyInputChannelBroken c | doDispatchCycleFinished c _ _ _ => (c < length (d_connections d))%nat
  | _ => True
  end.

(** No key has another to fall back to: those the policy was asked for have
    [AKEYCODE_UNKNOWN]. *)
Definition unlatched (s : InputState) : Prop := Forall (fun p => snd p = AKEYCODE_UNKNOWN) (mFallbackKeys s).
Definition no_fallback (conn : Connection) : Prop := unlatched (cn_state conn).

(** A descriptor leads to a connection whose channel has it. *)
Definition wired (l : list Connection) (p : Z * nat) : Prop :=
  exists conn, l !! snd p = Some conn /\ channel_fd (cn_channel conn) = fst p.

Record ok (held : list nat) (d : Dispatcher K) : Prop := {
  ok_counted : counted (d_heap d) (held ++ refs d);
  ok_fresh : forall a e, d_heap d !! a = Some e -> (a < d_next d)%nat;
  ok_keys : Forall (at_addr is_key (d_heap d)) (option_list (lastKeyEntry d) ++ cmds_refs (mCommandQueue d));
  ok_queued : Forall (at_addr is_input (d_heap d)) (conns_refs (d_connections d));
  ok_inbound : Forall (at_addr inbound_ok (d_heap d)) (mInboundQueue d ++ option_list (mPendingEvent d));
  ok_commands : Forall (cmd_ok d) (mCommandQueue d);
  ok_byFd : Forall (wired (d_connections d)) (mConnectionsByFd d);
  ok_fallback : Forall no_fallback (d_connections d);
}.

(** An entry that is referred to is there. *)
Lemma ok_alive held d a : ok held d -> a ∈ held ++ refs d -> exists e, d_heap d !! a = Some e.
Proof.
  intros [Hc _ _ _ _ _ _ _] Ha%occ_in. specialize (Hc a). destruct (d_heap d !! a); [eauto|lia].
Qed.

Lemma alive_typed P held d a :
  ok held d -> a ∈ held ++ refs d -> at_addr P (d_heap d) a -> exists e, d_heap d !! a = Some e /\ P e.
Proof. intros Hok Ha Hp. destruct (ok_alive _ _ _ Hok Ha) as [e He]. eauto. Qed.

(** *** What an operation on connections leaves alone *)

Definition same_entry (e e' : EventEntry) : Prop :=
  eventTime e' = eventTime e /\ entry_policyFlags e' = entry_policyFlags e /\
  dispatchInProgress e' = dispatchInProgress e /\ entry_type e' = entry_type e.

(** Which connection it is. *)
Definition conn_id (c : Connection) : InputChannel * option nat * bool := (cn_channel c, cn_window c, cn_monitor c).

Record frame (d d' : Dispatcher K) : Prop := {
  fr_next : (d_next d <= d_next d')%nat;
  fr_heap : forall a e', (a < d_next d)%nat -> d_heap d' !! a = Some e' -> exists e, d_heap d !! a = Some e /\ same_entry e e';
  fr_focus : d_focus d' = d_focus d;
  fr_modes : d_modes d' = d_modes d;
  fr_byFd : mConnectionsByFd d' = mConnectionsByFd d;
  fr_inbound : mInboundQueue d' = mInboundQueue d;
  fr_pending : mPendingEvent d' = mPendingEvent d;
  fr_lastKey : lastKeyEntry d' = lastKeyEntry d;
  fr_conns : map conn_id (d_connections d') = map conn_id (d_connections d);
  fr_commands : (commands_left d' <= commands_left d)%nat;
}.

Lemma fr_length d d' : frame d d' -> length (d_connections d') = length (d_connections d).
Proof. intros F. by rewrite <- (length_map conn_id), (fr_conns _ _ F), length_map. Qed.

Lemma frame_refl d : frame d d.
Proof. split; auto. intros a e' _ He. exists e'. by repeat split. Qed.

Lemma frame_trans d1 d2 d3 : frame d1 d2 -> frame d2 d3 -> frame d1 d3.
Proof.
  intros [] []. split; try congruence; try lia.
  intros a e3 Ha He3. destruct (fr_heap1 a e3) as (e2 & He2 & Hs2); [lia|done|].
  destruct (fr_heap0 a e2) as (e1 & He1 & Hs1); [lia|done|]. exists e1. split; [done|].
  unfold same_entry in *. intuition congruence.
Qed.

(** *** Primitive steps *)

Lemma at_addr_mono P h h' a :
  (forall e', h' !! a = Some e' -> exists e, h !! a = Some e /\ (P e -> P e')) -> at_addr P h a -> at_addr P h' a.
Proof. intros Hm Hp e' He'. destruct (Hm e' He') as (e & He & Hi). eauto. Qed.

(** The heap changes at most in the content of entries that keep what is
    required of them. *)
Lemma typed_mono P h h' l :
  (forall a e', a ∈ l -> h' !! a = Some e' -> exists e, h !! a = Some e /\ (P e -> P e')) ->
  Forall (at_addr P h) l -> Forall (at_addr P h') l.
Proof.
  rewrite !Forall_forall. intros Hm Hl a Ha. eapply at_addr_mono; [|by apply Hl]. eauto.
Qed.

(** Everything but the heap stays. *)
Lemma ok_heap_change held held' d h n :
  ok held d ->
  counted h (held' ++ refs d) -> (forall a e, h !! a = Some e -> (a < n)%nat) ->
  (forall a e', a ∈ refs d -> h !! a = Some e' -> exists e, d_heap d !! a = Some e /\
     (is_key e -> is_key e') /\ (is_input e -> is_input e') /\ (inbound_ok e -> inbound_ok e')) ->
  ok held' (set_heap h n d).
Proof.
  intros [Hc Hf Hk Hq Hi Hm Hb Hfb] Hc' Hf' Hsame. unfold refs in Hsame. split; try done; cbn [d_heap set_heap];
    (eapply typed_mono; [|eassumption]); intros a e' Ha He'; destruct (Hsame a e') as (e & He & ? & ? & ?); eauto;
    cbn [mInboundQueue mPendingEvent lastKeyEntry mCommandQueue d_connections set_heap] in Ha; set_solver.
Qed.

(** Everything but the references stays, and their number. *)
Lemma ok_move held held' d d' :
  ok held d -> d_heap d' = d_heap d -> d_next d' = d_next d ->
  (forall a, occ a (held' ++ refs d') = occ a (held ++ refs d)) ->
  Forall (at_addr is_key (d_heap d)) (option_list (lastKeyEntry d') ++ cmds_refs (mCommandQueue d')) ->
  Forall (at_addr is_input (d_heap d)) (conns_refs (d_connections d')) ->
  Forall (at_addr inbound_ok (d_heap d)) (mInboundQueue d' ++ option_list (mPendingEvent d')) ->
  Forall (cmd_ok d') (mCommandQueue d') ->
  Forall (wired (d_connections d')) (mConnectionsByFd d') ->
  Forall no_fallback (d_connections d') ->
  ok held' d'.
Proof.
  intros [Hc Hf _ _ _ _ _ Hfb] Hh Hn Ho Hk Hq Hi Hm Hb Hfb'. split; rewrite ?Hh, ?Hn; try done.
  intros a. rewrite Ho. apply Hc.
Qed.

Lemma returns_entry held d a Q :
  ok held d -> a ∈ held ++ refs d -> (forall e, d_heap d !! a = Some e -> Q e d) -> returns (entry a) Q d.
Proof. intros Hok Ha HQ. destruct (ok_alive _ _ _ Hok Ha) as [e He]. by eapply returns_deref; eauto. Qed.

(** An entry is changed in place. *)
Lemma returns_update held d a f Q :
  ok held d -> a ∈ held ++ refs d ->
  (forall e, refCount (f e) = refCount e /\ (is_key e -> is_key (f e)) /\ (is_input e -> is_input (f e)) /\
             (inbound_ok e -> inbound_ok (f e))) ->
  (forall e, d_heap d !! a = Some e ->
     let d' := set_heap (<[ a := f e ]> (d_heap d)) (d_next d) d in ok held d' -> Q tt d') ->
  returns (update_entry a f) Q d.
Proof.
  intros Hok Ha Hf HQ. apply returns_bind. eapply returns_entry; [done..|]. intros e He. apply returns_modify, HQ; [done|].
  pose proof Hok as [Hc Hn _ _ _ _ _ _]. apply (ok_heap_change held); [done| | |].
  - intros b. specialize (Hc b). destruct (decide (a = b)) as [<-|Hne].
    + rewrite lookup_insert_eq. rewrite He in Hc. destruct (Hf e) as [-> _]. done.
    + by rewrite lookup_insert_ne.
  - intros b e' [[<- <-]|[_ Hb]]%lookup_insert_Some; eauto.
  - intros b e' _ [[<- <-]|[_ Hb]]%lookup_insert_Some; [exists e|exists e']; split; try done. apply Hf.
Qed.

Lemma occ_fresh held d a : ok held d -> (d_next d <= a)%nat -> occ a (held ++ refs d) = 0%nat.
Proof.
  intros [Hc Hf _ _ _ _ _ Hfb] Ha. specialize (Hc a). destruct (d_heap d !! a) as [e|] eqn:E; [|done].
  specialize (Hf a e E). lia.
Qed.

Lemma new_entry_frame d e : frame d (set_heap (<[ d_next d := e ]> (d_heap d)) (S (d_next d)) d).
Proof.
  split; try done; cbn; [lia|]. intros a e' Ha [[<- _]|[_ He]]%lookup_insert_Some; [lia|]. exists e'. by repeat split.
Qed.

Lemma returns_new held d e Q :
  ok held d -> refCount e = 1 ->
  (let d' := set_heap (<[ d_next d := e ]> (d_heap d)) (S (d_next d)) d in
   ok (d_next d :: held) d' -> frame d d' -> Q (d_next d) d') ->
  returns (new_entry e) Q d.
Proof.
  intros Hok He HQ. unfold returns, new_entry. apply HQ; [|apply new_entry_frame].
  pose proof Hok as [Hc Hf _ _ _ _ _ Hfb]. pose proof (occ_fresh held d (d_next d) Hok ltac:(done)) as H0.
  apply (ok_heap_change held); [done| | |].
  - intros b. specialize (Hc b). simpl. destruct (Nat.eqb_spec (d_next d) b) as [<-|Hne].
    + rewrite lookup_insert_eq. rewrite He, H0. split; lia.
    + rewrite lookup_insert_ne by done. apply Hc.
  - intros b e' [[<- _]|[_ Hb]]%lookup_insert_Some; [lia|]. specialize (Hf b e' Hb). lia.
  - intros b e' Hb [[<- _]|[_ He']]%lookup_insert_Some; [|exists e'; by repeat split].
    apply occ_in in Hb. rewrite occ_app in H0. lia.
Qed.

(** The counter of an entry that is there changes with the references held. *)
Lemma recount_frame d a e n :
  d_heap d !! a = Some e -> frame d (set_heap (<[ a := with_refs n e ]> (d_heap d)) (d_next d) d).
Proof.
  intros He. split; try done; cbn. intros b e' Hb [[<- <-]|[_ Hb']]%lookup_insert_Some; [exists e|exists e']; by repeat split.
Qed.

Lemma recount_ok held held' d a e n :
  ok held d -> d_heap d !! a = Some e -> n = Z.of_nat (occ a (held' ++ refs d)) -> (0 < occ a (held' ++ refs d))%nat ->
  (forall b, b <> a -> occ b held' = occ b held) ->
  ok held' (set_heap (<[ a := with_refs n e ]> (d_heap d)) (d_next d) d).
Proof.
  intros Hok He Hn Hpos Ho. pose proof Hok as [Hc Hf _ _ _ _ _ Hfb]. apply (ok_heap_change held); [done| | |].
  - intros b. specialize (Hc b). destruct (decide (a = b)) as [<-|Hne].
    + rewrite lookup_insert_eq. done.
    + rewrite lookup_insert_ne by done. rewrite occ_app in *. by rewrite Ho.
  - intros b e' [[<- <-]|[_ Hb]]%lookup_insert_Some; eauto.
  - intros b e' _ [[<- <-]|[_ Hb]]%lookup_insert_Some; [exists e|exists e']; by repeat split.
Qed.

Lemma returns_acquire held d a Q :
  ok held d -> a ∈ held ++ refs d ->
  (forall h, let d' := set_heap h (d_next d) d in ok (a :: held) d' -> frame d d' -> Q tt d') -> returns (acquire a) Q d.
Proof.
  intros Hok Ha HQ. apply returns_bind. eapply returns_entry; [done..|]. intros e He. apply returns_modify.
  pose proof Hok as [Hc _ _ _ _ _ _ _]. specialize (Hc a). rewrite He in Hc. destruct Hc as [Hr Hp].
  apply HQ; [|by apply recount_frame].
  apply (recount_ok held); [done..| | |]; simpl; rewrite ?Nat.eqb_refl; [rewrite Hr; lia|lia|].
  intros b Hb. by rewrite (proj2 (Nat.eqb_neq _ _)).
Qed.

Lemma free_ok held d a e :
  ok (a :: held) d -> d_heap d !! a = Some e -> refCount e = 1 ->
  ok held (set_heap (delete a (d_heap d)) (d_next d) d) /\ frame d (set_heap (delete a (d_heap d)) (d_next d) d).
Proof.
  intros Hok He Hr. pose proof Hok as [Hc Hf _ _ _ _ _ Hfb]. split.
  - apply (ok_heap_change (a :: held)); [done| | |].
    + intros b. specialize (Hc b). cbn [app occ] in Hc. destruct (decide (a = b)) as [<-|Hne].
      * rewrite lookup_delete_eq. rewrite He, Nat.eqb_refl in Hc. destruct Hc as [Hc _]. lia.
      * rewrite (proj2 (Nat.eqb_neq _ _)) in Hc by done. by rewrite lookup_delete_ne.
    + intros b e' [_ Hb]%lookup_delete_Some. eauto.
    + intros b e' _ [_ Hb]%lookup_delete_Some. exists e'. by repeat split.
  - split; try done; cbn. intros b e' _ [_ Hb]%lookup_delete_Some. exists e'. by repeat split.
Qed.

Lemma returns_release held d a Q :
  ok (a :: held) d ->
  (forall h, let d' := set_heap h (d_next d) d in ok held d' -> frame d d' -> Q tt d') -> returns (release a) Q d.
Proof.
  intros Hok HQ. apply returns_bind. eapply returns_entry; [done|left|]. intros e He.
  pose proof Hok as [Hc _ _ _ _ _ _ _]. pose proof (Hc a) as Ha. rewrite He in Ha. simpl in Ha. rewrite Nat.eqb_refl in Ha.
  destruct Ha as [Hr _]. cbv zeta. destruct (Z.eqb_spec (refCount e - 1) 0) as [H0|H0].
  - apply returns_modify. destruct (free_ok held d a e Hok He ltac:(lia)) as [? ?]. by apply HQ.
  - rewrite (proj2 (Z.ltb_lt _ _)) by lia. apply returns_bind. eapply returns_deref; [done|]. apply returns_modify.
    apply HQ; [|by apply recount_frame]. apply (recount_ok (a :: held)); [done..|lia|lia|].
    intros b Hb. simpl. by rewrite (proj2 (Nat.eqb_neq _ _)).
Qed.

(** *** Steps outside the heap *)

Lemma ok_world held d k : ok held d -> ok held (set_world k d) /\ frame d (set_world k d).
Proof. intros Hok. split; [by destruct Hok|]. split; try done. intros a e' _ He. exists e'. by repeat split. Qed.

Lemma ok_seq held d n : ok held d -> ok held (set_seq n d) /\ frame d (set_seq n d).
Proof. intros Hok. split; [by destruct Hok|]. split; try done. intros a e' _ He. exists e'. by repeat split. Qed.

Lemma frame_connections d l :
  map conn_id l = map conn_id (d_connections d) ->
  (length (List.filter (fun c => bool_decide (cn_status c = STATUS_NORMAL)) l) <=
   length (List.filter (fun c => bool_decide (cn_status c = STATUS_NORMAL)) (d_connections d)))%nat ->
  frame d (set_connections l d).
Proof.
  intros Hl Hn. split; try done; [|unfold commands_left; cbn; lia]. intros a e' _ He. exists e'. by repeat split.
Qed.

Definition normal (c : Connection) : bool := bool_decide (cn_status c = STATUS_NORMAL).

Lemma filter_insert_le {A} (p : A -> bool) (l : list A) i x y :
  l !! i = Some x -> (p y = true -> p x = true) -> (length (List.filter p (<[ i := y ]> l)) <= length (List.filter p l))%nat.
Proof.
  revert i. induction l as [|z l IH]; intros [|i] Hl Hp; [done..| |].
  - injection Hl as ->. cbn. destruct (p y), (p x); cbn; try lia; by specialize (Hp eq_refl).
  - specialize (IH i Hl Hp). change (<[ S i := y ]> (z :: l)) with (z :: <[ i := y ]> l). cbn [List.filter].
    destruct (p z); cbn [length]; lia.
Qed.

(** A connection changes: the references move between it and what is held. *)
Lemma returns_update_connection held held' d c f Q :
  ok held d -> (c < length (d_connections d))%nat ->
  (forall conn, d_connections d !! c = Some conn ->
     (forall a, occ a held' + occ a (conn_refs (f conn)) = occ a held + occ a (conn_refs conn))%nat /\
     Forall (at_addr is_input (d_heap d)) (conn_refs (f conn)) /\
     (normal (f conn) = true -> normal conn = true) /\ conn_id (f conn) = conn_id conn /\
     (no_fallback conn -> no_fallback (f conn))) ->
  (forall conn d', d_connections d !! c = Some conn -> d' = set_connections (<[ c := f conn ]> (d_connections d)) d ->
     ok held' d' -> frame d d' -> Q tt d') ->
  returns (update_connection c f) Q d.
Proof.
  intros Hok Hlt Hf HQ. destruct (lookup_lt_is_Some_2 _ _ Hlt) as [conn Hconn]. destruct (Hf conn Hconn) as (Ho & Hty & Hn & Hid & Hfall).
  apply returns_bind. eapply returns_deref; [done|]. apply returns_modify.
  pose proof Hok as [Hc Hfr Hk Hq Hi Hm Hb Hfb].
  eapply HQ; [done|done| |].
  - apply (ok_move held _ d); try done; cbn [d_connections set_connections mConnectionsByFd mCommandQueue].
    + intros a. unfold refs. d_simpl. rewrite !occ_app. pose proof (conns_update a _ c conn (f conn) Hconn). specialize (Ho a). lia.
    + unfold conns_refs in *. rewrite Forall_concat, Forall_map in *. by apply Forall_insert.
    + eapply Forall_impl; [exact Hm|]. intros []; unfold cmd_ok; cbn; rewrite ?length_insert; done.
    + eapply Forall_impl; [exact Hb|]. intros p (x & Hx & Hfd). destruct (decide (c = snd p)) as [Ec|Hne].
      * exists (f conn). subst c. rewrite list_lookup_insert_eq by done. split; [done|]. injection Hid as -> _ _. congruence.
      * exists x. by rewrite list_lookup_insert_ne.
    + apply Forall_insert; [done|]. apply Hfall. by eapply (Forall_lookup_1 no_fallback).
  - apply frame_connections; [|by eapply filter_insert_le].
    change (conn_id <$> <[ c := f conn ]> (d_connections d) = conn_id <$> d_connections d).
    rewrite list_fmap_insert, Hid. apply list_insert_id. by rewrite list_lookup_fmap, Hconn.
Qed.

Lemma returns_connection d c Q :
  (c < length (d_connections d))%nat -> (forall conn, d_connections d !! c = Some conn -> Q conn d) -> returns (connection c) Q d.
Proof. intros [conn Hc]%lookup_lt_is_Some_2 HQ. eapply returns_deref; eauto. Qed.

End Memory.

(** ** Dispatch cycles *)

Section CycleSafe.
Context {K : Type} `{W : InputWorld K} `{!InputSocketLaws K}.
Implicit Types d : Dispatcher K.

(** An operation that keeps the count, and what the frame says. *)
Definition safe {A} (held : list nat) (m : M (Dispatcher K) A) d : Prop :=
  returns m (fun _ d' => ok held d' /\ frame d d') d.

Lemma safe_from {A} held (m : M (Dispatcher K) A) d0 d :
  frame d0 d -> safe held m d -> returns m (fun _ d' => ok held d' /\ frame d0 d') d.
Proof. intros F Hm. eapply returns_mono; [exact Hm|]. intros _ d' [? F']. eauto using frame_trans. Qed.

Lemma returns_clock held d Q :
  ok held d -> (forall t k, ok held (set_world k d) -> frame d (set_world k d) -> Q t (set_world k d)) -> returns clock Q d.
Proof.
  intros Hok HQ. unfold returns, clock. destruct (now (d_world d)) as [t k].
  destruct (ok_world held d k Hok) as [? ?]. by apply HQ.
Qed.

Lemma returns_nextSeq held d Q :
  ok held d -> (forall t n, ok held (set_seq n d) -> frame d (set_seq n d) -> Q t (set_seq n d)) -> returns nextSeq Q d.
Proof. intros Hok HQ. unfold returns, nextSeq. edestruct (ok_seq held d) as [? ?]; [done|]. by apply HQ. Qed.

(** An entry that stays referred to: the running function holds it, or it is the
    pending event. *)
Definition anchored (held : list nat) (a : nat) d : Prop := a ∈ held \/ mPendingEvent d = Some a.

Lemma anchored_in held a d : anchored held a d -> a ∈ held ++ refs d.
Proof.
  intros [H|H]; apply elem_of_app; [by left|right]. unfold refs. rewrite H. set_solver.
Qed.

Lemma anchored_frame held a d d' : frame d d' -> anchored held a d -> anchored held a d'.
Proof. intros F [H|H]; [by left|right]. by rewrite (fr_pending _ _ F). Qed.

Lemma anchored_more held b a d : anchored held a d -> anchored (b :: held) a d.
Proof. intros [H|H]; [left; by right|by right]. Qed.

(** What is known of an entry that is there stays known. *)
Lemma frame_typed P d d' a :
  (forall e e', same_entry e e' -> P e -> P e') -> (a < d_next d)%nat -> frame d d' ->
  at_addr P (d_heap d) a -> at_addr P (d_heap d') a.
Proof. intros HP Ha F Hp e' He'. destruct (fr_heap _ _ F a e' Ha He') as (e & He & Hs). eauto. Qed.

Lemma same_input e e' : same_entry e e' -> is_input e -> is_input e'.
Proof. unfold same_entry, is_input. intros (_ & _ & _ & ->). done. Qed.
Lemma same_key e e' : same_entry e e' -> is_key e -> is_key e'.
Proof. unfold same_entry, is_key. intros (_ & _ & _ & ->). done. Qed.

Lemma anchored_fresh held a d : ok held d -> anchored held a d -> (a < d_next d)%nat.
Proof. intros Hok Ha%anchored_in. destruct (ok_alive _ _ _ Hok Ha) as [e He]. by eapply ok_fresh. Qed.

Lemma anchored_input held a d d' :
  ok held d -> anchored held a d -> frame d d' -> at_addr is_input (d_heap d) a -> at_addr is_input (d_heap d') a.
Proof. intros Hok Ha F. apply frame_typed; eauto using same_input, anchored_fresh. Qed.

(** The entry and the references of one connection. *)
Lemma queued_input held d c conn :
  ok held d -> d_connections d !! c = Some conn -> Forall (at_addr is_input (d_heap d)) (conn_refs conn).
Proof.
  intros Hok Hc. pose proof (ok_queued _ _ Hok) as Hq. rewrite Forall_forall in *. intros a Ha. by eapply Hq, conns_in.
Qed.

Lemma conn_refs_app c : conn_refs c = map de_event (outboundQueue c) ++ map de_event (waitQueue c).
Proof. apply map_app. Qed.

(** A change of a connection that moves no reference. *)
Lemma safe_update_connection held d c f Q :
  ok held d -> (c < length (d_connections d))%nat ->
  (forall conn, d_connections d !! c = Some conn ->
     conn_refs (f conn) = conn_refs conn /\ (normal (f conn) = true -> normal conn = true) /\ conn_id (f conn) = conn_id conn /\
     (no_fallback conn -> no_fallback (f conn))) ->
  (forall conn d', d_connections d !! c = Some conn -> d' = set_connections (<[ c := f conn ]> (d_connections d)) d ->
     ok held d' -> frame d d' -> Q tt d') ->
  returns (update_connection c f) Q d.
Proof.
  intros Hok Hc Hf HQ. eapply (returns_update_connection held held); [done|done| |done].
  intros conn Hconn. destruct (Hf conn Hconn) as (-> & Hn & Hi & Hfall). repeat split; try done. by eapply queued_input.
Qed.

(** Tracking an event leaves the fallback keys, or some of them. *)
Lemma trackKey_unlatched pf k action flags s : unlatched s -> unlatched (snd (trackKey pf k action flags s)).
Proof.
  unfold unlatched, trackKey, drop_key, addKeyMemento. intros Hs. rewrite Forall_forall in Hs |- *. intros q.
  repeat (case_match; cbn); auto; intros [Hq _]%list_elem_of_In%filter_In; apply Hs; by apply list_elem_of_In.
Qed.

Lemma trackMotion_unlatched pf m action flags s : unlatched s -> unlatched (snd (trackMotion pf m action flags s)).
Proof.
  unfold unlatched, trackMotion, drop_motion, addMotionMemento. intros Hs. repeat (case_match; cbn); done.
Qed.

Lemma resolve_unlatched mode flags e s : unlatched s -> unlatched (snd (resolve mode flags e s)).
Proof.
  intros Hs. unfold resolve. destruct (entry_type e) as [| |k|m]; try done.
  - pose proof (trackKey_unlatched (entry_policyFlags e) k (ke_action k) (ke_flags k) s Hs). by destruct (trackKey _ _ _ _ _).
  - match goal with |- context [trackMotion ?pf m ?a ?fl s] => pose proof (trackMotion_unlatched pf m a fl s Hs) end.
    by destruct (trackMotion _ _ _ _ _).
Qed.

Lemma enqueue_entry_safe held d c a target mode :
  ok held d -> (c < length (d_connections d))%nat -> anchored held a d -> at_addr is_input (d_heap d) a ->
  safe held (enqueueDispatchEntryLocked c a target mode) d.
Proof.
  intros Hok Hc Ha Hi. unfold safe, enqueueDispatchEntryLocked. destruct (has _ _); cbn [negb]; [|split; eauto using frame_refl].
  apply returns_bind. eapply returns_nextSeq; [done|]. intros seq n1 Hok1 F1. apply returns_bind.
  pose proof (anchored_frame _ _ _ _ F1 Ha) as Ha1. pose proof (anchored_input _ _ _ _ Hok Ha F1 Hi) as Hi1.
  eapply returns_acquire; [done|by apply anchored_in|]. intros h2 d2 Hok2 F2.
  pose proof (anchored_input _ _ _ _ Hok1 Ha1 F2 Hi1) as Hi2. pose proof (frame_trans _ _ _ F1 F2) as F12.
  pose proof (fr_length _ _ F12) as Hl. apply returns_bind. eapply returns_entry; [done|left|]. intros e He.
  apply returns_bind, returns_connection; [lia|]. intros conn Hconn.
  pose proof (resolve_unlatched mode (Z.lor (Z.ldiff (it_flags target) FLAG_DISPATCH_MASK) mode) e (cn_state conn)) as Hun.
  destruct (resolve mode _ e (cn_state conn)) as [resolved state]. apply returns_bind.
  eapply safe_update_connection; [done|lia|intros conn' Hconn'; by replace conn' with conn by congruence|]. intros conn' d3 Hconn' -> Hok3 F3.
  pose proof (frame_trans _ _ _ F12 F3) as F13. destruct resolved as [[action rflags]|].
  - eapply (returns_update_connection _ held); [done|by rewrite (fr_length _ _ F3); lia| |].
    2:{ intros conn3 d4 _ _ Hok4 F4. eauto using frame_trans. }
    intros conn3 Hconn3. split; [|split; [|done]].
    + intros b. rewrite !conn_refs_app. cbn [outboundQueue waitQueue with_queues]. rewrite map_app, !occ_app. cbn [occ map de_event].
      lia.
    + rewrite conn_refs_app. cbn [outboundQueue waitQueue with_queues]. rewrite map_app. cbn [map de_event].
      pose proof (queued_input _ _ _ _ Hok3 Hconn3) as Hq. rewrite conn_refs_app, Forall_app in Hq.
      rewrite !Forall_app. repeat split; try apply Hq. constructor; [|done].
      eapply anchored_input; [exact Hok2|left; left|exact F3|done].
  - eapply returns_release; [exact Hok3|]. intros h4 d4 Hok4 F4. eauto using frame_trans.
Qed.

(** *** Draining and breaking *)

Lemma drain_outbound_safe n held d c conn :
  ok held d -> d_connections d !! c = Some conn -> (length (outboundQueue conn) <= n)%nat ->
  returns (drain_outbound n c) (fun _ d' => ok held d' /\ frame d d' /\
    d_connections d' !! c = Some (with_queues [] (waitQueue conn) conn)) d.
Proof.
  revert d conn. induction n as [|n IH]; intros d conn Hok Hconn Hn; cbn [drain_outbound];
    apply returns_bind; (eapply returns_deref; [exact Hconn|]).
  { destruct conn as [st ch w mo s b out wq]; cbn in *. destruct out; cbn in *; [|lia]. eauto using frame_refl. }
  destruct (outboundQueue conn) as [|de q] eqn:Eo.
  { destruct conn as [st ch w mo s b out wq]; cbn in *. subst. eauto using frame_refl. }
  apply returns_bind. eapply (returns_update_connection held (de_event de :: held)); [done|by eapply lookup_lt_Some| |].
  - intros conn' Hconn'. rewrite Hconn in Hconn'. injection Hconn' as <-.
    pose proof (queued_input _ _ _ _ Hok Hconn) as Hq. rewrite conn_refs_app, Eo in *. cbn [map app] in Hq.
    rewrite conn_refs_app. cbn [outboundQueue waitQueue with_queues].
    split; [|split; [by inversion Hq|done]]. intros a. rewrite Eo, !occ_app. cbn [map occ]. lia.
  - intros conn' d' Hconn' -> Hok' F'. rewrite Hconn in Hconn'. injection Hconn' as <-.
    apply returns_bind. eapply returns_release; [done|]. intros h2 d2 Hok2 F2.
    assert (d_connections d2 !! c = Some (with_queues q (waitQueue conn) conn)) as Hconn2
      by (apply list_lookup_insert_eq; by eapply lookup_lt_Some).
    eapply returns_mono; [eapply (IH _ _ Hok2 Hconn2)|]; [cbn in *; lia|].
    intros [] d3 (Hok3 & F3 & Hc3). split; [done|]. split; [eauto using frame_trans|exact Hc3].
Qed.

Lemma drain_wait_safe n held d c conn :
  ok held d -> d_connections d !! c = Some conn -> (length (waitQueue conn) <= n)%nat ->
  returns (drain_wait n c) (fun _ d' => ok held d' /\ frame d d' /\
    d_connections d' !! c = Some (with_queues (outboundQueue conn) [] conn)) d.
Proof.
  revert d conn. induction n as [|n IH]; intros d conn Hok Hconn Hn; cbn [drain_wait];
    apply returns_bind; (eapply returns_deref; [exact Hconn|]).
  { destruct conn as [st ch w mo s b out wq]; cbn in *. destruct wq; cbn in *; [|lia]. eauto using frame_refl. }
  destruct (waitQueue conn) as [|de q] eqn:Eo.
  { destruct conn as [st ch w mo s b out wq]; cbn in *. subst. eauto using frame_refl. }
  apply returns_bind. eapply (returns_update_connection held (de_event de :: held)); [done|by eapply lookup_lt_Some| |].
  - intros conn' Hconn'. rewrite Hconn in Hconn'. injection Hconn' as <-.
    pose proof (queued_input _ _ _ _ Hok Hconn) as Hq. rewrite conn_refs_app, Eo in *.
    rewrite conn_refs_app. cbn [outboundQueue waitQueue with_queues]. apply Forall_app in Hq as [Hq1 Hq2].
    split; [|split; [apply Forall_app; split; [done|by inversion Hq2]|done]]. intros a. rewrite Eo, !occ_app. cbn [map occ]. lia.
  - intros conn' d' Hconn' -> Hok' F'. rewrite Hconn in Hconn'. injection Hconn' as <-.
    apply returns_bind. eapply returns_release; [done|]. intros h2 d2 Hok2 F2.
    assert (d_connections d2 !! c = Some (with_queues (outboundQueue conn) q conn)) as Hconn2
      by (apply list_lookup_insert_eq; by eapply lookup_lt_Some).
    eapply returns_mono; [eapply (IH _ _ Hok2 Hconn2)|]; [cbn in *; lia|].
    intros [] d3 (Hok3 & F3 & Hc3). split; [done|]. split; [eauto using frame_trans|exact Hc3].
Qed.

(** A connection that breaks pays for the command that tells so. *)
Lemma filter_insert_lt {A} (p : A -> bool) (l : list A) i x y :
  l !! i = Some x -> p x = true -> p y = false ->
  S (length (List.filter p (<[ i := y ]> l))) = length (List.filter p l).
Proof.
  revert i. induction l as [|z l IH]; intros [|i] Hl Hx Hy; [done..| |].
  - injection Hl as ->. cbn. by rewrite Hx, Hy.
  - specialize (IH i Hl Hx Hy). change (<[ S i := y ]> (z :: l)) with (z :: <[ i := y ]> l). cbn [List.filter].
    destruct (p z); cbn [length]; lia.
Qed.

Lemma post_ok held d cmd :
  ok held d -> cmd_refs cmd = [] -> cmd_ok d cmd -> ok held (set_commands (mCommandQueue d ++ [cmd]) d).
Proof.
  intros Hok Hr Hc. pose proof Hok as [_ _ Hk Hq Hi Hm Hb Hfb]. eapply (ok_move held _ d); try done; d_simpl.
  - intros a. unfold refs. d_simpl. rewrite !occ_app, cmds_app. unfold cmds_refs at 2. cbn. by rewrite Hr, Nat.add_0_r.
  - unfold cmds_refs. rewrite map_app, concat_app. cbn. by rewrite Hr, !app_nil_r.
  - apply Forall_app. split; [done|]. by constructor.
Qed.

Lemma broken_frame d c conn :
  d_connections d !! c = Some conn -> cn_status conn = STATUS_NORMAL ->
  frame d (set_commands (mCommandQueue d ++ [doNotifyInputChannelBroken c])
             (set_connections (<[ c := with_status STATUS_BROKEN conn ]> (d_connections d)) d)).
Proof.
  intros Hc Hs. split; try done; d_simpl.
  - intros a e' _ He. exists e'. by repeat split.
  - change (conn_id <$> <[ c := with_status STATUS_BROKEN conn ]> (d_connections d) = conn_id <$> d_connections d).
    rewrite list_fmap_insert. apply list_insert_id. by rewrite list_lookup_fmap, Hc.
  - unfold commands_left. d_simpl. rewrite length_app. cbn [length].
    pose proof (filter_insert_lt (fun c => bool_decide (cn_status c = STATUS_NORMAL)) (d_connections d) c conn
                  (with_status STATUS_BROKEN conn) Hc) as Hf.
    cbn in Hf. rewrite Hs in Hf. specialize (Hf eq_refl eq_refl). cbn. lia.
Qed.

(** A connection that is aborted has no entries left, and is broken if it was not
    worse. *)
Definition aborted (conn : Connection) : Connection :=
  let conn := with_queues [] [] conn in
  if decide (cn_status conn = STATUS_NORMAL) then with_status STATUS_BROKEN conn else conn.

Lemma abort_spec held d c conn notify :
  ok held d -> d_connections d !! c = Some conn ->
  returns (abortBrokenDispatchCycleLocked c notify)
    (fun _ d' => ok held d' /\ frame d d' /\ d_connections d' !! c = Some (aborted conn)) d.
Proof.
  intros Hok Hconn. unfold abortBrokenDispatchCycleLocked. apply returns_bind. eapply returns_deref; [exact Hconn|].
  apply returns_bind. eapply returns_mono; [by eapply drain_outbound_safe|]. intros [] d1 (Hok1 & F1 & Hc1).
  apply returns_bind. eapply returns_mono; [by eapply drain_wait_safe|]. intros [] d2 (Hok2 & F2 & Hc2).
  cbn [outboundQueue waitQueue with_queues] in Hc2. pose proof (frame_trans _ _ _ F1 F2) as F.
  apply returns_bind. eapply returns_deref; [exact Hc2|]. unfold aborted. cbv zeta. cbn [cn_status with_queues].
  destruct (decide _) as [Hs|]; [|done]. apply returns_bind. eapply safe_update_connection; [done|by eapply lookup_lt_Some| |].
  { intros conn' _. repeat split; [by unfold normal|done]. }
  intros conn3 d3 Hc3 -> Hok3 F3. rewrite Hc2 in Hc3. injection Hc3 as <-. pose proof (lookup_lt_Some _ _ _ Hc2) as Hlt.
  assert (<[c := with_status STATUS_BROKEN (with_queues [] [] conn)]> (d_connections d2) !! c =
          Some (with_status STATUS_BROKEN (with_queues [] [] conn))) as Hl by (by apply list_lookup_insert_eq).
  destruct notify; [|split; [done|]; split; [eauto using frame_trans|done]].
  apply returns_modify. split; [|split; [|done]].
  - apply post_ok; [done..|]. cbn. by rewrite length_insert.
  - eapply frame_trans; [exact F|]. exact (broken_frame d2 c _ Hc2 Hs).
Qed.

Lemma abort_safe held d c notify :
  ok held d -> (c < length (d_connections d))%nat -> safe held (abortBrokenDispatchCycleLocked c notify) d.
Proof.
  intros Hok [conn Hconn]%lookup_lt_is_Some_2. eapply returns_mono; [by eapply abort_spec|]. by intros [] d' (? & ? & _).
Qed.

(** *** Publishing *)

Lemma publish_returns fd de e (k : K) : is_input e -> exists st k', publish fd de e k = Ret st k'.
Proof.
  intros Hi. unfold publish, is_input in *. destruct (entry_type e) as [| |key|m]; try done.
  - unfold publishKeyEvent. case_match; [by eexists _, _|].
    edestruct (sendMessage_spec (K:=K) fd) as (st & k' & E & _). exists st, k'. exact E.
  - destruct (outgoing_coords de m) as [[x y] ps]. unfold publishMotionEvent. case_match; [by eexists _, _|].
    case_match; [by eexists _, _|]. edestruct (sendMessage_spec (K:=K) fd) as (st & k' & E & _). exists st, k'. exact E.
Qed.

Lemma returns_zoom_world {A} (m : M K A) d Q :
  (exists a k, m (d_world d) = Ret a k) -> (forall a k, m (d_world d) = Ret a k -> Q a (set_world k d)) ->
  returns (zoom world_lens m) Q d.
Proof. intros (a & k & E) HQ. unfold returns, zoom. cbn. rewrite E. by apply HQ. Qed.

Lemma start_cycle_safe n held t c d conn :
  ok held d -> d_connections d !! c = Some conn -> (length (outboundQueue conn) <= n)%nat -> safe held (start_cycle n t c) d.
Proof.
  revert d conn. induction n as [|n IH]; intros d conn Hok Hconn Hn; unfold safe; cbn [start_cycle];
    apply returns_bind; (eapply returns_deref; [exact Hconn|]).
  { destruct (outboundQueue conn); cbn in *; [|lia]. destruct (cn_status conn); (split; [done|apply frame_refl]). }
  pose proof (queued_input _ _ _ _ Hok Hconn) as Hq.
  destruct (cn_status conn); [|split; [done|apply frame_refl]..].
  destruct (outboundQueue conn) as [|de q] eqn:Eo; [split; [done|apply frame_refl]|].
  pose proof (lookup_lt_Some _ _ _ Hconn) as Hlt. apply returns_bind. eapply (returns_update_connection held held); [done..| |].
  { intros conn' Hconn'. rewrite Hconn in Hconn'. injection Hconn' as <-. rewrite conn_refs_app, Eo in Hq.
    rewrite !conn_refs_app, Eo. by repeat split. }
  intros conn1 d1 Hconn1 -> Hok1 F1. rewrite Hconn in Hconn1. injection Hconn1 as <-.
  set (conn1 := with_queues _ _ conn) in *. set (d1 := set_connections _ d) in *.
  assert (d_connections d1 !! c = Some conn1) as Hc1 by (by apply list_lookup_insert_eq).
  pose proof (queued_input _ _ _ _ Hok1 Hc1) as Hq1. rewrite conn_refs_app in Hq1. cbn [outboundQueue waitQueue with_queues map conn1] in Hq1.
  apply Forall_app in Hq1 as [Hq1 Hw1]. apply Forall_cons in Hq1 as [Hde Hq1].
  apply returns_bind. eapply returns_entry; [done| |].
  { apply elem_of_app. right. unfold refs. apply elem_of_app. right. do 3 (apply elem_of_app; right).
    eapply conns_in; [exact Hc1|]. rewrite conn_refs_app. cbn. left. }
  intros e He. apply returns_bind, returns_zoom_world; [apply publish_returns; by apply Hde|]. intros st k _.
  destruct (ok_world held d1 k Hok1) as [Hok2 F2]. pose proof (frame_trans _ _ _ F1 F2) as F.
  destruct (st =? OK); cbn [negb].
  - apply returns_bind. eapply (returns_update_connection held held); [done|by rewrite (fr_length _ _ F)| |].
    + intros conn' Hconn'. change (d_connections d1 !! c = Some conn') in Hconn'. rewrite Hc1 in Hconn'. injection Hconn' as <-.
      rewrite !conn_refs_app. cbn [outboundQueue waitQueue with_queues conn1 map]. rewrite map_app. split; [|split; [|done]].
      * intros a. rewrite !occ_app. cbn [map occ]. cbn [de_event delivered_at]. lia.
      * rewrite !Forall_app. repeat split; try done. by constructor.
    + intros conn3 d3 Hc3 -> Hok3 F3. change (d_connections d1 !! c = Some conn3) in Hc3. rewrite Hc1 in Hc3. injection Hc3 as <-.
      apply (safe_from held _ d); [eauto using frame_trans|].
      eapply IH; [done|apply list_lookup_insert_eq; by eapply lookup_lt_Some|]. cbn in *. lia.
  - case_match.
    + eapply safe_update_connection; [done|by rewrite (fr_length _ _ F)|done|]. intros. eauto using frame_trans.
    + apply (safe_from held _ d); [done|]. apply abort_safe; [done|]. by rewrite (fr_length _ _ F).
Qed.

Lemma startDispatch_safe held t c d :
  ok held d -> (c < length (d_connections d))%nat -> safe held (startDispatchCycleLocked t c) d.
Proof.
  intros Hok Hc. apply returns_bind, returns_connection; [done|]. intros conn Hconn. by eapply start_cycle_safe.
Qed.

Lemma enqueueEntries_safe held t c a target d :
  ok held d -> (c < length (d_connections d))%nat -> anchored held a d -> at_addr is_input (d_heap d) a ->
  safe held (enqueueDispatchEntriesLocked t c a target) d.
Proof.
  intros Hok Hc Ha Hi. apply returns_bind, returns_connection; [done|]. intros conn _. apply returns_bind.
  eapply returns_mono; [apply (returns_for_each _ _ (fun d' => ok held d' /\ frame d d'))|].
  - intros mode d' _ [Hok' F']. apply (safe_from held _ d _ F'). pose proof (fr_length _ _ F').
    apply enqueue_entry_safe; [done|lia|by eapply anchored_frame|exact (anchored_input _ _ _ _ Hok Ha F' Hi)].
  - eauto using frame_refl.
  - intros [] d' [Hok' F']. pose proof (fr_length _ _ F'). apply returns_bind, returns_connection; [lia|]. intros conn' _.
    case_match; [|done]. apply (safe_from held _ d _ F'). apply startDispatch_safe; [done|lia].
Qed.

(** *** Splitting *)

Lemma split_index_found i id l : Exists (fun p => pp_id (fst p) = id) l -> is_Some (split_index i id l).
Proof.
  intros He. revert i. induction He as [p l Hp|p l _ IH]; intros i; cbn; [by rewrite Hp, Z.eqb_refl|]. case_match; [done|apply IH].
Qed.

Lemma split_action_defined m ids : motion_ok m -> is_Some (split_action m ids).
Proof.
  intros [Hi _]. unfold split_action. case_match; [|done]. destruct (lookup_lt_is_Some_2 _ _ Hi) as [p Hp]. rewrite Hp. cbn.
  destruct (hasBit ids (pp_id (fst p))) eqn:Eb; [|done]. case_match; [done|].
  destruct (split_index_found 0 (pp_id (fst p)) (split_pointers m ids)) as [i ->]; [|done].
  apply Exists_exists. exists p. split; [|done]. apply list_elem_of_In, filter_In. split; [|done].
  apply list_elem_of_In. by eapply list_elem_of_lookup_2.
Qed.

(** A target for a part of the pointers names some, of a motion event. *)
Definition target_ok (e : EventEntry) (t : InputTarget) : Prop :=
  has (it_flags t) FLAG_SPLIT = true -> it_pointerIds t <> 0 /\ exists m, entry_type e = MOTION m /\ motion_ok m.

Lemma prepare_safe held t c a target d e :
  ok held d -> (c < length (d_connections d))%nat -> anchored held a d -> d_heap d !! a = Some e -> is_input e -> target_ok e target ->
  safe held (prepareDispatchCycleLocked t c a target) d.
Proof.
  intros Hok Hc Ha He Hi Ht. assert (at_addr is_input (d_heap d) a) as Hat by (intros e' He'; congruence).
  apply returns_bind, returns_connection; [done|]. intros conn _.
  destruct (bool_decide _); cbn [negb]; [|split; [done|apply frame_refl]].
  destruct (has (it_flags target) FLAG_SPLIT) eqn:Es; [|by apply enqueueEntries_safe].
  destruct (Ht Es) as (Hids & m & Hm & Hmok). apply returns_bind. eapply returns_deref; [exact He|]. rewrite Hm.
  destruct (_ =? Z.of_nat _); cbn [negb]; [by apply enqueueEntries_safe|]. apply returns_bind. unfold splitMotionEvent.
  rewrite (proj2 (Z.eqb_neq _ _)) by done. destruct (_ =? bit_count _); cbn [negb]; [|split; [done|apply frame_refl]].
  destruct (split_action_defined m (it_pointerIds target) Hmok) as [act Hact].
  apply returns_bind. eapply returns_deref; [exact Hact|]. apply returns_bind. eapply returns_new; [exact Hok|done|].
  intros d' Hok' F'. apply returns_ret, returns_bind. eapply returns_mono.
  - apply enqueueEntries_safe; [exact Hok'|by rewrite (fr_length _ _ F')|left; left|].
    intros e' He'. unfold d' in He'. d_simpl. rewrite lookup_insert_eq in He'. by injection He' as <-.
  - intros [] d2 [Hok2 F2]. eapply returns_release; [exact Hok2|]. intros h3 d3 Hok3 F3. split; [done|].
    eapply frame_trans; [exact F'|]. by eapply frame_trans.
Qed.

Lemma returns_getConnection held d channel Q :
  ok held d -> Q None d -> (forall c, (c < length (d_connections d))%nat -> Q (Some c) d) ->
  returns (getConnectionIndexLocked channel) Q d.
Proof.
  intros Hok HN HS. unfold returns, getConnectionIndexLocked.
  destruct (OrdMap.find _ _) as [c|] eqn:E; [|done]. apply find_some_In in E.
  pose proof (ok_byFd _ _ Hok) as Hb. rewrite Forall_forall in Hb. destruct (Hb _ E) as (conn & Hconn & _).
  cbn in Hconn. rewrite Hconn. destruct (_ =? _)%nat; [|done]. apply HS. by eapply lookup_lt_Some.
Qed.

Lemma frame_alive held a d d' e :
  ok held d -> ok held d' -> frame d d' -> anchored held a d -> d_heap d !! a = Some e ->
  exists e', d_heap d' !! a = Some e' /\ same_entry e e'.
Proof.
  intros Hok Hok' F Ha He. pose proof (anchored_frame _ _ _ _ F Ha) as Ha'. apply anchored_in in Ha' as Ha''.
  destruct (ok_alive _ _ _ Hok' Ha'') as [e' He']. exists e'. split; [done|].
  destruct (fr_heap _ _ F a e') as (e0 & He0 & Hs); [by eapply anchored_fresh|done|]. congruence.
Qed.

Lemma same_target e e' t : same_entry e e' -> target_ok e t -> target_ok e' t.
Proof. unfold target_ok. intros (_ & _ & _ & ->). done. Qed.

Lemma dispatchEvent_safe held t a targets d e :
  ok held d -> anchored held a d -> d_heap d !! a = Some e -> is_input e -> dispatchInProgress e = true ->
  Forall (target_ok e) targets -> safe held (dispatchEventLocked t a targets) d.
Proof.
  intros Hok Ha He Hi Hp Ht. apply returns_bind. eapply returns_deref; [exact He|]. rewrite Hp. cbn [negb].
  apply (returns_for_each _ _ (fun d' => ok held d' /\ frame d d')); [|eauto using frame_refl].
  intros target d' Hin [Hok' F']. rewrite Forall_forall in Ht.
  destruct (frame_alive _ _ _ _ _ Hok Hok' F' Ha He) as (e' & He' & Hs).
  apply returns_bind. eapply returns_getConnection; [done|done|]. intros c Hc. apply (safe_from held _ d _ F').
  eapply prepare_safe; [done|done|by eapply anchored_frame|done|by eapply same_input|]. eapply same_target; eauto.
Qed.

(** *** Cancelation *)

Lemma cancelation_inputs t o s : Forall (fun e => is_input e /\ refCount e = 1) (synthesizeCancelationEvents t o s).
Proof.
  unfold synthesizeCancelationEvents. apply Forall_app. split; apply Forall_map, Forall_forall; by intros m _.
Qed.

Lemma new_entries_safe held es d :
  ok held d -> Forall (fun e => is_input e /\ refCount e = 1) es ->
  returns (new_entries es) (fun l d' => ok (l ++ held) d' /\ frame d d' /\ Forall (at_addr is_input (d_heap d')) l) d.
Proof.
  intros Hok Hes. revert held d Hok. induction Hes as [|e es [Hi Hr] _ IH]; intros held d Hok; cbn [new_entries].
  { split; [done|]. split; [apply frame_refl|done]. }
  apply returns_bind. eapply returns_new; [done..|]. intros d1 Hok1 F1. apply returns_bind.
  eapply returns_mono; [by apply IH|]. intros l d2 (Hok2 & F2 & Hl). split; [|split].
  - pose proof Hok2 as [Hc Hf Hk Hq Hib Hm Hb Hfb]. split; try done. intros b. specialize (Hc b).
    rewrite <- app_assoc in Hc. cbn [app]. rewrite occ_app in Hc. cbn [app occ] in Hc |- *. rewrite <- app_assoc, occ_app.
    cbn [app occ] in *. rewrite Nat.add_shuffle3. done.
  - by eapply frame_trans.
  - constructor; [|done]. eapply (frame_typed is_input d1); [apply same_input| |done|]; [unfold d1; cbn; lia|].
    intros e' He'. unfold d1 in He'. d_simpl. rewrite lookup_insert_eq in He'. by injection He' as <-.
Qed.

(** The events made are enqueued and given up one by one. *)
Lemma cancel_loop_safe held c target l d :
  ok (l ++ held) d -> Forall (at_addr is_input (d_heap d)) l -> (c < length (d_connections d))%nat ->
  safe held (for_each l (fun a => enqueueDispatchEntryLocked c a target FLAG_DISPATCH_AS_IS ;; release a)) d.
Proof.
  revert d. induction l as [|a l IH]; intros d Hok Hl Hc; cbn [for_each]; [split; [done|apply frame_refl]|].
  apply Forall_cons in Hl as [Ha Hl]. apply returns_bind, returns_bind.
  eapply returns_mono; [eapply (enqueue_entry_safe ((a :: l) ++ held)); [done..|left; by left|done]|].
  intros [] d1 [Hok1 F1]. eapply returns_release; [exact Hok1|]. intros h2 d2 Hok2 F2.
  pose proof (frame_trans _ _ _ F1 F2) as F. apply (safe_from held _ d _ F). apply IH; [done| |].
  - rewrite Forall_forall in *. intros b Hb. eapply (anchored_input ((a :: l) ++ held)); [exact Hok|left; set_solver|done|by apply Hl].
  - by rewrite (fr_length _ _ F).
Qed.

Lemma cancelConnection_safe held c o d :
  ok held d -> (c < length (d_connections d))%nat -> safe held (synthesizeCancelationEventsForConnectionLocked c o) d.
Proof.
  intros Hok Hc. apply returns_bind, returns_connection; [done|]. intros conn _.
  case_match; [split; [done|apply frame_refl]|]. apply returns_bind. eapply returns_clock; [done|]. intros t k Hok1 F1.
  pose proof (cancelation_inputs t o (cn_state conn)) as Hes. destruct (synthesizeCancelationEvents _ _ _) as [|e es]; [done|].
  apply returns_bind. eapply returns_mono; [apply new_entries_safe; [done|exact Hes]|]. intros l d2 (Hok2 & F2 & Hl).
  pose proof (frame_trans _ _ _ F1 F2) as F. apply returns_bind, returns_gets, returns_bind.
  eapply returns_mono; [apply (cancel_loop_safe held); [done..|by rewrite (fr_length _ _ F)]|].
  intros [] d3 [Hok3 F3]. pose proof (frame_trans _ _ _ F F3) as F'. apply (safe_from held _ d _ F').
  apply startDispatch_safe; [done|]. by rewrite (fr_length _ _ F').
Qed.

Lemma cancelAll_safe held o d : ok held d -> safe held (synthesizeCancelationEventsForAllConnectionsLocked o) d.
Proof.
  intros Hok. apply returns_bind, returns_gets.
  apply (returns_for_each _ _ (fun d' => ok held d' /\ frame d d')); [|eauto using frame_refl].
  intros p d' Hp [Hok' F']. apply (safe_from held _ d _ F'). apply cancelConnection_safe; [done|].
  rewrite (fr_length _ _ F'). pose proof (ok_byFd _ _ Hok) as Hb. rewrite Forall_forall in Hb.
  destruct (Hb _ Hp) as (conn & Hconn & _). by eapply lookup_lt_Some.
Qed.

Lemma cancelChannel_safe held ch o d : ok held d -> safe held (synthesizeCancelationEventsForInputChannelLocked ch o) d.
Proof.
  intros Hok. apply returns_bind. eapply returns_getConnection; [done|split; [done|apply frame_refl]|].
  intros c Hc. by apply cancelConnection_safe.
Qed.

End CycleSafe.
