(* ===== verification/DispatchSafe.v ===== *)
(** * The input dispatcher: choosing targets is safe

    The invariant of the focus ([focus_ok]: the windows that can be touched,
    focused or hovered are known and have their information), and that the
    functions of [DispatchTargets] return without undefined behaviour, keep it,
    and leave the references to entries alone. *)

From Stdlib Require Import SpecFloat.
From S2P Require Import Prelude Geometry Input AndroidEvents InputTransport InputState Dispatcher DispatchTargets DispatchLoop.
From S2P Require Import DispatchMemory.

(** ** Touch states *)

Definition splits (flags : Z) : bool := Z.testbit flags 2.

Lemma has_split x : has x FLAG_SPLIT = splits x.
Proof. exact (has_shiftl x 2 ltac:(lia)). Qed.

Lemma has_foreground x : has x FLAG_FOREGROUND = Z.testbit x 0.
Proof. exact (has_shiftl x 0 ltac:(lia)). Qed.

(** A window that is touched is one of the windows, and is given some pointers
    when the touch is split. *)
Definition touched_ok (ws : list nat) (t : TouchedWindow) : Prop :=
  tw_window t ∈ ws /\ (splits (tw_flags t) = true -> tw_pointerIds t <> 0).

Definition temp_ok (ws : list nat) (s : TouchState) : Prop := Forall (touched_ok ws) (ts_windows s).

Lemma merge_ok ws flags ids t :
  touched_ok ws t -> (splits flags = true -> ids <> 0) -> touched_ok ws (merge_window flags ids t).
Proof.
  intros [Hin Hs] Hf. split; [done|]. cbn [merge_window tw_flags tw_pointerIds]. intros H. intros [H1 H2]%Z.lor_eq_0_iff.
  assert (splits (Z.lor (tw_flags t) flags) = true) as Hor.
  { destruct (has flags FLAG_DISPATCH_AS_SLIPPERY_EXIT); [|done]. unfold splits in *.
    rewrite Z.ldiff_spec in H. by apply andb_true_iff in H as [H _]. }
  unfold splits in *. rewrite Z.lor_spec in Hor. apply orb_true_iff in Hor as [Hor|Hor]; [by apply Hs|by apply Hf].
Qed.

Lemma add_ok ws w flags ids s :
  w ∈ ws -> (splits flags = true -> ids <> 0) -> temp_ok ws s -> temp_ok ws (addOrUpdateWindow w flags ids s).
Proof.
  intros Hw Hf Hs. unfold temp_ok in *. cbn. induction Hs as [|t l Ht Hl IH]; cbn; [by constructor|].
  destruct (same_window w t); constructor; auto using merge_ok.
Qed.

Lemma add_foreground w flags ids l :
  existsb is_foreground l = true -> existsb is_foreground (add_window w flags ids l) = true.
Proof.
  induction l as [|t l IH]; cbn; [done|]. intros H. destruct (same_window w t); cbn; [|destruct (is_foreground t); auto].
  destruct (is_foreground t) eqn:E; [|by destruct (existsb is_foreground l); [apply orb_true_r|]].
  assert (is_foreground (merge_window flags ids t) = true) as ->; [|done].
  unfold is_foreground in *. rewrite has_foreground in *. cbn [merge_window tw_flags].
  destruct (has flags _); rewrite ?Z.ldiff_spec, Z.lor_spec, E; done.
Qed.

Lemma first_foreground s :
  existsb is_foreground (ts_windows s) = true -> is_Some (getFirstForegroundWindowHandle s).
Proof.
  unfold getFirstForegroundWindowHandle. generalize (ts_windows s). intros l H. induction l as [|t l IH]; cbn in *; [done|].
  destruct (is_foreground t); [by eexists|by apply IH].
Qed.

Lemma first_foreground_in ws s w : temp_ok ws s -> getFirstForegroundWindowHandle s = Some w -> w ∈ ws.
Proof.
  unfold getFirstForegroundWindowHandle, temp_ok. intros Hs Hf. apply fmap_Some in Hf as (t & Ht & ->).
  apply find_some in Ht as [Ht _]. apply list_elem_of_In in Ht. rewrite Forall_forall in Hs. by apply Hs.
Qed.

Lemma made_as_is_ok ws s : temp_ok ws s -> temp_ok ws (filterNonAsIsTouchWindows s).
Proof.
  intros Hs. unfold temp_ok, filterNonAsIsTouchWindows in *. cbn. apply Forall_map. rewrite Forall_forall in *.
  intros t Ht. apply list_elem_of_In, filter_In in Ht as [Ht _]. apply list_elem_of_In in Ht. destruct (Hs t Ht) as [Hin Hp].
  split; [done|]. cbn [made_as_is tw_flags tw_pointerIds]. unfold splits in *. rewrite Z.lor_spec, Z.ldiff_spec.
  intros H. apply Hp. destruct (Z.testbit (tw_flags t) 2); [done|exact H].
Qed.

Lemma lift_ok ws id l : Forall (touched_ok ws) l -> Forall (touched_ok ws) (lift_pointer id l).
Proof.
  induction 1 as [|t l [Hin Hp] Hl IH]; cbn; [done|]. destruct (has _ _); [|by constructor].
  destruct (Z.eqb_spec (clearBit (tw_pointerIds t) id) 0) as [|Hne]; [done|]. constructor; [|done]. split; [done|]. done.
Qed.

Lemma remove_ok ws w s : temp_ok ws s -> temp_ok ws (removeWindow w s).
Proof.
  unfold temp_ok. cbn. induction 1 as [|t l Ht Hl IH]; cbn; [done|]. destruct (same_window w t); [done|by constructor].
Qed.

Lemma pointer_bit id : 0 <= id <= 31 -> markBit 0 id <> 0.
Proof.
  intros Hid. unfold markBit. rewrite Z.lor_0_l. unfold valueForBit. rewrite Z.shiftr_div_pow2 by lia.
  assert (2 ^ id <= 2 ^ 31) by (apply Z.pow_le_mono_r; lia). assert (0 < 2 ^ id) by (apply Z.pow_pos_nonneg; lia).
  assert (1 <= 2147483648 / 2 ^ id) by (apply Z.div_le_lower_bound; lia). lia.
Qed.

(** ** The focus *)

Definition has_info (f : Focus) (w : nat) : Prop := is_Some (fo_handles f !! w ≫= wh_info).

Record focus_ok (f : Focus) : Prop := {
  fo_info : Forall (has_info f) (mWindowHandles f);
  fo_focused : forall w, mFocusedWindowHandle f = Some w -> w ∈ mWindowHandles f;
  fo_hover : forall w, mLastHoverWindowHandle f = Some w -> w ∈ mWindowHandles f;
  fo_touch : temp_ok (mWindowHandles f) (mTouchState f);
}.

Definition work_ok (ws : list nat) (work : TouchWork) : Prop :=
  temp_ok ws (wk_temp work) /\ (forall w, wk_newHover work = Some w -> w ∈ ws).

(** ** Code that only reads *)

Definition reads {S A} (m : M S A) (Q : A -> Prop) (s : S) : Prop := exists a, m s = Ret a s /\ Q a.

Lemma reads_returns {S A} (m : M S A) (P : A -> Prop) (Q : A -> S -> Prop) s :
  reads m P s -> (forall a, P a -> Q a s) -> returns m Q s.
Proof. intros (a & E & HP) HQ. unfold returns. rewrite E. auto. Qed.

Lemma reads_ret {S A} (a : A) Q (s : S) : Q a -> reads (mret a) Q s.
Proof. intros HQ. by exists a. Qed.

Lemma reads_bind {S A B} (m : M S A) (k : A -> M S B) P Q s :
  reads m P s -> (forall a, P a -> reads (k a) Q s) -> reads (m ≫= k) Q s.
Proof. intros (a & E & HP) Hk. destruct (Hk a HP) as (b & E' & HQ). exists b. split; [|done]. unfold mbind, M_bind. by rewrite E. Qed.

Lemma reads_gets {S A} (f : S -> A) (Q : A -> Prop) s : Q (f s) -> reads (gets f) Q s.
Proof. intros HQ. by exists (f s). Qed.

Lemma reads_deref {S A} (f : S -> option A) (Q : A -> Prop) s a : f s = Some a -> Q a -> reads (deref f) Q s.
Proof. intros E HQ. exists a. unfold deref. by rewrite E. Qed.

Lemma reads_mono {S A} (m : M S A) (P Q : A -> Prop) s : reads m P s -> (forall a, P a -> Q a) -> reads m Q s.
Proof. intros (a & E & HP) H. exists a. auto. Qed.

Section Targets.
Context {K : Type} `{W : InputWorld K} `{!InputSocketLaws K}.
Implicit Types d : Dispatcher K.

Lemma getInfo_reads d w :
  focus_ok (d_focus d) -> w ∈ mWindowHandles (d_focus d) -> reads (getInfo w) (fun _ => True) d.
Proof.
  intros [Hi _ _ _] Hw. rewrite Forall_forall in Hi. destruct (Hi w Hw) as [i E]. by eapply reads_deref.
Qed.

Lemma getConnection_reads held d channel :
  ok held d -> reads (getConnectionIndexLocked channel)
    (fun r => forall c, r = Some c -> (c < length (d_connections d))%nat) d.
Proof.
  intros Hok. pose proof (returns_getConnection held d channel
    (fun r d' => d' = d /\ forall c, r = Some c -> (c < length (d_connections d))%nat) Hok) as H.
  destruct (returns_some _ _ _ (H ltac:(done) ltac:(intros c Hc; split; [done|]; by intros ? [= <-]))) as (r & d' & E & -> & Hr).
  by exists r.
Qed.

Lemma ready_reads held d t w b :
  ok held d -> focus_ok (d_focus d) -> w ∈ mWindowHandles (d_focus d) ->
  reads (isWindowReadyForMoreInputLocked t w b) (fun _ => True) d.
Proof.
  intros Hok Hf Hw. eapply reads_bind; [by apply getInfo_reads|]. intros i _.
  eapply reads_bind; [by eapply getConnection_reads|]. intros [c|] Hc; [|by apply reads_ret]. specialize (Hc c eq_refl).
  destruct (lookup_lt_is_Some_2 _ _ Hc) as [conn Hconn].
  eapply (reads_bind _ _ (fun x => x = conn)); [by eapply reads_deref|]. intros ? ->.
  destruct (cn_blocked conn); [by apply reads_ret|]. destruct b; [by apply reads_ret|].
  destruct (waitQueue conn) as [|de q] eqn:Eq; [by apply reads_ret|].
  destruct (ok_alive held d (de_event de) Hok) as [e He].
  { apply elem_of_app. right. unfold refs. do 4 (apply elem_of_app; right). eapply conns_in; [exact Hconn|].
    rewrite conn_refs_app, Eq. set_solver. }
  eapply (reads_bind _ _ (fun _ => True)); [by eapply reads_deref|]. intros e' _. by apply reads_ret.
Qed.

Lemma point_reads d m i : motion_ok m -> (i < length (me_pointers m))%nat -> reads (point_of m i) (fun _ => True) d.
Proof.
  intros [_ Hp] Hi. destruct (lookup_lt_is_Some_2 _ _ Hi) as [p E].
  rewrite Forall_forall in Hp. destruct (Hp p) as ([x Hx] & [y Hy] & _); [by eapply list_elem_of_lookup_2|].
  eapply (reads_bind _ _ (fun q => q = p)); [by eapply reads_deref|]. intros ? ->.
  eapply (reads_bind _ _ (fun _ => True)); [by eapply reads_deref|]. intros ? _.
  eapply (reads_bind _ _ (fun _ => True)); [by eapply reads_deref|]. intros ? _. by apply reads_ret.
Qed.

Lemma touched_reads d ws x y :
  focus_ok (d_focus d) -> ws ⊆ mWindowHandles (d_focus d) ->
  reads (find_touched ws x y) (fun r => forall w, r = Some w -> w ∈ mWindowHandles (d_focus d)) d.
Proof.
  intros Hf. induction ws as [|w ws IH]; intros Hs; cbn [find_touched]; [by apply reads_ret|].
  eapply reads_bind; [apply getInfo_reads; [done|set_solver]|]. intros i _.
  case_match; [apply reads_ret; intros ? [= <-]; set_solver|]. case_match; [by apply reads_ret|]. apply IH. set_solver.
Qed.

Lemma obscured_reads d w x y : focus_ok (d_focus d) -> reads (isWindowObscuredAtPointLocked w x y) (fun _ => True) d.
Proof.
  intros Hf. eapply reads_bind; [by apply (reads_gets _ (fun l => l = mWindowHandles (d_focus d)))|]. intros ? ->.
  assert (forall l, l ⊆ mWindowHandles (d_focus d) -> reads (obscured_by l w x y) (fun _ => True) d) as H; [|by apply H].
  induction l as [|o l IH]; intros Hl; cbn [obscured_by]; [by apply reads_ret|]. case_match; [by apply reads_ret|].
  eapply reads_bind; [apply getInfo_reads; [done|set_solver]|]. intros i _. case_match; [by apply reads_ret|]. apply IH. set_solver.
Qed.

Lemma slippery_reads d l found :
  focus_ok (d_focus d) -> Forall (touched_ok (mWindowHandles (d_focus d))) l ->
  reads (slippery found l) (fun b => b = true -> found = true \/ existsb is_foreground l = true) d.
Proof.
  intros Hf Hl. revert found. induction Hl as [|t l [Hw _] Hl IH]; intros found; cbn [slippery existsb]; [apply reads_ret; auto|].
  destruct (is_foreground t); cbn [orb].
  - destruct found; [by apply reads_ret|]. eapply reads_bind; [by apply getInfo_reads|]. intros i _.
    case_match; [|by apply reads_ret]. eapply reads_mono; [apply IH|]. auto.
  - apply IH.
Qed.

Lemma find_new_reads d ws down x y topError temp :
  focus_ok (d_focus d) -> ws ⊆ mWindowHandles (d_focus d) -> temp_ok (mWindowHandles (d_focus d)) temp ->
  reads (find_new_touched ws down x y topError temp)
    (fun r => (forall w, fst (fst r) = Some w -> w ∈ mWindowHandles (d_focus d)) /\ temp_ok (mWindowHandles (d_focus d)) (snd r)) d.
Proof.
  intros Hf. revert topError temp. induction ws as [|w ws IH]; intros top temp Hs Ht; cbn [find_new_touched]; [by apply reads_ret|].
  assert (w ∈ mWindowHandles (d_focus d)) as Hw by set_solver. assert (ws ⊆ mWindowHandles (d_focus d)) as Hs' by set_solver.
  eapply reads_bind; [by apply getInfo_reads|]. intros i _. cbv zeta.
  destruct (takes_touch i x y); [apply reads_ret; split; [by intros ? [= <-]|done]|].
  destruct (_ && has (layoutParamsFlags i) FLAG_WATCH_OUTSIDE_TOUCH); [|by apply IH].
  eapply reads_bind; [by apply obscured_reads|]. intros o _. apply IH; [done|]. apply add_ok; [done| |done]. by destruct o.
Qed.

Lemma hide_reads d uid l temp :
  focus_ok (d_focus d) -> Forall (touched_ok (mWindowHandles (d_focus d))) l -> temp_ok (mWindowHandles (d_focus d)) temp ->
  existsb is_foreground (ts_windows temp) = true ->
  reads (hide_coords uid l temp)
    (fun r => temp_ok (mWindowHandles (d_focus d)) r /\ existsb is_foreground (ts_windows r) = true) d.
Proof.
  intros Hf Hl. revert temp. induction Hl as [|t l [Hw _] Hl IH]; intros temp Ht He; cbn [hide_coords]; [by apply reads_ret|].
  case_match; [|by apply IH]. eapply reads_bind; [by apply getInfo_reads|]. intros i _.
  apply IH; case_match; try done; [by apply add_ok|by apply add_foreground].
Qed.

Lemma wallpapers_reads d ws temp :
  focus_ok (d_focus d) -> ws ⊆ mWindowHandles (d_focus d) -> temp_ok (mWindowHandles (d_focus d)) temp ->
  reads (add_wallpapers ws temp) (temp_ok (mWindowHandles (d_focus d))) d.
Proof.
  intros Hf. revert temp. induction ws as [|w ws IH]; intros temp Hs Ht; cbn [add_wallpapers]; [by apply reads_ret|].
  eapply reads_bind; [apply getInfo_reads; [done|set_solver]|]. intros i _. apply IH; [set_solver|].
  case_match; [|done]. apply add_ok; [set_solver|done|done].
Qed.

Definition split_target (t : InputTarget) : Prop := splits (it_flags t) = true -> it_pointerIds t <> 0.

Lemma targets_reads d l :
  focus_ok (d_focus d) -> Forall (touched_ok (mWindowHandles (d_focus d))) l -> reads (window_targets l) (Forall split_target) d.
Proof.
  intros Hf. induction 1 as [|t l [Hw Ht] Hl IH]; cbn [window_targets]; [by apply reads_ret|].
  eapply (reads_bind _ _ split_target).
  { eapply reads_bind; [by apply getInfo_reads|]. intros i _. by apply reads_ret. }
  intros target Hs. eapply reads_bind; [exact IH|]. intros rest Hr. apply reads_ret. by constructor.
Qed.

(** ** Code that waits or moves the touch *)

(** Nothing changes of the entries, the queues and the connections. *)
Record soft d d' : Prop := {
  so_heap : d_heap d' = d_heap d;
  so_next : d_next d' = d_next d;
  so_connections : d_connections d' = d_connections d;
  so_byFd : mConnectionsByFd d' = mConnectionsByFd d;
  so_pending : mPendingEvent d' = mPendingEvent d;
  so_inbound : mInboundQueue d' = mInboundQueue d;
  so_lastKey : lastKeyEntry d' = lastKeyEntry d;
}.

Lemma soft_refl d : soft d d.
Proof. by split. Qed.

Lemma soft_trans d1 d2 d3 : soft d1 d2 -> soft d2 d3 -> soft d1 d3.
Proof. intros [] []. split; congruence. Qed.

(** What a stage leaves behind. *)
Definition stage_post {A} (ws : list nat) (Q : A -> Prop) (s : stage TouchWork A) : Prop :=
  match s with Next a => Q a | Failed work _ => work_ok ws work | Unresponsive _ _ => True end.

Definition calm {A} (held : list nat) (m : M (Dispatcher K) A) (Q : A -> Prop) d : Prop :=
  returns m (fun r d' => ok held d' /\ soft d d' /\ d_focus d' = d_focus d /\ Q r) d.

Lemma calm_reads {A} held (m : M (Dispatcher K) A) Q d : ok held d -> reads m Q d -> calm held m Q d.
Proof. intros Hok Hr. eapply reads_returns; [exact Hr|]. intros a Ha. eauto using soft_refl. Qed.

Lemma calm_bind {A B} held (m : M (Dispatcher K) A) (k : A -> M (Dispatcher K) B) P Q d :
  calm held m P d -> (forall a d', ok held d' -> d_focus d' = d_focus d -> P a -> calm held (k a) Q d') -> calm held (m ≫= k) Q d.
Proof.
  intros Hm Hk. apply returns_bind. eapply returns_mono; [exact Hm|]. intros a d' (Hok & Hs & Hf & HP).
  eapply returns_mono; [by apply Hk|]. intros b d'' (Hok' & Hs' & Hf' & HQ). split; [done|].
  split; [by eapply soft_trans|]. split; [congruence|done].
Qed.

Lemma calm_ret {A} held (a : A) (Q : A -> Prop) d : ok held d -> Q a -> calm held (mret a) Q d.
Proof. intros Hok HQ. eauto using soft_refl, calm_reads, reads_ret. Qed.

Lemma calm_mono {A} held (m : M (Dispatcher K) A) (P Q : A -> Prop) d :
  calm held m P d -> (forall a, P a -> Q a) -> calm held m Q d.
Proof. intros Hm HPQ. eapply returns_mono; [exact Hm|]. intros a d' (? & ? & ? & ?). auto. Qed.

Lemma ok_wait held d w : ok held d -> ok held (set_wait w d).
Proof. by intros []. Qed.

Lemma notReady_calm held t app window nw d : ok held d -> calm held (handleTargetsNotReadyLocked t app window nw) (fun _ => True) d.
Proof.
  intros Hok. apply returns_bind, returns_modify, returns_bind, returns_gets. set (d1 := set_wait _ d).
  assert (ok held d1) as Hok1 by (by apply ok_wait). assert (soft d d1) as S1 by done.
  destruct (tgw_expired _); [done|]. destruct (_ <=? t); [|done].
  apply returns_bind, returns_modify. by split; [apply post_ok|].
Qed.

Lemma not_ready_calm {A} ws held t app window nw (Q : A -> Prop) d :
  ok held d -> calm held (not_ready (A:=A) t app window nw) (stage_post ws Q) d.
Proof. intros Hok. eapply calm_bind; [by apply notReady_calm|]. intros r d' Hok' _ _. by apply calm_ret. Qed.

Lemma and_then_calm {A B} ws held (s : M (Dispatcher K) (stage TouchWork A)) (k : A -> M (Dispatcher K) (stage TouchWork B)) P Q d :
  calm held s (stage_post ws P) d ->
  (forall a d', ok held d' -> d_focus d' = d_focus d -> P a -> calm held (k a) (stage_post ws Q) d') ->
  calm held (and_then s k) (stage_post ws Q) d.
Proof.
  intros Hs Hk. eapply calm_bind; [exact Hs|]. intros [a|work res|res t] d' Hok Hf HP; [by apply Hk|by apply calm_ret..].
Qed.

Lemma begin_ok f m : focus_ok f -> stage_post (mWindowHandles f) (work_ok (mWindowHandles f)) (touch_begin m (mTouchState f)).
Proof.
  intros [_ _ _ Ht]. unfold touch_begin. repeat case_match; cbn; split; cbn; try done; by constructor.
Qed.

Lemma new_calm held t m nw work d :
  ok held d -> focus_ok (d_focus d) -> motion_ok m -> work_ok (mWindowHandles (d_focus d)) work ->
  calm held (touch_new t m nw work) (stage_post (mWindowHandles (d_focus d)) (work_ok (mWindowHandles (d_focus d)))) d.
Proof.
  intros Hok Hf Hm [Ht Hh]. set (ws := mWindowHandles (d_focus d)). pose proof Hm as [Hi Hps].
  eapply calm_bind; [apply calm_reads; [done|by apply point_reads]|]. intros [x y] d1 Hok1 Hf1 _.
  eapply calm_bind; [apply calm_reads, (reads_gets _ (fun f => f = d_focus d)); done|]. intros f d2 Hok2 Hf2 ->.
  rewrite <- Hf2 in Hf1. rewrite Hf1 in *. clear d1 Hok1 Hf2.
  eapply calm_bind; [apply calm_reads; [done|apply find_new_reads; rewrite ?Hf1; done]|]. rewrite Hf1.
  intros [[touched top] temp] d3 Hok3 Hf3 [Htouch Htemp]. cbn [fst snd] in *. case_match.
  { by apply not_ready_calm. }
  eapply (calm_bind _ _ _ (fun _ => True)).
  { destruct touched as [w|]; [|by apply calm_ret]. eapply calm_bind; [apply calm_reads; [done|apply getInfo_reads]|].
    - by rewrite Hf3. - rewrite Hf3. by apply Htouch. - intros i d4 Hok4 _ _. by apply calm_ret. }
  intros supports d4 Hok4 Hf4 _. rewrite Hf3 in Hf4. cbv zeta. set (touched' := if negb supports && _ then None else touched).
  assert (forall w, touched' = Some w -> w ∈ ws) as Ht' by (intros w; unfold touched'; case_match; [done|apply Htouch]).
  set (touched2 := match touched' with Some w => Some w | None => getFirstForegroundWindowHandle temp end).
  assert (forall w, touched2 = Some w -> w ∈ ws) as Ht2.
  { intros w. unfold touched2. destruct touched'; [apply Ht'|by apply first_foreground_in]. }
  destruct touched2 as [w|].
  2:{ case_match; [by apply not_ready_calm|]. by apply calm_ret. }
  specialize (Ht2 w eq_refl). eapply calm_bind; [apply calm_reads; [done|apply obscured_reads; by rewrite Hf4]|].
  intros o d5 Hok5 Hf5 _. destruct (lookup_lt_is_Some_2 _ _ Hi) as [p Hp].
  eapply (calm_bind _ _ _ (fun ids => supports || wk_split work = true -> ids <> 0)).
  { cbn. destruct (supports || wk_split work); [|by apply calm_ret].
    eapply (calm_bind _ _ _ (fun q => q = p)); [apply calm_reads; [done|by eapply reads_deref]|]. intros ? d6 Hok6 _ ->.
    apply calm_ret; [done|]. intros _. apply pointer_bit. rewrite Forall_forall in Hps. by eapply Hps, list_elem_of_lookup_2. }
  intros ids d6 Hok6 _ Hids. apply calm_ret; [done|]. split; cbn.
  - apply add_ok; [done| |done]. intros Hsp. apply Hids. cbn in *. destruct (supports || wk_split work); [done|]. by destruct o.
  - intros w' Hw'. destruct (is_hover _); [by injection Hw' as <-|]. destruct (_ =? AMOTION_EVENT_ACTION_SCROLL); [|by apply Hh].
    by apply (fo_hover _ Hf).
Qed.

Lemma more_calm held m work d :
  ok held d -> focus_ok (d_focus d) -> motion_ok m -> work_ok (mWindowHandles (d_focus d)) work ->
  calm held (touch_more m work) (stage_post (mWindowHandles (d_focus d)) (work_ok (mWindowHandles (d_focus d)))) d.
Proof.
  intros Hok Hf Hm [Ht Hh]. set (ws := mWindowHandles (d_focus d)). pose proof Hm as [Hi Hps].
  assert (0 < length (me_pointers m))%nat as H0 by lia. unfold touch_more.
  destruct (ts_down (wk_temp work)); cbn [negb]; [|by apply calm_ret].
  eapply (calm_bind _ _ _ (fun b => b = true -> existsb is_foreground (ts_windows (wk_temp work)) = true)).
  { case_match; [|by apply calm_ret]. apply calm_reads; [done|]. eapply reads_mono; [by apply slippery_reads|].
    intros b Hb E. by destruct (Hb E). }
  intros b d1 Hok1 Hf1 Hb. destruct b; [|by apply calm_ret]. specialize (Hb eq_refl).
  destruct (first_foreground _ Hb) as [o Ho]. pose proof (first_foreground_in _ _ _ Ht Ho) as Hin.
  eapply calm_bind; [apply calm_reads; [done|by apply point_reads]|]. intros [x y] d2 Hok2 Hf2 _. rewrite Hf1 in Hf2.
  eapply calm_bind; [apply calm_reads; [done|]; eapply reads_bind;
    [apply (reads_gets _ (fun l => l = mWindowHandles (d_focus d2))); done|intros ? ->; apply touched_reads; by rewrite ?Hf2]|].
  rewrite Hf2. intros [w|] d3 Hok3 Hf3 Hw; [|by apply calm_ret]. specialize (Hw w eq_refl). case_match; [by apply calm_ret|].
  eapply (calm_bind _ _ _ (fun q => q = o)); [apply calm_reads; [done|by eapply reads_deref]|]. intros ? d4 Hok4 Hf4 ->.
  rewrite Hf3 in Hf4.
  eapply calm_bind; [apply calm_reads; [done|apply getInfo_reads; by rewrite Hf4]|]. intros i d5 Hok5 Hf5 _. rewrite Hf4 in Hf5.
  eapply calm_bind; [apply calm_reads; [done|apply obscured_reads; by rewrite Hf5]|]. intros ob d6 Hok6 _ _.
  destruct (lookup_lt_is_Some_2 _ _ H0) as [p Hp].
  eapply (calm_bind _ _ _ (fun ids => supportsSplitTouch i || wk_split work = true -> ids <> 0)).
  { destruct (supportsSplitTouch i || wk_split work); [|by apply calm_ret].
    eapply (calm_bind _ _ _ (fun q => q = p)); [apply calm_reads; [done|by eapply reads_deref]|]. intros ? d7 Hok7 _ ->.
    apply calm_ret; [done|]. intros _. apply pointer_bit. rewrite Forall_forall in Hps. by eapply Hps, list_elem_of_lookup_2. }
  intros ids d7 Hok7 _ Hids. apply calm_ret; [done|]. split; [|done]. cbn. apply add_ok; [done| |by apply add_ok].
  intros Hsp. apply Hids. destruct (supportsSplitTouch i || wk_split work); [done|]. by destruct ob.
Qed.

Lemma hover_ok ws last work :
  work_ok ws work -> (forall w, last = Some w -> w ∈ ws) -> work_ok ws (touch_hover last work).
Proof.
  intros [Ht Hh] Hl. unfold touch_hover. case_match; [done|]. split; [|done]. cbn [wk_temp wk_set_temp].
  assert (temp_ok ws (match last with Some w => addOrUpdateWindow w FLAG_DISPATCH_AS_HOVER_EXIT 0 (wk_temp work) | None => wk_temp work end)) as H1.
  { destruct last; [|done]. apply add_ok; [by apply Hl|done|done]. }
  destruct (wk_newHover work); [|done]. apply add_ok; [by apply Hh|done|done].
Qed.

Lemma touch_ready_calm held t nw l d :
  ok held d -> focus_ok (d_focus d) -> Forall (touched_ok (mWindowHandles (d_focus d))) l ->
  calm held (touch_ready t nw l) (stage_post (mWindowHandles (d_focus d)) (fun _ => True)) d.
Proof.
  intros Hok Hf Hl. revert d Hok Hf Hl. induction l as [|x l IH]; intros d Hok Hf Hl; cbn [touch_ready]; [by apply calm_ret|].
  apply Forall_cons in Hl as [[Hx _] Hl]. case_match; [|by apply IH].
  eapply calm_bind; [apply calm_reads; [done|by apply getInfo_reads]|]. intros i d1 Hok1 Hf1 _.
  eapply (calm_bind _ _ _ (fun _ => True)).
  { case_match; [by apply calm_ret|]. apply calm_reads; [done|]. eapply ready_reads; by rewrite ?Hf1. }
  intros r d2 Hok2 Hf2 _. rewrite Hf1 in Hf2. destruct r; [|by apply not_ready_calm].
  rewrite <- Hf2 in *. by apply IH.
Qed.

Lemma targets_calm held t m nw work d :
  ok held d -> focus_ok (d_focus d) -> work_ok (mWindowHandles (d_focus d)) work ->
  calm held (touch_targets t m nw work) (stage_post (mWindowHandles (d_focus d))
    (fun r => work_ok (mWindowHandles (d_focus d)) (fst r) /\ Forall split_target (snd r))) d.
Proof.
  intros Hok Hf Hw. set (ws := mWindowHandles (d_focus d)).
  eapply calm_bind; [apply calm_reads, (reads_gets _ (fun f => f = d_focus d)); done|]. intros f d1 Hok1 Hf1 ->. cbv zeta.
  pose proof (hover_ok ws _ _ Hw (fo_hover _ Hf)) as Hwork. set (work' := touch_hover _ work) in *. destruct Hwork as [Ht Hh].
  destruct (existsb is_foreground _) eqn:Ee; cbn [negb]; [|by apply calm_ret].
  destruct (first_foreground _ Ee) as [w Hfg]. pose proof (first_foreground_in _ _ _ Ht Hfg) as Hin.
  eapply (calm_bind _ _ _ (fun s => temp_ok ws s /\ existsb is_foreground (ts_windows s) = true)).
  { case_match; [|by apply calm_ret].
    eapply (calm_bind _ _ _ (fun q => q = w)); [apply calm_reads; [done|by eapply reads_deref]|]. intros ? d2 Hok2 Hf2 ->.
    rewrite Hf1 in Hf2. eapply calm_bind; [apply calm_reads; [done|apply getInfo_reads; by rewrite Hf2]|].
    intros i d3 Hok3 Hf3 _. rewrite Hf2 in Hf3. apply calm_reads; [done|]. unfold ws. rewrite <- Hf3. apply hide_reads; by rewrite ?Hf3. }
  intros temp d2 Hok2 Hf2 [Htemp Hfore]. rewrite Hf1 in Hf2.
  eapply and_then_calm; [unfold ws; rewrite <- Hf2; apply touch_ready_calm; by rewrite ?Hf2|]. intros [] d3 Hok3 Hf3 _.
  rewrite Hf2 in Hf3. destruct (first_foreground _ Hfore) as [w' Hfg']. pose proof (first_foreground_in _ _ _ Htemp Hfg') as Hin'.
  eapply (calm_bind _ _ _ (temp_ok ws)).
  { case_match; [|by apply calm_ret].
    eapply (calm_bind _ _ _ (fun q => q = w')); [apply calm_reads; [done|by eapply reads_deref]|]. intros ? d4 Hok4 Hf4 ->.
    rewrite Hf3 in Hf4. eapply calm_bind; [apply calm_reads; [done|apply getInfo_reads; by rewrite Hf4]|].
    intros i d5 Hok5 Hf5 _. rewrite Hf4 in Hf5. case_match; [|by apply calm_ret]. apply calm_reads; [done|].
    unfold ws. rewrite <- Hf5. apply wallpapers_reads; by rewrite ?Hf5. }
  intros temp2 d4 Hok4 Hf4 Htemp2. rewrite Hf3 in Hf4.
  eapply calm_bind; [apply calm_reads; [done|apply targets_reads; by rewrite ?Hf4]|]. intros l d5 Hok5 _ Hl.
  apply calm_ret; [done|]. split; [|done]. split; [by apply made_as_is_ok|done].
Qed.

Lemma find_calm held t m nw d :
  ok held d -> focus_ok (d_focus d) -> motion_ok m ->
  calm held (touch_find t m nw) (stage_post (mWindowHandles (d_focus d))
    (fun r => work_ok (mWindowHandles (d_focus d)) (fst r) /\ Forall split_target (snd r))) d.
Proof.
  intros Hok Hf Hm.
  eapply calm_bind; [apply calm_reads, (reads_gets _ (fun s => s = mTouchState (d_focus d))); done|]. intros s d1 Hok1 Hf1 ->.
  eapply and_then_calm; [apply calm_ret; [done|by apply begin_ok]|]. intros work d2 Hok2 Hf2 Hw. rewrite Hf1 in Hf2.
  eapply (and_then_calm _ _ _ _ (work_ok (mWindowHandles (d_focus d)))).
  - rewrite <- Hf2. case_match; [apply new_calm|apply more_calm]; by rewrite ?Hf2.
  - intros work' d3 Hok3 Hf3 Hw'. rewrite Hf2 in Hf3. rewrite <- Hf3. apply targets_calm; by rewrite ?Hf3.
Qed.

(** The touch state that is kept is one of the windows'. *)
Lemma commit_safe held m work d :
  ok held d -> focus_ok (d_focus d) -> motion_ok m -> work_ok (mWindowHandles (d_focus d)) work ->
  returns (touch_commit m work) (fun _ d' => ok held d' /\ soft d d' /\ focus_ok (d_focus d')) d.
Proof.
  intros Hok Hf Hm [Ht Hh]. set (ws := mWindowHandles (d_focus d)) in *. unfold touch_commit.
  destruct (wk_wrongDevice work); [by split|]. apply returns_bind, returns_gets, returns_bind.
  eapply (reads_returns _ (fun r => temp_ok ws (snd r))).
  - pose proof (fo_touch _ Hf) as Hold. assert (temp_ok ws TouchState_new) as Hnew by constructor.
    destruct (is_hover _); [apply reads_ret; cbn; case_match; [constructor|done]|].
    destruct (_ || _); [by apply reads_ret|]. destruct (_ =? AMOTION_EVENT_ACTION_DOWN); [by apply reads_ret|].
    destruct (_ =? AMOTION_EVENT_ACTION_POINTER_UP); [|destruct (_ =? AMOTION_EVENT_ACTION_SCROLL); by apply reads_ret].
    destruct (wk_split work); [|by apply reads_ret]. destruct (lookup_lt_is_Some_2 _ _ (proj1 Hm)) as [p Hp].
    eapply (reads_bind _ _ (fun q => q = p)); [by eapply reads_deref|]. intros ? ->. apply reads_ret. cbn. by apply lift_ok.
  - intros [b s] Hs. apply returns_bind, returns_modify. split; [by destruct Hok|]. split; [done|].
    destruct Hf as [Hi Hfo _ _]. by split.
Qed.

Lemma findTouched_safe held t m nw d :
  ok held d -> focus_ok (d_focus d) -> motion_ok m ->
  returns (findTouchedWindowTargetsLocked t m nw)
    (fun r d' => ok held d' /\ soft d d' /\ focus_ok (d_focus d') /\ Forall split_target (snd (fst (fst r)))) d.
Proof.
  intros Hok Hf Hm. apply returns_bind. eapply returns_clock; [done|]. intros t' k Hok1 _.
  apply returns_bind. eapply returns_mono; [by apply find_calm|]. cbn beta.
  intros [[work targets]|work res|res t2] d2 (Hok2 & S2 & Hf2 & Hp); cbn [stage_post] in Hp.
  - destruct Hp as [Hw Hl]. apply returns_bind. eapply returns_mono; [apply commit_safe; by rewrite ?Hf2|].
    intros b d3 (Hok3 & S3 & Hf3). split; [done|]. split; [eapply soft_trans; [|done]; eapply soft_trans; [|exact S2]; done|]. done.
  - apply returns_bind. eapply returns_mono; [apply commit_safe; by rewrite ?Hf2|].
    intros b d3 (Hok3 & S3 & Hf3). split; [done|]. split; [eapply soft_trans; [|done]; eapply soft_trans; [|exact S2]; done|]. done.
  - split; [done|]. split; [eapply soft_trans; [|exact S2]; done|]. rewrite Hf2. done.
Qed.

Lemma findFocused_calm held t b nw d :
  ok held d -> focus_ok (d_focus d) ->
  calm held (findFocusedWindowTargetsLocked t b nw)
    (fun r => Forall (fun target => has (it_flags target) FLAG_SPLIT = false) (snd (fst r))) d.
Proof.
  intros Hok Hf.
  eapply calm_bind; [apply calm_reads, (reads_gets _ (fun f => f = d_focus d)); done|]. intros f d1 Hok1 Hf1 ->.
  destruct (mFocusedWindowHandle (d_focus d)) as [w|] eqn:Ew.
  2:{ destruct (mFocusedApplicationHandle (d_focus d)) as [a|]; [|by apply calm_ret].
      eapply calm_bind; [by apply notReady_calm|]. intros r d2 Hok2 _ _. by apply calm_ret. }
  pose proof (fo_focused _ Hf w Ew) as Hin.
  eapply calm_bind; [apply calm_reads; [done|apply getInfo_reads; by rewrite Hf1]|]. intros i d2 Hok2 Hf2 _. rewrite Hf1 in Hf2.
  eapply (calm_bind _ _ _ (fun _ => True)).
  { case_match; [by apply calm_ret|]. apply calm_reads; [done|]. eapply ready_reads; by rewrite ?Hf2. }
  intros [] d3 Hok3 Hf3 _; rewrite Hf2 in Hf3.
  - eapply (calm_bind _ _ _ (fun target => has (it_flags target) FLAG_SPLIT = false)).
    { eapply calm_bind; [apply calm_reads; [done|apply getInfo_reads; by rewrite Hf3]|]. intros i' d4 Hok4 _ _. by apply calm_ret. }
    intros target d4 Hok4 _ Ht. apply calm_ret; [done|]. by constructor.
  - eapply calm_bind; [by apply notReady_calm|]. intros r d4 Hok4 _ _. by apply calm_ret.
Qed.

End Targets.
