(* ===== verification/DispatchInvariant.v ===== *)
(** * The input dispatcher: its invariant

    The functions of [DispatchLoop] keep the count of references ([ok]) and the
    windows known ([focus_ok]), and return: no entry is used after it is gone, no
    handle without its information, and no loop runs on.  The theorem is about any
    sequence of calls of the interface. *)

From Stdlib Require Import SpecFloat.
From S2P Require Import Prelude Geometry Input AndroidEvents InputTransport InputState Dispatcher DispatchTargets DispatchLoop.
From S2P Require Import DispatchMemory DispatchSafe.

(** The references of an option. *)
Lemma occ_option a o : occ a (option_list o) = match o with Some b => if (b =? a)%nat then 1%nat else 0%nat | None => 0%nat end.
Proof. destruct o; cbn; lia. Qed.

(** The references before and after a move are the same. *)
Ltac count E :=
  intros ?; unfold refs; d_simpl; cbn [app occ]; rewrite ?E, ?occ_app, ?occ_option, ?cmds_app, ?conns_app;
  cbn [app occ]; rewrite ?occ_app, ?occ_option; cbn [app occ]; lia.

(** A policy that never has another key for one that was not handled, as
    [DummyInputDispatcherPolicy]. *)
Class NoFallbackKeys (K : Type) {P : InputDispatcherPolicy K} : Prop :=
  no_fallback_key : forall w event flags, dispatchUnhandledKey w event flags = None.

Section Invariant.
Context {K : Type} `{W : InputWorld K} `{!InputSocketLaws K} `{P : InputDispatcherPolicy K} `{!NoFallbackKeys K}
  `{Hs : InputHandles}.
Implicit Types d : Dispatcher K.

(** What outer code relies on across a call. *)
Record keeps_outer d d' : Prop := {
  ko_focus : d_focus d' = d_focus d;
  ko_pending : mPendingEvent d' = mPendingEvent d;
  ko_byFd : mConnectionsByFd d' = mConnectionsByFd d;
  ko_conns : map conn_id (d_connections d') = map conn_id (d_connections d);
  ko_commands : (commands_left d' <= commands_left d)%nat;
}.

Lemma outer_refl d : keeps_outer d d.
Proof. by split. Qed.

Lemma outer_trans d1 d2 d3 : keeps_outer d1 d2 -> keeps_outer d2 d3 -> keeps_outer d1 d3.
Proof. intros [] []. split; try congruence. lia. Qed.

Lemma frame_outer d d' : frame d d' -> keeps_outer d d'.
Proof. intros []. by split. Qed.

Lemma ko_length d d' : keeps_outer d d' -> length (d_connections d') = length (d_connections d).
Proof. intros F. by rewrite <- (length_map conn_id), (ko_conns _ _ F), length_map. Qed.

Definition good {A} (held : list nat) (m : M (Dispatcher K) A) d : Prop :=
  returns m (fun _ d' => ok held d' /\ keeps_outer d d') d.

Lemma good_safe {A} held (m : M (Dispatcher K) A) d : safe held m d -> good held m d.
Proof. intros H. eapply returns_mono; [exact H|]. intros a d' [? ?]. eauto using frame_outer. Qed.

Lemma good_from {A} held (m : M (Dispatcher K) A) d0 d :
  keeps_outer d0 d -> good held m d -> returns m (fun _ d' => ok held d' /\ keeps_outer d0 d') d.
Proof. intros F Hm. eapply returns_mono; [exact Hm|]. intros a d' [? ?]. eauto using outer_trans. Qed.

Lemma good_bind {A B} held held' (m : M (Dispatcher K) A) (k : A -> M (Dispatcher K) B) d :
  good held m d -> (forall a d', ok held d' -> keeps_outer d d' -> good held' (k a) d') -> good held' (m ≫= k) d.
Proof.
  intros Hm Hk. apply returns_bind. eapply returns_mono; [exact Hm|]. intros a d' [Hok F]. apply good_from; auto.
Qed.

Lemma good_ret {A} held (a : A) d : ok held d -> good held (mret a) d.
Proof. intros Hok. split; [done|apply outer_refl]. Qed.

(** ** Simple assignments *)

Ltac by_parts := let H := fresh in intros H; destruct H; by split.

Lemma ok_set_wait held w d : ok held d -> ok held (set_wait w d) /\ keeps_outer d (set_wait w d).
Proof. intros Hok. split; [revert Hok; by_parts|by split]. Qed.
Lemma ok_set_modes held m d : ok held d -> ok held (set_modes m d) /\ keeps_outer d (set_modes m d).
Proof. intros Hok. split; [revert Hok; by_parts|by split]. Qed.
Lemma ok_set_unblocked held u d : ok held d -> ok held (set_unblocked u d) /\ keeps_outer d (set_unblocked u d).
Proof. intros Hok. split; [revert Hok; by_parts|by split]. Qed.
Lemma ok_set_nextRepeat held t d : ok held d -> ok held (set_nextRepeat t d) /\ keeps_outer d (set_nextRepeat t d).
Proof. intros Hok. split; [revert Hok; by_parts|by split]. Qed.
Lemma ok_set_world' held k d : ok held d -> ok held (set_world k d) /\ keeps_outer d (set_world k d).
Proof. intros Hok. split; [revert Hok; by_parts|by split]. Qed.
Lemma ok_set_focus held f d : ok held d -> ok held (set_focus f d).
Proof. by_parts. Qed.

Lemma in_lastKey held d a : lastKeyEntry d = Some a -> a ∈ held ++ refs d.
Proof. intros E. unfold refs. rewrite E. set_solver. Qed.

(** ** Key repeats *)

Lemma drop_lastKey held d a :
  ok held d -> lastKeyEntry d = Some a -> ok (a :: held) (set_lastKey None d) /\ keeps_outer d (set_lastKey None d).
Proof.
  intros Hok E. pose proof Hok as [Hc Hf Hk Hq Hi Hm Hb Hfb]. split; [|by split].
  eapply (ok_move held _ d); try done; d_simpl.
  - count E.
  - rewrite E in Hk. apply Forall_app in Hk as [_ Hk]. done.
Qed.

Lemma resetKeyRepeat_good held d : ok held d -> good held resetKeyRepeatLocked d.
Proof.
  intros Hok. apply returns_bind, returns_gets. destruct (lastKeyEntry d) as [a|] eqn:E; [|by apply good_ret].
  apply returns_bind, returns_modify. destruct (drop_lastKey held d a Hok E) as [Hok1 F1].
  eapply returns_release; [exact Hok1|]. intros h d2 Hok2 F2. split; [done|]. eapply outer_trans; [exact F1|by apply frame_outer].
Qed.

(** The running function's reference becomes that of the key repeat. *)
Lemma set_lastKey_ok held d a :
  ok (a :: held) d -> lastKeyEntry d = None -> at_addr is_key (d_heap d) a -> ok held (set_lastKey (Some a) d).
Proof.
  intros Hok E Hk'. pose proof Hok as [Hc Hf Hk Hq Hi Hm Hb Hfb]. eapply (ok_move (a :: held) _ d); try done; d_simpl.
  - count E.
  - rewrite E in Hk. by constructor.
Qed.

Lemma key_of_returns e k Q (s : Dispatcher K) : entry_type e = KEY k -> Q k s -> returns (key_of e) Q s.
Proof. intros E HQ. eapply returns_deref; [by rewrite E|done]. Qed.

Lemma is_key_inv e : is_key e -> exists k, entry_type e = KEY k.
Proof. unfold is_key. destruct (entry_type e) as [| |k|]; try done. eauto. Qed.

Lemma lastKey_typed held d a : ok held d -> lastKeyEntry d = Some a -> at_addr is_key (d_heap d) a.
Proof. intros Hok E. pose proof (ok_keys _ _ Hok) as Hk. rewrite E in Hk. by inversion Hk. Qed.

(** A change of a key that leaves it a key. *)
Lemma update_key_good held d a f Q :
  ok held d -> a ∈ held ++ refs d ->
  (forall e, refCount (f e) = refCount e /\ is_key (f e)) ->
  (forall e, d_heap d !! a = Some e ->
     let d' := set_heap (<[ a := f e ]> (d_heap d)) (d_next d) d in ok held d' -> keeps_outer d d' -> Q tt d') ->
  returns (update_entry a f) Q d.
Proof.
  intros Hok Ha Hf HQ. eapply returns_update; [done..| |].
  - intros e. destruct (Hf e) as [Hr Hk]. destruct (is_key_inv _ Hk) as [k E].
    repeat split; try done; intros _; [unfold is_input|unfold inbound_ok]; by rewrite E.
  - intros e He d' Hok'. apply HQ; [done..|]. by split.
Qed.

Lemma synthesize_good held t d :
  ok held d -> is_Some (lastKeyEntry d) ->
  returns (synthesizeKeyRepeatLocked t) (fun b d' => ok (b :: held) d' /\ keeps_outer d d' /\ at_addr is_key (d_heap d') b /\
    mInboundQueue d' = mInboundQueue d) d.
Proof.
  intros Hok [a E]. apply returns_bind. eapply returns_deref; [exact E|].
  destruct (alive_typed is_key held d a Hok (in_lastKey _ _ _ E) (lastKey_typed _ _ _ Hok E)) as (e & He & Hke).
  apply returns_bind. eapply returns_deref; [exact He|]. destruct (is_key_inv _ Hke) as [k Ek].
  apply returns_bind. eapply key_of_returns; [exact Ek|]. cbv beta zeta. set (fresh := mkEntry 1 t _ false _).
  apply returns_bind. eapply (returns_mono _ (fun b d' => ok held d' /\ keeps_outer d d' /\ lastKeyEntry d' = Some b /\ mInboundQueue d' = mInboundQueue d)).
  - destruct (Z.eqb_spec (refCount e) 1) as [Hr|Hr].
    + apply returns_bind. unfold update_entry. apply returns_bind. eapply returns_deref; [exact He|]. apply returns_modify.
      assert (ok held (set_heap (<[ a := fresh ]> (d_heap d)) (d_next d) d)) as Hok1; [|by split].
      pose proof Hok as [Hc Hf _ _ _ _ _ _]. apply (ok_heap_change held); [done| | |].
      * intros b. specialize (Hc b). destruct (decide (a = b)) as [<-|Hne]; [|by rewrite lookup_insert_ne].
        rewrite lookup_insert_eq. rewrite He, Hr in Hc. done.
      * intros b e' [[<- _]|[_ Hb]]%lookup_insert_Some; eauto.
      * intros b e' _ [[<- <-]|[_ Hb]]%lookup_insert_Some; [exists e|exists e']; by repeat split.
    + apply returns_bind. eapply returns_new; [exact Hok|done|]. intros d1 Hok1 F1. apply returns_bind, returns_modify.
      assert (lastKeyEntry d1 = Some a) as E1 by done. destruct (drop_lastKey _ _ _ Hok1 E1) as [Hok2 _].
      assert (ok (a :: held) (set_lastKey (Some (d_next d)) d1)) as Hok3.
      { apply (set_lastKey_ok _ (set_lastKey None d1)); [|done|].
        - destruct Hok2 as [Hc Hf Hk Hq Hi Hm Hb Hfb]. split; try done. intros b. specialize (Hc b). cbn [app occ] in *.
          by rewrite Nat.add_shuffle3.
        - intros e' He'. unfold d1 in He'. d_simpl. rewrite lookup_insert_eq in He'. by injection He' as <-. }
      apply returns_bind. eapply returns_release; [exact Hok3|]. intros h4 d4 Hok4 F4. apply returns_ret.
      split; [exact Hok4|]. split; [|done]. apply frame_outer in F1, F4. eapply outer_trans; [exact F1|].
      eapply outer_trans; [|exact F4]. by split.
  - intros b d1 (Hok1 & F1 & E1 & I1). apply returns_bind. eapply returns_acquire; [exact Hok1|by apply in_lastKey|].
    intros h2 d2 Hok2 F2. apply returns_bind, returns_modify, returns_ret.
    destruct (ok_set_nextRepeat (b :: held) (t + keyRepeatDelay) d2 Hok2) as [Hok3 F3].
    split; [done|]. split; [eapply outer_trans; [exact F1|]; eapply outer_trans; [by apply frame_outer|done]|].
    split; [|done]. by apply (lastKey_typed _ _ _ Hok3).
Qed.

(** ** Inbound events *)

Lemma releaseInbound_good held d a : ok (a :: held) d -> good held (releaseInboundEventLocked a) d.
Proof.
  intros Hok. apply returns_bind, returns_modify.
  assert (ok (a :: held) (if bool_decide (mNextUnblockedEvent d = Some a) then set_unblocked None d else d) /\
          keeps_outer d (if bool_decide (mNextUnblockedEvent d = Some a) then set_unblocked None d else d)) as [Hok1 F1].
  { case_match; [by apply ok_set_unblocked|split; [done|apply outer_refl]]. }
  eapply returns_release; [exact Hok1|]. intros h d2 Hok2 F2. split; [done|]. eapply outer_trans; [exact F1|by apply frame_outer].
Qed.

Lemma drop_pending held d a : ok held d -> mPendingEvent d = Some a -> ok (a :: held) (set_pending None d).
Proof.
  intros Hok E. pose proof Hok as [Hc Hf Hk Hq Hi Hm Hb Hfb]. eapply (ok_move held _ d); try done; d_simpl.
  - count E.
  - apply Forall_app in Hi as [Hi _]. by rewrite app_nil_r.
Qed.

(** After the pending event has been released there is none. *)
Lemma releasePending_good held d :
  ok held d ->
  returns releasePendingEventLocked (fun _ d' => ok held d' /\ d_focus d' = d_focus d /\ mPendingEvent d' = None) d.
Proof.
  intros Hok. apply returns_bind, returns_gets. destruct (mPendingEvent d) as [a|] eqn:E; [|done].
  apply returns_bind, returns_modify. edestruct (ok_set_wait held) as [Hok1 F1]; [exact Hok|].
  apply returns_bind, returns_modify. pose proof (drop_pending _ _ a Hok1 E) as Hok2.
  eapply returns_mono; [by apply releaseInbound_good|]. intros [] d3 [Hok3 F3].
  split; [done|]. split; [by rewrite (ko_focus _ _ F3)|by rewrite (ko_pending _ _ F3)].
Qed.

Lemma pop_inbound held d a q : ok held d -> mInboundQueue d = a :: q -> ok (a :: held) (set_inbound q d).
Proof.
  intros Hok E. pose proof Hok as [Hc Hf Hk Hq Hi Hm Hb Hfb]. eapply (ok_move held _ d); try done; d_simpl.
  - count E.
  - rewrite E in Hi. by inversion Hi.
Qed.

Lemma drain_inbound_good n held d :
  ok held d -> (length (mInboundQueue d) <= n)%nat -> good held (drain_inbound n) d.
Proof.
  revert d. induction n as [|n IH]; intros d Hok Hn; cbn [drain_inbound]; apply returns_bind, returns_gets;
    destruct (mInboundQueue d) as [|a q] eqn:E; try by apply good_ret.
  - cbn in Hn. lia.
  - apply returns_bind, returns_modify. pose proof (pop_inbound _ _ _ _ Hok E) as Hok1.
    assert (keeps_outer d (set_inbound q d)) as F1 by done. apply returns_bind.
    unfold releaseInboundEventLocked. apply returns_bind, returns_modify. set (d2 := if bool_decide _ then _ else _).
    assert (ok (a :: held) d2 /\ keeps_outer d d2 /\ mInboundQueue d2 = q) as (Hok2 & F2 & I2).
    { unfold d2. case_match; (split; [|by split]); [by apply ok_set_unblocked|done]. }
    eapply returns_release; [exact Hok2|]. intros h3 d3 Hok3 F3.
    apply (good_from held _ d); [eapply outer_trans; [exact F2|by apply frame_outer]|].
    apply IH; [done|]. change (length (mInboundQueue d2) <= n)%nat. rewrite I2. cbn in Hn. lia.
Qed.

(** ** Dispatching a key *)

Definition inv (held : list nat) d : Prop := ok held d /\ focus_ok (d_focus d).

(** The pending event is a key, and has been started. *)
Definition key_pending (a : nat) (started : bool) d : Prop :=
  mPendingEvent d = Some a /\
  exists e k, d_heap d !! a = Some e /\ entry_type e = KEY k /\ (started = true -> dispatchInProgress e = true).

Lemma in_pending held d a : mPendingEvent d = Some a -> a ∈ held ++ refs d.
Proof. intros E. apply anchored_in. by right. Qed.

(** A key stays a key while it is pending. *)
Lemma pending_key held d a :
  ok held d -> mPendingEvent d = Some a -> at_addr is_key (d_heap d) a -> key_pending a false d.
Proof.
  intros Hok Hp Hk. split; [done|]. destruct (alive_typed is_key held d a Hok (in_pending _ _ _ Hp) Hk) as (e & He & Hke).
  destruct (is_key_inv _ Hke) as [k Ek]. by exists e, k.
Qed.

Definition key_kept d d' : Prop := forall a, (a < d_next d)%nat -> at_addr is_key (d_heap d) a -> at_addr is_key (d_heap d') a.

Lemma resetKeyRepeat_keeps held d :
  ok held d ->
  returns resetKeyRepeatLocked (fun _ d' => ok held d' /\ keeps_outer d d' /\ lastKeyEntry d' = None /\ key_kept d d') d.
Proof.
  intros Hok. apply returns_bind, returns_gets. destruct (lastKeyEntry d) as [a|] eqn:E.
  2:{ split; [done|]. split; [apply outer_refl|]. split; [done|]. by intros b _ Hb. }
  apply returns_bind, returns_modify. destruct (drop_lastKey held d a Hok E) as [Hok1 F1].
  eapply returns_release; [exact Hok1|]. intros h d2 Hok2 F2. split; [done|].
  split; [eapply outer_trans; [exact F1|by apply frame_outer]|]. split; [done|].
  intros b Hb Hk. by eapply (frame_typed is_key (set_lastKey None d)); [apply same_key|..].
Qed.

Lemma pending_fresh held d a : ok held d -> mPendingEvent d = Some a -> (a < d_next d)%nat.
Proof. intros Hok Hp. eapply anchored_fresh; [exact Hok|by right]. Qed.

(** Changing the pending key leaves it the pending key. *)
Lemma update_pending_key held d a f :
  ok held d -> key_pending a false d -> (forall e, refCount (f e) = refCount e /\ is_key (f e)) ->
  returns (update_entry a f) (fun _ d' => ok held d' /\ keeps_outer d d' /\ lastKeyEntry d' = lastKeyEntry d /\
    key_pending a false d' /\ exists e, d_heap d' !! a = Some (f e)) d.
Proof.
  intros Hok [Hp _] Hf. eapply update_key_good; [done|by apply in_pending|done|]. intros e He d' Hok' F'.
  destruct (Hf e) as [_ Hk]. destruct (is_key_inv _ Hk) as [k Ek].
  assert (d_heap d' !! a = Some (f e)) as Hl by apply lookup_insert_eq. split; [done|]. split; [done|]. split; [done|].
  split; [|by exists e]. split; [done|]. by exists (f e), k.
Qed.

(** The pending key becomes the one to repeat; the reference is counted at once. *)
Lemma claim_lastKey held a d :
  ok held d -> lastKeyEntry d = None -> a ∈ held ++ refs d -> at_addr is_key (d_heap d) a ->
  returns (modify (set_lastKey (Some a)) ;; acquire a)
    (fun _ d' => ok held d' /\ keeps_outer d d' /\ at_addr is_key (d_heap d') a) d.
Proof.
  intros Hok L Ha Hk. destruct (ok_alive _ _ _ Hok Ha) as [e He].
  pose proof (returns_acquire held d a (fun _ d' => ok (a :: held) d' /\ frame d d') Hok Ha ltac:(by intros h d' ? ?)) as Hacq.
  unfold acquire, update_entry, returns, mbind, M_bind, entry, deref, modify in *. cbn [d_heap set_lastKey].
  rewrite He in *. destruct Hacq as [Hok2 F2]. set (d2 := set_heap _ _ d) in *.
  assert (at_addr is_key (d_heap d2) a) as K2 by (by eapply (frame_typed is_key d); [apply same_key|eapply ok_fresh|..]).
  split; [exact (set_lastKey_ok held d2 a Hok2 L K2)|]. split; [|exact K2]. apply frame_outer in F2. by destruct F2.
Qed.

(** What is read of the key that was last, if any. *)
Lemma last_reads held d (k : KeyEntry) :
  ok held d ->
  reads (match lastKeyEntry d with
         | Some l => le ← entry l ; lk ← key_of le ; mret (if ke_keyCode lk =? ke_keyCode k then Some (ke_repeatCount lk + 1) else None)
         | None => mret None
         end) (fun _ => True) d.
Proof.
  intros Hok. destruct (lastKeyEntry d) as [l|] eqn:E; [|by apply reads_ret].
  destruct (alive_typed is_key held d l Hok (in_lastKey _ _ _ E) (lastKey_typed _ _ _ Hok E)) as (le & Hle & Hkl).
  destruct (is_key_inv _ Hkl) as [lk Elk]. eapply (reads_bind _ _ (fun x => x = le)); [by eapply reads_deref|].
  intros ? ->. eapply (reads_bind _ _ (fun _ => True)); [eapply reads_deref; [by rewrite Elk|done]|]. intros ? _. by apply reads_ret.
Qed.

Lemma key_typed a d e k : d_heap d !! a = Some e -> entry_type e = KEY k -> at_addr is_key (d_heap d) a.
Proof. intros He Ek e' He'. unfold is_key. replace e' with e by congruence. by rewrite Ek. Qed.

(** The key repeat is reset, and its time set. *)
Lemma reset_repeat held a t d :
  ok held d -> mPendingEvent d = Some a -> at_addr is_key (d_heap d) a ->
  returns (resetKeyRepeatLocked ;; modify (set_nextRepeat t))
    (fun _ d' => ok held d' /\ keeps_outer d d' /\ lastKeyEntry d' = None /\ at_addr is_key (d_heap d') a) d.
Proof.
  intros Hok Hp Hk. apply returns_bind. eapply returns_mono; [by apply (resetKeyRepeat_keeps held)|].
  intros [] d2 (Hok2 & F2 & L2 & K2). apply returns_modify. destruct (ok_set_nextRepeat held t d2 Hok2) as [Hok3 F3].
  split; [done|]. split; [by eapply outer_trans|]. split; [done|]. apply K2; [by eapply pending_fresh|done].
Qed.

Lemma key_first_good held a d :
  ok held d -> key_pending a false d ->
  returns (dispatch_key_first a) (fun _ d' => ok held d' /\ keeps_outer d d' /\ key_pending a true d') d.
Proof.
  intros Hok Hkp. pose proof Hkp as (Hp & e & k & He & Ek & _). pose proof (key_typed _ _ _ _ He Ek) as Hka.
  apply returns_bind. eapply returns_deref; [exact He|]. apply returns_bind. eapply key_of_returns; [exact Ek|]. apply returns_bind.
  eapply (returns_mono _ (fun _ d' => ok held d' /\ keeps_outer d d' /\ at_addr is_key (d_heap d') a)).
  - case_match.
    + apply returns_bind, returns_gets, returns_bind. eapply reads_returns; [by apply (last_reads held)|]. intros repeated _.
      apply returns_bind.
      eapply (returns_mono _ (fun _ d' => ok held d' /\ keeps_outer d d' /\ lastKeyEntry d' = None /\ at_addr is_key (d_heap d') a)).
      * destruct repeated as [n|]; [|by apply reset_repeat]. apply returns_bind.
        eapply returns_mono; [by apply update_pending_key|]. intros [] d1 (Hok1 & F1 & _ & (Hp1 & e1 & k1 & He1 & Ek1 & _) & _).
        eapply returns_mono; [apply (reset_repeat held a); [done..|by eapply key_typed]|].
        intros [] d2 (Hok2 & F2 & L2 & K2). split; [done|]. split; [by eapply outer_trans|done].
      * intros [] d1 (Hok1 & F1 & L1 & K1). eapply returns_mono.
        -- apply (claim_lastKey held); [done..| |done]. apply in_pending. by rewrite (ko_pending _ _ F1).
        -- intros [] d2 (Hok2 & F2 & K2). split; [done|]. split; [by eapply outer_trans|done].
    + case_match; [|split; [done|]; split; [apply outer_refl|done]].
      eapply returns_mono; [by apply (resetKeyRepeat_keeps held)|]. intros [] d2 (Hok2 & F2 & L2 & K2).
      split; [done|]. split; [done|]. apply K2; [by eapply pending_fresh|done].
  - intros [] d1 (Hok1 & F1 & K1). assert (mPendingEvent d1 = Some a) as Hp1 by (by rewrite (ko_pending _ _ F1)).
    pose proof (pending_key _ _ _ Hok1 Hp1 K1) as Hkp1. pose proof Hkp1 as (_ & e1 & k1 & He1 & Ek1 & _).
    apply returns_bind. eapply returns_deref; [exact He1|]. apply returns_bind. eapply key_of_returns; [exact Ek1|].
    eapply returns_mono; [by apply update_pending_key|]. intros [] d2 (Hok2 & F2 & _ & Hkp2 & e2 & He2).
    split; [done|]. split; [by eapply outer_trans|]. destruct Hkp2 as [Hp2 _]. split; [done|]. by eexists _, _.
Qed.

(** The dispatcher is left as it should be, with the same event pending. *)
Definition dispatched {A} (held : list nat) (a : nat) (m : M (Dispatcher K) A) d : Prop :=
  returns m (fun _ d' => inv held d' /\ mPendingEvent d' = Some a) d.

Lemma monitor_targets d e :
  reads addMonitoringTargetsLocked (Forall (fun t => target_ok e t)) d.
Proof. apply reads_gets, Forall_map, Forall_forall. intros c _ H. exfalso. by vm_compute in H. Qed.

(** The event goes to its targets and to the monitors. *)
Lemma dispatch_targets_good held t a targets d e :
  inv held d -> mPendingEvent d = Some a -> d_heap d !! a = Some e -> is_input e -> dispatchInProgress e = true ->
  Forall (target_ok e) targets ->
  dispatched held a (monitors ← addMonitoringTargetsLocked ; dispatchEventLocked t a (targets ++ monitors)) d.
Proof.
  intros [Hok Hf] Hp He Hi Hpr Ht. apply returns_bind. eapply reads_returns; [by apply (monitor_targets d e)|]. intros ms Hms.
  eapply returns_mono; [eapply dispatchEvent_safe; [done|by right|done..|by apply Forall_app]|].
  intros [] d' [Hok' F']. split; [split; [done|by rewrite (fr_focus _ _ F')]|by rewrite (fr_pending _ _ F')].
Qed.

Lemma key_targets_good held t a reason nw d :
  inv held d -> key_pending a true d -> dispatched held a (dispatch_key_targets t a reason nw) d.
Proof.
  intros [Hok Hf] (Hp & e & k & He & Ek & Hpr). unfold dispatched, dispatch_key_targets. specialize (Hpr eq_refl).
  destruct (bool_decide _); cbn [negb]; [|by split]. apply returns_bind.
  eapply returns_mono; [by apply (findFocused_calm held)|]. intros [[res targets] nw'] d1 (Hok1 & S1 & Hf1 & Ht). cbn in Ht.
  assert (inv held d1) as I1 by (split; [done|by rewrite Hf1]). assert (mPendingEvent d1 = Some a) as Hp1 by (by rewrite (so_pending _ _ S1)).
  destruct res; try by split. rewrite <- (so_heap _ _ S1) in He.
  pose proof (dispatch_targets_good held t a targets d1 e I1 Hp1 He) as H. unfold is_input in H. rewrite Ek in H.
  apply returns_bind. pose proof (H Logic.I Hpr) as H1. unfold dispatched in H1.
  assert (Forall (target_ok e) targets) as Htt.
  { eapply Forall_impl; [exact Ht|]. intros x Hx Hx'. congruence. }
  specialize (H1 Htt). unfold returns, mbind, M_bind in *. destruct (addMonitoringTargetsLocked d1) as [ms d2| | |]; try done.
  destruct (dispatchEventLocked _ _ _ d2); done.
Qed.

Lemma claim_command held a w d :
  inv held d -> mPendingEvent d = Some a -> at_addr is_key (d_heap d) a ->
  dispatched held a (postCommandLocked (doInterceptKeyBeforeDispatching w a) ;; acquire a) d.
Proof.
  intros [Hok Hf] Hp Hk. pose proof (in_pending held d a Hp) as Ha. destruct (ok_alive _ _ _ Hok Ha) as [e He].
  pose proof (returns_acquire held d a (fun _ d' => ok (a :: held) d' /\ frame d d') Hok Ha ltac:(by intros h d' ? ?)) as Hacq.
  unfold dispatched, acquire, update_entry, returns, mbind, M_bind, entry, deref, postCommandLocked, modify in *.
  cbn [d_heap set_commands]. rewrite He in *. destruct Hacq as [Hok2 F2]. set (d2 := set_heap _ _ d) in *.
  assert (at_addr is_key (d_heap d2) a) as K2 by (by eapply (frame_typed is_key d); [apply same_key|eapply ok_fresh|..]).
  split; [|done]. split; [|done]. pose proof Hok2 as [Hc Hfr Hk2 Hq Hi Hm Hb].
  change (ok held (set_commands (mCommandQueue d2 ++ [doInterceptKeyBeforeDispatching w a]) d2)).
  eapply (ok_move (a :: held) _ d2); try done; d_simpl.
  - intros b. unfold refs. d_simpl. cbn [app occ]. rewrite !occ_app, cmds_app. cbn. lia.
  - apply Forall_app in Hk2 as [Hk1 Hk2]. unfold cmds_refs. rewrite map_app, concat_app. cbn.
    rewrite !Forall_app. repeat split; try done. by constructor.
  - apply Forall_app. split; [done|]. by constructor.
Qed.

(** The policy's answer is kept in the pending key. *)
Lemma intercept_good held a r w k d :
  inv held d -> key_pending a true d ->
  returns (update_entry a (with_key (key_intercept r w k))) (fun _ d' => inv held d' /\ key_pending a true d') d.
Proof.
  intros [Hok Hf] (Hp & e & k' & He & Ek & Hpr). specialize (Hpr eq_refl).
  eapply update_key_good; [done|by apply in_pending|done|]. intros e2 He2 d2 Hok2 F2. split; [split; [done|by rewrite (ko_focus _ _ F2)]|].
  split; [done|]. eexists _, _. split; [apply lookup_insert_eq|]. split; [done|]. intros _. cbn. congruence.
Qed.

Lemma dispatchKey_good held t a reason nw d :
  inv held d -> key_pending a false d -> dispatched held a (dispatchKeyLocked t a reason nw) d.
Proof.
  intros [Hok Hf] Hkp. pose proof Hkp as (Hp & e & k & He & Ek & _).
  apply returns_bind. eapply returns_deref; [exact He|]. apply returns_bind.
  eapply (returns_mono _ (fun _ d' => inv held d' /\ key_pending a true d')).
  { destruct (dispatchInProgress e) eqn:Ei; [split; [by split|]; split; [done|]; by exists e, k|].
    eapply returns_mono; [by apply key_first_good|]. intros [] d1 (Hok1 & F1 & Hk1). split; [|done].
    split; [done|by rewrite (ko_focus _ _ F1)]. }
  intros [] d1 [[Hok1 Hf1] Hkp1]. pose proof Hkp1 as (Hp1 & e1 & k1 & He1 & Ek1 & Hpr1). specialize (Hpr1 eq_refl).
  apply returns_bind. eapply returns_deref; [exact He1|]. apply returns_bind. eapply key_of_returns; [exact Ek1|].
  cbv zeta. set (later := match interceptKeyResult k1 with INTERCEPT_KEY_RESULT_TRY_AGAIN_LATER => true | _ => false end).
  destruct (later && _); [by split|]. apply returns_bind.
  eapply (returns_mono _ (fun _ d' => inv held d' /\ key_pending a true d')).
  { destruct later; [by apply intercept_good|by split]. }
  intros [] d2 [[Hok2 Hf2] Hkp2]. pose proof Hkp2 as (Hp2 & e2 & k2 & He2 & Ek2 & _).
  destruct (if later then _ else _).
  - destruct (has _ _).
    + apply returns_bind, returns_gets. pose proof (claim_command held a (mFocusedWindowHandle (d_focus d2)) d2 ltac:(by split) Hp2
        (key_typed _ _ _ _ He2 Ek2)) as Hcl. unfold dispatched, returns, mbind, M_bind in *.
      destruct (postCommandLocked _ d2) as [[] d3| | |]; try done. destruct (acquire a d3); done.
    + apply returns_bind. eapply returns_mono; [by apply intercept_good|]. intros [] d3 [I3 Hk3]. by apply key_targets_good.
  - apply key_targets_good; [by split|done].
  - apply key_targets_good; [by split|done].
  - apply key_targets_good; [by split|done].
Qed.

(** ** Dispatching a motion *)

Lemma dispatchMotion_good held t a reason nw d e m :
  inv held d -> mPendingEvent d = Some a -> d_heap d !! a = Some e -> entry_type e = MOTION m -> motion_ok m ->
  dispatched held a (dispatchMotionLocked t a reason nw) d.
Proof.
  intros [Hok Hf] Hp He Em Hm. apply returns_bind. eapply returns_update; [exact Hok|by apply in_pending|done|].
  intros e1 He0 d1 Hok1. rewrite He in He0. injection He0 as <-.
  assert (d_heap d1 !! a = Some (in_progress e)) as He1 by apply lookup_insert_eq.
  assert (inv held d1) as I1 by (by split). assert (mPendingEvent d1 = Some a) as Hp1 by done.
  destruct (bool_decide _); cbn [negb]; [|by split]. apply returns_bind. eapply returns_deref; [exact He1|].
  apply returns_bind. eapply (returns_deref _ _ _ m); [cbn; by rewrite Em|]. apply returns_bind.
  eapply (returns_mono _ (fun r d' => inv held d' /\ soft d1 d' /\ Forall (target_ok (in_progress e)) (snd (fst (fst r))))).
  - destruct (has _ _).
    + eapply returns_mono; [by apply findTouched_safe|]. intros r d2 (Hok2 & S2 & Hf2 & Ht). split; [by split|]. split; [done|].
      eapply Forall_impl; [exact Ht|]. intros x Hx Hs'. rewrite has_split in Hs'. split; [by apply Hx|]. exists m. by split.
    + apply returns_bind. eapply returns_mono; [by apply (findFocused_calm held)|].
      intros [[res targets] nw'] d2 (Hok2 & S2 & Hf2 & Ht). apply returns_ret. split; [split; [done|by rewrite Hf2]|].
      split; [done|]. cbn in *. eapply Forall_impl; [exact Ht|]. intros x Hx Hx'. congruence.
  - intros [[[res targets] conflict] nw'] d2 ([Hok2 Hf2] & S2 & Ht). cbn [fst snd] in Ht.
    assert (mPendingEvent d2 = Some a) as Hp2 by (by rewrite (so_pending _ _ S2)).
    assert (d_heap d2 !! a = Some (in_progress e)) as He2 by (by rewrite (so_heap _ _ S2)).
    destruct res; try (by split). apply returns_bind. eapply reads_returns; [by apply (monitor_targets d2 (in_progress e))|].
    intros ms Hms. apply returns_bind. eapply (returns_mono _ (fun _ d' => ok held d' /\ frame d2 d')).
    { destruct conflict; [by apply cancelAll_safe|split; [done|apply frame_refl]]. }
    intros [] d3 [Hok3 F3].
    destruct (frame_alive held a d2 d3 (in_progress e) Hok2 Hok3 F3) as (e3 & He3 & Hs3); [by right|done|].
    apply returns_bind. eapply returns_mono.
    + eapply dispatchEvent_safe; [exact Hok3|right; by rewrite (fr_pending _ _ F3)|exact He3| | |].
      * eapply same_input; [exact Hs3|]. unfold is_input. cbn. by rewrite Em.
      * destruct Hs3 as (_ & _ & -> & _). done.
      * apply Forall_app. split; (eapply Forall_impl; [eassumption|]); intros x; by apply same_target.
    + intros [] d4 [Hok4 F4]. apply returns_ret. pose proof (frame_trans _ _ _ F3 F4) as F.
      split; [split; [done|by rewrite (fr_focus _ _ F)]|by rewrite (fr_pending _ _ F)].
Qed.

(** ** The pending event *)

Definition sound {A} (held : list nat) (m : M (Dispatcher K) A) d : Prop := returns m (fun _ => inv held) d.

Lemma sound_bind {A B} held held' (m : M (Dispatcher K) A) (k : A -> M (Dispatcher K) B) d :
  sound held m d -> (forall a d', inv held d' -> sound held' (k a) d') -> sound held' (m ≫= k) d.
Proof. intros Hm Hk. apply returns_bind. eapply returns_mono; [exact Hm|]. intros a d' I. by apply Hk. Qed.

Lemma sound_ret {A} held (a : A) d : inv held d -> sound held (mret a) d.
Proof. done. Qed.

Lemma sound_good {A} held (m : M (Dispatcher K) A) d : focus_ok (d_focus d) -> good held m d -> sound held m d.
Proof. intros Hf Hg. eapply returns_mono; [exact Hg|]. intros a d' [Hok F]. split; [done|by rewrite (ko_focus _ _ F)]. Qed.

Lemma sound_safe {A} held (m : M (Dispatcher K) A) d : focus_ok (d_focus d) -> safe held m d -> sound held m d.
Proof. intros Hf Hm. apply (sound_good held); [done|]. by apply good_safe. Qed.

Lemma sound_modify held (f : Dispatcher K -> Dispatcher K) d : inv held (f d) -> sound held (modify f) d.
Proof. done. Qed.

Lemma drop_good held a reason d :
  inv held d -> mPendingEvent d = Some a -> reason <> DROP_REASON_NOT_DROPPED -> sound held (dropInboundEventLocked a reason) d.
Proof.
  intros [Hok Hf] Hp Hr. unfold dropInboundEventLocked. rewrite bool_decide_eq_false_2 by done.
  apply returns_bind. eapply returns_entry; [exact Hok|by apply in_pending|]. intros e He.
  destruct (entry_type e); [by split|by split|..]; by apply sound_safe, cancelAll_safe.
Qed.

Lemma releasePending_sound held d : inv held d -> sound held releasePendingEventLocked d.
Proof.
  intros [Hok Hf]. eapply returns_mono; [by apply releasePending_good|]. intros [] d' (Hok' & F' & _). split; [done|]. by rewrite F'.
Qed.

Lemma pending_typed held d a : ok held d -> mPendingEvent d = Some a -> at_addr inbound_ok (d_heap d) a.
Proof.
  intros Hok Hp. pose proof (ok_inbound _ _ Hok) as Hi. rewrite Hp in Hi. apply Forall_app in Hi as [_ Hi]. by inversion Hi.
Qed.

(** By the kind of the event. *)
Lemma dispatch_kind held t a e (isDue : bool) (reason : DropReason) (late : DropReason -> DropReason) nw d :
  inv held d -> mPendingEvent d = Some a -> d_heap d !! a = Some e ->
  dispatched held a
    (match entry_type e with
     | TYPE_CONFIGURATION_CHANGED =>
         dispatchConfigurationChangedLocked e ;; mret (true, DROP_REASON_NOT_DROPPED, nw)
     | TYPE_DEVICE_RESET deviceId => dispatchDeviceResetLocked deviceId ;; mret (true, DROP_REASON_NOT_DROPPED, nw)
     | KEY k =>
         dropReason ←
           (if isDue then
              if isAppSwitchKeyEventLocked e k then resetPendingAppSwitchLocked ;; mret reason
              else mret (if bool_decide (reason = DROP_REASON_NOT_DROPPED) then DROP_REASON_APP_SWITCH else reason)
            else mret reason : M (Dispatcher K) DropReason) ;
         dispatchKeyLocked t a (late dropReason) nw
     | MOTION _ =>
         let dropReason :=
           if bool_decide (reason = DROP_REASON_NOT_DROPPED) && isDue then DROP_REASON_APP_SWITCH else reason in
         dispatchMotionLocked t a (late dropReason) nw
     end) d.
Proof.
  intros [Hok Hf] Hp He. pose proof (pending_typed _ _ _ Hok Hp e He) as Hty. unfold inbound_ok in Hty.
  destruct (entry_type e) as [|id|k|m] eqn:Et.
  - apply returns_bind, returns_bind. eapply returns_mono; [by apply resetKeyRepeat_good|]. intros [] d1 [Hok1 F1].
    apply returns_modify, returns_ret. split; [split; [by apply post_ok|by cbn; rewrite (ko_focus _ _ F1)]|].
    cbn. by rewrite (ko_pending _ _ F1).
  - apply returns_bind. eapply returns_mono; [by apply cancelAll_safe|]. intros [] d1 [Hok1 F1].
    apply returns_ret. split; [split; [done|by rewrite (fr_focus _ _ F1)]|by rewrite (fr_pending _ _ F1)].
  - apply returns_bind. eapply (returns_mono _ (fun _ d' => inv held d' /\ key_pending a false d')).
    + assert (key_pending a false d) as Hkp by (split; [done|]; by exists e, k).
      case_match; [|done]. case_match; [|done]. apply returns_bind, returns_modify, returns_ret.
      destruct (ok_set_modes held (with_appSwitch (mAppSwitchSawKeyDown (d_modes d)) LONG_LONG_MAX (d_modes d)) d Hok) as [Hok1 _].
      by split.
    + intros r d1 [I1 Hk1]. by apply dispatchKey_good.
  - by eapply dispatchMotion_good.
Qed.

Lemma dispatch_pending_sound held t due a nw d :
  inv held d -> mPendingEvent d = Some a -> sound held (dispatch_pending t due a nw) d.
Proof.
  intros [Hok Hf] Hp. destruct (ok_alive _ _ _ Hok (in_pending held d a Hp)) as [e He].
  apply returns_bind. eapply returns_deref; [exact He|]. apply returns_bind, returns_gets. cbv zeta.
  apply returns_bind, returns_modify. set (d1 := if bool_decide _ then _ else d).
  assert (inv held d1 /\ mPendingEvent d1 = Some a /\ d_heap d1 !! a = Some e) as (I1 & Hp1 & He1).
  { unfold d1. case_match; [|done]. split; [|done]. split; [by apply ok_set_unblocked|done]. }
  apply returns_bind, returns_gets, returns_bind. eapply returns_mono; [by apply dispatch_kind|].
  intros [[done' reason] nw'] d2 [I2 Hp2]. destruct done'; [|done]. apply (sound_bind held).
  - destruct (decide (reason = DROP_REASON_NOT_DROPPED)) as [->|Hr]; [done|].
    rewrite bool_decide_eq_false_2 by done. by apply drop_good.
  - intros [] d3 I3. eapply sound_bind; [by apply releasePending_sound|]. intros [] d4 I4. done.
Qed.

(** The running function's reference becomes that of the pending event. *)
Lemma set_pending_ok held d a :
  ok (a :: held) d -> mPendingEvent d = None -> at_addr inbound_ok (d_heap d) a -> ok held (set_pending (Some a) d).
Proof.
  intros Hok E Ha. pose proof Hok as [Hc Hf Hk Hq Hi Hm Hb Hfb]. eapply (ok_move (a :: held) _ d); try done; d_simpl.
  - count E.
  - rewrite E in Hi. rewrite app_nil_r in Hi. apply Forall_app. split; [done|]. by constructor.
Qed.

Lemma key_inbound e : is_key e -> inbound_ok e.
Proof. unfold is_key, inbound_ok. by destruct (entry_type e). Qed.

Lemma grab_good t due nw d :
  inv [] d ->
  returns (grab_event t due nw) (fun r d' => inv [] d' /\ forall a, snd (fst r) = Some a -> mPendingEvent d' = Some a) d.
Proof.
  intros [Hok Hf]. apply returns_bind, returns_gets. destruct (mPendingEvent d) as [a|] eqn:Hp.
  { apply returns_ret. split; [done|]. by intros ? [= <-]. }
  apply returns_bind, returns_gets. destruct (mInboundQueue d) as [|a q] eqn:Eq.
  - apply returns_bind. eapply (returns_mono _ (fun _ d' => inv [] d' /\ mPendingEvent d' = None /\ lastKeyEntry d' = lastKeyEntry d)).
    { destruct due; [|done]. apply returns_modify.
      destruct (ok_set_modes [] (with_appSwitch (mAppSwitchSawKeyDown (d_modes d)) LONG_LONG_MAX (d_modes d)) d Hok) as [? _]. by split. }
    intros [] d1 ([Hok1 Hf1] & Hp1 & L1). apply returns_bind, returns_gets, returns_bind, returns_gets.
    destruct (lastKeyEntry d1) as [l|] eqn:El; [|done]. case_match; [|done].
    apply returns_bind. eapply returns_mono; [apply (synthesize_good []); [done|by eexists]|].
    intros b d2 (Hok2 & F2 & K2 & _). apply returns_bind, returns_modify, returns_bind, returns_modify, returns_ret.
    assert (ok [] (set_pending (Some b) d2)) as Hok3.
    { apply set_pending_ok; [done|by rewrite (ko_pending _ _ F2)|]. intros e He. by apply key_inbound, K2. }
    split; [|by intros ? [= <-]]. split; [by apply ok_set_wait|]. cbn. by rewrite (ko_focus _ _ F2).
  - apply returns_bind, returns_modify, returns_bind, returns_modify, returns_bind, returns_modify, returns_ret.
    pose proof (pop_inbound _ _ _ _ Hok Eq) as Hok1.
    assert (ok [] (set_pending (Some a) (set_inbound q d))) as Hok2.
    { apply set_pending_ok; [done..|]. pose proof (ok_inbound _ _ Hok) as Hi. rewrite Eq in Hi. by inversion Hi. }
    split; [|by intros ? [= <-]]. split; [by apply ok_set_wait|done].
Qed.

Lemma inner_sound nw d : inv [] d -> sound [] (dispatchOnceInnerLocked nw) d.
Proof.
  intros [Hok Hf]. apply returns_bind. eapply returns_clock; [done|]. intros t k Hok1 F1.
  apply (sound_bind []).
  { destruct isKeyRepeatEnabled; [split; [done|by rewrite (fr_focus _ _ F1)]|].
    apply (sound_good []); [by rewrite (fr_focus _ _ F1)|]. by apply resetKeyRepeat_good. }
  intros [] d1 I1. apply returns_bind, returns_gets. destruct (mDispatchFrozen _); [done|].
  apply returns_bind. eapply returns_mono; [by apply grab_good|]. intros [[due [a|]] nw'] d2 [I2 Hp2]; [|done].
  apply dispatch_pending_sound; [done|by apply Hp2].
Qed.

(** ** Commands *)

(** No more commands than before are to come, and the connections are the same. *)
Record steady d d' : Prop := {
  st_commands : (commands_left d' <= commands_left d)%nat;
  st_conns : map conn_id (d_connections d') = map conn_id (d_connections d);
  st_byFd : mConnectionsByFd d' = mConnectionsByFd d;
}.

Lemma steady_refl d : steady d d.
Proof. by split. Qed.

Lemma steady_trans d1 d2 d3 : steady d1 d2 -> steady d2 d3 -> steady d1 d3.
Proof. intros [] []. split; [lia|congruence..]. Qed.

Lemma outer_steady d d' : keeps_outer d d' -> steady d d'.
Proof. intros []. by split. Qed.

Lemma st_length d d' : steady d d' -> length (d_connections d') = length (d_connections d).
Proof. intros F. by rewrite <- (length_map conn_id), (st_conns _ _ F), length_map. Qed.

Definition runs {A} (held : list nat) (m : M (Dispatcher K) A) d : Prop := returns m (fun _ d' => inv held d' /\ steady d d') d.

Lemma runs_good {A} held (m : M (Dispatcher K) A) d : focus_ok (d_focus d) -> good held m d -> runs held m d.
Proof.
  intros Hf Hg. eapply returns_mono; [exact Hg|]. intros a d' [Hok F]. split; [|by apply outer_steady].
  split; [done|by rewrite (ko_focus _ _ F)].
Qed.

Lemma runs_safe {A} held (m : M (Dispatcher K) A) d : focus_ok (d_focus d) -> safe held m d -> runs held m d.
Proof. intros Hf Hm. apply runs_good; [done|]. by apply good_safe. Qed.

Lemma runs_bind {A B} held held' (m : M (Dispatcher K) A) (k : A -> M (Dispatcher K) B) d :
  runs held m d -> (forall a d', inv held d' -> steady d d' -> runs held' (k a) d') -> runs held' (m ≫= k) d.
Proof.
  intros Hm Hk. apply returns_bind. eapply returns_mono; [exact Hm|]. intros a d' [I S].
  eapply returns_mono; [by apply Hk|]. intros b d'' [I' S']. eauto using steady_trans.
Qed.

Lemma runs_ret {A} held (a : A) d : inv held d -> runs held (mret a) d.
Proof. intros I. split; [done|apply steady_refl]. Qed.

Lemma clock_runs held d : inv held d -> runs held clock d.
Proof.
  intros [Hok Hf]. apply runs_safe; [done|]. eapply returns_clock; [done|]. eauto.
Qed.

Lemma update_state_runs held c f d : inv held d -> (c < length (d_connections d))%nat ->
  (forall s, unlatched s -> unlatched (f s)) -> runs held (update_state c f) d.
Proof.
  intros [Hok Hf] Hc Hs'. apply runs_safe; [done|]. eapply safe_update_connection; [done|done| |]; [|eauto].
  intros conn _. repeat split; try done. apply Hs'.
Qed.

Lemma removeFallback_unlatched code s : unlatched s -> unlatched (removeFallbackKey code s).
Proof. apply erase_Forall. Qed.

Lemma setFallback_unlatched code s : unlatched s -> unlatched (setFallbackKey code AKEYCODE_UNKNOWN s).
Proof. intros Hs'. by apply insert_Forall. Qed.

Lemma resume_runs held t ch d : inv held d -> runs held (resumeAfterTargetsNotReadyTimeoutLocked t ch) d.
Proof.
  intros [Hok Hf]. unfold resumeAfterTargetsNotReadyTimeoutLocked. case_match.
  { eapply runs_bind; [by apply clock_runs|]. intros t' d1 [Hok1 Hf1] _. apply returns_modify. cbv zeta.
    split; [split; [by apply ok_set_wait|done]|by split]. }
  eapply (runs_bind held).
  { apply returns_modify. cbv zeta. split; [split; [by apply ok_set_wait|done]|by split]. }
  intros [] d1 [Hok1 Hf1] _. destruct ch as [ch|]; [|by apply runs_ret].
  apply returns_bind. eapply returns_getConnection; [done|split; [done|apply steady_refl]|]. intros c Hc.
  apply returns_bind, returns_connection; [done|]. intros conn Hconn. apply (runs_bind held).
  { destruct (cn_window conn) as [w|]; [|by apply runs_ret]. apply returns_modify. split; [|by split].
    split; [by apply ok_set_focus|]. destruct Hf1 as [Hi Hfo Hh Ht]. split; try done. by apply remove_ok. }
  intros [] d2 [Hok2 Hf2] S2. case_match; [|by apply runs_ret]. apply runs_safe; [done|]. apply cancelConnection_safe; [done|].
  by rewrite (st_length _ _ S2).
Qed.

Lemma intercepted_runs held w a d :
  inv (a :: held) d -> at_addr is_key (d_heap d) a -> runs held (intercepted w a) d.
Proof.
  intros [Hok Hf] Hk. destruct (alive_typed is_key (a :: held) d a Hok ltac:(left) Hk) as (e & He & Hke).
  destruct (is_key_inv _ Hke) as [k Ek]. apply returns_bind. eapply returns_deref; [exact He|].
  apply returns_bind. eapply key_of_returns; [exact Ek|]. cbv zeta.
  assert (forall r t d', inv (a :: held) d' -> runs (a :: held) (update_entry a (with_key (key_intercept r t k))) d') as Hupd.
  { intros r t d' [Hok' Hf']. apply runs_good; [done|]. eapply update_key_good; [done|left|done|]. eauto. }
  apply (runs_bind (a :: held)).
  - case_match; [by apply Hupd|]. case_match; [by apply Hupd|]. eapply runs_bind; [by apply clock_runs|]. intros t d1 I1 _. by apply Hupd.
  - intros [] d1 [Hok1 Hf1] _. eapply returns_release; [exact Hok1|]. intros h2 d2 Hok2 F2.
    split; [split; [done|by rewrite (fr_focus _ _ F2)]|]. by apply outer_steady, frame_outer.
Qed.

Lemma cancel_fallback_runs held c code d : inv held d -> (c < length (d_connections d))%nat -> runs held (cancel_fallback c code) d.
Proof. intros [Hok Hf] Hc. apply runs_safe; [done|]. by apply cancelConnection_safe. Qed.

Lemma handled_runs held c original fallback d :
  inv held d -> (c < length (d_connections d))%nat -> runs held (after_handled_key c original fallback) d.
Proof.
  intros I Hc. unfold after_handled_key. case_match; [by apply runs_ret|]. apply (runs_bind held).
  - case_match; [by apply cancel_fallback_runs|by apply runs_ret].
  - intros [] d1 I1 S1. apply update_state_runs; [done|by rewrite (st_length _ _ S1)|]. apply removeFallback_unlatched.
Qed.

(** What is recorded for a key is nothing, or that there is no other. *)
Lemma getFallback_unlatched code s : unlatched s -> getFallbackKey code s = -1 \/ getFallbackKey code s = AKEYCODE_UNKNOWN.
Proof.
  intros Hs'. unfold getFallbackKey. destruct (OrdMap.find _ _) as [k|] eqn:E; [right|by left].
  apply find_some_In in E. unfold unlatched in Hs'. rewrite Forall_forall in Hs'. by apply (Hs' _ E).
Qed.

Lemma unhandled_runs held c a e k code d :
  inv held d -> (c < length (d_connections d))%nat -> code = -1 \/ code = AKEYCODE_UNKNOWN ->
  runs held (after_unhandled_key c a e k code) d.
Proof.
  intros I Hc Hcode. unfold after_unhandled_key. case_match eqn:Ecode; [by apply runs_ret|].
  apply returns_bind, returns_connection; [done|]. intros conn _. rewrite no_fallback_key. case_match.
  { eapply runs_bind; [apply update_state_runs; [done..|apply removeFallback_unlatched]|]. intros [] d1 I1 _. by apply runs_ret. }
  eapply (runs_bind held).
  { case_match; [|by apply runs_ret]. apply update_state_runs; [done..|apply setFallback_unlatched]. }
  intros [] d1 I1 _. destruct (_ && (ke_repeatCount k =? 0)); [by apply runs_ret|].
  destruct Hcode as [->| ->]; [done|by apply runs_ret].
Qed.

Lemma afterKey_runs held c a de handled d :
  inv held d -> (c < length (d_connections d))%nat -> a ∈ held ++ refs d -> at_addr is_key (d_heap d) a ->
  runs held (afterKeyEventLockedInterruptible c a de handled) d.
Proof.
  intros I Hc Ha Hk. destruct (alive_typed is_key held d a (proj1 I) Ha Hk) as (e & He & Hke).
  destruct (is_key_inv _ Hke) as [k Ek]. apply returns_bind. eapply returns_deref; [exact He|].
  apply returns_bind. eapply key_of_returns; [exact Ek|]. cbv beta. case_match; [by apply runs_ret|].
  apply returns_bind, returns_connection; [done|]. intros conn Hconn.
  pose proof (Forall_lookup_1 _ _ _ _ (ok_fallback _ _ (proj1 I)) Hconn) as Hun.
  pose proof (getFallback_unlatched (ke_keyCode k) _ Hun) as Hcode. cbv zeta. eapply (runs_bind held).
  { case_match; [|by apply runs_ret]. apply update_state_runs; [done..|apply removeFallback_unlatched]. }
  intros [] d1 I1 S1. rewrite <- (st_length _ _ S1) in Hc. case_match; [|by apply unhandled_runs].
  eapply (runs_bind held); [by apply handled_runs|]. intros [] d2 I2 _. by apply runs_ret.
Qed.

(** Taking an entry from a wait queue takes its reference. *)
Lemma dequeue_occ seq q de b :
  List.find (fun de => de_seq de =? seq) q = Some de ->
  (occ b (map de_event q) = (if (de_event de =? b)%nat then 1 else 0) + occ b (map de_event (dequeue_seq seq q)))%nat.
Proof.
  induction q as [|x q IH]; cbn; [done|]. destruct (_ =? seq); cbn; [by intros [= ->]|]. intros Hf. rewrite (IH Hf). lia.
Qed.

Lemma dequeue_Forall (R : nat -> Prop) seq q : Forall R (map de_event q) -> Forall R (map de_event (dequeue_seq seq q)).
Proof. induction q as [|x q IH]; cbn; [done|]. intros [? ?]%Forall_cons. case_match; [done|]. cbn. constructor; auto. Qed.

Lemma found_waits seq conn de : findWaitQueueEntry seq conn = Some de -> de_event de ∈ conn_refs conn.
Proof.
  intros [Hin _]%find_some. rewrite conn_refs_app. apply elem_of_app. right. apply list_elem_of_In. by apply in_map.
Qed.

Lemma waits_refs held d c conn a : d_connections d !! c = Some conn -> a ∈ conn_refs conn -> a ∈ held ++ refs d.
Proof. intros Hc Ha. unfold refs. do 5 (apply elem_of_app; right). by eapply conns_in. Qed.

(** The entry leaves the wait queue: for the head of the outbound queue, or for good. *)
Lemma dequeue_safe held c seq conn de (restart : bool) d :
  ok held d -> d_connections d !! c = Some conn -> findWaitQueueEntry seq conn = Some de ->
  safe held
    (update_connection c (fun conn => with_queues (outboundQueue conn) (dequeue_seq seq (waitQueue conn)) conn) ;;
     if restart then update_connection c (fun conn => with_queues (de :: outboundQueue conn) (waitQueue conn) conn)
     else releaseDispatchEntryLocked de) d.
Proof.
  intros Hok Hconn Hf. pose proof (queued_input _ _ _ _ Hok Hconn) as Hq. pose proof (found_waits _ _ _ Hf) as Hde.
  rewrite conn_refs_app in Hq. apply Forall_app in Hq as Hq'. destruct Hq' as [Hq1 Hq2]. apply returns_bind.
  eapply (returns_update_connection held (de_event de :: held)); [done|by eapply lookup_lt_Some| |].
  { intros conn' E. rewrite Hconn in E. injection E as <-. rewrite !conn_refs_app. cbn [outboundQueue waitQueue with_queues].
    split; [|split; [apply Forall_app; split; [done|by apply dequeue_Forall]|done]].
    intros b. rewrite !occ_app, (dequeue_occ seq (waitQueue conn) de b Hf). cbn [occ]. lia. }
  intros conn' d1 E Ed1 Hok1 F1. rewrite Hconn in E. injection E as <-.
  destruct restart; [|eapply returns_release; [exact Hok1|]; intros h2 d2 Hok2 F2; eauto using frame_trans].
  eapply (returns_update_connection (de_event de :: held) held); [done|by rewrite (fr_length _ _ F1); eapply lookup_lt_Some| |].
  2:{ intros conn2 d2 _ _ Hok2 F2. eauto using frame_trans. }
  intros conn2 E2. rewrite !conn_refs_app. cbn [outboundQueue waitQueue with_queues map].
  split; [intros b; rewrite !occ_app; cbn [occ]; lia|]. split; [|done].
  pose proof (queued_input _ _ _ _ Hok1 E2) as Hq3. rewrite conn_refs_app in Hq3. constructor; [|done].
  rewrite Ed1. rewrite conn_refs_app in Hde. rewrite Forall_forall in Hq. by apply Hq.
Qed.

Lemma finished_runs held c seq handled d :
  inv held d -> (c < length (d_connections d))%nat -> runs held (doDispatchCycleFinishedLockedInterruptible c seq handled) d.
Proof.
  intros I Hc. apply returns_bind, returns_connection; [done|]. intros conn Hconn.
  destruct (findWaitQueueEntry seq conn) as [de|] eqn:Ef; [|by apply runs_ret].
  pose proof (found_waits _ _ _ Ef) as Hde. pose proof (waits_refs held d c conn _ Hconn Hde) as Hin.
  apply returns_bind. eapply returns_entry; [exact (proj1 I)|exact Hin|]. intros e He. eapply (runs_bind held).
  { destruct (entry_type e) eqn:Et; try (by apply runs_ret). apply afterKey_runs; [done..|]. intros e' He'.
    replace e' with e by congruence. unfold is_key. by rewrite Et. }
  intros restart d1 I1 S1. rewrite <- (st_length _ _ S1) in Hc. apply returns_bind, returns_connection; [done|].
  intros conn1 Hconn1. eapply (runs_bind held).
  { destruct (findWaitQueueEntry seq conn1) as [de1|] eqn:Ef1; [|by apply runs_ret].
    apply runs_safe; [apply I1|]. exact (dequeue_safe held c seq conn1 de1 _ d1 (proj1 I1) Hconn1 Ef1). }
  intros [] d2 I2 S2. rewrite <- (st_length _ _ S2) in Hc. eapply runs_bind; [by apply clock_runs|]. intros t d3 I3 S3.
  rewrite <- (st_length _ _ S3) in Hc. apply runs_safe; [apply I3|]. apply startDispatch_safe; [apply I3|done].
Qed.

(** *** Running them *)

(** What a command needs, once it is taken from the queue. *)
Lemma run_command_runs cmd d :
  inv (cmd_refs cmd) d -> cmd_ok d cmd -> Forall (at_addr is_key (d_heap d)) (cmd_refs cmd) -> runs [] (run_command cmd) d.
Proof.
  intros I Hc Hk. destruct cmd as [t|c|app w|w a|c t seq handled]; cbn [run_command cmd_refs] in *.
  - by apply runs_ret.
  - apply returns_bind, returns_connection; [done|]. intros conn _. by apply runs_ret.
  - apply returns_bind, returns_gets. by apply resume_runs.
  - apply intercepted_runs; [done|]. by inversion Hk.
  - by apply finished_runs.
Qed.

Lemma pop_command d cmd q :
  inv [] d -> mCommandQueue d = cmd :: q ->
  let d' := set_commands q d in
  inv (cmd_refs cmd) d' /\ cmd_ok d' cmd /\ Forall (at_addr is_key (d_heap d')) (cmd_refs cmd) /\
  commands_left d = S (commands_left d').
Proof.
  intros [Hok Hf] E. pose proof Hok as [Hc Hfr Hk Hq Hi Hm Hb Hfb]. rewrite E in Hk, Hm.
  change (cmds_refs (cmd :: q)) with (cmd_refs cmd ++ cmds_refs q) in Hk. apply Forall_app in Hk as [Hl Hk].
  apply Forall_app in Hk as [Hk1 Hk2]. apply Forall_cons in Hm as [Hm1 Hm2]. cbv zeta. split; [|split; [|split]]; try done.
  - split; [|done]. eapply (ok_move [] _ d); try done; d_simpl; [|by apply Forall_app].
    assert (forall b, occ b (cmds_refs (cmd :: q)) = (occ b (cmd_refs cmd) + occ b (cmds_refs q))%nat) as Hcmd
      by (intros b; apply occ_app).
    intros b. unfold refs. d_simpl. rewrite E, !occ_app, Hcmd. cbn [occ app]. lia.
  - unfold commands_left. d_simpl. rewrite E. cbn. lia.
Qed.

Lemma run_commands_runs n d : inv [] d -> (commands_left d <= n)%nat -> runs [] (run_commands n) d.
Proof.
  revert d. induction n as [|n IH]; intros d I Hn; cbn [run_commands]; apply returns_bind, returns_gets;
    destruct (mCommandQueue d) as [|cmd q] eqn:E; try (by apply runs_ret).
  - unfold commands_left in Hn. rewrite E in Hn. cbn in Hn. lia.
  - apply returns_bind, returns_modify. destruct (pop_command d cmd q I E) as (I1 & Hc1 & Hk1 & Hl). cbv zeta in *.
    apply returns_bind. eapply returns_mono; [by apply run_command_runs|]. intros [] d2 [I2 S2].
    pose proof (st_commands _ _ S2). eapply returns_mono; [apply IH; [done|lia]|]. intros [] d3 [I3 S3]. split; [done|].
    pose proof (st_commands _ _ S3). destruct S2, S3. split; [lia|by etransitivity..].
Qed.

Lemma runCommands_runs d : inv [] d -> runs [] runCommandsLockedInterruptible d.
Proof.
  intros I. apply returns_bind, returns_gets. destruct (mCommandQueue d); [by apply runs_ret|].
  apply returns_bind, returns_gets. eapply runs_bind; [by apply run_commands_runs|]. intros [] d1 I1 _. by apply runs_ret.
Qed.

Lemma dispatchOnce_sound d : inv [] d -> sound [] dispatchOnce d.
Proof.
  intros I. eapply sound_bind; [by apply inner_sound|]. intros t d1 I1. apply returns_bind.
  eapply returns_mono; [by apply runCommands_runs|]. intros ran d2 [I2 _]. apply returns_bind.
  eapply returns_mono; [by apply clock_runs|]. intros t2 d3 [I3 _]. by apply sound_ret.
Qed.

End Invariant.
