(* ===== verification/DispatchInterface.v ===== *)
(** * The input dispatcher: its interface

    What other components call keeps the invariant of [DispatchInvariant]: the
    looper's callback, the notifications of the reader, the registration of
    channels, the modes, the focus and the windows, and the destructor. *)

From Stdlib Require Import SpecFloat.
From S2P Require Import Prelude Geometry Input AndroidEvents InputTransport InputState Dispatcher DispatchTargets DispatchLoop.
From S2P Require Import DispatchMemory DispatchSafe DispatchInvariant.

Lemma returns_after {S A B} (m : M S A) (k : A -> M S B) Q s a s' :
  m s = Ret a s' -> returns (k a) Q s' -> returns (m ≫= k) Q s.
Proof. intros E Hk. apply returns_bind. unfold returns at 1. by rewrite E. Qed.

Section Interface.
Context {K : Type} `{W : InputWorld K} `{!InputSocketLaws K} `{P : InputDispatcherPolicy K} `{!NoFallbackKeys K}
  `{Hs : InputHandles}.
Implicit Types d : Dispatcher K.

Lemma inv_world held k d : inv held d -> inv held (set_world k d).
Proof. intros [Hok Hf]. split; [by apply ok_world|done]. Qed.

Lemma wake_sound held d : inv held d -> sound held wake d.
Proof. apply inv_world. Qed.

(** ** Finished signals *)

(** The connections, and the descriptors that lead to them. *)
Definition wiring d : list (InputChannel * option nat * bool) * list (Z * nat) :=
  (map conn_id (d_connections d), mConnectionsByFd d).

Lemma runs_wiring {A} (m : M (Dispatcher K) A) d :
  runs [] m d -> returns m (fun _ d' => inv [] d' /\ wiring d' = wiring d) d.
Proof.
  intros Hm. eapply returns_mono; [exact Hm|]. intros a d' [I S]. split; [done|]. unfold wiring.
  by rewrite (st_conns _ _ S), (st_byFd _ _ S).
Qed.

Lemma wiring_length d d' : wiring d' = wiring d -> length (d_connections d') = length (d_connections d).
Proof. intros [= E _]. by rewrite <- (length_map conn_id), E, length_map. Qed.

Lemma wiring_channel d d' c conn :
  wiring d' = wiring d -> d_connections d !! c = Some conn ->
  exists conn', d_connections d' !! c = Some conn' /\ conn_id conn' = conn_id conn.
Proof.
  intros [= E _] Hc. assert ((conn_id <$> d_connections d') !! c = Some (conn_id conn)) as Hl.
  { change (map conn_id (d_connections d') !! c = Some (conn_id conn)). rewrite E.
    change ((conn_id <$> d_connections d) !! c = Some (conn_id conn)). by rewrite list_lookup_fmap, Hc. }
  rewrite list_lookup_fmap in Hl. apply fmap_Some in Hl as (conn' & Hc' & ->). eauto.
Qed.

Lemma inv_post d cmd : inv [] d -> cmd_refs cmd = [] -> cmd_ok d cmd -> inv [] (set_commands (mCommandQueue d ++ [cmd]) d).
Proof. intros [Hok Hf] Hr Hc. split; [by apply post_ok|done]. Qed.

Lemma finish_sound t c seq handled d :
  inv [] d -> (c < length (d_connections d))%nat ->
  returns (finishDispatchCycleLocked t c seq handled)
    (fun _ d' => inv [] d' /\ wiring d' = wiring d /\ d_world d' = d_world d) d.
Proof.
  intros [Hok Hf] Hc. apply returns_bind. eapply safe_update_connection; [done|done|done|].
  intros conn d1 _ Ed1 Hok1 F1. assert (inv [] d1) as I1 by (split; [done|by rewrite (fr_focus _ _ F1)]).
  assert (wiring d1 = wiring d) as W1 by (unfold wiring; by rewrite (fr_conns _ _ F1), (fr_byFd _ _ F1)).
  assert (d_world d1 = d_world d) as D1 by (by rewrite Ed1). rewrite <- (wiring_length _ _ W1) in Hc.
  apply returns_bind, returns_connection; [done|]. intros conn1 _. destruct (cn_status conn1); [|done..].
  apply returns_modify. split; [by apply inv_post|done].
Qed.

Lemma signal_spec fd (k : K) :
  exists st r k', receiveFinishedSignal fd k = Ret (st, r) k' /\
    match r with
    | Some _ => st = OK -> S (length (incoming fd k')) = length (incoming fd k)
    | None => True
    end.
Proof.
  unfold receiveFinishedSignal, mbind, M_bind. destruct (receiveMessage_spec fd k) as (st & m & k' & -> & Hm).
  destruct m as [msg|]; [|eexists _, _, _; split; [reflexivity|]; by destruct Hm].
  destruct Hm as (-> & n & _ & Hin). destruct msg; eexists _, _, _; (split; [reflexivity|]); try done. by rewrite Hin.
Qed.

Lemma receive_sound fuel t c got d conn :
  inv [] d -> d_connections d !! c = Some conn ->
  (length (incoming (channel_fd (cn_channel conn)) (d_world d)) <= fuel)%nat ->
  returns (receive_signals fuel t c got) (fun _ d' => inv [] d' /\ wiring d' = wiring d) d.
Proof.
  revert d conn got. induction fuel as [|fuel IH]; intros d conn got I Hc Hn; cbn [receive_signals];
    (apply returns_bind; eapply returns_deref; [exact Hc|]); apply returns_bind;
    destruct (signal_spec (channel_fd (cn_channel conn)) (d_world d)) as (st & r & k & E & Hr);
    (apply returns_zoom_world; [by eexists _, _|]); intros r' k'; rewrite E; intros [= <- <-];
    (destruct r as [[seq handled]|]; [|split; [by apply inv_world|done]]);
    (destruct (Z.eqb_spec st OK) as [->|]; cbn [negb]; [|split; [by apply inv_world|done]]);
    specialize (Hr eq_refl); [lia|].
  pose proof (inv_world [] k d I) as I1. apply returns_bind. eapply returns_mono.
  { apply finish_sound; [exact I1|]. by eapply lookup_lt_Some. }
  intros [] d2 (I2 & W2 & D2). destruct (wiring_channel (set_world k d) d2 c conn W2 Hc) as (conn2 & Hc2 & Hid).
  eapply returns_mono; [eapply (IH d2 conn2); [done..|]|].
  - injection Hid as -> _ _. rewrite D2. cbn. lia.
  - intros r d3 [I3 W3]. split; [done|]. by rewrite W3, W2.
Qed.

(** ** Channels *)

Lemma inv_byFd_erase fd d : inv [] d -> inv [] (set_byFd (OrdMap.erase fd (mConnectionsByFd d)) d).
Proof. intros [[Hc Hf Hk Hq Hi Hm Hb Hfb] Hfo]. split; [|done]. split; try done. d_simpl. by apply erase_Forall. Qed.

Lemma inv_monitors held ms d : inv held d -> inv held (set_focus (with_monitors ms (d_focus d)) d).
Proof. intros [Hok [Hi Hfo Hh Ht]]. split; [by apply ok_set_focus|]. by split. Qed.

Lemma status_runs s c d : inv [] d -> s <> STATUS_NORMAL -> (c < length (d_connections d))%nat -> runs [] (update_connection c (with_status s)) d.
Proof.
  intros [Hok Hf] Hne Hc. apply runs_safe; [done|]. eapply safe_update_connection; [done|done| |]; [|eauto].
  intros conn _. repeat split; try done. unfold normal. cbn. by rewrite bool_decide_eq_false_2.
Qed.

Lemma unregister_found c channel notify d :
  inv [] d -> getConnectionIndexLocked channel d = Ret (Some c) d -> (c < length (d_connections d))%nat ->
  returns (unregisterInputChannelLocked channel notify) (fun st d' => st = OK /\ inv [] d' /\
    wiring d' = (map conn_id (d_connections d), OrdMap.erase (channel_fd channel) (mConnectionsByFd d))) d.
Proof.
  intros I E Hc. eapply returns_after; [exact E|].
  apply returns_bind, returns_modify. pose proof (inv_byFd_erase (channel_fd channel) d I) as I1.
  set (d1 := set_byFd _ d) in *. apply returns_bind, returns_connection; [done|]. intros conn _.
  apply returns_bind. eapply (returns_mono _ (fun _ d' => inv [] d' /\ wiring d' = wiring d1)).
  { case_match; [|done]. apply returns_modify. split; [by apply inv_monitors|done]. }
  intros [] d2 [I2 W2]. apply returns_bind, returns_modify.
  pose proof (inv_world [] (looper_removeFd (channel_fd channel) (d_world d2)) d2 I2) as I3.
  change (wiring (set_world (looper_removeFd (channel_fd channel) (d_world d2)) d2) = wiring d1) in W2.
  set (d3 := set_world _ d2) in *. apply returns_bind. eapply returns_mono; [by apply runs_wiring, clock_runs|].
  intros t d4 [I4 W4]. rewrite W2 in W4. assert ((c < length (d_connections d4))%nat) as Hc4 by (by rewrite (wiring_length _ _ W4)).
  apply returns_bind. eapply returns_mono.
  { apply runs_wiring, runs_safe; [apply I4|]. apply abort_safe; [apply I4|done]. }
  intros [] d5 [I5 W5]. rewrite W4 in W5. apply returns_bind. eapply returns_mono; [by apply runs_wiring, runCommands_runs|].
  intros r d6 [I6 W6]. rewrite W5 in W6. apply returns_bind. eapply returns_mono.
  { apply runs_wiring, status_runs; [done..|]. by rewrite (wiring_length _ _ W6). }
  intros [] d7 [I7 W7]. rewrite W6 in W7. by apply returns_ret.
Qed.

Lemma unregisterLocked_sound channel notify d : inv [] d -> sound [] (unregisterInputChannelLocked channel notify) d.
Proof.
  intros I. destruct (getConnection_reads [] d channel (proj1 I)) as (r & E & Hr). destruct r as [c|].
  - eapply returns_mono; [by eapply unregister_found; [..|apply Hr]|]. intros st d' (_ & I' & _). done.
  - by eapply returns_after.
Qed.

Lemma unregister_sound channel d : inv [] d -> sound [] (unregisterInputChannel channel) d.
Proof.
  intros I. eapply sound_bind; [by apply unregisterLocked_sound|]. intros st d' I'. case_match; [done|].
  eapply sound_bind; [by apply wake_sound|]. done.
Qed.

(** The messages that wait at a descriptor bound the callback's loop. *)
Lemma receiveCallback_sound fuel fd events d :
  inv [] d -> (length (incoming fd (snd (now (d_world d)))) <= fuel)%nat -> sound [] (handleReceiveCallback fuel fd events) d.
Proof.
  intros I Hn. apply returns_bind, returns_gets. destruct (OrdMap.find fd (mConnectionsByFd d)) as [c|] eqn:E; [|done].
  pose proof (ok_byFd _ _ (proj1 I)) as Hb. rewrite Forall_forall in Hb.
  destruct (Hb _ (find_some_In _ _ _ E)) as (conn & Hc & Hfd). cbn in Hc, Hfd.
  apply returns_bind. eapply returns_deref; [exact Hc|]. cbv zeta.
  assert (forall notify d', inv [] d' -> sound [] (unregisterInputChannelLocked (cn_channel conn) notify ;; mret 0) d') as Hun.
  { intros notify d' I'. eapply sound_bind; [by apply unregisterLocked_sound|]. done. }
  case_match; [by apply Hun|]. case_match; [done|]. apply returns_bind. unfold returns, clock.
  destruct (now (d_world d)) as [t k]. cbn in Hn. pose proof (inv_world [] k d I) as I1.
  apply returns_bind. eapply returns_mono; [eapply receive_sound; [exact I1|exact Hc|by rewrite Hfd]|].
  intros [got st] d2 [I2 _]. eapply (sound_bind []).
  { destruct got; [|done]. apply returns_bind. eapply returns_mono; [by apply runCommands_runs|]. by intros r d3 [I3 _]. }
  intros [] d3 I3. case_match; [done|by apply Hun].
Qed.

Lemma register_sound channel window monitor d : inv [] d -> sound [] (registerInputChannel channel window monitor) d.
Proof.
  intros [Hok Hf]. apply returns_bind. eapply reads_returns; [by apply (getConnection_reads [])|]. intros [c|] _; [done|].
  apply returns_bind, returns_modify. set (d1 := set_byFd _ _). assert (inv [] d1) as I1.
  { split; [|done]. pose proof Hok as [Hc Hfr Hk Hq Hi Hm Hb Hfb]. eapply (ok_move [] _ d); try done; unfold d1; d_simpl.
    - intros a. unfold refs. d_simpl. rewrite !occ_app, conns_app. cbn. lia.
    - unfold conns_refs in *. rewrite map_app, concat_app. apply Forall_app. split; [done|]. cbn. by constructor.
    - eapply Forall_impl; [exact Hm|]. intros []; unfold cmd_ok; d_simpl; rewrite ?length_app; cbn; try done; lia.
    - apply insert_Forall.
      + exists (Connection_new channel window monitor). cbn. by rewrite lookup_app_r, Nat.sub_diag.
      + eapply Forall_impl; [exact Hb|]. intros p (conn & Hp & Hfd). exists conn. split; [by apply lookup_app_l_Some|done].
    - apply Forall_app. split; [done|]. constructor; [|done]. by constructor. }
  eapply (sound_bind []).
  { case_match; [|done]. apply returns_modify. by apply inv_monitors. }
  intros [] d2 I2. apply returns_bind, returns_modify, returns_bind. eapply returns_mono; [by apply runCommands_runs, inv_world|].
  by intros r d3 [I3 _].
Qed.

(** ** Notifications *)

(** The running function's reference becomes that of the inbound queue. *)
Lemma push_inbound held d a :
  inv (a :: held) d -> at_addr inbound_ok (d_heap d) a -> inv held (set_inbound (mInboundQueue d ++ [a]) d).
Proof.
  intros [Hok Hf] Ha. split; [|done]. pose proof Hok as [Hc Hfr Hk Hq Hi Hm Hb Hfb].
  eapply (ok_move (a :: held) _ d); try done; d_simpl.
  - intros b. unfold refs. d_simpl. cbn [app occ]. rewrite !occ_app. cbn [occ]. lia.
  - apply Forall_app in Hi as [Hi1 Hi2]. rewrite !Forall_app. repeat split; try done. by constructor.
Qed.

Lemma inv_modes held m d : inv held d -> inv held (set_modes m d).
Proof. intros [Hok Hf]. split; [by apply ok_set_modes|done]. Qed.

Lemma inv_unblocked held u d : inv held d -> inv held (set_unblocked u d).
Proof. intros [Hok Hf]. split; [by apply ok_set_unblocked|done]. Qed.

Lemma enqueueInbound_sound a d :
  inv [a] d -> at_addr inbound_ok (d_heap d) a -> sound [] (enqueueInboundEventLocked a) d.
Proof.
  intros I Ha. apply returns_bind, returns_gets, returns_bind, returns_modify. pose proof (push_inbound [] d a I Ha) as I1.
  set (d1 := set_inbound _ d) in *. apply returns_bind. eapply returns_entry; [apply I1| |].
  { unfold refs, d1. d_simpl. set_solver. }
  intros e He. specialize (Ha e He). unfold inbound_ok in Ha. destruct (entry_type e) as [| |k|m] eqn:Et; [done..| |].
  - repeat (case_match; try done).
    + apply returns_bind, returns_modify. by apply inv_modes.
    + apply returns_bind, returns_gets. case_match; [|done]. apply returns_bind, returns_modify. by apply inv_modes.
  - apply returns_bind, returns_gets. case_match; [|done]. case_match; [|done].
    apply returns_bind. eapply (reads_returns _ (fun _ => True)).
    + eapply reads_bind; [apply point_reads; [done|destruct Ha; lia]|]. intros p _.
      eapply reads_bind; [by apply (reads_gets _ (fun l => l = mWindowHandles (d_focus d1)))|]. intros ? ->.
      eapply reads_mono; [by apply touched_reads; [apply I1|]|done].
    + intros touched _. apply returns_bind, returns_gets. repeat (case_match; try done). apply returns_bind, returns_modify.
      by apply inv_unblocked.
Qed.

Lemma enqueue_new_sound e d : inv [] d -> refCount e = 1 -> inbound_ok e -> sound [] (enqueue_new e) d.
Proof.
  intros [Hok Hf] Hr He. apply returns_bind. eapply returns_new; [done..|]. intros d1 Hok1 F1.
  eapply sound_bind; [apply enqueueInbound_sound; [by split|]|].
  - intros e' He'. unfold d1 in He'. d_simpl. rewrite lookup_insert_eq in He'. by injection He' as <-.
  - intros b d2 I2. case_match; [by apply wake_sound|done].
Qed.

Lemma filter_event_sound event flags d : inv [] d -> sound [] (filter_event event flags) d.
Proof.
  intros I. apply returns_bind, returns_gets. case_match; [|done]. apply returns_bind. unfold returns, ask_filter.
  destruct (filterInputEvent_policy _ _ _) as [pass k]. by apply inv_world.
Qed.

Lemma notifyKey_sound t dev src pf action flags code scan meta down d :
  inv [] d -> sound [] (notifyKey t dev src pf action flags code scan meta down) d.
Proof.
  intros I. unfold notifyKey. case_match; [done|]. cbv zeta. eapply sound_bind; [by apply filter_event_sound|].
  intros [f|] d1 I1; [|done]. by apply enqueue_new_sound.
Qed.

Lemma notifyMotion_sound t pf m d :
  inv [] d -> (validateMotionEvent (me_action m) (map fst (me_pointers m)) = true -> motion_ok m) ->
  sound [] (notifyMotion t pf m) d.
Proof.
  intros I Hm. unfold notifyMotion. destruct (validateMotionEvent _ _); cbn [negb]; [|done]. specialize (Hm eq_refl). cbv zeta. eapply sound_bind; [by apply filter_event_sound|].
  intros [f|] d1 I1; [|done]. by apply enqueue_new_sound.
Qed.

(** ** Modes *)

Lemma cancelAll_sound held o d : inv held d -> sound held (synthesizeCancelationEventsForAllConnectionsLocked o) d.
Proof. intros [Hok Hf]. by apply sound_safe, cancelAll_safe. Qed.

Lemma resetANR_sound held d : inv held d -> sound held resetANRTimeoutsLocked d.
Proof. intros [Hok Hf]. split; [by apply ok_wait|done]. Qed.

Lemma no_touch_ok f : focus_ok f -> focus_ok (with_hover None (with_touch TouchState_new f)).
Proof. intros [Hi Hfo _ _]. split; try done. by constructor. Qed.

Lemma resetAndDrop_sound d : inv [] d -> sound [] resetAndDropEverythingLocked d.
Proof.
  intros I. eapply sound_bind; [by apply cancelAll_sound|]. intros [] d1 [Hok1 Hf1].
  eapply sound_bind; [by apply sound_good, resetKeyRepeat_good|]. intros [] d2 I2.
  eapply sound_bind; [by apply releasePending_sound|]. intros [] d3 [Hok3 Hf3].
  eapply sound_bind; [apply returns_bind, returns_gets; by apply sound_good, drain_inbound_good|]. intros [] d4 I4.
  eapply sound_bind; [by apply resetANR_sound|]. intros [] d5 [Hok5 Hf5].
  apply returns_modify. split; [by apply ok_set_focus|]. by apply no_touch_ok.
Qed.

Lemma dispatchMode_sound enabled frozen d : inv [] d -> sound [] (setInputDispatchMode enabled frozen) d.
Proof.
  intros I. apply returns_bind, returns_gets. case_match; [|done].
  eapply (sound_bind []); [case_match; [by apply resetANR_sound|done]|]. intros [] d1 I1.
  eapply (sound_bind []); [case_match; [by apply resetAndDrop_sound|done]|]. intros [] d2 I2.
  apply returns_bind, returns_modify, wake_sound. by apply inv_modes.
Qed.

Lemma filterEnabled_sound enabled d : inv [] d -> sound [] (setInputFilterEnabled enabled) d.
Proof.
  intros I. apply returns_bind, returns_gets. case_match; [done|]. apply returns_bind, returns_modify.
  eapply sound_bind; [by apply resetAndDrop_sound, inv_modes|]. intros [] d2 I2. by apply wake_sound.
Qed.

(** ** Focus and windows *)

Lemma inv_applications held h a d : inv held d -> inv held (set_focus (with_applications h a (d_focus d)) d).
Proof. intros [Hok [Hi Hfo Hh Ht]]. split; [by apply ok_set_focus|]. by split. Qed.

Lemma leave_sound a focused d : inv [] d -> sound [] (leave_application a focused) d.
Proof.
  intros I. eapply sound_bind; [by apply resetANR_sound|]. intros [] d1 I1. apply returns_modify. by apply inv_applications.
Qed.

Lemma focusedApplication_sound handle d : inv [] d -> sound [] (setFocusedApplication handle) d.
Proof.
  intros I. apply returns_bind, returns_gets. eapply (sound_bind []); [|intros []; apply wake_sound].
  destruct (handle ≫= _) as [[a i]|].
  - apply returns_bind, returns_modify. set (d1 := set_focus _ d). assert (inv [] d1) as I1 by (by apply inv_applications).
    case_match; [done|]. case_match; [by apply leave_sound|]. apply returns_modify. by apply inv_applications.
  - case_match; [by apply leave_sound|done].
Qed.

(** A window keeps its information while others are brought up to date. *)
Lemma update_window_info w f x :
  has_info f x -> has_info (snd (update_window w f)) x.
Proof.
  unfold update_window, has_info. intros [i Hi]. destruct (fo_handles f !! w) as [h|] eqn:Eh; [|by exists i].
  case_match; [|by exists i]. cbn. destruct (decide (w = x)) as [<-|Hne]; [rewrite lookup_insert_eq; by eexists|].
  rewrite lookup_insert_ne by done. by exists i.
Qed.

Lemma update_window_valid w f : fst (update_window w f) = true -> has_info (snd (update_window w f)) w.
Proof.
  unfold update_window, has_info. destruct (fo_handles f !! w); [|done]. case_match; [|done]. intros _. cbn.
  rewrite lookup_insert_eq. by eexists.
Qed.

Lemma update_windows_info ws f x : has_info f x -> has_info (snd (update_windows ws f)) x.
Proof.
  revert f. induction ws as [|w ws IH]; intros f Hx; cbn; [done|]. pose proof (update_window_info w f x Hx) as Hx1.
  destruct (update_window w f) as [b f1]. specialize (IH f1 Hx1). destruct (update_windows ws f1) as [[rest fc] f2].
  by destruct b.
Qed.

(** Those that are kept have theirs, and one of them has the focus. *)
Lemma update_windows_ok ws f :
  let '(ws', focused, f') := update_windows ws f in
  Forall (has_info f') ws' /\ (forall w, focused = Some w -> w ∈ ws') /\ mTouchState f' = mTouchState f /\
  mFocusedWindowHandle f' = mFocusedWindowHandle f.
Proof.
  revert f. induction ws as [|w ws IH]; intros f; cbn; [done|].
  pose proof (update_window_valid w f) as Hv.
  assert (mTouchState (snd (update_window w f)) = mTouchState f /\
          mFocusedWindowHandle (snd (update_window w f)) = mFocusedWindowHandle f) as [Et Ef]
    by (unfold update_window; repeat case_match; done).
  destruct (update_window w f) as [b f1]. cbn in Hv, Et, Ef.
  pose proof (update_windows_info ws f1 w) as Hk. specialize (IH f1). destruct (update_windows ws f1) as [[rest fc] f2].
  destruct IH as (Hi & Hf & Ht & Hfw). cbn in Hk.
  assert (mTouchState f2 = mTouchState f /\ mFocusedWindowHandle f2 = mFocusedWindowHandle f) as Hsame by (split; congruence).
  destruct b; [|done]. split; [constructor; auto|]. split; [|done]. intros x. destruct fc as [y|].
  - intros [= <-]. right. by apply Hf.
  - destruct (match _ with Some i => hasFocus i | None => false end); intros [= <-]. left.
Qed.

Lemma cancelWindow_safe w mode d : ok [] d -> safe [] (cancel_for_window w mode) d.
Proof.
  intros Hok. apply returns_bind, returns_gets. case_match; [|split; [done|apply frame_refl]]. by apply cancelChannel_safe.
Qed.

Lemma releaseInfo_other w f x : x <> w -> has_info f x -> has_info (releaseInfo w f) x.
Proof. intros Hne Hx. unfold releaseInfo. case_match; [|done]. unfold has_info. cbn. by rewrite lookup_insert_ne. Qed.

Lemma releaseInfo_fields w f :
  mWindowHandles (releaseInfo w f) = mWindowHandles f /\ mFocusedWindowHandle (releaseInfo w f) = mFocusedWindowHandle f /\
  mLastHoverWindowHandle (releaseInfo w f) = mLastHoverWindowHandle f /\ mTouchState (releaseInfo w f) = mTouchState f.
Proof. unfold releaseInfo. by case_match. Qed.

(** The information of windows that are gone is released. *)
Lemma release_gone_ok ws old f :
  mWindowHandles f = ws -> focus_ok f ->
  focus_ok (fold_left (fun f w => if bool_decide (w ∈ ws) then f else releaseInfo w f) old f).
Proof.
  revert f. induction old as [|w old IH]; intros f Ew Hf; cbn; [done|]. destruct (releaseInfo_fields w f) as (E1 & E2 & E3 & E4).
  case_bool_decide as Hw; [by apply IH|]. apply IH; [by rewrite E1|].
  destruct Hf as [Hi Hfo Hh Ht]. split; rewrite ?E1, ?E2, ?E3, ?E4; try done. rewrite Forall_forall in *. intros x Hx.
  apply releaseInfo_other; [intros ->; by rewrite Ew in Hx|by apply Hi].
Qed.

(** What is known of the focus while the windows are exchanged: the windows have
    their information, but those focused or touched may be gone. *)
Record windows_ok (ws : list nat) (f : Focus) : Prop := {
  wo_windows : mWindowHandles f = ws;
  wo_info : Forall (has_info f) ws;
  wo_hover : forall w, mLastHoverWindowHandle f = Some w -> w ∈ ws;
  wo_touch : Forall (fun t => splits (tw_flags t) = true -> tw_pointerIds t <> 0) (ts_windows (mTouchState f));
}.

Lemma windows_updated handles f :
  focus_ok f ->
  let '(ws, focused, f1) := update_windows handles f in
  let hover := if existsb (fun w => bool_decide (Some w = mLastHoverWindowHandle f)) ws then mLastHoverWindowHandle f else None in
  windows_ok ws (with_hover hover (with_windows ws f1)) /\ (forall w, focused = Some w -> w ∈ ws) /\
  mFocusedWindowHandle f1 = mFocusedWindowHandle f.
Proof.
  intros Hf. pose proof (update_windows_ok handles f) as H. destruct (update_windows handles f) as [[ws focused] f1].
  destruct H as (Hi & Hfo & Ht & Hfw). cbv zeta. split; [|done]. split; try done; cbn.
  - destruct (existsb _ ws) eqn:E; [|done]. apply existsb_exists in E as (w & Hw & Ew%bool_decide_eq_true). rewrite <- Ew.
    intros x [= <-]. by apply list_elem_of_In.
  - rewrite Ht. eapply Forall_impl; [exact (fo_touch _ Hf)|]. by intros t [_ ?].
Qed.

(** The touched windows that are gone are dropped. *)
Lemma windows_settled ws f :
  windows_ok ws f -> (forall w, mFocusedWindowHandle f = Some w -> w ∈ ws) ->
  focus_ok (with_touch (set_ts_windows (List.filter (fun t => bool_decide (tw_window t ∈ ws)) (ts_windows (mTouchState f)))
                          (mTouchState f)) f).
Proof.
  intros [Ew Hi Hh Ht] Hf. split; cbn; rewrite Ew; try done. apply Forall_forall. intros t Hin.
  apply list_elem_of_In, filter_In in Hin as [Hin Hw%bool_decide_eq_true]. split; [done|].
  rewrite Forall_forall in Ht. apply Ht. by apply list_elem_of_In.
Qed.

Lemma setInputWindows_sound handles d : inv [] d -> sound [] (setInputWindows handles) d.
Proof.
  intros [Hok Hf]. apply returns_bind, returns_gets, returns_bind, returns_gets.
  pose proof (windows_updated handles (d_focus d) Hf) as Hw.
  destruct (update_windows handles (d_focus d)) as [[ws focused] f1]. cbv zeta in *. destruct Hw as (Hw & Hfo & Efw).
  apply returns_bind, returns_modify. set (f2 := with_hover _ _) in *. pose proof (ok_set_focus [] f2 d Hok) as Hok2.
  apply returns_bind. eapply (returns_mono _ (fun _ d' => ok [] d' /\ windows_ok ws (d_focus d') /\
    forall w, mFocusedWindowHandle (d_focus d') = Some w -> w ∈ ws)).
  { case_bool_decide as Eq.
    - split; [done|]. split; [done|]. cbn. intros w Ew. apply Hfo. by rewrite <- Eq, <- Efw.
    - apply returns_bind. eapply (returns_mono _ (fun _ d' => ok [] d' /\ d_focus d' = f2)).
      { case_match; [|done]. eapply returns_mono; [by apply cancelWindow_safe|]. intros [] d' [Hok' F'].
        split; [done|]. by rewrite (fr_focus _ _ F'). }
      intros [] d' [Hok' Ef]. apply returns_modify. split; [by apply ok_set_focus|]. cbn. rewrite Ef. split; [|done].
      destruct Hw. by split. }
  intros [] d3 (Hok3 & Hw3 & Hfo3). apply returns_bind, returns_gets, returns_bind.
  eapply returns_mono; [apply (returns_for_each _ _ (fun d' => ok [] d' /\ d_focus d' = d_focus d3))|]; [|done|].
  { intros t d' _ [Hok' Ef]. eapply returns_mono; [by apply cancelWindow_safe|]. intros [] d'' [Hok'' F'].
    split; [done|]. by rewrite (fr_focus _ _ F'). }
  intros [] d4 [Hok4 Ef4]. apply returns_bind, returns_modify, returns_bind, returns_modify, wake_sound. rewrite Ef4.
  split; [by apply ok_set_focus, ok_set_focus|]. cbn. apply release_gone_ok; [apply Hw3|]. by apply windows_settled.
Qed.

Lemma copyPointer_unlatched s1 s2 : unlatched s2 -> unlatched (copyPointerStateTo s1 s2).
Proof.
  unfold copyPointerStateTo. revert s2. induction (mMotionMementos s1) as [|m l IH]; intros s2 H; [done|]. cbn. apply IH.
  unfold copy_memento, unlatched. by repeat case_match.
Qed.

Lemma transfer_flags flags :
  splits (Z.land flags (Z.lor (Z.lor FLAG_FOREGROUND FLAG_SPLIT) FLAG_DISPATCH_AS_IS)) = true -> splits flags = true.
Proof. unfold splits. rewrite Z.land_spec. by intros [? _]%andb_true_iff. Qed.

Lemma transfer_focus_ok from to t f :
  focus_ok f -> to ∈ mWindowHandles f -> t ∈ ts_windows (mTouchState f) ->
  focus_ok (with_touch (addOrUpdateWindow to
    (Z.land (tw_flags t) (Z.lor (Z.lor FLAG_FOREGROUND FLAG_SPLIT) FLAG_DISPATCH_AS_IS)) (tw_pointerIds t)
    (removeWindow from (mTouchState f))) f).
Proof.
  intros [Hi Hfo Hh Ht] Hto Hin. split; try done. cbn. apply add_ok; [done| |by apply remove_ok].
  intros Hs'%transfer_flags. unfold temp_ok in Ht. rewrite Forall_forall in Ht. by apply (Ht t Hin).
Qed.

Lemma getWindow_in ch f w : getWindowHandleLocked ch f = Some w -> w ∈ mWindowHandles f.
Proof. intros [Hin _]%find_some. by apply list_elem_of_In. Qed.

Lemma transfer_sound from to d : inv [] d -> sound [] (transferTouchFocus from to) d.
Proof.
  intros [Hok Hf]. apply returns_bind, returns_gets. destruct (getWindowHandleLocked from _) as [wf|] eqn:Ewf; [|done].
  destruct (getWindowHandleLocked to _) as [wt|] eqn:Ewt; [|done]. case_match; [done|]. cbv zeta.
  destruct (List.find _ _) as [t|] eqn:Et; [|done]. apply find_some in Et as [Ht _]. apply returns_bind, returns_modify.
  set (d1 := set_focus _ d). assert (inv [] d1) as I1.
  { split; [by apply ok_set_focus|]. apply transfer_focus_ok; [done|by eapply getWindow_in|by apply list_elem_of_In]. }
  apply returns_bind. eapply reads_returns; [apply (getConnection_reads []); apply I1|]. intros c1 Hc1.
  apply returns_bind. eapply reads_returns; [apply (getConnection_reads []); apply I1|]. intros c2 Hc2.
  eapply (sound_bind []); [|intros [] d2 I2; eapply sound_bind; [by apply wake_sound|done]].
  destruct c1 as [c1|]; [|done]. destruct c2 as [c2|]; [|done]. specialize (Hc1 c1 eq_refl). specialize (Hc2 c2 eq_refl).
  apply returns_bind, returns_connection; [done|]. intros conn _. apply returns_bind.
  eapply returns_mono; [apply update_state_runs; [done..|]; intros; by apply copyPointer_unlatched|].
  intros [] d2 [I2 S2]. apply sound_safe; [apply I2|]. apply cancelConnection_safe; [apply I2|]. by rewrite (st_length _ _ S2).
Qed.

(** ** The destructor *)

Lemma unregister_all_sound n d :
  inv [] d -> (length (mConnectionsByFd d) <= n)%nat ->
  returns (unregister_all n) (fun _ d' => inv [] d' /\ mConnectionsByFd d' = []) d.
Proof.
  revert d. induction n as [|n IH]; intros d I Hn; cbn [unregister_all]; apply returns_bind, returns_gets;
    destruct (mConnectionsByFd d) as [|[fd c] l] eqn:E; try done.
  - cbn in Hn. lia.
  - pose proof (ok_byFd _ _ (proj1 I)) as Hb. rewrite E in Hb. apply Forall_cons in Hb as [(conn & Hc & Hfd) _]. cbn in Hc, Hfd.
    apply returns_bind. eapply returns_deref; [exact Hc|]. apply returns_bind, returns_bind. eapply returns_mono.
    { eapply (unregister_found c); [exact I| |by eapply lookup_lt_Some].
      unfold getConnectionIndexLocked. rewrite E, Hfd. cbn. by rewrite Z.eqb_refl, Hc, Nat.eqb_refl. }
    intros st d1 (-> & I1 & [= _ Eb]). cbn [negb Z.eqb]. apply returns_bind, returns_modify, returns_ret.
    rewrite E, Hfd in Eb. cbn in Eb. rewrite Z.eqb_refl in Eb. apply IH; [by apply inv_world|]. d_simpl. rewrite Eb. cbn in Hn. lia.
Qed.

Lemma delete_sound d : inv [] d -> returns InputDispatcher_delete (fun _ d' => inv [] d' /\ mConnectionsByFd d' = []) d.
Proof.
  intros [Hok Hf]. apply returns_bind. eapply returns_mono; [by apply sound_good, resetKeyRepeat_good|]. intros [] d1 I1.
  apply returns_bind. eapply returns_mono; [by apply releasePending_sound|]. intros [] d2 [Hok2 Hf2].
  apply returns_bind. eapply returns_mono; [apply returns_bind, returns_gets; by apply sound_good, drain_inbound_good|].
  intros [] d3 I3. apply returns_bind, returns_gets. by apply unregister_all_sound.
Qed.

(** ** Any sequence of calls *)

(** The calls of other threads, and what the dispatcher's own thread does. *)
Inductive DispatcherCall : Type :=
| call_dispatchOnce
| call_handleReceiveCallback (fuel : nat) (fd events : Z)
| call_notifyConfigurationChanged (eventTime : Z)
| call_notifyDeviceReset (eventTime deviceId : Z)
| call_notifyKey (eventTime deviceId source policyFlags action flags keyCode scanCode metaState downTime : Z)
| call_notifyMotion (eventTime policyFlags : Z) (m : MotionEntry)
| call_registerInputChannel (channel : InputChannel) (window : option nat) (monitor : bool)
| call_unregisterInputChannel (channel : InputChannel)
| call_setInputDispatchMode (enabled frozen : bool)
| call_setInputFilterEnabled (enabled : bool)
| call_setFocusedApplication (handle : option nat)
| call_setInputWindows (handles : list nat)
| call_transferTouchFocus (fromChannel toChannel : InputChannel).

Definition perform (c : DispatcherCall) : M (Dispatcher K) unit :=
  match c with
  | call_dispatchOnce => dispatchOnce ;; mret tt
  | call_handleReceiveCallback fuel fd events => handleReceiveCallback fuel fd events ;; mret tt
  | call_notifyConfigurationChanged t => notifyConfigurationChanged t
  | call_notifyDeviceReset t id => notifyDeviceReset t id
  | call_notifyKey t dev src pf action flags code scan meta down => notifyKey t dev src pf action flags code scan meta down
  | call_notifyMotion t pf m => notifyMotion t pf m
  | call_registerInputChannel ch w monitor => registerInputChannel ch w monitor ;; mret tt
  | call_unregisterInputChannel ch => unregisterInputChannel ch ;; mret tt
  | call_setInputDispatchMode enabled frozen => setInputDispatchMode enabled frozen
  | call_setInputFilterEnabled enabled => setInputFilterEnabled enabled
  | call_setFocusedApplication h => setFocusedApplication h
  | call_setInputWindows hs => setInputWindows hs
  | call_transferTouchFocus from to => transferTouchFocus from to ;; mret tt
  end.

(** What [validateMotionEvent] does not test: the index in the action is that of
    a pointer of the motion, whatever the action, and the coordinates of the
    pointers are numbers in the range of [int32_t]. *)
Definition in_range (m : MotionEntry) : Prop :=
  (Z.to_nat (getMotionEventActionPointerIndex (me_action m)) < length (me_pointers m))%nat /\
  Forall (fun p => is_Some (int_of_float (getX (snd p))) /\ is_Some (int_of_float (getY (snd p)))) (me_pointers m).

(** A motion that is let through is in range; the callback's bound is at least
    the number of signals that wait. *)
Definition admissible d (c : DispatcherCall) : Prop :=
  match c with
  | call_notifyMotion _ _ m => validateMotionEvent (me_action m) (map fst (me_pointers m)) = true -> in_range m
  | call_handleReceiveCallback fuel fd _ => (length (incoming fd (snd (now (d_world d)))) <= fuel)%nat
  | _ => True
  end.

(** The states of a dispatcher. *)
Inductive reachable : Dispatcher K -> Prop :=
| reachable_new k handles applications channels : reachable (InputDispatcher_new k handles applications channels)
| reachable_call d c d' : reachable d -> admissible d c -> perform c d = Ret tt d' -> reachable d'.

Lemma sound_void {A} (m : M (Dispatcher K) A) d : sound [] m d -> sound [] (m ;; mret tt) d.
Proof. intros Hm. eapply sound_bind; [exact Hm|]. done. Qed.

Lemma valid_ids_range seen ids : valid_ids seen ids = true -> Forall (fun id => 0 <= id <= 31) ids.
Proof.
  revert seen. induction ids as [|id ids IH]; intros seen Hv; cbn in Hv; [constructor|].
  destruct ((id <? 0) || (MAX_POINTER_ID <? id)) eqn:E; [done|]. apply orb_false_elim in E as [H1 H2].
  destruct (hasBit seen id); [done|]. constructor; [unfold MAX_POINTER_ID in H2; lia|eauto].
Qed.

(** A motion that is let through and is in range is one the dispatcher can handle. *)
Lemma in_range_ok m : validateMotionEvent (me_action m) (map fst (me_pointers m)) = true -> in_range m -> motion_ok m.
Proof.
  intros Hv [Hi Hp]. split; [done|]. unfold validateMotionEvent in Hv. do 2 (case_match; [done|]).
  apply valid_ids_range in Hv. rewrite map_map, Forall_map in Hv. apply Forall_forall. intros p Hin.
  rewrite Forall_forall in Hp, Hv. destruct (Hp p Hin) as [Hx Hy]. split; [done|]. split; [done|]. exact (Hv p Hin).
Qed.

Lemma perform_sound c d : inv [] d -> admissible d c -> sound [] (perform c) d.
Proof.
  intros I Ha. destruct c; cbn [perform]; try apply sound_void; cbn in Ha;
    [by apply dispatchOnce_sound|by apply receiveCallback_sound|by apply enqueue_new_sound|by apply enqueue_new_sound
    |by apply notifyKey_sound|by apply notifyMotion_sound; auto using in_range_ok|by apply register_sound|by apply unregister_sound
    |by apply dispatchMode_sound|by apply filterEnabled_sound|by apply focusedApplication_sound|by apply setInputWindows_sound
    |by apply transfer_sound].
Qed.

Lemma new_inv (k : K) handles applications channels : inv [] (InputDispatcher_new k handles applications channels).
Proof. split; split; try done. by constructor. Qed.

Lemma reachable_inv d : reachable d -> inv [] d.
Proof.
  induction 1 as [k h a n|d c d' _ IH Ha E]; [apply new_inv|]. pose proof (perform_sound c d IH Ha) as Hs'.
  unfold sound, returns in Hs'. by rewrite E in Hs'.
Qed.

(** A sequence of calls, up to the first that does not return. *)
Fixpoint perform_all (l : list DispatcherCall) d : outcome (Dispatcher K) unit :=
  match l with [] => Ret tt d | c :: l' => match perform c d with Ret _ d' => perform_all l' d' | o => o end end.

Lemma perform_all_reachable l d d' :
  (forall d, Forall (admissible d) l) -> reachable d -> perform_all l d = Ret tt d' -> reachable d'.
Proof.
  revert d. induction l as [|c l IH]; intros d Hl Hd E; cbn in E; [by injection E as <-|].
  destruct (perform c d) as [[] d1| | |] eqn:E1; try done. apply (IH d1); [|by econstructor; [|apply (Forall_inv (Hl d))|]|done].
  intros d2. by apply (Forall_inv_tail (Hl d2)).
Qed.

(** C3: the dispatcher never goes wrong on input that is in range.  Its calls are made one after the other (they hold its lock;
    calls that come while it has released the lock to ask the policy are not considered), in any order, with any arguments but for one condition: a motion that [validateMotionEvent] lets through is [in_range],
    that is, the pointer index in its action, whatever the action, is that of one of its pointers, and the coordinates of its
    pointers convert to [int32_t]; [validateMotionEvent] tests neither, and a motion with another index does go wrong
    ([index_out_of_range]).  The policy has no fallback keys, as the server's.  Then every further such call returns: no entry is
    used after it was deleted, no window without its information, no connection that is not there, and no loop runs on (that of the
    callback is bounded by the number of signals that wait); the destructor too, and then no channel is registered.  At any such time
    the entries on the heap are those that the queues, the pending event, the key repeat and the commands refer to, and each is
    counted as often as they do, so that nothing is deleted early and nothing is lost. *)
Theorem dispatcher_never_goes_wrong d :
  reachable d ->
  (forall c, admissible d c -> exists d', perform c d = Ret tt d') /\
  (exists d', InputDispatcher_delete d = Ret tt d' /\ mConnectionsByFd d' = []) /\
  (forall a, match d_heap d !! a with
             | Some e => refCount e = Z.of_nat (occ a (refs d)) /\ a ∈ refs d
             | None => a ∉ refs d
             end).
Proof.
  intros I%reachable_inv. split; [|split].
  - intros c Ha. destruct (returns_some _ _ _ (perform_sound c d I Ha)) as ([] & d' & E & _). eauto.
  - destruct (returns_some _ _ _ (delete_sound d I)) as ([] & d' & E & _ & Hb). eauto.
  - intros a. pose proof (ok_counted _ _ (proj1 I) a) as Hc. cbn [app] in Hc.
    destruct (d_heap d !! a); rewrite occ_in; [done|lia].
Qed.

End Interface.

(** ** The server's policy *)

(** [EventFilterDispatcherPolicy], a [DummyInputDispatcherPolicy] that asks the event
    filter, here what it answers for an event of the dispatcher. *)
Definition EventFilterDispatcherPolicy {K} (handles : InputEvent -> K -> bool * K) : InputDispatcherPolicy K := {|
  isKeyRepeatEnabled := true;
  notifyANR := fun _ _ => 0;
  interceptKeyBeforeQueueing_policy := fun _ policy_flags => interceptKeyBeforeQueueing policy_flags;
  interceptMotionBeforeQueueing_policy := fun _ _ => POLICY_FLAG_PASS_TO_USER;
  interceptKeyBeforeDispatching := fun _ _ _ => 0;
  dispatchUnhandledKey := fun _ _ _ => None;
  filterInputEvent_policy := fun event _ k => let '(handled, k') := handles event k in (negb handled, k');
|}.

#[export] Instance server_no_fallback {K} handles : NoFallbackKeys K (P := EventFilterDispatcherPolicy handles).
Proof. done. Qed.

(** ** A small world *)

#[local] Instance demo_world : InputWorld demo_sockets := {|
  world_socket := demo_socket;
  now := fun k => (1000, k);
  looper_addFd := fun _ k => k; looper_removeFd := fun _ k => k; looper_wake := fun k => k;
|}.

#[local] Instance demo_policy : InputDispatcherPolicy demo_sockets := EventFilterDispatcherPolicy (fun _ k => (false, k)).

(** Each window handle is of a surface of its own size, with a socket. *)
#[local] Instance demo_handles : InputHandles := {|
  window_updateInfo := fun w fresh info => Some (updateInfo (mkTarget "editor" (mkSize (wrap 640) (wrap 480)) (20 + Z.of_nat w)) fresh info);
  application_updateInfo := fun _ => None;
|}.

Definition demo_new : Dispatcher demo_sockets :=
  InputDispatcher_new (mkSockets ∅ ∅) {[ 0%nat := mkWindowHandle None None ]} ∅ 0.

Definition demo_calls : list DispatcherCall :=
  [call_setInputDispatchMode true false; call_registerInputChannel (mkChannel 0 20) (Some 0%nat) false; call_setInputWindows [0%nat];
   call_notifyKey 900 1 257 0 AKEY_EVENT_ACTION_DOWN 0 30 30 0 900; call_dispatchOnce; call_dispatchOnce].

(** A key pressed with the focus on a window: it is sent to its channel, and the
    dispatcher can be destroyed. *)
Lemma dispatcher_never_goes_wrong_witness :
  exists d, perform_all demo_calls demo_new = Ret tt d /\ length (outgoing 20 (d_world d)) = 1%nat /\
    map (fun c => map de_seq (waitQueue c)) (d_connections d) = [[1]] /\ refs d = [0%nat; 0%nat] /\
    exists d', InputDispatcher_delete d = Ret tt d' /\ mConnectionsByFd d' = [].
Proof.
  assert (exists d, perform_all demo_calls demo_new = Ret tt d /\ length (outgoing 20 (d_world d)) = 1%nat /\
    map (fun c => map de_seq (waitQueue c)) (d_connections d) = [[1]] /\ refs d = [0%nat; 0%nat]) as (d & E & H1 & H2 & H3)
    by (eexists; vm_compute; by repeat split).
  exists d. split; [exact E|]. split; [exact H1|]. split; [exact H2|]. split; [exact H3|].
  apply (dispatcher_never_goes_wrong d). eapply perform_all_reachable; [|apply (reachable_new (mkSockets ∅ ∅))|exact E].
  intros d0. by repeat constructor.
Defined.

(** A touch whose action has the index of a pointer that it does not have. *)
Definition demo_touch (action : Z) : MotionEntry :=
  mkMotionEntry 1 4098 action 0 0 0 0 zero zero 900 [(mkProperties 0 1, demo_coords)].

(** The touch is let through, and finding its window reads beyond its pointers;
    the dispatcher returns from the same touch with the index of its pointer. *)
Example index_out_of_range :
  let touch action := [call_setInputDispatchMode true false; call_registerInputChannel (mkChannel 0 20) (Some 0%nat) false;
    call_setInputWindows [0%nat]; call_notifyMotion 900 0 (demo_touch action); call_dispatchOnce; call_dispatchOnce] in
  validateMotionEvent (Z.lor AMOTION_EVENT_ACTION_DOWN 256) (map fst (me_pointers (demo_touch 0))) = true /\
  perform_all (touch (Z.lor AMOTION_EVENT_ACTION_DOWN 256)) demo_new = Undef /\
  exists d, perform_all (touch AMOTION_EVENT_ACTION_DOWN) demo_new = Ret tt d.
Proof. split; [by vm_compute|]. split; [by vm_compute|]. eexists. by vm_compute. Qed.
