(* ===== verification/DispatchRouting.v ===== *)
(** * The input dispatcher: where events go

    Two properties of the events on their way: a key is queued for the focused
    window and the monitors only, and a connection's events are published in the
    order in which they were queued, each once. *)

From Stdlib Require Import SpecFloat.
From S2P Require Import Prelude Geometry Input AndroidEvents InputTransport InputState Dispatcher DispatchTargets DispatchLoop.
From S2P Require Import DispatchMemory DispatchSafe DispatchInvariant DispatchInterface.

Create HintDb spared.

Section Spared.
Context {K : Type} `{W : InputWorld K} `{P : InputDispatcherPolicy K} `{Hs : InputHandles}.
Implicit Types d : Dispatcher K.

(** Which channels are spared. *)
Variable R : InputChannel -> Prop.

(** A connection whose channel is spared is as it was. *)
Record kept d d' : Prop := {
  kp_conns : map conn_id (d_connections d') = map conn_id (d_connections d);
  kp_focus : d_focus d' = d_focus d;
  kp_same : forall c conn, d_connections d !! c = Some conn -> R (cn_channel conn) -> d_connections d' !! c = Some conn;
}.

Lemma kept_refl d : kept d d.
Proof. by split. Qed.

Lemma kept_trans d1 d2 d3 : kept d1 d2 -> kept d2 d3 -> kept d1 d3.
Proof. intros [] []. split; [congruence..|auto]. Qed.

Lemma kept_quiet d d' : d_connections d' = d_connections d -> d_focus d' = d_focus d -> kept d d'.
Proof. intros E F. split; [by rewrite E|done|by rewrite E]. Qed.

(** The connection [c] may change. *)
Definition free (c : nat) d : Prop := forall conn, d_connections d !! c = Some conn -> ~ R (cn_channel conn).

Lemma free_kept c d d' : kept d d' -> free c d -> free c d'.
Proof.
  intros [E _ _] Hc conn' Hl. assert ((conn_id <$> d_connections d) !! c = Some (conn_id conn')) as Hi.
  { change (map conn_id (d_connections d) !! c = Some (conn_id conn')). rewrite <- E.
    change ((conn_id <$> d_connections d') !! c = Some (conn_id conn')). by rewrite list_lookup_fmap, Hl. }
  rewrite list_lookup_fmap in Hi. apply fmap_Some in Hi as (conn & Hconn & Hid). injection Hid as -> _ _. by apply Hc.
Qed.

(** Code that changes at most the connection [c]. *)
Definition spares {A} (c : nat) (m : M (Dispatcher K) A) : Prop :=
  forall d, free c d -> match m d with Ret _ d' => kept d d' | _ => True end.

(** Code that changes none. *)
Definition quiet {A} (m : M (Dispatcher K) A) : Prop :=
  forall d, match m d with Ret _ d' => kept d d' | _ => True end.

Lemma spares_quiet {A} c (m : M (Dispatcher K) A) : quiet m -> spares c m.
Proof. intros Hm d _. apply Hm. Qed.

Lemma spares_bind {A B} c (m : M (Dispatcher K) A) (k : A -> M (Dispatcher K) B) :
  spares c m -> (forall a, spares c (k a)) -> spares c (m ≫= k).
Proof.
  intros Hm Hk d Hc. unfold mbind, M_bind. specialize (Hm d Hc). destruct (m d) as [a d1| | |]; try done.
  specialize (Hk a d1 (free_kept _ _ _ Hm Hc)). destruct (k a d1); try done. by eapply kept_trans.
Qed.

Lemma quiet_bind {A B} (m : M (Dispatcher K) A) (k : A -> M (Dispatcher K) B) :
  quiet m -> (forall a, quiet (k a)) -> quiet (m ≫= k).
Proof.
  intros Hm Hk d. unfold mbind, M_bind. specialize (Hm d). destruct (m d) as [a d1| | |]; try done.
  specialize (Hk a d1). destruct (k a d1); try done. by eapply kept_trans.
Qed.

Lemma quiet_ret {A} (a : A) : quiet (mret a).
Proof. intros d. apply kept_refl. Qed.

Lemma quiet_gets {A} (f : Dispatcher K -> A) : quiet (gets f).
Proof. intros d. apply kept_refl. Qed.

Lemma quiet_deref {A} (f : Dispatcher K -> option A) : quiet (deref f).
Proof. intros d. unfold deref. destruct (f d); [apply kept_refl|done]. Qed.

Lemma quiet_undefined {A} : quiet (undefined (S := Dispatcher K) (A := A)).
Proof. done. Qed.

Lemma quiet_wait {A} : quiet (wait (S := Dispatcher K) (A := A)).
Proof. done. Qed.

Lemma quiet_modify (f : Dispatcher K -> Dispatcher K) :
  (forall d, d_connections (f d) = d_connections d /\ d_focus (f d) = d_focus d) -> quiet (modify f).
Proof. intros Hf d. cbn. destruct (Hf d). by apply kept_quiet. Qed.

Lemma quiet_zoom {A} (m : M K A) : quiet (zoom world_lens m).
Proof. intros d. unfold zoom. destruct (m _); by split. Qed.

Lemma quiet_clock : quiet clock.
Proof. intros d. unfold clock. destruct (now _). by apply kept_quiet. Qed.

Lemma quiet_new e : quiet (new_entry e).
Proof. intros d. by apply kept_quiet. Qed.

Lemma quiet_nextSeq : quiet nextSeq.
Proof. intros d. by apply kept_quiet. Qed.

Lemma quiet_getConnection ch : quiet (getConnectionIndexLocked ch).
Proof. intros d. unfold getConnectionIndexLocked. repeat case_match; try done; simplify_eq; apply kept_refl. Qed.

Lemma spares_for_each {A} c (l : list A) (f : A -> M (Dispatcher K) unit) :
  (forall x, spares c (f x)) -> spares c (for_each l f).
Proof.
  intros Hf. induction l as [|x l IH]; [intros d _; apply kept_refl|]. cbn [for_each]. apply spares_bind; auto.
Qed.

Lemma spares_update c f : (forall conn, conn_id (f conn) = conn_id conn) -> spares c (update_connection c f).
Proof.
  intros Hf d Hc. unfold update_connection, connection, mbind, M_bind, deref, modify.
  destruct (d_connections d !! c) as [conn|] eqn:E; [|done]. split; [|done|]; cbn.
  - change (conn_id <$> <[ c := f conn ]> (d_connections d) = conn_id <$> d_connections d).
    rewrite list_fmap_insert, Hf. apply list_insert_id. by rewrite list_lookup_fmap, E.
  - intros c' conn' Hl Hr. destruct (decide (c = c')) as [<-|Hne]; [|by rewrite list_lookup_insert_ne].
    by destruct (Hc conn' Hl).
Qed.

End Spared.

(** A function is opened step by step. *)
Ltac spare1 :=
  first [ apply quiet_ret | apply quiet_gets | apply quiet_deref | apply quiet_undefined | apply quiet_wait | apply quiet_zoom
        | apply quiet_clock | apply quiet_new | apply quiet_nextSeq | apply quiet_getConnection
        | apply quiet_modify; intros ?; repeat case_match; done
        | solve [auto with spared]
        | apply spares_update; intros ?; done
        | apply quiet_bind; [|intros ?] | apply spares_bind; [|intros ?] | apply spares_for_each; intros ?
        | progress (cbv zeta beta) | case_match ].
Ltac spare := repeat (spare1 || (apply spares_quiet; spare1)).

Section Routing.
Context {K : Type} `{W : InputWorld K} `{P : InputDispatcherPolicy K} `{Hs : InputHandles}.
Implicit Types d : Dispatcher K.
Variable R : InputChannel -> Prop.

Lemma quiet_entry a : quiet (K := K) R (entry a).
Proof. apply quiet_deref. Qed.
Lemma quiet_connection c : quiet (K := K) R (connection c).
Proof. apply quiet_deref. Qed.
#[local] Hint Resolve quiet_entry quiet_connection : spared.

Lemma quiet_update_entry a f : quiet (K := K) R (update_entry a f).
Proof. unfold update_entry. spare. Qed.
Lemma quiet_acquire a : quiet (K := K) R (acquire a).
Proof. unfold acquire. spare. Qed.
Lemma quiet_release a : quiet (K := K) R (release a).
Proof. unfold release. spare. Qed.
Lemma quiet_post cmd : quiet (K := K) R (postCommandLocked cmd).
Proof. unfold postCommandLocked. spare. Qed.
#[local] Hint Resolve quiet_update_entry quiet_acquire quiet_release quiet_post : spared.

Lemma enqueueEntry_spares c a target mode : spares (K := K) R c (enqueueDispatchEntryLocked c a target mode).
Proof. unfold enqueueDispatchEntryLocked. spare. Qed.

Lemma drain_outbound_spares n c : spares (K := K) R c (drain_outbound n c).
Proof. induction n; cbn [drain_outbound]; unfold releaseDispatchEntryLocked; spare. Qed.

Lemma drain_wait_spares n c : spares (K := K) R c (drain_wait n c).
Proof. induction n; cbn [drain_wait]; unfold releaseDispatchEntryLocked; spare. Qed.
#[local] Hint Resolve enqueueEntry_spares drain_outbound_spares drain_wait_spares : spared.

Lemma abort_spares c notify : spares (K := K) R c (abortBrokenDispatchCycleLocked c notify).
Proof. unfold abortBrokenDispatchCycleLocked, onDispatchCycleBrokenLocked. spare. Qed.
#[local] Hint Resolve abort_spares : spared.

Lemma start_cycle_spares n t c : spares (K := K) R c (start_cycle n t c).
Proof. induction n; cbn [start_cycle]; spare. Qed.
#[local] Hint Resolve start_cycle_spares : spared.

Lemma enqueueEntries_spares t c a target : spares (K := K) R c (enqueueDispatchEntriesLocked t c a target).
Proof. unfold enqueueDispatchEntriesLocked, startDispatchCycleLocked. spare. Qed.
#[local] Hint Resolve enqueueEntries_spares : spared.

Lemma prepare_spares t c a target : spares (K := K) R c (prepareDispatchCycleLocked t c a target).
Proof. unfold prepareDispatchCycleLocked, splitMotionEvent. spare. Qed.

(** A channel that is not spared, nor another object that is the same. *)
Definition open_channel (ch : InputChannel) : Prop := forall ch', channel_object ch' = channel_object ch -> ~ R ch'.

Lemma target_quiet t a target :
  open_channel (it_channel target) ->
  quiet (K := K) R (index ← getConnectionIndexLocked (it_channel target) ;
    match index with Some c => prepareDispatchCycleLocked t c a target | None => mret tt end).
Proof.
  intros Ho d. unfold mbind, M_bind, getConnectionIndexLocked.
  destruct (OrdMap.find _ _) as [c|]; [|apply kept_refl]. destruct (d_connections d !! c) as [conn|] eqn:E; [|done].
  destruct (Nat.eqb_spec (channel_object (cn_channel conn)) (channel_object (it_channel target))) as [Eo|]; [|apply kept_refl].
  apply (prepare_spares t c a target d). intros conn' E'. replace conn' with conn by congruence. by apply Ho.
Qed.

Lemma dispatchEvent_quiet t a targets :
  Forall (fun target => open_channel (it_channel target)) targets -> quiet (K := K) R (dispatchEventLocked t a targets).
Proof.
  intros Ht. apply quiet_bind; [apply quiet_entry|]. intros e. case_match; [apply quiet_undefined|].
  induction Ht as [|target targets Ho _ IH]; cbn [for_each]; [apply quiet_ret|].
  apply quiet_bind; [by apply target_quiet|]. intros []. exact IH.
Qed.

Lemma notReady_quiet t app window nw : quiet (K := K) R (handleTargetsNotReadyLocked t app window nw).
Proof. unfold handleTargetsNotReadyLocked. spare. Qed.

Lemma ready_quiet t w b : quiet (K := K) R (isWindowReadyForMoreInputLocked t w b).
Proof. unfold isWindowReadyForMoreInputLocked. spare. Qed.

Lemma resetKeyRepeat_quiet : quiet (K := K) R resetKeyRepeatLocked.
Proof. unfold resetKeyRepeatLocked. spare. Qed.

End Routing.

#[export] Hint Resolve quiet_entry quiet_connection quiet_update_entry quiet_acquire quiet_release quiet_post notReady_quiet
  ready_quiet resetKeyRepeat_quiet : spared.

(** ** Keys go to the focused window *)

(** The channel objects of the focused window and of the monitors. *)
Definition key_recipients (f : Focus) : list nat :=
  map (fun i => channel_object (wi_channel i))
    (option_list (w ← mFocusedWindowHandle f ; h ← fo_handles f !! w ; wh_info h)) ++
  map channel_object (mMonitoringChannels f).

Definition uninvolved (f : Focus) (ch : InputChannel) : Prop := channel_object ch ∉ key_recipients f.

Section Keys.
Context {K : Type} `{W : InputWorld K} `{P : InputDispatcherPolicy K} `{Hs : InputHandles}.
Implicit Types d : Dispatcher K.

Lemma recipient_open f ch : channel_object ch ∈ key_recipients f -> open_channel (uninvolved f) ch.
Proof. intros Hin ch' E Hu. apply Hu. by rewrite E. Qed.

Lemma findFocused_targets t b nw d :
  match findFocusedWindowTargetsLocked t b nw d with
  | Ret r d' => kept (uninvolved (d_focus d)) d d' /\
      Forall (fun target => open_channel (uninvolved (d_focus d)) (it_channel target)) (snd (fst r))
  | _ => True
  end.
Proof.
  unfold findFocusedWindowTargetsLocked, gets, mbind, M_bind. set (f := d_focus d).
  destruct (mFocusedWindowHandle f) as [w|] eqn:Ew.
  - destruct (getInfo w d) as [i d1| | |] eqn:Ei; try done. unfold getInfo, deref in Ei.
    destruct (fo_handles (d_focus d) !! w ≫= wh_info) as [i'|] eqn:Eh; simplify_eq.
    assert (quiet (K := K) (uninvolved f) (if paused i then mret false else isWindowReadyForMoreInputLocked t w b)) as Hq by spare.
    specialize (Hq d1). destruct ((if paused i then mret false else isWindowReadyForMoreInputLocked t w b) d1) as [[] d2| | |]; try done.
    + assert (getInfo w d2 = Ret i d2) as Ei2 by (unfold getInfo, deref; by rewrite (kp_focus _ _ _ Hq), Eh).
      unfold addWindowTargetLocked, mbind, M_bind. rewrite Ei2. split; [done|].
      constructor; [|done]. apply recipient_open. unfold key_recipients. fold f. rewrite Ew. cbn. fold f in Eh.
      destruct (fo_handles f !! w); cbn in *; [|done]. rewrite Eh. cbn. left.
    + pose proof (notReady_quiet (uninvolved f) t (mFocusedApplicationHandle f) (Some w) nw d2) as Hn.
      destruct (handleTargetsNotReadyLocked _ _ _ _ d2) as [r d3| | |]; try done. cbn. split; [by eapply kept_trans|done].
  - destruct (mFocusedApplicationHandle f) as [app|]; [|by split; [apply kept_refl|]].
    pose proof (notReady_quiet (uninvolved f) t (Some app) None nw d) as Hn.
    destruct (handleTargetsNotReadyLocked _ _ _ _ d) as [r d3| | |]; try done.
Qed.

Lemma monitors_open f :
  Forall (fun target => open_channel (uninvolved f) (it_channel target))
    (map (fun c => mkInputTarget c FLAG_DISPATCH_AS_IS zero zero one 0) (mMonitoringChannels f)).
Proof.
  apply Forall_map, Forall_forall. intros c Hc. apply recipient_open. cbn. unfold key_recipients. apply elem_of_app. right.
  apply list_elem_of_fmap. eauto.
Qed.

(** Code that, with the focus [f], leaves the uninvolved connections alone. *)
Definition routed {A} (f : Focus) (m : M (Dispatcher K) A) : Prop :=
  forall d, d_focus d = f -> match m d with Ret _ d' => kept (uninvolved f) d d' | _ => True end.

Lemma routed_quiet {A} f (m : M (Dispatcher K) A) : quiet (uninvolved f) m -> routed f m.
Proof. intros Hm d _. apply Hm. Qed.

Lemma routed_bind {A B} f (m : M (Dispatcher K) A) (k : A -> M (Dispatcher K) B) :
  routed f m -> (forall a, routed f (k a)) -> routed f (m ≫= k).
Proof.
  intros Hm Hk d Hf. unfold mbind, M_bind. specialize (Hm d Hf). destruct (m d) as [a d1| | |]; try done.
  specialize (Hk a d1 ltac:(by rewrite (kp_focus _ _ _ Hm))). destruct (k a d1); try done. by eapply kept_trans.
Qed.

Lemma key_targets_routed f t a reason nw : routed f (dispatch_key_targets t a reason nw).
Proof.
  unfold dispatch_key_targets. case_match; [apply routed_quiet; spare|]. intros d <-. unfold mbind at 1, M_bind at 1.
  pose proof (findFocused_targets t true nw d) as Hf.
  destruct (findFocusedWindowTargetsLocked t true nw d) as [[[res targets] nw'] d1| | |]; try done. destruct Hf as [K1 Ht]. cbn in Ht.
  destruct res; try done. unfold mbind, M_bind, addMonitoringTargetsLocked, gets.
  pose proof (dispatchEvent_quiet (uninvolved (d_focus d)) t a
    (targets ++ map (fun c => mkInputTarget c FLAG_DISPATCH_AS_IS zero zero one 0) (mMonitoringChannels (d_focus d1)))) as Hq.
  rewrite (kp_focus _ _ _ K1) in *.
  specialize (Hq ltac:(apply Forall_app; split; [done|apply monitors_open]) d1).
  destruct (dispatchEventLocked _ _ _ d1) as [[] d2| | |]; try done. by eapply kept_trans.
Qed.

Lemma key_first_quiet R a : quiet (K := K) R (dispatch_key_first a).
Proof. unfold dispatch_key_first, key_of. spare. Qed.
#[local] Hint Resolve key_first_quiet : spared.

Lemma key_routed f t a reason nw : routed f (dispatchKeyLocked t a reason nw).
Proof.
  unfold dispatchKeyLocked, key_of.
  repeat first [apply key_targets_routed | apply routed_quiet; solve [spare] | apply routed_bind; [|intros ?] | case_match
               | progress (cbv zeta beta)].
Qed.

(** C14: a key goes to the focused window and to the monitors only.  Whatever the state of the dispatcher, when it dispatches a key
    the connections of all other channels stay exactly as they were: nothing is queued for them, published to them or recorded in
    their input state. *)
Theorem keys_go_to_focus t a dropReason nextWakeupTime d r d' c conn :
  dispatchKeyLocked t a dropReason nextWakeupTime d = Ret r d' ->
  d_connections d !! c = Some conn -> channel_object (cn_channel conn) ∉ key_recipients (d_focus d) ->
  d_connections d' !! c = Some conn.
Proof.
  intros E Hc Hu. apply (kp_same (uninvolved (d_focus d)) d d'); [|done|done].
  pose proof (key_routed (d_focus d) t a dropReason nextWakeupTime d eq_refl) as Hk. by rewrite E in Hk.
Qed.

End Keys.

(** ** Events are published in order *)

(** What the channel carries for a dispatch entry. *)
Definition message_of (de : DispatchEntry) (e : EventEntry) : option InputMessage :=
  match entry_type e with
  | KEY k =>
      Some (TYPE_KEY (mkKeyMessage (de_seq de) (eventTime e) (ke_deviceId k) (ke_source k) (de_resolvedAction de)
              (de_resolvedFlags de) (ke_keyCode k) (ke_scanCode k) (ke_metaState k) (ke_repeatCount k) (ke_downTime k)))
  | MOTION m =>
      let '(xOffset, yOffset, pointers) := outgoing_coords de m in
      Some (TYPE_MOTION (mkMotionMessage (de_seq de) (eventTime e) (me_deviceId m) (me_source m) (de_resolvedAction de)
              (de_resolvedFlags de) (me_metaState m) (me_buttonState m) (me_edgeFlags m) (me_downTime m) xOffset yOffset
              (me_xPrecision m) (me_yPrecision m) pointers))
  | _ => None
  end.

Section Order.
Context {K : Type} `{W : InputWorld K} `{!InputSocketLaws K}.
Implicit Types d : Dispatcher K.

Lemma publish_sends fd de e (k : K) :
  is_input e ->
  exists st k', publish fd de e k = Ret st k' /\
    outgoing fd k' = outgoing fd k ++ (if st =? OK then option_list (message_of de e) else []).
Proof.
  intros Hi. unfold publish, message_of, is_input in *. destruct (entry_type e) as [| |key|m]; try done.
  - unfold publishKeyEvent. case_match; [eexists _, _; split; [reflexivity|by rewrite app_nil_r]|]. apply sendMessage_spec.
  - destruct (outgoing_coords de m) as [[x y] ps]. unfold publishMotionEvent.
    case_match; [eexists _, _; split; [reflexivity|by rewrite app_nil_r]|].
    case_match; [eexists _, _; split; [reflexivity|by rewrite app_nil_r]|]. apply sendMessage_spec.
Qed.

(** Code that leaves the world alone. *)
Definition inward {A} (m : M (Dispatcher K) A) : Prop :=
  forall d, match m d with Ret _ d' => d_world d' = d_world d | _ => True end.

Lemma inward_bind {A B} (m : M (Dispatcher K) A) (k : A -> M (Dispatcher K) B) :
  inward m -> (forall a, inward (k a)) -> inward (m ≫= k).
Proof.
  intros Hm Hk d. unfold mbind, M_bind. specialize (Hm d). destruct (m d) as [a d1| | |]; try done.
  specialize (Hk a d1). destruct (k a d1); try done. congruence.
Qed.

Lemma inward_ret {A} (a : A) : inward (mret a).
Proof. done. Qed.
Lemma inward_deref {A} (f : Dispatcher K -> option A) : inward (deref f).
Proof. intros d. unfold deref. by destruct (f d). Qed.
Lemma inward_modify (f : Dispatcher K -> Dispatcher K) : (forall d, d_world (f d) = d_world d) -> inward (modify f).
Proof. intros Hf d. apply Hf. Qed.
Lemma inward_undefined {A} : inward (undefined (A := A)).
Proof. done. Qed.
Lemma inward_wait {A} : inward (wait (A := A)).
Proof. done. Qed.

Ltac inward :=
  repeat first [ apply inward_ret | apply inward_deref | apply inward_undefined | apply inward_wait | apply inward_modify; done
               | assumption | apply inward_bind; [|intros ?] | case_match | progress (cbv zeta beta) ].

Lemma inward_release a : inward (release a).
Proof. unfold release, entry. inward. Qed.

Lemma inward_update c f : inward (update_connection c f).
Proof. unfold update_connection, connection. inward. Qed.

Lemma inward_drain n c : inward (drain_outbound n c) /\ inward (drain_wait n c).
Proof.
  pose proof inward_release. pose proof inward_update.
  induction n as [|n [IH1 IH2]]; split; cbn [drain_outbound drain_wait]; unfold connection, releaseDispatchEntryLocked; inward; auto.
Qed.

Lemma inward_abort c notify : inward (abortBrokenDispatchCycleLocked c notify).
Proof.
  pose proof inward_update. pose proof (fun n c => proj1 (inward_drain n c)). pose proof (fun n c => proj2 (inward_drain n c)).
  unfold abortBrokenDispatchCycleLocked, connection, onDispatchCycleBrokenLocked, postCommandLocked. inward; auto.
Qed.

(** A broken connection has no entries left, and nothing was sent. *)
Lemma abort_empties held d c conn notify :
  ok held d -> d_connections d !! c = Some conn ->
  returns (abortBrokenDispatchCycleLocked c notify)
    (fun _ d' => d_world d' = d_world d /\ d_connections d' !! c = Some (aborted conn)) d.
Proof.
  intros Hok Hc. pose proof (abort_spec held d c conn notify Hok Hc) as Hs. pose proof (inward_abort c notify d) as Hi.
  unfold returns in *. destruct (abortBrokenDispatchCycleLocked c notify d); try done. by destruct Hs as (_ & _ & ?).
Qed.

(** The entries are published one after the other, each successfully, and make these messages. *)
Inductive published (h : gmap nat EventEntry) (fd t : Z) : list DispatchEntry -> list InputMessage -> K -> K -> Prop :=
| published_nil k : published h fd t [] [] k k
| published_cons de e msg sent msgs k k1 k2 :
    h !! de_event de = Some e -> message_of de e = Some msg -> publish fd (delivered_at t de) e k = Ret OK k1 ->
    published h fd t sent msgs k1 k2 -> published h fd t (de :: sent) (msg :: msgs) k k2.

(** What a dispatch cycle makes of a connection.  The entries [sent] are published and move, in their order, to the end
    of the wait queue.  If there are others, the first of them could not be published: with a full channel and entries
    that wait for the client the connection is blocked and they stay; otherwise it is broken and has none. *)
Definition cycled (t : Z) (conn : Connection) d (sent rest : list DispatchEntry) (msgs : list InputMessage) (conn' : Connection) d' : Prop :=
  let fd := channel_fd (cn_channel conn) in
  let waiting := waitQueue conn ++ map (delivered_at t) sent in
  outboundQueue conn = sent ++ rest /\ outgoing fd (d_world d') = outgoing fd (d_world d) ++ msgs /\
  exists k, published (d_heap d) fd t sent msgs (d_world d) k /\
  match rest with
  | [] => d_world d' = k /\ cn_status conn' = STATUS_NORMAL /\ waitQueue conn' = waiting /\ outboundQueue conn' = []
  | de :: q => exists e status, d_heap d !! de_event de = Some e /\ publish fd (delivered_at t de) e k = Ret status (d_world d') /\ status <> OK /\
      (if decide (status = WOULD_BLOCK /\ waiting <> [])
       then cn_status conn' = STATUS_NORMAL /\ cn_blocked conn' = true /\ waitQueue conn' = waiting /\ outboundQueue conn' = delivered_at t de :: q
       else cn_status conn' = STATUS_BROKEN /\ waitQueue conn' = [] /\ outboundQueue conn' = [])
  end.

Definition cycle_post (t : Z) (c : nat) (conn : Connection) d (_ : unit) (d' : Dispatcher K) : Prop :=
  exists sent rest msgs conn', d_connections d' !! c = Some conn' /\ cycled t conn d sent rest msgs conn' d'.

Lemma cycle_empty t c conn d :
  outboundQueue conn = [] -> cn_status conn = STATUS_NORMAL -> d_connections d !! c = Some conn -> cycle_post t c conn d tt d.
Proof.
  intros Eo Hn Hc. exists [], [], [], conn. split; [done|]. split; [done|]. split; [by rewrite app_nil_r|]. exists (d_world d).
  split; [constructor|]. by rewrite app_nil_r.
Qed.

(** The first entry is sent, and the cycle goes on. *)
Lemma cycle_goes_on t c conn de q e msg conn1 d d1 d' :
  outboundQueue conn = de :: q -> conn1 = with_queues q (waitQueue conn ++ [delivered_at t de]) conn ->
  d_heap d !! de_event de = Some e -> message_of de e = Some msg -> d_heap d1 = d_heap d ->
  publish (channel_fd (cn_channel conn)) (delivered_at t de) e (d_world d) = Ret OK (d_world d1) ->
  outgoing (channel_fd (cn_channel conn)) (d_world d1) = outgoing (channel_fd (cn_channel conn)) (d_world d) ++ [msg] ->
  cycle_post t c conn1 d1 tt d' -> cycle_post t c conn d tt d'.
Proof.
  intros Eo -> He Hm Hh Hpub Hout (sent & rest & msgs & conn' & Hc & Eq & Hout' & k & Hk & Hrest).
  cbn [outboundQueue waitQueue with_queues cn_channel] in *. rewrite Hh in Hk, Hrest.
  exists (de :: sent), rest, (msg :: msgs), conn'. split; [done|]. split; [by rewrite Eo, Eq|]. split; [by rewrite Hout', Hout, <- app_assoc|].
  exists k. split; [by econstructor|]. cbn [map]. rewrite <- app_assoc in Hrest. exact Hrest.
Qed.

(** The first entry is not sent. *)
Lemma cycle_stops t c conn de q e status conn' d d' :
  outboundQueue conn = de :: q -> d_connections d' !! c = Some conn' -> d_heap d !! de_event de = Some e ->
  publish (channel_fd (cn_channel conn)) (delivered_at t de) e (d_world d) = Ret status (d_world d') -> status <> OK ->
  outgoing (channel_fd (cn_channel conn)) (d_world d') = outgoing (channel_fd (cn_channel conn)) (d_world d) ->
  (if decide (status = WOULD_BLOCK /\ waitQueue conn <> [])
   then cn_status conn' = STATUS_NORMAL /\ cn_blocked conn' = true /\ waitQueue conn' = waitQueue conn /\ outboundQueue conn' = delivered_at t de :: q
   else cn_status conn' = STATUS_BROKEN /\ waitQueue conn' = [] /\ outboundQueue conn' = []) ->
  cycle_post t c conn d tt d'.
Proof.
  intros Eo Hc He Hpub Hst Hout H. exists [], (de :: q), [], conn'. split; [done|]. split; [done|]. split; [by rewrite app_nil_r|].
  exists (d_world d). split; [constructor|]. exists e, status. cbn [map]. by rewrite app_nil_r.
Qed.

(** The head of the outbound queue moves to the end of the wait queue. *)
Lemma move_to_wait held d c conn de q Q :
  ok held d -> d_connections d !! c = Some conn -> outboundQueue conn = de :: q ->
  (forall d', d' = set_connections (<[ c := with_queues q (waitQueue conn ++ [de]) conn ]> (d_connections d)) d -> ok held d' -> Q tt d') ->
  returns (update_connection c (with_queues q (waitQueue conn ++ [de]))) Q d.
Proof.
  intros Hok Hc Eo HQ. eapply (returns_update_connection held held); [done|by eapply lookup_lt_Some| |].
  - intros conn' Hc'. rewrite Hc in Hc'. injection Hc' as <-. pose proof (queued_input _ _ _ _ Hok Hc) as Hq.
    rewrite !conn_refs_app in *. rewrite Eo in *. cbn [outboundQueue waitQueue with_queues map] in *. rewrite map_app.
    split; [|split; [|done]].
    + intros a. rewrite !occ_app. cbn [map occ]. lia.
    + inversion Hq as [|? ? H1 H2]; subst. apply Forall_app in H2 as [H2 H3]. rewrite !Forall_app. repeat split; try done. by constructor.
  - intros conn' d' Hc' Ed' Hok' _. rewrite Hc in Hc'. injection Hc' as <-. by apply HQ.
Qed.

Lemma start_cycle_order n held t c d conn :
  ok held d -> d_connections d !! c = Some conn -> cn_status conn = STATUS_NORMAL -> (length (outboundQueue conn) <= n)%nat ->
  returns (start_cycle n t c) (cycle_post t c conn d) d.
Proof.
  revert d conn. induction n as [|n IH]; intros d conn Hok Hconn Hst Hn; cbn [start_cycle]; apply returns_bind;
    (eapply returns_deref; [exact Hconn|]); rewrite Hst; destruct (outboundQueue conn) as [|de q] eqn:Eo;
    try (by apply cycle_empty).
  { cbn in Hn. lia. }
  pose proof (lookup_lt_Some _ _ _ Hconn) as Hlt. pose proof (queued_input _ _ _ _ Hok Hconn) as Hq.
  apply returns_bind. eapply (returns_update_connection held held); [done..| |].
  { intros conn' Hconn'. rewrite Hconn in Hconn'. injection Hconn' as <-. rewrite conn_refs_app, Eo in Hq.
    rewrite !conn_refs_app, Eo. by repeat split. }
  intros conn0 d1 Hconn0 Ed1 Hok1 F1. rewrite Hconn in Hconn0. injection Hconn0 as <-.
  set (conn1 := with_queues _ _ conn) in *.
  assert (d_connections d1 !! c = Some conn1) as Hc1 by (rewrite Ed1; by apply list_lookup_insert_eq).
  assert (de_event de ∈ conn_refs conn1) as Hin by (rewrite conn_refs_app; cbn; left).
  apply returns_bind. eapply returns_entry; [exact Hok1|by eapply waits_refs|]. cbn [de_event delivered_at]. intros e He.
  assert (is_input e) as Hi.
  { pose proof (queued_input _ _ _ _ Hok1 Hc1) as Hq1. rewrite Forall_forall in Hq1. by apply (Hq1 _ Hin). }
  destruct (publish_sends (channel_fd (cn_channel conn)) (delivered_at t de) e (d_world d1) Hi) as (st & k & Epub & Hout).
  apply returns_bind, returns_zoom_world; [by eexists _, _|]. intros st' k' E'. rewrite Epub in E'. injection E' as <- <-.
  destruct (ok_world held d1 k Hok1) as [Hok2 F2]. replace (d_world d1) with (d_world d) in Hout by (by rewrite Ed1).
  replace (d_world d1) with (d_world d) in Epub by (by rewrite Ed1). rewrite Ed1 in He.
  destruct (Z.eqb_spec st OK) as [->|Hst0]; cbn [negb].
  - apply returns_bind. apply (move_to_wait held (set_world k d1) c conn1 (delivered_at t de) q); [exact Hok2|exact Hc1|done|]. intros d3 Ed3 Hok3.
    assert (exists msg, message_of de e = Some msg /\ option_list (message_of (delivered_at t de) e) = [msg]) as (msg & Em & El).
    { change (message_of (delivered_at t de) e) with (message_of de e).
      unfold message_of, is_input in *. destruct (entry_type e); try done; repeat case_match; by eexists. }
    rewrite El in Hout. eapply returns_mono.
    + eapply (IH d3 (with_queues q (waitQueue conn ++ [delivered_at t de]) conn)); [done| |done|cbn in *; lia].
      rewrite Ed3. apply list_lookup_insert_eq. by eapply (lookup_lt_Some (d_connections d1)).
    + intros [] d4 Hpost. eapply cycle_goes_on; [exact Eo|reflexivity|exact He|exact Em| | | |exact Hpost].
      * by rewrite Ed3, Ed1.
      * by rewrite Ed3.
      * by rewrite Ed3.
  - rewrite app_nil_r in Hout. change (waitQueue conn1) with (waitQueue conn).
    assert ((st =? WOULD_BLOCK) && negb (bool_decide (waitQueue conn = [])) = bool_decide (st = WOULD_BLOCK /\ waitQueue conn <> [])) as Ew.
    { apply eq_bool_prop_intro. rewrite !Is_true_true, andb_true_iff, negb_true_iff, Z.eqb_eq, bool_decide_eq_false, bool_decide_eq_true. done. }
    rewrite Ew. clear Ew. destruct (decide (st = WOULD_BLOCK /\ waitQueue conn <> [])) as [Hw|Hw]; [rewrite bool_decide_eq_true_2 by done|rewrite bool_decide_eq_false_2 by done].
    + eapply safe_update_connection; [exact Hok2|by rewrite (fr_length _ _ F2), (fr_length _ _ F1)|done|].
      intros conn2 d3 Hc2 Ed3 Hok3 F3. change (d_connections d1 !! c = Some conn2) in Hc2. rewrite Hc1 in Hc2. injection Hc2 as <-.
      eapply (cycle_stops t c conn de q e st (with_blocked true conn1)); [done| |done|by rewrite Ed3|done|by rewrite Ed3|by rewrite decide_True].
      rewrite Ed3. apply list_lookup_insert_eq. by eapply lookup_lt_Some.
    + eapply returns_mono; [by eapply (abort_empties held _ c conn1)|]. intros [] d3 [Ew3 Hc3].
      eapply (cycle_stops t c conn de q e st (aborted conn1)); [done|done|done|by rewrite Ew3|done|by rewrite Ew3|].
      rewrite decide_False by done. unfold aborted. by rewrite ?decide_True by done.
Qed.

(** C15: a connection's events are published in the order in which they were queued, each once.  A dispatch cycle
    returns.  It publishes the first entries of the outbound queue, in order, as long as publishing succeeds; the
    channel then carries exactly their messages besides what it carried, and the entries are at the end of the wait
    queue.  When an entry cannot be published it stops: if that is because the channel is full while entries wait for
    the client, the connection is marked blocked and this entry and those behind it stay queued; for any other failure,
    a full channel with none waiting included, the connection is broken and no entry is left on it. *)
Theorem dispatch_cycle_in_order held t c d conn :
  ok held d -> d_connections d !! c = Some conn -> cn_status conn = STATUS_NORMAL ->
  exists d' conn' sent rest msgs,
    startDispatchCycleLocked t c d = Ret tt d' /\ d_connections d' !! c = Some conn' /\ cycled t conn d sent rest msgs conn' d'.
Proof.
  intros Hok Hc Hst. assert (returns (startDispatchCycleLocked t c) (cycle_post t c conn d) d) as H.
  { apply returns_bind. eapply returns_deref; [exact Hc|]. by eapply start_cycle_order. }
  destruct (returns_some _ _ _ H) as ([] & d' & E & sent & rest & msgs & conn' & Hc' & Hcy). by exists d', conn', sent, rest, msgs.
Qed.

End Order.

(** ** Examples *)

(** Sockets that are full when a script says so. *)
Record demo_link : Set := mkLink { lk_sent : list (Z * InputMessage); lk_script : list bool }.

Definition link_send (fd : Z) (msg : InputMessage) (n : Z) (k : demo_link) : send_result * demo_link :=
  match lk_script k with
  | false :: s => (send_failed EAGAIN, mkLink (lk_sent k) s)
  | s => (sent n, mkLink (lk_sent k ++ [(fd, msg)]) (tail s))
  end.

#[local] Instance link_socket : InputSocket demo_link := {|
  sock_send := link_send; sock_recv := fun _ k => (recv_failed EAGAIN, k); interrupts := fun _ => O;
|}.

#[local, refine] Instance link_laws : InputSocketLaws demo_link := {|
  outgoing := fun fd k => map snd (List.filter (fun p => fst p =? fd) (lk_sent k)); incoming := fun _ _ => [];
|}.
Proof.
  - intros fd msg n k. cbn. unfold link_send. destruct (lk_script k) as [|[] s]; cbn; try done;
      by rewrite List.filter_app, map_app; cbn; rewrite Z.eqb_refl.
  - by intros fd k.
Defined.

#[local] Instance link_world : InputWorld demo_link := {|
  world_socket := link_socket; now := fun k => (1000, k);
  looper_addFd := fun _ k => k; looper_removeFd := fun _ k => k; looper_wake := fun k => k;
|}.

#[local] Instance link_policy : InputDispatcherPolicy demo_link := EventFilterDispatcherPolicy (fun _ k => (false, k)).
#[local] Existing Instance demo_handles.

Definition link_new (script : list bool) : Dispatcher demo_link :=
  InputDispatcher_new (mkLink [] script) {[ 0%nat := mkWindowHandle None None; 1%nat := mkWindowHandle None None ]} ∅ 0.

(** Two windows, the second focused; a key is pressed. *)
Definition link_calls : list DispatcherCall :=
  [call_setInputDispatchMode true false;
   call_registerInputChannel (mkChannel 0 20) (Some 0%nat) false; call_registerInputChannel (mkChannel 1 21) (Some 1%nat) false;
   call_setInputWindows [0%nat; 1%nat]; call_notifyKey 900 1 257 0 AKEY_EVENT_ACTION_DOWN 0 30 30 0 900; call_dispatchOnce].

Definition link_state (script : list bool) (l : list DispatcherCall) : Dispatcher demo_link :=
  match perform_all l (link_new script) with Ret _ d => d | _ => link_new [] end.

(** The key goes to the second window; the first window's connection is as it was. *)
Lemma keys_go_to_focus_witness :
  exists r d' conn,
    dispatchKeyLocked 1000 0 DROP_REASON_NOT_DROPPED LONG_LONG_MAX (link_state [] link_calls) = Ret r d' /\
    fst r = (true, DROP_REASON_NOT_DROPPED) /\ length (outgoing 21 (d_world d')) = 1%nat /\
    d_connections (link_state [] link_calls) !! 0%nat = Some conn /\ d_connections d' !! 0%nat = Some conn.
Proof.
  eexists _, _, _. split; [vm_compute; reflexivity|]. split; [reflexivity|]. split; [reflexivity|].
  split; [vm_compute; reflexivity|].
  eapply (keys_go_to_focus 1000 0 DROP_REASON_NOT_DROPPED LONG_LONG_MAX (link_state [] link_calls));
    [vm_compute; reflexivity|vm_compute; reflexivity|]. apply (bool_decide_unpack _). vm_compute. exact I.
Defined.

(** A cancelation waits for a channel that was full; the next cycle sends it. *)
Definition link_full : Dispatcher demo_link :=
  link_state [true; false] (link_calls ++ [call_dispatchOnce; call_setInputFilterEnabled true]).

Lemma link_full_reachable : reachable link_full.
Proof.
  eapply (perform_all_reachable (link_calls ++ [call_dispatchOnce; call_setInputFilterEnabled true]) (link_new [true; false]));
    [intros d; by repeat constructor|apply (reachable_new (mkLink [] [true; false]))|vm_compute; reflexivity].
Qed.

Lemma dispatch_cycle_in_order_witness :
  exists conn d' conn' sent rest msgs,
    d_connections link_full !! 1%nat = Some conn /\ map de_seq (outboundQueue conn) = [2] /\
    startDispatchCycleLocked 1001 1 link_full = Ret tt d' /\ d_connections d' !! 1%nat = Some conn' /\
    cycled 1001 conn link_full sent rest msgs conn' d'.
Proof.
  assert (exists conn, d_connections link_full !! 1%nat = Some conn /\ map de_seq (outboundQueue conn) = [2] /\
    cn_status conn = STATUS_NORMAL) as (conn & Hc & Hq & Hst) by (eexists; vm_compute; by repeat split).
  destruct (dispatch_cycle_in_order [] 1001 1 link_full conn (proj1 (reachable_inv _ link_full_reachable)) Hc Hst)
    as (d' & conn' & sent & rest & msgs & E & Hc' & Hcy).
  exists conn, d', conn', sent, rest, msgs. exact (conj Hc (conj Hq (conj E (conj Hc' Hcy)))).
Defined.
