(* ===== verification/InputFocus.v ===== *)
(** * The input manager on the dispatcher

    [mia::InputManager::set_input_focus_to]
    ([server/input/android/android_input_manager.cpp]) with the handles of
    [android_input_window_handle.cpp] and [android_input_application_handle.cpp],
    on the dispatcher itself ([DispatchLoop]).  The theorem composes the manager,
    the dispatcher and the publishers: only the socket of the focused surface gets
    messages, whatever devices, clients and the focus do. *)

From Stdlib Require Import SpecFloat.
From S2P Require Import Prelude Geometry Input AndroidEvents InputTransport InputState Dispatcher DispatchTargets DispatchLoop.
From S2P Require Import DispatchMemory DispatchSafe DispatchInvariant DispatchInterface.

Create HintDb tamed.

(** ** What sends messages *)

(** Only a send does, and on its own descriptor. *)
Class InputWorldLaws (K : Type) {W : InputWorld K} {L : InputSocketLaws K} {P : InputDispatcherPolicy K} : Prop := {
  send_elsewhere fd fd' msg n (k : K) : fd' <> fd -> outgoing fd' (snd (sock_send fd msg n k)) = outgoing fd' k;
  recv_sends_nothing fd fd' (k : K) : outgoing fd' (snd (sock_recv fd k)) = outgoing fd' k;
  now_sends_nothing fd' (k : K) : outgoing fd' (snd (now k)) = outgoing fd' k;
  looper_sends_nothing fd fd' (k : K) :
    outgoing fd' (looper_addFd fd k) = outgoing fd' k /\ outgoing fd' (looper_removeFd fd k) = outgoing fd' k /\
    outgoing fd' (looper_wake k) = outgoing fd' k;
  filter_sends_nothing event flags fd' (k : K) : outgoing fd' (snd (filterInputEvent_policy event flags k)) = outgoing fd' k;
}.

Section Tame.
Context {K : Type} `{W : InputWorld K} `{L : !InputSocketLaws K} `{P : InputDispatcherPolicy K} `{!InputWorldLaws K}
  `{Hs : InputHandles}.
Implicit Types d : Dispatcher K.

(** No connection that works has the descriptor. *)
Definition silent (fd : Z) d : Prop :=
  forall c conn, d_connections d !! c = Some conn -> cn_status conn = STATUS_NORMAL -> channel_fd (cn_channel conn) <> fd.

(** No connection begins to work, and nothing is sent where none does. *)
Record settles d d' : Prop := {
  se_conns : map conn_id (d_connections d') = map conn_id (d_connections d);
  se_byFd : mConnectionsByFd d' = mConnectionsByFd d;
  se_normal : forall c conn', d_connections d' !! c = Some conn' -> cn_status conn' = STATUS_NORMAL ->
    exists conn, d_connections d !! c = Some conn /\ cn_status conn = STATUS_NORMAL /\ cn_channel conn = cn_channel conn';
  se_windows : mWindowHandles (d_focus d') = mWindowHandles (d_focus d);
  se_focused : mFocusedWindowHandle (d_focus d') = mFocusedWindowHandle (d_focus d);
  se_handles : fo_handles (d_focus d') = fo_handles (d_focus d);
  se_channels : fo_channels (d_focus d') = fo_channels (d_focus d);
  se_out : forall fd, silent fd d -> outgoing fd (d_world d') = outgoing fd (d_world d);
}.

Lemma settles_refl d : settles d d.
Proof. split; eauto. Qed.

Lemma settles_silent fd d d' : settles d d' -> silent fd d -> silent fd d'.
Proof. intros S Hs' c conn' Hc Hn. destruct (se_normal _ _ S c conn' Hc Hn) as (conn & Hc0 & Hn0 & <-). by eapply Hs'. Qed.

Lemma settles_trans d1 d2 d3 : settles d1 d2 -> settles d2 d3 -> settles d1 d3.
Proof.
  intros S1 S2. pose proof S1 as [C1 B1 N1 W1 G1 H1 F1 O1]. pose proof S2 as [C2 B2 N2 W2 G2 H2 F2 O2]. split; try congruence.
  - intros c conn3 Hc Hn. destruct (N2 c conn3 Hc Hn) as (conn2 & Hc2 & Hn2 & E2). destruct (N1 c conn2 Hc2 Hn2) as (conn & ? & ? & ?).
    exists conn. repeat split; congruence.
  - intros fd Hfd. rewrite O2 by (by eapply settles_silent). auto.
Qed.

Definition tame {A} (m : M (Dispatcher K) A) : Prop := forall d, match m d with Ret _ d' => settles d d' | _ => True end.

Lemma tame_bind {A B} (m : M (Dispatcher K) A) (k : A -> M (Dispatcher K) B) : tame m -> (forall a, tame (k a)) -> tame (m ≫= k).
Proof.
  intros Hm Hk d. unfold mbind, M_bind. specialize (Hm d). destruct (m d) as [a d1| | |]; try done.
  specialize (Hk a d1). destruct (k a d1); try done. by eapply settles_trans.
Qed.

Lemma tame_ret {A} (a : A) : tame (mret a).
Proof. intros d. apply settles_refl. Qed.
Lemma tame_gets {A} (f : Dispatcher K -> A) : tame (gets f).
Proof. intros d. apply settles_refl. Qed.
Lemma tame_deref {A} (f : Dispatcher K -> option A) : tame (deref f).
Proof. intros d. unfold deref. destruct (f d); [apply settles_refl|done]. Qed.
Lemma tame_undefined {A} : tame (undefined (S := Dispatcher K) (A := A)).
Proof. done. Qed.
Lemma tame_wait {A} : tame (wait (S := Dispatcher K) (A := A)).
Proof. done. Qed.

(** A change outside the connections, the windows and the world. *)
Definition aside d d' : Prop :=
  d_connections d' = d_connections d /\ mConnectionsByFd d' = mConnectionsByFd d /\
  mWindowHandles (d_focus d') = mWindowHandles (d_focus d) /\
  mFocusedWindowHandle (d_focus d') = mFocusedWindowHandle (d_focus d) /\ fo_handles (d_focus d') = fo_handles (d_focus d) /\
  fo_channels (d_focus d') = fo_channels (d_focus d) /\ d_world d' = d_world d.

Lemma settles_aside d d' : aside d d' -> settles d d'.
Proof. intros (C & B & F1 & F2 & F3 & F4 & O). split; try congruence; rewrite ?C, ?O; eauto. Qed.

Lemma tame_modify (f : Dispatcher K -> Dispatcher K) : (forall d, aside d (f d)) -> tame (modify f).
Proof. intros Hf d. by apply settles_aside. Qed.

Lemma settles_world k d : (forall fd, silent fd d -> outgoing fd k = outgoing fd (d_world d)) -> settles d (set_world k d).
Proof. intros Hk. split; try done. eauto. Qed.

Lemma tame_clock : tame clock.
Proof.
  intros d. unfold clock. pose proof (now_sends_nothing (K := K)) as H. destruct (now (d_world d)) as [t k] eqn:E.
  apply settles_world. intros fd _. specialize (H fd (d_world d)). by rewrite E in H.
Qed.

Lemma tame_wake : tame wake.
Proof. intros d. apply settles_world. intros fd _. apply (looper_sends_nothing 0 fd). Qed.

Lemma tame_new e : tame (new_entry e).
Proof. intros d. by apply settles_aside. Qed.
Lemma tame_nextSeq : tame nextSeq.
Proof. intros d. by apply settles_aside. Qed.
Lemma tame_getConnection ch : tame (getConnectionIndexLocked ch).
Proof. intros d. unfold getConnectionIndexLocked. repeat case_match; try done; simplify_eq; apply settles_refl. Qed.

Lemma tame_for_each {A} (l : list A) (f : A -> M (Dispatcher K) unit) : (forall x, tame (f x)) -> tame (for_each l f).
Proof. intros Hf. induction l as [|x l IH]; [intros d; apply settles_refl|]. cbn [for_each]. apply tame_bind; auto. Qed.

Lemma settles_update d c conn conn' :
  d_connections d !! c = Some conn -> conn_id conn' = conn_id conn ->
  (cn_status conn' = STATUS_NORMAL -> cn_status conn = STATUS_NORMAL) ->
  settles d (set_connections (<[ c := conn' ]> (d_connections d)) d).
Proof.
  intros Hc Hid Hn. split; try done; cbn.
  - change (conn_id <$> <[ c := conn' ]> (d_connections d) = conn_id <$> d_connections d).
    rewrite list_fmap_insert, Hid. apply list_insert_id. by rewrite list_lookup_fmap, Hc.
  - intros c' x Hl Hx. destruct (decide (c = c')) as [<-|Hne].
    + rewrite list_lookup_insert_eq in Hl by (by eapply lookup_lt_Some). injection Hl as <-. exists conn.
      injection Hid as -> _ _. auto.
    + rewrite list_lookup_insert_ne in Hl by done. eauto.
Qed.

Lemma tame_update c f :
  (forall conn, conn_id (f conn) = conn_id conn /\ (cn_status (f conn) = STATUS_NORMAL -> cn_status conn = STATUS_NORMAL)) ->
  tame (update_connection c f).
Proof.
  intros Hf d. unfold update_connection, connection, mbind, M_bind, deref, modify.
  destruct (d_connections d !! c) as [conn|] eqn:E; [|done]. destruct (Hf conn). by eapply settles_update.
Qed.

End Tame.

(** A function is opened step by step. *)
Ltac tame1 :=
  first [ apply tame_ret | apply tame_gets | apply tame_deref | apply tame_undefined | apply tame_wait | apply tame_clock
        | apply tame_wake | apply tame_new | apply tame_nextSeq | apply tame_getConnection
        | solve [auto with tamed]
        | apply tame_modify; intros ?; repeat case_match; done
        | apply tame_update; intros ?; done
        | apply tame_bind; [|intros ?] | apply tame_for_each; intros ?
        | progress (cbv zeta beta) | case_match ].
Ltac tamed := repeat tame1.

Section TameCode.
Context {K : Type} `{W : InputWorld K} `{L : !InputSocketLaws K} `{P : InputDispatcherPolicy K} `{!InputWorldLaws K}
  `{Hs : InputHandles}.
Implicit Types d : Dispatcher K.

(** ** The dispatch cycle *)

(** Code on the sockets that sends at most on [fd]. *)
Definition elsewhere {A} (fd : Z) (m : M K A) : Prop :=
  forall k, match m k with Ret _ k' => forall fd', fd' <> fd -> outgoing fd' k' = outgoing fd' k | _ => True end.

Lemma sendMessage_elsewhere fd msg : elsewhere fd (sendMessage fd msg).
Proof.
  intros k. unfold sendMessage, get, mbind, M_bind. generalize (interrupts k) as n. intros n. revert k.
  induction n as [|n IH]; intros k; cbn [send_loop]; pose proof (send_elsewhere (K := K) fd) as H;
    destruct (sock_send fd msg (message_size msg) k) as [[m|e] k'] eqn:E.
  all: assert (forall fd', fd' <> fd -> outgoing fd' k' = outgoing fd' k) as Hk
    by (intros fd' Hne; specialize (H fd' msg (message_size msg) k Hne); by rewrite E in H); try done.
  - by destruct (e =? EINTR).
  - destruct (e =? EINTR); [|done]. specialize (IH k'). destruct (send_loop n fd msg k') as [r k2| | |]; try done.
    intros fd' Hne. cbn in *. by rewrite IH, Hk.
Qed.

Lemma publish_elsewhere fd de e : elsewhere fd (publish fd de e).
Proof.
  unfold publish, publishKeyEvent, publishMotionEvent. destruct (entry_type e) as [| |key|m]; try done.
  - destruct (_ =? 0); [done|]. apply sendMessage_elsewhere.
  - destruct (outgoing_coords de m) as [[x y] ps]. destruct (_ =? 0); [done|]. destruct (_ || _); [done|].
    apply sendMessage_elsewhere.
Qed.

Lemma tame_entry a : tame (K := K) (entry a).
Proof. apply tame_deref. Qed.
Lemma tame_connection c : tame (K := K) (connection c).
Proof. apply tame_deref. Qed.
#[local] Hint Resolve tame_entry tame_connection : tamed.

Lemma tame_update_entry a f : tame (K := K) (update_entry a f).
Proof. unfold update_entry. tamed. Qed.
Lemma tame_acquire a : tame (K := K) (acquire a).
Proof. unfold acquire. apply tame_update_entry. Qed.
Lemma tame_release a : tame (K := K) (release a).
Proof. pose proof tame_update_entry. unfold release. tamed. Qed.
Lemma tame_post cmd : tame (K := K) (postCommandLocked cmd).
Proof. unfold postCommandLocked. tamed. Qed.
#[local] Hint Resolve tame_update_entry tame_acquire tame_release tame_post : tamed.

Lemma tame_enqueueEntry c a target mode : tame (K := K) (enqueueDispatchEntryLocked c a target mode).
Proof. unfold enqueueDispatchEntryLocked. tamed. Qed.
Lemma tame_drain_outbound n c : tame (K := K) (drain_outbound n c).
Proof. induction n; cbn [drain_outbound]; unfold releaseDispatchEntryLocked; tamed. Qed.
Lemma tame_drain_wait n c : tame (K := K) (drain_wait n c).
Proof. induction n; cbn [drain_wait]; unfold releaseDispatchEntryLocked; tamed. Qed.
#[local] Hint Resolve tame_enqueueEntry tame_drain_outbound tame_drain_wait : tamed.

Lemma tame_abort c notify : tame (K := K) (abortBrokenDispatchCycleLocked c notify).
Proof. unfold abortBrokenDispatchCycleLocked, onDispatchCycleBrokenLocked. tamed. Qed.
#[local] Hint Resolve tame_abort : tamed.

(** Publishing for a connection that works. *)
Lemma tame_publish c conn de e d :
  d_connections d !! c = Some conn -> cn_status conn = STATUS_NORMAL ->
  match zoom world_lens (publish (channel_fd (cn_channel conn)) de e) d with Ret _ d' => settles d d' | _ => True end.
Proof.
  intros Hc Hn. unfold zoom. cbn. pose proof (publish_elsewhere (channel_fd (cn_channel conn)) de e (d_world d)) as Hp.
  destruct (publish _ _ _ _) as [st k| | |]; try done. apply settles_world. intros fd Hfd. apply Hp. intros ->. by eapply Hfd.
Qed.

Lemma tame_start_cycle n t c : tame (K := K) (start_cycle n t c).
Proof.
  induction n as [|n IH]; intros d; cbn [start_cycle]; unfold mbind at 1, M_bind at 1, connection, deref;
    destruct (d_connections d !! c) as [conn|] eqn:E; try done; destruct (cn_status conn) eqn:En; try apply settles_refl;
    destruct (outboundQueue conn) as [|de q]; try apply settles_refl; [done|].
  unfold mbind at 1, M_bind at 1, update_connection, connection, mbind at 1, M_bind at 1, deref, modify. rewrite E.
  set (conn1 := with_queues _ _ conn). set (d1 := set_connections _ d).
  assert (settles d d1) as S1 by (by eapply settles_update).
  assert (d_connections d1 !! c = Some conn1) as E1 by (apply list_lookup_insert_eq; by eapply lookup_lt_Some).
  unfold mbind at 1, M_bind at 1, entry, deref. cbn [de_event delivered_at].
  destruct (d_heap d1 !! de_event de) as [e|]; [|done]. unfold mbind at 1, M_bind at 1.
  pose proof (tame_publish c conn1 (delivered_at t de) e d1 E1 En) as Hp. cbn [cn_channel conn1 with_queues] in Hp.
  destruct (zoom _ _ d1) as [st d2| | |]; try done. pose proof (settles_trans _ _ _ S1 Hp) as S2.
  match goal with |- match ?m d2 with _ => _ end => assert (tame (K := K) m) as Ht by tamed end.
  specialize (Ht d2). destruct (_ d2); try done. by eapply settles_trans.
Qed.
#[local] Hint Resolve tame_start_cycle : tamed.

Lemma tame_startDispatchCycle t c : tame (K := K) (startDispatchCycleLocked t c).
Proof. unfold startDispatchCycleLocked. tamed. Qed.
#[local] Hint Resolve tame_startDispatchCycle : tamed.
Lemma tame_enqueueEntries t c a target : tame (K := K) (enqueueDispatchEntriesLocked t c a target).
Proof. unfold enqueueDispatchEntriesLocked. tamed. Qed.
#[local] Hint Resolve tame_enqueueEntries : tamed.
Lemma tame_dispatchEvent t a targets : tame (K := K) (dispatchEventLocked t a targets).
Proof. unfold dispatchEventLocked, prepareDispatchCycleLocked, splitMotionEvent. tamed. Qed.
Lemma tame_new_entries es : tame (K := K) (new_entries es).
Proof. induction es; cbn [new_entries]; tamed. Qed.
#[local] Hint Resolve tame_dispatchEvent tame_new_entries : tamed.
Lemma tame_cancel c o : tame (K := K) (synthesizeCancelationEventsForConnectionLocked c o).
Proof. unfold synthesizeCancelationEventsForConnectionLocked. tamed. Qed.
#[local] Hint Resolve tame_cancel : tamed.
Lemma tame_cancelAll o : tame (K := K) (synthesizeCancelationEventsForAllConnectionsLocked o).
Proof. unfold synthesizeCancelationEventsForAllConnectionsLocked. tamed. Qed.
Lemma tame_cancelChannel ch o : tame (K := K) (synthesizeCancelationEventsForInputChannelLocked ch o).
Proof. unfold synthesizeCancelationEventsForInputChannelLocked. tamed. Qed.
#[local] Hint Resolve tame_cancelAll tame_cancelChannel : tamed.

(** ** The targets *)

Lemma tame_getInfo w : tame (K := K) (getInfo w).
Proof. apply tame_deref. Qed.
Lemma tame_point m i : tame (K := K) (point_of m i).
Proof. unfold point_of. tamed. Qed.
Lemma tame_notReady t app w next : tame (K := K) (handleTargetsNotReadyLocked t app w next).
Proof. unfold handleTargetsNotReadyLocked. tamed. Qed.
#[local] Hint Resolve tame_getInfo tame_point tame_notReady : tamed.
Lemma tame_not_ready {A} t app w next : tame (K := K) (not_ready (A := A) t app w next).
Proof. unfold not_ready. tamed. Qed.
Lemma tame_windowReady t w key : tame (K := K) (isWindowReadyForMoreInputLocked t w key).
Proof. unfold isWindowReadyForMoreInputLocked. tamed. Qed.
Lemma tame_addTarget w flags ids : tame (K := K) (addWindowTargetLocked w flags ids).
Proof. unfold addWindowTargetLocked. tamed. Qed.
Lemma tame_monitors : tame (K := K) addMonitoringTargetsLocked.
Proof. apply tame_gets. Qed.
#[local] Hint Resolve tame_not_ready tame_windowReady tame_addTarget tame_monitors : tamed.
Lemma tame_findFocused t key next : tame (K := K) (findFocusedWindowTargetsLocked t key next).
Proof. unfold findFocusedWindowTargetsLocked. tamed. Qed.
Lemma tame_find_touched ws x y : tame (K := K) (find_touched ws x y).
Proof. induction ws; cbn [find_touched]; tamed. Qed.
Lemma tame_obscured_by ws w x y : tame (K := K) (obscured_by ws w x y).
Proof. induction ws; cbn [obscured_by]; tamed. Qed.
#[local] Hint Resolve tame_findFocused tame_find_touched tame_obscured_by : tamed.
Lemma tame_obscured w x y : tame (K := K) (isWindowObscuredAtPointLocked w x y).
Proof. unfold isWindowObscuredAtPointLocked. tamed. Qed.
Lemma tame_slippery found l : tame (K := K) (slippery found l).
Proof. revert found. induction l; intros found; cbn [slippery]; tamed. Qed.
#[local] Hint Resolve tame_obscured tame_slippery : tamed.
Lemma tame_find_new ws down x y err temp : tame (K := K) (find_new_touched ws down x y err temp).
Proof. revert err temp. induction ws; intros err temp; cbn [find_new_touched]; tamed. Qed.
Lemma tame_hide uid ws temp : tame (K := K) (hide_coords uid ws temp).
Proof. revert temp. induction ws; intros temp; cbn [hide_coords]; tamed. Qed.
Lemma tame_touch_ready t next ws : tame (K := K) (touch_ready t next ws).
Proof. induction ws; cbn [touch_ready]; tamed. Qed.
Lemma tame_wallpapers ws temp : tame (K := K) (add_wallpapers ws temp).
Proof. revert temp. induction ws; intros temp; cbn [add_wallpapers]; tamed. Qed.
Lemma tame_window_targets ws : tame (K := K) (window_targets ws).
Proof. induction ws; cbn [window_targets]; tamed. Qed.
#[local] Hint Resolve tame_find_new tame_hide tame_touch_ready tame_wallpapers tame_window_targets : tamed.
Lemma tame_touch_new t m next work : tame (K := K) (touch_new t m next work).
Proof. unfold touch_new. tamed. Qed.
Lemma tame_touch_more m work : tame (K := K) (touch_more m work).
Proof. unfold touch_more, isSlippery, findTouchedWindowAtLocked. tamed. Qed.
Lemma tame_touch_targets t m next work : tame (K := K) (touch_targets t m next work).
Proof. unfold touch_targets, and_then. tamed. Qed.
#[local] Hint Resolve tame_touch_new tame_touch_more tame_touch_targets : tamed.
Lemma tame_touch_find t m next : tame (K := K) (touch_find t m next).
Proof. unfold touch_find, and_then. tamed. Qed.
Lemma tame_touch_commit m work : tame (K := K) (touch_commit m work).
Proof. unfold touch_commit. tamed. Qed.
#[local] Hint Resolve tame_touch_find tame_touch_commit : tamed.
Lemma tame_findTouched t m next : tame (K := K) (findTouchedWindowTargetsLocked t m next).
Proof. unfold findTouchedWindowTargetsLocked. tamed. Qed.
#[local] Hint Resolve tame_findTouched : tamed.

(** ** Events and commands *)

Lemma tame_key_of e : tame (K := K) (key_of e).
Proof. apply tame_deref. Qed.
Lemma tame_resetANR : tame (K := K) resetANRTimeoutsLocked.
Proof. unfold resetANRTimeoutsLocked. tamed. Qed.
Lemma tame_releaseInbound a : tame (K := K) (releaseInboundEventLocked a).
Proof. unfold releaseInboundEventLocked. tamed. Qed.
Lemma tame_resetRepeat : tame (K := K) resetKeyRepeatLocked.
Proof. unfold resetKeyRepeatLocked. tamed. Qed.
#[local] Hint Resolve tame_key_of tame_resetANR tame_releaseInbound tame_resetRepeat : tamed.
Lemma tame_releasePending : tame (K := K) releasePendingEventLocked.
Proof. unfold releasePendingEventLocked. tamed. Qed.
Lemma tame_drain_inbound n : tame (K := K) (drain_inbound n).
Proof. induction n; cbn [drain_inbound]; tamed. Qed.
Lemma tame_dropInbound a reason : tame (K := K) (dropInboundEventLocked a reason).
Proof. unfold dropInboundEventLocked. tamed. Qed.
Lemma tame_repeat t : tame (K := K) (synthesizeKeyRepeatLocked t).
Proof. unfold synthesizeKeyRepeatLocked. tamed. Qed.
Lemma tame_key_first a : tame (K := K) (dispatch_key_first a).
Proof. unfold dispatch_key_first. tamed. Qed.
Lemma tame_key_targets t a reason next : tame (K := K) (dispatch_key_targets t a reason next).
Proof. unfold dispatch_key_targets. tamed. Qed.
#[local] Hint Resolve tame_releasePending tame_drain_inbound tame_dropInbound tame_repeat tame_key_first tame_key_targets : tamed.
Lemma tame_dispatchKey t a reason next : tame (K := K) (dispatchKeyLocked t a reason next).
Proof. unfold dispatchKeyLocked. tamed. Qed.
Lemma tame_dispatchMotion t a reason next : tame (K := K) (dispatchMotionLocked t a reason next).
Proof. unfold dispatchMotionLocked. tamed. Qed.
#[local] Hint Resolve tame_dispatchKey tame_dispatchMotion : tamed.
Lemma tame_dispatch_pending t due a next : tame (K := K) (dispatch_pending t due a next).
Proof.
  unfold dispatch_pending, dispatchConfigurationChangedLocked, dispatchDeviceResetLocked, resetPendingAppSwitchLocked. tamed.
Qed.
Lemma tame_grab t due next : tame (K := K) (grab_event t due next).
Proof. unfold grab_event, resetPendingAppSwitchLocked. tamed. Qed.
#[local] Hint Resolve tame_dispatch_pending tame_grab : tamed.
Lemma tame_onceInner next : tame (K := K) (dispatchOnceInnerLocked next).
Proof. unfold dispatchOnceInnerLocked. tamed. Qed.

Lemma tame_update_state c f : tame (K := K) (update_state c f).
Proof. unfold update_state. tamed. Qed.
Lemma tame_intercepted w a : tame (K := K) (intercepted w a).
Proof. unfold intercepted. tamed. Qed.
Lemma tame_resume timeout ch : tame (K := K) (resumeAfterTargetsNotReadyTimeoutLocked timeout ch).
Proof. unfold resumeAfterTargetsNotReadyTimeoutLocked. tamed. Qed.
#[local] Hint Resolve tame_onceInner tame_update_state tame_intercepted tame_resume : tamed.
Lemma tame_afterKey c a de handled : tame (K := K) (afterKeyEventLockedInterruptible c a de handled).
Proof. unfold afterKeyEventLockedInterruptible, after_handled_key, after_unhandled_key, cancel_fallback. tamed. Qed.
#[local] Hint Resolve tame_afterKey : tamed.
Lemma tame_cycleFinished c seq handled : tame (K := K) (doDispatchCycleFinishedLockedInterruptible c seq handled).
Proof. unfold doDispatchCycleFinishedLockedInterruptible, releaseDispatchEntryLocked. tamed. Qed.
#[local] Hint Resolve tame_cycleFinished : tamed.
Lemma tame_command cmd : tame (K := K) (run_command cmd).
Proof. unfold run_command. tamed. Qed.
#[local] Hint Resolve tame_command : tamed.
Lemma tame_commands n : tame (K := K) (run_commands n).
Proof. induction n; cbn [run_commands]; tamed. Qed.
#[local] Hint Resolve tame_commands : tamed.
Lemma tame_runCommands : tame (K := K) runCommandsLockedInterruptible.
Proof. unfold runCommandsLockedInterruptible. tamed. Qed.
#[local] Hint Resolve tame_runCommands : tamed.
Lemma tame_dispatchOnce : tame (K := K) dispatchOnce.
Proof. unfold dispatchOnce. tamed. Qed.

(** Nothing is sent while signals are received. *)
Lemma recv_loop_quiet n fd : forall k : K, match recv_loop n fd k with Ret _ k' => forall fd', outgoing fd' k' = outgoing fd' k | _ => True end.
Proof.
  induction n as [|n IH]; intros k; cbn [recv_loop]; pose proof (recv_sends_nothing (K := K) fd) as H;
    destruct (sock_recv fd k) as [r k'] eqn:E;
    (assert (forall fd', outgoing fd' k' = outgoing fd' k) as Hk by (intros fd'; specialize (H fd' k); by rewrite E in H));
    destruct r as [msg m| |e]; try done; destruct (e =? EINTR); try done.
  specialize (IH k'). destruct (recv_loop n fd k') as [r k2| | |]; try done. intros fd'. by rewrite IH.
Qed.

Lemma tame_receive fd : tame (K := K) (zoom world_lens (receiveFinishedSignal fd)).
Proof.
  intros d. unfold zoom, receiveFinishedSignal, receiveMessage, get, mbind, M_bind. cbn.
  pose proof (recv_loop_quiet (interrupts (d_world d)) fd (d_world d)) as H. destruct (recv_loop _ _ _) as [r k| | |]; try done.
  apply settles_world. auto.
Qed.
#[local] Hint Resolve tame_receive tame_dispatchOnce : tamed.
Lemma tame_signals fuel t c got : tame (K := K) (receive_signals fuel t c got).
Proof. revert got. induction fuel; intros got; cbn [receive_signals]; unfold finishDispatchCycleLocked; tamed. Qed.
#[local] Hint Resolve tame_signals : tamed.

Lemma tame_ask event flags : tame (K := K) (ask_filter event flags).
Proof.
  intros d. unfold ask_filter. pose proof (filter_sends_nothing (K := K) event flags) as H.
  destruct (filterInputEvent_policy _ _ _) as [pass k] eqn:E. apply settles_world. intros fd _. specialize (H fd (d_world d)).
  by rewrite E in H.
Qed.
#[local] Hint Resolve tame_ask : tamed.
Lemma tame_enqueue_new e : tame (K := K) (enqueue_new e).
Proof. unfold enqueue_new, enqueueInboundEventLocked, point_below, findTouchedWindowAtLocked. tamed. Qed.
Lemma tame_filter event flags : tame (K := K) (filter_event event flags).
Proof. unfold filter_event. tamed. Qed.
Lemma tame_resetAndDrop : tame (K := K) resetAndDropEverythingLocked.
Proof. unfold resetAndDropEverythingLocked, drainInboundQueueLocked. tamed. Qed.
Lemma tame_cancelWindow w mode : tame (K := K) (cancel_for_window w mode).
Proof. unfold cancel_for_window. tamed. Qed.
Lemma tame_setApplication h : tame (K := K) (setFocusedApplication h).
Proof. unfold setFocusedApplication, leave_application. tamed. Qed.
#[local] Hint Resolve tame_enqueue_new tame_filter tame_resetAndDrop tame_setApplication : tamed.

(** What the reader and the dispatcher's thread do, and the modes; the callback may
    unregister a channel and comes below. *)
Definition outside (c : DispatcherCall) : bool :=
  match c with
  | call_registerInputChannel _ _ _ | call_unregisterInputChannel _ | call_setInputWindows _ | call_transferTouchFocus _ _ => false
  | _ => true
  end.

Lemma tame_perform c :
  outside c = true -> (forall fuel fd events, c <> call_handleReceiveCallback fuel fd events) -> tame (K := K) (perform c).
Proof.
  intros Ho Hc. destruct c; cbn [perform outside] in *; try discriminate; try (exfalso; by eapply Hc);
    unfold notifyConfigurationChanged, notifyDeviceReset, notifyKey, notifyMotion, setInputDispatchMode, setInputFilterEnabled;
    tamed.
Qed.

(** ** Giving up a channel *)

Definition ended (c : nat) d : Prop := forall conn, d_connections d !! c = Some conn -> cn_status conn <> STATUS_NORMAL.

Definition concludes {A} (c : nat) (m : M (Dispatcher K) A) : Prop := forall d, match m d with Ret _ d' => ended c d' | _ => True end.

Lemma concludes_bind {A B} c (m : M (Dispatcher K) A) (k : A -> M (Dispatcher K) B) : (forall a, concludes c (k a)) -> concludes c (m ≫= k).
Proof. intros Hk d. unfold mbind, M_bind. destruct (m d) as [a d1| | |]; try done. apply Hk. Qed.

Lemma zombie_concludes c (r : Z) : concludes c (update_connection c (with_status STATUS_ZOMBIE) ;; mret r).
Proof.
  intros d. unfold update_connection, connection, mbind, M_bind, deref, modify. destruct (d_connections d !! c) as [conn|] eqn:E; [|done].
  intros conn'. cbn. rewrite list_lookup_insert_eq by (by eapply lookup_lt_Some). by intros [= <-].
Qed.

Lemma getConnection_same channel d r d' : getConnectionIndexLocked channel d = Ret r d' -> d' = d.
Proof. unfold getConnectionIndexLocked. repeat case_match; intros; by simplify_eq. Qed.

Lemma tame_removeFd fd : tame (K := K) (modify (fun d => set_world (looper_removeFd fd (d_world d)) d)).
Proof. intros d. apply settles_world. intros fd' _. apply (looper_sends_nothing fd fd'). Qed.
#[local] Hint Resolve tame_removeFd : tamed.

(** The channel's descriptor is forgotten, nothing is sent after that, and the
    connection does not work any more. *)
Lemma unregister_gives_up channel notify d :
  match unregisterInputChannelLocked channel notify d with
  | Ret _ d' =>
      getConnectionIndexLocked channel d = Ret None d /\ d' = d \/
      exists c, getConnectionIndexLocked channel d = Ret (Some c) d /\ ended c d' /\
        settles (set_byFd (OrdMap.erase (channel_fd channel) (mConnectionsByFd d)) d) d'
  | _ => True
  end.
Proof.
  unfold unregisterInputChannelLocked, mbind at 1, M_bind at 1.
  destruct (getConnectionIndexLocked channel d) as [[c|] d0| | |] eqn:E; try done; pose proof (getConnection_same _ _ _ _ E) as ->;
    [|by left]. unfold mbind at 1, M_bind at 1, modify at 1.
  match goal with |- match ?m ?d1 with _ => _ end =>
    assert (tame (K := K) m) as Ht by tamed; assert (concludes c m) as Hc 
      by (do 6 (apply concludes_bind; intros ?); apply zombie_concludes);
    specialize (Ht d1); specialize (Hc d1); destruct (m d1); try done end.
  right. eauto.
Qed.

(** ** The one connection that works *)

(** The channel of the window [w], if there is one. *)
Definition channel_at (w : option nat) d : option InputChannel := h ← w ; channel_of h (d_focus d).

(** Every connection that works is that of [w], and is registered. *)
Definition guarded (w : option nat) d : Prop :=
  forall c conn, d_connections d !! c = Some conn -> cn_status conn = STATUS_NORMAL ->
    channel_at w d = Some (cn_channel conn) /\ OrdMap.find (channel_fd (cn_channel conn)) (mConnectionsByFd d) = Some c.

(** Nothing is sent but to the window [w]. *)
Record guards (w : option nat) d d' : Prop := {
  gd_guarded : guarded w d';
  gd_handles : fo_handles (d_focus d') = fo_handles (d_focus d);
  gd_windows : mWindowHandles (d_focus d') = mWindowHandles (d_focus d);
  gd_focused : mFocusedWindowHandle (d_focus d') = mFocusedWindowHandle (d_focus d);
  gd_out : forall fd, channel_fd <$> channel_at w d <> Some fd -> outgoing fd (d_world d') = outgoing fd (d_world d);
}.

(** The connections and the channels are the same. *)
Definition same_ids d d' : Prop :=
  map conn_id (d_connections d') = map conn_id (d_connections d) /\ fo_channels (d_focus d') = fo_channels (d_focus d).

Lemma channel_at_handles w d d' : fo_handles (d_focus d') = fo_handles (d_focus d) -> channel_at w d' = channel_at w d.
Proof. intros E. unfold channel_at, channel_of. by rewrite E. Qed.

Lemma guarded_silent w d fd : guarded w d -> channel_fd <$> channel_at w d <> Some fd -> silent fd d.
Proof. intros G Hfd c conn Hc Hn <-. destruct (G c conn Hc Hn) as [E _]. by rewrite E in Hfd. Qed.

Lemma guards_refl w d : guarded w d -> guards w d d.
Proof. by split. Qed.

Lemma guards_trans w d1 d2 d3 : guards w d1 d2 -> guards w d2 d3 -> guards w d1 d3.
Proof.
  intros [G1 H1 W1 F1 O1] [G2 H2 W2 F2 O2]. split; try done; try congruence. intros fd Hfd. rewrite O2; [by apply O1|].
  by rewrite (channel_at_handles _ _ _ H1).
Qed.

Lemma settles_guarded w d d' : guarded w d -> settles d d' -> guarded w d'.
Proof.
  intros G S c conn' Hc Hn. destruct (se_normal _ _ S c conn' Hc Hn) as (conn & Hc0 & Hn0 & <-).
  rewrite (channel_at_handles _ d d') by apply S. rewrite (se_byFd _ _ S). by apply G.
Qed.

Lemma settles_guards w d d' : guarded w d -> settles d d' -> guards w d d'.
Proof.
  intros G S. split; try apply S; [by eapply settles_guarded|]. intros fd Hfd. apply S. by eapply guarded_silent.
Qed.

Definition discreet {A} (w : option nat) (m : M (Dispatcher K) A) : Prop :=
  forall d, guarded w d -> match m d with Ret _ d' => guards w d d' /\ same_ids d d' | _ => True end.

Lemma settles_ids d d' : settles d d' -> same_ids d d'.
Proof. intros S. split; apply S. Qed.

Lemma discreet_tame {A} w (m : M (Dispatcher K) A) : tame m -> discreet w m.
Proof. intros Hm d G. specialize (Hm d). destruct (m d); try done. split; [by apply settles_guards|by apply settles_ids]. Qed.

Lemma discreet_bind {A B} w (m : M (Dispatcher K) A) (k : A -> M (Dispatcher K) B) :
  discreet w m -> (forall a, discreet w (k a)) -> discreet w (m ≫= k).
Proof.
  intros Hm Hk d G. unfold mbind, M_bind. specialize (Hm d G). destruct (m d) as [a d1| | |]; try done.
  destruct Hm as [Hm [I1 C1]]. specialize (Hk a d1 (gd_guarded _ _ _ Hm)). destruct (k a d1); try done. destruct Hk as [Hk [I2 C2]].
  split; [by eapply guards_trans|]. split; congruence.
Qed.

Lemma find_erase_other m (k k' : Z) : k' <> k -> OrdMap.find (V := nat) k' (OrdMap.erase k m) = OrdMap.find k' m.
Proof.
  intros Hne. induction m as [|[k0 v] m IH]; [done|]. cbn. destruct (Z.eqb_spec k k0) as [->|]; cbn; [|by rewrite IH].
  by destruct (Z.eqb_spec k' k0).
Qed.

Lemma getConnection_found channel d c :
  getConnectionIndexLocked channel d = Ret (Some c) d -> OrdMap.find (channel_fd channel) (mConnectionsByFd d) = Some c.
Proof. unfold getConnectionIndexLocked. repeat case_match; intros; by simplify_eq. Qed.

(** The connection that goes, or another one, is the one that works. *)
Lemma discreet_unregisterLocked w channel notify : discreet w (unregisterInputChannelLocked channel notify).
Proof.
  intros d G. pose proof (unregister_gives_up channel notify d) as H. destruct (unregisterInputChannelLocked _ _ _) as [r d'| | |]; try done.
  destruct H as [[_ ->]|(c & E & He & S)]; [split; [by apply guards_refl|done]|]. apply getConnection_found in E.
  split; [|apply (settles_ids _ _ S)]. split; try apply S.
  - intros c' conn' Hc Hn. destruct (se_normal _ _ S c' conn' Hc Hn) as (conn & Hc0 & Hn0 & Ech).
    destruct (G c' conn Hc0 Hn0) as [Hch Hf]. rewrite (channel_at_handles _ d d') by apply S. rewrite (se_byFd _ _ S), <- Ech. cbn.
    split; [done|]. rewrite find_erase_other; [done|]. intros Efd. rewrite Efd, E in Hf. injection Hf as ->. by apply (He conn' Hc).
  - intros fd Hfd. rewrite (se_out _ _ S); [done|]. apply (guarded_silent w d fd G Hfd).
Qed.

Lemma discreet_callback w fuel fd events : discreet w (handleReceiveCallback fuel fd events).
Proof.
  assert (forall channel notify, discreet w (unregisterInputChannelLocked channel notify ;; mret 0 : M (Dispatcher K) Z)) as Hu.
  { intros channel notify. apply discreet_bind; [apply discreet_unregisterLocked|]. intros. apply discreet_tame. tamed. }
  apply discreet_bind; [apply discreet_tame; tamed|]. intros byFd. case_match; [|apply discreet_tame; tamed].
  apply discreet_bind; [apply discreet_tame; tamed|]. intros conn. cbv zeta. case_match; [apply Hu|].
  case_match; [apply discreet_tame; tamed|]. apply discreet_bind; [apply discreet_tame; tamed|]. intros t.
  apply discreet_bind; [apply discreet_tame; tamed|]. intros [got st].
  apply discreet_bind; [apply discreet_tame; tamed|]. intros []. case_match; [apply discreet_tame; tamed|apply Hu].
Qed.

Lemma discreet_perform w c : outside c = true -> discreet w (perform (K := K) c).
Proof.
  intros Ho. destruct c; try (apply discreet_tame, tame_perform; done).
  apply discreet_bind; [apply discreet_callback|]. intros. apply discreet_tame. tamed.
Qed.

(** ** Taking a channel *)

(** If the function returns, then so that. *)
Definition leads {S A} (m : M S A) (Q : A -> S -> Prop) (s : S) : Prop := match m s with Ret a s' => Q a s' | _ => True end.

Lemma leads_bind {S A B} (m : M S A) (k : A -> M S B) Q s :
  leads m (fun a s' => leads (k a) Q s') s -> leads (m ≫= k) Q s.
Proof. unfold leads, mbind, M_bind. by destruct (m s). Qed.

Lemma leads_mono {S A} (m : M S A) (Q R : A -> S -> Prop) s : leads m Q s -> (forall a s', Q a s' -> R a s') -> leads m R s.
Proof. unfold leads. destruct (m s); auto. Qed.

Lemma leads_tame {A} (m : M (Dispatcher K) A) d (Q : A -> Dispatcher K -> Prop) :
  tame m -> (forall a d', settles d d' -> Q a d') -> leads m Q d.
Proof. intros Hm HQ. specialize (Hm d). unfold leads. destruct (m d); auto. Qed.

(** The connection that a channel was registered with. *)
Definition registered (channel : InputChannel) (w : nat) d : Prop :=
  exists c, OrdMap.find (channel_fd channel) (mConnectionsByFd d) = Some c /\
    map conn_id (d_connections d) !! c = Some (channel, Some w, false).

Lemma getConnection_new channel d :
  Forall (fun conn => channel_object (cn_channel conn) <> channel_object channel) (d_connections d) ->
  getConnectionIndexLocked channel d = Ret None d \/ getConnectionIndexLocked channel d = Undef.
Proof.
  intros Hnew. unfold getConnectionIndexLocked. destruct (OrdMap.find _ _) as [c|]; [|by left].
  destruct (d_connections d !! c) as [conn|] eqn:E; [left|by right]. rewrite Forall_forall in Hnew.
  by rewrite (proj2 (Nat.eqb_neq _ _) (Hnew conn (list_elem_of_lookup_2 _ _ _ E))).
Qed.

Lemma register_takes w channel d :
  guarded None d -> channel_at (Some w) d = Some channel ->
  Forall (fun conn => channel_object (cn_channel conn) <> channel_object channel) (d_connections d) ->
  leads (registerInputChannel channel (Some w) false) (fun _ d' => guards (Some w) d d' /\ registered channel w d' /\
    map conn_id (d_connections d') = map conn_id (d_connections d) ++ [(channel, Some w, false)] /\
    fo_channels (d_focus d') = fo_channels (d_focus d)) d.
Proof.
  intros Hd Hch Hnew. unfold registerInputChannel, leads, mbind at 1, M_bind at 1.
  destruct (getConnection_new channel d Hnew) as [-> | ->]; [|done].
  change (leads (modify (fun d => set_byFd (OrdMap.insert (channel_fd channel) (length (d_connections d)) (mConnectionsByFd d))
                           (set_connections (d_connections d ++ [Connection_new channel (Some w) false]) d)) ;;
    mret tt ;; modify (fun d => set_world (looper_addFd (channel_fd channel) (d_world d)) d) ;;
    runCommandsLockedInterruptible ;; mret OK) (fun _ d' => guards (Some w) d d' /\ registered channel w d' /\
    map conn_id (d_connections d') = map conn_id (d_connections d) ++ [(channel, Some w, false)] /\
    fo_channels (d_focus d') = fo_channels (d_focus d)) d).
  apply leads_bind. unfold leads at 1, modify at 1. set (d1 := set_byFd _ _). assert (guarded (Some w) d1) as G1.
  { intros c conn Hc Hn. cbn in Hc |- *. apply lookup_app_Some in Hc as [Hc|[Hlen Hc]]; [by destruct (Hd c conn Hc)|].
    apply list_lookup_singleton_Some in Hc as [Hi <-]. cbn in *. split; [done|]. rewrite find_insert_eq. f_equal. lia. }
  apply leads_tame; [tamed; intros d'; apply settles_world; intros fd _; apply (looper_sends_nothing (channel_fd channel) fd)|].
  intros _ d' S. split; [destruct (settles_guards (Some w) d1 d' G1 S); by split|].
  split; [|split; [rewrite (se_conns _ _ S); cbn; by rewrite map_app|by rewrite (se_channels _ _ S)]].
  exists (length (d_connections d)). rewrite (se_byFd _ _ S), (se_conns _ _ S). cbn. rewrite find_insert_eq. split; [done|].
  rewrite map_app. cbn. rewrite lookup_app_r by (by rewrite length_map). by rewrite length_map, Nat.sub_diag.
Qed.

(** After the focus is left, no connection works: none is guarded by no window. *)
Lemma unregister_deserts w d channel :
  guarded w d -> channel_at w d = Some channel ->
  leads (unregisterInputChannel channel) (fun _ d' => guarded None d' /\ guards w d d' /\ same_ids d d') d.
Proof.
  intros G Hch. apply leads_bind. unfold leads at 1. pose proof (discreet_unregisterLocked w channel false d G) as Hg.
  pose proof (unregister_gives_up channel false d) as H. destruct (unregisterInputChannelLocked _ _ _) as [r d1| | |]; try done.
  destruct Hg as [Hg Hi]. assert (guarded None d1) as Hd1.
  { destruct H as [[E ->]|(c & E & He & S)].
    - intros c conn Hc Hn. destruct (G c conn Hc Hn) as [Hch' Hf]. rewrite Hch in Hch'. injection Hch' as ->.
      unfold getConnectionIndexLocked in E. rewrite Hf, Hc, Nat.eqb_refl in E. done.
    - intros c' conn' Hc Hn. destruct (se_normal _ _ S c' conn' Hc Hn) as (conn & Hc0 & Hn0 & _).
      destruct (G c' conn Hc0 Hn0) as [Hch' Hf]. rewrite Hch in Hch'. injection Hch' as ->.
      apply getConnection_found in E. rewrite E in Hf. injection Hf as ->. by destruct (He conn' Hc). }
  apply leads_tame; [tamed|]. intros _ d2 S. split; [|split].
  - by eapply settles_guarded.
  - eapply guards_trans; [exact Hg|]. apply settles_guards; [apply Hg|done].
  - destruct Hi, (settles_ids _ _ S). split; congruence.
Qed.

End TameCode.

(** ** The manager *)

Section Manager.
Context {K : Type} `{W : InputWorld K} `{L : !InputSocketLaws K} `{P : InputDispatcherPolicy K} `{!InputWorldLaws K}.

(** The surface of the window handle, and the name of the session of the application
    handle, at an address. *)
Context (surface_of : nat -> SurfaceTarget) (session_of : nat -> string).

(** [mia::InputWindowHandle] and [mia::InputApplicationHandle]. *)
Definition mir_handles : InputHandles := {|
  window_updateInfo w fresh info := Some (updateInfo (surface_of w) fresh info);
  application_updateInfo a := Some (mkApplicationInfo (session_of a) INT_MAX);
|}.
#[local] Existing Instance mir_handles.

Record Manager : Type := mkFocusManager {
  focused_window_handle : option nat;
  focused_application_handle : option nat;
  mg_dispatcher : Dispatcher K;
}.

Definition dispatcher_lens : lens Manager (Dispatcher K) :=
  Lens mg_dispatcher (fun d m => mkFocusManager (focused_window_handle m) (focused_application_handle m) d).

(** A call of the dispatcher, which takes its lock. *)
Definition locked {A} (f : M (Dispatcher K) A) : M Manager A := zoom dispatcher_lens f.

Definition focus_window_application (w a : option nat) : M Manager unit := modify (fun m => mkFocusManager w a (mg_dispatcher m)).

(** The constructors of the handles, each of which fills in its information. *)
Definition InputApplicationHandle_new (a : nat) (f : Focus) : Focus :=
  with_applications (<[ a := application_updateInfo a ]> (fo_applications f)) (mFocusedApplicationHandle f) f.
Definition InputWindowHandle_new (a w : nat) (f : Focus) : Focus :=
  snd (update_window w (with_handles (<[ w := mkWindowHandle (Some a) None ]> (fo_handles f)) (fo_channels f) f)).

(** What [set_input_focus_to] does, up to each call of the dispatcher: between them
    other threads may take the lock. *)
Inductive FocusAction : Set :=
| leave_focus
| enter_focus (a w : nat)
| register_focused (w : nat)
| set_windows (ws : list nat).

Definition run_action (action : FocusAction) : M Manager unit :=
  match action with
  | leave_focus =>
      w ← gets focused_window_handle ;
      match w with
      | Some w =>
          info ← locked (getInfo w) ;
          locked (unregisterInputChannel (wi_channel info)) ;;
          focus_window_application None None
      | None => mret tt
      end
  | enter_focus a w =>
      locked (modify (fun d => set_focus (InputWindowHandle_new a w (InputApplicationHandle_new a (d_focus d))) d)) ;;
      focus_window_application (Some w) (Some a) ;;
      locked (setFocusedApplication (Some a))
  | register_focused w =>
      info ← locked (getInfo w) ;
      locked (registerInputChannel (wi_channel info) (Some w) false) ;;
      mret tt
  | set_windows ws => locked (setInputWindows ws)
  end.

(** The handles that are made for the session and the surface, if there is one. *)
Definition focus_actions (target : option (nat * nat)) : list FocusAction :=
  leave_focus ::
  match target with
  | Some (a, w) => [enter_focus a w; register_focused w; set_windows [w]]
  | None => [set_windows []]
  end.

Definition set_input_focus_to (target : option (nat * nat)) : M Manager unit := for_each (focus_actions target) run_action.

(** ** The windows are exchanged *)

(** The window in focus keeps its channel, and it alone may be sent to. *)
Record dresses (w : option nat) (d d' : Dispatcher K) : Prop := {
  dr_guarded : guarded w d';
  dr_channel : channel_at w d' = channel_at w d;
  dr_ids : same_ids d d';
  dr_out : forall fd, channel_fd <$> channel_at w d <> Some fd -> outgoing fd (d_world d') = outgoing fd (d_world d);
}.

Lemma dresses_trans w d1 d2 d3 : dresses w d1 d2 -> dresses w d2 d3 -> dresses w d1 d3.
Proof.
  intros [G1 C1 [I1 N1] O1] [G2 C2 [I2 N2] O2]. split; try done; try congruence; [split; congruence|].
  intros fd Hfd. rewrite O2; [by apply O1|by rewrite C1].
Qed.

Lemma settles_dresses w d d' : guarded w d -> settles d d' -> dresses w d d'.
Proof.
  intros G S. destruct (settles_guards w d d' G S). split; try done; [|by apply settles_ids]. by apply channel_at_handles.
Qed.

(** The focus changes, but not the channel. *)
Lemma focus_dresses w f d :
  guarded w d -> (w ≫= fun h => channel_of h f) = channel_at w d -> fo_channels f = fo_channels (d_focus d) ->
  dresses w d (set_focus f d).
Proof. intros G Hc Hn. split; try done. intros c conn Hl Hn'. unfold channel_at. cbn. rewrite Hc. by apply G. Qed.

Lemma update_focus o f :
  (forall w, o = Some w -> exists ch, channel_of w f = Some ch) ->
  exists f1, update_windows (option_list o) f = (option_list o, o, f1) /\ fo_channels f1 = fo_channels f /\
    mFocusedWindowHandle f1 = mFocusedWindowHandle f /\ (o ≫= fun h => channel_of h f1) = (o ≫= fun h => channel_of h f).
Proof.
  intros Ho. destruct o as [w|]; [|by exists f]. destruct (Ho w eq_refl) as [ch Hch]. unfold channel_of in *. cbn.
  unfold update_window. destruct (fo_handles f !! w) as [h|] eqn:Eh; [|done]. cbn in Hch |- *.
  destruct (wh_info h) as [i|] eqn:Ei; [|done]. cbn. rewrite lookup_insert_eq. cbn. eexists. do 3 (split; [done|]).
  cbn. by rewrite lookup_insert_eq.
Qed.

Lemma release_keeps (ws : list nat) old f w :
  w ∈ ws -> let f' := fold_left (fun f x => if bool_decide (x ∈ ws) then f else releaseInfo x f) old f in
  channel_of w f' = channel_of w f.
Proof.
  intros Hw. revert f. induction old as [|x old IH]; intros f; cbn; [done|]. case_bool_decide as Hx; [apply IH|].
  rewrite IH. unfold releaseInfo. destruct (fo_handles f !! x); [|done].
  unfold channel_of. cbn. rewrite lookup_insert_ne; [done|]. by intros ->.
Qed.

Lemma release_fields (ws : list nat) old f :
  let f' := fold_left (fun f x => if bool_decide (x ∈ ws) then f else releaseInfo x f) old f in
  mWindowHandles f' = mWindowHandles f /\ mFocusedWindowHandle f' = mFocusedWindowHandle f /\ fo_channels f' = fo_channels f.
Proof.
  revert f. induction old as [|x old IH]; intros f; cbn; [done|]. case_bool_decide; [apply IH|].
  destruct (IH (releaseInfo x f)) as (-> & -> & ->). unfold releaseInfo. by case_match.
Qed.

(** The dispatcher has the focus that the manager gave it. *)
Definition in_focus (o : option nat) (d : Dispatcher K) : Prop :=
  mWindowHandles (d_focus d) = option_list o /\ mFocusedWindowHandle (d_focus d) = o.

Lemma windows_dressed o d :
  guarded o d -> (forall w, o = Some w -> exists ch, channel_of w (d_focus d) = Some ch) ->
  leads (setInputWindows (option_list o)) (fun _ d' => dresses o d d' /\ in_focus o d') d.
Proof.
  intros G Ho. destruct (update_focus o (d_focus d) Ho) as (f1 & Eu & En & Efo & Ec). unfold setInputWindows.
  apply leads_bind. unfold leads at 1, gets at 1. apply leads_bind. unfold leads at 1, gets at 1. rewrite Eu. cbv zeta.
  set (f2 := with_hover _ (with_windows _ f1)).
  apply leads_bind. unfold leads at 1, modify at 1. assert (dresses o d (set_focus f2 d)) as D1 by (by apply focus_dresses).
  set (d1 := set_focus f2 d) in *. apply leads_bind.
  eapply (leads_mono _ (fun _ d' => dresses o d d' /\ in_focus o d')).
  { case_bool_decide as Ef; [split; [done|]; split; [done|]; cbn; by rewrite Efo|].
    apply leads_bind. eapply (leads_mono _ (fun _ d' => settles d1 d')).
    { case_match; [|apply settles_refl]. apply leads_tame; [apply tame_cancelWindow|done]. }
    intros [] d2 S. unfold leads, modify. pose proof (settles_dresses o d1 d2 (dr_guarded _ _ _ D1) S) as D2. split.
    - eapply dresses_trans; [exact D1|]. eapply dresses_trans; [exact D2|]. apply focus_dresses; [apply D2|done..].
    - split; [|done]. cbn. by rewrite (se_windows _ _ S). }
  intros [] d3 [D3 F3]. apply leads_bind. unfold leads at 1, gets at 1. apply leads_bind.
  apply leads_tame; [apply tame_for_each; intros; apply tame_cancelWindow|]. intros [] d4 S4.
  pose proof (settles_dresses o d3 d4 (dr_guarded _ _ _ D3) S4) as D4. apply leads_bind. unfold leads at 1, modify at 1.
  apply leads_bind. unfold leads at 1, modify at 1. cbn [d_focus set_focus]. set (f5 := with_touch _ (d_focus d4)).
  set (f6 := fold_left _ _ f5). assert (dresses o d4 (set_focus f6 d4)) as D6.
  { destruct (release_fields (option_list o) (mWindowHandles (d_focus d)) f5) as (_ & _ & Hn). apply focus_dresses; [apply D4| |exact Hn].
    destruct o as [w|]; [|done]. apply (release_keeps (option_list (Some w)) _ f5 w). left. }
  apply leads_tame; [apply tame_wake|]. intros [] d7 S7. cbn [set_focus] in S7. split.
  - eapply dresses_trans; [exact D3|]. eapply dresses_trans; [exact D4|]. eapply dresses_trans; [exact D6|].
    apply settles_dresses; [apply D6|exact S7].
  - destruct (release_fields (option_list o) (mWindowHandles (d_focus d)) f5) as (Hw & Hf & _). destruct F3 as [Fw Ff]. split.
    + rewrite (se_windows _ _ S7). cbn. etransitivity; [exact Hw|]. cbn. by rewrite (se_windows _ _ S4).
    + rewrite (se_focused _ _ S7). cbn. etransitivity; [exact Hf|]. cbn. by rewrite (se_focused _ _ S4).
Qed.


(** ** Threads *)

(** Handles that are made are new. *)
Definition fresh_target (target : option (nat * nat)) (m : Manager) : Prop :=
  match target with Some (_, w) => fo_handles (d_focus (mg_dispatcher m)) !! w = None | None => True end.

Definition with_dispatcher (d : Dispatcher K) (m : Manager) : Manager :=
  mkFocusManager (focused_window_handle m) (focused_application_handle m) d.

(** The actions that are left of a focus change, with the manager: the manager goes
    on, or the reader or the dispatcher's thread calls the dispatcher. *)
Inductive focus_step : list FocusAction * Manager -> list FocusAction * Manager -> Prop :=
| step_begin target m : fresh_target target m -> focus_step ([], m) (focus_actions target, m)
| step_action a rest m m' : run_action a m = Ret tt m' -> focus_step (a :: rest, m) (rest, m')
| step_call acts c m d' :
    outside c = true -> admissible (mg_dispatcher m) c -> perform c (mg_dispatcher m) = Ret tt d' ->
    focus_step (acts, m) (acts, with_dispatcher d' m).

Definition InputManager_new (k : K) : Manager := mkFocusManager None None (InputDispatcher_new k ∅ ∅ 0).

Inductive running : list FocusAction * Manager -> Prop :=
| running_new k : running ([], InputManager_new k)
| running_step s s' : running s -> focus_step s s' -> running s'.

(** The socket of the surface in focus. *)
Definition focused_fd (m : Manager) : option Z := (fun w => st_server_input_fd (surface_of w)) <$> focused_window_handle m.

Definition object_of (i : InputChannel * option nat * bool) : nat := channel_object (fst (fst i)).

(** What is known between the actions. *)
Inductive focus_point : list FocusAction -> Manager -> Prop :=
| point_idle m : in_focus (focused_window_handle m) (mg_dispatcher m) -> focus_point [] m
| point_begin target m : fresh_target target m -> focus_point (focus_actions target) m
| point_enter a w m :
    fresh_target (Some (a, w)) m -> focused_window_handle m = None ->
    focus_point [enter_focus a w; register_focused w; set_windows [w]] m
| point_register w m ch :
    focused_window_handle m = Some w -> guarded None (mg_dispatcher m) -> channel_of w (d_focus (mg_dispatcher m)) = Some ch ->
    Forall (fun i => object_of i <> channel_object ch) (map conn_id (d_connections (mg_dispatcher m))) ->
    focus_point [register_focused w; set_windows [w]] m
| point_windows o m : focused_window_handle m = o -> focus_point [set_windows (option_list o)] m.

Record focus_inv (acts : list FocusAction) (m : Manager) : Prop := {
  fi_inv : inv [] (mg_dispatcher m);
  fi_guarded : guarded (focused_window_handle m) (mg_dispatcher m);
  fi_channel : forall w, focused_window_handle m = Some w -> exists ch,
    channel_of w (d_focus (mg_dispatcher m)) = Some ch /\ channel_fd ch = st_server_input_fd (surface_of w) /\
    (channel_object ch < fo_channels (d_focus (mg_dispatcher m)))%nat;
  fi_objects : Forall (fun i => object_of i < fo_channels (d_focus (mg_dispatcher m)))%nat
    (map conn_id (d_connections (mg_dispatcher m)));
  fi_point : focus_point acts m;
}.

Definition says_nothing (m m' : Manager) : Prop :=
  forall fd, focused_fd m <> Some fd -> outgoing fd (d_world (mg_dispatcher m')) = outgoing fd (d_world (mg_dispatcher m)).

Lemma focused_fd_channel acts m :
  focus_inv acts m -> channel_fd <$> channel_at (focused_window_handle m) (mg_dispatcher m) = focused_fd m.
Proof.
  intros I. unfold focused_fd, channel_at. destruct (focused_window_handle m) as [w|] eqn:E; [|done].
  destruct (fi_channel _ _ I w E) as (ch & Hch & Hfd & _). cbn. rewrite Hch. cbn. by rewrite Hfd.
Qed.

(** *** Other threads *)

Lemma point_call acts m d' :
  focus_point acts m -> guards (focused_window_handle m) (mg_dispatcher m) d' -> same_ids (mg_dispatcher m) d' ->
  (guarded None (mg_dispatcher m) -> guarded None d') -> focus_point acts (with_dispatcher d' m).
Proof.
  intros Hp [G Hh Hw Hf _] [Hi _] Hn. destruct Hp as [m [Fw Ff]|target m Ht|a w m Ht E|w m ch E Hg Hch Ho|o m E].
  - apply point_idle. split; cbn; congruence.
  - apply point_begin. unfold fresh_target in *. destruct target as [[a w]|]; [|done]. cbn. by rewrite Hh.
  - apply point_enter; [|done]. cbn in *. by rewrite Hh.
  - eapply (point_register w _ ch); cbn; auto; [|by rewrite Hi]. unfold channel_of in *. by rewrite Hh.
  - by apply point_windows.
Qed.

Lemma call_kept acts c m d' :
  focus_inv acts m -> outside c = true -> inv [] d' -> perform c (mg_dispatcher m) = Ret tt d' ->
  focus_inv acts (with_dispatcher d' m) /\ says_nothing m (with_dispatcher d' m).
Proof.
  intros I Ho I' E. pose proof (discreet_perform (focused_window_handle m) c Ho (mg_dispatcher m) (fi_guarded _ _ I)) as H.
  rewrite E in H. destruct H as [Hg Hi]. split.
  - split; cbn; [done|apply Hg| | |].
    + intros w Ew. destruct (fi_channel _ _ I w Ew) as (ch & Hch & Hfd). exists ch. rewrite (proj2 Hi). split; [|done].
      unfold channel_of in *. by rewrite (gd_handles _ _ _ Hg).
    + destruct Hi as [-> ->]. apply I.
    + apply point_call; try done; [apply I|]. intros Hn.
      pose proof (discreet_perform None c Ho (mg_dispatcher m) Hn) as H. rewrite E in H. apply H.
  - intros fd Hfd. apply Hg. by rewrite (focused_fd_channel acts m I).
Qed.

(** *** The manager's actions *)

Context `{!NoFallbackKeys K}.

Lemma sound_leads {A} (f : M (Dispatcher K) A) d Q :
  sound [] f d -> leads f Q d -> exists a d', f d = Ret a d' /\ inv [] d' /\ Q a d'.
Proof.
  intros Hs HQ. destruct (returns_some _ _ _ Hs) as (a & d' & E & I). unfold leads in HQ. rewrite E in HQ. eauto.
Qed.

Lemma locked_Ret {A} (f : M (Dispatcher K) A) m a d' : f (mg_dispatcher m) = Ret a d' -> locked f m = Ret a (with_dispatcher d' m).
Proof. intros E. unfold locked, zoom. cbn. by rewrite E. Qed.

Lemma getInfo_channel w ch m :
  channel_of w (d_focus (mg_dispatcher m)) = Some ch -> exists i, locked (getInfo w) m = Ret i m /\ wi_channel i = ch.
Proof.
  unfold channel_of. intros Hc. apply fmap_Some in Hc as (i & Hi & ->). exists i. split; [|done]. unfold locked, zoom, getInfo, deref.
  cbn. rewrite Hi. by destruct m.
Qed.

(** What an action has to do. *)
Definition action_done (a : FocusAction) (rest : list FocusAction) (m : Manager) : Prop :=
  exists m', run_action a m = Ret tt m' /\ focus_inv rest m' /\ says_nothing m m'.

Lemma leave_done rest m : focus_inv (leave_focus :: rest) m -> action_done leave_focus rest m.
Proof.
  intros I. assert (exists target, rest = tail (focus_actions target) /\ fresh_target target m) as (target & -> & Ht).
  { pose proof (fi_point _ _ I) as Hp. inversion Hp; subst. by exists target. }
  assert (forall m', focused_window_handle m' = None -> fresh_target target m' -> focus_point (tail (focus_actions target)) m') as Hpoint.
  { intros m' E Hf. destruct target as [[a w]|]; cbn; [by apply point_enter|by apply (point_windows None)]. }
  unfold action_done. cbn [run_action]. unfold mbind at 1, M_bind at 1, gets at 1.
  destruct (focused_window_handle m) as [w|] eqn:Ew.
  - destruct (fi_channel _ _ I w Ew) as (ch & Hch & _). destruct (getInfo_channel w ch m Hch) as (i & Ei & <-).
    unfold mbind at 1, M_bind at 1. rewrite Ei. pose proof (fi_guarded _ _ I) as G. rewrite Ew in G.
    destruct (sound_leads (unregisterInputChannel (wi_channel i)) (mg_dispatcher m) _ (unregister_sound _ _ (fi_inv _ _ I))
      (unregister_deserts (Some w) _ _ G Hch)) as (st & d' & E & I' & Hn & Hg & Hi).
    unfold mbind at 1, M_bind at 1. rewrite (locked_Ret _ _ _ _ E). eexists. split; [reflexivity|]. split.
    + split; cbn; try done. { destruct Hi as [-> ->]. apply I. }
      apply Hpoint; [done|]. unfold fresh_target in *. destruct target as [[a x]|]; [|done]. cbn. by rewrite (gd_handles _ _ _ Hg).
    + intros fd Hfd. apply Hg. pose proof (focused_fd_channel _ _ I) as Ef. rewrite Ew in Ef. by rewrite Ef.
  - exists m. split; [done|]. split; [|done]. destruct I. split; try done. by apply Hpoint.
Qed.

(** The handles that are made. *)
Lemma handles_made a w (f : Focus) :
  let f' := InputWindowHandle_new a w (InputApplicationHandle_new a f) in
  channel_of w f' = Some (mkChannel (fo_channels f) (st_server_input_fd (surface_of w))) /\ fo_channels f' = S (fo_channels f).
Proof.
  unfold InputWindowHandle_new, update_window, channel_of. cbn. rewrite lookup_insert_eq. cbn. by rewrite lookup_insert_eq.
Qed.

Lemma handles_inv a w (d : Dispatcher K) :
  inv [] d -> fo_handles (d_focus d) !! w = None ->
  inv [] (set_focus (InputWindowHandle_new a w (InputApplicationHandle_new a (d_focus d))) d).
Proof.
  intros [Hok [Hi Hfo Hh Ht]] Hw. split; [by apply ok_set_focus|]. unfold InputWindowHandle_new.
  set (f1 := with_handles _ _ _). assert (forall x, has_info (d_focus d) x -> has_info f1 x) as Hx.
  { intros x [i Hx]. exists i. unfold f1. cbn. rewrite lookup_insert_ne; [done|]. intros <-. by rewrite Hw in Hx. }
  assert (forall x, has_info (d_focus d) x -> has_info (snd (update_window w f1)) x) as Hx'
    by (intros; by apply update_window_info, Hx).
  unfold update_window in *. cbn in *. rewrite lookup_insert_eq in *. cbn in *. split; try done; cbn.
  eapply Forall_impl; [exact Hi|]. intros x Hxi. by apply Hx'.
Qed.

Lemma enter_done a w rest m : focus_inv (enter_focus a w :: rest) m -> action_done (enter_focus a w) rest m.
Proof.
  intros I. assert (rest = [register_focused w; set_windows [w]] /\ fresh_target (Some (a, w)) m /\ focused_window_handle m = None)
    as (-> & Ht & Ew) by (pose proof (fi_point _ _ I) as Hp; by inversion Hp).
  pose proof (fi_guarded _ _ I) as G. rewrite Ew in G. cbn in Ht.
  unfold action_done. cbn [run_action]. set (d := mg_dispatcher m) in *.
  set (d1 := set_focus (InputWindowHandle_new a w (InputApplicationHandle_new a (d_focus d))) d).
  assert (inv [] d1) as I1 by (by apply handles_inv; [apply I|]).
  assert (guarded None d1) as G1 by (intros c conn Hc Hn; by destruct (G c conn Hc Hn)).
  destruct (sound_leads (setFocusedApplication (Some a)) d1 (fun _ d' => settles d1 d') (focusedApplication_sound _ _ I1))
    as ([] & d' & E & I' & S); [by apply leads_tame; [apply tame_setApplication|]|].
  destruct (handles_made a w (d_focus d)) as [Hch Hn].
  assert (channel_of w (d_focus d') = Some (mkChannel (fo_channels (d_focus d)) (st_server_input_fd (surface_of w)))) as Hch'.
  { rewrite <- Hch. unfold channel_of. by rewrite (se_handles _ _ S). }
  assert (guarded None d') as G' by (by eapply settles_guarded).
  exists (mkFocusManager (Some w) (Some a) d'). split; [|split].
  - unfold mbind, M_bind, locked, zoom, focus_window_application, modify. cbn. fold d. fold d1. by rewrite E.
  - split; cbn; [done| | | |].
    + intros c conn Hc Hn'. by destruct (G' c conn Hc Hn').
    + intros x [= <-]. eexists. split; [exact Hch'|]. split; [done|]. rewrite (se_channels _ _ S). cbn. rewrite Hn. lia.
    + rewrite (se_conns _ _ S), (se_channels _ _ S). cbn. rewrite Hn. eapply Forall_impl; [exact (fi_objects _ _ I)|]. intros i Hi. cbn in Hi. fold d in Hi. lia.
    + eapply point_register; [done|done|exact Hch'|]. cbn. rewrite (se_conns _ _ S). cbn.
      eapply Forall_impl; [exact (fi_objects _ _ I)|]. intros i Hi. cbn in Hi |- *. fold d in Hi. lia.
  - intros fd _. cbn. rewrite (se_out _ _ S); [done|]. by eapply (guarded_silent None).
Qed.

Lemma register_done w rest m :
  focus_inv (register_focused w :: rest) m ->
  exists m', run_action (register_focused w) m = Ret tt m' /\ focus_inv rest m' /\ says_nothing m m' /\
    focused_window_handle m' = Some w /\
    exists channel, channel_fd channel = st_server_input_fd (surface_of w) /\ registered channel w (mg_dispatcher m').
Proof.
  intros I. assert (rest = [set_windows [w]] /\ focused_window_handle m = Some w /\ guarded None (mg_dispatcher m) /\
    exists ch, channel_of w (d_focus (mg_dispatcher m)) = Some ch /\
      Forall (fun i => object_of i <> channel_object ch) (map conn_id (d_connections (mg_dispatcher m)))) as (-> & Ew & Hn & ch & Hch & Ho).
  { pose proof (fi_point _ _ I) as Hp. inversion Hp; subst. do 3 (split; [done|]). by eexists. }
  destruct (fi_channel _ _ I w Ew) as (ch' & Hch' & Hfd & Hlt). rewrite Hch in Hch'. injection Hch' as <-.
  destruct (getInfo_channel w ch m Hch) as (i & Ei & <-). cbn [run_action]. unfold mbind at 1, M_bind at 1. rewrite Ei.
  destruct (sound_leads (registerInputChannel (wi_channel i) (Some w) false) (mg_dispatcher m) _
    (register_sound _ _ _ _ (fi_inv _ _ I)) (register_takes w _ _ Hn Hch (proj1 (Forall_fmap _ _ _) Ho)))
    as (st & d' & E & I' & Hg & Hr & Hids & Hnum).
  unfold mbind at 1, M_bind at 1. rewrite (locked_Ret _ _ _ _ E). eexists. split; [reflexivity|]. split; [|split; [|split]]; cbn.
  - split; cbn; rewrite ?Ew; [done|apply Hg| | |by apply (point_windows (Some w))].
    + intros x [= <-]. exists (wi_channel i). rewrite Hnum. split; [|done]. unfold channel_of in *. by rewrite (gd_handles _ _ _ Hg).
    + rewrite Hids, Hnum. apply Forall_app. split; [apply I|]. by constructor.
  - intros fd Hne. apply Hg. rewrite <- Ew. by rewrite (focused_fd_channel _ _ I).
  - done.
  - by exists (wi_channel i).
Qed.

Lemma windows_done ws rest m : focus_inv (set_windows ws :: rest) m -> action_done (set_windows ws) rest m.
Proof.
  intros I. assert (rest = [] /\ ws = option_list (focused_window_handle m)) as [-> ->].
  { pose proof (fi_point _ _ I) as Hp. inversion Hp; by subst. }
  assert (forall w, focused_window_handle m = Some w -> exists ch, channel_of w (d_focus (mg_dispatcher m)) = Some ch) as Hch.
  { intros w Ew. destruct (fi_channel _ _ I w Ew) as (ch & Hch & _). by exists ch. }
  destruct (sound_leads (setInputWindows (option_list (focused_window_handle m))) (mg_dispatcher m) _
    (setInputWindows_sound _ _ (fi_inv _ _ I)) (windows_dressed (focused_window_handle m) _ (fi_guarded _ _ I) Hch))
    as ([] & d' & E & I' & D & F).
  eexists. split; [exact (locked_Ret _ _ _ _ E)|]. split.
  - split; cbn; [done|apply D| | |by apply point_idle].
    + intros w Ew. destruct (fi_channel _ _ I w Ew) as (ch & Hc' & Hfd). exists ch. rewrite (proj2 (dr_ids _ _ _ D)). split; [|done].
      pose proof (dr_channel _ _ _ D) as Hc. rewrite Ew in Hc. cbn in Hc. by rewrite Hc.
    + destruct (dr_ids _ _ _ D) as [-> ->]. apply I.
  - intros fd Hfd. apply D. by rewrite (focused_fd_channel _ _ I).
Qed.

Lemma focus_action_done a rest m : focus_inv (a :: rest) m -> action_done a rest m.
Proof.
  intros I. destruct a; [by apply leave_done|by apply enter_done| |by apply windows_done].
  destruct (register_done w rest m I) as (m' & E & I' & H & _). by exists m'.
Qed.

Lemma new_focus_inv k : focus_inv [] (InputManager_new k).
Proof. split; cbn; try done; [apply new_inv|by apply point_idle]. Qed.

Lemma step_kept s s' : focus_step s s' -> focus_inv (fst s) (snd s) -> focus_inv (fst s') (snd s') /\ says_nothing (snd s) (snd s').
Proof.
  intros H I. destruct H as [target m Ht|a rest m m' E|acts c m d' Ho Ha E]; cbn in *.
  - split; [|done]. destruct I. split; try done. by apply point_begin.
  - destruct (focus_action_done a rest m I) as (m1 & E1 & I1 & H1). rewrite E in E1. by injection E1 as <-.
  - eapply call_kept; [exact I|exact Ho| |exact E]. pose proof (perform_sound c _ (fi_inv _ _ I) Ha) as H.
    unfold sound, returns in H. by rewrite E in H.
Qed.

Lemma running_inv s : running s -> focus_inv (fst s) (snd s).
Proof. induction 1 as [k|s s' _ IH H]; [apply new_focus_inv|]. by apply (step_kept s s' H). Qed.

(** A focus change that nothing interrupts, and calls in a row, are runs. *)
Lemma running_actions acts m m' : running (acts, m) -> for_each acts run_action m = Ret tt m' -> running ([], m').
Proof.
  revert m. induction acts as [|a acts IH]; intros m Hr E; [by injection E as <-|]. cbn [for_each] in E.
  unfold mbind, M_bind in E. destruct (run_action a m) as [[] m1| | |] eqn:E1; try done. apply (IH m1); [|done].
  eapply running_step; [exact Hr|by constructor].
Qed.

Lemma running_focus target m m' :
  running ([], m) -> fresh_target target m -> set_input_focus_to target m = Ret tt m' -> running ([], m').
Proof. intros Hr Ht E. eapply (running_actions (focus_actions target) m); [|exact E]. eapply running_step; [exact Hr|by constructor]. Qed.

Lemma running_calls l acts m d' :
  (forall d, Forall (admissible d) l) -> forallb outside l = true -> running (acts, m) ->
  perform_all l (mg_dispatcher m) = Ret tt d' -> running (acts, with_dispatcher d' m).
Proof.
  revert m. induction l as [|c l IH]; intros m Hl Ho Hr E; cbn in E; [injection E as <-; by destruct m|].
  cbn in Ho. apply andb_true_iff in Ho as [Hc Ho]. destruct (perform c (mg_dispatcher m)) as [[] d1| | |] eqn:E1; try done.
  apply (IH (with_dispatcher d1 m)); [|done| |done].
  - intros d2. by apply (Forall_inv_tail (Hl d2)).
  - eapply running_step; [exact Hr|]. apply (step_call _ c); [done|apply (Forall_inv (Hl _))|done].
Qed.


End Manager.

(** ** A small world *)

#[local] Instance focus_world : InputWorld demo_sockets := {|
  world_socket := demo_socket;
  now := fun k => (1000, k);
  looper_addFd := fun _ k => k; looper_removeFd := fun _ k => k; looper_wake := fun k => k;
|}.

#[local] Instance focus_policy : InputDispatcherPolicy demo_sockets := EventFilterDispatcherPolicy (fun _ k => (false, k)).

#[local] Instance focus_world_laws : InputWorldLaws demo_sockets.
Proof.
  split; try done.
  - intros fd fd' msg n k Hne. cbn. by rewrite lookup_insert_ne.
  - intros fd fd' k. cbn. unfold demo_sock_recv. by repeat case_match.
Qed.

(** Two surfaces, an editor and a terminal, with the sockets 20 and 22. *)
Definition demo_surface (w : nat) : SurfaceTarget :=
  mkTarget (if (w =? 0)%nat then "editor" else "terminal") (mkSize (wrap 640) (wrap 480)) (20 + 2 * Z.of_nat w).
Definition demo_session (a : nat) : string := "session".

Definition demo_focus (w : nat) : M (Manager (K := demo_sockets)) unit :=
  set_input_focus_to demo_surface demo_session (Some (w, w)).

Definition demo_typed (scan : Z) : list DispatcherCall :=
  [call_setInputDispatchMode true false; call_notifyKey 900 1 257 0 AKEY_EVENT_ACTION_DOWN 0 30 scan 0 900;
   call_dispatchOnce; call_dispatchOnce].

#[local] Instance demo_mir_handles : InputHandles := mir_handles demo_surface demo_session.


(** A key that is down when the focus changes: the editor was sent its press, and is
    never sent a release, for its channel is gone when [setInputWindows] makes one. *)
Definition demo_focus_change : M (Manager (K := demo_sockets)) unit :=
  demo_focus 0 ;;
  locked (fun d => perform_all (demo_typed 30) d) ;;
  demo_focus 1 ;;
  locked (fun d => perform_all [call_dispatchOnce; call_dispatchOnce] d).

Lemma focus_change_leaves_key_down :
  match demo_focus_change (InputManager_new (mkSockets ∅ ∅)) with
  | Ret _ m =>
      map (fun msg => match msg with TYPE_KEY k => Some (km_action k) | _ => None end) (outgoing 20 (d_world (mg_dispatcher m))) =
      [Some AKEY_EVENT_ACTION_DOWN]
  | _ => False
  end.
Proof. by vm_compute. Qed.
