(* ===== verification/ReaderData.v ===== *)
(** * The input reader: its data

    [3rd_party/android-input/android/frameworks/base/services/input]: raw events,
    what the reader tells its listener ([InputListener.cpp]), modifier keys
    ([Keyboard.cpp]), the accumulators of cursor devices and the mappers of
    [InputReader.cpp], and the acceleration of pointers ([VelocityControl.cpp]).
    [InputReader] has the operations. *)

From Stdlib Require Import SpecFloat.
From S2P Require Import Prelude Geometry Input AndroidEvents InputTransport InputState Dispatcher DispatchTargets DispatchLoop.

(** ** Constants *)

Definition EV_SYN : Z := 0.
Definition EV_KEY : Z := 1.
Definition EV_REL : Z := 2.
Definition EV_MSC : Z := 4.
Definition EV_SW : Z := 5.
Definition SYN_REPORT : Z := 0.
Definition SYN_DROPPED : Z := 3.
Definition MSC_SCAN : Z := 4.
Definition REL_X : Z := 0.
Definition REL_Y : Z := 1.
Definition REL_HWHEEL : Z := 6.
Definition REL_WHEEL : Z := 8.
Definition BTN_MISC : Z := 256.
Definition BTN_MOUSE : Z := 272.
Definition BTN_LEFT : Z := 272.
Definition BTN_RIGHT : Z := 273.
Definition BTN_MIDDLE : Z := 274.
Definition BTN_SIDE : Z := 275.
Definition BTN_EXTRA : Z := 276.
Definition BTN_FORWARD : Z := 277.
Definition BTN_BACK : Z := 278.
Definition BTN_TASK : Z := 279.
Definition BTN_JOYSTICK : Z := 288.
Definition BTN_DIGI : Z := 320.
Definition KEY_OK : Z := 352.
Definition LED_NUML : Z := 0.
Definition LED_CAPSL : Z := 1.
Definition LED_SCROLLL : Z := 2.

Definition DEVICE_ADDED : Z := 268435456.
Definition DEVICE_REMOVED : Z := 536870912.
Definition FINISHED_DEVICE_SCAN : Z := 805306368.
Definition FIRST_SYNTHETIC_EVENT : Z := DEVICE_ADDED.

Definition INPUT_DEVICE_CLASS_KEYBOARD : Z := 1.
Definition INPUT_DEVICE_CLASS_ALPHAKEY : Z := 2.
Definition INPUT_DEVICE_CLASS_TOUCH : Z := 4.
Definition INPUT_DEVICE_CLASS_CURSOR : Z := 8.
Definition INPUT_DEVICE_CLASS_TOUCH_MT : Z := 16.
Definition INPUT_DEVICE_CLASS_DPAD : Z := 32.
Definition INPUT_DEVICE_CLASS_GAMEPAD : Z := 64.
Definition INPUT_DEVICE_CLASS_SWITCH : Z := 128.
Definition INPUT_DEVICE_CLASS_JOYSTICK : Z := 256.
Definition INPUT_DEVICE_CLASS_VIBRATOR : Z := 512.
Definition INPUT_DEVICE_CLASS_VIRTUAL : Z := 1073741824.
Definition INPUT_DEVICE_CLASS_EXTERNAL : Z := 2147483648.

Definition AKEY_STATE_UNKNOWN : Z := -1.
Definition AKEY_STATE_UP : Z := 0.
Definition AKEY_STATE_DOWN : Z := 1.

Definition AKEYCODE_BACK : Z := 4.
Definition AKEYCODE_DPAD_UP : Z := 19.
Definition AKEYCODE_DPAD_DOWN : Z := 20.
Definition AKEYCODE_DPAD_LEFT : Z := 21.
Definition AKEYCODE_DPAD_RIGHT : Z := 22.
Definition AKEYCODE_ALT_LEFT : Z := 57.
Definition AKEYCODE_ALT_RIGHT : Z := 58.
Definition AKEYCODE_SHIFT_LEFT : Z := 59.
Definition AKEYCODE_SHIFT_RIGHT : Z := 60.
Definition AKEYCODE_SYM : Z := 63.
Definition AKEYCODE_CTRL_LEFT : Z := 113.
Definition AKEYCODE_CTRL_RIGHT : Z := 114.
Definition AKEYCODE_CAPS_LOCK : Z := 115.
Definition AKEYCODE_SCROLL_LOCK : Z := 116.
Definition AKEYCODE_META_LEFT : Z := 117.
Definition AKEYCODE_META_RIGHT : Z := 118.
Definition AKEYCODE_FUNCTION : Z := 119.
Definition AKEYCODE_FORWARD : Z := 125.
Definition AKEYCODE_NUM_LOCK : Z := 143.

Definition AMETA_SYM_ON : Z := 4.
Definition AMETA_SHIFT_RIGHT_ON : Z := 128.
Definition AMETA_CTRL_ON : Z := 4096.
Definition AMETA_CTRL_LEFT_ON : Z := 8192.
Definition AMETA_CTRL_RIGHT_ON : Z := 16384.
Definition AMETA_META_ON : Z := 65536.
Definition AMETA_META_LEFT_ON : Z := 131072.
Definition AMETA_META_RIGHT_ON : Z := 262144.
Definition AMETA_NUM_LOCK_ON : Z := 2097152.
Definition AMETA_SCROLL_LOCK_ON : Z := 4194304.

Definition AKEY_EVENT_FLAG_FROM_SYSTEM : Z := 8.
Definition POLICY_FLAG_WAKE : Z := 1.
Definition POLICY_FLAG_WAKE_DROPPED : Z := 2.

Definition AINPUT_SOURCE_CLASS_MASK : Z := 255.
Definition AINPUT_SOURCE_KEYBOARD : Z := 257.
Definition AINPUT_SOURCE_DPAD : Z := 513.
Definition AINPUT_SOURCE_GAMEPAD : Z := 1025.
Definition AINPUT_SOURCE_MOUSE : Z := 8194.
Definition AINPUT_SOURCE_TRACKBALL : Z := 65540.
Definition AINPUT_SOURCE_SWITCH : Z := 2147483648.
Definition AINPUT_KEYBOARD_TYPE_NON_ALPHABETIC : Z := 1.
Definition AINPUT_KEYBOARD_TYPE_ALPHABETIC : Z := 2.

Definition AMOTION_EVENT_BUTTON_PRIMARY : Z := 1.
Definition AMOTION_EVENT_BUTTON_SECONDARY : Z := 2.
Definition AMOTION_EVENT_BUTTON_TERTIARY : Z := 4.
Definition AMOTION_EVENT_BUTTON_BACK : Z := 8.
Definition AMOTION_EVENT_BUTTON_FORWARD : Z := 16.
Definition AMOTION_EVENT_TOOL_TYPE_MOUSE : Z := 3.
Definition AMOTION_EVENT_AXIS_PRESSURE : Z := 2.
Definition AMOTION_EVENT_AXIS_VSCROLL : Z := 9.
Definition AMOTION_EVENT_AXIS_HSCROLL : Z := 10.
Definition AMOTION_EVENT_EDGE_FLAG_NONE : Z := 0.

Definition CHANGE_POINTER_SPEED : Z := 1.
Definition CHANGE_DISPLAY_INFO : Z := 4.
Definition CHANGE_KEYBOARD_LAYOUTS : Z := 16.
Definition CHANGE_DEVICE_ALIAS : Z := 32.
Definition CHANGE_MUST_REOPEN : Z := 2147483648.

Definition DISPLAY_ORIENTATION_0 : Z := 0.
Definition DISPLAY_ORIENTATION_90 : Z := 1.
Definition DISPLAY_ORIENTATION_180 : Z := 2.
Definition DISPLAY_ORIENTATION_270 : Z := 3.

(** ** Events *)

Record RawEvent : Set := mkRaw { re_when : Z; re_deviceId : Z; re_type : Z; re_code : Z; re_value : Z }.

(** The arguments of [InputListenerInterface]. *)
Inductive NotifyArgs : Set :=
| NotifyConfigurationChangedArgs (eventTime : Z)
| NotifyKeyArgs (eventTime policyFlags : Z) (k : KeyEntry)
| NotifyMotionArgs (eventTime policyFlags : Z) (m : MotionEntry)
| NotifySwitchArgs (eventTime policyFlags switchCode switchValue : Z)
| NotifyDeviceResetArgs (eventTime deviceId : Z).

Definition is_report (e : RawEvent) : bool := (re_type e =? EV_SYN) && (re_code e =? SYN_REPORT).

(** ** Modifier keys *)

Definition setEphemeralMetaState (mask : Z) (down : bool) (oldMetaState : Z) : Z :=
  let m := if down then Z.lor oldMetaState mask
           else Z.ldiff oldMetaState (Z.lor (Z.lor (Z.lor (Z.lor mask AMETA_ALT_ON) AMETA_SHIFT_ON) AMETA_CTRL_ON) AMETA_META_ON) in
  let m := when (has m (Z.lor AMETA_ALT_LEFT_ON AMETA_ALT_RIGHT_ON)) AMETA_ALT_ON m in
  let m := when (has m (Z.lor AMETA_SHIFT_LEFT_ON AMETA_SHIFT_RIGHT_ON)) AMETA_SHIFT_ON m in
  let m := when (has m (Z.lor AMETA_CTRL_LEFT_ON AMETA_CTRL_RIGHT_ON)) AMETA_CTRL_ON m in
  when (has m (Z.lor AMETA_META_LEFT_ON AMETA_META_RIGHT_ON)) AMETA_META_ON m.

Definition toggleLockedMetaState (mask : Z) (down : bool) (oldMetaState : Z) : Z :=
  if down then oldMetaState else Z.lxor oldMetaState mask.

(** The bit of a modifier that is on while its key is held. *)
Definition ephemeral_mask (keyCode : Z) : option Z :=
  if keyCode =? AKEYCODE_ALT_LEFT then Some AMETA_ALT_LEFT_ON
  else if keyCode =? AKEYCODE_ALT_RIGHT then Some AMETA_ALT_RIGHT_ON
  else if keyCode =? AKEYCODE_SHIFT_LEFT then Some AMETA_SHIFT_LEFT_ON
  else if keyCode =? AKEYCODE_SHIFT_RIGHT then Some AMETA_SHIFT_RIGHT_ON
  else if keyCode =? AKEYCODE_SYM then Some AMETA_SYM_ON
  else if keyCode =? AKEYCODE_FUNCTION then Some AMETA_FUNCTION_ON
  else if keyCode =? AKEYCODE_CTRL_LEFT then Some AMETA_CTRL_LEFT_ON
  else if keyCode =? AKEYCODE_CTRL_RIGHT then Some AMETA_CTRL_RIGHT_ON
  else if keyCode =? AKEYCODE_META_LEFT then Some AMETA_META_LEFT_ON
  else if keyCode =? AKEYCODE_META_RIGHT then Some AMETA_META_RIGHT_ON
  else None.

(** The bit of a lock that its key toggles. *)
Definition locked_mask (keyCode : Z) : option Z :=
  if keyCode =? AKEYCODE_CAPS_LOCK then Some AMETA_CAPS_LOCK_ON
  else if keyCode =? AKEYCODE_NUM_LOCK then Some AMETA_NUM_LOCK_ON
  else if keyCode =? AKEYCODE_SCROLL_LOCK then Some AMETA_SCROLL_LOCK_ON
  else None.

Definition updateMetaState (keyCode : Z) (down : bool) (oldMetaState : Z) : Z :=
  match ephemeral_mask keyCode, locked_mask keyCode with
  | Some mask, _ => setEphemeralMetaState mask down oldMetaState
  | None, Some mask => toggleLockedMetaState mask down oldMetaState
  | None, None => oldMetaState
  end.

Definition isMetaKey (keyCode : Z) : bool :=
  match ephemeral_mask keyCode, locked_mask keyCode with None, None => false | _, _ => true end.

(** ** Rotation *)

Definition keyCodeRotationMap : list (list Z) :=
  [[AKEYCODE_DPAD_DOWN; AKEYCODE_DPAD_RIGHT; AKEYCODE_DPAD_UP; AKEYCODE_DPAD_LEFT];
   [AKEYCODE_DPAD_RIGHT; AKEYCODE_DPAD_UP; AKEYCODE_DPAD_LEFT; AKEYCODE_DPAD_DOWN];
   [AKEYCODE_DPAD_UP; AKEYCODE_DPAD_LEFT; AKEYCODE_DPAD_DOWN; AKEYCODE_DPAD_RIGHT];
   [AKEYCODE_DPAD_LEFT; AKEYCODE_DPAD_DOWN; AKEYCODE_DPAD_RIGHT; AKEYCODE_DPAD_UP]].

(** An orientation that is none of the four reads past the row. *)
Definition rotateKeyCode (keyCode orientation : Z) : option Z :=
  if orientation =? DISPLAY_ORIENTATION_0 then Some keyCode
  else
    match List.find (fun row => bool_decide (row !! 0%nat = Some keyCode)) keyCodeRotationMap with
    | Some row => if orientation <? 0 then None else row !! Z.to_nat orientation
    | None => Some keyCode
    end.

Definition rotateDelta (orientation : Z) (d : float * float) : float * float :=
  let '(deltaX, deltaY) := d in
  if orientation =? DISPLAY_ORIENTATION_90 then (deltaY, SFopp deltaX)
  else if orientation =? DISPLAY_ORIENTATION_180 then (SFopp deltaX, SFopp deltaY)
  else if orientation =? DISPLAY_ORIENTATION_270 then (SFopp deltaY, deltaX)
  else d.

Definition sourcesMatchMask (sources sourceMask : Z) : bool :=
  negb (Z.ldiff (Z.land sources sourceMask) AINPUT_SOURCE_CLASS_MASK =? 0).

Definition isPointerDown (buttonState : Z) : bool :=
  has buttonState (Z.lor (Z.lor AMOTION_EVENT_BUTTON_PRIMARY AMOTION_EVENT_BUTTON_SECONDARY) AMOTION_EVENT_BUTTON_TERTIARY).

(** ** Cursor devices *)

Record CursorButtonAccumulator : Set := mkButtons {
  mBtnLeft : bool; mBtnRight : bool; mBtnMiddle : bool; mBtnBack : bool; mBtnSide : bool; mBtnForward : bool;
  mBtnExtra : bool; mBtnTask : bool;
}.

Definition clearButtons : CursorButtonAccumulator := mkButtons false false false false false false false false.

(** The buttons, from those that are pressed now. *)
Definition buttons_reset (isKeyPressed : Z -> bool) : CursorButtonAccumulator :=
  mkButtons (isKeyPressed BTN_LEFT) (isKeyPressed BTN_RIGHT) (isKeyPressed BTN_MIDDLE) (isKeyPressed BTN_BACK)
    (isKeyPressed BTN_SIDE) (isKeyPressed BTN_FORWARD) (isKeyPressed BTN_EXTRA) (isKeyPressed BTN_TASK).

Definition buttons_process (e : RawEvent) (b : CursorButtonAccumulator) : CursorButtonAccumulator :=
  if negb (re_type e =? EV_KEY) then b
  else
    let v := negb (re_value e =? 0) in
    let key code := re_code e =? code in
    mkButtons (if key BTN_LEFT then v else mBtnLeft b) (if key BTN_RIGHT then v else mBtnRight b)
      (if key BTN_MIDDLE then v else mBtnMiddle b) (if key BTN_BACK then v else mBtnBack b)
      (if key BTN_SIDE then v else mBtnSide b) (if key BTN_FORWARD then v else mBtnForward b)
      (if key BTN_EXTRA then v else mBtnExtra b) (if key BTN_TASK then v else mBtnTask b).

Definition buttons_getButtonState (b : CursorButtonAccumulator) : Z :=
  let r := 0 in
  let r := when (mBtnLeft b) AMOTION_EVENT_BUTTON_PRIMARY r in
  let r := when (mBtnRight b) AMOTION_EVENT_BUTTON_SECONDARY r in
  let r := when (mBtnMiddle b) AMOTION_EVENT_BUTTON_TERTIARY r in
  let r := when (mBtnBack b || mBtnSide b) AMOTION_EVENT_BUTTON_BACK r in
  when (mBtnForward b || mBtnExtra b) AMOTION_EVENT_BUTTON_FORWARD r.

Record CursorMotionAccumulator : Set := mkMotionAcc { mRelX : Z; mRelY : Z }.

Definition motion_clear : CursorMotionAccumulator := mkMotionAcc 0 0.

Definition motion_process (e : RawEvent) (a : CursorMotionAccumulator) : CursorMotionAccumulator :=
  if negb (re_type e =? EV_REL) then a
  else if re_code e =? REL_X then mkMotionAcc (re_value e) (mRelY a)
  else if re_code e =? REL_Y then mkMotionAcc (mRelX a) (re_value e)
  else a.

Record CursorScrollAccumulator : Set := mkScrollAcc {
  mHaveRelWheel : bool; mHaveRelHWheel : bool; mRelWheel : Z; mRelHWheel : Z;
}.

Definition scroll_clear (a : CursorScrollAccumulator) : CursorScrollAccumulator :=
  mkScrollAcc (mHaveRelWheel a) (mHaveRelHWheel a) 0 0.

Definition scroll_process (e : RawEvent) (a : CursorScrollAccumulator) : CursorScrollAccumulator :=
  if negb (re_type e =? EV_REL) then a
  else if re_code e =? REL_WHEEL then mkScrollAcc (mHaveRelWheel a) (mHaveRelHWheel a) (re_value e) (mRelHWheel a)
  else if re_code e =? REL_HWHEEL then mkScrollAcc (mHaveRelWheel a) (mHaveRelHWheel a) (mRelWheel a) (re_value e)
  else a.

(** ** Acceleration *)

Record VelocityControlParameters : Set := mkVelocity {
  vp_scale : float; vp_lowThreshold : float; vp_highThreshold : float; vp_acceleration : float;
}.

(** The tracker of a [VelocityControl] has the movements since it was cleared. *)
Record VelocityControl : Set := mkVelocityControl {
  vc_parameters : VelocityControlParameters;
  vc_lastMovementTime : Z;
  vc_rawX : float;
  vc_rawY : float;
  vc_movements : list (Z * float * float);
}.

Definition STOP_TIME : Z := 500000000.

(** [VelocityTracker::getVelocity] for the movements it was given, and [hypotf]. *)
Class VelocityTracker : Type := {
  getVelocity : list (Z * float * float) -> option (float * float);
  hypotf : float -> float -> float;
}.

Definition float_sub : float -> float -> float := SFsub 24 128.
Definition float_div : float -> float -> float := SFdiv 24 128.

Definition velocity_reset (v : VelocityControl) : VelocityControl :=
  mkVelocityControl (vc_parameters v) LONG_LONG_MIN zero zero [].

Definition setParameters (p : VelocityControlParameters) (v : VelocityControl) : VelocityControl :=
  velocity_reset (mkVelocityControl p (vc_lastMovementTime v) (vc_rawX v) (vc_rawY v) (vc_movements v)).

(** A float as a condition. *)
Definition nonzero (x : float) : bool := negb (SFeqb x zero).

Section Velocity.
Context `{VelocityTracker}.

Definition velocity_scale (v : VelocityControl) : float :=
  let p := vc_parameters v in
  let scale := vp_scale p in
  match getVelocity (vc_movements v) with
  | None => scale
  | Some (vx, vy) =>
      let speed := float_mul (hypotf vx vy) scale in
      if SFleb (vp_highThreshold p) speed then float_mul scale (vp_acceleration p)
      else if SFltb (vp_lowThreshold p) speed then
        float_mul scale (float_add one
          (float_mul (float_div (float_sub speed (vp_lowThreshold p)) (float_sub (vp_highThreshold p) (vp_lowThreshold p)))
             (float_sub (vp_acceleration p) one)))
      else scale
  end.

(** The deltas that are given are scaled; [None] is a null pointer. *)
Definition velocity_move (eventTime : Z) (deltaX deltaY : option float) (v : VelocityControl)
    : option float * option float * VelocityControl :=
  let given d := match d with Some x => nonzero x | None => false end in
  if given deltaX || given deltaY then
    let v := if vc_lastMovementTime v + STOP_TIME <=? eventTime then velocity_reset v else v in
    let x := match deltaX with Some d => float_add (vc_rawX v) d | None => vc_rawX v end in
    let y := match deltaY with Some d => float_add (vc_rawY v) d | None => vc_rawY v end in
    let v := mkVelocityControl (vc_parameters v) eventTime x y (vc_movements v ++ [(eventTime, x, y)]) in
    let scale := velocity_scale v in
    ((fun d => float_mul d scale) <$> deltaX, (fun d => float_mul d scale) <$> deltaY, v)
  else (deltaX, deltaY, v).

End Velocity.

Definition VelocityControl_new : VelocityControl :=
  mkVelocityControl (mkVelocity one zero zero one) LONG_LONG_MIN zero zero [].

(** ** Configuration *)

Record DisplayInfo : Set := mkDisplayInfo { di_width : Z; di_height : Z; di_orientation : Z }.

(** The parts of [InputReaderConfiguration] that these mappers read. *)
Record InputReaderConfiguration : Set := mkReaderConfig {
  excludedDeviceNames : list string;
  pointerVelocityControlParameters : VelocityControlParameters;
  wheelVelocityControlParameters : VelocityControlParameters;
  mInternalDisplay : DisplayInfo;
  mExternalDisplay : DisplayInfo;
}.

Definition InputReaderConfiguration_new : InputReaderConfiguration :=
  mkReaderConfig [] (mkVelocity one (float_of_Z 500) (float_of_Z 3000) (float_of_Z 3))
    (mkVelocity one (float_of_Z 15) (float_of_Z 50) (float_of_Z 4))
    (mkDisplayInfo (-1) (-1) DISPLAY_ORIENTATION_0) (mkDisplayInfo (-1) (-1) DISPLAY_ORIENTATION_0).

Definition getDisplayInfo (displayId : Z) (external : bool) (c : InputReaderConfiguration) : option DisplayInfo :=
  if displayId =? 0 then
    let info := if external then mExternalDisplay c else mInternalDisplay c in
    if (0 <? di_width info) && (0 <? di_height info) then Some info else None
  else None.

Definition setDisplayInfo (displayId : Z) (external : bool) (width height orientation : Z) (c : InputReaderConfiguration)
    : InputReaderConfiguration :=
  if displayId =? 0 then
    let info := mkDisplayInfo width height orientation in
    mkReaderConfig (excludedDeviceNames c) (pointerVelocityControlParameters c) (wheelVelocityControlParameters c)
      (if external then mInternalDisplay c else info) (if external then info else mExternalDisplay c)
  else c.

(** A device's configuration file. *)
Record PropertyMap : Type := mkProperties_map {
  prop_string : string -> option string;
  prop_bool : string -> option bool;
}.

(** ** Mappers *)

Record KeyDown : Set := mkKeyDown { kd_keyCode : Z; kd_scanCode : Z }.
Record LedState : Set := mkLed { led_avail : bool; led_on : bool }.

Record KeyboardInputMapper : Set := mkKeyboard {
  kb_source : Z;
  kb_keyboardType : Z;
  kb_orientation : Z;
  mKeyDowns : list KeyDown;
  kb_metaState : Z;
  kb_downTime : Z;
  mCurrentHidUsage : Z;
  mCapsLockLedState : LedState;
  mNumLockLedState : LedState;
  mScrollLockLedState : LedState;
  kb_associatedDisplayId : Z;
  kb_orientationAware : bool;
}.

Inductive cursor_mode : Set := MODE_POINTER | MODE_NAVIGATION.

Record CursorInputMapper : Set := mkCursor {
  cu_mode : cursor_mode;
  cu_associatedDisplayId : Z;
  cu_orientationAware : bool;
  mCursorButtonAccumulator : CursorButtonAccumulator;
  mCursorMotionAccumulator : CursorMotionAccumulator;
  mCursorScrollAccumulator : CursorScrollAccumulator;
  cu_source : Z;
  cu_xScale : float;
  cu_yScale : float;
  cu_xPrecision : float;
  cu_yPrecision : float;
  mPointerVelocityControl : VelocityControl;
  mWheelXVelocityControl : VelocityControl;
  mWheelYVelocityControl : VelocityControl;
  cu_orientation : Z;
  (** Whether [mPointerController] is set: there is one, of the policy. *)
  mPointerController : bool;
  cu_buttonState : Z;
  cu_downTime : Z;
}.

Record VibratorInputMapper : Set := mkVibrator {
  mVibrating : bool;
  mPattern : list Z;
  mRepeat : Z;
  mToken : Z;
  mIndex : Z;
  mNextStepTime : Z;
}.

(** The mappers of a device, [O] for those of touch screens and joysticks. *)
Inductive InputMapper (O : Type) : Type :=
| Switch_mapper
| Vibrator_mapper (v : VibratorInputMapper)
| Keyboard_mapper (k : KeyboardInputMapper)
| Cursor_mapper (c : CursorInputMapper)
| Other_mapper (o : O).
Arguments Switch_mapper {O}.
Arguments Vibrator_mapper {O}.
Arguments Keyboard_mapper {O}.
Arguments Cursor_mapper {O}.
Arguments Other_mapper {O}.

Record InputDevice (O : Type) : Type := mkDevice {
  dv_id : Z;
  dv_generation : Z;
  dv_alias : string;
  dv_classes : Z;
  mMappers : list (InputMapper O);
  dv_sources : Z;
  dv_isExternal : bool;
  mDropUntilNextSync : bool;
  dv_configuration : PropertyMap;
}.
Arguments mkDevice {O}.
Arguments dv_id {O}.
Arguments dv_generation {O}.
Arguments dv_alias {O}.
Arguments dv_classes {O}.
Arguments mMappers {O}.
Arguments dv_sources {O}.
Arguments dv_isExternal {O}.
Arguments mDropUntilNextSync {O}.
Arguments dv_configuration {O}.

Definition isIgnored {O} (d : InputDevice O) : bool := bool_decide (length (mMappers d) = 0%nat).

(** ** The reader *)

(** What mappers reach through their context, but for the other devices: the queue
    of the listener, the reader's counters and times, the pointer controller of
    the policy, and the world. *)
Record ReaderContext (K : Type) : Type := mkContext {
  mArgsQueue : list NotifyArgs;
  mGlobalMetaState : Z;
  mGeneration : Z;
  mDisableVirtualKeysTimeout : Z;
  mNextTimeout : Z;
  rc_pointer : pointer;
  rc_world : K;
}.
Arguments mkContext {K}.
Arguments mArgsQueue {K}.
Arguments mGlobalMetaState {K}.
Arguments mGeneration {K}.
Arguments mDisableVirtualKeysTimeout {K}.
Arguments mNextTimeout {K}.
Arguments rc_pointer {K}.
Arguments rc_world {K}.

(** The devices that there are, by their identifiers; [mDevices] has those that
    have been added. *)
Record InputReader (K O : Type) : Type := mkReader {
  rd_objects : gmap Z (InputDevice O);
  mDevices : list (Z * unit);
  mConfig : InputReaderConfiguration;
  mConfigurationChangesToRefresh : Z;
  rd_context : ReaderContext K;
}.
Arguments mkReader {K O}.
Arguments rd_objects {K O}.
Arguments mDevices {K O}.
Arguments mConfig {K O}.
Arguments mConfigurationChangesToRefresh {K O}.
Arguments rd_context {K O}.

(** *** Assignments *)

Definition rc_set_queue {K} (q : list NotifyArgs) (c : ReaderContext K) : ReaderContext K :=
  mkContext q (mGlobalMetaState c) (mGeneration c) (mDisableVirtualKeysTimeout c) (mNextTimeout c) (rc_pointer c) (rc_world c).
Definition rc_set_meta {K} (m : Z) (c : ReaderContext K) : ReaderContext K :=
  mkContext (mArgsQueue c) m (mGeneration c) (mDisableVirtualKeysTimeout c) (mNextTimeout c) (rc_pointer c) (rc_world c).
Definition rc_set_generation {K} (n : Z) (c : ReaderContext K) : ReaderContext K :=
  mkContext (mArgsQueue c) (mGlobalMetaState c) n (mDisableVirtualKeysTimeout c) (mNextTimeout c) (rc_pointer c) (rc_world c).
Definition rc_set_timeout {K} (t : Z) (c : ReaderContext K) : ReaderContext K :=
  mkContext (mArgsQueue c) (mGlobalMetaState c) (mGeneration c) (mDisableVirtualKeysTimeout c) t (rc_pointer c) (rc_world c).
Definition rc_set_pointer {K} (p : pointer) (c : ReaderContext K) : ReaderContext K :=
  mkContext (mArgsQueue c) (mGlobalMetaState c) (mGeneration c) (mDisableVirtualKeysTimeout c) (mNextTimeout c) p (rc_world c).
Definition rc_set_world {K} (k : K) (c : ReaderContext K) : ReaderContext K :=
  mkContext (mArgsQueue c) (mGlobalMetaState c) (mGeneration c) (mDisableVirtualKeysTimeout c) (mNextTimeout c) (rc_pointer c) k.

Definition set_objects {K O} (m : gmap Z (InputDevice O)) (r : InputReader K O) : InputReader K O :=
  mkReader m (mDevices r) (mConfig r) (mConfigurationChangesToRefresh r) (rd_context r).
Definition set_devices {K O} (l : list (Z * unit)) (r : InputReader K O) : InputReader K O :=
  mkReader (rd_objects r) l (mConfig r) (mConfigurationChangesToRefresh r) (rd_context r).
Definition set_config {K O} (c : InputReaderConfiguration) (r : InputReader K O) : InputReader K O :=
  mkReader (rd_objects r) (mDevices r) c (mConfigurationChangesToRefresh r) (rd_context r).
Definition set_changes {K O} (n : Z) (r : InputReader K O) : InputReader K O :=
  mkReader (rd_objects r) (mDevices r) (mConfig r) n (rd_context r).
Definition set_context {K O} (c : ReaderContext K) (r : InputReader K O) : InputReader K O :=
  mkReader (rd_objects r) (mDevices r) (mConfig r) (mConfigurationChangesToRefresh r) c.

(** ** What the reader calls *)

(** [EventHubInterface], with the clock; [getEvents] returns at most as many events as
    the reader's buffer has. *)
Class EventHub (K : Type) : Type := {
  hub_getDeviceClasses : Z -> K -> Z;
  hub_getConfiguration : Z -> K -> PropertyMap;
  hub_hasRelativeAxis : Z -> Z -> K -> bool;
  (** The key code and the flags, if there is a mapping. *)
  hub_mapKey : Z -> Z -> Z -> K -> option (Z * Z);
  hub_getScanCodeState : Z -> Z -> K -> Z;
  hub_getKeyCodeState : Z -> Z -> K -> Z;
  hub_getSwitchState : Z -> Z -> K -> Z;
  hub_hasLed : Z -> Z -> K -> bool;
  hub_setLedState : Z -> Z -> bool -> K -> K;
  hub_setKeyboardLayoutOverlay : Z -> K -> bool * K;
  hub_setExcludedDevices : list string -> K -> K;
  hub_vibrate : Z -> Z -> K -> K;
  hub_cancelVibrate : Z -> K -> K;
  hub_requestReopenDevices : K -> K;
  hub_wake : K -> K;
  hub_getEvents : Z -> K -> list RawEvent * K;
  systemTime : K -> Z * K;
}.

(** [InputReaderPolicyInterface], with whether it has a pointer controller for a
    device. *)
Class ReaderPolicy (K : Type) : Type := {
  getReaderConfiguration : K -> InputReaderConfiguration -> InputReaderConfiguration;
  obtainPointerController : Z -> bool;
  getDeviceAlias : Z -> K -> string;
  (** The identifier, generation, alias and sources of each device. *)
  notifyInputDevicesChanged : list (Z * Z * string * Z) -> K -> K;
}.

(** The inner listener of the queue. *)
Class InputListener (K : Type) : Type := { listener_notify : NotifyArgs -> K -> K }.

(** The mappers of touch screens and joysticks, on their own state and the context. *)
Inductive other_kind : Set := SingleTouch | MultiTouch | Joystick.
Class OtherMappers (K O : Type) : Type := {
  other_new : Z -> other_kind -> O;
  other_getSources : O -> Z;
  other_configure : Z -> InputReaderConfiguration -> Z -> O -> ReaderContext K -> O * ReaderContext K;
  other_reset : Z -> O -> ReaderContext K -> O * ReaderContext K;
  other_process : RawEvent -> O -> ReaderContext K -> O * ReaderContext K;
  other_timeoutExpired : Z -> O -> ReaderContext K -> O * ReaderContext K;
  other_getState : Z -> Z -> O -> K -> Z;
}.
