(* ===== verification/ReaderLoop.v ===== *)
(** * The input reader: its operations

    [InputReader], [InputDevice] and the mappers of keyboards, mice, switches and
    vibrators ([InputReader.cpp] in
    [3rd_party/android-input/android/frameworks/base/services/input]), with the
    queue between the reader and its listener ([InputListener.cpp]).

    A mapper is known by its device and its position there.  The reader's lock is
    taken by each public function; what other threads do is interleaved between
    them.  The texts of [dump] and of logs are left out. *)

From Stdlib Require Import SpecFloat.
From S2P Require Import Prelude Geometry Input AndroidEvents InputTransport InputState Dispatcher DispatchTargets DispatchLoop.
From S2P Require Import ReaderData.

(** [InputReaderPolicy]: one screen, not turned, and one pointer controller for all
    devices.  A screen too wide for an [int] has no width that is determined. *)
Definition getReaderConfiguration_mir (area : Rectangle) (c : InputReaderConfiguration) : InputReaderConfiguration :=
  let side n := default 0 (int_of_float (float_of_Z n)) in
  setDisplayInfo 0 false (side (as_uint32_t (size_width (rect_size area)))) (side (as_uint32_t (size_height (rect_size area))))
    DISPLAY_ORIENTATION_0 c.

#[export] Instance mir_policy (area : Rectangle) (K : Type) : ReaderPolicy K := {
  getReaderConfiguration _ c := getReaderConfiguration_mir area c;
  obtainPointerController _ := true;
  getDeviceAlias _ _ := "";
  notifyInputDevicesChanged _ k := k;
}.

Section Reader.
Context {K O : Type} `{EventHub K} `{ReaderPolicy K} `{InputListener K} `{OtherMappers K O} `{VelocityTracker}.

(** The area of the screen and whether there is a cursor listener, for the pointer
    controller. *)
Context (area : Rectangle) (has_listener : bool).

Abbreviation R := (M (InputReader K O)).

Definition context_do (f : ReaderContext K -> ReaderContext K) : R unit := modify (fun r => set_context (f (rd_context r)) r).

Definition hub_do (f : K -> K) : R unit := context_do (fun c => rc_set_world (f (rc_world c)) c).

Definition hub_ask {A} (f : K -> A) : R A := gets (fun r => f (rc_world (rd_context r))).

Definition hub_call {A} (f : K -> A * K) : R A := fun r =>
  let '(a, k) := f (rc_world (rd_context r)) in Ret a (set_context (rc_set_world k (rd_context r)) r).

Definition current_time : R Z := hub_call systemTime.

(** [getListener()->notify...]: the arguments are copied into the queue. *)
Definition notify (args : NotifyArgs) : R unit := context_do (fun c => rc_set_queue (mArgsQueue c ++ [args]) c).

(** ** Objects *)

Definition device (id : Z) : R (InputDevice O) := deref (fun r => rd_objects r !! id).

Definition put_device (id : Z) (d : InputDevice O) : R unit := modify (fun r => set_objects (<[ id := d ]> (rd_objects r)) r).

Definition with_mappers (l : list (InputMapper O)) (d : InputDevice O) : InputDevice O :=
  mkDevice (dv_id d) (dv_generation d) (dv_alias d) (dv_classes d) l (dv_sources d) (dv_isExternal d) (mDropUntilNextSync d)
    (dv_configuration d).
Definition with_drop (b : bool) (d : InputDevice O) : InputDevice O :=
  mkDevice (dv_id d) (dv_generation d) (dv_alias d) (dv_classes d) (mMappers d) (dv_sources d) (dv_isExternal d) b
    (dv_configuration d).
Definition with_sources (s : Z) (d : InputDevice O) : InputDevice O :=
  mkDevice (dv_id d) (dv_generation d) (dv_alias d) (dv_classes d) (mMappers d) s (dv_isExternal d) (mDropUntilNextSync d)
    (dv_configuration d).
Definition with_generation (n : Z) (d : InputDevice O) : InputDevice O :=
  mkDevice (dv_id d) n (dv_alias d) (dv_classes d) (mMappers d) (dv_sources d) (dv_isExternal d) (mDropUntilNextSync d)
    (dv_configuration d).
Definition with_alias (a : string) (d : InputDevice O) : InputDevice O :=
  mkDevice (dv_id d) (dv_generation d) a (dv_classes d) (mMappers d) (dv_sources d) (dv_isExternal d) (mDropUntilNextSync d)
    (dv_configuration d).
Definition with_configuration (c : PropertyMap) (d : InputDevice O) : InputDevice O :=
  mkDevice (dv_id d) (dv_generation d) (dv_alias d) (dv_classes d) (mMappers d) (dv_sources d) (dv_isExternal d)
    (mDropUntilNextSync d) c.

Definition mapper (id : Z) (i : nat) : R (InputMapper O) :=
  deref (fun r => d ← rd_objects r !! id ; mMappers d !! i).

Definition put_mapper (id : Z) (i : nat) (m : InputMapper O) : R unit :=
  d ← device id ; put_device id (with_mappers (<[ i := m ]> (mMappers d)) d).

Definition keyboard (id : Z) (i : nat) : R KeyboardInputMapper :=
  deref (fun r => d ← rd_objects r !! id ; m ← mMappers d !! i ; match m with Keyboard_mapper k => Some k | _ => None end).
Definition put_keyboard (id : Z) (i : nat) (k : KeyboardInputMapper) : R unit := put_mapper id i (Keyboard_mapper k).

Definition cursor (id : Z) (i : nat) : R CursorInputMapper :=
  deref (fun r => d ← rd_objects r !! id ; m ← mMappers d !! i ; match m with Cursor_mapper c => Some c | _ => None end).
Definition put_cursor (id : Z) (i : nat) (c : CursorInputMapper) : R unit := put_mapper id i (Cursor_mapper c).

Definition vibrator (id : Z) (i : nat) : R VibratorInputMapper :=
  deref (fun r => d ← rd_objects r !! id ; m ← mMappers d !! i ; match m with Vibrator_mapper v => Some v | _ => None end).
Definition put_vibrator (id : Z) (i : nat) (v : VibratorInputMapper) : R unit := put_mapper id i (Vibrator_mapper v).

(** The positions of a device's mappers. *)
Definition positions (id : Z) : R (list nat) := d ← device id ; mret (seq 0 (length (mMappers d))).

(** The identifiers in [mDevices]. *)
Definition device_ids : R (list Z) := gets (fun r => OrdMap.keys (mDevices r)).

(** ** The context *)

Definition mapper_getMetaState (m : InputMapper O) : Z := match m with Keyboard_mapper k => kb_metaState k | _ => 0 end.

Definition device_getMetaState (d : InputDevice O) : Z := fold_left (fun r m => Z.lor r (mapper_getMetaState m)) (mMappers d) 0.

Definition updateGlobalMetaStateLocked : R unit :=
  context_do (rc_set_meta 0) ;;
  ids ← device_ids ;
  for_each ids (fun id =>
    d ← device id ; context_do (fun c => rc_set_meta (Z.lor (mGlobalMetaState c) (device_getMetaState d)) c)).

Definition getGlobalMetaStateLocked : R Z := gets (fun r => mGlobalMetaState (rd_context r)).

Definition shouldDropVirtualKeyLocked (now : Z) : R bool := gets (fun r => now <? mDisableVirtualKeysTimeout (rd_context r)).

(** [DummyPointerController]: nothing to be seen of a pointer that fades. *)
Definition fade (p : pointer) : pointer := p.
Definition unfade (p : pointer) : pointer := p.
Definition setPresentation (p : pointer) : pointer := p.

Definition pointer_do (f : pointer -> pointer) : R unit := context_do (fun c => rc_set_pointer (f (rc_pointer c)) c).

Definition mapper_fadePointer (m : InputMapper O) : R unit :=
  match m with Cursor_mapper c => if mPointerController c then pointer_do fade else mret tt | _ => mret tt end.

Definition device_fadePointer (id : Z) : R unit :=
  ps ← positions id ; for_each ps (fun i => m ← mapper id i ; mapper_fadePointer m).

Definition fadePointerLocked : R unit := ids ← device_ids ; for_each ids device_fadePointer.

Definition requestTimeoutAtTimeLocked (when : Z) : R unit :=
  next ← gets (fun r => mNextTimeout (rd_context r)) ;
  if when <? next then context_do (rc_set_timeout when) ;; hub_do hub_wake else mret tt.

Definition bumpGenerationLocked : R Z :=
  context_do (fun c => rc_set_generation (mGeneration c + 1) c) ;; gets (fun r => mGeneration (rd_context r)).

Definition device_bumpGeneration (id : Z) : R unit :=
  n ← bumpGenerationLocked ; d ← device id ; put_device id (with_generation n d).

(** ** Keyboards *)

Definition kb_set_keys (l : list KeyDown) (k : KeyboardInputMapper) : KeyboardInputMapper :=
  mkKeyboard (kb_source k) (kb_keyboardType k) (kb_orientation k) l (kb_metaState k) (kb_downTime k) (mCurrentHidUsage k)
    (mCapsLockLedState k) (mNumLockLedState k) (mScrollLockLedState k) (kb_associatedDisplayId k) (kb_orientationAware k).
Definition kb_set_meta (m : Z) (k : KeyboardInputMapper) : KeyboardInputMapper :=
  mkKeyboard (kb_source k) (kb_keyboardType k) (kb_orientation k) (mKeyDowns k) m (kb_downTime k) (mCurrentHidUsage k)
    (mCapsLockLedState k) (mNumLockLedState k) (mScrollLockLedState k) (kb_associatedDisplayId k) (kb_orientationAware k).
Definition kb_set_downTime (t : Z) (k : KeyboardInputMapper) : KeyboardInputMapper :=
  mkKeyboard (kb_source k) (kb_keyboardType k) (kb_orientation k) (mKeyDowns k) (kb_metaState k) t (mCurrentHidUsage k)
    (mCapsLockLedState k) (mNumLockLedState k) (mScrollLockLedState k) (kb_associatedDisplayId k) (kb_orientationAware k).
Definition kb_set_hidUsage (u : Z) (k : KeyboardInputMapper) : KeyboardInputMapper :=
  mkKeyboard (kb_source k) (kb_keyboardType k) (kb_orientation k) (mKeyDowns k) (kb_metaState k) (kb_downTime k) u
    (mCapsLockLedState k) (mNumLockLedState k) (mScrollLockLedState k) (kb_associatedDisplayId k) (kb_orientationAware k).
Definition kb_set_leds (caps num scroll : LedState) (k : KeyboardInputMapper) : KeyboardInputMapper :=
  mkKeyboard (kb_source k) (kb_keyboardType k) (kb_orientation k) (mKeyDowns k) (kb_metaState k) (kb_downTime k)
    (mCurrentHidUsage k) caps num scroll (kb_associatedDisplayId k) (kb_orientationAware k).
Definition kb_set_orientation (o : Z) (k : KeyboardInputMapper) : KeyboardInputMapper :=
  mkKeyboard (kb_source k) (kb_keyboardType k) o (mKeyDowns k) (kb_metaState k) (kb_downTime k) (mCurrentHidUsage k)
    (mCapsLockLedState k) (mNumLockLedState k) (mScrollLockLedState k) (kb_associatedDisplayId k) (kb_orientationAware k).
Definition kb_set_parameters (display : Z) (aware : bool) (k : KeyboardInputMapper) : KeyboardInputMapper :=
  mkKeyboard (kb_source k) (kb_keyboardType k) (kb_orientation k) (mKeyDowns k) (kb_metaState k) (kb_downTime k)
    (mCurrentHidUsage k) (mCapsLockLedState k) (mNumLockLedState k) (mScrollLockLedState k) display aware.

(** The members that [reset] sets are set before they are read. *)
Definition KeyboardInputMapper_new (source keyboardType : Z) : KeyboardInputMapper :=
  mkKeyboard source keyboardType 0 [] 0 0 0 (mkLed false false) (mkLed false false) (mkLed false false) 0 false.

Definition updateLedStateForModifier (id : Z) (metaState : Z) (led modifier : Z) (reset : bool) (s : LedState) : R LedState :=
  if led_avail s then
    let desiredState := has metaState modifier in
    if reset || negb (Bool.eqb (led_on s) desiredState) then
      hub_do (hub_setLedState id led desiredState) ;; mret (mkLed (led_avail s) desiredState)
    else mret s
  else mret s.

Definition updateLedState (id : Z) (i : nat) (reset : bool) : R unit :=
  k ← keyboard id i ;
  caps ← updateLedStateForModifier id (kb_metaState k) LED_CAPSL AMETA_CAPS_LOCK_ON reset (mCapsLockLedState k) ;
  num ← updateLedStateForModifier id (kb_metaState k) LED_NUML AMETA_NUM_LOCK_ON reset (mNumLockLedState k) ;
  scroll ← updateLedStateForModifier id (kb_metaState k) LED_SCROLLL AMETA_SCROLL_LOCK_ON reset (mScrollLockLedState k) ;
  k ← keyboard id i ;
  put_keyboard id i (kb_set_leds caps num scroll k).

Definition initializeLedState (id led : Z) : R LedState := avail ← hub_ask (hub_hasLed id led) ; mret (mkLed avail false).

Definition resetLedState (id : Z) (i : nat) : R unit :=
  caps ← initializeLedState id LED_CAPSL ;
  num ← initializeLedState id LED_NUML ;
  scroll ← initializeLedState id LED_SCROLLL ;
  k ← keyboard id i ;
  put_keyboard id i (kb_set_leds caps num scroll k) ;;
  updateLedState id i true.

Definition keyboard_reset (id : Z) (i : nat) : R unit :=
  k ← keyboard id i ;
  put_keyboard id i (kb_set_hidUsage 0 (kb_set_keys [] (kb_set_downTime 0 (kb_set_meta 0 k)))) ;;
  resetLedState id i.

Definition orientation_from (aware : bool) (displayId : Z) (config : InputReaderConfiguration) : Z :=
  if aware && (0 <=? displayId) then
    match getDisplayInfo displayId false config with Some info => di_orientation info | None => DISPLAY_ORIENTATION_0 end
  else DISPLAY_ORIENTATION_0.

(** Only for what has changed; zero is the first time. *)
Definition changed (changes mask : Z) : bool := (changes =? 0) || has changes mask.

Definition keyboard_configure (id : Z) (i : nat) (config : InputReaderConfiguration) (changes : Z) : R unit :=
  d ← device id ;
  k ← keyboard id i ;
  let k :=
    if changes =? 0 then
      let aware := default false (prop_bool (dv_configuration d) "keyboard.orientationAware") in
      kb_set_parameters (if aware then 0 else -1) aware k
    else k in
  let k :=
    if changed changes CHANGE_DISPLAY_INFO
    then kb_set_orientation (orientation_from (kb_orientationAware k) (kb_associatedDisplayId k) config) k else k in
  put_keyboard id i k.

Definition isKeyboardOrGamepadKey (scanCode : Z) : bool :=
  (scanCode <? BTN_MOUSE) || (KEY_OK <=? scanCode) || ((BTN_MISC <=? scanCode) && (scanCode <? BTN_MOUSE)) ||
  ((BTN_JOYSTICK <=? scanCode) && (scanCode <? BTN_DIGI)).

Definition findKeyDown (scanCode : Z) (k : KeyboardInputMapper) : option (nat * KeyDown) :=
  list_find (fun kd => kd_scanCode kd = scanCode) (mKeyDowns k).

(** The key code that the key goes by, unless the event is dropped; the keys that
    are down. *)
Definition key_down_or_up (id : Z) (i : nat) (when : Z) (down : bool) (keyCode scanCode policyFlags : Z) : R (option Z) :=
  k ← keyboard id i ;
  if down then
    keyCode ← (if kb_orientationAware k && (0 <=? kb_associatedDisplayId k)
               then deref (fun _ => rotateKeyCode keyCode (kb_orientation k)) else mret keyCode : R Z) ;
    match findKeyDown scanCode k with
    | Some (_, kd) => put_keyboard id i (kb_set_downTime when k) ;; mret (Some (kd_keyCode kd))
    | None =>
        drop ← (if has policyFlags POLICY_FLAG_VIRTUAL then shouldDropVirtualKeyLocked when else mret false : R bool) ;
        if (drop : bool) then mret None
        else
          put_keyboard id i (kb_set_downTime when (kb_set_keys (mKeyDowns k ++ [mkKeyDown keyCode scanCode]) k)) ;;
          mret (Some keyCode)
    end
  else
    match findKeyDown scanCode k with
    | Some (n, kd) => put_keyboard id i (kb_set_keys (delete n (mKeyDowns k)) k) ;; mret (Some (kd_keyCode kd))
    | None => mret None
    end.

Definition processKey (id : Z) (i : nat) (t : Z) (down : bool) (keyCode scanCode policyFlags : Z) : R unit :=
  code ← key_down_or_up id i t down keyCode scanCode policyFlags ;
  match code with
  | None => mret tt
  | Some keyCode =>
      k ← keyboard id i ;
      let oldMetaState := kb_metaState k in
      let newMetaState := updateMetaState keyCode down oldMetaState in
      let metaStateChanged := negb (oldMetaState =? newMetaState) in
      (if metaStateChanged then put_keyboard id i (kb_set_meta newMetaState k) ;; updateLedState id i false else mret tt) ;;
      k ← keyboard id i ;
      d ← device id ;
      let policyFlags :=
        when (down && dv_isExternal d && negb (has policyFlags (Z.lor POLICY_FLAG_WAKE POLICY_FLAG_WAKE_DROPPED)))
          POLICY_FLAG_WAKE_DROPPED policyFlags in
      (if metaStateChanged then updateGlobalMetaStateLocked else mret tt) ;;
      (if down && negb (isMetaKey keyCode) then fadePointerLocked else mret tt) ;;
      notify (NotifyKeyArgs t policyFlags
        (KeyEntry_new id (kb_source k) (if down then AKEY_EVENT_ACTION_DOWN else AKEY_EVENT_ACTION_UP)
           AKEY_EVENT_FLAG_FROM_SYSTEM keyCode scanCode newMetaState 0 (kb_downTime k)))
  end.

Definition keyboard_process (id : Z) (i : nat) (e : RawEvent) : R unit :=
  if re_type e =? EV_KEY then
    let scanCode := re_code e in
    k ← keyboard id i ;
    let usageCode := mCurrentHidUsage k in
    put_keyboard id i (kb_set_hidUsage 0 k) ;;
    if isKeyboardOrGamepadKey scanCode then
      mapped ← hub_ask (hub_mapKey id scanCode usageCode) ;
      let '(keyCode, flags) := match mapped with Some m => m | None => (AKEYCODE_UNKNOWN, 0) end in
      processKey id i (re_when e) (negb (re_value e =? 0)) keyCode scanCode flags
    else mret tt
  else if re_type e =? EV_MSC then
    if re_code e =? MSC_SCAN then k ← keyboard id i ; put_keyboard id i (kb_set_hidUsage (re_value e) k) else mret tt
  else if is_report e then k ← keyboard id i ; put_keyboard id i (kb_set_hidUsage 0 k)
  else mret tt.

(** ** Mice and trackballs *)

Definition six : float := float_of_Z 6.

Definition CursorInputMapper_new : CursorInputMapper :=
  mkCursor MODE_POINTER 0 false clearButtons motion_clear (mkScrollAcc false false 0 0) 0 zero zero zero zero
    VelocityControl_new VelocityControl_new VelocityControl_new 0 false 0 0.

Definition cu_set_accumulators (b : CursorButtonAccumulator) (m : CursorMotionAccumulator) (s : CursorScrollAccumulator)
    (c : CursorInputMapper) : CursorInputMapper :=
  mkCursor (cu_mode c) (cu_associatedDisplayId c) (cu_orientationAware c) b m s (cu_source c) (cu_xScale c) (cu_yScale c)
    (cu_xPrecision c) (cu_yPrecision c) (mPointerVelocityControl c) (mWheelXVelocityControl c) (mWheelYVelocityControl c)
    (cu_orientation c) (mPointerController c) (cu_buttonState c) (cu_downTime c).
Definition cu_set_velocity (p wx wy : VelocityControl) (c : CursorInputMapper) : CursorInputMapper :=
  mkCursor (cu_mode c) (cu_associatedDisplayId c) (cu_orientationAware c) (mCursorButtonAccumulator c)
    (mCursorMotionAccumulator c) (mCursorScrollAccumulator c) (cu_source c) (cu_xScale c) (cu_yScale c)
    (cu_xPrecision c) (cu_yPrecision c) p wx wy (cu_orientation c) (mPointerController c) (cu_buttonState c) (cu_downTime c).
Definition cu_set_buttons (state downTime : Z) (c : CursorInputMapper) : CursorInputMapper :=
  mkCursor (cu_mode c) (cu_associatedDisplayId c) (cu_orientationAware c) (mCursorButtonAccumulator c)
    (mCursorMotionAccumulator c) (mCursorScrollAccumulator c) (cu_source c) (cu_xScale c) (cu_yScale c)
    (cu_xPrecision c) (cu_yPrecision c) (mPointerVelocityControl c) (mWheelXVelocityControl c) (mWheelYVelocityControl c)
    (cu_orientation c) (mPointerController c) state downTime.
Definition cu_set_orientation (o : Z) (c : CursorInputMapper) : CursorInputMapper :=
  mkCursor (cu_mode c) (cu_associatedDisplayId c) (cu_orientationAware c) (mCursorButtonAccumulator c)
    (mCursorMotionAccumulator c) (mCursorScrollAccumulator c) (cu_source c) (cu_xScale c) (cu_yScale c)
    (cu_xPrecision c) (cu_yPrecision c) (mPointerVelocityControl c) (mWheelXVelocityControl c) (mWheelYVelocityControl c)
    o (mPointerController c) (cu_buttonState c) (cu_downTime c).

Definition cursor_configureParameters (p : PropertyMap) : cursor_mode * Z * bool :=
  let mode := if bool_decide (prop_string p "cursor.mode" = Some "navigation") then MODE_NAVIGATION else MODE_POINTER in
  let aware := default false (prop_bool p "cursor.orientationAware") in
  (mode, match mode with MODE_POINTER => 0 | MODE_NAVIGATION => if aware then 0 else -1 end, aware).

(** The first time: the mode, and what depends on it. *)
Definition cursor_first (p : PropertyMap) (wheel hwheel controller : bool) (c : CursorInputMapper) : CursorInputMapper :=
  let '(mode, display, aware) := cursor_configureParameters p in
  let s := mCursorScrollAccumulator c in
  let '(source, precision, scale, controller) :=
    match mode with
    | MODE_POINTER => (AINPUT_SOURCE_MOUSE, one, one, controller)
    | MODE_NAVIGATION => (AINPUT_SOURCE_TRACKBALL, six, float_div one six, mPointerController c)
    end in
  mkCursor mode display aware (mCursorButtonAccumulator c) (mCursorMotionAccumulator c)
    (mkScrollAcc wheel hwheel (mRelWheel s) (mRelHWheel s)) source scale scale precision precision
    (mPointerVelocityControl c) (mWheelXVelocityControl c) (mWheelYVelocityControl c) (cu_orientation c) controller
    (cu_buttonState c) (cu_downTime c).

Definition cursor_configure (id : Z) (i : nat) (config : InputReaderConfiguration) (changes : Z) : R unit :=
  d ← device id ;
  c ← cursor id i ;
  wheel ← hub_ask (hub_hasRelativeAxis id REL_WHEEL) ;
  hwheel ← hub_ask (hub_hasRelativeAxis id REL_HWHEEL) ;
  let c := if changes =? 0 then cursor_first (dv_configuration d) wheel hwheel (obtainPointerController id) c else c in
  let c :=
    if changed changes CHANGE_POINTER_SPEED then
      cu_set_velocity (setParameters (pointerVelocityControlParameters config) (mPointerVelocityControl c))
        (setParameters (wheelVelocityControlParameters config) (mWheelXVelocityControl c))
        (setParameters (wheelVelocityControlParameters config) (mWheelYVelocityControl c)) c
    else c in
  if changed changes CHANGE_DISPLAY_INFO then
    put_cursor id i (cu_set_orientation (orientation_from (cu_orientationAware c) (cu_associatedDisplayId c) config) c) ;;
    device_bumpGeneration id
  else put_cursor id i c.

Definition isKeyPressed (id : Z) (k : K) (code : Z) : bool := hub_getScanCodeState id code k =? AKEY_STATE_DOWN.

Definition cursor_reset (id : Z) (i : nat) : R unit :=
  c ← cursor id i ;
  k ← hub_ask (fun k => k) ;
  put_cursor id i
    (cu_set_accumulators (buttons_reset (isKeyPressed id k)) motion_clear (scroll_clear (mCursorScrollAccumulator c))
      (cu_set_velocity (velocity_reset (mPointerVelocityControl c)) (velocity_reset (mWheelXVelocityControl c))
         (velocity_reset (mWheelYVelocityControl c))
         (cu_set_buttons 0 0 c))).

(** A button that is also a key: its press before, or its release after, the
    motion. *)
Definition synthesizeButtonKey (action t id source policyFlags lastButtonState currentButtonState buttonState keyCode : Z)
    : R unit :=
  if (action =? AKEY_EVENT_ACTION_DOWN) && negb (has lastButtonState buttonState) && has currentButtonState buttonState
     || (action =? AKEY_EVENT_ACTION_UP) && has lastButtonState buttonState && negb (has currentButtonState buttonState) then
    metaState ← getGlobalMetaStateLocked ;
    notify (NotifyKeyArgs t policyFlags (KeyEntry_new id source action 0 keyCode 0 metaState 0 t))
  else mret tt.

Definition synthesizeButtonKeys (action t id source policyFlags lastButtonState currentButtonState : Z) : R unit :=
  synthesizeButtonKey action t id source policyFlags lastButtonState currentButtonState AMOTION_EVENT_BUTTON_BACK AKEYCODE_BACK ;;
  synthesizeButtonKey action t id source policyFlags lastButtonState currentButtonState AMOTION_EVENT_BUTTON_FORWARD
    AKEYCODE_FORWARD.

(** How far the device was moved and scrolled, in its own orientation. *)
Definition cursor_deltas (c : CursorInputMapper) : float * float :=
  let m := mCursorMotionAccumulator c in
  let d := (float_mul (float_of_Z (mRelX m)) (cu_xScale c), float_mul (float_of_Z (mRelY m)) (cu_yScale c)) in
  if cu_orientationAware c && (0 <=? cu_associatedDisplayId c) && (nonzero (fst d) || nonzero (snd d))
  then rotateDelta (cu_orientation c) d else d.

(** A new pointer's coordinates, with these values on the axes; the array is zeros. *)
Definition coords_with (axes : list (Z * float)) : PointerCoords :=
  fold_left (fun c a => snd (setAxisValue (fst a) (snd a) c)) axes (mkCoords 0 (replicate MAX_AXES zero)).

(** The pointer is moved, and its new position read. *)
Definition move_pointer (moved scrolled buttonsChanged : bool) (deltaX deltaY : float) (buttonState : Z) : R (float * float) :=
  (if moved || scrolled || buttonsChanged then
     pointer_do setPresentation ;;
     (if moved then pointer_do (move area has_listener deltaX deltaY) else mret tt) ;;
     (if buttonsChanged then pointer_do (setButtonState buttonState) else mret tt) ;;
     pointer_do unfade
   else mret tt) ;;
  gets (fun r => getPosition (rc_pointer (rd_context r))).

(** The motions of a [sync]. *)
Definition send_motions (t id source policyFlags action buttonState downTime : Z) (c : CursorInputMapper)
    (scrolled : bool) (coords scrollCoords : PointerCoords) : R unit :=
  metaState ← getGlobalMetaStateLocked ;
  let motion action coords :=
    NotifyMotionArgs t policyFlags (mkMotionEntry id source action 0 metaState buttonState AMOTION_EVENT_EDGE_FLAG_NONE
      (cu_xPrecision c) (cu_yPrecision c) downTime [(mkProperties 0 AMOTION_EVENT_TOOL_TYPE_MOUSE, coords)]) in
  notify (motion action coords) ;;
  (if (action =? AMOTION_EVENT_ACTION_UP) && mPointerController c
   then notify (motion AMOTION_EVENT_ACTION_HOVER_MOVE coords) else mret tt) ;;
  (if scrolled then notify (motion AMOTION_EVENT_ACTION_SCROLL scrollCoords) else mret tt).

Definition sync (id : Z) (i : nat) (t : Z) : R unit :=
  c ← cursor id i ;
  let lastButtonState := cu_buttonState c in
  let currentButtonState := buttons_getButtonState (mCursorButtonAccumulator c) in
  let wasDown := isPointerDown lastButtonState in
  let down := isPointerDown currentButtonState in
  let downTime := if negb wasDown && down then t else cu_downTime c in
  let downChanged := negb (Bool.eqb wasDown down) in
  let buttonsChanged := negb (currentButtonState =? lastButtonState) in
  let buttonsPressed := negb (Z.ldiff currentButtonState lastButtonState =? 0) in
  let m := mCursorMotionAccumulator c in
  let moved := nonzero (float_mul (float_of_Z (mRelX m)) (cu_xScale c)) || nonzero (float_mul (float_of_Z (mRelY m)) (cu_yScale c)) in
  let '(deltaX, deltaY) := cursor_deltas c in
  let vscroll := float_of_Z (mRelWheel (mCursorScrollAccumulator c)) in
  let hscroll := float_of_Z (mRelHWheel (mCursorScrollAccumulator c)) in
  let scrolled := nonzero vscroll || nonzero hscroll in
  let '(_, vscroll', wy) := velocity_move t None (Some vscroll) (mWheelYVelocityControl c) in
  let '(hscroll', _, wx) := velocity_move t (Some hscroll) None (mWheelXVelocityControl c) in
  let '(deltaX', deltaY', pv) := velocity_move t (Some deltaX) (Some deltaY) (mPointerVelocityControl c) in
  let deltaX := default deltaX deltaX' in
  let deltaY := default deltaY deltaY' in
  put_cursor id i (cu_set_velocity pv wx wy (cu_set_buttons currentButtonState downTime c)) ;;
  position ← (if mPointerController c then move_pointer moved scrolled buttonsChanged deltaX deltaY currentButtonState
              else mret (deltaX, deltaY) : R (float * float)) ;
  let axes := [(AMOTION_EVENT_AXIS_X, fst position); (AMOTION_EVENT_AXIS_Y, snd position);
               (AMOTION_EVENT_AXIS_PRESSURE, if down then one else zero)] in
  d ← device id ;
  let policyFlags := when ((buttonsPressed || moved || scrolled) && dv_isExternal d) POLICY_FLAG_WAKE_DROPPED 0 in
  synthesizeButtonKeys AKEY_EVENT_ACTION_DOWN t id (cu_source c) policyFlags lastButtonState currentButtonState ;;
  (if downChanged || moved || scrolled || buttonsChanged then
     let action := if downChanged then if down then AMOTION_EVENT_ACTION_DOWN else AMOTION_EVENT_ACTION_UP
                   else if down || negb (mPointerController c) then AMOTION_EVENT_ACTION_MOVE
                   else AMOTION_EVENT_ACTION_HOVER_MOVE in
     send_motions t id (cu_source c) policyFlags action currentButtonState downTime c scrolled (coords_with axes)
       (coords_with (axes ++ [(AMOTION_EVENT_AXIS_VSCROLL, default vscroll vscroll');
                              (AMOTION_EVENT_AXIS_HSCROLL, default hscroll hscroll')]))
   else mret tt) ;;
  synthesizeButtonKeys AKEY_EVENT_ACTION_UP t id (cu_source c) policyFlags lastButtonState currentButtonState ;;
  c ← cursor id i ;
  put_cursor id i (cu_set_accumulators (mCursorButtonAccumulator c) motion_clear (scroll_clear (mCursorScrollAccumulator c)) c).

Definition cursor_process (id : Z) (i : nat) (e : RawEvent) : R unit :=
  c ← cursor id i ;
  put_cursor id i (cu_set_accumulators (buttons_process e (mCursorButtonAccumulator c))
    (motion_process e (mCursorMotionAccumulator c)) (scroll_process e (mCursorScrollAccumulator c)) c) ;;
  if is_report e then sync id i (re_when e) else mret tt.

(** ** Vibrators *)

Definition MAX_VIBRATE_PATTERN_SIZE : nat := 100.

Definition vb_set_vibrating (b : bool) (v : VibratorInputMapper) : VibratorInputMapper :=
  mkVibrator b (mPattern v) (mRepeat v) (mToken v) (mIndex v) (mNextStepTime v).
Definition vb_set_step (index next : Z) (v : VibratorInputMapper) : VibratorInputMapper :=
  mkVibrator (mVibrating v) (mPattern v) (mRepeat v) (mToken v) index next.

Definition stopVibrating (id : Z) (i : nat) : R unit :=
  v ← vibrator id i ; put_vibrator id i (vb_set_vibrating false v) ;; hub_do (hub_cancelVibrate id).

(** The step that the pattern has next; an index that the pattern does not have
    reads past it. *)
Definition vibrator_nextStep (id : Z) (i : nat) : R unit :=
  v ← vibrator id i ;
  let index := mIndex v + 1 in
  let over := Z.of_nat (length (mPattern v)) <=? index in
  if over && (mRepeat v <? 0) then put_vibrator id i (vb_set_step index (mNextStepTime v) v) ;; stopVibrating id i
  else
    let index := if over then mRepeat v else index in
    duration ← deref (fun _ => if index <? 0 then None else mPattern v !! Z.to_nat index) ;
    put_vibrator id i (vb_set_step index (mNextStepTime v) v) ;;
    hub_do (if Z.odd index then hub_vibrate id duration else hub_cancelVibrate id) ;;
    now ← current_time ;
    v ← vibrator id i ;
    put_vibrator id i (vb_set_step (mIndex v) (now + duration) v) ;;
    requestTimeoutAtTimeLocked (now + duration).

(** A pattern that is longer than the array is copied past it. *)
Definition vibrator_vibrate (id : Z) (i : nat) (pattern : list Z) (repeat token : Z) : R unit :=
  if (MAX_VIBRATE_PATTERN_SIZE <? length pattern)%nat then undefined
  else
    v ← vibrator id i ;
    put_vibrator id i (mkVibrator true pattern repeat token (-1) (mNextStepTime v)) ;;
    vibrator_nextStep id i.

Definition vibrator_cancelVibrate (id : Z) (i : nat) (token : Z) : R unit :=
  v ← vibrator id i ; if mVibrating v && (mToken v =? token) then stopVibrating id i else mret tt.

Definition vibrator_timeoutExpired (id : Z) (i : nat) (t : Z) : R unit :=
  v ← vibrator id i ;
  if mVibrating v then
    if mNextStepTime v <=? t then vibrator_nextStep id i else requestTimeoutAtTimeLocked (mNextStepTime v)
  else mret tt.

(** ** Mappers *)

Definition switch_process (e : RawEvent) : R unit :=
  if re_type e =? EV_SW then notify (NotifySwitchArgs (re_when e) 0 (re_code e) (re_value e)) else mret tt.

(** A mapper of touch screens or joysticks. *)
Definition other_do (id : Z) (i : nat) (o : O) (f : O -> ReaderContext K -> O * ReaderContext K) : R unit :=
  c ← gets rd_context ;
  let '(o', c') := f o c in
  modify (set_context c') ;; put_mapper id i (Other_mapper o').

Definition mapper_getSources (m : InputMapper O) : Z :=
  match m with
  | Switch_mapper => AINPUT_SOURCE_SWITCH
  | Vibrator_mapper _ => 0
  | Keyboard_mapper k => kb_source k
  | Cursor_mapper c => cu_source c
  | Other_mapper o => other_getSources o
  end.

Definition mapper_configure (id : Z) (i : nat) (t : Z) (config : InputReaderConfiguration) (changes : Z) : R unit :=
  m ← mapper id i ;
  match m with
  | Keyboard_mapper _ => keyboard_configure id i config changes
  | Cursor_mapper _ => cursor_configure id i config changes
  | Other_mapper o => other_do id i o (other_configure t config changes)
  | _ => mret tt
  end.

Definition mapper_reset (id : Z) (i : nat) (t : Z) : R unit :=
  m ← mapper id i ;
  match m with
  | Keyboard_mapper _ => keyboard_reset id i
  | Cursor_mapper _ => cursor_reset id i
  | Other_mapper o => other_do id i o (other_reset t)
  | _ => mret tt
  end.

Definition mapper_process (id : Z) (i : nat) (e : RawEvent) : R unit :=
  m ← mapper id i ;
  match m with
  | Switch_mapper => switch_process e
  | Vibrator_mapper _ => mret tt
  | Keyboard_mapper _ => keyboard_process id i e
  | Cursor_mapper _ => cursor_process id i e
  | Other_mapper o => other_do id i o (other_process e)
  end.

Definition mapper_timeoutExpired (id : Z) (i : nat) (t : Z) : R unit :=
  m ← mapper id i ;
  match m with
  | Vibrator_mapper _ => vibrator_timeoutExpired id i t
  | Other_mapper o => other_do id i o (other_timeoutExpired t)
  | _ => mret tt
  end.

(** ** Devices *)

Definition device_configure (id t : Z) (config : InputReaderConfiguration) (changes : Z) : R unit :=
  d ← device id ;
  put_device id (with_sources 0 d) ;;
  if isIgnored d then mret tt
  else
    (if changes =? 0 then
       p ← hub_ask (hub_getConfiguration id) ; d ← device id ; put_device id (with_configuration p d)
     else mret tt) ;;
    (if changed changes CHANGE_KEYBOARD_LAYOUTS && negb (has (dv_classes d) INPUT_DEVICE_CLASS_VIRTUAL) then
       set ← hub_call (hub_setKeyboardLayoutOverlay id) ;
       if (set : bool) then device_bumpGeneration id else mret tt
     else mret tt) ;;
    (if changed changes CHANGE_DEVICE_ALIAS && negb (has (dv_classes d) INPUT_DEVICE_CLASS_VIRTUAL) then
       alias ← hub_ask (getDeviceAlias id) ;
       d ← device id ;
       if bool_decide (dv_alias d = alias) then mret tt
       else put_device id (with_alias alias d) ;; device_bumpGeneration id
     else mret tt) ;;
    ps ← positions id ;
    for_each ps (fun i =>
      mapper_configure id i t config changes ;;
      m ← mapper id i ;
      d ← device id ;
      put_device id (with_sources (Z.lor (dv_sources d) (mapper_getSources m)) d)).

Definition device_reset (id t : Z) : R unit :=
  ps ← positions id ;
  for_each ps (fun i => mapper_reset id i t) ;;
  updateGlobalMetaStateLocked ;;
  notify (NotifyDeviceResetArgs t id).

(** One event: dropped after an overrun up to the next report, or given to each
    mapper. *)
Definition device_process_event (id : Z) (e : RawEvent) : R unit :=
  d ← device id ;
  if mDropUntilNextSync d then
    if is_report e then put_device id (with_drop false d) else mret tt
  else if (re_type e =? EV_SYN) && (re_code e =? SYN_DROPPED) then
    put_device id (with_drop true d) ;; device_reset id (re_when e)
  else
    ps ← positions id ;
    for_each ps (fun i => mapper_process id i e).

Definition device_process (id : Z) (events : list RawEvent) : R unit := for_each events (device_process_event id).

Definition device_timeoutExpired (id t : Z) : R unit :=
  ps ← positions id ; for_each ps (fun i => mapper_timeoutExpired id i t).

(** The state of a key or a switch, from the mappers that have the sources. *)
Definition mapper_getState (f : InputMapper O -> Z -> K -> Z) (sourceMask code : Z) (d : InputDevice O) (k : K) : Z :=
  let fix go result ms :=
    match ms with
    | [] => result
    | m :: ms' =>
        if sourcesMatchMask (mapper_getSources m) sourceMask then
          let current := f m code k in
          if AKEY_STATE_DOWN <=? current then current
          else go (if current =? AKEY_STATE_UP then current else result) ms'
        else go result ms'
    end in
  go AKEY_STATE_UNKNOWN (mMappers d).

Definition mapper_getScanCodeState (id : Z) (m : InputMapper O) (code : Z) (k : K) : Z :=
  match m with
  | Keyboard_mapper _ => hub_getScanCodeState id code k
  | Cursor_mapper _ =>
      if (BTN_MOUSE <=? code) && (code <? BTN_JOYSTICK) then hub_getScanCodeState id code k else AKEY_STATE_UNKNOWN
  | Other_mapper o => other_getState 0 code o k
  | _ => AKEY_STATE_UNKNOWN
  end.

Definition mapper_getKeyCodeState (id : Z) (m : InputMapper O) (code : Z) (k : K) : Z :=
  match m with
  | Keyboard_mapper _ => hub_getKeyCodeState id code k
  | Other_mapper o => other_getState 1 code o k
  | _ => AKEY_STATE_UNKNOWN
  end.

Definition mapper_getSwitchState (id : Z) (m : InputMapper O) (code : Z) (k : K) : Z :=
  match m with Switch_mapper => hub_getSwitchState id code k | _ => AKEY_STATE_UNKNOWN end.

(** ** The reader *)

Definition classes_mappers (id classes : Z) : list (InputMapper O) :=
  let keyboardSource := when (has classes INPUT_DEVICE_CLASS_GAMEPAD) AINPUT_SOURCE_GAMEPAD
    (when (has classes INPUT_DEVICE_CLASS_DPAD) AINPUT_SOURCE_DPAD
       (when (has classes INPUT_DEVICE_CLASS_KEYBOARD) AINPUT_SOURCE_KEYBOARD 0)) in
  let keyboardType := if has classes INPUT_DEVICE_CLASS_ALPHAKEY then AINPUT_KEYBOARD_TYPE_ALPHABETIC
                      else AINPUT_KEYBOARD_TYPE_NON_ALPHABETIC in
  (if has classes INPUT_DEVICE_CLASS_SWITCH then [Switch_mapper] else []) ++
  (if has classes INPUT_DEVICE_CLASS_VIBRATOR then [Vibrator_mapper (mkVibrator false [] 0 0 0 0)] else []) ++
  (if negb (keyboardSource =? 0) then [Keyboard_mapper (KeyboardInputMapper_new keyboardSource keyboardType)] else []) ++
  (if has classes INPUT_DEVICE_CLASS_CURSOR then [Cursor_mapper CursorInputMapper_new] else []) ++
  (if has classes INPUT_DEVICE_CLASS_TOUCH_MT then [Other_mapper (other_new id MultiTouch)]
   else if has classes INPUT_DEVICE_CLASS_TOUCH then [Other_mapper (other_new id SingleTouch)] else []) ++
  (if has classes INPUT_DEVICE_CLASS_JOYSTICK then [Other_mapper (other_new id Joystick)] else []).

Definition createDeviceLocked (id classes : Z) : R unit :=
  n ← bumpGenerationLocked ;
  put_device id (mkDevice id n "" classes (classes_mappers id classes) 0 (has classes INPUT_DEVICE_CLASS_EXTERNAL) false
    (mkProperties_map (fun _ => None) (fun _ => None))).

Definition addDeviceLocked (t id : Z) : R unit :=
  ids ← gets mDevices ;
  match OrdMap.find id ids with
  | Some _ => mret tt
  | None =>
      classes ← hub_ask (hub_getDeviceClasses id) ;
      createDeviceLocked id classes ;;
      config ← gets mConfig ;
      device_configure id t config 0 ;;
      device_reset id t ;;
      modify (fun r => set_devices (OrdMap.insert id tt (mDevices r)) r) ;;
      bumpGenerationLocked ;; mret tt
  end.

Definition removeDeviceLocked (t id : Z) : R unit :=
  ids ← gets mDevices ;
  match OrdMap.find id ids with
  | None => mret tt
  | Some _ =>
      modify (fun r => set_devices (OrdMap.erase id (mDevices r)) r) ;;
      bumpGenerationLocked ;;
      device_reset id t ;;
      modify (fun r => set_objects (delete id (rd_objects r)) r)
  end.

Definition processEventsForDeviceLocked (id : Z) (events : list RawEvent) : R unit :=
  ids ← gets mDevices ;
  match OrdMap.find id ids with
  | None => mret tt
  | Some _ => d ← device id ; if isIgnored d then mret tt else device_process id events
  end.

Definition handleConfigurationChangedLocked (t : Z) : R unit :=
  updateGlobalMetaStateLocked ;; notify (NotifyConfigurationChangedArgs t).

Definition synthetic (e : RawEvent) : bool := FIRST_SYNTHETIC_EVENT <=? re_type e.

(** A type that is synthetic but none of the three cannot happen. *)
Definition process_synthetic (e : RawEvent) : R unit :=
  if re_type e =? DEVICE_ADDED then addDeviceLocked (re_when e) (re_deviceId e)
  else if re_type e =? DEVICE_REMOVED then removeDeviceLocked (re_when e) (re_deviceId e)
  else if re_type e =? FINISHED_DEVICE_SCAN then handleConfigurationChangedLocked (re_when e)
  else undefined.

(** The events of a batch after its first one, and those that are left. *)
Fixpoint take_batch (id : Z) (events : list RawEvent) : list RawEvent * list RawEvent :=
  match events with
  | e :: events' =>
      if synthetic e || negb (re_deviceId e =? id) then ([], events)
      else let '(batch, rest) := take_batch id events' in (e :: batch, rest)
  | [] => ([], [])
  end.

(** Each turn takes at least one event. *)
Fixpoint process_events (n : nat) (events : list RawEvent) : R unit :=
  match events with
  | [] => mret tt
  | e :: events' =>
      match n with
      | 0%nat => wait
      | S n' =>
          if synthetic e then process_synthetic e ;; process_events n' events'
          else
            let '(batch, rest) := take_batch (re_deviceId e) events' in
            processEventsForDeviceLocked (re_deviceId e) (e :: batch) ;; process_events n' rest
      end
  end.

Definition processEventsLocked (events : list RawEvent) : R unit := process_events (length events) events.

Definition timeoutExpiredLocked (t : Z) : R unit :=
  ids ← device_ids ;
  for_each ids (fun id => d ← device id ; if isIgnored d then mret tt else device_timeoutExpired id t).

Definition refreshConfigurationLocked (changes : Z) : R unit :=
  k ← hub_ask (fun k => k) ;
  modify (fun r => set_config (getReaderConfiguration k (mConfig r)) r) ;;
  config ← gets mConfig ;
  hub_do (hub_setExcludedDevices (excludedDeviceNames config)) ;;
  if changes =? 0 then mret tt
  else
    now ← current_time ;
    if has changes CHANGE_MUST_REOPEN then hub_do hub_requestReopenDevices
    else ids ← device_ids ; for_each ids (fun id => device_configure id now config changes).

Definition device_info (d : InputDevice O) : Z * Z * string * Z :=
  (dv_id d, dv_generation d, dv_alias d, fold_left (fun s m => Z.lor s (mapper_getSources m)) (mMappers d) 0).

Definition getInputDevicesLocked : R (list (Z * Z * string * Z)) :=
  gets (fun r => map device_info (List.filter (fun d => negb (isIgnored d)) (omap (fun id => rd_objects r !! id) (OrdMap.keys (mDevices r))))).

(** The arguments in the order they were queued. *)
Definition flush : R unit :=
  q ← gets (fun r => mArgsQueue (rd_context r)) ;
  for_each q (fun args => hub_do (listener_notify args)) ;;
  context_do (rc_set_queue []).

(** Before the poll, with the timeout of it. *)
Definition loop_prepare : R Z :=
  changes ← gets mConfigurationChangesToRefresh ;
  if negb (changes =? 0) then modify (set_changes 0) ;; refreshConfigurationLocked changes ;; mret 0
  else
    next ← gets (fun r => mNextTimeout (rd_context r)) ;
    if negb (next =? LONG_LONG_MAX) then now ← current_time ; mret (toMillisecondTimeoutDelay now next) else mret (-1).

Definition loop_expire : R unit :=
  next ← gets (fun r => mNextTimeout (rd_context r)) ;
  if negb (next =? LONG_LONG_MAX) then
    now ← current_time ;
    if next <=? now then context_do (rc_set_timeout LONG_LONG_MAX) ;; timeoutExpiredLocked now else mret tt
  else mret tt.

Definition getEvents (timeoutMillis : Z) : R (list RawEvent) := hub_call (hub_getEvents timeoutMillis).

Definition loopOnce : R unit :=
  oldGeneration ← gets (fun r => mGeneration (rd_context r)) ;
  timeoutMillis ← loop_prepare ;
  events ← getEvents timeoutMillis ;
  processEventsLocked events ;;
  loop_expire ;;
  generation ← gets (fun r => mGeneration (rd_context r)) ;
  (if negb (oldGeneration =? generation) then
     devices ← getInputDevicesLocked ; hub_do (notifyInputDevicesChanged devices)
   else mret tt) ;;
  flush.

(** Where the reader's thread is between its locks: at the top of the loop, before the
    poll, with the events it read, or with the devices to tell the policy of. *)
Inductive loop_pc : Type :=
| Loop_top
| Loop_polling (oldGeneration timeoutMillis : Z)
| Loop_events (oldGeneration : Z) (events : list RawEvent)
| Loop_telling (devices : option (list (Z * Z * string * Z))).

(** [loopOnce], up to the next release of the lock. *)
Definition loop_step (pc : loop_pc) : R loop_pc :=
  match pc with
  | Loop_top =>
      oldGeneration ← gets (fun r => mGeneration (rd_context r)) ;
      timeoutMillis ← loop_prepare ;
      mret (Loop_polling oldGeneration timeoutMillis)
  | Loop_polling oldGeneration timeoutMillis =>
      events ← getEvents timeoutMillis ; mret (Loop_events oldGeneration events)
  | Loop_events oldGeneration events =>
      processEventsLocked events ;;
      loop_expire ;;
      generation ← gets (fun r => mGeneration (rd_context r)) ;
      if negb (oldGeneration =? generation) then devices ← getInputDevicesLocked ; mret (Loop_telling (Some devices))
      else mret (Loop_telling None)
  | Loop_telling devices =>
      match devices with Some l => hub_do (notifyInputDevicesChanged l) | None => mret tt end ;;
      flush ;; mret Loop_top
  end.

(** *** What other threads call *)

Definition requestRefreshConfiguration (changes : Z) : R unit :=
  if changes =? 0 then mret tt
  else
    old ← gets mConfigurationChangesToRefresh ;
    modify (set_changes (Z.lor old changes)) ;;
    if old =? 0 then hub_do hub_wake else mret tt.

Definition for_vibrators (id : Z) (f : nat -> R unit) : R unit :=
  ids ← gets mDevices ;
  match OrdMap.find id ids with
  | None => mret tt
  | Some _ =>
      ps ← positions id ;
      for_each ps (fun i => m ← mapper id i ; match m with Vibrator_mapper _ => f i | _ => mret tt end)
  end.

Definition vibrate (id : Z) (pattern : list Z) (repeat token : Z) : R unit :=
  for_vibrators id (fun i => vibrator_vibrate id i pattern repeat token).

Definition cancelVibrate (id token : Z) : R unit := for_vibrators id (fun i => vibrator_cancelVibrate id i token).

(** Of one device, or of all of them when [id] is negative. *)
Definition getStateLocked (id sourceMask code : Z) (f : Z -> InputMapper O -> Z -> K -> Z) (r : InputReader K O) : Z :=
  let usable d := negb (isIgnored d) && sourcesMatchMask (dv_sources d) sourceMask in
  let state d := mapper_getState (f (dv_id d)) sourceMask code d (rc_world (rd_context r)) in
  if 0 <=? id then
    match OrdMap.find id (mDevices r), rd_objects r !! id with
    | Some _, Some d => if usable d then state d else AKEY_STATE_UNKNOWN
    | _, _ => AKEY_STATE_UNKNOWN
    end
  else
    let fix go result ids :=
      match ids with
      | [] => result
      | id :: ids' =>
          match rd_objects r !! id with
          | Some d =>
              if usable d then
                let current := state d in
                if AKEY_STATE_DOWN <=? current then current
                else go (if current =? AKEY_STATE_UP then current else result) ids'
              else go result ids'
          | None => go result ids'
          end
      end in
    go AKEY_STATE_UNKNOWN (OrdMap.keys (mDevices r)).

Definition getScanCodeState (id sourceMask code : Z) : InputReader K O -> Z := getStateLocked id sourceMask code mapper_getScanCodeState.
Definition getKeyCodeState (id sourceMask code : Z) : InputReader K O -> Z := getStateLocked id sourceMask code mapper_getKeyCodeState.
Definition getSwitchState (id sourceMask code : Z) : InputReader K O -> Z := getStateLocked id sourceMask code mapper_getSwitchState.

Inductive request : Type :=
| RequestRefreshConfiguration (changes : Z)
| Vibrate (id : Z) (pattern : list Z) (repeat token : Z)
| CancelVibrate (id token : Z).

Definition serve (q : request) : R unit :=
  match q with
  | RequestRefreshConfiguration changes => requestRefreshConfiguration changes
  | Vibrate id pattern repeat token => vibrate id pattern repeat token
  | CancelVibrate id token => cancelVibrate id token
  end.

(** The reader's thread ([None]) and its callers, in any order. *)
Fixpoint run_reader (schedule : list (option request)) (pc : loop_pc) : R loop_pc :=
  match schedule with
  | [] => mret pc
  | None :: schedule' => pc' ← loop_step pc ; run_reader schedule' pc'
  | Some q :: schedule' => serve q ;; run_reader schedule' pc
  end.

(** The constructor. *)
Definition InputReader_new (k : K) (p : pointer) : outcome (InputReader K O) unit :=
  (refreshConfigurationLocked 0 ;; updateGlobalMetaStateLocked)
    (mkReader ∅ [] InputReaderConfiguration_new 0 (mkContext [] 0 1 LONG_LONG_MIN LONG_LONG_MAX p k)).

End Reader.
