(* ===== verification/ReaderView.v ===== *)
(** * The input reader: what its listener sees

    The notifications of the reader ([ReaderLoop]) as the view of one who hears them
    ([InputState.view]): which keys are pressed and which gestures are in progress.
    A device's reset makes the listener forget what it knows of the device.  The
    view is compared with the state of the mappers: the keys that a keyboard has
    down and the buttons of a mouse. *)

From Stdlib Require Import SpecFloat.
From S2P Require Import Prelude Geometry Input AndroidEvents InputTransport InputState Dispatcher DispatchTargets DispatchLoop.
From S2P Require Import DispatchMemory ReaderData ReaderLoop.

(** ** Listening *)

Definition key_device (x : Z * Z * Z * Z) : Z := fst (fst (fst x)).
Definition key_source (x : Z * Z * Z * Z) : Z := snd (fst (fst x)).
Definition gesture_device (x : Z * Z * bool) : Z := fst (fst x).
Definition gesture_source (x : Z * Z * bool) : Z := snd (fst x).

Definition hear (a : NotifyArgs) (v : view) : view :=
  match a with
  | NotifyKeyArgs t flags k => see (EventEntry_new t flags (KEY k)) v
  | NotifyMotionArgs t flags m => see (EventEntry_new t flags (MOTION m)) v
  | NotifyDeviceResetArgs _ id =>
      mkView (filter (fun x => key_device x <> id) (pressed v)) (filter (fun x => gesture_device x <> id) (gestures v))
  | _ => v
  end.

(** Whether the dispatcher would deliver it to one with this view. *)
Definition welcome (a : NotifyArgs) (v : view) : bool :=
  match a with
  | NotifyKeyArgs t flags k => acceptable (EventEntry_new t flags (KEY k)) v
  | NotifyMotionArgs t flags m => acceptable (EventEntry_new t flags (MOTION m)) v
  | _ => true
  end.

Definition story (l : list NotifyArgs) (v : view) : view := fold_left (fun v a => hear a v) l v.

Fixpoint accepted (l : list NotifyArgs) (v : view) : bool :=
  match l with [] => true | a :: l' => welcome a v && accepted l' (hear a v) end.

Lemma story_app l1 l2 v : story (l1 ++ l2) v = story l2 (story l1 v).
Proof. unfold story. by rewrite fold_left_app. Qed.

Lemma accepted_app l1 l2 v : accepted (l1 ++ l2) v = accepted l1 v && accepted l2 (story l1 v).
Proof. revert v. induction l1 as [|a l1 IH]; intros v; [done|]. cbn. by rewrite IH, andb_assoc. Qed.

(** *** What a notification is about *)

Definition about (id : Z) (source : option Z) (a : NotifyArgs) : Prop :=
  match a with
  | NotifyKeyArgs _ _ k => ke_deviceId k = id /\ Some (ke_source k) = source
  | NotifyMotionArgs _ _ m => me_deviceId m = id /\ Some (me_source m) = source
  | NotifyDeviceResetArgs _ id' => False
  | _ => True
  end.

Definition same_key (x : Z * Z * Z * Z) (v v' : view) : Prop := x ∈ pressed v' <-> x ∈ pressed v.
Definition same_gesture (x : Z * Z * bool) (v v' : view) : Prop := x ∈ gestures v' <-> x ∈ gestures v.

Lemma hear_elsewhere id source a v :
  about id source a ->
  (forall x, key_device x <> id \/ Some (key_source x) <> source -> same_key x v (hear a v)) /\
  (forall x, gesture_device x <> id \/ Some (gesture_source x) <> source -> same_gesture x v (hear a v)).
Proof.
  unfold same_key, same_gesture. destruct a as [t|t fl k|t fl m| |]; cbn; try done.
  - intros [Ed Es]. split; intros x Hx; unfold see; cbn; repeat case_match; try done; cbn; [set_unfold|set_unfold];
      (assert (x <> key_id k) by (intros ->; destruct Hx as [Hx|Hx]; by apply Hx)); naive_solver.
  - intros [Ed Es]. split; intros x Hx; unfold see; cbn; repeat case_match; try done; cbn; set_unfold;
      (assert (x <> motion_id m b) by (intros ->; destruct Hx as [Hx|Hx]; by apply Hx)); naive_solver.
Qed.

Lemma story_elsewhere id source l v :
  Forall (about id source) l ->
  (forall x, key_device x <> id \/ Some (key_source x) <> source -> same_key x v (story l v)) /\
  (forall x, gesture_device x <> id \/ Some (gesture_source x) <> source -> same_gesture x v (story l v)).
Proof.
  revert v. induction l as [|a l IH]; intros v Hl; [done|]. apply Forall_cons in Hl as [Ha Hl].
  destruct (hear_elsewhere id source a v Ha) as [K1 G1], (IH (hear a v) Hl) as [K2 G2]. unfold same_key, same_gesture in *.
  cbn. split; intros x Hx; [by rewrite (K2 x Hx), (K1 x Hx)|by rewrite (G2 x Hx), (G1 x Hx)].
Qed.

(** After a reset the listener knows nothing of the device, and what it knew of the
    others. *)
Lemma hear_reset t id v :
  (forall x, x ∈ pressed (hear (NotifyDeviceResetArgs t id) v) <-> x ∈ pressed v /\ key_device x <> id) /\
  (forall x, x ∈ gestures (hear (NotifyDeviceResetArgs t id) v) <-> x ∈ gestures v /\ gesture_device x <> id).
Proof. cbn. split; intros x; rewrite elem_of_filter; tauto. Qed.

(** ** What a mapper holds *)

(** Equal under a function that tells the elements of a list apart. *)
Lemma NoDup_fmap_same {A B} (f : A -> B) (l : list A) x y : NoDup (f <$> l) -> x ∈ l -> y ∈ l -> f x = f y -> x = y.
Proof.
  intros Hd [i Hi]%list_elem_of_lookup [j Hj]%list_elem_of_lookup Hf.
  assert (i = j) as ->; [|congruence]. eapply NoDup_lookup; [exact Hd|..]; rewrite list_lookup_fmap; [by rewrite Hi|by rewrite Hj; cbn; rewrite Hf].
Qed.

Section Held.
Context {O : Type}.
Implicit Types m : InputMapper O.

Definition holds_key (id : Z) m (x : Z * Z * Z * Z) : Prop :=
  match m with
  | Keyboard_mapper k => exists kd, kd ∈ mKeyDowns k /\ x = (id, kb_source k, kd_keyCode kd, kd_scanCode kd)
  | Cursor_mapper c =>
      has (cu_buttonState c) AMOTION_EVENT_BUTTON_BACK = true /\ x = (id, cu_source c, AKEYCODE_BACK, 0) \/
      has (cu_buttonState c) AMOTION_EVENT_BUTTON_FORWARD = true /\ x = (id, cu_source c, AKEYCODE_FORWARD, 0)
  | _ => False
  end.

Definition holds_gesture (id : Z) m (x : Z * Z * bool) : Prop :=
  match m with Cursor_mapper c => isPointerDown (cu_buttonState c) = true /\ x = (id, cu_source c, false) | _ => False end.

(** The source under which a mapper speaks of keys and motions. *)
Definition speaks m : option Z :=
  match m with Keyboard_mapper k => Some (kb_source k) | Cursor_mapper c => Some (cu_source c) | _ => None end.

(** The view has of a device what its mappers hold, hovering apart. *)
Definition shows (id : Z) (ms : list (InputMapper O)) (v : view) : Prop :=
  (forall x, key_device x = id -> (x ∈ pressed v <-> exists m, m ∈ ms /\ holds_key id m x)) /\
  (forall s, (id, s, false) ∈ gestures v <-> exists m, m ∈ ms /\ holds_gesture id m (id, s, false)).

(** The same for one mapper. *)
Definition mapper_shows (id : Z) m (v : view) : Prop :=
  forall source, speaks m = Some source ->
  (forall x, key_device x = id -> key_source x = source -> (x ∈ pressed v <-> holds_key id m x)) /\
  ((id, source, false) ∈ gestures v <-> holds_gesture id m (id, source, false)).

(** No two mappers speak under the same source. *)
Definition distinct (ms : list (InputMapper O)) : Prop := NoDup (omap speaks ms).

Lemma holds_key_source id m x : holds_key id m x -> key_device x = id /\ speaks m = Some (key_source x).
Proof. destruct m as [|v|k|c|o]; cbn; try done; [intros (kd & _ & ->); done|by intros [[_ ->]|[_ ->]]]. Qed.

Lemma holds_gesture_source id m x : holds_gesture id m x -> speaks m = Some (gesture_source x).
Proof. destruct m; cbn; try done. by intros [_ ->]. Qed.

Lemma distinct_same (ms : list (InputMapper O)) i j m m' s :
  distinct ms -> ms !! i = Some m -> ms !! j = Some m' -> speaks m = Some s -> speaks m' = Some s -> i = j.
Proof.
  unfold distinct. revert i j. induction ms as [|m0 ms IH]; intros i j Hd Hi Hj Hs Hs'; [done|]. cbn in Hd.
  assert (forall n (mm : InputMapper O), ms !! n = Some mm -> speaks mm = Some s -> s ∈ omap speaks ms) as Hin.
  { intros n mm Hn Hmm. apply list_elem_of_omap. exists mm. split; [by eapply list_elem_of_lookup_2|done]. }
  destruct i as [|i], j as [|j]; cbn in *; try done.
  - injection Hi as ->. rewrite Hs in Hd. apply NoDup_cons in Hd as [Hd _]. destruct Hd. by eapply Hin.
  - injection Hj as ->. rewrite Hs' in Hd. apply NoDup_cons in Hd as [Hd _]. destruct Hd. by eapply Hin.
  - f_equal. apply (IH i j); try done. destruct (speaks m0); [by apply NoDup_cons in Hd as [_ Hd]|done].
Qed.

Lemma shows_mapper id ms v i m : distinct ms -> shows id ms v -> ms !! i = Some m -> mapper_shows id m v.
Proof.
  intros Hd [HK HG] Hi source Hs. split.
  - intros x Hx Hsrc. rewrite (HK x Hx). split; [|intros Hh; exists m; split; [by eapply list_elem_of_lookup_2|done]].
    intros (m' & [j Hj]%list_elem_of_lookup & Hh). destruct (holds_key_source _ _ _ Hh) as [_ Hs']. rewrite Hsrc in Hs'.
    assert (i = j) as -> by (by eapply distinct_same). congruence.
  - rewrite HG. split; [|intros Hh; exists m; split; [by eapply list_elem_of_lookup_2|done]].
    intros (m' & [j Hj]%list_elem_of_lookup & Hh). pose proof (holds_gesture_source _ _ _ Hh) as Hs'. cbn in Hs'.
    assert (i = j) as -> by (by eapply distinct_same). congruence.
Qed.

(** A mapper speaks, and is right about itself: the device is. *)
Lemma shows_insert id ms v v' i m m' :
  shows id ms v -> distinct ms -> ms !! i = Some m -> speaks m' = speaks m -> mapper_shows id m' v' ->
  (forall x, key_device x = id -> Some (key_source x) <> speaks m -> same_key x v v') ->
  (forall x, gesture_device x = id -> Some (gesture_source x) <> speaks m -> same_gesture x v v') ->
  shows id (<[ i := m' ]> ms) v'.
Proof.
  intros [HK HG] Hd Hi Hsp Hm' SK SG. assert ((i < length ms)%nat) as Hlt by (by eapply lookup_lt_Some).
  assert (forall (P : InputMapper O -> Prop) s, Some s <> speaks m -> (forall mm, P mm -> speaks mm = Some s) ->
    (exists mm, mm ∈ <[ i := m' ]> ms /\ P mm) <-> (exists mm, mm ∈ ms /\ P mm)) as Hother.
  { intros Q s Hs HQ. split; intros (mm & [j Hj]%list_elem_of_lookup & Hp); exists mm; (split; [|done]);
      destruct (decide (i = j)) as [<-|Hne].
    - rewrite list_lookup_insert_eq in Hj by done. injection Hj as ->. apply HQ in Hp. congruence.
    - rewrite list_lookup_insert_ne in Hj by done. by eapply list_elem_of_lookup_2.
    - rewrite Hi in Hj. injection Hj as ->. apply HQ in Hp. congruence.
    - eapply (list_elem_of_lookup_2 _ j). by rewrite list_lookup_insert_ne. }
  assert (forall (P : InputMapper O -> Prop) s, Some s = speaks m -> (forall mm, P mm -> speaks mm = Some s) ->
    (exists mm, mm ∈ <[ i := m' ]> ms /\ P mm) <-> P m') as Hself.
  { intros Q s Hs HQ. split.
    - intros (mm & [j Hj]%list_elem_of_lookup & Hp). destruct (decide (i = j)) as [<-|Hne].
      + rewrite list_lookup_insert_eq in Hj by done. by injection Hj as ->.
      + rewrite list_lookup_insert_ne in Hj by done. apply HQ in Hp as Hp'. destruct Hne. by eapply (distinct_same ms i j m mm s).
    - intros Hp. exists m'. split; [|done]. eapply (list_elem_of_lookup_2 _ i). by apply list_lookup_insert_eq. }
  split.
  - intros x Hx. destruct (decide (Some (key_source x) = speaks m)) as [Hs|Hs].
    + rewrite (Hself _ (key_source x) Hs) by (intros mm Hp; by destruct (holds_key_source _ _ _ Hp)).
      by apply (Hm' (key_source x)); [congruence|..].
    + rewrite (Hother _ (key_source x) Hs) by (intros mm Hp; by destruct (holds_key_source _ _ _ Hp)).
      etransitivity; [apply (SK x Hx Hs)|by apply HK].
  - intros s. destruct (decide (Some s = speaks m)) as [Hs|Hs].
    + rewrite (Hself _ s Hs) by (intros mm Hp; by apply (holds_gesture_source _ _ _ Hp)).
      apply (Hm' s). congruence.
    + rewrite (Hother _ s Hs) by (intros mm Hp; by apply (holds_gesture_source _ _ _ Hp)).
      etransitivity; [apply (SG (id, s, false) eq_refl Hs)|apply HG].
Qed.

Lemma distinct_insert (ms : list (InputMapper O)) i m m' :
  distinct ms -> ms !! i = Some m -> speaks m' = speaks m -> distinct (<[ i := m' ]> ms).
Proof.
  unfold distinct. intros Hd Hi Hs. assert (omap speaks (<[ i := m' ]> ms) = omap speaks ms) as ->; [|done].
  clear Hd. revert i Hi. induction ms as [|m0 ms IH]; intros [|i] Hi; cbn in *; try done.
  - injection Hi as ->. by rewrite Hs.
  - specialize (IH i Hi). destruct (speaks m0); [by f_equal|done].
Qed.

(** ** What a mapper may say *)

Definition orientation_ok (o : Z) : Prop := 0 <= o <= 3.

Definition pattern_ok (pattern : list Z) (repeat : Z) : Prop :=
  (length pattern <= MAX_VIBRATE_PATTERN_SIZE)%nat /\ (repeat < 0 \/ repeat < Z.of_nat (length pattern)).

Definition vibrator_ok (v : VibratorInputMapper) : Prop :=
  mVibrating v = true -> -1 <= mIndex v < Z.of_nat (length (mPattern v)) /\ pattern_ok (mPattern v) (mRepeat v).

(** A mapper that has been configured; none for touch screens or joysticks. *)
Definition mapper_ok m : Prop :=
  match m with
  | Switch_mapper => True
  | Vibrator_mapper v => vibrator_ok v
  | Keyboard_mapper k =>
      NoDup (kd_scanCode <$> mKeyDowns k) /\ orientation_ok (kb_orientation k) /\ kb_source k < AINPUT_SOURCE_MOUSE
  | Cursor_mapper c => mPointerController c = true /\ cu_source c = AINPUT_SOURCE_MOUSE \/ cu_source c = AINPUT_SOURCE_TRACKBALL
  | Other_mapper _ => False
  end.

(** What a mapper says while it goes from one state to another: it is about itself,
    may be said, and leaves the listener with what the mapper holds now. *)
Definition speech (id : Z) m (l : list NotifyArgs) m' : Prop :=
  speaks m' = speaks m /\ mapper_ok m' /\ Forall (about id (speaks m)) l /\
  forall v, mapper_shows id m v -> accepted l v = true /\ mapper_shows id m' (story l v).

Lemma speech_silent id m m' :
  speaks m' = speaks m -> mapper_ok m' -> (forall x, holds_key id m' x <-> holds_key id m x) ->
  (forall x, holds_gesture id m' x <-> holds_gesture id m x) -> speech id m [] m'.
Proof.
  intros Hs Hok HK HG. split_and!; [done..|]. intros v Hv. split; [done|]. intros source Hsrc. rewrite Hs in Hsrc.
  destruct (Hv source Hsrc) as [VK VG]. cbn. split; [intros x; rewrite HK; apply VK|by rewrite HG].
Qed.

Lemma speech_refl id m : mapper_ok m -> speech id m [] m.
Proof. intros. by apply speech_silent. Qed.

Lemma speech_trans id m m' m'' l l' : speech id m l m' -> speech id m' l' m'' -> speech id m (l ++ l') m''.
Proof.
  intros (S1 & O1 & A1 & V1) (S2 & O2 & A2 & V2). split_and!; [congruence|done| |].
  - apply Forall_app. split; [done|]. by rewrite <- S1.
  - intros v Hv. destruct (V1 v Hv) as [Ha Hv1], (V2 _ Hv1) as [Ha2 Hv2]. rewrite accepted_app, story_app, Ha, Ha2. done.
Qed.

(** *** Keys *)

(** A notification of a key. *)
Definition key_says (id source action keyCode scanCode : Z) (a : NotifyArgs) : Prop :=
  match a with NotifyKeyArgs _ _ k => key_id k = (id, source, keyCode, scanCode) /\ ke_action k = action | _ => False end.

Lemma key_says_about id source action kc sc a : key_says id source action kc sc a -> about id (Some source) a /\ forall v, welcome a v = true.
Proof. destruct a; try done. intros [[=] _]. cbn. by subst. Qed.

Lemma hear_down id source kc sc a v :
  key_says id source AKEY_EVENT_ACTION_DOWN kc sc a -> hear a v = mkView (pressed v ∪ {[ (id, source, kc, sc) ]}) (gestures v).
Proof. destruct a; try done. intros [Hk Ha]. unfold hear, see. cbn. by rewrite Ha, Hk. Qed.

Lemma hear_up id source kc sc a v :
  key_says id source AKEY_EVENT_ACTION_UP kc sc a -> hear a v = mkView (pressed v ∖ {[ (id, source, kc, sc) ]}) (gestures v).
Proof. destruct a; try done. intros [Hk Ha]. unfold hear, see. cbn. by rewrite Ha, Hk. Qed.

(** A key goes down, or is repeated. *)
Lemma speech_key_down id k k' kd a :
  mapper_ok (Keyboard_mapper k') -> kb_source k' = kb_source k ->
  (forall x, x ∈ mKeyDowns k' <-> x ∈ mKeyDowns k \/ x = kd) ->
  key_says id (kb_source k) AKEY_EVENT_ACTION_DOWN (kd_keyCode kd) (kd_scanCode kd) a ->
  speech id (Keyboard_mapper k) [a] (Keyboard_mapper k').
Proof.
  intros Hok Hs Hkeys Ha. destruct (key_says_about _ _ _ _ _ _ Ha) as [Hab Hw]. split_and!; [cbn; congruence|done|by constructor|].
  intros v Hv. cbn [accepted story fold_left]. rewrite Hw, (hear_down _ _ _ _ _ _ Ha). split; [done|]. intros source Hsrc.
  cbn in Hsrc. injection Hsrc as <-. destruct (Hv (kb_source k') ltac:(cbn; congruence)) as [VK VG]. cbn [pressed gestures].
  split; [|exact VG]. intros x Hx Hsx. rewrite elem_of_union, elem_of_singleton, (VK x Hx Hsx). cbn. rewrite Hs. split.
  - intros [(kd' & Hin & ->)| ->]; eexists; (split; [apply Hkeys|done]); auto.
  - intros (kd' & Hin & ->). apply Hkeys in Hin as [Hin| ->]; eauto.
Qed.

(** A key that was down goes up. *)
Lemma speech_key_up id k k' kd a :
  mapper_ok (Keyboard_mapper k') -> kb_source k' = kb_source k -> kd ∈ mKeyDowns k -> NoDup (kd_scanCode <$> mKeyDowns k) ->
  (forall x, x ∈ mKeyDowns k' <-> x ∈ mKeyDowns k /\ x <> kd) ->
  key_says id (kb_source k) AKEY_EVENT_ACTION_UP (kd_keyCode kd) (kd_scanCode kd) a ->
  speech id (Keyboard_mapper k) [a] (Keyboard_mapper k').
Proof.
  intros Hok Hs Hin Hnd Hkeys Ha. destruct (key_says_about _ _ _ _ _ _ Ha) as [Hab Hw]. split_and!; [cbn; congruence|done|by constructor|].
  intros v Hv. cbn [accepted story fold_left]. rewrite Hw, (hear_up _ _ _ _ _ _ Ha). split; [done|]. intros source Hsrc.
  cbn in Hsrc. injection Hsrc as <-. destruct (Hv (kb_source k') ltac:(cbn; congruence)) as [VK VG]. cbn [pressed gestures].
  split; [|exact VG]. intros x Hx Hsx. rewrite elem_of_difference, elem_of_singleton, (VK x Hx Hsx). cbn. rewrite Hs. split.
  - intros [(kd' & Hin' & ->) Hne]. exists kd'. split; [|done]. apply Hkeys. split; [done|]. congruence.
  - intros (kd' & [Hin' Hne]%Hkeys & ->). split; [eauto|]. intros [= _ Hsc]. apply Hne.
    by apply (NoDup_fmap_same kd_scanCode (mKeyDowns k)).
Qed.

End Held.

(** *** Buttons and motions *)

(** Whether the keys of the back and forward buttons are pressed and a gesture is in
    progress, as the view has it for one source. *)
Definition cursor_view (id s : Z) (back forward down : bool) (v : view) : Prop :=
  (forall x, key_device x = id -> key_source x = s ->
     (x ∈ pressed v <-> back = true /\ x = (id, s, AKEYCODE_BACK, 0) \/ forward = true /\ x = (id, s, AKEYCODE_FORWARD, 0))) /\
  ((id, s, false) ∈ gestures v <-> down = true).

Lemma cursor_shows {O} id c v :
  mapper_shows (O := O) id (Cursor_mapper c) v <->
  cursor_view id (cu_source c) (has (cu_buttonState c) AMOTION_EVENT_BUTTON_BACK)
    (has (cu_buttonState c) AMOTION_EVENT_BUTTON_FORWARD) (isPointerDown (cu_buttonState c)) v.
Proof.
  unfold mapper_shows, cursor_view. cbn [speaks holds_key holds_gesture]. split.
  - intros Hv. destruct (Hv (cu_source c) eq_refl) as [VK VG]. split; [done|]. rewrite VG. naive_solver.
  - intros [VK VG] source [= <-]. split; [done|]. rewrite VG. naive_solver.
Qed.

Definition motion_says (id source action : Z) (a : NotifyArgs) : Prop :=
  match a with NotifyMotionArgs _ _ m => me_deviceId m = id /\ me_source m = source /\ me_action m = action | _ => False end.

(** What is said of a mouse, from one such view to another. *)
Definition tells (id s : Z) (b f d : bool) (l : list NotifyArgs) (b' f' d' : bool) : Prop :=
  Forall (about id (Some s)) l /\
  forall v, cursor_view id s b f d v -> accepted l v = true /\ cursor_view id s b' f' d' (story l v).

Lemma tells_nil id s b f d : tells id s b f d [] b f d.
Proof. by split. Qed.

Lemma tells_app id s b f d l b1 f1 d1 l' b2 f2 d2 :
  tells id s b f d l b1 f1 d1 -> tells id s b1 f1 d1 l' b2 f2 d2 -> tells id s b f d (l ++ l') b2 f2 d2.
Proof.
  intros [A1 V1] [A2 V2]. split; [by apply Forall_app|]. intros v Hv. destruct (V1 v Hv) as [Ha Hv1], (V2 _ Hv1) as [Ha2 Hv2].
  by rewrite accepted_app, story_app, Ha, Ha2.
Qed.

(** The two keys, by which of them it is. *)
Definition button_code (back : bool) : Z := if back then AKEYCODE_BACK else AKEYCODE_FORWARD.

Lemma tells_key_down id s b f d (back : bool) a :
  key_says id s AKEY_EVENT_ACTION_DOWN (button_code back) 0 a -> tells id s b f d [a] (back || b) (negb back || f) d.
Proof.
  intros Ha. destruct (key_says_about _ _ _ _ _ _ Ha) as [Hab Hw]. split; [by constructor|]. intros v [VK VG].
  cbn [accepted story fold_left]. rewrite Hw, (hear_down _ _ _ _ _ _ Ha). split; [done|]. split; [|done]. intros x Hx Hsx.
  cbn [pressed]. rewrite elem_of_union, elem_of_singleton, (VK x Hx Hsx). destruct back, b, f; cbn; intuition congruence.
Qed.

Lemma tells_key_up id s b f d (back : bool) a :
  key_says id s AKEY_EVENT_ACTION_UP (button_code back) 0 a -> tells id s b f d [a] (negb back && b) (back && f) d.
Proof.
  intros Ha. destruct (key_says_about _ _ _ _ _ _ Ha) as [Hab Hw]. split; [by constructor|]. intros v [VK VG].
  cbn [accepted story fold_left]. rewrite Hw, (hear_up _ _ _ _ _ _ Ha). split; [done|]. split; [|done]. intros x Hx Hsx.
  cbn [pressed]. rewrite elem_of_difference, elem_of_singleton, (VK x Hx Hsx).
  assert ((id, s, AKEYCODE_BACK, 0) <> (id, s, AKEYCODE_FORWARD, 0)) by done.
  destruct back, b, f; cbn; intuition congruence.
Qed.

(** What an action does to a gesture, if it may be sent. *)
Definition after_action (s action : Z) (down : bool) : option bool :=
  if action =? AMOTION_EVENT_ACTION_DOWN then Some true
  else if action =? AMOTION_EVENT_ACTION_UP then if down then Some false else None
  else if action =? AMOTION_EVENT_ACTION_MOVE then if down || (s =? AINPUT_SOURCE_TRACKBALL) then Some down else None
  else if (action =? AMOTION_EVENT_ACTION_HOVER_MOVE) || (action =? AMOTION_EVENT_ACTION_SCROLL) then Some down
  else None.

(** The actions are constants. *)
Ltac eval_actions :=
  repeat match goal with
  | |- context [starts (Z.land ?x ?y)] => let r := eval vm_compute in (starts (Z.land x y)) in change (starts (Z.land x y)) with r
  | |- context [ends (Z.land ?x ?y)] => let r := eval vm_compute in (ends (Z.land x y)) in change (ends (Z.land x y)) with r
  | |- context [Z.land ?x ?y =? ?z] => let r := eval vm_compute in (Z.land x y =? z) in change (Z.land x y =? z) with r
  end; cbn.

Lemma tells_motion id s b f d action a d' :
  motion_says id s action a -> after_action s action d = Some d' -> tells id s b f d [a] b f d'.
Proof.
  destruct a as [| |t fl m| |]; try done. intros (Hd & Hs & Ha) Hact. split; [by repeat constructor; cbn; rewrite ?Hd, ?Hs|].
  intros v [VK VG]. cbn [accepted story fold_left welcome hear]. unfold acceptable, see. cbn [entry_type EventEntry_new].
  rewrite Ha. clear Ha. unfold motion_id. rewrite Hd, Hs. revert Hact. unfold after_action.
  repeat (case_match; [match goal with E : (_ =? _) = true |- _ => apply Z.eqb_eq in E; subst action end|]); try done; eval_actions.
  - intros [= <-]. split; [done|]. split; [done|]. cbn. set_solver.
  - case_match; [|done]. intros [= <-]. rewrite bool_decide_eq_true_2 by (by apply VG). split; [done|]. split; [done|]. cbn. set_solver.
  - case_match; [|done]. intros [= <-]. split; [|done]. match goal with E : (_ || _) = true |- _ => apply orb_true_iff in E as [-> | ->%Z.eqb_eq] end; [|by rewrite orb_true_r].
    by rewrite bool_decide_eq_true_2 by (by apply VG).
  - case_match; [|done]. intros [= <-].
    match goal with E : (_ || _) = true |- _ => apply orb_true_iff in E as [->%Z.eqb_eq | ->%Z.eqb_eq] end; eval_actions.
    + split; [done|]. split; [done|]. cbn. set_solver.
    + done.
Qed.

(** The mapper of a mouse that tells of its buttons. *)
Lemma speech_cursor {O} id c c' l :
  cu_source c' = cu_source c -> mapper_ok (O := O) (Cursor_mapper c') ->
  tells id (cu_source c) (has (cu_buttonState c) AMOTION_EVENT_BUTTON_BACK)
    (has (cu_buttonState c) AMOTION_EVENT_BUTTON_FORWARD) (isPointerDown (cu_buttonState c)) l
    (has (cu_buttonState c') AMOTION_EVENT_BUTTON_BACK)
    (has (cu_buttonState c') AMOTION_EVENT_BUTTON_FORWARD) (isPointerDown (cu_buttonState c')) ->
  speech (O := O) id (Cursor_mapper c) l (Cursor_mapper c').
Proof.
  intros Hs Hok [Hab Ht]. split_and!; [cbn; congruence|done|done|]. intros v Hv%cursor_shows. destruct (Ht v Hv) as [Ha Hv'].
  split; [done|]. apply cursor_shows. by rewrite Hs.
Qed.
