(* ===== verification/ReaderSteps.v ===== *)
(** * The input reader: its mappers at work

    Rules for the functions of [ReaderLoop] that work on one mapper of a device, and
    with them what each mapper does with an event, a timeout, a reset and a new
    configuration: it returns, without undefined behaviour, changes no other mapper,
    and tells the listener what it holds ([ReaderView.speech]). *)

From Stdlib Require Import SpecFloat.
From S2P Require Import Prelude Geometry Input AndroidEvents InputTransport InputState Dispatcher DispatchTargets DispatchLoop.
From S2P Require Import DispatchMemory ReaderData ReaderLoop ReaderView.

(** ** The world *)

(** [log] is what the listener has been told and the events that were read.  The hub's
    events have the types that [EventHub.h] has and times of 64 bits. *)
Class ReaderLaws (K : Type) `{EventHub K} `{InputListener K} : Type := {
  log : K -> list NotifyArgs * list RawEvent;
  log_notify a k : log (listener_notify a k) = (fst (log k) ++ [a], snd (log k));
  log_led id led on k : log (hub_setLedState id led on k) = log k;
  log_overlay id k : log (snd (hub_setKeyboardLayoutOverlay id k)) = log k;
  log_excluded names k : log (hub_setExcludedDevices names k) = log k;
  log_vibrate id t k : log (hub_vibrate id t k) = log k;
  log_cancel id k : log (hub_cancelVibrate id k) = log k;
  log_reopen k : log (hub_requestReopenDevices k) = log k;
  log_wake k : log (hub_wake k) = log k;
  log_events t k : log (snd (hub_getEvents t k)) = (fst (log k), snd (log k) ++ fst (hub_getEvents t k));
  log_time k : log (snd (systemTime k)) = log k;
  events_known t k e :
    e ∈ fst (hub_getEvents t k) ->
    LONG_LONG_MIN <= re_when e /\
    (synthetic e = true -> re_type e ∈ [DEVICE_ADDED; DEVICE_REMOVED; FINISHED_DEVICE_SCAN]);
}.

(** The devices are keyboards, game pads, mice, switches and vibrators, with any of
    these together: none is a touch screen, a touch pad or a joystick. *)
Definition no_touch_or_joystick (K : Type) `{EventHub K} : Prop :=
  forall id (k : K),
    has (hub_getDeviceClasses id k)
      (Z.lor (Z.lor INPUT_DEVICE_CLASS_TOUCH INPUT_DEVICE_CLASS_TOUCH_MT) INPUT_DEVICE_CLASS_JOYSTICK) = false.

(** What the reader relies on its policy for. *)
Class PolicyLaws (K : Type) `{ReaderLaws K} `{ReaderPolicy K} : Prop := {
  log_devices l k : log (notifyInputDevicesChanged l k) = log k;
  controllers_known id : obtainPointerController id = true;
  orientations_known k c :
    orientation_ok (di_orientation (mInternalDisplay c)) ->
    orientation_ok (di_orientation (mInternalDisplay (getReaderConfiguration k c)));
}.

#[export] Instance mir_policy_laws (area : Rectangle) (K : Type) `{ReaderLaws K} : PolicyLaws K (H2 := mir_policy area K).
Proof. by split. Qed.

Section Steps.
Context {K O : Type} `{HEventHub : EventHub K} `{HPolicy : ReaderPolicy K} `{HListener : InputListener K}.
Context `{HOther : OtherMappers K O} `{HTracker : VelocityTracker} `{HLaws : !ReaderLaws K} `{HPLaws : !PolicyLaws K}.
Context (area : Rectangle) (has_listener : bool).
Implicit Types r : InputReader K O.
Implicit Types d : InputDevice O.
Implicit Types m : InputMapper O.

Abbreviation R := (M (InputReader K O)).

(** What has been told and read, and what is about to be told. *)
Definition told r : list NotifyArgs * list RawEvent * list NotifyArgs := (log (rc_world (rd_context r)), mArgsQueue (rd_context r)).

(** Only touch screens disable virtual keys. *)
Definition known r : Prop :=
  (forall id, id ∈ OrdMap.keys (mDevices r) -> is_Some (rd_objects r !! id)) /\
  mDisableVirtualKeysTimeout (rd_context r) = LONG_LONG_MIN.

(** ** Functions that tell nothing *)

Definition same r r' : Prop :=
  rd_objects r' = rd_objects r /\ mDevices r' = mDevices r /\ mConfig r' = mConfig r /\ told r' = told r /\
  mDisableVirtualKeysTimeout (rd_context r') = mDisableVirtualKeysTimeout (rd_context r).

Lemma same_refl r : same r r.
Proof. done. Qed.

Lemma same_trans r r' r'' : same r r' -> same r' r'' -> same r r''.
Proof. unfold same. intuition congruence. Qed.

Lemma same_known r r' : same r r' -> known r -> known r'.
Proof. intros (Ho & Hd & _ & _ & Hv). unfold known. by rewrite Ho, Hd, Hv. Qed.

Definition quiet {A} (op : R A) : Prop := forall r, known r -> returns op (fun _ r' => same r r') r.

Lemma quiet_mret {A} (a : A) : quiet (mret a).
Proof. by intros r _. Qed.

Lemma quiet_read {A} (f : InputReader K O -> A) : quiet (gets f).
Proof. by intros r _. Qed.

Lemma quiet_then {A B} (op : R A) (k : A -> R B) : quiet op -> (forall a, quiet (k a)) -> quiet (op ≫= k).
Proof.
  intros Hop Hk r Hr. apply returns_bind. eapply returns_mono; [by apply Hop|]. intros a r' Hs.
  eapply returns_mono; [apply Hk; exact (same_known _ _ Hs Hr)|]. intros b r'' Hs'. exact (same_trans _ _ _ Hs Hs').
Qed.

Lemma quiet_context (f : ReaderContext K -> ReaderContext K) :
  (forall c, mArgsQueue (f c) = mArgsQueue c /\ log (rc_world (f c)) = log (rc_world c) /\
             mDisableVirtualKeysTimeout (f c) = mDisableVirtualKeysTimeout c) -> quiet (context_do f).
Proof.
  intros Hf r _. unfold returns, context_do, modify. destruct (Hf (rd_context r)) as (Hq & Hw & Hv).
  unfold same, told. cbn. by rewrite Hq, Hw, Hv.
Qed.

Lemma quiet_hub (f : K -> K) : (forall k, log (f k) = log k) -> quiet (hub_do f).
Proof. intros Hf. apply quiet_context. intros c. split_and!; [done|apply Hf|done]. Qed.

Lemma quiet_call {A} (f : K -> A * K) : (forall k, log (snd (f k)) = log k) -> quiet (hub_call f).
Proof.
  intros Hf r _. unfold returns, hub_call. specialize (Hf (rc_world (rd_context r))).
  destruct (f _) as [t k]. unfold same, told. cbn in *. by rewrite Hf.
Qed.

Lemma quiet_time : quiet current_time.
Proof. apply quiet_call, log_time. Qed.

(** A loop over the devices that have been added. *)
Lemma quiet_devices (f : Z -> R unit) :
  (forall id r, known r -> is_Some (rd_objects r !! id) -> returns (f id) (fun _ r' => same r r') r) ->
  quiet (ids ← device_ids ; for_each ids f).
Proof.
  intros Hf r Hr. apply returns_bind, returns_gets.
  apply (returns_for_each _ _ (fun r' => same r r')); [|apply same_refl]. intros id r' Hid Hs.
  eapply returns_mono; [apply Hf; [exact (same_known _ _ Hs Hr)|]|intros ? r'' Hs'; exact (same_trans _ _ _ Hs Hs')].
  destruct Hs as (-> & _). by apply (proj1 Hr).
Qed.

Lemma returns_device id (P : InputDevice O -> InputReader K O -> Prop) r d :
  rd_objects r !! id = Some d -> P d r -> returns (device id) P r.
Proof. intros Hd. by apply returns_deref. Qed.

Lemma quiet_meta : quiet updateGlobalMetaStateLocked.
Proof.
  apply quiet_then; [by apply quiet_context|]. intros _. apply quiet_devices. intros id r Hr [d Hd].
  apply returns_bind. eapply returns_device; [done|]. by apply quiet_context.
Qed.

Lemma quiet_fade : quiet fadePointerLocked.
Proof.
  apply quiet_devices. intros id r Hr [d Hd]. apply returns_bind, returns_bind. eapply returns_device; [done|].
  apply returns_ret. apply (returns_for_each _ _ (fun r' => same r r')); [|apply same_refl].
  intros i r' [_ Hi]%elem_of_seq Hs. destruct (lookup_lt_is_Some_2 (mMappers d) i Hi) as [m Hm]. apply returns_bind.
  eapply (returns_deref _ _ _ m); [destruct Hs as (-> & _); by rewrite Hd|].
  eapply returns_mono; [|intros ? r'' Hs'; exact (same_trans _ _ _ Hs Hs')].
  destruct m; cbn; try apply same_refl. case_match; [apply quiet_context; [done|exact (same_known _ _ Hs Hr)]|apply same_refl].
Qed.

Lemma quiet_timeout t : quiet (requestTimeoutAtTimeLocked t).
Proof.
  apply quiet_then; [apply quiet_read|]. intros n. case_match; [|apply quiet_mret].
  apply quiet_then; [by apply quiet_context|]. intros _. apply quiet_hub, log_wake.
Qed.

Lemma quiet_bump : quiet bumpGenerationLocked.
Proof. apply quiet_then; [by apply quiet_context|]. intros _. apply quiet_read. Qed.

Lemma quiet_ask {A} (f : K -> A) : quiet (hub_ask f).
Proof. apply quiet_read. Qed.

Lemma quiet_pointer f : quiet (pointer_do f).
Proof. by apply quiet_context. Qed.

(** ** Functions on one device *)

Definition here id d r : Prop := rd_objects r !! id = Some d /\ known r.

(** The device is changed, and [l] told. *)
Definition moves id d (l : list NotifyArgs) r r' : Prop :=
  rd_objects r' = <[ id := d ]> (rd_objects r) /\ mDevices r' = mDevices r /\ mConfig r' = mConfig r /\
  told r' = (fst (told r), snd (told r) ++ l) /\
  mDisableVirtualKeysTimeout (rd_context r') = mDisableVirtualKeysTimeout (rd_context r).

Lemma moves_here id d d' l r r' : here id d r -> moves id d' l r r' -> here id d' r'.
Proof.
  intros [Hd [Hk Hv]] (Ho & Hm & _ & _ & Hv'). split; [rewrite Ho; apply lookup_insert_eq|]. split; [|congruence]. intros j. rewrite Hm, Ho. intros Hj.
  destruct (decide (id = j)) as [<-|Hne]; [rewrite lookup_insert_eq; eauto|]. rewrite lookup_insert_ne by done. by apply Hk.
Qed.

Lemma moves_trans id d d' l l' r r' r'' : moves id d l r r' -> moves id d' l' r' r'' -> moves id d' (l ++ l') r r''.
Proof.
  intros (O1 & M1 & C1 & T1 & D1) (O2 & M2 & C2 & T2 & D2). unfold moves.
  rewrite O2, M2, C2, T2, D2, O1, M1, C1, T1, D1, insert_insert_eq. cbn. by rewrite app_assoc.
Qed.

Lemma moves_same id d r r' : here id d r -> same r r' -> moves id d [] r r'.
Proof. intros [Hd _] (Ho & Hm & Hc & Ht & Hv). unfold moves. rewrite insert_id, app_nil_r by done. by destruct (told r). Qed.

Definition does {A} id d (op : R A) (P : A -> InputDevice O -> list NotifyArgs -> Prop) : Prop :=
  forall r, here id d r -> returns op (fun a r' => exists d' l, moves id d' l r r' /\ P a d' l) r.

Lemma does_mono {A} id d (op : R A) (P Q : A -> InputDevice O -> list NotifyArgs -> Prop) :
  does id d op P -> (forall a d' l, P a d' l -> Q a d' l) -> does id d op Q.
Proof. intros Hop HPQ r Hr. eapply returns_mono; [by apply Hop|]. intros a r' (d' & l & Hm & HP). eauto. Qed.

Lemma does_ret {A} id d (a : A) (P : A -> InputDevice O -> list NotifyArgs -> Prop) : P a d [] -> does id d (mret a) P.
Proof. intros HP r Hr. apply returns_ret. exists d, []. split; [|done]. by apply moves_same. Qed.

Lemma does_bind {A B} id d (op : R A) (k : A -> R B) P Q :
  does id d op P -> (forall a d' l, P a d' l -> does id d' (k a) (fun b d'' l' => Q b d'' (l ++ l'))) ->
  does id d (op ≫= k) Q.
Proof.
  intros Hop Hk r Hr. apply returns_bind. eapply returns_mono; [by apply Hop|]. intros a r' (d' & l & Hm & HP).
  eapply returns_mono; [apply (Hk _ _ _ HP); by eapply moves_here|]. intros b r'' (d'' & l' & Hm' & HQ).
  exists d'', (l ++ l'). split; [by eapply moves_trans|done].
Qed.

Lemma does_quiet {A B} id d (op : R A) (k : A -> R B) Q :
  quiet op -> (forall a, does id d (k a) Q) -> does id d (op ≫= k) Q.
Proof.
  intros Hop Hk. eapply (does_bind _ _ _ _ (fun _ d' l => d' = d /\ l = [])).
  - intros r Hr. eapply returns_mono; [apply Hop, Hr|]. intros a r' Hs. exists d, []. split; [by apply moves_same|done].
  - by intros a d' l [-> ->].
Qed.

Lemma does_device {B} id d (k : InputDevice O -> R B) Q : does id d (k d) Q -> does id d (device id ≫= k) Q.
Proof. intros Hk r Hr. apply returns_bind. eapply returns_device; [apply Hr|]. by apply Hk. Qed.

Lemma does_put id d d' (Q : unit -> InputDevice O -> list NotifyArgs -> Prop) : Q tt d' [] -> does id d (put_device id d') Q.
Proof. intros HQ r Hr. exists d', []. split; [|done]. unfold moves. by rewrite app_nil_r. Qed.

Lemma does_notify id d a (Q : unit -> InputDevice O -> list NotifyArgs -> Prop) : Q tt d [a] -> does id d (notify a) Q.
Proof.
  intros HQ r [Hr _]. exists d, [a]. split; [|done]. unfold moves. by rewrite insert_id.
Qed.

Lemma does_put_bind {B} id d d' (k : unit -> R B) Q : does id d' (k tt) Q -> does id d (put_device id d' ≫= k) Q.
Proof. intros Hk. eapply (does_bind _ _ _ _ (fun _ d1 l => d1 = d' /\ l = [])); [by apply does_put|]. by intros [] d1 l [-> ->]. Qed.

(** ** Functions on one mapper *)

Definition acts {A} id i m (op : R A) (P : A -> InputMapper O -> list NotifyArgs -> Prop) : Prop :=
  forall d, mMappers d !! i = Some m ->
  does id d op (fun a d' l => exists m', mMappers d' = <[ i := m' ]> (mMappers d) /\ mDropUntilNextSync d' = mDropUntilNextSync d /\ P a m' l).

Lemma acts_mono {A} id i m (op : R A) (P Q : A -> InputMapper O -> list NotifyArgs -> Prop) :
  acts id i m op P -> (forall a m' l, P a m' l -> Q a m' l) -> acts id i m op Q.
Proof. intros Hop HPQ d Hd. eapply does_mono; [by apply Hop|]. intros a d' l (m' & Hm & HP). naive_solver. Qed.

Lemma acts_bind {A B} id i m (op : R A) (k : A -> R B) P Q :
  acts id i m op P -> (forall a m' l, P a m' l -> acts id i m' (k a) (fun b m'' l' => Q b m'' (l ++ l'))) ->
  acts id i m (op ≫= k) Q.
Proof.
  intros Hop Hk d Hd. eapply does_bind; [by apply Hop|]. intros a d' l (m' & Hm & Hdr & HP). eapply does_mono.
  - apply (Hk _ _ _ HP). rewrite Hm. apply list_lookup_insert_eq. by eapply lookup_lt_Some.
  - intros b d'' l' (m'' & Hm'' & Hdr' & HQ). exists m''. split_and!; [|congruence|done]. by rewrite Hm'', Hm, list_insert_insert_eq.
Qed.

Lemma acts_ret {A} id i m (a : A) (P : A -> InputMapper O -> list NotifyArgs -> Prop) : P a m [] -> acts id i m (mret a) P.
Proof. intros HP d Hd. apply does_ret. exists m. by rewrite list_insert_id. Qed.

Lemma acts_quiet {A B} id i m (op : R A) (k : A -> R B) Q :
  quiet op -> (forall a, acts id i m (k a) Q) -> acts id i m (op ≫= k) Q.
Proof. intros Hop Hk d Hd. apply does_quiet; [done|]. intros a. by apply Hk. Qed.

Lemma acts_device {B} id i m (k : InputDevice O -> R B) Q :
  (forall d, acts id i m (k d) Q) -> acts id i m (device id ≫= k) Q.
Proof. intros Hk d Hd. apply does_device. by apply Hk. Qed.

Lemma acts_notify id i m a (P : unit -> InputMapper O -> list NotifyArgs -> Prop) : P tt m [a] -> acts id i m (notify a) P.
Proof. intros HP d Hd. apply does_notify. exists m. by rewrite list_insert_id. Qed.

Lemma acts_deref {A B} id i m (f : InputReader K O -> option A) (k : A -> R B) Q a :
  (forall r d, rd_objects r !! id = Some d -> mMappers d !! i = Some m -> f r = Some a) ->
  acts id i m (k a) Q -> acts id i m (deref f ≫= k) Q.
Proof.
  intros Hf Hk d Hd r Hr. apply returns_bind. eapply returns_deref; [eapply Hf; [apply Hr|done]|]. by apply Hk.
Qed.

Lemma acts_mapper {B} id i m (k : InputMapper O -> R B) Q : acts id i m (k m) Q -> acts id i m (mapper id i ≫= k) Q.
Proof. apply acts_deref. intros r d Hr Hd. by rewrite Hr. Qed.

Lemma acts_keyboard {B} id i kb (k : KeyboardInputMapper -> R B) Q :
  acts id i (Keyboard_mapper kb) (k kb) Q -> acts id i (Keyboard_mapper kb) (keyboard id i ≫= k) Q.
Proof. apply acts_deref. intros r d Hr Hd. rewrite Hr. cbn. by rewrite Hd. Qed.

Lemma acts_cursor {B} id i c (k : CursorInputMapper -> R B) Q :
  acts id i (Cursor_mapper c) (k c) Q -> acts id i (Cursor_mapper c) (cursor id i ≫= k) Q.
Proof. apply acts_deref. intros r d Hr Hd. rewrite Hr. cbn. by rewrite Hd. Qed.

Lemma acts_vibrator {B} id i v (k : VibratorInputMapper -> R B) Q :
  acts id i (Vibrator_mapper v) (k v) Q -> acts id i (Vibrator_mapper v) (vibrator id i ≫= k) Q.
Proof. apply acts_deref. intros r d Hr Hd. rewrite Hr. cbn. by rewrite Hd. Qed.

Lemma acts_put id i m m' (P : unit -> InputMapper O -> list NotifyArgs -> Prop) : P tt m' [] -> acts id i m (put_mapper id i m') P.
Proof. intros HP d Hd. apply does_device, does_put. by exists m'. Qed.

Lemma acts_put_bind {B} id i m m' (k : unit -> R B) Q :
  acts id i m' (k tt) Q -> acts id i m (put_mapper id i m' ≫= k) Q.
Proof.
  intros Hk. eapply (acts_bind _ _ _ _ _ (fun _ m1 l => m1 = m' /\ l = [])); [by apply acts_put|]. by intros [] m1 l [-> ->].
Qed.

Lemma acts_quiet_last {A} id i m (op : R A) P : quiet op -> (forall a, P a m []) -> acts id i m op P.
Proof.
  intros Hop HP d Hd r Hr. eapply returns_mono; [apply Hop, Hr|]. intros a r' Hs. exists d, []. split; [by apply moves_same|].
  exists m. by rewrite list_insert_id.
Qed.

(** ** Keyboards *)

(** The keyboard, but for its lights, times and modifiers, with these keys down. *)
Definition keyboard_with (k : KeyboardInputMapper) (keys : list KeyDown) m : Prop :=
  exists k', m = Keyboard_mapper k' /\ kb_source k' = kb_source k /\ kb_orientation k' = kb_orientation k /\ mKeyDowns k' = keys.

Lemma quiet_ledState id metaState led modifier reset s : quiet (updateLedStateForModifier (O := O) id metaState led modifier reset s).
Proof.
  unfold updateLedStateForModifier. repeat case_match; try apply quiet_mret. apply quiet_then; [apply quiet_hub, log_led|].
  intros _. apply quiet_mret.
Qed.

Lemma updateLedState_acts id i k reset :
  acts id i (Keyboard_mapper k) (updateLedState id i reset) (fun _ m' l => l = [] /\ keyboard_with k (mKeyDowns k) m').
Proof.
  apply acts_keyboard. do 3 (apply acts_quiet; [apply quiet_ledState|intros ?]). apply acts_keyboard, acts_put.
  split; [done|]. by eexists.
Qed.

Lemma keyboard_reset_acts id i k :
  acts id i (Keyboard_mapper k) (keyboard_reset id i) (fun _ m' l => l = [] /\ keyboard_with k [] m').
Proof.
  apply acts_keyboard, acts_put_bind. unfold resetLedState, initializeLedState.
  do 3 (apply acts_quiet; [apply quiet_then; [apply quiet_ask|intros ?; apply quiet_mret]|intros ?]).
  apply acts_keyboard, acts_put_bind. eapply acts_mono; [apply updateLedState_acts|]. intros _ m' l [-> (k' & -> & Hs & Ho & Hk)].
  split; [done|]. by eexists.
Qed.

(** The keys that are down, before and after one goes down or up. *)
Definition key_change (down : bool) (kd : KeyDown) (keys keys' : list KeyDown) : Prop :=
  NoDup (kd_scanCode <$> keys') /\
  if down then forall x, x ∈ keys' <-> x ∈ keys \/ x = kd
  else kd ∈ keys /\ forall x, x ∈ keys' <-> x ∈ keys /\ x <> kd.

Lemma key_change_delete (keys : list KeyDown) n kd :
  NoDup (kd_scanCode <$> keys) -> keys !! n = Some kd -> key_change false kd keys (delete n keys).
Proof.
  intros Hd Hn. pose proof (delete_Permutation _ _ _ Hn) as Hp. rewrite Hp in Hd. apply NoDup_cons in Hd as [Hni Hd].
  split; [done|]. split; [by eapply list_elem_of_lookup_2|]. intros x. setoid_rewrite Hp at 2. rewrite elem_of_cons.
  split; [|intros [[->|?] ?]; done]. intros Hx. split; [by right|]. intros ->. apply Hni. by apply list_elem_of_fmap_2.
Qed.

Lemma key_change_push (keys : list KeyDown) kd :
  NoDup (kd_scanCode <$> keys) -> Forall (fun x => kd_scanCode x <> kd_scanCode kd) keys -> key_change true kd keys (keys ++ [kd]).
Proof.
  intros Hd Hf. split.
  - rewrite fmap_app. apply NoDup_app. split_and!; [done| |by apply NoDup_singleton]. intros c (x & -> & Hx)%list_elem_of_fmap Hc.
    apply list_elem_of_singleton in Hc. rewrite Forall_forall in Hf. by apply (Hf x).
  - intros x. by rewrite elem_of_app, list_elem_of_singleton.
Qed.

Lemma key_change_repeat (keys : list KeyDown) kd : NoDup (kd_scanCode <$> keys) -> kd ∈ keys -> key_change true kd keys keys.
Proof. intros Hd Hin. split; [done|]. intros x. split; [by left|]. by intros [?| ->]. Qed.

Lemma rotateKeyCode_some kc o : orientation_ok o -> is_Some (rotateKeyCode kc o).
Proof.
  intros Ho. unfold rotateKeyCode. case_match; [done|]. destruct (List.find _ _) as [row|] eqn:Hrow; [|done].
  apply find_some in Hrow as [Hrow _]. unfold orientation_ok in Ho. rewrite (proj2 (Z.ltb_ge o 0)) by lia.
  apply lookup_lt_is_Some. repeat destruct Hrow as [<-|Hrow]; try done; cbn; lia.
Qed.

(** *** The keys that the hardware has down *)

(** The scan codes, whatever the keys are called. *)
Definition key_codes (keys : list KeyDown) : gset Z := list_to_set (kd_scanCode <$> keys).

(** What an event says of them. *)
Definition key_step (e : RawEvent) (codes : gset Z) : gset Z :=
  if (re_type e =? EV_KEY) && isKeyboardOrGamepadKey (re_code e) then
    if re_value e =? 0 then codes ∖ {[ re_code e ]} else codes ∪ {[ re_code e ]}
  else codes.

Lemma elem_of_codes sc keys : sc ∈ key_codes keys <-> exists kd, kd ∈ keys /\ kd_scanCode kd = sc.
Proof. unfold key_codes. rewrite elem_of_list_to_set, list_elem_of_fmap. naive_solver. Qed.

Lemma key_change_codes (down : bool) kd keys keys' :
  NoDup (kd_scanCode <$> keys) -> key_change down kd keys keys' ->
  key_codes keys' = (if down then key_codes keys ∪ {[ kd_scanCode kd ]}
   else key_codes keys ∖ {[ kd_scanCode kd ]}).
Proof.
  intros Hd [_ Hc]. apply set_eq. intros sc. destruct down.
  - rewrite elem_of_union, elem_of_singleton, !elem_of_codes. setoid_rewrite Hc. naive_solver.
  - destruct Hc as [Hin Hc]. rewrite elem_of_difference, elem_of_singleton, !elem_of_codes. setoid_rewrite Hc. split.
    + intros (x & [Hx Hne] & <-). split; [eauto|]. intros Heq. apply Hne. by apply (NoDup_fmap_same kd_scanCode keys).
    + intros [(x & Hx & <-) Hne]. exists x. split; [|done]. split; [done|]. by intros ->.
Qed.

(** The keys of a mapper that is a keyboard become these. *)
Definition keyed (f : gset Z -> gset Z) m m' : Prop :=
  match m, m' with
  | Keyboard_mapper k, Keyboard_mapper k' => key_codes (mKeyDowns k') = f (key_codes (mKeyDowns k))
  | Keyboard_mapper _, _ | _, Keyboard_mapper _ => False
  | _, _ => True
  end.

Lemma keyed_id m : keyed (fun s => s) m m.
Proof. by destruct m. Qed.

Lemma keyed_trans f g m m' m'' : keyed f m m' -> keyed g m' m'' -> keyed (fun s => g (f s)) m m''.
Proof. destruct m, m', m''; cbn; try done. by intros -> ->. Qed.

(** Others are no keyboards, as their sources show. *)
Lemma keyed_other id f m l m' :
  mapper_ok m -> (forall k, m <> Keyboard_mapper k) -> speech id m l m' -> keyed f m m'.
Proof.
  intros Hok Hne (Hs & Hok' & _). destruct m as [|v|k|c|o], m' as [|v'|k'|c'|o']; cbn in *; try done; [by destruct (Hne k)..|].
  injection Hs as Hs. unfold AINPUT_SOURCE_MOUSE, AINPUT_SOURCE_TRACKBALL in *. lia.
Qed.

Lemma acts_read {A B} id i m (f : InputReader K O -> A) (k : A -> R B) Q a :
  (forall r, known r -> f r = a) -> acts id i m (k a) Q -> acts id i m (gets f ≫= k) Q.
Proof. intros Hf Hk d Hd r Hr. apply returns_bind, returns_gets. rewrite (Hf r (proj2 Hr)). by apply Hk. Qed.

(** What [processKey] says, unless a key goes up that was not down. *)
Lemma key_down_or_up_acts id i k t (down : bool) keyCode scanCode flags :
  LONG_LONG_MIN <= t -> mapper_ok (Keyboard_mapper (O := O) k) ->
  acts id i (Keyboard_mapper k) (key_down_or_up id i t down keyCode scanCode flags) (fun o m' l =>
    l = [] /\
    match o with
    | None => down = false /\ (scanCode ∉ key_codes (mKeyDowns k)) /\ keyboard_with k (mKeyDowns k) m'
    | Some kc => exists keys, key_change down (mkKeyDown kc scanCode) (mKeyDowns k) keys /\ keyboard_with k keys m'
    end).
Proof.
  intros Ht (Hd & Ho & _). apply acts_keyboard. unfold findKeyDown. destruct down.
  - eapply (acts_bind _ _ _ _ _ (fun _ m' l => m' = Keyboard_mapper k /\ l = [])).
    { case_match; [|by apply acts_ret]. destruct (rotateKeyCode_some keyCode _ Ho) as [kc Hkc].
      intros d Hd' r Hr. eapply returns_deref; [exact Hkc|]. exists d, []. split; [by apply moves_same|]. exists (Keyboard_mapper k).
      by rewrite list_insert_id. }
    intros kc m' l [-> ->]. destruct (list_find _ _) as [[n kd]|] eqn:Hf.
    + apply list_find_Some in Hf as (Hn & Hsc & _). apply acts_put_bind, acts_ret. split; [done|]. exists (mKeyDowns k).
      split; [|by eexists]. destruct kd as [c sc]. cbn in *. subst sc. apply key_change_repeat; [done|]. by eapply list_elem_of_lookup_2.
    + apply list_find_None in Hf. apply (acts_bind _ _ _ _ _ (fun o m' l => o = false /\ m' = Keyboard_mapper k /\ l = [])).
      { case_match; [|by apply acts_ret]. intros d Hd' r Hr. exists d, []. split; [by apply moves_same|]. exists (Keyboard_mapper k).
        rewrite list_insert_id by done. split_and!; try done. rewrite (proj2 (proj2 Hr)). apply Z.ltb_ge. lia. }
      intros o m' l (-> & -> & ->). apply acts_put_bind, acts_ret. split; [done|]. eexists. split; [by apply key_change_push|]. by eexists.
  - destruct (list_find _ _) as [[n kd]|] eqn:Hf.
    2: { apply list_find_None in Hf. apply acts_ret. split_and!; [done..| |by eexists]. intros (x & Hx & Hsc)%elem_of_codes.
         rewrite Forall_forall in Hf. by apply (Hf x). }
    apply list_find_Some in Hf as (Hn & Hsc & _). apply acts_put_bind, acts_ret. split; [done|]. eexists.
    split; [|by eexists]. destruct kd as [c sc]. cbn in *. subst sc. by apply key_change_delete.
Qed.

Lemma keyboard_silent id k m' :
  mapper_ok (Keyboard_mapper (O := O) k) -> keyboard_with k (mKeyDowns k) m' -> speech id (Keyboard_mapper k) [] m'.
Proof.
  intros (Hd & Ho & Hs) (k' & -> & Hs' & Ho' & Hk'). apply speech_silent; cbn; rewrite ?Hs', ?Ho', ?Hk'; done.
Qed.

Lemma keyboard_speech id k m' (down : bool) kd keys a :
  mapper_ok (Keyboard_mapper (O := O) k) -> key_change down kd (mKeyDowns k) keys -> keyboard_with k keys m' ->
  key_says id (kb_source k) (if down then AKEY_EVENT_ACTION_DOWN else AKEY_EVENT_ACTION_UP) (kd_keyCode kd) (kd_scanCode kd) a ->
  speech id (Keyboard_mapper k) [a] m'.
Proof.
  intros (Hd & Ho & Hs) [Hd' Hc] (k' & -> & Hs' & Ho' & Hk') Ha.
  assert (mapper_ok (Keyboard_mapper (O := O) k')) by (cbn; by rewrite Hk', Ho', Hs'). destruct down.
  - eapply speech_key_down; [done..|by rewrite Hk'|done].
  - destruct Hc as [Hin Hc]. eapply speech_key_up; [done..|by rewrite Hk'|done].
Qed.

Lemma processKey_acts id i k t (down : bool) keyCode scanCode flags :
  LONG_LONG_MIN <= t -> mapper_ok (Keyboard_mapper (O := O) k) ->
  acts id i (Keyboard_mapper k) (processKey id i t down keyCode scanCode flags) (fun _ m' l => speech id (Keyboard_mapper k) l m' /\
    keyed (fun s => if down then s ∪ {[ scanCode ]} else s ∖ {[ scanCode ]}) (Keyboard_mapper k) m').
Proof.
  intros Ht Hok. eapply acts_bind; [by apply key_down_or_up_acts|]. intros [kc|] m1 l [-> H1].
  2: { destruct H1 as (-> & Hni & Hk). apply acts_ret. split; [by apply keyboard_silent|].
       destruct Hk as (k1 & -> & _ & _ & Hk). cbn. rewrite Hk. set_solver. }
  destruct H1 as (keys & Hc & k1 & -> & Hs1 & Ho1 & Hk1). apply acts_keyboard.
  eapply (acts_bind _ _ _ _ _ (fun _ m2 l => l = [] /\ keyboard_with k keys m2)).
  { case_match; [|apply acts_ret; split; [done|by eexists]]. apply acts_put_bind. eapply acts_mono; [apply updateLedState_acts|].
    intros _ m2 l [-> (k2 & -> & Hs2 & Ho2 & Hk2)]. split; [done|]. exists k2. split_and!; [done|..]; cbn in *; congruence. }
  intros _ m2 l [-> (k2 & -> & Hs2 & Ho2 & Hk2)]. apply acts_keyboard, acts_device. intros d.
  apply acts_quiet; [case_match; [apply quiet_meta|apply quiet_mret]|intros _].
  apply acts_quiet; [case_match; [apply quiet_fade|apply quiet_mret]|intros _]. apply acts_notify.
  split; [eapply keyboard_speech; [done|exact Hc|by eexists|]; cbn; rewrite Hs2; by destruct down|]. cbn. rewrite Hk2.
  by apply (key_change_codes _ _ _ _ (proj1 Hok) Hc).
Qed.

Lemma keyboard_process_acts id i k e :
  LONG_LONG_MIN <= re_when e -> mapper_ok (Keyboard_mapper (O := O) k) ->
  acts id i (Keyboard_mapper k) (keyboard_process id i e) (fun _ m' l =>
    speech id (Keyboard_mapper k) l m' /\ keyed (key_step e) (Keyboard_mapper k) m').
Proof.
  intros Ht Hok. assert (forall u, keyboard_with k (mKeyDowns k) (Keyboard_mapper (kb_set_hidUsage u k))) as Hu by (intros u; by eexists).
  unfold keyboard_process, key_step. destruct (re_type e =? EV_KEY) eqn:He; rewrite ?andb_true_l, ?andb_false_l.
  2: { destruct (re_type e =? EV_MSC); [case_match|case_match].
       1, 3: apply acts_keyboard, acts_put; split; [by apply keyboard_silent|done].
       all: apply acts_ret; split; [by apply speech_refl|done]. }
  apply acts_keyboard, acts_put_bind. pose proof (keyboard_silent id k _ Hok (Hu 0)) as Hs.
  case_match; [|by apply acts_ret]. apply acts_quiet; [apply quiet_ask|]. intros mapped.
  destruct (match mapped with Some m => m | None => _ end) as [kc fl]. eapply acts_mono; [apply processKey_acts; [exact Ht|exact Hok]|].
  intros ? m' l [Hsp Hk]. split; [exact (speech_trans _ _ _ _ _ _ Hs Hsp)|]. by destruct (re_value e =? 0).
Qed.

(** ** Mice *)

Lemma button_down_acts id i m t s flags last cur bit (back : bool) :
  acts id i m (synthesizeButtonKey AKEY_EVENT_ACTION_DOWN t id s flags last cur bit (button_code back)) (fun _ m' l =>
    m' = m /\ forall b f (d : bool), (if back then b else f) = has last bit ->
      tells id s b f d l (back && has cur bit || b) (negb back && has cur bit || f) d).
Proof.
  unfold synthesizeButtonKey. cbn [AKEY_EVENT_ACTION_DOWN AKEY_EVENT_ACTION_UP]. change (_ =? AKEY_EVENT_ACTION_DOWN) with true.
  change (_ =? AKEY_EVENT_ACTION_UP) with false. rewrite !andb_false_l, orb_false_r, andb_true_l.
  destruct (has last bit) eqn:Hl, (has cur bit) eqn:Hc; cbn [negb andb];
    try (apply acts_ret; split; [done|]; intros b f d Hb; destruct back, b, f; cbn in *; try done; apply tells_nil).
  apply acts_quiet; [apply quiet_read|]. intros meta. apply acts_notify. split; [done|]. intros b f d Hb.
  rewrite !andb_true_r. by apply tells_key_down.
Qed.

Lemma button_up_acts id i m t s flags last cur bit (back : bool) :
  acts id i m (synthesizeButtonKey AKEY_EVENT_ACTION_UP t id s flags last cur bit (button_code back)) (fun _ m' l =>
    m' = m /\ forall b f (d : bool), (if back then b else f) = has cur bit || has last bit ->
      tells id s b f d l (if back then has cur bit else b) (if back then f else has cur bit) d).
Proof.
  unfold synthesizeButtonKey. change (_ =? AKEY_EVENT_ACTION_DOWN) with false.
  change (_ =? AKEY_EVENT_ACTION_UP) with true. rewrite !andb_false_l, orb_false_l, andb_true_l.
  destruct (has last bit) eqn:Hl, (has cur bit) eqn:Hc; cbn [negb andb orb];
    try (apply acts_ret; split; [done|]; intros b f d Hb; destruct back; rewrite <- Hb; apply tells_nil).
  apply acts_quiet; [apply quiet_read|]. intros meta. apply acts_notify. split; [done|]. intros b f d Hb.
  assert (forall x y, tells id s b f d x (negb back && b) (back && f) y -> tells id s b f d x (if back then false else b) (if back then f else false) y)
    as Hx by (by destruct back).
  by apply Hx, tells_key_up.
Qed.

Lemma buttons_down_acts id i m t s flags last cur :
  acts id i m (synthesizeButtonKeys AKEY_EVENT_ACTION_DOWN t id s flags last cur) (fun _ m' l =>
    m' = m /\ forall d : bool,
      tells id s (has last AMOTION_EVENT_BUTTON_BACK) (has last AMOTION_EVENT_BUTTON_FORWARD) d l
        (has cur AMOTION_EVENT_BUTTON_BACK || has last AMOTION_EVENT_BUTTON_BACK)
        (has cur AMOTION_EVENT_BUTTON_FORWARD || has last AMOTION_EVENT_BUTTON_FORWARD) d).
Proof.
  eapply acts_bind; [apply (button_down_acts _ _ _ _ _ _ _ _ _ true)|]. intros _ m1 l1 [-> H1].
  eapply acts_mono; [apply (button_down_acts _ _ _ _ _ _ _ _ _ false)|]. intros _ m2 l2 [-> H2]. split; [done|]. intros d.
  eapply tells_app; [by apply H1|by apply H2].
Qed.

Lemma buttons_up_acts id i m t s flags last cur :
  acts id i m (synthesizeButtonKeys AKEY_EVENT_ACTION_UP t id s flags last cur) (fun _ m' l =>
    m' = m /\ forall d : bool,
      tells id s (has cur AMOTION_EVENT_BUTTON_BACK || has last AMOTION_EVENT_BUTTON_BACK)
        (has cur AMOTION_EVENT_BUTTON_FORWARD || has last AMOTION_EVENT_BUTTON_FORWARD) d l
        (has cur AMOTION_EVENT_BUTTON_BACK) (has cur AMOTION_EVENT_BUTTON_FORWARD) d).
Proof.
  eapply acts_bind; [apply (button_up_acts _ _ _ _ _ _ _ _ _ true)|]. intros _ m1 l1 [-> H1].
  eapply acts_mono; [apply (button_up_acts _ _ _ _ _ _ _ _ _ false)|]. intros _ m2 l2 [-> H2]. split; [done|]. intros d.
  eapply tells_app; [by apply H1|by apply H2].
Qed.

Lemma send_motions_acts id i m t s flags action buttons downTime c scrolled coords scrollCoords (d d' : bool) :
  after_action s action d = Some d' ->
  acts id i m (send_motions t id s flags action buttons downTime c scrolled coords scrollCoords) (fun _ m' l =>
    m' = m /\ forall b f, tells id s b f d l b f d').
Proof.
  intros Ha. apply acts_quiet; [apply quiet_read|]. intros meta.
  eapply (acts_bind _ _ _ _ _ (fun _ m' l => m' = m /\ forall b f, tells id s b f d l b f d')).
  { apply acts_notify. split; [done|]. intros b f. by eapply tells_motion. }
  intros _ m1 l1 [-> H1].
  eapply (acts_bind _ _ _ _ _ (fun _ m' l => m' = m /\ forall b f, tells id s b f d' l b f d')).
  { case_match; [|apply acts_ret; split; [done|]; intros; apply tells_nil]. apply acts_notify. split; [done|]. intros b f.
    by eapply tells_motion. }
  intros _ m2 l2 [-> H2].
  eapply acts_mono; [instantiate (1 := fun _ m' l => m' = m /\ forall b f, tells id s b f d' l b f d')|].
  { case_match; [|apply acts_ret; split; [done|]; intros; apply tells_nil]. apply acts_notify. split; [done|]. intros b f.
    by eapply tells_motion. }
  intros _ m3 l3 [-> H3]. split; [done|]. intros b f. eapply tells_app; [apply H1|]. by eapply tells_app.
Qed.

Lemma quiet_move_pointer moved scrolled changed dx dy buttons :
  quiet (move_pointer (O := O) area has_listener moved scrolled changed dx dy buttons).
Proof.
  apply quiet_then; [|intros _; apply quiet_read].
  case_match; [|apply quiet_mret]. repeat (apply quiet_then; [|intros _]); try apply quiet_pointer;
    (case_match; [apply quiet_pointer|apply quiet_mret]).
Qed.

(** The action of a [sync] fits what has happened to the buttons. *)
Lemma sync_action (c : CursorInputMapper) (wasDown down : bool) :
  mapper_ok (O := O) (Cursor_mapper c) ->
  after_action (cu_source c)
    (if negb (Bool.eqb wasDown down) then if down then AMOTION_EVENT_ACTION_DOWN else AMOTION_EVENT_ACTION_UP
     else if down || negb (mPointerController c) then AMOTION_EVENT_ACTION_MOVE else AMOTION_EVENT_ACTION_HOVER_MOVE) wasDown
  = Some down.
Proof. cbn. intros [[Hp Hs]|Hs]; rewrite Hs; destruct wasDown, down; try done; [by rewrite Hp|]; by destruct (mPointerController c). Qed.

Lemma sync_acts id i c t :
  mapper_ok (O := O) (Cursor_mapper c) ->
  acts id i (Cursor_mapper c) (sync area has_listener id i t) (fun _ m' l => speech id (Cursor_mapper c) l m').
Proof.
  intros Hok. apply acts_cursor. cbv zeta. destruct (cursor_deltas c) as [dx dy].
  destruct (velocity_move _ None _ _) as [[? vs] wy], (velocity_move _ _ None _) as [[hs ?] wx], (velocity_move _ _ _ _) as [[dx' dy'] pv].
  set (cur := buttons_getButtonState _). set (last := cu_buttonState c). apply acts_put_bind.
  set (c1 := cu_set_velocity _ _ _ _). apply acts_quiet; [case_match; [apply quiet_move_pointer|apply quiet_mret]|]. intros pos.
  apply acts_device. intros dev. eapply acts_bind; [apply buttons_down_acts|]. intros _ m1 l1 [-> H1].
  eapply (acts_bind _ _ _ _ _ (fun _ m' l => m' = Cursor_mapper c1 /\
    forall b f, tells id (cu_source c) b f (isPointerDown last) l b f (isPointerDown cur))).
  { case_match eqn:Hm; [apply send_motions_acts; by apply sync_action|]. apply acts_ret. split; [done|]. intros b f.
    rewrite !orb_false_iff, negb_false_iff, Bool.eqb_true_iff in Hm. destruct Hm as [[[-> _] _] _]. apply tells_nil. }
  intros _ m2 l2 [-> H2]. eapply acts_bind; [apply buttons_up_acts|]. intros _ m3 l3 [-> H3]. apply acts_cursor, acts_put.
  apply speech_cursor; [done|exact Hok|]. cbn. rewrite app_nil_r. eapply tells_app; [apply H1|]. eapply tells_app; [apply H2|apply H3].
Qed.

Lemma cursor_process_acts id i c e :
  mapper_ok (O := O) (Cursor_mapper c) ->
  acts id i (Cursor_mapper c) (cursor_process area has_listener id i e) (fun _ m' l => speech id (Cursor_mapper c) l m').
Proof.
  intros Hok. apply acts_cursor, acts_put_bind. set (c1 := cu_set_accumulators _ _ _ _).
  assert (speech id (Cursor_mapper c) [] (Cursor_mapper (O := O) c1)) as Hs by (by apply speech_silent).
  case_match; [|by apply acts_ret]. eapply acts_mono; [by apply sync_acts|]. intros ? m' l Hsp. exact (speech_trans _ _ _ _ _ _ Hs Hsp).
Qed.

(** ** Vibrators *)

Lemma stopVibrating_acts id i v :
  acts id i (Vibrator_mapper v) (stopVibrating id i) (fun _ m' l => l = [] /\ m' = Vibrator_mapper (vb_set_vibrating false v)).
Proof. apply acts_vibrator, acts_put_bind, acts_quiet_last; [apply quiet_hub, log_cancel|done]. Qed.

Definition a_vibrator m : Prop := exists v, m = Vibrator_mapper v /\ vibrator_ok v.

Lemma nextStep_acts id i v :
  -1 <= mIndex v < Z.of_nat (length (mPattern v)) -> pattern_ok (mPattern v) (mRepeat v) ->
  acts id i (Vibrator_mapper v) (vibrator_nextStep id i) (fun _ m' l => l = [] /\ a_vibrator m').
Proof.
  intros Hi Hp. apply acts_vibrator. cbv zeta. set (over := _ <=? _). case_match eqn:Hdone.
  { apply acts_put_bind. eapply acts_mono; [apply stopVibrating_acts|]. intros ? m' l [-> ->]. split; [done|]. by eexists. }
  set (index := if over then _ else _).
  assert (0 <= index < Z.of_nat (length (mPattern v))) as Hin.
  { unfold index, over in *. destruct (Z.leb_spec (Z.of_nat (length (mPattern v))) (mIndex v + 1)); [|lia].
    rewrite andb_true_l, Z.ltb_ge in Hdone. destruct Hp as [_ [?|?]]; lia. }
  destruct (lookup_lt_is_Some_2 (mPattern v) (Z.to_nat index) ltac:(lia)) as [duration Hd].
  apply (acts_deref _ _ _ _ _ _ duration); [intros; rewrite (proj2 (Z.ltb_ge index 0)) by lia; done|]. apply acts_put_bind.
  apply acts_quiet; [case_match; apply quiet_hub; [intros k; apply log_vibrate|intros k; apply log_cancel]|intros _].
  apply acts_quiet; [apply quiet_time|intros now]. apply acts_vibrator, acts_put_bind, acts_quiet_last; [apply quiet_timeout|].
  intros _. split; [done|]. eexists. split; [done|]. intros _. cbn. split; [lia|done].
Qed.

Lemma vibrate_acts id i v pattern repeat token :
  pattern_ok pattern repeat ->
  acts id i (Vibrator_mapper v) (vibrator_vibrate id i pattern repeat token) (fun _ m' l => l = [] /\ a_vibrator m').
Proof.
  intros Hp. unfold vibrator_vibrate. rewrite (proj2 (Nat.ltb_ge _ _) (proj1 Hp)). apply acts_vibrator, acts_put_bind.
  destruct pattern as [|p ps].
  - apply acts_vibrator. destruct Hp as [_ Hp]. cbn in Hp. cbv zeta. cbn [mRepeat mPattern mIndex length].
    change (Z.of_nat 0 <=? -1 + 1) with true. rewrite andb_true_l. rewrite (proj2 (Z.ltb_lt repeat 0)) by (destruct Hp; lia). apply acts_put_bind.
    eapply acts_mono; [apply stopVibrating_acts|]. intros ? m' l [-> ->]. split; [done|]. by eexists.
  - apply nextStep_acts; [|done]. cbn. lia.
Qed.

Lemma cancelVibrate_acts id i v token :
  vibrator_ok v ->
  acts id i (Vibrator_mapper v) (vibrator_cancelVibrate id i token) (fun _ m' l => l = [] /\ a_vibrator m').
Proof.
  intros Hv. apply acts_vibrator. case_match; [|apply acts_ret; split; [done|by eexists]].
  eapply acts_mono; [apply stopVibrating_acts|]. intros ? m' l [-> ->]. split; [done|]. by eexists.
Qed.

Lemma timeoutExpired_acts id i v t :
  vibrator_ok v ->
  acts id i (Vibrator_mapper v) (vibrator_timeoutExpired id i t) (fun _ m' l => l = [] /\ a_vibrator m').
Proof.
  intros Hv. apply acts_vibrator. case_match eqn:Hon; [|apply acts_ret; split; [done|by eexists]]. destruct (Hv Hon) as [Hi Hp].
  case_match; [by apply nextStep_acts|]. apply acts_quiet_last; [apply quiet_timeout|]. intros _. split; [done|by eexists].
Qed.

(** ** All mappers *)

Definition kind m : option bool := match m with Keyboard_mapper _ => Some true | Cursor_mapper _ => Some false | _ => None end.

Definition silent id m : Prop := (forall x, ~ holds_key id m x) /\ (forall x, ~ holds_gesture id m x).

(** A mapper that a device is created with. *)
Definition fresh_mapper m : Prop :=
  match m with
  | Keyboard_mapper k => mKeyDowns k = [] /\ kb_source k < AINPUT_SOURCE_MOUSE
  | Cursor_mapper _ => True
  | _ => mapper_ok m
  end.

Lemma speech_vibrator id v m' : a_vibrator m' -> speech id (Vibrator_mapper v) [] m'.
Proof. intros (v' & -> & Hv). by apply speech_silent. Qed.

Lemma mapper_process_acts id i m e :
  LONG_LONG_MIN <= re_when e -> mapper_ok m ->
  acts id i m (mapper_process area has_listener id i e) (fun _ m' l => speech id m l m' /\ keyed (key_step e) m m').
Proof.
  intros Ht Hok. apply acts_mapper. destruct m as [|v|k|c|o].
  - unfold switch_process. case_match; [|apply acts_ret; split; [by apply speech_refl|done]]. apply acts_notify.
    split; [|done]. split_and!; [done..|by constructor|]. by intros v _.
  - apply acts_ret. split; [by apply speech_refl|done].
  - by apply keyboard_process_acts.
  - eapply acts_mono; [by apply cursor_process_acts|]. intros ? m' l Hs. split; [done|].
    apply (keyed_other id _ _ l); [exact Hok|done|exact Hs].
  - destruct Hok.
Qed.

(** Nothing is said, and no key changes. *)
Definition still id m (l : list NotifyArgs) m' : Prop := l = [] /\ speech id m l m' /\ keyed (fun s => s) m m'.

Lemma still_refl id m : mapper_ok m -> still id m [] m.
Proof. intros Hok. split_and!; [done|by apply speech_refl|apply keyed_id]. Qed.

Lemma still_vibrator id v l m' : l = [] -> a_vibrator m' -> still id (Vibrator_mapper v) l m'.
Proof. intros -> Hv. split_and!; [done|by apply speech_vibrator|]. by destruct Hv as (v' & -> & _). Qed.

Lemma mapper_timeout_acts id i m t : mapper_ok m -> acts id i m (mapper_timeoutExpired id i t) (fun _ m' l => still id m l m').
Proof.
  intros Hok. apply acts_mapper. destruct m as [|v|k|c|o]; try (apply acts_ret; by apply still_refl); [|destruct Hok].
  eapply acts_mono; [by apply timeoutExpired_acts|]. intros ? m' l [Hl Hv]. exact (still_vibrator _ _ _ _ Hl Hv).
Qed.

Lemma mapper_reset_acts id i m t :
  mapper_ok m -> acts id i m (mapper_reset id i t) (fun _ m' l => l = [] /\ mapper_ok m' /\ speaks m' = speaks m /\ silent id m').
Proof.
  intros Hok. apply acts_mapper. destruct m as [|v|k|c|o]; [| | | |destruct Hok].
  1, 2: apply acts_ret; split_and!; [done..|]; split; intros x Hx; destruct Hx.
  - eapply acts_mono; [apply keyboard_reset_acts|]. intros _ m' l [-> (k' & -> & Hs & Ho & Hk)]. split; [done|]. cbn.
    destruct Hok as (_ & Hok & Hsrc). rewrite Hk, Ho, Hs. split_and!; try done; [by apply NoDup_nil|]. split; [|by intros x []].
    intros x (kd & Hin & _). rewrite Hk in Hin. by apply not_elem_of_nil in Hin.
  - apply acts_cursor, acts_quiet; [apply quiet_ask|]. intros k. apply acts_put. split_and!; [done|exact Hok|done|].
    split; [|by intros x [[=] _]]. intros x [[[=] _]|[[=] _]].
Qed.

Lemma orientation_from_ok aware display config :
  orientation_ok (di_orientation (mInternalDisplay config)) -> orientation_ok (orientation_from aware display config).
Proof.
  intros Ho. unfold orientation_from, getDisplayInfo. repeat case_match; simplify_eq; try done.
Qed.

Lemma device_bump_acts id i m : acts id i m (device_bumpGeneration id) (fun _ m' l => m' = m /\ l = []).
Proof.
  apply acts_quiet; [apply quiet_bump|]. intros n d Hd. apply does_device, does_put. exists m. by rewrite list_insert_id.
Qed.

Lemma cursor_configure_acts id i c config changes :
  (changes = 0 \/ mapper_ok (O := O) (Cursor_mapper c)) ->
  acts id i (Cursor_mapper c) (cursor_configure id i config changes) (fun _ m' l =>
    l = [] /\ mapper_ok m' /\ kind m' = Some false /\ (changes <> 0 -> speech id (Cursor_mapper c) [] m')).
Proof.
  intros Hc. apply acts_device. intros d. apply acts_cursor. do 2 (apply acts_quiet; [apply quiet_ask|intros ?]). cbv zeta.
  set (c1 := if changes =? 0 then _ else _). set (c2 := if changed changes CHANGE_POINTER_SPEED then _ else c1).
  assert (mapper_ok (O := O) (Cursor_mapper c2)) as Hok.
  { assert (mapper_ok (O := O) (Cursor_mapper c1)) as H1; [|unfold c2; by case_match].
    unfold c1. destruct (Z.eqb_spec changes 0); [|by destruct Hc]. unfold cursor_first. destruct (cursor_configureParameters _) as [[[|] display] aware].
    - left. split; [apply controllers_known|done].
    - by right. }
  assert (changes <> 0 -> cu_source c2 = cu_source c /\ cu_buttonState c2 = cu_buttonState c) as Hs.
  { intros Hne. unfold c2, c1. rewrite (proj2 (Z.eqb_neq changes 0) Hne). by case_match. }
  assert (forall o, changes <> 0 -> speech (O := O) id (Cursor_mapper c) [] (Cursor_mapper (cu_set_orientation o c2))) as Hsp.
  { intros o [Es Eb]%Hs. apply speech_silent; cbn; rewrite ?Es, ?Eb; try done. by rewrite <- Es. }
  case_match.
  - apply acts_put_bind. eapply acts_mono; [apply device_bump_acts|]. intros _ m' l [-> ->]. split_and!; [done..|]. apply Hsp.
  - apply acts_put. split_and!; [done..|]. intros [Es Eb]%Hs. apply speech_silent; cbn; rewrite ?Es, ?Eb; try done. by rewrite <- Es.
Qed.

Lemma mapper_configure_acts id i m t config changes :
  orientation_ok (di_orientation (mInternalDisplay config)) -> (if changes =? 0 then fresh_mapper m else mapper_ok m) ->
  acts id i m (mapper_configure id i t config changes) (fun _ m' l =>
    l = [] /\ mapper_ok m' /\ kind m' = kind m /\ (changes <> 0 -> still id m l m')).
Proof.
  intros Ho Hm. apply acts_mapper.
  destruct m as [|v|k|c|o]; try (apply acts_ret; split_and!; [done|by destruct (changes =? 0)|done|]; intros _; apply still_refl; by destruct (changes =? 0)).
  - apply acts_device. intros d. apply acts_keyboard, acts_put. set (k1 := if changes =? 0 then _ else k).
    assert (mKeyDowns k1 = mKeyDowns k /\ kb_source k1 = kb_source k) as [Hk Hs] by (unfold k1; by case_match).
    assert ((changes =? 0) = false -> k1 = k) as Hk1 by (unfold k1; by intros ->). clearbody k1.
    assert (mapper_ok (O := O) (Keyboard_mapper (if changed changes CHANGE_DISPLAY_INFO then
      kb_set_orientation (orientation_from (kb_orientationAware k1) (kb_associatedDisplayId k1) config) k1 else k1))) as Hok.
    { destruct (changed changes CHANGE_DISPLAY_INFO) eqn:Hc; cbn.
      - rewrite Hk, Hs. destruct (changes =? 0); destruct Hm as [Hm1 Hm2]; split_and!; try apply orientation_from_ok; try done; [|by destruct Hm2].
        rewrite Hm1. by apply NoDup_nil.
      - apply orb_false_iff in Hc as [Hc _]. rewrite Hc in Hm. by rewrite (Hk1 Hc). }
    split_and!; [done..|]. intros Hne. split_and!; [done| |destruct (changed changes _); cbn; by rewrite Hk].
    apply speech_silent; [|exact Hok|..]; destruct (changed changes _); cbn; rewrite ?Hk, ?Hs; done.
  - eapply acts_mono; [apply cursor_configure_acts; destruct (Z.eqb_spec changes 0); auto|].
    intros ? m' l (-> & Hok & Hk & Hs). split_and!; [done..|]. intros Hne. split_and!; [done|by apply Hs|].
    by destruct m'.
  - destruct (changes =? 0); destruct Hm.
Qed.

End Steps.
