(* ===== verification/ReaderInvariant.v ===== *)
(** * The input reader: its devices at work

    Rules for the functions of [ReaderLoop] that work on one device: events, an
    overrun, a reset, timeouts, the first configuration and later ones.  Each
    returns, without undefined behaviour, and keeps what the listener sees of the
    device equal to what its mappers hold ([telling]). *)

From Stdlib Require Import SpecFloat.
From S2P Require Import Prelude Geometry Input AndroidEvents InputTransport InputState Dispatcher DispatchTargets DispatchLoop.
From S2P Require Import DispatchMemory ReaderData ReaderLoop ReaderView ReaderSteps.

(** ** What is said of a device *)

Definition of_device (id : Z) (a : NotifyArgs) : Prop :=
  match a with
  | NotifyKeyArgs _ _ k => ke_deviceId k = id
  | NotifyMotionArgs _ _ m => me_deviceId m = id
  | NotifyDeviceResetArgs _ id' => id' = id
  | _ => True
  end.

Lemma about_of_device id source a : about id source a -> of_device id a.
Proof. destruct a; cbn; tauto. Qed.

(** Nothing changes for the other devices. *)
Definition elsewhere (id : Z) (v v' : view) : Prop :=
  (forall x, key_device x <> id -> same_key x v v') /\ (forall x, gesture_device x <> id -> same_gesture x v v').

Lemma hear_other id a v : of_device id a -> elsewhere id v (hear a v).
Proof.
  destruct a as [t|t fl k|t fl m|t fl c x|t id']; cbn [of_device]; intros Ha; try done.
  - destruct (hear_elsewhere id (Some (ke_source k)) (NotifyKeyArgs t fl k) v (conj Ha eq_refl)) as [HK HG]. split; auto.
  - destruct (hear_elsewhere id (Some (me_source m)) (NotifyMotionArgs t fl m) v (conj Ha eq_refl)) as [HK HG]. split; auto.
  - subst id'. destruct (hear_reset t id v) as [HK HG]. unfold elsewhere, same_key, same_gesture.
    split; intros x Hx; rewrite ?HK, ?HG; tauto.
Qed.

Lemma story_other id l v : Forall (of_device id) l -> elsewhere id v (story l v).
Proof.
  revert v. induction l as [|a l IH]; intros v Hl; [done|]. apply Forall_cons in Hl as [Ha Hl].
  destruct (hear_other id a v Ha) as [K1 G1], (IH (hear a v) Hl) as [K2 G2].
  unfold elsewhere, same_key, same_gesture in *. split; intros x Hx.
  - etransitivity; [exact (K2 x Hx)|exact (K1 x Hx)].
  - etransitivity; [exact (G2 x Hx)|exact (G1 x Hx)].
Qed.

Lemma shows_elsewhere {O} id id' (ms : list (InputMapper O)) v v' : elsewhere id v v' -> id' <> id -> shows id' ms v -> shows id' ms v'.
Proof.
  unfold elsewhere, same_key, same_gesture. intros [EK EG] Hne [HK HG]. split.
  - intros x Hx. etransitivity; [apply EK; congruence|by apply HK].
  - intros s. etransitivity; [by apply (EG (id', s, false))|apply HG].
Qed.

Section Invariant.
Context {K O : Type} `{HEventHub : EventHub K} `{HPolicy : ReaderPolicy K} `{HListener : InputListener K}.
Context `{HOther : OtherMappers K O} `{HTracker : VelocityTracker} `{HLaws : !ReaderLaws K} `{HPLaws : !PolicyLaws K}.
Context (area : Rectangle) (has_listener : bool).
Implicit Types r : InputReader K O.
Implicit Types d : InputDevice O.
Implicit Types m : InputMapper O.
Implicit Types ms : list (InputMapper O).

Abbreviation R := (M (InputReader K O)).

(** ** Devices *)

Definition device_ok ms : Prop := Forall mapper_ok ms /\ distinct ms.

(** What a device says, while its mappers change. *)
Definition telling id ms (l : list NotifyArgs) ms' : Prop :=
  device_ok ms' /\ length ms' = length ms /\ Forall (of_device id) l /\
  forall v, shows id ms v -> accepted l v = true /\ shows id ms' (story l v).

Lemma telling_refl id ms : device_ok ms -> telling id ms [] ms.
Proof. by intros. Qed.

Lemma telling_trans id ms ms' ms'' l l' : telling id ms l ms' -> telling id ms' l' ms'' -> telling id ms (l ++ l') ms''.
Proof.
  intros (_ & L1 & A1 & V1) (O2 & L2 & A2 & V2). split_and!; [done|congruence|by apply Forall_app|]. intros v Hv.
  destruct (V1 v Hv) as [Ha Hv1], (V2 _ Hv1) as [Ha2 Hv2]. rewrite accepted_app, story_app, Ha, Ha2. done.
Qed.

Lemma telling_speech id ms i m l m' : device_ok ms -> ms !! i = Some m -> speech id m l m' -> telling id ms l (<[ i := m' ]> ms).
Proof.
  intros [Hok Hd] Hi (Hs & Hok' & Hab & Hv). split_and!.
  - split; [by apply Forall_insert|by eapply distinct_insert].
  - apply length_insert.
  - eapply Forall_impl; [exact Hab|]. intros a. apply about_of_device.
  - intros v Hsh. destruct (Hv v (shows_mapper _ _ _ _ _ Hd Hsh Hi)) as [Ha Hm']. split; [done|].
    destruct (story_elsewhere id (speaks m) l v Hab) as [EK EG].
    eapply shows_insert; [done..| |]; intros x _ Hx; [apply EK|apply EG]; by right.
Qed.

Lemma does_assoc {A B C} id d (op : R A) (f : A -> R B) (k : B -> R C) Q :
  does id d ((op ≫= f) ≫= k) Q -> does id d (op ≫= fun a => f a ≫= k) Q.
Proof. intros Hd r Hr. specialize (Hd r Hr). unfold returns, mbind, M_bind in *. by destruct (op r). Qed.

(** A loop over the mappers, with an invariant for those that it has visited. *)
Lemma does_each id (f : nat -> R unit) (I : nat -> InputDevice O -> list NotifyArgs -> Prop) d :
  I 0%nat d [] ->
  (forall i d l, (i < length (mMappers d))%nat -> I i d l ->
     does id d (f i) (fun _ d' l' => I (S i) d' (l ++ l') /\ length (mMappers d') = length (mMappers d))) ->
  does id d (ps ← positions id ; for_each ps f) (fun _ d' l => I (length (mMappers d)) d' l).
Proof.
  intros H0 Hf. apply (does_bind _ _ _ _ (fun ps d' l => ps = seq 0 (length (mMappers d)) /\ d' = d /\ l = [])).
  { apply does_device, does_ret. done. }
  intros ps d' l (-> & -> & ->).
  assert (forall n i d l, I i d l -> (i + n = length (mMappers d))%nat ->
    does id d (for_each (seq i n) f) (fun _ d' l' => I (i + n)%nat d' (l ++ l'))) as Hloop.
  { clear d H0. induction n as [|n IH]; intros i d l HI Hn.
    - apply does_ret. by rewrite Nat.add_0_r, app_nil_r.
    - cbn [seq for_each]. eapply does_bind; [apply Hf; [lia|exact HI]|]. intros _ d1 l1 [HI1 Hlen].
      replace (i + S n)%nat with (S i + n)%nat by lia. eapply does_mono; [apply (IH _ _ _ HI1); lia|].
      intros ? d2 l2. by rewrite app_assoc. }
  eapply does_mono; [apply (Hloop (length (mMappers d)) 0%nat d []); [done|lia]|]. intros ? d' l'. by rewrite app_nil_l.
Qed.

(** Each mapper once: what it says, and what becomes of its keys. *)
Lemma does_mappers (b : bool) (f : gset Z -> gset Z) id d (op : nat -> R unit) :
  device_ok (mMappers d) ->
  (forall i m, mapper_ok m -> acts id i m (op i) (fun _ m' l => (b = true -> l = []) /\ speech id m l m' /\ keyed f m m')) ->
  does id d (ps ← positions id ; for_each ps op) (fun _ d' l =>
    (b = true -> l = []) /\ telling id (mMappers d) l (mMappers d') /\ Forall2 (keyed f) (mMappers d) (mMappers d') /\
    mDropUntilNextSync d' = mDropUntilNextSync d).
Proof.
  intros Hok Hf. set (I := fun i d' (l : list NotifyArgs) => (b = true -> l = []) /\ telling id (mMappers d) l (mMappers d') /\
    mDropUntilNextSync d' = mDropUntilNextSync d /\
    forall j m m', mMappers d !! j = Some m -> mMappers d' !! j = Some m' -> if (j <? i)%nat then keyed f m m' else m' = m).
  eapply does_mono; [apply (does_each id op I)|].
  - split_and!; [done|by apply telling_refl|done|]. intros j m m' Hj Hj'. destruct (Nat.ltb_spec j 0); [lia|congruence].
  - intros i d1 l Hi (Hb & Ht & Hdr & Hk). destruct (lookup_lt_is_Some_2 _ _ Hi) as [m Hm]. pose proof Ht as [Hok1 Ht1].
    assert (mapper_ok m) as Hmok by (by eapply Forall_lookup_1; [apply Hok1|]).
    eapply does_mono; [by apply (Hf i m Hmok)|]. intros ? d' l' (m' & Hm' & Hdr' & Hb' & Hsp & Hkm).
    split; [|by rewrite Hm', length_insert]. split_and!; [intros Hbt; by rewrite (Hb Hbt), (Hb' Hbt)| |congruence|].
    + rewrite Hm'. eapply telling_trans; [exact Ht|]. by eapply telling_speech.
    + intros j m1 m2 Hj. rewrite Hm'. destruct (decide (i = j)) as [<-|Hne].
      * rewrite list_lookup_insert_eq by done. intros [= <-]. specialize (Hk i m1 m Hj Hm).
        destruct (Nat.ltb_spec i i), (Nat.ltb_spec i (S i)); try lia. by subst.
      * rewrite list_lookup_insert_ne by done. intros Hj'. specialize (Hk j m1 m2 Hj Hj').
        destruct (Nat.ltb_spec j i), (Nat.ltb_spec j (S i)); try lia; done.
  - intros ? d' l (Hb & Ht & Hdr & Hk). split_and!; [done..| |done]. apply Forall2_same_length_lookup. split; [symmetry; apply Ht|].
    intros j m m' Hj Hj'. specialize (Hk j m m' Hj Hj'). apply lookup_lt_Some in Hj. by rewrite (proj2 (Nat.ltb_lt _ _)) in Hk by lia.
Qed.

(** *** Reset *)

Lemma does_quiet_last {A} id d (op : R A) (P : A -> InputDevice O -> list NotifyArgs -> Prop) :
  quiet op -> (forall a, P a d []) -> does id d op P.
Proof. intros Hop HP r Hr. eapply returns_mono; [apply Hop, Hr|]. intros a r' Hs. exists d, []. split; [by apply moves_same|done]. Qed.

(** The mappers hold nothing, and the listener is told to forget the device. *)
Definition blank id ms (l : list NotifyArgs) : Prop :=
  device_ok ms /\ Forall (silent id) ms /\ exists t, l = [NotifyDeviceResetArgs t id].

Lemma device_reset_does id d t :
  device_ok (mMappers d) ->
  does id d (device_reset id t) (fun _ d' l =>
    blank id (mMappers d') l /\ length (mMappers d') = length (mMappers d) /\ mDropUntilNextSync d' = mDropUntilNextSync d).
Proof.
  intros Hok. apply does_assoc. eapply does_bind.
  { apply (does_each id _ (fun i d' l => l = [] /\ device_ok (mMappers d') /\ length (mMappers d') = length (mMappers d) /\
      mDropUntilNextSync d' = mDropUntilNextSync d /\ forall j m, mMappers d' !! j = Some m -> (j < i)%nat -> silent id m)).
    { split_and!; [done..|]. intros j m _ Hj. lia. }
    intros i d1 l Hi (-> & [Hok1 Hd1] & Hlen & Hdr & Hsil). destruct (lookup_lt_is_Some_2 _ _ Hi) as [m Hm].
    assert (mapper_ok m) as Hmok by (by eapply Forall_lookup_1).
    eapply does_mono; [by apply (mapper_reset_acts id i m t Hmok)|]. intros _ d' l' (m' & Hm' & Hdr' & -> & Hok' & Hs' & Hsil').
    rewrite Hm', length_insert. split_and!; [done|split; [by apply Forall_insert|by eapply distinct_insert]|done|congruence| |done].
    intros j m2 Hj Hlt. destruct (decide (i = j)) as [<-|Hne].
    - rewrite list_lookup_insert_eq in Hj by done. by injection Hj as <-.
    - rewrite list_lookup_insert_ne in Hj by done. apply (Hsil j); [done|lia]. }
  intros _ d' l (-> & Hok' & Hlen & Hdr & Hsil). apply does_quiet; [apply quiet_meta|intros _]. apply does_notify. split; [|done].
  split_and!; [apply Hok'| |by eexists]. apply Forall_lookup. intros j m Hj. apply (Hsil j); [done|].
  rewrite <- Hlen. by eapply lookup_lt_Some.
Qed.

(** What the listener knows of a device that it was told to forget. *)
Lemma blank_shows id ms t v : Forall (silent id) ms -> shows id ms (hear (NotifyDeviceResetArgs t id) v).
Proof.
  intros Hs. rewrite Forall_forall in Hs. destruct (hear_reset t id v) as [HK HG]. split.
  - intros x Hx. rewrite HK. split; [tauto|]. intros (m & Hm & Hh). destruct (proj1 (Hs m Hm) x Hh).
  - intros s. rewrite HG. cbn. split; [tauto|]. intros (m & Hm & Hh). destruct (proj2 (Hs m Hm) _ Hh).
Qed.

Lemma blank_telling id ms ms' l : blank id ms' l -> length ms' = length ms -> telling id ms l ms'.
Proof.
  intros (Hok & Hs & t & ->) Hlen. split_and!; [apply Hok|done|by constructor|]. intros v _. split; [done|].
  by apply blank_shows.
Qed.

(** *** Events and timeouts *)

(** The keys that are down, and whether an overrun has lost what comes up to the next
    report. *)
Definition hw_key (e : RawEvent) (s : bool * gset Z) : bool * gset Z :=
  let '(drop, codes) := s in
  if drop then (negb (is_report e), codes)
  else if (re_type e =? EV_SYN) && (re_code e =? SYN_DROPPED) then (true, ∅)
  else (false, key_step e codes).

(** The device is in this state, if it has mappers. *)
Definition hw_device (s : bool * gset Z) d : Prop :=
  mMappers d <> [] -> mDropUntilNextSync d = fst s /\ forall k, Keyboard_mapper k ∈ mMappers d -> key_codes (mKeyDowns k) = snd s.

Lemma hw_keyed f drop codes drop' d d' :
  hw_device (drop, codes) d -> Forall2 (keyed f) (mMappers d) (mMappers d') -> (mDropUntilNextSync d = drop -> mDropUntilNextSync d' = drop') ->
  hw_device (drop', f codes) d'.
Proof.
  intros Hd Hk Hdr Hne. destruct Hd as [H1 H2].
  { intros E. rewrite E in Hk. apply Hne. by apply Forall2_nil_inv_l in Hk. }
  split; [by apply Hdr|]. intros k [i Hi]%list_elem_of_lookup. destruct (Forall2_lookup_r _ _ _ _ _ Hk Hi) as (m & Hm & Hkm).
  destruct m as [|v|k0|c|o]; try done. cbn in Hkm |- *. rewrite Hkm. f_equal. apply H2. by eapply list_elem_of_lookup_2.
Qed.

Lemma hw_silent id drop d : Forall (silent id) (mMappers d) -> mDropUntilNextSync d = drop -> hw_device (drop, ∅) d.
Proof.
  intros Hs Hd _. split; [done|]. intros k Hk. rewrite Forall_forall in Hs. destruct (Hs _ Hk) as [HK _]. cbn in *.
  apply set_eq. intros sc. rewrite elem_of_codes. split; [|by intros ?%elem_of_empty]. intros (kd & Hin & _).
  destruct (HK (id, kb_source k, kd_keyCode kd, kd_scanCode kd)). eauto.
Qed.

Lemma device_event_does id d e :
  LONG_LONG_MIN <= re_when e -> device_ok (mMappers d) -> mMappers d <> [] ->
  does id d (device_process_event area has_listener id e) (fun _ d' l =>
    telling id (mMappers d) l (mMappers d') /\ forall s, hw_device s d -> hw_device (hw_key e s) d').
Proof.
  intros Ht Hok Hne. apply does_device. unfold hw_key.
  assert (forall s, hw_device s d -> fst s = mDropUntilNextSync d) as Hfst by (intros s Hs; by destruct (Hs Hne)).
  destruct (mDropUntilNextSync d) eqn:Hdr; [|case_match].
  - destruct (is_report e) eqn:Hrep; [apply does_put|apply does_ret]; (split; [by apply telling_refl|]);
      intros [drop codes] Hs; specialize (Hfst _ Hs); cbn in Hfst; subst drop; [|exact Hs].
    intros _. split; [done|]. intros k Hk. by apply (proj2 (Hs Hne)).
  - apply does_put_bind. eapply does_mono; [by apply (device_reset_does id (with_drop true d))|].
    intros ? d' l (Hb & Hlen & Hd'). split; [by apply blank_telling|]. intros [drop codes] Hs. specialize (Hfst _ Hs). cbn in Hfst. subst drop.
    eapply hw_silent; [apply Hb|done].
  - eapply does_mono; [apply (does_mappers false (key_step e)); [done|]|].
    + intros i m Hm. eapply acts_mono; [by apply mapper_process_acts|]. done.
    + intros ? d' l (_ & Htl & Hk & Hdr'). split; [done|]. intros [drop codes] Hs. specialize (Hfst _ Hs). cbn in Hfst. subst drop.
      eapply (hw_keyed _ _ _ _ d); [exact Hs|done|]. intros E. congruence.
Qed.

Lemma device_process_does id d events :
  Forall (fun e => LONG_LONG_MIN <= re_when e) events -> device_ok (mMappers d) -> mMappers d <> [] ->
  does id d (device_process area has_listener id events) (fun _ d' l =>
    telling id (mMappers d) l (mMappers d') /\
    forall s, hw_device s d -> hw_device (fold_left (fun s e => hw_key e s) events s) d').
Proof.
  revert d. induction events as [|e events IH]; intros d Ht Hok Hne; [apply does_ret; split; [by apply telling_refl|done]|].
  apply Forall_cons in Ht as [He Ht]. eapply does_bind; [by apply device_event_does|]. intros ? d' l [Htl Hs'].
  eapply does_mono; [apply (IH d' Ht); [apply Htl|]|].
  - intros E. destruct Htl as (_ & Hlen & _). rewrite E in Hlen. by destruct (mMappers d).
  - intros ? d'' l' [Htl' Hs'']. split; [exact (telling_trans _ _ _ _ _ _ Htl Htl')|]. intros s Hs. by apply Hs'', Hs'.
Qed.

(** Nothing is told, and the keys stay. *)
Definition rests id d (l : list NotifyArgs) d' : Prop :=
  l = [] /\ telling id (mMappers d) l (mMappers d') /\ forall s, hw_device s d -> hw_device s d'.

Lemma rests_refl id d d' :
  device_ok (mMappers d) -> mMappers d' = mMappers d -> mDropUntilNextSync d' = mDropUntilNextSync d -> rests id d [] d'.
Proof.
  intros Hok Hm Hd. split_and!; [done|rewrite Hm; by apply telling_refl|]. intros s. unfold hw_device. by rewrite Hm, Hd.
Qed.

Lemma does_still id d (op : nat -> R unit) :
  device_ok (mMappers d) -> (forall i m, mapper_ok m -> acts id i m (op i) (fun _ m' l => still id m l m')) ->
  does id d (ps ← positions id ; for_each ps op) (fun _ d' l => rests id d l d').
Proof.
  intros Hok Hop. eapply does_mono; [apply (does_mappers true (fun s => s)); [done|]|].
  - intros i m Hm. eapply acts_mono; [by apply Hop|]. by intros ? m' l (Hl & Hs & Hk).
  - intros ? d' l (Hl & Ht & Hk & Hdr). split_and!; [by apply Hl|done|]. intros [drop codes] Hs.
    apply (hw_keyed (fun s => s) drop codes drop d); [exact Hs|done|congruence].
Qed.

Lemma device_timeout_does id d t :
  device_ok (mMappers d) -> does id d (device_timeoutExpired id t) (fun _ d' l => rests id d l d').
Proof. intros Hok. apply does_still; [done|]. intros i m Hm. by apply mapper_timeout_acts. Qed.

(** *** Configuration *)

(** What is changed before the mappers are configured. *)
Definition kept d (l : list NotifyArgs) d' : Prop :=
  l = [] /\ mMappers d' = mMappers d /\ mDropUntilNextSync d' = mDropUntilNextSync d.

Lemma does_if id d (b : bool) (op : R unit) :
  (b = true -> does id d op (fun _ d' l => kept d l d')) -> does id d (if b then op else mret tt) (fun _ d' l => kept d l d').
Proof. destruct b; [auto|]. intros _. by apply does_ret. Qed.

Lemma device_bump_does id d : does id d (device_bumpGeneration id) (fun _ d' l => kept d l d').
Proof. apply does_quiet; [apply quiet_bump|]. intros n. by apply does_device, does_put. Qed.

(** The mappers are configured one after the other. *)
Lemma device_configure_does id d t config changes (I : nat -> list (InputMapper O) -> Prop) :
  (forall ms, length ms = 0%nat -> I 0%nat ms -> I (length ms) ms) ->
  (forall i ms m, ms !! i = Some m -> I i ms ->
     acts id i m (mapper_configure id i t config changes) (fun _ m' l => l = [] /\ I (S i) (<[ i := m' ]> ms))) ->
  I 0%nat (mMappers d) ->
  does id d (device_configure id t config changes) (fun _ d' l =>
    l = [] /\ I (length (mMappers d)) (mMappers d') /\ mDropUntilNextSync d' = mDropUntilNextSync d).
Proof.
  intros Hnil HI H0. apply does_device, does_put_bind. case_match eqn:Hign.
  { apply does_ret. split_and!; [done| |done]. apply Hnil; [|done]. by apply bool_decide_eq_true in Hign. }
  apply (does_bind _ _ _ _ (fun _ d' l => kept (with_sources 0 d) l d')).
  { apply does_if. intros _. apply does_quiet; [apply quiet_ask|]. intros p. by apply does_device, does_put. }
  intros _ d1 l1 (-> & E1 & R1). apply (does_bind _ _ _ _ (fun _ d' l => kept d1 l d')).
  { apply does_if. intros _. apply does_quiet; [apply quiet_call, log_overlay|]. intros set. apply does_if. intros _. apply device_bump_does. }
  intros _ d2 l2 (-> & E2 & R2). apply (does_bind _ _ _ _ (fun _ d' l => kept d2 l d')).
  { apply does_if. intros _. apply does_quiet; [apply quiet_ask|]. intros alias. apply does_device. case_match; [by apply does_ret|].
    apply does_put_bind. apply (device_bump_does id (with_alias alias d2)). }
  intros _ d3 l3 (-> & E3 & R3). change (mMappers (with_sources 0 d)) with (mMappers d) in E1.
  change (mDropUntilNextSync (with_sources 0 d)) with (mDropUntilNextSync d) in R1. rewrite <- E1, <- E2, <- E3, <- R1, <- R2, <- R3 in *.
  apply (does_each id _ (fun i d' l => l = [] /\ I i (mMappers d') /\ mDropUntilNextSync d' = mDropUntilNextSync d3)); [done|].
  intros i d4 l Hi (-> & Hi4 & R4). destruct (lookup_lt_is_Some_2 _ _ Hi) as [m Hm]. eapply does_bind; [by apply (HI i (mMappers d4) m Hm Hi4)|].
  intros _ d5 l5 (m' & Hm' & R5 & -> & HI5). rewrite <- Hm' in HI5. intros r Hr. apply returns_bind.
  assert (length (mMappers d5) = length (mMappers d4)) as Hlen by (by rewrite Hm', length_insert).
  eapply (returns_deref _ _ _ m').
  { rewrite (proj1 Hr). cbn. rewrite Hm'. by apply list_lookup_insert_eq. }
  revert r Hr. apply does_device, does_put. rewrite <- R4, <- R5. done.
Qed.

Lemma Forall2_keyed_insert f ms ms' i m m' :
  Forall2 (keyed f) ms ms' -> ms' !! i = Some m -> keyed (fun s => s) m m' -> Forall2 (keyed f) ms (<[ i := m' ]> ms').
Proof.
  intros Hf Hi Hk. destruct (Forall2_lookup_r _ _ _ _ _ Hf Hi) as (m0 & Hm0 & Hk0).
  rewrite <- (list_insert_id ms i m0 Hm0). apply Forall2_insert; [done|]. exact (keyed_trans _ _ _ _ _ Hk0 Hk).
Qed.

Lemma reconfigure_does id d t config changes :
  orientation_ok (di_orientation (mInternalDisplay config)) -> changes <> 0 -> device_ok (mMappers d) ->
  does id d (device_configure id t config changes) (fun _ d' l => rests id d l d').
Proof.
  intros Ho Hc Hok. set (I := fun (_ : nat) ms => telling id (mMappers d) [] ms /\ Forall2 (keyed (fun s => s)) (mMappers d) ms).
  eapply does_mono; [apply (device_configure_does id d t config changes I); [done| |]|].
  - intros i ms m Hi [Ht Hk]. assert (device_ok ms) as Hms by apply Ht.
    eapply acts_mono; [apply mapper_configure_acts; [done|]|].
    + rewrite (proj2 (Z.eqb_neq changes 0) Hc). eapply Forall_lookup_1; [apply Hms|done].
    + intros _ m' l (-> & _ & _ & Hst). destruct (Hst Hc) as (_ & Hsp & Hkm). split; [done|]. split.
      * apply (telling_trans _ _ ms _ [] []); [done|]. by eapply telling_speech.
      * by eapply Forall2_keyed_insert.
  - split; [by apply telling_refl|]. apply Forall2_same_length_lookup. split; [done|]. intros i x y Hx Hy.
    assert (x = y) as -> by congruence. apply keyed_id.
  - intros ? d' l (-> & [Ht Hk] & Hdr). split_and!; [done..|]. intros [drop codes] Hs.
    apply (hw_keyed (fun s => s) drop codes drop d); [exact Hs|done|congruence].
Qed.

(** Keyboards speak under small sources, mice under others. *)
Lemma kinds_distinct ms : Forall mapper_ok ms -> NoDup (omap kind ms) -> distinct ms.
Proof.
  assert (forall s ms, Forall mapper_ok ms -> s ∈ omap speaks ms -> (s <? AINPUT_SOURCE_MOUSE) ∈ omap kind ms) as Hkind.
  { intros s l Hl (m & Hm & Hs)%list_elem_of_omap. apply list_elem_of_omap. exists m. split; [done|].
    rewrite Forall_forall in Hl. specialize (Hl m Hm). destruct m as [| |k|c|]; try done; cbn in *; injection Hs as <-.
    - f_equal. symmetry. apply Z.ltb_lt. tauto.
    - destruct Hl as [[_ ->]| ->]; done. }
  induction ms as [|m ms IH]; intros Hok Hk; [by apply NoDup_nil|]. apply Forall_cons in Hok as [Hm Hms].
  unfold distinct in *. destruct m as [| |k|c|]; cbn in *; try (by apply IH).
  - apply NoDup_cons in Hk as [Hni Hk]. apply NoDup_cons. split; [|by apply IH]. intros Hin%(Hkind _ _ Hms). apply Hni.
    by rewrite (proj2 (Z.ltb_lt _ _)) in Hin by tauto.
  - apply NoDup_cons in Hk as [Hni Hk]. apply NoDup_cons. split; [|by apply IH]. intros Hin%(Hkind _ _ Hms). apply Hni.
    by destruct Hm as [[_ E]|E]; rewrite E in Hin.
Qed.

Lemma omap_kind_insert ms i m m' : ms !! i = Some m -> kind m' = kind m -> omap kind (<[ i := m' ]> ms) = omap kind ms.
Proof.
  intros Hi Hk. revert i Hi. induction ms as [|m0 ms IH]; intros [|i] Hi; cbn in *; try done.
  - injection Hi as ->. by rewrite Hk.
  - specialize (IH i Hi). destruct (kind m0); [by f_equal|done].
Qed.

(** The first time, mappers that have just been created. *)
Definition fresh_mappers ms : Prop := Forall fresh_mapper ms /\ NoDup (omap kind ms).

Lemma first_configure_does id d t config :
  orientation_ok (di_orientation (mInternalDisplay config)) -> fresh_mappers (mMappers d) ->
  does id d (device_configure id t config 0) (fun _ d' l => l = [] /\ device_ok (mMappers d') /\ mDropUntilNextSync d' = mDropUntilNextSync d).
Proof.
  intros Ho [Hf Hk]. set (I := fun i ms => length ms = length (mMappers d) /\ NoDup (omap kind ms) /\
    forall j m, ms !! j = Some m -> if (j <? i)%nat then mapper_ok m else fresh_mapper m).
  eapply does_mono; [apply (device_configure_does id d t config 0 I)|].
  - intros ms Hms. by rewrite Hms.
  - intros i ms m Hi (Hlen & Hnd & Hms). eapply acts_mono; [apply mapper_configure_acts; [done|]|].
    + specialize (Hms i m Hi). by rewrite (proj2 (Nat.ltb_ge i i)) in Hms by lia.
    + intros _ m' l (-> & Hok & Hkm & _). split; [done|]. split_and!; [by rewrite length_insert|by erewrite omap_kind_insert|].
      intros j m2. destruct (decide (i = j)) as [<-|Hne].
      * rewrite list_lookup_insert_eq by (by eapply lookup_lt_Some). intros [= <-]. by rewrite (proj2 (Nat.ltb_lt _ _)) by lia.
      * rewrite list_lookup_insert_ne by done. intros Hj%Hms. destruct (Nat.ltb_spec j i), (Nat.ltb_spec j (S i)); try lia; done.
  - split_and!; [done..|]. intros j m Hj. by eapply Forall_lookup_1.
  - intros _ d' l (-> & (Hlen & Hnd & Hms) & Hdr). split; [done|]. split; [|done].
    assert (Forall mapper_ok (mMappers d')) as Hall.
    { apply Forall_lookup. intros j m Hj. specialize (Hms j m Hj). apply lookup_lt_Some in Hj.
      by rewrite (proj2 (Nat.ltb_lt _ _)) in Hms by lia. }
    split; [done|by apply kinds_distinct].
Qed.

Lemma classes_fresh id classes :
  has classes (Z.lor (Z.lor INPUT_DEVICE_CLASS_TOUCH INPUT_DEVICE_CLASS_TOUCH_MT) INPUT_DEVICE_CLASS_JOYSTICK) = false ->
  fresh_mappers (classes_mappers (K := K) id classes).
Proof.
  intros Hc. assert (has classes INPUT_DEVICE_CLASS_TOUCH = false /\ has classes INPUT_DEVICE_CLASS_TOUCH_MT = false /\
    has classes INPUT_DEVICE_CLASS_JOYSTICK = false) as (H1 & H2 & H3).
  { unfold has in *. rewrite negb_false_iff, Z.eqb_eq, !Z.land_lor_distr_r, !Z.lor_eq_0_iff in Hc. destruct Hc as [[-> ->] ->]. done. }
  unfold classes_mappers. rewrite H1, H2, H3.
  destruct (has classes INPUT_DEVICE_CLASS_SWITCH), (has classes INPUT_DEVICE_CLASS_VIBRATOR), (has classes INPUT_DEVICE_CLASS_CURSOR),
    (has classes INPUT_DEVICE_CLASS_GAMEPAD), (has classes INPUT_DEVICE_CLASS_DPAD), (has classes INPUT_DEVICE_CLASS_KEYBOARD).
  all: split; [repeat constructor; done|cbn; repeat constructor; set_solver].
Qed.

End Invariant.
