(* ===== verification/ReaderListener.v ===== *)
(** * The input reader: its listener is never misled

    The reader ([ReaderLoop]) as its own thread and its callers run it: devices come
    and go, events arrive in batches, the configuration changes, vibrators are
    started and stopped.  Every call returns without undefined behaviour, and what
    the listener has been told, with what is queued for it, is always what the
    mappers of the present devices hold ([ReaderView]). *)

From Stdlib Require Import SpecFloat.
From S2P Require Import Prelude Geometry Input AndroidEvents InputTransport InputState Dispatcher DispatchTargets DispatchLoop.
From S2P Require Import DispatchMemory ReaderData ReaderLoop ReaderView ReaderSteps ReaderInvariant.

Section Listener.
Context {K O : Type} `{HEventHub : EventHub K} `{HPolicy : ReaderPolicy K} `{HListener : InputListener K}.
Context `{HOther : OtherMappers K O} `{HTracker : VelocityTracker} `{HLaws : !ReaderLaws K} `{HPLaws : !PolicyLaws K}.
Context (area : Rectangle) (has_listener : bool).
Implicit Types r : InputReader K O.
Implicit Types d : InputDevice O.

Abbreviation R := (M (InputReader K O)).

(** ** The invariant *)

(** What has been told, with what is queued. *)
Definition total r : list NotifyArgs := fst (fst (told r)) ++ snd (told r).

Definition seen r : view := story (total r) empty_view.

(** Everything but that each device there is has been added. *)
Record reader_ok r : Prop := {
  ro_sorted : OrdMap.sorted (mDevices r);
  ro_known : known r;
  ro_devices : forall id d, rd_objects r !! id = Some d -> device_ok (mMappers d) /\ shows id (mMappers d) (seen r);
  ro_keys : forall x, x ∈ pressed (seen r) -> is_Some (rd_objects r !! key_device x);
  ro_gestures : forall x, x ∈ gestures (seen r) -> is_Some (rd_objects r !! gesture_device x);
  ro_accepted : accepted (total r) empty_view = true;
  ro_orientation : orientation_ok (di_orientation (mInternalDisplay (mConfig r)));
}.

Definition added r : Prop := forall id, is_Some (rd_objects r !! id) -> id ∈ OrdMap.keys (mDevices r).

Definition tidy r : Prop := reader_ok r /\ added r.

Definition queue r : list NotifyArgs := snd (told r).

(** *** The devices, from the events *)

(** Whether each device has been overrun, and its keys that are down. *)
Definition hw_event (e : RawEvent) (hw : gmap Z (bool * gset Z)) : gmap Z (bool * gset Z) :=
  if re_type e =? DEVICE_ADDED then
    match hw !! re_deviceId e with Some _ => hw | None => <[ re_deviceId e := (false, ∅) ]> hw end
  else if re_type e =? DEVICE_REMOVED then delete (re_deviceId e) hw
  else if re_type e =? FINISHED_DEVICE_SCAN then hw
  else alter (hw_key e) (re_deviceId e) hw.

Definition hw_events (events : list RawEvent) (hw : gmap Z (bool * gset Z)) : gmap Z (bool * gset Z) :=
  fold_left (fun hw e => hw_event e hw) events hw.

Definition hw_ok (hw : gmap Z (bool * gset Z)) r : Prop :=
  forall id, match hw !! id, rd_objects r !! id with
             | Some s, Some d => hw_device s d
             | None, None => True
             | _, _ => False
             end.

Lemma hw_ok_dom hw r id : hw_ok hw r -> is_Some (hw !! id) <-> is_Some (rd_objects r !! id).
Proof. intros Hok. specialize (Hok id). destruct (hw !! id), (rd_objects r !! id); try done; split; eauto; by intros [? [=]]. Qed.

Lemma hw_ok_device hw r id d : hw_ok hw r -> rd_objects r !! id = Some d -> exists s, hw !! id = Some s /\ hw_device s d.
Proof. intros Hok Hd. specialize (Hok id). rewrite Hd in Hok. destruct (hw !! id); [eauto|done]. Qed.

(** One device changes. *)
Lemma hw_ok_insert hw r r' id s d :
  hw_ok hw r -> rd_objects r' = <[ id := d ]> (rd_objects r) -> hw_device s d -> hw_ok (<[ id := s ]> hw) r'.
Proof.
  intros Hok Ho Hs j. rewrite Ho. destruct (decide (id = j)) as [<-|Hne]; [by rewrite !lookup_insert_eq|].
  rewrite !lookup_insert_ne by done. apply Hok.
Qed.

Lemma hw_ok_same hw r r' : rd_objects r' = rd_objects r -> hw_ok hw r -> hw_ok hw r'.
Proof. intros Ho Hok id. rewrite Ho. apply Hok. Qed.

Lemma total_tidy r r' :
  rd_objects r' = rd_objects r -> mDevices r' = mDevices r -> mConfig r' = mConfig r -> total r' = total r ->
  mDisableVirtualKeysTimeout (rd_context r') = mDisableVirtualKeysTimeout (rd_context r) -> tidy r -> tidy r'.
Proof.
  intros Ho Hd Hc Ht Hv [[S Kn D KY G A Or] Ad]. unfold seen in *. split; [split|]; unfold seen, known, added in *;
    rewrite ?Ho, ?Hd, ?Hc, ?Ht, ?Hv; done.
Qed.

Lemma same_tidy r r' : same r r' -> tidy r -> tidy r'.
Proof. intros (Ho & Hd & Hc & Ht & Hv). apply total_tidy; try done. unfold total. by rewrite Ht. Qed.

Lemma total_moves id d l r r' : moves id d l r r' -> total r' = total r ++ l.
Proof. intros (_ & _ & _ & Ht & _). unfold total. rewrite Ht. cbn. by rewrite app_assoc. Qed.

(** One device speaks. *)
Lemma moves_ok id d d' l r r' :
  reader_ok r -> here id d r -> moves id d' l r r' -> telling id (mMappers d) l (mMappers d') -> reader_ok r'.
Proof.
  intros [S Kn D KY G A Or] [Hd _] Hm (Hok & Hlen & Hof & Hv). pose proof (total_moves _ _ _ _ _ Hm) as Ht.
  assert (seen r' = story l (seen r)) as Hseen by (unfold seen; by rewrite Ht, story_app).
  pose proof (story_other id l (seen r) Hof) as [EK EG]. rewrite <- Hseen in EK, EG.
  destruct (Hv (seen r) (proj2 (D id d Hd))) as [Ha Hsh]. rewrite <- Hseen in Hsh.
  assert (forall j, is_Some (rd_objects r !! j) -> is_Some (rd_objects r' !! j)) as Hdom.
  { intros j Hj. rewrite (proj1 Hm). destruct (decide (id = j)) as [<-|Hne]; [rewrite lookup_insert_eq; eauto|by rewrite lookup_insert_ne]. }
  assert (is_Some (rd_objects r' !! id)) as Hid by (apply Hdom; eauto).
  pose proof (moves_here _ _ _ _ _ _ (conj Hd Kn) Hm) as [_ Kn']. destruct Hm as (Ho & Hm & Hc & _). split.
  - by rewrite Hm.
  - exact Kn'.
  - intros j dj. rewrite Ho. destruct (decide (id = j)) as [<-|Hne].
    + rewrite lookup_insert_eq. intros [= <-]. done.
    + rewrite lookup_insert_ne by done. intros Hj%D. split; [apply Hj|]. eapply shows_elsewhere; [exact (conj EK EG)|congruence|apply Hj].
  - intros x Hx. destruct (decide (key_device x = id)) as [->|Hne]; [done|]. apply Hdom, KY. by apply (EK x Hne).
  - intros x Hx. destruct (decide (gesture_device x = id)) as [->|Hne]; [done|]. apply Hdom, G. by apply (EG x Hne).
  - by rewrite Ht, accepted_app, A.
  - by rewrite Hc.
Qed.

(** Nothing is told, and no key changes. *)
Definition tidy_silent r r' : Prop :=
  tidy r' /\ told r' = told r /\ mDevices r' = mDevices r /\ forall hw, hw_ok hw r -> hw_ok hw r'.

Lemma tidy_silent_refl r : tidy r -> tidy_silent r r.
Proof. done. Qed.

Lemma tidy_silent_trans r r' r'' : tidy_silent r r' -> tidy_silent r' r'' -> tidy_silent r r''.
Proof. intros (H1 & T1 & D1 & K1) (H2 & T2 & D2 & K2). split_and!; [done|congruence|congruence|]. intros hw Hok. by apply K2, K1. Qed.

Lemma same_silent r r' : tidy r -> same r r' -> tidy_silent r r'.
Proof.
  intros Hr Hs. split; [exact (same_tidy _ _ Hs Hr)|]. destruct Hs as (Ho & Hd & _ & Ht & _). split_and!; [done..|].
  intros hw. by apply hw_ok_same.
Qed.

Lemma quiet_silent {A} (op : R A) r : quiet op -> tidy r -> returns op (fun _ r' => tidy_silent r r') r.
Proof. intros Hop Hr. eapply returns_mono; [apply Hop, Hr|]. intros a r' Hs. by apply same_silent. Qed.

Lemma does_silent id d (op : R unit) r :
  tidy r -> rd_objects r !! id = Some d -> does id d op (fun _ d' l => rests id d l d') ->
  returns op (fun _ r' => tidy_silent r r') r.
Proof.
  intros [Hr Ad] Hd Hop. eapply returns_mono; [apply Hop; split; [done|apply Hr]|]. intros ? r' (d' & l & Hm & -> & Ht & Hk).
  assert (reader_ok r') as Hr' by (eapply moves_ok; [done|exact (conj Hd (ro_known _ Hr))|done..]).
  destruct Hm as (Ho & Hm & _ & Htd & _). split_and!; [|by rewrite Htd, app_nil_r; destruct (told r)|done|].
  - split; [done|]. intros j. rewrite Ho, Hm. destruct (decide (id = j)) as [<-|Hne]; [intros _; apply Ad; eauto|].
    rewrite lookup_insert_ne by done. apply Ad.
  - intros hw Hok. destruct (hw_ok_device _ _ _ _ Hok Hd) as (s & Hs & Hsd). rewrite <- (insert_id hw id s Hs).
    eapply hw_ok_insert; [done..|by apply Hk].
Qed.

(** A loop over the devices. *)
Lemma for_devices (f : Z -> R unit) r :
  (forall id d, device_ok (mMappers d) -> does id d (f id) (fun _ d' l => rests id d l d')) ->
  tidy r -> returns (ids ← device_ids ; for_each ids f) (fun _ r' => tidy_silent r r') r.
Proof.
  intros Hf Hr. apply returns_bind, returns_gets.
  apply (returns_for_each _ _ (fun r' => tidy_silent r r')); [|by apply tidy_silent_refl].
  intros id r' Hid Hw. pose proof Hw as (Hr' & _ & Hd & _). destruct (proj1 (ro_known _ (proj1 Hr')) id) as [d Hdev]; [by rewrite Hd|].
  eapply returns_mono; [eapply does_silent; [done|exact Hdev|apply Hf; by apply (ro_devices _ (proj1 Hr') id)]|].
  intros ? r'' Hw'. exact (tidy_silent_trans _ _ _ Hw Hw').
Qed.

(** ** Devices come and go *)

(** The events have been taken in, and what is told of them queued. *)
Definition tidy_heard (events : list RawEvent) r r' : Prop :=
  tidy r' /\ fst (told r') = fst (told r) /\ forall hw, hw_ok hw r -> hw_ok (hw_events events hw) r'.

Lemma tidy_heard_trans events events' r r' r'' :
  tidy_heard events r r' -> tidy_heard events' r' r'' -> tidy_heard (events ++ events') r r''.
Proof.
  intros (H1 & T1 & K1) (H2 & T2 & K2). split_and!; [done|congruence|]. intros hw Hok. unfold hw_events. rewrite fold_left_app.
  by apply K2, K1.
Qed.

Lemma silent_heard r r' : tidy_silent r r' -> tidy_heard [] r r'.
Proof. intros (H1 & T1 & _ & K1). split_and!; [done|by rewrite T1|done]. Qed.

(** A device that was told to be forgotten: as if it were new. *)
Lemma reset_ok id d t r (objects : gmap Z (InputDevice O)) r' :
  reader_ok r -> (objects = <[ id := d ]> (rd_objects r) /\ device_ok (mMappers d) /\ Forall (ReaderSteps.silent id) (mMappers d) \/
                 objects = delete id (rd_objects r)) ->
  rd_objects r' = objects -> known r' -> OrdMap.sorted (mDevices r') -> mConfig r' = mConfig r ->
  total r' = total r ++ [NotifyDeviceResetArgs t id] -> reader_ok r'.
Proof.
  intros [S Kn D KY G A Or] Hobj Ho Hk Hs Hc Ht.
  assert (seen r' = hear (NotifyDeviceResetArgs t id) (seen r)) as Hseen by (unfold seen; by rewrite Ht, story_app).
  destruct (hear_reset t id (seen r)) as [HK HG].
  assert (forall j, j <> id -> objects !! j = rd_objects r !! j) as Hother.
  { intros j Hj. destruct Hobj as [[-> _]| ->]; [by rewrite lookup_insert_ne|by rewrite lookup_delete_ne]. }
  split; rewrite ?Ho, ?Hc, ?Hseen; try done.
  - intros j dj Hj. destruct (decide (j = id)) as [->|Hne].
    + destruct Hobj as [(-> & Hok & Hsil)| ->]; [|by rewrite lookup_delete_eq in Hj]. rewrite lookup_insert_eq in Hj.
      injection Hj as <-. split; [done|]. by apply blank_shows.
    + rewrite Hother in Hj by done. destruct (D j dj Hj) as [Hok Hsh]. split; [done|].
      eapply (shows_elsewhere id); [|done|exact Hsh]. by apply hear_other.
  - intros x [Hx Hne]%HK. rewrite Hother by done. by apply KY.
  - intros x [Hx Hne]%HG. rewrite Hother by done. by apply G.
  - by rewrite Ht, accepted_app, A.
Qed.

(** The reader with another device, and without one. *)
Lemma added_tidy id d t r r' :
  tidy r -> device_ok (mMappers d) -> Forall (ReaderSteps.silent id) (mMappers d) ->
  rd_objects r' = <[ id := d ]> (rd_objects r) -> mDevices r' = OrdMap.insert id tt (mDevices r) -> mConfig r' = mConfig r ->
  told r' = (fst (told r), snd (told r) ++ [NotifyDeviceResetArgs t id]) ->
  mDisableVirtualKeysTimeout (rd_context r') = mDisableVirtualKeysTimeout (rd_context r) -> tidy r'.
Proof.
  intros [Hr Ad] Hok Hsil Ho Hd Hc Ht Hv. split.
  - eapply (reset_ok id d t r); [done|left; exact (conj eq_refl (conj Hok Hsil))|done| | |done|].
    + split; [|rewrite Hv; apply Hr]. intros j. rewrite Hd, keys_insert, Ho. intros Hj.
      destruct (decide (id = j)) as [<-|Hne]; [rewrite lookup_insert_eq; eauto|]. rewrite lookup_insert_ne by done.
      apply (proj1 (ro_known _ Hr)). by destruct Hj.
    + rewrite Hd. apply insert_sorted, Hr.
    + unfold total. rewrite Ht. cbn. by rewrite app_assoc.
  - intros j. rewrite Ho, Hd, keys_insert. destruct (decide (id = j)) as [<-|Hne]; [by left|]. rewrite lookup_insert_ne by done.
    right. by apply Ad.
Qed.

Lemma removed_tidy id t r r' :
  tidy r -> rd_objects r' = delete id (rd_objects r) -> mDevices r' = OrdMap.erase id (mDevices r) -> mConfig r' = mConfig r ->
  told r' = (fst (told r), snd (told r) ++ [NotifyDeviceResetArgs t id]) ->
  mDisableVirtualKeysTimeout (rd_context r') = mDisableVirtualKeysTimeout (rd_context r) -> tidy r'.
Proof.
  intros [Hr Ad] Ho Hd Hc Ht Hv. pose proof (ro_sorted _ Hr) as Hs. split.
  - eapply (reset_ok id (mkDevice 0 0 "" 0 [] 0 false false (mkProperties_map (fun _ => None) (fun _ => None))) t r);
      [done|by right|done| | |done|].
    + split; [|rewrite Hv; apply Hr]. intros j Hj. rewrite Ho. rewrite Hd in Hj. rewrite lookup_delete_ne.
      * apply (proj1 (ro_known _ Hr)). by apply keys_erase_sub in Hj.
      * intros <-. apply keys_find in Hj as [u Hj]. by rewrite find_erase_eq in Hj.
    + rewrite Hd. by apply erase_sorted.
    + unfold total. rewrite Ht. cbn. by rewrite app_assoc.
  - intros j. rewrite Ho, Hd. destruct (decide (id = j)) as [<-|Hne]; [rewrite lookup_delete_eq; by intros [? [=]]|].
    rewrite lookup_delete_ne by done. intros [u Hu]%Ad%keys_find. eapply find_some_keys. rewrite find_erase by done.
    rewrite (proj2 (Z.eqb_neq j id)) by congruence. done.
Qed.

(** A new device is configured, and the listener told to forget what it knew of one
    with that identifier. *)
Lemma new_device_does id d t config :
  orientation_ok (di_orientation (mInternalDisplay config)) -> fresh_mappers (mMappers d) ->
  does id d (device_configure id t config 0 ;; device_reset id t) (fun _ d' l =>
    blank id (mMappers d') l /\ mDropUntilNextSync d' = mDropUntilNextSync d).
Proof.
  intros Ho Hf. eapply does_bind; [by apply first_configure_does|]. intros ? d' l (-> & Hok & Hd).
  eapply does_mono; [by apply device_reset_does|]. intros ? d'' l (Hb & _ & Hd'). split; [done|congruence].
Qed.

Lemma returns_assoc {A B C} (op : R A) (f : A -> R B) (k : B -> R C) Q r :
  returns ((op ≫= f) ≫= k) Q r -> returns (op ≫= fun a => f a ≫= k) Q r.
Proof. unfold returns, mbind, M_bind. by destruct (op r). Qed.

(** What [addDeviceLocked] does to make the device [d]. *)
Definition makes id r d r' : Prop :=
  rd_objects r' = <[ id := d ]> (rd_objects r) /\ mDevices r' = mDevices r /\ mConfig r' = mConfig r /\
  (exists t, told r' = (fst (told r), snd (told r) ++ [NotifyDeviceResetArgs t id])) /\
  mDisableVirtualKeysTimeout (rd_context r') = mDisableVirtualKeysTimeout (rd_context r) /\
  device_ok (mMappers d) /\ Forall (ReaderSteps.silent id) (mMappers d) /\ mDropUntilNextSync d = false.

Section Plain.
Hypothesis Hplain : no_touch_or_joystick K.

Lemma make_device t id r (rest : R unit) Q :
  tidy r -> id ∉ OrdMap.keys (mDevices r) -> (forall d r', makes id r d r' -> returns rest Q r') ->
  returns (classes ← hub_ask (hub_getDeviceClasses id) ;
           createDeviceLocked id classes ;;
           config ← gets mConfig ;
           device_configure id t config 0 ;;
           device_reset id t ;; rest) Q r.
Proof.
  intros Hr Hf Hrest. apply returns_bind, returns_gets, returns_bind, returns_bind. eapply returns_mono; [apply quiet_bump, Hr|].
  intros n r1 (Ho1 & Hd1 & Hc1 & Ht1 & Hv1). apply returns_modify. set (d0 := mkDevice _ _ _ _ _ _ _ _ _). set (r2 := set_objects _ r1).
  apply returns_bind, returns_gets. assert (here id d0 r2) as H2.
  { split; [apply lookup_insert_eq|]. split; [|change (mDisableVirtualKeysTimeout (rd_context r1) = LONG_LONG_MIN); rewrite Hv1; apply Hr].
    intros j Hj. change (j ∈ OrdMap.keys (mDevices r1)) in Hj. rewrite Hd1 in Hj.
    change (is_Some (<[ id := d0 ]> (rd_objects r1) !! j)). rewrite lookup_insert_ne, Ho1; [by apply (proj1 (ro_known _ (proj1 Hr)))|]. by intros ->. }
  assert (orientation_ok (di_orientation (mInternalDisplay (mConfig r2)))) as Hor by (change (mConfig r2) with (mConfig r1); rewrite Hc1; apply Hr).
  apply returns_assoc, returns_bind. eapply returns_mono; [apply (new_device_does id d0 t _ Hor); [apply classes_fresh, Hplain|done]|].
  intros ? r3 (d' & l & (Ho3 & Hd3 & Hc3 & Ht3 & Hv3) & (Hok & Hsil & t' & ->) & Hdr). apply (Hrest d'). split_and!; try done.
  - rewrite Ho3. cbn. by rewrite insert_insert_eq, Ho1.
  - by rewrite Hd3.
  - by rewrite Hc3.
  - exists t'. rewrite Ht3. change (told r2) with (told r1). by rewrite Ht1.
  - by rewrite Hv3.
Qed.

Lemma addDevice_tidy e r :
  re_type e = DEVICE_ADDED -> tidy r -> returns (addDeviceLocked (re_when e) (re_deviceId e)) (fun _ r' => tidy_heard [e] r r') r.
Proof.
  intros He Hr. assert (forall hw, hw_events [e] hw = match hw !! re_deviceId e with Some _ => hw | None => <[ re_deviceId e := (false, ∅) ]> hw end) as Hhw.
  { intros hw. unfold hw_events. cbn. unfold hw_event. by rewrite He. }
  set (id := re_deviceId e) in *. apply returns_bind, returns_gets. destruct (OrdMap.find id (mDevices r)) as [[]|] eqn:Hf.
  { apply returns_ret. split_and!; [apply Hr|done|]. intros hw Hok. rewrite Hhw. apply find_some_keys in Hf.
    destruct (proj2 (hw_ok_dom hw r id Hok) (proj1 (ro_known _ (proj1 Hr)) id Hf)) as [s ->]. done. }
  apply find_none_keys in Hf. assert (rd_objects r !! id = None) as Hnone.
  { destruct (rd_objects r !! id) eqn:E; [|done]. destruct Hf. apply Hr. eauto. }
  apply make_device; [done..|]. intros d r3 (Ho & Hd & Hc & [t' Ht] & Hv & Hok & Hsil & Hdr). apply returns_bind, returns_modify, returns_bind.
  set (r4 := set_devices _ r3). assert (tidy r4) as H4 by (apply (added_tidy id d t' r); try done; cbn; by rewrite Hd).
  eapply returns_mono; [apply quiet_bump, H4|]. intros ? r5 Hs. apply returns_ret. split; [exact (same_tidy _ _ Hs H4)|].
  destruct Hs as (Ho5 & _ & _ & -> & _). change (told r4) with (told r3). rewrite Ht. split; [done|]. intros hw Hhok.
  rewrite Hhw. destruct (hw !! id) eqn:Hid.
  - destruct (proj1 (hw_ok_dom hw r id Hhok)) as [? ?]; [eauto|congruence].
  - eapply hw_ok_insert; [done|by rewrite Ho5|]. by eapply hw_silent.
Qed.

Lemma removeDevice_tidy e r :
  re_type e = DEVICE_REMOVED -> tidy r -> returns (removeDeviceLocked (re_when e) (re_deviceId e)) (fun _ r' => tidy_heard [e] r r') r.
Proof.
  intros He Hr. assert (forall hw, hw_events [e] hw = delete (re_deviceId e) hw) as Hhw.
  { intros hw. unfold hw_events. cbn. unfold hw_event. by rewrite He. }
  set (id := re_deviceId e) in *. apply returns_bind, returns_gets. destruct (OrdMap.find id (mDevices r)) as [[]|] eqn:Hf.
  2: { apply returns_ret. split_and!; [apply Hr|done|]. intros hw Hok. rewrite Hhw. apply find_none_keys in Hf.
       rewrite delete_id; [done|]. destruct (hw !! id) eqn:E; [|done]. destruct Hf. apply Hr, (hw_ok_dom hw r id Hok). eauto. }
  apply find_some_keys in Hf. destruct (proj1 (ro_known _ (proj1 Hr)) id Hf) as [d Hd]. apply returns_bind, returns_modify.
  set (r1 := set_devices _ r). assert (known r1) as Hk1.
  { split; [|apply Hr]. intros j Hj. apply (proj1 (ro_known _ (proj1 Hr))). by apply keys_erase_sub in Hj. }
  apply returns_bind. eapply returns_mono; [by apply quiet_bump|]. intros n r2 Hs2. pose proof (same_known _ _ Hs2 Hk1) as Hk2.
  destruct Hs2 as (Ho2 & Hd2 & Hc2 & Ht2 & Hv2). apply returns_bind.
  eapply returns_mono; [apply (device_reset_does id d (re_when e)); [by apply (ro_devices _ (proj1 Hr) id)|]|].
  { split; [by rewrite Ho2|done]. }
  intros ? r3 (d' & l & (Ho3 & Hd3 & Hc3 & Ht3 & Hv3) & (_ & _ & t' & ->) & _). apply returns_modify. set (r4 := set_objects _ r3).
  assert (rd_objects r4 = delete id (rd_objects r)) as Ho4 by (cbn; by rewrite Ho3, Ho2, delete_insert_eq).
  assert (told r4 = (fst (told r), snd (told r) ++ [NotifyDeviceResetArgs t' id])) as Ht4.
  { change (told r4) with (told r3). by rewrite Ht3, Ht2. }
  split_and!; [|by rewrite Ht4|].
  - apply (removed_tidy id t' r); try done; cbn; [by rewrite Hd3, Hd2|by rewrite Hc3, Hc2|by rewrite Hv3, Hv2].
  - intros hw Hok j. rewrite Hhw, Ho4. destruct (decide (id = j)) as [<-|Hne]; [by rewrite !lookup_delete_eq|].
    rewrite !lookup_delete_ne by done. apply Hok.
Qed.

(** ** Events *)

Definition recognised (events : list RawEvent) : Prop :=
  Forall (fun e => LONG_LONG_MIN <= re_when e /\
    (synthetic e = true -> re_type e ∈ [DEVICE_ADDED; DEVICE_REMOVED; FINISHED_DEVICE_SCAN])) events.

Lemma alter_insert_some {A} (m : gmap Z A) i x (f : A -> A) : m !! i = Some x -> alter f i m = <[ i := f x ]> m.
Proof.
  intros Hi. apply map_eq. intros j. destruct (decide (i = j)) as [<-|Hne]; [by rewrite lookup_alter_eq, lookup_insert_eq, Hi|].
  by rewrite lookup_alter_ne, lookup_insert_ne.
Qed.

(** What the events of one batch make of the hardware. *)
Lemma hw_batch id batch hw :
  Forall (fun e => synthetic e = false /\ re_deviceId e = id) batch ->
  hw_events batch hw = alter (fun s => fold_left (fun s e => hw_key e s) batch s) id hw.
Proof.
  intros Hb. revert hw. induction Hb as [|e batch [He <-] Hb IH]; intros hw; cbn.
  - symmetry. apply map_eq. intros j. destruct (decide (id = j)) as [<-|Hne]; [rewrite lookup_alter_eq; by destruct (hw !! id)|by rewrite lookup_alter_ne].
  - assert (hw_event e hw = alter (hw_key e) (re_deviceId e) hw) as Hev.
    { unfold hw_event, synthetic in *. apply Z.leb_gt in He. unfold FIRST_SYNTHETIC_EVENT, DEVICE_ADDED in He.
      unfold DEVICE_ADDED, DEVICE_REMOVED, FINISHED_DEVICE_SCAN. repeat case_match; try done; lia. }
    unfold hw_events in *. cbn. rewrite Hev, IH. apply map_eq. intros j. destruct (decide (re_deviceId e = j)) as [<-|Hne].
    + rewrite !lookup_alter_eq. by destruct (hw !! re_deviceId e).
    + by rewrite !lookup_alter_ne.
Qed.

Lemma device_batch_tidy id events r :
  recognised events -> Forall (fun e => synthetic e = false /\ re_deviceId e = id) events -> tidy r ->
  returns (processEventsForDeviceLocked area has_listener id events) (fun _ r' => tidy_heard events r r') r.
Proof.
  intros Hrec Hb Hr. assert (forall hw, hw_ok hw r -> rd_objects r !! id = None -> hw_ok (hw_events events hw) r) as Hno.
  { intros hw Hok Hnone. rewrite (hw_batch id) by done. intros j. destruct (decide (id = j)) as [<-|Hne]; [|rewrite lookup_alter_ne by done; apply Hok].
    rewrite lookup_alter_eq. specialize (Hok id). rewrite Hnone in *. by destruct (hw !! id). }
  apply returns_bind, returns_gets. destruct (OrdMap.find id (mDevices r)) as [[]|] eqn:Hf.
  2: { apply find_none_keys in Hf. apply returns_ret. split_and!; [apply Hr|done|]. intros hw Hok. apply Hno; [done|].
       destruct (rd_objects r !! id) eqn:E; [|done]. destruct Hf. apply Hr. eauto. }
  apply find_some_keys in Hf. destruct (proj1 (ro_known _ (proj1 Hr)) id Hf) as [d Hd]. apply returns_bind. eapply returns_device; [done|].
  case_match eqn:Hign.
  { apply bool_decide_eq_true, nil_length_inv in Hign. apply returns_ret. split_and!; [apply Hr|done|]. intros hw Hok.
    destruct (hw_ok_device _ _ _ _ Hok Hd) as (s & Hs & Hsd). rewrite (hw_batch id) by done. intros j.
    destruct (decide (id = j)) as [<-|Hne]; [|rewrite lookup_alter_ne by done; apply Hok]. rewrite lookup_alter_eq, Hs, Hd. cbn. by intros []. }
  apply bool_decide_eq_false in Hign. assert (mMappers d <> []) as Hne by (by intros E; rewrite E in Hign).
  destruct (ro_devices _ (proj1 Hr) id d Hd) as [Hok _].
  eapply returns_mono; [apply (device_process_does _ _ id d events); [|done|done|exact (conj Hd (ro_known _ (proj1 Hr)))]|].
  { eapply Forall_impl; [exact Hrec|]. by intros e [? _]. }
  intros ? r' (d' & l & Hm & Ht & Hhw). split.
  - destruct Hr as [Hr Ad]. split; [eapply moves_ok; [done|exact (conj Hd (ro_known _ Hr))|done..]|].
    intros j. destruct Hm as (Ho & -> & _). rewrite Ho. destruct (decide (id = j)) as [<-|Hj]; [by intros _|]. rewrite lookup_insert_ne by done. apply Ad.
  - destruct Hm as (Ho & _ & _ & Htd & _). rewrite Htd. split; [done|]. intros hw Hhok.
    destruct (hw_ok_device _ _ _ _ Hhok Hd) as (s & Hs & Hsd). rewrite (hw_batch id) by done.
    rewrite (alter_insert_some hw id s) by done. eapply hw_ok_insert; [done|exact Ho|by apply Hhw].
Qed.

Lemma configuration_changed_tidy e r :
  re_type e = FINISHED_DEVICE_SCAN -> tidy r ->
  returns (handleConfigurationChangedLocked (re_when e)) (fun _ r' => tidy_heard [e] r r') r.
Proof.
  intros He Hr. apply returns_bind. eapply returns_mono; [apply quiet_meta, Hr|]. intros ? r1 Hs.
  pose proof (same_tidy _ _ Hs Hr) as [H1 A1]. destruct Hs as (Ho & _ & _ & Hh & _).
  apply returns_modify. set (r2 := set_context _ r1). assert (total r2 = total r1 ++ [NotifyConfigurationChangedArgs (re_when e)]) as Ht.
  { unfold total. cbn. by rewrite app_assoc. }
  assert (seen r2 = seen r1) as Hseen by (unfold seen; by rewrite Ht, story_app). split_and!; [split|by rewrite <- Hh|].
  - destruct H1 as [S Kn D KY G A Or]. split; rewrite ?Hseen; try done. by rewrite Ht, accepted_app, A.
  - exact A1.
  - intros hw Hok. unfold hw_events. cbn. unfold hw_event. rewrite He. cbn. by apply (hw_ok_same hw r).
Qed.

Lemma synthetic_tidy e r :
  re_type e ∈ [DEVICE_ADDED; DEVICE_REMOVED; FINISHED_DEVICE_SCAN] -> tidy r ->
  returns (process_synthetic e) (fun _ r' => tidy_heard [e] r r') r.
Proof.
  intros He Hr. unfold process_synthetic. rewrite !elem_of_cons, elem_of_nil in He. destruct He as [He|[He|[He|[]]]]; rewrite He; cbn.
  - by apply addDevice_tidy.
  - by apply removeDevice_tidy.
  - by apply configuration_changed_tidy.
Qed.

Lemma take_batch_spec id events :
  let '(batch, rest) := take_batch id events in events = batch ++ rest /\ Forall (fun e => synthetic e = false /\ re_deviceId e = id) batch.
Proof.
  induction events as [|e events IH]; [done|]. cbn. destruct (_ || _) eqn:Hb; [done|]. destruct (take_batch id events) as [batch rest].
  apply orb_false_iff in Hb as [Hs Hd%negb_false_iff%Z.eqb_eq]. destruct IH as [-> Hf]. split; [done|]. by constructor.
Qed.

Lemma process_events_tidy n events r :
  (length events <= n)%nat -> recognised events -> tidy r ->
  returns (process_events area has_listener n events) (fun _ r' => tidy_heard events r r') r.
Proof.
  revert events r. induction n as [|n IH]; intros [|e events] r Hn Hk Hr; cbn in Hn; try done; [lia|].
  assert (forall done rest r1, (length rest <= n)%nat -> recognised rest -> tidy_heard done r r1 ->
    returns (process_events area has_listener n rest) (fun _ r' => tidy_heard (done ++ rest) r r') r1) as Hrest.
  { intros l rest r1 Hl Hk1 Hw. eapply returns_mono; [apply IH; [done..|apply Hw]|]. intros ? r2 Hw'. exact (tidy_heard_trans _ _ _ _ _ Hw Hw'). }
  cbn [process_events]. pose proof Hk as [[_ He] Hk']%Forall_cons. destruct (synthetic e) eqn:Hs.
  - apply returns_bind. eapply returns_mono; [apply synthetic_tidy; [by apply He|done]|]. intros ? r1 Hw.
    apply (Hrest [e]); [lia|done..].
  - pose proof (take_batch_spec (re_deviceId e) events) as Hb. destruct (take_batch _ events) as [batch rest].
    destruct Hb as [-> Hb]. rewrite length_app in Hn. apply returns_bind. apply Forall_app in Hk' as [Hk1 Hk2].
    eapply returns_mono; [apply (device_batch_tidy _ (e :: batch)); [|by constructor|done]|].
    { apply Forall_cons. split; [by apply Forall_cons in Hk as [? _]|done]. }
    intros ? r1 Hw. apply (Hrest (e :: batch)); [lia|done..].
Qed.

(** ** Timeouts and configuration *)

Lemma timeoutExpired_tidy t r : tidy r -> returns (timeoutExpiredLocked t) (fun _ r' => tidy_silent r r') r.
Proof.
  intros Hr. apply for_devices; [|done]. intros id d Hok. apply does_device. case_match; [apply does_ret; by apply rests_refl|].
  by apply device_timeout_does.
Qed.

(** Two steps in a row. *)
Lemma silent_bind {A B} (op : R A) (k : A -> R B) r :
  returns op (fun _ r' => tidy_silent r r') r -> (forall a r', tidy r' -> returns (k a) (fun _ r'' => tidy_silent r' r'') r') ->
  returns (op ≫= k) (fun _ r' => tidy_silent r r') r.
Proof.
  intros Hop Hk. apply returns_bind. eapply returns_mono; [exact Hop|]. intros a r' Hw.
  eapply returns_mono; [apply Hk, Hw|]. intros b r'' Hw'. exact (tidy_silent_trans _ _ _ Hw Hw').
Qed.

Lemma set_config_tidy c r :
  orientation_ok (di_orientation (mInternalDisplay c)) -> tidy r -> tidy_silent r (set_config c r).
Proof. intros Hc [[S Kn D KY G A Or] Ad]. split; [|done]. split; [by split|done]. Qed.

Lemma refresh_tidy changes r : tidy r -> returns (refreshConfigurationLocked changes) (fun _ r' => tidy_silent r r') r.
Proof.
  intros Hr. apply returns_bind, returns_gets. apply silent_bind.
  { apply returns_modify, set_config_tidy; [apply orientations_known, Hr|done]. }
  intros ? r1 H1. apply returns_bind, returns_gets. set (config := mConfig r1).
  assert (orientation_ok (di_orientation (mInternalDisplay config))) as Ho by apply H1. apply silent_bind.
  { apply quiet_silent; [apply quiet_hub, log_excluded|done]. }
  intros ? r2 H2. destruct (Z.eqb_spec changes 0); [by apply quiet_silent; [apply quiet_mret|]|]. apply silent_bind.
  { apply quiet_silent; [apply quiet_time|done]. }
  intros now r3 H3. case_match; [by apply quiet_silent; [apply quiet_hub, log_reopen|]|].
  apply for_devices; [|done]. intros id d Hok. by apply reconfigure_does.
Qed.

(** ** The loop *)

Lemma loop_prepare_tidy r : tidy r -> returns loop_prepare (fun _ r' => tidy_silent r r') r.
Proof.
  intros Hr. apply returns_bind, returns_gets. case_match.
  - apply silent_bind; [by apply quiet_silent|]. intros ? r1 H1. apply silent_bind; [by apply refresh_tidy|]. intros ? r2 H2.
    by apply quiet_silent; [apply quiet_mret|].
  - apply returns_bind, returns_gets. case_match; [|by apply quiet_silent; [apply quiet_mret|]].
    apply silent_bind; [by apply quiet_silent; [apply quiet_time|]|]. intros now r1 H1. by apply quiet_silent; [apply quiet_mret|].
Qed.

(** The events have been read. *)
Lemma getEvents_tidy t r :
  tidy r ->
  returns (getEvents t) (fun events r' => recognised events /\ tidy r' /\ rd_objects r' = rd_objects r /\ queue r' = queue r /\
    snd (fst (told r')) = snd (fst (told r)) ++ events) r.
Proof.
  intros Hr. pose proof (log_events t (rc_world (rd_context r))) as Hlog. pose proof (events_known t (rc_world (rd_context r))) as He.
  unfold getEvents, hub_call, returns. destruct (hub_getEvents _ _) as [events k]. cbn in Hlog, He. set (r' := set_context _ r).
  assert (told r' = (fst (fst (told r)), snd (fst (told r)) ++ events, snd (told r))) as Ht by (unfold told; cbn; by rewrite Hlog).
  split_and!; [by apply Forall_forall| |done|done|by rewrite Ht]. apply (total_tidy r r'); try done. unfold total. by rewrite Ht.
Qed.

Lemma loop_expire_tidy r : tidy r -> returns loop_expire (fun _ r' => tidy_silent r r') r.
Proof.
  intros Hr. apply returns_bind, returns_gets. case_match; [|by apply quiet_silent; [apply quiet_mret|]].
  apply silent_bind; [by apply quiet_silent; [apply quiet_time|]|]. intros now r1 H1. case_match; [|by apply quiet_silent; [apply quiet_mret|]].
  apply silent_bind; [apply (quiet_silent (context_do (rc_set_timeout LONG_LONG_MAX))); [by apply quiet_context|done]|].
  intros ? r2 H2. by apply timeoutExpired_tidy.
Qed.

(** What was queued has been told. *)
Lemma flush_tidy r :
  tidy r -> returns flush (fun _ r' => tidy r' /\ rd_objects r' = rd_objects r /\ told r' = (total r, snd (fst (told r)), [])) r.
Proof.
  intros Hr. apply returns_bind, returns_gets. apply returns_bind.
  set (stays := fun r' => rd_objects r' = rd_objects r /\ mDevices r' = mDevices r /\ mConfig r' = mConfig r /\
    mDisableVirtualKeysTimeout (rd_context r') = mDisableVirtualKeysTimeout (rd_context r)).
  assert (forall q r1, stays r1 -> returns (for_each q (fun args => hub_do (listener_notify args))) (fun _ r' =>
      stays r' /\ log (rc_world (rd_context r')) = (fst (log (rc_world (rd_context r1))) ++ q, snd (log (rc_world (rd_context r1))))) r1) as Hloop.
  { induction q as [|a q IH]; intros r1 Hs; [cbn; rewrite app_nil_r; split; [done|by destruct (log _)]|]. apply returns_bind, returns_modify.
    eapply returns_mono; [by apply IH|]. intros ? r' (Hs' & Hh). split; [done|]. rewrite Hh. cbn.
    rewrite log_notify. cbn. by rewrite <- app_assoc. }
  eapply returns_mono; [by apply Hloop|]. intros ? r1 ((Ho & Hd & Hc & Hv) & Hh). apply returns_modify. set (r2 := set_context _ r1).
  assert (told r2 = (total r, snd (fst (told r)), [])) as Ht by (unfold told, total; cbn; by rewrite Hh). split_and!; [|done..].
  apply (total_tidy r r2); try done. unfold total at 1. rewrite Ht. apply app_nil_r.
Qed.

(** *** What other threads call *)

Lemma for_vibrators_tidy id (f : nat -> R unit) r :
  (forall i v, vibrator_ok v -> acts id i (Vibrator_mapper v) (f i) (fun _ m' l => l = [] /\ a_vibrator m')) ->
  tidy r -> returns (for_vibrators id f) (fun _ r' => tidy_silent r r') r.
Proof.
  intros Hf Hr. apply returns_bind, returns_gets. destruct (OrdMap.find id (mDevices r)) eqn:Hfind; [|done].
  apply find_some_keys in Hfind. destruct (proj1 (ro_known _ (proj1 Hr)) id Hfind) as [d Hd].
  eapply does_silent; [done|exact Hd|]. apply does_still; [apply (ro_devices _ (proj1 Hr) id d Hd)|]. intros i m Hm. apply acts_mapper.
  destruct m as [|v|k|c|o]; try (apply acts_ret; by apply still_refl).
  eapply acts_mono; [by apply Hf|]. intros ? m' l [Hl Hv]. exact (still_vibrator _ _ _ _ Hl Hv).
Qed.

Lemma vibrate_tidy id pattern repeat token r :
  pattern_ok pattern repeat -> tidy r -> returns (vibrate id pattern repeat token) (fun _ r' => tidy_silent r r') r.
Proof. intros Hp. apply for_vibrators_tidy. intros i v _. by apply vibrate_acts. Qed.

Lemma cancelVibrate_tidy id token r : tidy r -> returns (cancelVibrate id token) (fun _ r' => tidy_silent r r') r.
Proof. apply for_vibrators_tidy. intros i v Hv. by apply cancelVibrate_acts. Qed.

Lemma requestRefresh_tidy changes r : tidy r -> returns (requestRefreshConfiguration changes) (fun _ r' => tidy_silent r r') r.
Proof.
  intros Hr. apply quiet_silent; [|done]. unfold requestRefreshConfiguration. case_match; [apply quiet_mret|].
  apply quiet_then; [apply quiet_read|]. intros old. apply quiet_then; [by intros r1 _|]. intros _.
  case_match; [apply quiet_hub, log_wake|apply quiet_mret].
Qed.

(** ** The theorem *)

Definition allowed (q : option request) : Prop :=
  match q with Some (Vibrate _ pattern repeat _) => pattern_ok pattern repeat | _ => True end.

(** The events that have been taken in. *)
Definition taken (pc : loop_pc) r (events : list RawEvent) : Prop :=
  snd (fst (told r)) = events ++ match pc with Loop_events _ l => l | _ => [] end.

(** At each place of the loop: the queue is empty but between the events and the
    [flush], and the devices are what the events have made of them. *)
Definition at_pc (pc : loop_pc) r : Prop :=
  tidy r /\
  match pc with Loop_events _ events => recognised events /\ queue r = [] | Loop_telling _ => True | _ => queue r = [] end /\
  exists events, taken pc r events /\ hw_ok (hw_events events ∅) r.

Lemma loop_step_ok pc r : at_pc pc r -> returns (loop_step area has_listener pc) at_pc r.
Proof.
  intros (Hr & Hq & l & Hl & Hhw). unfold taken in Hl. destruct pc as [|old t|old events|devices]; cbn [loop_step].
  - apply returns_bind, returns_gets, returns_bind. eapply returns_mono; [by apply loop_prepare_tidy|]. intros t r' (H' & T & _ & Hk).
    apply returns_ret. unfold at_pc, taken, queue in *. rewrite T. split_and!; [done..|]. exists l. split; [done|by apply Hk].
  - apply returns_bind. eapply returns_mono; [by apply getEvents_tidy|]. intros events r' (He & H' & Ho & Hq' & Hg).
    apply returns_ret. split_and!; [done|done|congruence|]. exists l. unfold taken. split; [by rewrite Hg, Hl, app_nil_r|].
    by apply (hw_ok_same _ r).
  - destruct Hq as [Hrec Hq]. apply returns_bind. eapply returns_mono; [by apply process_events_tidy|]. intros ? r1 (H1 & T1 & K1).
    apply returns_bind. eapply returns_mono; [by apply loop_expire_tidy|]. intros ? r2 (H2 & T2 & _ & K2).
    assert (exists events', snd (fst (told r2)) = events' ++ [] /\ hw_ok (hw_events events' ∅) r2) as Hev.
    { exists (l ++ events). rewrite T2, T1, app_nil_r. split; [done|]. apply K2. unfold hw_events. rewrite fold_left_app. by apply K1. }
    apply returns_bind, returns_gets. case_match; [apply returns_bind, returns_gets|]; apply returns_ret; by split_and!.
  - apply returns_bind. eapply returns_mono; [apply (quiet_silent (match devices with Some _ => _ | None => _ end)); [|done]|].
    { destruct devices; [apply quiet_hub, log_devices|apply quiet_mret]. }
    intros ? r1 (H1 & T1 & _ & K1). apply returns_bind. eapply returns_mono; [by apply flush_tidy|]. intros ? r2 (H2 & Ho2 & T2). apply returns_ret.
    unfold at_pc, taken, queue. rewrite T2. split_and!; [done..|]. exists l. cbn [fst snd]. rewrite T1. split; [done|]. apply (hw_ok_same _ r1); [done|by apply K1].
Qed.

Lemma serve_request_ok q pc r : allowed (Some q) -> at_pc pc r -> returns (serve q) (fun _ => at_pc pc) r.
Proof.
  intros Ha (Hr & Hq & l & Hl & Hhw). assert (returns (serve q) (fun _ r' => tidy_silent r r') r) as Hs.
  { destruct q; cbn; [by apply requestRefresh_tidy|by apply vibrate_tidy|by apply cancelVibrate_tidy]. }
  eapply returns_mono; [exact Hs|]. intros ? r' (H' & T & _ & K'). unfold at_pc, taken, queue in *. rewrite T.
  split_and!; [done..|]. exists l. split; [done|by apply K'].
Qed.

Lemma run_reader_ok schedule pc r :
  Forall allowed schedule -> at_pc pc r -> returns (run_reader area has_listener schedule pc) at_pc r.
Proof.
  revert pc r. induction schedule as [|[q|] schedule IH]; intros pc r Ha Hr; [done|..]; apply Forall_cons in Ha as [Hq Ha];
    apply returns_bind.
  - eapply returns_mono; [by apply serve_request_ok|]. intros ? r' Hr'. by apply IH.
  - eapply returns_mono; [by apply loop_step_ok|]. intros pc' r' Hr'. by apply IH.
Qed.

End Plain.

Lemma InputReader_new_ok k p :
  log k = ([], []) -> exists r, InputReader_new (O := O) k p = Ret tt r /\ at_pc Loop_top r.
Proof.
  intros Hk. set (r := mkReader (O := O) ∅ [] InputReaderConfiguration_new 0 (mkContext [] 0 1 LONG_LONG_MIN LONG_LONG_MAX p k)).
  assert (told r = ([], [], [])) as Ht by (unfold told; cbn; by rewrite Hk).
  assert (forall id, rd_objects r !! id = None) as Hnone by (intros id; apply lookup_empty).
  assert (tidy r) as Hr.
  { split; [|intros id [d Hd]; by rewrite Hnone in Hd].
    assert (total r = []) as Htot by (unfold total; by rewrite Ht). assert (seen r = empty_view) as Hseen by (unfold seen; by rewrite Htot).
    split; rewrite ?Hseen, ?Htot; try done; [apply sorted_nil_map|]. split; [by intros id ?%not_elem_of_nil|done]. }
  assert (returns (refreshConfigurationLocked 0 ;; updateGlobalMetaStateLocked) (fun _ r' => tidy_silent r r') r) as Hnew.
  { apply silent_bind; [by apply refresh_tidy|]. intros ? r1 H1. apply quiet_silent; [apply quiet_meta|done]. }
  destruct (returns_some _ _ _ Hnew) as ([] & r' & Hrun & Hr' & T & _ & K'). exists r'. split; [exact Hrun|].
  unfold at_pc, taken, queue. rewrite T, Ht. split_and!; [done..|]. exists []. split; [done|]. apply K'. intros id.
  unfold hw_events. cbn [fold_left]. by rewrite lookup_empty, Hnone.
Qed.

(** A device that has been added. *)
Definition present id d r : Prop := id ∈ OrdMap.keys (mDevices r) /\ rd_objects r !! id = Some d.

(** C5: with keyboards, game pads, mice, switches and vibrators, in any combination, and
    none of the hub's devices a touch screen, a touch pad or a joystick (whose mappers are
    not among those followed here), the listener is never misled.  The hub's synthetic
    events have the types of [EventHub.h], and the policy, like the server's, has a pointer
    controller for a mouse and one of the four orientations.  The reader's thread and
    its callers do what they want, in any order; of a request to vibrate it is asked that
    its pattern fits the mapper's array and that the index to repeat from is in it, which
    [vibrate] does not test.  Then every call of the reader returns, without undefined
    behaviour; every notification is one that the listener can accept after those before it
    (no gesture is ended or goes on that was not started), and after them the keys that are
    pressed and the gestures in progress are exactly those that the mappers of the
    devices present hold.  Nothing is left of a device that has been removed or reset,
    whatever it held, and what is queued has been told whenever the loop is outside
    its events. *)
Theorem listener_never_misled (k : K) (p : pointer) (schedule : list (option request)) :
  no_touch_or_joystick K -> log k = ([], []) -> Forall allowed schedule ->
  exists r0 pc r,
    InputReader_new k p = Ret tt r0 /\ run_reader area has_listener schedule Loop_top r0 = Ret pc r /\
    accepted (total r) empty_view = true /\
    (forall x, x ∈ pressed (seen r) <->
       exists d m, present (key_device x) d r /\ m ∈ mMappers d /\ holds_key (key_device x) m x) /\
    (forall id s, (id, s, false) ∈ gestures (seen r) <->
       exists d m, present id d r /\ m ∈ mMappers d /\ holds_gesture id m (id, s, false)) /\
    (forall x, x ∈ gestures (seen r) -> gesture_device x ∈ OrdMap.keys (mDevices r)) /\
    match pc with Loop_telling _ => True | _ => total r = fst (log (rc_world (rd_context r))) end.
Proof.
  intros Hplain Hk Ha. destruct (InputReader_new_ok k p Hk) as (r0 & Hnew & H0).
  destruct (returns_some _ _ _ (run_reader_ok Hplain schedule Loop_top r0 Ha H0)) as (pc & r & Hrun & [Hr Ad] & Hq & _).
  exists r0, pc, r. split_and!; [done|done|apply Hr| | | |].
  - intros x. split.
    + intros Hx. destruct (ro_keys _ Hr x Hx) as [d Hd]. destruct (ro_devices _ Hr _ _ Hd) as [_ [HK _]].
      destruct (proj1 (HK x eq_refl) Hx) as (m & Hm & Hh). exists d, m. split; [|done]. split; [apply Ad; eauto|done].
    + intros (d & m & [_ Hd] & Hm & Hh). destruct (ro_devices _ Hr _ _ Hd) as [_ [HK _]]. apply HK; eauto.
  - intros id s. split.
    + intros Hx. destruct (ro_gestures _ Hr _ Hx) as [d Hd]. destruct (ro_devices _ Hr _ _ Hd) as [_ [_ HG]].
      destruct (proj1 (HG s) Hx) as (m & Hm & Hh). exists d, m. split; [|done]. split; [apply Ad; eauto|done].
    + intros (d & m & [_ Hd] & Hm & Hh). destruct (ro_devices _ Hr _ _ Hd) as [_ [_ HG]]. apply HG; eauto.
  - intros x Hx. by apply Ad, (ro_gestures _ Hr).
  - unfold total. unfold queue in Hq. destruct pc; try done; [..|destruct Hq as [_ Hq]]; rewrite Hq; apply app_nil_r.
Qed.

(** C6: with such devices (keyboards, game pads, mice, switches and vibrators, in any
    combination, but no touch screen, touch pad or joystick) and such requests (a pattern to
    vibrate fits its array, the index to repeat from is in it), the keys of a keyboard that
    the listener sees pressed are, in every run of the reader, those that the hardware has
    down, by the events that were read from it: the scan codes whose last event since the
    device was added, or since an overrun of its buffer was repaired, is a press.  This
    holds for events in any batches, of any number of these devices, with devices added and
    removed between them, and for key codes that are rotated with the screen. *)
Theorem keys_follow_hardware (k : K) (p : pointer) (schedule : list (option request)) :
  no_touch_or_joystick K -> log k = ([], []) -> Forall allowed schedule ->
  exists r0 pc r events,
    InputReader_new k p = Ret tt r0 /\ run_reader area has_listener schedule Loop_top r0 = Ret pc r /\
    snd (log (rc_world (rd_context r))) = events ++ match pc with Loop_events _ l => l | _ => [] end /\
    forall id d kb, present id d r -> Keyboard_mapper kb ∈ mMappers d ->
      exists drop codes, hw_events events ∅ !! id = Some (drop, codes) /\
        forall scanCode, scanCode ∈ codes <-> exists keyCode, (id, kb_source kb, keyCode, scanCode) ∈ pressed (seen r).
Proof.
  intros Hplain Hk Ha. destruct (InputReader_new_ok k p Hk) as (r0 & Hnew & H0).
  destruct (returns_some _ _ _ (run_reader_ok Hplain schedule Loop_top r0 Ha H0)) as (pc & r & Hrun & [Hr Ad] & _ & events & Htk & Hhw).
  exists r0, pc, r, events. split_and!; [done..|]. intros id d kb [_ Hd] Hkb.
  destruct (hw_ok_device _ _ _ _ Hhw Hd) as ([drop codes] & Hs & Hdev). exists drop, codes. split; [done|].
  destruct Hdev as [_ Hcodes]; [by intros E; rewrite E in Hkb; apply not_elem_of_nil in Hkb|]. cbn in Hcodes. rewrite <- (Hcodes kb Hkb).
  destruct (ro_devices _ Hr _ _ Hd) as [[_ Hdis] Hsh]. apply list_elem_of_lookup in Hkb as [i Hi].
  destruct (shows_mapper _ _ _ _ _ Hdis Hsh Hi (kb_source kb) eq_refl) as [HK _]. intros sc. rewrite elem_of_codes. split.
  - intros (kd & Hin & <-). exists (kd_keyCode kd). apply HK; [done..|]. cbn. eauto.
  - intros [kc Hx%HK]; [|done..]. cbn in Hx. destruct Hx as (kd & Hin & [= -> ->]). eauto.
Qed.

Ltac step_loop := cbn [loop_step]; unfold mbind, M_bind, gets, mret, M_ret; cbn beta iota.

(** The loop, a step at a time, is the loop. *)
Lemma loopOnce_steps r :
  loopOnce area has_listener r = (pc ← run_reader area has_listener [None; None; None; None] Loop_top ; mret tt) r.
Proof.
  unfold loopOnce. cbn [run_reader]. step_loop.
  destruct (loop_prepare r) as [t r1| | |]; [|done..]. step_loop.
  destruct (getEvents t r1) as [events r2| | |]; [|done..]. step_loop.
  destruct (processEventsLocked _ _ events r2) as [[] r3| | |]; [|done..]. step_loop.
  destruct (loop_expire r3) as [[] r4| | |]; [|done..]. step_loop.
  unfold getInputDevicesLocked, gets, mbind, M_bind, mret, M_ret.
  destruct (negb _); step_loop; [destruct (hub_do _ r4) as [[] r5| | |]; [|done..]; destruct (flush r5)|destruct (flush r4)];
    repeat match goal with u : unit |- _ => destruct u end; done.
Qed.

End Listener.

(** ** A keyboard and a mouse *)

(** The batches of events that are to come, and the log. *)
Record desk : Type := mkDesk { desk_events : list (list RawEvent); desk_log : list NotifyArgs * list RawEvent }.

#[export] Instance desk_hub : EventHub desk := {
  hub_getDeviceClasses id _ := if id =? 1 then INPUT_DEVICE_CLASS_KEYBOARD else INPUT_DEVICE_CLASS_CURSOR;
  hub_getConfiguration _ _ := mkProperties_map (fun _ => None) (fun _ => None);
  hub_hasRelativeAxis _ _ _ := false;
  hub_mapKey _ scanCode _ _ := Some (scanCode + 1000, 0);
  hub_getScanCodeState _ _ _ := AKEY_STATE_UP;
  hub_getKeyCodeState _ _ _ := AKEY_STATE_UP;
  hub_getSwitchState _ _ _ := AKEY_STATE_UNKNOWN;
  hub_hasLed _ _ _ := false;
  hub_setLedState _ _ _ k := k;
  hub_setKeyboardLayoutOverlay _ k := (false, k);
  hub_setExcludedDevices _ k := k;
  hub_vibrate _ _ k := k;
  hub_cancelVibrate _ k := k;
  hub_requestReopenDevices k := k;
  hub_wake k := k;
  hub_getEvents _ k :=
    match desk_events k with
    | [] => ([], k)
    | l :: rest => if forallb (fun e => (0 <=? re_when e) && negb (synthetic e && negb (bool_decide (re_type e ∈ [DEVICE_ADDED; DEVICE_REMOVED; FINISHED_DEVICE_SCAN])))) l
                   then (l, mkDesk rest (fst (desk_log k), snd (desk_log k) ++ l)) else ([], k)
    end;
  systemTime k := (0, k);
}.

#[export] Instance desk_listener : InputListener desk := {
  listener_notify a k := mkDesk (desk_events k) (fst (desk_log k) ++ [a], snd (desk_log k));
}.

#[export] Instance desk_others : OtherMappers desk unit := {
  other_new _ _ := tt;
  other_getSources _ := 0;
  other_configure _ _ _ o c := (o, c);
  other_reset _ o c := (o, c);
  other_process _ o c := (o, c);
  other_timeoutExpired _ o c := (o, c);
  other_getState _ _ _ _ := 0;
}.

#[export] Instance desk_tracker : VelocityTracker := { getVelocity _ := None; hypotf x _ := x }.

Lemma desk_events_log t k :
  desk_log (snd (hub_getEvents t k)) = (fst (desk_log k), snd (desk_log k) ++ fst (hub_getEvents t k)).
Proof.
  cbn. destruct (desk_events k) as [|l rest]; [|case_match]; cbn; rewrite ?app_nil_r; try done; by destruct (desk_log k).
Qed.

Lemma desk_events_known t k e :
  e ∈ fst (hub_getEvents t k) ->
  LONG_LONG_MIN <= re_when e /\ (synthetic e = true -> re_type e ∈ [DEVICE_ADDED; DEVICE_REMOVED; FINISHED_DEVICE_SCAN]).
Proof.
  cbn. destruct (desk_events k) as [|l rest]; [by intros ?%not_elem_of_nil|]. case_match eqn:Hf; [|by intros ?%not_elem_of_nil].
  cbn. intros He. rewrite forallb_forall in Hf. apply list_elem_of_In, Hf, andb_true_iff in He as [Ht Hs]. split.
  - unfold LONG_LONG_MIN. lia.
  - intros Hsy. rewrite Hsy, andb_true_l, negb_involutive in Hs. by apply bool_decide_eq_true in Hs.
Qed.

#[export] Instance desk_laws : ReaderLaws desk.
Proof.
  refine {| log := desk_log; log_events := desk_events_log; events_known := desk_events_known |}; done.
Defined.

Lemma desk_plain : no_touch_or_joystick desk.
Proof. intros id k. cbn. by destruct (id =? 1). Qed.

Definition demo_screen : Rectangle := mkRectangle (mkPoint (wrap 0) (wrap 0)) (mkSize (wrap 1024) (wrap 768)).

(** Both are plugged in; a key and the left button are pressed, with a request in
    between; the reader is about to tell its listener. *)
Definition demo_desk : desk :=
  mkDesk [[mkRaw 1 1 DEVICE_ADDED 0 0; mkRaw 1 2 DEVICE_ADDED 0 0; mkRaw 1 0 FINISHED_DEVICE_SCAN 0 0];
          [mkRaw 5 1 EV_KEY 30 1; mkRaw 5 1 EV_KEY 31 1; mkRaw 5 1 EV_KEY 31 0; mkRaw 5 1 EV_SYN SYN_REPORT 0;
           mkRaw 6 2 EV_KEY BTN_LEFT 1; mkRaw 6 2 EV_SYN SYN_REPORT 0]] ([], []).

Definition demo_schedule : list (option request) :=
  [None; None; None; None; None; Some (RequestRefreshConfiguration CHANGE_DISPLAY_INFO); None; Some (Vibrate 1 [] (-1) 7); None].

#[local] Instance demo_policy : ReaderPolicy desk := mir_policy demo_screen desk.
#[local] Instance demo_policy_laws : PolicyLaws desk := mir_policy_laws demo_screen desk.

Definition demo_pointer : pointer := mkPointerState PointerController_new [].

(** What holds of the reader at the end of the demo. *)
Definition demo_holds (P : loop_pc -> InputReader desk unit -> bool) : bool :=
  match InputReader_new demo_desk demo_pointer with
  | Ret _ r0 => match run_reader demo_screen true demo_schedule Loop_top r0 with Ret pc r => P pc r | _ => false end
  | _ => false
  end.

Lemma demo_true : demo_holds (fun pc r =>
  match pc with Loop_telling (Some _) => false | Loop_telling None => true | _ => false end &&
  (length (total r) =? 7)%nat && bool_decide ((1, AINPUT_SOURCE_KEYBOARD, 1030, 30) ∈ pressed (seen r)) &&
  bool_decide (~ (1, AINPUT_SOURCE_KEYBOARD, 1031, 31) ∈ pressed (seen r)) &&
  bool_decide ((2, AINPUT_SOURCE_MOUSE, false) ∈ gestures (seen r))) = true.
Proof. vm_compute. reflexivity. Qed.

Lemma demo_keys : demo_holds (fun pc r =>
  match pc with Loop_events _ _ => false | _ => true end &&
  bool_decide (hw_events (snd (log (rc_world (rd_context r)))) ∅ !! 1 = Some (false, {[ 30 ]})) &&
  bool_decide (1 ∈ OrdMap.keys (mDevices r)) &&
  match rd_objects r !! 1 with Some d => match mMappers d with [Keyboard_mapper _] => true | _ => false end | None => false end) = true.
Proof. vm_compute. reflexivity. Qed.

Lemma listener_never_misled_witness :
  exists r0 pc r,
    InputReader_new (O := unit) demo_desk demo_pointer = Ret tt r0 /\
    run_reader demo_screen true demo_schedule Loop_top r0 = Ret pc r /\
    accepted (total r) empty_view = true /\ length (total r) = 7%nat /\
    (1, AINPUT_SOURCE_KEYBOARD, 1030, 30) ∈ pressed (seen r) /\ ~ (1, AINPUT_SOURCE_KEYBOARD, 1031, 31) ∈ pressed (seen r) /\
    exists d m, present 2 d r /\ m ∈ mMappers d /\ holds_gesture 2 m (2, AINPUT_SOURCE_MOUSE, false).
Proof.
  destruct (listener_never_misled demo_screen true demo_desk demo_pointer demo_schedule) as
    (r0 & pc & r & Hnew & Hrun & Hacc & HK & HG & _ & _); [apply desk_plain|reflexivity|repeat constructor; cbn; lia|].
  exists r0, pc, r. pose proof demo_true as Hc. unfold demo_holds in Hc. rewrite Hnew, Hrun in Hc.
  rewrite !andb_true_iff, !bool_decide_eq_true, Nat.eqb_eq in Hc. destruct Hc as [[[[_ Hlen] H1] H2] H3].
  split_and!; [done..|]. by apply HG.
Defined.

Lemma keys_follow_hardware_witness :
  exists r0 pc r d kb,
    InputReader_new (O := unit) demo_desk demo_pointer = Ret tt r0 /\
    run_reader demo_screen true demo_schedule Loop_top r0 = Ret pc r /\
    present 1 d r /\ Keyboard_mapper kb ∈ mMappers d /\
    (forall scanCode, scanCode = 30 <-> exists keyCode, (1, kb_source kb, keyCode, scanCode) ∈ pressed (seen r)).
Proof.
  destruct (keys_follow_hardware demo_screen true demo_desk demo_pointer demo_schedule) as
    (r0 & pc & r & events & Hnew & Hrun & Hev & Hhw); [apply desk_plain|reflexivity|repeat constructor; cbn; lia|].
  pose proof demo_keys as Hc. unfold demo_holds in Hc. rewrite Hnew, Hrun in Hc.
  rewrite !andb_true_iff, !bool_decide_eq_true in Hc. destruct Hc as [[[Hpc Hk] Hin] Hd].
  destruct (rd_objects r !! 1) as [d|] eqn:E; [|done]. destruct (mMappers d) as [|[| |kb| |] [|]] eqn:Em; try done.
  assert (Keyboard_mapper kb ∈ mMappers d) as Hkb by (rewrite Em; left).
  assert (snd (log (rc_world (rd_context r))) = events) as He by (rewrite Hev; destruct pc; try done; apply app_nil_r).
  exists r0, pc, r, d, kb. split_and!; [done..|]. destruct (Hhw 1 d kb (conj Hin E) Hkb) as (drop & codes & Hs & Hcodes).
  rewrite <- He, Hk in Hs. injection Hs as <- <-. intros sc. rewrite <- Hcodes. by rewrite elem_of_singleton.
Defined.
