(* ===== verification/KeyText.v ===== *)
(** * Text of key maps: tokens, numbers and labels

    [native/libs/utils/Tokenizer.cpp] and [native/include/utils/Tokenizer.h], the C
    function [strtol] in the way the parsers of key maps call it, the labels of
    [androidfw/KeycodeLabels.h] with the lookups of [Keyboard.cpp], and what the
    parsers of [KeyLayout] and [KeyCharacters] share.  A tokenizer is the text from
    its current position with the number of its line; the name of the file only goes
    to the log.  Integers of type [long] have 64 bits. *)

From Stdlib Require Import Ascii.
From S2P Require Import Prelude AndroidEvents.

(** ** Characters *)

Definition newline : ascii := "010".
Definition NUL : ascii := "000".

(** [static const char* WHITESPACE]. *)
Definition WHITESPACE : string := String " " (String "009" (String "013" "")).

Fixpoint mem (c : ascii) (s : string) : bool :=
  match s with
  | EmptyString => false
  | String c' s' => (c =? c')%char || mem c s'
  end.

(** [isDelimiter]: [strchr] also finds the null that ends its first argument. *)
Definition isDelimiter (ch : ascii) (delimiters : string) : bool := (ch =? NUL)%char || mem ch delimiters.

(** ** The tokenizer *)

Record Tokenizer : Set := mkTokenizer {
  mCurrent : string;
  mLineNumber : Z;
}.

Definition set_current (s : string) (t : Tokenizer) : Tokenizer := mkTokenizer s (mLineNumber t).

Definition isEof (t : Tokenizer) : bool := match mCurrent t with EmptyString => true | _ => false end.

Definition isEol (t : Tokenizer) : bool :=
  match mCurrent t with EmptyString => true | String c _ => (c =? newline)%char end.

Definition peekChar (t : Tokenizer) : ascii := match mCurrent t with EmptyString => NUL | String c _ => c end.

Definition nextChar : M Tokenizer ascii := fun t =>
  match mCurrent t with
  | EmptyString => Ret NUL t
  | String c s => Ret c (set_current s t)
  end.

(** The loop of [nextToken]: the token and what follows it. *)
Fixpoint span_token (delimiters s : string) : string * string :=
  match s with
  | EmptyString => (EmptyString, EmptyString)
  | String ch s' =>
      if (ch =? newline)%char || isDelimiter ch delimiters then (EmptyString, s)
      else let '(token, rest) := span_token delimiters s' in (String ch token, rest)
  end.

Definition nextToken (delimiters : string) : M Tokenizer string := fun t =>
  let '(token, rest) := span_token delimiters (mCurrent t) in Ret token (set_current rest t).

(** The loop of [nextLine]: what follows, and whether a newline was passed. *)
Fixpoint after_line (s : string) : string * bool :=
  match s with
  | EmptyString => (EmptyString, false)
  | String ch s' => if (ch =? newline)%char then (s', true) else after_line s'
  end.

Definition nextLine : M Tokenizer unit := fun t =>
  let '(rest, passed) := after_line (mCurrent t) in
  Ret tt (mkTokenizer rest (if passed then mLineNumber t + 1 else mLineNumber t)).

(** The loop of [skipDelimiters]. *)
Fixpoint skip (delimiters s : string) : string :=
  match s with
  | EmptyString => EmptyString
  | String ch s' => if (ch =? newline)%char || negb (isDelimiter ch delimiters) then s else skip delimiters s'
  end.

Definition skipDelimiters (delimiters : string) : M Tokenizer unit := fun t =>
  Ret tt (set_current (skip delimiters (mCurrent t)) t).

(** A text up to its first null, which is how [strlen] sees it. *)
Fixpoint c_string (s : string) : string :=
  match s with
  | EmptyString => EmptyString
  | String c s' => if (c =? NUL)%char then EmptyString else String c (c_string s')
  end.

Definition fromContents (contents : string) : Tokenizer := mkTokenizer (c_string contents) 1.

(** [Tokenizer::open] on a file whose bytes are those of [contents]. *)
Definition fromFile (contents : string) : Tokenizer := mkTokenizer contents 1.

(** ** [strtol] with base 0 *)

Definition isspace (c : ascii) : bool := (c =? " ")%char || ((9 <=? Z.of_nat (nat_of_ascii c)) && (Z.of_nat (nat_of_ascii c) <=? 13)).

Fixpoint skip_space (s : string) : string :=
  match s with
  | EmptyString => EmptyString
  | String c s' => if isspace c then skip_space s' else s
  end.

Definition code_of (c : ascii) : Z := Z.of_nat (nat_of_ascii c).

Definition digit_value (c : ascii) : option Z :=
  let n := code_of c in
  if (48 <=? n) && (n <=? 57) then Some (n - 48)
  else if (97 <=? n) && (n <=? 122) then Some (n - 97 + 10)
  else if (65 <=? n) && (n <=? 90) then Some (n - 65 + 10)
  else None.

Definition is_digit (base : Z) (c : ascii) : bool :=
  match digit_value c with Some d => d <? base | None => false end.

Fixpoint read_digits (base acc : Z) (s : string) : Z * string :=
  match s with
  | EmptyString => (acc, EmptyString)
  | String c s' =>
      match digit_value c with
      | Some d => if d <? base then read_digits base (acc * base + d) s' else (acc, s)
      | None => (acc, s)
      end
  end.

Definition LONG_MIN : Z := -9223372036854775808.
Definition LONG_MAX : Z := 9223372036854775807.
Definition clamp_long (z : Z) : Z := Z.max LONG_MIN (Z.min LONG_MAX z).

Definition read_sign (s : string) : bool * string :=
  match s with
  | String c s' => if (c =? "-")%char then (true, s') else if (c =? "+")%char then (false, s') else (false, s)
  | EmptyString => (false, EmptyString)
  end.

Definition read_base (s : string) : Z * string :=
  match s with
  | String z (String x (String h _ as r)) =>
      if (z =? "0")%char then
        if ((x =? "x")%char || (x =? "X")%char) && is_digit 16 h then (16, r) else (8, s)
      else (10, s)
  | String z _ => if (z =? "0")%char then (8, s) else (10, s)
  | EmptyString => (10, s)
  end.

(** The value and what [*end] points to. *)
Definition strtol (s : string) : Z * string :=
  let '(negative, s2) := read_sign (skip_space s) in
  let '(base, s3) := read_base s2 in
  match s3 with
  | String c _ =>
      if is_digit base c then
        let '(v, e) := read_digits base 0 s3 in (clamp_long (if negative then - v else v), e)
      else (0, s)
  | EmptyString => (0, s)
  end.

(** [int32_t(strtol(token, &end, 0))], unless [*end] is not the end. *)
Definition parse_int (token : string) : option Z :=
  let '(v, e) := strtol token in
  match e with EmptyString => Some (i32 v) | _ => None end.

(** ** Labels *)

Definition KEYCODES : list (string * Z) := [
  ("SOFT_LEFT", 1); ("SOFT_RIGHT", 2); ("HOME", 3); ("BACK", 4); ("CALL", 5); ("ENDCALL", 6); ("0", 7);
  ("1", 8); ("2", 9); ("3", 10); ("4", 11); ("5", 12); ("6", 13); ("7", 14); ("8", 15); ("9", 16);
  ("STAR", 17); ("POUND", 18); ("DPAD_UP", 19); ("DPAD_DOWN", 20); ("DPAD_LEFT", 21); ("DPAD_RIGHT", 22);
  ("DPAD_CENTER", 23); ("VOLUME_UP", 24); ("VOLUME_DOWN", 25); ("POWER", 26); ("CAMERA", 27); ("CLEAR", 28);
  ("A", 29); ("B", 30); ("C", 31); ("D", 32); ("E", 33); ("F", 34); ("G", 35); ("H", 36); ("I", 37);
  ("J", 38); ("K", 39); ("L", 40); ("M", 41); ("N", 42); ("O", 43); ("P", 44); ("Q", 45); ("R", 46);
  ("S", 47); ("T", 48); ("U", 49); ("V", 50); ("W", 51); ("X", 52); ("Y", 53); ("Z", 54); ("COMMA", 55);
  ("PERIOD", 56); ("ALT_LEFT", 57); ("ALT_RIGHT", 58); ("SHIFT_LEFT", 59); ("SHIFT_RIGHT", 60); ("TAB", 61);
  ("SPACE", 62); ("SYM", 63); ("EXPLORER", 64); ("ENVELOPE", 65); ("ENTER", 66); ("DEL", 67); ("GRAVE", 68);
  ("MINUS", 69); ("EQUALS", 70); ("LEFT_BRACKET", 71); ("RIGHT_BRACKET", 72); ("BACKSLASH", 73);
  ("SEMICOLON", 74); ("APOSTROPHE", 75); ("SLASH", 76); ("AT", 77); ("NUM", 78); ("HEADSETHOOK", 79);
  ("FOCUS", 80); ("PLUS", 81); ("MENU", 82); ("NOTIFICATION", 83); ("SEARCH", 84); ("MEDIA_PLAY_PAUSE", 85);
  ("MEDIA_STOP", 86); ("MEDIA_NEXT", 87); ("MEDIA_PREVIOUS", 88); ("MEDIA_REWIND", 89);
  ("MEDIA_FAST_FORWARD", 90); ("MUTE", 91); ("PAGE_UP", 92); ("PAGE_DOWN", 93); ("PICTSYMBOLS", 94);
  ("SWITCH_CHARSET", 95); ("BUTTON_A", 96); ("BUTTON_B", 97); ("BUTTON_C", 98); ("BUTTON_X", 99);
  ("BUTTON_Y", 100); ("BUTTON_Z", 101); ("BUTTON_L1", 102); ("BUTTON_R1", 103); ("BUTTON_L2", 104);
  ("BUTTON_R2", 105); ("BUTTON_THUMBL", 106); ("BUTTON_THUMBR", 107); ("BUTTON_START", 108);
  ("BUTTON_SELECT", 109); ("BUTTON_MODE", 110); ("ESCAPE", 111); ("FORWARD_DEL", 112); ("CTRL_LEFT", 113);
  ("CTRL_RIGHT", 114); ("CAPS_LOCK", 115); ("SCROLL_LOCK", 116); ("META_LEFT", 117); ("META_RIGHT", 118);
  ("FUNCTION", 119); ("SYSRQ", 120); ("BREAK", 121); ("MOVE_HOME", 122); ("MOVE_END", 123); ("INSERT", 124);
  ("FORWARD", 125); ("MEDIA_PLAY", 126); ("MEDIA_PAUSE", 127); ("MEDIA_CLOSE", 128); ("MEDIA_EJECT", 129);
  ("MEDIA_RECORD", 130); ("F1", 131); ("F2", 132); ("F3", 133); ("F4", 134); ("F5", 135); ("F6", 136);
  ("F7", 137); ("F8", 138); ("F9", 139); ("F10", 140); ("F11", 141); ("F12", 142); ("NUM_LOCK", 143);
  ("NUMPAD_0", 144); ("NUMPAD_1", 145); ("NUMPAD_2", 146); ("NUMPAD_3", 147); ("NUMPAD_4", 148);
  ("NUMPAD_5", 149); ("NUMPAD_6", 150); ("NUMPAD_7", 151); ("NUMPAD_8", 152); ("NUMPAD_9", 153);
  ("NUMPAD_DIVIDE", 154); ("NUMPAD_MULTIPLY", 155); ("NUMPAD_SUBTRACT", 156); ("NUMPAD_ADD", 157);
  ("NUMPAD_DOT", 158); ("NUMPAD_COMMA", 159); ("NUMPAD_ENTER", 160); ("NUMPAD_EQUALS", 161);
  ("NUMPAD_LEFT_PAREN", 162); ("NUMPAD_RIGHT_PAREN", 163); ("VOLUME_MUTE", 164); ("INFO", 165);
  ("CHANNEL_UP", 166); ("CHANNEL_DOWN", 167); ("ZOOM_IN", 168); ("ZOOM_OUT", 169); ("TV", 170);
  ("WINDOW", 171); ("GUIDE", 172); ("DVR", 173); ("BOOKMARK", 174); ("CAPTIONS", 175); ("SETTINGS", 176);
  ("TV_POWER", 177); ("TV_INPUT", 178); ("STB_POWER", 179); ("STB_INPUT", 180); ("AVR_POWER", 181);
  ("AVR_INPUT", 182); ("PROG_RED", 183); ("PROG_GREEN", 184); ("PROG_YELLOW", 185); ("PROG_BLUE", 186);
  ("APP_SWITCH", 187); ("BUTTON_1", 188); ("BUTTON_2", 189); ("BUTTON_3", 190); ("BUTTON_4", 191);
  ("BUTTON_5", 192); ("BUTTON_6", 193); ("BUTTON_7", 194); ("BUTTON_8", 195); ("BUTTON_9", 196);
  ("BUTTON_10", 197); ("BUTTON_11", 198); ("BUTTON_12", 199); ("BUTTON_13", 200); ("BUTTON_14", 201);
  ("BUTTON_15", 202); ("BUTTON_16", 203); ("LANGUAGE_SWITCH", 204); ("MANNER_MODE", 205); ("3D_MODE", 206);
  ("CONTACTS", 207); ("CALENDAR", 208); ("MUSIC", 209); ("CALCULATOR", 210); ("ZENKAKU_HANKAKU", 211);
  ("EISU", 212); ("MUHENKAN", 213); ("HENKAN", 214); ("KATAKANA_HIRAGANA", 215); ("YEN", 216); ("RO", 217);
  ("KANA", 218); ("ASSIST", 219)
].

Definition FLAGS : list (string * Z) := [
  ("WAKE", 1); ("WAKE_DROPPED", 2); ("SHIFT", 4); ("CAPS_LOCK", 8); ("ALT", 16); ("ALT_GR", 32);
  ("MENU", 64); ("LAUNCHER", 128); ("VIRTUAL", 256); ("FUNCTION", 512)
].

Definition AXES : list (string * Z) := [
  ("X", 0); ("Y", 1); ("PRESSURE", 2); ("SIZE", 3); ("TOUCH_MAJOR", 4); ("TOUCH_MINOR", 5);
  ("TOOL_MAJOR", 6); ("TOOL_MINOR", 7); ("ORIENTATION", 8); ("VSCROLL", 9); ("HSCROLL", 10); ("Z", 11);
  ("RX", 12); ("RY", 13); ("RZ", 14); ("HAT_X", 15); ("HAT_Y", 16); ("LTRIGGER", 17); ("RTRIGGER", 18);
  ("THROTTLE", 19); ("RUDDER", 20); ("WHEEL", 21); ("GAS", 22); ("BRAKE", 23); ("DISTANCE", 24);
  ("TILT", 25); ("GENERIC_1", 32); ("GENERIC_2", 33); ("GENERIC_3", 34); ("GENERIC_4", 35);
  ("GENERIC_5", 36); ("GENERIC_6", 37); ("GENERIC_7", 38); ("GENERIC_8", 39); ("GENERIC_9", 40);
  ("GENERIC_10", 41); ("GENERIC_11", 42); ("GENERIC_12", 43); ("GENERIC_13", 44); ("GENERIC_14", 45);
  ("GENERIC_15", 46); ("GENERIC_16", 47)
].

Fixpoint lookup_label (literal : string) (l : list (string * Z)) (default : Z) : Z :=
  match l with
  | [] => default
  | (label, value) :: l' => if String.eqb literal label then value else lookup_label literal l' default
  end.

(** Each table ends with an entry without a label. *)
Definition getKeyCodeByLabel (label : string) : Z := lookup_label label KEYCODES 0.
Definition getKeyFlagByLabel (label : string) : Z := lookup_label label FLAGS 0.
Definition getAxisByLabel (label : string) : Z := lookup_label label AXES (-1).

(** [lookupLabelByValue], which [getAxisLabel] calls. *)
Fixpoint lookupLabelByValue (value : Z) (l : list (string * Z)) : option string :=
  match l with
  | [] => None
  | (label, v) :: l' => if v =? value then Some label else lookupLabelByValue value l'
  end.
Definition getAxisLabel (axisId : Z) : option string := lookupLabelByValue axisId AXES.

(** ** Parsers *)

(** A parser works on the map it fills and on its tokenizer. *)
Record Parser (T : Type) : Type := mkParser {
  mMap : T;
  mTokenizer : Tokenizer;
}.
Arguments mkParser {T}.
Arguments mMap {T}.
Arguments mTokenizer {T}.

Definition tokens {T A} (m : M Tokenizer A) : M (Parser T) A :=
  zoom (Lens mTokenizer (fun t p => mkParser (mMap p) t)) m.

Definition set_map {T} (f : T -> T) : M (Parser T) unit := modify (fun p => mkParser (f (mMap p)) (mTokenizer p)).

Definition skipBlanks {T} : M (Parser T) unit := tokens (skipDelimiters WHITESPACE).
Definition word {T} : M (Parser T) string := tokens (nextToken WHITESPACE).

(** [mTokenizer->isEol() || mTokenizer->peekChar() == '#']. *)
Definition at_end_of_line {T} : M (Parser T) bool :=
  gets (fun p => isEol (mTokenizer p) || (peekChar (mTokenizer p) =? "#")%char).

(** The length of what is left bounds the passes of a loop, each of which reads at
    least one character. *)
Definition left_to_read {T} : M (Parser T) nat := gets (fun p => S (String.length (mCurrent (mTokenizer p)))).

(** The [while] loop of a parser over its lines, each read by [line]. *)
Fixpoint parse_lines {T} (line : M (Parser T) Z) (fuel : nat) : M (Parser T) Z :=
  match fuel with
  | O => wait
  | S fuel' =>
      eof ← gets (fun p => isEof (mTokenizer p)) ;
      if (eof : bool) then mret 0
      else
        status ← line ;
        if negb (status =? 0) then mret status
        else tokens nextLine ;; parse_lines line fuel'
  end.

Lemma bind_run {S A B} (x : M S A) (k : A -> M S B) s a s' : x s = Ret a s' -> (x ≫= k) s = k a s'.
Proof. unfold mbind, M_bind. by intros ->. Qed.

(** ** Parsers that return *)

(** [m] returns, and [Q] holds of the result. *)
Definition ends {T A} (m : M (Parser T) A) (Q : A -> Parser T -> Prop) (p : Parser T) : Prop :=
  wp m Q (fun _ _ => False) (fun _ => False) p.

(** What a parser returns. *)
Definition status_ok (status : Z) : bool := (status =? 0) || (status =? BAD_VALUE).

(** The number of characters left to read. *)
Definition len {T} (p : Parser T) : nat := String.length (mCurrent (mTokenizer p)).

(** Reading leaves the map alone and moves forward. *)
Definition forward {T} (p p' : Parser T) : Prop := mMap p' = mMap p /\ (len p' <= len p)%nat.

Section Ends.
Context {T : Type}.
Implicit Types p : Parser T.

Lemma ends_bind {A B} (m : M (Parser T) A) (k : A -> M (Parser T) B) Q p :
  ends m (fun a p' => ends (k a) Q p') p -> ends (m ≫= k) Q p.
Proof. apply wp_bind. Qed.

(** A call that precedes another one is a part of what is done before the rest. *)
Lemma ends_bind_l {A B C} (m : M (Parser T) A) (n : M (Parser T) B) (k : B -> M (Parser T) C) Q p :
  ends (m ;; n) (fun a p' => ends (k a) Q p') p -> ends (m ;; (b ← n ; k b)) Q p.
Proof.
  unfold ends, wp, mbind, M_bind. destruct (m p) as [a s'|? ?|?|]; [|done..]. by destruct (n s').
Qed.

Lemma ends_mono {A} (m : M (Parser T) A) (Q Q' : A -> Parser T -> Prop) p :
  ends m Q p -> (forall a p', Q a p' -> Q' a p') -> ends m Q' p.
Proof. intros Hm HQ. eapply wp_mono; [exact Hm|done..]. Qed.

Lemma ends_gets {A B} (f : Parser T -> A) (k : A -> M (Parser T) B) Q p : ends (k (f p)) Q p -> ends (gets f ≫= k) Q p.
Proof. done. Qed.

Lemma ends_ret {A} (m : M (Parser T) A) Q p : ends m Q p -> exists a p', m p = Ret a p' /\ Q a p'.
Proof. unfold ends, wp. destruct (m p) as [a s'|? ?|?|]; [eauto|done..]. Qed.

Lemma forward_refl p : forward p p.
Proof. split; [done|lia]. Qed.

Lemma forward_trans p1 p2 p3 : forward p1 p2 -> forward p2 p3 -> forward p1 p3.
Proof. intros [Hm Hl] [Hm' Hl']. split; [congruence|lia]. Qed.

Lemma skip_length ds s : (String.length (skip ds s) <= String.length s)%nat.
Proof. induction s as [|c s IH]; simpl; [done|]. destruct (_ || _); simpl; lia. Qed.

Lemma span_length ds s : (String.length (snd (span_token ds s)) <= String.length s)%nat.
Proof.
  induction s as [|c s IH]; simpl; [done|]. destruct (_ || _); simpl; [lia|].
  destruct (span_token ds s). simpl in *. lia.
Qed.

Lemma span_lengths ds s : (String.length (fst (span_token ds s)) + String.length (snd (span_token ds s)) = String.length s)%nat.
Proof.
  induction s as [|c s IH]; simpl; [done|]. destruct (_ || _); simpl; [lia|].
  destruct (span_token ds s). simpl in *. lia.
Qed.

Lemma after_line_length s : (String.length (fst (after_line s)) <= String.length s)%nat.
Proof. induction s as [|c s IH]; simpl; [done|]. destruct (Ascii.eqb c newline); simpl; lia. Qed.

Lemma ends_skip ds p :
  ends (tokens (skipDelimiters ds)) (fun _ p' => forward p p' /\ mCurrent (mTokenizer p') = skip ds (mCurrent (mTokenizer p))) p.
Proof. split; [split; [done|apply skip_length]|done]. Qed.

Lemma ends_word ds p : ends (tokens (nextToken ds)) (fun token p' => forward p p' /\
   span_token ds (mCurrent (mTokenizer p)) = (token, mCurrent (mTokenizer p'))) p.
Proof.
  unfold ends, wp, tokens, zoom, nextToken. simpl. pose proof (span_length ds (mCurrent (mTokenizer p))) as Hl.
  destruct (span_token _ _) as [token rest]. simpl in *. split; [split; [done|]|done]. exact Hl.
Qed.

(** A word that is not empty was read. *)
Lemma ends_some_word ds p : ends (tokens (nextToken ds)) (fun token p' => mMap p' = mMap p /\
   (String.length token + len p' = len p)%nat) p.
Proof.
  eapply ends_mono; [apply ends_word|]. intros token p' [[Hm _] Hs]. split; [done|].
  pose proof (span_lengths ds (mCurrent (mTokenizer p))) as Hl. rewrite Hs in Hl. exact Hl.
Qed.

Lemma ends_char p : ends (tokens nextChar) (fun _ p' => forward p p') p.
Proof.
  unfold ends, wp, tokens, zoom, nextChar. simpl. destruct (mCurrent (mTokenizer p)) as [|c s] eqn:E; simpl.
  - split; [done|]. unfold len. simpl. by rewrite E.
  - split; [done|]. unfold len. simpl. rewrite E. simpl. lia.
Qed.

(** After blanks, a line that is not at its end has a word. *)
Lemma word_advances (token rest s : string) :
  span_token WHITESPACE (skip WHITESPACE s) = (token, rest) ->
  (match skip WHITESPACE s with EmptyString => true | String c _ => (c =? newline)%char end = false) ->
  (String.length rest < String.length (skip WHITESPACE s))%nat /\ token <> EmptyString.
Proof.
  induction s as [|c s IH]; simpl; [done|].
  destruct (Ascii.eqb c newline) eqn:En; simpl.
  - rewrite En. done.
  - destruct (isDelimiter c WHITESPACE) eqn:Ed; simpl; [exact IH|].
    rewrite En, Ed. simpl. pose proof (span_length WHITESPACE s) as Hl.
    destruct (span_token WHITESPACE s) as [t' r']. simpl in *. intros [= <- <-] _. split; [lia|done].
Qed.

Lemma ends_line_word p :
  (isEol (mTokenizer p) || (peekChar (mTokenizer p) =? "#")%char) = false ->
  (exists s, mCurrent (mTokenizer p) = skip WHITESPACE s) ->
  ends word (fun token p' => mMap p' = mMap p /\ (len p' < len p)%nat) p.
Proof.
  intros He [s Hs]. apply orb_false_iff in He as [He _]. unfold isEol in He. rewrite Hs in He.
  eapply ends_mono; [apply ends_word|]. intros token p' [[Hm _] Hsp]. rewrite Hs in Hsp.
  destruct (word_advances _ _ _ Hsp He) as [Hl _]. split; [done|]. unfold len. by rewrite Hs.
Qed.

Lemma after_line_shorter s : s <> EmptyString -> (String.length (fst (after_line s)) < String.length s)%nat.
Proof.
  destruct s as [|c s]; [done|]. intros _. simpl. pose proof (after_line_length s).
  destruct (Ascii.eqb c newline); simpl; lia.
Qed.

(** [while (!isEof())] over lines that return and keep [I]. *)
Lemma ends_lines (line : M (Parser T) Z) (I : T -> Prop) fuel p :
  (forall p, I (mMap p) -> ends line (fun a p' => (status_ok a = true /\ I (mMap p')) /\ (len p' <= len p)%nat) p) ->
  I (mMap p) -> (len p < fuel)%nat -> ends (parse_lines line fuel) (fun a p' => status_ok a = true /\ I (mMap p')) p.
Proof.
  intros Hline. revert p. induction fuel as [|fuel IH]; intros p HI Hf; [lia|]. cbn [parse_lines].
  apply ends_bind. unfold ends, wp, gets. cbn. unfold isEof.
  destruct (mCurrent (mTokenizer p)) as [|c s] eqn:E; [split; [done|exact HI]|].
  apply ends_bind. eapply ends_mono; [by apply Hline|]. intros status p1 [[Hst HI1] Hl1].
  destruct (negb (status =? 0)); [split; [exact Hst|exact HI1]|]. apply ends_bind. unfold ends at 1, wp, tokens, zoom, nextLine. cbn.
  pose proof (after_line_shorter (mCurrent (mTokenizer p1))) as Hs.
  pose proof (after_line_length (mCurrent (mTokenizer p1))) as Hs'.
  destruct (after_line _) as [rest passed]. cbn in *. apply IH; [done|]. unfold len in *. cbn.
  rewrite E in Hl1, Hf. cbn in *. destruct (mCurrent (mTokenizer p1)); [cbn in *; lia|]. specialize (Hs ltac:(done)). lia.
Qed.

End Ends.

(** Steps that only read compose. *)
Ltac going := solve [cbv beta in *; eauto 5 using forward_trans, forward_refl].

(** ** Writing text that is read back *)

(** Characters of a word that is neither a comment nor has blanks. *)
Fixpoint plain (s : string) : bool :=
  match s with
  | EmptyString => true
  | String c s' => negb ((c =? newline)%char || isDelimiter c WHITESPACE || (c =? "#")%char) && plain s'
  end.

Definition digit_char (d : Z) : ascii := ascii_of_nat (Z.to_nat (48 + d)).

Fixpoint print_digits (fuel : nat) (n : Z) (tail : string) : string :=
  match fuel with
  | O => tail
  | S fuel' =>
      let tail' := String (digit_char (n mod 10)) tail in
      if n / 10 =? 0 then tail' else print_digits fuel' (n / 10) tail'
  end.

(** Ten digits are enough for an [int32_t]. *)
Definition print_int (z : Z) : string :=
  if z <? 0 then String "-" (print_digits 10 (- z) "") else print_digits 10 z "".

Section Printing.
Implicit Types s t : string.

Lemma digit_cases (P : Z -> Prop) d : Forall P [0; 1; 2; 3; 4; 5; 6; 7; 8; 9] -> 0 <= d < 10 -> P d.
Proof.
  intros H Hd. rewrite Forall_forall in H. apply H.
  assert (d = 0 \/ d = 1 \/ d = 2 \/ d = 3 \/ d = 4 \/ d = 5 \/ d = 6 \/ d = 7 \/ d = 8 \/ d = 9) as Hc by lia.
  repeat destruct Hc as [->|Hc]; subst; set_solver.
Qed.

Lemma digit_value_char d : 0 <= d < 10 -> digit_value (digit_char d) = Some d.
Proof. intros Hd. pattern d. apply digit_cases; [repeat constructor|done]. Qed.

Lemma digit_plain d : 0 <= d < 10 ->
  (digit_char d =? newline)%char || isDelimiter (digit_char d) WHITESPACE || (digit_char d =? "#")%char = false.
Proof. intros Hd. pattern d. apply digit_cases; [repeat constructor|done]. Qed.

Lemma digit_nonzero d : 1 <= d < 10 ->
  ((digit_char d =? "0")%char = false) /\ isspace (digit_char d) = false /\
  (digit_char d =? "-")%char = false /\ (digit_char d =? "+")%char = false.
Proof.
  intros Hd. assert (d = 0 \/ ((digit_char d =? "0")%char = false) /\ isspace (digit_char d) = false /\
    (digit_char d =? "-")%char = false /\ (digit_char d =? "+")%char = false) as [->|H]; [|lia|done].
  pattern d. apply digit_cases; [|lia]. repeat constructor; by left || by right.
Qed.

(** The first digit of a number is not zero. *)
Lemma print_digits_head fuel n tail :
  0 < n < 10 ^ Z.of_nat fuel -> exists d r, print_digits fuel n tail = String (digit_char d) r /\ 1 <= d < 10.
Proof.
  revert n tail. induction fuel as [|fuel IH]; intros n tail Hn; [cbn in Hn; lia|]. cbn [print_digits].
  assert (0 <= n / 10) by (apply Z.div_pos; lia).
  destruct (Z.eqb_spec (n / 10) 0) as [E|E].
  - exists (n mod 10), tail. split; [done|]. pose proof (Z.div_mod n 10). pose proof (Z.mod_pos_bound n 10). lia.
  - apply IH. rewrite Nat2Z.inj_succ, Z.pow_succ_r in Hn by lia. split; [lia|]. apply Z.div_lt_upper_bound; lia.
Qed.

Lemma read_print_digits fuel n tail :
  0 <= n < 10 ^ Z.of_nat fuel -> fuel <> 0%nat ->
  read_digits 10 0 (print_digits fuel n tail) = read_digits 10 n tail.
Proof.
  revert n tail. induction fuel as [|fuel IH]; intros n tail Hn Hf; [done|]. cbn [print_digits].
  pose proof (Z.mod_pos_bound n 10 ltac:(lia)) as Hm. pose proof (Z.div_mod n 10 ltac:(lia)) as Hd.
  destruct (Z.eqb_spec (n / 10) 0) as [E|E].
  - cbn [read_digits]. rewrite digit_value_char by done. replace (n mod 10 <? 10) with true by lia. f_equal. lia.
  - rewrite Nat2Z.inj_succ, Z.pow_succ_r in Hn by lia. destruct fuel as [|fuel].
    { exfalso. apply E. cbn in Hn. apply Z.div_small. lia. }
    assert (0 <= n / 10) by (apply Z.div_pos; lia).
    rewrite IH; [|split; [done|apply Z.div_lt_upper_bound; lia]|done].
    cbn [read_digits]. rewrite digit_value_char by done. replace (n mod 10 <? 10) with true by lia. f_equal. lia.
Qed.

Lemma plain_digits fuel n tail : 0 <= n -> plain (print_digits fuel n tail) = plain tail.
Proof.
  revert n tail. induction fuel as [|fuel IH]; intros n tail Hn; [done|]. cbn [print_digits].
  pose proof (Z.mod_pos_bound n 10 ltac:(lia)) as Hm.
  assert (plain (String (digit_char (n mod 10)) tail) = plain tail) as Ht by (cbn; by rewrite digit_plain).
  case_match; [done|]. rewrite IH by (apply Z.div_pos; lia). done.
Qed.

Lemma print_int_plain z : plain (print_int z) = true.
Proof.
  unfold print_int. destruct (Z.ltb_spec z 0); [|by rewrite plain_digits by lia].
  cbn [plain]. by rewrite plain_digits by lia.
Qed.

Lemma strtol_digits (negative : bool) n s :
  0 < n < 10 ^ 10 -> read_sign (skip_space s) = (negative, print_digits 10 n "") ->
  strtol s = (if negative then - n else n, EmptyString).
Proof.
  intros Hn Hs. unfold strtol. rewrite Hs.
  destruct (print_digits_head 10 n "" Hn) as (d & r & Hp & Hd). destruct (digit_nonzero d Hd) as [Hz _].
  assert (read_base (print_digits 10 n "") = (10, print_digits 10 n "")) as ->.
  { rewrite Hp. cbn. destruct r as [|x [|h r]]; by rewrite Hz. }
  rewrite Hp. unfold is_digit. rewrite digit_value_char by lia. replace (d <? 10) with true by lia. rewrite <- Hp.
  rewrite read_print_digits by done || lia. cbn. f_equal. unfold clamp_long, LONG_MIN, LONG_MAX. destruct negative; lia.
Qed.

Lemma parse_print_int z : is_i32 z -> parse_int (print_int z) = Some z.
Proof.
  intros Hz. pose proof Hz as Hr. unfold is_i32 in Hr.
  destruct (Z.eq_dec z 0) as [->|Hne]; [done|]. unfold parse_int.
  assert (strtol (print_int z) = (z, EmptyString)) as ->; [|by rewrite i32_id].
  unfold print_int. destruct (Z.ltb_spec z 0).
  - rewrite (strtol_digits true (- z)); [f_equal; lia|lia|]. done.
  - rewrite (strtol_digits false z); [done|lia|].
    destruct (print_digits_head 10 z "" ltac:(lia)) as (d & r & Hp & Hd). destruct (digit_nonzero d Hd) as (_ & Hs & Hm & Hpl).
    rewrite Hp. unfold skip_space, read_sign. by rewrite Hs, Hm, Hpl.
Qed.

Lemma print_int_nonempty z : is_i32 z -> print_int z <> EmptyString.
Proof. intros Hz H. pose proof (parse_print_int z Hz) as Hp. rewrite H in Hp. injection Hp as <-. done. Qed.

(** ** Reading words *)

Definition ends_token (c : ascii) : bool := (c =? newline)%char || isDelimiter c WHITESPACE.

Lemma append_cons c t s : String.append (String c t) s = String c (String.append t s).
Proof. done. Qed.

Lemma plain_cons c t : plain (String c t) = true ->
  (c =? newline)%char = false /\ isDelimiter c WHITESPACE = false /\ (c =? "#")%char = false /\ plain t = true.
Proof.
  cbn [plain]. intros H. apply andb_true_iff in H as [Hx Ht]. apply negb_true_iff, orb_false_iff in Hx as [Hx H3].
  apply orb_false_iff in Hx as [H1 H2]. done.
Qed.

Lemma span_plain t c r : plain t = true -> ends_token c = true -> span_token WHITESPACE (String.append t (String c r)) = (t, String c r).
Proof.
  intros Ht Hc. induction t as [|x t IH].
  - change (String.append "" (String c r)) with (String c r). cbn [span_token]. unfold ends_token in Hc. by rewrite Hc.
  - apply plain_cons in Ht as (H1 & H2 & _ & Ht). rewrite append_cons. cbn [span_token]. rewrite H1, H2, IH by done. done.
Qed.

Lemma skip_plain t s : plain t = true -> t <> EmptyString -> skip WHITESPACE (String.append t s) = String.append t s.
Proof.
  destruct t as [|c t]; [done|]. intros Ht _. apply plain_cons in Ht as (H1 & H2 & _). rewrite append_cons. cbn [skip].
  by rewrite H1, H2.
Qed.

Context {T : Type}.
Definition reader_at (m : T) (s : string) (n : Z) : Parser T := mkParser m (mkTokenizer s n).

Lemma run_word t c r m n : plain t = true -> ends_token c = true ->
  word (reader_at m (String.append t (String c r)) n) = Ret t (reader_at m (String c r) n).
Proof. intros Ht Hc. unfold word, tokens, zoom, nextToken. cbn. by rewrite span_plain. Qed.

Lemma run_blank t s m n : plain t = true -> t <> EmptyString ->
  skipBlanks (reader_at m (String " " (String.append t s)) n) = Ret tt (reader_at m (String.append t s) n).
Proof.
  intros Ht Hn. unfold skipBlanks, tokens, zoom, skipDelimiters, reader_at. cbn -[skip].
  change (skip WHITESPACE (String " " (String.append t s))) with (skip WHITESPACE (String.append t s)). by rewrite skip_plain.
Qed.

Lemma run_no_blank t s m n : plain t = true -> t <> EmptyString ->
  skipBlanks (reader_at m (String.append t s) n) = Ret tt (reader_at m (String.append t s) n).
Proof. intros Ht Hn. unfold skipBlanks, tokens, zoom, skipDelimiters, reader_at. cbn -[skip]. by rewrite skip_plain. Qed.

Lemma run_in_line t s m n : plain t = true -> t <> EmptyString ->
  at_end_of_line (reader_at m (String.append t s) n) = Ret false (reader_at m (String.append t s) n).
Proof.
  destruct t as [|c t]; [done|]. intros Ht _. apply plain_cons in Ht as (H1 & _ & H3 & _). rewrite append_cons.
  unfold at_end_of_line, gets, isEol, peekChar, reader_at. cbn [mTokenizer mCurrent]. by rewrite H1, H3.
Qed.

End Printing.
