(* ===== verification/KeyLayout.v ===== *)
(** * Key layouts and virtual keys

    [KeyLayoutMap.cpp]: the mapping of scan codes and usage codes to key codes and of
    axes, with its parser, and [VirtualKeyMap.cpp]: the keys at the border of a touch
    screen.  Every text is accepted or rejected ([layout_loads]); a layout that was
    accepted can be written out and is read back unchanged ([layout_roundtrip]). *)

From Stdlib Require Import Ascii.
From S2P Require Import Prelude AndroidEvents KeyText.

(** ** Data *)

Record Key : Set := mkKey { key_keyCode : Z; key_flags : Z }.

Inductive Mode : Set := MODE_NORMAL | MODE_INVERT | MODE_SPLIT.

Record AxisInfo : Set := mkAxis {
  ai_mode : Mode;
  ai_axis : Z;
  ai_highAxis : Z;
  ai_splitValue : Z;
  ai_flatOverride : Z;
}.

Definition AxisInfo_new : AxisInfo := mkAxis MODE_NORMAL (-1) (-1) 0 (-1).

Record KeyLayoutMap : Set := mkLayout {
  mKeysByScanCode : list (Z * Key);
  mKeysByUsageCode : list (Z * Key);
  mAxes : list (Z * AxisInfo);
}.

Definition KeyLayoutMap_new : KeyLayoutMap := mkLayout [] [] [].

(** ** Lookups *)

Definition getKey (m : KeyLayoutMap) (scanCode usageCode : Z) : option Key :=
  match (if usageCode =? 0 then None else OrdMap.find usageCode (mKeysByUsageCode m)) with
  | Some key => Some key
  | None => if scanCode =? 0 then None else OrdMap.find scanCode (mKeysByScanCode m)
  end.

(** The status, with [*outKeyCode] and [*outFlags]. *)
Definition layout_mapKey (m : KeyLayoutMap) (scanCode usageCode : Z) : Z * Z * Z :=
  match getKey m scanCode usageCode with
  | None => (NAME_NOT_FOUND, 0, 0)
  | Some key => (0, key_keyCode key, key_flags key)
  end.

Definition findScanCodesForKey (m : KeyLayoutMap) (keyCode : Z) : list Z :=
  OrdMap.keys (List.filter (fun p => key_keyCode (snd p) =? keyCode) (mKeysByScanCode m)).

(** The status is NAME_NOT_FOUND when there is no axis. *)
Definition mapAxis (m : KeyLayoutMap) (scanCode : Z) : option AxisInfo := OrdMap.find scanCode (mAxes m).

(** ** The parser *)

Abbreviation P := (M (Parser KeyLayoutMap)).

Definition keys_of (mapUsage : bool) (m : KeyLayoutMap) : list (Z * Key) :=
  if mapUsage then mKeysByUsageCode m else mKeysByScanCode m.

Definition add_key (mapUsage : bool) (code : Z) (key : Key) (m : KeyLayoutMap) : KeyLayoutMap :=
  if mapUsage then mkLayout (mKeysByScanCode m) (OrdMap.insert code key (mKeysByUsageCode m)) (mAxes m)
  else mkLayout (OrdMap.insert code key (mKeysByScanCode m)) (mKeysByUsageCode m) (mAxes m).

Definition add_axis (scanCode : Z) (a : AxisInfo) (m : KeyLayoutMap) : KeyLayoutMap :=
  mkLayout (mKeysByScanCode m) (mKeysByUsageCode m) (OrdMap.insert scanCode a (mAxes m)).

(** The [for (;;)] that reads the flags of a key: the flags, or nothing when the status is
    BAD_VALUE. *)
Fixpoint parse_flags (fuel : nat) (flags : Z) : P (option Z) :=
  match fuel with
  | O => wait
  | S fuel' =>
      skipBlanks ;;
      stop ← at_end_of_line ;
      if (stop : bool) then mret (Some flags)
      else
        flagToken ← word ;
        let flag := getKeyFlagByLabel flagToken in
        if flag =? 0 then mret None
        else if negb (Z.land flags flag =? 0) then mret None
        else parse_flags fuel' (Z.lor flags flag)
  end.

(** [parseKey] from the number of the key on. *)
Definition parse_key_code (mapUsage : bool) (codeToken : string) : P Z :=
  match parse_int codeToken with
  | None => mret BAD_VALUE
  | Some code =>
      found ← gets (fun p => OrdMap.find code (keys_of mapUsage (mMap p))) ;
      match found with
      | Some _ => mret BAD_VALUE
      | None =>
          skipBlanks ;;
          keyCodeToken ← word ;
          let keyCode := getKeyCodeByLabel keyCodeToken in
          if keyCode =? 0 then mret BAD_VALUE
          else
            fuel ← left_to_read ;
            flags ← parse_flags fuel 0 ;
            match flags with
            | None => mret BAD_VALUE
            | Some flags => set_map (add_key mapUsage code (mkKey keyCode flags)) ;; mret 0
            end
      end
  end.

Definition parseKey : P Z :=
  codeToken ← word ;
  if String.eqb codeToken "usage" then
    skipBlanks ;;
    codeToken ← word ;
    parse_key_code true codeToken
  else parse_key_code false codeToken.

(** An axis label, or nothing. *)
Definition parse_axis_label (token : string) : option Z :=
  let axis := getAxisByLabel token in if axis <? 0 then None else Some axis.

(** What precedes the options of an axis. *)
Definition parse_axis_mode : P (option AxisInfo) :=
  token ← word ;
  if String.eqb token "invert" then
    skipBlanks ;;
    axisToken ← word ;
    mret (match parse_axis_label axisToken with
          | None => None
          | Some axis => Some (mkAxis MODE_INVERT axis (-1) 0 (-1))
          end)
  else if String.eqb token "split" then
    skipBlanks ;;
    splitToken ← word ;
    match parse_int splitToken with
    | None => mret None
    | Some splitValue =>
        skipBlanks ;;
        lowAxisToken ← word ;
        match parse_axis_label lowAxisToken with
        | None => mret None
        | Some axis =>
            skipBlanks ;;
            highAxisToken ← word ;
            mret (match parse_axis_label highAxisToken with
                  | None => None
                  | Some highAxis => Some (mkAxis MODE_SPLIT axis highAxis splitValue (-1))
                  end)
        end
    end
  else
    mret (match parse_axis_label token with
          | None => None
          | Some axis => Some (mkAxis MODE_NORMAL axis (-1) 0 (-1))
          end).

(** The [for (;;)] that reads the options of an axis. *)
Fixpoint parse_axis_options (fuel : nat) (a : AxisInfo) : P (option AxisInfo) :=
  match fuel with
  | O => wait
  | S fuel' =>
      skipBlanks ;;
      stop ← at_end_of_line ;
      if (stop : bool) then mret (Some a)
      else
        keywordToken ← word ;
        if String.eqb keywordToken "flat" then
          skipBlanks ;;
          flatToken ← word ;
          match parse_int flatToken with
          | None => mret None
          | Some flat => parse_axis_options fuel' (mkAxis (ai_mode a) (ai_axis a) (ai_highAxis a) (ai_splitValue a) flat)
          end
        else mret None
  end.

Definition parseAxis : P Z :=
  scanCodeToken ← word ;
  match parse_int scanCodeToken with
  | None => mret BAD_VALUE
  | Some scanCode =>
      found ← gets (fun p => OrdMap.find scanCode (mAxes (mMap p))) ;
      match found with
      | Some _ => mret BAD_VALUE
      | None =>
          skipBlanks ;;
          axisInfo ← parse_axis_mode ;
          match axisInfo with
          | None => mret BAD_VALUE
          | Some a =>
              fuel ← left_to_read ;
              axisInfo ← parse_axis_options fuel a ;
              match axisInfo with
              | None => mret BAD_VALUE
              | Some a => set_map (add_axis scanCode a) ;; mret 0
              end
          end
      end
  end.

(** One line of [KeyLayoutMap::Parser::parse], up to [nextLine]. *)
Definition parse_line : P Z :=
  skipBlanks ;;
  blank ← at_end_of_line ;
  if (blank : bool) then mret 0
  else
    keywordToken ← word ;
    status ← (if String.eqb keywordToken "key" then skipBlanks ;; parseKey
              else if String.eqb keywordToken "axis" then skipBlanks ;; parseAxis
              else mret BAD_VALUE) ;
    if negb (status =? 0) then mret status
    else
      skipBlanks ;;
      ended ← at_end_of_line ;
      if (ended : bool) then mret 0 else mret BAD_VALUE.

Definition parse : P Z := fuel ← left_to_read ; parse_lines parse_line fuel.

(** [KeyLayoutMap::load]: the status and the new map; nothing when it does not return. *)
Definition layout_load (t : Tokenizer) : option (Z * option KeyLayoutMap) :=
  match parse (mkParser KeyLayoutMap_new t) with
  | Ret status p => Some (status, if status =? 0 then Some (mMap p) else None)
  | _ => None
  end.

(** ** Virtual keys *)

Record VirtualKeyDefinition : Set := mkVirtualKey {
  vk_scanCode : Z;
  vk_centerX : Z;
  vk_centerY : Z;
  vk_width : Z;
  vk_height : Z;
}.

Abbreviation V := (M (Parser (list VirtualKeyDefinition))).

Definition WHITESPACE_OR_FIELD_DELIMITER : string := String.append WHITESPACE ":".

Definition consumeFieldDelimiterAndSkipWhitespace : V bool :=
  skipBlanks ;;
  ch ← gets (fun p => peekChar (mTokenizer p)) ;
  if (ch =? ":")%char then tokens nextChar ;; skipBlanks ;; mret true else mret false.

(** The value, unless [strtol] did not read a whole token. *)
Definition parseNextIntField : V (option Z) :=
  ok ← consumeFieldDelimiterAndSkipWhitespace ;
  if negb (ok : bool) then mret None
  else
    token ← tokens (nextToken WHITESPACE_OR_FIELD_DELIMITER) ;
    mret (if String.eqb token "" then None else parse_int token).

(** [parseNextIntField(a) && parseNextIntField(b) && ...], for [n] fields. *)
Fixpoint parse_fields (n : nat) : V (option (list Z)) :=
  match n with
  | O => mret (Some [])
  | S n' =>
      v ← parseNextIntField ;
      match v with
      | None => mret None
      | Some z => l ← parse_fields n' ; mret (match l with None => None | Some l => Some (z :: l) end)
      end
  end.

(** The [do] loop over the keys of a line. *)
Fixpoint parse_virtual_keys (fuel : nat) : V Z :=
  match fuel with
  | O => wait
  | S fuel' =>
      token ← tokens (nextToken WHITESPACE_OR_FIELD_DELIMITER) ;
      if negb (String.eqb token "0x01") then mret BAD_VALUE
      else
        fields ← parse_fields 5 ;
        match fields with
        | Some [scanCode; centerX; centerY; width; height] =>
            set_map (fun l => l ++ [mkVirtualKey scanCode centerX centerY width height]) ;;
            more ← consumeFieldDelimiterAndSkipWhitespace ;
            if (more : bool) then parse_virtual_keys fuel' else mret 0
        | _ => mret BAD_VALUE
        end
  end.

Definition parse_virtual_line : V Z :=
  skipBlanks ;;
  blank ← at_end_of_line ;
  if (blank : bool) then mret 0
  else
    fuel ← left_to_read ;
    status ← parse_virtual_keys fuel ;
    if negb (status =? 0) then mret status
    else
      eol ← gets (fun p => isEol (mTokenizer p)) ;
      if (eol : bool) then mret 0 else mret BAD_VALUE.

(** [VirtualKeyMap::load]. *)
Definition virtual_load (t : Tokenizer) : option (Z * option (list VirtualKeyDefinition)) :=
  match (fuel ← left_to_read ; parse_lines parse_virtual_line fuel) (mkParser [] t) with
  | Ret status p => Some (status, if status =? 0 then Some (mMap p) else None)
  | _ => None
  end.

(** ** Layouts that a parser can produce *)

Definition label_value (table : list (string * Z)) (v : Z) : Prop := v ∈ map snd table.

Definition key_ok (e : Z * Key) : Prop :=
  is_i32 (fst e) /\ label_value KEYCODES (key_keyCode (snd e)) /\ 0 <= key_flags (snd e) < 1024.

Definition axis_ok (e : Z * AxisInfo) : Prop :=
  is_i32 (fst e) /\ label_value AXES (ai_axis (snd e)) /\ is_i32 (ai_flatOverride (snd e)) /\
  match ai_mode (snd e) with
  | MODE_SPLIT => label_value AXES (ai_highAxis (snd e)) /\ is_i32 (ai_splitValue (snd e))
  | _ => ai_highAxis (snd e) = -1 /\ ai_splitValue (snd e) = 0
  end.

Record layout_ok (m : KeyLayoutMap) : Prop := {
  lo_scan : OrdMap.sorted (mKeysByScanCode m) /\ Forall key_ok (mKeysByScanCode m);
  lo_usage : OrdMap.sorted (mKeysByUsageCode m) /\ Forall key_ok (mKeysByUsageCode m);
  lo_axes : OrdMap.sorted (mAxes m) /\ Forall axis_ok (mAxes m);
}.

Lemma lookup_label_value s l d : lookup_label s l d = d \/ label_value l (lookup_label s l d).
Proof.
  unfold label_value. induction l as [|[x v] l IH]; simpl; [by left|].
  destruct (String.eqb s x); [right; left|]. destruct IH as [->|H]; [by left|by right; right].
Qed.

Lemma parse_int_range s z : parse_int s = Some z -> is_i32 z.
Proof. unfold parse_int. destruct (strtol s) as [v [|]]; [|done]. intros [= <-]. apply i32_range. Qed.

Lemma lor_1024 a b : 0 <= a < 1024 -> 0 <= b < 1024 -> 0 <= Z.lor a b < 1024.
Proof.
  intros Ha Hb. assert (0 <= Z.lor a b) by (apply Z.lor_nonneg; lia). split; [done|].
  destruct (Z.eq_dec (Z.lor a b) 0) as [->|]; [lia|]. change 1024 with (2 ^ 10). apply Z.log2_lt_pow2; [lia|].
  rewrite Z.log2_lor by lia. destruct (Z.max_spec (Z.log2 a) (Z.log2 b)) as [[_ ->]|[_ ->]].
  - destruct (Z.eq_dec b 0) as [->|]; [done|]. apply Z.log2_lt_pow2; lia.
  - destruct (Z.eq_dec a 0) as [->|]; [done|]. apply Z.log2_lt_pow2; lia.
Qed.

Lemma getKeyFlagByLabel_range s : 0 <= getKeyFlagByLabel s < 1024.
Proof.
  destruct (lookup_label_value s FLAGS 0) as [H|H]; unfold getKeyFlagByLabel; [rewrite H; lia|].
  revert H. unfold label_value. set (v := lookup_label _ _ _). cbn [map snd FLAGS]. intros H.
  repeat (apply elem_of_cons in H as [->|H]; [lia|]). by apply elem_of_nil in H.
Qed.

Section Reading.
Implicit Types p : Parser KeyLayoutMap.

Lemma ends_blanks_word p :
  ends (skipBlanks ;; word) (fun _ p' => forward p p') p.
Proof.
  apply ends_bind. eapply ends_mono; [apply ends_skip|]. intros ? p1 [H1 _].
  eapply ends_mono; [apply ends_word|]. intros token p2 [H2 _]. by eapply forward_trans.
Qed.

(** The tests at the start of a pass of the parser's inner loops. *)
Lemma ends_pass {A} (fin : P A) (more : string -> P A) Q p :
  (forall p', forward p p' -> ends fin Q p') ->
  (forall token p', mMap p' = mMap p -> (len p' < len p)%nat -> ends (more token) Q p') ->
  ends (skipBlanks ;; stop ← at_end_of_line ; if (stop : bool) then fin else token ← word ; more token) Q p.
Proof.
  intros Hf Hm. apply ends_bind. eapply ends_mono; [apply ends_skip|]. intros ? p1 [H1 Hs].
  apply ends_gets. destruct (_ || _) eqn:E; [by apply Hf|].
  apply ends_bind. eapply ends_mono; [apply ends_line_word; [done|eauto]|]. intros token p2 [Hm2 Hl2].
  destruct H1 as [Hm1 Hl1]. apply Hm; [congruence|lia].
Qed.

Lemma ends_flags fuel flags p :
  (len p < fuel)%nat -> 0 <= flags < 1024 ->
  ends (parse_flags fuel flags)
    (fun r p' => forward p p' /\ match r with Some f => 0 <= f < 1024 | None => True end) p.
Proof.
  revert flags p. induction fuel as [|fuel IH]; intros flags p Hf Hr; [lia|]. cbn [parse_flags].
  apply ends_pass; [by intros p' Hp'|]. intros token p' Hm Hl.
  assert (forward p p') by (split; [done|lia]).
  destruct (_ =? 0); [by split|]. destruct (negb _); [by split|].
  eapply ends_mono; [apply IH; [lia|]|].
  - apply lor_1024; [done|apply getKeyFlagByLabel_range].
  - intros r p2 [H2 Hr2]. split; [by eapply forward_trans|done].
Qed.

Lemma ends_options fuel a p :
  (len p < fuel)%nat -> (is_i32 (ai_flatOverride a)) ->
  ends (parse_axis_options fuel a)
    (fun r p' => forward p p' /\ match r with
       | Some b => is_i32 (ai_flatOverride b) /\
           b = mkAxis (ai_mode a) (ai_axis a) (ai_highAxis a) (ai_splitValue a) (ai_flatOverride b)
       | None => True end) p.
Proof.
  revert a p. induction fuel as [|fuel IH]; intros a p Hf Hr; [lia|]. cbn [parse_axis_options].
  apply ends_pass; [intros p' Hp'; split; [done|by destruct a]|]. intros token p' Hm Hl.
  assert (forward p p') by (split; [done|lia]).
  destruct (String.eqb token "flat"); [|by split].
  apply ends_bind. eapply ends_mono; [apply ends_skip|]. intros ? p2 [H2 _].
  apply ends_bind. eapply ends_mono; [apply ends_word|]. intros flat p3 [H3 _].
  assert (forward p' p3) as H4 by by eapply forward_trans.
  destruct (parse_int flat) as [z|] eqn:Ez; [|split; [by eapply forward_trans|done]].
  apply parse_int_range in Ez. eapply ends_mono; [apply IH; [destruct H4; lia|exact Ez]|].
  intros r p4 [H5 Hr4]. split; [eapply forward_trans; [|exact H5]; by eapply forward_trans|done].
Qed.

Lemma parse_axis_label_ok token a : parse_axis_label token = Some a -> label_value AXES a.
Proof.
  unfold parse_axis_label, getAxisByLabel. destruct (lookup_label_value token AXES (-1)) as [->|H]; [done|].
  destruct (_ <? 0); [done|]. by intros [= <-].
Qed.

Lemma ends_axis_mode p :
  ends parse_axis_mode (fun r p' => forward p p' /\ match r with
    | Some a => forall scanCode, is_i32 scanCode -> axis_ok (scanCode, a)
    | None => True end) p.
Proof.
  unfold parse_axis_mode. apply ends_bind. eapply ends_mono; [apply ends_word|]. intros token p1 [H1 _].
  destruct (String.eqb token "invert"); [|destruct (String.eqb token "split")].
  - apply ends_bind_l. eapply ends_mono; [apply ends_blanks_word|]. intros axisToken p2 H2.
    split; [by eapply forward_trans|]. destruct (parse_axis_label axisToken) eqn:E; [|done].
    apply parse_axis_label_ok in E. intros c Hc. by repeat split; try apply Hc.
  - apply ends_bind_l. eapply ends_mono; [apply ends_blanks_word|]. intros splitToken p2 H2.
    assert (forward p p2) as H2' by by eapply forward_trans.
    destruct (parse_int splitToken) eqn:Es; [|by split]. apply parse_int_range in Es.
    apply ends_bind_l. eapply ends_mono; [apply ends_blanks_word|]. intros lowToken p3 H3.
    assert (forward p p3) as H3' by by eapply forward_trans.
    destruct (parse_axis_label lowToken) eqn:El; [|by split]. apply parse_axis_label_ok in El.
    apply ends_bind_l. eapply ends_mono; [apply ends_blanks_word|]. intros highToken p4 H4.
    split; [by eapply forward_trans|]. destruct (parse_axis_label highToken) eqn:Eh; [|done].
    apply parse_axis_label_ok in Eh. intros c Hc. repeat split; try apply Hc; try apply Es; done.
  - split; [done|]. destruct (parse_axis_label token) eqn:E; [|done].
    apply parse_axis_label_ok in E. intros c Hc. by repeat split; try apply Hc.
Qed.

Lemma add_key_ok u code k m : layout_ok m -> key_ok (code, k) -> layout_ok (add_key u code k m).
Proof.
  intros [[Hs Fs] [Hu Fu] Ha] Hk. destruct u; split; cbn; try done; (split; [by apply insert_sorted|by apply insert_Forall]).
Qed.

Lemma add_axis_ok code a m : layout_ok m -> axis_ok (code, a) -> layout_ok (add_axis code a m).
Proof.
  intros [Hs Hu [Ha Fa]] Hk. split; cbn; try done. split; [by apply insert_sorted|by apply insert_Forall].
Qed.

(** What a function of the parser does to the layout and to the text. *)
Definition parses (m : P Z) : Prop :=
  forall p, layout_ok (mMap p) -> ends m (fun a p' => (status_ok a = true /\ layout_ok (mMap p')) /\ (len p' <= len p)%nat) p.

Lemma forward_ok p p' a : status_ok a = true -> forward p p' -> layout_ok (mMap p) ->
  (status_ok a = true /\ layout_ok (mMap p')) /\ (len p' <= len p)%nat.
Proof. intros Ha [-> Hl] Hok. by split. Qed.

Lemma ends_key_code u token : parses (parse_key_code u token).
Proof.
  intros p Hok. unfold parse_key_code.
  destruct (parse_int token) as [code|] eqn:Ec; [|by apply forward_ok; [..|exact Hok]; [|apply forward_refl]].
  apply parse_int_range in Ec. pose proof (forward_refl p) as H0.
  apply ends_gets. destruct (OrdMap.find code _); [by apply forward_ok|].
  apply ends_bind_l. eapply ends_mono; [apply ends_blanks_word|]. intros label p3 H3.
  cbv zeta. destruct (_ =? 0) eqn:Ek; [by apply forward_ok|]. apply Z.eqb_neq in Ek.
  apply ends_gets. apply ends_bind.
  eapply ends_mono; [apply (ends_flags _ 0); [unfold len; lia|lia]|]. intros [flags|] p4 [H4 Hf].
  2: { apply forward_ok; [done|exact (forward_trans _ _ _ H3 H4)|done]. }
  destruct (forward_trans _ _ _ H3 H4) as [Hm4 Hl4].
  split; [split; [done|]|exact Hl4]. cbn. apply add_key_ok; [by rewrite Hm4|]. split; [done|]. split; [|done]. cbn.
  destruct (lookup_label_value label KEYCODES 0); [by unfold getKeyCodeByLabel in Ek|done].
Qed.

Lemma parses_after p p' m : forward p p' -> layout_ok (mMap p) -> parses m ->
  ends m (fun a p2 => (status_ok a = true /\ layout_ok (mMap p2)) /\ (len p2 <= len p)%nat) p'.
Proof.
  intros Hf Hok Hm. destruct (forward_ok _ _ 0 eq_refl Hf Hok) as [[_ Hok'] Hl].
  eapply ends_mono; [by apply Hm|]. intros ? p2 [? ?]. split; [done|lia].
Qed.

Lemma ends_parseKey : parses parseKey.
Proof.
  intros p Hok. unfold parseKey. apply ends_bind. eapply ends_mono; [apply ends_word|]. intros token p1 [H1 _].
  destruct (String.eqb token "usage"); [|by apply parses_after, ends_key_code].
  apply ends_bind_l. eapply ends_mono; [apply ends_blanks_word|]. intros codeToken p2 H2.
  apply parses_after; [by eapply forward_trans|done|apply ends_key_code].
Qed.

Lemma ends_parseAxis : parses parseAxis.
Proof.
  intros p Hok. unfold parseAxis. apply ends_bind. eapply ends_mono; [apply ends_word|]. intros token p1 [H1 _].
  destruct (parse_int token) as [code|] eqn:Ec; [|by apply forward_ok]. apply parse_int_range in Ec.
  apply ends_gets. destruct (OrdMap.find code _); [by apply forward_ok|].
  apply ends_bind. eapply ends_mono; [apply ends_skip|]. intros ? p2 [H2 _].
  apply ends_bind. eapply ends_mono; [apply ends_axis_mode|]. intros r p3 [H3 Hr].
  assert (forward p p3) as H3' by (eapply forward_trans; [|exact H3]; by eapply forward_trans).
  destruct r as [ax|]; [|by apply forward_ok]. specialize (Hr code Ec).
  apply ends_gets. apply ends_bind.
  eapply ends_mono; [apply (ends_options _ ax); [unfold len; lia|apply Hr]|]. intros [b|] p4 [H4 Hb].
  2: { apply forward_ok; [done|exact (forward_trans _ _ _ H3' H4)|done]. }
  destruct (forward_trans _ _ _ H3' H4) as [Hm4 Hl4].
  split; [split; [done|]|exact Hl4]. cbn. apply add_axis_ok; [by rewrite Hm4|]. destruct Hb as [Hb ->].
  destruct Hr as (Hr1 & Hr2 & _ & Hr3). by repeat split; try apply Hb; try apply Hr1.
Qed.

Lemma ends_parse_line : parses parse_line.
Proof.
  intros p Hok. unfold parse_line. apply ends_pass; [intros p' Hp'; by apply forward_ok|].
  intros token p1 Hm1 Hl1. apply ends_bind.
  assert (ends (if String.eqb token "key" then skipBlanks ;; parseKey
                else if String.eqb token "axis" then skipBlanks ;; parseAxis else mret BAD_VALUE)
            (fun a p' => (status_ok a = true /\ layout_ok (mMap p')) /\ (len p' <= len p)%nat) p1) as Hbody.
  { assert (forall m, parses m -> ends (skipBlanks ;; m)
      (fun a p' => (status_ok a = true /\ layout_ok (mMap p')) /\ (len p' <= len p)%nat) p1) as Hb.
    { intros m Hm. apply ends_bind. eapply ends_mono; [apply ends_skip|]. intros ? p2 [[Hm2 Hl2] _].
      eapply ends_mono; [apply Hm; congruence|]. intros ? p3 [H3 Hl3]. split; [done|lia]. }
    destruct (String.eqb token "key"); [apply Hb, ends_parseKey|].
    destruct (String.eqb token "axis"); [apply Hb, ends_parseAxis|]. split; [split; [done|cbn; congruence]|lia]. }
  eapply ends_mono; [exact Hbody|]. intros status p2 [[Hst H2] Hl2].
  destruct (negb _); [by split|]. apply ends_bind. eapply ends_mono; [apply ends_skip|]. intros ? p3 [[Hm3 Hl3] _].
  assert (layout_ok (mMap p3)) by congruence. assert (len p3 <= len p)%nat by lia.
  apply ends_gets. by destruct (_ || _).
Qed.

Lemma layout_loads t : exists status m, layout_load t = Some (status, m) /\
  (status = 0 /\ (exists l, m = Some l /\ layout_ok l) \/ status = BAD_VALUE /\ m = None).
Proof.
  assert (ends parse (fun a p' => status_ok a = true /\ layout_ok (mMap p')) (mkParser KeyLayoutMap_new t)) as H.
  { unfold parse. apply ends_gets.
    apply ends_lines; [apply ends_parse_line| |unfold len; lia]. split; cbn; (split; [constructor|done]). }
  apply ends_ret in H as (status & p & Hp & Hst & Hok). unfold layout_load. rewrite Hp.
  eexists _, _. split; [done|]. apply orb_true_iff in Hst as [E|E]; apply Z.eqb_eq in E as ->; [left|by right].
  split; [done|]. by eexists.
Qed.

End Reading.

(** ** Writing a layout *)

Definition label_of (table : list (string * Z)) (v : Z) : string := from_option id EmptyString (lookupLabelByValue v table).

(** A word, with the text that follows. *)
Definition put (w tail : string) : string := String " " (String.append w tail).

Definition flag_labels (flags : Z) : list string :=
  map fst (List.filter (fun f => negb (Z.land flags (snd f) =? 0)) FLAGS).

Definition print_flags (labels : list string) (tail : string) : string := fold_right put tail labels.

Definition print_key (mapUsage : bool) (e : Z * Key) (tail : string) : string :=
  String.append "key"
    ((if mapUsage then put "usage" else id)
      (put (print_int (fst e))
        (put (label_of KEYCODES (key_keyCode (snd e)))
          (print_flags (flag_labels (key_flags (snd e))) (String newline tail))))).

Definition print_axis (e : Z * AxisInfo) (tail : string) : string :=
  let a := snd e in
  String.append "axis"
    (put (print_int (fst e))
      (match ai_mode a with
       | MODE_NORMAL => put (label_of AXES (ai_axis a))
       | MODE_INVERT => fun s => put "invert" (put (label_of AXES (ai_axis a)) s)
       | MODE_SPLIT => fun s => put "split" (put (print_int (ai_splitValue a))
           (put (label_of AXES (ai_axis a)) (put (label_of AXES (ai_highAxis a)) s)))
       end
       (put "flat" (put (print_int (ai_flatOverride a)) (String newline tail))))).

Definition print_layout (m : KeyLayoutMap) : string :=
  fold_right (print_key false)
    (fold_right (print_key true) (fold_right print_axis EmptyString (mAxes m)) (mKeysByUsageCode m))
    (mKeysByScanCode m).

(** ** Reading it back *)

Definition table_ok (table : list (string * Z)) (default : Z) : bool :=
  forallb (fun v => let l := label_of table v in
    plain l && negb (String.eqb l "") && (lookup_label l table default =? v)) (map snd table).

Lemma label_reads table default v : table_ok table default = true -> label_value table v ->
  plain (label_of table v) = true /\ label_of table v <> EmptyString /\ lookup_label (label_of table v) table default = v.
Proof.
  unfold table_ok, label_value. rewrite forallb_forall. intros H Hv. apply list_elem_of_In in Hv.
  specialize (H v Hv). cbv zeta in H. apply andb_true_iff in H as [H H3]. apply andb_true_iff in H as [H1 H2].
  split; [done|]. split; [|by apply Z.eqb_eq]. intros E. by rewrite E in H2.
Qed.

Lemma keycodes_ok : table_ok KEYCODES 0 = true.
Proof. vm_compute. reflexivity. Qed.

Lemma axes_ok : table_ok AXES (-1) = true.
Proof. vm_compute. reflexivity. Qed.

Lemma value_check table (f : Z -> bool) v : forallb f (map snd table) = true -> label_value table v -> f v = true.
Proof. rewrite forallb_forall. intros H Hv. apply H, list_elem_of_In, Hv. Qed.

Lemma keycodes_nonzero v : label_value KEYCODES v -> (v =? 0) = false.
Proof. intros Hv. apply negb_true_iff. by apply (value_check KEYCODES (fun v => negb (v =? 0))). Qed.

Lemma axes_nonneg v : label_value AXES v -> (v <? 0) = false.
Proof. intros Hv. apply negb_true_iff. by apply (value_check AXES (fun v => negb (v <? 0))). Qed.

(** What [parse_flags] makes of a list of words. *)
Fixpoint check_flags (acc : Z) (labels : list string) : option Z :=
  match labels with
  | [] => Some acc
  | l :: ls =>
      let flag := getKeyFlagByLabel l in
      if (flag =? 0) || negb (Z.land acc flag =? 0) || negb (plain l) || String.eqb l "" then None
      else check_flags (Z.lor acc flag) ls
  end.

Lemma flags_checked flags : 0 <= flags < 1024 -> check_flags 0 (flag_labels flags) = Some flags.
Proof.
  intros Hf. assert (forallb (fun n => match check_flags 0 (flag_labels (Z.of_nat n)) with
    | Some f => f =? Z.of_nat n | None => false end) (seq 0 1024) = true) as H by (vm_compute; reflexivity).
  rewrite forallb_forall in H. specialize (H (Z.to_nat flags)). rewrite Z2Nat.id in H by lia.
  destruct (check_flags _ _); [|by discriminate H; apply in_seq; lia].
  f_equal. apply Z.eqb_eq, H, in_seq. lia.
Qed.

Section RoundTrip.
Implicit Types (m : KeyLayoutMap) (s w : string) (n : Z).

(** Reading the next word of a line. *)
Lemma run_put w c s m n : plain w = true -> w <> EmptyString -> ends_token c = true ->
  skipBlanks (reader_at m (put w (String c s)) n) = Ret tt (reader_at m (String.append w (String c s)) n) /\
  word (reader_at m (String.append w (String c s)) n) = Ret w (reader_at m (String c s) n).
Proof. intros Hw Hn Hc. split; [by apply run_blank|by apply run_word]. Qed.

Lemma run_flags fuel acc labels flags s m n :
  check_flags acc labels = Some flags -> (length labels < fuel)%nat ->
  parse_flags fuel acc (reader_at m (print_flags labels (String newline s)) n) =
    Ret (Some flags) (reader_at m (String newline s) n).
Proof.
  revert acc fuel. induction labels as [|l ls IH]; intros acc fuel Hc Hf; (destruct fuel as [|fuel]; [cbn in Hf; lia|]).
  - cbn in Hc. injection Hc as <-. done.
  - cbn [check_flags] in Hc. cbv zeta in Hc. destruct (_ || _) eqn:E in Hc; [done|].
    apply orb_false_iff in E as [E E4]. apply orb_false_iff in E as [E E3]. apply orb_false_iff in E as [E1 E2].
    apply negb_false_iff in E3. assert (l <> EmptyString) as Hl by (intros ->; done).
    assert (exists c r, print_flags ls (String newline s) = String c r /\ ends_token c = true) as (c & r & Hr & Hend).
    { destruct ls; [by eexists _, _|]. by eexists _, _. }
    cbn [parse_flags print_flags fold_right]. fold (print_flags ls (String newline s)). rewrite Hr.
    destruct (run_put l c r m n E3 Hl Hend) as [R1 R2].
    rewrite (bind_run _ _ _ _ _ R1), (bind_run _ _ _ _ _ (run_in_line l _ m n E3 Hl)). cbv beta iota.
    rewrite (bind_run _ _ _ _ _ R2). cbv zeta. rewrite E1, E2. cbv beta iota. rewrite <- Hr. apply IH; [done|]. cbn in Hf. lia.
Qed.

Lemma flags_length labels s : (length labels <= String.length (print_flags labels s))%nat.
Proof.
  induction labels as [|l ls IH]; [cbn; lia|]. cbn. fold (print_flags ls s). clear -IH.
  assert (forall a b, (String.length b <= String.length (String.append a b))%nat) as H.
  { intros a b. induction a as [|c a IHa]; [done|]. rewrite append_cons. cbn. lia. }
  specialize (H l (print_flags ls s)). lia.
Qed.

(** The map has only smaller keys. *)
Definition before {W} (c : Z) (l : list (Z * W)) : Prop := Forall (fun e => fst e < c) l.

Lemma insert_before {W} c (v : W) l : before c l -> OrdMap.insert c v l = l ++ [(c, v)] /\ OrdMap.find c l = None.
Proof.
  induction 1 as [|[k x] l Hk Hl IH]; [done|]. cbn in *. destruct IH as [IH1 IH2].
  replace (c <? k) with false by lia. replace (c =? k) with false by lia. by rewrite IH1.
Qed.

(** A word of the text, in the middle of a function of the parser. *)
Lemma step_put {B} w c s m n (k : string -> P B) : plain w = true -> w <> EmptyString -> ends_token c = true ->
  (skipBlanks ;; token ← word ; k token) (reader_at m (put w (String c s)) n) = k w (reader_at m (String c s) n).
Proof.
  intros Hw Hn Hc. destruct (run_put w c s m n Hw Hn Hc) as [R1 R2].
  by rewrite (bind_run _ _ _ _ _ R1), (bind_run _ _ _ _ _ R2).
Qed.

Lemma print_int_word z : is_i32 z -> plain (print_int z) = true /\ print_int z <> EmptyString.
Proof. intros Hz. split; [apply print_int_plain|by apply print_int_nonempty]. Qed.

Definition starts_blank (s : string) : Prop := exists c r, s = String c r /\ ends_token c = true.

Lemma put_starts w s : starts_blank (put w s).
Proof. by eexists _, _. Qed.

Lemma newline_starts s : starts_blank (String newline s).
Proof. by eexists _, _. Qed.

Lemma flags_start labels s : starts_blank (print_flags labels (String newline s)).
Proof. destruct labels; [apply newline_starts|apply put_starts]. Qed.

Lemma read_put {B} w s m n (k : string -> P B) : plain w = true -> w <> EmptyString -> starts_blank s ->
  (skipBlanks ;; token ← word ; k token) (reader_at m (put w s) n) = k w (reader_at m s n).
Proof. intros Hw Hn (c & r & -> & Hc). by apply step_put. Qed.

Lemma run_key_code (u : bool) code k m s n :
  key_ok (code, k) -> before code (keys_of u m) ->
  parse_key_code u (print_int code)
    (reader_at m (put (label_of KEYCODES (key_keyCode k)) (print_flags (flag_labels (key_flags k)) (String newline s))) n)
  = Ret 0 (reader_at (add_key u code k m) (String newline s) n).
Proof.
  destruct k as [keyCode flags]. intros (Hcode & Hkey & Hflags) Hbefore. cbn [fst snd key_keyCode key_flags] in *.
  destruct (label_reads KEYCODES 0 keyCode keycodes_ok Hkey) as (Pl & Nl & Rl).
  unfold parse_key_code. rewrite parse_print_int by done.
  erewrite bind_run by done. cbn [mMap reader_at]. rewrite (proj2 (insert_before code (mkKey keyCode flags) _ Hbefore)).
  rewrite read_put by done || apply flags_start. cbv zeta. unfold getKeyCodeByLabel. rewrite Rl, keycodes_nonzero by done.
  erewrite bind_run by done.
  erewrite bind_run by (apply run_flags; [by apply flags_checked|];
    unfold reader_at; cbn [mTokenizer mCurrent]; pose proof (flags_length (flag_labels flags) (String newline s)); lia).
  done.
Qed.

Lemma run_parseKey (u : bool) e m s n :
  key_ok e -> before (fst e) (keys_of u m) ->
  (skipBlanks ;; parseKey)
    (reader_at m ((if u then put "usage" else id) (put (print_int (fst e)) (put (label_of KEYCODES (key_keyCode (snd e)))
        (print_flags (flag_labels (key_flags (snd e))) (String newline s))))) n)
  = Ret 0 (reader_at (add_key u (fst e) (snd e) m) (String newline s) n).
Proof.
  destruct e as [code k]. intros Hk Hb. cbn [fst snd] in *. destruct (print_int_word code (proj1 Hk)) as [Pi Ni].
  unfold parseKey. destruct u.
  - rewrite read_put by done || apply put_starts. cbn [String.eqb Ascii.eqb Bool.eqb].
    rewrite read_put by done || apply put_starts. by apply run_key_code.
  - unfold id. rewrite read_put by done || apply put_starts.
    destruct (String.eqb_spec (print_int code) "usage") as [E|_]; [|by apply run_key_code].
    exfalso. pose proof (parse_print_int code (proj1 Hk)) as Hp. by rewrite E in Hp.
Qed.

Lemma run_options fuel a flat s m n : is_i32 flat -> (2 <= fuel)%nat ->
  parse_axis_options fuel a (reader_at m (put "flat" (put (print_int flat) (String newline s))) n) =
    Ret (Some (mkAxis (ai_mode a) (ai_axis a) (ai_highAxis a) (ai_splitValue a) flat)) (reader_at m (String newline s) n).
Proof.
  intros Hf Hfuel. destruct fuel as [|[|fuel]]; [lia..|]. destruct (print_int_word flat Hf) as [Pi Ni].
  cbn [parse_axis_options].
  destruct (run_put "flat" " " (String.append (print_int flat) (String newline s)) m n eq_refl ltac:(done) eq_refl) as [R1 R2].
  fold (put (print_int flat) (String newline s)) in R1, R2.
  rewrite (bind_run _ _ _ _ _ R1), (bind_run _ _ _ _ _ (run_in_line "flat" _ m n eq_refl ltac:(done))). cbv beta iota.
  rewrite (bind_run _ _ _ _ _ R2). change (String.eqb "flat" "flat") with true. cbv iota.
  rewrite read_put by done || apply newline_starts. rewrite parse_print_int by done. done.
Qed.

Lemma axis_label v : label_value AXES v ->
  plain (label_of AXES v) = true /\ label_of AXES v <> EmptyString /\ parse_axis_label (label_of AXES v) = Some v.
Proof.
  intros Hv. destruct (label_reads AXES (-1) v axes_ok Hv) as (H1 & H2 & H3). split; [done|]. split; [done|].
  unfold parse_axis_label, getAxisByLabel. by rewrite H3, axes_nonneg.
Qed.

Lemma axis_label_keyword v : label_value AXES v ->
  String.eqb (label_of AXES v) "invert" = false /\ String.eqb (label_of AXES v) "split" = false.
Proof.
  intros Hv. split; apply negb_true_iff.
  - by apply (value_check AXES (fun v => negb (String.eqb (label_of AXES v) "invert"))).
  - by apply (value_check AXES (fun v => negb (String.eqb (label_of AXES v) "split"))).
Qed.

(** The modes of an axis, each followed by its options. *)
Lemma run_axis_mode a s m n : axis_ok (0, a) -> starts_blank s ->
  (skipBlanks ;; parse_axis_mode) (reader_at m (match ai_mode a with
       | MODE_NORMAL => put (label_of AXES (ai_axis a))
       | MODE_INVERT => fun s => put "invert" (put (label_of AXES (ai_axis a)) s)
       | MODE_SPLIT => fun s => put "split" (put (print_int (ai_splitValue a))
           (put (label_of AXES (ai_axis a)) (put (label_of AXES (ai_highAxis a)) s)))
       end s) n) =
  Ret (Some (mkAxis (ai_mode a) (ai_axis a) (ai_highAxis a) (ai_splitValue a) (-1))) (reader_at m s n).
Proof.
  destruct a as [mode axis high split flat]. intros (_ & Ha & _ & Hm) Hs. cbn [fst snd ai_mode ai_axis ai_highAxis ai_splitValue] in *.
  destruct (axis_label axis Ha) as (P1 & N1 & L1). destruct (axis_label_keyword axis Ha) as [K1 K2].
  unfold parse_axis_mode. destruct mode.
  - rewrite read_put by done. rewrite K1, K2, L1. by destruct Hm as [-> ->].
  - rewrite read_put by done || apply put_starts. change (String.eqb "invert" "invert") with true. cbv iota.
    rewrite read_put by done. rewrite L1. by destruct Hm as [-> ->].
  - destruct Hm as [Hh Hsp]. destruct (axis_label high Hh) as (P2 & N2 & L2). destruct (print_int_word split Hsp) as [Pi Ni].
    rewrite read_put by done || apply put_starts. change (String.eqb "split" "invert") with false.
    change (String.eqb "split" "split") with true. cbv iota.
    rewrite read_put by done || apply put_starts. rewrite parse_print_int by done.
    rewrite read_put by done || apply put_starts. rewrite L1.
    rewrite read_put by done. by rewrite L2.
Qed.

Lemma run_parseAxis e m s n : axis_ok e -> before (fst e) (mAxes m) ->
  (skipBlanks ;; parseAxis) (reader_at m (put (print_int (fst e)) (match ai_mode (snd e) with
       | MODE_NORMAL => put (label_of AXES (ai_axis (snd e)))
       | MODE_INVERT => fun s => put "invert" (put (label_of AXES (ai_axis (snd e))) s)
       | MODE_SPLIT => fun s => put "split" (put (print_int (ai_splitValue (snd e)))
           (put (label_of AXES (ai_axis (snd e))) (put (label_of AXES (ai_highAxis (snd e))) s)))
       end (put "flat" (put (print_int (ai_flatOverride (snd e))) (String newline s))))) n)
  = Ret 0 (reader_at (add_axis (fst e) (snd e) m) (String newline s) n).
Proof.
  destruct e as [code a]. intros Ha Hb. cbn [fst snd] in *. destruct (print_int_word code (proj1 Ha)) as [Pi Ni].
  assert (axis_ok (0, a)) as Ha0 by (destruct Ha as (_ & Ha); split; [done|exact Ha]).
  unfold parseAxis. rewrite read_put; [|done|done|destruct (ai_mode a); apply put_starts].
  rewrite parse_print_int by apply Ha. erewrite bind_run by done. cbn [mMap reader_at].
  rewrite (proj2 (insert_before code a _ Hb)).
  pose proof (run_axis_mode a (put "flat" (put (print_int (ai_flatOverride a)) (String newline s))) m n Ha0 (put_starts _ _)) as R.
  unfold mbind at 1, M_bind at 1 in R. unfold mbind at 1, M_bind at 1. destruct (skipBlanks _); [|done..].
  rewrite (bind_run _ _ _ _ _ R). cbv iota beta. erewrite bind_run by done.
  erewrite bind_run by (apply run_options; [apply Ha|unfold reader_at; cbn; lia]). by destruct a.
Qed.

(** A line that was written. *)
Lemma run_line kw (body : P Z) text m m' s n :
  plain kw = true -> kw <> EmptyString -> starts_blank text ->
  (if String.eqb kw "key" then skipBlanks ;; parseKey else if String.eqb kw "axis" then skipBlanks ;; parseAxis
   else mret BAD_VALUE) (reader_at m text n) = Ret 0 (reader_at m' (String newline s) n) ->
  parse_line (reader_at m (String.append kw text) n) = Ret 0 (reader_at m' (String newline s) n).
Proof.
  intros Hk Hn (c & r & -> & Hc) Hbody. unfold parse_line.
  rewrite (bind_run _ _ _ _ _ (run_no_blank kw _ m n Hk Hn)), (bind_run _ _ _ _ _ (run_in_line kw _ m n Hk Hn)). cbv iota beta.
  rewrite (bind_run _ _ _ _ _ (run_word kw c r m n Hk Hc)), (bind_run _ _ _ _ _ Hbody). done.
Qed.

Lemma run_lines fuel m m' s s' n :
  (forall n, parse_line (reader_at m s n) = Ret 0 (reader_at m' (String newline s') n)) -> s <> EmptyString ->
  parse_lines parse_line (S fuel) (reader_at m s n) = parse_lines parse_line fuel (reader_at m' s' (n + 1)).
Proof.
  intros H Hs. cbn [parse_lines]. erewrite bind_run by done. unfold reader_at at 1, isEof at 1. cbn [mTokenizer mCurrent].
  destruct s as [|c s]; [done|]. cbv iota. by rewrite (bind_run _ _ _ _ _ (H n)).
Qed.

Lemma run_keys (u : bool) l fuel m s n :
  OrdMap.sorted l -> Forall key_ok l -> Forall (fun e => before (fst e) (keys_of u m)) l ->
  exists n', parse_lines parse_line (length l + fuel) (reader_at m (fold_right (print_key u) s l) n) =
    parse_lines parse_line fuel (reader_at (fold_left (fun m e => add_key u (fst e) (snd e) m) l m) s n').
Proof.
  revert m n. induction l as [|[code k] l IH]; intros m n Hs Hk Hb; [by exists n|].
  apply Forall_cons in Hk as [Hk0 Hk]. apply Forall_cons in Hb as [Hb0 Hb].
  apply sorted_cons_inv in Hs as [Hs Hlt].
  destruct (IH (add_key u code k m) (n + 1) Hs Hk) as (n' & E).
  { apply Forall_forall. intros e He. rewrite Forall_forall in Hb. specialize (Hb e He).
    pose proof (proj1 (Forall_forall _ _) Hlt (fst e) (list_elem_of_fmap_2 fst l e He)) as Hlt'. cbn in Hlt'.
    unfold add_key. destruct u; cbn [keys_of mKeysByScanCode mKeysByUsageCode] in *;
      (apply insert_Forall; [exact Hlt'|exact Hb]). }
  exists n'. cbn [length fold_right fold_left fst snd Nat.add].
  rewrite (run_lines _ m (add_key u code k m) _ (fold_right (print_key u) s l)); [exact E| |by destruct u].
  intros n0. unfold print_key. apply (run_line "key" (mret 0)); [done|done|destruct u; apply put_starts|].
  by apply (run_parseKey u (code, k)).
Qed.

Lemma run_axes l fuel m n :
  OrdMap.sorted l -> Forall axis_ok l -> Forall (fun e => before (fst e) (mAxes m)) l ->
  exists n', parse_lines parse_line (length l + S fuel) (reader_at m (fold_right print_axis EmptyString l) n) =
    Ret 0 (reader_at (fold_left (fun m e => add_axis (fst e) (snd e) m) l m) EmptyString n').
Proof.
  revert m n. induction l as [|[code a] l IH]; intros m n Hs Hk Hb; [by exists n|].
  apply Forall_cons in Hk as [Hk0 Hk]. apply Forall_cons in Hb as [Hb0 Hb].
  apply sorted_cons_inv in Hs as [Hs Hlt].
  destruct (IH (add_axis code a m) (n + 1) Hs Hk) as (n' & E).
  { apply Forall_forall. intros e He. rewrite Forall_forall in Hb. specialize (Hb e He).
    pose proof (proj1 (Forall_forall _ _) Hlt (fst e) (list_elem_of_fmap_2 fst l e He)) as Hlt'. cbn in Hlt'.
    cbn [add_axis mAxes]. by apply insert_Forall. }
  exists n'. cbn [length fold_right fold_left fst snd Nat.add].
  rewrite (run_lines _ m (add_axis code a m) _ (fold_right print_axis EmptyString l)); [exact E| |done].
  intros n0. unfold print_axis. apply (run_line "axis" (mret 0)); [done|done|apply put_starts|].
  by apply (run_parseAxis (code, a)).
Qed.

Lemma fold_insert {W} (l pre : list (Z * W)) : OrdMap.sorted (pre ++ l) ->
  fold_left (fun o e => OrdMap.insert (fst e) (snd e) o) l pre = pre ++ l.
Proof.
  revert pre. induction l as [|[k v] l IH]; intros pre Hs; [cbn; by rewrite app_nil_r|]. cbn [fold_left fst snd].
  assert (before k pre) as Hb.
  { apply Forall_forall. intros [k' v'] He. cbn. unfold OrdMap.sorted, OrdMap.keys in Hs. rewrite fmap_app in Hs.
    apply (StronglySorted_app_1_elem_of Z.lt _ _ _ _ Hs); [by apply (list_elem_of_fmap_2 fst _ (k', v'))|left]. }
  rewrite (proj1 (insert_before k v pre Hb)). rewrite IH; [by rewrite <- app_assoc|]. by rewrite <- app_assoc.
Qed.

Lemma fold_keys (u : bool) l m :
  fold_left (fun m e => add_key u (fst e) (snd e) m) l m =
    (if u then mkLayout (mKeysByScanCode m) (fold_left (fun o e => OrdMap.insert (fst e) (snd e) o) l (mKeysByUsageCode m)) (mAxes m)
     else mkLayout (fold_left (fun o e => OrdMap.insert (fst e) (snd e) o) l (mKeysByScanCode m)) (mKeysByUsageCode m) (mAxes m)).
Proof. revert m. induction l as [|e l IH]; intros m; [by destruct u, m|]. cbn [fold_left]. rewrite IH. by destruct u. Qed.

Lemma fold_axes l m :
  fold_left (fun m e => add_axis (fst e) (snd e) m) l m =
    mkLayout (mKeysByScanCode m) (mKeysByUsageCode m) (fold_left (fun o e => OrdMap.insert (fst e) (snd e) o) l (mAxes m)).
Proof. revert m. induction l as [|e l IH]; intros m; [by destruct m|]. cbn [fold_left]. by rewrite IH. Qed.

Lemma no_keys_before {W X} (l : list (Z * X)) : Forall (fun e => before (W := W) (fst e) []) l.
Proof. apply Forall_forall. intros. constructor. Qed.

(** Each line has a character. *)
Lemma lines_length {X} (f : X -> string -> string) l s :
  (forall x s, (String.length s < String.length (f x s))%nat) -> (length l + String.length s <= String.length (fold_right f s l))%nat.
Proof. intros H. induction l as [|x l IH]; cbn; [lia|]. specialize (H x (fold_right f s l)). lia. Qed.

Lemma append_length a b : String.length (String.append a b) = (String.length a + String.length b)%nat.
Proof. induction a as [|c a IH]; [done|]. rewrite append_cons. cbn. by rewrite IH. Qed.

Lemma print_flags_length labels s : (String.length s <= String.length (print_flags labels s))%nat.
Proof. induction labels as [|l ls IH]; [cbn; lia|]. cbn. fold (print_flags ls s). rewrite append_length. lia. Qed.

Lemma print_key_length u e s : (String.length s < String.length (print_key u e s))%nat.
Proof.
  unfold print_key, put. rewrite append_length. pose proof (print_flags_length (flag_labels (key_flags (snd e))) (String newline s)) as H.
  cbn [String.length] in H. destruct u; unfold id; cbn [String.length]; rewrite ?append_length; cbn [String.length]; rewrite ?append_length; cbn [String.length]; rewrite ?append_length; lia.
Qed.

Lemma print_axis_length e s : (String.length s < String.length (print_axis e s))%nat.
Proof.
  unfold print_axis, put. rewrite append_length. cbn [String.length]. rewrite append_length.
  destruct (ai_mode (snd e)); cbn [String.length]; repeat (rewrite append_length; cbn [String.length]); lia.
Qed.

Lemma layout_reads_back m : layout_ok m -> layout_load (fromFile (print_layout m)) = Some (0, Some m).
Proof.
  intros [[Ss Fs] [Su Fu] [Sa Fa]]. destruct m as [scan usage axes]. cbn [mKeysByScanCode mKeysByUsageCode mAxes] in *.
  unfold layout_load, parse, fromFile. erewrite bind_run by done. cbn [mTokenizer mCurrent].
  set (text := print_layout (mkLayout scan usage axes)).
  assert (exists fuel, S (String.length text) = (length scan + (length usage + (length axes + S fuel)))%nat) as (fuel & Hf).
  { assert (length scan + (length usage + length axes) <= String.length text)%nat as Hl; [|exists (String.length text - (length scan + (length usage + length axes)))%nat; lia].
    unfold text, print_layout. cbn [mKeysByScanCode mKeysByUsageCode mAxes].
    pose proof (lines_length (print_key false) scan (fold_right (print_key true) (fold_right print_axis EmptyString axes) usage) (print_key_length false)).
    pose proof (lines_length (print_key true) usage (fold_right print_axis EmptyString axes) (print_key_length true)).
    pose proof (lines_length print_axis axes EmptyString print_axis_length). lia. }
  rewrite Hf. unfold text, print_layout. cbn [mKeysByScanCode mKeysByUsageCode mAxes].
  fold (reader_at KeyLayoutMap_new (fold_right (print_key false) (fold_right (print_key true) (fold_right print_axis EmptyString axes) usage) scan) 1).
  destruct (run_keys false scan (length usage + (length axes + S fuel)) KeyLayoutMap_new
    (fold_right (print_key true) (fold_right print_axis EmptyString axes) usage) 1 Ss Fs (no_keys_before _)) as (n1 & ->).
  rewrite fold_keys. cbn [mKeysByScanCode mKeysByUsageCode mAxes KeyLayoutMap_new]. rewrite (fold_insert scan []) by done. cbn [app].
  destruct (run_keys true usage (length axes + S fuel) (mkLayout scan [] []) (fold_right print_axis EmptyString axes) n1 Su Fu (no_keys_before _)) as (n2 & ->).
  rewrite fold_keys. cbn [mKeysByScanCode mKeysByUsageCode mAxes]. rewrite (fold_insert usage []) by done. cbn [app].
  destruct (run_axes axes fuel (mkLayout scan usage []) n2 Sa Fa (no_keys_before _)) as (n3 & ->).
  rewrite fold_axes. cbn [mKeysByScanCode mKeysByUsageCode mAxes]. by rewrite (fold_insert axes []) by done.
Qed.

End RoundTrip.

(** C23: loading a key layout returns for every text: it is rejected with BAD_VALUE, or it
    gives a layout that, written out with one line for each of its keys and axes, is read
    back unchanged. *)
Theorem layout_roundtrip (text : string) :
  exists r, layout_load (fromFile text) = Some r /\
    (r = (BAD_VALUE, None) \/
     exists m, r = (0, Some m) /\ layout_ok m /\ layout_load (fromFile (print_layout m)) = Some (0, Some m)).
Proof.
  destruct (layout_loads (fromFile text)) as (status & m & E & [(-> & l & -> & Hl)|(-> & ->)]); (eexists; split; [exact E|]).
  - right. exists l. split; [done|]. split; [done|]. by apply layout_reads_back.
  - by left.
Qed.

(** ** Virtual keys load *)

Section Virtual.
Implicit Types p : Parser (list VirtualKeyDefinition).

Lemma ends_consume p : ends consumeFieldDelimiterAndSkipWhitespace (fun _ p' => (len p' <= len p)%nat) p.
Proof.
  unfold consumeFieldDelimiterAndSkipWhitespace. apply ends_bind. eapply ends_mono; [apply ends_skip|]. intros ? p1 [[_ H1] _].
  apply ends_gets. destruct (Ascii.eqb _ _); [|exact H1].
  apply ends_bind. eapply ends_mono; [apply ends_char|]. intros ? p2 [_ H2].
  apply ends_bind. eapply ends_mono; [apply ends_skip|]. intros ? p3 [[_ H3] _]. unfold ends, wp. cbn. lia.
Qed.

Lemma ends_field p : ends parseNextIntField (fun _ p' => (len p' <= len p)%nat) p.
Proof.
  unfold parseNextIntField. apply ends_bind. eapply ends_mono; [apply ends_consume|]. intros ok p1 H1. cbv beta in H1.
  destruct (negb ok); [exact H1|]. apply ends_bind. eapply ends_mono; [apply ends_word|]. intros token p2 [[_ H2] _]. unfold ends, wp. cbn. lia.
Qed.

Lemma ends_fields k p : ends (parse_fields k) (fun _ p' => (len p' <= len p)%nat) p.
Proof.
  revert p. induction k as [|k IH]; intros p; [cbn; lia|]. cbn [parse_fields].
  apply ends_bind. eapply ends_mono; [apply ends_field|]. intros [z|] p1 H1; [|exact H1]. cbv beta in H1.
  apply ends_bind. eapply ends_mono; [apply IH|]. intros l p2 H2. cbv beta in H2. unfold ends, wp. cbn. lia.
Qed.

Lemma ends_virtual_keys fuel p : (len p < fuel)%nat ->
  ends (parse_virtual_keys fuel) (fun a p' => status_ok a = true /\ (len p' <= len p)%nat) p.
Proof.
  revert p. induction fuel as [|fuel IH]; intros p Hf; [lia|]. cbn [parse_virtual_keys].
  apply ends_bind. eapply ends_mono; [apply ends_some_word|]. intros token p1 [_ H1].
  destruct (String.eqb_spec token "0x01") as [->|]; [|split; [done|lia]]. cbn in H1.
  apply ends_bind. eapply ends_mono; [apply (ends_fields 5)|]. intros r p2 H2. cbv beta in H2.
  assert (forall q, (len q <= len p)%nat -> ends (mret BAD_VALUE) (fun a p' => status_ok a = true /\ (len p' <= len p)%nat) q) as Hbad by done.
  destruct r as [[|a [|b [|c [|d [|e [|]]]]]]|]; try (apply Hbad; lia).
  apply ends_bind. unfold ends at 1, wp, set_map, modify. apply ends_bind.
  eapply ends_mono; [apply ends_consume|]. intros [|] p3 H3; change (len (mkParser _ (mTokenizer p2))) with (len p2) in H3.
  - eapply ends_mono; [apply IH; lia|]. intros x p4 [? ?]. split; [done|lia].
  - split; [done|lia].
Qed.

Lemma virtual_loads t : exists status m, virtual_load t = Some (status, m).
Proof.
  assert (ends (fuel ← left_to_read ; parse_lines parse_virtual_line fuel) (fun a p' => status_ok a = true /\ True) (mkParser [] t)) as H.
  { apply ends_gets. apply (ends_lines parse_virtual_line (fun _ => True)); [|done|unfold len; lia]. intros p _.
    unfold parse_virtual_line. apply ends_bind. eapply ends_mono; [apply ends_skip|]. intros ? p1 [[_ H1] _].
    apply ends_gets. destruct (_ || _); [done|]. apply ends_gets. apply ends_bind.
    eapply ends_mono; [apply ends_virtual_keys; unfold len; lia|]. intros status p2 [Hst H2].
    assert (len p2 <= len p)%nat by lia. destruct (negb _); [done|]. apply ends_gets. by destruct (isEol _). }
  apply ends_ret in H as (status & p & Hp & _). unfold virtual_load. rewrite Hp. by eexists _, _.
Qed.

End Virtual.
