(* ===== verification/KeyCharacters.v ===== *)
(** * Key character maps

    [KeyCharacterMap.cpp]: the characters and fallbacks of keys under modifiers, the
    parser of its files, the combination with an overlay, and the key events that type
    a text.  A key's linked list of behaviors is a list. *)

From Stdlib Require Import Ascii.
From S2P Require Import Prelude Input AndroidEvents DispatchLoop ReaderData KeyText.

(** ** Data *)

Definition KEYBOARD_TYPE_UNKNOWN : Z := 0.
Definition KEYBOARD_TYPE_NUMERIC : Z := 1.
Definition KEYBOARD_TYPE_PREDICTIVE : Z := 2.
Definition KEYBOARD_TYPE_ALPHA : Z := 3.
Definition KEYBOARD_TYPE_FULL : Z := 4.
Definition KEYBOARD_TYPE_SPECIAL_FUNCTION : Z := 5.
Definition KEYBOARD_TYPE_OVERLAY : Z := 6.

Inductive Format : Set := FORMAT_BASE | FORMAT_OVERLAY | FORMAT_ANY.

Record Behavior : Set := mkBehavior {
  bh_metaState : Z;
  bh_character : Z;
  bh_fallbackKeyCode : Z;
}.

Record CharKey : Set := mkCharKey {
  ck_label : Z;
  ck_number : Z;
  ck_behaviors : list Behavior;
}.

Record KeyCharacterMap : Set := mkCharMap {
  mKeys : list (Z * CharKey);
  mType : Z;
  cm_byScanCode : list (Z * Z);
  cm_byUsageCode : list (Z * Z);
}.

Definition KeyCharacterMap_new : KeyCharacterMap := mkCharMap [] KEYBOARD_TYPE_UNKNOWN [] [].

(** ** Queries *)

Definition char_getKey (m : KeyCharacterMap) (keyCode : Z) : option CharKey := OrdMap.find keyCode (mKeys m).

Definition EXACT_META_STATES : Z :=
  fold_right Z.lor 0 [AMETA_CTRL_ON; AMETA_CTRL_LEFT_ON; AMETA_CTRL_RIGHT_ON;
    AMETA_ALT_ON; AMETA_ALT_LEFT_ON; AMETA_ALT_RIGHT_ON; AMETA_META_ON; AMETA_META_LEFT_ON; AMETA_META_RIGHT_ON].

(** One of the three tests of [matchesMetaState] for a pair of modifiers. *)
Definition unmatched_pair (behavior either left right unmatched : Z) : Z :=
  if has behavior either then Z.ldiff unmatched (Z.lor left right)
  else if has behavior (Z.lor left right) then Z.ldiff unmatched either
  else unmatched.

Definition matchesMetaState (eventMetaState behaviorMetaState : Z) : bool :=
  if Z.land eventMetaState behaviorMetaState =? behaviorMetaState then
    let unmatched := Z.land (Z.ldiff eventMetaState behaviorMetaState) EXACT_META_STATES in
    let unmatched := unmatched_pair behaviorMetaState AMETA_CTRL_ON AMETA_CTRL_LEFT_ON AMETA_CTRL_RIGHT_ON unmatched in
    let unmatched := unmatched_pair behaviorMetaState AMETA_ALT_ON AMETA_ALT_LEFT_ON AMETA_ALT_RIGHT_ON unmatched in
    let unmatched := unmatched_pair behaviorMetaState AMETA_META_ON AMETA_META_LEFT_ON AMETA_META_RIGHT_ON unmatched in
    unmatched =? 0
  else false.

Definition getKeyBehavior (m : KeyCharacterMap) (keyCode metaState : Z) : option Behavior :=
  match char_getKey m keyCode with
  | Some key => List.find (fun b => matchesMetaState metaState (bh_metaState b)) (ck_behaviors key)
  | None => None
  end.

Definition getKeyboardType (m : KeyCharacterMap) : Z := mType m.

Definition getDisplayLabel (m : KeyCharacterMap) (keyCode : Z) : Z :=
  match char_getKey m keyCode with Some key => ck_label key | None => 0 end.

Definition getNumber (m : KeyCharacterMap) (keyCode : Z) : Z :=
  match char_getKey m keyCode with Some key => ck_number key | None => 0 end.

Definition getCharacter (m : KeyCharacterMap) (keyCode metaState : Z) : Z :=
  match getKeyBehavior m keyCode metaState with Some b => bh_character b | None => 0 end.

(** The key code and the meta state of the fallback, if there is one. *)
Definition getFallbackAction (m : KeyCharacterMap) (keyCode metaState : Z) : option (Z * Z) :=
  match getKeyBehavior m keyCode metaState with
  | Some b => if bh_fallbackKeyCode b =? 0 then None else Some (bh_fallbackKeyCode b, Z.ldiff metaState (bh_metaState b))
  | None => None
  end.

(** The loop of [getMatch] over the behaviors, with the result so far. *)
Fixpoint match_behaviors (l : list Behavior) (chars : list Z) (metaState result : Z) : Z :=
  match l with
  | [] => result
  | b :: l' =>
      if negb (bh_character b =? 0) && existsb (Z.eqb (bh_character b)) chars then
        if Z.land (bh_metaState b) metaState =? bh_metaState b then bh_character b
        else match_behaviors l' chars metaState (bh_character b)
      else match_behaviors l' chars metaState result
  end.

Definition getMatch (m : KeyCharacterMap) (keyCode : Z) (chars : list Z) (metaState : Z) : Z :=
  match char_getKey m keyCode with Some key => match_behaviors (ck_behaviors key) chars metaState 0 | None => 0 end.

(** [*outKeyCode], unless the status is NAME_NOT_FOUND. *)
Definition char_mapKey (m : KeyCharacterMap) (scanCode usageCode : Z) : option Z :=
  match (if usageCode =? 0 then None else OrdMap.find usageCode (cm_byUsageCode m)) with
  | Some keyCode => Some keyCode
  | None => if scanCode =? 0 then None else OrdMap.find scanCode (cm_byScanCode m)
  end.

(** The last behavior of a key with a character. *)
Definition last_behavior (ch : Z) (l : list Behavior) : option Behavior :=
  fold_left (fun found b => if bh_character b =? ch then Some b else found) l None.

(** The loop of [findKey] over the keys. *)
Fixpoint find_key (ch : Z) (l : list (Z * CharKey)) : option (Z * Z) :=
  match l with
  | [] => None
  | (keyCode, key) :: l' =>
      match last_behavior ch (ck_behaviors key) with
      | Some found => Some (keyCode, bh_metaState found)
      | None => find_key ch l'
      end
  end.

Definition findKey (m : KeyCharacterMap) (ch : Z) : option (Z * Z) := if ch =? 0 then None else find_key ch (mKeys m).

(** ** Combination with an overlay *)

Definition insert_all {V} (entries m : list (Z * V)) : list (Z * V) :=
  fold_left (fun o e => OrdMap.insert (fst e) (snd e) o) entries m.

Definition combine (base overlay : option KeyCharacterMap) : option KeyCharacterMap :=
  match overlay, base with
  | None, _ => base
  | Some _, None => overlay
  | Some o, Some b =>
      Some (mkCharMap (insert_all (mKeys o) (mKeys b)) (mType b)
        (insert_all (cm_byScanCode o) (cm_byScanCode b)) (insert_all (cm_byUsageCode o) (cm_byUsageCode b)))
  end.

(** ** Typing a text *)

(** The events so far and [*currentMetaState]. *)
Definition typing : Type := list AndroidEvent * Z.

Definition addKey (outEvents : list AndroidEvent) (deviceId keyCode metaState : Z) (down : bool) (time : Z) : list AndroidEvent :=
  outEvents ++ [mkAEvent deviceId AINPUT_SOURCE_KEYBOARD
    (AINPUT_EVENT_TYPE_KEY (mkAKey (if down then AKEY_EVENT_ACTION_DOWN else AKEY_EVENT_ACTION_UP) 0 metaState keyCode 0 0 time time))].

Definition addSingleEphemeralMetaKey (deviceId metaState : Z) (down : bool) (time keyCode keyMetaState : Z) (t : typing) : bool * typing :=
  if Z.land metaState keyMetaState =? keyMetaState then
    let current := updateMetaState keyCode down (snd t) in
    (true, (addKey (fst t) deviceId keyCode current down time, current))
  else (false, t).

Definition addDoubleEphemeralMetaKey (deviceId metaState : Z) (down : bool)
    (time leftKeyCode leftKeyMetaState rightKeyCode rightKeyMetaState eitherKeyMetaState : Z) (t : typing) : typing :=
  let '(specific, t) := addSingleEphemeralMetaKey deviceId metaState down time leftKeyCode leftKeyMetaState t in
  let '(specific', t) := addSingleEphemeralMetaKey deviceId metaState down time rightKeyCode rightKeyMetaState t in
  if specific || specific' then t
  else snd (addSingleEphemeralMetaKey deviceId metaState down time leftKeyCode eitherKeyMetaState t).

Definition addLockedMetaKey (deviceId metaState time keyCode keyMetaState : Z) (t : typing) : typing :=
  if Z.land metaState keyMetaState =? keyMetaState then
    let pressed := updateMetaState keyCode true (snd t) in
    let events := addKey (fst t) deviceId keyCode pressed true time in
    let released := updateMetaState keyCode false pressed in
    (addKey events deviceId keyCode released false time, released)
  else t.

Definition addMetaKeys (deviceId metaState : Z) (down : bool) (time : Z) (t : typing) : typing :=
  let locked := addLockedMetaKey deviceId metaState time in
  let double := addDoubleEphemeralMetaKey deviceId metaState down time in
  let single keyCode meta t := snd (addSingleEphemeralMetaKey deviceId metaState down time keyCode meta t) in
  let shift := double AKEYCODE_SHIFT_LEFT AMETA_SHIFT_LEFT_ON AKEYCODE_SHIFT_RIGHT AMETA_SHIFT_RIGHT_ON AMETA_SHIFT_ON in
  let alt := double AKEYCODE_ALT_LEFT AMETA_ALT_LEFT_ON AKEYCODE_ALT_RIGHT AMETA_ALT_RIGHT_ON AMETA_ALT_ON in
  let ctrl := double AKEYCODE_CTRL_LEFT AMETA_CTRL_LEFT_ON AKEYCODE_CTRL_RIGHT AMETA_CTRL_RIGHT_ON AMETA_CTRL_ON in
  let meta := double AKEYCODE_META_LEFT AMETA_META_LEFT_ON AKEYCODE_META_RIGHT AMETA_META_RIGHT_ON AMETA_META_ON in
  if down then
    let t := locked AKEYCODE_CAPS_LOCK AMETA_CAPS_LOCK_ON t in
    let t := locked AKEYCODE_NUM_LOCK AMETA_NUM_LOCK_ON t in
    let t := locked AKEYCODE_SCROLL_LOCK AMETA_SCROLL_LOCK_ON t in
    let t := meta (ctrl (alt (shift t))) in
    single AKEYCODE_FUNCTION AMETA_FUNCTION_ON (single AKEYCODE_SYM AMETA_SYM_ON t)
  else
    let t := single AKEYCODE_SYM AMETA_SYM_ON (single AKEYCODE_FUNCTION AMETA_FUNCTION_ON t) in
    let t := shift (alt (ctrl (meta t))) in
    let t := locked AKEYCODE_SCROLL_LOCK AMETA_SCROLL_LOCK_ON t in
    let t := locked AKEYCODE_NUM_LOCK AMETA_NUM_LOCK_ON t in
    locked AKEYCODE_CAPS_LOCK AMETA_CAPS_LOCK_ON t.

(** The body of the loop of [getEvents] for a character that was found. *)
Definition type_key (deviceId now keyCode metaState : Z) (outEvents : list AndroidEvent) : typing :=
  let '(events, current) := addMetaKeys deviceId metaState true now (outEvents, 0) in
  let events := addKey events deviceId keyCode current true now in
  let events := addKey events deviceId keyCode current false now in
  addMetaKeys deviceId metaState false now (events, current).

(** Whether every character was found, and the events so far. *)
Fixpoint getEvents (m : KeyCharacterMap) (deviceId now : Z) (chars : list Z) (outEvents : list AndroidEvent) : bool * list AndroidEvent :=
  match chars with
  | [] => (true, outEvents)
  | ch :: chars' =>
      match findKey m ch with
      | None => (false, outEvents)
      | Some (keyCode, metaState) => getEvents m deviceId now chars' (fst (type_key deviceId now keyCode metaState outEvents))
      end
  end.

(** ** The parser *)

Inductive State : Set := STATE_TOP | STATE_KEY.

(** The map with the parser's own fields; [mKeyCode] is set when a key begins. *)
Record CharParser : Set := mkCharParser {
  cp_map : KeyCharacterMap;
  mState : State;
  mKeyCode : Z;
}.

Abbreviation C := (M (Parser CharParser)).

Definition WHITESPACE_OR_PROPERTY_DELIMITER : string := String.append WHITESPACE ",:".

Definition modifiers : list (string * Z) := [
  ("shift", AMETA_SHIFT_ON); ("lshift", AMETA_SHIFT_LEFT_ON); ("rshift", AMETA_SHIFT_RIGHT_ON);
  ("alt", AMETA_ALT_ON); ("lalt", AMETA_ALT_LEFT_ON); ("ralt", AMETA_ALT_RIGHT_ON);
  ("ctrl", AMETA_CTRL_ON); ("lctrl", AMETA_CTRL_LEFT_ON); ("rctrl", AMETA_CTRL_RIGHT_ON);
  ("meta", AMETA_META_ON); ("lmeta", AMETA_META_LEFT_ON); ("rmeta", AMETA_META_RIGHT_ON);
  ("sym", AMETA_SYM_ON); ("fn", AMETA_FUNCTION_ON);
  ("capslock", AMETA_CAPS_LOCK_ON); ("numlock", AMETA_NUM_LOCK_ON); ("scrolllock", AMETA_SCROLL_LOCK_ON)
].

(** The parts of a token between plus signs. *)
Fixpoint segments (s : string) : list string :=
  match s with
  | EmptyString => [EmptyString]
  | String c s' =>
      if (c =? "+")%char then EmptyString :: segments s'
      else match segments s' with [] => [] | x :: l => String c x :: l end
  end.

Fixpoint combine_modifiers (l : list string) (combinedMeta : Z) : option Z :=
  match l with
  | [] => Some combinedMeta
  | x :: l' =>
      let metaState := lookup_label x modifiers 0 in
      if metaState =? 0 then None
      else if has combinedMeta metaState then None
      else combine_modifiers l' (Z.lor combinedMeta metaState)
  end.

(** [*outMetaState], unless the status is BAD_VALUE. *)
Definition parseModifier (token : string) : option Z :=
  if String.eqb token "base" then Some 0 else combine_modifiers (segments token) 0.

Definition hex_digit (ch : ascii) : option Z :=
  let n := code_of ch in
  if (48 <=? n) && (n <=? 57) then Some (n - 48)
  else if (65 <=? n) && (n <=? 70) then Some (n - 65 + 10)
  else if (97 <=? n) && (n <=? 102) then Some (n - 97 + 10)
  else None.

Fixpoint read_hex (n : nat) (character : Z) : C (option Z) :=
  match n with
  | O => mret (Some character)
  | S n' =>
      ch ← tokens nextChar ;
      match hex_digit ch with
      | None => mret None
      | Some digit => read_hex n' (Z.lor (Z.shiftl character 4 mod 65536) digit)
      end
  end.

(** The character between the quotes. *)
Definition read_literal : C (option Z) :=
  ch ← tokens nextChar ;
  if (ch =? "\")%char then
    ch ← tokens nextChar ;
    if (ch =? "n")%char then mret (Some 10)
    else if (ch =? "t")%char then mret (Some 9)
    else if (ch =? "\")%char then mret (Some 92)
    else if (ch =? "'")%char then mret (Some 39)
    else if (ch =? "034")%char then mret (Some 34)
    else if (ch =? "u")%char then read_hex 4 0
    else mret None
  else if (32 <=? code_of ch) && (code_of ch <=? 126) && negb (ch =? "'")%char then mret (Some (code_of ch))
  else mret None.

(** [*outCharacter], unless the status is BAD_VALUE. *)
Definition parseCharacterLiteral : C (option Z) :=
  ch ← tokens nextChar ;
  if negb (ch =? "'")%char then mret None
  else
    character ← read_literal ;
    match character with
    | None => mret None
    | Some character =>
        ch ← tokens nextChar ;
        if negb (ch =? "'")%char then mret None
        else
          rest ← word ;
          mret (if String.eqb rest "" then Some character else None)
    end.

Inductive Property : Set := PROPERTY_LABEL | PROPERTY_NUMBER | PROPERTY_META (metaState : Z).

Definition property_of (token : string) : option Property :=
  if String.eqb token "label" then Some PROPERTY_LABEL
  else if String.eqb token "number" then Some PROPERTY_NUMBER
  else match parseModifier token with Some metaState => Some (PROPERTY_META metaState) | None => None end.

(** The comma-delimited names up to the colon. *)
Fixpoint parse_properties (fuel : nat) (token : string) (properties : list Property) : C (option (list Property)) :=
  match fuel with
  | O => wait
  | S fuel' =>
      match property_of token with
      | None => mret None
      | Some property =>
          skipBlanks ;;
          eol ← gets (fun p => isEol (mTokenizer p)) ;
          if (eol : bool) then mret None
          else
            ch ← tokens nextChar ;
            if (ch =? ":")%char then mret (Some (properties ++ [property]))
            else if (ch =? ",")%char then
              skipBlanks ;;
              token ← tokens (nextToken WHITESPACE_OR_PROPERTY_DELIMITER) ;
              parse_properties fuel' token (properties ++ [property])
            else mret None
      end
  end.

(** The [do] loop over what a key does: the behavior, with the character and the fallback
    that were given. *)
Fixpoint parse_behavior (fuel : nat) (character fallback : option Z) : C (option Behavior) :=
  match fuel with
  | O => wait
  | S fuel' =>
      let next character fallback :=
        skipBlanks ;;
        stop ← at_end_of_line ;
        if (stop : bool) then mret (Some (mkBehavior 0 (default 0 character) (default 0 fallback)))
        else parse_behavior fuel' character fallback in
      ch ← gets (fun p => peekChar (mTokenizer p)) ;
      if (ch =? "'")%char then
        literal ← parseCharacterLiteral ;
        match literal with
        | None => mret None
        | Some c =>
            if c =? 0 then mret None
            else match character with Some _ => mret None | None => next (Some c) fallback end
        end
      else
        token ← word ;
        if String.eqb token "none" then
          match character with Some _ => mret None | None => next (Some 0) fallback end
        else if String.eqb token "fallback" then
          skipBlanks ;;
          token ← word ;
          let keyCode := getKeyCodeByLabel token in
          if keyCode =? 0 then mret None
          else match fallback with Some _ => mret None | None => next character (Some keyCode) end
        else mret None
  end.

(** The [for] loop that gives the key its properties. *)
Fixpoint add_properties (l : list Property) (b : Behavior) (key : CharKey) : option CharKey :=
  match l with
  | [] => Some key
  | PROPERTY_LABEL :: l' =>
      if negb (ck_label key =? 0) then None
      else add_properties l' b (mkCharKey (bh_character b) (ck_number key) (ck_behaviors key))
  | PROPERTY_NUMBER :: l' =>
      if negb (ck_number key =? 0) then None
      else add_properties l' b (mkCharKey (ck_label key) (bh_character b) (ck_behaviors key))
  | PROPERTY_META metaState :: l' =>
      if existsb (fun b' => bh_metaState b' =? metaState) (ck_behaviors key) then None
      else add_properties l' b (mkCharKey (ck_label key) (ck_number key)
             (mkBehavior metaState (bh_character b) (bh_fallbackKeyCode b) :: ck_behaviors key))
  end.

Definition dial_symbols : list Z := [40; 41; 35; 42; 45; 43; 44; 46; 39; 58; 59; 47].

(** [digit] and [symbol] after the loop of [finishKey]. *)
Definition dial_characters (l : list Behavior) : Z * Z :=
  fold_left (fun '(digit, symbol) b =>
    let ch := bh_character b in
    if (48 <=? ch) && (ch <=? 57) then (ch, symbol)
    else if existsb (Z.eqb ch) dial_symbols then (digit, ch)
    else (digit, symbol)) l (0, 0).

Definition finishKey (key : CharKey) : CharKey :=
  if ck_number key =? 0 then
    let '(digit, symbol) := dial_characters (ck_behaviors key) in
    mkCharKey (ck_label key) (if digit =? 0 then symbol else digit) (ck_behaviors key)
  else key.

Definition put_key (keyCode : Z) (key : CharKey) (m : KeyCharacterMap) : KeyCharacterMap :=
  mkCharMap (OrdMap.insert keyCode key (mKeys m)) (mType m) (cm_byScanCode m) (cm_byUsageCode m).

Definition set_char_map (f : KeyCharacterMap -> KeyCharacterMap) : C unit :=
  set_map (fun p => mkCharParser (f (cp_map p)) (mState p) (mKeyCode p)).

Definition set_state (s : State) : C unit := set_map (fun p => mkCharParser (cp_map p) s (mKeyCode p)).

(** [mMap->mKeys.valueFor(mKeyCode)], which must be there. *)
Definition current_key : C (Z * CharKey) :=
  deref (fun p => let c := mMap p in
    match OrdMap.find (mKeyCode c) (mKeys (cp_map c)) with Some key => Some (mKeyCode c, key) | None => None end).

Definition parseKeyProperty : C Z :=
  found ← current_key ;
  let '(keyCode, key) := found in
  token ← tokens (nextToken WHITESPACE_OR_PROPERTY_DELIMITER) ;
  if String.eqb token "}" then
    set_state STATE_TOP ;; set_char_map (put_key keyCode (finishKey key)) ;; mret 0
  else
    fuel ← left_to_read ;
    properties ← parse_properties fuel token [] ;
    match properties with
    | None => mret BAD_VALUE
    | Some properties =>
        skipBlanks ;;
        fuel ← left_to_read ;
        behavior ← parse_behavior fuel None None ;
        match behavior with
        | None => mret BAD_VALUE
        | Some b =>
            match add_properties properties b key with
            | None => mret BAD_VALUE
            | Some key' => set_char_map (put_key keyCode key') ;; mret 0
            end
        end
    end.

Definition keyboard_types : list (string * Z) := [
  ("NUMERIC", KEYBOARD_TYPE_NUMERIC); ("PREDICTIVE", KEYBOARD_TYPE_PREDICTIVE); ("ALPHA", KEYBOARD_TYPE_ALPHA);
  ("FULL", KEYBOARD_TYPE_FULL); ("SPECIAL_FUNCTION", KEYBOARD_TYPE_SPECIAL_FUNCTION); ("OVERLAY", KEYBOARD_TYPE_OVERLAY)
].

Definition parseType : C Z :=
  type ← gets (fun p => mType (cp_map (mMap p))) ;
  if negb (type =? KEYBOARD_TYPE_UNKNOWN) then mret BAD_VALUE
  else
    typeToken ← word ;
    let type := lookup_label typeToken keyboard_types KEYBOARD_TYPE_UNKNOWN in
    if type =? KEYBOARD_TYPE_UNKNOWN then mret BAD_VALUE
    else set_char_map (fun m => mkCharMap (mKeys m) type (cm_byScanCode m) (cm_byUsageCode m)) ;; mret 0.

Definition codes_of (mapUsage : bool) (m : KeyCharacterMap) : list (Z * Z) :=
  if mapUsage then cm_byUsageCode m else cm_byScanCode m.

Definition add_code (mapUsage : bool) (code keyCode : Z) (m : KeyCharacterMap) : KeyCharacterMap :=
  if mapUsage then mkCharMap (mKeys m) (mType m) (cm_byScanCode m) (OrdMap.insert code keyCode (cm_byUsageCode m))
  else mkCharMap (mKeys m) (mType m) (OrdMap.insert code keyCode (cm_byScanCode m)) (cm_byUsageCode m).

(** [parseMapKey] from the number of the key on. *)
Definition parse_map_code (mapUsage : bool) (codeToken : string) : C Z :=
  match parse_int codeToken with
  | None => mret BAD_VALUE
  | Some code =>
      found ← gets (fun p => OrdMap.find code (codes_of mapUsage (cp_map (mMap p)))) ;
      match found with
      | Some _ => mret BAD_VALUE
      | None =>
          skipBlanks ;;
          keyCodeToken ← word ;
          let keyCode := getKeyCodeByLabel keyCodeToken in
          if keyCode =? 0 then mret BAD_VALUE
          else set_char_map (add_code mapUsage code keyCode) ;; mret 0
      end
  end.

Definition parseMapKey : C Z :=
  codeToken ← word ;
  if String.eqb codeToken "usage" then
    skipBlanks ;;
    codeToken ← word ;
    parse_map_code true codeToken
  else parse_map_code false codeToken.

Definition parseMap : C Z :=
  keywordToken ← word ;
  if String.eqb keywordToken "key" then skipBlanks ;; parseMapKey else mret BAD_VALUE.

Definition parse_char_key : C Z :=
  keyCodeToken ← word ;
  let keyCode := getKeyCodeByLabel keyCodeToken in
  if keyCode =? 0 then mret BAD_VALUE
  else
    found ← gets (fun p => OrdMap.find keyCode (mKeys (cp_map (mMap p)))) ;
    match found with
    | Some _ => mret BAD_VALUE
    | None =>
        skipBlanks ;;
        openBraceToken ← word ;
        if negb (String.eqb openBraceToken "{") then mret BAD_VALUE
        else
          set_map (fun p => mkCharParser (put_key keyCode (mkCharKey 0 0 []) (cp_map p)) STATE_KEY keyCode) ;;
          mret 0
    end.

(** One line of [KeyCharacterMap::Parser::parse], up to [nextLine]. *)
Definition parse_char_line : C Z :=
  skipBlanks ;;
  blank ← at_end_of_line ;
  if (blank : bool) then mret 0
  else
    state ← gets (fun p => mState (mMap p)) ;
    status ← match state with
             | STATE_TOP =>
                 keywordToken ← word ;
                 if String.eqb keywordToken "type" then skipBlanks ;; parseType
                 else if String.eqb keywordToken "map" then skipBlanks ;; parseMap
                 else if String.eqb keywordToken "key" then skipBlanks ;; parse_char_key
                 else mret BAD_VALUE
             | STATE_KEY => parseKeyProperty
             end ;
    if negb (status =? 0) then mret status
    else
      skipBlanks ;;
      ended ← at_end_of_line ;
      if (ended : bool) then mret 0 else mret BAD_VALUE.

(** What [parse] checks at the end of the file. *)
Definition check_format (format : Format) (p : CharParser) : Z :=
  match mState p with
  | STATE_KEY => BAD_VALUE
  | STATE_TOP =>
      let type := mType (cp_map p) in
      if type =? KEYBOARD_TYPE_UNKNOWN then BAD_VALUE
      else match format with
           | FORMAT_BASE => if type =? KEYBOARD_TYPE_OVERLAY then BAD_VALUE else 0
           | FORMAT_OVERLAY => if type =? KEYBOARD_TYPE_OVERLAY then 0 else BAD_VALUE
           | FORMAT_ANY => 0
           end
  end.

Definition char_parse (format : Format) : C Z :=
  fuel ← left_to_read ;
  status ← parse_lines parse_char_line fuel ;
  if negb (status =? 0) then mret status
  else gets (fun p => check_format format (mMap p)).

(** [KeyCharacterMap::load]: the status and the new map; nothing when it does not return. *)
Definition char_load (format : Format) (t : Tokenizer) : option (Z * option KeyCharacterMap) :=
  match char_parse format (mkParser (mkCharParser KeyCharacterMap_new STATE_TOP 0) t) with
  | Ret status p => Some (status, if status =? 0 then Some (cp_map (mMap p)) else None)
  | _ => None
  end.

(** ** Every text is accepted or rejected *)

(** A key has one behavior for each combination of modifiers. *)
Definition char_key_ok (e : Z * CharKey) : Prop := NoDup (map bh_metaState (ck_behaviors (snd e))).

Record char_map_ok (m : KeyCharacterMap) : Prop := {
  cm_sorted : OrdMap.sorted (mKeys m);
  cm_keys : Forall char_key_ok (mKeys m);
  cm_scan : OrdMap.sorted (cm_byScanCode m);
  cm_usage : OrdMap.sorted (cm_byUsageCode m);
}.

(** Inside a key's braces the key is there. *)
Definition parser_ok (p : CharParser) : Prop :=
  char_map_ok (cp_map p) /\
  (mState p = STATE_KEY -> exists key, OrdMap.find (mKeyCode p) (mKeys (cp_map p)) = Some key /\ char_key_ok (mKeyCode p, key)).

Lemma put_key_ok keyCode key m : char_map_ok m -> char_key_ok (keyCode, key) -> char_map_ok (put_key keyCode key m).
Proof. intros [] Hk. split; cbn; [by apply insert_sorted|by apply insert_Forall|done..]. Qed.

Lemma add_code_ok u code keyCode m : char_map_ok m -> char_map_ok (add_code u code keyCode m).
Proof. intros []. destruct u; split; cbn; try done; by apply insert_sorted. Qed.

Lemma add_properties_ok l b key key' c :
  char_key_ok (c, key) -> add_properties l b key = Some key' -> char_key_ok (c, key').
Proof.
  unfold char_key_ok. cbn [snd]. revert key. induction l as [|x l IH]; intros key Hk; cbn [add_properties]; [by intros [= <-]|].
  destruct x.
  - destruct (negb _); [done|]. by apply IH.
  - destruct (negb _); [done|]. by apply IH.
  - destruct (existsb _ _) eqn:E; [done|]. apply IH. cbn. constructor; [|exact Hk].
    intros Hin. apply list_elem_of_fmap in Hin as (b' & -> & Hb). apply not_true_iff_false in E. apply E.
    apply existsb_exists. exists b'. split; [by apply list_elem_of_In|apply Z.eqb_refl].
Qed.

Section Reading.
Implicit Types p : Parser CharParser.

Definition char_parses (m : C Z) : Prop :=
  forall p, parser_ok (mMap p) -> ends m (fun a p' => (status_ok a = true /\ parser_ok (mMap p')) /\ (len p' <= len p)%nat) p.

Lemma stays p p' a : status_ok a = true -> forward p p' -> parser_ok (mMap p) ->
  (status_ok a = true /\ parser_ok (mMap p')) /\ (len p' <= len p)%nat.
Proof. intros Ha [-> Hl] Hok. by split. Qed.

Lemma char_after p p' m : forward p p' -> parser_ok (mMap p) -> char_parses m ->
  ends m (fun a p2 => (status_ok a = true /\ parser_ok (mMap p2)) /\ (len p2 <= len p)%nat) p'.
Proof.
  intros Hf Hok Hm. destruct (stays _ _ 0 eq_refl Hf Hok) as [[_ Hok'] Hl].
  eapply ends_mono; [by apply Hm|]. intros ? p2 [? ?]. split; [done|lia].
Qed.

Lemma ends_hex n c p : ends (read_hex n c) (fun _ p' => forward p p') p.
Proof.
  revert c p. induction n as [|n IH]; intros c p; [apply forward_refl|]. cbn [read_hex].
  apply ends_bind. eapply ends_mono; [apply ends_char|]. intros ch p1 H1.
  destruct (hex_digit ch); [|exact H1]. eapply ends_mono; [apply IH|]. intros ? p2 H2. going.
Qed.

Lemma ends_literal p : ends read_literal (fun _ p' => forward p p') p.
Proof.
  unfold read_literal. apply ends_bind. eapply ends_mono; [apply ends_char|]. intros ch p1 H1.
  destruct (Ascii.eqb ch _).
  - apply ends_bind. eapply ends_mono; [apply ends_char|]. intros ch' p2 H2.
    assert (forward p p2) as H by going.
    repeat (destruct (Ascii.eqb ch' _); [first [exact H | eapply ends_mono; [apply ends_hex|]; intros ? p3 H3; exact (forward_trans _ _ _ H H3)]|]).
    exact H.
  - by destruct (_ && _).
Qed.

(** The quote that begins a literal is read. *)
Lemma ends_quote p : (peekChar (mTokenizer p) =? "'")%char = true ->
  ends parseCharacterLiteral (fun _ p' => mMap p' = mMap p /\ (len p' < len p)%nat) p.
Proof.
  intros Hq. unfold parseCharacterLiteral. apply ends_bind.
  assert (ends (tokens nextChar) (fun _ p' => mMap p' = mMap p /\ (len p' < len p)%nat) p) as Hc.
  { unfold ends, wp, tokens, zoom, nextChar, peekChar in *. destruct p as [m [s n]]. cbn in *.
    destruct s as [|c s]; [done|]. cbn. split; [done|]. unfold len. cbn. lia. }
  eapply ends_mono; [exact Hc|]. intros ch p1 [Hm1 Hl1]. destruct (negb _); [done|].
  apply ends_bind. eapply ends_mono; [apply ends_literal|]. intros r p2 [Hm2 Hl2].
  assert (mMap p2 = mMap p /\ (len p2 < len p)%nat) as H2 by (split; [congruence|lia]).
  destruct r; [|exact H2]. apply ends_bind. eapply ends_mono; [apply ends_char|]. intros ch' p3 [Hm3 Hl3].
  assert (mMap p3 = mMap p /\ (len p3 < len p)%nat) as H3 by (destruct H2; split; [congruence|lia]).
  destruct (negb _); [exact H3|]. apply ends_bind. eapply ends_mono; [apply ends_word|]. intros ? p4 [[Hm4 Hl4] _].
  destruct H3. split; [congruence|]. lia.
Qed.

Lemma ends_properties fuel token l p : (len p < fuel)%nat -> ends (parse_properties fuel token l) (fun _ p' => forward p p') p.
Proof.
  revert token l p. induction fuel as [|fuel IH]; intros token l p Hf; [lia|]. cbn [parse_properties].
  destruct (property_of token); [|apply forward_refl].
  apply ends_bind. eapply ends_mono; [apply ends_skip|]. intros ? p1 [H1 _]. apply ends_gets.
  destruct (isEol (mTokenizer p1)) eqn:E; [exact H1|].
  apply ends_bind. assert (ends (tokens nextChar) (fun _ p' => forward p1 p' /\ (len p' < len p1)%nat) p1) as Hc.
  { unfold ends, wp, tokens, zoom, nextChar, isEol, forward, len in *. destruct p1 as [m [s n]]. cbn in *.
    destruct s as [|c s]; [done|]. cbn. repeat split; lia. }
  eapply ends_mono; [exact Hc|]. intros ch p2 [H2 Hl2]. assert (forward p p2) as H02 by going.
  destruct (Ascii.eqb ch ":"); [exact H02|]. destruct (Ascii.eqb ch ","); [|exact H02].
  apply ends_bind. eapply ends_mono; [apply ends_skip|]. intros ? p3 [H3 _].
  apply ends_bind. eapply ends_mono; [apply ends_word|]. intros token' p4 [H4 _].
  assert (forward p2 p4) as H24 by going.
  eapply ends_mono; [apply IH; destruct H24, H1; lia|]. intros ? p5 H5.
  eapply forward_trans; [exact H02|]. going.
Qed.

Lemma ends_behavior fuel c f p : (len p < fuel)%nat -> ends (parse_behavior fuel c f) (fun _ p' => forward p p') p.
Proof.
  revert c f p. induction fuel as [|fuel IH]; intros c f p Hf; [lia|]. cbn [parse_behavior].
  assert (forall c f p', forward p p' -> (len p' < len p)%nat ->
    ends (skipBlanks ;; stop ← at_end_of_line ;
      if (stop : bool) then mret (Some (mkBehavior 0 (default 0 c) (default 0 f))) else parse_behavior fuel c f)
      (fun _ p' => forward p p') p') as Hnext.
  { intros c' f' p' Hp' Hl'. apply ends_bind. eapply ends_mono; [apply ends_skip|]. intros ? p1 [H1 _].
    assert (forward p p1) as H01 by going.
    apply ends_gets. destruct (_ || _); [exact H01|]. eapply ends_mono; [apply IH; destruct H1; lia|].
    intros ? p2 H2. exact (forward_trans _ _ _ H01 H2). }
  apply ends_gets. cbv zeta. destruct (Ascii.eqb _ _) eqn:Eq.
  - apply ends_bind. eapply ends_mono; [by apply ends_quote|]. intros r p1 [Hm1 Hl1].
    assert (forward p p1) as H01 by (split; [done|lia]).
    destruct r as [ch|]; [|exact H01]. destruct (ch =? 0); [exact H01|]. destruct c; [exact H01|]. by apply Hnext.
  - apply ends_bind. eapply ends_mono; [apply ends_some_word|]. intros token p1 [Hm1 Hl1].
    assert (forward p p1) as H01 by (split; [done|lia]).
    destruct (String.eqb_spec token "none") as [->|_].
    { destruct c; [exact H01|]. apply Hnext; [done|]. cbn in Hl1. lia. }
    destruct (String.eqb_spec token "fallback") as [->|_]; [|exact H01]. cbn in Hl1.
    apply ends_bind. eapply ends_mono; [apply ends_skip|]. intros ? p2 [H2 _].
    apply ends_bind. eapply ends_mono; [apply ends_word|]. intros token p3 [H3 _].
    assert (forward p1 p3) as H13 by going.
    assert (forward p p3) as H03 by exact (forward_trans _ _ _ H01 H13).
    destruct (_ =? 0); [exact H03|]. destruct f; [exact H03|]. apply Hnext; [done|]. destruct H13. lia.
Qed.

Lemma ends_set_char (f : KeyCharacterMap -> KeyCharacterMap) p0 p :
  forward p0 p -> parser_ok (mMap p0) ->
  (forall m, char_map_ok m -> char_map_ok (f m)) ->
  (forall c key, OrdMap.find c (mKeys (cp_map (mMap p0))) = Some key -> OrdMap.find c (mKeys (f (cp_map (mMap p0)))) = Some key) ->
  ends (set_char_map f ;; mret 0) (fun a p' => (status_ok a = true /\ parser_ok (mMap p')) /\ (len p' <= len p0)%nat) p.
Proof.
  intros [Hm Hl] [Hok Hk] Hf Hfind. split; [split; [done|]|exact Hl]. cbn. rewrite Hm. split; [by apply Hf|]. cbn.
  intros Hs. destruct (Hk Hs) as (key & Hfk & Hko). exists key. split; [by apply Hfind|done].
Qed.

Lemma ends_parseType : char_parses parseType.
Proof.
  intros p Hok. unfold parseType. pose proof (forward_refl p) as H0. apply ends_gets. destruct (negb _); [by apply stays|].
  apply ends_bind. eapply ends_mono; [apply ends_word|]. intros token p1 [H1 _]. cbv zeta.
  destruct (_ =? _); [by apply (stays p)|]. apply (ends_set_char _ p); [done|done| |done]. intros m []. by split.
Qed.

Lemma ends_map_code u token : char_parses (parse_map_code u token).
Proof.
  intros p Hok. unfold parse_map_code. pose proof (forward_refl p) as H0.
  destruct (parse_int token) as [code|]; [|by apply stays]. apply ends_gets.
  destruct (OrdMap.find code _); [by apply stays|].
  apply ends_bind. eapply ends_mono; [apply ends_skip|]. intros ? p1 [H1 _].
  apply ends_bind. eapply ends_mono; [apply ends_word|]. intros label p2 [H2 _].
  assert (forward p p2) as H02 by going. cbv zeta. destruct (_ =? 0); [by apply (stays p)|].
  apply (ends_set_char _ p); [done|done|by apply add_code_ok|]. intros c key. by destruct u.
Qed.

Lemma ends_parseMap : char_parses parseMap.
Proof.
  intros p Hok. unfold parseMap, parseMapKey. apply ends_bind. eapply ends_mono; [apply ends_word|]. intros token p1 [H1 _].
  destruct (String.eqb token "key"); [|by apply (stays p)].
  apply ends_bind. eapply ends_mono; [apply ends_skip|]. intros ? p2 [H2 _].
  apply ends_bind. eapply ends_mono; [apply ends_word|]. intros codeToken p3 [H3 _].
  assert (forward p p3) as H03 by going.
  destruct (String.eqb codeToken "usage"); [|by apply char_after, ends_map_code].
  apply ends_bind. eapply ends_mono; [apply ends_skip|]. intros ? p4 [H4 _].
  apply ends_bind. eapply ends_mono; [apply ends_word|]. intros code p5 [H5 _].
  apply char_after; [going|done|apply ends_map_code].
Qed.

Lemma ends_char_key : char_parses parse_char_key.
Proof.
  intros p Hok. unfold parse_char_key. apply ends_bind. eapply ends_mono; [apply ends_word|]. intros token p1 [H1 _].
  cbv zeta. destruct (_ =? 0); [by apply (stays p)|]. apply ends_gets.
  destruct (OrdMap.find _ _); [by apply (stays p)|].
  apply ends_bind. eapply ends_mono; [apply ends_skip|]. intros ? p2 [H2 _].
  apply ends_bind. eapply ends_mono; [apply ends_word|]. intros brace p3 [H3 _].
  assert (forward p p3) as H03 by going. destruct (negb _); [by apply (stays p)|].
  destruct H03 as [Hm Hl]. split; [split; [done|]|exact Hl]. cbn. rewrite Hm. destruct Hok as [Hok _].
  assert (char_key_ok (getKeyCodeByLabel token, mkCharKey 0 0 [])) as Hk by constructor.
  split; [by apply put_key_ok|]. intros _. cbn. eexists. split; [by apply find_insert_eq|done].
Qed.

Lemma ends_key_property p : mState (mMap p) = STATE_KEY -> parser_ok (mMap p) ->
  ends parseKeyProperty (fun a p' => (status_ok a = true /\ parser_ok (mMap p')) /\ (len p' <= len p)%nat) p.
Proof.
  intros Hst Hok. pose proof (proj2 Hok Hst) as (key & Hkey & Hko). unfold parseKeyProperty. apply ends_bind.
  unfold ends at 1, wp, current_key, deref. cbv zeta. rewrite Hkey.
  apply ends_bind. eapply ends_mono; [apply ends_word|]. intros token p1 [H1 _].
  assert (forall p' key', forward p p' -> char_key_ok (mKeyCode (mMap p), key') ->
    parser_ok (mkCharParser (put_key (mKeyCode (mMap p)) key' (cp_map (mMap p))) (mState (mMap p)) (mKeyCode (mMap p))) /\
    parser_ok (mkCharParser (put_key (mKeyCode (mMap p)) key' (cp_map (mMap p))) STATE_TOP (mKeyCode (mMap p)))) as Hput.
  { intros p' key' _ Hk'. destruct Hok as [Hok _]. split; (split; [by apply put_key_ok|]); [|done].
    intros _. exists key'. split; [by apply find_insert_eq|done]. }
  destruct (String.eqb token "}").
  { destruct H1 as [Hm Hl]. split; [split; [done|]|exact Hl]. cbn. rewrite Hm.
    apply (Hput p); [apply forward_refl|]. unfold finishKey, char_key_ok in *. cbn [snd] in *.
    destruct (_ =? 0); [|done]. by destruct (dial_characters _). }
  apply ends_gets. apply ends_bind. eapply ends_mono; [apply ends_properties; unfold len; lia|]. intros [l|] p2 H2.
  2: { apply (stays p); [done|going|done]. }
  apply ends_bind. eapply ends_mono; [apply ends_skip|]. intros ? p3 [H3 _]. apply ends_gets.
  apply ends_bind. eapply ends_mono; [apply ends_behavior; unfold len; lia|]. intros [b|] p4 H4.
  2: { apply (stays p); [done|going|done]. }
  assert (forward p p4) as H04 by going.
  destruct (add_properties l b key) as [key'|] eqn:Ea; [|by apply (stays p)].
  destruct H04 as [Hm Hl]. split; [split; [done|]|exact Hl]. cbn. rewrite Hm.
  apply (Hput p); [apply forward_refl|]. by eapply add_properties_ok.
Qed.

Lemma ends_char_line : char_parses parse_char_line.
Proof.
  intros p Hok. unfold parse_char_line. apply ends_bind. eapply ends_mono; [apply ends_skip|]. intros ? p1 [H1 _].
  apply ends_gets. destruct (_ || _); [by apply (stays p)|]. apply ends_gets. apply ends_bind.
  destruct (stays p p1 0 eq_refl H1 Hok) as [[_ Hok1] Hl1].
  assert (ends (match mState (mMap p1) with
             | STATE_TOP =>
                 keywordToken ← word ;
                 if String.eqb keywordToken "type" then skipBlanks ;; parseType
                 else if String.eqb keywordToken "map" then skipBlanks ;; parseMap
                 else if String.eqb keywordToken "key" then skipBlanks ;; parse_char_key
                 else mret BAD_VALUE
             | STATE_KEY => parseKeyProperty
             end) (fun a p' => (status_ok a = true /\ parser_ok (mMap p')) /\ (len p' <= len p1)%nat) p1) as Hbody.
  { destruct (mState (mMap p1)) eqn:Es; [|by apply ends_key_property].
    apply ends_bind. eapply ends_mono; [apply ends_word|]. intros token p2 [H2 _].
    assert (forall m, char_parses m -> ends (skipBlanks ;; m)
      (fun a p' => (status_ok a = true /\ parser_ok (mMap p')) /\ (len p' <= len p1)%nat) p2) as Hb.
    { intros m Hm. apply ends_bind. eapply ends_mono; [apply ends_skip|]. intros ? p3 [H3 _]. apply char_after; [going|done..]. }
    destruct (String.eqb token "type"); [apply Hb, ends_parseType|].
    destruct (String.eqb token "map"); [apply Hb, ends_parseMap|].
    destruct (String.eqb token "key"); [apply Hb, ends_char_key|]. by apply (stays p1). }
  eapply ends_mono; [exact Hbody|]. intros status p2 [[Hst H2] Hl2]. assert (len p2 <= len p)%nat by lia.
  destruct (negb _); [done|]. apply ends_bind. eapply ends_mono; [apply ends_skip|]. intros ? p3 [[Hm3 Hl3] _].
  assert (parser_ok (mMap p3)) by congruence. assert (len p3 <= len p)%nat by lia.
  apply ends_gets. by destruct (_ || _).
Qed.

Lemma char_loads format t : exists status m, char_load format t = Some (status, m) /\
  (status = 0 /\ (exists l, m = Some l /\ char_map_ok l) \/ status = BAD_VALUE /\ m = None).
Proof.
  assert (ends (char_parse format) (fun a p' => status_ok a = true /\ parser_ok (mMap p'))
    (mkParser (mkCharParser KeyCharacterMap_new STATE_TOP 0) t)) as H.
  { unfold char_parse. apply ends_gets. apply ends_bind. eapply ends_mono.
    - apply (ends_lines parse_char_line parser_ok); [apply ends_char_line| |unfold len; lia].
      split; [split; cbn; constructor|done].
    - intros status p [Hst Hok]. destruct (negb _); [done|]. split; [|done].
      unfold check_format. destruct (mState _); [|done]. cbv zeta. destruct (_ =? _); [done|].
      destruct format; try done; by destruct (_ =? _). }
  apply ends_ret in H as (status & p & Hp & Hst & Hok). unfold char_load. rewrite Hp.
  eexists _, _. split; [done|]. apply orb_true_iff in Hst as [E|E]; apply Z.eqb_eq in E as ->; [left|by right].
  split; [done|]. eexists. split; [done|apply Hok].
Qed.

End Reading.
