(* ===== verification/GenericMaps.v ===== *)
(** * The generic key maps

    [GenericKeyMap.cpp]: the texts that every device gets whose own maps are missing,
    line by line, and what loading them gives: both are accepted, and the character map
    can type every printable text. *)

From Stdlib Require Import Ascii.
From S2P Require Import Prelude Input AndroidEvents DispatchLoop ReaderData KeyText KeyLayout KeyCharacters.

(** ** The texts *)

Definition layout_lines_1 : list string := [
  "key 1     ESCAPE";
  "key 2     1";
  "key 3     2";
  "key 4     3";
  "key 5     4";
  "key 6     5";
  "key 7     6";
  "key 8     7";
  "key 9     8";
  "key 10    9";
  "key 11    0";
  "key 12    MINUS";
  "key 13    EQUALS";
  "key 14    DEL";
  "key 15    TAB";
  "key 16    Q";
  "key 17    W";
  "key 18    E";
  "key 19    R";
  "key 20    T";
  "key 21    Y";
  "key 22    U";
  "key 23    I";
  "key 24    O";
  "key 25    P";
  "key 26    LEFT_BRACKET";
  "key 27    RIGHT_BRACKET";
  "key 28    ENTER";
  "key 29    CTRL_LEFT";
  "key 30    A";
  "key 31    S";
  "key 32    D";
  "key 33    F";
  "key 34    G";
  "key 35    H";
  "key 36    J";
  "key 37    K";
  "key 38    L";
  "key 39    SEMICOLON";
  "key 40    APOSTROPHE";
  "key 41    GRAVE";
  "key 42    SHIFT_LEFT";
  "key 43    BACKSLASH";
  "key 44    Z";
  "key 45    X";
  "key 46    C";
  "key 47    V";
  "key 48    B";
  "key 49    N";
  "key 50    M";
  "key 51    COMMA";
  "key 52    PERIOD";
  "key 53    SLASH";
  "key 54    SHIFT_RIGHT";
  "key 55    NUMPAD_MULTIPLY";
  "key 56    ALT_LEFT";
  "key 57    SPACE";
  "key 58    CAPS_LOCK";
  "key 59    F1";
  "key 60    F2";
  "key 61    F3";
  "key 62    F4";
  "key 63    F5";
  "key 64    F6";
  "key 65    F7";
  "key 66    F8";
  "key 67    F9";
  "key 68    F10";
  "key 69    NUM_LOCK";
  "key 70    SCROLL_LOCK";
  "key 71    NUMPAD_7";
  "key 72    NUMPAD_8";
  "key 73    NUMPAD_9";
  "key 74    NUMPAD_SUBTRACT";
  "key 75    NUMPAD_4";
  "key 76    NUMPAD_5";
  "key 77    NUMPAD_6";
  "key 78    NUMPAD_ADD";
  "key 79    NUMPAD_1";
  "key 80    NUMPAD_2";
  "key 81    NUMPAD_3";
  "key 82    NUMPAD_0";
  "key 83    NUMPAD_DOT";
  "# key 84 (undefined)";
  "key 85    ZENKAKU_HANKAKU";
  "key 86    BACKSLASH";
  "key 87    F11";
  "key 88    F12";
  "key 89    RO";
  (String.append "# key 90 " (String "034" (String.append "KEY_KATAKANA" (String "034" ""))));
  (String.append "# key 91 " (String "034" (String.append "KEY_HIRAGANA" (String "034" ""))));
  "key 92    HENKAN";
  "key 93    KATAKANA_HIRAGANA";
  "key 94    MUHENKAN";
  "key 95    NUMPAD_COMMA";
  "key 96    NUMPAD_ENTER";
  "key 97    CTRL_RIGHT";
  "key 98    NUMPAD_DIVIDE";
  "key 99    SYSRQ";
  "key 100   ALT_RIGHT";
  (String.append "# key 101 " (String "034" (String.append "KEY_LINEFEED" (String "034" ""))));
  "key 102   MOVE_HOME";
  "key 103   DPAD_UP";
  "key 104   PAGE_UP";
  "key 105   DPAD_LEFT";
  "key 106   DPAD_RIGHT";
  "key 107   MOVE_END";
  "key 108   DPAD_DOWN";
  "key 109   PAGE_DOWN";
  "key 110   INSERT";
  "key 111   FORWARD_DEL";
  (String.append "# key 112 " (String "034" (String.append "KEY_MACRO" (String "034" ""))));
  "key 113   VOLUME_MUTE";
  "key 114   VOLUME_DOWN";
  "key 115   VOLUME_UP";
  "key 116   POWER             WAKE";
  "key 117   NUMPAD_EQUALS";
  (String.append "# key 118 " (String "034" (String.append "KEY_KPPLUSMINUS" (String "034" ""))));
  "key 119   BREAK";
  "# key 120 (undefined)";
  "key 121   NUMPAD_COMMA";
  "key 122   KANA";
  "key 123   EISU";
  "key 124   YEN";
  "key 125   META_LEFT";
  "key 126   META_RIGHT";
  "key 127   MENU              WAKE_DROPPED";
  "key 128   MEDIA_STOP";
  (String.append "# key 129 " (String "034" (String.append "KEY_AGAIN" (String "034" ""))));
  (String.append "# key 130 " (String "034" (String.append "KEY_PROPS" (String "034" ""))));
  (String.append "# key 131 " (String "034" (String.append "KEY_UNDO" (String "034" ""))));
  (String.append "# key 132 " (String "034" (String.append "KEY_FRONT" (String "034" ""))));
  (String.append "# key 133 " (String "034" (String.append "KEY_COPY" (String "034" ""))));
  (String.append "# key 134 " (String "034" (String.append "KEY_OPEN" (String "034" ""))));
  (String.append "# key 135 " (String "034" (String.append "KEY_PASTE" (String "034" ""))));
  (String.append "# key 136 " (String "034" (String.append "KEY_FIND" (String "034" ""))));
  (String.append "# key 137 " (String "034" (String.append "KEY_CUT" (String "034" ""))));
  (String.append "# key 138 " (String "034" (String.append "KEY_HELP" (String "034" ""))));
  "key 139   MENU              WAKE_DROPPED";
  "key 140   CALCULATOR";
  (String.append "# key 141 " (String "034" (String.append "KEY_SETUP" (String "034" ""))));
  "key 142   POWER             WAKE";
  "key 143   POWER             WAKE";
  (String.append "# key 144 " (String "034" (String.append "KEY_FILE" (String "034" ""))));
  (String.append "# key 145 " (String "034" (String.append "KEY_SENDFILE" (String "034" ""))))
].

Definition layout_lines_2 : list string := [
  (String.append "# key 146 " (String "034" (String.append "KEY_DELETEFILE" (String "034" ""))));
  (String.append "# key 147 " (String "034" (String.append "KEY_XFER" (String "034" ""))));
  (String.append "# key 148 " (String "034" (String.append "KEY_PROG1" (String "034" ""))));
  (String.append "# key 149 " (String "034" (String.append "KEY_PROG2" (String "034" ""))));
  "key 150   EXPLORER";
  (String.append "# key 151 " (String "034" (String.append "KEY_MSDOS" (String "034" ""))));
  "key 152   POWER             WAKE";
  (String.append "# key 153 " (String "034" (String.append "KEY_DIRECTION" (String "034" ""))));
  (String.append "# key 154 " (String "034" (String.append "KEY_CYCLEWINDOWS" (String "034" ""))));
  "key 155   ENVELOPE";
  "key 156   BOOKMARK";
  (String.append "# key 157 " (String "034" (String.append "KEY_COMPUTER" (String "034" ""))));
  "key 158   BACK              WAKE_DROPPED";
  "key 159   FORWARD";
  "key 160   MEDIA_CLOSE";
  "key 161   MEDIA_EJECT";
  "key 162   MEDIA_EJECT";
  "key 163   MEDIA_NEXT";
  "key 164   MEDIA_PLAY_PAUSE";
  "key 165   MEDIA_PREVIOUS";
  "key 166   MEDIA_STOP";
  "key 167   MEDIA_RECORD";
  "key 168   MEDIA_REWIND";
  "key 169   CALL";
  (String.append "# key 170 " (String "034" (String.append "KEY_ISO" (String "034" ""))));
  "key 171   MUSIC";
  "key 172   HOME";
  (String.append "# key 173 " (String "034" (String.append "KEY_REFRESH" (String "034" ""))));
  (String.append "# key 174 " (String "034" (String.append "KEY_EXIT" (String "034" ""))));
  (String.append "# key 175 " (String "034" (String.append "KEY_MOVE" (String "034" ""))));
  (String.append "# key 176 " (String "034" (String.append "KEY_EDIT" (String "034" ""))));
  "key 177   PAGE_UP";
  "key 178   PAGE_DOWN";
  "key 179   NUMPAD_LEFT_PAREN";
  "key 180   NUMPAD_RIGHT_PAREN";
  (String.append "# key 181 " (String "034" (String.append "KEY_NEW" (String "034" ""))));
  (String.append "# key 182 " (String "034" (String.append "KEY_REDO" (String "034" ""))));
  "# key 183   F13";
  "# key 184   F14";
  "# key 185   F15";
  "# key 186   F16";
  "# key 187   F17";
  "# key 188   F18";
  "# key 189   F19";
  "# key 190   F20";
  "# key 191   F21";
  "# key 192   F22";
  "# key 193   F23";
  "# key 194   F24";
  "# key 195 (undefined)";
  "# key 196 (undefined)";
  "# key 197 (undefined)";
  "# key 198 (undefined)";
  "# key 199 (undefined)";
  "key 200   MEDIA_PLAY";
  "key 201   MEDIA_PAUSE";
  (String.append "# key 202 " (String "034" (String.append "KEY_PROG3" (String "034" ""))));
  (String.append "# key 203 " (String "034" (String.append "KEY_PROG4" (String "034" ""))));
  "# key 204 (undefined)";
  (String.append "# key 205 " (String "034" (String.append "KEY_SUSPEND" (String "034" ""))));
  (String.append "# key 206 " (String "034" (String.append "KEY_CLOSE" (String "034" ""))));
  "key 207   MEDIA_PLAY";
  "key 208   MEDIA_FAST_FORWARD";
  (String.append "# key 209 " (String "034" (String.append "KEY_BASSBOOST" (String "034" ""))));
  (String.append "# key 210 " (String "034" (String.append "KEY_PRINT" (String "034" ""))));
  (String.append "# key 211 " (String "034" (String.append "KEY_HP" (String "034" ""))));
  "key 212   CAMERA";
  "key 213   MUSIC";
  (String.append "# key 214 " (String "034" (String.append "KEY_QUESTION" (String "034" ""))));
  "key 215   ENVELOPE";
  (String.append "# key 216 " (String "034" (String.append "KEY_CHAT" (String "034" ""))));
  "key 217   SEARCH";
  (String.append "# key 218 " (String "034" (String.append "KEY_CONNECT" (String "034" ""))));
  (String.append "# key 219 " (String "034" (String.append "KEY_FINANCE" (String "034" ""))));
  (String.append "# key 220 " (String "034" (String.append "KEY_SPORT" (String "034" ""))));
  (String.append "# key 221 " (String "034" (String.append "KEY_SHOP" (String "034" ""))));
  (String.append "# key 222 " (String "034" (String.append "KEY_ALTERASE" (String "034" ""))));
  (String.append "# key 223 " (String "034" (String.append "KEY_CANCEL" (String "034" ""))));
  (String.append "# key 224 " (String "034" (String.append "KEY_BRIGHTNESSDOWN" (String "034" ""))));
  (String.append "# key 225 " (String "034" (String.append "KEY_BRIGHTNESSUP" (String "034" ""))));
  "key 226   HEADSETHOOK";
  "";
  "key 256   BUTTON_1";
  "key 257   BUTTON_2";
  "key 258   BUTTON_3";
  "key 259   BUTTON_4";
  "key 260   BUTTON_5";
  "key 261   BUTTON_6";
  "key 262   BUTTON_7";
  "key 263   BUTTON_8";
  "key 264   BUTTON_9";
  "key 265   BUTTON_10";
  "key 266   BUTTON_11";
  "key 267   BUTTON_12";
  "key 268   BUTTON_13";
  "key 269   BUTTON_14";
  "key 270   BUTTON_15";
  "key 271   BUTTON_16";
  "";
  "key 288   BUTTON_1";
  "key 289   BUTTON_2";
  "key 290   BUTTON_3";
  "key 291   BUTTON_4";
  "key 292   BUTTON_5";
  "key 293   BUTTON_6";
  "key 294   BUTTON_7";
  "key 295   BUTTON_8";
  "key 296   BUTTON_9";
  "key 297   BUTTON_10";
  "key 298   BUTTON_11";
  "key 299   BUTTON_12";
  "key 300   BUTTON_13";
  "key 301   BUTTON_14";
  "key 302   BUTTON_15";
  "key 303   BUTTON_16";
  "";
  "";
  "key 304   BUTTON_A";
  "key 305   BUTTON_B";
  "key 306   BUTTON_C";
  "key 307   BUTTON_X";
  "key 308   BUTTON_Y";
  "key 309   BUTTON_Z";
  "key 310   BUTTON_L1";
  "key 311   BUTTON_R1";
  "key 312   BUTTON_L2";
  "key 313   BUTTON_R2";
  "key 314   BUTTON_SELECT";
  "key 315   BUTTON_START";
  "key 316   BUTTON_MODE";
  "key 317   BUTTON_THUMBL";
  "key 318   BUTTON_THUMBR";
  "";
  "";
  (String.append "# key 352 " (String "034" (String.append "KEY_OK" (String "034" ""))));
  "key 353   DPAD_CENTER";
  (String.append "# key 354 " (String "034" (String.append "KEY_GOTO" (String "034" ""))));
  (String.append "# key 355 " (String "034" (String.append "KEY_CLEAR" (String "034" ""))));
  (String.append "# key 356 " (String "034" (String.append "KEY_POWER2" (String "034" ""))));
  (String.append "# key 357 " (String "034" (String.append "KEY_OPTION" (String "034" ""))));
  (String.append "# key 358 " (String "034" (String.append "KEY_INFO" (String "034" ""))));
  (String.append "# key 359 " (String "034" (String.append "KEY_TIME" (String "034" ""))));
  (String.append "# key 360 " (String "034" (String.append "KEY_VENDOR" (String "034" ""))));
  (String.append "# key 361 " (String "034" (String.append "KEY_ARCHIVE" (String "034" ""))));
  "key 362   GUIDE"
].

Definition layout_lines_3 : list string := [
  (String.append "# key 363 " (String "034" (String.append "KEY_CHANNEL" (String "034" ""))));
  (String.append "# key 364 " (String "034" (String.append "KEY_FAVORITES" (String "034" ""))));
  (String.append "# key 365 " (String "034" (String.append "KEY_EPG" (String "034" ""))));
  "key 366   DVR";
  (String.append "# key 367 " (String "034" (String.append "KEY_MHP" (String "034" ""))));
  (String.append "# key 368 " (String "034" (String.append "KEY_LANGUAGE" (String "034" ""))));
  (String.append "# key 369 " (String "034" (String.append "KEY_TITLE" (String "034" ""))));
  (String.append "# key 370 " (String "034" (String.append "KEY_SUBTITLE" (String "034" ""))));
  (String.append "# key 371 " (String "034" (String.append "KEY_ANGLE" (String "034" ""))));
  (String.append "# key 372 " (String "034" (String.append "KEY_ZOOM" (String "034" ""))));
  (String.append "# key 373 " (String "034" (String.append "KEY_MODE" (String "034" ""))));
  (String.append "# key 374 " (String "034" (String.append "KEY_KEYBOARD" (String "034" ""))));
  (String.append "# key 375 " (String "034" (String.append "KEY_SCREEN" (String "034" ""))));
  (String.append "# key 376 " (String "034" (String.append "KEY_PC" (String "034" ""))));
  "key 377   TV";
  (String.append "# key 378 " (String "034" (String.append "KEY_TV2" (String "034" ""))));
  (String.append "# key 379 " (String "034" (String.append "KEY_VCR" (String "034" ""))));
  (String.append "# key 380 " (String "034" (String.append "KEY_VCR2" (String "034" ""))));
  (String.append "# key 381 " (String "034" (String.append "KEY_SAT" (String "034" ""))));
  (String.append "# key 382 " (String "034" (String.append "KEY_SAT2" (String "034" ""))));
  (String.append "# key 383 " (String "034" (String.append "KEY_CD" (String "034" ""))));
  (String.append "# key 384 " (String "034" (String.append "KEY_TAPE" (String "034" ""))));
  (String.append "# key 385 " (String "034" (String.append "KEY_RADIO" (String "034" ""))));
  (String.append "# key 386 " (String "034" (String.append "KEY_TUNER" (String "034" ""))));
  (String.append "# key 387 " (String "034" (String.append "KEY_PLAYER" (String "034" ""))));
  (String.append "# key 388 " (String "034" (String.append "KEY_TEXT" (String "034" ""))));
  (String.append "# key 389 " (String "034" (String.append "KEY_DVD" (String "034" ""))));
  (String.append "# key 390 " (String "034" (String.append "KEY_AUX" (String "034" ""))));
  (String.append "# key 391 " (String "034" (String.append "KEY_MP3" (String "034" ""))));
  (String.append "# key 392 " (String "034" (String.append "KEY_AUDIO" (String "034" ""))));
  (String.append "# key 393 " (String "034" (String.append "KEY_VIDEO" (String "034" ""))));
  (String.append "# key 394 " (String "034" (String.append "KEY_DIRECTORY" (String "034" ""))));
  (String.append "# key 395 " (String "034" (String.append "KEY_LIST" (String "034" ""))));
  (String.append "# key 396 " (String "034" (String.append "KEY_MEMO" (String "034" ""))));
  "key 397   CALENDAR";
  (String.append "# key 398 " (String "034" (String.append "KEY_RED" (String "034" ""))));
  (String.append "# key 399 " (String "034" (String.append "KEY_GREEN" (String "034" ""))));
  (String.append "# key 400 " (String "034" (String.append "KEY_YELLOW" (String "034" ""))));
  (String.append "# key 401 " (String "034" (String.append "KEY_BLUE" (String "034" ""))));
  "key 402   CHANNEL_UP";
  "key 403   CHANNEL_DOWN";
  (String.append "# key 404 " (String "034" (String.append "KEY_FIRST" (String "034" ""))));
  (String.append "# key 405 " (String "034" (String.append "KEY_LAST" (String "034" ""))));
  (String.append "# key 406 " (String "034" (String.append "KEY_AB" (String "034" ""))));
  (String.append "# key 407 " (String "034" (String.append "KEY_NEXT" (String "034" ""))));
  (String.append "# key 408 " (String "034" (String.append "KEY_RESTART" (String "034" ""))));
  (String.append "# key 409 " (String "034" (String.append "KEY_SLOW" (String "034" ""))));
  (String.append "# key 410 " (String "034" (String.append "KEY_SHUFFLE" (String "034" ""))));
  (String.append "# key 411 " (String "034" (String.append "KEY_BREAK" (String "034" ""))));
  (String.append "# key 412 " (String "034" (String.append "KEY_PREVIOUS" (String "034" ""))));
  (String.append "# key 413 " (String "034" (String.append "KEY_DIGITS" (String "034" ""))));
  (String.append "# key 414 " (String "034" (String.append "KEY_TEEN" (String "034" ""))));
  (String.append "# key 415 " (String "034" (String.append "KEY_TWEN" (String "034" ""))));
  "key 429   CONTACTS";
  "";
  (String.append "# key 448 " (String "034" (String.append "KEY_DEL_EOL" (String "034" ""))));
  (String.append "# key 449 " (String "034" (String.append "KEY_DEL_EOS" (String "034" ""))));
  (String.append "# key 450 " (String "034" (String.append "KEY_INS_LINE" (String "034" ""))));
  (String.append "# key 451 " (String "034" (String.append "KEY_DEL_LINE" (String "034" ""))));
  "";
  "";
  "key 464   FUNCTION";
  "key 465   ESCAPE            FUNCTION";
  "key 466   F1                FUNCTION";
  "key 467   F2                FUNCTION";
  "key 468   F3                FUNCTION";
  "key 469   F4                FUNCTION";
  "key 470   F5                FUNCTION";
  "key 471   F6                FUNCTION";
  "key 472   F7                FUNCTION";
  "key 473   F8                FUNCTION";
  "key 474   F9                FUNCTION";
  "key 475   F10               FUNCTION";
  "key 476   F11               FUNCTION";
  "key 477   F12               FUNCTION";
  "key 478   1                 FUNCTION";
  "key 479   2                 FUNCTION";
  "key 480   D                 FUNCTION";
  "key 481   E                 FUNCTION";
  "key 482   F                 FUNCTION";
  "key 483   S                 FUNCTION";
  "key 484   B                 FUNCTION";
  "";
  "";
  "# key 497 KEY_BRL_DOT1";
  "# key 498 KEY_BRL_DOT2";
  "# key 499 KEY_BRL_DOT3";
  "# key 500 KEY_BRL_DOT4";
  "# key 501 KEY_BRL_DOT5";
  "# key 502 KEY_BRL_DOT6";
  "# key 503 KEY_BRL_DOT7";
  "# key 504 KEY_BRL_DOT8";
  "";
  "";
  "# Joystick and game controller axes.";
  "# Axes that are not mapped will be assigned generic axis numbers by the input subsystem.";
  "axis 0x00 X";
  "axis 0x01 Y";
  "axis 0x02 Z";
  "axis 0x03 RX";
  "axis 0x04 RY";
  "axis 0x05 RZ";
  "axis 0x06 THROTTLE";
  "axis 0x07 RUDDER";
  "axis 0x08 WHEEL";
  "axis 0x09 GAS";
  "axis 0x0a BRAKE";
  "axis 0x10 HAT_X";
  "axis 0x11 HAT_Y"
].

(** Lines that each end with a newline. *)
Definition unlines (l : list string) : string := fold_right (fun x s => String.append x (String newline s)) EmptyString l.

Definition key_layout_contents : string := unlines (layout_lines_1 ++ layout_lines_2 ++ layout_lines_3).

Definition keymap_lines_1 : list string := [
  "type FULL";
  "";
  "### Basic QWERTY keys ###";
  "";
  "key A {";
  "    label:                              'A'";
  "    base:                               'a'";
  "    shift, capslock:                    'A'";
  "}";
  "";
  "key B {";
  "    label:                              'B'";
  "    base:                               'b'";
  "    shift, capslock:                    'B'";
  "}";
  "";
  "key C {";
  "    label:                              'C'";
  "    base:                               'c'";
  "    shift, capslock:                    'C'";
  "    alt:                                '\u00e7'";
  "    shift+alt:                          '\u00c7'";
  "}";
  "";
  "key D {";
  "    label:                              'D'";
  "    base:                               'd'";
  "    shift, capslock:                    'D'";
  "}";
  "";
  "key E {";
  "    label:                              'E'";
  "    base:                               'e'";
  "    shift, capslock:                    'E'";
  "    alt:                                '\u0301'";
  "}";
  "";
  "key F {";
  "    label:                              'F'";
  "    base:                               'f'";
  "    shift, capslock:                    'F'";
  "}";
  "";
  "key G {";
  "    label:                              'G'";
  "    base:                               'g'";
  "    shift, capslock:                    'G'";
  "}";
  "";
  "key H {";
  "    label:                              'H'";
  "    base:                               'h'";
  "    shift, capslock:                    'H'";
  "}";
  "";
  "key I {";
  "    label:                              'I'";
  "    base:                               'i'";
  "    shift, capslock:                    'I'";
  "    alt:                                '\u0302'";
  "}";
  "";
  "key J {";
  "    label:                              'J'";
  "    base:                               'j'";
  "    shift, capslock:                    'J'";
  "}";
  "";
  "key K {";
  "    label:                              'K'";
  "    base:                               'k'";
  "    shift, capslock:                    'K'";
  "}";
  "";
  "key L {";
  "    label:                              'L'";
  "    base:                               'l'";
  "    shift, capslock:                    'L'";
  "}";
  "";
  "key M {";
  "    label:                              'M'";
  "    base:                               'm'";
  "    shift, capslock:                    'M'";
  "}";
  "";
  "key N {";
  "    label:                              'N'";
  "    base:                               'n'";
  "    shift, capslock:                    'N'";
  "    alt:                                '\u0303'";
  "}";
  "";
  "key O {";
  "    label:                              'O'";
  "    base:                               'o'";
  "    shift, capslock:                    'O'";
  "}";
  "";
  "key P {";
  "    label:                              'P'";
  "    base:                               'p'";
  "    shift, capslock:                    'P'";
  "}";
  "";
  "key Q {";
  "    label:                              'Q'";
  "    base:                               'q'";
  "    shift, capslock:                    'Q'";
  "}";
  "";
  "key R {";
  "    label:                              'R'";
  "    base:                               'r'";
  "    shift, capslock:                    'R'";
  "}";
  "";
  "key S {";
  "    label:                              'S'";
  "    base:                               's'";
  "    shift, capslock:                    'S'";
  "    alt:                                '\u00df'";
  "}";
  "";
  "key T {";
  "    label:                              'T'";
  "    base:                               't'";
  "    shift, capslock:                    'T'";
  "}";
  "";
  "key U {";
  "    label:                              'U'";
  "    base:                               'u'";
  "    shift, capslock:                    'U'";
  "    alt:                                '\u0308'";
  "}";
  "";
  "key V {";
  "    label:                              'V'";
  "    base:                               'v'";
  "    shift, capslock:                    'V'";
  "}";
  "";
  "key W {";
  "    label:                              'W'"
].

Definition keymap_lines_2 : list string := [
  "    base:                               'w'";
  "    shift, capslock:                    'W'";
  "}";
  "";
  "key X {";
  "    label:                              'X'";
  "    base:                               'x'";
  "    shift, capslock:                    'X'";
  "}";
  "";
  "key Y {";
  "    label:                              'Y'";
  "    base:                               'y'";
  "    shift, capslock:                    'Y'";
  "}";
  "";
  "key Z {";
  "    label:                              'Z'";
  "    base:                               'z'";
  "    shift, capslock:                    'Z'";
  "}";
  "";
  "key 0 {";
  "    label:                              '0'";
  "    base:                               '0'";
  "    shift:                              ')'";
  "}";
  "";
  "key 1 {";
  "    label:                              '1'";
  "    base:                               '1'";
  "    shift:                              '!'";
  "}";
  "";
  "key 2 {";
  "    label:                              '2'";
  "    base:                               '2'";
  "    shift:                              '@'";
  "}";
  "";
  "key 3 {";
  "    label:                              '3'";
  "    base:                               '3'";
  "    shift:                              '#'";
  "}";
  "";
  "key 4 {";
  "    label:                              '4'";
  "    base:                               '4'";
  "    shift:                              '$'";
  "}";
  "";
  "key 5 {";
  "    label:                              '5'";
  "    base:                               '5'";
  "    shift:                              '%'";
  "}";
  "";
  "key 6 {";
  "    label:                              '6'";
  "    base:                               '6'";
  "    shift:                              '^'";
  "    alt+shift:                          '\u0302'";
  "}";
  "";
  "key 7 {";
  "    label:                              '7'";
  "    base:                               '7'";
  "    shift:                              '&'";
  "}";
  "";
  "key 8 {";
  "    label:                              '8'";
  "    base:                               '8'";
  "    shift:                              '*'";
  "}";
  "";
  "key 9 {";
  "    label:                              '9'";
  "    base:                               '9'";
  "    shift:                              '('";
  "}";
  "";
  "key SPACE {";
  "    label:                              ' '";
  "    base:                               ' '";
  "    alt, meta:                          fallback SEARCH";
  "    ctrl:                               fallback LANGUAGE_SWITCH";
  "}";
  "";
  "key ENTER {";
  "    label:                              '\n'";
  "    base:                               '\n'";
  "}";
  "";
  "key TAB {";
  "    label:                              '\t'";
  "    base:                               '\t'";
  "}";
  "";
  "key COMMA {";
  "    label:                              ','";
  "    base:                               ','";
  "    shift:                              '<'";
  "}";
  "";
  "key PERIOD {";
  "    label:                              '.'";
  "    base:                               '.'";
  "    shift:                              '>'";
  "}";
  "";
  "key SLASH {";
  "    label:                              '/'";
  "    base:                               '/'";
  "    shift:                              '?'";
  "}";
  "";
  "key GRAVE {";
  "    label:                              '`'";
  "    base:                               '`'";
  "    shift:                              '~'";
  "    alt:                                '\u0300'";
  "    alt+shift:                          '\u0303'";
  "}";
  "";
  "key MINUS {";
  "    label:                              '-'";
  "    base:                               '-'";
  "    shift:                              '_'";
  "}";
  "";
  "key EQUALS {";
  "    label:                              '='";
  "    base:                               '='";
  "    shift:                              '+'";
  "}";
  "";
  "key LEFT_BRACKET {";
  "    label:                              '['";
  "    base:                               '['";
  "    shift:                              '{'";
  "}";
  "";
  "key RIGHT_BRACKET {"
].

Definition keymap_lines_3 : list string := [
  "    label:                              ']'";
  "    base:                               ']'";
  "    shift:                              '}'";
  "}";
  "";
  "key BACKSLASH {";
  "    label:                              '\\'";
  "    base:                               '\\'";
  "    shift:                              '|'";
  "}";
  "";
  "key SEMICOLON {";
  "    label:                              ';'";
  "    base:                               ';'";
  "    shift:                              ':'";
  "}";
  "";
  "key APOSTROPHE {";
  "    label:                              '\''";
  "    base:                               '\''";
  (String.append "    shift:                              '" (String "034" "'"));
  "}";
  "";
  "### Numeric keypad ###";
  "";
  "key NUMPAD_0 {";
  "    label:                              '0'";
  "    base:                               fallback INSERT";
  "    numlock:                            '0'";
  "}";
  "";
  "key NUMPAD_1 {";
  "    label:                              '1'";
  "    base:                               fallback MOVE_END";
  "    numlock:                            '1'";
  "}";
  "";
  "key NUMPAD_2 {";
  "    label:                              '2'";
  "    base:                               fallback DPAD_DOWN";
  "    numlock:                            '2'";
  "}";
  "";
  "key NUMPAD_3 {";
  "    label:                              '3'";
  "    base:                               fallback PAGE_DOWN";
  "    numlock:                            '3'";
  "}";
  "";
  "key NUMPAD_4 {";
  "    label:                              '4'";
  "    base:                               fallback DPAD_LEFT";
  "    numlock:                            '4'";
  "}";
  "";
  "key NUMPAD_5 {";
  "    label:                              '5'";
  "    base:                               fallback DPAD_CENTER";
  "    numlock:                            '5'";
  "}";
  "";
  "key NUMPAD_6 {";
  "    label:                              '6'";
  "    base:                               fallback DPAD_RIGHT";
  "    numlock:                            '6'";
  "}";
  "";
  "key NUMPAD_7 {";
  "    label:                              '7'";
  "    base:                               fallback MOVE_HOME";
  "    numlock:                            '7'";
  "}";
  "";
  "key NUMPAD_8 {";
  "    label:                              '8'";
  "    base:                               fallback DPAD_UP";
  "    numlock:                            '8'";
  "}";
  "";
  "key NUMPAD_9 {";
  "    label:                              '9'";
  "    base:                               fallback PAGE_UP";
  "    numlock:                            '9'";
  "}";
  "";
  "key NUMPAD_LEFT_PAREN {";
  "    label:                              '('";
  "    base:                               '('";
  "}";
  "";
  "key NUMPAD_RIGHT_PAREN {";
  "    label:                              ')'";
  "    base:                               ')'";
  "}";
  "";
  "key NUMPAD_DIVIDE {";
  "    label:                              '/'";
  "    base:                               '/'";
  "}";
  "";
  "key NUMPAD_MULTIPLY {";
  "    label:                              '*'";
  "    base:                               '*'";
  "}";
  "";
  "key NUMPAD_SUBTRACT {";
  "    label:                              '-'";
  "    base:                               '-'";
  "}";
  "";
  "key NUMPAD_ADD {";
  "    label:                              '+'";
  "    base:                               '+'";
  "}";
  "";
  "key NUMPAD_DOT {";
  "    label:                              '.'";
  "    base:                               fallback FORWARD_DEL";
  "    numlock:                            '.'";
  "}";
  "";
  "key NUMPAD_COMMA {";
  "    label:                              ','";
  "    base:                               ','";
  "}";
  "";
  "key NUMPAD_EQUALS {";
  "    label:                              '='";
  "    base:                               '='";
  "}";
  "";
  "key NUMPAD_ENTER {";
  "    label:                              '\n'";
  "    base:                               '\n' fallback ENTER";
  "    ctrl, alt, meta:                    none fallback ENTER";
  "}";
  "";
  "### Special keys on phones ###";
  "";
  "key AT {";
  "    label:                              '@'";
  "    base:                               '@'";
  "}";
  "";
  "key STAR {"
].

Definition keymap_lines_4 : list string := [
  "    label:                              '*'";
  "    base:                               '*'";
  "}";
  "";
  "key POUND {";
  "    label:                              '#'";
  "    base:                               '#'";
  "}";
  "";
  "key PLUS {";
  "    label:                              '+'";
  "    base:                               '+'";
  "}";
  "";
  "### Non-printing keys ###";
  "";
  "key ESCAPE {";
  "    base:                               fallback BACK";
  "    alt, meta:                          fallback HOME";
  "    ctrl:                               fallback MENU";
  "}";
  "";
  "### Gamepad buttons ###";
  "";
  "key BUTTON_A {";
  "    base:                               fallback BACK";
  "}";
  "";
  "key BUTTON_B {";
  "    base:                               fallback BACK";
  "}";
  "";
  "key BUTTON_C {";
  "    base:                               fallback BACK";
  "}";
  "";
  "key BUTTON_X {";
  "    base:                               fallback DPAD_CENTER";
  "}";
  "";
  "key BUTTON_Y {";
  "    base:                               fallback DPAD_CENTER";
  "}";
  "";
  "key BUTTON_Z {";
  "    base:                               fallback DPAD_CENTER";
  "}";
  "";
  "key BUTTON_L1 {";
  "    base:                               none";
  "}";
  "";
  "key BUTTON_R1 {";
  "    base:                               none";
  "}";
  "";
  "key BUTTON_L2 {";
  "    base:                               none";
  "}";
  "";
  "key BUTTON_R2 {";
  "    base:                               none";
  "}";
  "";
  "key BUTTON_THUMBL {";
  "    base:                               fallback DPAD_CENTER";
  "}";
  "";
  "key BUTTON_THUMBR {";
  "    base:                               fallback DPAD_CENTER";
  "}";
  "";
  "key BUTTON_START {";
  "    base:                               fallback HOME";
  "}";
  "";
  "key BUTTON_SELECT {";
  "    base:                               fallback MENU";
  "}";
  "";
  "key BUTTON_MODE {";
  "    base:                               fallback MENU";
  "}";
  "";
  "key BUTTON_1 {";
  "    base:                               fallback DPAD_CENTER";
  "}";
  "";
  "key BUTTON_2 {";
  "    base:                               fallback DPAD_CENTER";
  "}";
  "";
  "key BUTTON_3 {";
  "    base:                               fallback DPAD_CENTER";
  "}";
  "";
  "key BUTTON_4 {";
  "    base:                               fallback DPAD_CENTER";
  "}";
  "";
  "key BUTTON_5 {";
  "    base:                               fallback DPAD_CENTER";
  "}";
  "";
  "key BUTTON_6 {";
  "    base:                               fallback DPAD_CENTER";
  "}";
  "";
  "key BUTTON_7 {";
  "    base:                               fallback DPAD_CENTER";
  "}";
  "";
  "key BUTTON_8 {";
  "    base:                               fallback DPAD_CENTER";
  "}";
  "";
  "key BUTTON_9 {";
  "    base:                               fallback DPAD_CENTER";
  "}";
  "";
  "key BUTTON_10 {";
  "    base:                               fallback DPAD_CENTER";
  "}";
  "";
  "key BUTTON_11 {";
  "    base:                               fallback DPAD_CENTER";
  "}";
  "";
  "key BUTTON_12 {";
  "    base:                               fallback DPAD_CENTER";
  "}";
  "";
  "key BUTTON_13 {";
  "    base:                               fallback DPAD_CENTER";
  "}";
  "";
  "key BUTTON_14 {";
  "    base:                               fallback DPAD_CENTER";
  "}";
  "";
  "key BUTTON_15 {";
  "    base:                               fallback DPAD_CENTER";
  "}";
  "";
  "key BUTTON_16 {"
].

Definition keymap_lines_5 : list string := [
  "    base:                               fallback DPAD_CENTER";
  "}"
].

(** Its last line has no newline. *)
Definition keymap_contents : string :=
  let lines := keymap_lines_1 ++ keymap_lines_2 ++ keymap_lines_3 ++ keymap_lines_4 ++ keymap_lines_5 in
  String.append (unlines (removelast lines)) (List.last lines EmptyString).

(** ** What they give *)

Definition generic_layout : KeyLayoutMap := Eval vm_compute in
  match layout_load (fromContents key_layout_contents) with Some (_, Some m) => m | _ => KeyLayoutMap_new end.

Definition generic_characters : KeyCharacterMap := Eval vm_compute in
  match char_load FORMAT_BASE (fromContents keymap_contents) with Some (_, Some m) => m | _ => KeyCharacterMap_new end.

Lemma generic_layout_loads : layout_load (fromContents key_layout_contents) = Some (0, Some generic_layout).
Proof. vm_compute. reflexivity. Qed.

Lemma generic_characters_load : char_load FORMAT_BASE (fromContents keymap_contents) = Some (0, Some generic_characters).
Proof. vm_compute. reflexivity. Qed.

(** ** Typing *)

(** What a program makes of a key event that it receives: the character of a key that
    goes down, modifiers apart. *)
Definition heard (m : KeyCharacterMap) (e : AndroidEvent) : list Z :=
  match ae_details e with
  | AINPUT_EVENT_TYPE_KEY k =>
      if (ak_action k =? AKEY_EVENT_ACTION_DOWN) && negb (isMetaKey (ak_key_code k))
      then [getCharacter m (ak_key_code k) (ak_meta_state k)] else []
  | _ => []
  end.

(** The keys that are down after an event. *)
Definition hold (down : list Z) (e : AndroidEvent) : list Z :=
  match ae_details e with
  | AINPUT_EVENT_TYPE_KEY k =>
      if ak_action k =? AKEY_EVENT_ACTION_DOWN then ak_key_code k :: down
      else List.filter (fun c => negb (c =? ak_key_code k)) down
  | _ => down
  end.

(** An event with another device and time. *)
Definition retag (deviceId now : Z) (e : AndroidEvent) : AndroidEvent :=
  mkAEvent deviceId (ae_source e) match ae_details e with
    | AINPUT_EVENT_TYPE_KEY k => AINPUT_EVENT_TYPE_KEY (mkAKey (ak_action k) (ak_flags k) (ak_meta_state k)
        (ak_key_code k) (ak_scan_code k) (ak_repeat_count k) now now)
    | d => d
    end.

(** What is typed is the same for every device and time, after the events there are. *)
Section Typing.
Context (deviceId now : Z) (pre : list AndroidEvent).

Definition retagged (events : list AndroidEvent) : list AndroidEvent := pre ++ map (retag deviceId now) events.
Definition retag_typing (t : typing) : typing := (retagged (fst t), snd t).

Lemma addKey_retag events keyCode meta down :
  retagged (addKey events 0 keyCode meta down 0) = addKey (retagged events) deviceId keyCode meta down now.
Proof. unfold addKey, retagged. by rewrite map_app, app_assoc. Qed.

Lemma single_retag meta down keyCode keyMeta t :
  addSingleEphemeralMetaKey deviceId meta down now keyCode keyMeta (retag_typing t) =
    let '(b, t') := addSingleEphemeralMetaKey 0 meta down 0 keyCode keyMeta t in (b, retag_typing t').
Proof.
  unfold addSingleEphemeralMetaKey. destruct (_ =? _); [|done]. unfold retag_typing. cbn [fst snd]. by rewrite addKey_retag.
Qed.

Lemma double_retag meta down lk lm rk rm em t :
  addDoubleEphemeralMetaKey deviceId meta down now lk lm rk rm em (retag_typing t) =
    retag_typing (addDoubleEphemeralMetaKey 0 meta down 0 lk lm rk rm em t).
Proof.
  unfold addDoubleEphemeralMetaKey. rewrite single_retag. destruct (addSingleEphemeralMetaKey _ _ _ _ lk lm t) as [b1 t1].
  rewrite single_retag. destruct (addSingleEphemeralMetaKey _ _ _ _ rk rm t1) as [b2 t2].
  destruct (b1 || b2); [done|]. rewrite single_retag. by destruct (addSingleEphemeralMetaKey _ _ _ _ lk em t2).
Qed.

Lemma locked_retag meta keyCode keyMeta t :
  addLockedMetaKey deviceId meta now keyCode keyMeta (retag_typing t) = retag_typing (addLockedMetaKey 0 meta 0 keyCode keyMeta t).
Proof.
  unfold addLockedMetaKey. destruct (_ =? _); [|done]. unfold retag_typing. cbn [fst snd]. by rewrite !addKey_retag.
Qed.

Lemma single_snd_retag meta down keyCode keyMeta t :
  snd (addSingleEphemeralMetaKey deviceId meta down now keyCode keyMeta (retag_typing t)) =
    retag_typing (snd (addSingleEphemeralMetaKey 0 meta down 0 keyCode keyMeta t)).
Proof. rewrite single_retag. by destruct (addSingleEphemeralMetaKey _ _ _ _ _ _ t). Qed.

Lemma addMetaKeys_retag meta down t :
  addMetaKeys deviceId meta down now (retag_typing t) = retag_typing (addMetaKeys 0 meta down 0 t).
Proof.
  unfold addMetaKeys. cbv zeta. destruct down;
    by rewrite ?locked_retag, ?single_snd_retag, ?double_retag, ?single_snd_retag, ?locked_retag.
Qed.

Lemma type_key_retag keyCode meta :
  type_key deviceId now keyCode meta pre = retag_typing (type_key 0 0 keyCode meta []).
Proof.
  unfold type_key. replace (pre, 0) with (retag_typing ([], 0)) by (unfold retag_typing, retagged; cbn; by rewrite app_nil_r).
  rewrite addMetaKeys_retag. destruct (addMetaKeys 0 meta true 0 ([], 0)) as [es c]. unfold retag_typing at 1. cbn [fst snd].
  rewrite <- !addKey_retag. set (es' := addKey (addKey es 0 keyCode c true 0) 0 keyCode c false 0).
  change (retagged es', c) with (retag_typing (es', c)). by rewrite addMetaKeys_retag.
Qed.

End Typing.

Lemma heard_retag m d n e : heard m (retag d n e) = heard m e.
Proof. by destruct e as [? ? []]. Qed.

Lemma hold_retag d n down es : fold_left hold (map (retag d n) es) down = fold_left hold es down.
Proof. revert down. induction es as [|[? ? []] es IH]; intros down; cbn; [done|apply IH..]. Qed.

(** A character that a map can type: its key events are heard as the character, and at
    the end no key is down. *)
Definition types (m : KeyCharacterMap) (ch : Z) : bool :=
  match findKey m ch with
  | Some (keyCode, metaState) =>
      let events := fst (type_key 0 0 keyCode metaState []) in
      bool_decide (flat_map (heard m) events = [ch]) && bool_decide (fold_left hold events [] = [])
  | None => false
  end.

Lemma getEvents_types m deviceId now chars pre :
  Forall (fun ch => types m ch = true) chars ->
  exists events, getEvents m deviceId now chars pre = (true, pre ++ events) /\
    flat_map (heard m) events = chars /\ fold_left hold events [] = [].
Proof.
  intros H. revert pre. induction H as [|ch chars Hch _ IH]; intros pre; [exists []; cbn; by rewrite app_nil_r|].
  unfold types in Hch. cbn [getEvents]. destruct (findKey m ch) as [[keyCode meta]|]; [|done]. cbv zeta in Hch.
  apply andb_true_iff in Hch as [H1 H2]. apply bool_decide_eq_true in H1, H2.
  rewrite type_key_retag. unfold retag_typing, retagged. cbn [fst].
  set (es := fst (type_key 0 0 keyCode meta [])) in *.
  destruct (IH (pre ++ map (retag deviceId now) es)) as (events & -> & Hh & Hd).
  exists (map (retag deviceId now) es ++ events). rewrite app_assoc, flat_map_app, fold_left_app, hold_retag, H2, Hd, Hh.
  split; [done|]. split; [|done]. change (ch :: chars) with ([ch] ++ chars). f_equal. rewrite <- H1.
  clear. induction es as [|e es IH]; [done|]. cbn. by rewrite heard_retag, IH.
Qed.

Definition printable (ch : Z) : Prop := 32 <= ch <= 126 \/ ch = 9 \/ ch = 10.

Lemma generic_types ch : printable ch -> types generic_characters ch = true.
Proof.
  intros Hp. assert (forallb (fun n => types generic_characters (Z.of_nat n)) (9%nat :: 10%nat :: seq 32 95) = true) as H
    by (vm_compute; reflexivity).
  rewrite forallb_forall in H. specialize (H (Z.to_nat ch)). rewrite Z2Nat.id in H by (destruct Hp as [|[|]]; lia).
  apply H. destruct Hp as [Hp|[->| ->]]; [|by left|by right; left]. right; right. apply in_seq. lia.
Qed.

(** C24: the maps that every device without maps of its own gets are accepted, and with
    them every text of printable characters, tabs and newlines can be typed: [getEvents]
    finds every character, a program that receives its key events hears exactly the
    text, and every key that was pressed, modifiers included, has been released. *)
Theorem generic_map_types_text (deviceId now : Z) (text : list Z) :
  Forall printable text ->
  exists layout m events,
    layout_load (fromContents key_layout_contents) = Some (0, Some layout) /\
    char_load FORMAT_BASE (fromContents keymap_contents) = Some (0, Some m) /\
    getEvents m deviceId now text [] = (true, events) /\
    flat_map (heard m) events = text /\ fold_left hold events [] = [].
Proof.
  intros Ht. destruct (getEvents_types generic_characters deviceId now text []) as (events & E & Hh & Hd).
  { eapply Forall_impl; [exact Ht|]. apply generic_types. }
  exists generic_layout, generic_characters, events.
  split; [apply generic_layout_loads|]. split; [apply generic_characters_load|]. done.
Qed.

Lemma generic_map_types_text_witness :
  Forall printable [77; 105; 114; 33] /\ exists events,
    getEvents generic_characters 1 100 [77; 105; 114; 33] [] = (true, events) /\ flat_map (heard generic_characters) events = [77; 105; 114; 33].
Proof.
  assert (Forall printable [77; 105; 114; 33]) as H by (repeat constructor; lia).
  split; [exact H|]. destruct (generic_map_types_text 1 100 _ H) as (layout & m & events & _ & Hm & He & Hh & _).
  rewrite generic_characters_load in Hm. injection Hm as <-. by exists events.
Defined.
