(* ===== verification/KeyMaps.v ===== *)
(** * The key maps of a device

    [InputDevice.cpp]: the files that configure an input device, and [KeyMap] of
    [Keyboard.cpp]: which key layout and which character map a device gets.  The files
    and [PropertyMap::load], which calls boost, are an interface.  A device that asks for
    its maps has both in the end ([loadKeyMap_complete]), because the generic maps can be
    loaded. *)

From Stdlib Require Import Ascii.
From S2P Require Import Prelude AndroidEvents ReaderData KeyText KeyLayout KeyCharacters GenericMaps.

(** ** Devices and files *)

Record InputDeviceIdentifier : Set := mkIdentifier {
  id_name : string;
  id_location : string;
  id_uniqueId : string;
  id_bus : Z;
  id_vendor : Z;
  id_product : Z;
  id_version : Z;
  id_descriptor : string;
}.

Definition InputDeviceIdentifier_new : InputDeviceIdentifier := mkIdentifier "" "" "" 0 0 0 0 "".

Class ConfigFiles (K : Type) : Type := {
  getenv : string -> K -> option string;
  (** [access(path, R_OK)] is 0. *)
  readable : string -> K -> bool;
  (** [Tokenizer::open]: the [errno] of a failure, or the bytes of the file. *)
  file_contents : string -> K -> positive + string;
  (** [PropertyMap::load]; nothing when it is BAD_VALUE. *)
  load_properties : string -> K -> option PropertyMap;
}.

Inductive InputDeviceConfigurationFileType : Set :=
| FILE_TYPE_CONFIGURATION | FILE_TYPE_KEY_LAYOUT | FILE_TYPE_KEY_CHARACTER_MAP.

Definition CONFIGURATION_FILE_DIR (type : InputDeviceConfigurationFileType) : string :=
  match type with FILE_TYPE_CONFIGURATION => "idc/" | FILE_TYPE_KEY_LAYOUT => "keylayout/" | FILE_TYPE_KEY_CHARACTER_MAP => "keychars/" end.

Definition CONFIGURATION_FILE_EXTENSION (type : InputDeviceConfigurationFileType) : string :=
  match type with FILE_TYPE_CONFIGURATION => ".idc" | FILE_TYPE_KEY_LAYOUT => ".kl" | FILE_TYPE_KEY_CHARACTER_MAP => ".kcm" end.

Definition isValidNameChar (ch : ascii) : bool :=
  let n := code_of ch in
  ((48 <=? n) && (n <=? 57)) || ((65 <=? n) && (n <=? 90)) || ((97 <=? n) && (n <=? 122)) || (ch =? "-")%char || (ch =? "_")%char.

Fixpoint valid_name (name : string) : string :=
  match name with
  | EmptyString => EmptyString
  | String ch s => String (if isValidNameChar ch then ch else "_"%char) (valid_name s)
  end.

Definition appendInputDeviceConfigurationFileRelativePath (path name : string) (type : InputDeviceConfigurationFileType) : string :=
  String.append (String.append path (CONFIGURATION_FILE_DIR type)) (String.append (valid_name name) (CONFIGURATION_FILE_EXTENSION type)).

(** The format [%04x]: at least four digits. *)
Definition hex_char (d : Z) : ascii := if d <? 10 then digit_char d else ascii_of_nat (Z.to_nat (87 + d)).

Definition hex4 (z : Z) : string :=
  String (hex_char (z / 4096 mod 16)) (String (hex_char (z / 256 mod 16)) (String (hex_char (z / 16 mod 16)) (String (hex_char (z mod 16)) ""))).

(** ** Maps *)

Record KeyMap : Set := mkKeyMap {
  keyLayoutFile : string;
  keyLayoutMap : option KeyLayoutMap;
  keyCharacterMapFile : string;
  keyCharacterMap : option KeyCharacterMap;
}.

Definition KeyMap_new : KeyMap := mkKeyMap "" None "" None.

Definition isEmpty (s : string) : bool := String.eqb s "".
Definition haveKeyLayout (m : KeyMap) : bool := negb (isEmpty (keyLayoutFile m)).
Definition haveKeyCharacterMap (m : KeyMap) : bool := negb (isEmpty (keyCharacterMapFile m)).
Definition isComplete (m : KeyMap) : bool := haveKeyLayout m && haveKeyCharacterMap m.

Definition set_layout (l : option KeyLayoutMap) (m : KeyMap) : KeyMap :=
  mkKeyMap (keyLayoutFile m) l (keyCharacterMapFile m) (keyCharacterMap m).
Definition set_characters (c : option KeyCharacterMap) (m : KeyMap) : KeyMap :=
  mkKeyMap (keyLayoutFile m) (keyLayoutMap m) (keyCharacterMapFile m) c.

Section Files.
Context {K : Type} `{ConfigFiles K} (k : K).

(** The empty string when there is no file. *)
Definition getInputDeviceConfigurationFilePathByName (name : string) (type : InputDeviceConfigurationFileType) : string :=
  let system := appendInputDeviceConfigurationFileRelativePath
    (String.append (default "" (getenv "ANDROID_ROOT" k)) "/usr/") name type in
  if readable system k then system
  else
    let user := appendInputDeviceConfigurationFileRelativePath
      (String.append (default "" (getenv "ANDROID_DATA" k)) "/system/devices/") name type in
    if readable user k then user else "".

Definition getInputDeviceConfigurationFilePathByDeviceIdentifier
    (d : InputDeviceIdentifier) (type : InputDeviceConfigurationFileType) : string :=
  let product := String.append "Vendor_" (String.append (hex4 (id_vendor d)) (String.append "_Product_" (hex4 (id_product d)))) in
  let by_name := getInputDeviceConfigurationFilePathByName (id_name d) type in
  if negb (id_vendor d =? 0) && negb (id_product d =? 0) then
    let versionPath :=
      if negb (id_version d =? 0) then
        getInputDeviceConfigurationFilePathByName (String.append product (String.append "_Version_" (hex4 (id_version d)))) type
      else "" in
    if negb (isEmpty versionPath) then versionPath
    else
      let productPath := getInputDeviceConfigurationFilePathByName product type in
      if negb (isEmpty productPath) then productPath else by_name
  else by_name.

Definition getPath (d : InputDeviceIdentifier) (name : string) (type : InputDeviceConfigurationFileType) : string :=
  if isEmpty name then getInputDeviceConfigurationFilePathByDeviceIdentifier d type
  else getInputDeviceConfigurationFilePathByName name type.

(** [KeyLayoutMap::load] on a tokenizer, into the map's field. *)
Definition load_layout (t : Tokenizer) : M KeyMap Z :=
  match layout_load t with
  | Some (status, l) => modify (set_layout l) ;; mret status
  | None => wait
  end.

Definition load_characters (format : Format) (t : Tokenizer) : M KeyMap Z :=
  match char_load format t with
  | Some (status, c) => modify (set_characters c) ;; mret status
  | None => wait
  end.

Definition loadKeyLayout (d : InputDeviceIdentifier) (name : string) : M KeyMap Z :=
  let path := getPath d name FILE_TYPE_KEY_LAYOUT in
  if isEmpty path then mret NAME_NOT_FOUND
  else
    modify (set_layout None) ;;
    status ← match file_contents path k with inl errno => mret (Zneg errno) | inr text => load_layout (fromFile text) end ;
    if negb (status =? 0) then mret status
    else modify (fun m => mkKeyMap path (keyLayoutMap m) (keyCharacterMapFile m) (keyCharacterMap m)) ;; mret 0.

Definition loadKeyCharacterMap (d : InputDeviceIdentifier) (name : string) : M KeyMap Z :=
  let path := getPath d name FILE_TYPE_KEY_CHARACTER_MAP in
  if isEmpty path then mret NAME_NOT_FOUND
  else
    modify (set_characters None) ;;
    status ← match file_contents path k with inl errno => mret (Zneg errno) | inr text => load_characters FORMAT_BASE (fromFile text) end ;
    if negb (status =? 0) then mret status
    else modify (fun m => mkKeyMap (keyLayoutFile m) (keyLayoutMap m) path (keyCharacterMap m)) ;; mret 0.

Definition probeKeyMap (d : InputDeviceIdentifier) (keyMapName : string) : M KeyMap bool :=
  m ← get ;
  (if haveKeyLayout m then mret tt else loadKeyLayout d keyMapName ;; mret tt) ;;
  m ← get ;
  (if haveKeyCharacterMap m then mret tt else loadKeyCharacterMap d keyMapName ;; mret tt) ;;
  gets isComplete.

(** The maps that the configuration names. *)
Definition load_configured (d : InputDeviceIdentifier) (c : PropertyMap) : M KeyMap unit :=
  match prop_string c "keyboard.layout" with
  | Some keyLayoutName => loadKeyLayout d keyLayoutName ;; mret tt
  | None => mret tt
  end ;;
  match prop_string c "keyboard.characterMap" with
  | Some keyCharacterMapName => loadKeyCharacterMap d keyCharacterMapName ;; mret tt
  | None => mret tt
  end.

(** [KeyMap::load] after the configuration. *)
Definition probe_all (d : InputDeviceIdentifier) : M KeyMap Z :=
  found ← probeKeyMap d "" ;
  if (found : bool) then mret 0
  else
    found ← probeKeyMap d "Generic" ;
    if (found : bool) then mret 0
    else
      found ← probeKeyMap d "Virtual" ;
      mret (if (found : bool) then 0 else NAME_NOT_FOUND).

Definition KeyMap_load (d : InputDeviceIdentifier) (deviceConfiguration : option PropertyMap) : M KeyMap Z :=
  match deviceConfiguration with
  | Some c =>
      load_configured d c ;;
      complete ← gets isComplete ;
      if (complete : bool) then mret 0 else probe_all d
  | None => probe_all d
  end.

Definition loadGenericMaps : M KeyMap Z :=
  modify (fun m => mkKeyMap "Generic.kl" (keyLayoutMap m) "Generic.kcm" None) ;;
  status ← load_characters FORMAT_BASE (fromContents keymap_contents) ;
  if negb (status =? 0) then mret status
  else modify (set_layout None) ;; load_layout (fromContents key_layout_contents).

(** [EventHub::loadKeyMapLocked]. *)
Definition loadKeyMapLocked (d : InputDeviceIdentifier) (deviceConfiguration : option PropertyMap) : M KeyMap Z :=
  status ← KeyMap_load d deviceConfiguration ;
  if negb (status =? 0) then loadGenericMaps else mret status.

End Files.

(** [strstr(name, "-keypad")]. *)
Fixpoint contains (needle s : string) : bool :=
  String.prefix needle s || match s with EmptyString => false | String _ s' => contains needle s' end.

(** The character map is dereferenced when there is a file for it. *)
Definition isEligibleBuiltInKeyboard (d : InputDeviceIdentifier) (c : option PropertyMap) (m : KeyMap) : option bool :=
  if negb (haveKeyCharacterMap m) then Some false
  else
    match keyCharacterMap m with
    | None => None
    | Some chars =>
        if getKeyboardType chars =? KEYBOARD_TYPE_SPECIAL_FUNCTION then Some false
        else if match c with Some p => bool_decide (prop_bool p "keyboard.builtIn" = Some true) | None => false end then Some true
        else Some (contains "-keypad" (id_name d))
    end.

(** ** What a device gets *)

(** A file is named only for a map that is there. *)
Definition maps_ok (m : KeyMap) : Prop :=
  (haveKeyLayout m = true -> exists l, keyLayoutMap m = Some l /\ layout_ok l) /\
  (haveKeyCharacterMap m = true -> exists c, keyCharacterMap m = Some c /\ char_map_ok c).

Section Loading.
Context {K : Type} `{ConfigFiles K} (k : K).
Implicit Types m : KeyMap.

(** Calls that return, from maps with [P] to maps with [Q]. *)
Definition loads {A} (x : M KeyMap A) (P : KeyMap -> Prop) (Q : A -> KeyMap -> Prop) : Prop :=
  forall m, P m -> exists a m', x m = Ret a m' /\ Q a m'.

Lemma loads_bind {A B} (x : M KeyMap A) (f : A -> M KeyMap B) P Q R :
  loads x P Q -> (forall a, loads (f a) (Q a) R) -> loads (x ≫= f) P R.
Proof.
  intros Hx Hf m Hm. destruct (Hx m Hm) as (a & m' & Ha & Hm'). destruct (Hf a m' Hm') as (b & m2 & Hb & Hm2).
  exists b, m2. split; [|done]. by rewrite (bind_run _ _ _ _ _ Ha).
Qed.

Lemma loads_ret {A} (a : A) (P : KeyMap -> Prop) (Q : A -> KeyMap -> Prop) : (forall m, P m -> Q a m) -> loads (mret a) P Q.
Proof. intros HQ m Hm. exists a, m. split; [done|by apply HQ]. Qed.

Lemma loads_layout t P :
  loads (load_layout t) P (fun status m' => exists m l, P m /\ m' = set_layout l m /\
    (status = 0 -> exists x, l = Some x /\ layout_ok x)).
Proof.
  intros m Hm. unfold load_layout. destruct (layout_loads t) as (status & l & -> & Hl).
  exists status, (set_layout l m). split; [done|]. exists m, l. split; [done|]. split; [done|].
  intros ->. destruct Hl as [(_ & Hl)|(? & _)]; [exact Hl|done].
Qed.

Lemma loads_characters format t P :
  loads (load_characters format t) P (fun status m' => exists m c, P m /\ m' = set_characters c m /\
    (status = 0 -> exists x, c = Some x /\ char_map_ok x)).
Proof.
  intros m Hm. unfold load_characters. destruct (char_loads format t) as (status & c & -> & Hc).
  exists status, (set_characters c m). split; [done|]. exists m, c. split; [done|]. split; [done|].
  intros ->. destruct Hc as [(_ & Hc)|(? & _)]; [exact Hc|done].
Qed.

Lemma loads_mono {A} (x : M KeyMap A) (P P' : KeyMap -> Prop) (Q Q' : A -> KeyMap -> Prop) :
  loads x P Q -> (forall m, P' m -> P m) -> (forall a m, Q a m -> Q' a m) -> loads x P' Q'.
Proof. intros Hx HP HQ m Hm. destruct (Hx m (HP m Hm)) as (a & m' & Ha & Hm'). exists a, m'. split; [done|by apply HQ]. Qed.

Definition no_layout m : Prop := maps_ok m /\ haveKeyLayout m = false.
Definition no_characters m : Prop := maps_ok m /\ haveKeyCharacterMap m = false.

Lemma set_layout_none m l : no_layout m -> no_layout (set_layout l m).
Proof.
  intros [[_ Hc] Hl]. split; [|exact Hl]. split; [|exact Hc]. intros Hl'.
  change (haveKeyLayout m = true) in Hl'. congruence.
Qed.

Lemma set_characters_none m c : no_characters m -> no_characters (set_characters c m).
Proof.
  intros [[Hl _] Hc]. split; [|exact Hc]. split; [exact Hl|]. intros Hc'.
  change (haveKeyCharacterMap m = true) in Hc'. congruence.
Qed.

Lemma loads_loadKeyLayout d name : loads (loadKeyLayout k d name) no_layout (fun _ m => maps_ok m).
Proof.
  unfold loadKeyLayout. cbv zeta. destruct (isEmpty _) eqn:Ep; [by apply loads_ret; intros m []|].
  apply (loads_bind _ _ _ (fun _ m => no_layout m)).
  { intros m Hm. exists tt, (set_layout None m). split; [done|by apply set_layout_none]. }
  intros _. apply (loads_bind _ _ _ (fun status m => no_layout m /\ (status = 0 -> exists l, keyLayoutMap m = Some l /\ layout_ok l))).
  { destruct (file_contents _ k) as [errno|text]; [by apply loads_ret; intros m Hm; split|].
    eapply loads_mono; [apply (loads_layout _ no_layout)|done|]. intros status m' (m & l & Hm & -> & Hl).
    split; [by apply set_layout_none|exact Hl]. }
  intros status. destruct (Z.eqb_spec status 0) as [->|Hs]; cbn [negb]; [|by apply loads_ret; intros m [[] _]].
  intros m [[[_ Hc] _] Hl]. eexists _, _. split; [done|]. split; [intros _; by apply Hl|exact Hc].
Qed.

Lemma loads_loadKeyCharacterMap d name : loads (loadKeyCharacterMap k d name) no_characters (fun _ m => maps_ok m).
Proof.
  unfold loadKeyCharacterMap. cbv zeta. destruct (isEmpty _) eqn:Ep; [by apply loads_ret; intros m []|].
  apply (loads_bind _ _ _ (fun _ m => no_characters m)).
  { intros m Hm. exists tt, (set_characters None m). split; [done|by apply set_characters_none]. }
  intros _. apply (loads_bind _ _ _ (fun status m => no_characters m /\
    (status = 0 -> exists c, keyCharacterMap m = Some c /\ char_map_ok c))).
  { destruct (file_contents _ k) as [errno|text]; [by apply loads_ret; intros m Hm; split|].
    eapply loads_mono; [apply (loads_characters _ _ no_characters)|done|]. intros status m' (m & c & Hm & -> & Hc).
    split; [by apply set_characters_none|exact Hc]. }
  intros status. destruct (Z.eqb_spec status 0) as [->|Hs]; cbn [negb]; [|by apply loads_ret; intros m [[] _]].
  intros m [[[Hl _] _] Hc]. eexists _, _. split; [done|]. split; [exact Hl|intros _; by apply Hc].
Qed.

(** A load that is made only when there is no map yet. *)
Lemma loads_unless (have : KeyMap -> bool) (x : M KeyMap Z) {A} (f : M KeyMap A) Q :
  loads x (fun m => maps_ok m /\ have m = false) (fun _ m => maps_ok m) -> loads f maps_ok Q ->
  loads (m ← get ; (if have m then mret tt else x ;; mret tt) ;; f) maps_ok Q.
Proof.
  intros Hx Hf m Hm. rewrite (bind_run _ _ _ _ _ (eq_refl : get m = Ret m m)).
  destruct (have m) eqn:E; [by apply Hf|]. destruct (Hx m (conj Hm E)) as (a & m' & Ha & Hm').
  destruct (Hf m' Hm') as (b & m2 & Hb & Hm2). exists b, m2. split; [|done].
  unfold mbind at 1, M_bind at 1. rewrite (bind_run _ _ _ _ _ Ha). done.
Qed.

Lemma loads_probe d name : loads (probeKeyMap k d name) maps_ok (fun b m => maps_ok m /\ b = isComplete m).
Proof.
  unfold probeKeyMap. apply loads_unless; [apply loads_loadKeyLayout|].
  apply loads_unless; [apply loads_loadKeyCharacterMap|]. intros m Hm. by exists (isComplete m), m.
Qed.

Lemma loads_probe_all d : loads (probe_all k d) maps_ok (fun status m => maps_ok m /\ (status = 0 -> isComplete m = true)).
Proof.
  unfold probe_all.
  apply (loads_bind _ _ _ (fun b m => maps_ok m /\ b = isComplete m)); [apply loads_probe|].
  intros [|]; [apply loads_ret; by intros m [? ?]|].
  apply (loads_bind _ _ _ (fun b m => maps_ok m /\ b = isComplete m)); [eapply loads_mono; [apply loads_probe|by intros m []|done]|].
  intros [|]; [apply loads_ret; by intros m [? ?]|].
  apply (loads_bind _ _ _ (fun b m => maps_ok m /\ b = isComplete m)); [eapply loads_mono; [apply loads_probe|by intros m []|done]|].
  intros [|]; apply loads_ret; by intros m [? ?].
Qed.

(** A map that a configuration names, for a device that has none yet. *)
Lemma loads_configured d c : loads (load_configured k d c) (eq KeyMap_new) (fun _ m => maps_ok m).
Proof.
  unfold load_configured.
  assert (no_layout KeyMap_new /\ no_characters KeyMap_new) as [Hl0 Hc0] by by repeat split.
  assert (forall name, loads (loadKeyLayout k d name ;; mret tt) (eq KeyMap_new) (fun _ m => no_characters m)) as Hlayout.
  { intros name m <-. unfold loadKeyLayout. cbv zeta.
    destruct (isEmpty _); [by exists tt, KeyMap_new|]. destruct (file_contents _ k) as [errno|text]; [by eexists tt, _|].
    unfold load_layout. destruct (layout_loads (fromFile text)) as (status & l & -> & Hl).
    unfold mbind, M_bind, modify, mret, M_ret. cbn. destruct Hl as [(-> & x & -> & Hx)|(-> & ->)]; cbn.
    - eexists tt, _. split; [done|]. split; [split; [intros _; by exists x|done]|done].
    - by eexists tt, _. }
  assert (forall P, (forall m, P m -> no_characters m) -> loads (match prop_string c "keyboard.characterMap" with
    | Some name => loadKeyCharacterMap k d name ;; mret tt | None => mret tt end) P (fun _ m => maps_ok m)) as Hchars.
  { intros P HP. destruct (prop_string c "keyboard.characterMap") as [name|].
    - apply (loads_bind _ _ _ (fun _ m => maps_ok m)); [|intros _; by apply loads_ret].
      eapply loads_mono; [apply loads_loadKeyCharacterMap|exact HP|done].
    - apply loads_ret. intros m Hm. apply HP, Hm. }
  destruct (prop_string c "keyboard.layout") as [name|].
  - apply (loads_bind _ _ _ (fun _ m => no_characters m)); [apply Hlayout|]. intros _. by apply Hchars.
  - apply (loads_bind _ _ _ (fun _ m => KeyMap_new = m)); [by apply loads_ret|]. intros _. apply Hchars. by intros m <-.
Qed.

Lemma loads_KeyMap d c :
  loads (KeyMap_load k d c) (eq KeyMap_new) (fun status m => maps_ok m /\ (status = 0 -> isComplete m = true)).
Proof.
  unfold KeyMap_load. destruct c as [c|].
  - apply (loads_bind _ _ _ (fun _ m => maps_ok m)); [apply loads_configured|]. intros _ m Hm.
    rewrite (bind_run _ _ _ _ _ (eq_refl : gets isComplete m = Ret (isComplete m) m)).
    destruct (isComplete m) eqn:E; [by exists 0, m|]. by apply loads_probe_all.
  - eapply loads_mono; [apply loads_probe_all| |done]. by intros m <-.
Qed.

(** The generic maps complete what is missing. *)
Lemma loadKeyMap_complete d c :
  loads (loadKeyMapLocked k d c) (eq KeyMap_new) (fun status m => status = 0 /\ isComplete m = true /\ maps_ok m).
Proof.
  unfold loadKeyMapLocked. apply (loads_bind _ _ _ (fun status m => maps_ok m /\ (status = 0 -> isComplete m = true))); [apply loads_KeyMap|].
  intros status. destruct (Z.eqb_spec status 0) as [->|Hs]; cbn [negb].
  - apply loads_ret. intros m [Hm Hc]. split; [done|]. split; [by apply Hc|done].
  - intros m _. unfold loadGenericMaps, load_characters, load_layout. rewrite generic_characters_load, generic_layout_loads.
    eexists 0, _. split; [done|]. split; [done|]. split; [done|].
    destruct (layout_loads (fromContents key_layout_contents)) as (? & ? & El & Hl). rewrite generic_layout_loads in El. injection El as <- <-.
    destruct (char_loads FORMAT_BASE (fromContents keymap_contents)) as (? & ? & Ec & Hc). rewrite generic_characters_load in Ec. injection Ec as <- <-.
    destruct Hl as [(_ & l & [= <-] & Hl)|(? & ?)]; [|done]. destruct Hc as [(_ & x & [= <-] & Hx)|(? & ?)]; [|done].
    split; intros _; by eexists.
Qed.

End Loading.
