(* ===== verification/InputHub.v ===== *)
(** * The event hub: its data and devices

    [EventHub.h] and [EventHub.cpp]: the devices under [/dev/input], how they are opened,
    classified and closed, and what can be asked of them.  [HubEvents] has the stream of
    events.  The kernel is an interface.  A device in the list of those that are opening
    is one of [mDevices]; a device in the list of those that are closing is no longer.
    The wake locks and the log are left out. *)

From Stdlib Require Import Ascii.
From S2P Require Import Prelude AndroidEvents InputTransport DispatchLoop ReaderData KeyText KeyLayout KeyCharacters GenericMaps KeyMaps.

(** ** Constants *)

Definition VIRTUAL_KEYBOARD_ID : Z := -1.
Definition BUILT_IN_KEYBOARD_ID : Z := 0.
Definition NO_BUILT_IN_KEYBOARD : Z := -2.
Definition DEVICE_PATH : string := "/dev/input".

Definition KEY_MAX : Z := 767.
Definition ABS_MAX : Z := 63.
Definition REL_MAX : Z := 15.
Definition SW_MAX : Z := 15.
Definition LED_MAX : Z := 15.
Definition FF_MAX : Z := 127.
Definition INPUT_PROP_MAX : Z := 31.
Definition FF_RUMBLE : Z := 80.
Definition BTN_TOUCH : Z := 330.
Definition ABS_X : Z := 0.
Definition ABS_Y : Z := 1.
Definition ABS_MT_POSITION_X : Z := 53.
Definition ABS_MT_POSITION_Y : Z := 54.
Definition BUS_USB : Z := 3.
Definition BUS_BLUETOOTH : Z := 5.
Definition EV_LED : Z := 17.
Definition EV_FF : Z := 21.
Definition AKEYCODE_Q : Z := 45.
Definition AKEYCODE_DPAD_CENTER : Z := 23.
Definition AKEYCODE_BUTTON_A : Z := 96.
Definition AKEYCODE_BUTTON_1 : Z := 188.

(** ** The kernel *)

Record input_id : Set := mkInputId { ii_bustype : Z; ii_vendor : Z; ii_product : Z; ii_version : Z }.
Record input_event : Set := mkInput { ie_type : Z; ie_code : Z; ie_value : Z }.
Record input_absinfo : Set := mkAbsinfo {
  ab_value : Z; ab_minimum : Z; ab_maximum : Z; ab_fuzz : Z; ab_flat : Z; ab_resolution : Z }.

(** The whole events that [read] returned and the bytes after them, or [errno]. *)
Inductive read_result : Set := Read_events (l : list input_event) (extra : Z) | Read_error (errno : Z).

Record epoll_event : Set := mkEpoll { ep_events : Z; ep_data : Z }.

(** A name of length zero stands for a record without one. *)
Record inotify_event : Set := mkInotify { in_mask : Z; in_name : string }.

Inductive bit_kind : Set := Bits_key | Bits_abs | Bits_rel | Bits_sw | Bits_led | Bits_ff | Bits_prop.

Class InputKernel (K : Type) : Type := {
  (** The descriptors of the hub itself: epoll, inotify on [DEVICE_PATH], the wake pipe. *)
  k_setup : K -> bool * K;
  k_teardown : K -> K;
  k_open : string -> K -> option Z * K;
  k_close : Z -> K -> K;
  k_name : Z -> K -> option string;
  k_phys : Z -> K -> option string;
  k_uniq : Z -> K -> option string;
  k_version : Z -> K -> bool;
  k_id : Z -> K -> option input_id;
  k_nonblock : Z -> K -> bool * K;
  (** The bytes of a bit map, lowest first. *)
  k_bits : Z -> bit_kind -> K -> list Z;
  (** The keys and switches that are on, and an axis; nothing or [errno] on failure. *)
  k_keyState : Z -> K -> option (list Z);
  k_swState : Z -> K -> option (list Z);
  k_absinfo : Z -> Z -> K -> Z + input_absinfo;
  k_epoll_add : Z -> Z -> K -> bool * K;
  k_epoll_del : Z -> K -> K;
  (** [EVIOCSSUSPENDBLOCK] and [EVIOCSCLOCKID]. *)
  k_use_clock : Z -> K -> K;
  k_read : Z -> nat -> K -> read_result * K;
  k_inotify : K -> option (list inotify_event) * K;
  k_readdir : string -> K -> option (list string);
  k_write : Z -> input_event -> K -> bool * K;
  (** [EVIOCSFF]: the identifier of the effect. *)
  k_upload : Z -> Z -> Z -> K -> option Z * K;
  (** The wake pipe: the bytes in it, a read of up to 16 of them, a write of one. *)
  k_pipe_level : K -> nat;
  k_pipe_read : K -> (Z + nat) * K;
  k_pipe_write : K -> K;
  k_epoll_wait : Z -> K -> (Z + list epoll_event) * K;
  k_now : K -> Z * K;
}.

(** ** Bit maps *)

Definition sizeof_bit_array (bits : Z) : nat := Z.to_nat ((bits + 7) / 8).

(** A bit inside the array. *)
Definition test_bit (bit : Z) (array : list Z) : bool := Z.testbit (nth (Z.to_nat (bit / 8)) array 0) (bit mod 8).

Definition containsNonZeroByte (array : list Z) (startIndex endIndex : nat) : bool :=
  existsb (fun b => negb (b =? 0)) (take (endIndex - startIndex) (drop startIndex array)).

(** An array of zeros into which an ioctl of its size has copied. *)
Definition fill_array (size : nat) (bits : list Z) : list Z := take size (bits ++ replicate size 0).

(** ** Devices *)

Record Device : Type := mkHubDevice {
  hd_fd : Z;
  hd_id : Z;
  hd_path : string;
  hd_identifier : InputDeviceIdentifier;
  hd_classes : Z;
  keyBitmask : list Z;
  absBitmask : list Z;
  relBitmask : list Z;
  swBitmask : list Z;
  ledBitmask : list Z;
  ffBitmask : list Z;
  propBitmask : list Z;
  configurationFile : string;
  hd_configuration : option PropertyMap;
  hd_virtualKeyMap : option (list VirtualKeyDefinition);
  hd_keyMap : KeyMap;
  overlayKeyMap : option KeyCharacterMap;
  combinedKeyMap : option KeyCharacterMap;
  ffEffectPlaying : bool;
  ffEffectId : Z;
}.

Definition zeros (bits : Z) : list Z := replicate (Z.to_nat (bits / 8)) 0.

Definition Device_new (fd id : Z) (path : string) (identifier : InputDeviceIdentifier) : Device :=
  mkHubDevice fd id path identifier 0 (zeros (KEY_MAX + 1)) (zeros (ABS_MAX + 1)) (zeros (REL_MAX + 1)) (zeros (SW_MAX + 1))
    (zeros (LED_MAX + 1)) (zeros (FF_MAX + 1)) (zeros (INPUT_PROP_MAX + 1)) "" None None KeyMap_new None None false (-1).

Definition set_fd (fd : Z) (d : Device) : Device :=
  mkHubDevice fd (hd_id d) (hd_path d) (hd_identifier d) (hd_classes d) (keyBitmask d) (absBitmask d) (relBitmask d)
    (swBitmask d) (ledBitmask d) (ffBitmask d) (propBitmask d) (configurationFile d) (hd_configuration d)
    (hd_virtualKeyMap d) (hd_keyMap d) (overlayKeyMap d) (combinedKeyMap d) (ffEffectPlaying d) (ffEffectId d).
Definition set_classes (classes : Z) (d : Device) : Device :=
  mkHubDevice (hd_fd d) (hd_id d) (hd_path d) (hd_identifier d) classes (keyBitmask d) (absBitmask d) (relBitmask d)
    (swBitmask d) (ledBitmask d) (ffBitmask d) (propBitmask d) (configurationFile d) (hd_configuration d)
    (hd_virtualKeyMap d) (hd_keyMap d) (overlayKeyMap d) (combinedKeyMap d) (ffEffectPlaying d) (ffEffectId d).
Definition set_configuration (file : string) (c : option PropertyMap) (d : Device) : Device :=
  mkHubDevice (hd_fd d) (hd_id d) (hd_path d) (hd_identifier d) (hd_classes d) (keyBitmask d) (absBitmask d) (relBitmask d)
    (swBitmask d) (ledBitmask d) (ffBitmask d) (propBitmask d) file c
    (hd_virtualKeyMap d) (hd_keyMap d) (overlayKeyMap d) (combinedKeyMap d) (ffEffectPlaying d) (ffEffectId d).
Definition set_virtualKeyMap (v : option (list VirtualKeyDefinition)) (d : Device) : Device :=
  mkHubDevice (hd_fd d) (hd_id d) (hd_path d) (hd_identifier d) (hd_classes d) (keyBitmask d) (absBitmask d) (relBitmask d)
    (swBitmask d) (ledBitmask d) (ffBitmask d) (propBitmask d) (configurationFile d) (hd_configuration d)
    v (hd_keyMap d) (overlayKeyMap d) (combinedKeyMap d) (ffEffectPlaying d) (ffEffectId d).
Definition set_keyMap (m : KeyMap) (d : Device) : Device :=
  mkHubDevice (hd_fd d) (hd_id d) (hd_path d) (hd_identifier d) (hd_classes d) (keyBitmask d) (absBitmask d) (relBitmask d)
    (swBitmask d) (ledBitmask d) (ffBitmask d) (propBitmask d) (configurationFile d) (hd_configuration d)
    (hd_virtualKeyMap d) m (overlayKeyMap d) (combinedKeyMap d) (ffEffectPlaying d) (ffEffectId d).
Definition set_overlay (overlay combined : option KeyCharacterMap) (d : Device) : Device :=
  mkHubDevice (hd_fd d) (hd_id d) (hd_path d) (hd_identifier d) (hd_classes d) (keyBitmask d) (absBitmask d) (relBitmask d)
    (swBitmask d) (ledBitmask d) (ffBitmask d) (propBitmask d) (configurationFile d) (hd_configuration d)
    (hd_virtualKeyMap d) (hd_keyMap d) overlay combined (ffEffectPlaying d) (ffEffectId d).
Definition set_ff (playing : bool) (id : Z) (d : Device) : Device :=
  mkHubDevice (hd_fd d) (hd_id d) (hd_path d) (hd_identifier d) (hd_classes d) (keyBitmask d) (absBitmask d) (relBitmask d)
    (swBitmask d) (ledBitmask d) (ffBitmask d) (propBitmask d) (configurationFile d) (hd_configuration d)
    (hd_virtualKeyMap d) (hd_keyMap d) (overlayKeyMap d) (combinedKeyMap d) playing id.

Definition isVirtual (d : Device) : bool := hd_fd d <? 0.

Definition hub_device_characters (d : Device) : option KeyCharacterMap :=
  match combinedKeyMap d with Some m => Some m | None => keyCharacterMap (hd_keyMap d) end.

(** ** The hub *)

Record Hub (K : Type) : Type := mkHub {
  mBuiltInKeyboardId : Z;
  mNextDeviceId : Z;
  hb_devices : list (Z * Device);
  mOpeningDevices : list Z;
  mClosingDevices : list Device;
  mNeedToSendFinishedDeviceScan : bool;
  mNeedToReopenDevices : bool;
  mNeedToScanDevices : bool;
  mExcludedDevices : list string;
  mPendingEventItems : list epoll_event;
  mPendingEventIndex : nat;
  mPendingINotify : bool;
  hb_kernel : K;
}.
Arguments mkHub {K}.
Arguments mBuiltInKeyboardId {K}.
Arguments mNextDeviceId {K}.
Arguments hb_devices {K}.
Arguments mOpeningDevices {K}.
Arguments mClosingDevices {K}.
Arguments mNeedToSendFinishedDeviceScan {K}.
Arguments mNeedToReopenDevices {K}.
Arguments mNeedToScanDevices {K}.
Arguments mExcludedDevices {K}.
Arguments mPendingEventItems {K}.
Arguments mPendingEventIndex {K}.
Arguments mPendingINotify {K}.
Arguments hb_kernel {K}.

(** *** Assignments *)

Definition eh_builtIn {K} (x : Z) (h : Hub K) : Hub K :=
  mkHub x (mNextDeviceId h) (hb_devices h) (mOpeningDevices h) (mClosingDevices h) (mNeedToSendFinishedDeviceScan h) (mNeedToReopenDevices h) (mNeedToScanDevices h) (mExcludedDevices h) (mPendingEventItems h) (mPendingEventIndex h) (mPendingINotify h) (hb_kernel h).
Definition eh_nextId {K} (x : Z) (h : Hub K) : Hub K :=
  mkHub (mBuiltInKeyboardId h) x (hb_devices h) (mOpeningDevices h) (mClosingDevices h) (mNeedToSendFinishedDeviceScan h) (mNeedToReopenDevices h) (mNeedToScanDevices h) (mExcludedDevices h) (mPendingEventItems h) (mPendingEventIndex h) (mPendingINotify h) (hb_kernel h).
Definition eh_devices {K} (x : list (Z * Device)) (h : Hub K) : Hub K :=
  mkHub (mBuiltInKeyboardId h) (mNextDeviceId h) x (mOpeningDevices h) (mClosingDevices h) (mNeedToSendFinishedDeviceScan h) (mNeedToReopenDevices h) (mNeedToScanDevices h) (mExcludedDevices h) (mPendingEventItems h) (mPendingEventIndex h) (mPendingINotify h) (hb_kernel h).
Definition eh_opening {K} (x : list Z) (h : Hub K) : Hub K :=
  mkHub (mBuiltInKeyboardId h) (mNextDeviceId h) (hb_devices h) x (mClosingDevices h) (mNeedToSendFinishedDeviceScan h) (mNeedToReopenDevices h) (mNeedToScanDevices h) (mExcludedDevices h) (mPendingEventItems h) (mPendingEventIndex h) (mPendingINotify h) (hb_kernel h).
Definition eh_closing {K} (x : list Device) (h : Hub K) : Hub K :=
  mkHub (mBuiltInKeyboardId h) (mNextDeviceId h) (hb_devices h) (mOpeningDevices h) x (mNeedToSendFinishedDeviceScan h) (mNeedToReopenDevices h) (mNeedToScanDevices h) (mExcludedDevices h) (mPendingEventItems h) (mPendingEventIndex h) (mPendingINotify h) (hb_kernel h).
Definition eh_finished {K} (x : bool) (h : Hub K) : Hub K :=
  mkHub (mBuiltInKeyboardId h) (mNextDeviceId h) (hb_devices h) (mOpeningDevices h) (mClosingDevices h) x (mNeedToReopenDevices h) (mNeedToScanDevices h) (mExcludedDevices h) (mPendingEventItems h) (mPendingEventIndex h) (mPendingINotify h) (hb_kernel h).
Definition eh_reopen {K} (x : bool) (h : Hub K) : Hub K :=
  mkHub (mBuiltInKeyboardId h) (mNextDeviceId h) (hb_devices h) (mOpeningDevices h) (mClosingDevices h) (mNeedToSendFinishedDeviceScan h) x (mNeedToScanDevices h) (mExcludedDevices h) (mPendingEventItems h) (mPendingEventIndex h) (mPendingINotify h) (hb_kernel h).
Definition eh_scan {K} (x : bool) (h : Hub K) : Hub K :=
  mkHub (mBuiltInKeyboardId h) (mNextDeviceId h) (hb_devices h) (mOpeningDevices h) (mClosingDevices h) (mNeedToSendFinishedDeviceScan h) (mNeedToReopenDevices h) x (mExcludedDevices h) (mPendingEventItems h) (mPendingEventIndex h) (mPendingINotify h) (hb_kernel h).
Definition eh_excluded {K} (x : list string) (h : Hub K) : Hub K :=
  mkHub (mBuiltInKeyboardId h) (mNextDeviceId h) (hb_devices h) (mOpeningDevices h) (mClosingDevices h) (mNeedToSendFinishedDeviceScan h) (mNeedToReopenDevices h) (mNeedToScanDevices h) x (mPendingEventItems h) (mPendingEventIndex h) (mPendingINotify h) (hb_kernel h).
Definition eh_items {K} (x : list epoll_event) (h : Hub K) : Hub K :=
  mkHub (mBuiltInKeyboardId h) (mNextDeviceId h) (hb_devices h) (mOpeningDevices h) (mClosingDevices h) (mNeedToSendFinishedDeviceScan h) (mNeedToReopenDevices h) (mNeedToScanDevices h) (mExcludedDevices h) x (mPendingEventIndex h) (mPendingINotify h) (hb_kernel h).
Definition eh_index {K} (x : nat) (h : Hub K) : Hub K :=
  mkHub (mBuiltInKeyboardId h) (mNextDeviceId h) (hb_devices h) (mOpeningDevices h) (mClosingDevices h) (mNeedToSendFinishedDeviceScan h) (mNeedToReopenDevices h) (mNeedToScanDevices h) (mExcludedDevices h) (mPendingEventItems h) x (mPendingINotify h) (hb_kernel h).
Definition eh_inotify {K} (x : bool) (h : Hub K) : Hub K :=
  mkHub (mBuiltInKeyboardId h) (mNextDeviceId h) (hb_devices h) (mOpeningDevices h) (mClosingDevices h) (mNeedToSendFinishedDeviceScan h) (mNeedToReopenDevices h) (mNeedToScanDevices h) (mExcludedDevices h) (mPendingEventItems h) (mPendingEventIndex h) x (hb_kernel h).
Definition eh_kernel {K} (x : K) (h : Hub K) : Hub K :=
  mkHub (mBuiltInKeyboardId h) (mNextDeviceId h) (hb_devices h) (mOpeningDevices h) (mClosingDevices h) (mNeedToSendFinishedDeviceScan h) (mNeedToReopenDevices h) (mNeedToScanDevices h) (mExcludedDevices h) (mPendingEventItems h) (mPendingEventIndex h) (mPendingINotify h) x.

Definition kernel_call {K A} (f : K -> A * K) : M (Hub K) A := fun h =>
  let '(a, k) := f (hb_kernel h) in Ret a (eh_kernel k h).

Definition kernel_do {K} (f : K -> K) : M (Hub K) unit := modify (fun h => eh_kernel (f (hb_kernel h)) h).

(** Code that works on one object, inside a member function. *)
Definition on_object {K T A} (x : T) (m : M T A) : M (Hub K) (A * T) := fun h =>
  match m x with
  | Ret a x' => Ret (a, x') h
  | Throw e _ => Throw e h
  | Wait _ => Wait h
  | Undef => Undef
  end.

Definition check {K A} (x : option A) : M (Hub K) A := deref (fun _ => x).

(** ** Classes of devices *)

Definition touch_axes : list Z :=
  [ABS_X; ABS_Y; 24; 28; 25; 26; 27; 47; 48; 49; 50; 51; 52; ABS_MT_POSITION_X; ABS_MT_POSITION_Y; 55; 56; 57; 58; 59].

Definition getAbsAxisUsage (axis deviceClasses : Z) : Z :=
  if has deviceClasses INPUT_DEVICE_CLASS_TOUCH && existsb (Z.eqb axis) touch_axes then INPUT_DEVICE_CLASS_TOUCH
  else Z.land deviceClasses INPUT_DEVICE_CLASS_JOYSTICK.

Definition haveKeyboardKeys (keys : list Z) : bool :=
  containsNonZeroByte keys 0 (sizeof_bit_array BTN_MISC) || containsNonZeroByte keys (sizeof_bit_array KEY_OK) (sizeof_bit_array (KEY_MAX + 1)).

Definition haveGamepadButtons (keys : list Z) : bool :=
  containsNonZeroByte keys (sizeof_bit_array BTN_MISC) (sizeof_bit_array BTN_MOUSE) ||
  containsNonZeroByte keys (sizeof_bit_array BTN_JOYSTICK) (sizeof_bit_array BTN_DIGI).

(** The classes that follow from what the device reports. *)
Definition reported_classes (d : Device) : Z :=
  let keys := keyBitmask d in
  let abs := absBitmask d in
  let c := if haveKeyboardKeys keys || haveGamepadButtons keys then INPUT_DEVICE_CLASS_KEYBOARD else 0 in
  let c := when (test_bit BTN_MOUSE keys && test_bit REL_X (relBitmask d) && test_bit REL_Y (relBitmask d)) INPUT_DEVICE_CLASS_CURSOR c in
  let c :=
    if test_bit ABS_MT_POSITION_X abs && test_bit ABS_MT_POSITION_Y abs then
      when (test_bit BTN_TOUCH keys || negb (haveGamepadButtons keys)) (Z.lor INPUT_DEVICE_CLASS_TOUCH INPUT_DEVICE_CLASS_TOUCH_MT) c
    else when (test_bit BTN_TOUCH keys && test_bit ABS_X abs && test_bit ABS_Y abs) INPUT_DEVICE_CLASS_TOUCH c in
  let assumed := Z.lor c INPUT_DEVICE_CLASS_JOYSTICK in
  let c :=
    if haveGamepadButtons keys &&
       existsb (fun i => test_bit (Z.of_nat i) abs && has (getAbsAxisUsage (Z.of_nat i) assumed) INPUT_DEVICE_CLASS_JOYSTICK)
         (seq 0 (Z.to_nat (ABS_MAX + 1)))
    then assumed else c in
  let c := when (existsb (fun i => test_bit (Z.of_nat i) (swBitmask d)) (seq 0 (Z.to_nat (SW_MAX + 1)))) INPUT_DEVICE_CLASS_SWITCH c in
  when (test_bit FF_RUMBLE (ffBitmask d)) INPUT_DEVICE_CLASS_VIBRATOR c.

Definition GAMEPAD_KEYCODES : list Z :=
  map (fun i => AKEYCODE_BUTTON_A + Z.of_nat i) (seq 0 15) ++ map (fun i => AKEYCODE_BUTTON_1 + Z.of_nat i) (seq 0 16).

(** The layout is dereferenced when there is a file for it. *)
Definition hasKeycodeLocked (d : Device) (keycode : Z) : option bool :=
  if negb (haveKeyLayout (hd_keyMap d)) then Some false
  else
    match keyLayoutMap (hd_keyMap d) with
    | None => None
    | Some l => Some (existsb (fun sc => (0 <=? sc) && (sc <=? KEY_MAX) && test_bit sc (keyBitmask d))
                       (take (Z.to_nat (KEY_MAX + 1)) (findScanCodesForKey l keycode)))
    end.

(** [hasKeycodeLocked] of all, or of any, up to the first answer. *)
Fixpoint has_all (d : Device) (l : list Z) : option bool :=
  match l with
  | [] => Some true
  | c :: l' => match hasKeycodeLocked d c with Some true => has_all d l' | r => r end
  end.
Fixpoint has_any (d : Device) (l : list Z) : option bool :=
  match l with
  | [] => Some false
  | c :: l' => match hasKeycodeLocked d c with Some false => has_any d l' | r => r end
  end.

Definition isExternalDeviceLocked (d : Device) : bool :=
  match match hd_configuration d with Some c => prop_bool c "device.internal" | None => None end with
  | Some value => negb value
  | None => (id_bus (hd_identifier d) =? BUS_USB) || (id_bus (hd_identifier d) =? BUS_BLUETOOTH)
  end.

Section Devices.
Context {K : Type} `{InputKernel K} `{ConfigFiles K} (sha1 : string -> string).

Abbreviation R := (M (Hub K)).

Definition setDescriptor (i : InputDeviceIdentifier) : InputDeviceIdentifier :=
  let raw := String.append ":" (String.append (hex4 (id_vendor i)) (String.append ":" (String.append (hex4 (id_product i)) ":"))) in
  let raw := if isEmpty (id_uniqueId i) then raw else String.append raw (String.append "uniqueId:" (id_uniqueId i)) in
  let raw :=
    if (id_vendor i =? 0) && (id_product i =? 0) then
      if negb (isEmpty (id_name i)) then String.append raw (String.append "name:" (id_name i))
      else if negb (isEmpty (id_location i)) then String.append raw (String.append "location:" (id_location i))
      else raw
    else raw in
  mkIdentifier (id_name i) (id_location i) (id_uniqueId i) (id_bus i) (id_vendor i) (id_product i) (id_version i) (sha1 raw).

Definition loadConfigurationLocked (d : Device) : R Device :=
  k ← gets hb_kernel ;
  let file := getInputDeviceConfigurationFilePathByDeviceIdentifier k (hd_identifier d) FILE_TYPE_CONFIGURATION in
  mret (set_configuration file (if isEmpty file then None else load_properties file k) d).

Definition loadVirtualKeyMapLocked (d : Device) : R (Z * Device) :=
  k ← gets hb_kernel ;
  let path := String.append "/sys/board_properties/virtualkeys." (id_name (hd_identifier d)) in
  if negb (readable path k) then mret (NAME_NOT_FOUND, d)
  else
    match file_contents path k with
    | inl errno => mret (Zneg errno, set_virtualKeyMap None d)
    | inr text =>
        match virtual_load (fromFile text) with
        | Some (status, v) => mret (status, set_virtualKeyMap v d)
        | None => wait
        end
    end.

Definition device_loadKeyMap (d : Device) : R (Z * Device) :=
  k ← gets hb_kernel ;
  r ← on_object (hd_keyMap d) (loadKeyMapLocked k (hd_identifier d) (hd_configuration d)) ;
  mret (fst r, set_keyMap (snd r) d).

Definition addDeviceLocked (d : Device) : R unit :=
  modify (fun h => eh_opening (hd_id d :: mOpeningDevices h) (eh_devices (OrdMap.insert (hd_id d) d (hb_devices h)) h)).

(** The identity of an open descriptor; nothing when the device is left alone. *)
Definition read_identifier (fd : Z) : R (option InputDeviceIdentifier) :=
  h ← get ;
  let k := hb_kernel h in
  let name := default "" (k_name fd k) in
  if existsb (String.eqb name) (mExcludedDevices h) then mret None
  else if negb (k_version fd k) then mret None
  else
    match k_id fd k with
    | None => mret None
    | Some i =>
        let identifier := setDescriptor (mkIdentifier name (default "" (k_phys fd k)) (default "" (k_uniq fd k))
          (ii_bustype i) (ii_vendor i) (ii_product i) (ii_version i) "") in
        ok ← kernel_call (k_nonblock fd) ;
        mret (if (ok : bool) then Some identifier else None)
    end.

(** The bit maps of a device. *)
Definition read_bits (fd : Z) (k : K) (d : Device) : Device :=
  let bits kind max := fill_array (Z.to_nat ((max + 1) / 8)) (k_bits fd kind k) in
  mkHubDevice (hd_fd d) (hd_id d) (hd_path d) (hd_identifier d) (hd_classes d)
    (bits Bits_key KEY_MAX) (bits Bits_abs ABS_MAX) (bits Bits_rel REL_MAX) (bits Bits_sw SW_MAX)
    (bits Bits_led LED_MAX) (bits Bits_ff FF_MAX) (bits Bits_prop INPUT_PROP_MAX)
    (configurationFile d) (hd_configuration d) (hd_virtualKeyMap d) (hd_keyMap d) (overlayKeyMap d) (combinedKeyMap d)
    (ffEffectPlaying d) (ffEffectId d).

(** The key maps, the built-in keyboard and the classes that depend on key codes. *)
Definition configure_keys (d : Device) : R Device :=
  r ← (if has (hd_classes d) INPUT_DEVICE_CLASS_TOUCH then loadVirtualKeyMapLocked d else mret (NAME_NOT_FOUND, d)) ;
  let d := snd r in
  let d := if fst r =? 0 then set_classes (Z.lor (hd_classes d) INPUT_DEVICE_CLASS_KEYBOARD) d else d in
  r ← (if has (hd_classes d) (Z.lor INPUT_DEVICE_CLASS_KEYBOARD INPUT_DEVICE_CLASS_JOYSTICK) then device_loadKeyMap d
       else mret (NAME_NOT_FOUND, d)) ;
  let d := snd r in
  if negb (has (hd_classes d) INPUT_DEVICE_CLASS_KEYBOARD) then mret d
  else
    builtIn ← gets mBuiltInKeyboardId ;
    (if (fst r =? 0) && (builtIn =? NO_BUILT_IN_KEYBOARD) then
       eligible ← check (isEligibleBuiltInKeyboard (hd_identifier d) (hd_configuration d) (hd_keyMap d)) ;
       if (eligible : bool) then modify (eh_builtIn (hd_id d)) else mret tt
     else mret tt) ;;
    alpha ← check (hasKeycodeLocked d AKEYCODE_Q) ;
    let d := if (alpha : bool) then set_classes (Z.lor (hd_classes d) INPUT_DEVICE_CLASS_ALPHAKEY) d else d in
    dpad ← check (has_all d [AKEYCODE_DPAD_UP; AKEYCODE_DPAD_DOWN; AKEYCODE_DPAD_LEFT; AKEYCODE_DPAD_RIGHT; AKEYCODE_DPAD_CENTER]) ;
    let d := if (dpad : bool) then set_classes (Z.lor (hd_classes d) INPUT_DEVICE_CLASS_DPAD) d else d in
    gamepad ← check (has_any d GAMEPAD_KEYCODES) ;
    mret (if (gamepad : bool) then set_classes (Z.lor (hd_classes d) INPUT_DEVICE_CLASS_GAMEPAD) d else d).

(** The overflow of [mNextDeviceId], which has no defined result, ends the run. *)
Definition INT32_MAX : Z := 2147483647.
Definition ids_exhausted : exn := logic_error "mNextDeviceId".

Definition openDeviceLocked (devicePath : string) : R Z :=
  opened ← kernel_call (k_open devicePath) ;
  match opened with
  | None => mret (-1)
  | Some fd =>
      identified ← read_identifier fd ;
      match identified with
      | None => kernel_do (k_close fd) ;; mret (-1)
      | Some identifier =>
          deviceId ← gets mNextDeviceId ;
          (if deviceId =? INT32_MAX then throw ids_exhausted else modify (eh_nextId (deviceId + 1))) ;;
          d ← loadConfigurationLocked (Device_new fd deviceId devicePath identifier) ;
          k ← gets hb_kernel ;
          let d := read_bits fd k d in
          d ← configure_keys (set_classes (reported_classes d) d) ;
          if hd_classes d =? 0 then kernel_do (k_close fd) ;; mret (-1)
          else
            let d := if isExternalDeviceLocked d then set_classes (Z.lor (hd_classes d) INPUT_DEVICE_CLASS_EXTERNAL) d else d in
            added ← kernel_call (k_epoll_add fd deviceId) ;
            if negb (added : bool) then kernel_do (k_close fd) ;; mret (-1)
            else kernel_do (k_use_clock fd) ;; addDeviceLocked d ;; mret 0
      end
  end.

Definition createVirtualKeyboardLocked : R unit :=
  let identifier := setDescriptor (mkIdentifier "Virtual" "" "<virtual>" 0 0 0 0 "") in
  let classes := Z.lor (Z.lor (Z.lor INPUT_DEVICE_CLASS_KEYBOARD INPUT_DEVICE_CLASS_ALPHAKEY) INPUT_DEVICE_CLASS_DPAD) INPUT_DEVICE_CLASS_VIRTUAL in
  r ← device_loadKeyMap (set_classes classes (Device_new (-1) VIRTUAL_KEYBOARD_ID "<virtual>" identifier)) ;
  addDeviceLocked (snd r).

(** [readdir] names the directory itself and its parent too. *)
Definition scanDirLocked (dirname : string) : R Z :=
  k ← gets hb_kernel ;
  match k_readdir dirname k with
  | None => mret (-1)
  | Some names =>
      for_each names (fun name =>
        if String.eqb name "." || String.eqb name ".." then mret tt
        else openDeviceLocked (String.append dirname (String.append "/" name)) ;; mret tt) ;;
      mret 0
  end.

Definition scanDevicesLocked : R unit :=
  scanDirLocked DEVICE_PATH ;;
  devices ← gets hb_devices ;
  match OrdMap.find VIRTUAL_KEYBOARD_ID devices with
  | None => createVirtualKeyboardLocked
  | Some _ => mret tt
  end.

(** ** Closing *)

(** The list without the first entry of a device. *)
Fixpoint unlink (id : Z) (l : list Z) : list Z :=
  match l with
  | [] => []
  | i :: l' => if i =? id then l' else i :: unlink id l'
  end.

Definition closeDeviceLocked (d : Device) : R unit :=
  builtIn ← gets mBuiltInKeyboardId ;
  (if hd_id d =? builtIn then modify (eh_builtIn NO_BUILT_IN_KEYBOARD) else mret tt) ;;
  (if isVirtual d then mret tt else kernel_do (k_epoll_del (hd_fd d))) ;;
  modify (fun h => eh_devices (OrdMap.erase (hd_id d) (hb_devices h)) h) ;;
  (if 0 <=? hd_fd d then kernel_do (k_close (hd_fd d)) else mret tt) ;;
  opening ← gets mOpeningDevices ;
  if existsb (Z.eqb (hd_id d)) opening then modify (eh_opening (unlink (hd_id d) opening))
  else modify (fun h => eh_closing (set_fd (-1) d :: mClosingDevices h) h).

Definition getDeviceByPathLocked (path : string) (h : Hub K) : option Device :=
  snd <$> List.find (fun e => String.eqb (hd_path (snd e)) path) (hb_devices h).

Definition closeDeviceByPathLocked (path : string) : R Z :=
  found ← gets (getDeviceByPathLocked path) ;
  match found with
  | Some d => closeDeviceLocked d ;; mret 0
  | None => mret (-1)
  end.

(** The [while] loop takes the last device; one pass for each of them. *)
Fixpoint close_last (n : nat) : R unit :=
  match n with
  | O => mret tt
  | S n' =>
      devices ← gets hb_devices ;
      match List.last (map Some (map snd devices)) None with
      | None => mret tt
      | Some d => closeDeviceLocked d ;; close_last n'
      end
  end.

Definition closeAllDevicesLocked : R unit :=
  devices ← gets hb_devices ;
  close_last (length devices).

Definition IN_CREATE : Z := 256.

Definition readNotifyLocked : R Z :=
  events ← kernel_call k_inotify ;
  match events with
  | None => mret (-1)
  | Some events =>
      for_each events (fun e =>
        if isEmpty (in_name e) then mret tt
        else
          let devname := String.append DEVICE_PATH (String.append "/" (in_name e)) in
          if has (in_mask e) IN_CREATE then openDeviceLocked devname ;; mret tt
          else closeDeviceByPathLocked devname ;; mret tt) ;;
      mret 0
  end.

(** ** Queries *)

Definition getDeviceLocked (deviceId : Z) (h : Hub K) : option Device :=
  OrdMap.find (if deviceId =? BUILT_IN_KEYBOARD_ID then mBuiltInKeyboardId h else deviceId) (hb_devices h).

Definition real_device (deviceId : Z) (h : Hub K) : option Device :=
  match getDeviceLocked deviceId h with Some d => if isVirtual d then None else Some d | None => None end.

Definition getDeviceIdentifier (deviceId : Z) (h : Hub K) : InputDeviceIdentifier :=
  match getDeviceLocked deviceId h with Some d => hd_identifier d | None => InputDeviceIdentifier_new end.

Definition getDeviceClasses (deviceId : Z) (h : Hub K) : Z :=
  match getDeviceLocked deviceId h with Some d => hd_classes d | None => 0 end.

(** A map without properties, if there is no configuration. *)
Definition no_properties : PropertyMap := mkProperties_map (fun _ => None) (fun _ => None).

Definition getConfiguration (deviceId : Z) (h : Hub K) : PropertyMap :=
  match getDeviceLocked deviceId h with Some d => default no_properties (hd_configuration d) | None => no_properties end.

Definition in_range (x max : Z) : bool := (0 <=? x) && (x <=? max).

(** A real device that has the bit. *)
Definition device_with (deviceId bit max : Z) (bits : Device -> list Z) (h : Hub K) : option Device :=
  if in_range bit max then
    match real_device deviceId h with Some d => if test_bit bit (bits d) then Some d else None | None => None end
  else None.

Record RawAbsoluteAxisInfo : Set := mkAxisInfo {
  ax_valid : bool; ax_minValue : Z; ax_maxValue : Z; ax_flat : Z; ax_fuzz : Z; ax_resolution : Z }.
Definition RawAbsoluteAxisInfo_clear : RawAbsoluteAxisInfo := mkAxisInfo false 0 0 0 0 0.

Definition getAbsoluteAxisInfo (deviceId axis : Z) (h : Hub K) : Z * RawAbsoluteAxisInfo :=
  match device_with deviceId axis ABS_MAX absBitmask h with
  | None => (-1, RawAbsoluteAxisInfo_clear)
  | Some d =>
      match k_absinfo (hd_fd d) axis (hb_kernel h) with
      | inl errno => (- errno, RawAbsoluteAxisInfo_clear)
      | inr info =>
          (0, if ab_minimum info =? ab_maximum info then RawAbsoluteAxisInfo_clear
              else mkAxisInfo true (ab_minimum info) (ab_maximum info) (ab_flat info) (ab_fuzz info) (ab_resolution info))
      end
  end.

Definition getAbsoluteAxisValue (deviceId axis : Z) (h : Hub K) : Z * Z :=
  match device_with deviceId axis ABS_MAX absBitmask h with
  | None => (-1, 0)
  | Some d =>
      match k_absinfo (hd_fd d) axis (hb_kernel h) with
      | inl errno => (- errno, 0)
      | inr info => (0, ab_value info)
      end
  end.

(** A test of a bit map of any device. *)
Definition device_has (deviceId bit max : Z) (bits : Device -> list Z) (h : Hub K) : bool :=
  in_range bit max && match getDeviceLocked deviceId h with Some d => test_bit bit (bits d) | None => false end.

Definition hasRelativeAxis (deviceId axis : Z) (h : Hub K) : bool := device_has deviceId axis REL_MAX relBitmask h.
Definition hasInputProperty (deviceId property : Z) (h : Hub K) : bool := device_has deviceId property INPUT_PROP_MAX propBitmask h.
Definition hasScanCode (deviceId scanCode : Z) (h : Hub K) : bool := device_has deviceId scanCode KEY_MAX keyBitmask h.
Definition hasLed (deviceId led : Z) (h : Hub K) : bool := device_has deviceId led LED_MAX ledBitmask h.

Definition key_state (down : bool) : Z := if down then AKEY_STATE_DOWN else AKEY_STATE_UP.

Definition getScanCodeState (deviceId scanCode : Z) (h : Hub K) : Z :=
  match device_with deviceId scanCode KEY_MAX keyBitmask h with
  | Some d =>
      match k_keyState (hd_fd d) (hb_kernel h) with
      | Some state => key_state (test_bit scanCode (fill_array (sizeof_bit_array (KEY_MAX + 1)) state))
      | None => AKEY_STATE_UNKNOWN
      end
  | None => AKEY_STATE_UNKNOWN
  end.

Definition getSwitchState (deviceId sw : Z) (h : Hub K) : Z :=
  match device_with deviceId sw SW_MAX swBitmask h with
  | Some d =>
      match k_swState (hd_fd d) (hb_kernel h) with
      | Some state => key_state (test_bit sw (fill_array (sizeof_bit_array (SW_MAX + 1)) state))
      | None => AKEY_STATE_UNKNOWN
      end
  | None => AKEY_STATE_UNKNOWN
  end.

(** The layout of a device: nothing if it has none, undefined if only its file is named. *)
Definition device_layout (d : Device) : R (option KeyLayoutMap) :=
  if haveKeyLayout (hd_keyMap d) then l ← check (keyLayoutMap (hd_keyMap d)) ; mret (Some l) else mret None.

Definition getKeyCodeState (deviceId keyCode : Z) : R Z :=
  found ← gets (real_device deviceId) ;
  match found with
  | None => mret AKEY_STATE_UNKNOWN
  | Some d =>
      layout ← device_layout d ;
      k ← gets hb_kernel ;
      match layout with
      | None => mret AKEY_STATE_UNKNOWN
      | Some l =>
          let scanCodes := findScanCodesForKey l keyCode in
          mret (match scanCodes, k_keyState (hd_fd d) k with
                | [], _ | _, None => AKEY_STATE_UNKNOWN
                | _, Some state =>
                    key_state (existsb (fun sc => in_range sc KEY_MAX && test_bit sc (fill_array (sizeof_bit_array (KEY_MAX + 1)) state)) scanCodes)
                end)
      end
  end.

(** The [for] loop over the scan codes of a key: a code outside the array is not checked. *)
Fixpoint emits_any (keys : list Z) (scanCodes : list Z) : option bool :=
  match scanCodes with
  | [] => Some false
  | sc :: l => if in_range sc KEY_MAX then if test_bit sc keys then Some true else emits_any keys l else None
  end.

Fixpoint mark_codes (d : Device) (l : KeyLayoutMap) (keyCodes outFlags : list Z) : option (list Z) :=
  match keyCodes, outFlags with
  | c :: keyCodes', f :: outFlags' =>
      match emits_any (keyBitmask d) (findScanCodesForKey l c), mark_codes d l keyCodes' outFlags' with
      | Some b, Some flags => Some ((if b then 1 else f) :: flags)
      | _, _ => None
      end
  | _, _ => Some outFlags
  end.

Definition hub_markSupportedKeyCodes (deviceId : Z) (keyCodes outFlags : list Z) : R (bool * list Z) :=
  found ← gets (getDeviceLocked deviceId) ;
  match found with
  | None => mret (false, outFlags)
  | Some d =>
      layout ← device_layout d ;
      match layout with
      | None => mret (false, outFlags)
      | Some l => flags ← check (mark_codes d l keyCodes outFlags) ; mret (true, flags)
      end
  end.

(** The status with the key code and the flags. *)
Definition mapKey (deviceId scanCode usageCode : Z) : R (Z * Z * Z) :=
  found ← gets (getDeviceLocked deviceId) ;
  match found with
  | None => mret (NAME_NOT_FOUND, 0, 0)
  | Some d =>
      match match hub_device_characters d with Some m => char_mapKey m scanCode usageCode | None => None end with
      | Some keyCode => mret (0, keyCode, 0)
      | None =>
          layout ← device_layout d ;
          match layout with
          | None => mret (NAME_NOT_FOUND, 0, 0)
          | Some l =>
              let '(status, keyCode, flags) := layout_mapKey l scanCode usageCode in
              mret (if status =? 0 then (0, keyCode, flags) else (NAME_NOT_FOUND, 0, 0))
          end
      end
  end.

Definition hub_mapAxis (deviceId scanCode : Z) : R (option AxisInfo) :=
  found ← gets (getDeviceLocked deviceId) ;
  match found with
  | None => mret None
  | Some d =>
      layout ← device_layout d ;
      mret (match layout with Some l => mapAxis l scanCode | None => None end)
  end.

Definition getVirtualKeyDefinitions (deviceId : Z) (h : Hub K) : list VirtualKeyDefinition :=
  match getDeviceLocked deviceId h with Some d => default [] (hd_virtualKeyMap d) | None => [] end.

Definition getKeyCharacterMap (deviceId : Z) (h : Hub K) : option KeyCharacterMap :=
  match getDeviceLocked deviceId h with Some d => hub_device_characters d | None => None end.

(** ** Changes *)

Definition setExcludedDevices (devices : list string) : R unit := modify (eh_excluded devices).
Definition requestReopenDevices : R unit := modify (eh_reopen true).

(** The loop of [wake] ends unless the kernel interrupts it for ever. *)
Definition wake : R unit := kernel_do k_pipe_write.

Definition setLedState (deviceId led : Z) (on : bool) : R unit :=
  found ← gets (real_device deviceId) ;
  match found with
  | Some d => if in_range led LED_MAX then kernel_call (k_write (hd_fd d) (mkInput EV_LED led (if on then 1 else 0))) ;; mret tt else mret tt
  | None => mret tt
  end.

Definition put_device (d : Device) : R unit := modify (fun h => eh_devices (OrdMap.insert (hd_id d) d (hb_devices h)) h).

(** An overlay is compared by its address: [same] when it is the one the device has. *)
Definition setKeyboardLayoutOverlay (deviceId : Z) (map : option KeyCharacterMap) (same : bool) : R bool :=
  found ← gets (getDeviceLocked deviceId) ;
  match found with
  | Some d =>
      if same then mret false
      else put_device (set_overlay map (combine (keyCharacterMap (hd_keyMap d)) map) d) ;; mret true
  | None => mret false
  end.

Definition vibrate (deviceId duration : Z) : R unit :=
  found ← gets (real_device deviceId) ;
  match found with
  | Some d =>
      effect ← kernel_call (k_upload (hd_fd d) (ffEffectId d) (Z.quot (duration + 999999) 1000000 mod 65536)) ;
      match effect with
      | None => mret tt
      | Some id =>
          put_device (set_ff (ffEffectPlaying d) id d) ;;
          written ← kernel_call (k_write (hd_fd d) (mkInput EV_FF id 1)) ;
          if (written : bool) then put_device (set_ff true id d) else mret tt
      end
  | None => mret tt
  end.

Definition cancelVibrate (deviceId : Z) : R unit :=
  found ← gets (real_device deviceId) ;
  match found with
  | Some d =>
      if ffEffectPlaying d then
        put_device (set_ff false (ffEffectId d) d) ;;
        kernel_call (k_write (hd_fd d) (mkInput EV_FF (ffEffectId d) 0)) ;; mret tt
      else mret tt
  | None => mret tt
  end.

(** ** Construction *)

Definition EventHub_new (k : K) : outcome (Hub K) unit :=
  let '(ok, k) := k_setup k in
  let h := mkHub NO_BUILT_IN_KEYBOARD 1 [] [] [] false false true [] [] 0 false k in
  if (ok : bool) then Ret tt h else Throw (runtime_error "Could not create epoll instance.") h.

Definition EventHub_delete : R unit :=
  closeAllDevicesLocked ;;
  modify (eh_closing []) ;;
  kernel_do k_teardown.

End Devices.
