(* ===== verification/HubEvents.v ===== *)
(** * The event hub: its stream of events

    [EventHub::getEvents] with its loop, interleaved with the other threads' calls while
    it waits in [epoll_wait] without the lock.  A write past the end of the caller's
    buffer ends the run ([past_the_end]).  [HubStream] has the theorems. *)

From S2P Require Import Prelude AndroidEvents InputTransport DispatchLoop ReaderData KeyText KeyLayout KeyCharacters KeyMaps InputHub.

Definition EPOLL_ID_INOTIFY : Z := 2147483649.
Definition EPOLL_ID_WAKE : Z := 2147483650.
Definition EPOLLIN : Z := 1.
Definition EPOLLHUP : Z := 16.
Definition ENODEV : Z := 19.

(** A call of [getEvents] that has the lock: the hub, the caller's buffer, the number of
    events in it, and [awoken]. *)
Record Call (K : Type) : Type := mkCall {
  cl_hub : Hub K;
  cl_buffer : list RawEvent;
  cl_count : nat;
  cl_awoken : bool;
}.
Arguments mkCall {K}.
Arguments cl_hub {K}.
Arguments cl_buffer {K}.
Arguments cl_count {K}.
Arguments cl_awoken {K}.

Definition past_the_end : exn := logic_error "getEvents".

Section Events.
Context {K : Type} `{InputKernel K} `{ConfigFiles K} (sha1 : string -> string).

Abbreviation R := (M (Hub K)).
Abbreviation C := (M (Call K)).

Definition on_hub {A} (m : R A) : C A :=
  zoom (Lens cl_hub (fun h c => mkCall h (cl_buffer c) (cl_count c) (cl_awoken c))) m.

Definition capacity (c : Call K) : nat := (length (cl_buffer c) - cl_count c)%nat.

(** [event->... = ...; event += 1]: the fields that are not assigned keep what was there. *)
Definition write_event (f : RawEvent -> RawEvent) : C unit := fun c =>
  match cl_buffer c !! cl_count c with
  | Some e => Ret tt (mkCall (cl_hub c) (<[cl_count c := f e]> (cl_buffer c)) (S (cl_count c)) (cl_awoken c))
  | None => Throw past_the_end c
  end.

Definition synthetic_event (now deviceId type : Z) (e : RawEvent) : RawEvent := mkRaw now deviceId type (re_code e) (re_value e).
Definition scan_event (now : Z) (e : RawEvent) : RawEvent := mkRaw now (re_deviceId e) FINISHED_DEVICE_SCAN (re_code e) (re_value e).

Definition reported_id (h : Hub K) (id : Z) : Z := if id =? mBuiltInKeyboardId h then BUILT_IN_KEYBOARD_ID else id.

(** [while (mClosingDevices)], with one pass for each device. *)
Fixpoint report_closing (n : nat) (now : Z) : C unit :=
  match n with
  | O => mret tt
  | S n' =>
      h ← gets cl_hub ;
      match mClosingDevices h with
      | [] => mret tt
      | d :: rest =>
          on_hub (modify (eh_closing rest)) ;;
          write_event (synthetic_event now (reported_id h (hd_id d)) DEVICE_REMOVED) ;;
          on_hub (modify (eh_finished true)) ;;
          left ← gets capacity ;
          if (left =? 0)%nat then mret tt else report_closing n' now
      end
  end.

Fixpoint report_opening (n : nat) (now : Z) : C unit :=
  match n with
  | O => mret tt
  | S n' =>
      h ← gets cl_hub ;
      match mOpeningDevices h with
      | [] => mret tt
      | id :: rest =>
          on_hub (modify (eh_opening rest)) ;;
          write_event (synthetic_event now (reported_id h id) DEVICE_ADDED) ;;
          on_hub (modify (eh_finished true)) ;;
          left ← gets capacity ;
          if (left =? 0)%nat then mret tt else report_opening n' now
      end
  end.

(** [do ... while ((nRead == -1 && errno == EINTR) || nRead == sizeof(buffer))]. *)
Fixpoint drain_pipe (fuel : nat) : R unit :=
  match fuel with
  | O => wait
  | S fuel' =>
      r ← kernel_call k_pipe_read ;
      match r with
      | inl errno => if errno =? EINTR then drain_pipe fuel' else mret tt
      | inr n => if (n =? 16)%nat then drain_pipe fuel' else mret tt
      end
  end.

Definition drain : R unit := k ← gets hb_kernel ; drain_pipe (S (k_pipe_level k)).

Definition input_raw (now deviceId : Z) (iev : input_event) (_ : RawEvent) : RawEvent :=
  mkRaw now deviceId (ie_type iev) (ie_code iev) (ie_value iev).

(** What is read from a device: whether the device is gone, and whether the buffer is full. *)
Definition read_device (now : Z) (d : Device) : C (bool * bool) :=
  space ← gets capacity ;
  r ← on_hub (kernel_call (k_read (hd_fd d) space)) ;
  let gone : C (bool * bool) := on_hub (closeDeviceLocked d) ;; mret (true, false) in
  match r with
  | Read_error errno => if errno =? ENODEV then gone else mret (false, false)
  | Read_events l extra =>
      if bool_decide (l = []) && (extra =? 0) then gone
      else if negb (extra =? 0) then mret (false, false)
      else
        h ← gets cl_hub ;
        for_each l (fun iev => write_event (input_raw now (reported_id h (hd_id d)) iev)) ;;
        left ← gets capacity ;
        mret (false, (left =? 0)%nat)
  end.

(** [while (mPendingEventIndex < mPendingEventCount)]; the result is [deviceChanged]. *)
Fixpoint read_pending (n : nat) (now : Z) (deviceChanged : bool) : C bool :=
  match n with
  | O => mret deviceChanged
  | S n' =>
      h ← gets cl_hub ;
      match mPendingEventItems h !! mPendingEventIndex h with
      | None => mret deviceChanged
      | Some eventItem =>
          on_hub (modify (eh_index (S (mPendingEventIndex h)))) ;;
          let input := has (ep_events eventItem) EPOLLIN in
          if ep_data eventItem =? EPOLL_ID_INOTIFY then
            (if input then on_hub (modify (eh_inotify true)) else mret tt) ;;
            read_pending n' now deviceChanged
          else if ep_data eventItem =? EPOLL_ID_WAKE then
            (if input then
               modify (fun c => mkCall (cl_hub c) (cl_buffer c) (cl_count c) true) ;;
               on_hub drain
             else mret tt) ;;
            read_pending n' now deviceChanged
          else
            match OrdMap.find (i32 (ep_data eventItem)) (hb_devices h) with
            | None => read_pending n' now deviceChanged
            | Some d =>
                if input then
                  r ← read_device now d ;
                  if (snd r : bool) then
                    on_hub (modify (fun h => eh_index (mPendingEventIndex h - 1) h)) ;;
                    mret deviceChanged
                  else read_pending n' now (deviceChanged || fst r)
                else if has (ep_events eventItem) EPOLLHUP then
                  on_hub (closeDeviceLocked d) ;;
                  read_pending n' now true
                else read_pending n' now deviceChanged
            end
      end
  end.

Inductive pass_end : Set := Pass_break | Pass_continue | Pass_poll.

Definition pending_left (h : Hub K) : nat := (length (mPendingEventItems h) - mPendingEventIndex h)%nat.

(** The rest of a pass, after the devices have been reported. *)
Definition pass_input (now : Z) : C pass_end :=
  h ← gets cl_hub ;
  deviceChanged ← read_pending (pending_left h) now false ;
  h ← gets cl_hub ;
  deviceChanged ←
    (if mPendingINotify h && (length (mPendingEventItems h) <=? mPendingEventIndex h)%nat then
       on_hub (modify (eh_inotify false)) ;; on_hub (readNotifyLocked sha1) ;; mret true
     else mret deviceChanged) ;
  if (deviceChanged : bool) then mret Pass_continue
  else
    c ← get ;
    if negb (cl_count c =? 0)%nat || cl_awoken c then mret Pass_break
    else on_hub (modify (eh_index 0)) ;; mret Pass_poll.

(** [FINISHED_DEVICE_SCAN], unless the buffer is full after it. *)
Definition report_finished (now : Z) : C bool :=
  h ← gets cl_hub ;
  if mNeedToSendFinishedDeviceScan h then
    on_hub (modify (eh_finished false)) ;;
    write_event (scan_event now) ;;
    left ← gets capacity ;
    mret (left =? 0)%nat
  else mret false.

(** A pass of [for (;;)] up to its end or to [epoll_wait]. *)
Definition pass : C pass_end :=
  now ← on_hub (kernel_call k_now) ;
  h ← gets cl_hub ;
  if mNeedToReopenDevices h then
    on_hub (modify (eh_reopen false)) ;;
    on_hub closeAllDevicesLocked ;;
    on_hub (modify (eh_scan true)) ;;
    mret Pass_break
  else
    report_closing (length (mClosingDevices h)) now ;;
    h ← gets cl_hub ;
    (if mNeedToScanDevices h then
       on_hub (modify (eh_scan false)) ;; on_hub (scanDevicesLocked sha1) ;; on_hub (modify (eh_finished true))
     else mret tt) ;;
    h ← gets cl_hub ;
    report_opening (length (mOpeningDevices h)) now ;;
    full ← report_finished now ;
    if (full : bool) then mret Pass_break else pass_input now.

(** The passes up to a return or to [epoll_wait]. *)
Fixpoint passes (fuel : nat) : C bool :=
  match fuel with
  | O => wait
  | S fuel' =>
      e ← pass ;
      match e with
      | Pass_break => mret true
      | Pass_poll => mret false
      | Pass_continue => passes fuel'
      end
  end.

(** Every pass that goes on has used up a pending item or the pending notification. *)
Definition pass_bound (h : Hub K) : nat := (2 * length (mPendingEventItems h) + 3)%nat.

(** The events, if [getEvents] returns, or nothing when it waits. *)
Definition getEvents_run (buffer : list RawEvent) : R (option (list RawEvent)) := fun h =>
  match passes (pass_bound h) (mkCall h buffer 0 false) with
  | Ret true c => Ret (Some (take (cl_count c) (cl_buffer c))) (cl_hub c)
  | Ret false c => Ret None (cl_hub c)
  | Throw e c => Throw e (cl_hub c)
  | Wait c => Wait (cl_hub c)
  | Undef => Undef
  end.

(** The rest of the loop's body when [epoll_wait] returns. *)
Definition getEvents_resume (timeoutMillis : Z) (buffer : list RawEvent) : R (option (list RawEvent)) :=
  r ← kernel_call (k_epoll_wait timeoutMillis) ;
  match r with
  | inr [] => modify (eh_items []) ;; mret (Some [])
  | inl _ => modify (eh_items []) ;; getEvents_run buffer
  | inr items => modify (eh_items items) ;; getEvents_run buffer
  end.

(** ** Threads *)

(** The reader's thread is outside the hub, or waits in [epoll_wait]. *)
Inductive hub_pc : Set := Hub_outside | Hub_polling (timeoutMillis : Z) (buffer : list RawEvent).

(** What happens next: the reader's thread calls [getEvents] or its wait ends, or another
    thread calls. *)
Inductive hub_action : Type :=
| Call_getEvents (timeoutMillis : Z) (buffer : list RawEvent)
| Wait_ends
| Call_excluded (devices : list string)
| Call_reopen
| Call_wake
| Call_led (deviceId led : Z) (on : bool)
| Call_overlay (deviceId : Z) (map : option KeyCharacterMap) (same : bool)
| Call_vibrate (deviceId duration : Z)
| Call_cancel (deviceId : Z)
| Call_mapKey (deviceId scanCode usageCode : Z)
| Call_mapAxis (deviceId scanCode : Z)
| Call_keyState (deviceId keyCode : Z).

(** The next state of the reader's thread, with the events of a call that returned. *)
Definition hub_step (a : hub_action) (pc : hub_pc) : R (hub_pc * list RawEvent) :=
  let ended timeout buffer r :=
    match r with Some events => mret (Hub_outside, events) | None => mret (Hub_polling timeout buffer, []) end in
  let other (m : R unit) := m ;; mret (pc, []) in
  match a, pc with
  | Call_getEvents timeout buffer, Hub_outside => r ← getEvents_run buffer ; ended timeout buffer r
  | Wait_ends, Hub_polling timeout buffer => r ← getEvents_resume timeout buffer ; ended timeout buffer r
  | Call_getEvents _ _, Hub_polling _ _ | Wait_ends, Hub_outside => mret (pc, [])
  | Call_excluded devices, _ => other (setExcludedDevices devices)
  | Call_reopen, _ => other requestReopenDevices
  | Call_wake, _ => other wake
  | Call_led deviceId led on, _ => other (setLedState deviceId led on)
  | Call_overlay deviceId map same, _ => other (setKeyboardLayoutOverlay deviceId map same ;; mret tt)
  | Call_vibrate deviceId duration, _ => other (vibrate deviceId duration)
  | Call_cancel deviceId, _ => other (cancelVibrate deviceId)
  | Call_mapKey deviceId scanCode usageCode, _ => other (mapKey deviceId scanCode usageCode ;; mret tt)
  | Call_mapAxis deviceId scanCode, _ => other (hub_mapAxis deviceId scanCode ;; mret tt)
  | Call_keyState deviceId keyCode, _ => other (getKeyCodeState deviceId keyCode ;; mret tt)
  end.

(** A run, with all the events that were returned. *)
Fixpoint run_hub (schedule : list hub_action) (pc : hub_pc) : R (hub_pc * list RawEvent) :=
  match schedule with
  | [] => mret (pc, [])
  | a :: schedule' =>
      r ← hub_step a pc ;
      s ← run_hub schedule' (fst r) ;
      mret (fst s, snd r ++ snd s)
  end.

End Events.
