(* ===== verification/HubStream.v ===== *)
(** * The invariant of the event hub

    What the caller of [getEvents] knows, how it relates to the devices of the hub
    ([hub_inv]), and that all the hub does under its lock keeps it.  [HubCalls] goes on
    with [getEvents]. *)

From S2P Require Import Prelude AndroidEvents InputTransport DispatchLoop ReaderData KeyText KeyLayout KeyCharacters KeyMaps InputHub HubEvents.

(** ** The kernel's part *)

(** [k_log] is what has been read from devices.  A read returns at most what was asked
    for, of types of 16 bits; reading the wake pipe empties it. *)
Class HubLaws (K : Type) `{InputKernel K} : Type := {
  k_log : K -> list input_event;
  log_read fd n k : k_log (snd (k_read fd n k)) =
    k_log k ++ match fst (k_read fd n k) with Read_events l extra => if extra =? 0 then l else [] | _ => [] end;
  read_bound fd n k l extra : fst (k_read fd n k) = Read_events l extra -> (length l <= n)%nat;
  read_types fd n k l extra : fst (k_read fd n k) = Read_events l extra -> Forall (fun e => 0 <= ie_type e < 65536) l;
  log_setup k : k_log (snd (k_setup k)) = k_log k;
  log_open path k : k_log (snd (k_open path k)) = k_log k;
  log_close fd k : k_log (k_close fd k) = k_log k;
  log_nonblock fd k : k_log (snd (k_nonblock fd k)) = k_log k;
  log_add fd id k : k_log (snd (k_epoll_add fd id k)) = k_log k;
  log_del fd k : k_log (k_epoll_del fd k) = k_log k;
  log_clock fd k : k_log (k_use_clock fd k) = k_log k;
  log_inotify k : k_log (snd (k_inotify k)) = k_log k;
  log_write fd e k : k_log (snd (k_write fd e k)) = k_log k;
  log_upload fd id n k : k_log (snd (k_upload fd id n k)) = k_log k;
  log_pipe k : k_log (snd (k_pipe_read k)) = k_log k;
  log_pipe_write k : k_log (k_pipe_write k) = k_log k;
  log_wait t k : k_log (snd (k_epoll_wait t k)) = k_log k;
  log_now k : k_log (snd (k_now k)) = k_log k;
  pipe_empties k : fst (k_pipe_read k) = inl EINTR \/ fst (k_pipe_read k) = inr 16%nat ->
    (k_pipe_level (snd (k_pipe_read k)) < k_pipe_level k)%nat;
}.

(** ** What the caller knows *)

(** The devices that the caller has been told of, after one more event: an event that
    contradicts what was said before is not accepted.  Nothing is added twice.  What is
    removed is known; the exception is the built-in keyboard, which is told as 0 and whose
    removal is told with an identifier that the caller does not know: such a removal is
    accepted while 0 is known, and takes 0 away. *)
Definition hear (known : gset Z) (e : RawEvent) : option (gset Z) :=
  let id := re_deviceId e in
  if re_type e =? DEVICE_ADDED then if bool_decide (id ∉ known) then Some ({[ id ]} ∪ known) else None
  else if re_type e =? DEVICE_REMOVED then
    if bool_decide (id ∈ known) then Some (known ∖ {[ id ]})
    else if bool_decide (0 ∈ known) then Some (known ∖ {[ 0 ]}) else None
  else if re_type e =? FINISHED_DEVICE_SCAN then Some known
  else if bool_decide (0 <= re_type e < FIRST_SYNTHETIC_EVENT /\ id ∈ known) then Some known
  else None.

Fixpoint told (known : gset Z) (l : list RawEvent) : option (gset Z) :=
  match l with
  | [] => Some known
  | e :: l' => match hear known e with Some known' => told known' l' | None => None end
  end.

(** The input among the events. *)
Definition inputs (l : list RawEvent) : list input_event :=
  map (fun e => mkInput (re_type e) (re_code e) (re_value e)) (List.filter (fun e => re_type e <? FIRST_SYNTHETIC_EVENT) l).

Lemma told_app known l l' : told known (l ++ l') = match told known l with Some k' => told k' l' | None => None end.
Proof. revert known. induction l as [|e l IH]; intros known; [done|]. cbn. destruct (hear known e); [apply IH|done]. Qed.

Lemma inputs_app l l' : inputs (l ++ l') = inputs l ++ inputs l'.
Proof. unfold inputs. by rewrite List.filter_app, map_app. Qed.

(** ** The invariant *)

(** The devices that the caller has been told of and that are still there. *)
Definition told_open {K} (h : Hub K) (id : Z) : Prop := id ∈ OrdMap.keys (hb_devices h) /\ id ∉ mOpeningDevices h.

Definition id_ok {K} (h : Hub K) (id : Z) : Prop := id = VIRTUAL_KEYBOARD_ID \/ 1 <= id < mNextDeviceId h.

Definition closing_ids {K} (h : Hub K) : list Z := map hd_id (mClosingDevices h).

(** The built-in keyboard that the caller knows as 0 when it is about to be told as
    removed. *)
Definition behind {K} (known : gset Z) (h : Hub K) (id : Z) : Prop := id ∈ closing_ids h /\ id ∉ known.

Record hub_inv {K} (known : gset Z) (h : Hub K) : Prop := {
  hi_sorted : OrdMap.sorted (hb_devices h);
  hi_devices : Forall (fun e => hd_id (snd e) = fst e /\ id_ok h (fst e) /\ maps_ok (hd_keyMap (snd e))) (hb_devices h);
  hi_next : 1 <= mNextDeviceId h <= INT32_MAX;
  hi_builtIn : mBuiltInKeyboardId h = NO_BUILT_IN_KEYBOARD \/ 1 <= mBuiltInKeyboardId h < mNextDeviceId h;
  hi_opening : NoDup (mOpeningDevices h) /\ mOpeningDevices h ⊆ OrdMap.keys (hb_devices h);
  hi_closing : NoDup (closing_ids h) /\ Forall (id_ok h) (closing_ids h) /\ mBuiltInKeyboardId h ∉ closing_ids h;
  hi_apart id : told_open h id -> id ∉ closing_ids h;
  (** Every open device that was told of is known. *)
  hi_told id : told_open h id -> reported_id h id ∈ known;
  (** Nothing else is known, but devices that are about to be told as removed. *)
  hi_known id : id ∈ known ->
    (id = 0 /\ (told_open h (mBuiltInKeyboardId h) \/ exists c, behind known h c)) \/
    (told_open h id /\ id <> mBuiltInKeyboardId h) \/ id ∈ closing_ids h;
  (** At most one device is behind 0. *)
  hi_leaving id : behind known h id -> 0 ∈ known /\ (~ told_open h (mBuiltInKeyboardId h)) /\ forall id', behind known h id' -> id' = id;
}.

(** ** Steps *)

(** [m] returns with [Q], or the run ends for the lack of identifiers. *)
Definition goes {S A} (m : M S A) (Q : A -> S -> Prop) (s : S) : Prop := wp m Q (fun e _ => e = ids_exhausted) (fun _ => False) s.

Lemma goes_bind {S A B} (m : M S A) (k : A -> M S B) Q s :
  goes m (fun a s' => goes (k a) Q s') s -> goes (m ≫= k) Q s.
Proof. apply wp_bind. Qed.

Lemma goes_mono {S A} (m : M S A) (Q Q' : A -> S -> Prop) s :
  goes m Q s -> (forall a s', Q a s' -> Q' a s') -> goes m Q' s.
Proof. intros Hm HQ. eapply wp_mono; [exact Hm|done..]. Qed.

Lemma goes_then {S A B} (m : M S A) (k : A -> M S B) Q Q' s :
  goes m Q s -> (forall a s', Q a s' -> goes (k a) Q' s') -> goes (m ≫= k) Q' s.
Proof. intros Hm Hk. apply goes_bind. eapply goes_mono; [exact Hm|exact Hk]. Qed.

Lemma goes_gets {S A B} (f : S -> A) (k : A -> M S B) Q s : goes (k (f s)) Q s -> goes (gets f ≫= k) Q s.
Proof. done. Qed.

Lemma goes_modify {S B} (f : S -> S) (k : unit -> M S B) Q s : goes (k tt) Q (f s) -> goes (modify f ≫= k) Q s.
Proof. done. Qed.

Section Stream.
Context {K : Type} `{HKernel : InputKernel K} `{HFiles : ConfigFiles K} `{HLaws : !HubLaws K} (sha1 : string -> string).
Implicit Types (h : Hub K) (known : gset Z) (L : list input_event).

Abbreviation R := (M (Hub K)).

(** A hub in order, whose kernel has handed out [L]. *)
Definition hub_at known L h : Prop := hub_inv known h /\ k_log (hb_kernel h) = L.

(** The pending items, and the devices that are closing if [b]. *)
Definition frame (b : bool) h : list epoll_event * nat * bool * list Device :=
  (mPendingEventItems h, mPendingEventIndex h, mPendingINotify h, if b then mClosingDevices h else []).

Definition kept (b : bool) known L h h' : Prop := hub_at known L h' /\ frame b h' = frame b h.

(** Code that leaves alone what the caller knows and the frame. *)
Definition holds {A} (b : bool) (m : R A) : Prop := forall known L h, hub_at known L h -> goes m (fun _ => kept b known L h) h.

Lemma hub_inv_kernel known h k : hub_inv known h -> hub_inv known (eh_kernel k h).
Proof. intros []. by split. Qed.

Lemma holds_ret {A} b (a : A) : holds b (mret a).
Proof. by intros known L h Hh. Qed.

Lemma goes_kept {A B} b (m : R A) (k : A -> R B) known L h h0 : holds b m -> kept b known L h0 h ->
  (forall a h', kept b known L h0 h' -> goes (k a) (fun _ => kept b known L h0) h') -> goes (m ≫= k) (fun _ => kept b known L h0) h.
Proof.
  intros Hm [Hh Hf] Hk. eapply goes_then; [by apply Hm|]. intros a h' [Hh' Hf']. apply Hk. split; [done|]. congruence.
Qed.

Lemma holds_bind {A B} b (m : R A) (k : A -> R B) : holds b m -> (forall a, holds b (k a)) -> holds b (m ≫= k).
Proof.
  intros Hm Hk known L h Hh. eapply goes_kept; [done|by split|]. intros a h' [Hh' Hf].
  eapply goes_mono; [by apply Hk|]. intros x h'' [Hh'' Hf']. split; [done|congruence].
Qed.

Lemma holds_gets {A B} b (f : Hub K -> A) (k : A -> R B) : (forall a, holds b (k a)) -> holds b (gets f ≫= k).
Proof. intros Hk known L h Hh. apply goes_gets. by apply Hk. Qed.

Lemma holds_call {A} b (f : K -> A * K) : (forall k, k_log (snd (f k)) = k_log k) -> holds b (kernel_call f).
Proof.
  intros Hf known L h [Hi Hl]. unfold goes, wp, kernel_call. pose proof (Hf (hb_kernel h)) as Hk.
  destruct (f (hb_kernel h)) as [a k]. split; [|done]. split; [by apply hub_inv_kernel|]. cbn in *. congruence.
Qed.

Lemma holds_do b (f : K -> K) : (forall k, k_log (f k) = k_log k) -> holds b (kernel_do f).
Proof. intros Hf known L h [Hi Hl]. split; [|done]. split; [by apply hub_inv_kernel|]. cbn. by rewrite Hf. Qed.

Lemma holds_for_each {A} b (l : list A) (f : A -> R unit) : (forall x, holds b (f x)) -> holds b (for_each l f).
Proof. intros Hf. induction l as [|x l IH]; [apply holds_ret|]. cbn. by apply holds_bind. Qed.

(** ** Opening devices *)

Lemma find_device known h id d : hub_inv known h -> OrdMap.find id (hb_devices h) = Some d ->
  hd_id d = id /\ id_ok h id /\ maps_ok (hd_keyMap d) /\ id ∈ OrdMap.keys (hb_devices h).
Proof.
  intros Hi Hf. pose proof (find_some_keys _ _ _ Hf) as Hk. apply find_some_In in Hf.
  pose proof (proj1 (Forall_forall _ _) (hi_devices _ _ Hi) _ Hf) as (H1 & H2 & H3). done.
Qed.

Lemma hub_inv_next known h : hub_inv known h -> mNextDeviceId h <> INT32_MAX -> hub_inv known (eh_nextId (mNextDeviceId h + 1) h).
Proof.
  intros [Hs Hd Hn Hb Ho (Hc1 & Hc2 & Hc3) Ha Ht Hk Hl] Hne. unfold INT32_MAX in *.
  assert (forall id, id_ok h id -> id_ok (eh_nextId (mNextDeviceId h + 1) h) id) as Hid.
  { intros id [->|Hr]; [by left|right; cbn; lia]. }
  split; try done; cbn.
  - eapply Forall_impl; [exact Hd|]. intros e (H1 & H2 & H3). split; [done|]. split; [by apply Hid|done].
  - unfold INT32_MAX. lia.
  - destruct Hb as [?|?]; [by left|right; lia].
  - split; [done|]. split; [|done]. eapply Forall_impl; [exact Hc2|]. apply Hid.
Qed.

(** No device has the identifier that stands for the lack of one. *)
Lemma id_ok_proper h id : id_ok h id -> id <> NO_BUILT_IN_KEYBOARD /\ id <> 0.
Proof. unfold id_ok, VIRTUAL_KEYBOARD_ID, NO_BUILT_IN_KEYBOARD. lia. Qed.

Lemma keys_ok known h id : hub_inv known h -> id ∈ OrdMap.keys (hb_devices h) -> id_ok h id.
Proof.
  intros Hi Hin. apply list_elem_of_fmap in Hin as (e & -> & Hin).
  by destruct (proj1 (Forall_forall _ _) (hi_devices _ _ Hi) _ Hin) as (_ & ? & _).
Qed.

Lemma told_none known h : hub_inv known h -> ~ told_open h NO_BUILT_IN_KEYBOARD.
Proof. intros Hi [Hin _]. by destruct (id_ok_proper h NO_BUILT_IN_KEYBOARD (keys_ok _ _ _ Hi Hin)). Qed.

Lemma hub_inv_builtIn known h id : hub_inv known h -> mBuiltInKeyboardId h = NO_BUILT_IN_KEYBOARD ->
  id ∉ OrdMap.keys (hb_devices h) -> id ∉ closing_ids h -> 1 <= id < mNextDeviceId h -> hub_inv known (eh_builtIn id h).
Proof.
  intros Hi Hno Hfresh Hnc Hid. pose proof (told_none _ _ Hi) as Hnone. rewrite <- Hno in Hnone.
  destruct Hi as [Hs Hd Hn Hb Ho (Hc1 & Hc2 & Hc3) Ha Ht Hk Hl].
  split; try done; cbn; [by right|..].
  - intros x [Hx1 Hx2]. unfold reported_id. cbn. destruct (Z.eqb_spec x id) as [->|]; [done|].
    specialize (Ht x (conj Hx1 Hx2)). unfold reported_id in Ht. rewrite Hno in Ht.
    destruct (Z.eqb_spec x NO_BUILT_IN_KEYBOARD) as [E|]; [|done]. exfalso.
    apply list_elem_of_fmap in Hx1 as ([i d] & Hi & He). cbn in Hi.
    destruct (proj1 (Forall_forall _ _) Hd _ He) as (_ & Hok & _). cbn in Hok.
    unfold id_ok, VIRTUAL_KEYBOARD_ID, NO_BUILT_IN_KEYBOARD in *. lia.
  - intros x Hx. destruct (Hk x Hx) as [[-> [?|He]]|[[Hx1 Hx2]|Hx1]]; [done|left; split; [done|by right]| |by right; right].
    right; left. split; [exact Hx1|]. intros ->. by apply Hfresh, Hx1.
  - intros x Hx. destruct (Hl x Hx) as (H0 & _ & Hu). split; [done|]. split; [|done]. by intros [? _].
Qed.

Lemma hub_inv_add known h d : hub_inv known h -> hd_id d ∉ OrdMap.keys (hb_devices h) -> id_ok h (hd_id d) -> maps_ok (hd_keyMap d) ->
  hub_inv known (eh_opening (hd_id d :: mOpeningDevices h) (eh_devices (OrdMap.insert (hd_id d) d (hb_devices h)) h)).
Proof.
  intros [Hs Hd Hn Hb [Ho1 Ho2] Hc Ha Ht Hk Hl] Hfresh Hid Hm.
  set (h' := eh_opening _ _).
  assert (forall x, told_open h' x <-> told_open h x) as Htold.
  { intros x. unfold told_open, h'. cbn [hb_devices mOpeningDevices eh_opening eh_devices]. rewrite keys_insert, not_elem_of_cons. split.
    - intros [[->|Hx] [Hne Hx2]]; [done|by split].
    - intros [Hx1 Hx2]. split; [by right|]. split; [intros ->; done|done]. }
  split; try done; cbn [hb_devices mOpeningDevices eh_opening eh_devices].
  - by apply insert_sorted.
  - by apply insert_Forall.
  - split; [constructor; [|done]; intros Hin; by apply Hfresh, Ho2|].
    intros x Hx. apply keys_insert. apply elem_of_cons in Hx as [->|Hx]; [by left|right; by apply Ho2].
  - intros x Hx. apply Ha. by apply Htold.
  - intros x Hx. by apply Ht, Htold.
  - intros x Hx. destruct (Hk x Hx) as [[-> [He|He]]|[[Hx1 Hx2]|Hx1]]; [left; split; [done|]|left; split; [done|]| |by right; right].
    + left. by apply Htold.
    + by right.
    + right; left. split; [by apply Htold|done].
  - intros x Hx. destruct (Hl x Hx) as (H0 & Hno & Hu). split; [done|]. split; [|done]. intros Hto. by apply Hno, Htold.
Qed.

Lemma hasKeycode_ok d c : maps_ok (hd_keyMap d) -> exists b, hasKeycodeLocked d c = Some b.
Proof.
  intros [Hl _]. unfold hasKeycodeLocked. destruct (haveKeyLayout _); [|by eexists].
  destruct (Hl eq_refl) as (l & -> & _). by eexists.
Qed.

Lemma has_all_ok d l : maps_ok (hd_keyMap d) -> exists b, has_all d l = Some b.
Proof.
  intros Hm. induction l as [|c l IH]; [by eexists|]. cbn. destruct (hasKeycode_ok d c Hm) as [[] ->]; [exact IH|by eexists].
Qed.

Lemma has_any_ok d l : maps_ok (hd_keyMap d) -> exists b, has_any d l = Some b.
Proof.
  intros Hm. induction l as [|c l IH]; [by eexists|]. cbn. destruct (hasKeycode_ok d c Hm) as [[] ->]; [by eexists|exact IH].
Qed.

Lemma eligible_ok i c m : maps_ok m -> exists b, isEligibleBuiltInKeyboard i c m = Some b.
Proof.
  intros [_ Hc]. unfold isEligibleBuiltInKeyboard. destruct (haveKeyCharacterMap m); cbn [negb]; [|by eexists].
  destruct (Hc eq_refl) as (x & -> & _). repeat case_match; by eexists.
Qed.

Lemma goes_check {A B} (x : option A) a (k : A -> R B) Q h : x = Some a -> goes (k a) Q h -> goes (check x ≫= k) Q h.
Proof. by intros ->. Qed.

(** Loading key maps does not touch the hub. *)
Lemma goes_loadKeyMap d Q h : hd_keyMap d = KeyMap_new ->
  (forall m, maps_ok m -> Q (0, set_keyMap m d) h) -> goes (device_loadKeyMap d) Q h.
Proof.
  intros Hnew HQ. unfold device_loadKeyMap. apply goes_gets. unfold on_object.
  destruct (loadKeyMap_complete (hb_kernel h) (hd_identifier d) (hd_configuration d) (hd_keyMap d) (eq_sym Hnew)) as (a & m & E & -> & _ & Hm).
  unfold goes, wp, mbind, M_bind. rewrite E. cbn. by apply HQ.
Qed.

Lemma goes_virtualKeys d Q h :
  (forall s v, Q (s, set_virtualKeyMap v d) h) -> Q (NAME_NOT_FOUND, d) h -> goes (loadVirtualKeyMapLocked d) Q h.
Proof.
  intros HQ H0. unfold loadVirtualKeyMapLocked. apply goes_gets. cbv zeta. destruct (negb _); [exact H0|].
  destruct (file_contents _ _) as [errno|text]; [apply HQ|].
  destruct (virtual_loads (fromFile text)) as (s & v & ->). apply HQ.
Qed.

(** A device that is being opened: it is not yet one of the hub's. *)
Definition fresh h (d : Device) : Prop :=
  (hd_id d ∉ OrdMap.keys (hb_devices h)) /\ (hd_id d ∉ closing_ids h) /\ 1 <= hd_id d < mNextDeviceId h.

(** The fields that opening a device does not change. *)
Definition same_device (d d' : Device) : Prop := hd_id d' = hd_id d /\ hd_fd d' = hd_fd d.

(** Adding classes keeps the rest of a device. *)
Lemma configure_keys_goes known L h d Q : hub_at known L h -> fresh h d -> hd_keyMap d = KeyMap_new ->
  (forall d' h', h' = h \/ h' = eh_builtIn (hd_id d) h -> hub_at known L h' -> same_device d d' -> maps_ok (hd_keyMap d') -> Q d' h') ->
  goes (configure_keys d) Q h.
Proof.
  intros Hh (Hf1 & Hf2 & Hf3) Hnew HQ. unfold configure_keys. cbv zeta.
  apply (goes_then _ _ (fun r h' => h' = h /\ same_device d (snd r) /\ hd_keyMap (snd r) = KeyMap_new)).
  { destruct (has _ _); [|done]. by apply goes_virtualKeys. }
  intros [s1 d1] h1 (-> & [Hid1 Hfd1] & Hm1). cbn [fst snd].
  set (d2 := if s1 =? 0 then _ else d1).
  assert (same_device d d2 /\ hd_keyMap d2 = KeyMap_new) as [Hs2 Hm2] by (unfold d2; case_match; done). clearbody d2.
  apply (goes_then _ _ (fun r h' => h' = h /\ same_device d (snd r) /\ maps_ok (hd_keyMap (snd r)))).
  { destruct (has _ _); [|cbn; by rewrite Hm2]. by apply goes_loadKeyMap. }
  intros [s3 d3] h1 (-> & Hs3 & Hm3). cbn [fst snd] in *.
  destruct (negb _); [by apply HQ; [left|..]|]. apply goes_gets.
  apply (goes_then _ _ (fun _ h' => (h' = h \/ h' = eh_builtIn (hd_id d) h) /\ hub_at known L h')).
  { destruct (_ && _) eqn:E; [|by split; [left|]]. apply andb_prop in E as [_ E]. apply Z.eqb_eq in E.
    destruct (eligible_ok (hd_identifier d3) (hd_configuration d3) _ Hm3) as [el Eel].
    eapply goes_check; [exact Eel|]. destruct el; [|by split; [left|]].
    split; [right; by destruct Hs3 as [-> _]|]. destruct Hs3 as [-> _]. destruct Hh as [Hi Hl].
    split; [by apply hub_inv_builtIn|done]. }
  intros _ h1 [Hh1 Hat1].
  destruct (hasKeycode_ok d3 AKEYCODE_Q Hm3) as [alpha Ea]. eapply goes_check; [exact Ea|]. clear Ea.
  set (d4 := if alpha then _ else d3).
  assert (same_device d d4 /\ maps_ok (hd_keyMap d4)) as [Hs4 Hm4] by (unfold d4; case_match; done). clearbody d4.
  edestruct (has_all_ok d4) as [dpad Ed]; [done|]. eapply goes_check; [exact Ed|]. clear Ed.
  set (d5 := if dpad then _ else d4).
  assert (same_device d d5 /\ maps_ok (hd_keyMap d5)) as [Hs5 Hm5] by (unfold d5; case_match; done). clearbody d5.
  edestruct (has_any_ok d5) as [pad Ed]; [done|]. eapply goes_check; [exact Ed|]. apply HQ; [done|done|by case_match..].
Qed.

Lemma holds_read_identifier b fd : holds b (read_identifier sha1 fd).
Proof.
  unfold read_identifier. apply (holds_gets b (fun h => h)). intros h. cbv zeta.
  destruct (existsb _ _); [apply holds_ret|]. destruct (negb _); [apply holds_ret|].
  destruct (k_id _ _); [|apply holds_ret]. apply holds_bind; [apply holds_call, log_nonblock|intros; apply holds_ret].
Qed.

(** A device that was not among the hub's may be added. *)
Lemma addDevice_kept known L h d : hub_at known L h -> hd_id d ∉ OrdMap.keys (hb_devices h) -> id_ok h (hd_id d) -> maps_ok (hd_keyMap d) ->
  goes (addDeviceLocked d) (fun _ => kept true known L h) h.
Proof. intros [Hi Hl] Hn Hid Hm. split; [|done]. split; [by apply hub_inv_add|done]. Qed.

Lemma kept_step b known L h0 h h' : kept b known L h0 h -> kept b known L h h' -> kept b known L h0 h'.
Proof. intros [_ E] [Hh E']. split; [done|congruence]. Qed.

Lemma fresh_next known h d : hub_inv known h -> hd_id d = mNextDeviceId h -> mNextDeviceId h <> INT32_MAX ->
  fresh (eh_nextId (mNextDeviceId h + 1) h) d.
Proof.
  intros Hi Hid Hne. pose proof (hi_next _ _ Hi) as Hn. unfold fresh. cbn. rewrite Hid. split; [|split; [|lia]].
  - intros Hin. apply list_elem_of_fmap in Hin as ([i x] & E & Hin). cbn in E. subst i.
    destruct (proj1 (Forall_forall _ _) (hi_devices _ _ Hi) _ Hin) as (_ & [Hv|Hv] & _); cbn in Hv; [|lia].
    unfold VIRTUAL_KEYBOARD_ID in Hv. lia.
  - intros Hin. destruct (hi_closing _ _ Hi) as (_ & Hc & _).
    destruct (proj1 (Forall_forall _ _) Hc _ Hin) as [Hv|Hv]; [|lia]. unfold VIRTUAL_KEYBOARD_ID in Hv. lia.
Qed.

(** The end of [openDeviceLocked]: the device is registered and added, or closed. *)
Lemma register_kept known L h d fd id : hub_at known L h -> hd_id d ∉ OrdMap.keys (hb_devices h) -> id_ok h (hd_id d) -> maps_ok (hd_keyMap d) ->
  goes (added ← kernel_call (k_epoll_add fd id) ;
        if negb (added : bool) then kernel_do (k_close fd) ;; mret (-1)
        else kernel_do (k_use_clock fd) ;; addDeviceLocked d ;; mret 0) (fun _ => kept true known L h) h.
Proof.
  intros [Hi Hl] Hn Hid Hm. apply goes_bind. unfold goes at 1, wp, kernel_call.
  pose proof (log_add fd id (hb_kernel h)) as Hk. destruct (k_epoll_add fd id (hb_kernel h)) as [[] k]; cbn in Hk |- *.
  - split; [|done]. split; [|cbn; rewrite log_clock; congruence].
    apply (hub_inv_add known (eh_kernel _ (eh_kernel _ h))); [|done..]. by do 2 apply hub_inv_kernel.
  - split; [|done]. split; [by do 2 apply hub_inv_kernel|]. cbn. rewrite log_close. congruence.
Qed.

Lemma holds_open path : holds true (openDeviceLocked sha1 path).
Proof.
  intros known L h Hh. unfold openDeviceLocked.
  eapply goes_kept; [apply holds_call, log_open|by split|]. intros [fd|] h1 Hh1; [|done].
  eapply goes_kept; [apply holds_read_identifier|done|]. intros [identifier|] h2 Hh2.
  2:{ eapply goes_kept; [apply holds_do, log_close|done|done]. }
  apply goes_gets. destruct (Z.eqb_spec (mNextDeviceId h2) INT32_MAX) as [|Hne]; [done|]. apply goes_modify.
  set (h3 := eh_nextId _ h2). destruct Hh2 as [[Hi2 Hl2] Hf2].
  assert (kept true known L h h3) as Hh3 by (split; [split; [by apply hub_inv_next|done]|done]).
  unfold loadConfigurationLocked. apply goes_bind, goes_gets. cbn [goes wp mret M_ret]. apply goes_gets.
  match goal with |- goes (configure_keys ?x ≫= _) _ _ => set (d := x) end.
  apply goes_bind, (configure_keys_goes known L); [by destruct Hh3|by apply (fresh_next known)|done|].
  intros d' h4 Hh4 Hat [Hid Hfd] Hm.
  assert (kept true known L h h4) as Hk4 by (split; [done|]; destruct Hh3 as [_ <-]; by destruct Hh4 as [->| ->]).
  destruct (_ =? 0); [eapply goes_kept; [apply holds_do, log_close|done|done]|].
  destruct (fresh_next known h2 d Hi2 eq_refl Hne) as (Hf & _ & Hr).
  eapply goes_mono; [apply register_kept|intros x h5; apply (kept_step _ _ _ _ _ _ Hk4)]; [exact Hat|..|by case_match].
  - replace (hb_devices h4) with (hb_devices h3) by (by destruct Hh4 as [->| ->]). by case_match; cbn; rewrite Hid.
  - right. replace (mNextDeviceId h4) with (mNextDeviceId h3) by (by destruct Hh4 as [->| ->]). by case_match; cbn [set_classes hd_id]; rewrite Hid.
Qed.

Lemma holds_scanDir dirname : holds true (scanDirLocked sha1 dirname).
Proof.
  apply holds_gets. intros k. destruct (k_readdir _ _); [|apply holds_ret].
  apply holds_bind; [|intros; apply holds_ret]. apply holds_for_each. intros name.
  destruct (_ || _); [apply holds_ret|]. apply holds_bind; [apply holds_open|intros; apply holds_ret].
Qed.

Lemma holds_scanDevices : holds true (scanDevicesLocked sha1).
Proof.
  intros known L h Hh. unfold scanDevicesLocked. eapply goes_kept; [apply holds_scanDir|by split|]. intros _ h1 Hh1.
  apply goes_gets. destruct (OrdMap.find _ _) eqn:Ef; [done|]. unfold createVirtualKeyboardLocked. cbv zeta.
  apply goes_bind, goes_loadKeyMap; [done|]. intros m Hm.
  eapply goes_mono; [apply addDevice_kept|intros x h5; apply (kept_step _ _ _ _ _ _ Hh1)]; [by destruct Hh1|..|done]; cbn.
  - by apply find_none_keys.
  - by left.
Qed.

(** ** Closing devices *)

Lemma unlink_spec id l x : NoDup l -> x ∈ unlink id l <-> x <> id /\ x ∈ l.
Proof.
  induction 1 as [|i l Hi Hl IH]; cbn; [set_solver|].
  destruct (Z.eqb_spec i id) as [->|]; rewrite ?elem_of_cons; [|rewrite IH]; split; intros; destruct_and?; try split; naive_solver.
Qed.

Lemma unlink_NoDup id l : NoDup l -> NoDup (unlink id l).
Proof.
  induction 1 as [|i l Hi Hl IH]; cbn; [constructor|]. destruct (Z.eqb_spec i id); [done|].
  constructor; [|done]. rewrite unlink_spec by done. by intros [_ ?].
Qed.

Lemma keys_erase {V} (m : list (Z * V)) k x : OrdMap.sorted m -> x ∈ OrdMap.keys (OrdMap.erase k m) <-> x <> k /\ x ∈ OrdMap.keys m.
Proof.
  intros Hs. pose proof (sorted_NoDup _ Hs) as Hn. clear Hs. induction m as [|[i v] m IH]; cbn; [set_solver|].
  apply NoDup_cons in Hn as [Hi Hn]. specialize (IH Hn).
  destruct (Z.eqb_spec k i) as [->|]; cbn; rewrite ?elem_of_cons; [|rewrite IH]; split; intros; destruct_and?; try split; naive_solver.
Qed.

(** A hub without one of its devices, of which the built-in keyboard is forgotten too. *)
Definition without h id : Hub K :=
  eh_devices (OrdMap.erase id (hb_devices h)) (if id =? mBuiltInKeyboardId h then eh_builtIn NO_BUILT_IN_KEYBOARD h else h).

Lemma without_same h id : hb_devices (without h id) = OrdMap.erase id (hb_devices h) /\ mOpeningDevices (without h id) = mOpeningDevices h /\
  mClosingDevices (without h id) = mClosingDevices h /\ mNextDeviceId (without h id) = mNextDeviceId h /\ hb_kernel (without h id) = hb_kernel h.
Proof. unfold without. by case_match. Qed.

Lemma without_builtIn known h id : hub_inv known h ->
  (mBuiltInKeyboardId (without h id) = mBuiltInKeyboardId h /\ mBuiltInKeyboardId h <> id) \/
  (mBuiltInKeyboardId (without h id) = NO_BUILT_IN_KEYBOARD /\ mBuiltInKeyboardId h = id).
Proof. intros Hi. unfold without. destruct (Z.eqb_spec id (mBuiltInKeyboardId h)); [right|left]; by split. Qed.

(** Other devices are told under the same identifier. *)
Lemma without_reported known h id x : hub_inv known h -> id_ok h x -> x <> id -> reported_id (without h id) x = reported_id h x.
Proof.
  intros Hi Hx Hne. unfold reported_id. pose proof (id_ok_proper _ _ Hx) as [Hno _].
  destruct (without_builtIn _ _ id Hi) as [[-> _]|[-> ->]]; [done|].
  by destruct (Z.eqb_spec x NO_BUILT_IN_KEYBOARD), (Z.eqb_spec x id).
Qed.

(** The device that is gone was about to be told of, or must be told as removed. *)
Definition dropped h id (c : list Device) : Prop :=
  (id ∈ mOpeningDevices h /\ map hd_id c = closing_ids h) \/ (told_open h id /\ map hd_id c = id :: closing_ids h).

Lemma dropped_closing known h id c : hub_inv known h -> dropped h id c -> NoDup (map hd_id c) /\ Forall (id_ok h) (map hd_id c).
Proof.
  intros Hi [[_ ->]|[Ht ->]]; destruct (hi_closing _ _ Hi) as (Hc1 & Hc2 & _); [done|].
  split; constructor; try done; [by apply (hi_apart _ _ Hi)|]. apply (keys_ok known); [done|apply Ht].
Qed.

Lemma dropped_mem h id c x : dropped h id c -> x ∈ map hd_id c -> x ∈ closing_ids h \/ (x = id /\ told_open h id).
Proof. intros [[_ ->]|[Ht ->]] Hx; [by left|]. apply elem_of_cons in Hx as [->|Hx]; [by right|by left]. Qed.

(** The hub after a device has been dropped. *)
Definition after_drop h id (c : list Device) : Hub K := eh_closing c (eh_opening (unlink id (mOpeningDevices h)) (without h id)).

Lemma drop_told known h id c x : hub_inv known h -> told_open (after_drop h id c) x <-> told_open h x /\ x <> id.
Proof.
  intros Hi. destruct (without_same h id) as (E1 & _). unfold told_open, after_drop. cbn [hb_devices mOpeningDevices eh_opening eh_closing].
  rewrite E1, keys_erase, unlink_spec by apply Hi. naive_solver.
Qed.

(** The built-in keyboard that was told of is not known under its own identifier. *)
Lemma builtIn_unknown known h : hub_inv known h -> told_open h (mBuiltInKeyboardId h) -> mBuiltInKeyboardId h ∉ known.
Proof.
  intros Hi Hto Hin. destruct (id_ok_proper _ _ (keys_ok _ _ _ Hi (proj1 Hto))) as [_ H0].
  destruct (hi_known _ _ Hi _ Hin) as [[? _]|[[_ ?]|Hc]]; [done..|]. by apply (hi_apart _ _ Hi _ Hto).
Qed.

(** What stands behind 0 after a device has been dropped. *)
Lemma drop_zero known h id c : hub_inv known h -> dropped h id c ->
  told_open h (mBuiltInKeyboardId h) \/ (exists x, behind known h x) ->
  told_open (after_drop h id c) (mBuiltInKeyboardId (after_drop h id c)) \/ exists x, behind known (after_drop h id c) x.
Proof.
  intros Hi Hdrop [Hto|(x & Hx1 & Hx2)].
  - change (mBuiltInKeyboardId (after_drop h id c)) with (mBuiltInKeyboardId (without h id)).
    destruct (without_builtIn _ _ id Hi) as [[-> Hne]|[_ E]]; [left; by apply (drop_told known)|]. right. exists id.
    rewrite E in Hto. destruct Hdrop as [[Ho _]|[_ Ec]]; [by destruct Hto|]. unfold behind, closing_ids, after_drop. cbn. rewrite Ec.
    split; [apply list_elem_of_here|]. rewrite <- E. apply builtIn_unknown; [done|by rewrite E].
  - right. exists x. split; [|done]. unfold closing_ids, after_drop. cbn. destruct Hdrop as [[_ ->]|[_ ->]]; [done|by apply list_elem_of_further].
Qed.

(** A device that is gone, known as 0 or not. *)
Lemma dropped_leaving known h id c x : hub_inv known h -> dropped h id c -> behind known (after_drop h id c) x ->
  behind known h x \/ (x = id /\ id = mBuiltInKeyboardId h /\ told_open h id).
Proof.
  intros Hi Hdrop [Hx1 Hx2]. destruct (dropped_mem _ _ _ _ Hdrop Hx1) as [Hin|[-> Hto]]; [by left|]. right.
  pose proof (hi_told _ _ Hi _ Hto) as Ht. unfold reported_id in Ht. by destruct (Z.eqb_spec id (mBuiltInKeyboardId h)).
Qed.

Lemma drop_leaving known h id c : hub_inv known h -> dropped h id c -> forall x, behind known (after_drop h id c) x ->
  0 ∈ known /\ (~ told_open (after_drop h id c) (mBuiltInKeyboardId (after_drop h id c))) /\
  forall y, behind known (after_drop h id c) y -> y = x.
Proof.
  intros Hi Hdrop x Hx. pose proof (dropped_leaving _ _ _ _ _ Hi Hdrop Hx) as Hx'.
  assert (~ told_open (after_drop h id c) (mBuiltInKeyboardId (after_drop h id c))) as Hno.
  { intros Hto. change (mBuiltInKeyboardId (after_drop h id c)) with (mBuiltInKeyboardId (without h id)) in Hto.
    apply (drop_told known) in Hto as [Hto Hne]; [|done]. destruct (without_builtIn _ _ id Hi) as [[E E']|[E _]]; rewrite E in Hto.
    - destruct Hx' as [Hx'|(_ & -> & _)]; [by destruct (hi_leaving _ _ Hi _ Hx') as (_ & ? & _)|done].
    - by apply (told_none known h). }
  assert (0 ∈ known) as H0.
  { destruct Hx' as [Hx'|(_ & E & Hto)]; [apply (hi_leaving _ _ Hi _ Hx')|]. pose proof (hi_told _ _ Hi _ Hto) as Ht.
    unfold reported_id in Ht. by rewrite <- E, Z.eqb_refl in Ht. }
  split; [done|]. split; [done|]. intros y Hy. pose proof (dropped_leaving _ _ _ _ _ Hi Hdrop Hy) as Hy'.
  destruct Hx' as [Hx'|(-> & E & Hto)], Hy' as [Hy'|(-> & E' & Hto')]; [by apply (hi_leaving _ _ Hi _ Hx')|..|done]; exfalso.
  - rewrite E' in Hto'. by destruct (hi_leaving _ _ Hi _ Hx') as (_ & ? & _).
  - rewrite E in Hto. by destruct (hi_leaving _ _ Hi _ Hy') as (_ & ? & _).
Qed.

Lemma hub_inv_drop known h id c : hub_inv known h -> dropped h id c -> hub_inv known (after_drop h id c).
Proof.
  intros Hi Hdrop. pose proof Hi as [Hs Hd Hn Hb [Ho1 Ho2] (Hc1 & Hc2 & Hc3) Ha Ht Hk Hl].
  destruct (without_same h id) as (E1 & E2 & E3 & E4 & E5). set (h' := after_drop h id c).
  assert (forall x, told_open h' x <-> told_open h x /\ x <> id) as Htold by (intros; by apply (drop_told known)).
  assert (forall x, id_ok h' x <-> id_ok h x) as Hok by (intros; unfold id_ok, h', after_drop; cbn [mNextDeviceId eh_opening eh_closing]; by rewrite E4).
  destruct (dropped_closing _ _ _ _ Hi Hdrop) as [Hn' Hc'].
  split; try (by apply drop_leaving); unfold h', after_drop, closing_ids; cbn [hb_devices mOpeningDevices mClosingDevices eh_closing eh_opening mNextDeviceId mBuiltInKeyboardId];
    rewrite ?E1, ?E4.
  - by apply erase_sorted.
  - apply erase_Forall. eapply Forall_impl; [exact Hd|]. intros e (H1 & H2 & H3). split; [done|]. split; [by apply Hok|done].
  - done.
  - destruct (without_builtIn _ _ id Hi) as [[-> _]|[-> _]]; [done|by left].
  - split; [by apply unlink_NoDup|]. intros x Hx. apply unlink_spec in Hx as [Hx1 Hx2]; [|done]. apply keys_erase; [done|]. split; [done|by apply Ho2].
  - split; [done|]. split; [eapply Forall_impl; [exact Hc'|]; apply Hok|]. intros Hx.
    destruct (without_builtIn _ _ id Hi) as [[E Hne]|[E _]]; rewrite E in Hx.
    + destruct (dropped_mem _ _ _ _ Hdrop Hx) as [?|[? _]]; congruence.
    + destruct (id_ok_proper h NO_BUILT_IN_KEYBOARD) as [H1 _]; [by apply (proj1 (Forall_forall _ _) Hc')|done].
  - intros x [Hx Hne]%Htold Hin. destruct (dropped_mem _ _ _ _ Hdrop Hin) as [Hin'|[-> _]]; [by apply (Ha x)|done].
  - intros x [Hx Hne]%Htold. enough (reported_id (without h id) x ∈ known) by done.
    rewrite (without_reported known); [by apply Ht|done|apply (keys_ok known); [done|apply Hx]|done].
  - intros x Hx. destruct (Hk x Hx) as [[-> H0]|[[Hx1 Hx2]|Hx1]].
    + left. split; [done|]. by apply (drop_zero known h id c).
    + right. destruct (decide (x = id)) as [->|Hne].
      * right. destruct Hdrop as [[Ho _]|[_ ->]]; [by destruct Hx1|apply list_elem_of_here].
      * left. split; [by apply Htold|]. destruct (without_builtIn _ _ id Hi) as [[-> _]|[-> _]]; [done|].
        apply (id_ok_proper h), (keys_ok known); [done|apply Hx1].
    + right; right. destruct Hdrop as [[_ ->]|[_ ->]]; [done|by apply list_elem_of_further].
Qed.

Lemma unlink_absent id l : id ∉ l -> unlink id l = l.
Proof.
  induction l as [|i l IH]; intros Hn; [done|]. apply not_elem_of_cons in Hn as [Hne Hn]. cbn.
  destruct (Z.eqb_spec i id); [congruence|]. by rewrite IH.
Qed.

Lemma existsb_mem id (l : list Z) : existsb (Z.eqb id) l = bool_decide (id ∈ l).
Proof.
  apply eq_true_iff_eq. rewrite bool_decide_eq_true, existsb_exists, list_elem_of_In.
  split; [by intros (x & Hx & ->%Z.eqb_eq)|]. intros Hx. exists id. by rewrite Z.eqb_refl.
Qed.

(** What [closeDeviceLocked] leaves. *)
Lemma closeDevice_result h d : exists k c,
  closeDeviceLocked d h = Ret tt (eh_kernel k (eh_closing c (eh_opening (unlink (hd_id d) (mOpeningDevices h)) (without h (hd_id d))))) /\
  k_log k = k_log (hb_kernel h) /\ (OrdMap.find (hd_id d) (hb_devices h) = Some d -> dropped h (hd_id d) c).
Proof.
  unfold closeDeviceLocked, without.
  set (k1 := if isVirtual d then hb_kernel h else k_epoll_del (hd_fd d) (hb_kernel h)).
  set (k2 := if 0 <=? hd_fd d then k_close (hd_fd d) k1 else k1).
  set (c := if bool_decide (hd_id d ∈ mOpeningDevices h) then mClosingDevices h else set_fd (-1) d :: mClosingDevices h).
  exists k2, c. split; [|split].
  - unfold c, k2, k1. unfold mbind, M_bind, gets, modify, mret, M_ret, kernel_do. case_bool_decide as Ho; [|rewrite unlink_absent by done];
      destruct (hd_id d =? _), (isVirtual d), (0 <=? hd_fd d); cbn; rewrite existsb_mem; by case_bool_decide.
  - unfold k2, k1. destruct (isVirtual d), (0 <=? hd_fd d); rewrite ?log_close, ?log_del; done.
  - intros Hf. unfold c, dropped. case_bool_decide as Ho; [by left|]. right. split; [|done]. split; [by eapply find_some_keys|done].
Qed.

Lemma closeDevice_goes known L h d : hub_at known L h -> OrdMap.find (hd_id d) (hb_devices h) = Some d ->
  goes (closeDeviceLocked d) (fun _ h' => kept false known L h h' /\ hb_devices h' = OrdMap.erase (hd_id d) (hb_devices h) /\
    mOpeningDevices h' = unlink (hd_id d) (mOpeningDevices h)) h.
Proof.
  intros [Hi Hl] Hf. destruct (closeDevice_result h d) as (k & c & E & Ek & Hd). unfold goes, wp. rewrite E.
  destruct (without_same h (hd_id d)) as (E1 & _). split; [|by split].
  split; [split; [by apply hub_inv_kernel, hub_inv_drop, Hd|by rewrite <- Hl]|]. unfold without, frame. by case_match.
Qed.

Lemma entry_found known h e : hub_inv known h -> e ∈ hb_devices h -> OrdMap.find (hd_id (snd e)) (hb_devices h) = Some (snd e).
Proof.
  intros Hi Hin. destruct (proj1 (Forall_forall _ _) (hi_devices _ _ Hi) _ Hin) as (-> & _).
  apply find_In_sorted; [apply Hi|by destruct e].
Qed.

Lemma closeDevice_kept known L h h0 d : kept false known L h0 h -> OrdMap.find (hd_id d) (hb_devices h) = Some d ->
  goes (closeDeviceLocked d) (fun _ => kept false known L h0) h.
Proof.
  intros Hh Hf. eapply goes_mono; [apply (closeDevice_goes known L); [apply Hh|done]|].
  intros _ h' (Hh' & _). by apply (kept_step _ _ _ _ h).
Qed.

Lemma holds_closeByPath path : holds false (closeDeviceByPathLocked path).
Proof.
  intros known L h Hh. unfold closeDeviceByPathLocked. apply goes_gets. unfold getDeviceByPathLocked.
  destruct (List.find _ _) as [e|] eqn:Ef; [|done]. cbn. apply List.find_some in Ef as [Hin _]. apply list_elem_of_In in Hin.
  eapply goes_then; [apply (closeDevice_kept known L h h)|by intros]; [done|]. by apply (entry_found known); [apply Hh|].
Qed.

Lemma holds_close_last n : holds false (close_last n).
Proof.
  induction n as [|n IH]; [apply holds_ret|]. intros known L h Hh. cbn [close_last]. apply goes_gets.
  destruct (List.last _ None) as [d|] eqn:El; [|done].
  assert (d ∈ map snd (hb_devices h)) as Hin.
  { revert El. generalize (map snd (hb_devices h)). clear. intros l. induction l as [|x [|y l] IH]; cbn; intros El; [done| |].
    - simplify_eq. apply list_elem_of_here.
    - apply list_elem_of_further, IH, El. }
  apply list_elem_of_fmap in Hin as (e & -> & Hin).
  eapply goes_then; [apply (closeDevice_kept known L h h)|]; [done|by apply (entry_found known); [apply Hh|]|].
  intros ? h' Hh'. eapply goes_mono; [apply IH, Hh'|]. intros ? h''. by apply kept_step.
Qed.

Lemma holds_closeAll : holds false closeAllDevicesLocked.
Proof. apply holds_gets. intros devices. apply holds_close_last. Qed.

Lemma holds_weaken {A} (m : R A) : holds true m -> holds false m.
Proof.
  intros Hm known L h Hh. eapply goes_mono; [by apply Hm|]. intros _ h' [Hh' Hf]. split; [done|].
  unfold frame in *. congruence.
Qed.

Lemma holds_readNotify : holds false (readNotifyLocked sha1).
Proof.
  apply holds_bind; [apply holds_call, log_inotify|]. intros [events|]; [|apply holds_ret].
  apply holds_bind; [|intros; apply holds_ret]. apply holds_for_each. intros e. destruct (isEmpty _); [apply holds_ret|].
  cbv zeta. destruct (has _ _); (apply holds_bind; [|intros; apply holds_ret]).
  - apply holds_weaken, holds_open.
  - apply holds_closeByPath.
Qed.

(** Reading the wake pipe ends. *)
Lemma drain_pipe_kept b fuel known L h : (k_pipe_level (hb_kernel h) < fuel)%nat -> hub_at known L h ->
  goes (drain_pipe fuel) (fun _ h' => kept b known L h h' /\ exists k, h' = eh_kernel k h) h.
Proof.
  revert h. induction fuel as [|fuel IH]; intros h Hfuel [Hi Hl]; [lia|]. cbn [drain_pipe]. apply goes_bind.
  unfold goes at 1, wp, kernel_call. pose proof (log_pipe (hb_kernel h)) as Hk. pose proof (pipe_empties (hb_kernel h)) as Hp.
  destruct (k_pipe_read (hb_kernel h)) as [r k]. cbn in Hk, Hp.
  assert (hub_at known L (eh_kernel k h)) as Hat by (split; [by apply hub_inv_kernel|cbn; congruence]).
  assert (kept b known L h (eh_kernel k h) /\ exists k', eh_kernel k h = eh_kernel k' h) as Hdone by (split; [done|by eexists]).
  assert ((k_pipe_level k < fuel)%nat -> goes (drain_pipe fuel) (fun _ h' => kept b known L h h' /\ exists k, h' = eh_kernel k h) (eh_kernel k h)) as Hrec.
  { intros Hlt. eapply goes_mono; [by apply IH|]. intros _ h' (Hh' & k' & ->). split; [exact Hh'|by exists k']. }
  destruct r as [errno|n].
  - destruct (Z.eqb_spec errno EINTR) as [->|]; [|exact Hdone]. apply Hrec. specialize (Hp (or_introl eq_refl)). lia.
  - destruct (Nat.eqb_spec n 16) as [->|]; [|exact Hdone]. apply Hrec. specialize (Hp (or_intror eq_refl)). lia.
Qed.

(** ** The other calls *)

(** A device of the hub that has changed in other respects. *)
Lemma hub_inv_put known h d : hub_inv known h -> hd_id d ∈ OrdMap.keys (hb_devices h) -> maps_ok (hd_keyMap d) ->
  hub_inv known (eh_devices (OrdMap.insert (hd_id d) d (hb_devices h)) h).
Proof.
  intros Hi Hin Hm. pose proof Hi as [Hs Hd Hn Hb [Ho1 Ho2] Hc Ha Ht Hk Hl].
  assert (forall x, x ∈ OrdMap.keys (OrdMap.insert (hd_id d) d (hb_devices h)) <-> x ∈ OrdMap.keys (hb_devices h)) as Hkeys
    by (intros x; rewrite keys_insert; naive_solver).
  split; try done; cbn [hb_devices eh_devices].
  - by apply insert_sorted.
  - apply insert_Forall; [|done]. split; [done|]. split; [apply (keys_ok known h); done|done].
  - split; [done|]. intros x Hx. by apply Hkeys, Ho2.
  - intros x [Hx%Hkeys Hx2]. by apply Ha.
  - intros x [Hx%Hkeys Hx2]. by apply Ht.
  - intros x Hx. destruct (Hk x Hx) as [[-> [[H0 H1]|He]]|[[[Hx1 Hx2] Hx3]|Hx1]]; [left..| |by right; right].
    + split; [done|]. left. split; [by apply Hkeys|done].
    + split; [done|by right].
    + right; left. split; [split; [by apply Hkeys|done]|done].
  - intros x Hx. destruct (Hl x Hx) as (H0 & Hno & Hu). split; [done|]. split; [|done]. intros [Hy%Hkeys ?]. by apply Hno.
Qed.

Definition device_ok h (d : Device) : Prop := hd_id d ∈ OrdMap.keys (hb_devices h) /\ maps_ok (hd_keyMap d).

Lemma getDevice_ok known h id d : hub_inv known h -> getDeviceLocked id h = Some d -> device_ok h d.
Proof. intros Hi Hf. destruct (find_device _ _ _ _ Hi Hf) as (<- & _ & Hm & Hin). by split. Qed.

Lemma real_device_ok known h id d : hub_inv known h -> real_device id h = Some d -> device_ok h d.
Proof.
  intros Hi. unfold real_device. destruct (getDeviceLocked id h) as [d'|] eqn:Ed; [|done].
  destruct (isVirtual d'); [done|]. intros [= <-]. by apply (getDevice_ok known _ id).
Qed.

Lemma put_kept known L h h0 d : kept true known L h0 h -> device_ok h d ->
  goes (put_device d) (fun _ h' => kept true known L h0 h' /\ hb_devices h' = OrdMap.insert (hd_id d) d (hb_devices h)) h.
Proof. intros [[Hi Hl] Hf] [Hin Hm]. split; [|done]. split; [|done]. split; [by apply hub_inv_put|done]. Qed.

Lemma layout_goes {B} d (k : option KeyLayoutMap -> R B) Q h : maps_ok (hd_keyMap d) ->
  (forall l, goes (k l) Q h) -> goes (device_layout d ≫= k) Q h.
Proof.
  intros [Hl _] HQ. unfold device_layout. destruct (haveKeyLayout _); [|apply HQ].
  destruct (Hl eq_refl) as (l & E & _). apply goes_bind. eapply goes_check; [exact E|]. apply HQ.
Qed.

Lemma holds_mapKey id scanCode usageCode : holds true (mapKey id scanCode usageCode).
Proof.
  intros known L h Hh. unfold mapKey. apply goes_gets. destruct (getDeviceLocked id h) as [d|] eqn:Ed; [|done].
  destruct (getDevice_ok _ _ _ _ (proj1 Hh) Ed) as [_ Hm]. destruct (match hub_device_characters d with Some m => char_mapKey m scanCode usageCode | None => None end); [done|].
  apply layout_goes; [done|]. intros [l|]; [|done]. by destruct (layout_mapKey l scanCode usageCode) as [[??]?].
Qed.

Lemma holds_mapAxis id scanCode : holds true (hub_mapAxis id scanCode).
Proof.
  intros known L h Hh. unfold hub_mapAxis. apply goes_gets. destruct (getDeviceLocked id h) as [d|] eqn:Ed; [|done].
  destruct (getDevice_ok _ _ _ _ (proj1 Hh) Ed) as [_ Hm]. by apply layout_goes.
Qed.

Lemma holds_keyState id keyCode : holds true (getKeyCodeState id keyCode).
Proof.
  intros known L h Hh. unfold getKeyCodeState. apply goes_gets. destruct (real_device id h) as [d|] eqn:Ed; [|done].
  destruct (real_device_ok _ _ _ _ (proj1 Hh) Ed) as [_ Hm]. apply layout_goes; [done|]. intros l. apply goes_gets. by destruct l.
Qed.

Lemma holds_led id led on : holds true (setLedState id led on).
Proof.
  apply holds_gets. intros [d|]; [|apply holds_ret]. destruct (in_range _ _); [|apply holds_ret].
  apply holds_bind; [apply holds_call, log_write|intros; apply holds_ret].
Qed.

Lemma holds_overlay id map same : holds true (setKeyboardLayoutOverlay id map same).
Proof.
  intros known L h Hh. unfold setKeyboardLayoutOverlay. apply goes_gets. destruct (getDeviceLocked id h) as [d|] eqn:Ed; [|done].
  destruct same; [done|]. pose proof (getDevice_ok _ _ _ _ (proj1 Hh) Ed) as Hd.
  eapply goes_then; [by apply (put_kept known L h h)|]. by intros _ h' [Hh' _].
Qed.

Lemma holds_vibrate id duration : holds true (vibrate id duration).
Proof.
  intros known L h Hh. unfold vibrate. apply goes_gets. destruct (real_device id h) as [d|] eqn:Ed; [|done].
  destruct (real_device_ok _ _ _ _ (proj1 Hh) Ed) as [Hin Hm]. apply goes_bind. unfold goes at 1, wp, kernel_call.
  pose proof (log_upload (hd_fd d) (ffEffectId d) (Z.quot (duration + 999999) 1000000 mod 65536) (hb_kernel h)) as Hk.
  destruct (k_upload _ _ _ _) as [effect k]. cbn in Hk.
  assert (hub_at known L (eh_kernel k h)) as Hat.
  { destruct Hh as [Hi Hl]. split; [by apply hub_inv_kernel|cbn; congruence]. }
  destruct effect as [e|]; [|done]. eapply goes_then; [by apply (put_kept known L (eh_kernel k h) h)|].
  intros _ h1 [Hh1 Hd1]. apply goes_bind. unfold goes at 1, wp, kernel_call.
  pose proof (log_write (hd_fd d) (mkInput EV_FF e 1) (hb_kernel h1)) as Hk1.
  destruct (k_write _ _ _) as [written k1]. cbn in Hk1.
  assert (kept true known L h (eh_kernel k1 h1)) as Hat1.
  { destruct Hh1 as [[Hi Hl] Hf]. split; [|done]. split; [by apply hub_inv_kernel|cbn; congruence]. }
  destruct written; [|exact Hat1]. eapply goes_mono; [apply (put_kept known L _ h); [done|]|by intros _ h' [Hh' _]].
  split; [|done]. cbn. rewrite Hd1. apply keys_insert. by left.
Qed.

Lemma holds_cancel id : holds true (cancelVibrate id).
Proof.
  intros known L h Hh. unfold cancelVibrate. apply goes_gets. destruct (real_device id h) as [d|] eqn:Ed; [|done].
  destruct (ffEffectPlaying d); [|done]. pose proof (real_device_ok _ _ _ _ (proj1 Hh) Ed) as Hd.
  eapply goes_then; [by apply (put_kept known L h h)|]. intros _ h' [Hh' _].
  eapply goes_kept; [apply holds_call, log_write|done|by intros].
Qed.

End Stream.
