(* ===== verification/HubCalls.v ===== *)
(** * The event hub keeps its promise

    What a caller of [getEvents] is told about devices and their input is consistent and
    complete, whatever the kernel and the other threads do ([hub_stream_consistent]), up
    to a write past the end of the caller's buffer, which can happen
    ([buffer_can_overflow]) but not in a pass that has nothing to report of devices
    ([quiet_pass_fits]). *)

From S2P Require Import Prelude AndroidEvents InputTransport DispatchLoop ReaderData KeyText KeyLayout KeyCharacters KeyMaps InputHub HubEvents HubStream.

Definition stops (e : exn) : Prop := e = ids_exhausted \/ e = past_the_end.

(** [m] returns with [Q], or the run ends for one of the two reasons. *)
Definition runs {S A} (m : M S A) (Q : A -> S -> Prop) (s : S) : Prop := wp m Q (fun e _ => stops e) (fun _ => False) s.

Lemma runs_seq {S A B} (m : M S A) (k : A -> M S B) Q s : runs m (fun a s' => runs (k a) Q s') s -> runs (m ≫= k) Q s.
Proof. apply wp_bind. Qed.

Lemma runs_mono {S A} (m : M S A) (Q Q' : A -> S -> Prop) s : runs m Q s -> (forall a s', Q a s' -> Q' a s') -> runs m Q' s.
Proof. intros Hm HQ. eapply wp_mono; [exact Hm|done..]. Qed.

Lemma runs_then {S A B} (m : M S A) (k : A -> M S B) Q Q' s :
  runs m Q s -> (forall a s', Q a s' -> runs (k a) Q' s') -> runs (m ≫= k) Q' s.
Proof. intros Hm Hk. apply runs_seq. eapply runs_mono; [exact Hm|exact Hk]. Qed.

Lemma goes_runs {S A} (m : M S A) Q s : goes m Q s -> runs m Q s.
Proof. intros Hm. eapply wp_mono; [exact Hm|done| |done]. intros e s' ->. by left. Qed.

Lemma runs_gets {S A B} (f : S -> A) (k : A -> M S B) Q s : runs (k (f s)) Q s -> runs (gets f ≫= k) Q s.
Proof. done. Qed.

Create HintDb hub.

Lemma goes_ret {S A B} (a : A) (k : A -> M S B) Q s : goes (k a) Q s -> goes (mret a ≫= k) Q s.
Proof. done. Qed.

Section Calls.
Context {K : Type} `{HKernel : InputKernel K} `{HFiles : ConfigFiles K} `{HLaws : !HubLaws K} (sha1 : string -> string).
Implicit Types (h : Hub K) (c : Call K) (known : gset Z) (L : list input_event).

Abbreviation R := (M (Hub K)).

(** ** The state of a call *)

Definition with_hub c h : Call K := mkCall h (cl_buffer c) (cl_count c) (cl_awoken c).

(** What has been written so far. *)
Definition written c : list RawEvent := take (cl_count c) (cl_buffer c).

(** After what has been written the caller knows what the hub relies on, and nothing that
    was read is lost. *)
Definition call_at known L c : Prop :=
  (cl_count c <= length (cl_buffer c))%nat /\
  exists known', told known (written c) = Some known' /\ hub_at known' (L ++ inputs (written c)) (cl_hub c).

Lemma goes_on_hub {A} (m : R A) Q c : goes m (fun a h' => Q a (with_hub c h')) (cl_hub c) -> goes (on_hub m) Q c.
Proof. unfold goes, wp, on_hub, zoom. cbn. by destruct (m (cl_hub c)). Qed.

Lemma goes_hub_then {A B} (m : R A) (k : A -> M (Call K) B) Q Q' c :
  goes m Q (cl_hub c) -> (forall a h', Q a h' -> goes (k a) Q' (with_hub c h')) -> goes (on_hub m ≫= k) Q' c.
Proof. intros Hm Hk. apply goes_bind, goes_on_hub. eapply goes_mono; [exact Hm|exact Hk]. Qed.

Lemma runs_hub_then {A B} (m : R A) (k : A -> M (Call K) B) Q Q' c :
  goes m Q (cl_hub c) -> (forall a h', Q a h' -> runs (k a) Q' (with_hub c h')) -> runs (on_hub m ≫= k) Q' c.
Proof. intros Hm Hk. apply runs_seq, goes_runs, goes_on_hub. eapply goes_mono; [exact Hm|exact Hk]. Qed.

Lemma call_hub known L c h' :
  (forall known', hub_at known' (L ++ inputs (written c)) (cl_hub c) -> hub_at known' (L ++ inputs (written c)) h') ->
  call_at known L c -> call_at known L (with_hub c h').
Proof. intros Hh (Hc & known' & Ht & Hat). split; [done|]. exists known'. split; [done|by apply Hh]. Qed.

(** The hub's own code inside a call. *)
Lemma call_holds {A} b (m : R A) known L c : holds b m -> call_at known L c ->
  goes m (fun _ h' => call_at known L (with_hub c h') /\ frame b h' = frame b (cl_hub c)) (cl_hub c).
Proof.
  intros Hm (Hc & known' & Ht & Hat). eapply goes_mono; [by apply Hm|]. intros _ h' [Hh' Hf].
  split; [|done]. split; [done|]. by exists known'.
Qed.

(** ** Writing events *)

Definition with_event c (e : RawEvent) : Call K := mkCall (cl_hub c) (<[cl_count c := e]> (cl_buffer c)) (S (cl_count c)) (cl_awoken c).

Lemma written_event c e : (cl_count c < length (cl_buffer c))%nat -> written (with_event c e) = written c ++ [e].
Proof.
  intros Hlt. unfold written, with_event. cbn [cl_count cl_buffer].
  erewrite take_S_r; [|by apply list_lookup_insert_eq]. by rewrite take_insert_ge by lia.
Qed.

Lemma write_runs f Q c : (forall e, (cl_count c < length (cl_buffer c))%nat -> Q tt (with_event c (f e))) -> runs (write_event f) Q c.
Proof.
  intros HQ. unfold runs, wp, write_event. destruct (cl_buffer c !! cl_count c) as [e|] eqn:E; [|by right].
  apply HQ. by eapply lookup_lt_Some.
Qed.

(** One more event, after which the caller knows [known']. *)
Lemma call_event known L c e known1 known2 h' : (cl_count c < length (cl_buffer c))%nat ->
  told known (written c) = Some known1 -> hear known1 e = Some known2 -> hub_inv known2 h' ->
  k_log (hb_kernel h') = L ++ inputs (written c) ++ inputs [e] ->
  call_at known L (with_hub (with_event c e) h').
Proof.
  intros Hlt Ht He Hi Hl. split; [cbn; rewrite length_insert; lia|]. exists known2.
  change (written (with_hub (with_event c e) h')) with (written (with_event c e)). rewrite written_event by done.
  rewrite told_app, Ht. cbn [told]. rewrite He. split; [done|]. split; [done|]. by rewrite inputs_app.
Qed.

(** ** Reports of devices *)

(** The removal of a device: under its own identifier or, for the built-in keyboard, as
    what the caller knows as 0. *)
Definition told_as (known : gset Z) (id : Z) : Z := if bool_decide (id ∈ known) then id else 0.

Lemma hub_inv_removed known h d rest : hub_inv known h -> mClosingDevices h = d :: rest ->
  reported_id h (hd_id d) = hd_id d /\ told_as known (hd_id d) ∈ known /\
  hub_inv (known ∖ {[ told_as known (hd_id d) ]}) (eh_finished true (eh_closing rest h)).
Proof.
  intros [Hs Hd Hn Hb Ho (Hc1 & Hc2 & Hc3) Ha Ht Hk Hl] E. unfold behind, closing_ids, told_as in *. rewrite E in *. cbn [map] in *.
  apply NoDup_cons in Hc1 as [Hn1 Hn2]. apply Forall_cons in Hc2 as [Hok Hc2]. apply not_elem_of_cons in Hc3 as [Hb1 Hb2].
  destruct (id_ok_proper _ _ Hok) as [_ H0].
  assert (forall x, x ∈ map hd_id rest -> x <> 0 /\ x <> hd_id d) as Hrest.
  { intros x Hx. split; [|by intros ->]. apply (id_ok_proper h). by apply (proj1 (Forall_forall _ _) Hc2). }
  split; [unfold reported_id; by destruct (Z.eqb_spec (hd_id d) (mBuiltInKeyboardId h))|]. case_bool_decide as Hin.
  - split; [done|]. split; try done; cbn.
    + intros x Hx Hx'. by apply (Ha x Hx), list_elem_of_further.
    + intros x Hx. apply elem_of_difference. split; [by apply Ht|]. rewrite elem_of_singleton. unfold reported_id. cbn.
      destruct (_ =? _); [done|]. intros ->. by apply (Ha _ Hx), list_elem_of_here.
    + intros x [Hx Hne]%elem_of_difference. rewrite elem_of_singleton in Hne.
      destruct (Hk x Hx) as [[-> [He|(y & Hy1 & Hy2)]]|[?|Hx']]; [left; split; [done|]..|by right; left|right; right].
      * by left.
      * right. exists y. apply elem_of_cons in Hy1 as [->|Hy1]; [done|]. split; [done|]. set_solver.
      * by apply elem_of_cons in Hx' as [->|Hx'].
    + intros x [Hx1 Hx2]. destruct (Hrest x Hx1) as [Hr1 Hr2]. assert (x ∉ known) by set_solver.
      destruct (Hl x (conj (list_elem_of_further _ _ _ Hx1) ltac:(done))) as (Hz & Hno & Hu). split; [set_solver|]. split; [done|].
      intros y [Hy1 Hy2]. destruct (Hrest y Hy1). apply Hu. split; [by apply list_elem_of_further|set_solver].
  - destruct (Hl _ (conj (list_elem_of_here _ _) Hin)) as (Hz & Hno & Hu). split; [done|]. split; try done; cbn.
    + intros x Hx Hx'. by apply (Ha x Hx), list_elem_of_further.
    + intros x Hx. apply elem_of_difference. split; [by apply Ht|]. rewrite elem_of_singleton. unfold reported_id. cbn.
      destruct (Z.eqb_spec x (mBuiltInKeyboardId h)) as [->|]; [done|]. intros ->.
      destruct Hx as [Hx _]. apply list_elem_of_fmap in Hx as ([i v] & Ei & Hx). cbn in Ei. subst i.
      destruct (proj1 (Forall_forall _ _) Hd _ Hx) as (_ & Hv & _). by destruct (id_ok_proper _ _ Hv).
    + intros x [Hx Hne]%elem_of_difference. rewrite elem_of_singleton in Hne.
      destruct (Hk x Hx) as [[-> _]|[?|Hx']]; [done|by right; left|]. apply elem_of_cons in Hx' as [->|Hx']; [done|by right; right].
    + intros x [Hx1 Hx2]. destruct (Hrest x Hx1) as [Hr1 Hr2]. exfalso. apply Hr2, Hu. split; [by apply list_elem_of_further|set_solver].
Qed.

Lemma hub_inv_added known h id rest : hub_inv known h -> mOpeningDevices h = id :: rest -> mClosingDevices h = [] ->
  (reported_id h id ∉ known) /\
  hub_inv ({[ reported_id h id ]} ∪ known) (eh_finished true (eh_opening rest h)).
Proof.
  intros Hi E Ec. pose proof Hi as [Hs Hd Hn Hb [Ho1 Ho2] Hc Ha Ht Hk Hl]. unfold behind, closing_ids in *. rewrite Ec, E in *.
  apply NoDup_cons in Ho1 as [Hn1 Hn2].
  assert (id ∈ OrdMap.keys (hb_devices h)) as Hkey by apply Ho2, list_elem_of_here.
  destruct (id_ok_proper _ _ (keys_ok _ _ _ Hi Hkey)) as [_ H0].
  set (h' := eh_finished true _).
  assert (forall x, told_open h' x <-> told_open h x \/ x = id) as Htold.
  { intros x. unfold told_open, h'. cbn. rewrite E, not_elem_of_cons. destruct (decide (x = id)) as [->|]; naive_solver. }
  split.
  { assert (~ told_open h id) as Hno by (intros [_ Hx]; rewrite E in Hx; by apply Hx, list_elem_of_here).
    unfold reported_id. destruct (Z.eqb_spec id (mBuiltInKeyboardId h)) as [Eb|Hne]; intros Hin.
    - destruct (Hk 0 Hin) as [[_ [Hx|(x & Hx & _)]]|[[[Hx _] _]|Hx]].
      + by rewrite <- Eb in Hx.
      + by apply elem_of_nil in Hx.
      + by destruct (id_ok_proper _ _ (keys_ok _ _ _ Hi Hx)).
      + by apply elem_of_nil in Hx.
    - destruct (Hk id Hin) as [[? _]|[[? _]|Hx]]; [done..|by apply elem_of_nil in Hx]. }
  split; unfold behind, closing_ids, h'; cbn; rewrite ?Ec; try done.
  - split; [done|]. intros x Hx. by apply Ho2, list_elem_of_further.
  - intros x Hx. by apply not_elem_of_nil.
  - intros x [Hx| ->]%Htold; [apply elem_of_union_r, (Ht x Hx)|by apply elem_of_union_l, elem_of_singleton].
  - intros x [Hx%elem_of_singleton|Hx]%elem_of_union.
    + unfold reported_id in Hx. destruct (Z.eqb_spec id (mBuiltInKeyboardId h)) as [Eb|]; subst x.
      * left. split; [done|]. left. apply Htold. by right.
      * right; left. split; [|done]. apply Htold. by right.
    + destruct (Hk x Hx) as [[-> [H1|(y & Hy & _)]]|[[Hx1 Hx2]|Hx1]]; [|by apply elem_of_nil in Hy| |by apply elem_of_nil in Hx1].
      * left. split; [done|]. left. apply Htold. by left.
      * right; left. split; [apply Htold; by left|done].
  - intros x [Hx _]. by apply elem_of_nil in Hx.
Qed.

Lemma hear_removed known now id e : told_as known id ∈ known ->
  hear known (synthetic_event now id DEVICE_REMOVED e) = Some (known ∖ {[ told_as known id ]}).
Proof. unfold hear, told_as. cbn. case_bool_decide; [done|]. intros Hin. by rewrite bool_decide_true. Qed.

Lemma hear_added known now id e : id ∉ known ->
  hear known (synthetic_event now id DEVICE_ADDED e) = Some ({[ id ]} ∪ known).
Proof. intros Hin. unfold hear. cbn. by rewrite bool_decide_true. Qed.

(** The pending input is left alone. *)
Definition same_frame c c' : Prop := frame false (cl_hub c') = frame false (cl_hub c).

Lemma same_frame_trans c c' c'' : same_frame c c' -> same_frame c' c'' -> same_frame c c''.
Proof. unfold same_frame. congruence. Qed.

(** A pass of either loop: the device is taken off its list, told of, and the end of the
    scan is to be told of. *)
Lemma report_runs {B} (g : Hub K -> Hub K) f (k : unit -> M (Call K) B) known L c known1 known2 Q :
  told known (written c) = Some known1 -> k_log (hb_kernel (g (cl_hub c))) = L ++ inputs (written c) ->
  (forall e, hear known1 (f e) = Some known2 /\ FIRST_SYNTHETIC_EVENT <= re_type (f e)) ->
  hub_inv known2 (eh_finished true (g (cl_hub c))) ->
  (forall c', call_at known L c' -> cl_hub c' = eh_finished true (g (cl_hub c)) -> runs (k tt) Q c') ->
  runs (on_hub (modify g) ;; write_event f ;; on_hub (modify (eh_finished true)) ;; k tt) Q c.
Proof.
  intros Ht Hl Hf Hi Hk. eapply runs_hub_then; [exact (eq_refl : goes (modify g) (fun _ h' => h' = g (cl_hub c)) _)|].
  intros _ h' ->. eapply runs_then.
  { apply (write_runs f (fun _ c' => exists e, (cl_count c < length (cl_buffer c))%nat /\ c' = with_event (with_hub c (g (cl_hub c))) (f e))).
    intros e Hlt. by exists e. }
  intros _ c1 (e & Hlt & ->). eapply runs_hub_then; [exact (eq_refl : goes (modify _) (fun _ h' => h' = eh_finished true (g (cl_hub c))) _)|].
  intros _ h' ->. apply Hk; [|done]. destruct (Hf e) as [He Hty].
  apply (call_event known L c (f e) known1 known2); [done..|].
  assert (inputs [f e] = []) as ->; [|by rewrite app_nil_r].
  unfold inputs. cbn. by destruct (Z.ltb_spec (re_type (f e)) FIRST_SYNTHETIC_EVENT); [lia|].
Qed.

Lemma capacity_none c : capacity c = 0%nat -> cl_buffer c !! cl_count c = None.
Proof. intros Hc. apply lookup_ge_None. unfold capacity in Hc. lia. Qed.

Lemma report_closing_runs n now known L c : length (mClosingDevices (cl_hub c)) = n -> call_at known L c ->
  runs (report_closing n now) (fun _ c' => call_at known L c' /\ same_frame c c' /\ (mClosingDevices (cl_hub c') = [] \/ capacity c' = 0%nat)) c.
Proof.
  revert c. induction n as [|n IH]; intros c Hn Hc; cbn [report_closing].
  { apply nil_length_inv in Hn. split; [done|]. split; [done|by left]. }
  apply runs_gets. destruct (mClosingDevices (cl_hub c)) as [|d rest] eqn:E; [done|].
  destruct Hc as (Hcount & known1 & Ht & Hi & Hl). destruct (hub_inv_removed _ _ _ _ Hi E) as (Er & Hin & Hi').
  eapply (report_runs (eh_closing rest) _ (fun _ => _)); [exact Ht|done| |exact Hi'|].
  { intros e. split; [rewrite Er; by apply hear_removed|done]. }
  intros c' Hc' Eh. apply runs_gets. assert (same_frame c c') as Hf by (unfold same_frame; by rewrite Eh).
  destruct (Nat.eqb_spec (capacity c') 0); [split; [done|]; split; [done|by right]|].
  eapply runs_mono; [apply IH; [rewrite Eh; by injection Hn|done]|]. intros _ c2 (H1 & H2 & H3).
  split; [done|]. split; [by eapply same_frame_trans|done].
Qed.

Lemma report_opening_runs n now known L c : length (mOpeningDevices (cl_hub c)) = n -> call_at known L c ->
  mClosingDevices (cl_hub c) = [] \/ capacity c = 0%nat ->
  runs (report_opening n now) (fun _ c' => call_at known L c' /\ same_frame c c' /\
    (mOpeningDevices (cl_hub c') = [] \/ (capacity c' = 0%nat /\ mNeedToSendFinishedDeviceScan (cl_hub c') = true))) c.
Proof.
  revert c. induction n as [|n IH]; intros c Hn Hc Hcl; cbn [report_opening].
  { apply nil_length_inv in Hn. split; [done|]. split; [done|by left]. }
  apply runs_gets. destruct (mOpeningDevices (cl_hub c)) as [|id rest] eqn:E; [done|].
  destruct Hcl as [Hcl|Hcap].
  2:{ apply runs_seq, goes_runs, goes_on_hub. unfold goes, wp, modify. apply runs_seq. unfold runs at 1, wp, write_event.
      cbn [with_hub cl_buffer cl_count]. rewrite (capacity_none c Hcap). by right. }
  destruct Hc as (Hcount & known1 & Ht & Hi & Hl). destruct (hub_inv_added _ _ _ _ Hi E Hcl) as (Hin & Hi').
  eapply (report_runs (eh_opening rest) _ (fun _ => _)); [exact Ht|done| |exact Hi'|].
  { intros e. split; [by apply hear_added|done]. }
  intros c' Hc' Eh. apply runs_gets. assert (same_frame c c') as Hf by (unfold same_frame; by rewrite Eh).
  destruct (Nat.eqb_spec (capacity c') 0).
  { split; [done|]. split; [done|]. right. by rewrite Eh. }
  eapply runs_mono; [apply IH; [rewrite Eh; by injection Hn|done|left; by rewrite Eh]|]. intros _ c2 (H1 & H2 & H3).
  split; [done|]. split; [by eapply same_frame_trans|done].
Qed.

Lemma report_finished_runs now known L c : call_at known L c ->
  mOpeningDevices (cl_hub c) = [] \/ (capacity c = 0%nat /\ mNeedToSendFinishedDeviceScan (cl_hub c) = true) ->
  runs (report_finished now) (fun _ c' => call_at known L c' /\ same_frame c c' /\ mOpeningDevices (cl_hub c') = []) c.
Proof.
  intros Hc Ho. unfold report_finished. apply runs_gets. destruct (mNeedToSendFinishedDeviceScan _) eqn:E.
  2:{ destruct Ho as [Ho|[_ ?]]; [|done]. split; [done|by split]. }
  apply runs_seq, goes_runs, goes_on_hub. unfold goes, wp, modify. eapply runs_then.
  { apply (write_runs _ (fun _ c' => exists e, (cl_count c < length (cl_buffer c))%nat /\
      c' = with_hub (with_event c (scan_event now e)) (eh_finished false (cl_hub c)))). intros e Hlt. by exists e. }
  intros _ c1 (e & Hlt & ->). apply runs_gets. destruct Hc as (Hcount & known1 & Ht & Hi & Hl).
  destruct Ho as [Ho|[Hcap _]]; [|unfold capacity in Hcap; lia].
  split; [|done]. apply (call_event known L c (scan_event now e) known1 known1); [done..|by destruct Hi|]. cbn. rewrite Hl. by rewrite app_nil_r.
Qed.

(** ** Input *)

Lemma hear_input known now id iev e : 0 <= ie_type iev < 65536 -> id ∈ known ->
  hear known (input_raw now id iev e) = Some known /\ inputs [input_raw now id iev e] = [iev].
Proof.
  intros Hty Hin. unfold hear, inputs, FIRST_SYNTHETIC_EVENT, FINISHED_DEVICE_SCAN, DEVICE_REMOVED, DEVICE_ADDED. cbn -[Z.eqb Z.ltb].
  destruct (Z.eqb_spec (ie_type iev) 268435456); [lia|]. destruct (Z.eqb_spec (ie_type iev) 536870912); [lia|].
  destruct (Z.eqb_spec (ie_type iev) 805306368); [lia|]. rewrite bool_decide_true by (split; [lia|done]).
  destruct (Z.ltb_spec (ie_type iev) 268435456); [|lia]. by destruct iev.
Qed.

Lemma write_goes f Q c : (cl_count c < length (cl_buffer c))%nat -> (forall e, Q tt (with_event c (f e))) -> goes (write_event f) Q c.
Proof.
  intros Hlt HQ. unfold goes, wp, write_event. destruct (lookup_lt_is_Some_2 _ _ Hlt) as [e ->]. apply HQ.
Qed.

Lemma write_inputs now id l known known1 L c : (cl_count c + length l <= length (cl_buffer c))%nat ->
  told known (written c) = Some known1 -> hub_inv known1 (cl_hub c) -> id ∈ known1 ->
  k_log (hb_kernel (cl_hub c)) = L ++ inputs (written c) ++ l -> Forall (fun e => 0 <= ie_type e < 65536) l ->
  goes (for_each l (fun iev => write_event (input_raw now id iev))) (fun _ c' => call_at known L c' /\ cl_hub c' = cl_hub c) c.
Proof.
  revert c. induction l as [|iev l IH]; intros c Hlen Ht Hi Hin Hl Hty.
  { rewrite app_nil_r in Hl. split; [|done]. split; [cbn in Hlen; lia|]. exists known1. by split. }
  apply Forall_cons in Hty as [Hty Htys]. cbn in Hlen. cbn [for_each]. apply goes_bind, write_goes; [lia|]. intros e.
  destruct (hear_input known1 now id iev e Hty Hin) as [He Ei].
  eapply goes_mono; [apply IH|done]; try done.
  - cbn. rewrite length_insert. lia.
  - rewrite written_event, told_app, Ht by lia. cbn [told]. by rewrite He.
  - rewrite written_event, inputs_app, Ei by lia. rewrite <- !app_assoc. exact Hl.
Qed.

(** A device whose opening has been told of. *)
Lemma call_close known L c d : call_at known L c -> mOpeningDevices (cl_hub c) = [] ->
  OrdMap.find (hd_id d) (hb_devices (cl_hub c)) = Some d ->
  goes (closeDeviceLocked d) (fun _ h' => call_at known L (with_hub c h') /\ frame false h' = frame false (cl_hub c) /\ mOpeningDevices h' = []) (cl_hub c).
Proof.
  intros (Hc & known1 & Ht & Hat) Ho Hf. eapply goes_mono; [by apply (closeDevice_goes known1)|].
  intros _ h' ([Hh' Hfr] & _ & Ho'). rewrite Ho in Ho'. split; [|by split]. split; [done|]. by exists known1.
Qed.

(** A call between reports: every device of the hub has been told of. *)
Definition reading known L c c' : Prop := call_at known L c' /\ same_frame c c' /\ mOpeningDevices (cl_hub c') = [].

(** Input fits into the buffer. *)
Lemma read_device_goes now known L c d : call_at known L c -> mOpeningDevices (cl_hub c) = [] ->
  OrdMap.find (hd_id d) (hb_devices (cl_hub c)) = Some d -> goes (read_device now d) (fun _ => reading known L c) c.
Proof.
  intros Hc Ho Hf. unfold read_device. apply goes_gets. apply goes_bind, goes_on_hub. unfold goes at 1, wp, kernel_call.
  set (k0 := hb_kernel (cl_hub c)).
  pose proof (log_read (hd_fd d) (capacity c) k0) as Hl. pose proof (read_bound (hd_fd d) (capacity c) k0) as Hb.
  pose proof (read_types (hd_fd d) (capacity c) k0) as Hty. destruct (k_read _ _ k0) as [r k]. cbn in Hl, Hb, Hty.
  set (c1 := with_hub c (eh_kernel k (cl_hub c))).
  assert (k_log k = k_log k0 -> call_at known L c1) as Hc1.
  { intros E. apply call_hub; [|done]. intros known' [Hi Hlog]. split; [by apply hub_inv_kernel|]. cbn. by rewrite E. }
  assert (k_log k = k_log k0 -> goes (on_hub (closeDeviceLocked d) ;; mret (true, false)) (fun _ => reading known L c) c1) as Hgone.
  { intros E. eapply goes_hub_then; [by apply call_close; [apply Hc1|..]|]. intros _ h' (H1 & H2 & H3). by split. }
  destruct r as [l extra|errno].
  2:{ rewrite app_nil_r in Hl. destruct (_ =? _); [by apply Hgone|]. split; [by apply Hc1|done]. }
  destruct (_ && _) eqn:Eg; [|destruct (negb _) eqn:En].
  - apply andb_prop in Eg as [El%bool_decide_eq_true Ex]. rewrite Ex, El, app_nil_r in Hl. by apply Hgone.
  - apply negb_true_iff in En. rewrite En, app_nil_r in Hl. split; [by apply Hc1|done].
  - apply negb_false_iff in En. rewrite En in Hl. specialize (Hb _ _ eq_refl). specialize (Hty _ _ eq_refl).
    apply goes_gets. destruct Hc as (Hcount & known1 & Ht & Hi & Hlog). eapply goes_then.
    { apply (write_inputs now _ l known known1 L c1); [unfold capacity in Hb; cbn; lia|done|by apply hub_inv_kernel| |cbn; rewrite Hl; unfold k0; by rewrite Hlog, app_assoc|done].
      apply (hi_told _ _ Hi). split; [by eapply find_some_keys|]. rewrite Ho. apply not_elem_of_nil. }
    intros _ c2 [Hc2 Eh]. apply goes_gets. split; [done|]. unfold same_frame. by rewrite Eh.
Qed.

(** The work that is left before the next wait. *)
Definition pend c : nat := (2 * pending_left (cl_hub c) + if mPendingINotify (cl_hub c) then 1 else 0)%nat.

Lemma frame_pend c c' : same_frame c c' -> pend c' = pend c.
Proof. unfold same_frame, frame, pend, pending_left. intros [= -> -> ->]. done. Qed.

(** What is left after an item: the index has moved on. *)
Definition after_item c c' : Prop :=
  mPendingEventItems (cl_hub c') = mPendingEventItems (cl_hub c) /\ mPendingEventIndex (cl_hub c') = S (mPendingEventIndex (cl_hub c)).

Lemma after_item_pend c c' i : mPendingEventItems (cl_hub c) !! mPendingEventIndex (cl_hub c) = Some i -> after_item c c' -> (pend c' < pend c)%nat.
Proof.
  intros Hi%lookup_lt_Some [E1 E2]. unfold pend, pending_left. rewrite E1, E2. destruct (mPendingINotify _), (mPendingINotify _); lia.
Qed.

Lemma after_frame c c1 c2 : after_item c c1 -> same_frame c1 c2 -> after_item c c2.
Proof. unfold after_item, same_frame, frame. intros [<- <-] [= -> -> _]. done. Qed.

(** Reading goes on: every device has been told of, and the work that is left has not
    grown; a device that has changed has used up some. *)
Definition progress known L c (before after : bool) c' : Prop :=
  call_at known L c' /\ mOpeningDevices (cl_hub c') = [] /\ (pend c' <= pend c)%nat /\
  (after = true -> before = true \/ (pend c' < pend c)%nat).

Lemma progress_step known L c c1 b b1 b' c' : (pend c1 < pend c)%nat -> progress known L c1 b1 b' c' -> progress known L c b b' c'.
Proof. intros Hlt (H1 & H2 & H3 & H4). split; [done|]. split; [done|]. split; [lia|]. right. lia. Qed.

Lemma progress_refl known L c b : call_at known L c -> mOpeningDevices (cl_hub c) = [] -> progress known L c b b c.
Proof. intros Hc Ho. split; [done|]. split; [done|]. split; [lia|by left]. Qed.

Lemma read_pending_goes n now b known L c : call_at known L c -> mOpeningDevices (cl_hub c) = [] ->
  goes (read_pending n now b) (progress known L c b) c.
Proof.
  revert b c. induction n as [|n IH]; intros b c Hc Ho; cbn [read_pending]; [by apply progress_refl|].
  apply goes_gets. destruct (_ !! _) as [item|] eqn:Ei; [|by apply progress_refl].
  eapply goes_hub_then; [exact (eq_refl : goes (modify _) (fun _ h' => h' = eh_index (S (mPendingEventIndex (cl_hub c))) (cl_hub c)) _)|].
  intros _ h1 ->. set (c1 := with_hub c _). assert (after_item c c1) as Ha by done.
  assert (call_at known L c1) as Hc1 by (apply call_hub; [intros known' [[] Hl]; by split|done]).
  assert (forall b' c2, call_at known L c2 -> mOpeningDevices (cl_hub c2) = [] -> after_item c c2 ->
    goes (read_pending n now b') (progress known L c b) c2) as Hnext.
  { intros b' c2 Hc2 Ho2 Ha2. eapply goes_mono; [by apply IH|]. intros b2 c3. apply progress_step. by eapply after_item_pend. }
  cbv zeta. destruct (_ =? EPOLL_ID_INOTIFY).
  { apply (goes_then _ _ (fun _ c2 => call_at known L c2 /\ mOpeningDevices (cl_hub c2) = [] /\ after_item c c2));
      [|intros _ c2 (H1 & H2 & H3); by apply Hnext].
    destruct (has _ _); [|done]. apply goes_on_hub. split; [|done]. apply call_hub; [|done]. intros known' [[] Hl]. by split. }
  destruct (_ =? EPOLL_ID_WAKE).
  { apply (goes_then _ _ (fun _ c2 => call_at known L c2 /\ mOpeningDevices (cl_hub c2) = [] /\ after_item c c2));
      [|intros _ c2 (H1 & H2 & H3); by apply Hnext].
    destruct (has _ _); [|done]. apply goes_modify. apply goes_on_hub. apply goes_gets. cbn [cl_hub].
    destruct Hc1 as (Hcount & known1 & Ht & Hat). eapply goes_mono; [apply (drain_pipe_kept false _ known1); [|exact Hat]; cbn; lia|].
    intros _ h' ([Hh' Hf] & k & ->). split; [|done]. split; [done|]. by exists known1. }
  destruct (OrdMap.find _ _) as [d|] eqn:Ed; [|by apply Hnext].
  assert (OrdMap.find (hd_id d) (hb_devices (cl_hub c)) = Some d) as Hd.
  { destruct Hc as (_ & known1 & _ & Hi & _). by destruct (find_device _ _ _ _ Hi Ed) as (-> & _). }
  destruct (has _ EPOLLIN).
  - eapply goes_then; [by apply (read_device_goes now known L c1 d)|]. intros [gone full] c2 (Hc2 & Hf2 & Ho2). cbn [fst snd].
    destruct full; [|by apply Hnext, (after_frame _ c1)].
    apply goes_hub_then with (Q := fun _ h' => h' = eh_index (mPendingEventIndex (cl_hub c2) - 1) (cl_hub c2)); [done|].
    intros _ h2 ->. destruct (after_frame _ _ _ Ha Hf2) as [E1 E2].
    split; [apply call_hub; [intros known' [[] Hl]; by split|done]|]. split; [done|].
    assert (pend (with_hub c2 (eh_index (mPendingEventIndex (cl_hub c2) - 1) (cl_hub c2))) = pend c) as ->; [|by split; [lia|left]].
    unfold same_frame, frame in Hf2. injection Hf2 as _ _ En. unfold pend, pending_left. cbn. rewrite E1, E2, En. cbn. by rewrite Nat.sub_0_r.
  - destruct (has _ EPOLLHUP); [|by apply Hnext].
    eapply goes_hub_then; [by apply (call_close known L c1)|]. intros _ h2 (H1 & H2 & H3).
    apply Hnext; [done..|]. by apply (after_frame _ c1).
Qed.

(** ** Passes *)

(** A pass that goes on has used up some work; before a wait nothing has been written. *)
Definition passed known L c (e : pass_end) c' : Prop :=
  call_at known L c' /\ (e = Pass_continue -> (pend c' < pend c)%nat) /\ (e = Pass_poll -> cl_count c' = 0%nat).

Lemma call_flag known L c (g : Hub K -> Hub K) : (forall known' h, hub_at known' (L ++ inputs (written c)) h -> hub_at known' (L ++ inputs (written c)) (g h)) ->
  call_at known L c -> call_at known L (with_hub c (g (cl_hub c))).
Proof. intros Hg. apply call_hub. intros known'. apply Hg. Qed.

Lemma pass_input_goes now known L c : call_at known L c -> mOpeningDevices (cl_hub c) = [] ->
  goes (pass_input sha1 now) (passed known L c) c.
Proof.
  intros Hc Ho. unfold pass_input. apply goes_gets. eapply goes_then; [by apply (read_pending_goes _ now false known L c)|].
  intros b c1 (Hc1 & _ & Hle & Hb). apply goes_gets.
  apply (goes_then _ _ (fun b' c2 => call_at known L c2 /\ (b' = true -> (pend c2 < pend c)%nat))).
  { destruct (_ && _) eqn:E.
    - apply andb_prop in E as [En _]. apply goes_hub_then with (Q := fun _ h' => h' = eh_inotify false (cl_hub c1)); [done|].
      intros _ h2 ->. set (c2 := with_hub c1 _).
      assert (call_at known L c2) as Hc2 by (apply call_flag; [intros known' h [[] Hl]; by split|done]).
      eapply goes_hub_then; [apply (call_holds false _ known L c2); [apply holds_readNotify|done]|].
      intros ? h3 [Hc3 Hf]. split; [exact Hc3|]. intros _. rewrite (frame_pend c2 (with_hub c2 h3) Hf).
      enough (pend c2 < pend c1)%nat by lia. unfold pend, c2. cbn. rewrite En. unfold pending_left. cbn. lia.
    - split; [done|]. intros ->. by destruct (Hb eq_refl). }
  intros b' c2 [Hc2 Hb']. destruct b'; [split; [done|]; split; [by intros _; apply Hb'|done]|].
  apply (goes_gets (fun c : Call K => c)). destruct (_ || _) eqn:E; [done|].
  apply orb_false_elim in E as [E _]. apply goes_hub_then with (Q := fun _ h' => h' = eh_index 0 (cl_hub c2)); [done|].
  intros _ h3 ->. split; [apply call_flag; [intros known' h [[] Hl]; by split|done]|]. split; [done|].
  intros _. cbn. by apply negb_false_iff, Nat.eqb_eq in E.
Qed.

Lemma scan_runs known L c : call_at known L c -> mClosingDevices (cl_hub c) = [] \/ capacity c = 0%nat ->
  runs (if mNeedToScanDevices (cl_hub c) then
          on_hub (modify (eh_scan false)) ;; on_hub (scanDevicesLocked sha1) ;; on_hub (modify (eh_finished true))
        else mret tt)
    (fun _ c' => call_at known L c' /\ same_frame c c' /\ (mClosingDevices (cl_hub c') = [] \/ capacity c' = 0%nat)) c.
Proof.
  intros Hc Hcl. destruct (mNeedToScanDevices _); [|done].
  apply goes_runs, goes_hub_then with (Q := fun _ h' => h' = eh_scan false (cl_hub c)); [done|]. intros _ h1 ->.
  set (c1 := with_hub c _). assert (call_at known L c1) as Hc1 by (apply call_flag; [intros known' h [[] Hl]; by split|done]).
  eapply goes_hub_then; [apply (call_holds true _ known L c1); [apply holds_scanDevices|done]|]. intros ? h2 [Hc2 Hf].
  apply goes_on_hub. unfold frame in Hf. injection Hf as E1 E2 E3 E4.
  split; [|split].
  - apply (call_flag known L (with_hub c1 h2) (eh_finished true)); [intros known' h [[] Hl]; by split|done].
  - unfold same_frame, frame. cbn. by rewrite E1, E2, E3.
  - destruct Hcl as [Hcl|Hcap]; [left|by right]. cbn. by rewrite E4.
Qed.

Lemma pass_runs known L c : call_at known L c -> runs (pass sha1) (passed known L c) c.
Proof.
  intros Hc. unfold pass. eapply runs_hub_then; [apply (call_holds true _ known L c); [apply holds_call, log_now|done]|].
  intros now h1 [Hc1 Hf1]. set (c1 := with_hub c h1) in *. assert (pend c1 = pend c) as Ep.
  { apply frame_pend. unfold same_frame, frame in *. cbn. congruence. }
  apply runs_gets. destruct (mNeedToReopenDevices _).
  - apply goes_runs, goes_hub_then with (Q := fun _ h' => h' = eh_reopen false (cl_hub c1)); [done|]. intros _ h2 ->.
    set (c2 := with_hub c1 _). assert (call_at known L c2) as Hc2 by (apply call_flag; [intros known' h [[] Hl]; by split|done]).
    eapply goes_hub_then; [apply (call_holds false _ known L c2); [apply holds_closeAll|done]|]. intros ? h3 [Hc3 _].
    apply goes_hub_then with (Q := fun _ h' => h' = eh_scan true h3); [done|]. intros _ h4 ->.
    split; [|done]. apply (call_flag known L (with_hub c2 h3) (eh_scan true)); [intros known' h [[] Hl]; by split|done].
  - eapply runs_then; [by apply report_closing_runs|]. intros _ c2 (Hc2 & Hf2 & Hcl). apply runs_gets.
    eapply runs_then; [by apply scan_runs|]. intros _ c3 (Hc3 & Hf3 & Hcl3). apply runs_gets.
    eapply runs_then; [by apply (report_opening_runs _ now known L)|]. intros _ c4 (Hc4 & Hf4 & Ho4).
    eapply runs_then; [by apply (report_finished_runs now known L)|]. intros full c5 (Hc5 & Hf5 & Ho5).
    destruct full; [done|]. eapply goes_runs, goes_mono; [by apply (pass_input_goes now known L)|].
    intros e c6 (H1 & H2 & H3). split; [done|]. split; [|done]. intros He. specialize (H2 He).
    rewrite (frame_pend _ _ Hf5), (frame_pend _ _ Hf4), (frame_pend _ _ Hf3), (frame_pend _ _ Hf2) in H2. lia.
Qed.

Lemma passes_runs fuel known L c : call_at known L c -> (pend c < fuel)%nat ->
  runs (passes sha1 fuel) (fun ended c' => call_at known L c' /\ (ended = false -> cl_count c' = 0%nat)) c.
Proof.
  revert c. induction fuel as [|fuel IH]; intros c Hc Hlt; [lia|]. cbn [passes].
  eapply runs_then; [by apply pass_runs|]. intros e c' (Hc' & Hp & Hz). destruct e; [by split| |split; [done|by intros _; apply Hz]].
  apply IH; [done|]. specialize (Hp eq_refl). lia.
Qed.

(** ** Calls and threads *)

(** What the caller was told agrees with what it knew and with the hub. *)
Definition spoken known L (events : list RawEvent) h : Prop :=
  exists known', told known events = Some known' /\ hub_at known' (L ++ inputs events) h.

Lemma spoken_nothing known L h : hub_at known L h -> spoken known L [] h.
Proof. intros Hh. exists known. split; [done|]. by rewrite app_nil_r. Qed.

Definition heard known L (r : option (list RawEvent)) h : Prop := spoken known L (default [] r) h.

Lemma getEvents_run_runs buffer known L h : hub_at known L h -> runs (getEvents_run sha1 buffer) (heard known L) h.
Proof.
  intros Hh. set (c := mkCall h buffer 0 false).
  assert (call_at known L c) as Hc by (split; [cbn; lia|]; exists known; unfold written; cbn; by rewrite app_nil_r).
  assert (pend c < pass_bound h)%nat as Hp by (unfold pend, pass_bound, pending_left, c; cbn; case_match; lia).
  pose proof (passes_runs _ _ _ _ Hc Hp) as Hr. unfold runs, wp, getEvents_run in *. fold c.
  destruct (passes _ _ c) as [[] c'|e c'|c'|]; try done; destruct Hr as [(_ & known' & Ht & Hat) Hz].
  - by exists known'.
  - unfold written in *. rewrite (Hz eq_refl) in *. by exists known'.
Qed.

Lemma getEvents_resume_runs timeout buffer known L h : hub_at known L h -> runs (getEvents_resume sha1 timeout buffer) (heard known L) h.
Proof.
  intros Hh. unfold getEvents_resume. eapply runs_then; [apply goes_runs, (holds_call true _ (log_wait timeout)); exact Hh|].
  intros r h1 [Hh1 _].
  assert (forall items, hub_at known L (eh_items items h1)) as Hi by (intros items; destruct Hh1 as [[] Hl]; by split).
  destruct r as [errno|[|i items]]; [by apply getEvents_run_runs|by apply spoken_nothing|by apply getEvents_run_runs].
Qed.

Lemma other_runs {A} (m : R unit) (x : A) known L h : holds true m -> hub_at known L h ->
  runs (m ;; mret (x, [])) (fun r => spoken known L (snd r)) h.
Proof.
  intros Hm Hh. eapply runs_then; [by apply goes_runs, Hm|]. intros ? h' [Hh' _]. by apply spoken_nothing.
Qed.

Lemma holds_modify (f : Hub K -> Hub K) :
  (forall known h, hub_inv known h -> hub_inv known (f h)) -> (forall h, hb_kernel (f h) = hb_kernel h /\ frame true (f h) = frame true h) ->
  holds true (modify f).
Proof. intros Hf Hk known L h [Hi Hl]. destruct (Hk h) as [E1 E2]. split; [|done]. split; [by apply Hf|]. by rewrite E1. Qed.

Lemma holds_excluded l : holds true (setExcludedDevices l).
Proof. apply holds_modify; [by intros ?? []|done]. Qed.

Lemma holds_reopen : holds true requestReopenDevices.
Proof. apply holds_modify; [by intros ?? []|done]. Qed.

Lemma holds_wake : holds true wake.
Proof. apply holds_do, log_pipe_write. Qed.

#[local] Hint Resolve holds_excluded holds_reopen holds_wake holds_led holds_overlay holds_vibrate holds_cancel
  holds_mapKey holds_mapAxis holds_keyState : hub.

Lemma hub_step_runs a pc known L h : hub_at known L h -> runs (hub_step sha1 a pc) (fun r => spoken known L (snd r)) h.
Proof.
  intros Hh. assert (forall t buffer r h', heard known L r h' ->
    runs (match r with Some events => mret (Hub_outside, events) | None => mret (Hub_polling t buffer, []) end : R (hub_pc * list RawEvent))
      (fun r => spoken known L (snd r)) h') as Hend by (intros t buffer [] h' Hr; exact Hr).
  destruct a, pc; cbn [hub_step]; try (by apply spoken_nothing);
    try (apply other_runs; [|done]; first [solve [eauto with hub] | apply holds_bind; [eauto with hub|intros; apply holds_ret]]).
  - eapply runs_then; [by apply (getEvents_run_runs _ known L)|]. intros. by apply Hend.
  - eapply runs_then; [by apply (getEvents_resume_runs _ _ known L)|]. intros. by apply Hend.
Qed.

Lemma run_hub_runs schedule pc known L h : hub_at known L h -> runs (run_hub sha1 schedule pc) (fun r => spoken known L (snd r)) h.
Proof.
  revert pc known L h. induction schedule as [|a schedule IH]; intros pc known L h Hh; [by apply spoken_nothing|]. cbn [run_hub].
  eapply runs_then; [by apply hub_step_runs|]. intros r h1 (known1 & Ht1 & Hh1).
  eapply runs_then; [by apply (IH _ known1 (L ++ inputs (snd r)))|]. intros s h2 (known2 & Ht2 & Hh2).
  exists known2. cbn [snd]. rewrite told_app, Ht1. split; [done|]. by rewrite inputs_app, app_assoc.
Qed.

Lemma hub_new_at k h : EventHub_new k = Ret tt h -> hub_at ∅ (k_log k) h.
Proof.
  unfold EventHub_new. pose proof (log_setup k) as Hl. destruct (k_setup k) as [[] k']; [|done]. intros [= <-].
  split; [|done]. assert (forall id, id ∉ ([] : list Z)) as Hnil by (intros; apply not_elem_of_nil).
  split; cbn; try done.
  - constructor.
  - by left.
  - by repeat constructor.
  - by repeat constructor.
  - by intros id [?%Hnil _].
  - by intros id [?%Hnil _].
Qed.

(** ** Too many reports *)

(** As many devices to report as there is room for: the buffer is full afterwards. *)
Lemma report_closing_full n now c : length (mClosingDevices (cl_hub c)) = n -> (0 < capacity c <= n)%nat ->
  exists c', report_closing n now c = Ret tt c' /\ capacity c' = 0%nat /\
    mNeedToSendFinishedDeviceScan (cl_hub c') = true /\ mNeedToScanDevices (cl_hub c') = mNeedToScanDevices (cl_hub c).
Proof.
  revert c. induction n as [|n IH]; intros c Hn Hcap; [lia|]. cbn [report_closing].
  unfold mbind, M_bind, gets. destruct (mClosingDevices (cl_hub c)) as [|d rest] eqn:E; [done|].
  unfold on_hub, zoom, modify, write_event. cbn [view over cl_hub cl_buffer cl_count].
  destruct (lookup_lt_is_Some_2 (cl_buffer c) (cl_count c)) as [e ->]; [unfold capacity in Hcap; lia|]. cbn [cl_hub].
  match goal with |- context [capacity ?x] => set (c1 := x) end.
  assert (capacity c1 = capacity c - 1)%nat as Ec by (unfold capacity, c1; cbn; rewrite length_insert; lia).
  destruct (Nat.eqb_spec (capacity c1) 0); [by exists c1|].
  apply (IH c1); [by injection Hn|lia].
Qed.

Lemma report_opening_full n now c : capacity c = 0%nat -> mNeedToSendFinishedDeviceScan (cl_hub c) = true ->
  wp (report_opening n now) (fun _ c' => capacity c' = 0%nat /\ mNeedToSendFinishedDeviceScan (cl_hub c') = true)
    (fun e _ => e = past_the_end) (fun _ => False) c.
Proof.
  intros Hcap Hf. destruct n as [|n]; [done|]. cbn [report_opening]. unfold wp, mbind, M_bind, gets.
  destruct (mOpeningDevices _); [done|]. unfold on_hub, zoom, modify, write_event. cbn [view over cl_hub cl_buffer cl_count].
  by rewrite (capacity_none c Hcap).
Qed.

(** ** Properties *)

(** The devices that are closing fill up the buffer. *)
Definition fills_up c : Prop :=
  mNeedToReopenDevices (cl_hub c) = false /\ mNeedToScanDevices (cl_hub c) = false /\
  (0 < capacity c <= length (mClosingDevices (cl_hub c)))%nat.

(** There is nothing to report of devices. *)
Definition quiet h : Prop :=
  mNeedToReopenDevices h = false /\ mNeedToScanDevices h = false /\ mNeedToSendFinishedDeviceScan h = false /\
  mClosingDevices h = [] /\ mOpeningDevices h = [].

(** C7: whatever the kernel does and however the other threads' calls fall, the event hub
    neither blocks nor does anything undefined, and the events that [getEvents] returned
    are consistent.  A device is told as added once before it is told as removed and before
    any of its input, and after its removal there is no input of it unless it is added
    again.  The exception is in the removal of the built-in keyboard: it is added, and its
    input is told, as 0, but it is removed under an identifier that the caller was never
    told; each such removal takes one 0 away.  Every input event that was read from a
    device is told exactly once and in order.  The open devices that are not waiting to be
    told of are known to the caller, and it knows no others but those about to be told as
    removed: it knows 0 only while the built-in keyboard is open and told of, or is about
    to be told as removed under its own identifier.  Only a write past the end of the
    caller's buffer or the end of the identifiers ends such a run. *)
Theorem hub_stream_consistent k h0 schedule : EventHub_new k = Ret tt h0 ->
  match run_hub sha1 schedule Hub_outside h0 with
  | Ret (_, events) h =>
      exists known, told ∅ events = Some known /\ k_log (hb_kernel h) = k_log k ++ inputs events /\
        (forall id, told_open h id -> reported_id h id ∈ known) /\
        (forall id, id ∈ known -> (id = 0 /\ (told_open h (mBuiltInKeyboardId h) \/ exists x, behind known h x)) \/
          (told_open h id /\ id <> mBuiltInKeyboardId h) \/ id ∈ closing_ids h)
  | Throw e _ => stops e
  | Wait _ | Undef => False
  end.
Proof.
  intros Hnew. pose proof (run_hub_runs schedule Hub_outside _ _ _ (hub_new_at _ _ Hnew)) as Hr.
  unfold runs, wp in Hr. destruct (run_hub _ _ _ _) as [[pc events] h|e h|h|]; try done.
  destruct Hr as (known & Ht & Hi & Hl). exists known. split; [done|]. split; [done|]. split; [apply (hi_told _ _ Hi)|apply (hi_known _ _ Hi)].
Qed.

(** C39: a pass of [getEvents] that has nothing to report of devices does not write past
    the end of the buffer, however much input there is. *)
Theorem quiet_pass_fits k h0 schedule pc events h buffer : EventHub_new k = Ret tt h0 ->
  run_hub sha1 schedule Hub_outside h0 = Ret (pc, events) h ->
  quiet h ->
  match pass sha1 (mkCall h buffer 0 false) with
  | Ret _ c => (cl_count c <= length (cl_buffer c))%nat
  | Throw e _ => e = ids_exhausted
  | Wait _ | Undef => False
  end.
Proof.
  intros Hnew Hrun Hquiet. pose proof (run_hub_runs schedule Hub_outside _ _ _ (hub_new_at _ _ Hnew)) as Hr.
  unfold runs, wp in Hr. rewrite Hrun in Hr. destruct Hr as (known & _ & Hat). set (c := mkCall h buffer 0 false).
  assert (call_at known (k_log k ++ inputs events) c) as Hc by (split; [cbn; lia|]; exists known; unfold written; cbn; by rewrite app_nil_r).
  enough (goes (pass sha1) (fun _ => call_at known (k_log k ++ inputs events)) c) as Hg.
  { unfold goes, wp in Hg. destruct (pass _ _); try done. by destruct Hg as [? _]. }
  unfold pass. apply goes_bind, goes_on_hub. unfold goes at 1, wp, kernel_call.
  pose proof (log_now (hb_kernel (cl_hub c))) as Hl. destruct (k_now (hb_kernel (cl_hub c))) as [now k']. cbn [snd] in Hl.
  assert (call_at known (k_log k ++ inputs events) (with_hub c (eh_kernel k' h))) as Hc1.
  { apply call_hub; [|done]. intros known' [Hi Hk]. split; [by apply hub_inv_kernel|]. by rewrite <- Hk. }
  change (with_hub c (eh_kernel k' (cl_hub c))) with (with_hub c (eh_kernel k' h)).
  assert (quiet (cl_hub (with_hub c (eh_kernel k' h)))) as (F1 & F2 & F3 & F4 & F5) by done.
  revert Hc1 F1 F2 F3 F4 F5. generalize (with_hub c (eh_kernel k' h)). intros c1 Hc1 F1 F2 F3 F4 F5.
  apply goes_gets. rewrite F1, F4. apply goes_ret, goes_gets. rewrite F2. apply goes_ret, goes_gets. rewrite F5. apply goes_ret.
  unfold report_finished. apply goes_bind, goes_gets. rewrite F3.
  change (goes (pass_input sha1 now) (fun _ => call_at known (k_log k ++ inputs events)) c1). eapply goes_mono; [by apply pass_input_goes|by intros ?? [? _]].
Qed.

(** C40: when there are as many devices to tell as removed as there is room in the buffer,
    the loop stops at the end of the buffer, but [FINISHED_DEVICE_SCAN], or an opened
    device, is still written behind it. *)
Theorem removals_overflow c : fills_up c -> exists c', pass sha1 c = Throw past_the_end c'.
Proof.
  intros (Hr & Hs & Hcap). enough (wp (pass sha1) (fun _ _ => False) (fun e _ => e = past_the_end) (fun _ => False) c) as Hw.
  { unfold wp in Hw. destruct (pass sha1 c); try done. subst. by eexists. }
  unfold pass. apply wp_bind. unfold wp at 1, on_hub, zoom, kernel_call. cbn [view over].
  destruct (k_now _) as [now k]. set (c1 := mkCall _ _ _ _).
  apply wp_bind. change (mNeedToReopenDevices (cl_hub c1)) with (mNeedToReopenDevices (cl_hub c)). unfold wp at 1, gets.
  change (mNeedToReopenDevices (cl_hub c1)) with (mNeedToReopenDevices (cl_hub c)). rewrite Hr.
  destruct (report_closing_full _ now c1 eq_refl Hcap) as (c2 & E & Hc2 & Hf2 & Hs2).
  apply wp_bind. unfold wp at 1. rewrite E. apply wp_bind. unfold wp at 1, gets. rewrite Hs2.
  change (mNeedToScanDevices (cl_hub c1)) with (mNeedToScanDevices (cl_hub c)). rewrite Hs.
  apply wp_bind. unfold wp at 1, mret, M_ret. apply wp_bind. unfold wp at 1, gets. apply wp_bind.
  eapply wp_mono; [by apply report_opening_full|..]; [|done..]. intros _ c3 [Hc3 Hf3]. apply wp_bind.
  unfold wp at 1, report_finished, mbind, M_bind, gets. rewrite Hf3. unfold on_hub, zoom, modify, write_event.
  cbn [view over cl_hub cl_buffer cl_count]. by rewrite (capacity_none c3 Hc3).
Qed.

End Calls.

(** ** A scripted kernel *)

(** What the waits, the reads and the notifications return one after the other. *)
Record Script : Type := mkScript {
  sc_waits : list (list epoll_event);
  sc_reads : list (list input_event);
  sc_notes : list (list inotify_event);
  sc_names : list string;
  sc_pipe : nat;
  sc_log : list input_event;
}.

Definition short_event (e : input_event) : input_event := mkInput (ie_type e mod 65536) (ie_code e) (ie_value e).

(** Every node is a keyboard with the keys of the first twelve bytes. *)
#[export] Instance Script_kernel : InputKernel Script := {|
  k_setup s := (true, s);
  k_teardown s := s;
  k_open _ s := (Some 10, s);
  k_close _ s := s;
  k_name _ _ := Some "gpio-keypad";
  k_phys _ _ := None;
  k_uniq _ _ := None;
  k_version _ _ := true;
  k_id _ _ := Some (mkInputId 17 1 1 1);
  k_nonblock _ s := (true, s);
  k_bits _ kind _ := match kind with Bits_key => replicate 12 255 | _ => [] end;
  k_keyState _ _ := Some [];
  k_swState _ _ := Some [];
  k_absinfo _ _ _ := inl 22;
  k_epoll_add _ _ s := (true, s);
  k_epoll_del _ s := s;
  k_use_clock _ s := s;
  k_read _ n s :=
    match sc_reads s with
    | [] => (Read_error 11, s)
    | l :: rest =>
        let l := map short_event (take n l) in
        (Read_events l 0, mkScript (sc_waits s) rest (sc_notes s) (sc_names s) (sc_pipe s) (sc_log s ++ l))
    end;
  k_inotify s :=
    match sc_notes s with
    | [] => (None, s)
    | l :: rest => (Some l, mkScript (sc_waits s) (sc_reads s) rest (sc_names s) (sc_pipe s) (sc_log s))
    end;
  k_readdir _ s := Some (sc_names s);
  k_write _ _ s := (true, s);
  k_upload _ _ _ s := (Some 0, s);
  k_pipe_level := sc_pipe;
  k_pipe_read s :=
    match sc_pipe s with
    | O => (inl 11, s)
    | n => (inr (Nat.min 16 n), mkScript (sc_waits s) (sc_reads s) (sc_notes s) (sc_names s) (n - 16) (sc_log s))
    end;
  k_pipe_write s := mkScript (sc_waits s) (sc_reads s) (sc_notes s) (sc_names s) (S (sc_pipe s)) (sc_log s);
  k_epoll_wait _ s :=
    match sc_waits s with
    | [] => (inr [], s)
    | l :: rest => (inr l, mkScript rest (sc_reads s) (sc_notes s) (sc_names s) (sc_pipe s) (sc_log s))
    end;
  k_now s := (5, s);
|}.

(** There are no files: the generic key maps are used. *)
#[export] Instance Script_files : ConfigFiles Script := {|
  getenv _ _ := None;
  readable _ _ := false;
  file_contents _ _ := inl 2%positive;
  load_properties _ _ := None;
|}.

#[export] Instance Script_laws : HubLaws Script.
Proof.
  refine {| k_log := sc_log |}; try done.
  - intros fd n k. cbn. destruct (sc_reads k); cbn; [by rewrite app_nil_r|done].
  - intros fd n k l extra. cbn. destruct (sc_reads k); cbn; [done|]. intros [= <- _]. rewrite length_map. apply firstn_le_length.
  - intros fd n k l extra. cbn. destruct (sc_reads k); cbn; [done|]. intros [= <- _]. apply Forall_fmap, Forall_true.
    intros e. cbn. apply Z.mod_pos_bound. lia.
  - intros k. cbn. by destruct (sc_notes k).
  - intros k. cbn. by destruct (sc_pipe k).
  - intros t k. cbn. by destruct (sc_waits k).
  - intros k. cbn. destruct (sc_pipe k) as [|n]; cbn; [by intros [?|?]|lia].
Defined.

Definition no_event : RawEvent := mkRaw 0 0 0 0 0.

(** Two keyboards; the second types a key, and the first, which is built in, goes. *)
Definition demo_script : Script :=
  mkScript [[mkEpoll EPOLLIN 2]; [mkEpoll EPOLLHUP 1; mkEpoll EPOLLIN 2]]
    [[mkInput 1 30 1; mkInput 0 0 0]; [mkInput 1 30 0]] [] ["."; "event0"; "event1"] 0 [].

Definition demo_hub : Hub Script := mkHub NO_BUILT_IN_KEYBOARD 1 [] [] [] false false true [] [] 0 false demo_script.

Definition demo_schedule (room : nat) : list hub_action :=
  [Call_getEvents (-1) (replicate 8 no_event); Call_getEvents (-1) (replicate 8 no_event); Call_mapKey 2 30 0; Wait_ends;
   Call_getEvents (-1) (replicate room no_event); Wait_ends].

(** The types and the devices of events. *)
Definition heads (l : list RawEvent) : list (Z * Z) := map (fun e => (re_type e, re_deviceId e)) l.

(** The built-in keyboard is told as added under 0 and as removed under 1. *)
Definition demo_heads : list (Z * Z) :=
  [(DEVICE_ADDED, -1); (DEVICE_ADDED, 2); (DEVICE_ADDED, 0); (FINISHED_DEVICE_SCAN, 0); (1, 2); (0, 2);
   (1, 2); (DEVICE_REMOVED, 1); (FINISHED_DEVICE_SCAN, 0)].

Lemma hub_stream_consistent_witness :
  match run_hub (fun s => s) (demo_schedule 8) Hub_outside demo_hub with
  | Ret (_, events) h => heads events = demo_heads /\ exists known, told ∅ events = Some known /\ sc_log (hb_kernel h) = inputs events
  | _ => False
  end.
Proof.
  pose proof (hub_stream_consistent (fun s => s) demo_script demo_hub (demo_schedule 8) eq_refl) as Ht.
  assert (match run_hub (fun s => s) (demo_schedule 8) Hub_outside demo_hub with Ret (_, events) _ => heads events = demo_heads | _ => False end) as Hv
    by (vm_compute; reflexivity).
  destruct (run_hub _ _ _ _) as [[pc events] h|e h|h|]; try exact Hv. split; [exact Hv|].
  destruct Ht as (known & H1 & H2 & _). exists known. by split.
Defined.

Lemma quiet_pass_fits_witness :
  match run_hub (fun s => s) [Call_getEvents (-1) (replicate 8 no_event)] Hub_outside demo_hub with
  | Ret (_, _) h => quiet h /\ match pass (fun s => s) (mkCall h [no_event] 0 false) with Ret _ c => (cl_count c <= length (cl_buffer c))%nat | _ => True end
  | _ => False
  end.
Proof.
  pose proof (quiet_pass_fits (fun s => s) demo_script demo_hub [Call_getEvents (-1) (replicate 8 no_event)]) as Ht.
  assert (match run_hub (fun s => s) [Call_getEvents (-1) (replicate 8 no_event)] Hub_outside demo_hub with Ret (_, _) h => quiet h | _ => False end) as Hv
    by (vm_compute; repeat split; reflexivity).
  destruct (run_hub _ _ _ _) as [[pc events] h|e h|h|] eqn:E; try exact Hv. split; [exact Hv|].
  specialize (Ht pc events h [no_event] eq_refl eq_refl Hv). by destruct (pass _ _).
Defined.

Definition leaving : Call Script :=
  mkCall (eh_scan false (eh_closing [Device_new (-1) 1 "/dev/input/event0" InputDeviceIdentifier_new] demo_hub)) [no_event] 0 false.

Lemma removals_overflow_witness : exists c', pass (fun s => s) leaving = Throw past_the_end c'.
Proof. apply removals_overflow. split; [reflexivity|]. split; [reflexivity|cbn; lia]. Defined.

(** It happens in a run: one device goes while another one's input fills the buffer. *)
Example buffer_can_overflow :
  match run_hub (fun s => s) (demo_schedule 1) Hub_outside demo_hub with Throw e _ => e = past_the_end | _ => False end.
Proof. vm_compute. reflexivity. Qed.
