(* ===== verification/TouchData.v ===== *)
(** * Touch devices: their data

    What the mappers of touch screens keep ([InputReader.h] and [InputReader.cpp] of the Android
    input stack): sets of pointer identifiers ([BitSet32]), the accumulators that gather the
    events of a report, raw and cooked pointers, the settings a device was configured with, and
    the state of a mapper.  [TouchIds] gives pointers their identifiers; [TouchMapper] has the
    operations of the mapper.

    A table from identifiers to indices has no entry where the array has not been written. *)

From Stdlib Require Import SpecFloat.
From S2P Require Import Prelude Geometry Input AndroidEvents InputTransport InputState Dispatcher DispatchTargets DispatchLoop ReaderData InputHub.

(** ** Constants *)

Definition EV_ABS : Z := 3.
Definition SYN_MT_REPORT : Z := 2.
Definition ABS_PRESSURE : Z := 24.
Definition ABS_DISTANCE : Z := 25.
Definition ABS_TILT_X : Z := 26.
Definition ABS_TILT_Y : Z := 27.
Definition ABS_TOOL_WIDTH : Z := 28.
Definition ABS_MT_SLOT : Z := 47.
Definition ABS_MT_TOUCH_MAJOR : Z := 48.
Definition ABS_MT_TOUCH_MINOR : Z := 49.
Definition ABS_MT_WIDTH_MAJOR : Z := 50.
Definition ABS_MT_WIDTH_MINOR : Z := 51.
Definition ABS_MT_ORIENTATION : Z := 52.
Definition ABS_MT_TOOL_TYPE : Z := 55.
Definition ABS_MT_TRACKING_ID : Z := 57.
Definition ABS_MT_PRESSURE : Z := 58.
Definition ABS_MT_DISTANCE : Z := 59.
Definition MT_TOOL_FINGER : Z := 0.
Definition MT_TOOL_PEN : Z := 1.
Definition BTN_TOOL_PEN : Z := 320.
Definition BTN_TOOL_RUBBER : Z := 321.
Definition BTN_TOOL_BRUSH : Z := 322.
Definition BTN_TOOL_PENCIL : Z := 323.
Definition BTN_TOOL_AIRBRUSH : Z := 324.
Definition BTN_TOOL_FINGER : Z := 325.
Definition BTN_TOOL_MOUSE : Z := 326.
Definition BTN_TOOL_LENS : Z := 327.
Definition BTN_STYLUS : Z := 331.
Definition BTN_STYLUS2 : Z := 332.
Definition BTN_TOOL_DOUBLETAP : Z := 333.
Definition BTN_TOOL_TRIPLETAP : Z := 334.
Definition BTN_TOOL_QUADTAP : Z := 335.

Definition AMOTION_EVENT_TOOL_TYPE_UNKNOWN : Z := 0.
Definition AMOTION_EVENT_TOOL_TYPE_FINGER : Z := 1.
Definition AMOTION_EVENT_TOOL_TYPE_STYLUS : Z := 2.
Definition AMOTION_EVENT_TOOL_TYPE_ERASER : Z := 4.
Definition AMOTION_EVENT_AXIS_SIZE : Z := 3.
Definition AMOTION_EVENT_AXIS_ORIENTATION : Z := 8.
Definition AMOTION_EVENT_AXIS_DISTANCE : Z := 24.
Definition AMOTION_EVENT_AXIS_TILT : Z := 25.
Definition AKEY_STATE_VIRTUAL : Z := 2.

(** ** [BitSet32] *)

Definition isEmpty (value : Z) : bool := value =? 0.
Definition isFull (value : Z) : bool := value =? 4294967295.

(** [__builtin_clz]; a set without such a bit has no defined result. *)
Definition firstMarkedBit (value : Z) : Z := 31 - Z.log2 value.
Definition firstUnmarkedBit (value : Z) : Z := 31 - Z.log2 (Z.ldiff 4294967295 value).

(** The bits in the order of [while (!idBits.isEmpty()) id = idBits.clearFirstMarkedBit()]. *)
Fixpoint marked_from (fuel : nat) (value : Z) : list Z :=
  match fuel with
  | O => []
  | S n => if isEmpty value then [] else firstMarkedBit value :: marked_from n (clearBit value (firstMarkedBit value))
  end.

Definition marked : Z -> list Z := marked_from 32.

(** ** Accumulators *)

Record TouchButtonAccumulator : Set := mkTouchButtons {
  mHaveBtnTouch : bool; mHaveStylus : bool;
  mBtnTouch : bool; mBtnStylus : bool; mBtnStylus2 : bool; mBtnToolFinger : bool; mBtnToolPen : bool;
  mBtnToolRubber : bool; mBtnToolBrush : bool; mBtnToolPencil : bool; mBtnToolAirbrush : bool; mBtnToolMouse : bool;
  mBtnToolLens : bool; mBtnToolDoubleTap : bool; mBtnToolTripleTap : bool; mBtnToolQuadTap : bool;
}.

(** The second stylus button is read as the first. *)
Definition touch_buttons_reset (isKeyPressed : Z -> bool) (b : TouchButtonAccumulator) : TouchButtonAccumulator :=
  mkTouchButtons (mHaveBtnTouch b) (mHaveStylus b)
    (isKeyPressed BTN_TOUCH) (isKeyPressed BTN_STYLUS) (isKeyPressed BTN_STYLUS) (isKeyPressed BTN_TOOL_FINGER)
    (isKeyPressed BTN_TOOL_PEN) (isKeyPressed BTN_TOOL_RUBBER) (isKeyPressed BTN_TOOL_BRUSH) (isKeyPressed BTN_TOOL_PENCIL)
    (isKeyPressed BTN_TOOL_AIRBRUSH) (isKeyPressed BTN_TOOL_MOUSE) (isKeyPressed BTN_TOOL_LENS)
    (isKeyPressed BTN_TOOL_DOUBLETAP) (isKeyPressed BTN_TOOL_TRIPLETAP) (isKeyPressed BTN_TOOL_QUADTAP).

Definition touch_buttons_process (e : RawEvent) (b : TouchButtonAccumulator) : TouchButtonAccumulator :=
  if negb (re_type e =? EV_KEY) then b
  else
    let v := negb (re_value e =? 0) in
    let key code old := if re_code e =? code then v else old in
    mkTouchButtons (mHaveBtnTouch b) (mHaveStylus b)
      (key BTN_TOUCH (mBtnTouch b)) (key BTN_STYLUS (mBtnStylus b)) (key BTN_STYLUS2 (mBtnStylus2 b))
      (key BTN_TOOL_FINGER (mBtnToolFinger b)) (key BTN_TOOL_PEN (mBtnToolPen b)) (key BTN_TOOL_RUBBER (mBtnToolRubber b))
      (key BTN_TOOL_BRUSH (mBtnToolBrush b)) (key BTN_TOOL_PENCIL (mBtnToolPencil b))
      (key BTN_TOOL_AIRBRUSH (mBtnToolAirbrush b)) (key BTN_TOOL_MOUSE (mBtnToolMouse b))
      (key BTN_TOOL_LENS (mBtnToolLens b)) (key BTN_TOOL_DOUBLETAP (mBtnToolDoubleTap b))
      (key BTN_TOOL_TRIPLETAP (mBtnToolTripleTap b)) (key BTN_TOOL_QUADTAP (mBtnToolQuadTap b)).

Definition touch_getButtonState (b : TouchButtonAccumulator) : Z :=
  when (mBtnStylus2 b) AMOTION_EVENT_BUTTON_TERTIARY (when (mBtnStylus b) AMOTION_EVENT_BUTTON_SECONDARY 0).

Definition touch_getToolType (b : TouchButtonAccumulator) : Z :=
  if mBtnToolMouse b || mBtnToolLens b then AMOTION_EVENT_TOOL_TYPE_MOUSE
  else if mBtnToolRubber b then AMOTION_EVENT_TOOL_TYPE_ERASER
  else if mBtnToolPen b || mBtnToolBrush b || mBtnToolPencil b || mBtnToolAirbrush b then AMOTION_EVENT_TOOL_TYPE_STYLUS
  else if mBtnToolFinger b || mBtnToolDoubleTap b || mBtnToolTripleTap b || mBtnToolQuadTap b
  then AMOTION_EVENT_TOOL_TYPE_FINGER
  else AMOTION_EVENT_TOOL_TYPE_UNKNOWN.

Definition isToolActive (b : TouchButtonAccumulator) : bool :=
  mBtnTouch b || mBtnToolFinger b || mBtnToolPen b || mBtnToolRubber b || mBtnToolBrush b || mBtnToolPencil b ||
  mBtnToolAirbrush b || mBtnToolMouse b || mBtnToolLens b || mBtnToolDoubleTap b || mBtnToolTripleTap b || mBtnToolQuadTap b.

Definition touch_isHovering (b : TouchButtonAccumulator) : bool := mHaveBtnTouch b && negb (mBtnTouch b).

Record SingleTouchMotionAccumulator : Set := mkSingleTouch {
  mAbsX : Z; mAbsY : Z; mAbsPressure : Z; mAbsToolWidth : Z; mAbsDistance : Z; mAbsTiltX : Z; mAbsTiltY : Z }.

Definition single_reset (getAbsoluteAxisValue : Z -> Z) : SingleTouchMotionAccumulator :=
  mkSingleTouch (getAbsoluteAxisValue ABS_X) (getAbsoluteAxisValue ABS_Y) (getAbsoluteAxisValue ABS_PRESSURE)
    (getAbsoluteAxisValue ABS_TOOL_WIDTH) (getAbsoluteAxisValue ABS_DISTANCE) (getAbsoluteAxisValue ABS_TILT_X)
    (getAbsoluteAxisValue ABS_TILT_Y).

Definition single_process (e : RawEvent) (a : SingleTouchMotionAccumulator) : SingleTouchMotionAccumulator :=
  if negb (re_type e =? EV_ABS) then a
  else
    let axis code old := if re_code e =? code then re_value e else old in
    mkSingleTouch (axis ABS_X (mAbsX a)) (axis ABS_Y (mAbsY a)) (axis ABS_PRESSURE (mAbsPressure a))
      (axis ABS_TOOL_WIDTH (mAbsToolWidth a)) (axis ABS_DISTANCE (mAbsDistance a)) (axis ABS_TILT_X (mAbsTiltX a))
      (axis ABS_TILT_Y (mAbsTiltY a)).

Record Slot : Set := mkSlot {
  mInUse : bool; mHaveAbsMTTouchMinor : bool; mHaveAbsMTWidthMinor : bool; mHaveAbsMTToolType : bool;
  mAbsMTPositionX : Z; mAbsMTPositionY : Z; mAbsMTTouchMajor : Z; mAbsMTTouchMinor : Z; mAbsMTWidthMajor : Z;
  mAbsMTWidthMinor : Z; mAbsMTOrientation : Z; mAbsMTTrackingId : Z; mAbsMTPressure : Z; mAbsMTDistance : Z;
  mAbsMTToolType : Z;
}.

Definition slot_clear : Slot := mkSlot false false false false 0 0 0 0 0 0 0 (-1) 0 0 0.

Definition getTouchMinor (s : Slot) : Z := if mHaveAbsMTTouchMinor s then mAbsMTTouchMinor s else mAbsMTTouchMajor s.
Definition getToolMinor (s : Slot) : Z := if mHaveAbsMTWidthMinor s then mAbsMTWidthMinor s else mAbsMTWidthMajor s.

Definition slot_getToolType (s : Slot) : Z :=
  if mHaveAbsMTToolType s then
    if mAbsMTToolType s =? MT_TOOL_FINGER then AMOTION_EVENT_TOOL_TYPE_FINGER
    else if mAbsMTToolType s =? MT_TOOL_PEN then AMOTION_EVENT_TOOL_TYPE_STYLUS
    else AMOTION_EVENT_TOOL_TYPE_UNKNOWN
  else AMOTION_EVENT_TOOL_TYPE_UNKNOWN.

(** What an event on an axis does to the slot it is for. *)
Definition slot_process (slots : bool) (code value : Z) (s : Slot) : Slot :=
  let axis c := code =? c in
  if existsb axis [ABS_MT_POSITION_X; ABS_MT_POSITION_Y; ABS_MT_TOUCH_MAJOR; ABS_MT_TOUCH_MINOR; ABS_MT_WIDTH_MAJOR;
                   ABS_MT_WIDTH_MINOR; ABS_MT_ORIENTATION; ABS_MT_TRACKING_ID; ABS_MT_PRESSURE; ABS_MT_DISTANCE;
                   ABS_MT_TOOL_TYPE] then
    let leaves := axis ABS_MT_TRACKING_ID && slots && (value <? 0) in
    let set c old := if axis c then value else old in
    mkSlot (negb leaves)
      (axis ABS_MT_TOUCH_MINOR || mHaveAbsMTTouchMinor s) (axis ABS_MT_WIDTH_MINOR || mHaveAbsMTWidthMinor s)
      (axis ABS_MT_TOOL_TYPE || mHaveAbsMTToolType s)
      (set ABS_MT_POSITION_X (mAbsMTPositionX s)) (set ABS_MT_POSITION_Y (mAbsMTPositionY s))
      (set ABS_MT_TOUCH_MAJOR (mAbsMTTouchMajor s)) (set ABS_MT_TOUCH_MINOR (mAbsMTTouchMinor s))
      (set ABS_MT_WIDTH_MAJOR (mAbsMTWidthMajor s)) (set ABS_MT_WIDTH_MINOR (mAbsMTWidthMinor s))
      (set ABS_MT_ORIENTATION (mAbsMTOrientation s))
      (if leaves then mAbsMTTrackingId s else set ABS_MT_TRACKING_ID (mAbsMTTrackingId s))
      (set ABS_MT_PRESSURE (mAbsMTPressure s)) (set ABS_MT_DISTANCE (mAbsMTDistance s))
      (set ABS_MT_TOOL_TYPE (mAbsMTToolType s))
  else s.

(** [mSlots] has [mSlotCount] of them. *)
Record MultiTouchMotionAccumulator : Set := mkMultiTouch {
  mCurrentSlot : Z;
  mSlots : list Slot;
  mUsingSlotsProtocol : bool;
  mt_haveStylus : bool;
}.

Definition clearSlots (initialSlot : Z) (a : MultiTouchMotionAccumulator) : MultiTouchMotionAccumulator :=
  mkMultiTouch initialSlot (map (fun _ => slot_clear) (mSlots a)) (mUsingSlotsProtocol a) (mt_haveStylus a).

(** [initialSlot] is what the driver says of the slot, or none. *)
Definition multi_reset (initialSlot : option Z) (a : MultiTouchMotionAccumulator) : MultiTouchMotionAccumulator :=
  clearSlots (if mUsingSlotsProtocol a then default (-1) initialSlot else -1) a.

(** Counting past the last [int] is undefined. *)
Definition multi_process (e : RawEvent) (a : MultiTouchMotionAccumulator) : option MultiTouchMotionAccumulator :=
  let put slot slots := mkMultiTouch slot slots (mUsingSlotsProtocol a) (mt_haveStylus a) in
  if re_type e =? EV_ABS then
    let current :=
      if mUsingSlotsProtocol a then if re_code e =? ABS_MT_SLOT then re_value e else mCurrentSlot a
      else if mCurrentSlot a <? 0 then 0 else mCurrentSlot a in
    if (current <? 0) || (Z.of_nat (length (mSlots a)) <=? current) then Some (put current (mSlots a))
    else Some (put current (alter (slot_process (mUsingSlotsProtocol a) (re_code e) (re_value e)) (Z.to_nat current) (mSlots a)))
  else if (re_type e =? EV_SYN) && (re_code e =? SYN_MT_REPORT) then
    if mCurrentSlot a =? 2147483647 then None else Some (put (mCurrentSlot a + 1) (mSlots a))
  else Some a.

Definition multi_finishSync (a : MultiTouchMotionAccumulator) : MultiTouchMotionAccumulator :=
  if mUsingSlotsProtocol a then a else clearSlots (-1) a.

(** ** Pointers *)

(** The identifier is -1 until one has been given. *)
Record RawPointer : Set := mkRawPointer {
  rp_id : Z; rp_x : Z; rp_y : Z; rp_pressure : Z; rp_touchMajor : Z; rp_touchMinor : Z; rp_toolMajor : Z; rp_toolMinor : Z;
  rp_orientation : Z; rp_distance : Z; rp_tiltX : Z; rp_tiltY : Z; rp_toolType : Z; rp_isHovering : bool;
}.

Definition with_id (id : Z) (p : RawPointer) : RawPointer :=
  mkRawPointer id (rp_x p) (rp_y p) (rp_pressure p) (rp_touchMajor p) (rp_touchMinor p) (rp_toolMajor p) (rp_toolMinor p)
    (rp_orientation p) (rp_distance p) (rp_tiltX p) (rp_tiltY p) (rp_toolType p) (rp_isHovering p).

(** [pointers] has the [pointerCount] first ones of the array. *)
Record RawPointerData : Set := mkRawData {
  rw_pointers : list RawPointer; rw_hoveringIdBits : Z; rw_touchingIdBits : Z; rw_idToIndex : gmap Z nat }.

Definition raw_clear (d : RawPointerData) : RawPointerData := mkRawData [] 0 0 (rw_idToIndex d).

Definition clearIdBits (d : RawPointerData) : RawPointerData := mkRawData (rw_pointers d) 0 0 (rw_idToIndex d).

Definition markIdBit (id : Z) (hovering : bool) (d : RawPointerData) : RawPointerData :=
  if hovering then mkRawData (rw_pointers d) (markBit (rw_hoveringIdBits d) id) (rw_touchingIdBits d) (rw_idToIndex d)
  else mkRawData (rw_pointers d) (rw_hoveringIdBits d) (markBit (rw_touchingIdBits d) id) (rw_idToIndex d).

Definition pointerForId (id : Z) (d : RawPointerData) : option RawPointer := i ← rw_idToIndex d !! id ; rw_pointers d !! i.

(** The entries of [from] for these identifiers, copied into [to]. *)
Fixpoint copy_index (ids : list Z) (from to : gmap Z nat) : option (gmap Z nat) :=
  match ids with
  | [] => Some to
  | id :: ids' => i ← from !! id ; copy_index ids' from (<[ id := i ]> to)
  end.

Definition raw_copyFrom (other d : RawPointerData) : option RawPointerData :=
  index ← copy_index (map rp_id (rw_pointers other)) (rw_idToIndex other) (rw_idToIndex d) ;
  Some (mkRawData (rw_pointers other) (rw_hoveringIdBits other) (rw_touchingIdBits other) index).

(** The properties and the coordinates of each pointer. *)
Record CookedPointerData : Set := mkCooked {
  ck_pointers : list (PointerProperties * PointerCoords); ck_hoveringIdBits : Z; ck_touchingIdBits : Z;
  ck_idToIndex : gmap Z nat }.

Definition cooked_clear (d : CookedPointerData) : CookedPointerData := mkCooked [] 0 0 (ck_idToIndex d).

Definition cooked_copyFrom (other d : CookedPointerData) : option CookedPointerData :=
  index ← copy_index (map (fun p => pp_id (fst p)) (ck_pointers other)) (ck_idToIndex other) (ck_idToIndex d) ;
  Some (mkCooked (ck_pointers other) (ck_hoveringIdBits other) (ck_touchingIdBits other) index).

(** [PointerCoords::operator==]: the values that are there. *)
Definition coords_eqb (c c' : PointerCoords) : bool :=
  (coords_bits c =? coords_bits c') &&
  forallb (fun i => SFeqb (default zero (coords_values c !! i)) (default zero (coords_values c' !! i)))
    (seq 0 (popcountll (coords_bits c))).

(** ** Settings *)

Record RawPointerAxes : Set := mkAxes {
  ra_x : RawAbsoluteAxisInfo; ra_y : RawAbsoluteAxisInfo; ra_pressure : RawAbsoluteAxisInfo;
  ra_touchMajor : RawAbsoluteAxisInfo; ra_touchMinor : RawAbsoluteAxisInfo; ra_toolMajor : RawAbsoluteAxisInfo;
  ra_toolMinor : RawAbsoluteAxisInfo; ra_orientation : RawAbsoluteAxisInfo; ra_distance : RawAbsoluteAxisInfo;
  ra_tiltX : RawAbsoluteAxisInfo; ra_tiltY : RawAbsoluteAxisInfo; ra_trackingId : RawAbsoluteAxisInfo;
  ra_slot : RawAbsoluteAxisInfo;
}.

Inductive SizeCalibration : Set :=
  SIZE_CALIBRATION_DEFAULT | SIZE_CALIBRATION_NONE | SIZE_CALIBRATION_GEOMETRIC | SIZE_CALIBRATION_DIAMETER |
  SIZE_CALIBRATION_AREA.
Inductive PressureCalibration : Set :=
  PRESSURE_CALIBRATION_DEFAULT | PRESSURE_CALIBRATION_NONE | PRESSURE_CALIBRATION_PHYSICAL | PRESSURE_CALIBRATION_AMPLITUDE.
Inductive OrientationCalibration : Set :=
  ORIENTATION_CALIBRATION_DEFAULT | ORIENTATION_CALIBRATION_NONE | ORIENTATION_CALIBRATION_INTERPOLATED |
  ORIENTATION_CALIBRATION_VECTOR.
Inductive DistanceCalibration : Set :=
  DISTANCE_CALIBRATION_DEFAULT | DISTANCE_CALIBRATION_NONE | DISTANCE_CALIBRATION_SCALED.

(** [None] where the source has a flag that says that there is no value. *)
Record Calibration : Set := mkCalibration {
  sizeCalibration : SizeCalibration; cal_sizeScale : option float; cal_sizeBias : option float;
  cal_sizeIsSummed : option bool;
  pressureCalibration : PressureCalibration; cal_pressureScale : option float;
  orientationCalibration : OrientationCalibration;
  distanceCalibration : DistanceCalibration; cal_distanceScale : option float;
}.

Inductive DeviceMode : Set :=
  DEVICE_MODE_DISABLED | DEVICE_MODE_DIRECT | DEVICE_MODE_UNSCALED | DEVICE_MODE_POINTER.

#[export] Instance DeviceMode_eq_dec : EqDecision DeviceMode.
Proof. solve_decision. Defined.

Record VirtualKey : Set := mkVirtualKey {
  vk_keyCode : Z; vk_scanCode : Z; vk_flags : Z; hitLeft : Z; hitTop : Z; hitRight : Z; hitBottom : Z }.

Definition isHit (x y : Z) (k : VirtualKey) : bool :=
  (hitLeft k <=? x) && (x <=? hitRight k) && (hitTop k <=? y) && (y <=? hitBottom k).

(** What [configure] has set, with what the mapper asks of its device. *)
Record TouchSettings : Set := mkSettings {
  ts_deviceId : Z; ts_isExternal : bool; mDeviceMode : DeviceMode; ts_source : Z;
  mRawPointerAxes : RawPointerAxes; mCalibration : Calibration; mSurfaceOrientation : Z;
  mXScale : float; mYScale : float; mGeometricScale : float; mPressureScale : float; mSizeScale : float;
  mOrientationCenter : float; mOrientationScale : float; mDistanceScale : float;
  mHaveTilt : bool; mTiltXCenter : float; mTiltXScale : float; mTiltYCenter : float; mTiltYScale : float;
  mOrientedXPrecision : float; mOrientedYPrecision : float;
  mVirtualKeys : list VirtualKey; virtualKeyQuietTime : Z; showTouches : bool; ts_hasController : bool;
}.

(** ** The mapper *)

(** The two derived classes. *)
Inductive TouchProtocol : Set :=
| SingleTouchInput (a : SingleTouchMotionAccumulator)
| MultiTouchInput (a : MultiTouchMotionAccumulator) (mPointerIdBits : Z) (mPointerTrackingIdMap : gmap Z Z).

Inductive PointerUsage : Set := POINTER_USAGE_NONE | POINTER_USAGE_GESTURES | POINTER_USAGE_STYLUS | POINTER_USAGE_MOUSE.

(** The members that come as current and last. *)
Record Sample : Set := mkSample {
  sm_raw : RawPointerData; sm_cooked : CookedPointerData; sm_buttonState : Z;
  sm_fingerIdBits : Z; sm_stylusIdBits : Z; sm_mouseIdBits : Z }.

Record CurrentVirtualKeyState : Set := mkCurrentKey {
  cv_down : bool; cv_ignored : bool; cv_downTime : Z; cv_keyCode : Z; cv_scanCode : Z }.

(** [G]: the members that only the translation through a pointer on the screen uses. *)
Record TouchInputMapper (G : Type) : Type := mkTouch {
  tm_buttons : CursorButtonAccumulator;
  tm_scroll : CursorScrollAccumulator;
  tm_touchButtons : TouchButtonAccumulator;
  tm_protocol : TouchProtocol;
  tm_current : Sample;
  tm_last : Sample;
  mCurrentRawVScroll : Z;
  mCurrentRawHScroll : Z;
  mPointerUsage : PointerUsage;
  mSentHoverEnter : bool;
  tm_downTime : Z;
  mCurrentVirtualKey : CurrentVirtualKeyState;
  tm_pointing : G;
}.
Arguments mkTouch {G}.
Arguments tm_buttons {G}.
Arguments tm_scroll {G}.
Arguments tm_touchButtons {G}.
Arguments tm_protocol {G}.
Arguments tm_current {G}.
Arguments tm_last {G}.
Arguments mCurrentRawVScroll {G}.
Arguments mCurrentRawHScroll {G}.
Arguments mPointerUsage {G}.
Arguments mSentHoverEnter {G}.
Arguments tm_downTime {G}.
Arguments mCurrentVirtualKey {G}.
Arguments tm_pointing {G}.

(** The mapper with the reader's context. *)
Record TouchWorld (K G : Type) : Type := mkTouchWorld { tw_mapper : TouchInputMapper G; tw_context : ReaderContext K }.
Arguments mkTouchWorld {K G}.
Arguments tw_mapper {K G}.
Arguments tw_context {K G}.

(** ** Lemmas on sets of identifiers *)

Lemma valueForBit_pow n : 0 <= n <= 31 -> valueForBit n = 2 ^ (31 - n).
Proof. intros Hn. unfold valueForBit. change 2147483648 with (2 ^ 31). rewrite Z.shiftr_div_pow2, <- Z.pow_sub_r by lia. done. Qed.

Lemma hasBit_testbit v n : 0 <= n <= 31 -> hasBit v n = Z.testbit v (31 - n).
Proof. intros Hn. unfold hasBit. rewrite valueForBit_pow by done. rewrite <- Z.shiftl_1_l. apply has_shiftl. lia. Qed.

Lemma hasBit_mark v n m : 0 <= n <= 31 -> 0 <= m <= 31 -> hasBit (markBit v n) m = (n =? m) || hasBit v m.
Proof.
  intros Hn Hm. rewrite !hasBit_testbit by done. unfold markBit. rewrite valueForBit_pow, Z.lor_spec, Z.pow2_bits_eqb by lia.
  rewrite orb_comm. f_equal. destruct (Z.eqb_spec (31 - n) (31 - m)), (Z.eqb_spec n m); lia.
Qed.

Lemma hasBit_clear v n m : 0 <= n <= 31 -> 0 <= m <= 31 -> hasBit (clearBit v n) m = negb (n =? m) && hasBit v m.
Proof.
  intros Hn Hm. rewrite !hasBit_testbit by done. unfold clearBit. rewrite valueForBit_pow, Z.ldiff_spec, Z.pow2_bits_eqb by lia.
  rewrite andb_comm. f_equal. f_equal. destruct (Z.eqb_spec (31 - n) (31 - m)), (Z.eqb_spec n m); lia.
Qed.

Lemma hasBit_0 n : hasBit 0 n = false.
Proof. done. Qed.

Lemma hasBit_land v w n : 0 <= n <= 31 -> hasBit (Z.land v w) n = hasBit v n && hasBit w n.
Proof. intros Hn. rewrite !hasBit_testbit by done. apply Z.land_spec. Qed.

Lemma hasBit_ldiff v w n : 0 <= n <= 31 -> hasBit (Z.ldiff v w) n = hasBit v n && negb (hasBit w n).
Proof. intros Hn. rewrite !hasBit_testbit by done. apply Z.ldiff_spec. Qed.

(** Bits beyond the 32 are not set. *)
Lemma u32_testbit v n : is_u32 v -> 32 <= n -> Z.testbit v n = false.
Proof.
  intros [H0 H] Hn. destruct (Z.eq_dec v 0) as [->|Hv]; [apply Z.bits_0|]. apply Z.bits_above_log2; [done|].
  assert (Z.log2 v < 32) by (apply Z.log2_lt_pow2; lia). lia.
Qed.

Lemma u32_of_bits v : (forall n, 32 <= n -> Z.testbit v n = false) -> 0 <= v -> is_u32 v.
Proof.
  intros H H0. split; [done|]. destruct (Z.lt_ge_cases v 4294967296) as [|Hge]; [done|]. exfalso.
  pose proof (Z.log2_le_mono _ _ Hge) as Hl. change (Z.log2 4294967296) with 32 in Hl.
  pose proof (Z.bit_log2 v ltac:(lia)) as Hb. by rewrite (H _ Hl) in Hb.
Qed.

Lemma u32_markBit v n : is_u32 v -> 0 <= n <= 31 -> is_u32 (markBit v n).
Proof.
  intros Hv Hn. unfold markBit. rewrite valueForBit_pow by done. apply u32_of_bits.
  - intros k Hk. rewrite Z.lor_spec, u32_testbit, Z.pow2_bits_eqb by (done || lia). destruct (Z.eqb_spec (31 - n) k); [lia|done].
  - apply Z.lor_nonneg. split; [apply Hv|]. apply Z.pow_nonneg. lia.
Qed.

Lemma u32_clearBit v n : is_u32 v -> is_u32 (clearBit v n).
Proof.
  intros Hv. unfold clearBit. apply u32_of_bits; [|apply Z.ldiff_nonneg; left; apply Hv].
  intros k Hk. by rewrite Z.ldiff_spec, u32_testbit.
Qed.

Lemma u32_land v w : is_u32 v -> is_u32 (Z.land v w).
Proof.
  intros Hv. apply u32_of_bits; [|apply Z.land_nonneg; left; apply Hv]. intros k Hk. by rewrite Z.land_spec, u32_testbit.
Qed.

Lemma u32_ldiff v w : is_u32 v -> is_u32 (Z.ldiff v w).
Proof.
  intros Hv. apply u32_of_bits; [|apply Z.ldiff_nonneg; left; apply Hv]. intros k Hk. by rewrite Z.ldiff_spec, u32_testbit.
Qed.

(** Two sets with the same identifiers are the same. *)
Lemma bits_ext v w : is_u32 v -> is_u32 w -> (forall n, 0 <= n <= 31 -> hasBit v n = hasBit w n) -> v = w.
Proof.
  intros Hv Hw H. apply Z.bits_inj'. intros n Hn. destruct (Z.lt_ge_cases n 32).
  - specialize (H (31 - n) ltac:(lia)). rewrite !hasBit_testbit in H by lia. by replace (31 - (31 - n)) with n in H by lia.
  - by rewrite !u32_testbit.
Qed.

(** The identifiers below [k] bits of a set that has no higher ones. *)
Lemma marked_from_spec fuel k v :
  (k <= fuel)%nat -> (k <= 32)%nat -> 0 <= v < 2 ^ Z.of_nat k ->
  marked_from fuel v = List.filter (hasBit v) (seqZ (32 - Z.of_nat k) (Z.of_nat k)).
Proof.
  revert fuel v. induction k as [|k IH]; intros fuel v Hf Hk Hv.
  - assert (v = 0) as -> by (change (2 ^ Z.of_nat 0) with 1 in Hv; lia). by destruct fuel.
  - destruct fuel as [|fuel]; [lia|]. rewrite seqZ_cons by lia.
    replace (Z.succ (32 - Z.of_nat (S k))) with (32 - Z.of_nat k) by lia. replace (Z.pred (Z.of_nat (S k))) with (Z.of_nat k) by lia.
    rewrite Nat2Z.inj_succ in Hv. cbn [List.filter]. rewrite hasBit_testbit by lia. replace (31 - (32 - Z.of_nat (S k))) with (Z.of_nat k) by lia.
    destruct (Z.lt_ge_cases v (2 ^ Z.of_nat k)) as [Hlt|Hge].
    + rewrite <- (IH (S fuel) v) by lia. destruct (Z.eq_dec v 0) as [->|Hv0]; [by rewrite Z.bits_0|].
      rewrite Z.bits_above_log2 by (try apply Z.log2_lt_pow2; lia). done.
    + assert (Z.log2 v = Z.of_nat k) as Hl by (apply Z.log2_unique; lia).
      assert (Z.testbit v (Z.of_nat k) = true) as Hb by (rewrite <- Hl; apply Z.bit_log2; lia). rewrite Hb.
      cbn [marked_from]. unfold isEmpty. rewrite (proj2 (Z.eqb_neq v 0)) by lia. unfold firstMarkedBit. rewrite Hl.
      replace (31 - Z.of_nat k) with (32 - Z.of_nat (S k)) by lia. f_equal. set (b := 32 - Z.of_nat (S k)).
      assert (clearBit v b = v - 2 ^ Z.of_nat k) as Hc.
      { unfold clearBit. rewrite valueForBit_pow by lia. replace (31 - b) with (Z.of_nat k) by lia. symmetry. apply Z.sub_nocarry_ldiff.
        apply Z.bits_inj'. intros n Hn. rewrite Z.ldiff_spec, Z.pow2_bits_eqb, Z.bits_0 by lia.
        destruct (Z.eqb_spec (Z.of_nat k) n) as [<-|]; [by rewrite Hb|done]. }
      rewrite (IH fuel) by (rewrite ?Hc, ?Z.pow_succ_r in *; lia). apply List.filter_ext_in. intros n Hn.
      apply list_elem_of_In, elem_of_seqZ in Hn. rewrite hasBit_clear by lia. by rewrite (proj2 (Z.eqb_neq b n)) by lia.
Qed.

Lemma marked_filter v : is_u32 v -> marked v = List.filter (hasBit v) (seqZ 0 32).
Proof. intros Hv. unfold marked. by rewrite (marked_from_spec 32 32 v). Qed.

Lemma elem_of_marked v n : is_u32 v -> n ∈ marked v <-> 0 <= n <= 31 /\ hasBit v n = true.
Proof.
  intros Hv. rewrite marked_filter by done. rewrite list_elem_of_In, List.filter_In, <- list_elem_of_In, elem_of_seqZ.
  split; intros [? ?]; split; (done || lia).
Qed.

Lemma NoDup_marked v : is_u32 v -> NoDup (marked v).
Proof. intros Hv. rewrite marked_filter by done. apply NoDup_ListNoDup, List.NoDup_filter, NoDup_ListNoDup, NoDup_seqZ. Qed.

Lemma marked_ext v w : is_u32 v -> is_u32 w -> (forall n, 0 <= n <= 31 -> hasBit v n = hasBit w n) -> marked v = marked w.
Proof. intros Hv Hw H. by rewrite (bits_ext v w). Qed.

Lemma marked_nil v : is_u32 v -> marked v = [] <-> v = 0.
Proof.
  intros Hv. split; [|by intros ->]. intros H. apply bits_ext; [done|by split|]. intros n Hn. rewrite hasBit_0.
  apply not_true_iff_false. intros Hb. assert (n ∈ marked v) as Hin by (by apply elem_of_marked). rewrite H in Hin. by apply elem_of_nil in Hin.
Qed.

(** How many there are. *)
Lemma rank_filter v n : (n <= 32)%nat -> rank v n = length (List.filter (hasBit v) (seqZ (32 - Z.of_nat n) (Z.of_nat n))).
Proof.
  induction n as [|n IH]; intros Hn; [done|]. cbn [rank]. rewrite seqZ_cons by lia.
  replace (Z.succ (32 - Z.of_nat (S n))) with (32 - Z.of_nat n) by lia. replace (Z.pred (Z.of_nat (S n))) with (Z.of_nat n) by lia.
  cbn [List.filter]. rewrite hasBit_testbit by lia. replace (31 - (32 - Z.of_nat (S n))) with (Z.of_nat n) by lia.
  rewrite IH by lia. destruct (Z.testbit v (Z.of_nat n)); cbn; lia.
Qed.

Lemma popcount_marked v : is_u32 v -> popcount v = length (marked v).
Proof. intros Hv. rewrite marked_filter by done. apply (rank_filter v 32). lia. Qed.

Lemma marked_mark v n : is_u32 v -> 0 <= n <= 31 -> hasBit v n = false -> marked (markBit v n) ≡ₚ n :: marked v.
Proof.
  intros Hv Hn Hb. apply NoDup_Permutation.
  - by apply NoDup_marked, u32_markBit.
  - constructor; [|by apply NoDup_marked]. rewrite elem_of_marked, Hb by done. by intros [_ [=]].
  - intros m. rewrite elem_of_cons, !elem_of_marked by (done || by apply u32_markBit). split.
    + intros [Hm H]. rewrite hasBit_mark in H by done. destruct (Z.eqb_spec n m) as [->|]; [by left|]. right. done.
    + intros [->|[Hm H]]; (split; [done|]); rewrite hasBit_mark by done; [by rewrite Z.eqb_refl|]. rewrite H. apply orb_true_r.
Qed.

Lemma popcount_mark v n : is_u32 v -> 0 <= n <= 31 -> hasBit v n = false -> popcount (markBit v n) = S (popcount v).
Proof.
  intros Hv Hn Hb. rewrite (popcount_marked v Hv), (popcount_marked (markBit v n)) by (by apply u32_markBit).
  rewrite (Permutation_length (marked_mark v n Hv Hn Hb)). exact eq_refl.
Qed.

(** The first identifier that is not in a set. *)
Lemma first_unmarked v c :
  is_u32 v -> 0 <= c <= 31 -> hasBit v c = false ->
  let n := firstUnmarkedBit v in 0 <= n <= c /\ hasBit v n = false /\ forall m, 0 <= m < n -> hasBit v m = true.
Proof.
  intros Hv Hc Hb. unfold firstUnmarkedBit. set (w := Z.ldiff 4294967295 v).
  assert (is_u32 w) as Hw by (apply u32_ldiff; unfold is_u32; lia).
  assert (forall n, 0 <= n <= 31 -> hasBit w n = negb (hasBit v n)) as Hwb.
  { intros n Hn. unfold w. rewrite hasBit_ldiff by done. rewrite (hasBit_testbit 4294967295) by done.
    change 4294967295 with (Z.ones 32). by rewrite Z.ones_spec_low by lia. }
  assert (0 < w) as Hpos.
  { destruct (Z.eq_dec w 0) as [E|]; [|destruct Hw; lia]. specialize (Hwb c Hc). by rewrite E, hasBit_0, Hb in Hwb. }
  assert (0 <= Z.log2 w <= 31) as Hl.
  { split; [apply Z.log2_nonneg|]. apply Z.lt_succ_r, Z.log2_lt_pow2; [done|]. change (2 ^ Z.succ 31) with 4294967296. apply Hw. }
  cbv zeta. set (n := 31 - Z.log2 w). assert (hasBit w n = true) as Hn.
  { rewrite hasBit_testbit by lia. replace (31 - n) with (Z.log2 w) by lia. by apply Z.bit_log2. }
  assert (forall m, 0 <= m < n -> hasBit w m = false) as Hm.
  { intros m Hm. rewrite hasBit_testbit by lia. apply Z.bits_above_log2; [apply Hw|lia]. }
  split_and!.
  - lia.
  - destruct (Z.le_gt_cases n c) as [|Hgt]; [done|]. specialize (Hm c ltac:(lia)). by rewrite Hwb, Hb in Hm by done.
  - rewrite Hwb in Hn by lia. by apply negb_true_iff.
  - intros m Hlt. specialize (Hm m Hlt). rewrite Hwb in Hm by lia. by apply negb_false_iff.
Qed.

(** A set with fewer than [c] identifiers misses one of the first [c]. *)
Lemma unmarked_below v c : is_u32 v -> (popcount v < c <= 32)%nat -> exists n, 0 <= n < Z.of_nat c /\ hasBit v n = false.
Proof.
  intros Hv Hc. destruct (forallb (hasBit v) (seqZ 0 (Z.of_nat c))) eqn:E.
  - exfalso. assert (seqZ 0 (Z.of_nat c) ⊆+ marked v) as Hs.
    { apply NoDup_submseteq; [apply NoDup_seqZ|]. intros n Hn. pose proof (proj1 (elem_of_seqZ _ _ _) Hn). apply elem_of_marked; [done|].
      split; [lia|]. rewrite forallb_forall in E. by apply E, list_elem_of_In. }
    apply submseteq_length in Hs. rewrite length_seqZ, <- popcount_marked in Hs by done. lia.
  - apply not_true_iff_false in E. rewrite forallb_forall in E.
    destruct (decide (Exists (fun n => hasBit v n = false) (seqZ 0 (Z.of_nat c)))) as [H|H].
    + apply Exists_exists in H as (n & Hn & Hb). apply elem_of_seqZ in Hn. exists n. split; [lia|done].
    + destruct E. intros n Hn. apply not_false_iff_true. intros Hb. apply H, Exists_exists. exists n. split; [by apply list_elem_of_In|done].
Qed.
