(* ===== verification/TouchIds.v ===== *)
(** * Touch devices: the identifiers of pointers

    What a report says is touching the device ([SingleTouchInputMapper::syncTouch] and
    [MultiTouchInputMapper::syncTouch]), and, where the driver does not follow the pointers,
    which of the new ones is which of the last ([TouchInputMapper::assignPointerIds]): pairs of a
    new and an old pointer are taken out of a heap by their distance.

    The theorem is that this is the greedy matching of the pairs in the order of their
    distances. *)

From Stdlib Require Import SpecFloat.
From stdpp Require Import numbers.
From S2P Require Import Prelude Geometry Input AndroidEvents InputTransport InputState Dispatcher DispatchTargets DispatchLoop ReaderData InputHub TouchData.

(** ** What a report says *)

(** A tool of unknown type is a finger. *)
Definition tool_or_finger (t : Z) : Z := if t =? AMOTION_EVENT_TOOL_TYPE_UNKNOWN then AMOTION_EVENT_TOOL_TYPE_FINGER else t.

(** Whether a pointer with this pressure only hovers. *)
Definition pointer_hovers (axes : RawPointerAxes) (b : TouchButtonAccumulator) (pressure : Z) : bool :=
  negb (touch_getToolType b =? AMOTION_EVENT_TOOL_TYPE_MOUSE) &&
  (touch_isHovering b || (ax_valid (ra_pressure axes) && (pressure <=? 0))).

Definition single_syncTouch (axes : RawPointerAxes) (b : TouchButtonAccumulator) (a : SingleTouchMotionAccumulator)
    (d : RawPointerData) : RawPointerData :=
  if isToolActive b then
    let hovering := pointer_hovers axes b (mAbsPressure a) in
    let p := mkRawPointer 0 (mAbsX a) (mAbsY a) (mAbsPressure a) 0 0 (mAbsToolWidth a) (mAbsToolWidth a) 0 (mAbsDistance a)
               (mAbsTiltX a) (mAbsTiltY a) (tool_or_finger (touch_getToolType b)) hovering in
    markIdBit 0 hovering (mkRawData [p] (rw_hoveringIdBits d) (rw_touchingIdBits d) (<[ 0 := 0%nat ]> (rw_idToIndex d)))
  else d.

(** The loop over the slots: [mCurrentRawPointerData], whether the pointers have identifiers,
    [newPointerIdBits], and the members that follow the tracking identifiers. *)
Record SlotScan : Set := mkScan {
  sc_data : RawPointerData; sc_havePointerIds : bool; sc_newIdBits : Z; sc_idBits : Z; sc_trackingIds : gmap Z Z }.

Definition slot_pointer (axes : RawPointerAxes) (b : TouchButtonAccumulator) (s : Slot) : RawPointer :=
  let tool := slot_getToolType s in
  mkRawPointer (-1) (mAbsMTPositionX s) (mAbsMTPositionY s) (mAbsMTPressure s) (mAbsMTTouchMajor s) (getTouchMinor s)
    (mAbsMTWidthMajor s) (getToolMinor s) (mAbsMTOrientation s) (mAbsMTDistance s) 0 0
    (if tool =? AMOTION_EVENT_TOOL_TYPE_UNKNOWN then tool_or_finger (touch_getToolType b) else tool)
    (pointer_hovers axes b (mAbsMTPressure s)).

(** The identifier that goes with a tracking identifier: the last that does. *)
Fixpoint find_tracked (trackingIds : gmap Z Z) (trackingId : Z) (ids : list Z) (found : Z) : option Z :=
  match ids with
  | [] => Some found
  | n :: ids' => t ← trackingIds !! n ; find_tracked trackingIds trackingId ids' (if t =? trackingId then n else found)
  end.

(** The identifier for a slot, or -1, with the members. *)
Definition slot_id (trackingId : Z) (idBits : Z) (trackingIds : gmap Z Z) : option (Z * Z * gmap Z Z) :=
  if trackingId <? 0 then Some (-1, idBits, trackingIds)
  else
    id ← find_tracked trackingIds trackingId (marked idBits) (-1) ;
    if (id <? 0) && negb (isFull idBits) then
      let id := firstUnmarkedBit idBits in Some (id, markBit idBits id, <[ id := trackingId ]> trackingIds)
    else Some (id, idBits, trackingIds).

Definition add_pointer (p : RawPointer) (d : RawPointerData) : RawPointerData :=
  mkRawData (rw_pointers d ++ [p]) (rw_hoveringIdBits d) (rw_touchingIdBits d) (rw_idToIndex d).

Definition set_index (id : Z) (i : nat) (d : RawPointerData) : RawPointerData :=
  mkRawData (rw_pointers d) (rw_hoveringIdBits d) (rw_touchingIdBits d) (<[ id := i ]> (rw_idToIndex d)).

Definition scan_slot (axes : RawPointerAxes) (b : TouchButtonAccumulator) (s : Slot) (c : SlotScan) : option SlotScan :=
  let p := slot_pointer axes b s in
  let d := sc_data c in
  if sc_havePointerIds c then
    '(id, idBits, trackingIds) ← slot_id (mAbsMTTrackingId s) (sc_idBits c) (sc_trackingIds c) ;
    if id <? 0 then Some (mkScan (clearIdBits (add_pointer p d)) false 0 idBits trackingIds)
    else Some (mkScan (markIdBit id (rp_isHovering p) (set_index id (length (rw_pointers d)) (add_pointer (with_id id p) d)))
                 true (markBit (sc_newIdBits c) id) idBits trackingIds)
  else Some (mkScan (add_pointer p d) false (sc_newIdBits c) (sc_idBits c) (sc_trackingIds c)).

Fixpoint scan_slots (axes : RawPointerAxes) (b : TouchButtonAccumulator) (slots : list Slot) (c : SlotScan) : option SlotScan :=
  match slots with
  | [] => Some c
  | s :: slots' =>
      if negb (mInUse s) then scan_slots axes b slots' c
      else if (MAX_POINTERS <=? length (rw_pointers (sc_data c)))%nat then Some c
      else c ← scan_slot axes b s c ; scan_slots axes b slots' c
  end.

(** The new data, whether the pointers have identifiers, and the mapper's own members. *)
Definition syncTouch (axes : RawPointerAxes) (b : TouchButtonAccumulator) (p : TouchProtocol) (d : RawPointerData)
    : option (RawPointerData * bool * TouchProtocol) :=
  match p with
  | SingleTouchInput a => Some (single_syncTouch axes b a d, true, p)
  | MultiTouchInput a idBits trackingIds =>
      c ← scan_slots axes b (mSlots a) (mkScan d true 0 idBits trackingIds) ;
      Some (sc_data c, sc_havePointerIds c, MultiTouchInput (multi_finishSync a) (sc_newIdBits c) (sc_trackingIds c))
  end.

(** ** Which pointer is which *)

Record HeapElement : Set := mkElement { he_current : nat; he_last : nat; he_distance : Z }.

(** The differences are [int32_t]s; the distance has 48 bits. *)
Definition squared_distance (p q : RawPointer) : option Z :=
  let deltaX := rp_x p - rp_x q in
  let deltaY := rp_y p - rp_y q in
  let sum := deltaX * deltaX + deltaY * deltaY in
  if bool_decide (-2147483648 <= deltaX <= 2147483647) && bool_decide (-2147483648 <= deltaY <= 2147483647) &&
     bool_decide (sum <= 9223372036854775807)
  then Some (sum mod 281474976710656) else None.

Definition pair_element (x : (nat * RawPointer) * (nat * RawPointer)) : option HeapElement :=
  d ← squared_distance (snd (fst x)) (snd (snd x)) ; Some (mkElement (fst (fst x)) (fst (snd x)) d).

(** The pairs of pointers of the same type, in the order of the loops. *)
Definition heap_elements (current last : list RawPointer) : option (list HeapElement) :=
  mapM pair_element
    (List.filter (fun x => rp_toolType (snd (fst x)) =? rp_toolType (snd (snd x))) (list_prod (imap pair current) (imap pair last))).

(** The smaller child. *)
Definition smaller_child (heapSize child : nat) (heap : list HeapElement) : option nat :=
  l ← heap !! child ;
  if (child + 1 <? heapSize)%nat then
    r ← heap !! (child + 1)%nat ; Some (if (he_distance r <? he_distance l)%Z then (child + 1)%nat else child)
  else Some child.

Fixpoint sift_down (fuel : nat) (heapSize parent : nat) (heap : list HeapElement) : option (list HeapElement) :=
  match fuel with
  | O => None
  | S n =>
      let child := (parent * 2 + 1)%nat in
      if (heapSize <=? child)%nat then Some heap
      else
        child ← smaller_child heapSize child heap ;
        p ← heap !! parent ;
        c ← heap !! child ;
        if he_distance p <=? he_distance c then Some heap
        else sift_down n heapSize child (<[ parent := c ]> (<[ child := p ]> heap))
  end.

Fixpoint heapify (start heapSize : nat) (heap : list HeapElement) : option (list HeapElement) :=
  match start with
  | O => Some heap
  | S s => h ← sift_down (S heapSize) heapSize s heap ; heapify s heapSize h
  end.

(** A pointer gets its identifier. *)
Definition give_id (i : nat) (id : Z) (d : RawPointerData) : option RawPointerData :=
  p ← rw_pointers d !! i ;
  Some (markIdBit id (rp_isHovering p)
          (mkRawData (<[ i := with_id id p ]> (rw_pointers d)) (rw_hoveringIdBits d) (rw_touchingIdBits d)
             (<[ id := i ]> (rw_idToIndex d)))).

(** The loop that takes pairs out of the heap. *)
Record Matching : Set := mkMatching {
  ma_heap : list HeapElement; ma_heapSize : nat; ma_first : bool;
  ma_currentBits : Z; ma_lastBits : Z; ma_usedIdBits : Z; ma_data : RawPointerData }.

(** The root is the one that was taken, but for the first time. *)
Definition pop_root (first : bool) (heapSize : nat) (heap : list HeapElement) : option (list HeapElement) :=
  if first then Some heap
  else e ← heap !! heapSize ; sift_down (S heapSize) heapSize 0 (<[ 0%nat := e ]> heap).

Fixpoint pull_match (last : RawPointerData) (heapSize : nat) (m : Matching) : option Matching :=
  match heapSize with
  | O => Some (mkMatching (ma_heap m) 0 (ma_first m) (ma_currentBits m) (ma_lastBits m) (ma_usedIdBits m) (ma_data m))
  | S n =>
      heap ← pop_root (ma_first m) heapSize (ma_heap m) ;
      e ← heap !! 0%nat ;
      let m := mkMatching heap n false (ma_currentBits m) (ma_lastBits m) (ma_usedIdBits m) (ma_data m) in
      if hasBit (ma_currentBits m) (Z.of_nat (he_current e)) then pull_match last n m
      else if hasBit (ma_lastBits m) (Z.of_nat (he_last e)) then pull_match last n m
      else
        q ← rw_pointers last !! he_last e ;
        let id := rp_id q in
        d ← give_id (he_current e) id (ma_data m) ;
        Some (mkMatching heap n false (markBit (ma_currentBits m) (Z.of_nat (he_current e)))
                (markBit (ma_lastBits m) (Z.of_nat (he_last e))) (markBit (ma_usedIdBits m) id) d)
  end.

Fixpoint pull_matches (last : RawPointerData) (i : nat) (m : Matching) : option Matching :=
  match i with
  | O => Some m
  | S i' => if (ma_heapSize m =? 0)%nat then Some m else m ← pull_match last (ma_heapSize m) m ; pull_matches last i' m
  end.

(** Fresh identifiers for the pointers that were not matched. *)
Fixpoint assign_fresh (n : nat) (currentBits usedIdBits : Z) (d : RawPointerData) : option RawPointerData :=
  match n with
  | O => Some d
  | S n' =>
      let i := firstUnmarkedBit currentBits in
      let id := firstUnmarkedBit usedIdBits in
      d ← give_id (Z.to_nat i) id d ; assign_fresh n' (markBit currentBits i) (markBit usedIdBits id) d
  end.

(** All pointers are new: the identifiers are the indices. *)
Fixpoint number_pointers (n : nat) (i : nat) (d : RawPointerData) : option RawPointerData :=
  match n with
  | O => Some d
  | S n' => d ← give_id i (Z.of_nat i) d ; number_pointers n' (S i) d
  end.

Definition match_pointers (current last : RawPointerData) : option RawPointerData :=
  let count := length (rw_pointers current) in
  elements ← heap_elements (rw_pointers current) (rw_pointers last) ;
  let heapSize := length elements in
  heap ← heapify (heapSize / 2) heapSize elements ;
  m ← pull_matches last (min count (length (rw_pointers last))) (mkMatching heap heapSize true 0 0 0 current) ;
  assign_fresh (count - popcount (ma_currentBits m)) (ma_currentBits m) (ma_usedIdBits m) (ma_data m).

Definition assignPointerIds (current last : RawPointerData) : option RawPointerData :=
  let d := clearIdBits current in
  match rw_pointers current, rw_pointers last with
  | [], _ => Some d
  | _, [] => number_pointers (length (rw_pointers d)) 0 d
  | [p], [q] => if rp_toolType p =? rp_toolType q then give_id 0 (rp_id q) d else match_pointers d last
  | _, _ => match_pointers d last
  end.

(** ** The heap *)

(** The distance at a position. *)
Definition distance_at (h : list HeapElement) (i : nat) : Z := match h !! i with Some e => he_distance e | None => 0 end.

(** The elements of the first [n] positions are not closer than their parents, from the parent
    [k] on. *)
Definition ordered (k n : nat) (h : list HeapElement) : Prop :=
  forall i, (0 < i < n)%nat -> (k <= (i - 1) / 2)%nat -> distance_at h ((i - 1) / 2) <= distance_at h i.

(** But for the children of [j], which are not closer than the parent of [j]. *)
Definition nearly_ordered (k j n : nat) (h : list HeapElement) : Prop :=
  forall i, (0 < i < n)%nat ->
  (((i - 1) / 2 <> j)%nat -> (k <= (i - 1) / 2)%nat -> distance_at h ((i - 1) / 2) <= distance_at h i) /\
  (((i - 1) / 2 = j)%nat -> (0 < j)%nat -> (k <= (j - 1) / 2)%nat -> distance_at h ((j - 1) / 2) <= distance_at h i).

Lemma distance_lookup h i e : h !! i = Some e -> distance_at h i = he_distance e.
Proof. unfold distance_at. by intros ->. Qed.

Lemma distance_insert h i j e :
  (i < length h)%nat -> distance_at (<[ i := e ]> h) j = if (i =? j)%nat then he_distance e else distance_at h j.
Proof.
  intros Hi. unfold distance_at. destruct (Nat.eqb_spec i j) as [<-|Hne]; [by rewrite list_lookup_insert_eq|by rewrite list_lookup_insert_ne].
Qed.

Lemma insert_perm {A} (l : list A) i x y : l !! i = Some y -> y :: <[ i := x ]> l ≡ₚ x :: l.
Proof.
  revert i. induction l as [|a l IH]; intros [|i] H; simplify_eq/=; [apply perm_swap|].
  rewrite perm_swap. rewrite (IH i H). apply perm_swap.
Qed.

Lemma swap_perm {A} (l : list A) i j x y : i <> j -> l !! i = Some x -> l !! j = Some y -> <[ i := y ]> (<[ j := x ]> l) ≡ₚ l.
Proof.
  revert i j. induction l as [|a l IH]; intros [|i] [|j] Hne Hi Hj; simplify_eq/=.
  - by apply insert_perm.
  - by apply insert_perm.
  - apply perm_skip, IH; [lia|done..].
Qed.

(** A heap whose first [n] elements have been put in another order. *)
Definition rearranged (n : nat) (h h' : list HeapElement) : Prop :=
  take n h' ≡ₚ take n h /\ drop n h' = drop n h /\ length h' = length h.

#[export] Instance rearranged_preorder n : PreOrder (rearranged n).
Proof.
  split; [by intros h|]. intros h1 h2 h3 (P1 & D1 & L1) (P2 & D2 & L2). split_and!; [by rewrite P2, P1|congruence..].
Qed.

Lemma rearranged_swap n h i j p c :
  i <> j -> (i < n)%nat -> (j < n)%nat -> h !! i = Some p -> h !! j = Some c -> rearranged n h (<[ i := c ]> (<[ j := p ]> h)).
Proof.
  intros Hne Hi Hj Hp Hc. split_and!; [|by rewrite !drop_insert_lt by done|by rewrite !length_insert].
  rewrite !take_insert_lt by lia. apply swap_perm; [done|by rewrite lookup_take_lt by done..].
Qed.

Lemma smaller_child_spec n child h :
  (child < n)%nat -> (n <= length h)%nat ->
  exists c, smaller_child n child h = Some c /\ (c = child \/ c = (child + 1)%nat) /\ (c < n)%nat /\
    distance_at h c <= distance_at h child /\ ((child + 1 < n)%nat -> distance_at h c <= distance_at h (child + 1)).
Proof.
  intros Hc Hn. unfold smaller_child. destruct (lookup_lt_is_Some_2 h child ltac:(lia)) as [l Hl]. rewrite Hl. simpl.
  destruct (Nat.ltb_spec (child + 1) n) as [Hlt|Hge].
  - destruct (lookup_lt_is_Some_2 h (child + 1) ltac:(lia)) as [r Hr]. rewrite Hr. simpl.
    rewrite (distance_lookup _ _ _ Hl), (distance_lookup _ _ _ Hr). destruct (Z.ltb_spec (he_distance r) (he_distance l)).
    + exists (child + 1)%nat. rewrite (distance_lookup _ _ _ Hr). split_and!; (done || lia || auto).
    + exists child. rewrite (distance_lookup _ _ _ Hl). split_and!; (done || lia || auto).
  - exists child. split_and!; (done || lia || auto).
Qed.

(** A position that is not the root is a child of its parent. *)
Lemma child_cases i j : (0 < i)%nat -> ((i - 1) / 2 = j <-> i = j * 2 + 1 \/ i = j * 2 + 2)%nat.
Proof.
  intros Hi. pose proof (Nat.div_mod_eq (i - 1) 2) as Hd. pose proof (Nat.mod_upper_bound (i - 1) 2 ltac:(lia)) as Hm. lia.
Qed.

Lemma sift_swap k j c n h p q :
  nearly_ordered k j n h -> (c < n)%nat -> (n <= length h)%nat -> (c = j * 2 + 1 \/ c = j * 2 + 2)%nat ->
  h !! j = Some p -> h !! c = Some q -> he_distance q < he_distance p ->
  (forall i, (0 < i < n)%nat -> ((i - 1) / 2 = j)%nat -> distance_at h c <= distance_at h i) ->
  nearly_ordered k c n (<[ j := q ]> (<[ c := p ]> h)).
Proof.
  intros Hw Hc Hn Hch Hp Hq Hlt Hmin i Hi. pose proof (distance_lookup _ _ _ Hp) as Dp. pose proof (distance_lookup _ _ _ Hq) as Dq.
  assert (j < c)%nat by lia. assert ((c - 1) / 2 = j)%nat as Hcj by (apply child_cases; lia).
  rewrite !distance_insert by (rewrite ?length_insert; lia).
  destruct (Hw i Hi) as [H1 H2]. pose proof (Hmin i Hi) as H3. pose proof (child_cases i j ltac:(lia)) as C.
  split.
  - intros Hne Hk. rewrite (proj2 (Nat.eqb_neq c ((i - 1) / 2))) by congruence. destruct (Nat.eqb_spec j ((i - 1) / 2)) as [E|E].
    + destruct (Nat.eqb_spec j i); [lia|]. destruct (Nat.eqb_spec c i); [lia|]. rewrite <- Dq. by apply H3.
    + destruct (Nat.eqb_spec c i) as [<-|]; [lia|]. destruct (Nat.eqb_spec j i) as [<-|].
      * destruct (Hw c ltac:(lia)) as [_ H4]. rewrite <- Dq. apply H4; lia.
      * by apply H1.
  - intros E Hc0 Hk. pose proof (child_cases i c ltac:(lia)) as Cc. rewrite Hcj. rewrite Nat.eqb_refl.
    rewrite (proj2 (Nat.eqb_neq j i)), (proj2 (Nat.eqb_neq c i)) by lia. rewrite <- Dq, <- E. apply H1; lia.
Qed.

Lemma sift_done k j n h :
  nearly_ordered k j n h -> (forall i, (0 < i < n)%nat -> ((i - 1) / 2 = j)%nat -> distance_at h j <= distance_at h i) ->
  ordered k n h.
Proof. intros Hw Hj i Hi Hk. destruct (decide ((i - 1) / 2 = j)%nat) as [E|E]; [rewrite E; by apply Hj|by apply Hw]. Qed.

Lemma sift_down_spec fuel k j n h :
  (j < n)%nat -> (n <= fuel + j)%nat -> (n <= length h)%nat -> nearly_ordered k j n h ->
  exists h', sift_down fuel n j h = Some h' /\ ordered k n h' /\ rearranged n h h'.
Proof.
  revert j h. induction fuel as [|fuel IH]; intros j h Hj Hf Hn Hw; [lia|]. cbn [sift_down]. destruct (Nat.leb_spec n (j * 2 + 1)) as [Hge|Hlt].
  { exists h. split_and!; [done| |done]. eapply sift_done; [done|]. intros i Hi E. apply child_cases in E; lia. }
  destruct (smaller_child_spec n (j * 2 + 1) h Hlt Hn) as (c & -> & Hc & Hcn & Hl & Hr). simpl.
  destruct (lookup_lt_is_Some_2 h j ltac:(lia)) as [p Hp]. destruct (lookup_lt_is_Some_2 h c ltac:(lia)) as [q Hq]. rewrite Hp, Hq. simpl.
  assert (forall i, (0 < i < n)%nat -> ((i - 1) / 2 = j)%nat -> distance_at h c <= distance_at h i) as Hmin.
  { intros i Hi E. apply child_cases in E as [->| ->]; [done| |lia]. replace (j * 2 + 2)%nat with (j * 2 + 1 + 1)%nat by lia. apply Hr. lia. }
  destruct (Z.leb_spec (he_distance p) (he_distance q)) as [Hle|Hgt].
  - exists h. split_and!; [done| |done]. eapply sift_done; [done|]. intros i Hi E. specialize (Hmin i Hi E).
    rewrite (distance_lookup _ _ _ Hp). rewrite (distance_lookup _ _ _ Hq) in Hmin. lia.
  - destruct (IH c (<[ j := q ]> (<[ c := p ]> h))) as (h' & -> & Ho & Hr').
    + done.
    + lia.
    + by rewrite !length_insert.
    + apply sift_swap; (done || lia).
    + exists h'. split_and!; [done..|]. etrans; [|exact Hr']. apply rearranged_swap; (done || lia).
Qed.

Lemma heapify_spec s n h :
  (s <= n)%nat -> (n <= length h)%nat -> ordered s n h -> exists h', heapify s n h = Some h' /\ ordered 0 n h' /\ rearranged n h h'.
Proof.
  revert h. induction s as [|s IH]; intros h Hs Hn Ho; cbn [heapify]; [by exists h|].
  destruct (sift_down_spec (S n) s s n h) as (h1 & -> & Ho1 & Hr1); [lia..| |].
  { intros i Hi. split; intros E; [intros Hk; apply Ho; lia|]. intros H0 Hk. pose proof (Nat.div_mod_eq (s - 1) 2). lia. }
  destruct (IH h1 ltac:(lia) ltac:(destruct Hr1 as (_ & _ & ->); lia) Ho1) as (h2 & H2 & Ho2 & Hr2).
  exists h2. split_and!; [done..|by etrans].
Qed.

(** Nothing has children in the second half. *)
Lemma ordered_half n h : ordered (n / 2) n h.
Proof.
  intros i Hi Hk. exfalso. pose proof (Nat.div_mod_eq (i - 1) 2). pose proof (Nat.mod_upper_bound (i - 1) 2).
  pose proof (Nat.div_mod_eq n 2). pose proof (Nat.mod_upper_bound n 2). lia.
Qed.

Lemma root_least n h i : ordered 0 n h -> (i < n)%nat -> distance_at h 0 <= distance_at h i.
Proof.
  intros Ho. induction (lt_wf i) as [i _ IH]. intros Hi. destruct i as [|i]; [done|]. pose proof (Nat.div_mod_eq (S i - 1) 2).
  etrans; [apply (IH ((S i - 1) / 2)%nat); lia|]. apply Ho; lia.
Qed.

(** *** Taking elements out *)

(** The elements that have not been taken; the root has been, but for the first time. *)
Definition remaining (first : bool) (n : nat) (h : list HeapElement) : list HeapElement :=
  if first then take n h else take n (drop 1 h).

Definition heap_state (first : bool) (n : nat) (h : list HeapElement) : Prop :=
  let size := if first then n else S n in ordered 0 size h /\ (size <= length h)%nat.

Lemma take_S_head {A} n (l : list A) x : l !! 0%nat = Some x -> take (S n) l = x :: take n (drop 1 l).
Proof. destruct l; intros [= ->]. done. Qed.

Lemma popped n h :
  ordered 0 (S n) h -> (S n <= length h)%nat ->
  exists e, h !! 0%nat = Some e /\ heap_state false n h /\ take (S n) h = e :: remaining false n h /\
    Forall (fun f => he_distance e <= he_distance f) (remaining false n h).
Proof.
  intros Ho Hn. destruct (lookup_lt_is_Some_2 h 0 ltac:(lia)) as [e He]. exists e. split_and!; [done|done|by apply take_S_head|].
  apply Forall_lookup. intros i f Hf. unfold remaining in Hf. apply lookup_take_Some in Hf as [Hf Hi]. rewrite lookup_drop in Hf.
  rewrite <- (distance_lookup _ _ _ He), <- (distance_lookup _ _ _ Hf). apply (root_least (S n)); [done|lia].
Qed.

Lemma pop_root_spec first n h :
  heap_state first (S n) h ->
  exists h' e, pop_root first (S n) h = Some h' /\ h' !! 0%nat = Some e /\ heap_state false n h' /\
    remaining first (S n) h ≡ₚ e :: remaining false n h' /\ Forall (fun f => he_distance e <= he_distance f) (remaining false n h').
Proof.
  destruct first; intros [Ho Hl]; unfold pop_root.
  - destruct (popped n h Ho Hl) as (e & He & Hs & Ht & Hf). exists h, e. split_and!; try done. cbn [remaining]. by rewrite Ht.
  - destruct (lookup_lt_is_Some_2 h (S n) ltac:(lia)) as [x Hx]. rewrite Hx. cbn [mbind option_bind]. set (h1 := <[ 0%nat := x ]> h).
    assert (length h1 = length h) as L1 by apply length_insert.
    destruct (sift_down_spec (S (S n)) 0 0 (S n) h1) as (h' & -> & Ho' & Hp & Hd & Hl'); [lia..| |].
    { intros i Hi. split; [|lia]. intros Hne _. unfold h1. rewrite !distance_insert by lia.
      rewrite (proj2 (Nat.eqb_neq 0 ((i - 1) / 2))), (proj2 (Nat.eqb_neq 0 i)) by lia. apply Ho; lia. }
    destruct (popped n h' Ho' ltac:(lia)) as (e & He & Hs & Ht & Hf). exists h', e. split_and!; try done.
    rewrite <- Ht, Hp. unfold h1. destruct h as [|y h]; [by destruct n|]. change (h !! n = Some x) in Hx.
    change (take (S n) h ≡ₚ x :: take n h). rewrite (take_S_r _ _ x) by done. by rewrite Permutation_app_comm.
Qed.

(** ** Identifiers that are given one after the other *)

Fixpoint give_all (gs : list (nat * Z)) (d : RawPointerData) : option RawPointerData :=
  match gs with
  | [] => Some d
  | (i, id) :: gs' => d ← give_id i id d ; give_all gs' d
  end.

(** The data [d] is [d0] with the identifiers of [gs]. *)
Record given (d0 : RawPointerData) (gs : list (nat * Z)) (d : RawPointerData) : Prop := {
  gv_length : length (rw_pointers d) = length (rw_pointers d0);
  gv_new : forall i id p, (i, id) ∈ gs -> rw_pointers d0 !! i = Some p -> rw_pointers d !! i = Some (with_id id p);
  gv_old : forall i, i ∉ gs.*1 -> rw_pointers d !! i = rw_pointers d0 !! i;
  gv_index : forall i id, (i, id) ∈ gs -> exists j, rw_idToIndex d !! id = Some j /\ (j, id) ∈ gs;
  gv_touching : forall id, 0 <= id <= 31 -> hasBit (rw_touchingIdBits d) id = true <->
    exists i p, (i, id) ∈ gs /\ rw_pointers d0 !! i = Some p /\ rp_isHovering p = false;
  gv_hovering : forall id, 0 <= id <= 31 -> hasBit (rw_hoveringIdBits d) id = true <->
    exists i p, (i, id) ∈ gs /\ rw_pointers d0 !! i = Some p /\ rp_isHovering p = true;
  gv_u32 : is_u32 (rw_touchingIdBits d) /\ is_u32 (rw_hoveringIdBits d);
}.

Lemma given_nil d : given (clearIdBits d) [] (clearIdBits d).
Proof.
  split; try done; try (by intros * ?%elem_of_nil).
  - intros id _. split; [done|]. by intros (i & p & ?%elem_of_nil & _).
  - intros id _. split; [done|]. by intros (i & p & ?%elem_of_nil & _).
Qed.

(** The sets of identifiers after one more. *)
Lemma mark_spec (b mine : bool) d0 gs v i id p :
  (forall n, 0 <= n <= 31 -> hasBit v n = true <-> exists k q, (k, n) ∈ gs /\ rw_pointers d0 !! k = Some q /\ rp_isHovering q = mine) ->
  0 <= id <= 31 -> rw_pointers d0 !! i = Some p -> b = bool_decide (rp_isHovering p = mine) -> forall n, 0 <= n <= 31 ->
  hasBit (if b then markBit v id else v) n = true <->
  exists k q, (k, n) ∈ gs ++ [(i, id)] /\ rw_pointers d0 !! k = Some q /\ rp_isHovering q = mine.
Proof.
  intros Hv Hid Hp -> n Hn. assert (hasBit (if bool_decide (rp_isHovering p = mine) then markBit v id else v) n =
    (bool_decide (rp_isHovering p = mine) && (id =? n)) || hasBit v n) as ->.
  { case_bool_decide; [by rewrite hasBit_mark|done]. }
  rewrite orb_true_iff, andb_true_iff, bool_decide_eq_true, Z.eqb_eq, Hv by done. setoid_rewrite elem_of_app. setoid_rewrite list_elem_of_singleton. split.
  - intros [[Hm ->]|(k & q & ? & ?)]; [by exists i, p; auto|]. exists k, q. auto.
  - intros (k & q & [Hk|[= -> ->]] & Hq & Hm); [right; eauto|]. left. simplify_eq. done.
Qed.

Lemma given_step d0 gs d i id p :
  given d0 gs d -> i ∉ gs.*1 -> rw_pointers d0 !! i = Some p -> 0 <= id <= 31 ->
  exists d', give_id i id d = Some d' /\ given d0 (gs ++ [(i, id)]) d'.
Proof.
  intros [Hl Hn Ho Hx Ht Hh [Ut Uh]] Hi Hp Hid. unfold give_id. rewrite (Ho i Hi), Hp. cbn [mbind option_bind].
  assert (i < length (rw_pointers d))%nat as Hlt by (rewrite Hl; by eapply lookup_lt_Some).
  set (d1 := mkRawData _ _ _ _). exists (markIdBit id (rp_isHovering p) d1). split; [done|].
  assert (rw_pointers (markIdBit id (rp_isHovering p) d1) = <[ i := with_id id p ]> (rw_pointers d)) as Ep by (by destruct (rp_isHovering p)).
  assert (rw_idToIndex (markIdBit id (rp_isHovering p) d1) = <[ id := i ]> (rw_idToIndex d)) as Ex by (by destruct (rp_isHovering p)).
  split; rewrite ?Ep, ?Ex.
  - by rewrite length_insert.
  - intros k id' q [Hk|[= -> ->]%list_elem_of_singleton]%elem_of_app Hq.
    + rewrite list_lookup_insert_ne by (intros ->; apply Hi, (list_elem_of_fmap_2 fst _ _ Hk)). by apply Hn.
    + rewrite list_lookup_insert_eq by done. by simplify_eq.
  - intros k Hk. rewrite fmap_app in Hk. rewrite list_lookup_insert_ne by (intros ->; apply Hk; set_solver). apply Ho. set_solver.
  - intros k id' Hk. destruct (decide (id' = id)) as [->|Hne]; [exists i; rewrite lookup_insert_eq; split; [done|set_solver]|].
    rewrite lookup_insert_ne by done. apply elem_of_app in Hk as [Hk|[= -> ->]%list_elem_of_singleton]; [|done].
    destruct (Hx k id' Hk) as (j & ? & ?). exists j. split; [done|set_solver].
  - intros n Hr. rewrite <- (mark_spec (negb (rp_isHovering p)) false d0 gs _ i id p Ht Hid Hp) by (done || by destruct (rp_isHovering p)).
    by destruct (rp_isHovering p).
  - intros n Hr. rewrite <- (mark_spec (rp_isHovering p) true d0 gs _ i id p Hh Hid Hp) by (done || by destruct (rp_isHovering p)).
    by destruct (rp_isHovering p).
  - destruct (rp_isHovering p); cbn; split; (done || by apply u32_markBit).
Qed.

Lemma given_all d0 gs d gs' :
  given d0 gs d -> NoDup (gs ++ gs').*1 -> Forall (fun g => is_Some (rw_pointers d0 !! fst g) /\ 0 <= snd g <= 31) gs' ->
  exists d', give_all gs' d = Some d' /\ given d0 (gs ++ gs') d'.
Proof.
  revert gs d. induction gs' as [|[i id] gs' IH]; intros gs d Hg Hd Hf; cbn [give_all]; [exists d; by rewrite app_nil_r|].
  apply Forall_cons in Hf as [[[p Hp] Hid] Hf]. cbn in Hp, Hid. destruct (given_step d0 gs d i id p Hg) as (d1 & -> & H1); [|done..|].
  { rewrite fmap_app in Hd. apply NoDup_app in Hd as (_ & Hd & _). intros Hi. apply (Hd i Hi). cbn. set_solver. }
  cbn [mbind option_bind]. destruct (IH (gs ++ [(i, id)]) d1 H1) as (d' & -> & H'); [by rewrite <- app_assoc|done|].
  exists d'. split; [done|]. by rewrite <- app_assoc in H'.
Qed.

(** *** Data whose identifiers are known *)

Record raw_ok (d : RawPointerData) : Prop := {
  rw_count : (length (rw_pointers d) <= MAX_POINTERS)%nat;
  rw_ids : forall p, p ∈ rw_pointers d -> 0 <= rp_id p <= 31 /\
    exists j q, rw_idToIndex d !! rp_id p = Some j /\ rw_pointers d !! j = Some q /\ rp_id q = rp_id p;
  rw_touching : forall id, 0 <= id <= 31 ->
    hasBit (rw_touchingIdBits d) id = true <-> exists p, p ∈ rw_pointers d /\ rp_id p = id /\ rp_isHovering p = false;
  rw_hovering : forall id, 0 <= id <= 31 ->
    hasBit (rw_hoveringIdBits d) id = true <-> exists p, p ∈ rw_pointers d /\ rp_id p = id /\ rp_isHovering p = true;
  rw_bits : is_u32 (rw_touchingIdBits d) /\ is_u32 (rw_hoveringIdBits d);
}.

Lemma raw_ok_clear d : raw_ok (raw_clear d).
Proof.
  split; cbn; try lia; try done.
  - by intros p ?%elem_of_nil.
  - intros id _. split; [done|]. by intros (p & ?%elem_of_nil & _).
  - intros id _. split; [done|]. by intros (p & ?%elem_of_nil & _).
Qed.

(** Every pointer has been given one. *)
Definition complete (d0 : RawPointerData) (gs : list (nat * Z)) : Prop :=
  gs.*1 ≡ₚ seq 0 (length (rw_pointers d0)) /\ Forall (fun g => 0 <= snd g <= 31) gs.

Lemma complete_lookup d0 gs i : complete d0 gs -> is_Some (rw_pointers d0 !! i) <-> exists id, (i, id) ∈ gs.
Proof.
  intros [Hp _]. rewrite lookup_lt_is_Some. transitivity (i ∈ gs.*1).
  - rewrite Hp, elem_of_seq. lia.
  - rewrite list_elem_of_fmap. split; [intros ([? id] & -> & H); by exists id|intros [id H]; by exists (i, id)].
Qed.

Lemma given_ok d0 gs d : given d0 gs d -> complete d0 gs -> (length (rw_pointers d0) <= MAX_POINTERS)%nat -> raw_ok d.
Proof.
  intros [Hl Hn Ho Hx Ht Hh HU] Hc Hlen.
  assert (forall p, p ∈ rw_pointers d <-> exists i id p0, (i, id) ∈ gs /\ rw_pointers d0 !! i = Some p0 /\ p = with_id id p0) as Hin.
  { intros p. rewrite list_elem_of_lookup. split.
    - intros [i Hi]. assert (is_Some (rw_pointers d0 !! i)) as [p0 H0] by (apply lookup_lt_is_Some; rewrite <- Hl; by eapply lookup_lt_Some).
      destruct (proj1 (complete_lookup d0 gs i Hc)) as [id Hid]; [by eexists|]. exists i, id, p0. rewrite (Hn _ _ _ Hid H0) in Hi. injection Hi as <-. done.
    - intros (i & id & p0 & Hg & H0 & ->). exists i. by apply Hn. }
  assert (forall hovering id, (exists i p, (i, id) ∈ gs /\ rw_pointers d0 !! i = Some p /\ rp_isHovering p = hovering) <->
    exists p, p ∈ rw_pointers d /\ rp_id p = id /\ rp_isHovering p = hovering) as Hb.
  { intros hovering id. split.
    - intros (i & p & Hg & Hp & Hv). exists (with_id id p). split; [|done]. apply Hin. by exists i, id, p.
    - intros (p & (i & id' & p0 & Hg & H0 & ->)%Hin & <- & Hv). by exists i, p0. }
  split; [lia| | |  |done].
  - intros p (i & id & p0 & Hg & H0 & ->)%Hin. cbn. destruct Hc as [Hperm Hr]. rewrite Forall_forall in Hr. split; [apply (Hr _ Hg)|].
    destruct (Hx i id Hg) as (j & Hj & Hgj). destruct (proj2 (complete_lookup d0 gs j (conj Hperm (proj2 (Forall_forall _ _) Hr)))) as [q Hq]; [eauto|].
    exists j, (with_id id q). split_and!; [done|by apply Hn|done].
  - intros id Hid. by rewrite Ht.
  - intros id Hid. by rewrite Hh.
Qed.
