(* ===== verification/TouchMatching.v ===== *)
(** * Touch devices: pointers are matched greedily

    [TouchInputMapper::assignPointerIds] gives a pointer the identifier of the pointer of the
    last report that it is closest to: the pairs of a new and an old pointer of the same type are
    gone through in the order of their distances, and a pair is taken unless one of the two has
    been.  Pointers that are left get the least identifiers that are free. *)

From Stdlib Require Import SpecFloat.
From stdpp Require Import numbers sorting.
From S2P Require Import Prelude Geometry Input AndroidEvents InputTransport InputState Dispatcher DispatchTargets DispatchLoop ReaderData InputHub TouchData.
From S2P Require Import TouchIds.

(** ** The specification *)

Definition clashes (e : HeapElement) (taken : list (nat * nat)) : bool :=
  bool_decide (he_current e ∈ taken.*1) || bool_decide (he_last e ∈ taken.*2).

(** The pairs that are taken, in the order of the elements. *)
Fixpoint greedy_pairs (l : list HeapElement) (taken : list (nat * nat)) : list (nat * nat) :=
  match l with
  | [] => taken
  | e :: l' => greedy_pairs l' (if clashes e taken then taken else taken ++ [(he_current e, he_last e)])
  end.

(** The identifiers that are kept: a new pointer has that of the old one it goes with. *)
Definition kept_ids (last : list RawPointer) (taken : list (nat * nat)) : list (nat * Z) :=
  omap (fun ij => (fun q => (fst ij, rp_id q)) <$> last !! snd ij) taken.

(** With those that are fresh. *)
Definition greedy_ids (l : list HeapElement) (n : nat) (last : list RawPointer) : list (nat * Z) :=
  let kept := kept_ids last (greedy_pairs l []) in
  kept ++ zip (List.filter (fun i => negb (bool_decide (i ∈ kept.*1))) (seq 0 n))
              (List.filter (fun id => negb (bool_decide (id ∈ kept.*2))) (seqZ 0 32)).

Definition closer (e f : HeapElement) : Prop := he_distance e <= he_distance f.

#[export] Instance closer_dec : RelDecision closer.
Proof. intros e f. unfold closer. apply _. Defined.
#[export] Instance closer_total : Total closer.
Proof. intros e f. unfold closer. lia. Qed.
#[export] Instance closer_trans : Transitive closer.
Proof. intros e f g. unfold closer. lia. Qed.

(** ** Elements out of the heap *)

(** From what was in the heap, [l] has been taken in order, and [r] is left. *)
Definition drains (from l r : list HeapElement) : Prop :=
  from ≡ₚ l ++ r /\ StronglySorted closer l /\ forall e f, e ∈ l -> f ∈ r -> closer e f.

Lemma drains_nil l : drains l [] l.
Proof. split_and!; [done|constructor|]. by intros e f ?%elem_of_nil. Qed.

Lemma drains_cons from e mid l r :
  from ≡ₚ e :: mid -> Forall (closer e) mid -> drains mid l r -> drains from (e :: l) r.
Proof.
  intros Hp Hf (Hm & Hs & Hc). rewrite Forall_forall in Hf. assert (forall x, x ∈ l \/ x ∈ r -> closer e x) as He.
  { intros x Hx. apply Hf. rewrite Hm. set_solver. }
  split_and!; [by rewrite Hp, Hm|constructor; [done|]; apply Forall_forall; auto|].
  intros x y [->|Hx]%elem_of_cons Hy; auto.
Qed.

Lemma sorted_app_iff (l l' : list HeapElement) :
  StronglySorted closer l -> StronglySorted closer l' -> (forall e f, e ∈ l -> f ∈ l' -> closer e f) -> StronglySorted closer (l ++ l').
Proof.
  induction 1 as [|e l Hs IH Hf]; intros Hl' Hc; [done|]. cbn. constructor; [apply IH; [done|]; intros; apply Hc; set_solver|].
  apply Forall_app. split; [done|]. apply Forall_forall. intros f Hff. apply Hc; [set_solver|done].
Qed.

Lemma drains_trans from l mid l' r : drains from l mid -> drains mid l' r -> drains from (l ++ l') r.
Proof.
  intros (P1 & S1 & C1) (P2 & S2 & C2). assert (forall x, x ∈ l' \/ x ∈ r -> x ∈ mid) as Hm by (intros x Hx; rewrite P2; set_solver).
  split_and!; [by rewrite P1, P2, app_assoc|apply sorted_app_iff; auto|]. intros e f [He|He]%elem_of_app Hf; auto.
Qed.

(** What is left can be put in order. *)
Lemma drains_all from l r : drains from l r -> exists r', r' ≡ₚ r /\ from ≡ₚ l ++ r' /\ StronglySorted closer (l ++ r').
Proof.
  intros (P & S & C). exists (merge_sort closer r). pose proof (merge_sort_Permutation closer r) as Hp. split_and!; [done|by rewrite P, Hp|].
  apply sorted_app_iff; [done|apply StronglySorted_merge_sort; apply _|]. intros e f He Hf. apply C; [done|]. by rewrite <- Hp.
Qed.

Lemma greedy_app l l' taken : greedy_pairs (l ++ l') taken = greedy_pairs l' (greedy_pairs l taken).
Proof. revert taken. induction l as [|e l IH]; intros taken; [done|]. cbn. apply IH. Qed.

(** ** The loop over the heap *)

(** A set of identifiers as a list. *)
Definition bits_are (v : Z) (l : list Z) : Prop := is_u32 v /\ forall n, 0 <= n <= 31 -> hasBit v n = true <-> n ∈ l.

Lemma bits_are_nil : bits_are 0 [].
Proof. split; [by split|]. intros n _. rewrite hasBit_0. split; [done|]. by intros ?%elem_of_nil. Qed.

Lemma bits_are_mark v l n : bits_are v l -> 0 <= n <= 31 -> bits_are (markBit v n) (l ++ [n]).
Proof.
  intros [Hv Hb] Hn. split; [by apply u32_markBit|]. intros m Hm. rewrite hasBit_mark, orb_true_iff, Z.eqb_eq, Hb, elem_of_app, list_elem_of_singleton by done.
  split; intros [?|?]; auto.
Qed.

Lemma bits_are_nat v (l : list nat) i : bits_are v (Z.of_nat <$> l) -> (i < 32)%nat -> hasBit v (Z.of_nat i) = bool_decide (i ∈ l).
Proof.
  intros [_ Hb] Hi. apply eq_true_iff_eq. rewrite Hb, bool_decide_eq_true by lia. split; [|by apply list_elem_of_fmap_2].
  intros (j & ->%Nat2Z.inj & ?)%list_elem_of_fmap. done.
Qed.

Lemma seq_sorted a n : StronglySorted lt (seq a n).
Proof.
  revert a. induction n as [|n IH]; intros a; cbn; constructor; [apply IH|]. apply Forall_forall. intros x Hx%elem_of_seq. lia.
Qed.

Lemma seqZ_sorted a n : StronglySorted Z.lt (seqZ a (Z.of_nat n)).
Proof.
  revert a. induction n as [|n IH]; intros a; [constructor|]. rewrite seqZ_cons by lia. replace (Z.pred (Z.of_nat (S n))) with (Z.of_nat n) by lia.
  constructor; [apply IH|]. apply Forall_forall. intros x Hx%elem_of_seqZ. lia.
Qed.

Lemma elem_of_ids y : y ∈ seqZ 0 32 <-> 0 <= y < 32.
Proof. rewrite elem_of_seqZ. lia. Qed.

Section Match.
Context (d0 last : RawPointerData).
Context (Hlast : raw_ok last) (Hcount : (length (rw_pointers d0) <= MAX_POINTERS)%nat).

Definition element_ok (e : HeapElement) : Prop :=
  (he_current e < length (rw_pointers d0))%nat /\ (he_last e < length (rw_pointers last))%nat.

Definition kept : list (nat * nat) -> list (nat * Z) := kept_ids (rw_pointers last).

Record matched (taken : list (nat * nat)) (m : Matching) : Prop := {
  mt_nodup : NoDup taken.*1 /\ NoDup taken.*2;
  mt_range : Forall (fun ij => fst ij < length (rw_pointers d0) /\ snd ij < length (rw_pointers last))%nat taken;
  mt_current : bits_are (ma_currentBits m) (Z.of_nat <$> taken.*1);
  mt_last : bits_are (ma_lastBits m) (Z.of_nat <$> taken.*2);
  mt_used : bits_are (ma_usedIdBits m) (kept taken).*2;
  mt_data : given d0 (kept taken) (ma_data m);
}.

Lemma kept_app taken i j q :
  rw_pointers last !! j = Some q -> kept (taken ++ [(i, j)]) = kept taken ++ [(i, rp_id q)].
Proof. intros Hq. unfold kept, kept_ids. rewrite omap_app. cbn. by rewrite Hq. Qed.

Lemma kept_fst taken :
  Forall (fun ij => fst ij < length (rw_pointers d0) /\ snd ij < length (rw_pointers last))%nat taken -> (kept taken).*1 = taken.*1.
Proof.
  induction 1 as [|[i j] taken [_ Hj] _ IH]; [done|]. unfold kept, kept_ids in *. cbn in *.
  destruct (lookup_lt_is_Some_2 _ _ Hj) as [q ->]. cbn. by rewrite IH.
Qed.

(** The heap in the course of the loop. *)
Definition left_of (m : Matching) : list HeapElement := remaining (ma_first m) (ma_heapSize m) (ma_heap m).
Definition heap_ok (m : Matching) : Prop := heap_state (ma_first m) (ma_heapSize m) (ma_heap m) /\ Forall element_ok (left_of m).

Lemma clashes_bits taken m e :
  matched taken m -> element_ok e ->
  clashes e taken = hasBit (ma_currentBits m) (Z.of_nat (he_current e)) || hasBit (ma_lastBits m) (Z.of_nat (he_last e)).
Proof.
  intros Hm [He1 He2]. pose proof (rw_count _ Hlast). unfold MAX_POINTERS in *. unfold clashes.
  rewrite (bits_are_nat _ _ _ (mt_current _ _ Hm)), (bits_are_nat _ _ _ (mt_last _ _ Hm)) by lia. done.
Qed.

Lemma take_pair taken m heap n e :
  matched taken m -> element_ok e -> clashes e taken = false ->
  exists q d, rw_pointers last !! he_last e = Some q /\ give_id (he_current e) (rp_id q) (ma_data m) = Some d /\
    matched (taken ++ [(he_current e, he_last e)])
      (mkMatching heap n false (markBit (ma_currentBits m) (Z.of_nat (he_current e)))
         (markBit (ma_lastBits m) (Z.of_nat (he_last e))) (markBit (ma_usedIdBits m) (rp_id q)) d).
Proof.
  intros [[N1 N2] R C L U D] [He1 He2] Hc. apply orb_false_iff in Hc as [Hc1%bool_decide_eq_false Hc2%bool_decide_eq_false].
  pose proof (rw_count _ Hlast). unfold MAX_POINTERS in *.
  destruct (lookup_lt_is_Some_2 _ _ He1) as [p Hp]. destruct (lookup_lt_is_Some_2 _ _ He2) as [q Hq].
  destruct (rw_ids _ Hlast q) as [Hid _]; [by eapply list_elem_of_lookup_2|]. exists q.
  destruct (given_step d0 (kept taken) (ma_data m) (he_current e) (rp_id q) p D) as (d & Hd & Hg); [by rewrite kept_fst|done..|].
  exists d. split_and!; [done..|]. pose proof (kept_app taken (he_current e) (he_last e) q Hq) as Hk.
  split; cbn [ma_currentBits ma_lastBits ma_usedIdBits ma_data]; rewrite ?Hk, ?fmap_app; cbn.
  - split; apply NoDup_app; (split_and!; [done| |apply NoDup_singleton]); intros x Hx ->%list_elem_of_singleton; done.
  - apply Forall_app. split; [done|]. by apply Forall_singleton.
  - apply bits_are_mark; [done|lia].
  - apply bits_are_mark; [done|lia].
  - by apply bits_are_mark.
  - done.
Qed.

(** One turn of the loop: pairs are taken out up to the first that does not clash. *)
Lemma pull_match_spec n taken m :
  ma_heapSize m = n -> heap_ok m -> matched taken m ->
  exists m' l, pull_match last n m = Some m' /\ drains (left_of m) l (left_of m') /\ heap_ok m' /\ matched (greedy_pairs l taken) m' /\
    (length (greedy_pairs l taken) = S (length taken) \/ ma_heapSize m' = 0%nat).
Proof.
  revert taken m. induction n as [|n IH]; intros taken m En [Hh Hf] Hm.
  { exists (mkMatching (ma_heap m) 0 (ma_first m) (ma_currentBits m) (ma_lastBits m) (ma_usedIdBits m) (ma_data m)), [].
    unfold heap_ok, left_of in *. rewrite En in *. split_and!; try done; [apply drains_nil|by destruct Hm; split|by right]. }
  cbn [pull_match]. rewrite En in Hh. destruct (pop_root_spec _ _ _ Hh) as (h' & e & -> & He & Hs & Hp & Hc). cbn [mbind option_bind].
  rewrite He. cbn [mbind option_bind].
  set (m1 := mkMatching h' n false (ma_currentBits m) (ma_lastBits m) (ma_usedIdBits m) (ma_data m)).
  assert (left_of m ≡ₚ e :: left_of m1) as Hl by (unfold left_of; rewrite En; exact Hp).
  rewrite Hl in Hf. apply Forall_cons in Hf as [Hoe Hf]. assert (heap_ok m1) as H1 by (split; [exact Hs|done]).
  assert (matched taken m1) as M1 by (by destruct Hm; split).
  assert (clashes e taken = true -> exists m' l, pull_match last n m1 = Some m' /\
    drains (left_of m) l (left_of m') /\ heap_ok m' /\ matched (greedy_pairs l taken) m' /\
    (length (greedy_pairs l taken) = S (length taken) \/ ma_heapSize m' = 0%nat)) as Hskip.
  { intros Ec. destruct (IH taken m1 eq_refl H1 M1) as (m' & l & Hpm & Hd & Hok & Hma & Hle).
    exists m', (e :: l). cbn [greedy_pairs]. rewrite Ec. split_and!; try done. by eapply drains_cons. }
  pose proof (clashes_bits taken m e Hm Hoe) as Hcb.
  change (ma_currentBits m1) with (ma_currentBits m). change (ma_lastBits m1) with (ma_lastBits m).
  destruct (hasBit (ma_currentBits m) (Z.of_nat (he_current e))); [cbn in Hcb|destruct (hasBit (ma_lastBits m) (Z.of_nat (he_last e))); cbn in Hcb].
  - by apply Hskip.
  - by apply Hskip.
  - destruct (take_pair taken m h' n e Hm Hoe Hcb) as (q & d & -> & Hg & Hma). cbn [mbind option_bind].
    change (ma_data m1) with (ma_data m). rewrite Hg. cbn [mbind option_bind].
    eexists _, [e]. split_and!; [done| |exact H1| |].
    + eapply drains_cons; [exact Hl|exact Hc|]. apply drains_nil.
    + cbn [greedy_pairs]. rewrite Hcb. exact Hma.
    + left. cbn [greedy_pairs]. rewrite Hcb, length_app. cbn. lia.
Qed.

Lemma pull_matches_spec i taken m :
  heap_ok m -> matched taken m ->
  exists m' l, pull_matches last i m = Some m' /\ drains (left_of m) l (left_of m') /\ Forall element_ok (left_of m') /\
    matched (greedy_pairs l taken) m' /\ (length (greedy_pairs l taken) = length taken + i \/ left_of m' = [])%nat.
Proof.
  revert taken m. induction i as [|i IH]; intros taken m Hh Hm; cbn [pull_matches].
  { exists m, []. split_and!; [done|apply drains_nil|apply Hh|done|left; cbn; lia]. }
  assert (ma_heapSize m = 0%nat -> left_of m = []) as Hnil by (unfold left_of; intros ->; by destruct (ma_first m)).
  destruct (Nat.eqb_spec (ma_heapSize m) 0) as [E|E].
  { exists m, []. split_and!; [done|apply drains_nil|apply Hh|done|right; auto]. }
  destruct (pull_match_spec _ taken m eq_refl Hh Hm) as (m1 & l1 & -> & D1 & H1 & M1 & C1). cbn [mbind option_bind].
  destruct (IH _ m1 H1 M1) as (m2 & l2 & H2 & D2 & F2 & M2 & C2). exists m2, (l1 ++ l2). rewrite greedy_app.
  split_and!; [done|by eapply drains_trans|done..|]. destruct C2 as [C2|C2]; [|by right]. destruct C1 as [C1|C1]; [left; lia|]. right.
  assert (left_of m1 = []) as E1 by (unfold left_of; rewrite C1; by destruct (ma_first m1)). destruct D2 as [D2 _]. rewrite E1 in D2.
  apply Permutation_nil in D2. by apply app_eq_nil in D2 as [_ ->].
Qed.

(** *** Nothing is left to take *)

(** Distinct numbers below their count are all of them. *)
Lemma all_below (l : list nat) n i : NoDup l -> Forall (fun x => x < n)%nat l -> length l = n -> (i < n)%nat -> i ∈ l.
Proof.
  intros Hd Hf Hn Hi. assert (l ≡ₚ seq 0 n) as ->; [|apply elem_of_seq; lia]. apply submseteq_length_Permutation.
  - apply NoDup_submseteq; [done|]. intros x Hx. rewrite Forall_forall in Hf. apply elem_of_seq. specialize (Hf x Hx). lia.
  - by rewrite length_seq, Hn.
Qed.

Lemma greedy_full l taken m :
  matched taken m -> Forall element_ok l -> length taken = min (length (rw_pointers d0)) (length (rw_pointers last)) ->
  greedy_pairs l taken = taken.
Proof.
  intros [[N1 N2] R _ _ _ _] Hl Hlen. apply Forall_and in R as [R1 R2].
  induction Hl as [|e l [He1 He2] _ IH]; [done|]. cbn [greedy_pairs]. assert (clashes e taken = true) as ->; [|exact IH]. unfold clashes.
  destruct (Nat.min_spec (length (rw_pointers d0)) (length (rw_pointers last))) as [[_ E]|[_ E]]; rewrite E in Hlen.
  - rewrite bool_decide_eq_true_2; [done|]. apply (all_below _ (length (rw_pointers d0))); [done|by apply Forall_fmap|by rewrite length_fmap|done].
  - rewrite (bool_decide_eq_true_2 (_ ∈ taken.*2)); [apply orb_true_r|].
    apply (all_below _ (length (rw_pointers last))); [done|by apply Forall_fmap|by rewrite length_fmap|done].
Qed.

End Match.

(** *** Fresh identifiers *)


(** The first of those that pass. *)
Lemma filter_first {A} (R : relation A) (P : A -> bool) l x rest :
  StronglySorted R l -> List.filter P l = x :: rest -> x ∈ l /\ P x = true /\ forall y, y ∈ l -> P y = true -> y = x \/ R x y.
Proof.
  induction 1 as [|a l Hs IH Hf]; cbn; [done|]. rewrite Forall_forall in Hf. destruct (P a) eqn:E.
  - intros [= -> _]. split_and!; [set_solver|done|]. intros y [->|Hy]%elem_of_cons _; auto.
  - intros H. destruct (IH H) as (Hx & HP & Hm). split_and!; [set_solver|done|]. intros y [->|Hy]%elem_of_cons Hpy; [congruence|auto].
Qed.

Lemma filter_rest {A} `{EqDecision A} (P Q : A -> bool) l x rest :
  NoDup l -> List.filter P l = x :: rest -> (forall y, y ∈ l -> Q y = P y && negb (bool_decide (y = x))) -> List.filter Q l = rest.
Proof.
  induction 1 as [|a l Ha Hd IH]; cbn; [done|]. intros H HQ. rewrite (HQ a) by set_solver. destruct (P a) eqn:E.
  - injection H as -> <-. rewrite bool_decide_eq_true_2 by done. cbn. apply List.filter_ext_in. intros y Hy%list_elem_of_In.
    rewrite HQ by set_solver. rewrite bool_decide_eq_false_2 by (by intros ->). apply andb_true_r.
  - cbn. apply IH; [done|]. intros y Hy. apply HQ. set_solver.
Qed.

Section Fresh.
Context (d0 : RawPointerData) (Hcount : (length (rw_pointers d0) <= MAX_POINTERS)%nat).

Definition free_indices (v : Z) : list nat := List.filter (fun i => negb (hasBit v (Z.of_nat i))) (seq 0 (length (rw_pointers d0))).
Definition free_ids (v : Z) : list Z := List.filter (fun id => negb (hasBit v id)) (seqZ 0 32).

Lemma free_indices_cons v i rest :
  is_u32 v -> free_indices v = i :: rest ->
  (i < length (rw_pointers d0))%nat /\ firstUnmarkedBit v = Z.of_nat i /\ free_indices (markBit v (Z.of_nat i)) = rest.
Proof.
  intros Hv Hf. unfold MAX_POINTERS in Hcount. assert (StronglySorted lt (seq 0 (length (rw_pointers d0)))) as Hs by apply seq_sorted.
  destruct (filter_first lt _ _ _ _ Hs Hf) as (Hi & Hb & Hm). apply elem_of_seq in Hi. apply negb_true_iff in Hb. split; [lia|]. split.
  - destruct (first_unmarked v (Z.of_nat i) Hv ltac:(lia) Hb) as (H1 & H2 & H3). set (n := firstUnmarkedBit v) in *.
    destruct (Hm (Z.to_nat n)) as [H|H]; [apply elem_of_seq; lia|rewrite Z2Nat.id by lia; by rewrite H2|lia..].
  - eapply filter_rest; [apply NoDup_seq|exact Hf|]. intros y Hy%elem_of_seq. cbn. rewrite hasBit_mark by lia. rewrite negb_orb, andb_comm. f_equal.
    f_equal. apply eq_true_iff_eq. rewrite Z.eqb_eq, bool_decide_eq_true. lia.
Qed.

Lemma free_among all v id rest :
  StronglySorted Z.lt all -> NoDup all -> (forall y, y ∈ all <-> 0 <= y < 32) -> is_u32 v ->
  List.filter (fun n => negb (hasBit v n)) all = id :: rest ->
  0 <= id <= 31 /\ firstUnmarkedBit v = id /\ List.filter (fun n => negb (hasBit (markBit v id) n)) all = rest.
Proof.
  intros Hs Hnd Hall Hv Hf. destruct (filter_first Z.lt _ _ _ _ Hs Hf) as (Hi & Hb & Hm). apply Hall in Hi. apply negb_true_iff in Hb.
  assert (0 <= id <= 31) as Hr by lia. split; [done|]. split.
  - destruct (first_unmarked v id Hv Hr Hb) as (H1 & H2 & H3). destruct (Hm (firstUnmarkedBit v)) as [H|H]; [apply Hall; lia|by rewrite H2|done|lia].
  - eapply filter_rest; [exact Hnd|exact Hf|]. intros y Hy%Hall. rewrite hasBit_mark by lia. rewrite negb_orb, andb_comm. f_equal.
    f_equal. apply eq_true_iff_eq. rewrite Z.eqb_eq, bool_decide_eq_true. split; congruence.
Qed.

Lemma free_ids_cons v id rest :
  is_u32 v -> free_ids v = id :: rest -> 0 <= id <= 31 /\ firstUnmarkedBit v = id /\ free_ids (markBit v id) = rest.
Proof. exact (free_among (seqZ 0 32) v id rest (seqZ_sorted 0 32) (NoDup_seqZ 0 32) elem_of_ids). Qed.

Lemma assign_fresh_all n cb ub d :
  is_u32 cb -> is_u32 ub -> n = length (free_indices cb) -> (n <= length (free_ids ub))%nat ->
  assign_fresh n cb ub d = give_all (zip (free_indices cb) (free_ids ub)) d.
Proof.
  revert cb ub d. induction n as [|n IH]; intros cb ub d Hc Hu Hn Hl.
  { destruct (free_indices cb); [done|by cbn in Hn]. }
  destruct (free_indices cb) as [|i rest] eqn:Ei; [done|]. destruct (free_ids ub) as [|id ids] eqn:Eu; [cbn in Hl; lia|].
  destruct (free_indices_cons cb i rest Hc Ei) as (Hi & Fi & Ri). destruct (free_ids_cons ub id ids Hu Eu) as (Hid & Fu & Ru).
  unfold MAX_POINTERS in Hcount. cbn [assign_fresh zip zip_with give_all]. rewrite Fi, Fu, Nat2Z.id.
  destruct (give_id i id d) as [d'|]; [|done]. cbn [mbind option_bind].
  rewrite IH; [by rewrite Ri, Ru|apply u32_markBit; [done|lia]|by apply u32_markBit|rewrite Ri; cbn in Hn; lia|rewrite Ru; cbn in Hl; lia].
Qed.

End Fresh.

(** ** The identifiers that are given *)

(** Coordinates whose differences are [int32_t]s. *)
Definition coordinate (v : Z) : Prop := -1073741824 < v < 1073741824.
Definition placed (p : RawPointer) : Prop := coordinate (rp_x p) /\ coordinate (rp_y p).

Lemma squared_distance_placed p q : placed p -> placed q -> is_Some (squared_distance p q).
Proof.
  unfold placed, coordinate, squared_distance. intros [[] []] [[] []]. rewrite !bool_decide_eq_true_2 by nia. eauto.
Qed.

Lemma in_pairs (l l' : list RawPointer) x :
  x ∈ list_prod (imap pair l) (imap pair l') -> l !! fst (fst x) = Some (snd (fst x)) /\ l' !! fst (snd x) = Some (snd (snd x)).
Proof.
  destruct x as [y z]. rewrite list_elem_of_In, in_prod_iff, <- !list_elem_of_In, !list_elem_of_lookup. cbn. setoid_rewrite list_lookup_imap.
  intros [[i (p & Hp & ->)%fmap_Some] [j (q & Hq & ->)%fmap_Some]]. done.
Qed.

Lemma heap_elements_spec d0 last :
  Forall placed (rw_pointers d0) -> Forall placed (rw_pointers last) ->
  exists els, heap_elements (rw_pointers d0) (rw_pointers last) = Some els /\ Forall (element_ok d0 last) els.
Proof.
  intros H1 H2. unfold heap_elements. set (l := List.filter _ _). assert (forall x, x ∈ l ->
    rw_pointers d0 !! fst (fst x) = Some (snd (fst x)) /\ rw_pointers last !! fst (snd x) = Some (snd (snd x))) as Hl.
  { intros x Hx. apply list_elem_of_In, List.filter_In in Hx as [Hx _]. by apply in_pairs, list_elem_of_In. }
  assert (is_Some (mapM pair_element l)) as [els Hels].
  { apply mapM_is_Some_2, Forall_forall. intros x Hx. destruct (Hl x Hx) as [Hp Hq]. unfold pair_element. destruct x as [[i p] [j q]]. cbn in *.
    destruct (squared_distance_placed p q) as [z ->]; [exact (Forall_lookup_1 _ _ _ _ H1 Hp)|exact (Forall_lookup_1 _ _ _ _ H2 Hq)|by eexists]. }
  exists els. split; [done|]. apply mapM_Some_1 in Hels. apply Forall_forall. intros e He. apply list_elem_of_lookup in He as [i Hi].
  destruct (Forall2_lookup_r _ _ _ _ _ Hels Hi) as (x & Hx & Ex). destruct (Hl x) as [Hp Hq]; [by eapply list_elem_of_lookup_2|].
  unfold pair_element in Ex. destruct (squared_distance _ _); [|done]. injection Ex as <-. split; cbn; by eapply lookup_lt_Some.
Qed.

Lemma length_free (l : list Z) (all : list Z) :
  NoDup all -> (length all <= length (List.filter (fun id => negb (bool_decide (id ∈ l))) all) + length l)%nat.
Proof.
  intros Hd. assert (all ⊆+ List.filter (fun id => negb (bool_decide (id ∈ l))) all ++ l) as H.
  { apply NoDup_submseteq; [done|]. intros x Hx. destruct (decide (x ∈ l)); [set_solver|]. apply elem_of_app. left.
    apply list_elem_of_In, List.filter_In. split; [by apply list_elem_of_In|]. by rewrite bool_decide_eq_false_2. }
  apply submseteq_length in H. by rewrite length_app in H.
Qed.

Section Given.
Context (d0 : RawPointerData).
Context (Hcount : (length (rw_pointers d0) <= MAX_POINTERS)%nat).

Definition fresh_for (gs : list (nat * Z)) : list (nat * Z) :=
  zip (List.filter (fun i => negb (bool_decide (i ∈ gs.*1))) (seq 0 (length (rw_pointers d0))))
      (List.filter (fun id => negb (bool_decide (id ∈ gs.*2))) (seqZ 0 32)).

Lemma free_split (gs : list (nat * Z)) :
  NoDup gs.*1 -> Forall (fun g => fst g < length (rw_pointers d0))%nat gs ->
  gs.*1 ++ List.filter (fun i => negb (bool_decide (i ∈ gs.*1))) (seq 0 (length (rw_pointers d0))) ≡ₚ seq 0 (length (rw_pointers d0)).
Proof.
  intros Hd Hf. rewrite Forall_forall in Hf. set (P := fun i => negb (bool_decide (i ∈ gs.*1))).
  assert (forall i, i ∈ List.filter P (seq 0 (length (rw_pointers d0))) <-> (i < length (rw_pointers d0))%nat /\ i ∉ gs.*1) as Hin.
  { intros i. rewrite list_elem_of_In, List.filter_In, <- list_elem_of_In, elem_of_seq. unfold P. rewrite negb_true_iff, bool_decide_eq_false. split; intros [? ?]; split; (done || lia). }
  apply NoDup_Permutation; [|apply NoDup_seq|].
  - apply NoDup_app. split_and!; [done| |apply NoDup_ListNoDup, List.NoDup_filter, NoDup_ListNoDup, NoDup_seq]. intros i Hi [_ ?]%Hin. done.
  - intros i. rewrite elem_of_app, Hin, elem_of_seq. split.
    + intros [(g & -> & Hg)%list_elem_of_fmap|]; [specialize (Hf g Hg)|]; lia.
    + intros Hi. destruct (decide (i ∈ gs.*1)); [by left|right]. split; [lia|done].
Qed.

(** Fresh identifiers make the list complete. *)
Lemma fresh_complete (gs : list (nat * Z)) d :
  given d0 gs d -> NoDup gs.*1 -> Forall (fun g => (fst g < length (rw_pointers d0))%nat /\ 0 <= snd g <= 31) gs ->
  exists d', give_all (fresh_for gs) d = Some d' /\ given d0 (gs ++ fresh_for gs) d' /\ complete d0 (gs ++ fresh_for gs) /\
    length (fresh_for gs) = (length (rw_pointers d0) - length gs)%nat.
Proof.
  intros Hg Hd Hf. apply Forall_and in Hf as [Hf1 Hf2]. pose proof (free_split gs Hd Hf1) as Hp. unfold MAX_POINTERS in Hcount.
  pose proof (Permutation_length Hp) as Hlen. rewrite length_app, length_fmap, length_seq in Hlen.
  pose proof (length_free gs.*2 (seqZ 0 32) (NoDup_seqZ _ _)) as Hids. rewrite length_seqZ, length_fmap in Hids.
  assert (fst <$> fresh_for gs = List.filter (fun i => negb (bool_decide (i ∈ gs.*1))) (seq 0 (length (rw_pointers d0)))) as E1.
  { apply fst_zip. lia. }
  assert (Forall (fun g : nat * Z => 0 <= snd g <= 31) (fresh_for gs)) as Hr.
  { apply Forall_forall. intros [i id] Hz%elem_of_zip_r. apply list_elem_of_In, List.filter_In in Hz as [Hz _].
    apply list_elem_of_In, elem_of_seqZ in Hz. cbn. lia. }
  assert (complete d0 (gs ++ fresh_for gs)) as Hc by (split; [by rewrite fmap_app, E1|by apply Forall_app]).
  destruct (given_all d0 gs d (fresh_for gs) Hg) as (d' & H1 & H2).
  - rewrite (proj1 Hc). apply NoDup_seq.
  - apply Forall_forall. intros g Hgg. rewrite Forall_forall in Hr. split; [|by apply Hr]. apply lookup_lt_is_Some_2.
    assert (fst g ∈ seq 0 (length (rw_pointers d0))) as Hs; [|apply elem_of_seq in Hs; lia].
    rewrite <- (proj1 Hc), fmap_app. apply elem_of_app. right. by apply list_elem_of_fmap_2.
  - exists d'. split_and!; try done. rewrite <- (length_fmap fst), E1. lia.
Qed.

End Given.

Lemma bits_are_count v l : bits_are v l -> NoDup l -> Forall (fun n => 0 <= n <= 31) l -> popcount v = length l.
Proof.
  intros [Hv Hb] Hd Hf. rewrite popcount_marked by done. apply Permutation_length, NoDup_Permutation; [by apply NoDup_marked|done|].
  intros n. rewrite elem_of_marked by done. rewrite Forall_forall in Hf. split; [by intros [Hn ?]; apply Hb|]. intros Hn. split; [by apply Hf|]. apply Hb; auto.
Qed.

Lemma matched_nil d0 last heap n : matched (clearIdBits d0) last [] (mkMatching heap n true 0 0 0 (clearIdBits d0)).
Proof. split; cbn; try (split; apply NoDup_nil_2); try apply bits_are_nil; [done|apply given_nil]. Qed.

(** What is left after the loop over the heap. *)
Lemma fresh_after d0 last taken m :
  raw_ok last -> (length (rw_pointers d0) <= MAX_POINTERS)%nat -> matched d0 last taken m ->
  exists d, assign_fresh (length (rw_pointers d0) - popcount (ma_currentBits m)) (ma_currentBits m) (ma_usedIdBits m) (ma_data m) = Some d /\
    let gs := kept_ids (rw_pointers last) taken ++ fresh_for d0 (kept_ids (rw_pointers last) taken) in given d0 gs d /\ complete d0 gs.
Proof.
  intros Hlast Hcount Hm. pose proof Hm as [[N1 N2] R C L U D]. unfold kept in *. set (gs := kept_ids (rw_pointers last) taken) in *.
  assert (gs.*1 = taken.*1) as E1 by (by apply (kept_fst d0)).
  apply Forall_and in R as [R1 R2]. unfold MAX_POINTERS in Hcount.
  assert (Forall (fun g => (fst g < length (rw_pointers d0))%nat /\ 0 <= snd g <= 31) gs) as Hgs.
  { apply Forall_forall. intros [i id] Hg. unfold gs, kept_ids in Hg. apply list_elem_of_omap in Hg as ([i' j] & Hij & (q & Hq & [= -> ->])%fmap_Some).
    rewrite Forall_forall in R1. split; [apply (R1 _ Hij)|]. apply (rw_ids _ Hlast). by eapply list_elem_of_lookup_2. }
  destruct (fresh_complete d0 Hcount gs (ma_data m) D) as (d & Hd & Hg & Hc & Hlen); [by rewrite E1|done|]. exists d. split; [|done].
  assert (free_indices d0 (ma_currentBits m) = List.filter (fun i => negb (bool_decide (i ∈ gs.*1))) (seq 0 (length (rw_pointers d0)))) as F1.
  { apply List.filter_ext_in. intros i Hi%list_elem_of_In%elem_of_seq. rewrite (bits_are_nat _ taken.*1) by (done || lia). by rewrite E1. }
  assert (free_ids (ma_usedIdBits m) = List.filter (fun id => negb (bool_decide (id ∈ gs.*2))) (seqZ 0 32)) as F2.
  { apply List.filter_ext_in. intros id Hi%list_elem_of_In%elem_of_seqZ. f_equal. apply eq_true_iff_eq. rewrite bool_decide_eq_true. apply U. lia. }
  assert (popcount (ma_currentBits m) = length gs) as Hpop.
  { rewrite (bits_are_count _ _ C); [by rewrite length_fmap, <- E1, length_fmap|by apply NoDup_fmap; [apply _|]|].
    apply Forall_fmap, Forall_fmap. eapply Forall_impl; [exact R1|]. cbn. lia. }
  rewrite (assign_fresh_all d0); [rewrite F1, F2; exact Hd|exact Hcount|apply C|apply U| |].
  - rewrite F1, Hpop. pose proof (free_split d0 Hcount gs ltac:(by rewrite E1) ltac:(by apply Forall_and in Hgs as [? _])) as Hp%Permutation_length.
    rewrite length_app, length_fmap, length_seq in Hp. lia.
  - rewrite F2, Hpop. pose proof (length_free gs.*2 (seqZ 0 32) (NoDup_seqZ _ _)) as Hids. rewrite length_seqZ, length_fmap in Hids. lia.
Qed.

Lemma match_pointers_spec current last :
  let d0 := clearIdBits current in
  raw_ok last -> (length (rw_pointers d0) <= MAX_POINTERS)%nat -> Forall placed (rw_pointers d0) -> Forall placed (rw_pointers last) ->
  exists els l d, heap_elements (rw_pointers d0) (rw_pointers last) = Some els /\ els ≡ₚ l /\ StronglySorted closer l /\
    match_pointers d0 last = Some d /\ let gs := greedy_ids l (length (rw_pointers d0)) (rw_pointers last) in given d0 gs d /\ complete d0 gs.
Proof.
  intros d0 Hlast Hcount P0 P1. destruct (heap_elements_spec d0 last P0 P1) as (els & Hels & Hok). unfold match_pointers. rewrite Hels. cbn [mbind option_bind].
  destruct (heapify_spec (length els / 2) (length els) els) as (h & -> & Ho & Hp & _ & Hlen);
    [apply Nat.Div0.div_le_upper_bound; lia|done|apply ordered_half|]. cbn [mbind option_bind].
  rewrite !firstn_all2 in Hp by lia. set (m := mkMatching h (length els) true 0 0 0 d0).
  assert (left_of m = h) as El by (unfold left_of; cbn; apply firstn_all2; lia).
  destruct (pull_matches_spec d0 last Hlast Hcount (min (length (rw_pointers d0)) (length (rw_pointers last))) [] m) as (m' & l & -> & Hd & Hf & Hm & Hend).
  { split; [split; cbn; [done|lia]|]. rewrite El. by rewrite Hp. }
  { apply matched_nil. }
  cbn [mbind option_bind]. destruct (drains_all _ _ _ Hd) as (r & Hr & Hfrom & Hs). rewrite El, Hp in Hfrom.
  assert (greedy_pairs (l ++ r) [] = greedy_pairs l []) as Eg.
  { rewrite greedy_app. destruct Hend as [Hend|Hend]; [|rewrite Hend in Hr; by apply Permutation_sym, Permutation_nil in Hr as ->].
    eapply (greedy_full d0 last); [exact Hcount|exact Hm|by rewrite Hr|done]. }
  destruct (fresh_after d0 last _ m' Hlast Hcount Hm) as (d & Hfr & Hg). exists els, (l ++ r), d. do 4 (split; [done|]).
  unfold greedy_ids. rewrite Eg. exact Hg.
Qed.

(** The cases without a heap. *)
Lemma number_pointers_all n i d : number_pointers n i d = give_all (map (fun k => (k, Z.of_nat k)) (seq i n)) d.
Proof. revert i d. induction n as [|n IH]; intros i d; [done|]. cbn. destruct (give_id i (Z.of_nat i) d); [apply IH|done]. Qed.

Lemma zip_numbers a n m : Z.of_nat n <= m -> zip (seq a n) (seqZ (Z.of_nat a) m) = map (fun k => (k, Z.of_nat k)) (seq a n).
Proof.
  revert a m. induction n as [|n IH]; intros a m Hm; [done|]. rewrite seqZ_cons by lia. cbn. f_equal.
  replace (Z.succ (Z.of_nat a)) with (Z.of_nat (S a)) by lia. apply IH. lia.
Qed.

Lemma greedy_none n last : Z.of_nat n <= 32 -> greedy_ids [] n last = map (fun k => (k, Z.of_nat k)) (seq 0 n).
Proof.
  intros Hn. unfold greedy_ids. cbn [greedy_pairs]. change (kept_ids last []) with (@nil (nat * Z)). cbn [app fmap list_fmap].
  rewrite (List.filter_ext _ (fun _ => true)), List.filter_true by done.
  rewrite (List.filter_ext (fun id : Z => _) (fun _ => true)), List.filter_true by done. by apply zip_numbers.
Qed.

Lemma numbered current :
  let d0 := clearIdBits current in
  (length (rw_pointers d0) <= MAX_POINTERS)%nat ->
  exists d, number_pointers (length (rw_pointers d0)) 0 d0 = Some d /\
    let gs := greedy_ids [] (length (rw_pointers d0)) [] in given d0 gs d /\ complete d0 gs.
Proof.
  intros d0 Hc. unfold MAX_POINTERS in Hc. rewrite greedy_none, number_pointers_all by lia. set (gs := map _ _).
  assert (gs.*1 = seq 0 (length (rw_pointers d0))) as E1 by (unfold gs; rewrite <- list_fmap_compose; apply list_fmap_id).
  assert (Forall (fun g => is_Some (rw_pointers d0 !! fst g) /\ 0 <= snd g <= 31) gs) as Hf.
  { apply Forall_fmap, Forall_forall. intros k Hk%elem_of_seq. cbn -[Z.of_nat]. split; [apply lookup_lt_is_Some_2; exact (proj2 Hk)|].  lia. }
  destruct (given_all d0 [] d0 gs (given_nil current)) as (d & H1 & H2); [cbn [app]; rewrite E1; apply NoDup_seq|done|].
  exists d. split; [done|]. split; [done|]. split; [by rewrite E1|]. eapply Forall_impl; [exact Hf|]. by intros g [].
Qed.

(** One pointer of the same type as the one before. *)
Lemma greedy_one e n q : he_current e = 0%nat -> he_last e = 0%nat -> n = 1%nat -> greedy_ids [e] n [q] = [(0%nat, rp_id q)].
Proof. intros E1 E2 ->. unfold greedy_ids. cbn. rewrite E1, E2. done. Qed.

Lemma one_pointer p q index last :
  let d0 := mkRawData [p] 0 0 index in
  raw_ok last -> rw_pointers last = [q] ->
  exists d, give_id 0 (rp_id q) d0 = Some d /\ given d0 [(0%nat, rp_id q)] d /\ complete d0 [(0%nat, rp_id q)].
Proof.
  intros d0 Hlast Hq. destruct (rw_ids _ Hlast q) as [Hid _]; [rewrite Hq; set_solver|].
  destruct (given_step d0 [] d0 0 (rp_id q) p (given_nil d0)) as (d & H1 & H2); [cbn; set_solver|done|done|].
  exists d. split_and!; [done..|]. split; [done|]. by apply Forall_singleton.
Qed.

Lemma no_elements ps : heap_elements ps [] = Some [].
Proof. unfold heap_elements. change (imap pair []) with (@nil (nat * RawPointer)). by induction (imap pair ps). Qed.

(** [assignPointerIds] is the greedy matching. *)
Lemma assign_given current last :
  raw_ok last -> (length (rw_pointers current) <= MAX_POINTERS)%nat -> Forall placed (rw_pointers current) -> Forall placed (rw_pointers last) ->
  exists els l d, heap_elements (rw_pointers current) (rw_pointers last) = Some els /\ els ≡ₚ l /\ StronglySorted closer l /\
    assignPointerIds current last = Some d /\
    let gs := greedy_ids l (length (rw_pointers current)) (rw_pointers last) in
    given (clearIdBits current) gs d /\ complete (clearIdBits current) gs.
Proof.
  intros Hlast Hc P0 P1. destruct current as [ps h t index], last as [qs h' t' index']. unfold assignPointerIds. cbn [rw_pointers] in *.
  pose proof (match_pointers_spec (mkRawData ps h t index) _ Hlast Hc P0 P1) as Hm.
  destruct ps as [|p ps].
  { exists [], [], (mkRawData [] 0 0 index). do 4 (split; [done || constructor|]). split; [apply given_nil|]. split; [done|constructor]. }
  destruct qs as [|q qs].
  { destruct (numbered (mkRawData (p :: ps) h t index) Hc) as (d & Hd & Hg). exists [], [], d.
    split; [apply no_elements|]. do 2 (split; [done || constructor|]). split; [by destruct ps|exact Hg]. }
  assert (match ps with [] => match qs with [] => rp_toolType p =? rp_toolType q | _ => false end | _ => false end = true ->
    ps = [] /\ qs = [] /\ rp_toolType p = rp_toolType q) as Hone by (destruct ps, qs; try done; by intros ?%Z.eqb_eq).
  destruct (match ps with [] => match qs with [] => rp_toolType p =? rp_toolType q | _ => false end | _ => false end) eqn:E.
  2: { destruct ps, qs; rewrite ?E; exact Hm. }
  destruct (Hone eq_refl) as (-> & -> & Et). rewrite E.
  apply (proj1 (Forall_singleton placed p)) in P0. apply (proj1 (Forall_singleton placed q)) in P1. destruct (squared_distance_placed p q P0 P1) as [z Hz].
  destruct (one_pointer p q index _ Hlast eq_refl) as (d & Hd & Hg). exists [mkElement 0 0 z], [mkElement 0 0 z], d.
  split; [unfold heap_elements; cbn; rewrite E; unfold pair_element; cbn; by rewrite Hz|]. split; [done|]. split; [repeat constructor|].
  split; [exact Hd|]. by rewrite greedy_one.
Qed.

(** The identifiers are as the specification says. *)
Lemma given_ids d0 gs d i id :
  given d0 gs d -> complete d0 gs -> rp_id <$> rw_pointers d !! i = Some id <-> (i, id) ∈ gs.
Proof.
  intros Hg Hc. rewrite fmap_Some. split.
  - intros (p & Hp & ->). assert (is_Some (rw_pointers d0 !! i)) as [p0 H0].
    { apply lookup_lt_is_Some. rewrite <- (gv_length _ _ _ Hg). by eapply lookup_lt_Some. }
    destruct (proj1 (complete_lookup d0 gs i Hc)) as [id Hid]; [by eexists|].
    rewrite (gv_new _ _ _ Hg _ _ _ Hid H0) in Hp. by injection Hp as <-.
  - intros Hid. destruct (proj2 (complete_lookup d0 gs i Hc)) as [p0 H0]; [by eexists|]. exists (with_id id p0).
    split; [by eapply gv_new|done].
Qed.

(** C35: [TouchInputMapper::assignPointerIds] never reads or writes out of its arrays, and gives
    the identifiers of a greedy matching: going through all pairs of a new and an old pointer of
    the same type in an order of not decreasing distance, a pair is taken unless one of the two
    has been, and the new pointer gets the old one's identifier; the new pointers that are left
    get the least identifiers not in use, in order.  The sets of identifiers and the index that
    result are those of the pointers. *)
Theorem pointers_matched_greedily current last :
  raw_ok last -> (length (rw_pointers current) <= MAX_POINTERS)%nat ->
  Forall placed (rw_pointers current) -> Forall placed (rw_pointers last) ->
  exists els l d, heap_elements (rw_pointers current) (rw_pointers last) = Some els /\ els ≡ₚ l /\ StronglySorted closer l /\
    assignPointerIds current last = Some d /\ raw_ok d /\
    forall i id, rp_id <$> rw_pointers d !! i = Some id <-> (i, id) ∈ greedy_ids l (length (rw_pointers current)) (rw_pointers last).
Proof.
  intros Hlast Hc P0 P1. destruct (assign_given current last Hlast Hc P0 P1) as (els & l & d & H1 & H2 & H3 & H4 & Hg & Hcomp).
  exists els, l, d. split_and!; try done; [by eapply given_ok|]. intros i id. by eapply given_ids.
Qed.

(** *** A check of [raw_ok] *)

Definition raw_okb (d : RawPointerData) : bool :=
  let marks v hovering :=
    (0 <=? v) && (v <? 4294967296) &&
    forallb (fun id => Bool.eqb (hasBit v id) (existsb (fun p => (rp_id p =? id) && Bool.eqb (rp_isHovering p) hovering) (rw_pointers d)))
      (seqZ 0 32) in
  bool_decide (length (rw_pointers d) <= MAX_POINTERS)%nat &&
  forallb (fun p => (0 <=? rp_id p) && (rp_id p <=? 31) &&
    match pointerForId (rp_id p) d with Some q => rp_id q =? rp_id p | None => false end) (rw_pointers d) &&
  marks (rw_touchingIdBits d) false && marks (rw_hoveringIdBits d) true.

Lemma marks_check v hovering (l : list RawPointer) :
  forallb (fun id => Bool.eqb (hasBit v id) (existsb (fun p => (rp_id p =? id) && Bool.eqb (rp_isHovering p) hovering) l)) (seqZ 0 32) = true ->
  forall id, 0 <= id <= 31 -> hasBit v id = true <-> exists p, p ∈ l /\ rp_id p = id /\ rp_isHovering p = hovering.
Proof.
  intros H id Hid. rewrite forallb_forall in H. specialize (H id). rewrite <- list_elem_of_In, elem_of_ids in H.
  specialize (H ltac:(lia)). apply Bool.eqb_prop in H as ->. rewrite existsb_exists. split.
  - intros (p & Hp%list_elem_of_In & [?%Z.eqb_eq ?%Bool.eqb_prop]%andb_true_iff). by exists p.
  - intros (p & Hp%list_elem_of_In & <- & <-). exists p. by rewrite Z.eqb_refl, Bool.eqb_reflx.
Qed.

Lemma raw_ok_check d : raw_okb d = true -> raw_ok d.
Proof.
  unfold raw_okb. rewrite !andb_true_iff, bool_decide_eq_true, !Z.leb_le, !Z.ltb_lt. intros [[[Hc Hi] [[? ?] Ht]] [[? ?] Hh]].
  rewrite forallb_forall in Hi. split; [done| |by apply marks_check|by apply marks_check|by split; split].
  intros p Hp. specialize (Hi p). rewrite <- list_elem_of_In in Hi. specialize (Hi Hp). rewrite !andb_true_iff, !Z.leb_le in Hi.
  destruct Hi as [[? ?] Hi]. split; [done|]. unfold pointerForId in Hi. destruct (rw_idToIndex d !! rp_id p) as [j|]; [|done]. cbn in Hi.
  destruct (rw_pointers d !! j) as [q|] eqn:Eq; [|done]. exists j, q. by rewrite Z.eqb_eq in Hi.
Qed.

(** Two fingers, of which the second comes first in the next report, with a third. *)
Definition finger (id x y : Z) : RawPointer := mkRawPointer id x y 0 0 0 0 0 0 0 0 0 AMOTION_EVENT_TOOL_TYPE_FINGER false.
Definition fingers_last : RawPointerData :=
  mkRawData [finger 4 99 99; finger 7 11 12] 0 (markBit (markBit 0 4) 7) (list_to_map [(4, 0%nat); (7, 1%nat)]).
Definition fingers_current : RawPointerData := mkRawData [finger (-1) 10 10; finger (-1) 100 100; finger (-1) 50 50] 0 0 ∅.

Lemma pointers_matched_greedily_witness :
  exists els l d, heap_elements (rw_pointers fingers_current) (rw_pointers fingers_last) = Some els /\ els ≡ₚ l /\ StronglySorted closer l /\
    assignPointerIds fingers_current fingers_last = Some d /\ raw_ok d /\
    forall i id, rp_id <$> rw_pointers d !! i = Some id <-> (i, id) ∈ greedy_ids l 3 (rw_pointers fingers_last).
Proof.
  apply (pointers_matched_greedily fingers_current fingers_last).
  - apply raw_ok_check. vm_compute. reflexivity.
  - cbn. unfold MAX_POINTERS. lia.
  - repeat constructor; cbn; lia.
  - repeat constructor; cbn; lia.
Defined.

Example fingers_keep_ids : map rp_id <$> (rw_pointers <$> assignPointerIds fingers_current fingers_last) = Some [7; 4; 0].
Proof. vm_compute. reflexivity. Qed.
