(* ===== verification/TouchMapper.v ===== *)
(** * Touch devices: the mapper

    [TouchInputMapper] of [InputReader.cpp] with its two derived classes: how a report becomes
    pointers on the screen ([cookPointerData]), virtual keys and motions.  For devices that drive
    a pointer on the screen ([DEVICE_MODE_POINTER]) the translation of touches into its movements
    is an interface, [PointerTranslation].  The device has been configured: [TouchSettings]; what
    [configure] does after that, when the reader's configuration changes, is [touch_reconfigure].

    The pointer controller shows nothing ([DummyPointerController]); it remembers the buttons. *)

From Stdlib Require Import SpecFloat.
From S2P Require Import Prelude Geometry Input AndroidEvents InputTransport InputState Dispatcher DispatchTargets DispatchLoop ReaderData InputHub.
From S2P Require Import TouchData TouchIds ReaderLoop.

(** ** Cooked pointers *)

(** What the C library computes. *)
Class Libm : Type := {
  libm_sinf : float -> float;
  libm_cosf : float -> float;
  libm_acosf : float -> float;
  libm_atan2f : float -> float -> float;
  libm_hypotf : float -> float -> float;
}.

Definition sqrtf : float -> float := SFsqrt 24 128.
Definition half : float := float_div one (float_of_Z 2).

(** Between the two widths. *)
Definition resized (prec emax : Z) (x : spec_float) : spec_float :=
  match x with S754_finite s m e => binary_normalize prec emax (cond_Zopp s (Zpos m)) e s | _ => x end.
Definition double_of_float : float -> spec_float := resized 53 1024.
Definition float_of_double : spec_float -> float := resized 24 128.
Definition M_PI_2 : spec_float := S754_finite false 7074237752028440 (-52).
Definition M_PI : spec_float := S754_finite false 7074237752028440 (-51).

Definition avg (x y : float) : float := float_div (float_add x y) (float_of_Z 2).
Definition signExtendNybble (value : Z) : Z := if 8 <=? value then value - 16 else value.

Definition applySizeScaleAndBias (c : Calibration) (size : float) : float :=
  let size := match cal_sizeScale c with Some s => float_mul size s | None => size end in
  match cal_sizeBias c with Some b => float_add size b | None => size end.

(** [touchMajor], [touchMinor], [toolMajor], [toolMinor] and [size]. *)
Record Sizes : Set := mkSizes { sz_touchMajor : float; sz_touchMinor : float; sz_toolMajor : float; sz_toolMinor : float; sz_size : float }.
Definition no_sizes : Sizes := mkSizes zero zero zero zero zero.
Definition map_sizes (f : float -> float) (s : Sizes) : Sizes :=
  mkSizes (f (sz_touchMajor s)) (f (sz_touchMinor s)) (f (sz_toolMajor s)) (f (sz_toolMinor s)) (f (sz_size s)).

(** An [int32_t] difference as a float; an overflow is undefined. *)
Definition difference (a b : Z) : option float :=
  if bool_decide (-2147483648 <= a - b <= 2147483647) then Some (float_of_Z (a - b)) else None.

Section Cook.
Context `{Libm} (c : TouchSettings).

(** The sizes as the axes have them; without such axes the calibration is not for sizes. *)
Definition raw_sizes (p : RawPointer) : option Sizes :=
  let a := mRawPointerAxes c in
  let touchMajor := float_of_Z (rp_touchMajor p) in
  let toolMajor := float_of_Z (rp_toolMajor p) in
  let touchMinor := if ax_valid (ra_touchMinor a) then float_of_Z (rp_touchMinor p) else touchMajor in
  let toolMinor := if ax_valid (ra_toolMinor a) then float_of_Z (rp_toolMinor p) else toolMajor in
  let touchSize := if ax_valid (ra_touchMinor a) then avg touchMajor touchMinor else touchMajor in
  let toolSize := if ax_valid (ra_toolMinor a) then avg toolMajor toolMinor else toolMajor in
  if ax_valid (ra_touchMajor a) && ax_valid (ra_toolMajor a) then Some (mkSizes touchMajor touchMinor toolMajor toolMinor touchSize)
  else if ax_valid (ra_touchMajor a) then Some (mkSizes touchMajor touchMinor touchMajor touchMinor touchSize)
  else if ax_valid (ra_toolMajor a) then Some (mkSizes toolMajor toolMinor toolMajor toolMinor toolSize)
  else None.

Definition positive_root (x : float) : float := if SFltb zero x then sqrtf x else zero.

(** A pointer's sizes, [touching] pointers being down. *)
Definition cook_sizes (touching : Z) (p : RawPointer) : option Sizes :=
  let cal := mCalibration c in
  let scaled s :=
    let g := applySizeScaleAndBias cal in
    mkSizes (g (sz_touchMajor s)) (g (sz_touchMinor s)) (g (sz_toolMajor s)) (g (sz_toolMinor s)) (float_mul (sz_size s) (mSizeScale c)) in
  let summed s :=
    if default false (cal_sizeIsSummed cal) && (1 <? touching) then map_sizes (fun x => float_div x (float_of_Z touching)) s else s in
  match sizeCalibration cal with
  | SIZE_CALIBRATION_GEOMETRIC =>
      s ← raw_sizes p ;
      let s := summed s in
      let g x := float_mul x (mGeometricScale c) in
      Some (scaled (mkSizes (g (sz_touchMajor s)) (g (sz_touchMinor s)) (g (sz_toolMajor s)) (g (sz_toolMinor s)) (sz_size s)))
  | SIZE_CALIBRATION_AREA =>
      s ← raw_sizes p ;
      let s := summed s in
      let touch := positive_root (sz_touchMajor s) in
      let tool := positive_root (sz_toolMajor s) in
      Some (scaled (mkSizes touch touch tool tool (sz_size s)))
  | SIZE_CALIBRATION_DIAMETER =>
      s ← raw_sizes p ;
      let s := summed s in
      Some (scaled (mkSizes (sz_touchMajor s) (sz_touchMajor s) (sz_toolMajor s) (sz_toolMajor s) (sz_size s)))
  | _ => Some no_sizes
  end.

Definition cook_pressure (p : RawPointer) : float :=
  match pressureCalibration (mCalibration c) with
  | PRESSURE_CALIBRATION_PHYSICAL | PRESSURE_CALIBRATION_AMPLITUDE => float_mul (float_of_Z (rp_pressure p)) (mPressureScale c)
  | _ => if rp_isHovering p then zero else one
  end.

(** The tilt and the orientation, with the sizes that a vector of orientation changes. *)
Definition cook_orientation (p : RawPointer) (s : Sizes) : float * float * Sizes :=
  if mHaveTilt c then
    let tiltXAngle := float_mul (float_sub (float_of_Z (rp_tiltX p)) (mTiltXCenter c)) (mTiltXScale c) in
    let tiltYAngle := float_mul (float_sub (float_of_Z (rp_tiltY p)) (mTiltYCenter c)) (mTiltYScale c) in
    (libm_acosf (float_mul (libm_cosf tiltXAngle) (libm_cosf tiltYAngle)),
     libm_atan2f (SFopp (libm_sinf tiltXAngle)) (libm_sinf tiltYAngle), s)
  else
    match orientationCalibration (mCalibration c) with
    | ORIENTATION_CALIBRATION_INTERPOLATED =>
        (zero, float_mul (float_sub (float_of_Z (rp_orientation p)) (mOrientationCenter c)) (mOrientationScale c), s)
    | ORIENTATION_CALIBRATION_VECTOR =>
        let c1 := signExtendNybble (Z.shiftr (Z.land (rp_orientation p) 240) 4) in
        let c2 := signExtendNybble (Z.land (rp_orientation p) 15) in
        if negb (c1 =? 0) || negb (c2 =? 0) then
          let confidence := libm_hypotf (float_of_Z c1) (float_of_Z c2) in
          let scale := float_add one (float_div confidence (float_of_Z 16)) in
          (zero, float_mul (libm_atan2f (float_of_Z c1) (float_of_Z c2)) half,
           mkSizes (float_mul (sz_touchMajor s) scale) (float_div (sz_touchMinor s) scale) (float_mul (sz_toolMajor s) scale)
             (float_div (sz_toolMinor s) scale) (sz_size s))
        else (zero, zero, s)
    | _ => (zero, zero, s)
    end.

Definition cook_distance (p : RawPointer) : float :=
  match distanceCalibration (mCalibration c) with
  | DISTANCE_CALIBRATION_SCALED => float_mul (float_of_Z (rp_distance p)) (mDistanceScale c)
  | _ => zero
  end.

Definition double_sub : spec_float -> spec_float -> spec_float := SFsub 53 1024.
Definition double_add : spec_float -> spec_float -> spec_float := SFadd 53 1024.

(** The position and the orientation on a surface that may be turned. *)
Definition cook_position (p : RawPointer) (orientation : float) : option (float * float * float) :=
  let ax := ra_x (mRawPointerAxes c) in
  let ay := ra_y (mRawPointerAxes c) in
  if mSurfaceOrientation c =? DISPLAY_ORIENTATION_90 then
    x ← difference (rp_y p) (ax_minValue ay) ;
    y ← difference (ax_maxValue ax) (rp_x p) ;
    let o := float_of_double (double_sub (double_of_float orientation) M_PI_2) in
    let o := if SFltb (double_of_float o) (SFopp M_PI_2) then float_of_double (double_add (double_of_float o) M_PI) else o in
    Some (float_mul x (mYScale c), float_mul y (mXScale c), o)
  else if mSurfaceOrientation c =? DISPLAY_ORIENTATION_180 then
    x ← difference (ax_maxValue ax) (rp_x p) ;
    y ← difference (ax_maxValue ay) (rp_y p) ;
    Some (float_mul x (mXScale c), float_mul y (mYScale c), orientation)
  else if mSurfaceOrientation c =? DISPLAY_ORIENTATION_270 then
    x ← difference (ax_maxValue ay) (rp_y p) ;
    y ← difference (rp_x p) (ax_minValue ax) ;
    let o := float_of_double (double_add (double_of_float orientation) M_PI_2) in
    let o := if SFltb M_PI_2 (double_of_float o) then float_of_double (double_sub (double_of_float o) M_PI) else o in
    Some (float_mul x (mYScale c), float_mul y (mXScale c), o)
  else
    x ← difference (rp_x p) (ax_minValue ax) ;
    y ← difference (rp_y p) (ax_minValue ay) ;
    Some (float_mul x (mXScale c), float_mul y (mYScale c), orientation).

Definition cook_pointer (touching : Z) (p : RawPointer) : option (PointerProperties * PointerCoords) :=
  s ← cook_sizes touching p ;
  let '(tilt, orientation, s) := cook_orientation p s in
  '(x, y, orientation) ← cook_position p orientation ;
  Some (mkProperties (rp_id p) (rp_toolType p),
        coords_with [(AMOTION_EVENT_AXIS_X, x); (AMOTION_EVENT_AXIS_Y, y); (AMOTION_EVENT_AXIS_PRESSURE, cook_pressure p);
          (AMOTION_EVENT_AXIS_SIZE, sz_size s); (AMOTION_EVENT_AXIS_TOUCH_MAJOR, sz_touchMajor s);
          (AMOTION_EVENT_AXIS_TOUCH_MINOR, sz_touchMinor s); (AMOTION_EVENT_AXIS_TOOL_MAJOR, sz_toolMajor s);
          (AMOTION_EVENT_AXIS_TOOL_MINOR, sz_toolMinor s); (AMOTION_EVENT_AXIS_ORIENTATION, orientation);
          (AMOTION_EVENT_AXIS_TILT, tilt); (AMOTION_EVENT_AXIS_DISTANCE, cook_distance p)]).

(** The indices of the pointers, by their identifiers. *)
Fixpoint index_pointers (i : nat) (l : list RawPointer) (index : gmap Z nat) : gmap Z nat :=
  match l with [] => index | p :: l' => index_pointers (S i) l' (<[ rp_id p := i ]> index) end.

Definition cookPointerData (raw : RawPointerData) (cooked : CookedPointerData) : option CookedPointerData :=
  pointers ← mapM (cook_pointer (bit_count (rw_touchingIdBits raw))) (rw_pointers raw) ;
  Some (mkCooked pointers (rw_hoveringIdBits raw) (rw_touchingIdBits raw) (index_pointers 0 (rw_pointers raw) (ck_idToIndex cooked))).

End Cook.

(** ** The mapper *)

(** What the event hub says of an absolute axis, if it is known. *)
Class AbsoluteAxes (K : Type) : Type := { hub_getAbsoluteAxisValue : Z -> Z -> K -> option Z }.

(** The touches of a device that drives a pointer on the screen: [PointerGesture],
    [PointerSimple] and the velocity controls, and what is dispatched of them. *)
Class PointerTranslation (K G : Type) : Type := {
  pointing_reset : G -> G;
  dispatchPointerUsage : Z -> Z -> PointerUsage -> M (TouchWorld K G) unit;
  dispatchPointerGestures : Z -> Z -> bool -> M (TouchWorld K G) unit;
  abortPointing : Z -> Z -> PointerUsage -> M (TouchWorld K G) unit;
}.

(** *** Assignments *)

Section Assign.
Context {K G : Type}.

Definition tm_set_accumulators (b : CursorButtonAccumulator) (s : CursorScrollAccumulator) (tb : TouchButtonAccumulator) (p : TouchProtocol)
    (m : TouchInputMapper G) : TouchInputMapper G :=
  mkTouch b s tb p (tm_current m) (tm_last m) (mCurrentRawVScroll m) (mCurrentRawHScroll m) (mPointerUsage m) (mSentHoverEnter m)
    (tm_downTime m) (mCurrentVirtualKey m) (tm_pointing m).
Definition tm_set_samples (current last : Sample) (m : TouchInputMapper G) : TouchInputMapper G :=
  mkTouch (tm_buttons m) (tm_scroll m) (tm_touchButtons m) (tm_protocol m) current last (mCurrentRawVScroll m) (mCurrentRawHScroll m)
    (mPointerUsage m) (mSentHoverEnter m) (tm_downTime m) (mCurrentVirtualKey m) (tm_pointing m).
Definition tm_set_scroll (v h : Z) (m : TouchInputMapper G) : TouchInputMapper G :=
  mkTouch (tm_buttons m) (tm_scroll m) (tm_touchButtons m) (tm_protocol m) (tm_current m) (tm_last m) v h
    (mPointerUsage m) (mSentHoverEnter m) (tm_downTime m) (mCurrentVirtualKey m) (tm_pointing m).
Definition tm_set_hover (b : bool) (m : TouchInputMapper G) : TouchInputMapper G :=
  mkTouch (tm_buttons m) (tm_scroll m) (tm_touchButtons m) (tm_protocol m) (tm_current m) (tm_last m) (mCurrentRawVScroll m)
    (mCurrentRawHScroll m) (mPointerUsage m) b (tm_downTime m) (mCurrentVirtualKey m) (tm_pointing m).
Definition tm_set_downTime (t : Z) (m : TouchInputMapper G) : TouchInputMapper G :=
  mkTouch (tm_buttons m) (tm_scroll m) (tm_touchButtons m) (tm_protocol m) (tm_current m) (tm_last m) (mCurrentRawVScroll m)
    (mCurrentRawHScroll m) (mPointerUsage m) (mSentHoverEnter m) t (mCurrentVirtualKey m) (tm_pointing m).
Definition tm_set_key (k : CurrentVirtualKeyState) (m : TouchInputMapper G) : TouchInputMapper G :=
  mkTouch (tm_buttons m) (tm_scroll m) (tm_touchButtons m) (tm_protocol m) (tm_current m) (tm_last m) (mCurrentRawVScroll m)
    (mCurrentRawHScroll m) (mPointerUsage m) (mSentHoverEnter m) (tm_downTime m) k (tm_pointing m).

Definition tm_set_usage (u : PointerUsage) (m : TouchInputMapper G) : TouchInputMapper G :=
  mkTouch (tm_buttons m) (tm_scroll m) (tm_touchButtons m) (tm_protocol m) (tm_current m) (tm_last m) (mCurrentRawVScroll m)
    (mCurrentRawHScroll m) u (mSentHoverEnter m) (tm_downTime m) (mCurrentVirtualKey m) (tm_pointing m).

Definition tm_set_current (s : Sample) (m : TouchInputMapper G) : TouchInputMapper G := tm_set_samples s (tm_last m) m.
Definition tm_set_last (s : Sample) (m : TouchInputMapper G) : TouchInputMapper G := tm_set_samples (tm_current m) s m.

Definition sm_set_raw (d : RawPointerData) (s : Sample) : Sample :=
  mkSample d (sm_cooked s) (sm_buttonState s) (sm_fingerIdBits s) (sm_stylusIdBits s) (sm_mouseIdBits s).
Definition sm_set_cooked (d : CookedPointerData) (s : Sample) : Sample :=
  mkSample (sm_raw s) d (sm_buttonState s) (sm_fingerIdBits s) (sm_stylusIdBits s) (sm_mouseIdBits s).
Definition sm_set_buttonState (b : Z) (s : Sample) : Sample :=
  mkSample (sm_raw s) (sm_cooked s) b (sm_fingerIdBits s) (sm_stylusIdBits s) (sm_mouseIdBits s).
Definition sm_set_tools (finger stylus mouse : Z) (s : Sample) : Sample :=
  mkSample (sm_raw s) (sm_cooked s) (sm_buttonState s) finger stylus mouse.

Definition tw_set_mapper (m : TouchInputMapper G) (w : TouchWorld K G) : TouchWorld K G := mkTouchWorld m (tw_context w).
Definition tw_set_context (c : ReaderContext K) (w : TouchWorld K G) : TouchWorld K G := mkTouchWorld (tw_mapper w) c.

End Assign.

Definition rc_set_disabled {K} (t : Z) (c : ReaderContext K) : ReaderContext K :=
  mkContext (mArgsQueue c) (mGlobalMetaState c) (mGeneration c) t (mNextTimeout c) (rc_pointer c) (rc_world c).

(** *** Motions *)

(** The pointers with these identifiers and the action, with the index of the one that has changed. *)
Fixpoint gather (pointers : list (PointerProperties * PointerCoords)) (idToIndex : gmap Z nat) (changedId : Z) (ids : list Z)
    (out : list (PointerProperties * PointerCoords)) (action : Z) : option (list (PointerProperties * PointerCoords) * Z) :=
  match ids with
  | [] => Some (out, action)
  | id :: ids' =>
      index ← idToIndex !! id ;
      p ← pointers !! index ;
      if (MAX_POINTERS <=? length out)%nat then None
      else
        gather pointers idToIndex changedId ids' (out ++ [p])
          (if (0 <=? changedId) && (id =? changedId)
           then Z.lor action (Z.shiftl (Z.of_nat (length out)) AMOTION_EVENT_ACTION_POINTER_INDEX_SHIFT) else action)
  end.

(** The first pointer that goes down and the last that goes up. *)
Definition final_action (changedId action : Z) (pointerCount : nat) : option Z :=
  if (0 <=? changedId) && (pointerCount =? 1)%nat then
    if action =? AMOTION_EVENT_ACTION_POINTER_DOWN then Some AMOTION_EVENT_ACTION_DOWN
    else if action =? AMOTION_EVENT_ACTION_POINTER_UP then Some AMOTION_EVENT_ACTION_UP
    else None
  else Some action.

(** The pointers of [out] take the properties and coordinates of those of [in]. *)
Fixpoint moved_pointers (pointers : list (PointerProperties * PointerCoords)) (inIndex outIndex : gmap Z nat) (ids : list Z)
    (out : list (PointerProperties * PointerCoords)) (changed : bool) : option (list (PointerProperties * PointerCoords) * bool) :=
  match ids with
  | [] => Some (out, changed)
  | id :: ids' =>
      i ← inIndex !! id ;
      j ← outIndex !! id ;
      p ← pointers !! i ;
      q ← out !! j ;
      let properties := bool_decide (fst p = fst q) in
      let coords := coords_eqb (snd p) (snd q) in
      moved_pointers pointers inIndex outIndex ids'
        (<[ j := (if properties then fst q else fst p, if coords then snd q else snd p) ]> out)
        (changed || negb properties || negb coords)
  end.

(** The stylus, finger and mouse pointers among the touches, and the stylus among those that hover. *)
Fixpoint mark_tools (raw : RawPointerData) (touching : bool) (ids : list Z) (tools : Z * Z * Z) : option (Z * Z * Z) :=
  match ids with
  | [] => Some tools
  | id :: ids' =>
      p ← pointerForId id raw ;
      let '(finger, stylus, mouse) := tools in
      let t := rp_toolType p in
      mark_tools raw touching ids'
        (if (t =? AMOTION_EVENT_TOOL_TYPE_STYLUS) || (t =? AMOTION_EVENT_TOOL_TYPE_ERASER) then (finger, markBit stylus id, mouse)
         else if negb touching then tools
         else if (t =? AMOTION_EVENT_TOOL_TYPE_FINGER) || (t =? AMOTION_EVENT_TOOL_TYPE_UNKNOWN) then (markBit finger id, stylus, mouse)
         else if t =? AMOTION_EVENT_TOOL_TYPE_MOUSE then (finger, stylus, markBit mouse id)
         else tools)
  end.

Section Touch.
Context {K G : Type} `{EventHub K} `{AbsoluteAxes K} `{PointerTranslation K G} `{Libm}.
Context (c : TouchSettings).

Abbreviation T := (M (TouchWorld K G)).

Definition touch_mapper : T (TouchInputMapper G) := gets tw_mapper.
Definition touch_put (f : TouchInputMapper G -> TouchInputMapper G) : T unit := modify (fun w => tw_set_mapper (f (tw_mapper w)) w).
Definition touch_context (f : ReaderContext K -> ReaderContext K) : T unit := modify (fun w => tw_set_context (f (tw_context w)) w).
Definition touch_notify (args : NotifyArgs) : T unit := touch_context (fun r => rc_set_queue (mArgsQueue r ++ [args]) r).
Definition touch_metaState : T Z := gets (fun w => mGlobalMetaState (tw_context w)).

(** Where the mapper's data do not determine what happens. *)
Definition checked {A} (a : option A) : T A := deref (fun _ => a).

Definition dispatchMotion (t policyFlags source action flags metaState buttonState edgeFlags : Z)
    (pointers : list (PointerProperties * PointerCoords)) (idToIndex : gmap Z nat) (idBits changedId : Z) (downTime : Z) : T unit :=
  '(out, action) ← checked (gather pointers idToIndex changedId (marked idBits) [] action) ;
  if (length out =? 0)%nat then undefined
  else
    action ← checked (final_action changedId action (length out)) ;
    touch_notify (NotifyMotionArgs t policyFlags
      (mkMotionEntry (ts_deviceId c) source action flags metaState buttonState edgeFlags (mOrientedXPrecision c) (mOrientedYPrecision c)
         downTime out)).

(** A motion of the touches of a sample. *)
Definition dispatch_cooked (t policyFlags action metaState buttonState edgeFlags : Z) (d : CookedPointerData) (idBits changedId : Z) : T unit :=
  m ← touch_mapper ;
  dispatchMotion t policyFlags (ts_source c) action 0 metaState buttonState edgeFlags (ck_pointers d) (ck_idToIndex d) idBits changedId
    (tm_downTime m).

Definition last_cooked : T CookedPointerData := gets (fun w => sm_cooked (tm_last (tw_mapper w))).
Definition current_cooked : T CookedPointerData := gets (fun w => sm_cooked (tm_current (tw_mapper w))).

Definition updateMovedPointers (moveIdBits : Z) : T bool :=
  current ← current_cooked ;
  last ← last_cooked ;
  '(out, changed) ← checked (moved_pointers (ck_pointers current) (ck_idToIndex current) (ck_idToIndex last) (marked moveIdBits)
                               (ck_pointers last) false) ;
  touch_put (fun m => tm_set_last (sm_set_cooked (mkCooked out (ck_hoveringIdBits last) (ck_touchingIdBits last) (ck_idToIndex last))
                                     (tm_last m)) m) ;;
  mret changed.

(** The pointers that go up, one after the other. *)
Fixpoint dispatch_ups (t policyFlags metaState buttonState : Z) (ups : list Z) (dispatchedIdBits : Z) : T Z :=
  match ups with
  | [] => mret dispatchedIdBits
  | upId :: ups' =>
      last ← last_cooked ;
      dispatch_cooked t policyFlags AMOTION_EVENT_ACTION_POINTER_UP metaState buttonState 0 last dispatchedIdBits upId ;;
      dispatch_ups t policyFlags metaState buttonState ups' (clearBit dispatchedIdBits upId)
  end.

Fixpoint dispatch_downs (t policyFlags metaState buttonState : Z) (downs : list Z) (dispatchedIdBits : Z) : T unit :=
  match downs with
  | [] => mret tt
  | downId :: downs' =>
      let dispatchedIdBits := markBit dispatchedIdBits downId in
      (if bit_count dispatchedIdBits =? 1 then touch_put (tm_set_downTime t) else mret tt) ;;
      current ← current_cooked ;
      dispatch_cooked t policyFlags AMOTION_EVENT_ACTION_POINTER_DOWN metaState buttonState 0 current dispatchedIdBits downId ;;
      dispatch_downs t policyFlags metaState buttonState downs' dispatchedIdBits
  end.

Definition dispatchTouches (t policyFlags : Z) : T unit :=
  m ← touch_mapper ;
  let current := sm_cooked (tm_current m) in
  let currentIdBits := ck_touchingIdBits current in
  let lastIdBits := ck_touchingIdBits (sm_cooked (tm_last m)) in
  metaState ← touch_metaState ;
  let buttonState := sm_buttonState (tm_current m) in
  if currentIdBits =? lastIdBits then
    if negb (isEmpty currentIdBits) then
      dispatch_cooked t policyFlags AMOTION_EVENT_ACTION_MOVE metaState buttonState AMOTION_EVENT_EDGE_FLAG_NONE current currentIdBits (-1)
    else mret tt
  else
    let upIdBits := Z.ldiff lastIdBits currentIdBits in
    let downIdBits := Z.ldiff currentIdBits lastIdBits in
    let moveIdBits := Z.land lastIdBits currentIdBits in
    moved ← updateMovedPointers moveIdBits ;
    let moveNeeded := moved || negb (buttonState =? sm_buttonState (tm_last m)) in
    dispatchedIdBits ← dispatch_ups t policyFlags metaState buttonState (marked upIdBits) lastIdBits ;
    (if (moveNeeded : bool) then
       if moveIdBits =? dispatchedIdBits then
         dispatch_cooked t policyFlags AMOTION_EVENT_ACTION_MOVE metaState buttonState 0 current dispatchedIdBits (-1)
       else undefined
     else mret tt) ;;
    dispatch_downs t policyFlags metaState buttonState (marked downIdBits) dispatchedIdBits.

Definition dispatchHoverExit (t policyFlags : Z) : T unit :=
  m ← touch_mapper ;
  let current := sm_cooked (tm_current m) in
  if mSentHoverEnter m && (isEmpty (ck_hoveringIdBits current) || negb (isEmpty (ck_touchingIdBits current))) then
    metaState ← touch_metaState ;
    let last := sm_cooked (tm_last m) in
    dispatch_cooked t policyFlags AMOTION_EVENT_ACTION_HOVER_EXIT metaState (sm_buttonState (tm_last m)) 0 last (ck_hoveringIdBits last) (-1) ;;
    touch_put (tm_set_hover false)
  else mret tt.

Definition dispatchHoverEnterAndMove (t policyFlags : Z) : T unit :=
  m ← touch_mapper ;
  let current := sm_cooked (tm_current m) in
  if isEmpty (ck_touchingIdBits current) && negb (isEmpty (ck_hoveringIdBits current)) then
    metaState ← touch_metaState ;
    let hover action := dispatch_cooked t policyFlags action metaState (sm_buttonState (tm_current m)) 0 current (ck_hoveringIdBits current) (-1) in
    (if negb (mSentHoverEnter m) then hover AMOTION_EVENT_ACTION_HOVER_ENTER ;; touch_put (tm_set_hover true) else mret tt) ;;
    hover AMOTION_EVENT_ACTION_HOVER_MOVE
  else mret tt.

(** *** Virtual keys *)

Definition isPointInsideSurface (x y : Z) : bool :=
  let a := mRawPointerAxes c in
  (ax_minValue (ra_x a) <=? x) && (x <=? ax_maxValue (ra_x a)) && (ax_minValue (ra_y a) <=? y) && (y <=? ax_maxValue (ra_y a)).

Definition findVirtualKeyHit (x y : Z) : option VirtualKey := List.find (isHit x y) (mVirtualKeys c).

Definition dispatchVirtualKey (t policyFlags keyEventAction keyEventFlags : Z) : T unit :=
  m ← touch_mapper ;
  let k := mCurrentVirtualKey m in
  metaState ← touch_metaState ;
  touch_notify (NotifyKeyArgs t (Z.lor policyFlags POLICY_FLAG_VIRTUAL)
    (KeyEntry_new (ts_deviceId c) AINPUT_SOURCE_KEYBOARD keyEventAction keyEventFlags (cv_keyCode k) (cv_scanCode k) metaState 0
       (cv_downTime k))).

Definition touch_shouldDrop (now : Z) : T bool := gets (fun w => now <? mDisableVirtualKeysTimeout (tw_context w)).

Definition key_flags : Z := Z.lor AKEY_EVENT_FLAG_FROM_SYSTEM AKEY_EVENT_FLAG_VIRTUAL_HARD_KEY.

Definition set_key_down (b : bool) (k : CurrentVirtualKeyState) : CurrentVirtualKeyState :=
  mkCurrentKey b (cv_ignored k) (cv_downTime k) (cv_keyCode k) (cv_scanCode k).

(** The virtual key is no longer down: it is told unless it was ignored. *)
Definition release_key (t policyFlags flags : Z) : T unit :=
  m ← touch_mapper ;
  touch_put (fun m => tm_set_key (set_key_down false (mCurrentVirtualKey m)) m) ;;
  if negb (cv_ignored (mCurrentVirtualKey m)) then dispatchVirtualKey t policyFlags AKEY_EVENT_ACTION_UP flags else mret tt.

(** A key that is down stays down, or is released; what is returned is whether the touches are consumed, if
    that is known. *)
Definition consume_key (t policyFlags : Z) : T (option bool) :=
  m ← touch_mapper ;
  let raw := sm_raw (tm_current m) in
  let touching := rw_touchingIdBits raw in
  if cv_down (mCurrentVirtualKey m) then
    if isEmpty touching then release_key t policyFlags key_flags ;; mret (Some true)
    else
      within ← (if bit_count touching =? 1 then
                  p ← checked (pointerForId (firstMarkedBit touching) raw) ;
                  mret (match findVirtualKeyHit (rp_x p) (rp_y p) with
                        | Some k => vk_keyCode k =? cv_keyCode (mCurrentVirtualKey m) | None => false end)
                else mret false : T bool) ;
      if (within : bool) then mret (Some true)
      else release_key t policyFlags (Z.lor key_flags AKEY_EVENT_FLAG_CANCELED) ;; mret None
  else mret None.

(** The virtual key that the only pointer has hit. *)
Definition press_key (t policyFlags : Z) (k : VirtualKey) : T unit :=
  drop ← touch_shouldDrop t ;
  touch_put (tm_set_key (mkCurrentKey true drop t (vk_keyCode k) (vk_scanCode k))) ;;
  if negb drop then dispatchVirtualKey t policyFlags AKEY_EVENT_ACTION_DOWN key_flags else mret tt.

Definition consumeRawTouches (t policyFlags : Z) : T bool :=
  known ← consume_key t policyFlags ;
  match known with
  | Some b => mret b
  | None =>
      m ← touch_mapper ;
      let raw := sm_raw (tm_current m) in
      let touching := rw_touchingIdBits raw in
      off ← (if isEmpty (rw_touchingIdBits (sm_raw (tm_last m))) && negb (isEmpty touching) then
               p ← checked (pointerForId (firstMarkedBit touching) raw) ;
               if negb (isPointInsideSurface (rp_x p) (rp_y p)) then
                 (if bit_count touching =? 1 then
                    match findVirtualKeyHit (rp_x p) (rp_y p) with Some k => press_key t policyFlags k | None => mret tt end
                  else mret tt) ;;
                 mret true
               else mret false
             else mret false : T bool) ;
      if (off : bool) then mret true
      else
        (if (0 <? virtualKeyQuietTime c) && negb (isEmpty touching)
         then touch_context (rc_set_disabled (t + virtualKeyQuietTime c)) else mret tt) ;;
        mret false
  end.

(** *** Reports *)

(** [synthesizeButtonKey], as for a mouse. *)
Definition touch_buttonKey (action t policyFlags lastButtonState currentButtonState buttonState keyCode : Z) : T unit :=
  if (action =? AKEY_EVENT_ACTION_DOWN) && negb (has lastButtonState buttonState) && has currentButtonState buttonState
     || (action =? AKEY_EVENT_ACTION_UP) && has lastButtonState buttonState && negb (has currentButtonState buttonState) then
    metaState ← touch_metaState ;
    touch_notify (NotifyKeyArgs t policyFlags (KeyEntry_new (ts_deviceId c) (ts_source c) action 0 keyCode 0 metaState 0 t))
  else mret tt.

Definition touch_buttonKeys (action t policyFlags : Z) : T unit :=
  m ← touch_mapper ;
  let last := sm_buttonState (tm_last m) in
  let current := sm_buttonState (tm_current m) in
  touch_buttonKey action t policyFlags last current AMOTION_EVENT_BUTTON_BACK AKEYCODE_BACK ;;
  touch_buttonKey action t policyFlags last current AMOTION_EVENT_BUTTON_FORWARD AKEYCODE_FORWARD.

(** What the accumulators have gathered; whether the pointers have identifiers. *)
Definition sync_gather : T bool :=
  m ← touch_mapper ;
  let buttonState := Z.lor (touch_getButtonState (tm_touchButtons m)) (buttons_getButtonState (tm_buttons m)) in
  let s := tm_scroll m in
  let current := tm_current m in
  '(raw, havePointerIds, protocol) ←
    checked (syncTouch (mRawPointerAxes c) (tm_touchButtons m) (tm_protocol m) (raw_clear (sm_raw current))) ;
  touch_put (fun m => tm_set_accumulators (tm_buttons m) (scroll_clear s) (tm_touchButtons m) protocol
    (tm_set_scroll (mRelWheel s) (mRelHWheel s)
      (tm_set_current (mkSample raw (cooked_clear (sm_cooked current)) buttonState 0 0 0) m))) ;;
  mret havePointerIds.

Definition current_put (f : Sample -> Sample) : T unit := touch_put (fun m => tm_set_current (f (tm_current m)) m).

Definition sync_assign : T unit :=
  m ← touch_mapper ;
  raw ← checked (assignPointerIds (sm_raw (tm_current m)) (sm_raw (tm_last m))) ;
  current_put (sm_set_raw raw).

(** Initial downs and buttons wake an external device; a touch screen hides the pointer. *)
Definition sync_policyFlags : T Z :=
  m ← touch_mapper ;
  let initialDown := bool_decide (length (rw_pointers (sm_raw (tm_last m))) = 0%nat) &&
                     negb (bool_decide (length (rw_pointers (sm_raw (tm_current m))) = 0%nat)) in
  let buttonsPressed := negb (Z.ldiff (sm_buttonState (tm_current m)) (sm_buttonState (tm_last m)) =? 0) in
  mret (when ((initialDown || buttonsPressed) && ts_isExternal c) POLICY_FLAG_WAKE_DROPPED 0).

Definition sync_cook : T unit :=
  m ← touch_mapper ;
  cooked ← checked (cookPointerData c (sm_raw (tm_current m)) (sm_cooked (tm_current m))) ;
  current_put (sm_set_cooked cooked).

(** The tools of a device that drives a pointer: a stylus before a mouse before fingers. *)
Definition sync_usage : T PointerUsage :=
  m ← touch_mapper ;
  let raw := sm_raw (tm_current m) in
  tools ← checked (mark_tools raw true (marked (rw_touchingIdBits raw)) (0, 0, 0)) ;
  '(finger, stylus, mouse) ← checked (mark_tools raw false (marked (rw_hoveringIdBits raw)) tools) ;
  if negb (isEmpty stylus) then current_put (sm_set_tools 0 stylus 0) ;; mret POINTER_USAGE_STYLUS
  else if negb (isEmpty mouse) then current_put (sm_set_tools 0 stylus mouse) ;; mret POINTER_USAGE_MOUSE
  else
    current_put (sm_set_tools finger stylus mouse) ;;
    mret (if negb (isEmpty finger) || isPointerDown (sm_buttonState (tm_current m)) then POINTER_USAGE_GESTURES else mPointerUsage m).

Definition show_spots : T unit :=
  m ← touch_mapper ;
  if bool_decide (mDeviceMode c = DEVICE_MODE_DIRECT) && showTouches c && ts_hasController c
  then touch_context (fun r => rc_set_pointer (setButtonState (sm_buttonState (tm_current m)) (rc_pointer r)) r)
  else mret tt.

(** Up to the point where the cooked pointers are dispatched. *)
Definition sync_prepare (t : Z) (havePointerIds : bool) : T Z :=
  (if havePointerIds then mret tt else sync_assign) ;;
  policyFlags ← sync_policyFlags ;
  touch_buttonKeys AKEY_EVENT_ACTION_DOWN t policyFlags ;;
  consumed ← consumeRawTouches t policyFlags ;
  (if (consumed : bool) then current_put (fun s => sm_set_raw (raw_clear (sm_raw s)) s) else mret tt) ;;
  sync_cook ;;
  mret policyFlags.

Definition sync_dispatch (t policyFlags : Z) : T unit :=
  (if bool_decide (mDeviceMode c = DEVICE_MODE_POINTER) then
     usage ← sync_usage ; dispatchPointerUsage t policyFlags usage
   else
     show_spots ;;
     dispatchHoverExit t policyFlags ;;
     dispatchTouches t policyFlags ;;
     dispatchHoverEnterAndMove t policyFlags) ;;
  touch_buttonKeys AKEY_EVENT_ACTION_UP t policyFlags.

(** The current touch is the last. *)
Definition sync_finish : T unit :=
  m ← touch_mapper ;
  let current := tm_current m in
  raw ← checked (raw_copyFrom (sm_raw current) (sm_raw (tm_last m))) ;
  cooked ← checked (cooked_copyFrom (sm_cooked current) (sm_cooked (tm_last m))) ;
  touch_put (fun m => tm_set_scroll 0 0 (tm_set_last
    (mkSample raw cooked (sm_buttonState current) (sm_fingerIdBits current) (sm_stylusIdBits current) (sm_mouseIdBits current)) m)).

Definition touch_sync (t : Z) : T unit :=
  havePointerIds ← sync_gather ;
  (if bool_decide (mDeviceMode c = DEVICE_MODE_DISABLED)
   then current_put (fun s => sm_set_buttonState 0 (sm_set_raw (raw_clear (sm_raw s)) s))
   else policyFlags ← sync_prepare t havePointerIds ; sync_dispatch t policyFlags) ;;
  sync_finish.

(** [process]: the accumulators of the base class, the report, and those of the derived class. *)
Definition protocol_process (e : RawEvent) (p : TouchProtocol) : option TouchProtocol :=
  match p with
  | SingleTouchInput a => Some (SingleTouchInput (single_process e a))
  | MultiTouchInput a idBits trackingIds => (fun a => MultiTouchInput a idBits trackingIds) <$> multi_process e a
  end.

Definition touch_process (e : RawEvent) : T unit :=
  touch_put (fun m => tm_set_accumulators (buttons_process e (tm_buttons m)) (scroll_process e (tm_scroll m))
    (touch_buttons_process e (tm_touchButtons m)) (tm_protocol m) m) ;;
  (if is_report e then touch_sync (re_when e) else mret tt) ;;
  m ← touch_mapper ;
  p ← checked (protocol_process e (tm_protocol m)) ;
  touch_put (fun m => tm_set_accumulators (tm_buttons m) (tm_scroll m) (tm_touchButtons m) p m).

Definition protocol_reset (k : K) (p : TouchProtocol) : TouchProtocol :=
  let axis a := hub_getAbsoluteAxisValue (ts_deviceId c) a k in
  match p with
  | SingleTouchInput _ => SingleTouchInput (single_reset (fun a => default 0 (axis a)))
  | MultiTouchInput a _ trackingIds => MultiTouchInput (multi_reset (axis ABS_MT_SLOT) a) 0 trackingIds
  end.

Definition sample_clear (s : Sample) : Sample := mkSample (raw_clear (sm_raw s)) (cooked_clear (sm_cooked s)) 0 0 0 0.

Definition touch_reset : T unit :=
  k ← gets (fun w => rc_world (tw_context w)) ;
  touch_put (fun m =>
    mkTouch (buttons_reset (isKeyPressed (ts_deviceId c) k)) (scroll_clear (tm_scroll m))
      (touch_buttons_reset (isKeyPressed (ts_deviceId c) k) (tm_touchButtons m)) (protocol_reset k (tm_protocol m))
      (sample_clear (tm_current m)) (sample_clear (tm_last m)) 0 0 POINTER_USAGE_NONE false 0
      (set_key_down false (mCurrentVirtualKey m)) (pointing_reset (tm_pointing m))).

Definition touch_timeoutExpired (t : Z) : T unit :=
  m ← touch_mapper ;
  match mDeviceMode c, mPointerUsage m with
  | DEVICE_MODE_POINTER, POINTER_USAGE_GESTURES => dispatchPointerGestures t 0 true
  | _, _ => mret tt
  end.

(** [InputDevice::reset] of a device with this mapper. *)
Definition touch_device_reset (t : Z) : T unit := touch_reset ;; touch_notify (NotifyDeviceResetArgs t (ts_deviceId c)).

(** *** Another configuration *)

Definition abortPointerUsage (t policyFlags : Z) : T unit :=
  m ← touch_mapper ;
  match mPointerUsage m with POINTER_USAGE_NONE => mret tt | u => abortPointing t policyFlags u end ;;
  touch_put (tm_set_usage POINTER_USAGE_NONE).

(** The settings with another [mConfig], and those of a device that is inoperable. *)
Definition with_config (fresh : TouchSettings) : TouchSettings :=
  mkSettings (ts_deviceId c) (ts_isExternal c) (mDeviceMode c) (ts_source c) (mRawPointerAxes c) (mCalibration c) (mSurfaceOrientation c)
    (mXScale c) (mYScale c) (mGeometricScale c) (mPressureScale c) (mSizeScale c) (mOrientationCenter c) (mOrientationScale c)
    (mDistanceScale c) (mHaveTilt c) (mTiltXCenter c) (mTiltXScale c) (mTiltYCenter c) (mTiltYScale c) (mOrientedXPrecision c)
    (mOrientedYPrecision c) (mVirtualKeys c) (virtualKeyQuietTime fresh) (showTouches fresh) (ts_hasController c).
Definition with_disabled (fresh : TouchSettings) : TouchSettings :=
  mkSettings (ts_deviceId c) (ts_isExternal c) DEVICE_MODE_DISABLED (ts_source fresh) (mRawPointerAxes c) (mCalibration c)
    (mSurfaceOrientation c) (mXScale c) (mYScale c) (mGeometricScale c) (mPressureScale c) (mSizeScale c) (mOrientationCenter c)
    (mOrientationScale c) (mDistanceScale c) (mHaveTilt c) (mTiltXCenter c) (mTiltXScale c) (mTiltYCenter c) (mTiltYScale c)
    (mOrientedXPrecision c) (mOrientedYPrecision c) (mVirtualKeys c) (virtualKeyQuietTime fresh) (showTouches fresh) (ts_hasController c).

(** [configure] with changes: [surface] is whether they are such that [configureSurface] is called, and [fresh] what it
    works out from the display and the parameters of the device, its mode first.  A device that becomes inoperable, or
    stays so, is left at once.  [deviceModeChanged] has no value unless the mode changes. *)
Definition settings_after (surface : bool) (fresh : TouchSettings) : TouchSettings :=
  if negb surface then with_config fresh
  else if bool_decide (mDeviceMode fresh = DEVICE_MODE_DISABLED) then with_disabled fresh
  else fresh.

Definition touch_reconfigure (surface : bool) (t : Z) (fresh : TouchSettings) : T unit :=
  if negb surface then mret tt
  else if bool_decide (mDeviceMode fresh = DEVICE_MODE_DISABLED) then mret tt
  else if bool_decide (mDeviceMode fresh = mDeviceMode c) then undefined
  else
    abortPointerUsage t 0 ;;
    touch_context (fun r => rc_set_generation (mGeneration r + 1) r) ;;
    touch_notify (NotifyDeviceResetArgs t (ts_deviceId c)).

(** *** Questions *)

Definition touch_keyState (code : Z) (of_current : CurrentVirtualKeyState -> Z) (of_key : VirtualKey -> Z) (m : TouchInputMapper G) : Z :=
  if cv_down (mCurrentVirtualKey m) && (of_current (mCurrentVirtualKey m) =? code) then AKEY_STATE_VIRTUAL
  else if existsb (fun k => of_key k =? code) (mVirtualKeys c) then AKEY_STATE_UP else AKEY_STATE_UNKNOWN.

Definition touch_getKeyCodeState (keyCode : Z) : TouchInputMapper G -> Z := touch_keyState keyCode cv_keyCode vk_keyCode.
Definition touch_getScanCodeState (scanCode : Z) : TouchInputMapper G -> Z := touch_keyState scanCode cv_scanCode vk_scanCode.

Definition touch_markSupportedKeyCodes (keyCodes : list Z) (outFlags : list bool) : list bool :=
  fold_left (fun flags k => zip_with (fun code f => (vk_keyCode k =? code) || f) keyCodes flags) (mVirtualKeys c) outFlags.

End Touch.
