(* ===== verification/TouchGestures.v ===== *)
(** * Touch devices: what their mapper tells

    What a listener can take for granted of a touch device, as a machine that follows what it is told
    ([hear]): pointers go down and up one at a time and move only while they are down, a pointer hovers only
    between entering and leaving and only while none is down, and keys are released as they were pressed.
    [speaks] is a logic for operations of the mapper with the listener's state beside them. *)

From Stdlib Require Import SpecFloat.
From stdpp Require Import numbers.
From S2P Require Import Prelude Geometry Input AndroidEvents InputTransport InputState Dispatcher DispatchTargets DispatchLoop ReaderData InputHub.
From S2P Require Import DispatchMemory TouchData TouchIds TouchMapper.

(** ** The listener *)

(** The pointers that are down, in the order of their identifiers, and since when; whether one hovers; the
    virtual key that is down, with its scan code and since when; the keys of the buttons. *)
Record gesture : Set := mkGesture {
  ge_touching : list Z; ge_downTime : Z; ge_hovering : bool; ge_key : option (Z * Z * Z); ge_back : bool; ge_forward : bool }.

Definition no_gesture : gesture := mkGesture [] 0 false None false false.

Definition ge_set_touching (l : list Z) (t : Z) (g : gesture) : gesture :=
  mkGesture l t (ge_hovering g) (ge_key g) (ge_back g) (ge_forward g).
Definition ge_set_hovering (b : bool) (g : gesture) : gesture :=
  mkGesture (ge_touching g) (ge_downTime g) b (ge_key g) (ge_back g) (ge_forward g).
Definition ge_set_key (k : option (Z * Z * Z)) (g : gesture) : gesture :=
  mkGesture (ge_touching g) (ge_downTime g) (ge_hovering g) k (ge_back g) (ge_forward g).
Definition ge_set_buttons (back forward : bool) (g : gesture) : gesture :=
  mkGesture (ge_touching g) (ge_downTime g) (ge_hovering g) (ge_key g) back forward.

Definition pointer_ids (l : list (PointerProperties * PointerCoords)) : list Z := map (fun p => pp_id (fst p)) l.

(** A motion that is in its place; [None] for one that is not. *)
Definition hear_motion (t : Z) (m : MotionEntry) (g : gesture) : option gesture :=
  let ids := pointer_ids (me_pointers m) in
  let action := Z.land (me_action m) AMOTION_EVENT_ACTION_MASK in
  let index := Z.to_nat (getMotionEventActionPointerIndex (me_action m)) in
  let since := me_downTime m =? ge_downTime g in
  let now (b : bool) g' := if b then Some g' else None in
  let apart := bool_decide (ge_touching g = []) in
  if negb (validateMotionEvent (me_action m) (map fst (me_pointers m))) then None
  else if action =? AMOTION_EVENT_ACTION_DOWN then
    now (apart && negb (ge_hovering g) && bool_decide (length ids = 1%nat) && (me_downTime m =? t)) (ge_set_touching ids t g)
  else if action =? AMOTION_EVENT_ACTION_POINTER_DOWN then
    now (bool_decide (ge_touching g = delete index ids) && bool_decide (1 < length ids)%nat && since) (ge_set_touching ids (ge_downTime g) g)
  else if action =? AMOTION_EVENT_ACTION_MOVE then now (bool_decide (ge_touching g = ids) && since) g
  else if action =? AMOTION_EVENT_ACTION_POINTER_UP then
    now (bool_decide (ge_touching g = ids) && bool_decide (1 < length ids)%nat && since) (ge_set_touching (delete index ids) (ge_downTime g) g)
  else if action =? AMOTION_EVENT_ACTION_UP then
    now (bool_decide (ge_touching g = ids) && bool_decide (length ids = 1%nat) && since) (ge_set_touching [] (ge_downTime g) g)
  else if action =? AMOTION_EVENT_ACTION_HOVER_ENTER then now (apart && negb (ge_hovering g)) (ge_set_hovering true g)
  else if action =? AMOTION_EVENT_ACTION_HOVER_MOVE then now (apart && ge_hovering g) g
  else if action =? AMOTION_EVENT_ACTION_HOVER_EXIT then now (apart && ge_hovering g) (ge_set_hovering false g)
  else None.

(** A virtual key, or the key of a button. *)
Definition hear_key (k : KeyEntry) (g : gesture) : option gesture :=
  let code := (ke_keyCode k, ke_scanCode k, ke_downTime k) in
  let down := ke_action k =? AKEY_EVENT_ACTION_DOWN in
  if has (ke_flags k) AKEY_EVENT_FLAG_VIRTUAL_HARD_KEY then
    if down then if bool_decide (ge_key g = None) then Some (ge_set_key (Some code) g) else None
    else if bool_decide (ge_key g = Some code) then Some (ge_set_key None g) else None
  else if ke_keyCode k =? AKEYCODE_BACK then
    if Bool.eqb (ge_back g) down then None else Some (ge_set_buttons down (ge_forward g) g)
  else if ke_keyCode k =? AKEYCODE_FORWARD then
    if Bool.eqb (ge_forward g) down then None else Some (ge_set_buttons (ge_back g) down g)
  else None.

Section Hear.
Context (device : Z).

Definition hear (args : NotifyArgs) (g : gesture) : option gesture :=
  match args with
  | NotifyMotionArgs t _ m => if me_deviceId m =? device then hear_motion t m g else None
  | NotifyKeyArgs _ _ k => if (ke_deviceId k =? device) && validateKeyEvent (ke_action k) then hear_key k g else None
  | NotifyDeviceResetArgs _ id => if id =? device then Some no_gesture else None
  | _ => None
  end.

Fixpoint hears (l : list NotifyArgs) (g : gesture) : option gesture :=
  match l with [] => Some g | a :: l' => g' ← hear a g ; hears l' g' end.

Lemma hears_app l l' g : hears (l ++ l') g = g' ← hears l g ; hears l' g'.
Proof. revert g. induction l as [|a l IH]; intros g; [done|]. cbn. destruct (hear a g); [apply IH|done]. Qed.

(** ** Operations that are heard *)

Context {K G : Type}.
Abbreviation T := (M (TouchWorld K G)).

Definition queue_of (w : TouchWorld K G) : list NotifyArgs := mArgsQueue (tw_context w).
Definition world_of (w : TouchWorld K G) : K := rc_world (tw_context w).

(** The operation returns; what it tells is in its place for a listener at [g]. *)
Definition speaks {A} (op : T A) (g : gesture) (Q : A -> TouchWorld K G -> gesture -> Prop) (w : TouchWorld K G) : Prop :=
  returns op (fun a w' => exists l g', queue_of w' = queue_of w ++ l /\ world_of w' = world_of w /\ hears l g = Some g' /\ Q a w' g') w.

Lemma speaks_ret {A} (a : A) g (Q : A -> TouchWorld K G -> gesture -> Prop) w : Q a w g -> speaks (mret a) g Q w.
Proof. intros HQ. exists [], g. by rewrite app_nil_r. Qed.

Lemma speaks_bind {A B} (op : T A) (k : A -> T B) g Q w :
  speaks op g (fun a w' g' => speaks (k a) g' Q w') w -> speaks (op ≫= k) g Q w.
Proof.
  intros Ho. apply returns_bind. eapply returns_mono; [exact Ho|]. intros a w' (l & g' & Hq & Hw & Hh & Hk).
  eapply returns_mono; [exact Hk|]. intros b w'' (l' & g'' & Hq' & Hw' & Hh' & HQ). exists (l ++ l'), g''.
  split_and!; [by rewrite Hq', Hq, app_assoc|congruence| |done]. rewrite hears_app, Hh. exact Hh'.
Qed.

Lemma speaks_mono {A} (op : T A) g (Q Q' : A -> TouchWorld K G -> gesture -> Prop) w :
  speaks op g Q w -> (forall a w' g', Q a w' g' -> Q' a w' g') -> speaks op g Q' w.
Proof. intros Ho Hq. eapply returns_mono; [exact Ho|]. intros a w' (l & g' & ? & ? & ? & ?). exists l, g'. auto. Qed.

Lemma speaks_gets {A} (f : TouchWorld K G -> A) g Q w : Q (f w) w g -> speaks (gets f) g Q w.
Proof. intros HQ. exists [], g. by rewrite app_nil_r. Qed.

Lemma speaks_put f g (Q : unit -> TouchWorld K G -> gesture -> Prop) w :
  Q tt (tw_set_mapper (f (tw_mapper w)) w) g -> speaks (touch_put f) g Q w.
Proof. intros HQ. exists [], g. by rewrite app_nil_r. Qed.

Lemma speaks_notify args g g' (Q : unit -> TouchWorld K G -> gesture -> Prop) w :
  hear args g = Some g' -> (forall w', tw_mapper w' = tw_mapper w -> Q tt w' g') -> speaks (touch_notify args) g Q w.
Proof. intros Hh HQ. exists [args], g'. split_and!; [done|done|cbn; by rewrite Hh|by apply HQ]. Qed.

(** A change of the context that says nothing. *)
Lemma speaks_context f g (Q : unit -> TouchWorld K G -> gesture -> Prop) w :
  (forall r, mArgsQueue (f r) = mArgsQueue r /\ rc_world (f r) = rc_world r) ->
  (forall w', tw_mapper w' = tw_mapper w -> Q tt w' g) -> speaks (touch_context f) g Q w.
Proof.
  intros Hf HQ. exists [], g. destruct (Hf (tw_context w)) as [Hq Hk]. rewrite app_nil_r. split_and!; [exact Hq|exact Hk|done|by apply HQ].
Qed.

Lemma speaks_checked {A} (o : option A) a g (Q : A -> TouchWorld K G -> gesture -> Prop) w :
  o = Some a -> Q a w g -> speaks (checked o) g Q w.
Proof. intros -> HQ. exists [], g. by rewrite app_nil_r. Qed.

End Hear.

(** ** Motions in their place *)

Lemma valid_ids_nodup v ids :
  is_u32 v -> NoDup ids -> Forall (fun id => 0 <= id <= 31 /\ hasBit v id = false) ids -> valid_ids v ids = true.
Proof.
  revert v. induction ids as [|id ids IH]; intros v Hv Hd Hf; [done|]. apply NoDup_cons in Hd as [Hn Hd]. apply Forall_cons in Hf as [[Hid Hb] Hf].
  cbn [valid_ids]. unfold MAX_POINTER_ID. rewrite (proj2 (Z.ltb_ge _ _)), (proj2 (Z.ltb_ge _ _)) by lia. cbn. rewrite Hb.
  apply IH; [by apply u32_markBit|done|]. rewrite Forall_forall in Hf |- *. intros x Hx. destruct (Hf x Hx) as [Hx1 Hx2]. split; [done|].
  rewrite hasBit_mark, Hx2, orb_false_r by done. apply Z.eqb_neq. by intros ->.
Qed.

Lemma marked_valid v : is_u32 v -> valid_ids 0 (marked v) = true.
Proof.
  intros Hv. apply valid_ids_nodup; [by split|by apply NoDup_marked|]. apply Forall_forall. by intros id [Hid _]%(elem_of_marked _ _ Hv).
Qed.

(** The action of a pointer that goes down or up, with its index. *)
Definition indexed (action : Z) (k : nat) : Z := Z.lor action (Z.shiftl (Z.of_nat k) AMOTION_EVENT_ACTION_POINTER_INDEX_SHIFT).

Lemma indexed_parts action k :
  (action = AMOTION_EVENT_ACTION_POINTER_DOWN \/ action = AMOTION_EVENT_ACTION_POINTER_UP) -> (k < 16)%nat ->
  Z.land (indexed action k) AMOTION_EVENT_ACTION_MASK = action /\ getMotionEventActionPointerIndex (indexed action k) = Z.of_nat k.
Proof. intros [->| ->] Hk; do 16 (destruct k as [|k]; [by vm_compute|]); lia. Qed.

Lemma filter_twice {A} (P Q : A -> bool) l : List.filter P (List.filter Q l) = List.filter (fun x => Q x && P x) l.
Proof. induction l as [|x l IH]; [done|]. cbn. destruct (Q x); cbn; rewrite IH; done. Qed.

Lemma marked_clear v n : is_u32 v -> 0 <= n <= 31 -> marked (clearBit v n) = List.filter (fun m => negb (n =? m)) (marked v).
Proof.
  intros Hv Hn. rewrite !marked_filter by (done || by apply u32_clearBit). rewrite filter_twice.
  apply List.filter_ext_in. intros m Hm%list_elem_of_In%elem_of_seqZ. rewrite hasBit_clear by lia. apply andb_comm.
Qed.

Lemma filter_delete (l : list Z) k n : NoDup l -> l !! k = Some n -> List.filter (fun m => negb (n =? m)) l = delete k l.
Proof.
  revert k. induction l as [|a l IH]; intros [|k] Hd Hk; simplify_eq/=; apply NoDup_cons in Hd as [Ha Hd].
  - rewrite Z.eqb_refl. cbn. rewrite (List.filter_ext_in _ (fun _ => true)); [apply List.filter_true|].
    intros m Hm%list_elem_of_In. apply negb_true_iff, Z.eqb_neq. by intros ->.
  - rewrite (proj2 (Z.eqb_neq n a)) by (intros ->; apply Ha; by eapply list_elem_of_lookup_2). cbn. f_equal. by apply IH.
Qed.

Lemma delete_marked v n k : is_u32 v -> marked v !! k = Some n -> delete k (marked v) = marked (clearBit v n).
Proof.
  intros Hv Hk. assert (n ∈ marked v) as [Hn _]%(elem_of_marked _ _ Hv) by (by eapply list_elem_of_lookup_2).
  rewrite marked_clear by done. symmetry. apply filter_delete; [by apply NoDup_marked|done].
Qed.

Lemma clear_mark v n : is_u32 v -> 0 <= n <= 31 -> hasBit v n = false -> clearBit (markBit v n) n = v.
Proof.
  intros Hv Hn Hb. apply bits_ext; [by apply u32_clearBit, u32_markBit|done|]. intros m Hm. rewrite hasBit_clear, hasBit_mark by done.
  destruct (Z.eqb_spec n m) as [<-|]; [by rewrite Hb|done].
Qed.

(** Motions of the pointers [ps], which are those of the set [D]. *)
Section Motions.
Context (D : Z) (ps : list (PointerProperties * PointerCoords)).
Context (HD : is_u32 D) (Hps : pointer_ids ps = marked D) (H16 : (length ps <= MAX_POINTERS)%nat).
Context (dev src flags meta bs ef dt : Z) (xp yp : float).

Definition motion (a : Z) : MotionEntry := mkMotionEntry dev src a flags meta bs ef xp yp dt ps.

Lemma ps_length : length ps = length (marked D).
Proof. rewrite <- Hps. unfold pointer_ids. by rewrite length_map. Qed.

Lemma motion_valid a : isValidMotionAction a (length ps) = true -> marked D <> [] -> validateMotionEvent a (map fst ps) = true.
Proof.
  intros Ha Hne. unfold validateMotionEvent. rewrite length_map, Ha. cbn [negb]. pose proof ps_length as Hl.
  destruct (length ps) as [|n] eqn:E; [by destruct (marked D)|]. unfold MAX_POINTERS in *.
  rewrite (proj2 (Nat.ltb_ge _ _)), (proj2 (Nat.ltb_ge _ _)) by lia. cbn [orb]. rewrite map_map. fold (pointer_ids ps). rewrite Hps. by apply marked_valid.
Qed.

Lemma touch_move_heard t g :
  ge_touching g = marked D -> marked D <> [] -> ge_downTime g = dt -> hear_motion t (motion AMOTION_EVENT_ACTION_MOVE) g = Some g.
Proof.
  intros Hg Hne Hd. unfold hear_motion. cbn [me_action me_pointers me_downTime motion]. rewrite motion_valid by done. rewrite Hps, Hg, Hd, Z.eqb_refl.
  by rewrite (bool_decide_eq_true_2 (marked D = marked D)).
Qed.

Lemma touch_hover_heard t g a b b' :
  ge_touching g = [] -> marked D <> [] -> ge_hovering g = b ->
  (a, b, b') ∈ [(AMOTION_EVENT_ACTION_HOVER_ENTER, false, true); (AMOTION_EVENT_ACTION_HOVER_MOVE, true, true);
                (AMOTION_EVENT_ACTION_HOVER_EXIT, true, false)] ->
  hear_motion t (motion a) g = Some (ge_set_hovering b' g).
Proof.
  intros Hg Hne Hb Ha. assert (isValidMotionAction a (length ps) = true) as Hv.
  { rewrite !elem_of_cons, elem_of_nil in Ha. by destruct Ha as [[= -> -> ->]|[[= -> -> ->]|[[= -> -> ->]|[]]]]. }
  unfold hear_motion. cbn [me_action me_pointers me_downTime motion]. rewrite motion_valid, Hg, Hb by done. rewrite !(bool_decide_eq_true_2 ([] = [])) by done.
  rewrite !elem_of_cons, elem_of_nil in Ha. destruct Ha as [[= -> -> ->]|[[= -> -> ->]|[[= -> -> ->]|[]]]]; cbn; try done. by destruct g; simplify_eq/=.
Qed.

(** With the index of the pointer that goes. *)
Lemma indexed_valid a k :
  (a = AMOTION_EVENT_ACTION_POINTER_DOWN \/ a = AMOTION_EVENT_ACTION_POINTER_UP) -> (k < length ps)%nat ->
  isValidMotionAction (indexed a k) (length ps) = true.
Proof.
  intros Ha Hk. unfold MAX_POINTERS in H16. destruct (indexed_parts a k Ha ltac:(lia)) as [Hm Hi]. unfold isValidMotionAction. rewrite Hm, Hi.
  destruct Ha as [->| ->]; cbn; rewrite (proj2 (Z.leb_le 0 _)), (proj2 (Z.ltb_lt _ _)) by lia; done.
Qed.

Lemma final_many id a k : 0 <= id -> length ps <> 1%nat -> final_action id (indexed a k) (length ps) = Some (indexed a k).
Proof. intros Hid Hl. unfold final_action. by rewrite (proj2 (Z.leb_le _ _)), (proj2 (Nat.eqb_neq _ _)) by done. Qed.

Lemma touch_up_heard t g k id :
  ge_touching g = marked D -> ge_downTime g = dt -> marked D !! k = Some id ->
  exists a, final_action id (indexed AMOTION_EVENT_ACTION_POINTER_UP k) (length ps) = Some a /\
    hear_motion t (motion a) g = Some (ge_set_touching (marked (clearBit D id)) dt g).
Proof.
  intros Hg Hd Hk. assert (id ∈ marked D) as [Hid Hb]%(elem_of_marked _ _ HD) by (by eapply list_elem_of_lookup_2).
  assert (marked D <> []) as Hne by (intros E; by rewrite E in Hk). pose proof ps_length as Hl.
  assert (k < length ps)%nat as Hlt by (rewrite Hl; by eapply lookup_lt_Some). pose proof (delete_marked D id k HD Hk) as Hdel.
  unfold MAX_POINTERS in *. destruct (decide (length ps = 1%nat)) as [E|E].
  - exists AMOTION_EVENT_ACTION_UP. assert (k = 0)%nat as -> by lia. rewrite E. unfold final_action. rewrite (proj2 (Z.leb_le _ _)) by lia. split; [done|].
    unfold hear_motion. cbn [me_action me_pointers me_downTime motion]. rewrite motion_valid by done. cbn [negb]. cbn [Z.eqb Z.land]. rewrite Hps, Hg, Hd, Z.eqb_refl.
    rewrite (bool_decide_eq_true_2 (length (marked D) = 1%nat)) by lia.
    rewrite (bool_decide_eq_true_2 (marked D = marked D)) by done. rewrite <- Hdel.
    destruct (marked D) as [|x [|? ?]]; [done|done|cbn in Hl; lia].
  - exists (indexed AMOTION_EVENT_ACTION_POINTER_UP k). split; [apply final_many; [lia|done]|].
    destruct (indexed_parts AMOTION_EVENT_ACTION_POINTER_UP k ltac:(auto) ltac:(lia)) as [Hm Hi].
    unfold hear_motion. cbn [me_action me_pointers me_downTime motion]. rewrite motion_valid by (done || apply indexed_valid; auto). cbn [negb].
    rewrite Hm, Hi, Nat2Z.id. cbn [Z.eqb]. rewrite Hps, Hg, Hd, Z.eqb_refl, Hdel. rewrite (bool_decide_eq_true_2 (1 < length (marked D))%nat) by lia.
    by rewrite (bool_decide_eq_true_2 (marked D = marked D)).
Qed.

Lemma touch_down_heard t g k id :
  marked D !! k = Some id -> ge_touching g = marked (clearBit D id) ->
  (if decide (length ps = 1%nat) then dt = t /\ ge_hovering g = false else ge_downTime g = dt) ->
  exists a, final_action id (indexed AMOTION_EVENT_ACTION_POINTER_DOWN k) (length ps) = Some a /\
    hear_motion t (motion a) g = Some (ge_set_touching (marked D) dt g).
Proof.
  intros Hk Hg Hd. assert (id ∈ marked D) as [Hid Hb]%(elem_of_marked _ _ HD) by (by eapply list_elem_of_lookup_2).
  assert (marked D <> []) as Hne by (intros E; by rewrite E in Hk). pose proof ps_length as Hl.
  assert (k < length ps)%nat as Hlt by (rewrite Hl; by eapply lookup_lt_Some). pose proof (delete_marked D id k HD Hk) as Hdel.
  unfold MAX_POINTERS in *. case_decide as E.
  - destruct Hd as [Hdt Hh]. exists AMOTION_EVENT_ACTION_DOWN. assert (k = 0)%nat as -> by lia. rewrite E. unfold final_action. rewrite (proj2 (Z.leb_le _ _)) by lia. split; [done|].
    unfold hear_motion. cbn [me_action me_pointers me_downTime motion]. rewrite motion_valid by done. cbn [negb]. cbn [Z.eqb Z.land].
    rewrite Hps, Hh, Hdt. rewrite (bool_decide_eq_true_2 (length (marked D) = 1%nat)) by lia. rewrite (bool_decide_eq_true_2 (ge_touching g = [])); [cbn [andb negb]; by rewrite (Z.eqb_refl t)|].
    rewrite Hg, <- Hdel. destruct (marked D) as [|x [|? ?]]; [done|done|cbn in Hl; lia].
  - exists (indexed AMOTION_EVENT_ACTION_POINTER_DOWN k). split; [apply final_many; [lia|done]|].
    destruct (indexed_parts AMOTION_EVENT_ACTION_POINTER_DOWN k ltac:(auto) ltac:(lia)) as [Hm Hi].
    unfold hear_motion. cbn [me_action me_pointers me_downTime motion]. rewrite motion_valid by (done || apply indexed_valid; auto). cbn [negb].
    rewrite Hm, Hi, Nat2Z.id. cbn [Z.eqb]. rewrite Hps, Hd, Z.eqb_refl, Hdel. rewrite (bool_decide_eq_true_2 (1 < length (marked D))%nat) by lia.
    by rewrite (bool_decide_eq_true_2 (ge_touching g = marked (clearBit D id))), (Z.eqb_refl dt).
Qed.

End Motions.
