(* ===== verification/TouchStream.v ===== *)
(** * Touch devices: motions of a sample

    Cooked pointers can be found ([has_pointers], [cooked_ok]), so that the motions the mapper makes of them
    are in their place for the listener of [TouchGestures]: moves, hovering, and pointers that go up or down
    one after the other. *)

From Stdlib Require Import SpecFloat.
From stdpp Require Import numbers.
From S2P Require Import Prelude Geometry Input AndroidEvents InputTransport InputState Dispatcher DispatchTargets DispatchLoop ReaderData InputHub.
From S2P Require Import DispatchMemory TouchData TouchIds TouchMatching TouchMapper TouchGestures.

(** ** Pointers that can be found *)

(** The pointers of the set [D] are where the index says. *)
Definition has_pointers (d : CookedPointerData) (D : Z) : Prop :=
  is_u32 D /\ (length (marked D) <= MAX_POINTERS)%nat /\
  forall id, id ∈ marked D -> exists j, ck_idToIndex d !! id = Some j /\ pointer_ids (ck_pointers d) !! j = Some id.

Lemma has_pointers_sub d D D' :
  has_pointers d D -> is_u32 D' -> (forall id, 0 <= id <= 31 -> hasBit D' id = true -> hasBit D id = true) -> has_pointers d D'.
Proof.
  intros (Hu & Hl & Hf) Hu' Hs. assert (forall id, id ∈ marked D' -> id ∈ marked D) as Hin.
  { intros id [Hid Hb]%(elem_of_marked _ _ Hu'). apply elem_of_marked; auto. }
  split_and!; [done| |auto]. etrans; [|exact Hl]. apply submseteq_length, NoDup_submseteq; [by apply NoDup_marked|done].
Qed.

Lemma elem_not_nil {A} (x : A) l : x ∈ l -> l <> [].
Proof. intros Hx ->. by apply elem_of_nil in Hx. Qed.

Lemma lookup_ids (l : list (PointerProperties * PointerCoords)) j id :
  pointer_ids l !! j = Some id -> exists p, l !! j = Some p /\ pp_id (fst p) = id.
Proof. unfold pointer_ids. intros (p & -> & Hp)%list_lookup_fmap_Some. eauto. Qed.

Lemma gather_spec pointers index changed ids out action :
  (forall id, id ∈ ids -> exists j, index !! id = Some j /\ pointer_ids pointers !! j = Some id) -> NoDup ids ->
  (length out + length ids <= MAX_POINTERS)%nat ->
  exists ps a, gather pointers index changed ids out action = Some (out ++ ps, a) /\ pointer_ids ps = ids /\
    (changed < 0 \/ changed ∉ ids -> a = action) /\
    (forall k, 0 <= changed -> ids !! k = Some changed -> a = indexed action (length out + k)).
Proof.
  revert out action. induction ids as [|id ids IH]; intros out action Hf Hd Hl; cbn [gather].
  { exists [], action. by rewrite app_nil_r. }
  apply NoDup_cons in Hd as [Hn Hd]. destruct (Hf id ltac:(set_solver)) as (j & -> & (p & Hp & Hid)%lookup_ids). cbn [mbind option_bind]. rewrite Hp. cbn [mbind option_bind].
  cbn in Hl. rewrite (proj2 (Nat.leb_gt _ _)) by lia.
  destruct (IH (out ++ [p]) (if (0 <=? changed) && (id =? changed) then indexed action (length out) else action)) as (ps & a & Hg & Hps & H1 & H2);
    [set_solver|done|rewrite length_app; cbn; lia|].
  exists (p :: ps), a. split_and!; [unfold indexed in Hg; rewrite Hg, <- app_assoc; done|change (pp_id (fst p) :: pointer_ids ps = id :: ids); by rewrite Hid, Hps| |].
  - intros Hc. rewrite H1; [|set_solver]. destruct (Z.leb_spec 0 changed), (Z.eqb_spec id changed); cbn; try done. exfalso.
    destruct Hc as [?|Hc]; [lia|]. apply Hc. subst. by left.
  - intros k Hc Hk. rewrite (proj2 (Z.leb_le _ _)) in H1, H2 by done. destruct k as [|k]; cbn in Hk.
    + injection Hk as ->. rewrite Z.eqb_refl in H1. rewrite H1 by auto. cbn. by rewrite Nat.add_0_r.
    + rewrite (H2 k Hc Hk). rewrite (proj2 (Z.eqb_neq id changed)); [cbn; f_equal; rewrite length_app; cbn; lia|].
      intros ->. apply Hn. by eapply list_elem_of_lookup_2.
Qed.

(** ** Motions *)

Section Motions.
Context {K G : Type} `{EventHub K} `{AbsoluteAxes K} `{PointerTranslation K G} `{Libm}.
Context (c : TouchSettings).

Abbreviation speaks := (speaks (K:=K) (G:=G) (ts_deviceId c)).

Lemma dispatch_speaks t pf action meta bs ef d D changed g g' w :
  has_pointers d D -> marked D <> [] ->
  (forall ps a, pointer_ids ps = marked D -> (length ps <= MAX_POINTERS)%nat -> (changed < 0 -> a = action) ->
     (forall k, 0 <= changed -> marked D !! k = Some changed -> a = indexed action k) ->
     exists a', final_action changed a (length ps) = Some a' /\
       hear_motion t (motion ps (ts_deviceId c) (ts_source c) 0 meta bs ef (tm_downTime (tw_mapper w)) (mOrientedXPrecision c) (mOrientedYPrecision c) a') g = Some g') ->
  speaks (dispatch_cooked c t pf action meta bs ef d D changed) g (fun _ w' g'' => tw_mapper w' = tw_mapper w /\ g'' = g') w.
Proof.
  intros (HD & Hl & Hf) Hne Hh. unfold dispatch_cooked. apply speaks_bind, speaks_gets. unfold dispatchMotion. apply speaks_bind.
  destruct (gather_spec (ck_pointers d) (ck_idToIndex d) changed (marked D) [] action Hf (NoDup_marked D HD) Hl) as (ps & a & Hg & Hps & A1 & A2).
  eapply speaks_checked; [exact Hg|]. cbn [app]. assert (length ps = length (marked D)) as Hlen by (rewrite <- Hps; symmetry; apply length_map).
  assert (length ps <> 0)%nat as Hn0 by (rewrite Hlen; by destruct (marked D)). rewrite (proj2 (Nat.eqb_neq _ _)) by done.
  destruct (Hh ps a Hps ltac:(lia) ltac:(auto) A2) as (a' & Ha & Hm). apply speaks_bind. eapply speaks_checked; [exact Ha|].
  eapply speaks_notify; [|intros w' Hw; split; [exact Hw|reflexivity]]. cbn. rewrite Z.eqb_refl. exact Hm.
Qed.

(** No pointer goes. *)
Lemma dispatch_plain t pf action meta bs ef d D g g' w :
  has_pointers d D -> marked D <> [] ->
  (forall ps, pointer_ids ps = marked D -> (length ps <= MAX_POINTERS)%nat ->
     hear_motion t (motion ps (ts_deviceId c) (ts_source c) 0 meta bs ef (tm_downTime (tw_mapper w)) (mOrientedXPrecision c) (mOrientedYPrecision c) action) g = Some g') ->
  speaks (dispatch_cooked c t pf action meta bs ef d D (-1)) g (fun _ w' g'' => tw_mapper w' = tw_mapper w /\ g'' = g') w.
Proof.
  intros Hd Hne Hh. apply dispatch_speaks; [done..|]. intros ps a Hps Hl A1 _. exists action. rewrite A1 by lia. split; [done|]. by apply Hh.
Qed.

Lemma move_speaks t pf meta bs ef d D g w :
  has_pointers d D -> marked D <> [] -> ge_touching g = marked D -> ge_downTime g = tm_downTime (tw_mapper w) ->
  speaks (dispatch_cooked c t pf AMOTION_EVENT_ACTION_MOVE meta bs ef d D (-1)) g (fun _ w' g' => tw_mapper w' = tw_mapper w /\ g' = g) w.
Proof. intros Hd Hne Hg Ht. apply dispatch_plain; [done..|]. intros ps Hps Hl. apply (touch_move_heard D ps (proj1 Hd)); done. Qed.

Lemma hover_speaks t pf meta bs d D g a b b' w :
  has_pointers d D -> marked D <> [] -> ge_touching g = [] -> ge_hovering g = b ->
  (a, b, b') ∈ [(AMOTION_EVENT_ACTION_HOVER_ENTER, false, true); (AMOTION_EVENT_ACTION_HOVER_MOVE, true, true);
                (AMOTION_EVENT_ACTION_HOVER_EXIT, true, false)] ->
  speaks (dispatch_cooked c t pf a meta bs 0 d D (-1)) g (fun _ w' g' => tw_mapper w' = tw_mapper w /\ g' = ge_set_hovering b' g) w.
Proof. intros Hd Hne Hg Hb Ha. apply dispatch_plain; [done..|]. intros ps Hps Hl. by apply (touch_hover_heard D ps (proj1 Hd) Hps Hl) with b. Qed.

Lemma up_speaks t pf meta bs d D id g w :
  has_pointers d D -> 0 <= id <= 31 -> hasBit D id = true -> ge_touching g = marked D -> ge_downTime g = tm_downTime (tw_mapper w) ->
  speaks (dispatch_cooked c t pf AMOTION_EVENT_ACTION_POINTER_UP meta bs 0 d D id) g
    (fun _ w' g' => tw_mapper w' = tw_mapper w /\ g' = ge_set_touching (marked (clearBit D id)) (ge_downTime g) g) w.
Proof.
  intros Hd Hid Hb Hg Ht. assert (id ∈ marked D) as Hin by (by apply elem_of_marked; [apply Hd|]). apply dispatch_speaks; [done|by eapply elem_not_nil|].
  intros ps a Hps Hl _ A2. apply list_elem_of_lookup in Hin as [k Hk]. rewrite (A2 k ltac:(lia) Hk), Ht. by apply (touch_up_heard D ps (proj1 Hd)).
Qed.

Lemma down_speaks t pf meta bs d D id g w :
  is_u32 D -> has_pointers d (markBit D id) -> 0 <= id <= 31 -> hasBit D id = false -> ge_touching g = marked D ->
  (if decide (D = 0) then tm_downTime (tw_mapper w) = t /\ ge_hovering g = false else ge_downTime g = tm_downTime (tw_mapper w)) ->
  speaks (dispatch_cooked c t pf AMOTION_EVENT_ACTION_POINTER_DOWN meta bs 0 d (markBit D id) id) g
    (fun _ w' g' => tw_mapper w' = tw_mapper w /\ g' = ge_set_touching (marked (markBit D id)) (tm_downTime (tw_mapper w)) g) w.
Proof.
  intros Hu Hd Hid Hb Hg Ht. assert (hasBit (markBit D id) id = true) as Hb' by (rewrite hasBit_mark, Z.eqb_refl by done; done).
  assert (id ∈ marked (markBit D id)) as Hin by (by apply elem_of_marked; [apply Hd|]). apply dispatch_speaks; [done|by eapply elem_not_nil|].
  intros ps a Hps Hl _ A2. apply list_elem_of_lookup in Hin as [k Hk]. rewrite (A2 k ltac:(lia) Hk).
  apply (touch_down_heard _ ps (proj1 Hd) Hps Hl); [done|by rewrite clear_mark|].
  assert (length ps = S (length (marked D))) as Hlen.
  { rewrite <- (length_map (fun p => pp_id (fst p)) ps). fold (pointer_ids ps). rewrite Hps, (Permutation_length (marked_mark D id Hu Hid Hb)). exact eq_refl. }
  destruct (decide (D = 0)) as [HD|Hne]; case_decide as E; [exact Ht| | |exact Ht].
  - exfalso. apply E. rewrite Hlen, HD. exact eq_refl.
  - exfalso. apply Hne, (marked_nil D Hu). destruct (marked D); [done|]. cbn in Hlen. lia.
Qed.

End Motions.

(** ** Cooked data *)

Record cooked_ok (d : CookedPointerData) : Prop := {
  co_few : (length (ck_pointers d) <= MAX_POINTERS)%nat;
  co_bits : is_u32 (ck_touchingIdBits d) /\ is_u32 (ck_hoveringIdBits d);
  co_index : forall id, id ∈ pointer_ids (ck_pointers d) ->
    0 <= id <= 31 /\ exists j, ck_idToIndex d !! id = Some j /\ pointer_ids (ck_pointers d) !! j = Some id;
  co_marked : forall id, 0 <= id <= 31 -> hasBit (ck_touchingIdBits d) id = true \/ hasBit (ck_hoveringIdBits d) id = true ->
    id ∈ pointer_ids (ck_pointers d);
}.

Lemma ok_has_pointers d D :
  cooked_ok d -> is_u32 D ->
  (forall id, 0 <= id <= 31 -> hasBit D id = true -> hasBit (ck_touchingIdBits d) id = true \/ hasBit (ck_hoveringIdBits d) id = true) ->
  has_pointers d D.
Proof.
  intros [Hc _ Hi Hm] HD Hs. assert (forall id, id ∈ marked D -> id ∈ pointer_ids (ck_pointers d)) as Hin.
  { intros id [Hid Hb]%(elem_of_marked _ _ HD). by apply Hm, Hs. }
  split_and!; [done| |intros id Hid; by apply Hi, Hin]. etrans; [apply submseteq_length, NoDup_submseteq; [by apply NoDup_marked|exact Hin]|].
  unfold pointer_ids. by rewrite length_map.
Qed.

Lemma touching_pointers d : cooked_ok d -> has_pointers d (ck_touchingIdBits d).
Proof. intros Hd. apply ok_has_pointers; [done|apply Hd|auto]. Qed.

Lemma hovering_pointers d : cooked_ok d -> has_pointers d (ck_hoveringIdBits d).
Proof. intros Hd. apply ok_has_pointers; [done|apply Hd|auto]. Qed.

Lemma moved_spec pointers inIndex outIndex ids out changed :
  (forall id, id ∈ ids -> exists i, inIndex !! id = Some i /\ pointer_ids pointers !! i = Some id) ->
  (forall id, id ∈ ids -> exists j, outIndex !! id = Some j /\ pointer_ids out !! j = Some id) ->
  exists out' changed', moved_pointers pointers inIndex outIndex ids out changed = Some (out', changed') /\ pointer_ids out' = pointer_ids out /\
    (ids = [] -> changed' = changed).
Proof.
  revert out changed. induction ids as [|id ids IH]; intros out changed Hi Ho; cbn [moved_pointers]; [by eexists _, _|].
  destruct (Hi id) as (i & -> & (p & Hp & Ep)%lookup_ids); [by left|]. destruct (Ho id) as (j & -> & Hj); [by left|].
  cbn [mbind option_bind]. rewrite Hp. cbn [mbind option_bind]. pose proof (lookup_ids _ _ _ Hj) as (q & Hq & Eq). rewrite Hq. cbn [mbind option_bind].
  set (x := (_, _)). assert (pp_id (fst x) = id) as Ex by (unfold x; cbn; by case_bool_decide).
  assert (pointer_ids (<[ j := x ]> out) = pointer_ids out) as Eo.
  { unfold pointer_ids in *. rewrite (list_fmap_insert (fun p => pp_id (fst p))). rewrite Ex. by apply list_insert_id. }
  destruct (IH (<[ j := x ]> out) (changed || negb (bool_decide (p.1 = q.1)) || negb (coords_eqb p.2 q.2))) as (out' & ch & Hm & He & _).
  - intros id' Hid'. apply Hi. by right.
  - intros id' Hid'. rewrite Eo. apply Ho. by right.
  - exists out', ch. split_and!; [exact Hm|congruence|done].
Qed.

(** ** The touches of a report *)

(** The report changes the buttons, and no pointer that was down stays down, though some go down or up. *)
Definition jolted {G} (m : TouchInputMapper G) : bool :=
  let cur := ck_touchingIdBits (sm_cooked (tm_current m)) in
  let last := ck_touchingIdBits (sm_cooked (tm_last m)) in
  negb (cur =? last) && (Z.land last cur =? 0) && negb (sm_buttonState (tm_current m) =? sm_buttonState (tm_last m)).

(** What the dispatch of a report leaves alone, with whether [HOVER_ENTER] has been sent. *)
Definition frame {G} (sent : bool) (m m' : TouchInputMapper G) : Prop :=
  tm_current m' = tm_current m /\ sm_buttonState (tm_last m') = sm_buttonState (tm_last m) /\ tm_protocol m' = tm_protocol m /\
  mCurrentVirtualKey m' = mCurrentVirtualKey m /\ mSentHoverEnter m' = sent.

Section Touches.
Context {K G : Type} `{EventHub K} `{AbsoluteAxes K} `{PointerTranslation K G} `{Libm}.
Context (c : TouchSettings).

Abbreviation speaks := (speaks (K:=K) (G:=G) (ts_deviceId c)).

Lemma ups_speak t pf meta bs ups D g w :
  has_pointers (sm_cooked (tm_last (tw_mapper w))) D -> NoDup ups -> Forall (fun id => 0 <= id <= 31 /\ hasBit D id = true) ups ->
  ge_touching g = marked D -> (ups <> [] -> ge_downTime g = tm_downTime (tw_mapper w)) ->
  speaks (dispatch_ups c t pf meta bs ups D) g (fun D' w' g' =>
    tw_mapper w' = tw_mapper w /\ is_u32 D' /\ (forall id, 0 <= id <= 31 -> hasBit D' id = hasBit D id && negb (bool_decide (id ∈ ups))) /\
    g' = ge_set_touching (marked D') (ge_downTime g) g) w.
Proof.
  revert D g w. induction ups as [|id ups IH]; intros D g w Hd Hn Hf Hg Ht; cbn [dispatch_ups].
  { apply speaks_ret. split_and!; [done|apply Hd|intros id Hid; by rewrite andb_true_r|rewrite <- Hg; by destruct g]. }
  apply NoDup_cons in Hn as [Hni Hn]. apply Forall_cons in Hf as [[Hid Hb] Hf]. apply speaks_bind, speaks_gets, speaks_bind.
  eapply speaks_mono; [apply (up_speaks c t pf meta bs (sm_cooked (tm_last (tw_mapper w))) D id g w); [done..|]; by apply Ht|].
  intros [] w1 g1 [Hw ->]. assert (is_u32 (clearBit D id)) as Hu by apply u32_clearBit, Hd.
  eapply speaks_mono; [apply (IH (clearBit D id))|].
  - rewrite Hw. eapply has_pointers_sub; [exact Hd|done|]. intros x Hx Hxb. rewrite hasBit_clear in Hxb by done. by apply andb_true_iff in Hxb as [_ ?].
  - done.
  - rewrite Forall_forall in Hf |- *. intros x Hx. destruct (Hf x Hx) as [Hxr Hxb]. split; [done|]. rewrite hasBit_clear, Hxb by done.
    rewrite (proj2 (Z.eqb_neq id x)); [done|]. by intros ->.
  - done.
  - intros _. rewrite Hw. cbn. by apply Ht.
  - intros D' w' g' (Hw' & Hu' & Hb' & ->). split_and!; [congruence|done| |done]. intros x Hx. rewrite Hb', hasBit_clear by done.
    destruct (Z.eqb_spec id x) as [<-|Hne]; cbn.
    + rewrite (bool_decide_eq_true_2 (id ∈ id :: ups)) by (by left). by rewrite andb_false_r.
    + f_equal. f_equal. apply bool_decide_ext. rewrite elem_of_cons. split; [auto|]. intros [->|]; done.
Qed.

Lemma downs_speak t pf meta bs downs D g w :
  let cur := sm_cooked (tm_current (tw_mapper w)) in
  is_u32 D -> cooked_ok cur -> (forall id, 0 <= id <= 31 -> hasBit D id = true -> hasBit (ck_touchingIdBits cur) id = true) ->
  NoDup downs -> Forall (fun id => 0 <= id <= 31 /\ hasBit D id = false /\ hasBit (ck_touchingIdBits cur) id = true) downs ->
  ge_touching g = marked D -> (D <> 0 -> ge_downTime g = tm_downTime (tw_mapper w)) -> (downs <> [] -> ge_hovering g = false) ->
  speaks (dispatch_downs c t pf meta bs downs D) g (fun _ w' g' => exists D' t',
    is_u32 D' /\ (forall id, 0 <= id <= 31 -> hasBit D' id = hasBit D id || bool_decide (id ∈ downs)) /\
    frame (mSentHoverEnter (tw_mapper w)) (tw_mapper w) (tw_mapper w') /\ g' = ge_set_touching (marked D') t' g /\
    (D' <> 0 -> t' = tm_downTime (tw_mapper w'))) w.
Proof.
  revert D g w. induction downs as [|id downs IH]; intros D g w cur Hu Hc Hs Hn Hf Hg Ht Hh; cbn [dispatch_downs].
  { apply speaks_ret. exists D, (ge_downTime g). split_and!; try done; [intros id Hid; by rewrite orb_false_r|rewrite <- Hg; by destruct g]. }
  apply NoDup_cons in Hn as [Hni Hn]. apply Forall_cons in Hf as [(Hid & Hb & Hbc) Hf].
  assert (is_u32 (markBit D id)) as Hu' by (by apply u32_markBit).
  assert (forall x, 0 <= x <= 31 -> hasBit (markBit D id) x = true -> hasBit (ck_touchingIdBits cur) x = true) as Hs'.
  { intros x Hx. rewrite hasBit_mark by done. destruct (Z.eqb_spec id x) as [<-|]; [done|]. by apply Hs. }
  set (w1 := if bit_count (markBit D id) =? 1 then tw_set_mapper (tm_set_downTime t (tw_mapper w)) w else w).
  assert ((bit_count (markBit D id) =? 1) = bool_decide (D = 0)) as Ebc.
  { unfold bit_count. rewrite popcount_mark by done. rewrite popcount_marked by done. pose proof (marked_nil D Hu) as Hnil.
    destruct (marked D) eqn:E; cbn [length]; [rewrite bool_decide_eq_true_2; [done|by apply Hnil]|].
    rewrite bool_decide_eq_false_2; [|intros ?%Hnil; done]. apply Z.eqb_neq. lia. }
  apply speaks_bind. eapply (speaks_mono _ _ _ (fun _ w' g' => w' = w1 /\ g' = g)).
  { unfold w1. destruct (bit_count (markBit D id) =? 1); [by apply speaks_put|by apply speaks_ret]. }
  intros [] ? ? [-> ->]. apply speaks_bind, speaks_gets, speaks_bind.
  assert (sm_cooked (tm_current (tw_mapper w1)) = cur) as Ecur by (unfold w1; by destruct (bit_count (markBit D id) =? 1)). rewrite Ecur.
  assert (frame (mSentHoverEnter (tw_mapper w)) (tw_mapper w) (tw_mapper w1)) as Hfr by (unfold w1; by destruct (bit_count (markBit D id) =? 1)).
  eapply speaks_mono; [apply (down_speaks c t pf meta bs cur D id g w1 Hu)|]; try done.
  { apply ok_has_pointers; auto. }
  { unfold w1. rewrite Ebc. case_decide as E; [rewrite bool_decide_eq_true_2 by done|rewrite bool_decide_eq_false_2 by done]; [|by apply Ht].
    split; [done|by apply Hh]. }
  intros [] w2 g2 [Hw2 ->]. assert (frame (mSentHoverEnter (tw_mapper w)) (tw_mapper w) (tw_mapper w2)) as Hf2 by (rewrite Hw2; exact Hfr).
  assert (sm_cooked (tm_current (tw_mapper w2)) = cur) as E2 by (rewrite Hw2; exact Ecur).
  eapply speaks_mono; [apply (IH (markBit D id)); rewrite ?E2; try done|].
  - rewrite Forall_forall in Hf |- *. intros x Hx. destruct (Hf x Hx) as (Hxr & Hxb & Hxc). split; [done|]. split; [|done]. rewrite hasBit_mark, Hxb by done.
    rewrite (proj2 (Z.eqb_neq id x)); [done|]. by intros ->.
  - intros _. rewrite Hw2. done.
  - intros _. by apply Hh.
  - intros [] w3 g3 (D' & t' & Hu3 & Hb3 & Hf3 & -> & Ht3). exists D', t'. split_and!; [done| | |done|done].
    + intros x Hx. rewrite Hb3, hasBit_mark by done. destruct (Z.eqb_spec id x) as [<-|Hne]; cbn.
      * rewrite (bool_decide_eq_true_2 (id ∈ id :: downs)) by (by left). by rewrite orb_true_r.
      * f_equal. apply bool_decide_ext. rewrite elem_of_cons. split; [auto|]. intros [->|]; done.
    + destruct Hf2 as (? & ? & ? & ? & E6), Hf3 as (? & ? & ? & ? & E7). split_and!; congruence.
Qed.

End Touches.
