(* ===== verification/TouchSamples.v ===== *)
(** * Touch devices: the samples of a report

    What the accumulators of a touch mapper give for a report is well formed ([syncTouch_spec]), can be cooked
    ([cook_spec]) and can be kept as the last sample ([raw_copy_spec], [cooked_copy_spec]). *)

From Stdlib Require Import SpecFloat.
From stdpp Require Import numbers.
From S2P Require Import Prelude Geometry Input AndroidEvents InputTransport InputState Dispatcher DispatchTargets DispatchLoop ReaderData InputHub.
From S2P Require Import DispatchMemory TouchData TouchIds TouchMatching TouchMapper TouchGestures TouchStream.

#[local] Opaque marked hasBit.

(** ** The accumulators *)

Definition slot_placed (s : Slot) : Prop := coordinate (mAbsMTPositionX s) /\ coordinate (mAbsMTPositionY s).

(** Every identifier in use has a tracking identifier. *)
Definition tracked (idBits : Z) (trackingIds : gmap Z Z) : Prop :=
  is_u32 idBits /\ forall id, id ∈ marked idBits -> is_Some (trackingIds !! id).

Definition protocol_ok (p : TouchProtocol) : Prop :=
  match p with
  | SingleTouchInput a => coordinate (mAbsX a) /\ coordinate (mAbsY a)
  | MultiTouchInput a idBits trackingIds => Forall slot_placed (mSlots a) /\ tracked idBits trackingIds
  end.

(** The slot that events are for is not beyond [n]. *)
Definition slot_within (n : Z) (p : TouchProtocol) : Prop := match p with SingleTouchInput _ => True | MultiTouchInput a _ _ => mCurrentSlot a <= n end.

Lemma clear_placed l : Forall slot_placed (map (fun _ : Slot => slot_clear) l).
Proof. induction l; constructor; [|done]. unfold slot_placed, coordinate. cbn. lia. Qed.

(** *** The slots *)

Lemma find_tracked_spec trackingIds t ids found :
  (forall id, id ∈ ids -> is_Some (trackingIds !! id)) -> exists r, find_tracked trackingIds t ids found = Some r /\ (r = found \/ r ∈ ids).
Proof.
  revert found. induction ids as [|n ids IH]; intros found Hs; cbn [find_tracked]; [by exists found; auto|].
  destruct (Hs n) as [x ->]; [by left|]. cbn [mbind option_bind]. destruct (IH (if x =? t then n else found)) as (r & -> & Hr); [intros id Hid; apply Hs; by right|].
  exists r. split; [done|]. destruct (x =? t), Hr as [->|Hr]; auto; right; by (left || right).
Qed.

Lemma not_full v : is_u32 v -> isFull v = false -> exists n, 0 <= n <= 31 /\ hasBit v n = false.
Proof.
  intros Hv Hf. destruct (decide (Forall (fun n => hasBit v n = true) (seqZ 0 32))) as [Ha|Ha].
  - exfalso. apply Z.eqb_neq in Hf. apply Hf. apply bits_ext; [done|by split|]. intros n Hn. rewrite Forall_forall in Ha.
    rewrite Ha by (apply elem_of_seqZ; lia). symmetry. rewrite hasBit_testbit by done. change 4294967295 with (Z.ones 32). apply Z.ones_spec_low. lia.
  - apply not_Forall_Exists in Ha; [|intros n; apply _]. apply Exists_exists in Ha as (n & Hn%elem_of_seqZ & Hb). exists n. split; [lia|].
    by apply not_true_iff_false.
Qed.

Lemma slot_id_spec t v trackingIds :
  tracked v trackingIds -> exists id v' trackingIds', slot_id t v trackingIds = Some (id, v', trackingIds') /\ tracked v' trackingIds' /\
    (forall n, 0 <= n <= 31 -> hasBit v n = true -> hasBit v' n = true) /\ (0 <= id -> 0 <= id <= 31 /\ hasBit v' id = true).
Proof.
  intros [Hv Ht]. unfold slot_id. destruct (t <? 0); [by exists (-1), v, trackingIds|].
  destruct (find_tracked_spec trackingIds t (marked v) (-1) Ht) as (r & -> & Hr). cbn [mbind option_bind].
  destruct ((r <? 0) && negb (isFull v)) eqn:E.
  - apply andb_true_iff in E as [_ E%negb_true_iff]. destruct (not_full v Hv E) as (k & Hk & Hb).
    destruct (first_unmarked v k Hv Hk Hb) as (Hn & Hbn & _). set (n := firstUnmarkedBit v) in *. assert (0 <= n <= 31) as Hr31 by lia.
    assert (is_u32 (markBit v n)) as Hm by (by apply u32_markBit). eexists _, _, _. split; [reflexivity|]. split; [split; [done|]|split].
    + intros id [Hid Hx]%(elem_of_marked _ _ Hm). destruct (decide (id = n)) as [->|Hne]; [rewrite lookup_insert_eq; by eexists|].
      rewrite lookup_insert_ne by done. apply Ht. apply elem_of_marked; [done|]. split; [done|]. rewrite hasBit_mark in Hx by done.
      by rewrite (proj2 (Z.eqb_neq n id)) in Hx by done.
    + intros id Hid Hx. rewrite hasBit_mark by done. by rewrite Hx, orb_true_r.
    + intros _. split; [done|]. rewrite hasBit_mark by done. by rewrite Z.eqb_refl.
  - exists r, v, trackingIds. split_and!; [done..|]. intros Hr0. destruct Hr as [->|Hr]; [lia|]. by apply elem_of_marked.
Qed.

Lemma mark_bits d id b n :
  0 <= id <= 31 -> 0 <= n <= 31 ->
  hasBit (rw_touchingIdBits (markIdBit id b d)) n = negb b && (id =? n) || hasBit (rw_touchingIdBits d) n /\
  hasBit (rw_hoveringIdBits (markIdBit id b d)) n = b && (id =? n) || hasBit (rw_hoveringIdBits d) n.
Proof. intros Hid Hn. destruct b; cbn; rewrite hasBit_mark by done; done. Qed.

Lemma added_bit (l : list RawPointer) p v v' n b (mine : bool) :
  (hasBit v n = true <-> exists q, q ∈ l /\ rp_id q = n /\ rp_isHovering q = mine) ->
  hasBit v' n = b && (rp_id p =? n) || hasBit v n -> b = bool_decide (rp_isHovering p = mine) ->
  hasBit v' n = true <-> exists q, q ∈ l ++ [p] /\ rp_id q = n /\ rp_isHovering q = mine.
Proof.
  intros Hv -> ->. rewrite orb_true_iff, andb_true_iff, bool_decide_eq_true, Z.eqb_eq, Hv. setoid_rewrite elem_of_app. setoid_rewrite list_elem_of_singleton. split.
  - intros [[? ?]|(q & ? & ? & ?)]; [exists p; auto|exists q; auto].
  - intros (q & [Hq| ->] & Hn & Hm); [right; by exists q|by left].
Qed.

Lemma raw_ok_add d id p :
  raw_ok d -> (length (rw_pointers d) < MAX_POINTERS)%nat -> 0 <= id <= 31 ->
  raw_ok (markIdBit id (rp_isHovering p) (set_index id (length (rw_pointers d)) (add_pointer (with_id id p) d))).
Proof.
  intros [Hc Hi Ht Hh [Ut Uh]] Hl Hid. set (d1 := set_index _ _ _). set (b := rp_isHovering p).
  assert (rw_pointers (markIdBit id b d1) = rw_pointers d ++ [with_id id p]) as Ep by (by destruct b).
  assert (rw_idToIndex (markIdBit id b d1) = <[ id := length (rw_pointers d) ]> (rw_idToIndex d)) as Ex by (by destruct b).
  split; rewrite ?Ep, ?Ex.
  - rewrite length_app. cbn. lia.
  - assert (forall q, q ∈ rw_pointers d ++ [with_id id p] -> 0 <= rp_id q <= 31 /\ (rp_id q = id \/ q ∈ rw_pointers d)) as Hq.
    { intros q [Hq| ->%list_elem_of_singleton]%elem_of_app; [|by auto]. split; [by apply Hi|auto]. }
    intros q [Hr Hor]%Hq. split; [done|]. destruct (decide (rp_id q = id)) as [->|Hne].
    + exists (length (rw_pointers d)), (with_id id p). rewrite lookup_insert_eq. split_and!; [done| |done]. by rewrite list_lookup_middle.
    + destruct Hor as [|Hin]; [done|]. destruct (Hi q Hin) as (_ & j & q' & Hj & Hq' & E). exists j, q'. rewrite lookup_insert_ne by done.
      split_and!; [done| |done]. by apply lookup_app_l_Some.
  - intros n Hn. eapply (added_bit _ _ (rw_touchingIdBits d) _ _ (negb b)); [by apply Ht| |subst b; cbn; by destruct (rp_isHovering p)].
    by apply (mark_bits d1 id b n Hid Hn).
  - intros n Hn. eapply (added_bit _ _ (rw_hoveringIdBits d) _ _ b); [by apply Hh| |subst b; cbn; by destruct (rp_isHovering p)].
    by apply (mark_bits d1 id b n Hid Hn).
  - destruct b; cbn; split; (done || by apply u32_markBit).
Qed.

Record scan_ok (s : SlotScan) : Prop := {
  so_few : (length (rw_pointers (sc_data s)) <= MAX_POINTERS)%nat;
  so_placed : Forall placed (rw_pointers (sc_data s));
  so_raw : sc_havePointerIds s = true -> raw_ok (sc_data s);
  so_tracked : tracked (sc_idBits s) (sc_trackingIds s);
  so_new : is_u32 (sc_newIdBits s) /\ forall n, 0 <= n <= 31 -> hasBit (sc_newIdBits s) n = true -> hasBit (sc_idBits s) n = true;
}.

Lemma scan_slot_spec axes b s a :
  scan_ok a -> slot_placed s -> (length (rw_pointers (sc_data a)) < MAX_POINTERS)%nat -> exists a', scan_slot axes b s a = Some a' /\ scan_ok a'.
Proof.
  intros [H1 H2 H3 H4 [H5 H6]] Hs Hl. unfold scan_slot.
  assert (forall id, Forall placed (rw_pointers (sc_data a) ++ [with_id id (slot_pointer axes b s)])) as Hp.
  { intros id. apply Forall_app. split; [done|]. by apply Forall_singleton. }
  assert (Forall placed (rw_pointers (sc_data a) ++ [slot_pointer axes b s])) as Hp' by (apply Forall_app; split; [done|]; by apply Forall_singleton).
  destruct (sc_havePointerIds a) eqn:Eh.
  - destruct (slot_id_spec (mAbsMTTrackingId s) _ _ H4) as (id & v & ti & -> & Ht & Hsub & Hid). cbn [mbind option_bind].
    destruct (Z.ltb_spec id 0) as [Hneg|Hpos]; eexists; (split; [reflexivity|]); split; cbn [sc_data sc_havePointerIds sc_newIdBits sc_idBits sc_trackingIds].
    + cbn. rewrite length_app. cbn. lia.
    + exact Hp'.
    + done.
    + done.
    + split; [by split|]. intros n _ Hn. by rewrite hasBit_0 in Hn.
    + destruct (rp_isHovering _); cbn; rewrite length_app; cbn; lia.
    + destruct (rp_isHovering _); cbn; apply Hp.
    + intros _. apply raw_ok_add; [by apply H3|done|by apply Hid].
    + done.
    + destruct (Hid Hpos) as [Hr Hb]. split; [by apply u32_markBit|]. intros n Hn. rewrite hasBit_mark by done.
      destruct (Z.eqb_spec id n) as [<-|]; [done|]. intros Hx. by apply Hsub, H6.
  - eexists. split; [reflexivity|]. split; cbn [sc_data sc_havePointerIds sc_newIdBits sc_idBits sc_trackingIds]; try done. cbn. rewrite length_app. cbn. lia.
Qed.

Lemma scan_slots_spec axes b slots a :
  scan_ok a -> Forall slot_placed slots -> exists a', scan_slots axes b slots a = Some a' /\ scan_ok a'.
Proof.
  revert a. induction slots as [|s slots IH]; intros a Ha Hs; cbn [scan_slots]; [by exists a|]. apply Forall_cons in Hs as [Hs Hss].
  destruct (mInUse s); cbn [negb]; [|by apply IH]. destruct (Nat.leb_spec MAX_POINTERS (length (rw_pointers (sc_data a)))); [by exists a|].
  destruct (scan_slot_spec axes b s a Ha Hs) as (a' & -> & Ha'); [done|]. by apply IH.
Qed.

(** *** The report *)

Lemma single_ok axes b a d :
  coordinate (mAbsX a) -> coordinate (mAbsY a) ->
  let raw := single_syncTouch axes b a (raw_clear d) in raw_ok raw /\ Forall placed (rw_pointers raw).
Proof.
  intros Hx Hy raw. unfold raw, single_syncTouch. destruct (isToolActive b); [|split; [apply raw_ok_clear|constructor]].
  set (p := mkRawPointer 0 _ _ _ _ _ _ _ _ _ _ _ _ _). split.
  - change (mkRawData [p] _ _ _) with (set_index 0 0 (add_pointer (with_id 0 p) (raw_clear d))).
    apply (raw_ok_add (raw_clear d) 0 p (raw_ok_clear d)); [cbn; unfold MAX_POINTERS|]; lia.
  - destruct (pointer_hovers _ _ _); by apply Forall_singleton.
Qed.

Lemma syncTouch_spec axes b p d n :
  protocol_ok p -> slot_within n p -> -1 <= n ->
  exists raw have p', syncTouch axes b p (raw_clear d) = Some (raw, have, p') /\ protocol_ok p' /\ slot_within n p' /\
    (length (rw_pointers raw) <= MAX_POINTERS)%nat /\ Forall placed (rw_pointers raw) /\ (have = true -> raw_ok raw).
Proof.
  intros Hp Hn H1. destruct p as [a|a v ti]; cbn [syncTouch].
  - destruct Hp as [Hx Hy]. destruct (single_ok axes b a d Hx Hy) as [Hr Hf]. eexists _, _, _. split; [reflexivity|]. split_and!; try done. apply Hr.
  - destruct Hp as [Hs Ht]. destruct (scan_slots_spec axes b (mSlots a) (mkScan (raw_clear d) true 0 v ti)) as (s & -> & [S1 S2 S3 S4 [S5 S6]]); [|done|].
    { split; cbn; [unfold MAX_POINTERS; lia|constructor|intros _; apply raw_ok_clear|exact Ht|]. split; [by split|]. intros m _ Hm. by rewrite hasBit_0 in Hm. }
    cbn [mbind option_bind]. eexists _, _, _. split; [reflexivity|]. unfold multi_finishSync. split; [|split].
    + split; [destruct (mUsingSlotsProtocol a); [done|apply clear_placed]|]. split; [done|]. intros id [Hid Hb]%(elem_of_marked _ _ S5).
      apply S4. apply elem_of_marked; [apply S4|]. auto.
    + cbn. destruct (mUsingSlotsProtocol a); [done|]. cbn. lia.
    + split; [exact S1|]. split; [exact S2|exact S3].
Qed.

(** *** Events *)

(** The position axes and the slot, at values a device has. *)
Definition event_bounded (e : RawEvent) : Prop :=
  re_type e = EV_ABS -> re_code e ∈ [ABS_X; ABS_Y; ABS_MT_POSITION_X; ABS_MT_POSITION_Y; ABS_MT_SLOT] -> coordinate (re_value e).

Lemma slot_process_placed slots code value s :
  (code ∈ [ABS_MT_POSITION_X; ABS_MT_POSITION_Y] -> coordinate value) -> slot_placed s -> slot_placed (slot_process slots code value s).
Proof.
  intros Hv [Hx Hy]. unfold slot_process. destruct (existsb _ _); [|by split]. split; cbn [mAbsMTPositionX mAbsMTPositionY].
  - destruct (Z.eqb_spec code ABS_MT_POSITION_X) as [->|]; [apply Hv; by left|done].
  - destruct (Z.eqb_spec code ABS_MT_POSITION_Y) as [->|]; [apply Hv; by right; left|done].
Qed.

Lemma alter_forall {A} (P : A -> Prop) f i (l : list A) : Forall P l -> (forall x, P x -> P (f x)) -> Forall P (alter f i l).
Proof. intros Hl Hf. revert i. induction Hl as [|x l Hx Hl IH]; intros [|i]; cbn; constructor; auto. Qed.

Lemma multi_process_spec e a n :
  event_bounded e -> Forall slot_placed (mSlots a) -> mCurrentSlot a <= n -> 1073741824 <= n < 2147483647 ->
  exists a', multi_process e a = Some a' /\ Forall slot_placed (mSlots a') /\ mCurrentSlot a' <= n + 1.
Proof.
  intros He Hs Hc Hn. unfold multi_process. destruct (Z.eqb_spec (re_type e) EV_ABS) as [Et|Et].
  - set (cur := if mUsingSlotsProtocol a then _ else _). assert (cur <= n) as Hcur.
    { subst cur. destruct (mUsingSlotsProtocol a); [destruct (Z.eqb_spec (re_code e) ABS_MT_SLOT) as [E|]; [|done]|destruct (_ <? 0); lia].
      assert (coordinate (re_value e)) as [_ ?]; [|lia]. apply He; [done|]. rewrite E, !elem_of_cons. auto 10. }
    destruct (_ || _); eexists; (split; [reflexivity|]); (split; [|cbn; lia]); [done|]. cbn. apply alter_forall; [done|]. intros s Hp.
    apply slot_process_placed; [|done]. intros Hin. apply He; [done|]. rewrite !elem_of_cons in Hin. rewrite !elem_of_cons. tauto.
  - destruct (_ && _).
    + rewrite (proj2 (Z.eqb_neq _ _)) by lia. eexists. split; [reflexivity|]. split; [done|cbn; lia].
    + exists a. split; [done|]. split; [done|lia].
Qed.

Lemma protocol_process_spec e p n :
  event_bounded e -> protocol_ok p -> slot_within n p -> 1073741824 <= n < 2147483647 ->
  exists p', protocol_process e p = Some p' /\ protocol_ok p' /\ slot_within (n + 1) p'.
Proof.
  intros He Hp Hs Hn. destruct p as [a|a v ti]; cbn [protocol_process].
  - destruct Hp as [Hx Hy]. eexists. split; [reflexivity|]. split; [|done]. unfold single_process.
    destruct (Z.eqb_spec (re_type e) EV_ABS) as [Et|]; cbn [negb]; [|by split]. split; cbn [mAbsX mAbsY].
    + destruct (Z.eqb_spec (re_code e) ABS_X) as [E|]; [apply He; [done|]; rewrite E, !elem_of_cons; auto|done].
    + destruct (Z.eqb_spec (re_code e) ABS_Y) as [E|]; [apply He; [done|]; rewrite E, !elem_of_cons; auto|done].
  - destruct Hp as [Hp Ht]. destruct (multi_process_spec e a n He Hp Hs Hn) as (a' & -> & Ha & Hc). eexists. split; [reflexivity|]. done.
Qed.

(** ** Cooking *)

(** What [configure] establishes: the ranges of the position axes are those of a device, and the size is calibrated only
    with an axis for it ([resolveCalibration]). *)
Record touch_ready (c : TouchSettings) : Prop := {
  tr_x : coordinate (ax_minValue (ra_x (mRawPointerAxes c))) /\ coordinate (ax_maxValue (ra_x (mRawPointerAxes c)));
  tr_y : coordinate (ax_minValue (ra_y (mRawPointerAxes c))) /\ coordinate (ax_maxValue (ra_y (mRawPointerAxes c)));
  tr_size : sizeCalibration (mCalibration c) ∈ [SIZE_CALIBRATION_DEFAULT; SIZE_CALIBRATION_NONE] \/
    ax_valid (ra_touchMajor (mRawPointerAxes c)) || ax_valid (ra_toolMajor (mRawPointerAxes c)) = true;
}.

Section Cooking.
Context `{Libm} (c : TouchSettings).
Context (ready : touch_ready c).

Lemma difference_some a b : coordinate a -> coordinate b -> is_Some (difference a b).
Proof. unfold coordinate, difference. intros Ha Hb. rewrite bool_decide_eq_true_2 by lia. by eexists. Qed.

Lemma raw_sizes_some p : ax_valid (ra_touchMajor (mRawPointerAxes c)) || ax_valid (ra_toolMajor (mRawPointerAxes c)) = true -> is_Some (raw_sizes c p).
Proof. unfold raw_sizes. destruct (ax_valid (ra_touchMajor _)), (ax_valid (ra_toolMajor _)); try done; intros _; by eexists. Qed.

Lemma cook_sizes_some n p : is_Some (cook_sizes c n p).
Proof.
  unfold cook_sizes. destruct (tr_size c ready) as [Hn|Hv].
  - rewrite !elem_of_cons, elem_of_nil in Hn. destruct Hn as [->|[->|[]]]; by eexists.
  - destruct (raw_sizes_some p Hv) as [s ->]. destruct (sizeCalibration _); cbn [mbind option_bind]; by eexists.
Qed.

Lemma cook_position_some p o : placed p -> is_Some (cook_position c p o).
Proof.
  intros [Hx Hy]. destruct (tr_x c ready) as [Ax Bx], (tr_y c ready) as [Ay By]. unfold cook_position.
  destruct (difference_some _ _ Hy Ay) as [? E1], (difference_some _ _ Bx Hx) as [? E2], (difference_some _ _ By Hy) as [? E3], (difference_some _ _ Hx Ax) as [? E4].
  rewrite E1, E2, E3, E4. repeat destruct (_ =? _); cbn [mbind option_bind]; by eexists.
Qed.

Lemma cook_pointer_spec n p : placed p -> exists q, cook_pointer c n p = Some q /\ pp_id (fst q) = rp_id p.
Proof.
  intros Hp. unfold cook_pointer. destruct (cook_sizes_some n p) as [s ->]. cbn [mbind option_bind]. destruct (cook_orientation c p s) as [[tilt o] s'].
  destruct (cook_position_some p o Hp) as [[[x y] o'] ->]. cbn [mbind option_bind]. eexists. split; reflexivity.
Qed.

Lemma cook_pointers_spec n l : Forall placed l -> exists l', mapM (cook_pointer c n) l = Some l' /\ pointer_ids l' = map rp_id l.
Proof.
  induction 1 as [|p l Hp Hl (l' & IH & Hi)]; [by exists []|]. destruct (cook_pointer_spec n p Hp) as (q & Hq & Eq). exists (q :: l').
  cbn. rewrite Hq. cbn. rewrite IH. cbn. split; [done|]. unfold pointer_ids in *. cbn. by rewrite Eq, Hi.
Qed.

Lemma index_pointers_spec l i index id :
  (id ∈ map rp_id l -> exists j, index_pointers i l index !! id = Some (i + j)%nat /\ map rp_id l !! j = Some id) /\
  (id ∉ map rp_id l -> index_pointers i l index !! id = index !! id).
Proof.
  revert i index. induction l as [|p l IH]; intros i index; cbn [map index_pointers]; [split; [by intros ?%elem_of_nil|done]|].
  destruct (IH (S i) (<[ rp_id p := i ]> index)) as [IH1 IH2]. split.
  - intros Hin. destruct (decide (id ∈ map rp_id l)) as [Hl|Hl].
    + destruct (IH1 Hl) as (j & -> & Hj). exists (S j). split; [f_equal; lia|done].
    + apply elem_of_cons in Hin as [->|]; [|done]. exists 0%nat. rewrite (IH2 Hl), lookup_insert_eq. split; [f_equal; lia|done].
  - intros [Hne Hl]%not_elem_of_cons. rewrite (IH2 Hl). by apply lookup_insert_ne.
Qed.

Lemma cook_spec raw cooked :
  raw_ok raw -> Forall placed (rw_pointers raw) -> exists d, cookPointerData c raw cooked = Some d /\ cooked_ok d /\
    ck_touchingIdBits d = rw_touchingIdBits raw /\ ck_hoveringIdBits d = rw_hoveringIdBits raw.
Proof.
  intros [Hc Hi Ht Hh Hu] Hp. unfold cookPointerData. destruct (cook_pointers_spec (bit_count (rw_touchingIdBits raw)) _ Hp) as (l & -> & Hl).
  cbn [mbind option_bind]. eexists. split; [reflexivity|]. split; [|done]. split; cbn [ck_pointers ck_touchingIdBits ck_hoveringIdBits ck_idToIndex]; rewrite ?Hl.
  - rewrite <- (length_map (fun p => pp_id (fst p)) l). fold (pointer_ids l). rewrite Hl, length_map. exact Hc.
  - done.
  - intros id Hin. split; [|by apply (index_pointers_spec _ 0)]. apply list_elem_of_fmap in Hin as (p & -> & Hin). by apply Hi.
  - intros id Hid [(p & Hin & <- & _)%Ht|(p & Hin & <- & _)%Hh]; [|done| |done]; by apply list_elem_of_fmap_2.
Qed.

End Cooking.

(** ** Keeping the last sample *)

Lemma copy_index_spec ids (from to : gmap Z nat) :
  (forall id, id ∈ ids -> is_Some (from !! id)) ->
  exists r, copy_index ids from to = Some r /\ forall id, (id ∈ ids \/ to !! id = from !! id) -> r !! id = from !! id.
Proof.
  revert to. induction ids as [|id ids IH]; intros to Hs; cbn [copy_index]; [exists to; split; [done|]; by intros id [?%elem_of_nil|]|].
  destruct (Hs id) as [i Hi]; [by left|]. rewrite Hi. cbn [mbind option_bind].
  destruct (IH (<[ id := i ]> to)) as (r & -> & Hr); [intros x Hx; apply Hs; by right|]. exists r. split; [done|].
  intros x Hx. apply Hr. destruct (decide (x = id)) as [->|Hne]; [right; by rewrite lookup_insert_eq|].
  destruct Hx as [[|]%elem_of_cons|]; [done|by left|right; by rewrite lookup_insert_ne].
Qed.

Lemma raw_copy_spec other d : raw_ok other -> exists r, raw_copyFrom other d = Some r /\ raw_ok r /\ rw_pointers r = rw_pointers other.
Proof.
  intros [Hc Hi Ht Hh Hu]. unfold raw_copyFrom.
  destruct (copy_index_spec (map rp_id (rw_pointers other)) (rw_idToIndex other) (rw_idToIndex d)) as (r & -> & Hr).
  { intros id (p & -> & Hp)%list_elem_of_fmap. destruct (Hi p Hp) as (_ & j & q & -> & _). by eexists. }
  cbn [mbind option_bind]. eexists. split; [reflexivity|]. split; [|done]. split; cbn; try done. intros p Hp. destruct (Hi p Hp) as (Hid & j & q & Hj & Hq).
  split; [done|]. exists j, q. rewrite Hr; [done|]. left. by apply list_elem_of_fmap_2.
Qed.

Lemma cooked_copy_spec other d :
  cooked_ok other -> exists r, cooked_copyFrom other d = Some r /\ cooked_ok r /\
    ck_touchingIdBits r = ck_touchingIdBits other /\ ck_hoveringIdBits r = ck_hoveringIdBits other.
Proof.
  intros [Hc Hu Hi Hm]. unfold cooked_copyFrom. fold (pointer_ids (ck_pointers other)).
  destruct (copy_index_spec (pointer_ids (ck_pointers other)) (ck_idToIndex other) (ck_idToIndex d)) as (r & -> & Hr).
  { intros id Hid. destruct (Hi id Hid) as (_ & j & -> & _). by eexists. }
  cbn [mbind option_bind]. eexists. split; [reflexivity|]. split; [|done]. split; cbn [ck_pointers ck_touchingIdBits ck_hoveringIdBits ck_idToIndex]; try done.
  intros id Hid. rewrite Hr by auto. by apply Hi.
Qed.
