(* ===== verification/TouchReports.v ===== *)
(** * Touch devices: reports

    Every report of a touch device that does not drive a pointer on the screen leads to motions and keys that
    are in their place for the listener of [TouchGestures], and leaves the mapper with what the listener
    knows. *)

From Stdlib Require Import SpecFloat.
From stdpp Require Import numbers.
From S2P Require Import Prelude Geometry Input AndroidEvents InputTransport InputState Dispatcher DispatchTargets DispatchLoop ReaderData InputHub.
From S2P Require Import DispatchMemory TouchData TouchIds TouchMatching TouchMapper TouchGestures TouchStream TouchSamples.

Lemma isEmpty_spec v : reflect (v = 0) (isEmpty v).
Proof. apply Z.eqb_spec. Qed.

Lemma marked_not_nil v : is_u32 v -> v <> 0 -> marked v <> [].
Proof. intros Hv Hn E. by apply Hn, (marked_nil v Hv). Qed.

Lemma marked_0 : marked 0 = [].
Proof. reflexivity. Qed.

Lemma marked_from_S n v : marked_from (S n) v = if isEmpty v then [] else firstMarkedBit v :: marked_from n (clearBit v (firstMarkedBit v)).
Proof. reflexivity. Qed.

Lemma first_marked v : is_u32 v -> v <> 0 -> 0 <= firstMarkedBit v <= 31 /\ hasBit v (firstMarkedBit v) = true.
Proof.
  intros Hv Hn. apply elem_of_marked; [done|].
  unfold marked. rewrite (marked_from_S 31).
  destruct (isEmpty_spec v) as [E|E]; [by destruct Hn|]. left.
Qed.

#[local] Opaque marked hasBit.

Lemma hovering_same b g : ge_hovering g = b -> g = ge_set_hovering b g.
Proof. destruct g. cbn. by intros ->. Qed.

(** ** Dispatching a report *)

Section Dispatching.
Context {K G : Type} `{EventHub K} `{AbsoluteAxes K} `{PointerTranslation K G} `{Libm}.
Context (c : TouchSettings).

Abbreviation speaks := (speaks (K:=K) (G:=G) (ts_deviceId c)).

(** An operation that speaks, with its result. *)
Lemma speaks_result {A} (op : M (TouchWorld K G) A) g Q w :
  speaks op g Q w -> speaks op g (fun a w' g' => Q a w' g' /\ op w = Ret a w') w.
Proof.
  intros Hs. apply returns_some in Hs as (a & w' & Hr & l & g' & ? & ? & ? & ?). unfold TouchGestures.speaks, returns. rewrite Hr. by exists l, g'.
Qed.

(** The mapper is left with this answer to whether [HOVER_ENTER] has been sent. *)
Definition hovers_as (b : bool) (w w' : TouchWorld K G) : Prop := tw_mapper w' = tm_set_hover b (tw_mapper w).

Lemma hovers_same b w w' : mSentHoverEnter (tw_mapper w) = b -> tw_mapper w' = tw_mapper w -> hovers_as b w w'.
Proof. intros Hb Hw. unfold hovers_as. rewrite Hw. destruct (tw_mapper w). cbn in *. by subst. Qed.

Lemma hover_exit_speaks t pf g w :
  let m := tw_mapper w in
  let last := sm_cooked (tm_last m) in
  let cur := sm_cooked (tm_current m) in
  let stays := mSentHoverEnter m && negb (isEmpty (ck_hoveringIdBits cur) || negb (isEmpty (ck_touchingIdBits cur))) in
  cooked_ok last -> ge_touching g = marked (ck_touchingIdBits last) -> ge_hovering g = mSentHoverEnter m ->
  (mSentHoverEnter m = true -> ck_touchingIdBits last = 0 /\ ck_hoveringIdBits last <> 0) ->
  speaks (dispatchHoverExit c t pf) g (fun _ w' g' => hovers_as stays w w' /\ g' = ge_set_hovering stays g) w.
Proof.
  intros m last cur stays Hl Hg Hh Hs. unfold dispatchHoverExit. apply speaks_bind, speaks_gets. fold m. fold cur. fold last. subst stays.
  destruct (mSentHoverEnter m) eqn:E; cbn [andb].
  - destruct (isEmpty (ck_hoveringIdBits cur) || negb (isEmpty (ck_touchingIdBits cur))); cbn [negb].
    + destruct (Hs eq_refl) as [Ht Hv]. apply speaks_bind, speaks_gets, speaks_bind. eapply speaks_mono; [apply hover_speaks with (b := true) (b' := false)|].
      * by apply hovering_pointers.
      * apply marked_not_nil; [apply Hl|done].
      * by rewrite Hg, Ht, marked_0.
      * done.
      * rewrite !elem_of_cons. auto.
      * intros [] w1 g1 [Hw ->]. apply speaks_put. split; [|done]. unfold hovers_as. cbn. by rewrite Hw.
    + apply speaks_ret. split; [by apply hovers_same|by apply hovering_same].
  - apply speaks_ret. split; [by apply hovers_same|by apply hovering_same].
Qed.

Lemma hover_enter_speaks t pf g w :
  let m := tw_mapper w in
  let cur := sm_cooked (tm_current m) in
  let enters := isEmpty (ck_touchingIdBits cur) && negb (isEmpty (ck_hoveringIdBits cur)) in
  cooked_ok cur -> ge_touching g = marked (ck_touchingIdBits cur) -> ge_hovering g = mSentHoverEnter m ->
  speaks (dispatchHoverEnterAndMove c t pf) g
    (fun _ w' g' => hovers_as (enters || mSentHoverEnter m) w w' /\ g' = ge_set_hovering (enters || mSentHoverEnter m) g) w.
Proof.
  intros m cur enters Hc Hg Hh. unfold dispatchHoverEnterAndMove. apply speaks_bind, speaks_gets. fold m. fold cur. fold enters.
  destruct enters eqn:E; cbn [orb]; subst enters.
  2: { apply speaks_ret. split; [by apply hovers_same|by apply hovering_same]. }
  apply andb_true_iff in E as [Et Ev]. destruct (isEmpty_spec (ck_touchingIdBits cur)) as [Ht|]; [|done]. apply negb_true_iff, Z.eqb_neq in Ev.
  rewrite Ht, marked_0 in Hg. assert (marked (ck_hoveringIdBits cur) <> []) as Hne by (apply marked_not_nil; [apply Hc|done]).
  pose proof (hovering_pointers cur Hc) as Hp. apply speaks_bind, speaks_gets, speaks_bind.
  eapply (speaks_mono _ _ _ (fun _ w' g' => hovers_as true w w' /\ g' = ge_set_hovering true g)).
  - destruct (mSentHoverEnter m) eqn:Es; cbn [negb].
    + apply speaks_ret. split; [by apply hovers_same|by apply hovering_same].
    + apply speaks_bind. eapply speaks_mono; [apply hover_speaks with (b := false) (b' := true); [done..|]; rewrite !elem_of_cons; auto|].
      intros [] w1 g1 [Hw ->]. apply speaks_put. split; [|done]. unfold hovers_as. cbn. by rewrite Hw.
  - intros [] w1 g1 [Hw ->]. eapply speaks_mono; [apply hover_speaks with (b := true) (b' := true); [done..|]; rewrite !elem_of_cons; auto|].
    intros [] w2 g2 [Hw2 ->]. split; [|done]. unfold hovers_as in *. by rewrite Hw2.
Qed.

(** The pointers that stay down take the new coordinates in the last report. *)
Lemma moved_speaks g w D :
  let last := sm_cooked (tm_last (tw_mapper w)) in
  let cur := sm_cooked (tm_current (tw_mapper w)) in
  has_pointers cur D -> has_pointers last D -> cooked_ok last ->
  speaks (updateMovedPointers D) g (fun moved w' g' => exists last', g' = g /\ (D = 0 -> moved = false) /\
    tw_mapper w' = tm_set_last (sm_set_cooked last' (tm_last (tw_mapper w))) (tw_mapper w) /\
    ck_touchingIdBits last' = ck_touchingIdBits last /\ cooked_ok last') w.
Proof.
  intros last cur (_ & _ & Hc) (_ & _ & Hl) Hok. unfold updateMovedPointers. apply speaks_bind, speaks_gets, speaks_bind, speaks_gets, speaks_bind.
  destruct (moved_spec (ck_pointers cur) (ck_idToIndex cur) (ck_idToIndex last) (marked D) (ck_pointers last) false Hc Hl) as (out & ch & Hm & He & Hn).
  eapply speaks_checked; [exact Hm|]. apply speaks_bind, speaks_put, speaks_ret. eexists. split_and!; [done| |reflexivity|done|].
  - intros ->. by apply Hn, marked_0.
  - destruct Hok as [A1 A2 A3 A4]. split; cbn [ck_pointers ck_touchingIdBits ck_hoveringIdBits ck_idToIndex]; rewrite ?He; try done.
    rewrite <- (length_map (fun p => pp_id (fst p)) out). fold (pointer_ids out). rewrite He. unfold pointer_ids. by rewrite length_map.
Qed.

(** The sets of a report that has changed them. *)
Lemma ups_bits last cur D :
  is_u32 last -> is_u32 D -> (forall id, 0 <= id <= 31 -> hasBit D id = hasBit last id && negb (bool_decide (id ∈ marked (Z.ldiff last cur)))) ->
  D = Z.land last cur.
Proof.
  intros Hl HD Hb. apply bits_ext; [done|by apply u32_land|]. intros id Hid. rewrite Hb, hasBit_land by done.
  destruct (hasBit last id) eqn:El; cbn [andb]; [|reflexivity]. assert (is_u32 (Z.ldiff last cur)) as Hd by (by apply u32_ldiff).
  case_bool_decide as E; rewrite (elem_of_marked _ _ Hd), hasBit_ldiff, El in E by exact Hid; cbn [andb negb] in *.
  - destruct E as [_ E]. by destruct (hasBit cur id).
  - destruct (hasBit cur id); [reflexivity|]. by destruct E.
Qed.

Lemma downs_bits last cur D :
  is_u32 cur -> is_u32 D ->
  (forall id, 0 <= id <= 31 -> hasBit D id = hasBit (Z.land last cur) id || bool_decide (id ∈ marked (Z.ldiff cur last))) -> D = cur.
Proof.
  intros Hc HD Hb. apply bits_ext; [done..|]. intros id Hid. rewrite Hb, hasBit_land by done.
  assert (is_u32 (Z.ldiff cur last)) as Hd by (by apply u32_ldiff).
  case_bool_decide as E; rewrite (elem_of_marked _ _ Hd), hasBit_ldiff in E by exact Hid; revert E.
  - intros [_ E]. by destruct (hasBit cur id), (hasBit last id).
  - destruct (hasBit cur id), (hasBit last id); cbn [andb orb negb]; try reflexivity. intros []. split; [exact Hid|reflexivity].
Qed.

Lemma ldiff_marked v v' : is_u32 v -> NoDup (marked (Z.ldiff v v')) /\
  Forall (fun id => 0 <= id <= 31 /\ hasBit v' id = false /\ hasBit v id = true) (marked (Z.ldiff v v')).
Proof.
  intros Hv. assert (is_u32 (Z.ldiff v v')) as Hd by (by apply u32_ldiff). split; [by apply NoDup_marked|]. apply Forall_forall.
  intros id [Hid Hb]%(elem_of_marked _ _ Hd). rewrite hasBit_ldiff in Hb by done. apply andb_true_iff in Hb as [? ?%negb_true_iff]. done.
Qed.

Lemma touches_speak t pf g w :
  let m := tw_mapper w in
  let last := sm_cooked (tm_last m) in
  let cur := sm_cooked (tm_current m) in
  cooked_ok last -> cooked_ok cur -> jolted m = false ->
  ge_touching g = marked (ck_touchingIdBits last) -> (ck_touchingIdBits last <> 0 -> ge_downTime g = tm_downTime m) ->
  (ck_touchingIdBits cur <> 0 -> ge_hovering g = false) ->
  speaks (dispatchTouches c t pf) g (fun _ w' g' => exists t', frame (mSentHoverEnter m) m (tw_mapper w') /\
    g' = ge_set_touching (marked (ck_touchingIdBits cur)) t' g /\ (ck_touchingIdBits cur <> 0 -> t' = tm_downTime (tw_mapper w'))) w.
Proof.
  intros m last cur Hl Hc Hj Hg Ht Hh. unfold dispatchTouches. apply speaks_bind, speaks_gets. fold m. fold cur. fold last. apply speaks_bind, speaks_gets.
  destruct (Z.eqb_spec (ck_touchingIdBits cur) (ck_touchingIdBits last)) as [E|E].
  { assert (g = ge_set_touching (marked (ck_touchingIdBits cur)) (ge_downTime g) g) as Eg by (rewrite E, <- Hg; by destruct g).
    destruct (isEmpty_spec (ck_touchingIdBits cur)) as [E0|E0]; cbn [negb].
    - apply speaks_ret. exists (ge_downTime g). by split_and!.
    - eapply speaks_mono; [apply move_speaks; [by apply touching_pointers|apply marked_not_nil; [apply Hc|done]|by rewrite E|by apply Ht; rewrite <- E]|].
      intros [] w' g' [Hw ->]. exists (ge_downTime g). rewrite Hw. split_and!; [done|exact Eg|]. intros _. apply Ht. by rewrite <- E. }
  set (D := Z.land (ck_touchingIdBits last) (ck_touchingIdBits cur)). assert (is_u32 D) as HD by apply u32_land, Hl.
  assert (forall id, 0 <= id <= 31 -> hasBit D id = true -> hasBit (ck_touchingIdBits last) id = true /\ hasBit (ck_touchingIdBits cur) id = true) as HDs.
  { intros id Hid Hb. unfold D in Hb. rewrite hasBit_land in Hb by done. by apply andb_true_iff in Hb. }
  assert (has_pointers cur D) as HDc by (apply ok_has_pointers; [done..|]; intros id Hid Hb; left; by apply HDs).
  apply speaks_bind. eapply speaks_mono; [apply (moved_speaks g w D HDc); [apply ok_has_pointers; [done..|]; intros id Hid Hb; left; by apply HDs|done]|].
  intros moved w1 g1 (last' & -> & Hmv & Hw1 & Hbits & Hl'). change (ck_touchingIdBits last' = ck_touchingIdBits last) in Hbits.
  destruct (ldiff_marked (ck_touchingIdBits last) (ck_touchingIdBits cur)) as [Nu Fu]; [apply Hl|].
  destruct (ldiff_marked (ck_touchingIdBits cur) (ck_touchingIdBits last)) as [Nd Fd]; [apply Hc|].
  assert (sm_cooked (tm_last (tw_mapper w1)) = last') as El1 by (by rewrite Hw1).
  apply speaks_bind. eapply speaks_mono; [apply (ups_speak c t pf _ _ _ (ck_touchingIdBits last) g w1)|].
  { rewrite El1, <- Hbits. by apply touching_pointers. }
  { exact Nu. }
  { eapply Forall_impl; [exact Fu|]. cbn. tauto. }
  { exact Hg. }
  { rewrite Hw1. cbn. intros Hne. apply Ht. intros E0. apply Hne. by rewrite E0, Z.ldiff_0_l, marked_0. }
  intros D' w2 g2 (Hw2 & HD' & Hb' & ->). apply ups_bits in Hb' as ->; [|apply Hl|done]. fold D.
  apply speaks_bind. eapply (speaks_mono _ _ _ (fun _ w' g' => tw_mapper w' = tw_mapper w1 /\ g' = ge_set_touching (marked D) (ge_downTime g) g)).
  { destruct (moved || negb (sm_buttonState (tm_current m) =? sm_buttonState (tm_last m))) eqn:Emv; [|by apply speaks_ret].
    rewrite Z.eqb_refl. assert (D <> 0) as HD0.
    { intros E0. rewrite (Hmv E0) in Emv. cbn in Emv. unfold jolted in Hj. fold m cur last D in Hj. rewrite E0, (proj2 (Z.eqb_neq _ _) E), Emv in Hj. done. }
    eapply speaks_mono; [apply move_speaks; [done|by apply marked_not_nil|done|]|].
    - cbn. rewrite Hw2, Hw1. apply Ht. intros E0. apply HD0. unfold D. by rewrite E0.
    - intros [] w3 g3 [Hw3 ->]. split; [congruence|done]. }
  intros [] w3 g3 [Hw3 ->]. assert (sm_cooked (tm_current (tw_mapper w3)) = cur) as Ec3 by (by rewrite Hw3, Hw1).
  eapply speaks_mono; [apply (downs_speak c t pf _ _ _ D); rewrite ?Ec3|].
  - exact HD.
  - exact Hc.
  - intros id Hid Hb. apply (HDs id Hid Hb).
  - exact Nd.
  - eapply Forall_impl; [exact Fd|]. intros id (Hid & Hb1 & Hb2). split; [exact Hid|]. split; [|exact Hb2]. unfold D. by rewrite hasBit_land, Hb1 by exact Hid.
  - reflexivity.
  - intros HD0. cbn. rewrite Hw3, Hw1. apply Ht. intros E0. apply HD0. unfold D. by rewrite E0.
  - intros Hne. cbn. apply Hh. intros E0. apply Hne. by rewrite E0, Z.ldiff_0_l, marked_0.
  - intros [] w4 g4 (D' & t' & HuD & HbD & Hf & -> & Ht'). apply downs_bits in HbD as ->; [|apply Hc|done]. exists t'. split; [|split; [reflexivity|exact Ht']].
    rewrite Hw3, Hw1 in Hf. exact Hf.
Qed.

(** The report is one that the mapper does not survive: it asks for a move of no pointer. *)
Lemma undefined_after {A B} (op : M (TouchWorld K G) A) (k : A -> M (TouchWorld K G) B) g w :
  speaks op g (fun a w' _ => k a w' = Undef) w -> (op ≫= k) w = Undef.
Proof. intros (a & w' & Hr & l & g' & _ & _ & _ & Hk)%returns_some. unfold mbind, M_bind. by rewrite Hr. Qed.

Lemma dispatch_nothing t pf action meta bs ef d (w : TouchWorld K G) : dispatch_cooked c t pf action meta bs ef d 0 (-1) w = Undef.
Proof. unfold dispatch_cooked, dispatchMotion. by rewrite marked_0. Qed.

Lemma touches_break t pf g (w : TouchWorld K G) :
  let m := tw_mapper w in
  let last := sm_cooked (tm_last m) in
  cooked_ok last -> cooked_ok (sm_cooked (tm_current m)) -> jolted m = true ->
  ge_touching g = marked (ck_touchingIdBits last) -> (ck_touchingIdBits last <> 0 -> ge_downTime g = tm_downTime m) ->
  dispatchTouches c t pf w = Undef.
Proof.
  intros m last Hl Hc Hj Hg Ht. set (cur := sm_cooked (tm_current m)) in *. unfold jolted in Hj. fold cur in Hj. fold last in Hj.
  apply andb_true_iff in Hj as [[E ED%Z.eqb_eq]%andb_true_iff Eb]. apply negb_true_iff in E.
  unfold dispatchTouches. eapply (undefined_after _ _ g), speaks_gets. fold m. fold cur. fold last. eapply (undefined_after _ _ g), speaks_gets. rewrite E.
  rewrite ED, Eb. eapply (undefined_after _ _ g). assert (is_u32 0) as Hz by (by split).
  assert (forall id : Z, 0 <= id <= 31 -> hasBit 0 id = true -> False) as Hno by (intros id _ Hb; by rewrite hasBit_0 in Hb).
  eapply speaks_mono; [apply (moved_speaks g w 0); [apply ok_has_pointers; [exact Hc|exact Hz|]|apply ok_has_pointers; [exact Hl|exact Hz|]|exact Hl]; intros id Hid []%Hno; done|].
  intros moved w1 g1 (last' & -> & _ & Hw1 & Hbits & Hl'). change (ck_touchingIdBits last' = ck_touchingIdBits last) in Hbits.
  destruct (ldiff_marked (ck_touchingIdBits last) (ck_touchingIdBits cur)) as [Nu Fu]; [apply Hl|].
  eapply (undefined_after _ _ g). eapply speaks_mono; [apply (ups_speak c t pf _ _ _ (ck_touchingIdBits last) g w1)|].
  { rewrite Hw1. cbn. rewrite <- Hbits. by apply touching_pointers. }
  { exact Nu. }
  { eapply Forall_impl; [exact Fu|]. cbn. tauto. }
  { exact Hg. }
  { rewrite Hw1. cbn. intros Hne. apply Ht. intros E0. apply Hne. by rewrite E0, Z.ldiff_0_l, marked_0. }
  intros D' w2 g2 (_ & HD' & Hb' & _). apply ups_bits in Hb' as ->; [|apply Hl|done]. rewrite ED, orb_true_r.
  change (0 =? 0) with true. cbv iota. unfold mbind, M_bind. by rewrite dispatch_nothing.
Qed.

End Dispatching.

(** ** Keys *)

Section Keys.
Context {K G : Type} `{EventHub K} `{AbsoluteAxes K} `{PointerTranslation K G} `{Libm}.
Context (c : TouchSettings).

Abbreviation speaks := (speaks (K:=K) (G:=G) (ts_deviceId c)).

(** *** Of buttons *)

Definition button (code : Z) (g : gesture) : bool := if code =? AKEYCODE_BACK then ge_back g else ge_forward g.
Definition with_button (code : Z) (d : bool) (g : gesture) : gesture :=
  if code =? AKEYCODE_BACK then ge_set_buttons d (ge_forward g) g else ge_set_buttons (ge_back g) d g.

(** What a listener knows of a button before and after the keys for this action. *)
Definition button_step (action l cu flag : Z) (before after : bool) : Prop :=
  (action = AKEY_EVENT_ACTION_DOWN /\ before = has l flag /\ after = has l flag || has cu flag) \/
  (action = AKEY_EVENT_ACTION_UP /\ before = has l flag || has cu flag /\ after = has cu flag).

Lemma button_key_speaks action t pf l cu flag code d g w :
  code = AKEYCODE_BACK \/ code = AKEYCODE_FORWARD -> button_step action l cu flag (button code g) d ->
  speaks (touch_buttonKey c action t pf l cu flag code) g (fun _ w' g' => tw_mapper w' = tw_mapper w /\ g' = with_button code d g) w.
Proof.
  intros Hc Hs. unfold touch_buttonKey.
  assert (button code g = d -> with_button code d g = g) as Hsame by (unfold button, with_button; destruct Hc as [->| ->], g; cbn; by intros <-).
  assert (forall meta dd, button code g = negb dd -> action = (if dd then AKEY_EVENT_ACTION_DOWN else AKEY_EVENT_ACTION_UP) ->
    hear (ts_deviceId c) (NotifyKeyArgs t pf (KeyEntry_new (ts_deviceId c) (ts_source c) action 0 code 0 meta 0 t)) g = Some (with_button code dd g)) as Hk.
  { intros meta dd Hb ->. cbn [hear]. cbn -[hear_key Z.eqb]. rewrite Z.eqb_refl. unfold with_button, button in *.
    destruct g as [lt dt h key b f]. destruct Hc as [->| ->], dd; cbn in Hb; subst; reflexivity. }
  destruct Hs as [(-> & Hb & ->)|(-> & Hb & ->)]; cbn [Z.eqb AKEY_EVENT_ACTION_DOWN AKEY_EVENT_ACTION_UP Pos.eqb andb orb];
    destruct (has l flag), (has cu flag); cbn [negb andb orb] in *;
    first [apply speaks_ret; split; [done|symmetry; by apply Hsame]
          |apply speaks_bind, speaks_gets; eapply speaks_notify; [by apply (Hk _ true)|by intros w' Hw]
          |apply speaks_bind, speaks_gets; eapply speaks_notify; [by apply (Hk _ false)|by intros w' Hw]].
Qed.

Lemma button_keys_speak action t pf back forward g w :
  let l := sm_buttonState (tm_last (tw_mapper w)) in
  let cu := sm_buttonState (tm_current (tw_mapper w)) in
  button_step action l cu AMOTION_EVENT_BUTTON_BACK (ge_back g) back -> button_step action l cu AMOTION_EVENT_BUTTON_FORWARD (ge_forward g) forward ->
  speaks (touch_buttonKeys c action t pf) g (fun _ w' g' => tw_mapper w' = tw_mapper w /\ g' = ge_set_buttons back forward g) w.
Proof.
  intros l cu Hb Hf. unfold touch_buttonKeys. apply speaks_bind, speaks_gets, speaks_bind.
  eapply speaks_mono; [apply (button_key_speaks _ _ _ _ _ _ _ back); [by left|exact Hb]|]. intros [] w1 g1 [Hw ->].
  eapply speaks_mono; [apply (button_key_speaks _ _ _ _ _ _ _ forward); [by right|exact Hf]|]. intros [] w2 g2 [Hw2 ->]. split; [congruence|done].
Qed.

(** *** On the surface *)

Definition key_of (k : CurrentVirtualKeyState) : option (Z * Z * Z) :=
  if cv_down k && negb (cv_ignored k) then Some (cv_keyCode k, cv_scanCode k, cv_downTime k) else None.

Lemma virtual_key_speaks t pf action flags g g' w :
  let k := mCurrentVirtualKey (tw_mapper w) in
  let code := (cv_keyCode k, cv_scanCode k, cv_downTime k) in
  has flags AKEY_EVENT_FLAG_VIRTUAL_HARD_KEY = true ->
  (action = AKEY_EVENT_ACTION_DOWN /\ ge_key g = None /\ g' = ge_set_key (Some code) g) \/
  (action = AKEY_EVENT_ACTION_UP /\ ge_key g = Some code /\ g' = ge_set_key None g) ->
  speaks (dispatchVirtualKey c t pf action flags) g (fun _ w' g'' => tw_mapper w' = tw_mapper w /\ g'' = g') w.
Proof.
  intros k code Hf Hc. unfold dispatchVirtualKey. apply speaks_bind, speaks_gets, speaks_bind, speaks_gets. eapply speaks_notify; [|by intros w' Hw].
  cbn [hear]. cbn -[hear_key Z.eqb]. rewrite Z.eqb_refl. unfold hear_key. cbn -[has]. rewrite Hf.
  destruct Hc as [(-> & Hk & ->)|(-> & Hk & ->)]; cbn; rewrite Hk; by rewrite bool_decide_eq_true_2.
Qed.

(** The mapper is left with another virtual key, which the listener knows. *)
Definition keyed (w : TouchWorld K G) (g : gesture) (w' : TouchWorld K G) (g' : gesture) : Prop :=
  exists k, tw_mapper w' = tm_set_key k (tw_mapper w) /\ g' = ge_set_key (key_of k) g.

Lemma touch_keyed_refl w g w' : tw_mapper w' = tw_mapper w -> ge_key g = key_of (mCurrentVirtualKey (tw_mapper w)) -> keyed w g w' g.
Proof. intros Hw Hk. exists (mCurrentVirtualKey (tw_mapper w)). rewrite <- Hk, Hw. split; [by destruct (tw_mapper w)|by destruct g]. Qed.

Lemma touch_keyed_trans w g w1 g1 w2 g2 : keyed w g w1 g1 -> keyed w1 g1 w2 g2 -> keyed w g w2 g2.
Proof. intros (k1 & Hw1 & ->) (k2 & Hw2 & ->). exists k2. rewrite Hw2, Hw1. by destruct (tw_mapper w), g. Qed.

Lemma touch_keyed_mapper w g w1 g1 w2 : keyed w g w1 g1 -> tw_mapper w2 = tw_mapper w1 -> keyed w g w2 g1.
Proof. intros (k & Hw & Hg) Hw2. exists k. split; [congruence|done]. Qed.

Lemma release_speaks t pf flags g w :
  let k := mCurrentVirtualKey (tw_mapper w) in
  has flags AKEY_EVENT_FLAG_VIRTUAL_HARD_KEY = true -> cv_down k = true -> ge_key g = key_of k ->
  speaks (release_key c t pf flags) g (fun _ w' g' => keyed w g w' g' /\ cv_down (mCurrentVirtualKey (tw_mapper w')) = false) w.
Proof.
  intros k Hf Hd Hk. unfold release_key. apply speaks_bind, speaks_gets. fold k. apply speaks_bind, speaks_put. unfold key_of in Hk. rewrite Hd in Hk. cbn [andb] in Hk.
  destruct (cv_ignored k) eqn:Ei; cbn [negb] in *.
  - apply speaks_ret. split; [|done]. exists (set_key_down false k). split; [done|]. destruct g. cbn in *. by rewrite Hk.
  - eapply speaks_mono; [apply (virtual_key_speaks _ _ _ _ g (ge_set_key None g)); [exact Hf|]; right; split_and!; [done| |done]; cbn; by rewrite Hk|].
    intros [] w' g' [Hw ->]. rewrite Hw. split; [|done]. exists (set_key_down false k). rewrite Hw. done.
Qed.

Lemma press_speaks t pf v g w :
  cv_down (mCurrentVirtualKey (tw_mapper w)) = false -> ge_key g = key_of (mCurrentVirtualKey (tw_mapper w)) ->
  speaks (press_key c t pf v) g (fun _ w' g' => keyed w g w' g') w.
Proof.
  intros Hd Hk. unfold press_key. apply speaks_bind, speaks_gets, speaks_bind, speaks_put. unfold key_of in Hk. rewrite Hd in Hk. cbn [andb] in Hk.
  destruct (t <? mDisableVirtualKeysTimeout (tw_context w)) eqn:Ed; cbn [negb].
  - apply speaks_ret. eexists. split; [reflexivity|]. destruct g. cbn in *. by rewrite Hk.
  - eapply speaks_mono; [apply (virtual_key_speaks _ _ _ _ g); [done|]; left; split_and!; [done|exact Hk|reflexivity]|].
    intros [] w' g' [Hw ->]. eexists. rewrite Hw. split; [reflexivity|done].
Qed.

(** *** The touches *)

Lemma pointer_found d id :
  raw_ok d -> 0 <= id <= 31 -> hasBit (rw_touchingIdBits d) id = true -> exists p, pointerForId id d = Some p /\ rp_id p = id.
Proof.
  intros Hd Hid Hb. apply (rw_touching d Hd id Hid) in Hb as (p & Hp & <- & _). destruct (rw_ids d Hd p Hp) as (_ & j & q & Hj & Hq & Eq).
  exists q. unfold pointerForId. rewrite Hj. cbn. by rewrite Hq.
Qed.

Lemma first_pointer d : raw_ok d -> rw_touchingIdBits d <> 0 -> exists p, pointerForId (firstMarkedBit (rw_touchingIdBits d)) d = Some p.
Proof.
  intros Hd Hn. destruct (first_marked (rw_touchingIdBits d)) as [Hr Hb]; [apply Hd|done|]. destruct (pointer_found d _ Hd Hr Hb) as (p & Hp & _). eauto.
Qed.

Lemma consume_key_speaks t pf g w :
  let m := tw_mapper w in
  raw_ok (sm_raw (tm_current m)) -> ge_key g = key_of (mCurrentVirtualKey m) ->
  speaks (consume_key c t pf) g (fun r w' g' => keyed w g w' g' /\ (r = None -> cv_down (mCurrentVirtualKey (tw_mapper w')) = false)) w.
Proof.
  intros m Hr Hk. unfold consume_key. apply speaks_bind, speaks_gets. fold m. destruct (cv_down (mCurrentVirtualKey m)) eqn:Ed.
  2: { apply speaks_ret. split; [by apply touch_keyed_refl|]. intros _. exact Ed. }
  destruct (isEmpty_spec (rw_touchingIdBits (sm_raw (tm_current m)))) as [E|E].
  { apply speaks_bind. eapply speaks_mono; [apply (release_speaks _ _ _ g w); [reflexivity|exact Ed|exact Hk]|]. intros [] w1 g1 [Hw _]. apply speaks_ret. by split. }
  apply speaks_bind. eapply (speaks_mono _ _ _ (fun _ w' g' => w' = w /\ g' = g)).
  { destruct (bit_count _ =? 1); [|by apply speaks_ret]. destruct (first_pointer _ Hr E) as [p Hp].
    apply speaks_bind. eapply speaks_checked; [exact Hp|]. by apply speaks_ret. }
  intros [] ? ? [-> ->]; [apply speaks_ret; split; [by apply touch_keyed_refl|done]|].
  apply speaks_bind. eapply speaks_mono; [apply (release_speaks _ _ _ g w); [reflexivity|exact Ed|exact Hk]|]. intros [] w1 g1 [Hw Hd]. apply speaks_ret. by split.
Qed.

Lemma consume_speaks t pf g w :
  raw_ok (sm_raw (tm_current (tw_mapper w))) -> ge_key g = key_of (mCurrentVirtualKey (tw_mapper w)) ->
  speaks (consumeRawTouches c t pf) g (fun _ w' g' => keyed w g w' g') w.
Proof.
  intros Hr Hk. unfold consumeRawTouches. apply speaks_bind. eapply speaks_mono; [by apply consume_key_speaks|].
  intros r w1 g1 [Hw Hd]. destruct r as [b|]; [by apply speaks_ret|]. specialize (Hd eq_refl). apply speaks_bind, speaks_gets.
  assert (sm_raw (tm_current (tw_mapper w1)) = sm_raw (tm_current (tw_mapper w))) as Er by (destruct Hw as (k & -> & _); done). rewrite Er.
  assert (ge_key g1 = key_of (mCurrentVirtualKey (tw_mapper w1))) as Hk1 by (destruct Hw as (k & -> & ->); done).
  assert (forall w2 g2, keyed w1 g1 w2 g2 -> keyed w g w2 g2) as Ht by (intros; by eapply touch_keyed_trans).
  set (raw := sm_raw (tm_current (tw_mapper w))) in *. apply speaks_bind. eapply (speaks_mono _ _ _ (fun _ w' g' => keyed w g w' g')).
  - destruct (isEmpty _ && negb (isEmpty (rw_touchingIdBits raw))) eqn:E; [|by apply speaks_ret].
    apply andb_true_iff in E as [_ E%negb_true_iff%Z.eqb_neq]. destruct (first_pointer raw Hr E) as [p Hp].
    apply speaks_bind. eapply speaks_checked; [exact Hp|]. destruct (negb (isPointInsideSurface c (rp_x p) (rp_y p))); [|by apply speaks_ret].
    apply speaks_bind. eapply (speaks_mono _ _ _ (fun _ w' g' => keyed w g w' g')).
    + destruct (bit_count _ =? 1); [|by apply speaks_ret]. destruct (findVirtualKeyHit c (rp_x p) (rp_y p)) as [v|]; [|by apply speaks_ret].
      eapply speaks_mono; [by apply press_speaks|]. intros [] w2 g2 Hw2. by apply Ht.
    + intros [] w2 g2 Hw2. by apply speaks_ret.
  - intros off w2 g2 Hw2. destruct off; [by apply speaks_ret|]. apply speaks_bind. eapply (speaks_mono _ _ _ (fun _ w' g' => keyed w g w' g')).
    + destruct (_ && _); [|by apply speaks_ret]. apply speaks_context; [done|]. intros w3 Hw3. by eapply touch_keyed_mapper.
    + intros [] w3 g3 Hw3. by apply speaks_ret.
Qed.

End Keys.
