(* ===== verification/TouchListener.v ===== *)
(** * Touch devices: the listener is never misled

    The invariant of a touch mapper that does not drive a pointer on the screen, and the theorem: from a reset
    on, with values and numbers of events in a range, its listener is told motions and keys that are in their
    place and that add up to what the mapper holds, unless there is a report of one certain kind ([jolting]) or
    the device gets another surface at the wrong time ([settles]). *)

From Stdlib Require Import SpecFloat.
From stdpp Require Import numbers.
From S2P Require Import Prelude Geometry Input AndroidEvents InputTransport InputState Dispatcher DispatchTargets DispatchLoop ReaderData InputHub.
From S2P Require Import DispatchMemory TouchData TouchIds TouchMatching TouchMapper TouchGestures TouchStream TouchSamples TouchReports.

#[local] Opaque marked hasBit.

(** ** What the listener knows of a mapper *)

Record knows {G} (m : TouchInputMapper G) (g : gesture) : Prop := {
  kn_touching : ge_touching g = marked (ck_touchingIdBits (sm_cooked (tm_last m)));
  kn_time : ge_touching g <> [] -> ge_downTime g = tm_downTime m;
  kn_hovering : ge_hovering g = mSentHoverEnter m;
  kn_key : ge_key g = key_of (mCurrentVirtualKey m);
  kn_back : ge_back g = has (sm_buttonState (tm_last m)) AMOTION_EVENT_BUTTON_BACK;
  kn_forward : ge_forward g = has (sm_buttonState (tm_last m)) AMOTION_EVENT_BUTTON_FORWARD;
}.

(** The sample can be read. *)
Record sample_ok (s : Sample) : Prop := {
  sa_raw : raw_ok (sm_raw s);
  sa_placed : Forall placed (rw_pointers (sm_raw s));
  sa_cooked : cooked_ok (sm_cooked s);
}.

Record mapper_ok {G} (c : TouchSettings) (n : Z) (m : TouchInputMapper G) : Prop := {
  mo_last : sample_ok (tm_last m);
  mo_protocol : protocol_ok (tm_protocol m) /\ slot_within n (tm_protocol m);
  mo_hover : mSentHoverEnter m = true -> ck_touchingIdBits (sm_cooked (tm_last m)) = 0 /\ ck_hoveringIdBits (sm_cooked (tm_last m)) <> 0;
  mo_disabled : mDeviceMode c = DEVICE_MODE_DISABLED ->
    ck_touchingIdBits (sm_cooked (tm_last m)) = 0 /\ sm_buttonState (tm_last m) = 0 /\ mSentHoverEnter m = false;
}.

Lemma cooked_ok_clear d : cooked_ok (cooked_clear d).
Proof.
  split; cbn; try (by intros id ?%elem_of_nil); [unfold MAX_POINTERS; lia|by split|]. intros id _ [Hb|Hb]; by rewrite hasBit_0 in Hb.
Qed.

Lemma sample_ok_clear s : sample_ok (sample_clear s).
Proof. split; cbn; [apply raw_ok_clear|constructor|apply cooked_ok_clear]. Qed.

(** ** The run of a device *)

Inductive touch_input : Set :=
| TouchEvent (e : RawEvent) | TouchReset (t : Z) | TouchTimeout (t : Z) | TouchConfigure (surface : bool) (t : Z) (fresh : TouchSettings).

(** What does not change when a device is configured again. *)
Definition same_device (c fresh : TouchSettings) : Prop :=
  ts_deviceId fresh = ts_deviceId c /\ mRawPointerAxes fresh = mRawPointerAxes c /\ mCalibration fresh = mCalibration c.

(** The values of the axes are between -2^30 and 2^30. *)
Definition input_bounded (c : TouchSettings) (i : touch_input) : Prop :=
  match i with TouchEvent e => event_bounded e | TouchConfigure _ _ fresh => same_device c fresh | _ => True end.

(** The mapper holds nothing: no pointer is down, none hovers, and no key or button is pressed. *)
Definition at_rest {G} (m : TouchInputMapper G) : bool :=
  (ck_touchingIdBits (sm_cooked (tm_last m)) =? 0) && (sm_buttonState (tm_last m) =? 0) && negb (mSentHoverEnter m) &&
  bool_decide (key_of (mCurrentVirtualKey m) = None) && match mPointerUsage m with POINTER_USAGE_NONE => true | _ => false end.

(** The surface may be configured again: nothing is held, and the device becomes or stays inoperable, or is given
    another mode, but does not begin to drive a pointer. *)
Definition settles {G} (c fresh : TouchSettings) (m : TouchInputMapper G) : bool :=
  at_rest m && negb (bool_decide (mDeviceMode fresh = DEVICE_MODE_POINTER)) &&
  (bool_decide (mDeviceMode fresh = DEVICE_MODE_DISABLED) || negb (bool_decide (mDeviceMode fresh = mDeviceMode c))).

Section Run.
Context {K G : Type} `{EventHub K} `{AbsoluteAxes K} `{PointerTranslation K G} `{Libm}.
Context (c : TouchSettings).

Abbreviation T := (M (TouchWorld K G)).

Definition touch_step (i : touch_input) : T unit :=
  match i with
  | TouchEvent e => touch_process c e
  | TouchReset t => touch_device_reset c t
  | TouchTimeout t => touch_timeoutExpired c t
  | TouchConfigure surface t fresh => touch_reconfigure c surface t fresh
  end.

Definition after_input (i : touch_input) : TouchSettings :=
  match i with TouchConfigure surface _ fresh => settings_after c surface fresh | _ => c end.

(** What an event does before the cooked pointers are dispatched. *)
Definition accumulate (e : RawEvent) : T unit :=
  touch_put (fun m => tm_set_accumulators (buttons_process e (tm_buttons m)) (scroll_process e (tm_scroll m))
    (touch_buttons_process e (tm_touchButtons m)) (tm_protocol m) m).
Definition prepare (e : RawEvent) : T Z := accumulate e ;; have ← sync_gather c ; sync_prepare c (re_when e) have.

(** The event is a report that changes the buttons and in which no pointer that was down stays down, while
    some go down or up. *)
Definition jolting (e : RawEvent) (w : TouchWorld K G) : bool :=
  is_report e && negb (bool_decide (mDeviceMode c = DEVICE_MODE_DISABLED)) &&
  match prepare e w with Ret _ w' => jolted (tw_mapper w') | _ => false end.

(** ** Steps *)

Context (ready : touch_ready c).
Context (direct : mDeviceMode c <> DEVICE_MODE_POINTER).

Abbreviation speaks := (speaks (K:=K) (G:=G) (ts_deviceId c)).

(** What the parts of a report before its dispatch leave alone. *)
Definition remembers (m m' : TouchInputMapper G) : Prop :=
  tm_last m' = tm_last m /\ mSentHoverEnter m' = mSentHoverEnter m /\ tm_downTime m' = tm_downTime m.

Lemma gather_speaks n g w :
  protocol_ok (tm_protocol (tw_mapper w)) -> slot_within n (tm_protocol (tw_mapper w)) -> -1 <= n ->
  speaks (sync_gather c) g (fun have w' g' => g' = g /\ remembers (tw_mapper w) (tw_mapper w') /\
    mCurrentVirtualKey (tw_mapper w') = mCurrentVirtualKey (tw_mapper w) /\
    protocol_ok (tm_protocol (tw_mapper w')) /\ slot_within n (tm_protocol (tw_mapper w')) /\
    let s := tm_current (tw_mapper w') in
    cooked_ok (sm_cooked s) /\ ck_touchingIdBits (sm_cooked s) = 0 /\
    (length (rw_pointers (sm_raw s)) <= MAX_POINTERS)%nat /\ Forall placed (rw_pointers (sm_raw s)) /\ (have = true -> raw_ok (sm_raw s))) w.
Proof.
  intros Hp Hs Hn. unfold sync_gather. apply speaks_bind, speaks_gets, speaks_bind.
  destruct (syncTouch_spec (mRawPointerAxes c) (tm_touchButtons (tw_mapper w)) _ (sm_raw (tm_current (tw_mapper w))) n Hp Hs Hn)
    as (raw & have & p & Hy & A1 & A2 & A3 & A4 & A5).
  eapply speaks_checked; [exact Hy|]. apply speaks_bind, speaks_put, speaks_ret. cbn.
  split; [done|]. split; [done|]. split; [done|]. split; [exact A1|]. split; [exact A2|]. split; [apply cooked_ok_clear|]. done.
Qed.

Lemma assign_speaks g w :
  let m := tw_mapper w in
  sample_ok (tm_last m) -> (length (rw_pointers (sm_raw (tm_current m))) <= MAX_POINTERS)%nat -> Forall placed (rw_pointers (sm_raw (tm_current m))) ->
  speaks sync_assign g (fun _ w' g' => g' = g /\ exists raw, tw_mapper w' = tm_set_current (sm_set_raw raw (tm_current m)) m /\
    raw_ok raw /\ Forall placed (rw_pointers raw)) w.
Proof.
  intros m Hl Hc Hp. unfold sync_assign. apply speaks_bind, speaks_gets, speaks_bind. fold m.
  destruct (assign_given (sm_raw (tm_current m)) (sm_raw (tm_last m)) (sa_raw _ Hl) Hc Hp (sa_placed _ Hl)) as (els & l & d & _ & _ & _ & Hd & Hg & Hcm).
  eapply speaks_checked; [exact Hd|]. unfold current_put. apply speaks_put. split; [done|]. exists d. split; [done|]. split; [by eapply given_ok|].
  apply Forall_lookup. intros i p Hi. destruct (lookup_lt_is_Some_2 (rw_pointers (sm_raw (tm_current m))) i) as [p0 H0p].
  { pose proof (gv_length _ _ _ Hg) as El. cbn in El. rewrite <- El. by eapply lookup_lt_Some. }
  destruct (proj1 (complete_lookup _ _ i Hcm)) as [id Hid]; [by eexists|]. rewrite (gv_new _ _ _ Hg _ _ _ Hid H0p) in Hi. injection Hi as <-.
  apply (proj1 (Forall_lookup _ _) Hp _ _ H0p).
Qed.

(** The last report with the keys of the buttons of both. *)
Definition between (m m' : TouchInputMapper G) (g g' : gesture) : Prop :=
  let l := sm_buttonState (tm_last m) in
  let cu := sm_buttonState (tm_current m') in
  g' = ge_set_buttons (has l AMOTION_EVENT_BUTTON_BACK || has cu AMOTION_EVENT_BUTTON_BACK)
         (has l AMOTION_EVENT_BUTTON_FORWARD || has cu AMOTION_EVENT_BUTTON_FORWARD) (ge_set_key (key_of (mCurrentVirtualKey m')) g).

Lemma prepare_speaks t have g w :
  let m := tw_mapper w in
  sample_ok (tm_last m) -> knows m g -> cooked_ok (sm_cooked (tm_current m)) ->
  (length (rw_pointers (sm_raw (tm_current m))) <= MAX_POINTERS)%nat -> Forall placed (rw_pointers (sm_raw (tm_current m))) ->
  (have = true -> raw_ok (sm_raw (tm_current m))) ->
  speaks (sync_prepare c t have) g (fun _ w' g' => let m' := tw_mapper w' in
    remembers m m' /\ tm_protocol m' = tm_protocol m /\ sample_ok (tm_current m') /\ between m m' g g') w.
Proof.
  intros m Hl Hk Hcc Hn Hp Hr. unfold sync_prepare. apply speaks_bind.
  eapply (speaks_mono _ _ _ (fun _ w' g' => g' = g /\ exists raw, tw_mapper w' = tm_set_current (sm_set_raw raw (tm_current m)) m /\ raw_ok raw /\ Forall placed (rw_pointers raw))).
  { destruct have; [|by apply assign_speaks]. apply speaks_ret. split; [done|]. exists (sm_raw (tm_current m)). split_and!; [|by apply Hr|done].
    fold m. destruct m as [? ? ? ? [] ?]. done. }
  intros [] w1 g1 (-> & raw & Hw1 & Hraw & Hpl). apply speaks_bind. unfold sync_policyFlags. apply speaks_bind, speaks_gets, speaks_ret.
  set (pf := when _ _ _). clearbody pf. apply speaks_bind. eapply speaks_mono; [apply button_keys_speak|].
  { left. split; [done|]. split; [|reflexivity]. rewrite Hw1. apply Hk. }
  { left. split; [done|]. split; [|reflexivity]. rewrite Hw1. apply Hk. }
  intros [] w2 g2 [Hw2 ->]. apply speaks_bind. eapply speaks_mono; [apply consume_speaks; rewrite Hw2, Hw1; [exact Hraw|apply Hk]|].
  intros consumed w3 g3 (k & Hw3 & ->). apply speaks_bind.
  eapply (speaks_mono _ _ _ (fun _ w' g' => g' = ge_set_key (key_of k) _ /\ exists raw', tw_mapper w' = tm_set_key k (tm_set_current (sm_set_raw raw' (tm_current m)) m) /\
    raw_ok raw' /\ Forall placed (rw_pointers raw'))).
  { rewrite Hw2, Hw1 in Hw3. destruct consumed; [apply speaks_put|apply speaks_ret]; (split; [reflexivity|]).
    - eexists. cbn. rewrite Hw3. split; [reflexivity|]. split; [apply raw_ok_clear|constructor].
    - exists raw. done. }
  intros [] w4 g4 (-> & raw' & Hw4 & Hraw' & Hpl'). apply speaks_bind. unfold sync_cook. apply speaks_bind, speaks_gets, speaks_bind.
  destruct (cook_spec c ready raw' (sm_cooked (tm_current m)) Hraw' Hpl') as (d & Hd & Hok & Et & Eh).
  eapply speaks_checked; [rewrite Hw4; exact Hd|]. unfold current_put. apply speaks_put, speaks_ret. cbn. rewrite Hw4.
  split; [done|]. split; [done|]. split; [by split|]. unfold between. cbn. rewrite Hw1. cbn. by destruct g.
Qed.

(** *** The dispatch *)

(** A report that has been prepared. *)
Record prepared (m : TouchInputMapper G) (g : gesture) : Prop := {
  pr_last : cooked_ok (sm_cooked (tm_last m));
  pr_current : cooked_ok (sm_cooked (tm_current m));
  pr_touching : ge_touching g = marked (ck_touchingIdBits (sm_cooked (tm_last m)));
  pr_time : ck_touchingIdBits (sm_cooked (tm_last m)) <> 0 -> ge_downTime g = tm_downTime m;
  pr_hovering : ge_hovering g = mSentHoverEnter m;
  pr_hover : mSentHoverEnter m = true -> ck_touchingIdBits (sm_cooked (tm_last m)) = 0 /\ ck_hoveringIdBits (sm_cooked (tm_last m)) <> 0;
}.

Lemma spots_speak g w : speaks (show_spots c) g (fun _ w' g' => tw_mapper w' = tw_mapper w /\ g' = g) w.
Proof.
  unfold show_spots. apply speaks_bind, speaks_gets. destruct (_ && _); [|by apply speaks_ret]. by apply speaks_context.
Qed.

(** Hovering has ended where a pointer is down. *)
Definition stays (m : TouchInputMapper G) : bool :=
  let cur := sm_cooked (tm_current m) in
  mSentHoverEnter m && negb (isEmpty (ck_hoveringIdBits cur) || negb (isEmpty (ck_touchingIdBits cur))).

(** What the report leaves, for the pointers of the current sample. *)
Record dispatched (m m' : TouchInputMapper G) (g g' : gesture) : Prop := {
  di_frame : tm_current m' = tm_current m /\ tm_protocol m' = tm_protocol m /\ mCurrentVirtualKey m' = mCurrentVirtualKey m;
  di_touching : ge_touching g' = marked (ck_touchingIdBits (sm_cooked (tm_current m)));
  di_time : ck_touchingIdBits (sm_cooked (tm_current m)) <> 0 -> ge_downTime g' = tm_downTime m';
  di_hovering : ge_hovering g' = mSentHoverEnter m';
  di_hover : mSentHoverEnter m' = true -> ck_touchingIdBits (sm_cooked (tm_current m)) = 0 /\ ck_hoveringIdBits (sm_cooked (tm_current m)) <> 0;
  di_keys : ge_key g' = ge_key g /\ ge_back g' = has (sm_buttonState (tm_current m)) AMOTION_EVENT_BUTTON_BACK /\
    ge_forward g' = has (sm_buttonState (tm_current m)) AMOTION_EVENT_BUTTON_FORWARD;
}.

Lemma stays_spec m : stays m = true -> ck_touchingIdBits (sm_cooked (tm_current m)) = 0 /\ ck_hoveringIdBits (sm_cooked (tm_current m)) <> 0.
Proof.
  unfold stays. destruct (mSentHoverEnter m); [|done]. destruct (isEmpty_spec (ck_hoveringIdBits (sm_cooked (tm_current m)))); [done|].
  destruct (isEmpty_spec (ck_touchingIdBits (sm_cooked (tm_current m)))); done.
Qed.

Lemma enters_spec m :
  isEmpty (ck_touchingIdBits (sm_cooked (tm_current m))) && negb (isEmpty (ck_hoveringIdBits (sm_cooked (tm_current m)))) || stays m = true ->
  ck_touchingIdBits (sm_cooked (tm_current m)) = 0 /\ ck_hoveringIdBits (sm_cooked (tm_current m)) <> 0.
Proof.
  intros [He|Hs]%orb_true_iff; [|by apply stays_spec]. apply andb_true_iff in He as [?%Z.eqb_eq ?%negb_true_iff%Z.eqb_neq]. done.
Qed.

Lemma sync_dispatch_speaks t pf g w :
  let m := tw_mapper w in
  prepared m g -> jolted m = false ->
  ge_back g = has (sm_buttonState (tm_last m)) AMOTION_EVENT_BUTTON_BACK || has (sm_buttonState (tm_current m)) AMOTION_EVENT_BUTTON_BACK ->
  ge_forward g = has (sm_buttonState (tm_last m)) AMOTION_EVENT_BUTTON_FORWARD || has (sm_buttonState (tm_current m)) AMOTION_EVENT_BUTTON_FORWARD ->
  speaks (sync_dispatch c t pf) g (fun _ w' g' => dispatched m (tw_mapper w') g g') w.
Proof.
  intros m Hp Hj Hb Hf. unfold sync_dispatch. apply speaks_bind. rewrite bool_decide_eq_false_2 by exact direct.
  pose proof Hp as [A1 A2 A3 A4 A5 A6].
  eapply (speaks_mono _ _ _ (fun _ w' g' => exists b t', frame b m (tw_mapper w') /\
    g' = ge_set_hovering b (ge_set_touching (marked (ck_touchingIdBits (sm_cooked (tm_current m)))) t' g) /\
    (ck_touchingIdBits (sm_cooked (tm_current m)) <> 0 -> t' = tm_downTime (tw_mapper w')) /\
    (b = true -> ck_touchingIdBits (sm_cooked (tm_current m)) = 0 /\ ck_hoveringIdBits (sm_cooked (tm_current m)) <> 0))).
  - apply speaks_bind. eapply speaks_mono; [apply spots_speak|]. intros [] w0 g0 [Hw0 ->].
    apply speaks_bind. eapply speaks_mono; [apply (hover_exit_speaks c t pf g w0); rewrite Hw0; done|].
    intros [] w1 g1 [Hw1 ->]. unfold hovers_as in Hw1. rewrite Hw0 in *. change (mSentHoverEnter (tw_mapper w) && _) with (stays m) in *.
    apply speaks_bind. eapply speaks_mono; [apply (touches_speak c t pf _ w1); rewrite Hw1; try done|].
    { intros Hne. cbn. destruct (stays m) eqn:Es; [|done]. by destruct (stays_spec m Es). }
    intros [] w2 g2 (t' & Hfr & -> & Ht). rewrite Hw1 in Hfr, Ht. cbn in Ht. destruct Hfr as (F1 & F2 & F3 & F4 & F5). cbn in F1, F2, F3, F4, F5.
    eapply speaks_mono; [apply (hover_enter_speaks c t pf _ w2); rewrite ?F1, ?F5; [exact A2|rewrite Hw1; reflexivity|reflexivity]|].
    intros [] w3 g3 [Hw3 ->]. unfold hovers_as in Hw3. rewrite F1, F5 in Hw3. rewrite F1, F5. eexists _, t'. rewrite Hw3. split; [|split; [|split]].
    + split_and!; [exact F1|exact F2|exact F3|exact F4|reflexivity].
    + rewrite Hw1. destruct g. reflexivity.
    + exact Ht.
    + apply enters_spec.
  - intros [] w1 g1 (b & t' & (F1 & F2 & F3 & F4 & F5) & -> & Ht & Hh).
    eapply speaks_mono; [apply (button_keys_speak c _ t pf (has (sm_buttonState (tm_current m)) AMOTION_EVENT_BUTTON_BACK) (has (sm_buttonState (tm_current m)) AMOTION_EVENT_BUTTON_FORWARD))|].
    { right. split; [done|]. split; [|by rewrite F1]. cbn. by rewrite Hb, F1, F2. }
    { right. split; [done|]. split; [|by rewrite F1]. cbn. by rewrite Hf, F1, F2. }
    intros [] w2 g2 [Hw2 ->]. rewrite <- Hw2 in F1, F3, F4, F5, Ht. split.
    + split; [exact F1|]. split; [exact F3|exact F4].
    + reflexivity.
    + exact Ht.
    + rewrite F5. reflexivity.
    + rewrite F5. exact Hh.
    + split; [reflexivity|]. split; reflexivity.
Qed.

(** The mapper stops at such a report. *)
Lemma sync_dispatch_breaks t pf g w : prepared (tw_mapper w) g -> jolted (tw_mapper w) = true -> sync_dispatch c t pf w = Undef.
Proof.
  intros Hp Hj. unfold sync_dispatch. rewrite bool_decide_eq_false_2 by exact direct. pose proof Hp as [A1 A2 A3 A4 A5 A6].
  assert ((show_spots c ;; dispatchHoverExit c t pf ;; dispatchTouches c t pf ;; dispatchHoverEnterAndMove c t pf) w = Undef) as E.
  { eapply (undefined_after c _ _ g), speaks_mono; [apply spots_speak|]. intros [] w0 g0 [Hw0 ->].
    eapply (undefined_after c _ _ g), speaks_mono; [apply (hover_exit_speaks c t pf g w0); rewrite Hw0; done|].
    intros [] w1 g1 [Hw1 ->]. unfold hovers_as in Hw1. rewrite Hw0 in *. unfold mbind, M_bind.
    rewrite (touches_break c t pf (ge_set_hovering (mSentHoverEnter (tw_mapper w)) g) w1); [done|rewrite Hw1..]; done. }
  unfold mbind at 1. unfold M_bind at 1. by rewrite E.
Qed.

(** *** The end of a report *)

Lemma finish_speaks g w :
  sample_ok (tm_current (tw_mapper w)) ->
  speaks sync_finish g (fun _ w' g' => g' = g /\ let m := tw_mapper w in let m' := tw_mapper w' in
    sample_ok (tm_last m') /\ ck_touchingIdBits (sm_cooked (tm_last m')) = ck_touchingIdBits (sm_cooked (tm_current m)) /\
    ck_hoveringIdBits (sm_cooked (tm_last m')) = ck_hoveringIdBits (sm_cooked (tm_current m)) /\
    sm_buttonState (tm_last m') = sm_buttonState (tm_current m) /\ tm_protocol m' = tm_protocol m /\ mSentHoverEnter m' = mSentHoverEnter m /\
    tm_downTime m' = tm_downTime m /\ mCurrentVirtualKey m' = mCurrentVirtualKey m) w.
Proof.
  intros [H1s H2s H3s]. unfold sync_finish. apply speaks_bind, speaks_gets, speaks_bind.
  destruct (raw_copy_spec _ (sm_raw (tm_last (tw_mapper w))) H1s) as (raw & Hr & Hro & Erp). eapply speaks_checked; [exact Hr|]. apply speaks_bind.
  destruct (cooked_copy_spec _ (sm_cooked (tm_last (tw_mapper w))) H3s) as (ck & Hc & Hco & Et & Eh). eapply speaks_checked; [exact Hc|].
  apply speaks_put. split; [done|]. cbn. split; [|done]. split; cbn; [done|by rewrite Erp|done].
Qed.

Definition touch_inv (n : Z) (w : TouchWorld K G) (g : gesture) : Prop := mapper_ok c n (tw_mapper w) /\ knows (tw_mapper w) g.

Lemma knows_same (m m' : TouchInputMapper G) g : remembers m m' -> mCurrentVirtualKey m' = mCurrentVirtualKey m -> knows m g -> knows m' g.
Proof. intros (El & Eh & Et) Ek [B1 B2 B3 B4 B5 B6]. split; rewrite ?El, ?Eh, ?Et, ?Ek; done. Qed.

Lemma prepared_after n (m m1 m' : TouchInputMapper G) g g' :
  mapper_ok c n m -> knows m g -> remembers m m1 -> remembers m1 m' -> sample_ok (tm_current m') -> between m1 m' g g' ->
  prepared m' g' /\ ge_key g' = key_of (mCurrentVirtualKey m') /\
  ge_back g' = has (sm_buttonState (tm_last m')) AMOTION_EVENT_BUTTON_BACK || has (sm_buttonState (tm_current m')) AMOTION_EVENT_BUTTON_BACK /\
  ge_forward g' = has (sm_buttonState (tm_last m')) AMOTION_EVENT_BUTTON_FORWARD || has (sm_buttonState (tm_current m')) AMOTION_EVENT_BUTTON_FORWARD.
Proof.
  intros [M1 M2 M3 M4] [B1 B2 B3 B4 B5 B6] (El & Eh & Et) (El' & Eh' & Et') Hc ->. rewrite <- El'. split; [|done]. rewrite El in *.
  split; rewrite ?El', ?Eh', ?Et', ?El, ?Eh, ?Et; [apply M1|apply Hc|exact B1| |exact B3|exact M3].
  intros Hne. apply B2. rewrite B1. apply marked_not_nil; [|done]. apply (co_bits _ (sa_cooked _ M1)).
Qed.

Lemma dispatched_inv n (m m1 m' : TouchInputMapper G) g g1 :
  mDeviceMode c <> DEVICE_MODE_DISABLED -> protocol_ok (tm_protocol m) -> slot_within n (tm_protocol m) ->
  ge_key g = key_of (mCurrentVirtualKey m) -> dispatched m m1 g g1 -> sample_ok (tm_last m') ->
  ck_touchingIdBits (sm_cooked (tm_last m')) = ck_touchingIdBits (sm_cooked (tm_current m1)) ->
  ck_hoveringIdBits (sm_cooked (tm_last m')) = ck_hoveringIdBits (sm_cooked (tm_current m1)) ->
  sm_buttonState (tm_last m') = sm_buttonState (tm_current m1) -> tm_protocol m' = tm_protocol m1 -> mSentHoverEnter m' = mSentHoverEnter m1 ->
  tm_downTime m' = tm_downTime m1 -> mCurrentVirtualKey m' = mCurrentVirtualKey m1 -> mapper_ok c n m' /\ knows m' g1.
Proof.
  intros Hd Hp Hs Hk [(D1 & D2 & D3) D4 D5 D6 D7 (D8 & D9 & D10)] Hl Et Eh Eb Ep Es Edt Ek. rewrite D1 in Et, Eh, Eb. split; split.
  - exact Hl.
  - by rewrite Ep, D2.
  - rewrite Es, Et, Eh. exact D7.
  - intros E. by destruct Hd.
  - by rewrite Et.
  - intros Hne. rewrite Edt. apply D5. intros E0. apply Hne. by rewrite D4, E0, marked_0.
  - by rewrite Es.
  - by rewrite D8, Ek, D3.
  - by rewrite Eb.
  - by rewrite Eb.
Qed.

Lemma sync_speaks n t g w :
  touch_inv n w g -> -1 <= n ->
  (mDeviceMode c <> DEVICE_MODE_DISABLED -> forall have w1 pf w2, sync_gather c w = Ret have w1 -> sync_prepare c t have w1 = Ret pf w2 -> jolted (tw_mapper w2) = false) ->
  speaks (touch_sync c t) g (fun _ w' g' => touch_inv n w' g') w.
Proof.
  intros [Hm Hk] Hn Hj. unfold touch_sync. apply speaks_bind.
  eapply speaks_mono; [apply speaks_result, (gather_speaks n g w); [apply Hm|apply Hm|exact Hn]|].
  intros have w1 g1 [(-> & Hr & Ek & Hp & Hs & Hcc & Hc0 & Hlen & Hpl & Hraw) Eg].
  assert (knows (tw_mapper w1) g) as Hk1 by (by eapply knows_same). case_bool_decide as Ed.
  - apply speaks_bind. unfold current_put. apply speaks_put. eapply speaks_mono; [apply finish_speaks; split; cbn; [apply raw_ok_clear|constructor|exact Hcc]|].
    intros [] w2 g2 (-> & Hl2 & Et2 & Eh2 & Eb2 & Ep2 & Es2 & Edt2 & Ek2). cbn in Et2, Eh2, Eb2, Ep2, Es2, Edt2, Ek2. rewrite Hc0 in Et2.
    destruct (mo_disabled _ _ _ Hm Ed) as (Z1 & Z2 & Z3). destruct Hr as (R1 & R2 & R3). destruct Hk1 as [B1 B2 B3 B4 B5 B6].
    rewrite R1 in B1, B5, B6. rewrite Z1 in B1. rewrite Z2 in B5, B6. assert (mSentHoverEnter (tw_mapper w2) = false) as Hsent by congruence.
    split; split; rewrite ?Et2, ?Eb2, ?Ep2, ?Edt2, ?Ek2, ?Hsent; try done. by rewrite B3, R2.
  - specialize (Hj Ed). apply speaks_bind, speaks_bind. eapply speaks_mono; [apply speaks_result, prepare_speaks; try done|].
    { destruct Hr as (-> & _). apply Hm. }
    intros pf w2 g2 [(Hr2 & Ep2 & Hs2 & Hb2) Eprep]. specialize (Hj _ _ _ _ Eg Eprep).
    destruct (prepared_after n _ _ _ _ _ Hm Hk Hr Hr2 Hs2 Hb2) as (Hpr & Hk2 & Hback & Hforw).
    eapply speaks_mono; [by apply sync_dispatch_speaks|]. intros [] w3 g3 Hd. eapply speaks_mono; [apply finish_speaks|].
    { destruct Hd as [(-> & _) _ _ _ _ _]. exact Hs2. }
    intros [] w4 g4 (-> & F1 & F2 & F3 & F4 & F5 & F6 & F7 & F8).
    eapply (dispatched_inv n _ _ (tw_mapper w4)); [exact Ed|by rewrite Ep2|by rewrite Ep2|exact Hk2|exact Hd|done..].
Qed.

Lemma sync_breaks n t g w have w1 pf w2 :
  touch_inv n w g -> -1 <= n -> mDeviceMode c <> DEVICE_MODE_DISABLED ->
  sync_gather c w = Ret have w1 -> sync_prepare c t have w1 = Ret pf w2 -> jolted (tw_mapper w2) = true -> touch_sync c t w = Undef.
Proof.
  intros [Hm Hk] Hn Ed Eg Ep Hj. unfold touch_sync. eapply (undefined_after c _ _ g).
  eapply speaks_mono; [apply speaks_result, (gather_speaks n g w); [apply Hm|apply Hm|exact Hn]|].
  intros have' w1' g1 [(-> & Hr & Ek & Hp & Hs & Hcc & Hc0 & Hlen & Hpl & Hraw) Eg']. rewrite Eg in Eg'. injection Eg' as <- <-.
  assert (knows (tw_mapper w1) g) as Hk1 by (by eapply knows_same). rewrite bool_decide_eq_false_2 by exact Ed.
  assert ((pf ← sync_prepare c t have ; sync_dispatch c t pf) w1 = Undef) as E; [|unfold mbind at 1; unfold M_bind at 1; by rewrite E].
  eapply (undefined_after c _ _ g), speaks_mono; [apply speaks_result, (prepare_speaks t have g w1); try done|].
  { destruct Hr as (-> & _). apply Hm. }
  intros pf' w2' g2 [(Hr2 & Ep2 & Hs2 & Hb2) Eprep]. rewrite Ep in Eprep. injection Eprep as <- <-.
  destruct (prepared_after n _ _ _ _ _ Hm Hk Hr Hr2 Hs2 Hb2) as (Hpr & _). by eapply sync_dispatch_breaks.
Qed.

(** *** Events *)

Lemma slot_within_mono n n' p : slot_within n p -> n <= n' -> slot_within n' p.
Proof. destruct p; cbn; [done|lia]. Qed.

Lemma accumulated n e g w : touch_inv n w g -> exists w1, accumulate e w = Ret tt w1 /\ touch_inv n w1 g.
Proof. intros [[M1 M2 M3 M4] [B1 B2 B3 B4 B5 B6]]. eexists. split; [reflexivity|]. split; split; done. Qed.

(** After the report the derived class takes the event. *)
Lemma taken_speaks n e g w :
  event_bounded e -> 1073741824 <= n < 2147483647 -> touch_inv n w g ->
  speaks (m ← touch_mapper ; p ← checked (protocol_process e (tm_protocol m)) ;
          touch_put (fun m => tm_set_accumulators (tm_buttons m) (tm_scroll m) (tm_touchButtons m) p m)) g
    (fun _ w' g' => touch_inv (n + 1) w' g') w.
Proof.
  intros He Hn [[M1 [M2 M2'] M3 M4] [B1 B2 B3 B4 B5 B6]]. apply speaks_bind, speaks_gets, speaks_bind.
  destruct (protocol_process_spec e _ n He M2 M2' Hn) as (p & Hp & Hok & Hs). eapply speaks_checked; [exact Hp|]. apply speaks_put. split; split; done.
Qed.

Lemma process_speaks n e g w :
  event_bounded e -> 1073741824 <= n < 2147483647 -> touch_inv n w g -> jolting e w = false ->
  speaks (touch_process c e) g (fun _ w' g' => touch_inv (n + 1) w' g') w.
Proof.
  intros He Hn Hi Hj. unfold touch_process. apply speaks_bind. destruct (accumulated n e g w Hi) as (w1 & Ea & Hi1).
  apply speaks_put. injection Ea as Ea. rewrite Ea. apply speaks_bind.
  eapply (speaks_mono _ _ _ (fun _ w' g' => touch_inv n w' g')); [|intros [] w' g' Hi'; by apply taken_speaks].
  destruct (is_report e) eqn:Er; [|by apply speaks_ret]. apply (sync_speaks n _ g w1 Hi1); [lia|].
  intros Ed have w2 pf w3 Eg Ep. unfold jolting in Hj. rewrite Er, bool_decide_eq_false_2 in Hj by exact Ed. cbn [andb negb] in Hj.
  unfold prepare, accumulate, touch_put, modify, mbind, M_bind in Hj. cbn in Hj. rewrite Ea, Eg, Ep in Hj. exact Hj.
Qed.

Lemma process_breaks n e g w : 1073741824 <= n < 2147483647 -> touch_inv n w g -> jolting e w = true -> touch_process c e w = Undef.
Proof.
  intros Hn Hi Hj. unfold jolting in Hj. apply andb_true_iff in Hj as [[Er Ed]%andb_true_iff Hj]. apply negb_true_iff, bool_decide_eq_false in Ed.
  destruct (accumulated n e g w Hi) as (w1 & Ea & Hi1). unfold prepare in Hj. destruct ((accumulate e ;; _) w) as [pf w3| | |] eqn:E; try done.
  unfold mbind at 1, M_bind at 1 in E. rewrite Ea in E. unfold mbind, M_bind in E. destruct (sync_gather c w1) as [have w2| | |] eqn:Eg; try done.
  assert (touch_sync c (re_when e) w1 = Undef) as Hu by (eapply (sync_breaks n _ g w1); [done|lia|done..]).
  unfold touch_process. rewrite Er. unfold mbind at 1, M_bind at 1. change (touch_put _ w) with (accumulate e w). rewrite Ea. unfold mbind at 1, M_bind at 1. by rewrite Hu.
Qed.

(** *** Resets *)

(** The values of the hub's axes are those of a device. *)
Definition axes_bounded (k : K) : Prop := forall a v, hub_getAbsoluteAxisValue (ts_deviceId c) a k = Some v -> coordinate v.

Lemma protocol_reset_ok k p :
  axes_bounded k -> protocol_ok (protocol_reset c k p) /\ slot_within 1073741824 (protocol_reset c k p).
Proof.
  intros Ha. assert (forall a, coordinate (default 0 (hub_getAbsoluteAxisValue (ts_deviceId c) a k))) as Hd.
  { intros a. destruct (hub_getAbsoluteAxisValue _ a k) as [v|] eqn:E; [by apply (Ha a)|]. cbn. unfold coordinate. lia. }
  destruct p as [a|a v ti]; cbn.
  - split; [|done]. split; apply Hd.
  - split; [split; [apply clear_placed|]; split; [by split|]; intros id Hid; rewrite marked_0 in Hid; by apply elem_of_nil in Hid|].
    destruct (mUsingSlotsProtocol a); [|lia]. destruct (hub_getAbsoluteAxisValue _ ABS_MT_SLOT k) as [s|] eqn:E; cbn; [|lia].
    destruct (Ha _ _ E). lia.
Qed.

Lemma reset_speaks t g w :
  axes_bounded (world_of w) ->
  speaks (touch_device_reset c t) g (fun _ w' g' => touch_inv 1073741824 w' g') w.
Proof.
  intros Ha. unfold touch_device_reset, touch_reset. apply speaks_bind, speaks_bind, speaks_gets, speaks_put. eapply speaks_notify; [cbn; by rewrite Z.eqb_refl|].
  intros w' Hw. split; rewrite Hw; split; cbn; try done.
  - apply sample_ok_clear.
  - by apply protocol_reset_ok.
Qed.

(** *** Runs *)

Lemma world_kept {A} (op : M (TouchWorld K G) A) g Q w :
  speaks op g Q w -> speaks op g (fun a w' g' => Q a w' g' /\ world_of w' = world_of w) w.
Proof. intros Hs. eapply returns_mono; [exact Hs|]. intros a w' (l & g' & Eq & Ew & Hh & HQ). exists l, g'. by split_and!. Qed.

Lemma inv_mono n n' w g : touch_inv n w g -> n <= n' -> touch_inv n' w g.
Proof. intros [[M1 [M2 M2'] M3 M4] Hk] Hn. split; [split; try done|done]. split; [done|by eapply slot_within_mono]. Qed.

End Run.

Section Runs.
Context {K G : Type} `{EventHub K} `{AbsoluteAxes K} `{PointerTranslation K G} `{Libm}.
Implicit Types c fresh : TouchSettings.

Abbreviation T := (M (TouchWorld K G)).

(** Each input, with the settings that those before it have left. *)
Fixpoint touch_run c (l : list touch_input) : T unit :=
  match l with [] => mret tt | i :: l' => touch_step c i ;; touch_run (after_input c i) l' end.

Definition settings_of c (l : list touch_input) : TouchSettings := fold_left after_input l c.

Lemma settings_after_same c0 c surface fresh : same_device c0 c -> same_device c0 fresh -> same_device c0 (settings_after c surface fresh).
Proof. intros (A1 & A2 & A3) (B1 & B2 & B3). unfold settings_after. repeat case_match; by split_and!. Qed.

Lemma ready_same c0 c : same_device c0 c -> touch_ready c0 -> touch_ready c.
Proof. intros (_ & Ha & Hc) [R1 R2 R3]. split; rewrite ?Ha, ?Hc; done. Qed.

Lemma after_mode c surface fresh :
  mDeviceMode (settings_after c surface fresh) = if surface then mDeviceMode fresh else mDeviceMode c.
Proof. unfold settings_after. destruct surface; [|done]. cbn. case_bool_decide as E; [by rewrite E|done]. Qed.

(** Another configuration, for a mapper that holds nothing. *)
Lemma reconfigure_speaks n c surface t fresh g (w : TouchWorld K G) :
  touch_inv c n w g -> (surface = true -> settles c fresh (tw_mapper w) = true) ->
  speaks (ts_deviceId c) (touch_reconfigure c surface t fresh) g
    (fun _ w' g' => touch_inv (settings_after c surface fresh) n w' g') w.
Proof.
  intros [[M1 M2 M3 M4] Hk] Hs. unfold touch_reconfigure. destruct surface; cbn [negb].
  2: { apply speaks_ret. split; [split; try done; by rewrite after_mode|done]. }
  specialize (Hs eq_refl). unfold settles, at_rest in Hs. rewrite !andb_true_iff, !Z.eqb_eq, !negb_true_iff, bool_decide_eq_true in Hs.
  destruct Hs as [[[[[[H1' H2'] H3'] H4'] H5'] _] Hm].
  assert (forall w' : TouchWorld K G, tm_last (tw_mapper w') = tm_last (tw_mapper w) -> tm_protocol (tw_mapper w') = tm_protocol (tw_mapper w) ->
    mSentHoverEnter (tw_mapper w') = false -> mapper_ok (settings_after c true fresh) n (tw_mapper w')) as Hok.
  { intros w' El Ep Eh. split; rewrite ?El, ?Ep, ?Eh; done. }
  destruct (bool_decide (mDeviceMode fresh = DEVICE_MODE_DISABLED)); [apply speaks_ret; split; [by apply Hok|done]|].
  destruct (bool_decide (mDeviceMode fresh = mDeviceMode c)); [done|]. apply speaks_bind. unfold abortPointerUsage. apply speaks_bind, speaks_gets.
  destruct (mPointerUsage (tw_mapper w)); try done. apply speaks_bind, speaks_ret, speaks_put, speaks_bind, speaks_context; [done|].
  intros w1 E1. eapply speaks_notify; [cbn; by rewrite Z.eqb_refl|]. intros w2 E2. rewrite <- E2 in E1. split; [apply Hok; by rewrite E1|].
  split; rewrite E1; cbn; rewrite ?H1', ?H2', ?H3', ?H4'; done.
Qed.

Lemma step_speaks n c i g (w : TouchWorld K G) :
  touch_ready c -> mDeviceMode c <> DEVICE_MODE_POINTER -> input_bounded c i -> axes_bounded c (world_of w) ->
  1073741824 <= n < 2147483647 -> touch_inv c n w g ->
  match i with TouchEvent e => jolting c e w = false | TouchConfigure true _ fresh => settles c fresh (tw_mapper w) = true | _ => True end ->
  speaks (ts_deviceId c) (touch_step c i) g (fun _ w' g' => touch_inv (after_input c i) (n + 1) w' g') w.
Proof.
  intros Hready direct Hb Ha Hn Hi Hj. destruct i as [e|t|t|surface t fresh]; cbn [touch_step after_input].
  - by apply process_speaks.
  - eapply speaks_mono; [by apply reset_speaks|]. intros [] w' g' Hi'. eapply inv_mono; [exact Hi'|lia].
  - unfold touch_timeoutExpired. apply speaks_bind, speaks_gets.
    assert (speaks (ts_deviceId c) (mret tt) g (fun _ w' g' => touch_inv c (n + 1) w' g') w) as Hr.
    { apply speaks_ret. eapply inv_mono; [exact Hi|lia]. }
    destruct (mDeviceMode c); done.
  - eapply speaks_mono; [apply reconfigure_speaks; [exact Hi|by intros ->]|]. intros [] w' g' Hi'. eapply inv_mono; [exact Hi'|lia].
Qed.

(** The run stops at a report that the mapper does not survive. *)
Definition stops c (op : T unit) (ins : list touch_input) (w : TouchWorld K G) : Prop :=
  exists ins1 e ins2 w1, ins = ins1 ++ TouchEvent e :: ins2 /\ (op ;; touch_run c ins1) w = Ret tt w1 /\
    jolting (settings_of c ins1) e w1 = true /\ touch_process (settings_of c ins1) e w1 = Undef.

(** The surface is configured again at a time when that is not safe. *)
Definition interrupted c (op : T unit) (ins : list touch_input) (w : TouchWorld K G) : Prop :=
  exists ins1 t fresh ins2 w1, ins = ins1 ++ TouchConfigure true t fresh :: ins2 /\ (op ;; touch_run c ins1) w = Ret tt w1 /\
    settles (settings_of c ins1) fresh (tw_mapper w1) = false.

(** An input that the run does not get past. *)
Lemma input_cases c i (w : TouchWorld K G) :
  match i with TouchEvent e => jolting c e w = false | TouchConfigure true _ fresh => settles c fresh (tw_mapper w) = true | _ => True end \/
  (exists e, i = TouchEvent e /\ jolting c e w = true) \/
  exists t fresh, i = TouchConfigure true t fresh /\ settles c fresh (tw_mapper w) = false.
Proof.
  destruct i as [e|t|t|[|] t fresh]; try (by left).
  - destruct (jolting c e w) eqn:E; eauto.
  - destruct (settles c fresh (tw_mapper w)) eqn:E; eauto 10.
Qed.

Lemma run_speaks c0 ins n c g (w : TouchWorld K G) :
  touch_ready c0 -> same_device c0 c -> mDeviceMode c <> DEVICE_MODE_POINTER ->
  Forall (input_bounded c0) ins -> axes_bounded c0 (world_of w) -> 1073741824 <= n -> n + Z.of_nat (length ins) < 2147483647 -> touch_inv c n w g ->
  speaks (ts_deviceId c0) (touch_run c ins) g (fun _ w' g' => knows (tw_mapper w') g') w \/ stops c (mret tt) ins w \/ interrupted c (mret tt) ins w.
Proof.
  intros Hready. revert n c g w. induction ins as [|i ins IH]; intros n c g w Hc direct Hb Ha Hn Hlen Hi; [left; apply speaks_ret, Hi|].
  apply Forall_cons in Hb as [Hb Hbs]. cbn [length] in Hlen. cbn [touch_run]. pose proof Hc as (Eid & _).
  assert (axes_bounded c (world_of w)) as Ha' by (unfold axes_bounded; by rewrite Eid). pose proof (ready_same _ _ Hc Hready) as Hready'.
  destruct (input_cases c i w) as [Hj|[(e & -> & Hj)|(t & fresh & -> & Hs)]].
  2: { right; left. exists [], e, ins, w. split_and!; [done|done|done|]. eapply (process_breaks c Hready' direct n); [lia|exact Hi|done]. }
  2: { right; right. by exists [], t, fresh, ins, w. }
  assert (input_bounded c i) as Hb'. { destruct i as [| | |surface t fresh]; try done. destruct Hc as (? & ? & ?), Hb as (? & ? & ?). split_and!; congruence. }
  assert (same_device c0 (after_input c i)) as Hc1 by (destruct i; try done; by apply settings_after_same).
  assert (mDeviceMode (after_input c i) <> DEVICE_MODE_POINTER) as direct1.
  { destruct i as [| | |surface t fresh]; try done. cbn [after_input]. rewrite after_mode. destruct surface; [|done].
    unfold settles in Hj. rewrite !andb_true_iff, negb_true_iff in Hj. destruct Hj as [[_ Hm%bool_decide_eq_false] _]. done. }
  pose proof (speaks_result c _ _ _ _ (world_kept c _ _ _ _ (step_speaks n c i g w Hready' direct Hb' Ha' ltac:(lia) Hi Hj))) as Hs.
  apply returns_some in Hs as ([] & w1 & Hr & l & g1 & Eq & Ew & Hh & [Hi1 _] & _). rewrite Eid in Hh.
  destruct (IH (n + 1) (after_input c i) g1 w1) as [Hl|Hstop]; [done|done|done|by rewrite Ew|lia|lia|done| |].
  - left. apply speaks_bind. unfold TouchGestures.speaks at 1, returns. rewrite Hr. exists l, g1. split_and!; done.
  - right. destruct Hstop as [(ins1 & e & ins2 & w2 & -> & Hr2 & Hj2 & Hu)|(ins1 & t & fresh & ins2 & w2 & -> & Hr2 & Hj2)];
      [left; exists (i :: ins1), e, ins2, w2|right; exists (i :: ins1), t, fresh, ins2, w2]; split_and!; try done;
      cbn [touch_run]; unfold mbind, M_bind in *; cbn in *; by rewrite Hr.
Qed.

End Runs.

(** C8: from a reset on, a touch screen or an unscaled touch device reports events whose axis and slot values are
    between -2^30 and 2^30, as are the ranges of its axes and what the hub says of them (and sizes are calibrated only
    with an axis for them, as [resolveCalibration] does); it is reset, waits, and is configured again, in any order, in
    fewer than 2^30 - 1 steps.  The mapper returns from every call, and what
    it tells its listener is in its place: validated motions in which pointers go down and up one at a time, move
    and go up only while they are down and with the time at which the first went down, hover only between entering
    and leaving and only while none is down, virtual keys that are released with the code, scan code and time they
    were pressed with, and keys of buttons in alternation; and it adds up to the pointers, hovering, key and buttons
    that the mapper holds.  There are two exceptions.  One is a report that changes the buttons and in which no
    pointer that was down stays down while some go down or up: there the mapper asks for a motion without pointers,
    and its assertion fails.  The other is another configuration of the surface while the mapper holds something, or
    without a change of the mode of a device that is not inoperable (where the code reads a variable that was not
    set), or one after which the device drives a pointer: of what follows nothing is said. *)
Theorem touch_stream_consistent {K G : Type} `{EventHub K} `{AbsoluteAxes K} `{PointerTranslation K G} `{Libm}
    (c : TouchSettings) t ins (w : TouchWorld K G) :
  touch_ready c -> mDeviceMode c <> DEVICE_MODE_POINTER -> axes_bounded c (world_of w) ->
  Forall (input_bounded c) ins -> Z.of_nat (length ins) < 1073741823 ->
  (exists w' l g, (touch_device_reset c t ;; touch_run c ins) w = Ret tt w' /\ queue_of w' = queue_of w ++ l /\
     (forall g0, hears (ts_deviceId c) l g0 = Some g) /\ knows (tw_mapper w') g) \/
  stops c (touch_device_reset c t) ins w \/ interrupted c (touch_device_reset c t) ins w.
Proof.
  intros Hready Hmode Ha Hb Hlen.
  pose proof (reset_speaks c t no_gesture w Ha) as (u & w1 & Hr & l & g & Eq & Ew & Hh & Hi)%returns_some. destruct u.
  assert (l = [NotifyDeviceResetArgs t (ts_deviceId c)]) as ->.
  { unfold touch_device_reset, touch_reset in Hr. injection Hr as <-. cbn in Eq. by apply app_inv_head in Eq. }
  assert (forall g0, hears (ts_deviceId c) [NotifyDeviceResetArgs t (ts_deviceId c)] g0 = Some g) as Hh'.
  { intros g0. rewrite <- Hh. cbn. by rewrite Z.eqb_refl. }
  destruct (run_speaks c ins 1073741824 c g w1 Hready) as [Hs|Hstop]; [done|done|done|by rewrite Ew|lia|lia|done| |].
  - left. apply returns_some in Hs as (u & w2 & Hr2 & l & g2 & Eq2 & Ew2 & Hh2 & Hk). destruct u. exists w2, (NotifyDeviceResetArgs t (ts_deviceId c) :: l), g2.
    split_and!; [unfold mbind, M_bind; rewrite Hr; exact Hr2|rewrite Eq2, Eq, <- app_assoc; done| |done].
    intros g0. change (NotifyDeviceResetArgs t (ts_deviceId c) :: l) with ([NotifyDeviceResetArgs t (ts_deviceId c)] ++ l). by rewrite hears_app, Hh'.
  - right. destruct Hstop as [(ins1 & e & ins2 & w2 & -> & Hr2 & Hj & Hu)|(ins1 & t' & fresh & ins2 & w2 & -> & Hr2 & Hj)];
      [left; exists ins1, e, ins2, w2|right; exists ins1, t', fresh, ins2, w2]; split_and!; try done; unfold mbind, M_bind; rewrite Hr; exact Hr2.
Qed.

(** ** A touch screen and a tablet *)

#[local] Instance pad_hub : EventHub unit := {
  hub_getDeviceClasses _ _ := 0;
  hub_getConfiguration _ _ := mkProperties_map (fun _ => None) (fun _ => None);
  hub_hasRelativeAxis _ _ _ := false;
  hub_mapKey _ _ _ _ := None;
  hub_getScanCodeState _ _ _ := AKEY_STATE_UP;
  hub_getKeyCodeState _ _ _ := AKEY_STATE_UP;
  hub_getSwitchState _ _ _ := AKEY_STATE_UNKNOWN;
  hub_hasLed _ _ _ := false;
  hub_setLedState _ _ _ k := k;
  hub_setKeyboardLayoutOverlay _ k := (false, k);
  hub_setExcludedDevices _ k := k;
  hub_vibrate _ _ k := k;
  hub_cancelVibrate _ k := k;
  hub_requestReopenDevices k := k;
  hub_wake k := k;
  hub_getEvents _ k := ([], k);
  systemTime k := (0, k);
}.
#[local] Instance pad_axes : AbsoluteAxes unit := { hub_getAbsoluteAxisValue _ axis _ := if axis =? ABS_MT_SLOT then Some 0 else None }.
#[local] Instance pad_pointing : PointerTranslation unit unit := {
  pointing_reset _ := tt; dispatchPointerUsage _ _ _ := mret tt; dispatchPointerGestures _ _ _ := mret tt; abortPointing _ _ _ := mret tt }.
#[local] Instance pad_libm : Libm := { libm_sinf x := x; libm_cosf x := x; libm_acosf x := x; libm_atan2f x _ := x; libm_hypotf x _ := x }.

Definition pad_axis (max : Z) : RawAbsoluteAxisInfo := mkAxisInfo true 0 max 0 0 0.
Definition no_axis : RawAbsoluteAxisInfo := RawAbsoluteAxisInfo_clear.

(** With a virtual key below the screen. *)
Definition pad_settings : TouchSettings :=
  mkSettings 3 false DEVICE_MODE_DIRECT 4098
    (mkAxes (pad_axis 1023) (pad_axis 767) no_axis no_axis no_axis no_axis no_axis no_axis no_axis no_axis no_axis (pad_axis 65535) (pad_axis 9))
    (mkCalibration SIZE_CALIBRATION_NONE None None None PRESSURE_CALIBRATION_NONE None ORIENTATION_CALIBRATION_NONE DISTANCE_CALIBRATION_NONE None)
    0 one one one one one zero one one false zero one zero one one one [mkVirtualKey 4 158 0 0 800 100 900] 0 false false.

Definition no_data : Sample := mkSample (mkRawData [] 0 0 ∅) (mkCooked [] 0 0 ∅) 0 0 0 0.

Definition pad_world (haveStylus : bool) (p : TouchProtocol) : TouchWorld unit unit :=
  mkTouchWorld
    (mkTouch clearButtons (mkScrollAcc false false 0 0)
       (mkTouchButtons haveStylus haveStylus false false false false false false false false false false false false false false) p no_data no_data
       0 0 POINTER_USAGE_NONE false 0 (mkCurrentKey false false 0 0 0) tt)
    (mkContext [] 0 1 (-1) 0 (mkPointerState PointerController_new []) tt).

Definition screen : TouchWorld unit unit := pad_world false (MultiTouchInput (mkMultiTouch (-1) (replicate 10 slot_clear) true false) 0 ∅).

(** A finger goes down at 5 and a second one at 6; they move at 7, the first is lifted at 8, the second at 9.
    Then the virtual key is pressed, at 10, and released. *)
Definition two_fingers : list touch_input :=
  let on t code v := TouchEvent (mkRaw t 3 EV_ABS code v) in
  let report t := TouchEvent (mkRaw t 3 EV_SYN SYN_REPORT 0) in
  [on 5 ABS_MT_SLOT 0; on 5 ABS_MT_TRACKING_ID 70; on 5 ABS_MT_POSITION_X 10; on 5 ABS_MT_POSITION_Y 20; report 5;
   on 6 ABS_MT_SLOT 1; on 6 ABS_MT_TRACKING_ID 71; on 6 ABS_MT_POSITION_X 50; on 6 ABS_MT_POSITION_Y 60; report 6;
   on 7 ABS_MT_SLOT 0; on 7 ABS_MT_POSITION_X 12; on 7 ABS_MT_SLOT 1; on 7 ABS_MT_POSITION_X 51; report 7;
   on 8 ABS_MT_SLOT 0; on 8 ABS_MT_TRACKING_ID (-1); report 8; on 9 ABS_MT_SLOT 1; on 9 ABS_MT_TRACKING_ID (-1); report 9;
   on 10 ABS_MT_SLOT 0; on 10 ABS_MT_TRACKING_ID 72; on 10 ABS_MT_POSITION_X 50; on 10 ABS_MT_POSITION_Y 850; report 10;
   on 11 ABS_MT_TRACKING_ID (-1); report 11].

(** What was told: actions with the identifiers, and keys with their codes. *)
Definition told (o : outcome (TouchWorld unit unit) unit) : option (list (Z * list Z)) :=
  match o with
  | Ret _ w => Some (map (fun a => match a with
      | NotifyMotionArgs _ _ m => (me_action m, pointer_ids (me_pointers m))
      | NotifyKeyArgs _ _ k => (ke_action k, [ke_keyCode k; ke_scanCode k])
      | _ => (-1, []) end) (queue_of w))
  | _ => None
  end.

Example two_fingers_told :
  told ((touch_device_reset pad_settings 1 ;; touch_run pad_settings two_fingers) screen) =
  Some [(-1, []); (AMOTION_EVENT_ACTION_DOWN, [0]); (Z.lor AMOTION_EVENT_ACTION_POINTER_DOWN 256, [0; 1]); (AMOTION_EVENT_ACTION_MOVE, [0; 1]);
        (AMOTION_EVENT_ACTION_POINTER_UP, [0; 1]); (AMOTION_EVENT_ACTION_UP, [1]);
        (AKEY_EVENT_ACTION_DOWN, [4; 158]); (AKEY_EVENT_ACTION_UP, [4; 158])].
Proof. vm_compute. reflexivity. Qed.

(** A stylus with its button pressed is lifted in the report that releases the button. *)
Definition tablet : TouchWorld unit unit := pad_world true (SingleTouchInput (mkSingleTouch 0 0 0 0 0 0 0)).

Definition stylus_lifted : list touch_input :=
  let key t code v := TouchEvent (mkRaw t 3 EV_KEY code v) in
  [key 5 BTN_TOOL_PEN 1; key 5 BTN_TOUCH 1; key 5 BTN_STYLUS 1; TouchEvent (mkRaw 5 3 EV_SYN SYN_REPORT 0);
   key 6 BTN_TOUCH 0; key 6 BTN_STYLUS 0; TouchEvent (mkRaw 6 3 EV_SYN SYN_REPORT 0)].

Example stylus_release_fails : (touch_device_reset pad_settings 1 ;; touch_run pad_settings stylus_lifted) tablet = Undef.
Proof. vm_compute. reflexivity. Qed.

(** The display of the device is lost and found again. *)
Definition pad_lost (t : Z) : touch_input := TouchConfigure true t (with_disabled pad_settings pad_settings).
Definition pad_found (t : Z) : touch_input := TouchConfigure true t pad_settings.

(** A stylus hovers while its display is lost, and has gone when there is a display again. *)
Definition stylus_hovers : list touch_input :=
  let key t code v := TouchEvent (mkRaw t 3 EV_KEY code v) in
  let report t := TouchEvent (mkRaw t 3 EV_SYN SYN_REPORT 0) in
  [key 5 BTN_TOOL_PEN 1; report 5; pad_lost 6; key 7 BTN_TOOL_PEN 0; report 7; pad_found 8; report 9].

Example hover_lost_fails : (touch_device_reset pad_settings 1 ;; touch_run pad_settings stylus_hovers) tablet = Undef.
Proof. vm_compute. reflexivity. Qed.

(** A finger is down meanwhile: the listener has forgotten it, and is told that it moves. *)
Definition finger_stays : list touch_input :=
  let on t code v := TouchEvent (mkRaw t 3 EV_ABS code v) in
  let report t := TouchEvent (mkRaw t 3 EV_SYN SYN_REPORT 0) in
  [on 5 ABS_MT_SLOT 0; on 5 ABS_MT_TRACKING_ID 70; on 5 ABS_MT_POSITION_X 10; on 5 ABS_MT_POSITION_Y 20; report 5;
   pad_lost 6; pad_found 7; on 8 ABS_MT_POSITION_X 12; report 8].

Example finger_stays_told :
  told ((touch_device_reset pad_settings 1 ;; touch_run pad_settings finger_stays) screen) =
    Some [(-1, []); (AMOTION_EVENT_ACTION_DOWN, [0]); (-1, []); (AMOTION_EVENT_ACTION_MOVE, [0])] /\
  match (touch_device_reset pad_settings 1 ;; touch_run pad_settings finger_stays) screen with
  | Ret _ w => hears 3 (queue_of w) no_gesture = None
  | _ => False
  end.
Proof. vm_compute. by split. Qed.

(** Without a finger on it the screen can be lost and found. *)
Definition demo_inputs : list touch_input := two_fingers ++ [pad_lost 12; pad_found 13] ++ two_fingers.

Lemma pad_ready : touch_ready pad_settings.
Proof. split; cbn; unfold coordinate; try lia. left. right. by left. Qed.

Lemma touch_stream_consistent_witness :
  (exists w' l g, (touch_device_reset pad_settings 1 ;; touch_run pad_settings demo_inputs) screen = Ret tt w' /\ queue_of w' = queue_of screen ++ l /\
     (forall g0, hears 3 l g0 = Some g) /\ knows (tw_mapper w') g) \/
  stops pad_settings (touch_device_reset pad_settings 1) demo_inputs screen \/
  interrupted pad_settings (touch_device_reset pad_settings 1) demo_inputs screen.
Proof.
  apply (touch_stream_consistent pad_settings 1 demo_inputs screen).
  - exact pad_ready.
  - discriminate.
  - intros a v. cbn. destruct (a =? ABS_MT_SLOT); [|discriminate]. intros [= <-]. unfold coordinate. lia.
  - repeat constructor; unfold input_bounded, event_bounded, coordinate; cbn; intros; lia.
  - cbn. lia.
Defined.
