(* ===== verification/SurfaceParams.v ===== *)
(** * Surface creation parameters

    [frontend::SurfaceCreationParameters]
    ([src/server/frontend/surface_creation_parameters.cpp]): the request a
    client's [create_surface] call turns into, built by chained setters. *)

From S2P Require Import Prelude Geometry Buffers.

Record SurfaceCreationParameters : Set := mkParams {
  sp_name : string;
  sp_size : Size;
  sp_buffer_usage : BufferUsage;
  sp_pixel_format : PixelFormat;
}.

(** The default constructor. *)
Definition a_surface : SurfaceCreationParameters :=
  mkParams EmptyString size0 usage_undefined pf_invalid.

Definition of_name (new_name : string) (p : SurfaceCreationParameters) :=
  mkParams new_name (sp_size p) (sp_buffer_usage p) (sp_pixel_format p).

Definition of_size (new_size : Size) (p : SurfaceCreationParameters) :=
  mkParams (sp_name p) new_size (sp_buffer_usage p) (sp_pixel_format p).

(** The overload that takes the two [uint32_t] values. *)
Definition of_width_height (width height : Z) (p : SurfaceCreationParameters) :=
  of_size (mkSize (wrap width) (wrap height)) p.

Definition of_buffer_usage (new_buffer_usage : BufferUsage) (p : SurfaceCreationParameters) :=
  mkParams (sp_name p) (sp_size p) new_buffer_usage (sp_pixel_format p).

Definition of_pixel_format (new_pixel_format : PixelFormat) (p : SurfaceCreationParameters) :=
  mkParams (sp_name p) (sp_size p) (sp_buffer_usage p) new_pixel_format.

(** [operator==] does not compare the names. *)
Definition params_eqb (lhs rhs : SurfaceCreationParameters) : bool :=
  size_eqb (sp_size lhs) (sp_size rhs) &&
  usage_eqb (sp_buffer_usage lhs) (sp_buffer_usage rhs) &&
  pf_eqb (sp_pixel_format lhs) (sp_pixel_format rhs).

Definition params_neqb (lhs rhs : SurfaceCreationParameters) : bool := negb (params_eqb lhs rhs).
