(* ===== verification/Surfaces.v ===== *)
(** * Surfaces and the surface stack

    [surfaces::Surface] ([src/server/surfaces/surface.cpp]),
    [surfaces::SurfaceStack] ([surface_stack.cpp]) and
    [surfaces::SurfaceController] ([surface_controller.cpp]).

    Surfaces are objects on a heap.  The stack's vector of shared pointers is
    their only lasting owner, everybody else holds weak pointers: an address
    is live exactly while the vector contains it, locking a weak pointer is a
    lookup in the heap, and erasing from the vector runs the destructor.  A
    surface owns its buffer bundle, and through it its swapper. *)

From S2P Require Import Prelude Geometry Buffers Swapper Bundle GbmBuffers SurfaceParams.

(** IEEE single-precision values are their bit patterns; the code only stores
    them and hands them to the renderer. *)
Definition float32 : Set := Z.
Definition one_f : float32 := 0x3f800000.
Definition mat4 : Set := list float32.
Definition vec3 : Set := (float32 * float32 * float32)%type.

(** [glm::mat4()] and [glm::mat4{1.0f}], the identity. *)
Definition mat4_identity : mat4 :=
  [one_f; 0; 0; 0; 0; one_f; 0; 0; 0; 0; one_f; 0; 0; 0; 0; one_f].

(** The function stored in [notify_change]: the stack's initial one does
    nothing; the compositor installs one that schedules compositing. *)
Inductive change_callback : Set := cb_nothing | cb_schedule_compositing.

#[export] Instance change_callback_eq_dec : EqDecision change_callback.
Proof. solve_decision. Defined.

Record Surface : Set := mkSurface {
  surface_name : string;
  buffer_bundle : BufferBundleSurfaces;
  client_buffer_resource : option TemporaryBuffer;
  top_left_point : Point;
  transformation_matrix : mat4;
  alpha_value : float32;
  is_hidden : bool;
}.

(** The address of a surface. *)
Abbreviation surface_ptr := nat.

Section Surfaces.
Context {A : Type} `{GraphicBufferAllocator A}.

Record SurfaceStack : Type := mkStack {
  allocator : A;
  surface_heap : gmap surface_ptr Surface;
  next_address : surface_ptr;
  surfaces : list surface_ptr;
  notify_change : change_callback;
  (** the calls made through [notify_change], oldest first *)
  change_log : list change_callback;
}.

Definition set_allocator (a : A) (st : SurfaceStack) : SurfaceStack :=
  mkStack a (surface_heap st) (next_address st) (surfaces st) (notify_change st) (change_log st).
Definition set_heap (h : gmap surface_ptr Surface) (st : SurfaceStack) : SurfaceStack :=
  mkStack (allocator st) h (next_address st) (surfaces st) (notify_change st) (change_log st).

(** [weak_ptr::lock()]. *)
Definition lock_surface (p : surface_ptr) (st : SurfaceStack) : option Surface :=
  surface_heap st !! p.

Definition emit_change_notification : M SurfaceStack unit :=
  modify (fun st =>
    mkStack (allocator st) (surface_heap st) (next_address st) (surfaces st) (notify_change st)
      (change_log st ++ [notify_change st])).

(** Change the surface at [p]. *)
Definition update_surface (p : surface_ptr) (f : Surface -> Surface) : M SurfaceStack unit := fun st =>
  match lock_surface p st with
  | None => Undef
  | Some s => Ret tt (set_heap (<[p := f s]> (surface_heap st)) st)
  end.

(** ** Member functions of [Surface] *)

Definition with_resource (t : option TemporaryBuffer) (s : Surface) : Surface :=
  mkSurface (surface_name s) (buffer_bundle s) t (top_left_point s) (transformation_matrix s)
    (alpha_value s) (is_hidden s).

Definition with_swapper (w : BufferSwapperMulti) (s : Surface) : Surface :=
  mkSurface (surface_name s)
    (mkBundle w (bundle_size (buffer_bundle s)) (bundle_pixel_format (buffer_bundle s)))
    (client_buffer_resource s) (top_left_point s) (transformation_matrix s)
    (alpha_value s) (is_hidden s).

(** Run a member function of the bundle of the surface at [p]. *)
Definition on_swapper {B} (p : surface_ptr) (m : M BufferSwapperMulti B) : M SurfaceStack B := fun st =>
  match lock_surface p st with
  | None => Undef
  | Some s =>
      let put w := set_heap (<[p := with_swapper w s]> (surface_heap st)) st in
      match m (swapper (buffer_bundle s)) with
      | Ret b w => Ret b (put w)
      | Throw e w => Throw e (put w)
      | Wait w => Wait (put w)
      | Undef => Undef
      end
  end.

(** The constructor. *)
Definition Surface_new (name : string) (bundle : BufferBundleSurfaces) : Surface :=
  mkSurface name bundle None (mkPoint wrap0 wrap0) mat4_identity one_f false.

Definition surface_shutdown (p : surface_ptr) : M SurfaceStack unit := on_swapper p bundle_shutdown.

(** [client_buffer_resource.reset()]: the destructor of the temporary buffer
    gives the buffer back to the swapper, which is alive. *)
Definition reset_client_buffer (p : surface_ptr) : M SurfaceStack unit :=
  s ← deref (lock_surface p) ;
  match client_buffer_resource s with
  | None => mret tt
  | Some t =>
      on_swapper p (TemporaryClientBuffer_delete t) ;;
      update_surface p (with_resource None)
  end.

(** The destructor: [shutdown()], then the members in reverse order of
    declaration, the client's buffer before the bundle. *)
Definition Surface_delete (p : surface_ptr) : M SurfaceStack unit :=
  surface_shutdown p ;;
  reset_client_buffer p ;;
  modify (fun st => set_heap (delete p (surface_heap st)) st).

Definition move_to (p : surface_ptr) (tl : Point) : M SurfaceStack unit :=
  update_surface p (fun s =>
    mkSurface (surface_name s) (buffer_bundle s) (client_buffer_resource s) tl
      (transformation_matrix s) (alpha_value s) (is_hidden s)) ;;
  emit_change_notification.

(** [rotate] is [glm::rotate]. *)
Definition set_rotation (rotate : mat4 -> float32 -> vec3 -> mat4) (p : surface_ptr)
    (degrees : float32) (axis : vec3) : M SurfaceStack unit :=
  update_surface p (fun s =>
    mkSurface (surface_name s) (buffer_bundle s) (client_buffer_resource s) (top_left_point s)
      (rotate mat4_identity degrees axis) (alpha_value s) (is_hidden s)) ;;
  emit_change_notification.

Definition set_alpha (p : surface_ptr) (alpha : float32) : M SurfaceStack unit :=
  update_surface p (fun s =>
    mkSurface (surface_name s) (buffer_bundle s) (client_buffer_resource s) (top_left_point s)
      (transformation_matrix s) alpha (is_hidden s)) ;;
  emit_change_notification.

Definition with_hidden (hide : bool) (s : Surface) : Surface :=
  mkSurface (surface_name s) (buffer_bundle s) (client_buffer_resource s) (top_left_point s)
    (transformation_matrix s) (alpha_value s) hide.

Definition set_hidden (p : surface_ptr) (hide : bool) : M SurfaceStack unit :=
  update_surface p (with_hidden hide) ;; emit_change_notification.

Definition surface_size (s : Surface) : Size := bundle_size (buffer_bundle s).
Definition surface_pixel_format (s : Surface) : PixelFormat := bundle_pixel_format (buffer_bundle s).

Definition graphic_region (p : surface_ptr) : M SurfaceStack TemporaryBuffer :=
  on_swapper p lock_back_buffer.

Definition advance_client_buffer (p : surface_ptr) : M SurfaceStack unit :=
  reset_client_buffer p ;;
  t ← on_swapper p secure_client_buffer ;
  update_surface p (with_resource (Some t)) ;;
  emit_change_notification.

Definition client_buffer (p : surface_ptr) : M SurfaceStack (option TemporaryBuffer) :=
  s ← deref (lock_surface p) ; mret (client_buffer_resource s).

(** ** Member functions of [SurfaceStack] *)

Definition SurfaceStack_new (a : A) : SurfaceStack := mkStack a ∅ 0%nat [] cb_nothing [].

(** The default allocation strategy's number of buffers. *)
Definition stack_buffers : Z := default_number_of_buffers.

(** Visit the visible surfaces from the most recent one back; [filter] and
    [operator] are the functors of the caller.  [B] is the caller's state. *)
Definition for_each_if {B} (stack_of : lens B SurfaceStack) (filter : Surface -> bool)
    (renderable_operator : surface_ptr -> M B unit) : M B unit :=
  ps ← gets (fun b => surfaces (view stack_of b)) ;
  for_each (rev ps) (fun p =>
    s ← deref (fun b => lock_surface p (view stack_of b)) ;
    if filter s then renderable_operator p else mret tt).

Definition set_change_callback (f : change_callback) : M SurfaceStack unit :=
  modify (fun st =>
    mkStack (allocator st) (surface_heap st) (next_address st) (surfaces st) f (change_log st)).

Definition alloc_lens : lens SurfaceStack A := Lens allocator set_allocator.

(** [surfaces.push_back(surface)] of a new surface object. *)
Definition push_surface (s : Surface) : M SurfaceStack surface_ptr := fun st =>
  let p := next_address st in
  Ret p (mkStack (allocator st) (<[p := s]> (surface_heap st)) (S p) (surfaces st ++ [p])
           (notify_change st) (change_log st)).

Definition create_surface (params : SurfaceCreationParameters) : M SurfaceStack surface_ptr :=
  let buffer_properties :=
    mkBufferProperties (sp_size params) (sp_pixel_format params) (sp_buffer_usage params) in
  bundle ← zoom alloc_lens (create_buffer_bundle stack_buffers buffer_properties) ;
  p ← push_surface (Surface_new (sp_name params) bundle) ;
  emit_change_notification ;;
  mret p.

Definition erase_surface (p : surface_ptr) : M SurfaceStack unit :=
  modify (fun st =>
    mkStack (allocator st) (surface_heap st) (next_address st) (remove1 p (surfaces st))
      (notify_change st) (change_log st)).

(** A dead weak pointer locks to null, which the vector does not contain. *)
Definition destroy_surface (p : surface_ptr) : M SurfaceStack unit :=
  (fun st =>
    match lock_surface p st with
    | Some _ =>
        if decide (p ∈ surfaces st) then (erase_surface p ;; Surface_delete p) st
        else Ret tt st
    | None => Ret tt st
    end) ;;
  emit_change_notification.

(** [SurfaceController] forwards to the stack. *)
Definition controller_create_surface := create_surface.
Definition controller_destroy_surface := destroy_surface.

End Surfaces.

Arguments SurfaceStack A : clear implicits.

(** ** The invariant of the stack *)

(** The buffers the client of a surface holds. *)
Definition client_ids (s : Surface) : list BufferID :=
  match client_buffer_resource s with None => [] | Some t => [tb_id t] end.

Definition surface_ok (k : list BufferID) (s : Surface) : Prop :=
  swapper_ok (swapper (buffer_bundle s)) (client_ids s) k /\
  (forall t, client_buffer_resource s = Some t -> temporary_ok t).

(** [held p]: the buffers of the surface at [p] that the compositor holds. *)
Record stack_ok {A} (held : surface_ptr -> list BufferID) (st : SurfaceStack A) : Prop := {
  st_nodup : NoDup (surfaces st);
  st_live : forall p, p ∈ surfaces st <-> is_Some (surface_heap st !! p);
  st_fresh : forall p, is_Some (surface_heap st !! p) -> (p < next_address st)%nat;
  st_surfaces : forall p s, surface_heap st !! p = Some s -> surface_ok (held p) s;
}.

(** The compositor holds nothing. *)
Definition none_held (p : surface_ptr) : list BufferID := [].

Section StackLemmas.
Context {A : Type} `{AllocatorLaws A}.
Implicit Types (st : SurfaceStack A) (p : surface_ptr) (s : Surface).

Lemma stack_ok_new (a : A) held : stack_ok held (SurfaceStack_new a).
Proof.
  split; simpl.
  - constructor.
  - intros p. rewrite lookup_empty. split; [intros Hp; by apply not_elem_of_nil in Hp|by intros []].
  - intros p. rewrite lookup_empty. by intros [].
  - intros p s. by rewrite lookup_empty.
Qed.

(** Only the heap, the vector and the address counter matter. *)
Lemma stack_ok_ext held st st' :
  surface_heap st' = surface_heap st -> surfaces st' = surfaces st ->
  next_address st' = next_address st -> stack_ok held st -> stack_ok held st'.
Proof. intros Hh Hs Hn []. split; rewrite ?Hh, ?Hs, ?Hn; auto. Qed.

Lemma stack_ok_insert held held' st p s s' :
  stack_ok held st -> surface_heap st !! p = Some s ->
  surface_ok (held' p) s' -> (forall q, q <> p -> held' q = held q) ->
  stack_ok held' (set_heap (<[p := s']> (surface_heap st)) st).
Proof.
  intros [Hnd Hl Hf Hs] Hp Hs' Hq. split; simpl; [done|..].
  - intros q. rewrite Hl. destruct (decide (q = p)) as [->|Hne].
    + rewrite lookup_insert_eq, Hp. split; eauto.
    + by rewrite lookup_insert_ne by congruence.
  - intros q. destruct (decide (q = p)) as [->|Hne].
    + intros _. apply Hf. eauto.
    + rewrite lookup_insert_ne by congruence. apply Hf.
  - intros q t. destruct (decide (q = p)) as [->|Hne].
    + rewrite lookup_insert_eq. by intros [= <-].
    + rewrite lookup_insert_ne, Hq by congruence. apply Hs.
Qed.

Lemma stack_ok_update held st p s s' :
  stack_ok held st -> surface_heap st !! p = Some s -> surface_ok (held p) s' ->
  stack_ok held (set_heap (<[p := s']> (surface_heap st)) st).
Proof. intros. by eapply stack_ok_insert. Qed.

Lemma set_heap_id st p s :
  surface_heap st !! p = Some s -> set_heap (<[p := s]> (surface_heap st)) st = st.
Proof. intros Hp. rewrite insert_id by done. by destruct st. Qed.

Lemma set_heap_twice st p s s' :
  set_heap (<[p := s']> (surface_heap (set_heap (<[p := s]> (surface_heap st)) st)))
    (set_heap (<[p := s]> (surface_heap st)) st) =
  set_heap (<[p := s']> (surface_heap st)) st.
Proof. unfold set_heap. simpl. by rewrite insert_insert_eq. Qed.

(** Giving the client's buffer back posts it as the newest frame. *)
Lemma reset_client_buffer_spec k st p s :
  surface_heap st !! p = Some s -> surface_ok k s ->
  exists w,
    reset_client_buffer p st =
      Ret tt (set_heap (<[p := with_resource None (with_swapper w s)]> (surface_heap st)) st) /\
    swapper_ok w [] k /\
    client_queue w = client_queue (swapper (buffer_bundle s)) /\
    compositor_queue w = compositor_queue (swapper (buffer_bundle s)) ++ client_ids s.
Proof.
  intros Hp [Hsw Ht].
  unfold reset_client_buffer, mbind, M_bind, deref, lock_surface. rewrite Hp.
  unfold client_ids in Hsw |- *. destruct (client_buffer_resource s) as [t|] eqn:Hr.
  - destruct (client_delete_ok _ _ _ Hsw) as (w & Hd & Hw & Hq & Hc).
    exists w. split; [|done].
    unfold on_swapper, lock_surface. rewrite Hp. unfold mbind, M_bind. rewrite Hd.
    unfold update_surface, lock_surface. simpl. rewrite lookup_insert_eq.
    f_equal. apply set_heap_twice.
  - exists (swapper (buffer_bundle s)). rewrite app_nil_r. split; [|done].
    unfold mret, M_ret. f_equal. rewrite <- (set_heap_id st p s Hp) at 1. do 2 f_equal.
    destruct s as [? [] ? ? ? ? ?]; simpl in *. by subst.
Qed.

(** [advance_client_buffer] either gives the client a new buffer or waits
    for one, the old one posted in both cases. *)
Lemma advance_client_buffer_spec held st p s :
  stack_ok held st -> surface_heap st !! p = Some s ->
  match advance_client_buffer p st with
  | Ret _ st' =>
      exists t w, temporary_ok t /\ swapper_ok w [tb_id t] (held p) /\
        compositor_queue w = compositor_queue (swapper (buffer_bundle s)) ++ client_ids s /\
        client_queue (swapper (buffer_bundle s)) = tb_id t :: client_queue w /\
        st' = mkStack (allocator st)
                (<[p := with_resource (Some t) (with_swapper w s)]> (surface_heap st))
                (next_address st) (surfaces st) (notify_change st)
                (change_log st ++ [notify_change st])
  | Wait st' =>
      exists w, client_queue (swapper (buffer_bundle s)) = [] /\ swapper_ok w [] (held p) /\
        compositor_queue w = compositor_queue (swapper (buffer_bundle s)) ++ client_ids s /\
        st' = set_heap (<[p := with_resource None (with_swapper w s)]> (surface_heap st)) st
  | _ => False
  end.
Proof.
  intros Hok Hp.
  destruct (reset_client_buffer_spec _ st p s Hp (st_surfaces _ _ Hok p s Hp))
    as (w & Hr & Hw & Hq & Hc).
  unfold advance_client_buffer. unfold mbind at 1, M_bind. rewrite Hr.
  unfold mbind at 1, M_bind, on_swapper, lock_surface. simpl. rewrite lookup_insert_eq. simpl.
  unfold secure_client_buffer, TemporaryClientBuffer_new, mbind at 1, M_bind.
  destruct (client_must_wait w) eqn:Hmw.
  - unfold client_acquire. rewrite Hmw.
    exists (set_cv (cv_block (client_available_cv w)) w). split.
    { rewrite <- Hq. apply (must_wait_spec _ Hw) in Hmw as [Hmw|Hmw]; [done|].
      simpl in Hmw. destruct (inv_size _ Hw) as [E|E]; simpl in E; congruence. }
    split; [apply (inv_set_cv _ Hw)|]. split; [done|].
    unfold set_heap. simpl. by rewrite insert_insert_eq.
  - destruct (client_acquire_ready _ Hw Hmw) as (buf & b & q & Hcq & Hf & Hid & Heq).
    simpl in Heq, Hcq. rewrite Heq. simpl.
    unfold mbind, M_bind, update_surface, lock_surface. simpl. rewrite lookup_insert_eq. simpl.
    pose proof (inv_client_got _ Hw _ _ _ Heq) as Hw'.
    exists (mkTemporary (Some buf) b), (set_in_use 1 (set_client_queue q w)).
    split; [by exists buf|]. split; [by destruct Hw'; split|]. split; [done|].
    split; [simpl; congruence|].
    by rewrite !insert_insert_eq.
Qed.

Lemma surface_delete_spec held st p s :
  surface_heap st !! p = Some s -> surface_ok (held p) s -> held p = [] ->
  Surface_delete p st = Ret tt (set_heap (delete p (surface_heap st)) st).
Proof.
  intros Hp [Hsw Ht] Hh. rewrite Hh in Hsw.
  unfold Surface_delete, surface_shutdown, mbind at 1, M_bind, on_swapper, lock_surface.
  rewrite Hp.
  destruct (bundle_shutdown_ok _ _ _ Hsw) as (w & Hsd & Hw & _).
  { simpl. destruct (inv_size _ Hsw) as [E|E]; simpl in E; rewrite E;
      unfold client_ids; destruct (client_buffer_resource s); simpl; lia. }
  rewrite Hsd. set (st1 := set_heap _ st).
  destruct (reset_client_buffer_spec [] st1 p (with_swapper w s)) as (w' & Hr & _).
  { apply lookup_insert_eq. }
  { by split. }
  unfold mbind, M_bind. rewrite Hr. unfold modify, st1, set_heap. simpl.
  by rewrite !delete_insert_eq.
Qed.

(** Destroying a live surface whose buffers the compositor does not hold
    removes it, and only it, and notifies once. *)
Lemma destroy_surface_spec held st p s :
  stack_ok held st -> surface_heap st !! p = Some s -> held p = [] ->
  exists st', destroy_surface p st = Ret tt st' /\ stack_ok held st' /\
    st' = mkStack (allocator st) (delete p (surface_heap st)) (next_address st)
            (remove1 p (surfaces st)) (notify_change st) (change_log st ++ [notify_change st]).
Proof.
  intros Hok Hp Hh. pose proof Hok as [Hnd Hl Hf Hs].
  unfold destroy_surface, mbind at 1, M_bind, lock_surface. rewrite Hp.
  rewrite decide_True by (apply Hl; eauto).
  unfold mbind at 1, M_bind, erase_surface at 1, modify at 1.
  set (st1 := mkStack _ _ _ _ _ _).
  rewrite (surface_delete_spec held st1 p s) by (try done; by apply Hs).
  eexists. split; [reflexivity|]. split; [|done].
  split; simpl.
  - by apply remove1_NoDup.
  - intros q. rewrite remove1_elem_of, Hl by done.
    destruct (decide (q = p)) as [->|Hne].
    + rewrite lookup_delete_eq. split; [tauto|by intros []].
    + rewrite lookup_delete_ne by congruence. tauto.
  - intros q [t Hq]. apply Hf. apply lookup_delete_Some in Hq as [_ Hq]. eauto.
  - intros q t Hq. apply lookup_delete_Some in Hq as [_ Hq]. by apply Hs.
Qed.

Lemma destroy_dead st p :
  surface_heap st !! p = None -> destroy_surface p st = emit_change_notification st.
Proof. intros Hp. unfold destroy_surface, mbind, M_bind, lock_surface. by rewrite Hp. Qed.

(** A new surface goes on top, visible, with fresh buffers; an allocation
    that throws leaves the stack as it was. *)
Lemma create_surface_spec held st params :
  stack_ok held st -> held (next_address st) = [] ->
  match create_surface params st with
  | Ret p st' =>
      p = next_address st /\ stack_ok held st' /\
      exists a bundle,
        st' = mkStack a (<[p := Surface_new (sp_name params) bundle]> (surface_heap st)) (S p)
                (surfaces st ++ [p]) (notify_change st) (change_log st ++ [notify_change st])
  | Throw _ st' => exists a, st' = set_allocator a st
  | _ => False
  end.
Proof.
  intros [Hnd Hl Hf Hs] Hh. unfold create_surface. unfold mbind at 1, M_bind, zoom. simpl.
  set (bp := mkBufferProperties _ _ _).
  pose proof (create_buffer_bundle_ok stack_buffers bp (allocator st) ltac:(by left)) as Hb.
  unfold wp in Hb.
  destruct (create_buffer_bundle _ _ _) as [bundle a|e a|a|]; [|eauto|done|done].
  destruct Hb as [Hb _]. simpl.
  assert (surface_heap st !! next_address st = None) as Hfree.
  { destruct (surface_heap st !! next_address st) eqn:E; [|done].
    exfalso. assert (next_address st < next_address st)%nat; [apply Hf; eauto|lia]. }
  split; [done|]. split; [|eauto].
  split; simpl.
  - apply NoDup_app. split; [done|]. split; [|apply NoDup_singleton].
    intros q Hq Hq'. apply list_elem_of_singleton in Hq' as ->.
    apply Hl in Hq as [? Hq]. congruence.
  - intros q. rewrite elem_of_app, list_elem_of_singleton, Hl.
    destruct (decide (q = next_address st)) as [->|Hne].
    + rewrite lookup_insert_eq. split; eauto.
    + rewrite lookup_insert_ne by congruence. naive_solver.
  - intros q. destruct (decide (q = next_address st)) as [->|Hne]; [lia|].
    rewrite lookup_insert_ne by congruence. intros Hq. specialize (Hf q Hq). lia.
  - intros q t. destruct (decide (q = next_address st)) as [->|Hne].
    + rewrite lookup_insert_eq. intros [= <-]. rewrite Hh. by split.
    + rewrite lookup_insert_ne by congruence. apply Hs.
Qed.

End StackLemmas.

(** ** Sequences of operations

    The state-changing operations of the stack and of its surfaces.  Like
    [shell::Surface], a caller uses a surface only after locking its weak
    pointer, and does nothing when it is gone. *)
Inductive stack_op : Set :=
| op_create (params : SurfaceCreationParameters)
| op_destroy (p : surface_ptr)
| op_advance (p : surface_ptr)
| op_move (p : surface_ptr) (tl : Point)
| op_alpha (p : surface_ptr) (alpha : float32)
| op_hidden (p : surface_ptr) (hide : bool)
| op_shutdown (p : surface_ptr)
| op_callback (f : change_callback).

Section Sequences.
Context {A : Type} `{AllocatorLaws A}.
Implicit Types (st : SurfaceStack A) (p : surface_ptr) (s : Surface).

Definition if_live (p : surface_ptr) (m : M (SurfaceStack A) unit) : M (SurfaceStack A) unit :=
  fun st => match lock_surface p st with Some _ => m st | None => Ret tt st end.

Definition run_op (op : stack_op) : M (SurfaceStack A) unit :=
  match op with
  | op_create params => create_surface params ;; mret tt
  | op_destroy p => destroy_surface p
  | op_advance p => if_live p (advance_client_buffer p)
  | op_move p tl => if_live p (move_to p tl)
  | op_alpha p alpha => if_live p (set_alpha p alpha)
  | op_hidden p hide => if_live p (set_hidden p hide)
  | op_shutdown p => if_live p (surface_shutdown p)
  | op_callback f => set_change_callback f
  end.

(** The invariant holds however [m] ends, and it does not end in undefined
    behaviour. *)
Definition safe_keeps {B} (I : SurfaceStack A -> Prop) (m : M (SurfaceStack A) B) : Prop :=
  forall st, I st -> wp m (fun _ => I) (fun _ => I) I st.

Lemma emit_ok held st : stack_ok held st -> wp emit_change_notification (fun _ => stack_ok held)
  (fun _ => stack_ok held) (stack_ok held) st.
Proof. by apply stack_ok_ext. Qed.

Lemma safe_update p (f : Surface -> Surface) :
  (forall s, surface_ok [] s -> surface_ok [] (f s)) ->
  safe_keeps (stack_ok none_held)
    (if_live p (update_surface p f ;; emit_change_notification)).
Proof.
  intros Hf st Hok. unfold wp, if_live, lock_surface.
  destruct (surface_heap st !! p) as [s|] eqn:Hp; [|done].
  unfold mbind, M_bind, update_surface, lock_surface. rewrite Hp. simpl.
  pose proof (st_surfaces _ _ Hok p s Hp) as Hs.
  pose proof (stack_ok_update none_held st p s (f s) Hok Hp (Hf s Hs)) as Hok'.
  by eapply (stack_ok_ext none_held); [..|exact Hok'].
Qed.

Lemma safe_run_op op : safe_keeps (stack_ok none_held) (run_op op).
Proof.
  destruct op; simpl; try (by apply safe_update).
  - intros st Hok. unfold wp, mbind, M_bind.
    pose proof (create_surface_spec none_held st params Hok eq_refl) as Hc.
    destruct (create_surface params st); try done; simpl; [tauto|].
    destruct Hc as [a ->]. by apply (stack_ok_ext none_held st).
  - intros st Hok. unfold wp. destruct (surface_heap st !! p) as [s|] eqn:Hp.
    + destruct (destroy_surface_spec none_held st p s Hok Hp eq_refl) as (st' & -> & Hok' & _).
      done.
    + rewrite destroy_dead by done. by apply (emit_ok none_held st).
  - intros st Hok. unfold wp, if_live, lock_surface.
    destruct (surface_heap st !! p) as [s|] eqn:Hp; [|done].
    pose proof (advance_client_buffer_spec none_held st p s Hok Hp) as Ha.
    destruct (advance_client_buffer p st) as [u st'| |st'|]; try done.
    + destruct Ha as (t & w & Ht & Hw & _ & _ & ->).
      eapply (stack_ok_ext none_held
        (set_heap (<[p := with_resource (Some t) (with_swapper w s)]> (surface_heap st)) st));
        try done.
      eapply stack_ok_update; [done|done|]. split; [done|]. by intros t' [= <-].
    + destruct Ha as (w & _ & Hw & _ & ->).
      eapply stack_ok_update; [done|done|]. by split.
  - intros st Hok. unfold wp, if_live, lock_surface.
    destruct (surface_heap st !! p) as [s|] eqn:Hp; [|done].
    unfold surface_shutdown, on_swapper, lock_surface. rewrite Hp.
    destruct (st_surfaces _ _ Hok p s Hp) as [Hsw Ht].
    destruct (bundle_shutdown_ok _ _ _ Hsw) as (w & -> & Hw & _).
    { simpl. destruct (inv_size _ Hsw) as [E|E]; simpl in E; rewrite E;
        unfold client_ids; destruct (client_buffer_resource s); simpl; lia. }
    eapply stack_ok_update; [done|done|]. by split.
  - intros st Hok. by apply (stack_ok_ext none_held st).
Qed.

Lemma safe_run_ops ops : safe_keeps (stack_ok none_held) (for_each ops run_op).
Proof.
  induction ops as [|op ops IH]; intros st Hok; [done|]. simpl. apply wp_bind.
  eapply wp_mono; [by apply safe_run_op|..]; auto.
Qed.

(** C36: between two renderings, any sequence of creations, destructions,
    buffer advances and property changes, starting from an empty stack, is
    free of undefined behaviour and keeps the stack well-formed: every live
    surface is in the stack exactly once, no address is used twice, and every
    surface's swapper partitions its buffers between its queues and its
    client. *)
Theorem stack_stays_well_formed (a : A) ops :
  wp (for_each ops run_op) (fun _ => stack_ok none_held) (fun _ => stack_ok none_held)
    (stack_ok none_held) (SurfaceStack_new a).
Proof. apply safe_run_ops, stack_ok_new. Qed.

(** Creating a surface and destroying it again leaves the surfaces, their
    stacking order and their contents as they were, with exactly two change
    notifications. *)
Theorem create_destroy_roundtrip st st' p params :
  stack_ok none_held st -> create_surface params st = Ret p st' ->
  exists st'', destroy_surface p st' = Ret tt st'' /\
    surface_heap st'' = surface_heap st /\ surfaces st'' = surfaces st /\
    change_log st'' = change_log st ++ [notify_change st; notify_change st].
Proof.
  intros Hok Hc. pose proof (create_surface_spec none_held st params Hok eq_refl) as Hs.
  rewrite Hc in Hs. destruct Hs as (-> & Hok' & a & bundle & ->).
  assert (surface_heap st !! next_address st = None) as Hfree.
  { destruct (surface_heap st !! next_address st) eqn:E; [|done]. exfalso.
    assert (next_address st < next_address st)%nat; [|lia].
    apply (st_fresh _ _ Hok). eauto. }
  destruct (destroy_surface_spec none_held _ (next_address st) _ Hok' (lookup_insert_eq _ _ _) eq_refl)
    as (st'' & Hd & _ & ->).
  eexists. split; [exact Hd|]. simpl. split; [by apply delete_insert_id|]. split.
  - apply remove1_app_last. intros Hin. apply (st_live _ _ Hok) in Hin as [? Hin]. congruence.
  - by rewrite <- app_assoc.
Qed.

(** [advance_client_buffer] hands the client's buffer over to the
    compositor as its newest frame and gives the client another buffer, the
    oldest free one; when none is free it waits, the old buffer handed over
    all the same.  No other surface changes. *)
Theorem advance_posts_frame st p s :
  stack_ok none_held st -> surface_heap st !! p = Some s ->
  match advance_client_buffer p st with
  | Ret _ st' => exists s' t,
      surface_heap st' = <[p := s']> (surface_heap st) /\
      client_buffer_resource s' = Some t /\ temporary_ok t /\
      compositor_queue (swapper (buffer_bundle s')) =
        compositor_queue (swapper (buffer_bundle s)) ++ client_ids s /\
      client_queue (swapper (buffer_bundle s)) =
        tb_id t :: client_queue (swapper (buffer_bundle s')) /\
      change_log st' = change_log st ++ [notify_change st]
  | Wait st' => exists s',
      surface_heap st' = <[p := s']> (surface_heap st) /\
      client_buffer_resource s' = None /\
      client_queue (swapper (buffer_bundle s)) = [] /\
      compositor_queue (swapper (buffer_bundle s')) =
        compositor_queue (swapper (buffer_bundle s)) ++ client_ids s
  | _ => False
  end.
Proof.
  intros Hok Hp. pose proof (advance_client_buffer_spec none_held st p s Hok Hp) as Ha.
  destruct (advance_client_buffer p st); try done.
  - destruct Ha as (t & w & Ht & _ & Hc & Hq & ->). eexists _, t. by repeat split.
  - destruct Ha as (w & Hq & _ & Hc & ->). eexists. by repeat split.
Qed.

End Sequences.

(** ** A concrete stack *)

Definition demo_params (name : string) : SurfaceCreationParameters :=
  of_name name (of_width_height 640 480
    (of_buffer_usage usage_hardware (of_pixel_format argb_8888 a_surface))).

(** The state after [ops], run from an empty stack. *)
Definition demo_run (ops : list stack_op) : SurfaceStack demo_platform :=
  match for_each ops run_op (SurfaceStack_new demo_device) with
  | Ret _ st | Throw _ st | Wait st => st
  | Undef => SurfaceStack_new demo_device
  end.

Lemma demo_run_ok ops : stack_ok none_held (demo_run ops).
Proof.
  unfold demo_run. pose proof (safe_run_ops (A := demo_platform) ops) as Hs.
  specialize (Hs _ (stack_ok_new demo_device none_held)). unfold wp in Hs.
  by destruct (for_each ops run_op (SurfaceStack_new demo_device)).
Qed.

Lemma stack_stays_well_formed_witness :
  wp (for_each [op_create (demo_params "a"); op_advance 0; op_advance 0; op_destroy 0] run_op)
    (fun _ => stack_ok none_held) (fun _ => stack_ok none_held) (stack_ok none_held)
    (SurfaceStack_new demo_device).
Proof.
  apply (stack_stays_well_formed (A := demo_platform) demo_device
    [op_create (demo_params "a"); op_advance 0; op_advance 0; op_destroy 0]).
Defined.

Definition demo_two : SurfaceStack demo_platform :=
  demo_run [op_create (demo_params "a"); op_create (demo_params "b"); op_advance 0].

Lemma create_destroy_roundtrip_witness :
  exists st' st'', create_surface (demo_params "c") demo_two = Ret 2%nat st' /\
    destroy_surface 2 st' = Ret tt st'' /\
    surface_heap st'' = surface_heap demo_two /\ surfaces st'' = surfaces demo_two /\
    change_log st'' = change_log demo_two ++ [notify_change demo_two; notify_change demo_two].
Proof.
  destruct (create_surface (demo_params "c") demo_two) as [p st'| | |] eqn:E;
    try (exfalso; vm_compute in E; discriminate).
  assert (p = 2%nat) as -> by (vm_compute in E; congruence).
  destruct (create_destroy_roundtrip (A := demo_platform) demo_two st' 2 (demo_params "c")
    (demo_run_ok _) E) as [st'' Hd].
  exists st', st''. split; [reflexivity|exact Hd].
Defined.

Lemma advance_posts_frame_witness :
  exists s, surface_heap demo_two !! 0%nat = Some s /\
  match advance_client_buffer 0 demo_two with
  | Ret _ st' => exists s' t,
      surface_heap st' = <[0%nat := s']> (surface_heap demo_two) /\
      client_buffer_resource s' = Some t /\ temporary_ok t /\
      compositor_queue (swapper (buffer_bundle s')) =
        compositor_queue (swapper (buffer_bundle s)) ++ client_ids s /\
      client_queue (swapper (buffer_bundle s)) =
        tb_id t :: client_queue (swapper (buffer_bundle s')) /\
      change_log st' = change_log demo_two ++ [notify_change demo_two]
  | Wait st' => exists s',
      surface_heap st' = <[0%nat := s']> (surface_heap demo_two) /\
      client_buffer_resource s' = None /\
      client_queue (swapper (buffer_bundle s)) = [] /\
      compositor_queue (swapper (buffer_bundle s')) =
        compositor_queue (swapper (buffer_bundle s)) ++ client_ids s
  | _ => False
  end.
Proof.
  destruct (surface_heap demo_two !! 0%nat) as [s|] eqn:E;
    [|exfalso; vm_compute in E; discriminate].
  exists s. split; [reflexivity|].
  exact (advance_posts_frame (A := demo_platform) demo_two 0 s (demo_run_ok _) E).
Defined.
