(* ===== verification/GlRenderer.v ===== *)
(** * The OpenGL renderer

    [graphics::GLRenderer] ([src/server/graphics/gl_renderer.cpp]).

    The GL implementation is code outside the repository: a function that
    executes one command and gives its result, an argument of everything
    here, as are the functions of GLM.  The model keeps the commands issued,
    in order, with the driver's state. *)

From S2P Require Import Prelude Geometry Buffers Surfaces.

(** ** GL commands and constants *)

Definition GL_FALSE : Z := 0.
Definition GL_TRIANGLE_STRIP : Z := 0x0005.
Definition GL_SRC_ALPHA : Z := 0x0302.
Definition GL_ONE_MINUS_SRC_ALPHA : Z := 0x0303.
Definition GL_BLEND : Z := 0x0BE2.
Definition GL_TEXTURE_2D : Z := 0x0DE1.
Definition GL_FLOAT : Z := 0x1406.
Definition GL_LINEAR : Z := 0x2601.
Definition GL_TEXTURE_MAG_FILTER : Z := 0x2800.
Definition GL_TEXTURE_MIN_FILTER : Z := 0x2801.
Definition GL_TEXTURE_WRAP_S : Z := 0x2802.
Definition GL_TEXTURE_WRAP_T : Z := 0x2803.
Definition GL_CLAMP_TO_EDGE : Z := 0x812F.
Definition GL_TEXTURE0 : Z := 0x84C0.
Definition GL_ARRAY_BUFFER : Z := 0x8892.
Definition GL_STATIC_DRAW : Z := 0x88E4.
Definition GL_FRAGMENT_SHADER : Z := 0x8B30.
Definition GL_VERTEX_SHADER : Z := 0x8B31.
Definition GL_COMPILE_STATUS : Z := 0x8B81.
Definition GL_LINK_STATUS : Z := 0x8B82.
Definition GL_INFO_LOG_LENGTH : Z := 0x8B84.

Inductive shader_source : Set := vertex_shader_src | fragment_shader_src.

Inductive gl_command : Set :=
| glCreateShader (type : Z)
| glShaderSource (shader : Z) (src : shader_source)
| glCompileShader (shader : Z)
| glGetShaderiv (shader pname : Z)
| glCreateProgram
| glAttachShader (program shader : Z)
| glLinkProgram (program : Z)
| glGetProgramiv (program pname : Z)
| glUseProgram (program : Z)
| glGetUniformLocation (program : Z) (name : string)
| glGetAttribLocation (program : Z) (name : string)
| glUniformMatrix4fv (location : Z) (value : mat4)
| glUniform1f (location : Z) (value : float32)
| glUniform1i (location value : Z)
| glGenTextures
| glBindTexture (target texture : Z)
| glTexParameteri (target pname param : Z)
| glGenBuffers
| glBindBuffer (target buffer : Z)
| glBufferData (target size : Z) (data : list float32) (usage : Z)
| glEnable (cap : Z)
| glBlendFunc (sfactor dfactor : Z)
| glActiveTexture (texture : Z)
| glVertexAttribPointer (index size type normalized stride pointer : Z)
| glEnableVertexAttribArray (index : Z)
| glDisableVertexAttribArray (index : Z)
| glDrawArrays (mode first count : Z)
| glDeleteShader (shader : Z)
| glDeleteProgram (program : Z)
| glDeleteBuffers (buffer : Z)
| glDeleteTextures (texture : Z)
(** [bind_to_texture] of a buffer: the platform binds its image *)
| bind_buffer_image (buffer : BufferID).

(** The driver and GLM. *)
Class OpenGL (G : Type) : Type := {
  gl_exec : gl_command -> G -> Z * G;
  gl_info_log : Z -> Z -> G -> string * G;
}.

Class Glm : Type := {
  glm_translate : mat4 -> vec3 -> mat4;
  glm_scale : mat4 -> vec3 -> mat4;
  glm_mul : mat4 -> mat4 -> mat4;
  glm_vec_add : vec3 -> vec3 -> vec3;
  glm_vec_scale : float32 -> vec3 -> vec3;
  (** the quotient of two floats, as the hardware computes it *)
  float_div : float32 -> float32 -> float32;
}.

(** The conversion of a [uint32_t] to [float], rounding to nearest, ties to
    even: the bit pattern. *)
Definition float_of_uint32 (n : Z) : float32 :=
  if n =? 0 then 0
  else
    let e := Z.log2 n in
    if e <=? 23 then (e + 127) * 8388608 + (Z.shiftl n (23 - e) - 8388608)
    else
      let s := e - 23 in
      let m := Z.shiftr n s in
      let r := n - Z.shiftl m s in
      let half := Z.shiftl 1 (s - 1) in
      let up := (half <? r) || ((half =? r) && Z.odd m) in
      (e + 127) * 8388608 + (m - 8388608) + (if up then 1 else 0).

Definition half_f : float32 := 0x3f000000.
Definition minus_one_f : float32 := 0xbf800000.
Definition two_f : float32 := 0x40000000.
Definition minus_two_f : float32 := 0xc0000000.
Definition minus_half_f : float32 := 0xbf000000.

(** [vertex_attribs]: four vertices, a position and a texture coordinate
    each. *)
Definition vertex_attribs : list (vec3 * (float32 * float32)) :=
  [ ((minus_half_f, minus_half_f, 0), (0, 0));
    ((minus_half_f, half_f, 0), (0, one_f));
    ((half_f, minus_half_f, 0), (one_f, 0));
    ((half_f, half_f, 0), (one_f, one_f)) ].

Definition vertex_floats : list float32 :=
  flat_map (fun '((x, y, z), (u, v)) => [x; y; z; u; v]) vertex_attribs.

(** [sizeof(VertexAttributes)], [sizeof(glm::vec3)]. *)
Definition sizeof_VertexAttributes : Z := 20.
Definition sizeof_vec3 : Z := 12.

Section Renderer.
Context {G : Type} `{OpenGL G} `{Glm}.

(** The driver with the commands it has executed and their results, oldest
    first. *)
Record gl_context : Type := mkGL { gl_driver : G; gl_trace : list (gl_command * Z) }.

Definition gl (c : gl_command) : M gl_context Z := fun g =>
  let '(r, d) := gl_exec c (gl_driver g) in Ret r (mkGL d (gl_trace g ++ [(c, r)])).

(** A command whose result is not used. *)
Definition gl_ (c : gl_command) : M gl_context unit := gl c ;; mret tt.

(** [GetObjectLogAndThrow]; [getObjectiv] is the query it is given. *)
Definition GetObjectLogAndThrow {B} (getObjectiv : Z -> Z -> gl_command) (msg : string) (object : Z)
    : M gl_context B :=
  object_log_length ← gl (getObjectiv object GL_INFO_LOG_LENGTH) ;
  object_info_log ← (fun g =>
    let '(log, d) := gl_info_log object object_log_length (gl_driver g) in
    Ret log (mkGL d (gl_trace g))) ;
  throw (runtime_error (msg +:+ String (Ascii.ascii_of_nat 10) object_info_log)).

Record Resources : Set := mkResources {
  vertex_shader : Z;
  fragment_shader : Z;
  program : Z;
  position_attr_loc : Z;
  texcoord_attr_loc : Z;
  transform_uniform_loc : Z;
  alpha_uniform_loc : Z;
  vertex_attribs_vbo : Z;
  texture : Z;
}.

Definition Resources_new : Resources := mkResources 0 0 0 0 0 0 0 0 0.

Definition when (b : bool) (m : M gl_context unit) : M gl_context unit :=
  if b then m else mret tt.

Definition Resources_delete (r : Resources) : M gl_context unit :=
  when (negb (vertex_shader r =? 0)) (gl_ (glDeleteShader (vertex_shader r))) ;;
  when (negb (fragment_shader r =? 0)) (gl_ (glDeleteShader (fragment_shader r))) ;;
  when (negb (program r =? 0)) (gl_ (glDeleteProgram (program r))) ;;
  when (negb (vertex_attribs_vbo r =? 0)) (gl_ (glDeleteBuffers (vertex_attribs_vbo r))) ;;
  when (negb (texture r =? 0)) (gl_ (glDeleteTextures (texture r))).

(** The member functions of [Resources] run on the driver and the object. *)
Definition gl_obj : Type := gl_context * Resources.

Definition ogl {B} (m : M gl_context B) : M gl_obj B :=
  zoom (Lens fst (fun g o => (g, snd o))) m.

Definition set_resources (f : Resources -> Resources) : M gl_obj unit :=
  modify (fun o => (fst o, f (snd o))).

Definition set_vertex_shader (v : Z) (r : Resources) : Resources :=
  mkResources v (fragment_shader r) (program r) (position_attr_loc r) (texcoord_attr_loc r)
    (transform_uniform_loc r) (alpha_uniform_loc r) (vertex_attribs_vbo r) (texture r).
Definition set_fragment_shader (v : Z) (r : Resources) : Resources :=
  mkResources (vertex_shader r) v (program r) (position_attr_loc r) (texcoord_attr_loc r)
    (transform_uniform_loc r) (alpha_uniform_loc r) (vertex_attribs_vbo r) (texture r).
Definition set_program (v : Z) (r : Resources) : Resources :=
  mkResources (vertex_shader r) (fragment_shader r) v (position_attr_loc r) (texcoord_attr_loc r)
    (transform_uniform_loc r) (alpha_uniform_loc r) (vertex_attribs_vbo r) (texture r).
(** Locations are [GLuint] members: a result of -1 is stored as 2^32-1. *)
Definition set_locations (pos tex tra alpha : Z) (r : Resources) : Resources :=
  mkResources (vertex_shader r) (fragment_shader r) (program r) (u32 pos) (u32 tex) (u32 tra)
    (u32 alpha) (vertex_attribs_vbo r) (texture r).
Definition set_vbo (v : Z) (r : Resources) : Resources :=
  mkResources (vertex_shader r) (fragment_shader r) (program r) (position_attr_loc r)
    (texcoord_attr_loc r) (transform_uniform_loc r) (alpha_uniform_loc r) v (texture r).
Definition set_texture (v : Z) (r : Resources) : Resources :=
  mkResources (vertex_shader r) (fragment_shader r) (program r) (position_attr_loc r)
    (texcoord_attr_loc r) (transform_uniform_loc r) (alpha_uniform_loc r)
    (vertex_attribs_vbo r) v.

(** Lines 131-167: the shaders and the program. *)
Definition setup_shader (type : Z) (src : shader_source) (set : Z -> Resources -> Resources)
    (msg : string) : M gl_obj Z :=
  shader ← ogl (gl (glCreateShader type)) ;
  set_resources (set shader) ;;
  ogl (gl_ (glShaderSource shader src)) ;;
  ogl (gl_ (glCompileShader shader)) ;;
  param ← ogl (gl (glGetShaderiv shader GL_COMPILE_STATUS)) ;
  if param =? GL_FALSE then ogl (GetObjectLogAndThrow glGetShaderiv msg shader)
  else mret shader.

Definition setup_program : M gl_obj Z :=
  vs ← setup_shader GL_VERTEX_SHADER vertex_shader_src set_vertex_shader
         "Failed to compile vertex shader:" ;
  fs ← setup_shader GL_FRAGMENT_SHADER fragment_shader_src set_fragment_shader
         "Failed to compile fragment shader:" ;
  prog ← ogl (gl glCreateProgram) ;
  set_resources (set_program prog) ;;
  ogl (gl_ (glAttachShader prog vs)) ;;
  ogl (gl_ (glAttachShader prog fs)) ;;
  ogl (gl_ (glLinkProgram prog)) ;;
  param ← ogl (gl (glGetProgramiv prog GL_LINK_STATUS)) ;
  if param =? GL_FALSE
  then ogl (GetObjectLogAndThrow glGetProgramiv "Failed to link program:" prog)
  else mret prog.

(** Lines 169-190: the program's variables and the projection. *)
Definition screen_to_gl_coords (display_size : Size) : mat4 :=
  glm_scale (glm_translate mat4_identity (minus_one_f, one_f, 0))
    (float_div two_f (float_of_uint32 (as_uint32_t (size_width display_size))),
     float_div minus_two_f (float_of_uint32 (as_uint32_t (size_height display_size))),
     one_f).

Definition setup_variables (prog : Z) (display_size : Size) : M gl_obj Z :=
  ogl (gl_ (glUseProgram prog)) ;;
  mat_loc ← ogl (gl (glGetUniformLocation prog "screen_to_gl_coords")) ;
  tex_loc ← ogl (gl (glGetUniformLocation prog "tex")) ;
  transform ← ogl (gl (glGetUniformLocation prog "transform")) ;
  alpha ← ogl (gl (glGetUniformLocation prog "alpha")) ;
  position ← ogl (gl (glGetAttribLocation prog "position")) ;
  texcoord ← ogl (gl (glGetAttribLocation prog "texcoord")) ;
  set_resources (set_locations position texcoord transform alpha) ;;
  ogl (gl_ (glUniformMatrix4fv mat_loc (screen_to_gl_coords display_size))) ;;
  mret tex_loc.

(** Lines 192-211: the texture and the vertex buffer. *)
Definition setup_objects (tex_loc : Z) : M gl_obj unit :=
  tex ← ogl (gl glGenTextures) ;
  set_resources (set_texture tex) ;;
  ogl (gl_ (glBindTexture GL_TEXTURE_2D tex)) ;;
  ogl (gl_ (glTexParameteri GL_TEXTURE_2D GL_TEXTURE_WRAP_S GL_CLAMP_TO_EDGE)) ;;
  ogl (gl_ (glTexParameteri GL_TEXTURE_2D GL_TEXTURE_WRAP_T GL_CLAMP_TO_EDGE)) ;;
  ogl (gl_ (glTexParameteri GL_TEXTURE_2D GL_TEXTURE_MIN_FILTER GL_LINEAR)) ;;
  ogl (gl_ (glTexParameteri GL_TEXTURE_2D GL_TEXTURE_MAG_FILTER GL_LINEAR)) ;;
  ogl (gl_ (glUniform1i tex_loc 0)) ;;
  vbo ← ogl (gl glGenBuffers) ;
  set_resources (set_vbo vbo) ;;
  ogl (gl_ (glBindBuffer GL_ARRAY_BUFFER vbo)) ;;
  ogl (gl_ (glBufferData GL_ARRAY_BUFFER (4 * sizeof_VertexAttributes) vertex_floats GL_STATIC_DRAW)) ;;
  ogl (gl_ (glBindBuffer GL_ARRAY_BUFFER 0)) ;;
  ogl (gl_ (glUseProgram 0)).

Definition setup (display_size : Size) : M gl_obj unit :=
  prog ← setup_program ;
  tex_loc ← setup_variables prog display_size ;
  setup_objects tex_loc.

(** The constructor: when [setup] throws, the member [resources], already
    constructed, is destroyed. *)
Definition GLRenderer_new (display_size : Size) : M gl_context Resources := fun g =>
  match setup display_size (g, Resources_new) with
  | Ret _ (g', r) => Ret r g'
  | Throw e (g', r) => (Resources_delete r ;; throw e) g'
  | Wait (g', _) => Wait g'
  | Undef => Undef
  end.

Definition GLRenderer_delete (r : Resources) : M gl_context unit := Resources_delete r.

(** ** Drawing one renderable *)

(** Lines 221-246: the matrix that scales the unit quad to the renderable's
    size and moves it to its place. *)
Definition pos_size_matrix (top_left : Point) (size : Size) : mat4 :=
  let top_left_vec := (float_of_uint32 (as_uint32_t (point_x top_left)),
                       float_of_uint32 (as_uint32_t (point_y top_left)), 0) in
  let size_vec := (float_of_uint32 (as_uint32_t (size_width size)),
                   float_of_uint32 (as_uint32_t (size_height size)), 0) in
  let center_vec := glm_vec_add top_left_vec (glm_vec_scale half_f size_vec) in
  glm_scale (glm_translate mat4_identity center_vec) size_vec.

(** The commands before the buffer is acquired, and after. *)
Definition draw_prologue (r : Resources) (s : Surface) : list gl_command :=
  [ glUseProgram (program r);
    glEnable GL_BLEND;
    glBlendFunc GL_SRC_ALPHA GL_ONE_MINUS_SRC_ALPHA;
    glActiveTexture GL_TEXTURE0;
    glUniformMatrix4fv (transform_uniform_loc r)
      (glm_mul (pos_size_matrix (top_left_point s) (surface_size s)) (transformation_matrix s));
    glUniform1f (alpha_uniform_loc r) (alpha_value s);
    glBindBuffer GL_ARRAY_BUFFER (vertex_attribs_vbo r);
    glVertexAttribPointer (position_attr_loc r) 3 GL_FLOAT GL_FALSE sizeof_VertexAttributes 0;
    glVertexAttribPointer (texcoord_attr_loc r) 2 GL_FLOAT GL_FALSE sizeof_VertexAttributes sizeof_vec3;
    glBindTexture GL_TEXTURE_2D (texture r) ].

Definition draw_epilogue (r : Resources) : list gl_command :=
  [ glEnableVertexAttribArray (position_attr_loc r);
    glEnableVertexAttribArray (texcoord_attr_loc r);
    glDrawArrays GL_TRIANGLE_STRIP 0 4;
    glDisableVertexAttribArray (texcoord_attr_loc r);
    glDisableVertexAttribArray (position_attr_loc r) ].

End Renderer.

Arguments gl_context G : clear implicits.
Arguments gl_obj G : clear implicits.

(** ** Ownership of GL objects *)

Inductive gl_name : Set := a_shader (n : Z) | a_program (n : Z) | a_buffer (n : Z) | a_texture (n : Z).

(** The objects that commands create; the name 0 reports a failure. *)
Definition created_by (c : gl_command) (r : Z) : list gl_name :=
  let made (x : gl_name) := if r =? 0 then [] else [x] in
  match c with
  | glCreateShader _ => made (a_shader r)
  | glCreateProgram => made (a_program r)
  | glGenBuffers => made (a_buffer r)
  | glGenTextures => made (a_texture r)
  | _ => []
  end.

Definition deleted_by (c : gl_command) : list gl_name :=
  match c with
  | glDeleteShader n => [a_shader n]
  | glDeleteProgram n => [a_program n]
  | glDeleteBuffers n => [a_buffer n]
  | glDeleteTextures n => [a_texture n]
  | _ => []
  end.

Definition created (tr : list (gl_command * Z)) : list gl_name :=
  flat_map (fun '(c, r) => created_by c r) tr.

Definition deleted (tr : list (gl_command * Z)) : list gl_name :=
  flat_map (fun '(c, _) => deleted_by c) tr.

(** What a [Resources] object owns. *)
Definition owned (r : Resources) : list gl_name :=
  let own (n : Z) (x : gl_name) := if n =? 0 then [] else [x] in
  own (vertex_shader r) (a_shader (vertex_shader r)) ++
  own (fragment_shader r) (a_shader (fragment_shader r)) ++
  own (program r) (a_program (program r)) ++
  own (vertex_attribs_vbo r) (a_buffer (vertex_attribs_vbo r)) ++
  own (texture r) (a_texture (texture r)).

Section Ownership.
Context {G : Type} `{OpenGL G} `{Glm}.

Lemma created_snoc tr c r : created (tr ++ [(c, r)]) = created tr ++ created_by c r.
Proof. unfold created. rewrite flat_map_app. simpl. by rewrite app_nil_r. Qed.

Lemma deleted_snoc tr c r : deleted (tr ++ [(c, r)]) = deleted tr ++ deleted_by c.
Proof. unfold deleted. rewrite flat_map_app. simpl. by rewrite app_nil_r. Qed.

(** [gl_runs m g l]: [m] returns, having issued commands that create nothing
    and delete [l]. *)
Definition gl_runs (m : M (gl_context G) unit) (l : list gl_name) : Prop :=
  forall g, exists g', m g = Ret tt g' /\ created (gl_trace g') = created (gl_trace g) /\
    deleted (gl_trace g') = deleted (gl_trace g) ++ l.

Lemma gl_runs_cmd c : (forall r, created_by c r = []) -> gl_runs (gl_ c) (deleted_by c).
Proof.
  intros Hc g. unfold gl_, gl, mbind, M_bind. destruct (gl_exec c (gl_driver g)) as [r d].
  eexists. split; [reflexivity|]. simpl. by rewrite created_snoc, deleted_snoc, Hc, app_nil_r.
Qed.

Lemma gl_runs_when (b : bool) c :
  (forall r, created_by c r = []) -> gl_runs (when b (gl_ c)) (if b then deleted_by c else []).
Proof.
  intros Hc. destruct b; simpl; [by apply gl_runs_cmd|].
  intros g. exists g. by rewrite app_nil_r.
Qed.

Lemma gl_runs_seq m m' l l' : gl_runs m l -> gl_runs m' l' -> gl_runs (m ;; m') (l ++ l').
Proof.
  intros Hm Hm' g. destruct (Hm g) as (g1 & Hg1 & Hc1 & Hd1).
  destruct (Hm' g1) as (g2 & Hg2 & Hc2 & Hd2). exists g2.
  unfold mbind, M_bind. rewrite Hg1. split; [done|]. split; [congruence|].
  by rewrite Hd2, Hd1, app_assoc.
Qed.

(** The destructor deletes exactly what the object owns. *)
Lemma resources_delete_owned r : gl_runs (Resources_delete r) (owned r).
Proof.
  unfold Resources_delete, owned.
  assert (forall n c x, (forall r, created_by c r = []) -> deleted_by c = [x] ->
    gl_runs (when (negb (n =? 0)) (gl_ c)) (if n =? 0 then [] else [x])) as Hw.
  { intros n c x Hc Hd. pose proof (gl_runs_when (negb (n =? 0)) c Hc) as Hr.
    rewrite Hd in Hr. by destruct (n =? 0). }
  repeat (apply gl_runs_seq; [apply Hw; [done|done]|]).
  apply Hw; [done|done].
Qed.

(** The objects created so far are the ones the object owns. *)
Definition owns (o : gl_obj G) : Prop :=
  Permutation (created (gl_trace (fst o))) (owned (snd o)) /\ deleted (gl_trace (fst o)) = [].

Lemma wp_gl c (Q : Z -> gl_obj G -> Prop) E W g r :
  (forall z d, Q z (mkGL d (gl_trace g ++ [(c, z)]), r)) -> wp (ogl (gl c)) Q E W (g, r).
Proof.
  intros HQ. unfold wp, ogl, zoom, gl. simpl.
  destruct (gl_exec c (gl_driver g)) as [z d] eqn:E'. apply HQ.
Qed.

(** A command that creates and deletes nothing keeps the ownership. *)
Definition neutral (c : gl_command) : Prop := deleted_by c = [] /\ forall z, created_by c z = [].

Lemma owns_neutral c z d (g : gl_context G) r :
  neutral c -> owns (g, r) -> owns (mkGL d (gl_trace g ++ [(c, z)]), r).
Proof.
  intros [Hd Hc] [Ho Hd']. split; simpl in *;
    rewrite ?created_snoc, ?deleted_snoc, ?Hc, ?Hd, ?app_nil_r; done.
Qed.

Lemma wp_gl_neutral c (Q : Z -> gl_obj G -> Prop) E W g r :
  neutral c -> owns (g, r) -> (forall z g', owns (g', r) -> Q z (g', r)) ->
  wp (ogl (gl c)) Q E W (g, r).
Proof. intros Hn Ho HQ. apply wp_gl. intros z d. by apply HQ, owns_neutral. Qed.

Lemma wp_gl__neutral c (Q : unit -> gl_obj G -> Prop) E W g r :
  neutral c -> owns (g, r) -> (forall g', owns (g', r) -> Q tt (g', r)) ->
  wp (ogl (gl_ c)) Q E W (g, r).
Proof.
  intros Hn Ho HQ. unfold wp, ogl, zoom, gl_, gl, mbind, M_bind. simpl.
  destruct (gl_exec c (gl_driver g)) as [z d]. by apply HQ, owns_neutral.
Qed.

Lemma wp_gl_create {B} c (f : Z -> Resources -> Resources) (k : Z -> M (gl_obj G) B)
    Q E W g r :
  owns (g, r) -> deleted_by c = [] ->
  (forall z, Permutation (owned r ++ created_by c z) (owned (f z r))) ->
  (forall z g', owns (g', f z r) -> wp (k z) Q E W (g', f z r)) ->
  wp (ogl (gl c)) (fun z => wp (set_resources (f z) ;; k z) Q E W) E W (g, r).
Proof.
  intros [Ho Hd] Hc Hf HQ. apply wp_gl. intros z d. apply wp_bind.
  apply HQ. split; simpl in *; rewrite ?created_snoc, ?deleted_snoc, ?Hd, ?Hc; [|done].
  by rewrite Ho.
Qed.

(** What [setup] may throw, and that it never blocks. *)
Definition setup_error (e : exn) (o : gl_obj G) : Prop := owns o /\ exists w, e = runtime_error w.

Lemma wp_log_and_throw {B} getiv msg obj (Q : B -> gl_obj G -> Prop) W g r :
  neutral (getiv obj GL_INFO_LOG_LENGTH) -> owns (g, r) ->
  wp (ogl (GetObjectLogAndThrow getiv msg obj)) Q setup_error W (g, r).
Proof.
  intros Hn Ho. unfold wp, ogl, zoom, GetObjectLogAndThrow, gl, mbind, M_bind. simpl.
  destruct (gl_exec _ _) as [z d]. simpl. destruct (gl_info_log _ _ _) as [log d'].
  split; [|eauto]. by apply (owns_neutral (getiv obj GL_INFO_LOG_LENGTH)).
Qed.

Ltac gl_steps :=
  repeat (apply wp_bind || (apply wp_gl_neutral; [by split|done|intros ?z ?g ?Hown]) ||
          (apply wp_gl__neutral; [by split|done|intros ?g ?Hown])).

Lemma wp_setup_shader type src set msg (Q : Z -> gl_obj G -> Prop) W g r :
  owns (g, r) ->
  (forall z, Permutation (owned r ++ created_by (glCreateShader type) z) (owned (set z r))) ->
  (forall z g', owns (g', set z r) -> Q z (g', set z r)) ->
  wp (setup_shader type src set msg) Q setup_error W (g, r).
Proof.
  intros Ho Hs HQ. unfold setup_shader. apply wp_bind, wp_gl_create; [done..|].
  intros z g1 Ho1. gl_steps. destruct (z0 =? GL_FALSE).
  - by apply wp_log_and_throw.
  - by apply HQ.
Qed.

Ltac solve_owned :=
  intros ?z; unfold owned, created_by; simpl; rewrite ?app_nil_r; repeat case_match; try done.

Lemma wp_setup_variables prog sz (Q : Z -> gl_obj G -> Prop) E W g r :
  owns (g, r) ->
  (forall z g' pos tex tra alpha, owns (g', set_locations pos tex tra alpha r) ->
     Q z (g', set_locations pos tex tra alpha r)) ->
  wp (setup_variables prog sz) Q E W (g, r).
Proof.
  intros Ho HQ. unfold setup_variables. gl_steps. by apply HQ.
Qed.

Lemma wp_setup_objects tex_loc E W g r :
  owns (g, r) -> vertex_attribs_vbo r = 0 -> texture r = 0 ->
  wp (setup_objects tex_loc) (fun _ => owns) E W (g, r).
Proof.
  intros Ho Hv Ht. unfold setup_objects.
  apply wp_bind, wp_gl_create; [done|done|..].
  { intros z. unfold owned. simpl. rewrite Hv, Ht, !app_nil_r, <- !app_assoc. simpl. done. }
  intros tex g1 Ho1. gl_steps.
  apply wp_gl_create; [done|done|..].
  { intros z. unfold owned. simpl. rewrite Hv. simpl. rewrite <- !app_assoc.
    do 3 apply Permutation_app_head. apply Permutation_app_comm. }
  intros vbo g' Ho'. gl_steps. done.
Qed.

Lemma setup_owns sz g :
  created (gl_trace g) = [] -> deleted (gl_trace g) = [] ->
  wp (setup sz) (fun _ => owns) setup_error (fun _ => False) (g, Resources_new).
Proof.
  intros Hc Hd. assert (owns (g, Resources_new)) as Ho by (split; simpl; by rewrite ?Hc).
  unfold setup. apply wp_bind. unfold setup_program.
  apply wp_bind, wp_setup_shader; [done|solve_owned|]. intros vs g1 Ho1.
  apply wp_bind, wp_setup_shader; [done|solve_owned|]. intros fs g2 Ho2.
  apply wp_bind, wp_gl_create; [done|done|solve_owned|]. intros prog g3 Ho3. gl_steps.
  destruct (z =? GL_FALSE); [by apply wp_log_and_throw|].
  apply wp_bind, wp_setup_variables; [done|]. intros tex_loc g' pos tex tra alpha Ho'.
  by apply wp_setup_objects.
Qed.

(** The renderer does not leak GL objects: when its construction fails
    (always with [std::runtime_error], at a shader that does not compile or a
    program that does not link), and when it is constructed and later
    destroyed, every shader, program, buffer and texture it created has been
    deleted exactly once, and nothing else has. *)
Theorem gl_objects_released sz (g : gl_context G) :
  gl_trace g = [] ->
  match GLRenderer_new sz g with
  | Ret r g' => exists g'', GLRenderer_delete r g' = Ret tt g'' /\
      Permutation (deleted (gl_trace g'')) (created (gl_trace g''))
  | Throw e g' => (exists w, e = runtime_error w) /\
      Permutation (deleted (gl_trace g')) (created (gl_trace g'))
  | _ => False
  end.
Proof.
  intros Htr. pose proof (setup_owns sz g) as Hs. rewrite Htr in Hs.
  specialize (Hs eq_refl eq_refl). unfold wp in Hs. unfold GLRenderer_new.
  destruct (setup sz (g, Resources_new)) as [u [g' r]|e [g' r]| |]; try done.
  - destruct Hs as [Ho Hd]. destruct (resources_delete_owned r g') as (g'' & Hg & Hc & Hd').
    exists g''. split; [done|]. simpl in *. by rewrite Hd', Hc, Hd, Ho.
  - destruct Hs as [[Ho Hd] Hw]. destruct (resources_delete_owned r g') as (g'' & Hg & Hc & Hd').
    unfold mbind, M_bind. rewrite Hg. split; [done|]. simpl in *. by rewrite Hd', Hc, Hd, Ho.
Qed.
End Ownership.

(** ** A concrete driver

    It numbers what it creates, and compiles everything. *)
#[export] Instance demo_gl : OpenGL Z := {
  gl_exec c g := (g + 1, g + 1);
  gl_info_log _ _ g := (EmptyString, g);
}.

#[export] Instance demo_glm : Glm := {
  glm_translate m v := m;
  glm_scale m v := m;
  glm_mul m n := m;
  glm_vec_add v w := v;
  glm_vec_scale f v := v;
  float_div f g := f;
}.

Definition demo_display_size : Size := mkSize (wrap 1024) (wrap 768).

Lemma gl_objects_released_witness :
  gl_trace (mkGL 0 []) = [] /\
  match GLRenderer_new demo_display_size (mkGL 0 []) with
  | Ret r g' => exists g'', GLRenderer_delete r g' = Ret tt g'' /\
      Permutation (deleted (gl_trace g'')) (created (gl_trace g''))
  | Throw e g' => (exists w, e = runtime_error w) /\
      Permutation (deleted (gl_trace g')) (created (gl_trace g'))
  | _ => False
  end.
Proof.
  split; [reflexivity|].
  apply (gl_objects_released demo_display_size (mkGL 0 []) eq_refl).
Defined.
