(* ===== verification/Compositing.v ===== *)
(** * Compositing

    [DefaultCompositingStrategy::render]
    ([src/server/compositor/default_compositing_strategy.cpp]), with
    [RenderingOperator] ([rendering_operator.cpp]) and [GLRenderer::render]
    ([src/server/graphics/gl_renderer.cpp]), over the surface stack, a display
    buffer and a GL context.  The display buffer is the interface
    [graphics::DisplayBuffer], and the binding of a buffer's image to the
    current texture is the platform's ([GbmTexture], [AndroidBuffers]): it may
    throw. *)

From S2P Require Import Prelude Geometry Buffers Swapper Bundle GbmBuffers SurfaceParams Surfaces GlRenderer.

(** [graphics::DisplayBuffer], on the platform's state. *)
Class DisplayBuffer (D : Type) : Type := {
  view_area : D -> Rectangle;
  make_current : M D unit;
  clear : M D unit;
  post_update : M D bool;
}.

(** [graphics::Buffer::bind_to_texture], which may find that it has to make an image and
    that it cannot. *)
Class TextureBinding (G : Type) : Type := {
  bind_image : BufferID -> G -> option exn * G;
}.

(** What is asked of the display buffer: a call returns or throws; the update may also
    have to wait. *)
Class DisplayBufferLaws (D : Type) `{DisplayBuffer D} : Prop := {
  make_current_ends : forall d, wp make_current (fun _ _ => True) (fun _ _ => True) (fun _ => False) d;
  clear_ends : forall d, wp clear (fun _ _ => True) (fun _ _ => True) (fun _ => False) d;
  post_update_ends : forall d, wp post_update (fun _ _ => True) (fun _ _ => True) (fun _ => True) d;
}.

Section Compositing.
Context {A D G : Type} `{GraphicBufferAllocator A} `{DisplayBuffer D} `{OpenGL G} `{TextureBinding G} `{Glm}.

(** Everything a rendering works on.  [fr_resources] is the member [resources]
    of the rendering operator: the compositor buffers held, with the surfaces
    they come from. *)
Record frame : Type := mkFrame {
  fr_stack : SurfaceStack A;
  fr_display : D;
  fr_gl : gl_context G;
  fr_resources : list (surface_ptr * TemporaryBuffer);
}.

Definition stack_lens : lens frame (SurfaceStack A) :=
  Lens fr_stack (fun st f => mkFrame st (fr_display f) (fr_gl f) (fr_resources f)).
Definition display_lens : lens frame D :=
  Lens fr_display (fun d f => mkFrame (fr_stack f) d (fr_gl f) (fr_resources f)).
Definition gl_lens : lens frame (gl_context G) :=
  Lens fr_gl (fun g f => mkFrame (fr_stack f) (fr_display f) g (fr_resources f)).

Definition issue (cs : list gl_command) : M frame unit := zoom gl_lens (for_each cs gl_).

(** The lambda given to the renderer by [RenderingOperator::operator()]. *)
Definition save_resource (r : surface_ptr * TemporaryBuffer) : M frame unit :=
  modify (fun f => mkFrame (fr_stack f) (fr_display f) (fr_gl f) (fr_resources f ++ [r])).

(** A resource that is dropped gives its buffer back to its swapper if that still
    exists. *)
Definition release_resource (r : surface_ptr * TemporaryBuffer) : M frame unit := fun f =>
  match lock_surface (fst r) (fr_stack f) with
  | None => Ret tt f
  | Some _ => zoom stack_lens (on_swapper (fst r) (TemporaryCompositorBuffer_delete (snd r))) f
  end.

Definition bind_to_texture (id : BufferID) : M frame unit := zoom gl_lens (fun g =>
  let '(failure, d) := bind_image id (gl_driver g) in
  match failure with
  | Some e => Throw e (mkGL d (gl_trace g))
  | None => gl_ (bind_buffer_image id) (mkGL d (gl_trace g))
  end).

(** [GLRenderer::render] of the surface at [p].  When the binding throws, the local
    [region_resource] is the only reference to the buffer. *)
Definition GLRenderer_render (r : Resources) (p : surface_ptr) : M frame unit :=
  s ← deref (fun f => lock_surface p (fr_stack f)) ;
  issue (draw_prologue r s) ;;
  region_resource ← zoom stack_lens (graphic_region p) ;
  id ← deref (fun _ => tb_buffer_id region_resource) ;
  try_catch (bind_to_texture id) (fun e => release_resource (p, region_resource) ;; throw e) ;;
  save_resource (p, region_resource) ;;
  issue (draw_epilogue r).

Definition RenderingOperator_call (r : Resources) (p : surface_ptr) : M frame unit :=
  GLRenderer_render r p.

(** The filter does not look at the region. *)
Definition FilterForVisibleRenderablesInRegion (enclosing_region : Rectangle) (s : Surface) : bool :=
  negb (is_hidden s).

(** The destructor of the operator drops the resources. *)
Definition RenderingOperator_delete : M frame unit :=
  rs ← gets fr_resources ;
  for_each rs release_resource ;;
  modify (fun f => mkFrame (fr_stack f) (fr_display f) (fr_gl f) []).

(** Leaving a scope, by a return or by an exception, runs the destructors. *)
Definition scoped {S B} (m : M S B) (destructors : M S unit) : M S B := fun s =>
  match m s with
  | Ret b s' => (destructors ;; mret b) s'
  | Throw e s' => (destructors ;; throw e) s'
  | o => o
  end.

(** The statements of [render] up to the drawing of the last surface. *)
Definition draw_surfaces (r : Resources) : M frame unit :=
  region ← gets (fun f => view_area (fr_display f)) ;
  zoom display_lens make_current ;;
  zoom display_lens clear ;;
  for_each_if stack_lens (FilterForVisibleRenderablesInRegion region) (RenderingOperator_call r).

Definition render (r : Resources) : M frame unit :=
  scoped (draw_surfaces r ;; zoom display_lens post_update ;; mret tt) RenderingOperator_delete.

End Compositing.

Arguments frame A D G : clear implicits.

(** ** What a rendering shows and does *)

(** The frame a surface shows next: the oldest posted one, or, when none is
    posted, the buffer released last. *)
Definition next_frame (w : BufferSwapperMulti) : list BufferID :=
  match compositor_queue w with
  | b :: _ => [b]
  | [] => match unsnoc (client_queue w) with Some (_, b) => [b] | None => [] end
  end.

(** The swapper after the compositor has taken that frame and given it
    back. *)
Definition composited (w : BufferSwapperMulti) : BufferSwapperMulti :=
  set_cv (cv_notify_one (client_available_cv w))
    match compositor_queue w with
    | [] => w
    | b :: q => set_client_queue (client_queue w ++ [b]) (set_compositor_queue q w)
    end.

Definition composite_surface (s : Surface) : Surface :=
  if is_hidden s then s else with_swapper (composited (swapper (buffer_bundle s))) s.

(** The heap after the surfaces in [ps] have been composited. *)
Definition composite_these (ps : list surface_ptr) (h : gmap surface_ptr Surface) : gmap surface_ptr Surface :=
  map_imap (fun p s => Some (if decide (p ∈ ps) then composite_surface s else s)) h.

(** The visible surfaces of a list, as they are on the heap. *)
Definition is_visible (h : gmap surface_ptr Surface) (p : surface_ptr) : bool :=
  match h !! p with Some s => negb (is_hidden s) | None => false end.

Definition visible_in (h : gmap surface_ptr Surface) (ps : list surface_ptr) : list surface_ptr :=
  filter (fun p => is_visible h p = true) ps.

(** The frames the surfaces in [ps] show next. *)
Definition frames_of (h : gmap surface_ptr Surface) (ps : list surface_ptr) : list BufferID :=
  flat_map (fun p => match h !! p with Some s => next_frame (swapper (buffer_bundle s)) | None => [] end) ps.

(** The images drawn: the one bound last, at each draw call. *)
Definition draw_step (st : option BufferID * list BufferID) (c : gl_command * Z)
    : option BufferID * list BufferID :=
  match fst c with
  | bind_buffer_image b => (Some b, snd st)
  | glDrawArrays _ _ _ => (fst st, snd st ++ option_list (fst st))
  | _ => st
  end.

Definition drawn_images (tr : list (gl_command * Z)) : list BufferID :=
  snd (fold_left draw_step tr (None, [])).

Section RenderLemmas.
Context {A D G : Type} `{AllocatorLaws A} `{DisplayBufferLaws D} `{OpenGL G} `{TextureBinding G} `{Glm}.
Implicit Types (f : frame A D G) (st : SurfaceStack A) (p : surface_ptr).

Lemma gl__spec c (g : gl_context G) :
  exists r d, gl_ c g = Ret tt (mkGL d (gl_trace g ++ [(c, r)])).
Proof.
  unfold gl_, gl, mbind, M_bind. destruct (gl_exec c (gl_driver g)) as [r d]. eauto.
Qed.

Lemma for_each_gl cs (g : gl_context G) :
  exists g' rs, for_each cs gl_ g = Ret tt g' /\ length rs = length cs /\
    gl_trace g' = gl_trace g ++ zip cs rs.
Proof.
  revert g. induction cs as [|c cs IH]; intros g.
  - exists g, []. by rewrite app_nil_r.
  - destruct (gl__spec c g) as (r & d & Hc).
    destruct (IH (mkGL d (gl_trace g ++ [(c, r)]))) as (g' & rs & Hg & Hl & Ht).
    exists g', (r :: rs). cbn [for_each]. unfold mbind, M_bind. rewrite Hc.
    split; [exact Hg|]. split; [simpl; congruence|]. rewrite Ht. simpl. by rewrite <- app_assoc.
Qed.

(** Issuing commands only changes the GL context. *)
Lemma issue_spec cs f :
  exists g rs, issue cs f = Ret tt (mkFrame (fr_stack f) (fr_display f) g (fr_resources f)) /\
    length rs = length cs /\ gl_trace g = gl_trace (fr_gl f) ++ zip cs rs.
Proof.
  unfold issue, zoom. simpl. destruct (for_each_gl cs (fr_gl f)) as (g & rs & -> & ? & ?). eauto.
Qed.

(** The commands that draw one surface draw its image once. *)
Lemma drawn_block tr r s b rs1 rs2 rs3 :
  length rs1 = length (draw_prologue r s) -> length rs2 = 1%nat ->
  length rs3 = length (draw_epilogue r) ->
  drawn_images (((tr ++ zip (draw_prologue r s) rs1) ++ zip [bind_buffer_image b] rs2) ++
    zip (draw_epilogue r) rs3) = drawn_images tr ++ [b].
Proof.
  intros L1 L2 L3. unfold drawn_images. rewrite !fold_left_app.
  do 10 (destruct rs1 as [|? rs1]; [done|]). destruct rs1; [|done].
  destruct rs2 as [|? [|]]; try done.
  do 5 (destruct rs3 as [|? rs3]; [done|]). destruct rs3; [|done]. done.
Qed.

Lemma lock_back_buffer_shows w c :
  swapper_ok w c [] ->
  exists t w', lock_back_buffer w = Ret t w' /\ next_frame w = [tb_id t] /\
    tb_buffer_id t = Some (tb_id t) /\ swapper_ok w' c [tb_id t] /\
    exists w'', TemporaryCompositorBuffer_delete t w' = Ret tt w'' /\ w'' = composited w /\
      swapper_ok w'' c [].
Proof.
  intros Hok. destruct (lock_back_buffer_ok w c Hok) as (t & w' & Hl & Hok' & Ht & Hq).
  exists t, w'. split; [done|]. destruct Ht as (buf & Hb & Hid).
  destruct (compositor_delete_ok w' t c Hok') as (w'' & Hd & Hok'' & _).
  assert (w'' = composited w) as Hw.
  { unfold TemporaryCompositorBuffer_delete, compositor_release, mbind, M_bind, modify in Hd.
    injection Hd as <-. unfold composited.
    destruct (compositor_queue w) as [|b q] eqn:E.
    - destruct Hq as (q & Hc & ->). destruct w; simpl in *. by subst.
    - destruct Hq as [<- ->]. done. }
  split; [|split; [|split; [done|eauto]]].
  - unfold next_frame. destruct (compositor_queue w).
    + destruct Hq as (q & -> & _). by rewrite unsnoc_app.
    + by destruct Hq as [-> _].
  - unfold tb_buffer_id. rewrite Hb. simpl. by rewrite Hid.
Qed.

Lemma graphic_region_spec st p s w t :
  surface_heap st !! p = Some s -> lock_back_buffer (swapper (buffer_bundle s)) = Ret t w ->
  graphic_region p st = Ret t (set_heap (<[p := with_swapper w s]> (surface_heap st)) st).
Proof. intros Hp Hl. unfold graphic_region, on_swapper, lock_surface. by rewrite Hp, Hl. Qed.

Lemma surface_frame st p s :
  stack_ok none_held st -> surface_heap st !! p = Some s ->
  exists t w, lock_back_buffer (swapper (buffer_bundle s)) = Ret t w.
Proof.
  intros Hok Hp. destruct (st_surfaces _ _ Hok p s Hp) as [Hs _].
  destruct (lock_back_buffer_shows _ _ Hs) as (t & w & ? & _). eauto.
Qed.

(** The commands up to the binding draw nothing. *)
Lemma drawn_prologue tr r s rs : length rs = length (draw_prologue r s) -> drawn_images (tr ++ zip (draw_prologue r s) rs) = drawn_images tr.
Proof.
  intros L. unfold drawn_images. rewrite fold_left_app. do 10 (destruct rs as [|? rs]; [done|]). by destruct rs.
Qed.

(** Binding succeeds and is a command, or throws and is none. *)
Lemma bind_spec id f :
  (exists g rs, bind_to_texture id f = Ret tt (mkFrame (fr_stack f) (fr_display f) g (fr_resources f)) /\ length rs = 1%nat /\
     gl_trace g = gl_trace (fr_gl f) ++ zip [bind_buffer_image id] rs) \/
  (exists e g, bind_to_texture id f = Throw e (mkFrame (fr_stack f) (fr_display f) g (fr_resources f)) /\ gl_trace g = gl_trace (fr_gl f)).
Proof.
  unfold bind_to_texture, zoom. cbn [view gl_lens]. destruct (bind_image id (gl_driver (fr_gl f))) as [[e|] d].
  - right. by eexists _, _.
  - left. destruct (gl__spec (bind_buffer_image id) (mkGL d (gl_trace (fr_gl f)))) as (r & d' & ->). by exists (mkGL d' (gl_trace (fr_gl f) ++ [(bind_buffer_image id, r)])), [r].
Qed.

(** Dropping the resources. *)
Lemma release_one p t s f :
  surface_heap (fr_stack f) !! p = Some s ->
  exists w, TemporaryCompositorBuffer_delete t (swapper (buffer_bundle s)) = Ret tt w /\
    release_resource (p, t) f =
      Ret tt (mkFrame (set_heap (<[p := with_swapper w s]> (surface_heap (fr_stack f))) (fr_stack f))
                (fr_display f) (fr_gl f) (fr_resources f)).
Proof.
  intros Hp. eexists. split; [reflexivity|].
  unfold release_resource, lock_surface. cbn [fst snd]. rewrite Hp.
  unfold zoom, on_swapper, lock_surface. cbn [view stack_lens]. by rewrite Hp.
Qed.

(** Drawing one visible surface: it is drawn and its frame held, or its frame has been
    given back. *)
Lemma render_one_spec r f p s :
  surface_heap (fr_stack f) !! p = Some s -> surface_ok [] s -> is_hidden s = false ->
  exists t w g,
    lock_back_buffer (swapper (buffer_bundle s)) = Ret t w /\
    next_frame (swapper (buffer_bundle s)) = [tb_id t] /\
    ((drawn_images (gl_trace g) = drawn_images (gl_trace (fr_gl f)) ++ [tb_id t] /\
      RenderingOperator_call r p f =
        Ret tt (mkFrame (set_heap (<[p := with_swapper w s]> (surface_heap (fr_stack f))) (fr_stack f))
                  (fr_display f) g (fr_resources f ++ [(p, t)]))) \/
     (exists e, drawn_images (gl_trace g) = drawn_images (gl_trace (fr_gl f)) /\
      RenderingOperator_call r p f =
        Throw e (mkFrame (set_heap (<[p := composite_surface s]> (surface_heap (fr_stack f))) (fr_stack f))
                  (fr_display f) g (fr_resources f)))).
Proof.
  intros Hp [Hs _] Hh. destruct (lock_back_buffer_shows _ _ Hs) as (t & w & Hl & Hn & Hb & _ & w' & Hd & Hw' & _).
  unfold RenderingOperator_call, GLRenderer_render.
  destruct (issue_spec (draw_prologue r s) f) as (g1 & rs1 & He1 & L1 & T1).
  set (st' := set_heap (<[p := with_swapper w s]> (surface_heap (fr_stack f))) (fr_stack f)).
  destruct (bind_spec (tb_id t) (mkFrame st' (fr_display f) g1 (fr_resources f))) as [(g2 & rs2 & He2 & L2 & T2)|(e & g2 & He2 & T2)].
  - destruct (issue_spec (draw_epilogue r)
      (mkFrame st' (fr_display f) g2 (fr_resources f ++ [(p, t)]))) as (g3 & rs3 & He3 & L3 & T3).
    exists t, w, g3. split; [done|]. split; [done|]. left. split.
    { rewrite T3. simpl. rewrite T2. simpl fr_gl. rewrite T1. by apply drawn_block. }
    unfold mbind, M_bind, deref at 1, lock_surface at 1. rewrite Hp, He1.
    unfold zoom at 1. simpl view. rewrite (graphic_region_spec _ _ _ _ _ Hp Hl).
    unfold deref. rewrite Hb. simpl over. fold st'. unfold try_catch. rewrite He2. simpl. by rewrite He3.
  - exists t, w, g2. split; [done|]. split; [done|]. right. exists e. split.
    { rewrite T2. simpl fr_gl. rewrite T1. by apply drawn_prologue. }
    unfold mbind, M_bind, deref at 1, lock_surface at 1. rewrite Hp, He1.
    unfold zoom at 1. simpl view. rewrite (graphic_region_spec _ _ _ _ _ Hp Hl).
    unfold deref. rewrite Hb. simpl over. fold st'. unfold try_catch. rewrite He2.
    destruct (release_one p t (with_swapper w s) (mkFrame st' (fr_display f) g2 (fr_resources f))) as (w1 & Hd1 & Hr1).
    { unfold st'. simpl. apply lookup_insert_eq. }
    change (swapper (buffer_bundle (with_swapper w s))) with w in Hd1. rewrite Hd in Hd1. injection Hd1 as <-.
    cbn [fr_stack fr_display fr_gl fr_resources] in Hr1 |- *. rewrite Hr1.
    unfold throw, composite_surface, st'. cbn [fr_stack fr_display fr_gl fr_resources surface_heap set_heap]. by rewrite insert_insert_eq, Hh, Hw'.
Qed.

(** The state of the surfaces when [rs] are the frames the compositor has
    taken from the surfaces of heap [h]. *)
Record taken (h h' : gmap surface_ptr Surface) (rs : list (surface_ptr * TemporaryBuffer)) : Prop := {
  taken_nodup : NoDup (fst <$> rs);
  taken_other : forall p, p ∉ fst <$> rs -> h' !! p = h !! p;
  taken_from : forall p t, (p, t) ∈ rs -> exists s w,
    h !! p = Some s /\ lock_back_buffer (swapper (buffer_bundle s)) = Ret t w /\
    h' !! p = Some (with_swapper w s);
}.

Lemma taken_cons h p s t w rs h' :
  h !! p = Some s -> lock_back_buffer (swapper (buffer_bundle s)) = Ret t w ->
  p ∉ fst <$> rs -> taken (<[p := with_swapper w s]> h) h' rs -> taken h h' ((p, t) :: rs).
Proof.
  intros Hp Hl Hn [Hnd Ho Hf]. split.
  - by constructor.
  - intros q Hq. rewrite fmap_cons, not_elem_of_cons in Hq. destruct Hq as [Hne Hq].
    rewrite (Ho q Hq). apply lookup_insert_ne. simpl in Hne. congruence.
  - intros q t' [[= -> ->]|Hq]%elem_of_cons.
    + exists s, w. rewrite (Ho p Hn), lookup_insert_eq. done.
    + destruct (Hf q t' Hq) as (s' & w' & Hq' & ? & ?).
      assert (q <> p) as Hne by (intros ->; apply Hn; apply list_elem_of_fmap; by exists (p, t')).
      rewrite lookup_insert_ne in Hq' by congruence. eauto.
Qed.

Lemma visible_insert h p s ps :
  p ∉ ps -> visible_in (<[p := s]> h) ps = visible_in h ps /\
  frames_of (<[p := s]> h) ps = frames_of h ps.
Proof.
  intros Hn. unfold visible_in, frames_of. induction ps as [|q ps IH]; [done|].
  rewrite not_elem_of_cons in Hn. destruct Hn as [Hne Hn]. destruct (IH Hn) as [IH1 IH2].
  assert (<[p := s]> h !! q = h !! q) as Hq by (apply lookup_insert_ne; congruence).
  split; [|simpl; by rewrite Hq, IH2].
  assert (is_visible (<[p := s]> h) q = is_visible h q) as Hv by (unfold is_visible; by rewrite Hq).
  rewrite !filter_cons, IH1. by repeat case_decide; congruence.
Qed.

Lemma visible_cons h p s ps :
  h !! p = Some s -> visible_in h (p :: ps) = if is_hidden s then visible_in h ps else p :: visible_in h ps.
Proof.
  intros Hp. unfold visible_in. rewrite filter_cons. unfold is_visible at 1.
  destruct (decide _) as [Hd|Hd]; rewrite Hp in Hd; by destruct (is_hidden s).
Qed.

(** One iteration of [for_each_if]. *)
Definition visit_surface (region : Rectangle) (r : Resources) (p : surface_ptr) : M (frame A D G) unit :=
  s ← deref (fun b => lock_surface p (view stack_lens b)) ;
  if FilterForVisibleRenderablesInRegion region s then RenderingOperator_call r p else mret tt.

Lemma visit_step region r p s ps f :
  surface_heap (fr_stack f) !! p = Some s ->
  for_each (p :: ps) (visit_surface region r) f =
  ((if is_hidden s then mret tt else RenderingOperator_call r p) ;;
   for_each ps (visit_surface region r)) f.
Proof.
  intros Hp.
  assert (visit_surface region r p f = (if is_hidden s then mret tt else RenderingOperator_call r p) f) as Hv.
  { unfold visit_surface, mbind, M_bind, deref, lock_surface. cbn [view stack_lens]. rewrite Hp.
    unfold FilterForVisibleRenderablesInRegion. by destruct (is_hidden s). }
  cbn [for_each]. unfold mbind, M_bind. by rewrite Hv.
Qed.

Lemma composite_these_lookup ps h p :
  composite_these ps h !! p = (fun s => if decide (p ∈ ps) then composite_surface s else s) <$> h !! p.
Proof. unfold composite_these. rewrite map_lookup_imap. by destruct (h !! p). Qed.

Lemma composite_these_nil h : composite_these [] h = h.
Proof. apply map_eq. intros p. rewrite composite_these_lookup. destruct (h !! p); [|done]. cbn -[decide]. by rewrite decide_False by apply not_elem_of_nil. Qed.

Lemma composite_these_app ps qs h : (forall p, p ∈ ps -> p ∉ qs) -> composite_these ps (composite_these qs h) = composite_these (qs ++ ps) h.
Proof.
  intros Hd. apply map_eq. intros p. rewrite !composite_these_lookup. destruct (h !! p) as [s|]; [|done]. cbn -[decide]. f_equal.
  destruct (decide (p ∈ ps)) as [Hp|Hp].
  - rewrite (decide_False _ _ (Hd p Hp)). by rewrite decide_True by set_solver.
  - destruct (decide (p ∈ qs)); [rewrite decide_True by set_solver|rewrite decide_False by set_solver]; done.
Qed.

(** What the loop over the surfaces [ps] leaves: the frames of the visible ones are held
    and drawn; or the loop has thrown at one of them, whose frame has been given back, and
    those of the surfaces before it are held. *)
Definition drawn f ps (o : outcome (frame A D G) unit) : Prop :=
  let h0 := surface_heap (fr_stack f) in
  match o with
  | Ret _ f' => exists h rs g,
      f' = mkFrame (set_heap h (fr_stack f)) (fr_display f) g (fr_resources f ++ rs) /\
      taken h0 h rs /\ fst <$> rs = visible_in h0 ps /\
      drawn_images (gl_trace g) = drawn_images (gl_trace (fr_gl f)) ++ frames_of h0 (visible_in h0 ps)
  | Throw _ f' => exists h rs g p s,
      f' = mkFrame (set_heap h (fr_stack f)) (fr_display f) g (fr_resources f ++ rs) /\
      h0 !! p = Some s /\ is_hidden s = false /\ taken (composite_these [p] h0) h rs /\
      (fst <$> rs) ++ [p] `prefix_of` visible_in h0 ps
  | _ => False
  end.

Lemma drawn_other f f' p w s ps :
  p ∉ ps -> f' = mkFrame (set_heap (<[p := with_swapper w s]> (surface_heap (fr_stack f))) (fr_stack f)) (fr_display f) (fr_gl f') (fr_resources f') ->
  visible_in (surface_heap (fr_stack f')) ps = visible_in (surface_heap (fr_stack f)) ps /\
  frames_of (surface_heap (fr_stack f')) (visible_in (surface_heap (fr_stack f)) ps) = frames_of (surface_heap (fr_stack f)) (visible_in (surface_heap (fr_stack f)) ps).
Proof.
  intros Hn ->. cbn [fr_stack surface_heap set_heap].
  destruct (visible_insert (surface_heap (fr_stack f)) p (with_swapper w s) ps Hn) as [Hv _].
  assert (p ∉ visible_in (surface_heap (fr_stack f)) ps) as Hn' by (unfold visible_in; rewrite list_elem_of_filter; tauto).
  destruct (visible_insert (surface_heap (fr_stack f)) p (with_swapper w s) _ Hn') as [_ Hfo]. done.
Qed.

Lemma composite_insert_ne p q s h : p <> q -> composite_these [q] (<[p := s]> h) = <[p := s]> (composite_these [q] h).
Proof.
  intros Hne. apply map_eq. intros k. rewrite composite_these_lookup. destruct (decide (k = p)) as [->|Hk].
  - rewrite !lookup_insert_eq. cbn -[decide]. by rewrite decide_False by set_solver.
  - rewrite !lookup_insert_ne by congruence. by rewrite composite_these_lookup.
Qed.

Lemma draw_loop_spec r region ps f :
  NoDup ps -> (forall p, p ∈ ps -> exists s, surface_heap (fr_stack f) !! p = Some s /\ surface_ok [] s) ->
  drawn f ps (for_each ps (visit_surface region r) f).
Proof.
  revert f. induction ps as [|p ps IH]; intros f Hnd Hps.
  { exists (surface_heap (fr_stack f)), [], (fr_gl f). rewrite !app_nil_r. split; [by destruct f as [[]]|].
    split; [|done]. split; [constructor|done|]. intros p t Hin. by apply not_elem_of_nil in Hin. }
  apply NoDup_cons in Hnd as [Hn Hnd]. destruct (Hps p) as (s & Hp & Hs); [set_solver|].
  rewrite (visit_step region r p s ps f Hp). unfold drawn. rewrite (visible_cons _ p s ps Hp).
  destruct (is_hidden s) eqn:Hh; [apply IH; [done|]; intros q Hq; apply Hps; set_solver|].
  unfold mbind, M_bind. destruct (render_one_spec r f p s Hp Hs Hh) as (t & w & g & Hl & Hnf & [[Hd ->]|(e & _ & ->)]).
  2:{ exists (composite_these [p] (surface_heap (fr_stack f))), [], g, p, s. rewrite app_nil_r. split.
      - do 2 f_equal. apply map_eq. intros q. rewrite composite_these_lookup. destruct (decide (q = p)) as [->|Hne].
        + rewrite lookup_insert_eq, Hp. cbn -[decide]. by rewrite decide_True by set_solver.
        + rewrite lookup_insert_ne by congruence. destruct (surface_heap (fr_stack f) !! q); [|done]. cbn -[decide]. by rewrite decide_False by set_solver.
      - split; [done|]. split; [done|]. split; [split; [constructor|done|]; intros q t' Hin; by apply not_elem_of_nil in Hin|].
        by exists (visible_in (surface_heap (fr_stack f)) ps). }
  set (f1 := mkFrame _ _ g _). assert (forall q, q ∈ ps -> exists s', surface_heap (fr_stack f1) !! q = Some s' /\ surface_ok [] s') as Hps1.
  { intros q Hq. destruct (Hps q) as (s' & Hq' & Hs'); [set_solver|].
    exists s'. split; [|done]. simpl. rewrite lookup_insert_ne; [done|]. intros ->. done. }
  specialize (IH f1 Hnd Hps1).
  destruct (drawn_other f f1 p w s ps Hn eq_refl) as (Hv & Hfo).
  assert (p ∉ visible_in (surface_heap (fr_stack f)) ps) as Hn' by (unfold visible_in; rewrite list_elem_of_filter; tauto).
  unfold drawn in IH. rewrite Hv in IH. destruct (for_each ps (visit_surface region r) f1) as [u f'|e f'|f'|].
  - destruct IH as (h & rs & g' & -> & Htk & Hfst & Hdr).
    exists h, ((p, t) :: rs), g'. split; [simpl; by rewrite <- app_assoc|].
    split; [apply (taken_cons _ _ s t w); try done; by rewrite Hfst|]. split; [rewrite fmap_cons, Hfst; done|].
    rewrite Hdr, Hfo. simpl fr_gl. rewrite Hd. simpl. rewrite Hp, Hnf, <- app_assoc. done.
  - destruct IH as (h & rs & g' & q & sq & -> & Hq & Hhq & Htk & Hpre).
    assert (forall x, x ∈ (fst <$> rs) ++ [q] -> x <> p) as Hne.
    { intros x Hx ->. destruct Hpre as [k Hk]. apply Hn'. rewrite Hk. set_solver. }
    assert (q <> p) as Hqp by (apply Hne; set_solver).
    exists h, ((p, t) :: rs), g', q, sq. split; [simpl; by rewrite <- app_assoc|].
    simpl in Hq. rewrite lookup_insert_ne in Hq by congruence. split; [done|]. split; [done|]. split; [|by apply prefix_cons].
    simpl in Htk. rewrite composite_insert_ne in Htk by congruence.
    apply (taken_cons _ _ s t w); [|done|intros Hx; by apply (Hne p); [set_solver|]|done].
    rewrite composite_these_lookup, Hp. cbn -[decide]. by rewrite decide_False by set_solver.
  - done.
  - done.
Qed.

Lemma release_loop_spec rs f :
  NoDup (fst <$> rs) -> (forall p, p ∈ fst <$> rs -> is_Some (surface_heap (fr_stack f) !! p)) ->
  exists h,
    for_each rs release_resource f =
      Ret tt (mkFrame (set_heap h (fr_stack f)) (fr_display f) (fr_gl f) (fr_resources f)) /\
    (forall p, p ∉ fst <$> rs -> h !! p = surface_heap (fr_stack f) !! p) /\
    (forall p t, (p, t) ∈ rs -> exists s w, surface_heap (fr_stack f) !! p = Some s /\
       TemporaryCompositorBuffer_delete t (swapper (buffer_bundle s)) = Ret tt w /\
       h !! p = Some (with_swapper w s)).
Proof.
  revert f. induction rs as [|[p t] rs IH]; intros f Hnd Hl.
  { exists (surface_heap (fr_stack f)). split; [by destruct f as [[]]|].
    split; [done|]. intros p t Hin. by apply not_elem_of_nil in Hin. }
  rewrite fmap_cons in Hnd, Hl. apply NoDup_cons in Hnd as [Hn Hnd]. simpl in Hn.
  destruct (Hl p) as [s Hp]; [apply list_elem_of_here|].
  destruct (release_one p t s f Hp) as (w & Hd & Hr).
  cbn [for_each]. unfold mbind, M_bind. rewrite Hr. set (f1 := mkFrame _ _ _ _).
  assert (forall q, q ∈ fst <$> rs -> q <> p) as Hne by (intros q Hq ->; done).
  destruct (IH f1) as (h & Hrun & Ho & Hf); [done|..].
  { intros q Hq. simpl. rewrite lookup_insert_ne by (apply not_eq_sym; auto).
    apply Hl. by apply list_elem_of_further. }
  exists h. split; [exact Hrun|]. simpl in Ho, Hf. split.
  - intros q Hq. rewrite fmap_cons, not_elem_of_cons in Hq. destruct Hq as [Hqp Hq].
    rewrite Ho by done. apply lookup_insert_ne. simpl in Hqp. congruence.
  - intros q t' [[= -> ->]|Hq]%elem_of_cons.
    + exists s, w. rewrite Ho, lookup_insert_eq by done. done.
    + destruct (Hf q t' Hq) as (s' & w' & Hs' & ? & ?). exists s', w'.
      rewrite lookup_insert_ne in Hs'; [done|]. apply not_eq_sym, Hne.
      apply list_elem_of_fmap. by exists (q, t').
Qed.

Lemma composite_ok k s : k = [] -> surface_ok k s -> surface_ok k (composite_surface s).
Proof.
  intros -> [Hs Ht]. unfold composite_surface. destruct (is_hidden s); [by split|].
  destruct (lock_back_buffer_shows _ _ Hs) as (t & w & _ & _ & _ & _ & w' & _ & -> & Hok).
  by split.
Qed.

Lemma stack_ok_fmap st (g : Surface -> Surface) :
  (forall s, surface_ok [] s -> surface_ok [] (g s)) ->
  stack_ok none_held st -> stack_ok none_held (set_heap (g <$> surface_heap st) st).
Proof.
  intros Hg [Hnd Hl Hf Hs]. split; simpl; [done|..].
  - intros p. by rewrite Hl, lookup_fmap, fmap_is_Some.
  - intros p. rewrite lookup_fmap, fmap_is_Some. apply Hf.
  - intros p s. rewrite lookup_fmap. intros (s' & Hp & ->)%fmap_Some.
    apply Hg, (Hs p s' Hp).
Qed.

Lemma composite_hidden s : is_hidden (composite_surface s) = is_hidden s.
Proof. unfold composite_surface. by destruct (is_hidden s) eqn:E. Qed.

Lemma composite_these_visible ps h p : is_visible (composite_these ps h) p = is_visible h p.
Proof.
  unfold is_visible. rewrite composite_these_lookup. destruct (h !! p) as [s|]; [|done]. cbn -[decide].
  case_decide; [by rewrite composite_hidden|done].
Qed.

Lemma composite_these_ok ps h : (forall p s, h !! p = Some s -> surface_ok [] s) -> forall p s, composite_these ps h !! p = Some s -> surface_ok [] s.
Proof.
  intros Hh p s. rewrite composite_these_lookup. intros (s' & Hp & ->)%fmap_Some. case_decide; [apply composite_ok; [done|]|]; by eapply Hh.
Qed.

(** Compositing some of the surfaces keeps the stack in order. *)
Lemma composite_these_stack ps st : stack_ok none_held st -> stack_ok none_held (set_heap (composite_these ps (surface_heap st)) st).
Proof.
  intros [Hnd Hl Hf Hs]. assert (forall p, is_Some (composite_these ps (surface_heap st) !! p) <-> is_Some (surface_heap st !! p)) as Hdom
    by (intros p; by rewrite composite_these_lookup, fmap_is_Some).
  split; simpl; [done|..].
  - intros p. by rewrite Hl, Hdom.
  - intros p. rewrite Hdom. apply Hf.
  - intros p s. by apply (composite_these_ok ps (surface_heap st)).
Qed.

(** Compositing all the visible surfaces. *)
Lemma composite_all st : stack_ok none_held st ->
  composite_these (visible_in (surface_heap st) (rev (surfaces st))) (surface_heap st) = composite_surface <$> surface_heap st.
Proof.
  intros Hok. apply map_eq. intros p. rewrite composite_these_lookup, lookup_fmap.
  destruct (surface_heap st !! p) as [s|] eqn:Hp; [|done]. cbn -[decide]. f_equal. case_decide as Hin; [done|].
  unfold composite_surface. destruct (is_hidden s) eqn:Hh; [done|]. exfalso. apply Hin.
  apply list_elem_of_filter. split; [unfold is_visible; by rewrite Hp, Hh|].
  apply list_elem_of_In. rewrite <- in_rev. apply list_elem_of_In, (st_live _ _ Hok). eauto.
Qed.

(** Taking the frames of some visible surfaces and giving them back composites each of
    them once. *)
Lemma taken_released h0 h rs h' :
  (forall p s, h0 !! p = Some s -> surface_ok [] s) -> (forall p, p ∈ fst <$> rs -> is_visible h0 p = true) -> taken h0 h rs ->
  (forall p, p ∉ fst <$> rs -> h' !! p = h !! p) ->
  (forall p t, (p, t) ∈ rs -> exists s w, h !! p = Some s /\
     TemporaryCompositorBuffer_delete t (swapper (buffer_bundle s)) = Ret tt w /\
     h' !! p = Some (with_swapper w s)) ->
  h' = composite_these (fst <$> rs) h0.
Proof.
  intros Hok Hvis Htk Ho Hr. apply map_eq. intros p. rewrite composite_these_lookup.
  destruct (decide (p ∈ fst <$> rs)) as [Hin|Hin].
  - specialize (Hvis p Hin). apply list_elem_of_fmap in Hin as ([p' t] & Hpp & Hin). simpl in Hpp. subst p'.
    destruct (taken_from _ _ _ Htk p t Hin) as (s & w & Hp & Hl & Hh).
    destruct (Hr p t Hin) as (s' & w' & Hs' & Hd & ->).
    rewrite Hh in Hs'. injection Hs' as <-. rewrite Hp. simpl.
    unfold is_visible in Hvis. rewrite Hp in Hvis. destruct (Hok p s Hp) as [Hs _].
    destruct (lock_back_buffer_shows _ _ Hs) as (t' & w1 & Hl' & _ & _ & _ & w2 & Hd' & -> & _).
    rewrite Hl in Hl'. injection Hl' as <- <-. simpl in Hd. rewrite Hd in Hd'.
    injection Hd' as ->. unfold composite_surface. by destruct (is_hidden s).
  - rewrite (Ho p Hin), (taken_other _ _ _ Htk p Hin). by destruct (h0 !! p).
Qed.

(** The drawing phase: it ends with the frames of the visible surfaces taken,
    or throws with those of the first ones taken. *)
Lemma draw_surfaces_spec r f :
  stack_ok none_held (fr_stack f) -> fr_resources f = [] ->
  let h0 := surface_heap (fr_stack f) in
  let visible := visible_in h0 (rev (surfaces (fr_stack f))) in
  match draw_surfaces r f with
  | Ret _ f' => exists h rs d g,
      f' = mkFrame (set_heap h (fr_stack f)) d g rs /\
      taken h0 h rs /\ fst <$> rs = visible /\
      drawn_images (gl_trace g) = drawn_images (gl_trace (fr_gl f)) ++ frames_of h0 visible
  | Throw _ f' => exists h rs d g ps,
      f' = mkFrame (set_heap h (fr_stack f)) d g rs /\
      taken (composite_these ps h0) h rs /\ (fst <$> rs) ++ ps `prefix_of` visible
  | _ => False
  end.
Proof.
  intros Hok Hres h0 visible. unfold draw_surfaces, mbind, M_bind, gets, zoom. cbn [view display_lens].
  assert (forall d : D, exists h rs d' g ps, mkFrame (fr_stack f) d (fr_gl f) (fr_resources f) = mkFrame (set_heap h (fr_stack f)) d' g rs /\
    taken (composite_these ps h0) h rs /\ (fst <$> rs) ++ ps `prefix_of` visible) as Hnone.
  { intros d. exists h0, [], d, (fr_gl f), []. rewrite Hres, composite_these_nil. split; [unfold h0; by destruct (fr_stack f)|].
    split; [|apply prefix_nil]. split; [constructor|done|]. intros p t Hin. by apply not_elem_of_nil in Hin. }
  pose proof (make_current_ends (fr_display f)) as Hm. unfold wp in Hm.
  destruct (make_current (fr_display f)) as [u d|e d|d|]; [|by apply (Hnone d)|done|done].
  cbn [over view fr_display display_lens]. pose proof (clear_ends d) as Hc. unfold wp in Hc.
  destruct (clear d) as [u' d'|e d'|d'|]; [|by apply (Hnone d')|done|done]. cbn [over display_lens].
  pose proof (draw_loop_spec r (view_area (fr_display f)) (rev (surfaces (fr_stack f)))
    (mkFrame (fr_stack f) d' (fr_gl f) (fr_resources f))) as Hdraw.
  unfold for_each_if, gets, mbind, M_bind.
  match goal with |- match ?x with _ => _ end => replace x with
    (for_each (rev (surfaces (fr_stack f))) (visit_surface (view_area (fr_display f)) r)
      (mkFrame (fr_stack f) d' (fr_gl f) (fr_resources f))) by done end.
  unfold drawn in Hdraw. cbn [fr_stack fr_display fr_gl fr_resources] in Hdraw. fold h0 visible in Hdraw. rewrite Hres in *.
  assert (NoDup (rev (surfaces (fr_stack f)))) as Hnd by apply NoDup_ListNoDup, NoDup_rev, NoDup_ListNoDup, (st_nodup _ _ Hok).
  specialize (Hdraw Hnd).
  assert (forall p, p ∈ rev (surfaces (fr_stack f)) -> exists s, h0 !! p = Some s /\ surface_ok [] s) as Hlive.
  { intros p Hp. rewrite list_elem_of_In, <- in_rev, <- list_elem_of_In, (st_live _ _ Hok) in Hp.
    destruct Hp as [s Hp]. exists s. split; [exact Hp|]. apply (st_surfaces _ _ Hok p s Hp). }
  specialize (Hdraw Hlive). destruct (for_each _ _ _) as [u1 f'|e f'|f'|]; [..|done|done].
  - destruct Hdraw as (h & rs & g & -> & Htk & Hfst & Hdr). by exists h, rs, d', g.
  - destruct Hdraw as (h & rs & g & p & s & -> & _ & _ & Htk & Hpre). by exists h, rs, d', g, [p].
Qed.

(** The operator's destructor. *)
Lemma operator_delete_spec st h0 h rs (d : D) (g : gl_context G) :
  (forall p s, h0 !! p = Some s -> surface_ok [] s) -> (forall p, p ∈ fst <$> rs -> is_visible h0 p = true) -> taken h0 h rs ->
  RenderingOperator_delete (mkFrame (set_heap h st) d g rs) =
    Ret tt (mkFrame (set_heap (composite_these (fst <$> rs) h0) st) d g []).
Proof.
  intros Hok Hvis Htk. unfold RenderingOperator_delete, mbind, M_bind, gets. cbn [fr_resources].
  destruct (release_loop_spec rs (mkFrame (set_heap h st) d g rs)) as (h' & Hrun & Ho & Hr).
  - apply (taken_nodup _ _ _ Htk).
  - intros p Hp. apply list_elem_of_fmap in Hp as ([p' t] & -> & Hp).
    destruct (taken_from _ _ _ Htk p' t Hp) as (s & w & _ & _ & Hh). simpl. eauto.
  - rewrite Hrun. simpl in Ho, Hr. rewrite (taken_released h0 h rs h') by done. done.
Qed.

Lemma composited_stack_ok st :
  stack_ok none_held st -> stack_ok none_held (set_heap (composite_surface <$> surface_heap st) st).
Proof. apply stack_ok_fmap. intros s. by apply composite_ok. Qed.

(** How a rendering of [f] ends. *)
Definition rendered f (o : outcome (frame A D G) unit) : Prop :=
  let st := fr_stack f in
  let visible := visible_in (surface_heap st) (rev (surfaces st)) in
  let images f' := drawn_images (gl_trace (fr_gl f')) = drawn_images (gl_trace (fr_gl f)) ++ frames_of (surface_heap st) visible in
  match o with
  | Ret _ f' => fr_stack f' = set_heap (composite_surface <$> surface_heap st) st /\ fr_resources f' = [] /\ images f'
  | Throw _ f' => exists ps, ps `prefix_of` visible /\ fr_stack f' = set_heap (composite_these ps (surface_heap st)) st /\ fr_resources f' = []
  | Wait f' => exists h, fr_stack f' = set_heap h st /\ taken (surface_heap st) h (fr_resources f') /\ fst <$> fr_resources f' = visible /\ images f'
  | Undef => False
  end.

Lemma render_spec r f : stack_ok none_held (fr_stack f) -> fr_resources f = [] -> rendered f (render r f).
Proof.
  intros Hok Hres. unfold render, scoped, rendered. pose proof (draw_surfaces_spec r f Hok Hres) as Hd. cbv zeta in Hd. unfold mbind, M_bind.
  assert (forall p s, surface_heap (fr_stack f) !! p = Some s -> surface_ok [] s) as Hs by (intros p s Hp; apply (st_surfaces _ _ Hok p s Hp)).
  assert (forall ps p, ps `prefix_of` visible_in (surface_heap (fr_stack f)) (rev (surfaces (fr_stack f))) -> p ∈ ps -> is_visible (surface_heap (fr_stack f)) p = true) as Hvis.
  { intros ps p [k Hk] Hp. enough (p ∈ visible_in (surface_heap (fr_stack f)) (rev (surfaces (fr_stack f)))) as [? _]%list_elem_of_filter by done.
    rewrite Hk. set_solver. }
  destruct (draw_surfaces r f) as [u f'|e f'|f'|]; [..|done|done].
  - destruct Hd as (h & rs & d & g & -> & Htk & Hfst & Hdr). unfold zoom. cbn [view display_lens fr_display].
    assert (forall d' : D, RenderingOperator_delete (mkFrame (set_heap h (fr_stack f)) d' g rs) =
      Ret tt (mkFrame (set_heap (composite_surface <$> surface_heap (fr_stack f)) (fr_stack f)) d' g [])) as Hdel.
    { intros d'. rewrite (operator_delete_spec _ (surface_heap (fr_stack f))); [|done|by rewrite Hfst; intros p; by apply Hvis|done].
      by rewrite Hfst, composite_all. }
    pose proof (post_update_ends d) as Hp. unfold wp in Hp.
    destruct (post_update d) as [b d'|e d'|d'|]; [..|done]; cbn [over display_lens fr_stack fr_gl fr_resources]; unfold mret, M_ret, throw.
    + rewrite Hdel. done.
    + rewrite Hdel. eexists. split; [done|]. by rewrite composite_all.
    + by exists h.
  - destruct Hd as (h & rs & d & g & ps & -> & Htk & Hpre). unfold mbind, M_bind, throw.
    assert (NoDup ((fst <$> rs) ++ ps)) as Hnd.
    { destruct Hpre as [k Hk]. assert (NoDup (visible_in (surface_heap (fr_stack f)) (rev (surfaces (fr_stack f))))) as Hnd
        by (unfold visible_in; apply NoDup_filter, NoDup_ListNoDup, NoDup_rev, NoDup_ListNoDup, (st_nodup _ _ Hok)).
      rewrite Hk in Hnd. by apply NoDup_app in Hnd as [? _]. }
    rewrite (operator_delete_spec _ (composite_these ps (surface_heap (fr_stack f)))); [|by apply composite_these_ok| |done].
    2:{ intros p Hp. rewrite composite_these_visible. apply (Hvis _ _ Hpre). set_solver. }
    exists ((fst <$> rs) ++ ps). split; [done|]. split; [|done]. cbn [fr_stack]. f_equal.
    apply NoDup_app in Hnd as (_ & Hdis & _). rewrite composite_these_app; [|exact Hdis].
    apply map_eq. intros p. rewrite !composite_these_lookup. destruct (surface_heap (fr_stack f) !! p); [|done]. cbn -[decide]. f_equal.
    destruct (decide (p ∈ ps ++ (fst <$> rs))) as [Hx|Hx]; [rewrite decide_True|rewrite decide_False]; set_solver.
Qed.

(** C17: a rendering draws the visible surfaces, and only them, from the most
    recently created one back, each with the oldest frame posted for it or else
    the one it showed last, and gives every buffer back, so that each visible
    surface's frame is free for its client again; the hidden surfaces are
    untouched.  When the display or the binding of an image throws, the buffers
    that were taken are given back all the same: those of the visible surfaces
    up to the one at which it stopped.  A rendering blocks only in the update of
    the display, and then it has drawn everything and still holds the frame of
    every visible surface.  Nothing is undefined, and the stack stays in order. *)
Theorem render_composites r f :
  stack_ok none_held (fr_stack f) -> fr_resources f = [] ->
  rendered f (render r f) /\
  match render r f with Ret _ f' | Throw _ f' => stack_ok none_held (fr_stack f') | _ => True end.
Proof.
  intros Hok Hres. pose proof (render_spec r f Hok Hres) as Hr. split; [done|]. unfold rendered in Hr.
  destruct (render r f) as [u f'|e f'|f'|]; [..|done|done].
  - destruct Hr as (-> & _). by apply composited_stack_ok.
  - destruct Hr as (ps & _ & -> & _). by apply composite_these_stack.
Qed.

Lemma next_frame_composited w :
  (length (compositor_queue w) <= 1)%nat -> next_frame (composited w) = next_frame w.
Proof.
  intros Hl. unfold next_frame, composited.
  destruct (compositor_queue w) as [|b [|b' q]] eqn:E; simpl in *; [by rewrite E| |lia].
  by rewrite unsnoc_app.
Qed.

Lemma visible_composited h ps :
  visible_in (composite_surface <$> h) ps = visible_in h ps.
Proof.
  unfold visible_in. induction ps as [|p ps IH]; [done|].
  assert (is_visible (composite_surface <$> h) p = is_visible h p) as Hv.
  { unfold is_visible. rewrite lookup_fmap. destruct (h !! p) as [s|]; [|done]. simpl.
    unfold composite_surface. by destruct (is_hidden s) eqn:E; simpl; rewrite E. }
  rewrite !filter_cons, IH. repeat case_decide; congruence.
Qed.

Lemma frames_composited h ps :
  (forall p s, h !! p = Some s -> is_hidden s = false ->
    (length (compositor_queue (swapper (buffer_bundle s))) <= 1)%nat) ->
  frames_of (composite_surface <$> h) (visible_in h ps) = frames_of h (visible_in h ps).
Proof.
  intros Hq. unfold visible_in, frames_of. induction ps as [|p ps IH]; [done|].
  rewrite filter_cons. case_decide as Hd; [|done]. simpl. rewrite IH. f_equal.
  unfold is_visible in Hd. rewrite lookup_fmap. destruct (h !! p) as [s|] eqn:Hp; [|done]. simpl.
  unfold composite_surface. destruct (is_hidden s) eqn:Hh; [done|]. simpl.
  apply next_frame_composited. by eapply Hq.
Qed.

(** The picture is stable: when no visible surface has more than one
    posted frame waiting, rendering again without a new frame draws the same
    images in the same order. *)
Theorem rerender_same r f f1 f2 :
  stack_ok none_held (fr_stack f) -> fr_resources f = [] -> gl_trace (fr_gl f) = [] ->
  (forall p s, surface_heap (fr_stack f) !! p = Some s -> is_hidden s = false ->
    (length (compositor_queue (swapper (buffer_bundle s))) <= 1)%nat) ->
  render r f = Ret tt f1 -> render r f1 = Ret tt f2 ->
  drawn_images (gl_trace (fr_gl f2)) =
    drawn_images (gl_trace (fr_gl f1)) ++ drawn_images (gl_trace (fr_gl f1)).
Proof.
  intros Hok Hres Htr Hq E1 E2.
  pose proof (render_spec r f Hok Hres) as R1. unfold rendered in R1. rewrite E1, Htr in R1.
  destruct R1 as (Hs1 & Hr1 & D1).
  pose proof (render_spec r f1) as R2. unfold rendered in R2. rewrite E2, Hs1 in R2.
  destruct R2 as (_ & _ & D2); [by apply composited_stack_ok|done|]. simpl in D1, D2.
  rewrite visible_composited, frames_composited in D2 by done.
  rewrite D2, D1. done.
Qed.

(** Between the drawing of the surfaces and the end of the rendering the
    compositor holds a buffer of every visible surface; destroying, at that
    moment, a visible double-buffered surface whose client holds the other
    buffer is undefined behaviour: [shutdown] reads the front of an empty
    queue. *)
Theorem destroy_while_rendering r f f' p s :
  stack_ok none_held (fr_stack f) -> fr_resources f = [] ->
  surface_heap (fr_stack f) !! p = Some s -> is_hidden s = false ->
  length (buffers (swapper (buffer_bundle s))) = 2%nat ->
  client_buffer_resource s <> None ->
  draw_surfaces r f = Ret tt f' ->
  destroy_surface p (fr_stack f') = Undef.
Proof.
  intros Hok Hres Hp Hh Hlen Hcl Hd.
  pose proof (draw_surfaces_spec r f Hok Hres) as Hs. rewrite Hd in Hs.
  destruct Hs as (h & rs & d & g & -> & Htk & Hfst & _).
  assert (p ∈ surfaces (fr_stack f)) as Hin by (apply (st_live _ _ Hok); eauto).
  assert (p ∈ fst <$> rs) as Hrs.
  { rewrite Hfst. apply list_elem_of_filter. split; [unfold is_visible; by rewrite Hp, Hh|].
    by rewrite list_elem_of_In, <- in_rev, <- list_elem_of_In. }
  apply list_elem_of_fmap in Hrs as ([p' t] & Hpp & Hrs). simpl in Hpp. subst p'.
  destruct (taken_from _ _ _ Htk p t Hrs) as (s' & w & Hp' & Hl & Hh').
  rewrite Hp in Hp'. injection Hp' as <-.
  destruct (st_surfaces _ _ Hok p s Hp) as [Hsw _].
  destruct (lock_back_buffer_shows _ _ Hsw) as (t' & w' & Hl' & _ & _ & Hw & _).
  rewrite Hl in Hl'. injection Hl' as <- <-.
  assert (buffers w = buffers (swapper (buffer_bundle s))) as Hb.
  { destruct (lock_back_buffer_ok _ _ Hsw) as (t1 & w1 & Hl1 & _ & _ & Hq).
    rewrite Hl in Hl1. injection Hl1 as <- <-.
    destruct (compositor_queue (swapper (buffer_bundle s))) as [|b q].
    - by destruct Hq as (q & _ & ->).
    - by destruct Hq as [_ ->]. }
  pose proof (inv_total _ Hw) as Ht. simpl in Ht. unfold client_ids in Ht.
  destruct (client_buffer_resource s) as [c|]; [|done]. simpl in Ht.
  assert (client_queue w = [] /\ compositor_queue w = []) as [Hq1 Hq2].
  { rewrite Hb, Hlen in Ht. split; apply nil_length_inv; lia. }
  unfold destroy_surface, mbind, M_bind, lock_surface. cbn [fr_stack surface_heap set_heap].
  rewrite Hh', decide_True by done. unfold erase_surface, modify.
  unfold Surface_delete, surface_shutdown, on_swapper, lock_surface, mbind, M_bind.
  cbn [surface_heap set_heap]. rewrite Hh'. simpl. unfold bundle_shutdown, shutdown, mbind, M_bind.
  by rewrite Hq1, Hq2.
Qed.
End RenderLemmas.

(** ** A concrete rendering *)

#[export] Instance demo_display : DisplayBuffer unit := {
  view_area _ := mkRectangle (mkPoint wrap0 wrap0) demo_display_size;
  make_current := mret tt;
  clear := mret tt;
  post_update := mret true;
}.

#[export] Instance demo_display_laws : DisplayBufferLaws unit.
Proof. by split. Qed.

(** Every image can be made, or all but that of buffer 1. *)
#[export] Instance demo_binding : TextureBinding Z := {
  bind_image _ d := (None, d);
}.

Definition failing_binding : TextureBinding Z :=
  {| bind_image b d := (if bid_value b =? 1 then Some (runtime_error "Failed to create EGLImage from GBM bo") else None, d) |}.

(** Surface 0 has posted a frame, surface 1 is hidden, and the client of
    surface 2 holds its first buffer. *)
Definition demo_frame : frame demo_platform unit Z :=
  mkFrame (demo_run [op_create (demo_params "a"); op_create (demo_params "b"); op_create (demo_params "c");
    op_advance 0; op_advance 0; op_hidden 1 true; op_advance 2]) tt (mkGL 0 []) [].

Example demo_drawn :
  match render Resources_new demo_frame with
  | Ret _ f => bid_value <$> drawn_images (gl_trace (fr_gl f)) = [6; 1]
  | _ => False
  end.
Proof. vm_compute. reflexivity. Qed.

(** Surface 2 is drawn, then the image of surface 0's frame cannot be made: both frames
    have been given back. *)
Example demo_fails :
  let queues f p := (fun s => (client_queue (swapper (buffer_bundle s)), compositor_queue (swapper (buffer_bundle s)))) <$> surface_heap (fr_stack f) !! p in
  match render (H2 := failing_binding) Resources_new demo_frame, render Resources_new demo_frame with
  | Throw _ f, Ret _ f' => bid_value <$> drawn_images (gl_trace (fr_gl f)) = [6] /\ fr_resources f = [] /\
      queues f <$> [0; 2]%nat = queues f' <$> [0; 2]%nat
  | _, _ => False
  end.
Proof. vm_compute. repeat split. Qed.

Lemma render_composites_witness :
  stack_ok none_held (fr_stack demo_frame) /\ fr_resources demo_frame = [] /\
  rendered demo_frame (render Resources_new demo_frame) /\
  match render Resources_new demo_frame with Ret _ f' | Throw _ f' => stack_ok none_held (fr_stack f') | _ => True end.
Proof.
  split; [apply demo_run_ok|]. split; [reflexivity|].
  apply (render_composites Resources_new demo_frame (demo_run_ok _) eq_refl).
Defined.

(** The queues of the surfaces of a concrete heap are checked one by one. *)
Definition single_frames (h : gmap surface_ptr Surface) : bool :=
  forallb (fun '(_, s) => is_hidden s || (length (compositor_queue (swapper (buffer_bundle s))) <=? 1)%nat)
    (map_to_list h).

Lemma single_frames_ok h p s :
  single_frames h = true -> h !! p = Some s -> is_hidden s = false ->
  (length (compositor_queue (swapper (buffer_bundle s))) <= 1)%nat.
Proof.
  unfold single_frames. rewrite forallb_forall. intros Hall Hp Hh.
  assert ((p, s) ∈ map_to_list h) as Hin by by apply elem_of_map_to_list.
  apply list_elem_of_In in Hin. apply Hall in Hin. rewrite Hh in Hin. by apply Nat.leb_le.
Qed.

Definition result_of (o : outcome (frame demo_platform unit Z) unit) : frame demo_platform unit Z :=
  match o with Ret _ f | Throw _ f | Wait f => f | Undef => demo_frame end.

Definition demo_frame1 : frame demo_platform unit Z := result_of (render Resources_new demo_frame).
Definition demo_frame2 : frame demo_platform unit Z := result_of (render Resources_new demo_frame1).

Lemma rerender_same_witness :
  drawn_images (gl_trace (fr_gl demo_frame2)) =
    drawn_images (gl_trace (fr_gl demo_frame1)) ++ drawn_images (gl_trace (fr_gl demo_frame1)).
Proof.
  apply (rerender_same Resources_new demo_frame demo_frame1 demo_frame2 (demo_run_ok _) eq_refl eq_refl).
  - intros p s. apply single_frames_ok. vm_compute. reflexivity.
  - vm_compute. reflexivity.
  - vm_compute. reflexivity.
Defined.

Lemma destroy_while_rendering_witness :
  exists f', draw_surfaces Resources_new demo_frame = Ret tt f' /\ destroy_surface 2 (fr_stack f') = Undef.
Proof.
  destruct (draw_surfaces Resources_new demo_frame) as [[] f'| | |] eqn:E;
    try (exfalso; vm_compute in E; discriminate).
  destruct (surface_heap (fr_stack demo_frame) !! 2%nat) as [s|] eqn:Es;
    [|exfalso; vm_compute in Es; discriminate].
  exists f'. split; [reflexivity|].
  refine (destroy_while_rendering Resources_new demo_frame f' 2 s (demo_run_ok _) eq_refl Es _ _ _ E);
    clear E; vm_compute in Es; injection Es as <-; (reflexivity || discriminate).
Defined.
