(* ===== verification/Compositor.v ===== *)
(** * The compositing threads

    [CompositingFunctor] and [MultiThreadedCompositor]
    ([src/server/compositor/multi_threaded_compositor.cpp]): one thread per
    display buffer, which renders when compositing has been scheduled, and
    ends when it is stopped.

    A thread runs atomically between two points where it holds no lock: its
    start, a wait on the condition variable, and a rendering.  The model has
    one function per such piece of the loop, and a step relation that
    interleaves it with the calls of other threads. *)

From S2P Require Import Prelude Surfaces.

Record CompositingFunctor : Set := mkFunctor {
  running : bool;
  compositing_scheduled : bool;
  run_cv : CondVar;
}.

Definition CompositingFunctor_new : CompositingFunctor := mkFunctor true false cv_init.

(** Where the thread is when it does not hold [run_mutex]. *)
Inductive thread_pc : Set := pc_start | pc_waiting | pc_rendering | pc_done.

#[export] Instance thread_pc_eq_dec : EqDecision thread_pc.
Proof. solve_decision. Defined.

(** The loop from the test of the inner [while] on, holding the lock. *)
Definition inner_loop (f : CompositingFunctor) : thread_pc * CompositingFunctor :=
  if negb (compositing_scheduled f) && running f then
    (pc_waiting, mkFunctor (running f) (compositing_scheduled f) (cv_block (run_cv f)))
  else
    let f' := mkFunctor (running f) false (run_cv f) in
    (if running f' then pc_rendering else pc_done, f').

(** The loop from the test of the outer [while] on. *)
Definition outer_loop (f : CompositingFunctor) : thread_pc * CompositingFunctor :=
  if running f then inner_loop f else (pc_done, f).

(** [run_cv.wait(lock)] returns. *)
Definition wait_returns (f : CompositingFunctor) : thread_pc * CompositingFunctor :=
  inner_loop (mkFunctor (running f) (compositing_scheduled f) (cv_resume (run_cv f))).

Definition schedule_compositing (f : CompositingFunctor) : CompositingFunctor :=
  if compositing_scheduled f then f
  else mkFunctor (running f) true (cv_notify_one (run_cv f)).

Definition functor_stop (f : CompositingFunctor) : CompositingFunctor :=
  mkFunctor false (compositing_scheduled f) (cv_notify_one (run_cv f)).

(** ** One thread and its callers

    [requests] counts the calls of [schedule_compositing] so far, and
    [rendered] is that count when the thread last started to render. *)
Record thread_state : Set := mkThread {
  functor : CompositingFunctor;
  pc : thread_pc;
  requests : nat;
  rendered : nat;
}.

Definition thread_new : thread_state := mkThread CompositingFunctor_new pc_start 0 0.

Definition arrive (t : thread_state) (r : thread_pc * CompositingFunctor) : thread_state :=
  mkThread (snd r) (fst r) (requests t)
    (match fst r with pc_rendering => requests t | _ => rendered t end).

(** The thread's own next piece of code; [None] when it is blocked or has
    ended. *)
Definition thread_run (t : thread_state) : option thread_state :=
  match pc t with
  | pc_start | pc_rendering => Some (arrive t (outer_loop (functor t)))
  | pc_waiting =>
      if decide (0 < woken (run_cv (functor t)))%nat
      then Some (arrive t (wait_returns (functor t))) else None
  | pc_done => None
  end.

Definition thread_schedule (t : thread_state) : thread_state :=
  mkThread (schedule_compositing (functor t)) (pc t) (S (requests t)) (rendered t).

Definition thread_stop (t : thread_state) : thread_state :=
  mkThread (functor_stop (functor t)) (pc t) (requests t) (rendered t).

Inductive thread_action : Set := Run | Spurious | Schedule | Stop.

Inductive thread_step : thread_state -> thread_action -> thread_state -> Prop :=
| ts_run t t' : thread_run t = Some t' -> thread_step t Run t'
| ts_spurious t :
    pc t = pc_waiting ->
    thread_step t Spurious
      (mkThread (mkFunctor (running (functor t)) (compositing_scheduled (functor t))
                   (cv_notify_one (run_cv (functor t)))) (pc t) (requests t) (rendered t))
| ts_schedule t : thread_step t Schedule (thread_schedule t)
| ts_stop t : thread_step t Stop (thread_stop t).

Inductive thread_reach : thread_state -> Prop :=
| tr_init : thread_reach thread_new
| tr_step t a t' : thread_reach t -> thread_step t a t' -> thread_reach t'.

(** ** The compositor *)

Record MultiThreadedCompositor : Set := mkCompositor { threads : list thread_state }.

Definition MultiThreadedCompositor_new : MultiThreadedCompositor := mkCompositor [].

(** The callback that [start] installs. *)
Definition schedule_all (c : MultiThreadedCompositor) : MultiThreadedCompositor :=
  mkCompositor (thread_schedule <$> threads c).

(** A change of the surfaces reaches the threads through the installed
    callback. *)
Definition on_change (cb : change_callback) (c : MultiThreadedCompositor) : MultiThreadedCompositor :=
  match cb with cb_nothing => c | cb_schedule_compositing => schedule_all c end.

(** [start], with the number of display buffers of the display. *)
Definition compositor_start (display_buffers : nat) : M (change_callback * MultiThreadedCompositor) unit :=
  modify (fun '(cb, c) => (cb, mkCompositor (threads c ++ replicate display_buffers thread_new))) ;;
  modify (fun '(cb, c) => (cb_schedule_compositing, c)) ;;
  modify (fun '(cb, c) => (cb, schedule_all c)).

(** The thread runs by itself until it blocks, or for [n] pieces. *)
Fixpoint run_alone (n : nat) (t : thread_state) : thread_state :=
  match n with
  | O => t
  | S n' => match thread_run t with Some t' => run_alone n' t' | None => t end
  end.

(** [t.join()] waits until the thread has ended; the thread needs at most two
    pieces once it is stopped. *)
Definition join (t : thread_state) : M (change_callback * MultiThreadedCompositor) unit :=
  match pc (run_alone 2 t) with pc_done => mret tt | _ => wait end.

Definition compositor_stop : M (change_callback * MultiThreadedCompositor) unit :=
  modify (fun '(cb, c) => (cb_nothing, c)) ;;
  modify (fun '(cb, c) => (cb, mkCompositor (thread_stop <$> threads c))) ;;
  ts ← gets (fun '(_, c) => threads c) ;
  for_each ts join ;;
  modify (fun '(cb, c) => (cb, mkCompositor [])).

(** ** The invariant of a thread *)

Record thread_inv (t : thread_state) : Prop := {
  ti_parked : (waiting (run_cv (functor t)) + woken (run_cv (functor t)))%nat =
    match pc t with pc_waiting => 1%nat | _ => 0%nat end;
  ti_blocked : waiting (run_cv (functor t)) = 1%nat ->
    compositing_scheduled (functor t) = false /\ running (functor t) = true;
  ti_rendered : running (functor t) = true -> compositing_scheduled (functor t) = false ->
    rendered t = requests t;
  ti_done : pc t = pc_done -> running (functor t) = false;
}.

Lemma thread_inv_new : thread_inv thread_new.
Proof. by split. Qed.

Ltac thread_cases :=
  unfold thread_run, arrive, outer_loop, wait_returns, inner_loop, thread_schedule, thread_stop,
    schedule_compositing, functor_stop, cv_notify_one, cv_block, cv_resume in *.

Lemma thread_inv_step t a t' : thread_inv t -> thread_step t a t' -> thread_inv t'.
Proof.
  destruct t as [[r s [w k]] p n m]. intros [H1 H2 H3 H4] Hs. simpl in *.
  inversion Hs as [? ? Hr|? Hp| |]; subst; thread_cases; simpl in *.
  - destruct p, r, s; simpl in *; try case_decide; simpl in *; simplify_eq/=;
      split; simpl; intros; try lia; try done; try naive_solver lia.
  - subst p. destruct w; split; simpl in *; intros; try lia; naive_solver lia.
  - destruct s, w, p; split; simpl in *; intros; try lia; try done; auto.
  - destruct w, p; split; simpl in *; intros; try lia; try done; auto.
Qed.

Lemma thread_reach_inv t : thread_reach t -> thread_inv t.
Proof. induction 1; eauto using thread_inv_new, thread_inv_step. Qed.

(** ** Properties of the threads *)

(** C18: no change is lost: in every reachable state of a compositing thread, if
    the thread is blocked with no notification on its way, it has not been
    stopped and its last rendering started after the last call of
    [schedule_compositing]. *)
Theorem no_change_lost t :
  thread_reach t -> thread_run t = None -> pc t <> pc_done ->
  running (functor t) = true /\ rendered t = requests t.
Proof.
  intros Hr Hn Hd. destruct (thread_reach_inv t Hr) as [H1 H2 H3 H4].
  unfold thread_run in Hn. destruct (pc t) eqn:Hp; try done.
  case_decide as Hw; [done|]. destruct H2 as [? ?]; [lia|]. auto.
Qed.

(** C19: a thread that has not been stopped and has a change to show is never
    blocked: its own next step starts a rendering, after the change was
    scheduled. *)
Theorem change_is_rendered t :
  thread_reach t -> running (functor t) = true -> rendered t <> requests t ->
  exists t', thread_run t = Some t' /\ pc t' = pc_rendering /\ rendered t' = requests t.
Proof.
  intros Hr Hrun Hne. pose proof (thread_reach_inv t Hr) as Hinv.
  assert (compositing_scheduled (functor t) = true) as Hs.
  { destruct (compositing_scheduled (functor t)) eqn:E; [done|].
    exfalso. apply Hne. by apply (ti_rendered t Hinv). }
  destruct t as [[r s [w k]] p n m]. simpl in *. subst. thread_cases. simpl.
  destruct Hinv as [H1 H2 H3 H4]. simpl in *. destruct p; simpl in *;
    [eauto| |eauto|by specialize (H4 eq_refl)].
  rewrite decide_True; [eauto|]. destruct w as [|w]; [lia|].
  destruct H2 as [? _]; [lia|done].
Qed.

Lemma stopped_ends t :
  thread_inv t -> running (functor t) = false ->
  pc t = pc_done \/ exists t', thread_run t = Some t' /\ pc t' = pc_done.
Proof.
  destruct t as [[r s [w k]] p n m]. intros [H1 H2 H3 H4] Hr. simpl in *. subst. thread_cases. simpl.
  destruct p; simpl in *; eauto. right. rewrite decide_True; [rewrite andb_false_r; eauto|].
  destruct w as [|w]; [lia|]. destruct H2; [lia|done].
Qed.

Lemma stopped_never_renders t t' :
  thread_run t = Some t' -> running (functor t) = false -> pc t' = pc_done.
Proof.
  destruct t as [[r s [w k]] p n m]. intros Hs Hr. simpl in *. subst. thread_cases. simpl in *.
  destruct p; simpl in Hs; simplify_eq; try done. case_decide; [|done].
  rewrite andb_false_r in Hs. by simplify_eq.
Qed.

(** A stopped thread ends: it never starts another rendering, and its own
    next step, which is always enabled, is its last. *)
Theorem stopped_thread_ends t :
  thread_reach t -> running (functor t) = false ->
  (pc t = pc_done \/ exists t', thread_run t = Some t') /\
  (forall t', thread_run t = Some t' -> pc t' = pc_done).
Proof.
  intros Hr Hf. split.
  - destruct (stopped_ends t (thread_reach_inv t Hr) Hf) as [?|(t' & ? & _)]; eauto.
  - intros t' Ht. by eapply stopped_never_renders.
Qed.

Lemma joins_return (ts : list thread_state) s :
  Forall thread_inv ts -> Forall (fun t => running (functor t) = false) ts ->
  for_each ts join s = Ret tt s.
Proof.
  induction 1 as [|t ts Ht Hts IH]; intros Hf; [done|]. apply Forall_cons in Hf as [Hf Hfs].
  cbn [for_each]. unfold mbind, M_bind.
  assert (pc (run_alone 2 t) = pc_done) as Hd.
  { destruct (stopped_ends t Ht Hf) as [Hp|(t' & Hr & Hp)].
    - cbn [run_alone]. unfold thread_run. by rewrite Hp.
    - cbn [run_alone]. rewrite Hr. unfold thread_run. by rewrite Hp. }
  unfold join at 1. rewrite Hd. simpl. by apply IH.
Qed.

(** C20: stopping the compositor returns, whatever its threads are doing: every
    thread is joined, the change callback is disarmed, and later changes of
    the surfaces reach no thread. *)
Theorem compositor_stop_returns cb c :
  Forall thread_reach (threads c) ->
  exists c', compositor_stop (cb, c) = Ret tt (cb_nothing, c') /\ threads c' = [] /\
    on_change cb_nothing c' = c'.
Proof.
  intros Hr. exists (mkCompositor []). split; [|done].
  unfold compositor_stop, mbind, M_bind, modify, gets. cbn [threads].
  rewrite joins_return; [done|..].
  - apply Forall_fmap. eapply Forall_impl; [exact Hr|]. intros t Ht. simpl.
    apply thread_reach_inv. exact (tr_step _ _ _ Ht (ts_stop t)).
  - apply Forall_fmap, Forall_forall. done.
Qed.

(** ** Concrete runs *)

Definition demo_thread : thread_state := thread_schedule (run_alone 1 thread_new).

Lemma demo_thread_reach : thread_reach (run_alone 1 thread_new).
Proof. eapply (tr_step thread_new Run); [constructor|]. constructor. reflexivity. Qed.

Lemma no_change_lost_witness :
  running (functor (run_alone 1 thread_new)) = true /\
  rendered (run_alone 1 thread_new) = requests (run_alone 1 thread_new).
Proof. apply (no_change_lost _ demo_thread_reach); [reflexivity|discriminate]. Defined.

Lemma change_is_rendered_witness :
  exists t', thread_run demo_thread = Some t' /\ pc t' = pc_rendering /\
    rendered t' = requests demo_thread.
Proof.
  apply (change_is_rendered demo_thread).
  - exact (tr_step _ _ _ demo_thread_reach (ts_schedule _)).
  - reflexivity.
  - discriminate.
Defined.

Lemma stopped_thread_ends_witness :
  (pc (thread_stop demo_thread) = pc_done \/ exists t', thread_run (thread_stop demo_thread) = Some t') /\
  (forall t', thread_run (thread_stop demo_thread) = Some t' -> pc t' = pc_done).
Proof.
  apply (stopped_thread_ends (thread_stop demo_thread)); [|reflexivity].
  exact (tr_step _ _ _ (tr_step _ _ _ demo_thread_reach (ts_schedule _)) (ts_stop _)).
Defined.

Definition demo_compositor : MultiThreadedCompositor := mkCompositor [thread_new; run_alone 1 thread_new].

Lemma compositor_stop_returns_witness :
  exists c', compositor_stop (cb_schedule_compositing, demo_compositor) = Ret tt (cb_nothing, c') /\
    threads c' = [] /\ on_change cb_nothing c' = c'.
Proof.
  apply (compositor_stop_returns cb_schedule_compositing demo_compositor).
  repeat constructor. apply demo_thread_reach.
Defined.

Example demo_start_renders :
  match compositor_start 2 (cb_nothing, MultiThreadedCompositor_new) with
  | Ret _ (cb, c) => cb = cb_schedule_compositing /\ (pc <$> (run_alone 1 <$> threads c)) = [pc_rendering; pc_rendering]
  | _ => False
  end.
Proof. vm_compute. split; reflexivity. Qed.
