(* ===== verification/Sessions.v ===== *)
(** * Sessions and their surfaces

    [shell::Surface] ([src/server/shell/surface.cpp]),
    [ConsumingPlacementStrategy], [OrganisingSurfaceFactory], [SurfaceSource]
    and [ApplicationSession] ([application_session.cpp]).

    A shell surface is a weak pointer to a surface of the stack; a session maps
    identifiers to shell surfaces.  The input channels are made by the
    interface [InputChannelFactory]. *)

From S2P Require Import Prelude Geometry Buffers Swapper Bundle GbmBuffers SurfaceParams Surfaces.

(** [input::InputChannel]: its two file descriptors. *)
Record InputChannel : Set := mkChannel { client_fd : Z; server_fd : Z }.

(** [input::InputChannelFactory], on the input manager's state; the dummy one
    gives null. *)
Class InputChannelFactory (I : Type) : Type := {
  make_input_channel : M I (option InputChannel);
}.

Class InputChannelLaws (I : Type) `{InputChannelFactory I} : Prop := {
  make_input_channel_ends : forall i,
    wp make_input_channel (fun _ _ => True) (fun _ _ => True) (fun _ => False) i;
}.

(** [MirSurfaceAttrib] and [MirSurfaceType] arrive as [int]. *)
Definition mir_surface_attrib_type : Z := 0.
Definition mir_surface_type_normal : Z := 0.
Definition mir_surface_type_arraysize_ : Z := 6.

Record ShellSurface : Set := mkShellSurface {
  input_channel : option InputChannel;
  surface : surface_ptr;
  type_value : Z;
}.

(** ** Placement *)

(** [ConsumingPlacementStrategy::place], for the display's [view_area]. *)
Definition place (view_area : Rectangle) (request : SurfaceCreationParameters)
    : SurfaceCreationParameters :=
  let input_width := as_uint32_t (size_width (sp_size request)) in
  let input_height := as_uint32_t (size_height (sp_size request)) in
  if negb (input_width =? 0) || negb (input_height =? 0) then
    of_size (mkSize (wrap (Z.min input_width (as_uint32_t (size_width (rect_size view_area)))))
                    (wrap (Z.min input_height (as_uint32_t (size_height (rect_size view_area))))))
      request
  else of_size (rect_size view_area) request.

Section ShellSurfaces.
Context {A : Type} `{GraphicBufferAllocator A}.

(** The constructor. *)
Definition ShellSurface_new (params : SurfaceCreationParameters) (channel : option InputChannel)
    : M (SurfaceStack A) ShellSurface :=
  p ← controller_create_surface params ;
  mret (mkShellSurface channel p mir_surface_type_normal).

(** [if (auto const& s = surface.lock()) ...]. *)
Definition if_locked (x : ShellSurface) (m : surface_ptr -> M (SurfaceStack A) unit)
    : M (SurfaceStack A) unit := fun st =>
  match lock_surface (surface x) st with Some _ => m (surface x) st | None => Ret tt st end.

(** ... [else BOOST_THROW_EXCEPTION(std::runtime_error("Invalid surface"))]. *)
Definition locked_or_throw {B} (x : ShellSurface) (m : surface_ptr -> M (SurfaceStack A) B)
    : M (SurfaceStack A) B := fun st =>
  match lock_surface (surface x) st with
  | Some _ => m (surface x) st
  | None => Throw (runtime_error "Invalid surface") st
  end.

Definition ss_destroy (x : ShellSurface) : M (SurfaceStack A) unit :=
  controller_destroy_surface (surface x).

(** The destructor. *)
Definition ShellSurface_delete (x : ShellSurface) : M (SurfaceStack A) unit :=
  if_locked x (fun _ => ss_destroy x).

Definition ss_hide (x : ShellSurface) : M (SurfaceStack A) unit :=
  if_locked x (fun p => set_hidden p true).
Definition ss_show (x : ShellSurface) : M (SurfaceStack A) unit :=
  if_locked x (fun p => set_hidden p false).
Definition ss_shutdown (x : ShellSurface) : M (SurfaceStack A) unit :=
  if_locked x surface_shutdown.
Definition ss_size (x : ShellSurface) : M (SurfaceStack A) Size :=
  locked_or_throw x (fun p => s ← deref (lock_surface p) ; mret (surface_size s)).
Definition ss_name (x : ShellSurface) : M (SurfaceStack A) string :=
  locked_or_throw x (fun p => s ← deref (lock_surface p) ; mret (surface_name s)).
Definition ss_pixel_format (x : ShellSurface) : M (SurfaceStack A) PixelFormat :=
  locked_or_throw x (fun p => s ← deref (lock_surface p) ; mret (surface_pixel_format s)).
Definition ss_advance_client_buffer (x : ShellSurface) : M (SurfaceStack A) unit :=
  if_locked x advance_client_buffer.
Definition ss_client_buffer (x : ShellSurface) : M (SurfaceStack A) (option TemporaryBuffer) :=
  locked_or_throw x client_buffer.

End ShellSurfaces.

Definition supports_input (x : ShellSurface) : bool :=
  match input_channel x with Some _ => true | None => false end.

Definition client_input_fd {S} (x : ShellSurface) : M S Z :=
  match input_channel x with
  | Some c => mret (client_fd c)
  | None => throw (logic_error "Surface does not support input")
  end.

Definition server_input_fd {S} (x : ShellSurface) : M S Z :=
  match input_channel x with
  | Some c => mret (server_fd c)
  | None => throw (logic_error "Surface does not support input")
  end.

Definition set_type (t : Z) (x : ShellSurface) : bool * ShellSurface :=
  if (0 <=? t) && (t <? mir_surface_type_arraysize_)
  then (true, mkShellSurface (input_channel x) (surface x) t) else (false, x).

Definition configure (attrib value : Z) : M ShellSurface Z := fun x =>
  if attrib =? mir_surface_attrib_type then
    let '(valid, x') := set_type value x in
    if valid then Ret (type_value x') x' else Throw (logic_error "Invalid surface type.") x'
  else Throw (logic_error "Invalid surface attribute.") x.

(** ** Sessions *)

(** [surfaces] is ordered by identifier. *)
Record ApplicationSession : Set := mkSession {
  session_name : string;
  next_surface_id : Z;
  session_surfaces : list (Z * ShellSurface);
}.

Definition ApplicationSession_new (name : string) : ApplicationSession := mkSession name 0 [].

Definition set_session_surfaces (m : list (Z * ShellSurface)) (s : ApplicationSession)
    : ApplicationSession := mkSession (session_name s) (next_surface_id s) m.

Definition default_surface (s : ApplicationSession) : option Z :=
  match session_surfaces s with [] => None | (id, _) :: _ => Some id end.

Section Sessions.
Context {A I : Type} `{GraphicBufferAllocator A} `{InputChannelFactory I}.

(** What a member function of a session works on: the session, the surface
    stack, the input manager, and the viewable area of the display. *)
Record session_env : Type := mkEnv {
  env_session : ApplicationSession;
  env_stack : SurfaceStack A;
  env_input : I;
  env_area : Rectangle;
}.

Definition env_session_lens : lens session_env ApplicationSession :=
  Lens env_session (fun s e => mkEnv s (env_stack e) (env_input e) (env_area e)).
Definition env_stack_lens : lens session_env (SurfaceStack A) :=
  Lens env_stack (fun st e => mkEnv (env_session e) st (env_input e) (env_area e)).
Definition env_input_lens : lens session_env I :=
  Lens env_input (fun i e => mkEnv (env_session e) (env_stack e) i (env_area e)).

(** [SurfaceSource::create_surface]: the channel is an argument of the
    constructor, made first. *)
Definition source_create_surface (params : SurfaceCreationParameters) : M session_env ShellSurface :=
  channel ← zoom env_input_lens make_input_channel ;
  zoom env_stack_lens (ShellSurface_new params channel).

(** [OrganisingSurfaceFactory::create_surface]. *)
Definition organising_create_surface (params : SurfaceCreationParameters)
    : M session_env ShellSurface :=
  view_area ← gets env_area ;
  source_create_surface (place view_area params).

(** [next_surface_id.fetch_add(1)] on a [std::atomic<int>]. *)
Definition next_id : M session_env Z := fun e =>
  let s := env_session e in
  Ret (next_surface_id s)
    (over env_session_lens
       (mkSession (session_name s) (i32 (next_surface_id s + 1)) (session_surfaces s)) e).

(** [surfaces[id] = surf]; a surface that was there is dropped. *)
Definition put_surface (id : Z) (surf : ShellSurface) : M session_env unit := fun e =>
  let s := env_session e in
  let e' := over env_session_lens
              (set_session_surfaces (OrdMap.insert id surf (session_surfaces s)) s) e in
  match OrdMap.find id (session_surfaces s) with
  | Some old => zoom env_stack_lens (ShellSurface_delete old) e'
  | None => Ret tt e'
  end.

Definition session_create_surface (params : SurfaceCreationParameters) : M session_env Z :=
  surf ← organising_create_surface params ;
  id ← next_id ;
  put_surface id surf ;;
  mret id.

Definition checked_find (id : Z) : M session_env ShellSurface := fun e =>
  match OrdMap.find id (session_surfaces (env_session e)) with
  | Some x => Ret x e
  | None => Throw (runtime_error "Invalid SurfaceId") e
  end.

Definition get_surface (id : Z) : M session_env ShellSurface := checked_find id.

Definition session_destroy_surface (id : Z) : M session_env unit :=
  p ← checked_find id ;
  zoom env_stack_lens (ss_destroy p) ;;
  modify (fun e => over env_session_lens
    (set_session_surfaces (OrdMap.erase id (session_surfaces (env_session e))) (env_session e)) e) ;;
  zoom env_stack_lens (ShellSurface_delete p).

Definition for_surfaces (f : ShellSurface -> M (SurfaceStack A) unit) : M session_env unit :=
  m ← gets (fun e => session_surfaces (env_session e)) ;
  zoom env_stack_lens (for_each (map snd m) f).

Definition session_shutdown : M session_env unit := for_surfaces ss_shutdown.
Definition session_hide : M session_env unit := for_surfaces ss_hide.
Definition session_show : M session_env unit := for_surfaces ss_show.

Definition configure_surface (id attrib value : Z) : M session_env Z :=
  x ← checked_find id ;
  match configure attrib value x with
  | Ret r x' =>
      modify (fun e => over env_session_lens
        (set_session_surfaces (OrdMap.insert id x' (session_surfaces (env_session e)))
           (env_session e)) e) ;;
      mret r
  | Throw e _ => throw e
  | Wait _ => wait
  | Undef => undefined
  end.

(** The destructor destroys the surfaces; then the map drops them. *)
Definition ApplicationSession_delete : M session_env unit :=
  for_surfaces ss_destroy ;;
  for_surfaces ShellSurface_delete.

End Sessions.

Arguments session_env A I : clear implicits.

(** ** Effects on the surface stack *)

(** The addresses of a session's surfaces. *)
Definition ptrs (s : ApplicationSession) : list surface_ptr :=
  (fun x => surface (snd x)) <$> session_surfaces s.

Lemma insert_keeps {V} (m : list (Z * V)) k x v : v ∈ m -> v ∈ OrdMap.insert k x m \/ OrdMap.find k m = Some (snd v).
Proof.
  induction m as [|[k' v'] m IH]; cbn; [by intros ?%not_elem_of_nil|]. intros [->|Hv]%elem_of_cons;
    destruct (Z.ltb k k'); [left; set_solver| |left; set_solver|]; destruct (Z.eqb k k'); [by right|left; set_solver|left; set_solver|].
  destruct (IH Hv) as [?|?]; [left; set_solver|by right].
Qed.

Lemma insert_new {V} (m : list (Z * V)) k x : (k, x) ∈ OrdMap.insert k x m.
Proof. induction m as [|[k' v'] m IH]; cbn; [set_solver|]. destruct (Z.ltb k k'); [set_solver|]. destruct (Z.eqb k k'); set_solver. Qed.

Lemma erase_keeps {V} (m : list (Z * V)) k v : v ∈ m -> v ∈ OrdMap.erase k m \/ OrdMap.find k m = Some (snd v).
Proof.
  induction m as [|[k' v'] m IH]; cbn; [by intros ?%not_elem_of_nil|].
  intros [->|Hv]%elem_of_cons; destruct (Z.eqb k k'); [by right|left; set_solver|left; set_solver|].
  destruct (IH Hv) as [?|?]; [left; set_solver|by right].
Qed.

Section StackEffects.
Context {A : Type} `{AllocatorLaws A}.
Implicit Types (st : SurfaceStack A) (x : ShellSurface).

(** [st'] differs from [st] only in the surfaces' contents and in the change
    notifications made. *)
Definition same_frame (st st' : SurfaceStack A) : Prop :=
  surfaces st' = surfaces st /\ next_address st' = next_address st.

Lemma stack_ok_pointwise st st' :
  stack_ok none_held st -> same_frame st st' ->
  (forall p, exists g, (forall s, surface_ok [] s -> surface_ok [] (g s)) /\
     surface_heap st' !! p = g <$> surface_heap st !! p) ->
  stack_ok none_held st'.
Proof.
  intros [Hnd Hl Hf Hs] [Hsurf Hnext] Hg. split.
  - by rewrite Hsurf.
  - intros p. destruct (Hg p) as (g & _ & ->). by rewrite Hsurf, Hl, fmap_is_Some.
  - intros p. destruct (Hg p) as (g & _ & ->). rewrite Hnext, fmap_is_Some. apply Hf.
  - intros p s. destruct (Hg p) as (g & Hok & ->). intros (s' & Hp & ->)%fmap_Some.
    apply Hok, (Hs p s' Hp).
Qed.

(** Hiding or showing a list of surfaces. *)
Lemma set_hidden_spec b x st :
  exists st', if_locked x (fun p => set_hidden p b) st = Ret tt st' /\ same_frame st st' /\
    surface_heap st' = alter (with_hidden b) (surface x) (surface_heap st).
Proof.
  unfold if_locked, lock_surface. destruct (surface_heap st !! surface x) as [s|] eqn:Hp.
  - unfold set_hidden, mbind, M_bind, update_surface, lock_surface. rewrite Hp.
    eexists. split; [reflexivity|]. split; [done|]. simpl.
    apply map_eq. intros q. destruct (decide (q = surface x)) as [->|Hne].
    + by rewrite lookup_insert_eq, lookup_alter_eq, Hp.
    + by rewrite lookup_insert_ne, lookup_alter_ne by congruence.
  - exists st. split; [done|]. split; [done|].
    apply map_eq. intros q. destruct (decide (q = surface x)) as [->|Hne].
    + by rewrite lookup_alter_eq, Hp.
    + by rewrite lookup_alter_ne by congruence.
Qed.

Lemma set_hidden_list b xs st :
  exists st', for_each xs (fun x => if_locked x (fun p => set_hidden p b)) st = Ret tt st' /\
    same_frame st st' /\
    (forall p, surface_heap st' !! p =
       if decide (p ∈ surface <$> xs) then with_hidden b <$> surface_heap st !! p
       else surface_heap st !! p).
Proof.
  revert st. induction xs as [|x xs IH]; intros st.
  { exists st. split; [done|]. split; [done|]. intros p. by rewrite decide_False by set_solver. }
  destruct (set_hidden_spec b x st) as (st1 & H1 & [Hs1 Hn1] & Hh1).
  destruct (IH st1) as (st2 & H2 & [Hs2 Hn2] & Hh2). exists st2.
  cbn [for_each]. unfold mbind, M_bind. rewrite H1. split; [exact H2|].
  split; [split; congruence|]. intros p. rewrite Hh2, Hh1, fmap_cons.
  destruct (decide (p = surface x)) as [->|Hne].
  - rewrite lookup_alter_eq, (decide_True (P := _ ∈ _ :: _)) by set_solver.
    destruct (surface_heap st !! surface x); [|by case_decide]. by case_decide.
  - rewrite lookup_alter_ne by congruence.
    destruct (decide (p ∈ surface <$> xs)) as [Hin|Hin].
    + by rewrite decide_True by set_solver.
    + by rewrite decide_False by set_solver.
Qed.

(** Destroying a surface that may already be gone. *)
Lemma destroy_any p st :
  stack_ok none_held st ->
  exists st', destroy_surface p st = Ret tt st' /\ stack_ok none_held st' /\
    surface_heap st' = delete p (surface_heap st) /\ next_address st' = next_address st /\
    surfaces st' = remove1 p (surfaces st).
Proof.
  intros Hok. destruct (surface_heap st !! p) as [s|] eqn:Hp.
  - destruct (destroy_surface_spec none_held st p s Hok Hp eq_refl) as (st' & -> & Hok' & ->).
    eexists. split; [reflexivity|]. done.
  - rewrite destroy_dead by done. eexists. split; [reflexivity|]. simpl.
    split; [by eapply stack_ok_ext; [..|exact Hok]|]. split; [by rewrite delete_id|].
    split; [done|]. symmetry. apply remove1_notin. intros Hin.
    apply (st_live _ _ Hok) in Hin as [? Hin]. congruence.
Qed.

Lemma ss_delete_any x st :
  stack_ok none_held st ->
  exists st', ShellSurface_delete x st = Ret tt st' /\ stack_ok none_held st' /\
    surface_heap st' = delete (surface x) (surface_heap st) /\ next_address st' = next_address st.
Proof.
  intros Hok. unfold ShellSurface_delete, if_locked, lock_surface.
  destruct (surface_heap st !! surface x) as [s|] eqn:Hp.
  - destruct (destroy_any (surface x) st Hok) as (st' & ? & ? & ? & ? & _). eauto.
  - exists st. by rewrite delete_id.
Qed.

(** Destroying a list of surfaces. *)
Lemma destroy_list (f : ShellSurface -> M (SurfaceStack A) unit) xs st :
  (forall x st, stack_ok none_held st ->
    exists st', f x st = Ret tt st' /\ stack_ok none_held st' /\
      surface_heap st' = delete (surface x) (surface_heap st) /\ next_address st' = next_address st) ->
  stack_ok none_held st ->
  exists st', for_each xs f st = Ret tt st' /\ stack_ok none_held st' /\
    next_address st' = next_address st /\
    (forall p, surface_heap st' !! p =
       if decide (p ∈ surface <$> xs) then None else surface_heap st !! p).
Proof.
  intros Hf. revert st. induction xs as [|x xs IH]; intros st Hok.
  { exists st. do 3 (split; [done|]). intros p. by rewrite decide_False by set_solver. }
  destruct (Hf x st Hok) as (st1 & H1 & Hok1 & Hh1 & Hn1).
  destruct (IH st1 Hok1) as (st2 & H2 & Hok2 & Hn2 & Hh2). exists st2.
  cbn [for_each]. unfold mbind, M_bind. rewrite H1. split; [exact H2|]. split; [done|].
  split; [congruence|]. intros p. rewrite Hh2, Hh1, fmap_cons.
  destruct (decide (p = surface x)) as [->|Hne].
  - rewrite lookup_delete_eq, (decide_True (P := _ ∈ _ :: _)) by set_solver. by case_decide.
  - rewrite lookup_delete_ne by congruence.
    destruct (decide (p ∈ surface <$> xs)) as [Hin|Hin].
    + by rewrite decide_True by set_solver.
    + by rewrite decide_False by set_solver.
Qed.

End StackEffects.

(** ** Effects of the session's operations *)

Section SessionEffects.
Context {A I : Type} `{AllocatorLaws A} `{InputChannelLaws I}.
Implicit Types (e : session_env A I).

Definition ptrs_known (s : ApplicationSession) (st : SurfaceStack A) : Prop :=
  forall p, p ∈ ptrs s -> (p < next_address st)%nat.

Lemma find_ptrs s id x : OrdMap.find id (session_surfaces s) = Some x -> surface x ∈ ptrs s.
Proof.
  intros Hf. apply find_some_In in Hf. apply list_elem_of_fmap. by exists (id, x).
Qed.

(** Making a surface through the factories. *)
Lemma organising_create_spec params e :
  stack_ok none_held (env_stack e) ->
  match organising_create_surface params e with
  | Ret x e' => surface x = next_address (env_stack e) /\
      env_session e' = env_session e /\ env_area e' = env_area e /\
      stack_ok none_held (env_stack e') /\
      next_address (env_stack e') = S (next_address (env_stack e)) /\
      exists s, is_hidden s = false /\
        surface_heap (env_stack e') = <[surface x := s]> (surface_heap (env_stack e))
  | Throw _ e' =>
      env_session e' = env_session e /\ env_area e' = env_area e /\
      stack_ok none_held (env_stack e') /\
      next_address (env_stack e') = next_address (env_stack e) /\
      surface_heap (env_stack e') = surface_heap (env_stack e)
  | _ => False
  end.
Proof.
  intros Hok. unfold organising_create_surface, source_create_surface, mbind, M_bind, gets, zoom.
  cbn [view env_input_lens]. pose proof (make_input_channel_ends (env_input e)) as Hm. unfold wp in Hm.
  destruct (make_input_channel (env_input e)) as [c i|x i|i|]; [|done|done|done].
  cbn [view over env_stack_lens env_stack env_input_lens].
  unfold ShellSurface_new, controller_create_surface, mbind, M_bind.
  pose proof (create_surface_spec none_held (env_stack e) (place (env_area e) params) Hok eq_refl) as Hc.
  destruct (create_surface _ (env_stack e)) as [p st'|x st'|st'|]; [..|done|done]; simpl.
  - destruct Hc as (-> & Hok' & a & bundle & ->). simpl in *. do 5 (split; [done|]).
    eexists. split; [|reflexivity]. done.
  - destruct Hc as [a ->]. repeat (split; [done|]). split; [by eapply stack_ok_ext; [..|exact Hok]|done].
Qed.

Lemma put_surface_spec id x e :
  stack_ok none_held (env_stack e) ->
  exists e', put_surface id x e = Ret tt e' /\ env_area e' = env_area e /\
    env_session e' = set_session_surfaces (OrdMap.insert id x (session_surfaces (env_session e))) (env_session e) /\
    stack_ok none_held (env_stack e') /\ next_address (env_stack e') = next_address (env_stack e) /\
    (forall p, surface_heap (env_stack e') !! p =
       if decide (surface <$> OrdMap.find id (session_surfaces (env_session e)) = Some p) then None
       else surface_heap (env_stack e) !! p).
Proof.
  intros Hok. unfold put_surface. destruct (OrdMap.find id _) as [old|] eqn:Hf.
  - unfold zoom. cbn [view env_stack_lens over env_session_lens env_stack].
    destruct (ss_delete_any old (env_stack e) Hok) as (st' & -> & Hok' & Hh & Hn).
    eexists. split; [reflexivity|]. repeat (split; [done|]). intros p. simpl. rewrite Hh.
    destruct (decide (p = surface old)) as [->|Hne].
    + by rewrite lookup_delete_eq, decide_True.
    + by rewrite lookup_delete_ne, decide_False by congruence.
  - eexists. split; [reflexivity|]. repeat (split; [done|]). done.
Qed.

Lemma session_create_spec params e :
  stack_ok none_held (env_stack e) ->
  match session_create_surface params e with
  | Ret id e' => id = next_surface_id (env_session e) /\ env_area e' = env_area e /\
      stack_ok none_held (env_stack e') /\
      next_address (env_stack e') = S (next_address (env_stack e)) /\
      exists x s, surface x = next_address (env_stack e) /\ is_hidden s = false /\
        env_session e' = mkSession (session_name (env_session e)) (i32 (id + 1))
          (OrdMap.insert id x (session_surfaces (env_session e))) /\
        (forall p, surface_heap (env_stack e') !! p =
           if decide (surface <$> OrdMap.find id (session_surfaces (env_session e)) = Some p) then None
           else if decide (p = surface x) then Some s else surface_heap (env_stack e) !! p)
  | Throw _ e' =>
      env_session e' = env_session e /\ env_area e' = env_area e /\
      stack_ok none_held (env_stack e') /\
      next_address (env_stack e') = next_address (env_stack e) /\
      surface_heap (env_stack e') = surface_heap (env_stack e)
  | _ => False
  end.
Proof.
  intros Hok. unfold session_create_surface, mbind at 1, M_bind.
  pose proof (organising_create_spec params e Hok) as Hc.
  destruct (organising_create_surface params e) as [x e1|x e1|e1|]; [|exact Hc|done|done].
  destruct e1 as [se1 st1 in1 ar1].
  destruct Hc as (Hx & Hse & Har & Hok1 & Hn1 & s & Hh & Hheap). simpl in *. subst se1 ar1.
  unfold mbind, M_bind, next_id. cbn [over env_session_lens env_session env_stack env_input env_area].
  set (e2 := mkEnv _ st1 _ _).
  destruct (put_surface_spec (next_surface_id (env_session e)) x e2 Hok1)
    as (e3 & -> & Har3 & Hse3 & Hok3 & Hn3 & Hheap3). simpl in *.
  do 3 (split; [done|]). split; [by rewrite Hn3|]. exists x, s. do 2 (split; [done|]).
  split; [by rewrite Hse3|]. intros p. rewrite Hheap3. case_decide; [done|].
  rewrite Hheap. destruct (decide (p = surface x)) as [->|Hne].
  - by rewrite lookup_insert_eq.
  - by rewrite lookup_insert_ne by congruence.
Qed.

Lemma session_destroy_spec id x e :
  stack_ok none_held (env_stack e) ->
  OrdMap.find id (session_surfaces (env_session e)) = Some x ->
  exists e', session_destroy_surface id e = Ret tt e' /\ env_area e' = env_area e /\
    env_session e' = set_session_surfaces (OrdMap.erase id (session_surfaces (env_session e))) (env_session e) /\
    stack_ok none_held (env_stack e') /\ next_address (env_stack e') = next_address (env_stack e) /\
    surface_heap (env_stack e') = delete (surface x) (surface_heap (env_stack e)).
Proof.
  intros Hok Hf. unfold session_destroy_surface, mbind, M_bind, checked_find. rewrite Hf.
  unfold zoom, ss_destroy, controller_destroy_surface. cbn [view env_stack_lens].
  destruct (destroy_any (surface x) (env_stack e) Hok) as (st1 & -> & Hok1 & Hh1 & Hn1 & _).
  unfold modify. cbn [over env_stack_lens env_session_lens env_session env_stack view].
  destruct (ss_delete_any x st1 Hok1) as (st2 & -> & Hok2 & Hh2 & Hn2).
  eexists. split; [reflexivity|]. simpl. repeat (split; [done|]).
  split; [congruence|]. rewrite Hh2, Hh1. by rewrite delete_delete_eq.
Qed.

Lemma session_hidden_spec b e :
  stack_ok none_held (env_stack e) ->
  exists e', for_surfaces (fun x => if_locked x (fun p => set_hidden p b)) e = Ret tt e' /\
    env_area e' = env_area e /\ env_session e' = env_session e /\
    stack_ok none_held (env_stack e') /\ next_address (env_stack e') = next_address (env_stack e) /\
    (forall p, surface_heap (env_stack e') !! p =
       if decide (p ∈ ptrs (env_session e)) then with_hidden b <$> surface_heap (env_stack e) !! p
       else surface_heap (env_stack e) !! p).
Proof.
  intros Hok. unfold for_surfaces, mbind, M_bind, gets, zoom. cbn [view env_stack_lens].
  destruct (set_hidden_list b (map snd (session_surfaces (env_session e))) (env_stack e))
    as (st' & -> & Hs & Hh).
  eexists. split; [reflexivity|]. simpl. do 2 (split; [done|]).
  assert (surface <$> map snd (session_surfaces (env_session e)) = ptrs (env_session e)) as Hp.
  { unfold ptrs. change (map snd) with (fmap (M := list) (A := Z * ShellSurface) snd).
    by rewrite <- list_fmap_compose. }
  rewrite Hp in Hh. split; [|split; [by destruct Hs|done]].
  eapply stack_ok_pointwise; [exact Hok|exact Hs|]. intros p.
  exists (if decide (p ∈ ptrs (env_session e)) then with_hidden b else id).
  split; [intros s Hs'; by case_decide|]. rewrite Hh. case_decide; [done|]. by rewrite option_fmap_id.
Qed.

Lemma session_delete_spec e :
  stack_ok none_held (env_stack e) ->
  exists e', ApplicationSession_delete e = Ret tt e' /\
    env_area e' = env_area e /\
    stack_ok none_held (env_stack e') /\ next_address (env_stack e') = next_address (env_stack e) /\
    (forall p, surface_heap (env_stack e') !! p =
       if decide (p ∈ ptrs (env_session e)) then None else surface_heap (env_stack e) !! p).
Proof.
  intros Hok. unfold ApplicationSession_delete, for_surfaces, mbind, M_bind, gets, zoom.
  cbn [view env_stack_lens].
  assert (surface <$> map snd (session_surfaces (env_session e)) = ptrs (env_session e)) as Hp.
  { unfold ptrs. change (map snd) with (fmap (M := list) (A := Z * ShellSurface) snd).
    by rewrite <- list_fmap_compose. }
  destruct (destroy_list ss_destroy (map snd (session_surfaces (env_session e))) (env_stack e))
    as (st1 & -> & Hok1 & Hn1 & Hh1); [|done|].
  { intros x st Hst. destruct (destroy_any (surface x) st Hst) as (st' & ? & ? & ? & ? & _). eauto. }
  cbn [over env_stack_lens env_session env_stack view].
  destruct (destroy_list ShellSurface_delete (map snd (session_surfaces (env_session e))) st1)
    as (st2 & -> & Hok2 & Hn2 & Hh2); [|done|].
  { intros x st Hst. by apply ss_delete_any. }
  eexists. split; [reflexivity|]. simpl. do 2 (split; [done|]). split; [congruence|].
  intros p. rewrite Hh2, Hh1, Hp. by repeat case_decide.
Qed.

End SessionEffects.

(** ** Properties of placement and of sessions *)

(** Placement never exceeds the display: the placed size fits the viewable
    area, a non-empty request that fits is granted unchanged, and an empty one
    gets the whole area; the other parameters are kept. *)
Theorem placement_fits area req :
  size_ok (sp_size req) -> size_ok (rect_size area) ->
  let placed := place area req in
  as_uint32_t (size_width (sp_size placed)) <= as_uint32_t (size_width (rect_size area)) /\
  as_uint32_t (size_height (sp_size placed)) <= as_uint32_t (size_height (rect_size area)) /\
  (sp_size req = size0 -> sp_size placed = rect_size area) /\
  (sp_size req <> size0 ->
   as_uint32_t (size_width (sp_size req)) <= as_uint32_t (size_width (rect_size area)) ->
   as_uint32_t (size_height (sp_size req)) <= as_uint32_t (size_height (rect_size area)) ->
   placed = req) /\
  sp_name placed = sp_name req /\ sp_pixel_format placed = sp_pixel_format req /\
  sp_buffer_usage placed = sp_buffer_usage req.
Proof.
  destruct req as [nm [[w] [h]] us pf], area as [tl [[aw] [ah]]].
  unfold size_ok, dim_ok, is_u32, place, of_size, size0, wrap, wrap0. simpl. intros [Hw Hh] [Haw Hah].
  destruct (Z.eqb_spec w 0) as [->|Hw0]; destruct (Z.eqb_spec h 0) as [->|Hh0]; simpl;
    rewrite ?u32_id by (unfold is_u32; lia);
    (split; [lia|]; split; [lia|]; split; [intros; simplify_eq; done|]; split; [|done]);
    intros; rewrite ?Z.min_l by lia; done.
Qed.

Lemma placement_fits_witness :
  let area := mkRectangle (mkPoint wrap0 wrap0) (mkSize (wrap 1024) (wrap 768)) in
  let placed := place area (demo_params "a") in
  as_uint32_t (size_width (sp_size placed)) <= 1024 /\ placed = demo_params "a".
Proof.
  intros area placed.
  destruct (placement_fits area (demo_params "a")) as (Hw & _ & _ & Hp & _).
  - repeat split; vm_compute; congruence.
  - repeat split; vm_compute; congruence.
  - split; [exact Hw|]. apply Hp; vm_compute; congruence.
Defined.

Section SessionProperties.
Context {A I : Type} `{AllocatorLaws A} `{InputChannelLaws I}.
Implicit Types (e : session_env A I).

(** An identifier the session does not know is refused by every operation
    that takes one, with [std::runtime_error] and without effect; a known one
    is refused by [configure_surface] with [std::logic_error] exactly when the
    attribute is not the surface type or the value is not one of the types,
    again without effect, and is otherwise set to the value it returns. *)
Theorem surface_id_errors id attrib value e :
  match OrdMap.find id (session_surfaces (env_session e)) with
  | None =>
      let err := runtime_error "Invalid SurfaceId" in
      get_surface id e = Throw err e /\ session_destroy_surface id e = Throw err e /\
      configure_surface id attrib value e = Throw err e
  | Some x =>
      get_surface id e = Ret x e /\
      if (attrib =? mir_surface_attrib_type) && (0 <=? value) && (value <? mir_surface_type_arraysize_)
      then exists e', configure_surface id attrib value e = Ret value e' /\
        OrdMap.find id (session_surfaces (env_session e')) =
          Some (mkShellSurface (input_channel x) (surface x) value) /\
        env_stack e' = env_stack e
      else exists what, configure_surface id attrib value e = Throw (logic_error what) e
  end.
Proof.
  unfold get_surface, session_destroy_surface, configure_surface, checked_find, mbind, M_bind.
  destruct (OrdMap.find id _) as [x|] eqn:Hf; [|done]. split; [done|].
  unfold configure, set_type. destruct (attrib =? mir_surface_attrib_type); simpl; [|eauto].
  destruct ((0 <=? value) && (value <? mir_surface_type_arraysize_)); simpl; [|eauto].
  eexists. split; [reflexivity|]. simpl. by rewrite find_insert_eq.
Qed.

(** The identifiers in use are below the next one. *)
Definition ids_ok (s : ApplicationSession) : Prop :=
  OrdMap.sorted (session_surfaces s) /\ 0 <= next_surface_id s < 2147483648 /\
  forall id, id ∈ OrdMap.keys (session_surfaces s) -> 0 <= id < next_surface_id s.

Lemma ids_ok_create params e id e' :
  ids_ok (env_session e) -> next_surface_id (env_session e) < 2147483647 ->
  stack_ok none_held (env_stack e) ->
  session_create_surface params e = Ret id e' ->
  OrdMap.find id (session_surfaces (env_session e)) = None /\ ids_ok (env_session e').
Proof.
  intros (Hs & Hr & Hk) Hb Hok Hc. pose proof (session_create_spec params e Hok) as Hspec.
  rewrite Hc in Hspec. destruct Hspec as (-> & _ & _ & _ & x & s & _ & _ & -> & _).
  split.
  - apply find_keys_none. intros Hin. apply Hk in Hin. lia.
  - split; [by apply insert_sorted|]. simpl. rewrite i32_id by (unfold is_i32; lia).
    split; [lia|]. intros id [->|Hin]%keys_insert; [lia|]. apply Hk in Hin. lia.
Qed.

(** A session never reuses an identifier: the identifier of a new surface
    is not in use, getting it gives that surface, every surface the session
    had is still found under its old identifier, and destroying it restores
    the session's surfaces and the stack's. *)
Theorem create_then_destroy_surface params e id e' :
  ids_ok (env_session e) -> next_surface_id (env_session e) < 2147483647 ->
  stack_ok none_held (env_stack e) ->
  session_create_surface params e = Ret id e' ->
  OrdMap.find id (session_surfaces (env_session e)) = None /\ ids_ok (env_session e') /\
  (exists x, get_surface id e' = Ret x e' /\ is_Some (surface_heap (env_stack e') !! surface x)) /\
  (forall id', id' <> id -> OrdMap.find id' (session_surfaces (env_session e')) =
     OrdMap.find id' (session_surfaces (env_session e))) /\
  exists e'', session_destroy_surface id e' = Ret tt e'' /\
    (forall id', OrdMap.find id' (session_surfaces (env_session e'')) =
       OrdMap.find id' (session_surfaces (env_session e))) /\
    surface_heap (env_stack e'') = surface_heap (env_stack e).
Proof.
  intros Hids Hb Hok Hc. destruct (ids_ok_create params e id e' Hids Hb Hok Hc) as [Hnew Hids'].
  pose proof (session_create_spec params e Hok) as Hspec. rewrite Hc in Hspec.
  destruct Hspec as (Hid & _ & Hok' & _ & x & s & Hx & _ & Hse & Hheap).
  rewrite Hnew in Hheap. simpl in Hheap.
  assert (OrdMap.find id (session_surfaces (env_session e')) = Some x) as Hf
    by (rewrite Hse; apply find_insert_eq).
  assert (surface_heap (env_stack e) !! surface x = None) as Hfree.
  { destruct (surface_heap (env_stack e) !! surface x) eqn:E; [|done]. exfalso.
    assert (surface x < next_address (env_stack e))%nat; [|lia].
    apply (st_fresh _ _ Hok). eauto. }
  do 2 (split; [done|]). split.
  { exists x. unfold get_surface, checked_find. rewrite Hf. split; [done|].
    rewrite Hheap. by repeat case_decide; eauto. }
  split; [intros id' Hne; rewrite Hse; by apply find_insert_ne|].
  destruct (session_destroy_spec id x e' Hok' Hf) as (e'' & Hd & _ & Hse' & _ & _ & Hh).
  exists e''. split; [done|]. split.
  - intros id'. rewrite Hse'. simpl. rewrite find_erase by apply Hids'. rewrite Hse. simpl.
    rewrite find_insert. destruct (Z.eqb_spec id' id) as [->|]; done.
  - rewrite Hh. apply map_eq. intros p. destruct (decide (p = surface x)) as [->|Hne].
    + by rewrite lookup_delete_eq.
    + rewrite lookup_delete_ne, Hheap by congruence. by repeat case_decide.
Qed.
End SessionProperties.

(** ** A concrete session *)

#[export] Instance demo_input : InputChannelFactory Z := {
  make_input_channel := fun i => Ret (Some (mkChannel i (i + 1))) (i + 2);
}.

#[export] Instance demo_input_laws : InputChannelLaws Z.
Proof. by split. Qed.

Definition demo_area : Rectangle := mkRectangle (mkPoint wrap0 wrap0) (mkSize (wrap 1024) (wrap 768)).

Definition demo_env : session_env demo_platform Z :=
  mkEnv (ApplicationSession_new "s") (demo_run []) 10 demo_area.

Lemma surface_id_errors_witness :
  get_surface 7 demo_env = Throw (runtime_error "Invalid SurfaceId") demo_env /\
  session_destroy_surface 7 demo_env = Throw (runtime_error "Invalid SurfaceId") demo_env /\
  configure_surface 7 0 1 demo_env = Throw (runtime_error "Invalid SurfaceId") demo_env.
Proof. exact (surface_id_errors (A := demo_platform) (I := Z) 7 0 1 demo_env). Defined.

Lemma create_then_destroy_surface_witness :
  exists e' e'', session_create_surface (demo_params "a") demo_env = Ret 0 e' /\
    session_destroy_surface 0 e' = Ret tt e'' /\
    surface_heap (env_stack e'') = surface_heap (env_stack demo_env).
Proof.
  destruct (session_create_surface (demo_params "a") demo_env) as [id e'| | |] eqn:E;
    try (exfalso; vm_compute in E; discriminate).
  assert (id = 0) as -> by (vm_compute in E; congruence).
  destruct (create_then_destroy_surface (A := demo_platform) (I := Z) (demo_params "a") demo_env 0 e')
    as (_ & _ & _ & _ & e'' & Hd & _ & Hh).
  - split; [apply sorted_nil_map|]. split; [by vm_compute|].
    intros id Hid. by apply not_elem_of_nil in Hid.
  - reflexivity.
  - apply demo_run_ok.
  - exact E.
  - exists e', e''. split; [reflexivity|]. split; [exact Hd|exact Hh].
Defined.
