(* ===== verification/SessionManager.v ===== *)
(** * The session manager

    [SessionContainer], [RegistrationOrderFocusSequence],
    [SingleVisibilityFocusMechanism] and [SessionManager]
    ([src/server/shell/]), composed as the default server configuration
    composes them.

    Sessions are objects on a heap, owned by the container, by the tags and by
    the frontend's session mediators.  [release_session] is the frontend
    dropping the last reference it holds: the session is destroyed unless the
    container or a tag still owns it. *)

From S2P Require Import Prelude Geometry Buffers Swapper Bundle GbmBuffers SurfaceParams Surfaces Sessions.

(** The address of a session. *)
Abbreviation session_ptr := nat.

(** ** The focus sequence, over the sessions in registration order *)

Definition logic_invalid_session {S B} : M S B := throw (logic_error "Invalid session").

(** The state of the loop of [successor_of]: [result], [first], [found]. *)
Definition successor_visit (focused_app : option session_ptr)
    (st : option session_ptr * option session_ptr * bool) (session : session_ptr)
    : option session_ptr * option session_ptr * bool :=
  let '(result, first, found) := st in
  let first := match first with None => Some session | _ => first end in
  if found then (match result with None => Some session | _ => result end, first, found)
  else if decide (focused_app = Some session) then (result, first, true)
  else (result, first, found).

Definition successor_of {S} (apps : list session_ptr) (focused_app : option session_ptr)
    : M S (option session_ptr) :=
  let '(result, first, found) :=
    fold_left (successor_visit focused_app) apps (None, None, false) in
  match result with
  | Some _ => mret result
  | None => if found : bool then mret first else logic_invalid_session
  end.

(** The state of the loop of [predecessor_of]: [result], [last], [found]. *)
Definition predecessor_visit (focused_app : option session_ptr)
    (st : option session_ptr * option session_ptr * bool) (session : session_ptr)
    : option session_ptr * option session_ptr * bool :=
  let '(result, last, found) := st in
  if decide (focused_app = Some session) then (result, Some session, true)
  else if negb found then (Some session, Some session, found)
  else (result, Some session, found).

Definition predecessor_of {S} (apps : list session_ptr) (focused_app : option session_ptr)
    : M S (option session_ptr) :=
  let '(result, last, found) :=
    fold_left (predecessor_visit focused_app) apps (None, None, false) in
  match result with
  | Some _ => mret result
  | None => if found : bool then mret last else logic_invalid_session
  end.

Definition default_focus (apps : list session_ptr) : option session_ptr :=
  fold_left (fun _ session => Some session) apps None.

Section Manager.
Context {A I : Type} `{GraphicBufferAllocator A} `{InputChannelFactory I}.

Record Shell : Type := mkShell {
  sh_stack : SurfaceStack A;
  sh_input : I;
  sh_area : Rectangle;
  sh_sessions : gmap session_ptr ApplicationSession;
  sh_next : session_ptr;
  apps : list session_ptr;
  focus_application : option session_ptr;
  tags : list (Z * session_ptr);
  (** the calls of [set_input_focus_to], oldest first *)
  input_focus : list (session_ptr * option Z);
}.

Definition Shell_new (st : SurfaceStack A) (i : I) (area : Rectangle) : Shell :=
  mkShell st i area ∅ 0 [] None [] [].

(** Run a member function of the session at [p]. *)
Definition with_session {B} (p : session_ptr) (m : M (session_env A I) B) : M Shell B := fun sh =>
  match sh_sessions sh !! p with
  | None => Undef
  | Some s =>
      let put e := mkShell (env_stack e) (env_input e) (sh_area sh)
                     (<[p := env_session e]> (sh_sessions sh)) (sh_next sh) (apps sh)
                     (focus_application sh) (tags sh) (input_focus sh) in
      match m (mkEnv s (sh_stack sh) (sh_input sh) (sh_area sh)) with
      | Ret b e => Ret b (put e)
      | Throw x e => Throw x (put e)
      | Wait e => Wait (put e)
      | Undef => Undef
      end
  end.

Definition set_apps (l : list session_ptr) (sh : Shell) : Shell :=
  mkShell (sh_stack sh) (sh_input sh) (sh_area sh) (sh_sessions sh) (sh_next sh) l
    (focus_application sh) (tags sh) (input_focus sh).
Definition set_focus_application (f : option session_ptr) (sh : Shell) : Shell :=
  mkShell (sh_stack sh) (sh_input sh) (sh_area sh) (sh_sessions sh) (sh_next sh) (apps sh)
    f (tags sh) (input_focus sh).
Definition set_tags (t : list (Z * session_ptr)) (sh : Shell) : Shell :=
  mkShell (sh_stack sh) (sh_input sh) (sh_area sh) (sh_sessions sh) (sh_next sh) (apps sh)
    (focus_application sh) t (input_focus sh).

(** ** [SessionContainer] *)

Definition insert_session (p : session_ptr) : M Shell unit :=
  modify (fun sh => set_apps (apps sh ++ [p]) sh).

Definition remove_session (p : session_ptr) : M Shell unit := fun sh =>
  if decide (p ∈ apps sh) then Ret tt (set_apps (remove1 p (apps sh)) sh)
  else Throw (logic_error "Invalid Session") sh.

Definition container_for_each (f : session_ptr -> M Shell unit) : M Shell unit :=
  l ← gets apps ; for_each l f.

(** ** [SingleVisibilityFocusMechanism] *)

Definition set_input_focus_to (p : session_ptr) (surface : option Z) : M Shell unit :=
  modify (fun sh =>
    mkShell (sh_stack sh) (sh_input sh) (sh_area sh) (sh_sessions sh) (sh_next sh) (apps sh)
      (focus_application sh) (tags sh) (input_focus sh ++ [(p, surface)])).

Definition focus_visit (focus_session : option session_ptr) (session : session_ptr) : M Shell unit :=
  if decide (Some session = focus_session) then
    with_session session session_show ;;
    s ← deref (fun sh => sh_sessions sh !! session) ;
    set_input_focus_to session (default_surface s)
  else with_session session session_hide.

Definition mechanism_set_focus_to (focus_session : option session_ptr) : M Shell unit :=
  container_for_each (focus_visit focus_session).

(** ** [SessionManager] *)

Definition new_session (name : string) : M Shell session_ptr := fun sh =>
  let p := sh_next sh in
  Ret p (mkShell (sh_stack sh) (sh_input sh) (sh_area sh)
           (<[p := ApplicationSession_new name]> (sh_sessions sh)) (S p) (apps sh)
           (focus_application sh) (tags sh) (input_focus sh)).

Definition open_session (name : string) : M Shell session_ptr :=
  p ← new_session name ;
  insert_session p ;;
  modify (set_focus_application (Some p)) ;;
  mechanism_set_focus_to (Some p) ;;
  mret p.

Definition set_focus_to (next_focus : option session_ptr) : M Shell unit :=
  modify (set_focus_application next_focus) ;;
  mechanism_set_focus_to next_focus.

Definition close_session (session : session_ptr) : M Shell unit :=
  remove_session session ;;
  l ← gets apps ;
  set_focus_to (default_focus l) ;;
  modify (fun sh => set_tags (filter (fun v => v.2 <> session) (tags sh)) sh).

(** [focus_application.lock()]. *)
Definition lock_focus (sh : Shell) : option session_ptr :=
  p ← focus_application sh ;
  match sh_sessions sh !! p with Some _ => Some p | None => None end.

Definition focus_next : M Shell unit :=
  focus ← gets lock_focus ;
  l ← gets apps ;
  next ← (match focus with
          | None => mret (default_focus l)
          | Some _ => successor_of l focus
          end) ;
  set_focus_to next.

Definition manager_shutdown : M Shell unit :=
  container_for_each (fun p => with_session p session_shutdown).

Definition tag_session_with_lightdm_id (session : session_ptr) (id : Z) : M Shell unit :=
  modify (fun sh =>
    set_tags (filter (fun v => ~ (v.1 = id \/ v.2 = session)) (tags sh) ++ [(id, session)]) sh).

Definition focus_session_with_lightdm_id (id : Z) : M Shell unit :=
  l ← gets tags ;
  match list_find (fun v => v.1 = id) l with
  | Some (_, (_, session)) => set_focus_to (Some session)
  | None => mret tt
  end.

Definition create_surface_for (session : session_ptr) (params : SurfaceCreationParameters)
    : M Shell Z :=
  id ← with_session session (session_create_surface params) ;
  set_focus_to (Some session) ;;
  mret id.

(** The frontend drops its reference. *)
Definition release_session (p : session_ptr) : M Shell unit := fun sh =>
  if decide (p ∈ apps sh \/ p ∈ snd <$> tags sh) then Ret tt sh
  else match sh_sessions sh !! p with
       | None => Ret tt sh
       | Some _ =>
           (with_session p ApplicationSession_delete ;;
            modify (fun sh =>
              mkShell (sh_stack sh) (sh_input sh) (sh_area sh) (delete p (sh_sessions sh))
                (sh_next sh) (apps sh) (focus_application sh) (tags sh) (input_focus sh))) sh
       end.

End Manager.

Arguments Shell A I : clear implicits.

(** ** The focus sequence *)

Lemma default_focus_last l : default_focus l = last l.
Proof.
  unfold default_focus. induction l as [|x l IH] using rev_ind; [done|].
  rewrite fold_left_app, last_snoc. done.
Qed.

Section FocusSequence.
Implicit Types (l : list session_ptr) (p q : session_ptr).

Definition or_head (f : option session_ptr) l : option session_ptr :=
  match f with Some _ => f | None => head l end.

Lemma successor_before l p r f :
  p ∉ l -> fold_left (successor_visit (Some p)) l (r, f, false) = (r, or_head f l, false).
Proof.
  revert f. induction l as [|x l IH]; intros f Hn; [by destruct f|].
  rewrite not_elem_of_cons in Hn. destruct Hn as [Hx Hn]. simpl.
  rewrite decide_False by congruence. rewrite IH by done. by destruct f.
Qed.

Lemma successor_after l p r f :
  fold_left (successor_visit (Some p)) l (r, Some f, true) = (or_head r l, Some f, true).
Proof.
  revert r. induction l as [|x l IH]; intros r; [by destruct r|].
  simpl. rewrite IH. by destruct r.
Qed.

Lemma successor_split {S} (s : S) l1 p l2 :
  p ∉ l1 -> successor_of (l1 ++ p :: l2) (Some p) s =
    Ret (match l2 with q :: _ => Some q | [] => head (l1 ++ [p]) end) s.
Proof.
  intros Hn. unfold successor_of. rewrite fold_left_app, successor_before by done.
  cbn [fold_left]. unfold successor_visit at 2. rewrite decide_True by done.
  assert (exists f, match or_head None l1 with Some _ => or_head None l1 | None => Some p end = Some f
    /\ head (l1 ++ [p]) = Some f) as (f & Hf & Hh) by (destruct l1; eauto).
  rewrite Hf, successor_after, Hh. by destruct l2.
Qed.

Lemma predecessor_before l p r f :
  p ∉ l -> fold_left (predecessor_visit (Some p)) l (r, f, false) =
    (match last l with Some x => Some x | None => r end,
     match last l with Some x => Some x | None => f end, false).
Proof.
  revert r f. induction l as [|x l IH]; intros r f Hn; [done|].
  rewrite not_elem_of_cons in Hn. destruct Hn as [Hx Hn]. cbn [fold_left]. unfold predecessor_visit at 2. cbn [negb].
  rewrite decide_False by congruence. rewrite IH, last_cons by done. by destruct (last l).
Qed.

Lemma predecessor_after l p r f :
  p ∉ l -> fold_left (predecessor_visit (Some p)) l (r, f, true) =
    (r, match last l with Some x => Some x | None => f end, true).
Proof.
  revert f. induction l as [|x l IH]; intros f Hn; [done|].
  rewrite not_elem_of_cons in Hn. destruct Hn as [Hx Hn]. cbn [fold_left]. unfold predecessor_visit at 2. cbn [negb].
  rewrite decide_False by congruence. rewrite IH, last_cons by done. by destruct (last l).
Qed.

Lemma predecessor_split {S} (s : S) l1 p l2 :
  p ∉ l1 -> p ∉ l2 -> predecessor_of (l1 ++ p :: l2) (Some p) s =
    Ret (match last l1 with Some q => Some q | None => last (p :: l2) end) s.
Proof.
  intros Hn1 Hn2. unfold predecessor_of. rewrite fold_left_app, predecessor_before by done.
  cbn [fold_left]. unfold predecessor_visit at 2. rewrite decide_True by done.
  rewrite predecessor_after by done. destruct (last l1) eqn:E; [done|].
  rewrite last_cons. by destruct (last l2).
Qed.

(** The focus order is a cycle: the successor of a registered session is a
    registered session whose predecessor it is, and conversely; when it is
    the last one its successor is the first. *)
Theorem focus_order_cyclic {S} (s : S) l p :
  NoDup l -> p ∈ l ->
  (exists q, q ∈ l /\ successor_of l (Some p) s = Ret (Some q) s /\
     predecessor_of l (Some q) s = Ret (Some p) s) /\
  (exists q, q ∈ l /\ predecessor_of l (Some p) s = Ret (Some q) s /\
     successor_of l (Some q) s = Ret (Some p) s).
Proof.
  intros Hnd Hin. apply list_elem_of_split in Hin as (l1 & l2 & ->).
  pose proof Hnd as (Hnd1 & Hdis & Hnd2)%NoDup_app.
  apply NoDup_cons in Hnd2 as [Hp2 Hnd2].
  assert (p ∉ l1) as Hp1 by (intros H; apply (Hdis p H); set_solver).
  split.
  - rewrite successor_split by done. destruct l2 as [|q l2].
    + destruct l1 as [|q l1].
      * exists p. simpl. split; [set_solver|]. split; [done|]. by apply (predecessor_split s [] p []).
      * exists q. split; [set_solver|]. split; [done|]. rewrite not_elem_of_cons in Hp1.
        apply NoDup_cons in Hnd1 as [Hq1 Hnd1].
        change ((q :: l1) ++ [p]) with ([] ++ q :: (l1 ++ [p])).
        rewrite predecessor_split; [|set_solver|set_solver].
        by rewrite last_cons, last_snoc.
    + exists q. split; [set_solver|]. split; [done|].
      replace (l1 ++ p :: q :: l2) with ((l1 ++ [p]) ++ q :: l2) by by rewrite <- app_assoc.
      apply NoDup_cons in Hnd2 as [Hq2 Hnd2].
      rewrite predecessor_split; [by rewrite last_snoc| |done].
      intros [Hq|Hq%list_elem_of_singleton]%elem_of_app; [|set_solver].
      apply (Hdis q Hq). set_solver.
  - rewrite predecessor_split by done. destruct l1 as [|q l1 _] using rev_ind.
    + destruct l2 as [|q l2 _] using rev_ind.
      * exists p. split; [set_solver|]. split; [done|]. by apply (successor_split s [] p []).
      * exists q. split; [set_solver|].
        split; [by rewrite last_cons, last_snoc|].
        apply NoDup_app in Hnd2 as (_ & Hdq & _).
        replace ([] ++ p :: l2 ++ [q]) with ((p :: l2) ++ q :: []) by done.
        rewrite successor_split; [done|]. set_solver.
    + exists q. split; [set_solver|]. split; [by rewrite last_snoc|].
      rewrite <- app_assoc. simpl.
      rewrite successor_split; [done|]. apply NoDup_app in Hnd1 as (_ & Hdq & _). set_solver.
Qed.

(** For a session that is not registered [successor_of] throws
    [std::logic_error], but [predecessor_of] does so only when no session is
    registered at all; otherwise it returns the session registered last. *)
Theorem unregistered_neighbours {S} (s : S) l p :
  p ∉ l ->
  successor_of l (Some p) s = Throw (logic_error "Invalid session") s /\
  predecessor_of l (Some p) s =
    match last l with
    | None => Throw (logic_error "Invalid session") s
    | Some q => Ret (Some q) s
    end.
Proof.
  intros Hn. unfold successor_of, predecessor_of.
  rewrite successor_before, predecessor_before by done. split; [done|]. by destruct (last l).
Qed.
End FocusSequence.

Lemma focus_order_cyclic_witness :
  (exists q, q ∈ [4; 7; 9]%nat /\ successor_of [4; 7; 9]%nat (Some 9%nat) tt = Ret (Some q) tt /\
     predecessor_of [4; 7; 9]%nat (Some q) tt = Ret (Some 9%nat) tt) /\
  (exists q, q ∈ [4; 7; 9]%nat /\ predecessor_of [4; 7; 9]%nat (Some 9%nat) tt = Ret (Some q) tt /\
     successor_of [4; 7; 9]%nat (Some q) tt = Ret (Some 9%nat) tt).
Proof.
  apply (focus_order_cyclic tt [4; 7; 9]%nat 9%nat).
  - apply (bool_decide_unpack _). reflexivity.
  - apply (bool_decide_unpack _). reflexivity.
Defined.

Lemma unregistered_neighbours_witness :
  successor_of [4; 7]%nat (Some 9%nat) tt = Throw (logic_error "Invalid session") tt /\
  predecessor_of [4; 7]%nat (Some 9%nat) tt = Ret (Some 7%nat) tt.
Proof.
  apply (unregistered_neighbours tt [4; 7]%nat 9%nat). apply (bool_decide_unpack _). reflexivity.
Defined.

(** ** The invariant of the shell *)

Record shell_ok {A I} (sh : Shell A I) : Prop := {
  so_stack : stack_ok none_held (sh_stack sh);
  so_nodup : NoDup (apps sh);
  so_live : forall p, p ∈ apps sh -> is_Some (sh_sessions sh !! p);
  so_fresh : forall p, is_Some (sh_sessions sh !! p) -> (p < sh_next sh)%nat;
  so_known : forall p s q, sh_sessions sh !! p = Some s -> q ∈ ptrs s ->
    (q < next_address (sh_stack sh))%nat;
  so_disjoint : forall p p' s s' q, sh_sessions sh !! p = Some s -> sh_sessions sh !! p' = Some s' ->
    q ∈ ptrs s -> q ∈ ptrs s' -> p = p';
  so_focus : match focus_application sh with Some p => p ∈ apps sh | None => apps sh = [] end;
  so_owned : forall q, is_Some (surface_heap (sh_stack sh) !! q) -> exists p s, sh_sessions sh !! p = Some s /\ q ∈ ptrs s;
}.

(** An identifier tags one session, a session has one tag, and only registered
    sessions are tagged. *)
Definition tags_ok {A I} (sh : Shell A I) : Prop :=
  NoDup (fst <$> tags sh) /\ NoDup (snd <$> tags sh) /\ forall v, v ∈ tags sh -> v.2 ∈ apps sh.

(** Exactly the surfaces of the focused session are visible, among those of
    the registered sessions. *)
Definition single_visible {A I} (sh : Shell A I) : Prop :=
  forall p s q x, p ∈ apps sh -> sh_sessions sh !! p = Some s -> q ∈ ptrs s ->
    surface_heap (sh_stack sh) !! q = Some x ->
    is_hidden x = bool_decide (focus_application sh <> Some p).

(** A surface that is visible belongs to the focused session, or to one that has been
    closed and is still referred to. *)
Definition visible_owned {A I} (sh : Shell A I) : Prop :=
  forall q x, surface_heap (sh_stack sh) !! q = Some x -> is_hidden x = false ->
    exists p s, sh_sessions sh !! p = Some s /\ q ∈ ptrs s /\ (focus_application sh = Some p \/ p ∉ apps sh).

Lemma visible_surfaces {A I} (sh : Shell A I) : shell_ok sh -> single_visible sh -> visible_owned sh.
Proof.
  intros Hok Hv q x Hx Hh. destruct (so_owned _ Hok q) as (p & s & Hs & Hq); [eauto|]. exists p, s. do 2 (split; [done|]).
  destruct (decide (p ∈ apps sh)) as [Hin|]; [left|by right]. rewrite (Hv p s q x Hin Hs Hq Hx) in Hh.
  apply bool_decide_eq_false in Hh. by apply dec_stable.
Qed.

Section ShellLemmas.
Context {A I : Type} `{AllocatorLaws A} `{InputChannelLaws I}.
Implicit Types (sh : Shell A I) (p : session_ptr).

(** [sh'] differs from [sh] only in the stack's surfaces' contents and the
    input focus calls. *)
Record only_surfaces (sh sh' : Shell A I) : Prop := {
  os_sessions : sh_sessions sh' = sh_sessions sh;
  os_next : sh_next sh' = sh_next sh;
  os_apps : apps sh' = apps sh;
  os_focus : focus_application sh' = focus_application sh;
  os_tags : tags sh' = tags sh;
  os_area : sh_area sh' = sh_area sh;
  os_addr : next_address (sh_stack sh') = next_address (sh_stack sh);
}.

Lemma only_surfaces_refl sh : only_surfaces sh sh.
Proof. by split. Qed.

Lemma only_surfaces_trans sh1 sh2 sh3 :
  only_surfaces sh1 sh2 -> only_surfaces sh2 sh3 -> only_surfaces sh1 sh3.
Proof. intros [] []. split; congruence. Qed.

(** One session shown or hidden. *)
Lemma focus_visit_spec f p s sh :
  stack_ok none_held (sh_stack sh) -> sh_sessions sh !! p = Some s ->
  exists sh', focus_visit f p sh = Ret tt sh' /\ only_surfaces sh sh' /\
    stack_ok none_held (sh_stack sh') /\
    (forall q, surface_heap (sh_stack sh') !! q =
       if decide (q ∈ ptrs s) then with_hidden (bool_decide (f <> Some p)) <$> surface_heap (sh_stack sh) !! q
       else surface_heap (sh_stack sh) !! q).
Proof.
  intros Hok Hp. unfold focus_visit.
  assert (forall b, exists sh', with_session p
      (for_surfaces (fun x => if_locked x (fun q => set_hidden q b))) sh = Ret tt sh' /\
    only_surfaces sh sh' /\ stack_ok none_held (sh_stack sh') /\
    (forall q, surface_heap (sh_stack sh') !! q =
       if decide (q ∈ ptrs s) then with_hidden b <$> surface_heap (sh_stack sh) !! q
       else surface_heap (sh_stack sh) !! q)) as Hset.
  { intros b. unfold with_session. rewrite Hp.
    destruct (session_hidden_spec b (mkEnv s (sh_stack sh) (sh_input sh) (sh_area sh)) Hok)
      as (e' & -> & Har & Hse & Hok' & Hn & Hh). simpl in *.
    eexists. split; [reflexivity|]. split; [|done].
    split; simpl; try done. rewrite Hse. by apply insert_id. }
  destruct (decide (Some p = f)) as [<-|Hne].
  - destruct (Hset false) as (sh1 & H1' & Hos & Hok1 & Hh).
    rewrite bool_decide_false by (intros Hn; by apply Hn).
    unfold mbind, M_bind. unfold session_show, ss_show. rewrite H1'.
    unfold deref. rewrite (os_sessions _ _ Hos), Hp.
    eexists. split; [reflexivity|]. split; [|done]. by destruct Hos; split.
  - rewrite bool_decide_true by congruence. apply (Hset true).
Qed.

Lemma focus_loop_spec f l sh :
  stack_ok none_held (sh_stack sh) -> NoDup l ->
  (forall p, p ∈ l -> is_Some (sh_sessions sh !! p)) ->
  (forall p p' s s' q, sh_sessions sh !! p = Some s -> sh_sessions sh !! p' = Some s' ->
    q ∈ ptrs s -> q ∈ ptrs s' -> p = p') ->
  exists sh', for_each l (focus_visit f) sh = Ret tt sh' /\ only_surfaces sh sh' /\
    stack_ok none_held (sh_stack sh') /\
    (forall q, is_Some (surface_heap (sh_stack sh') !! q) <-> is_Some (surface_heap (sh_stack sh) !! q)) /\
    (forall q, (forall p s, p ∈ l -> sh_sessions sh !! p = Some s -> q ∉ ptrs s) ->
       surface_heap (sh_stack sh') !! q = surface_heap (sh_stack sh) !! q) /\
    (forall p s q, p ∈ l -> sh_sessions sh !! p = Some s -> q ∈ ptrs s ->
       surface_heap (sh_stack sh') !! q =
         with_hidden (bool_decide (f <> Some p)) <$> surface_heap (sh_stack sh) !! q).
Proof.
  revert sh. induction l as [|p l IH]; intros sh Hok Hnd Hl Hdis.
  { exists sh. split; [done|]. split; [apply only_surfaces_refl|]. do 3 (split; [done|]).
    intros p s q Hp. by apply not_elem_of_nil in Hp. }
  apply NoDup_cons in Hnd as [Hn Hnd].
  destruct (Hl p) as [s Hp]; [set_solver|].
  destruct (focus_visit_spec f p s sh Hok Hp) as (sh1 & H1' & Hos1 & Hok1 & Hh1).
  destruct (IH sh1) as (sh2 & H2' & Hos2 & Hok2 & Hd2 & Ho2 & Hv2);
    [done|done|rewrite (os_sessions _ _ Hos1); set_solver|by rewrite (os_sessions _ _ Hos1)|].
  rewrite (os_sessions _ _ Hos1) in Ho2, Hv2.
  exists sh2. cbn [for_each]. unfold mbind, M_bind. rewrite H1'.
  split; [done|]. split; [by eapply only_surfaces_trans|]. split; [done|]. split; [|split].
  - intros q. rewrite Hd2, Hh1. destruct (decide (q ∈ ptrs s)); [by rewrite fmap_is_Some|done].
  - intros q Hq. rewrite Ho2 by (intros p' s' Hp'; apply Hq; set_solver). rewrite Hh1.
    rewrite decide_False; [done|]. apply (Hq p s); [set_solver|done].
  - intros p' s' q [->|Hp']%elem_of_cons Hs' Hq.
    + rewrite Hp in Hs'. injection Hs' as <-. rewrite Ho2.
      * by rewrite Hh1, decide_True by done.
      * intros p' s' Hin Hs' Hq'. assert (p' = p) as -> by by eapply Hdis. done.
    + rewrite (Hv2 p' s' q Hp' Hs' Hq), Hh1. rewrite decide_False; [done|].
      intros Hq'. assert (p' = p) as -> by by eapply Hdis. done.
Qed.

(** [set_focus_to] a registered session, or null when there is none. *)
Lemma set_focus_to_spec f sh :
  shell_ok (set_focus_application f sh) ->
  exists sh', set_focus_to f sh = Ret tt sh' /\ shell_ok sh' /\ single_visible sh' /\
    only_surfaces (set_focus_application f sh) sh' /\
    (forall q, is_Some (surface_heap (sh_stack sh') !! q) <-> is_Some (surface_heap (sh_stack sh) !! q)).
Proof.
  intros Hok. destruct Hok as [H1' H2' H3' H4' H5' H6' H7' H8'].
  destruct (focus_loop_spec f (apps sh) (set_focus_application f sh) H1' H2' H3' H6')
    as (sh' & Hrun & Hos & Hok & Hd & _ & Hv).
  exists sh'. split; [unfold set_focus_to, mechanism_set_focus_to, container_for_each; exact Hrun|].
  pose proof Hos as [Es En Ea Ef Et _ Ead].
  split; [split; rewrite ?Es, ?En, ?Ea, ?Ef, ?Et, ?Ead; try done; intros q Hq; by apply H8', Hd|].
  split; [|split; [done|]].
  - intros p s q x Hp Hs Hq Hx. rewrite Ea in Hp. rewrite Es in Hs. rewrite Ef.
    rewrite (Hv p s q Hp Hs Hq) in Hx. apply fmap_Some in Hx as (x' & _ & ->). done.
  - exact Hd.
Qed.

Definition shell_inv (sh : Shell A I) : Prop := shell_ok sh /\ single_visible sh /\ tags_ok sh.

Lemma shell_inv_new i area (st : SurfaceStack A) :
  stack_ok none_held st -> surface_heap st = ∅ -> shell_inv (Shell_new st i area).
Proof.
  intros Hok He. split.
  - split; simpl; [done|constructor|..|done|rewrite He; intros q; rewrite lookup_empty; by intros []].
    + intros p Hp. by apply not_elem_of_nil in Hp.
    + intros p. rewrite lookup_empty. by intros [].
    + intros p s q Hp. by rewrite lookup_empty in Hp.
    + intros p p' s s' q Hp. by rewrite lookup_empty in Hp.
  - split; [intros p s q x Hp; by apply not_elem_of_nil in Hp|].
    split; [constructor|]. split; [constructor|]. intros v Hv. by apply not_elem_of_nil in Hv.
Qed.

(** A change of one session's surfaces that shows and hides nothing. *)
Definition quiet (e e' : session_env A I) : Prop :=
  stack_ok none_held (env_stack e') /\ next_address (env_stack e') = next_address (env_stack e) /\
  ptrs (env_session e') ⊆ ptrs (env_session e) /\
  (forall q, is_Some (surface_heap (env_stack e') !! q) -> q ∈ ptrs (env_session e) -> q ∈ ptrs (env_session e')) /\
  forall q x', surface_heap (env_stack e') !! q = Some x' ->
    exists x, surface_heap (env_stack e) !! q = Some x /\ is_hidden x' = is_hidden x.

Lemma quiet_put p s e' sh :
  shell_inv sh -> sh_sessions sh !! p = Some s ->
  quiet (mkEnv s (sh_stack sh) (sh_input sh) (sh_area sh)) e' ->
  shell_inv (mkShell (env_stack e') (env_input e') (sh_area sh)
    (<[p := env_session e']> (sh_sessions sh)) (sh_next sh) (apps sh)
    (focus_application sh) (tags sh) (input_focus sh)).
Proof.
  intros ([H1' H2' H3' H4' H5' H6' H7' H8'] & Hv & Htags) Hp (Hok & Hn & Hsub & Hkeep & Hheap). simpl in *.
  assert (forall p' s', <[p := env_session e']> (sh_sessions sh) !! p' = Some s' ->
    exists s0, sh_sessions sh !! p' = Some s0 /\ ptrs s' ⊆ ptrs s0) as Hback.
  { intros p' s'. destruct (decide (p' = p)) as [->|Hne].
    - rewrite lookup_insert_eq. intros [= <-]. eauto.
    - rewrite lookup_insert_ne by congruence. eauto. }
  assert (forall p', is_Some (<[p := env_session e']> (sh_sessions sh) !! p') <->
    is_Some (sh_sessions sh !! p')) as Hdom.
  { intros p'. destruct (decide (p' = p)) as [->|Hne].
    - rewrite lookup_insert_eq, Hp. split; eauto.
    - by rewrite lookup_insert_ne by congruence. }
  split.
  - split; simpl; try done.
    + intros p' Hp'. by apply Hdom, H3'.
    + intros p' Hp'. by apply H4', Hdom.
    + intros p' s' q Hs' Hq. apply Hback in Hs' as (s0 & Hs0 & Hs'). rewrite Hn. eauto.
    + intros p1 p2 s1 s2 q Hs1 Hs2 Hq1 Hq2.
      apply Hback in Hs1 as (s1' & ? & ?), Hs2 as (s2' & ? & ?). eapply H6'; eauto.
    + intros q Hq. destruct (H8' q) as (p' & s' & Hs' & Hq').
      { destruct Hq as [x' Hx']. destruct (Hheap q x' Hx') as (x & Hx & _). eauto. }
      destruct (decide (p' = p)) as [->|Hne].
      * exists p, (env_session e'). rewrite lookup_insert_eq. split; [done|]. apply Hkeep; [done|]. congruence.
      * exists p', s'. by rewrite lookup_insert_ne by congruence.
  - split; [|done]. intros p' s' q x' Hin Hs' Hq Hx. simpl in *. apply Hback in Hs' as (s0 & Hs0 & Hsub').
    apply Hheap in Hx as (x & Hx & ->). eapply Hv; eauto.
Qed.

Lemma with_session_quiet {B} p s (m : M (session_env A I) B) sh :
  shell_inv sh -> sh_sessions sh !! p = Some s ->
  wp m (fun _ => quiet (mkEnv s (sh_stack sh) (sh_input sh) (sh_area sh)))
    (fun _ => quiet (mkEnv s (sh_stack sh) (sh_input sh) (sh_area sh)))
    (quiet (mkEnv s (sh_stack sh) (sh_input sh) (sh_area sh)))
    (mkEnv s (sh_stack sh) (sh_input sh) (sh_area sh)) ->
  wp (with_session p m) (fun _ => shell_inv) (fun _ => shell_inv) shell_inv sh.
Proof.
  intros Hinv Hp Hm. unfold wp, with_session in *. rewrite Hp.
  destruct (m _); try done; by eapply quiet_put.
Qed.

Lemma quiet_refl (e : session_env A I) : stack_ok none_held (env_stack e) -> quiet e e.
Proof. intros Hok. split; [done|]. split; [done|]. split; [done|]. split; [done|]. eauto. Qed.

(** The surface operations a client may ask for. *)
Lemma destroy_quiet id (e : session_env A I) :
  stack_ok none_held (env_stack e) ->
  wp (session_destroy_surface id) (fun _ => quiet e) (fun _ => quiet e) (quiet e) e.
Proof.
  intros Hok. unfold wp. destruct (OrdMap.find id (session_surfaces (env_session e))) as [x|] eqn:Hf.
  - destruct (session_destroy_spec id x e Hok Hf) as (e' & -> & _ & Hse & Hok' & Hn & Hh).
    split; [done|]. split; [done|]. split.
    + rewrite Hse. unfold ptrs. simpl. intros q Hq.
      apply list_elem_of_fmap in Hq as (v & -> & Hv). apply list_elem_of_fmap. exists v.
      split; [done|]. by eapply erase_subset.
    + split.
      { intros q [y Hy] Hq. rewrite Hh in Hy. apply lookup_delete_Some in Hy as [Hne _]. rewrite Hse.
        apply list_elem_of_fmap in Hq as (v & -> & Hv). apply list_elem_of_fmap. exists v. split; [done|].
        destruct (erase_keeps _ id _ Hv) as [Hv'|Hv']; [exact Hv'|]. rewrite Hf in Hv'. by injection Hv' as ->. }
      intros q x' Hx. rewrite Hh in Hx. apply lookup_delete_Some in Hx as [_ Hx]. eauto.
  - unfold session_destroy_surface, mbind, M_bind, checked_find. rewrite Hf. by apply quiet_refl.
Qed.

Lemma configure_quiet id attrib value (e : session_env A I) :
  stack_ok none_held (env_stack e) ->
  wp (configure_surface id attrib value) (fun _ => quiet e) (fun _ => quiet e) (quiet e) e.
Proof.
  intros Hok. unfold wp, configure_surface, mbind, M_bind, checked_find.
  destruct (OrdMap.find id _) as [x|] eqn:Hf; [|by apply quiet_refl].
  unfold configure, set_type.
  destruct (attrib =? mir_surface_attrib_type); [|by apply quiet_refl].
  destruct ((0 <=? value) && (value <? mir_surface_type_arraysize_)); [|by apply quiet_refl].
  simpl. split; [done|]. split; [done|]. split; [|split; [|eauto]].
  2:{ intros q _ Hq. apply list_elem_of_fmap in Hq as (v & -> & Hv). unfold ptrs. simpl.
      destruct (insert_keeps _ id (mkShellSurface (input_channel x) (surface x) value) _ Hv) as [Hv'|Hv'].
      - apply list_elem_of_fmap. by exists v.
      - rewrite Hf in Hv'. injection Hv' as ->. apply list_elem_of_fmap. eexists (id, _). split; [|apply insert_new]. done. }
  unfold ptrs. simpl. intros q Hq. apply list_elem_of_fmap in Hq as ([id' v] & -> & Hv).
  apply insert_elem in Hv as [[-> ->]|Hv].
  - simpl. by apply (find_ptrs (env_session e) id).
  - apply list_elem_of_fmap. by exists (id', v).
Qed.

(** [get_surface] followed by [advance_client_buffer], as the frontend calls
    them. *)
Definition advance_surface (id : Z) : M (session_env A I) unit :=
  x ← get_surface id ; zoom env_stack_lens (ss_advance_client_buffer x).

Lemma advance_quiet id (e : session_env A I) :
  stack_ok none_held (env_stack e) ->
  wp (advance_surface id) (fun _ => quiet e) (fun _ => quiet e) (quiet e) e.
Proof.
  intros Hok. unfold wp, advance_surface, mbind, M_bind, get_surface, checked_find.
  destruct (OrdMap.find id _) as [x|] eqn:Hf; [|by apply quiet_refl].
  unfold zoom, ss_advance_client_buffer, if_locked, lock_surface. cbn [view env_stack_lens].
  destruct (surface_heap (env_stack e) !! surface x) as [s|] eqn:Hp.
  2: { destruct e. by apply quiet_refl. }
  assert (forall s', is_hidden s' = is_hidden s -> forall q x',
    <[surface x := s']> (surface_heap (env_stack e)) !! q = Some x' ->
    exists x0, surface_heap (env_stack e) !! q = Some x0 /\ is_hidden x' = is_hidden x0) as Hkeep.
  { intros s' Hs' q x'. destruct (decide (q = surface x)) as [->|Hne].
    - rewrite lookup_insert_eq. intros [= <-]. eauto.
    - rewrite lookup_insert_ne by congruence. eauto. }
  pose proof (advance_client_buffer_spec none_held (env_stack e) (surface x) s Hok Hp) as Ha.
  pose proof (stack_ok_update none_held (env_stack e) (surface x) s) as Hupd.
  destruct (advance_client_buffer (surface x) (env_stack e)) as [u st'| |st'|]; [|done| |done].
  - destruct Ha as (t & w & Ht & Hw & _ & _ & ->).
    split; [|split; [done|]; split; [done|]; split; [done|]; by apply Hkeep].
    eapply stack_ok_ext; [..|apply (Hupd (with_resource (Some t) (with_swapper w s)) Hok Hp)];
      try done. split; [done|]. by intros t' [= <-].
  - destruct Ha as (w & _ & Hw & _ & ->).
    split; [|split; [done|]; split; [done|]; split; [done|]; by apply Hkeep].
    apply (Hupd (with_resource None (with_swapper w s)) Hok Hp). by split.
Qed.

Definition quiet_stack (st st' : SurfaceStack A) : Prop :=
  stack_ok none_held st' /\ next_address st' = next_address st /\
  forall q x', surface_heap st' !! q = Some x' ->
    exists x, surface_heap st !! q = Some x /\ is_hidden x' = is_hidden x.

Lemma shutdown_quiet_one x (st : SurfaceStack A) :
  stack_ok none_held st -> exists st', ss_shutdown x st = Ret tt st' /\ quiet_stack st st'.
Proof.
  intros Hok. unfold ss_shutdown, if_locked, lock_surface.
  destruct (surface_heap st !! surface x) as [s|] eqn:Hp.
  2: { exists st. split; [done|]. split; [done|]. eauto. }
  unfold surface_shutdown, on_swapper, lock_surface. rewrite Hp.
  destruct (st_surfaces _ _ Hok _ s Hp) as [Hsw Ht].
  destruct (bundle_shutdown_ok _ _ _ Hsw) as (w & -> & Hw & _).
  { simpl. destruct (inv_size _ Hsw) as [E|E]; simpl in E; rewrite E;
      unfold client_ids; destruct (client_buffer_resource s); simpl; lia. }
  eexists. split; [reflexivity|]. split; [eapply stack_ok_update; [done|done|by split]|].
  split; [done|]. intros q x'. simpl. destruct (decide (q = surface x)) as [->|Hne].
  - rewrite lookup_insert_eq. intros [= <-]. eauto.
  - rewrite lookup_insert_ne by congruence. eauto.
Qed.

Lemma shutdown_quiet (e : session_env A I) :
  stack_ok none_held (env_stack e) -> exists e', session_shutdown e = Ret tt e' /\ quiet e e'.
Proof.
  intros Hok. unfold session_shutdown, for_surfaces, mbind, M_bind, gets, zoom.
  cbn [view env_stack_lens].
  assert (forall xs st, stack_ok none_held st -> exists st',
    for_each xs ss_shutdown st = Ret tt st' /\ quiet_stack st st') as Hall.
  { induction xs as [|x xs IH]; intros st Hst.
    - exists st. split; [done|]. split; [done|]. eauto.
    - destruct (shutdown_quiet_one x st Hst) as (st1 & H1' & Hok1 & Hn1 & Hh1).
      destruct (IH st1 Hok1) as (st2 & H2' & Hok2 & Hn2 & Hh2).
      exists st2. cbn [for_each]. unfold mbind, M_bind. rewrite H1'. split; [done|].
      split; [done|]. split; [congruence|]. intros q x' Hx.
      apply Hh2 in Hx as (x1 & Hx1 & ->). by apply Hh1. }
  destruct (Hall (map snd (session_surfaces (env_session e))) (env_stack e) Hok)
    as (st' & -> & Hok' & Hn & Hh).
  eexists. split; [reflexivity|]. split; [done|]. split; [done|]. split; [done|]. split; [done|]. exact Hh.
Qed.

(** Opening a session. *)
Lemma open_session_spec name sh :
  shell_inv sh ->
  exists sh', open_session name sh = Ret (sh_next sh) sh' /\ shell_inv sh' /\
    apps sh' = apps sh ++ [sh_next sh] /\ focus_application sh' = Some (sh_next sh) /\
    sh_sessions sh' = <[sh_next sh := ApplicationSession_new name]> (sh_sessions sh) /\
    tags sh' = tags sh.
Proof.
  intros ([H1' H2' H3' H4' H5' H6' H7' H9'] & Hv & H8').
  assert (sh_sessions sh !! sh_next sh = None) as Hfree.
  { destruct (sh_sessions sh !! sh_next sh) eqn:E; [|done].
    exfalso. assert (sh_next sh < sh_next sh)%nat; [apply H4'; eauto|lia]. }
  set (sh1 := mkShell (sh_stack sh) (sh_input sh) (sh_area sh)
    (<[sh_next sh := ApplicationSession_new name]> (sh_sessions sh)) (S (sh_next sh))
    (apps sh ++ [sh_next sh]) (focus_application sh) (tags sh) (input_focus sh)).
  assert (forall p s q, sh_sessions sh1 !! p = Some s -> q ∈ ptrs s ->
    p <> sh_next sh /\ sh_sessions sh !! p = Some s) as Hold.
  { intros p s q. simpl. destruct (decide (p = sh_next sh)) as [->|Hne].
    - rewrite lookup_insert_eq. intros [= <-] Hq. by apply not_elem_of_nil in Hq.
    - by rewrite lookup_insert_ne by congruence. }
  destruct (set_focus_to_spec (Some (sh_next sh)) sh1) as (sh2 & Hrun & Hok2 & Hv2 & Hos & _).
  { split; simpl; [done|..].
    - apply NoDup_app. split; [done|]. split; [|apply NoDup_singleton].
      intros p Hp ->%list_elem_of_singleton. apply H3' in Hp as [? Hp]. congruence.
    - intros p [Hp| ->%list_elem_of_singleton]%elem_of_app; [|rewrite lookup_insert_eq; eauto].
      destruct (decide (p = sh_next sh)) as [->|]; [rewrite lookup_insert_eq; eauto|].
      rewrite lookup_insert_ne by congruence. auto.
    - intros p. destruct (decide (p = sh_next sh)) as [->|]; [lia|].
      rewrite lookup_insert_ne by congruence. intros Hp. apply H4' in Hp. lia.
    - intros p s q Hs Hq. destruct (Hold p s q Hs Hq) as [_ Hs']. eauto.
    - intros p p' s s' q Hs Hs' Hq Hq'. destruct (Hold _ _ _ Hs Hq), (Hold _ _ _ Hs' Hq'). eauto.
    - set_solver.
    - intros q Hq. destruct (H9' q Hq) as (p & s & Hs & Hq'). exists p, s. split; [|done]. rewrite lookup_insert_ne; [done|congruence]. }
  exists sh2. unfold open_session, new_session, insert_session, mbind, M_bind, modify.
  unfold set_focus_to, mbind, M_bind, modify in Hrun.
  cbn [apps set_apps sh_stack sh_input sh_area sh_sessions sh_next focus_application tags input_focus].
  fold sh1. unfold set_apps. cbn [apps sh_stack sh_input sh_area sh_sessions sh_next focus_application tags input_focus].
  fold sh1. rewrite Hrun. destruct Hos as [Es En Ea Ef Et _ _]. split; [done|].
  split; [|split; [by rewrite Ea|]; split; [by rewrite Ef|]; split; [by rewrite Es|by rewrite Et]].
  split; [done|]. split; [done|]. unfold tags_ok. rewrite Ea, Et. destruct H8' as (? & ? & Ht).
  do 2 (split; [done|]). intros v Hin. apply Ht in Hin. simpl. set_solver.
Qed.

(** Moving the focus to a registered session. *)
Lemma refocus_ok p sh : shell_ok sh -> p ∈ apps sh -> shell_ok (set_focus_application (Some p) sh).
Proof. intros [] Hp. by split. Qed.

Lemma refocus_spec p sh :
  shell_inv sh -> p ∈ apps sh ->
  exists sh', set_focus_to (Some p) sh = Ret tt sh' /\ shell_inv sh' /\
    focus_application sh' = Some p /\ apps sh' = apps sh /\ tags sh' = tags sh /\
    sh_sessions sh' = sh_sessions sh.
Proof.
  intros (Hok & _ & Htags) Hp. destruct (set_focus_to_spec (Some p) sh (refocus_ok p sh Hok Hp))
    as (sh' & Hrun & Hok' & Hv & Hos & _). exists sh'.
  destruct Hos as [Es En Ea Ef Et _ _]. simpl in *. split; [done|].
  split; [|by rewrite Ef, Ea, Et, Es].
  split; [done|]. split; [done|]. unfold tags_ok. by rewrite Et, Ea.
Qed.

Lemma last_elem (l : list session_ptr) p : last l = Some p -> p ∈ l.
Proof. intros Hl. apply last_Some in Hl as [l' ->]. set_solver. Qed.

Lemma close_session_spec p sh :
  shell_inv sh -> p ∈ apps sh ->
  exists sh', close_session p sh = Ret tt sh' /\ shell_inv sh' /\
    apps sh' = remove1 p (apps sh) /\ focus_application sh' = last (remove1 p (apps sh)) /\
    tags sh' = filter (fun v => v.2 <> p) (tags sh) /\ sh_sessions sh' = sh_sessions sh /\
    (forall q, is_Some (surface_heap (sh_stack sh') !! q) <-> is_Some (surface_heap (sh_stack sh) !! q)).
Proof.
  intros ([H1' H2' H3' H4' H5' H6' H7' H8'] & Hv & Ht1 & Ht2 & Ht3) Hp.
  destruct (set_focus_to_spec (default_focus (remove1 p (apps sh))) (set_apps (remove1 p (apps sh)) sh))
    as (sh2 & Hrun & Hok2 & Hv2 & Hos & Hd).
  { split; simpl; try done.
    - by apply remove1_NoDup.
    - intros q [Hq _]%remove1_elem_of; auto.
    - rewrite default_focus_last. destruct (last (remove1 p (apps sh))) as [q|] eqn:El.
      + by apply last_elem.
      + by apply last_None. }
  destruct Hos as [Es En Ea Ef Et _ _]. simpl in *.
  exists (set_tags (filter (fun v => v.2 <> p) (tags sh2)) sh2).
  split.
  { unfold close_session, mbind, M_bind, remove_session. rewrite decide_True by done.
    unfold gets. cbn [apps set_apps]. rewrite Hrun. done. }
  rewrite Et. split; [|simpl; by rewrite Ea, Ef, Es, default_focus_last].
  split; [by destruct Hok2; split|]. split; [exact Hv2|]. split; [|split]; simpl.
  - eapply sublist_NoDup; [exact Ht1|]. apply fmap_sublist, sublist_filter.
  - eapply sublist_NoDup; [exact Ht2|]. apply fmap_sublist, sublist_filter.
  - intros v [Hne Hin]%list_elem_of_filter. rewrite Ea. apply remove1_elem_of; auto.
Qed.

Lemma ptrs_insert s nm n id x q :
  q ∈ ptrs (mkSession nm n (OrdMap.insert id x (session_surfaces s))) -> q = surface x \/ q ∈ ptrs s.
Proof.
  unfold ptrs. simpl. intros Hq. apply list_elem_of_fmap in Hq as ([id' v] & -> & Hv).
  apply insert_elem in Hv as [[-> ->]|Hv]; [by left|].
  right. apply list_elem_of_fmap. by exists (id', v).
Qed.

(** A new surface enters a session, visible. *)
Lemma create_put_ok p s (e' : session_env A I) x nm n id (sh : Shell A I) :
  shell_ok sh -> sh_sessions sh !! p = Some s ->
  surface x = next_address (sh_stack sh) ->
  env_session e' = mkSession nm n (OrdMap.insert id x (session_surfaces s)) ->
  stack_ok none_held (env_stack e') ->
  next_address (env_stack e') = S (next_address (sh_stack sh)) ->
  (forall q, is_Some (surface_heap (env_stack e') !! q) -> q = surface x \/
     (is_Some (surface_heap (sh_stack sh) !! q) /\ surface <$> OrdMap.find id (session_surfaces s) <> Some q)) ->
  shell_ok (mkShell (env_stack e') (env_input e') (sh_area sh)
    (<[p := env_session e']> (sh_sessions sh)) (sh_next sh) (apps sh)
    (focus_application sh) (tags sh) (input_focus sh)).
Proof.
  intros [H1' H2' H3' H4' H5' H6' H7' H8'] Hp Hx Hse Hok Hn Hheap.
  assert (forall p' s' q, <[p := env_session e']> (sh_sessions sh) !! p' = Some s' -> q ∈ ptrs s' ->
    (p' = p /\ q = next_address (sh_stack sh)) \/
    exists s0, sh_sessions sh !! p' = Some s0 /\ q ∈ ptrs s0) as Hback.
  { intros p' s' q. destruct (decide (p' = p)) as [->|Hne].
    - rewrite lookup_insert_eq, Hse. intros [= <-] [->|Hq]%ptrs_insert; [by left|]. right. eauto.
    - rewrite lookup_insert_ne by congruence. eauto. }
  assert (forall p', is_Some (<[p := env_session e']> (sh_sessions sh) !! p') <->
    is_Some (sh_sessions sh !! p')) as Hdom.
  { intros p'. destruct (decide (p' = p)) as [->|Hne].
    - rewrite lookup_insert_eq, Hp. split; eauto.
    - by rewrite lookup_insert_ne by congruence. }
  split; simpl; try done.
  - intros p' Hp'. by apply Hdom, H3'.
  - intros p' Hp'. by apply H4', Hdom.
  - intros p' s' q Hs' Hq. rewrite Hn.
    destruct (Hback _ _ _ Hs' Hq) as [[_ ->]|(s0 & Hs0 & Hq0)]; [lia|].
    specialize (H5' _ _ _ Hs0 Hq0). lia.
  - intros p1 p2 s1 s2 q Hs1 Hs2 Hq1 Hq2.
    destruct (Hback _ _ _ Hs1 Hq1) as [[-> ->]|(s1' & Hs1' & Hq1')];
      destruct (Hback _ _ _ Hs2 Hq2) as [[-> E2]|(s2' & Hs2' & Hq2')]; try done.
    + specialize (H5' _ _ _ Hs2' Hq2'). lia.
    + subst q. specialize (H5' _ _ _ Hs1' Hq1'). lia.
    + by eapply H6'.
  - intros q Hq. destruct (Hheap q Hq) as [->|[Hq0 Hne]].
    { exists p, (env_session e'). rewrite lookup_insert_eq, Hse. split; [done|]. apply list_elem_of_fmap. by exists (id, x); split; [|apply insert_new]. }
    destruct (H8' q Hq0) as (p' & s' & Hs' & Hq'). destruct (decide (p' = p)) as [->|Hp'].
    + exists p, (env_session e'). rewrite lookup_insert_eq, Hse. split; [done|]. rewrite Hp in Hs'. injection Hs' as <-.
      apply list_elem_of_fmap in Hq' as (v & -> & Hv). apply list_elem_of_fmap. exists v. split; [done|].
      destruct (insert_keeps _ id x _ Hv) as [Hv'|Hv']; [exact Hv'|]. by rewrite Hv' in Hne.
    + exists p', s'. by rewrite lookup_insert_ne by congruence.
Qed.

Lemma create_surface_for_spec p params sh :
  shell_inv sh -> p ∈ apps sh ->
  wp (create_surface_for p params)
    (fun id sh' => shell_inv sh' /\ focus_application sh' = Some p /\ apps sh' = apps sh /\
       exists s x, sh_sessions sh' !! p = Some s /\ OrdMap.find id (session_surfaces s) = Some x /\
         surface x = next_address (sh_stack sh) /\
         (forall y, surface_heap (sh_stack sh') !! surface x = Some y -> is_hidden y = false))
    (fun _ sh' => shell_inv sh' /\ focus_application sh' = focus_application sh /\ apps sh' = apps sh)
    (fun _ => False) sh.
Proof.
  intros (Hok & Hv & Htags) Hp. destruct (so_live _ Hok p Hp) as [s Hs].
  unfold wp, create_surface_for, mbind, M_bind, with_session. rewrite Hs.
  pose proof (session_create_spec params (mkEnv s (sh_stack sh) (sh_input sh) (sh_area sh))
    (so_stack _ Hok)) as Hc.
  destruct (session_create_surface params _) as [id e'|x e'|e'|]; [..|done|done].
  - destruct Hc as (_ & _ & Hok' & Hn & x & y & Hx & Hy & Hse & Hheap). simpl in *.
    set (sh1 := mkShell _ _ _ _ _ _ _ _ _).
    assert (shell_ok sh1) as Hok1.
    { eapply create_put_ok; try done. intros q Hq. rewrite Hheap in Hq. case_decide; [by destruct Hq|].
      case_decide; [by left|by right]. }
    destruct (set_focus_to_spec (Some p) sh1 (refocus_ok p sh1 Hok1 Hp))
      as (sh2 & Hrun & Hok2 & Hv2 & Hos & _).
    rewrite Hrun. simpl. destruct Hos as [Es En Ea Ef Et _ _]. simpl in *.
    split; [split; [done|]; split; [done|]; unfold tags_ok; by rewrite Et, Ea|].
    split; [done|]. split; [done|].
    assert (sh_sessions sh2 !! p = Some (env_session e')) as Hs2 by by rewrite Es, lookup_insert_eq.
    exists (env_session e'), x. split; [done|]. rewrite Hse.
    split; [apply find_insert_eq|]. split; [done|].
    intros z Hz. rewrite (Hv2 p (env_session e') (surface x) z); [|by rewrite Ea|done| |done].
    + rewrite Ef. by apply bool_decide_false; intros Hnn; apply Hnn.
    + rewrite Hse. by eapply (find_ptrs _ id), find_insert_eq.
  - destruct Hc as (Hse & _ & Hok' & Hn & Hh). split; [|done].
    apply (quiet_put p s e' sh); [by split|done|]. split; [done|]. split; [done|].
    rewrite Hse. split; [done|]. split; [done|]. rewrite Hh. eauto.
Qed.

Lemma tag_session_spec p id sh :
  shell_inv sh -> p ∈ apps sh ->
  exists sh', tag_session_with_lightdm_id p id sh = Ret tt sh' /\ shell_inv sh' /\
    tags sh' = filter (fun v => ~ (v.1 = id \/ v.2 = p)) (tags sh) ++ [(id, p)] /\
    apps sh' = apps sh /\ focus_application sh' = focus_application sh.
Proof.
  intros (Hok & Hv & Ht1 & Ht2 & Ht3) Hp. eexists. split; [reflexivity|]. split; [|done].
  split; [by destruct Hok; split|]. split; [exact Hv|]. unfold tags_ok. simpl.
  rewrite !fmap_app. split; [|split].
  - apply NoDup_app. split.
    { eapply sublist_NoDup; [exact Ht1|]. apply fmap_sublist, sublist_filter. }
    split; [|apply NoDup_singleton]. intros k Hk ->%list_elem_of_singleton.
    apply list_elem_of_fmap in Hk as (v & Hv' & Hk). apply list_elem_of_filter in Hk as [Hk _].
    simpl in Hv'. naive_solver.
  - apply NoDup_app. split.
    { eapply sublist_NoDup; [exact Ht2|]. apply fmap_sublist, sublist_filter. }
    split; [|apply NoDup_singleton]. intros k Hk ->%list_elem_of_singleton.
    apply list_elem_of_fmap in Hk as (v & Hv' & Hk). apply list_elem_of_filter in Hk as [Hk _].
    simpl in Hv'. naive_solver.
  - intros v [[_ Hin]%list_elem_of_filter| ->%list_elem_of_singleton]%elem_of_app; auto.
Qed.

Lemma focus_id_spec id sh :
  shell_inv sh ->
  exists sh', focus_session_with_lightdm_id id sh = Ret tt sh' /\ shell_inv sh' /\
    apps sh' = apps sh /\ tags sh' = tags sh /\
    forall p, (id, p) ∈ tags sh -> focus_application sh' = Some p.
Proof.
  intros Hinv. pose proof Hinv as (_ & _ & Ht1 & _ & Ht3).
  unfold focus_session_with_lightdm_id, mbind, M_bind, gets.
  destruct (list_find (fun v => v.1 = id) (tags sh)) as [[i [id' p]]|] eqn:E.
  - apply list_find_Some in E as (Hl & Hid & _). simpl in Hid. subst id'.
    apply list_elem_of_lookup_2 in Hl.
    destruct (refocus_spec p sh Hinv (Ht3 _ Hl)) as (sh' & Hrun & Hinv' & Hf & Ha & Ht & _).
    exists sh'. do 4 (split; [done|]). intros p' Hp'. rewrite Hf. f_equal.
    apply list_elem_of_lookup_1 in Hl as [i1 Hi1], Hp' as [i2 Hi2].
    assert (i1 = i2) as <-.
    { eapply NoDup_lookup; [exact Ht1|..]; rewrite list_lookup_fmap, ?Hi1, ?Hi2; done. }
    congruence.
  - exists sh. do 4 (split; [done|]). intros p Hp.
    apply list_find_None in E. rewrite Forall_forall in E. by apply E in Hp.
Qed.

(** [focus_next] moves to the next index, cyclically. *)
Lemma focus_next_spec sh i p :
  shell_inv sh -> focus_application sh = Some p -> apps sh !! i = Some p ->
  exists sh' q, focus_next sh = Ret tt sh' /\ shell_inv sh' /\ apps sh' = apps sh /\
    focus_application sh' = Some q /\ apps sh !! (S i mod length (apps sh))%nat = Some q.
Proof.
  intros Hinv Hf Hi. pose proof Hinv as (Hok & _ & _).
  assert (p ∈ apps sh) as Hp by by eapply list_elem_of_lookup_2.
  destruct (so_live _ Hok p Hp) as [s Hs].
  assert (lock_focus sh = Some p) as Hlock by (unfold lock_focus; rewrite Hf; simpl; by rewrite Hs).
  pose proof (list_elem_of_split_length _ _ _ Hi) as (l1 & l2 & Hl & Hlen).
  assert (p ∉ l1) as Hn.
  { pose proof (so_nodup _ Hok) as Hnd. rewrite Hl in Hnd. apply NoDup_app in Hnd as (_ & Hd & _).
    intros Hin. apply (Hd p Hin). set_solver. }
  assert (exists q, q ∈ apps sh /\ successor_of (apps sh) (Some p) sh = Ret (Some q) sh /\
    apps sh !! (S i mod length (apps sh))%nat = Some q) as (q & Hq & Hsucc & Hidx).
  { rewrite Hl, successor_split by done. rewrite length_app. simpl. subst i.
    destruct l2 as [|q l2].
    - simpl length. replace (S (length l1) mod (length l1 + 1))%nat with 0%nat
        by (rewrite Nat.add_1_r, Nat.Div0.mod_same; done).
      destruct l1 as [|q l1]; [exists p|exists q]; (split; [set_solver|]; by split).
    - exists q. split; [set_solver|]. split; [done|].
      rewrite Nat.mod_small by (simpl; lia).
      rewrite lookup_app_r by lia. by replace (S (length l1) - length l1)%nat with 1%nat by lia. }
  destruct (refocus_spec q sh Hinv Hq) as (sh' & Hrun & Hinv' & Hf' & Ha & _).
  exists sh', q. split; [|done].
  unfold focus_next, mbind, M_bind, gets. rewrite Hlock, Hsucc. done.
Qed.

Lemma focus_next_ok sh :
  shell_inv sh -> exists sh', focus_next sh = Ret tt sh' /\ shell_inv sh'.
Proof.
  intros Hinv. pose proof Hinv as (Hok & Hv & Ht). pose proof (so_focus _ Hok) as Hf.
  destruct (focus_application sh) as [p|] eqn:E.
  - apply list_elem_of_lookup_1 in Hf as [i Hi].
    destruct (focus_next_spec sh i p Hinv E Hi) as (sh' & q & ? & ? & _). eauto.
  - destruct (set_focus_to_spec None sh) as (sh' & Hrun & Hok' & Hv' & Hos & _).
    { destruct Hok. split; simpl; try done. }
    exists sh'. split; [|split; [done|]; split; [done|];
      unfold tags_ok; by rewrite (os_tags _ _ Hos), (os_apps _ _ Hos)].
    unfold focus_next, mbind at 1, M_bind, gets. unfold lock_focus. rewrite E. simpl.
    unfold mbind, M_bind. rewrite Hf. done.
Qed.

Lemma release_session_spec p sh :
  shell_inv sh ->
  exists sh', release_session p sh = Ret tt sh' /\ shell_inv sh' /\ apps sh' = apps sh /\
    (p ∉ apps sh -> forall s q, sh_sessions sh !! p = Some s -> q ∈ ptrs s ->
       surface_heap (sh_stack sh') !! q = None) /\
    (forall p' s q, p' <> p -> sh_sessions sh !! p' = Some s -> q ∈ ptrs s ->
       surface_heap (sh_stack sh') !! q = surface_heap (sh_stack sh) !! q) /\
    (forall p', p' <> p -> sh_sessions sh' !! p' = sh_sessions sh !! p').
Proof.
  intros Hinv. pose proof Hinv as ([H1' H2' H3' H4' H5' H6' H7' H8'] & Hv & Ht).
  unfold release_session. destruct (decide (p ∈ apps sh \/ p ∈ snd <$> tags sh)) as [Hown|Hown].
  { exists sh. split; [done|]. split; [done|]. split; [done|]. split; [|done].
    intros Hn. exfalso. destruct Hown as [Hown|Hown]; [done|]. destruct Ht as (_ & _ & Ht).
    apply list_elem_of_fmap in Hown as (v & -> & Hin). by apply Ht in Hin. }
  destruct (sh_sessions sh !! p) as [s|] eqn:Hp.
  2: { exists sh. do 3 (split; [done|]). split; [naive_solver|]. done. }
  unfold mbind, M_bind, with_session. rewrite Hp.
  destruct (session_delete_spec (mkEnv s (sh_stack sh) (sh_input sh) (sh_area sh)) H1')
    as (e' & -> & _ & Hok' & Hn & Hheap). unfold modify. simpl in *.
  eexists. split; [reflexivity|]. rewrite delete_insert_eq. simpl.
  assert (forall p' s', delete p (sh_sessions sh) !! p' = Some s' ->
    p' <> p /\ sh_sessions sh !! p' = Some s') as Hback
    by (intros p' s' [? ?]%lookup_delete_Some; auto).
  split; [split; [|split]|].
  - split; simpl; try done.
    + intros p' Hp'. rewrite lookup_delete_ne; [auto|]. intros <-. tauto.
    + intros p' [s' Hs']. apply H4'. apply Hback in Hs' as [_ Hs']. eauto.
    + intros p' s' q Hs' Hq. apply Hback in Hs' as [_ Hs']. rewrite Hn. eauto.
    + intros p1 p2 s1 s2 q Hs1 Hs2. apply Hback in Hs1 as [_ Hs1], Hs2 as [_ Hs2]. by apply H6'.
    + intros q Hq. rewrite Hheap in Hq. destruct (decide (q ∈ ptrs s)) as [|Hnq]; [by destruct Hq|].
      destruct (H8' q Hq) as (p' & s' & Hs' & Hq'). exists p', s'. rewrite lookup_delete_ne; [done|congruence].
  - intros p' s' q x Hin Hs' Hq Hx. simpl in *. apply Hback in Hs' as [_ Hs'].
    rewrite Hheap in Hx. destruct (decide (q ∈ ptrs s)); [done|]. eapply Hv; eauto.
  - exact Ht.
  - split; [done|]. split; [|split].
    + intros _ s' q [= <-] Hq. by rewrite Hheap, decide_True.
    + intros p' s' q Hne Hs' Hq. rewrite Hheap, decide_False; [done|].
      intros Hq'. apply Hne. by eapply H6'.
    + intros p' Hne. by apply lookup_delete_ne.
Qed.
End ShellLemmas.

(** ** Sequences of requests

    What the frontend and the signal handlers ask of the shell.  Requests that
    name a session come from the mediator of that session, which refuses them
    when the session is not open. *)
Inductive shell_op : Set :=
| op_open_session (name : string)
| op_close_session (p : session_ptr)
| op_release_session (p : session_ptr)
| op_focus_next
| op_tag (p : session_ptr) (id : Z)
| op_focus_id (id : Z)
| op_create_surface (p : session_ptr) (params : SurfaceCreationParameters)
| op_destroy_surface (p : session_ptr) (id : Z)
| op_next_buffer (p : session_ptr) (id : Z)
| op_configure (p : session_ptr) (id attrib value : Z)
| op_manager_shutdown.

Section ShellRuns.
Context {A I : Type} `{AllocatorLaws A} `{InputChannelLaws I}.
Implicit Types (sh : Shell A I) (p : session_ptr).

Definition if_open (p : session_ptr) (m : M (Shell A I) unit) : M (Shell A I) unit := fun sh =>
  if decide (p ∈ apps sh) then m sh else Throw (logic_error "Invalid application session") sh.

Definition run_shell_op (op : shell_op) : M (Shell A I) unit :=
  match op with
  | op_open_session name => open_session name ;; mret tt
  | op_close_session p => close_session p
  | op_release_session p => release_session p
  | op_focus_next => focus_next
  | op_tag p id => if_open p (tag_session_with_lightdm_id p id)
  | op_focus_id id => focus_session_with_lightdm_id id
  | op_create_surface p params => if_open p (create_surface_for p params ;; mret tt)
  | op_destroy_surface p id => if_open p (with_session p (session_destroy_surface id))
  | op_next_buffer p id => if_open p (with_session p (advance_surface id))
  | op_configure p id attrib value =>
      if_open p (with_session p (configure_surface id attrib value) ;; mret tt)
  | op_manager_shutdown => manager_shutdown
  end.

(** A failed request is caught by its mediator, and a blocked one leaves the
    other clients free to go on. *)
Definition serve (op : shell_op) (sh : Shell A I) : option (Shell A I) :=
  match run_shell_op op sh with
  | Ret _ sh' | Throw _ sh' | Wait sh' => Some sh'
  | Undef => None
  end.

Definition serve_all (ops : list shell_op) (sh : Shell A I) : option (Shell A I) :=
  fold_left (fun o op => o ≫= serve op) ops (Some sh).

Lemma shutdown_list_ok l sh :
  shell_inv sh -> (forall p, p ∈ l -> p ∈ apps sh) ->
  exists sh', for_each l (fun p => with_session p session_shutdown) sh = Ret tt sh' /\ shell_inv sh'.
Proof.
  revert sh. induction l as [|p l IH]; intros sh Hi Hl; [by exists sh|].
  pose proof Hi as (Hok & _ & _). destruct (so_live _ Hok p) as [s Hs]; [apply Hl; set_solver|].
  destruct (shutdown_quiet (mkEnv s (sh_stack sh) (sh_input sh) (sh_area sh)) (so_stack _ Hok))
    as (e' & He & Hq).
  cbn [for_each]. unfold mbind, M_bind, with_session at 1. rewrite Hs, He.
  apply IH; [by apply (quiet_put p s)|]. intros q Hq'. apply Hl. set_solver.
Qed.

Lemma serve_ok op sh : shell_inv sh -> exists sh', serve op sh = Some sh' /\ shell_inv sh'.
Proof.
  intros Hinv. pose proof Hinv as (Hok & _ & _).
  assert (forall p m, (p ∈ apps sh -> wp m (fun _ => shell_inv) (fun _ => shell_inv) shell_inv sh) ->
    wp (if_open p m) (fun _ => shell_inv) (fun _ => shell_inv) shell_inv sh) as Hopen.
  { intros p m Hm. unfold wp, if_open. case_decide; [by apply Hm|done]. }
  enough (wp (run_shell_op op) (fun _ => shell_inv) (fun _ => shell_inv) shell_inv sh) as Hw.
  { unfold wp in Hw. unfold serve. destruct (run_shell_op op sh); eauto. done. }
  assert (forall p, p ∈ apps sh -> exists s, sh_sessions sh !! p = Some s) as Hlive
    by (intros p Hp; by apply (so_live _ Hok)).
  destruct op; simpl.
  - destruct (open_session_spec name sh Hinv) as (sh' & Hr & ? & _).
    unfold wp, mbind, M_bind. by rewrite Hr.
  - destruct (decide (p ∈ apps sh)) as [Hp|Hp].
    + destruct (close_session_spec p sh Hinv Hp) as (sh' & Hr & ? & _). unfold wp. by rewrite Hr.
    + unfold wp, close_session, mbind, M_bind, remove_session. by rewrite decide_False.
  - destruct (release_session_spec p sh Hinv) as (sh' & Hr & ? & _). unfold wp. by rewrite Hr.
  - destruct (focus_next_ok sh Hinv) as (sh' & Hr & ?). unfold wp. by rewrite Hr.
  - apply Hopen. intros Hp. destruct (tag_session_spec p id sh Hinv Hp) as (sh' & Hr & ? & _).
    unfold wp. by rewrite Hr.
  - destruct (focus_id_spec id sh Hinv) as (sh' & Hr & ? & _). unfold wp. by rewrite Hr.
  - apply Hopen. intros Hp. apply wp_bind.
    eapply wp_mono; [apply (create_surface_for_spec p params sh Hinv Hp)|..]; try done.
    + by intros id sh' [? _].
    + by intros e sh' (? & _).
  - apply Hopen. intros Hp. destruct (Hlive p Hp) as [s Hs].
    eapply with_session_quiet; [done|exact Hs|]. apply destroy_quiet, (so_stack _ Hok).
  - apply Hopen. intros Hp. destruct (Hlive p Hp) as [s Hs].
    eapply with_session_quiet; [done|exact Hs|]. apply advance_quiet, (so_stack _ Hok).
  - apply Hopen. intros Hp. destruct (Hlive p Hp) as [s Hs]. apply wp_bind.
    eapply wp_mono; [eapply with_session_quiet; [done|exact Hs|]|..]; try done.
    apply configure_quiet, (so_stack _ Hok).
  - destruct (shutdown_list_ok (apps sh) sh Hinv) as (sh' & Hr & ?); [done|].
    unfold wp, manager_shutdown, container_for_each, mbind, M_bind, gets. by rewrite Hr.
Qed.

Lemma serve_all_ok ops sh : shell_inv sh -> exists sh', serve_all ops sh = Some sh' /\ shell_inv sh'.
Proof.
  unfold serve_all. revert sh. induction ops as [|op ops IH]; intros sh Hinv; [eauto|].
  cbn [fold_left]. destruct (serve_ok op sh Hinv) as (sh1 & Hs & Hinv1).
  simpl. rewrite Hs. by apply IH.
Qed.

(** C16: whatever the clients ask, in any order, starting from an empty shell
    (and between renderings), nothing undefined happens, and afterwards the
    surface stack is well-formed, the focus is a registered session whenever
    there is one, every tag names one registered session, and every surface of
    the stack belongs to exactly one session.  Of the surfaces of the registered
    sessions exactly those of the focused one are visible.  The only other
    surfaces that can be visible are those of a session that was closed while
    somebody still refers to it ([closed_stays_visible]): they stay on the stack
    until the last reference is dropped. *)
Theorem focus_is_what_is_visible ops (a : A) (i : I) area :
  exists sh, serve_all ops (Shell_new (SurfaceStack_new a) i area) = Some sh /\
    shell_ok sh /\ single_visible sh /\ visible_owned sh /\ tags_ok sh.
Proof.
  destruct (serve_all_ok ops (Shell_new (SurfaceStack_new a) i area)) as (sh & Hs & Hinv).
  - by apply shell_inv_new; [apply stack_ok_new|].
  - exists sh. destruct Hinv as (Hok & Hv & Ht). by pose proof (visible_surfaces sh Hok Hv).
Qed.

(** [focus_next] visits the sessions in turn: from the focused session at
    position [i], [k] calls move the focus to position [i + k] modulo the
    number of sessions, so that as many calls as there are sessions give every
    session the focus once and return it to where it was. *)
Theorem focus_next_cycles k sh i p :
  shell_inv sh -> focus_application sh = Some p -> apps sh !! i = Some p ->
  exists sh', serve_all (replicate k op_focus_next) sh = Some sh' /\ apps sh' = apps sh /\
    focus_application sh' = apps sh !! ((i + k) mod length (apps sh))%nat.
Proof.
  unfold serve_all. revert sh i p. induction k as [|k IH]; intros sh i p Hinv Hf Hi.
  - exists sh. split; [done|]. split; [done|].
    rewrite Nat.add_0_r, Nat.mod_small by by eapply lookup_lt_Some. congruence.
  - destruct (focus_next_spec sh i p Hinv Hf Hi) as (sh1 & q & Hr & Hinv1 & Ha & Hf1 & Hq).
    cbn [replicate fold_left]. unfold serve at 2. simpl. rewrite Hr.
    rewrite <- Ha in Hq. destruct (IH sh1 _ q Hinv1 Hf1 Hq) as (sh2 & Hs & Ha2 & Hf2).
    exists sh2. split; [exact Hs|]. split; [congruence|]. rewrite Hf2, Ha.
    f_equal. rewrite ?Ha. assert (length (apps sh) <> 0%nat) by (apply lookup_lt_Some in Hi; lia).
    rewrite Nat.Div0.add_mod_idemp_l. f_equal. lia.
Qed.

(** Tagging a session with an identifier and focusing that identifier
    gives that session the focus, whatever had the identifier before; an
    identifier that tags no session changes nothing. *)
Theorem tag_then_focus p id sh :
  shell_inv sh -> p ∈ apps sh ->
  (exists sh1 sh2, tag_session_with_lightdm_id p id sh = Ret tt sh1 /\
    focus_session_with_lightdm_id id sh1 = Ret tt sh2 /\ focus_application sh2 = Some p /\
    single_visible sh2) /\
  forall id', (forall q, (id', q) ∉ tags sh) -> focus_session_with_lightdm_id id' sh = Ret tt sh.
Proof.
  intros Hinv Hp. split.
  - destruct (tag_session_spec p id sh Hinv Hp) as (sh1 & H1' & Hinv1 & Ht & _).
    destruct (focus_id_spec id sh1 Hinv1) as (sh2 & H2' & (_ & Hv & _) & _ & _ & Hf).
    exists sh1, sh2. do 2 (split; [done|]). split; [|done]. apply Hf. rewrite Ht. set_solver.
  - intros id' Hn. unfold focus_session_with_lightdm_id, mbind, M_bind, gets.
    destruct (list_find (fun v => v.1 = id') (tags sh)) as [[i [k q]]|] eqn:E; [|done].
    exfalso. apply list_find_Some in E as (Hl & Hk & _). simpl in Hk. subst k.
    apply (Hn q). by eapply list_elem_of_lookup_2.
Qed.

(** Closing a session, followed by its mediator's letting go of it, takes
    all its surfaces off the stack and touches no surface of another session;
    the focus goes to the session registered last among the rest, and no tag
    names the closed session any more. *)
Theorem close_removes_surfaces p s sh :
  shell_inv sh -> p ∈ apps sh -> sh_sessions sh !! p = Some s ->
  exists sh1 sh2, close_session p sh = Ret tt sh1 /\ release_session p sh1 = Ret tt sh2 /\
    (forall q, q ∈ ptrs s -> surface_heap (sh_stack sh2) !! q = None) /\
    (forall p' s' q, p' <> p -> sh_sessions sh !! p' = Some s' -> q ∈ ptrs s' ->
       is_Some (surface_heap (sh_stack sh) !! q) -> is_Some (surface_heap (sh_stack sh2) !! q)) /\
    focus_application sh1 = last (remove1 p (apps sh)) /\ p ∉ snd <$> tags sh1.
Proof.
  intros Hinv Hp Hs.
  destruct (close_session_spec p sh Hinv Hp) as (sh1 & H1' & Hinv1 & Ha & Hf & Ht & Hse & Hd).
  destruct (release_session_spec p sh1 Hinv1) as (sh2 & H2' & _ & _ & Hgone & Hkept & _).
  rewrite Hse in Hgone, Hkept.
  exists sh1, sh2. do 2 (split; [done|]). split.
  { intros q Hq. apply (Hgone) with (s := s); [|done|done].
    rewrite Ha, remove1_elem_of by apply (so_nodup _ (proj1 Hinv)). tauto. }
  split; [|split; [done|]].
  - intros p' s' q Hne Hs' Hq Hlive. rewrite (Hkept p' s' q Hne Hs' Hq). by apply Hd.
  - rewrite Ht. intros Hin. apply list_elem_of_fmap in Hin as (v & -> & Hv).
    by apply list_elem_of_filter in Hv as [Hv _].
Qed.
End ShellRuns.

(** ** A concrete shell *)

Definition demo_shell0 : Shell demo_platform Z := Shell_new (SurfaceStack_new demo_device) 10 demo_area.

Definition demo_serve (ops : list shell_op) : Shell demo_platform Z :=
  default demo_shell0 (serve_all ops demo_shell0).

Lemma demo_serve_inv ops : shell_inv (demo_serve ops).
Proof.
  unfold demo_serve. destruct (serve_all_ok ops demo_shell0) as (sh & -> & Hinv); [|done].
  by apply shell_inv_new; [apply stack_ok_new|].
Qed.

Definition demo_ops : list shell_op :=
  [op_open_session "a"; op_create_surface 0 (demo_params "a0"); op_open_session "b";
   op_create_surface 1 (demo_params "b0"); op_tag 0 7; op_next_buffer 1 0; op_open_session "c"].

Definition demo_shell : Shell demo_platform Z := demo_serve demo_ops.

Example demo_shell_state :
  apps demo_shell = [0; 1; 2]%nat /\ focus_application demo_shell = Some 2%nat /\
  tags demo_shell = [(7, 0%nat)] /\
  is_hidden <$> surface_heap (sh_stack demo_shell) !! 0%nat = Some true.
Proof. vm_compute. repeat split. Qed.

(** A session that is closed and still referred to leaves its surface visible; dropping
    the reference takes the surface off the stack. *)
Example closed_stays_visible :
  let ops := [op_open_session "a"; op_open_session "b"; op_create_surface 1 (demo_params "b0"); op_close_session 1] in
  focus_application (demo_serve ops) = Some 0%nat /\
  is_hidden <$> surface_heap (sh_stack (demo_serve ops)) !! 0%nat = Some false /\
  surface_heap (sh_stack (demo_serve (ops ++ [op_release_session 1]))) !! 0%nat = None.
Proof. vm_compute. repeat split. Qed.

Lemma focus_is_what_is_visible_witness :
  exists sh, serve_all demo_ops demo_shell0 = Some sh /\ shell_ok sh /\ single_visible sh /\ visible_owned sh /\ tags_ok sh.
Proof.
  exact (focus_is_what_is_visible (A := demo_platform) (I := Z) demo_ops demo_device 10 demo_area).
Defined.

Lemma focus_next_cycles_witness :
  exists sh', serve_all (replicate 4 op_focus_next) demo_shell = Some sh' /\
    apps sh' = apps demo_shell /\ focus_application sh' = apps demo_shell !! 0%nat.
Proof.
  exact (focus_next_cycles (A := demo_platform) (I := Z) 4 demo_shell 2 2
    (demo_serve_inv demo_ops) eq_refl eq_refl).
Defined.

Lemma tag_then_focus_witness :
  (exists sh1 sh2, tag_session_with_lightdm_id 1 7 demo_shell = Ret tt sh1 /\
    focus_session_with_lightdm_id 7 sh1 = Ret tt sh2 /\ focus_application sh2 = Some 1%nat /\
    single_visible sh2) /\
  forall id', (forall q, (id', q) ∉ tags demo_shell) ->
    focus_session_with_lightdm_id id' demo_shell = Ret tt demo_shell.
Proof.
  apply (tag_then_focus (A := demo_platform) (I := Z) 1 7 demo_shell (demo_serve_inv demo_ops)).
  apply (bool_decide_unpack _). vm_compute. reflexivity.
Defined.

Lemma close_removes_surfaces_witness :
  exists s sh1 sh2, sh_sessions demo_shell !! 1%nat = Some s /\ ptrs s = [1%nat] /\
    close_session 1 demo_shell = Ret tt sh1 /\ release_session 1 sh1 = Ret tt sh2 /\
    surface_heap (sh_stack sh2) !! 1%nat = None /\ focus_application sh1 = Some 2%nat.
Proof.
  destruct (sh_sessions demo_shell !! 1%nat) as [s|] eqn:E; [|exfalso; vm_compute in E; discriminate].
  assert (ptrs s = [1%nat]) as Hp by (vm_compute in E; injection E as <-; reflexivity).
  destruct (close_removes_surfaces (A := demo_platform) (I := Z) 1 s demo_shell (demo_serve_inv demo_ops))
    as (sh1 & sh2 & H1 & H2 & Hg & _ & Hf & _).
  - apply (bool_decide_unpack _). vm_compute. reflexivity.
  - exact E.
  - exists s, sh1, sh2. split; [reflexivity|]. split; [exact Hp|]. split; [exact H1|].
    split; [exact H2|]. split; [apply Hg; rewrite Hp; apply list_elem_of_here|exact Hf].
Defined.
