(* ===== verification/Messages.v ===== *)
(** * The messages of the client protocol

    The protocol buffers of [src/shared/protobuf/mir_protobuf.proto], as the
    code's accessors see them: an optional field is an [option], a repeated
    one a list.  Encoding and parsing are the protobuf library's. *)

From S2P Require Import Prelude.

Record ConnectParameters : Set := mkConnectParameters {
  cp_application_name : string;
  cp_lightdm_id : option Z;
}.

Record SurfaceParameters : Set := mkSurfaceParameters {
  spm_width : Z;
  spm_height : Z;
  spm_pixel_format : Z;
  spm_buffer_usage : Z;
  spm_surface_name : string;
}.

(** [Buffer] *)
Record BufferMsg : Set := mkBufferMsg {
  bm_buffer_id : option Z;
  bm_fd : list Z;
  bm_data : list Z;
  bm_fds_on_side_channel : option Z;
  bm_stride : option Z;
  bm_error : option string;
}.

(** [Platform] *)
Record PlatformMsg : Set := mkPlatformMsg {
  pm_fd : list Z;
  pm_data : list Z;
  pm_fds_on_side_channel : option Z;
  pm_error : option string;
}.

Record DisplayInfoMsg : Set := mkDisplayInfoMsg {
  di_width : Z;
  di_height : Z;
  di_supported_pixel_format : list Z;
}.

Record ConnectionMsg : Set := mkConnectionMsg {
  cm_platform : option PlatformMsg;
  cm_display_info : option DisplayInfoMsg;
  cm_error : option string;
}.

(** [Surface] *)
Record SurfaceMsg : Set := mkSurfaceMsg {
  sm_id : option Z;
  sm_width : option Z;
  sm_height : option Z;
  sm_pixel_format : option Z;
  sm_buffer_usage : option Z;
  sm_buffer : option BufferMsg;
  sm_fd : list Z;
  sm_fds_on_side_channel : option Z;
  sm_error : option string;
}.

Record DRMAuthMagicStatus : Set := mkDRMStatus {
  ds_status_code : option Z;
  ds_error : option string;
}.

Record VoidMsg : Set := mkVoid { vm_error : option string }.

Record SurfaceSetting : Set := mkSetting {
  ss_surfaceid : option Z;
  ss_attrib : option Z;
  ss_ivalue : option Z;
  ss_error : option string;
}.

(** The default-constructed messages. *)
Definition buffer0 : BufferMsg := mkBufferMsg None [] [] None None None.
Definition platform0 : PlatformMsg := mkPlatformMsg [] [] None None.
Definition connection0 : ConnectionMsg := mkConnectionMsg None None None.
Definition surface0 : SurfaceMsg := mkSurfaceMsg None None None None None None [] None None.
Definition drm_status0 : DRMAuthMagicStatus := mkDRMStatus None None.
Definition void0 : VoidMsg := mkVoid None.
Definition setting0 : SurfaceSetting := mkSetting None None None None.

(** A scalar accessor of an absent field gives the default. *)
Definition get_int (o : option Z) : Z := default 0 o.

(** Any response, on the wire. *)
Inductive AnyResponse : Set :=
| r_connection (m : ConnectionMsg)
| r_surface (m : SurfaceMsg)
| r_buffer (m : BufferMsg)
| r_platform (m : PlatformMsg)
| r_drm_status (m : DRMAuthMagicStatus)
| r_void (m : VoidMsg)
| r_setting (m : SurfaceSetting).

Definition error_of (a : AnyResponse) : option string :=
  match a with
  | r_connection m => cm_error m
  | r_surface m => sm_error m
  | r_buffer m => bm_error m
  | r_platform m => pm_error m
  | r_drm_status m => ds_error m
  | r_void m => vm_error m
  | r_setting m => ss_error m
  end.

(** ** Moving file descriptors to the side channel

    [ProtobufMessageProcessor::extract_fds_from], for its two instances. *)

Definition extract_fds_from_buffer (m : BufferMsg) : list Z * BufferMsg :=
  (bm_fd m,
   mkBufferMsg (bm_buffer_id m) [] (bm_data m) (Some (Z.of_nat (length (bm_fd m)))) (bm_stride m)
     (bm_error m)).

Definition extract_fds_from_platform (m : PlatformMsg) : list Z * PlatformMsg :=
  (pm_fd m,
   mkPlatformMsg [] (pm_data m) (Some (Z.of_nat (length (pm_fd m)))) (pm_error m)).

(** What the message processor needs of a result type: its default value,
    [set_error], and the overload of [send_response] it selects: whether the
    file descriptors are extracted ([None]: the generic overload), and which. *)
Class ResultMessage (R : Type) : Type := {
  result0 : R;
  set_error : string -> R -> R;
  extract_fds : R -> option (list Z) * R;
  any : R -> AnyResponse;
}.

#[export] Instance buffer_result : ResultMessage BufferMsg := {
  result0 := buffer0;
  set_error e m := mkBufferMsg (bm_buffer_id m) (bm_fd m) (bm_data m) (bm_fds_on_side_channel m)
                     (bm_stride m) (Some e);
  extract_fds m := let '(fd, m') := extract_fds_from_buffer m in (Some fd, m');
  any := r_buffer;
}.

#[export] Instance platform_result : ResultMessage PlatformMsg := {
  result0 := platform0;
  set_error e m := mkPlatformMsg (pm_fd m) (pm_data m) (pm_fds_on_side_channel m) (Some e);
  extract_fds m := let '(fd, m') := extract_fds_from_platform m in (Some fd, m');
  any := r_platform;
}.

#[export] Instance connection_result : ResultMessage ConnectionMsg := {
  result0 := connection0;
  set_error e m := mkConnectionMsg (cm_platform m) (cm_display_info m) (Some e);
  extract_fds m :=
    match cm_platform m with
    | Some p => let '(fd, p') := extract_fds_from_platform p in
                (Some fd, mkConnectionMsg (Some p') (cm_display_info m) (cm_error m))
    | None => (Some [], m)
    end;
  any := r_connection;
}.

Definition set_surface_buffer (b : option BufferMsg) (m : SurfaceMsg) : SurfaceMsg :=
  mkSurfaceMsg (sm_id m) (sm_width m) (sm_height m) (sm_pixel_format m) (sm_buffer_usage m) b
    (sm_fd m) (sm_fds_on_side_channel m) (sm_error m).

#[export] Instance surface_result : ResultMessage SurfaceMsg := {
  result0 := surface0;
  set_error e m := mkSurfaceMsg (sm_id m) (sm_width m) (sm_height m) (sm_pixel_format m)
                     (sm_buffer_usage m) (sm_buffer m) (sm_fd m) (sm_fds_on_side_channel m) (Some e);
  extract_fds m :=
    match sm_buffer m with
    | Some b => let '(fd, b') := extract_fds_from_buffer b in
                (Some fd, set_surface_buffer (Some b') m)
    | None => (Some [], m)
    end;
  any := r_surface;
}.

#[export] Instance drm_result : ResultMessage DRMAuthMagicStatus := {
  result0 := drm_status0;
  set_error e m := mkDRMStatus (ds_status_code m) (Some e);
  extract_fds m := (None, m);
  any := r_drm_status;
}.

#[export] Instance void_result : ResultMessage VoidMsg := {
  result0 := void0;
  set_error e m := mkVoid (Some e);
  extract_fds m := (None, m);
  any := r_void;
}.

#[export] Instance setting_result : ResultMessage SurfaceSetting := {
  result0 := setting0;
  set_error e m := mkSetting (ss_surfaceid m) (ss_attrib m) (ss_ivalue m) (Some e);
  extract_fds m := (None, m);
  any := r_setting;
}.

(** The overloads of [send_response] for [Buffer], [Platform], [Connection] and
    [Surface] send file descriptors. *)
Class CarriesFds (R : Type) `{ResultMessage R} (b : bool) : Prop := {
  extract_carries : forall r, match fst (extract_fds r) with Some _ => b = true | None => b = false end;
  extract_error : forall r, error_of (any (snd (extract_fds r))) = error_of (any r);
  set_error_error : forall e r, error_of (any (set_error e r)) = Some e;
}.

#[export] Instance buffer_carries : CarriesFds BufferMsg true.
Proof. by split. Qed.
#[export] Instance platform_carries : CarriesFds PlatformMsg true.
Proof. by split. Qed.
#[export] Instance connection_carries : CarriesFds ConnectionMsg true.
Proof. split; [..|done]; intros [[p|] i e]; done. Qed.
#[export] Instance surface_carries : CarriesFds SurfaceMsg true.
Proof. split; [..|done]; intros [? ? ? ? ? [b|] ? ? ?]; done. Qed.
#[export] Instance drm_carries : CarriesFds DRMAuthMagicStatus false.
Proof. by split. Qed.
#[export] Instance void_carries : CarriesFds VoidMsg false.
Proof. by split. Qed.
#[export] Instance setting_carries : CarriesFds SurfaceSetting false.
Proof. by split. Qed.
