(* ===== verification/Mediator.v ===== *)
(** * The session mediator and the message processor

    [frontend::SessionMediator]
    ([src/server/frontend/session_mediator.cpp], [session_mediator_gbm.cpp],
    [session_mediator_android.cpp]), [ResourceCache] ([resource_cache.cpp]) and
    [ProtobufMessageProcessor] ([protobuf_message_processor.cpp]).

    A handler runs on the server's state and on the response it fills in,
    which keeps what was written to it when the handler throws; [done] is the
    closure that sends it.  The socket ([MessageSender]), the graphics
    platform and protobuf's parsing are interfaces. *)

From S2P Require Import Prelude Geometry Buffers Swapper Bundle GbmBuffers SurfaceParams Surfaces Sessions SessionManager Messages.

(** [graphics::PlatformIPCPackage]. *)
Record PlatformIPCPackage : Set := mkPlatformIPC { platform_data : list Z; platform_fds : list Z }.

(** [graphics::Platform] and [DRMAuthenticator], on the platform's state. *)
Class GraphicsPlatform (P : Type) : Type := {
  get_ipc_package : M P PlatformIPCPackage;
  drm_auth_magic_platform : Z -> M P unit;
}.

(** [detail::MessageSender]. *)
Class MessageSender (K : Type) : Type := {
  send : Z * AnyResponse -> M K unit;
  send_fds : list Z -> M K unit;
}.

(** What the cache keeps alive until a response has been sent. *)
Inductive resource : Set :=
| platform_package (p : PlatformIPCPackage)
| buffer_package (p : BufferIPCPackage).

(** What went out on the connection, oldest first. *)
Inductive sent : Set :=
| sent_result (id : Z) (response : AnyResponse)
| sent_fds (fds : list Z).

(** [boost::diagnostic_information] of an exception, as far as it depends on
    the exception. *)
Definition diagnostic_information (e : exn) : string :=
  match e with logic_error w | runtime_error w | errno_error w _ => w end.

Section Mediator.
Context {A I P K : Type} `{GraphicBufferAllocator A} `{InputChannelFactory I}
  `{GraphicsPlatform P} `{MessageSender K}.

(** The processor of one connection, with the server behind it.  The cache is
    keyed by the address of the response. *)
Record processor : Type := mkProcessor {
  pr_shell : Shell A I;
  pr_session : option session_ptr;
  pr_platform : P;
  pr_cache : gmap Z resource;
  pr_sender : K;
  pr_sent : list sent;
}.

(** A handler's state: the processor, and the response with its address. *)
Record call (R : Type) : Type := mkCall {
  call_proc : processor;
  call_key : Z;
  call_response : R;
}.
Arguments mkCall {R} call_proc call_key call_response.
Arguments call_proc {R} c.
Arguments call_key {R} c.
Arguments call_response {R} c.

Definition proc_lens {R} : lens (call R) processor :=
  Lens call_proc (fun p c => mkCall p (call_key c) (call_response c)).
Definition shell_lens : lens processor (Shell A I) :=
  Lens pr_shell (fun s p => mkProcessor s (pr_session p) (pr_platform p) (pr_cache p) (pr_sender p) (pr_sent p)).
Definition platform_lens : lens processor P :=
  Lens pr_platform (fun x p => mkProcessor (pr_shell p) (pr_session p) x (pr_cache p) (pr_sender p) (pr_sent p)).
Definition sender_lens : lens processor K :=
  Lens pr_sender (fun k p => mkProcessor (pr_shell p) (pr_session p) (pr_platform p) (pr_cache p) k (pr_sent p)).
Definition set_session (s : option session_ptr) (p : processor) : processor :=
  mkProcessor (pr_shell p) s (pr_platform p) (pr_cache p) (pr_sender p) (pr_sent p).
Definition set_cache (m : gmap Z resource) (p : processor) : processor :=
  mkProcessor (pr_shell p) (pr_session p) (pr_platform p) m (pr_sender p) (pr_sent p).

Definition on_shell {R B} (m : M (Shell A I) B) : M (call R) B := zoom proc_lens (zoom shell_lens m).
Definition on_platform {R B} (m : M P B) : M (call R) B := zoom proc_lens (zoom platform_lens m).
Definition respond {R} (f : R -> R) : M (call R) unit :=
  modify (fun c => mkCall (call_proc c) (call_key c) (f (call_response c))).

(** ** [ResourceCache] *)

Definition save_resource {R} (value : resource) : M (call R) unit :=
  modify (fun c => mkCall (set_cache (<[call_key c := value]> (pr_cache (call_proc c))) (call_proc c))
                     (call_key c) (call_response c)).

Definition free_resource (key : Z) : M processor unit :=
  modify (fun p => set_cache (delete key (pr_cache p)) p).

(** ** [SessionMediator] *)

(** [if (session.get() == nullptr) BOOST_THROW_EXCEPTION(...)]. *)
Definition valid_session {R} : M (call R) session_ptr :=
  s ← gets (fun c => pr_session (call_proc c)) ;
  match s with
  | Some p => mret p
  | None => throw (logic_error "Invalid application session")
  end.

(** Assigning to [session] drops the reference it held. *)
Definition assign_session {R} (s : option session_ptr) : M (call R) unit :=
  old ← gets (fun c => pr_session (call_proc c)) ;
  modify (fun c => mkCall (set_session s (call_proc c)) (call_key c) (call_response c)) ;;
  match old with
  | Some p => if decide (s = Some p) then mret tt else on_shell (release_session p)
  | None => mret tt
  end.

(** A member function of the session, a shared pointer to a live object. *)
Definition on_session {R B} (p : session_ptr) (m : M (session_env A I) B) : M (call R) B :=
  on_shell (with_session p m).

Definition on_surface {R B} (p : session_ptr) (m : M (SurfaceStack A) B) : M (call R) B :=
  on_session p (zoom env_stack_lens m).

Definition connect (request : ConnectParameters) (done : M (call ConnectionMsg) unit)
    : M (call ConnectionMsg) unit :=
  p ← on_shell (open_session (cp_application_name request)) ;
  assign_session (Some p) ;;
  ipc_package ← on_platform get_ipc_package ;
  view_area ← gets (fun c => sh_area (pr_shell (call_proc c))) ;
  respond (fun m => mkConnectionMsg
    (Some (mkPlatformMsg (platform_fds ipc_package) (platform_data ipc_package) None None))
    (Some (mkDisplayInfoMsg (i32 (as_uint32_t (size_width (rect_size view_area))))
             (i32 (as_uint32_t (size_height (rect_size view_area))))
             (u32 <$> (pf_value <$> supported_pixel_formats)))) (cm_error m)) ;;
  save_resource (platform_package ipc_package) ;;
  (match cp_lightdm_id request with
   | Some id => on_shell (tag_session_with_lightdm_id p id)
   | None => mret tt
   end) ;;
  done.

(** The fields of a [Buffer] message set from the client's buffer. *)
Definition buffer_fields (t : TemporaryBuffer) : option (BufferID * BufferIPCPackage) :=
  id ← tb_buffer_id t ; package ← tb_ipc_package t ; Some (id, package).

Definition set_buffer_fields (id : BufferID) (package : BufferIPCPackage) (m : BufferMsg) : BufferMsg :=
  mkBufferMsg (Some (i32 (bid_value id))) (bm_fd m ++ ipc_fds package) (bm_data m ++ ipc_data package)
    (bm_fds_on_side_channel m) (Some (ipc_stride package)) (bm_error m).

(** [surface->client_buffer()] dereferenced: null is undefined behaviour. *)
Definition client_buffer_of {R} (p : session_ptr) (x : ShellSurface)
    : M (call R) (BufferID * BufferIPCPackage) :=
  buffer_resource ← on_surface p (ss_client_buffer x) ;
  deref (fun _ => t ← buffer_resource ; buffer_fields t).

Definition request_params (request : SurfaceParameters) : SurfaceCreationParameters :=
  of_pixel_format (pixel_format_cast (spm_pixel_format request))
    (of_buffer_usage (mkBufferUsage (spm_buffer_usage request))
      (of_width_height (spm_width request) (spm_height request)
        (of_name (spm_surface_name request) a_surface))).

Definition create_surface_handler (request : SurfaceParameters) (done : M (call SurfaceMsg) unit)
    : M (call SurfaceMsg) unit :=
  p ← valid_session ;
  id ← on_shell (create_surface_for p (request_params request)) ;
  surface ← on_session p (get_surface id) ;
  respond (fun m => mkSurfaceMsg (Some id) (sm_width m) (sm_height m) (sm_pixel_format m)
    (sm_buffer_usage m) (sm_buffer m) (sm_fd m) (sm_fds_on_side_channel m) (sm_error m)) ;;
  size ← on_surface p (ss_size surface) ;
  respond (fun m => mkSurfaceMsg (sm_id m) (Some (i32 (as_uint32_t (size_width size))))
    (Some (i32 (as_uint32_t (size_height size)))) (sm_pixel_format m)
    (sm_buffer_usage m) (sm_buffer m) (sm_fd m) (sm_fds_on_side_channel m) (sm_error m)) ;;
  pf ← on_surface p (ss_pixel_format surface) ;
  respond (fun m => mkSurfaceMsg (sm_id m) (sm_width m) (sm_height m) (Some (i32 (pf_value pf)))
    (Some (spm_buffer_usage request)) (sm_buffer m) (sm_fd m) (sm_fds_on_side_channel m) (sm_error m)) ;;
  (if supports_input surface then
     fd ← client_input_fd surface ;
     respond (fun m => mkSurfaceMsg (sm_id m) (sm_width m) (sm_height m) (sm_pixel_format m)
       (sm_buffer_usage m) (sm_buffer m) (sm_fd m ++ [fd]) (sm_fds_on_side_channel m) (sm_error m))
   else mret tt) ;;
  on_surface p (ss_advance_client_buffer surface) ;;
  '(bid, ipc_package) ← client_buffer_of p surface ;
  respond (fun m =>
    set_surface_buffer (Some (set_buffer_fields bid ipc_package (default buffer0 (sm_buffer m)))) m) ;;
  save_resource (buffer_package ipc_package) ;;
  done.

Definition next_buffer_handler (request : Z) (done : M (call BufferMsg) unit) : M (call BufferMsg) unit :=
  p ← valid_session ;
  surface ← on_session p (get_surface request) ;
  on_surface p (ss_advance_client_buffer surface) ;;
  '(bid, ipc_package) ← client_buffer_of p surface ;
  respond (set_buffer_fields bid ipc_package) ;;
  save_resource (buffer_package ipc_package) ;;
  done.

Definition select_focus_by_lightdm_id_handler (request : Z) (done : M (call VoidMsg) unit)
    : M (call VoidMsg) unit :=
  valid_session ;;
  on_shell (focus_session_with_lightdm_id request) ;;
  done.

Definition release_surface_handler (request : Z) (done : M (call VoidMsg) unit) : M (call VoidMsg) unit :=
  p ← valid_session ;
  on_session p (session_destroy_surface request) ;;
  done.

Definition disconnect_handler (request : VoidMsg) (done : M (call VoidMsg) unit) : M (call VoidMsg) unit :=
  p ← valid_session ;
  on_shell (close_session p) ;;
  assign_session None ;;
  done.

Definition configure_surface_handler (request : SurfaceSetting) (done : M (call SurfaceSetting) unit)
    : M (call SurfaceSetting) unit :=
  respond (fun m => mkSetting (Some (get_int (ss_surfaceid request))) (Some (get_int (ss_attrib request)))
    (ss_ivalue m) (ss_error m)) ;;
  p ← valid_session ;
  newvalue ← on_session p (configure_surface (get_int (ss_surfaceid request)) (get_int (ss_attrib request))
    (get_int (ss_ivalue request))) ;
  respond (fun m => mkSetting (ss_surfaceid m) (ss_attrib m) (Some newvalue) (ss_error m)) ;;
  done.

(** The GBM platform's [drm_auth_magic]: an error with an [errno] becomes the
    status code; any other is thrown on. *)
Definition drm_auth_magic_gbm (request : Z) (done : M (call DRMAuthMagicStatus) unit)
    : M (call DRMAuthMagicStatus) unit :=
  valid_session ;;
  try_catch
    (on_platform (drm_auth_magic_platform request) ;;
     respond (fun m => mkDRMStatus (Some 0) (ds_error m)))
    (fun e => match e with
              | errno_error _ code => respond (fun m => mkDRMStatus (Some code) (ds_error m))
              | _ => throw e
              end) ;;
  done.

(** The Android platform's. *)
Definition drm_auth_magic_android (request : Z) (done : M (call DRMAuthMagicStatus) unit)
    : M (call DRMAuthMagicStatus) unit :=
  valid_session ;;
  throw (logic_error "drm_auth_magic request not supported by the Android platform").

(** ** [ProtobufMessageProcessor] *)

Definition sender_send (id : Z) (response : AnyResponse) : M processor unit :=
  zoom sender_lens (send (id, response)) ;;
  modify (fun p => mkProcessor (pr_shell p) (pr_session p) (pr_platform p) (pr_cache p) (pr_sender p)
    (pr_sent p ++ [sent_result id response])).

Definition sender_send_fds (fds : list Z) : M processor unit :=
  zoom sender_lens (send_fds fds) ;;
  modify (fun p => mkProcessor (pr_shell p) (pr_session p) (pr_platform p) (pr_cache p) (pr_sender p)
    (pr_sent p ++ [sent_fds fds])).

(** The overloads of [send_response]. *)
Definition send_response {R} `{ResultMessage R} (id : Z) : M (call R) unit :=
  c ← get ;
  let '(fds, response) := extract_fds (call_response c) in
  respond (fun _ => response) ;;
  zoom proc_lens (sender_send id (any response)) ;;
  match fds with
  | None => mret tt
  | Some fd => zoom proc_lens (sender_send_fds fd ;; free_resource (call_key c))
  end.

(** [invoke]: the result message is a local variable, at the address [key]. *)
Definition invoke {Q R} `{ResultMessage R}
    (function : Q -> M (call R) unit -> M (call R) unit) (parameter_message : Q) (id key : Z)
    : M processor unit := fun p =>
  match try_catch (function parameter_message (send_response id))
          (fun x => respond (set_error (diagnostic_information x)) ;; send_response id)
          (mkCall p key result0) with
  | Ret _ c => Ret tt (call_proc c)
  | Throw e c => Throw e (call_proc c)
  | Wait c => Wait (call_proc c)
  | Undef => Undef
  end.

(** [wire::Invocation]. *)
Record Invocation : Set := mkInvocation {
  inv_id : Z;
  method_name : string;
  parameters : string;
}.

(** Protobuf's parsers: what a message holds after [ParseFromString], whose
    result is ignored. *)
Class Protobuf : Type := {
  parse_connect : string -> ConnectParameters;
  parse_surface_parameters : string -> SurfaceParameters;
  parse_surface_id : string -> Z;
  parse_lightdm_id : string -> Z;
  parse_magic : string -> Z;
  parse_void : string -> VoidMsg;
  parse_setting : string -> SurfaceSetting;
  parse_invocation : list Z -> Invocation;
  (** what [ParseFromIstream] leaves in the stream *)
  unparsed : list Z -> list Z;
}.
Context `{Protobuf}.

(** What the generated service class does for a method that the mediator does
    not override ([test_file_descriptors]), and the platform's
    [drm_auth_magic]. *)
Variable test_file_descriptors : VoidMsg -> M (call BufferMsg) unit -> M (call BufferMsg) unit.
Variable drm_auth_magic : Z -> M (call DRMAuthMagicStatus) unit -> M (call DRMAuthMagicStatus) unit.

Definition dispatch_method (inv : Invocation) (key : Z) : M processor bool :=
  let name := method_name inv in
  let id := inv_id inv in
  let args := parameters inv in
  if String.eqb "connect" name then invoke connect (parse_connect args) id key ;; mret true
  else if String.eqb "create_surface" name then
    invoke create_surface_handler (parse_surface_parameters args) id key ;; mret true
  else if String.eqb "next_buffer" name then
    invoke next_buffer_handler (parse_surface_id args) id key ;; mret true
  else if String.eqb "release_surface" name then
    invoke release_surface_handler (parse_surface_id args) id key ;; mret true
  else if String.eqb "test_file_descriptors" name then
    invoke test_file_descriptors (parse_void args) id key ;; mret true
  else if String.eqb "drm_auth_magic" name then
    invoke drm_auth_magic (parse_magic args) id key ;; mret true
  else if String.eqb "select_focus_by_lightdm_id" name then
    invoke select_focus_by_lightdm_id_handler (parse_lightdm_id args) id key ;; mret true
  else if String.eqb "configure_surface" name then
    invoke configure_surface_handler (parse_setting args) id key ;; mret true
  else if String.eqb "disconnect" name then
    invoke disconnect_handler (parse_void args) id key ;; mret false
  else mret false.

(** Exceptions end the connection. *)
Definition dispatch (inv : Invocation) (key : Z) : M processor bool :=
  try_catch (dispatch_method inv key) (fun _ => mret false).

Definition process_message (msg : list Z) (key : Z) : M processor bool :=
  try_catch (dispatch (parse_invocation msg) key) (fun _ => mret false).

End Mediator.

Arguments processor A I P K : clear implicits.
Arguments call A I P K R : clear implicits.
Arguments mkCall {A I P K R} call_proc call_key call_response.
Arguments call_proc {A I P K R} c.
Arguments call_key {A I P K R} c.
Arguments call_response {A I P K R} c.

(** ** The invariant of a connection *)

(** What is asked of the socket: a [send] returns or throws; [send_fds], which
    ignores errors, returns. *)
Class SenderLaws (K : Type) `{MessageSender K} : Prop := {
  send_ends : forall m k, wp (send m) (fun _ _ => True) (fun _ _ => True) (fun _ => False) k;
  send_fds_returns : forall fds k, wp (send_fds fds) (fun _ _ => True) (fun _ _ => False) (fun _ => False) k;
}.

Class PlatformLaws (P : Type) `{GraphicsPlatform P} : Prop := {
  get_ipc_package_ends : forall x,
    wp get_ipc_package (fun _ _ => True) (fun _ _ => True) (fun _ => False) x;
  drm_auth_magic_ends : forall m x,
    wp (drm_auth_magic_platform m) (fun _ _ => True) (fun _ _ => True) (fun _ => False) x;
}.

(** The shell is in order, and the mediator's session is registered. *)
Definition server_ok {A I P K} (p : processor A I P K) : Prop :=
  shell_inv (pr_shell p) /\ forall s, pr_session p = Some s -> s ∈ apps (pr_shell p).

(** What a request from one client leaves to the others: their sessions stay
    registered, and the client's own session is the one it had, or a new one. *)
Record framed {A I P K} (p0 p : processor A I P K) : Prop := {
  fr_others : forall s, s ∈ apps (pr_shell p0) -> pr_session p0 <> Some s -> s ∈ apps (pr_shell p);
  fr_session : forall s, pr_session p = Some s -> pr_session p0 = Some s \/ s ∉ apps (pr_shell p0);
}.

Lemma framed_refl {A I P K} (p : processor A I P K) : framed p p.
Proof. split; auto. Qed.

Section Handlers.
Context {A I P K : Type} `{AllocatorLaws A} `{InputChannelLaws I} `{PlatformLaws P} `{SenderLaws K}.
Implicit Types (p : processor A I P K).

(** A call in progress, before anything has been sent: [p0] is the processor
    when it started, and [uses] whether the handler may cache a resource. *)
Record in_call {R} (uses : bool) (p0 : processor A I P K) (key : Z) (c : call A I P K R) : Prop := {
  ic_server : server_ok (call_proc c);
  ic_key : call_key c = key;
  ic_sent : pr_sent (call_proc c) = pr_sent p0;
  ic_cache : forall k, k <> key -> pr_cache (call_proc c) !! k = pr_cache p0 !! k;
  ic_uses : uses = false -> pr_cache (call_proc c) = pr_cache p0;
  ic_frame : framed p0 (call_proc c);
}.

(** Replace the shell of the processor of a call. *)
Definition put_shell {R} (sh : Shell A I) (c : call A I P K R) : call A I P K R :=
  over proc_lens (over shell_lens sh (call_proc c)) c.

Lemma wp_on_shell {R B} (m : M (Shell A I) B) (Q : B -> call A I P K R -> Prop) E W c :
  wp m (fun b sh => Q b (put_shell sh c)) (fun e sh => E e (put_shell sh c))
    (fun sh => W (put_shell sh c)) (pr_shell (call_proc c)) ->
  wp (on_shell m) Q E W c.
Proof.
  unfold wp, on_shell, zoom. cbn [view proc_lens shell_lens].
  destruct (m (pr_shell (call_proc c))); done.
Qed.

Lemma in_call_put_shell {R} uses p0 key (c : call A I P K R) sh :
  in_call uses p0 key c -> shell_inv sh ->
  (forall s, s ∈ apps (pr_shell (call_proc c)) -> s ∈ apps sh) ->
  in_call uses p0 key (put_shell sh c).
Proof.
  intros [[Hs Ha] Hk He Hc Hu [Hf1 Hf2]] Hsh Happs. split; simpl; try done; split; simpl; auto.
Qed.

Lemma wp_valid_session {R} (Q : session_ptr -> call A I P K R -> Prop) E W c :
  (forall s, pr_session (call_proc c) = Some s -> Q s c) ->
  (pr_session (call_proc c) = None -> E (logic_error "Invalid application session") c) ->
  wp valid_session Q E W c.
Proof.
  intros HQ HE. unfold wp, valid_session, mbind, M_bind, gets.
  destruct (pr_session (call_proc c)) eqn:Es; [by apply HQ|by apply HE].
Qed.

Lemma in_call_respond {R} uses p0 key (c : call A I P K R) (f : R -> R) :
  in_call uses p0 key c -> in_call uses p0 key (mkCall (call_proc c) (call_key c) (f (call_response c))).
Proof. intros []. by split. Qed.

Lemma in_call_save {R} p0 key (c : call A I P K R) v :
  in_call false p0 key c ->
  in_call true p0 key (mkCall (set_cache (<[call_key c := v]> (pr_cache (call_proc c))) (call_proc c))
    (call_key c) (call_response c)).
Proof.
  intros [Hs Hk He Hc Hu [Hf1 Hf2]]. split; simpl; try done. intros k Hne.
  rewrite lookup_insert_ne by congruence. auto.
Qed.

(** A member function of the session that shows and hides nothing; [Post] is
    what else is known when it returns. *)
Lemma wp_on_session_post {R B} uses p0 key (c : call A I P K R) s (m : M (session_env A I) B)
    (Post : B -> session_env A I -> Prop) (Q : B -> call A I P K R -> Prop) E W :
  in_call uses p0 key c -> pr_session (call_proc c) = Some s ->
  (forall e, env_stack e = sh_stack (pr_shell (call_proc c)) ->
     sh_sessions (pr_shell (call_proc c)) !! s = Some (env_session e) ->
     stack_ok none_held (env_stack e) ->
     wp m (fun b e' => quiet e e' /\ Post b e') (fun _ => quiet e) (quiet e) e) ->
  (forall b c' e', in_call uses p0 key c' -> pr_session (call_proc c') = Some s ->
     call_response c' = call_response c -> sh_stack (pr_shell (call_proc c')) = env_stack e' ->
     Post b e' -> Q b c') ->
  (forall e c', in_call uses p0 key c' -> E e c') ->
  (forall c', in_call uses p0 key c' -> W c') ->
  wp (on_session s m) Q E W c.
Proof.
  intros Hc Hs Hm HQ HE HW. apply wp_on_shell.
  pose proof (ic_server _ _ _ _ Hc) as [Hinv Ha]. pose proof (Ha s Hs) as Hin.
  destruct (so_live _ (proj1 Hinv) s Hin) as [sess Hsess].
  set (e := mkEnv sess (sh_stack (pr_shell (call_proc c))) (sh_input (pr_shell (call_proc c)))
    (sh_area (pr_shell (call_proc c)))).
  pose proof (Hm e eq_refl Hsess (so_stack _ (proj1 Hinv))) as Hme.
  unfold wp, with_session in *. rewrite Hsess. fold e.
  destruct (m e) as [b e'|x e'|e'|]; [..|done].
  - destruct Hme as [Hq Hpost].
    eapply (HQ b _ e'); [apply in_call_put_shell; [done|by eapply quiet_put|done]|done..].
  - apply HE. apply in_call_put_shell; [done|by eapply quiet_put|done].
  - apply HW. apply in_call_put_shell; [done|by eapply quiet_put|done].
Qed.

Lemma wp_on_session {R B} uses p0 key (c : call A I P K R) s (m : M (session_env A I) B)
    (Q : B -> call A I P K R -> Prop) E W :
  in_call uses p0 key c -> pr_session (call_proc c) = Some s ->
  (forall e, stack_ok none_held (env_stack e) ->
     wp m (fun _ => quiet e) (fun _ => quiet e) (quiet e) e) ->
  (forall b c', in_call uses p0 key c' -> pr_session (call_proc c') = Some s ->
     call_response c' = call_response c -> Q b c') ->
  (forall e c', in_call uses p0 key c' -> E e c') ->
  (forall c', in_call uses p0 key c' -> W c') ->
  wp (on_session s m) Q E W c.
Proof.
  intros Hc Hs Hm HQ HE HW.
  eapply (wp_on_session_post uses p0 key c s m (fun _ _ => True)); try done.
  - intros e _ _ Hok. eapply wp_mono; [by apply Hm|..]; auto.
  - intros b c' e' ? ? ? _ _. by apply HQ.
Qed.

Lemma get_surface_quiet id (e : session_env A I) :
  stack_ok none_held (env_stack e) ->
  wp (get_surface id) (fun _ => quiet e) (fun _ => quiet e) (quiet e) e.
Proof.
  intros Hok. unfold wp, get_surface, checked_find.
  destruct (OrdMap.find id _); by apply quiet_refl.
Qed.

(** The getters that need the surface to exist. *)
Lemma getter_quiet {B} x (f : surface_ptr -> M (SurfaceStack A) B) (e : session_env A I) :
  stack_ok none_held (env_stack e) ->
  (forall q s st, surface_heap st !! q = Some s -> exists b, f q st = Ret b st) ->
  wp (zoom env_stack_lens (locked_or_throw x f)) (fun _ => quiet e) (fun _ => quiet e) (quiet e) e.
Proof.
  intros Hok Hf. unfold wp, zoom, locked_or_throw, lock_surface. cbn [view env_stack_lens].
  destruct (surface_heap (env_stack e) !! surface x) as [s|] eqn:Hp.
  - destruct (Hf _ _ _ Hp) as [b ->]. destruct e. by apply quiet_refl.
  - destruct e. by apply quiet_refl.
Qed.

(** After a buffer advance the surface, if it is alive, has a client buffer. *)
Definition has_client_buffer (x : ShellSurface) (st : SurfaceStack A) : Prop :=
  forall y, surface_heap st !! surface x = Some y ->
    exists t b, client_buffer_resource y = Some t /\ buffer_fields t = Some b.

Lemma advance_has_buffer x (e : session_env A I) :
  stack_ok none_held (env_stack e) ->
  wp (zoom env_stack_lens (ss_advance_client_buffer x))
    (fun _ e' => quiet e e' /\ has_client_buffer x (env_stack e')) (fun _ => quiet e) (quiet e) e.
Proof.
  intros Hok. unfold wp, zoom, ss_advance_client_buffer, if_locked, lock_surface.
  cbn [view env_stack_lens].
  destruct (surface_heap (env_stack e) !! surface x) as [s|] eqn:Hp.
  2: { split; [destruct e; by apply quiet_refl|]. intros y Hy. simpl in Hy. congruence. }
  assert (forall s' : Surface, is_hidden s' = is_hidden s -> forall q x',
    <[surface x := s']> (surface_heap (env_stack e)) !! q = Some x' ->
    exists x0, surface_heap (env_stack e) !! q = Some x0 /\ is_hidden x' = is_hidden x0) as Hkeep.
  { intros s' Hs' q x'. destruct (decide (q = surface x)) as [->|Hne].
    - rewrite lookup_insert_eq. intros [= <-]. eauto.
    - rewrite lookup_insert_ne by congruence. eauto. }
  pose proof (advance_client_buffer_spec none_held (env_stack e) (surface x) s Hok Hp) as Ha.
  pose proof (stack_ok_update none_held (env_stack e) (surface x) s) as Hupd.
  destruct (advance_client_buffer (surface x) (env_stack e)) as [u st'| |st'|]; [|done| |done].
  - destruct Ha as (t & w & Ht & Hw & _ & _ & ->). split.
    + split; [|split; [done|]; split; [done|]; split; [done|]; by apply Hkeep].
      eapply stack_ok_ext; [..|apply (Hupd (with_resource (Some t) (with_swapper w s)) Hok Hp)];
        try done. split; [done|]. by intros t' [= <-].
    + intros y. simpl. rewrite lookup_insert_eq. intros [= <-].
      destruct Ht as (buf & Hb & _). exists t. unfold buffer_fields, tb_buffer_id, tb_ipc_package.
      rewrite Hb. simpl. eauto.
  - destruct Ha as (w & _ & Hw & _ & ->).
    split; [|split; [done|]; split; [done|]; split; [done|]; by apply Hkeep].
    apply (Hupd (with_resource None (with_swapper w s)) Hok Hp). by split.
Qed.

Lemma wp_client_buffer_of {R} uses p0 key (c : call A I P K R) s x
    (Q : BufferID * BufferIPCPackage -> call A I P K R -> Prop) E W :
  in_call uses p0 key c -> pr_session (call_proc c) = Some s ->
  has_client_buffer x (sh_stack (pr_shell (call_proc c))) ->
  (forall b c', in_call uses p0 key c' -> pr_session (call_proc c') = Some s ->
     call_response c' = call_response c -> Q b c') ->
  (forall e c', in_call uses p0 key c' -> E e c') ->
  (forall c', in_call uses p0 key c' -> W c') ->
  wp (client_buffer_of s x) Q E W c.
Proof.
  intros Hc Hs Hx HQ HE HW. unfold client_buffer_of. apply wp_bind.
  eapply (wp_on_session_post uses p0 key c s _ (fun o _ => exists t b, o = Some t /\ buffer_fields t = Some b));
    try done.
  - intros e He _ Hok. unfold wp, zoom, ss_client_buffer, locked_or_throw, lock_surface.
    cbn [view env_stack_lens]. rewrite <- He in Hx.
    destruct (surface_heap (env_stack e) !! surface x) as [y|] eqn:Hy.
    + destruct (Hx y Hy) as (t & b & Ht & Hb).
      unfold client_buffer, mbind, M_bind, deref, lock_surface. rewrite Hy. simpl.
      split; [destruct e; by apply quiet_refl|]. eauto.
    + destruct e. by apply quiet_refl.
  - intros o c' e' Hc' Hs' Hr _ (t & b & -> & Hb). unfold wp, deref. simpl. rewrite Hb. by apply HQ.
Qed.

Lemma in_call_weaken {R} uses p0 key (c : call A I P K R) : in_call false p0 key c -> in_call uses p0 key c.
Proof. intros []. by split; auto. Qed.

(** A handler keeps the server in order whatever happens, and sends nothing
    itself: [done] runs on such a state.  When it has to wait it has cached
    nothing. *)
Definition well_behaved {Q R} (uses : bool)
    (h : Q -> M (call A I P K R) unit -> M (call A I P K R) unit) : Prop :=
  forall p0 key req done Post E W c,
    in_call false p0 key c ->
    (forall c', in_call uses p0 key c' -> wp done Post E W c') ->
    (forall e c', in_call uses p0 key c' -> E e c') ->
    (forall c', in_call false p0 key c' -> W c') ->
    wp (h req done) Post E W c.

Ltac respond_step := unfold respond at 1, modify at 1, wp at 1; cbv beta.

Lemma wp_respond {R} uses p0 key (f : R -> R) (Q : unit -> call A I P K R -> Prop) E W c :
  in_call uses p0 key c ->
  (forall c', in_call uses p0 key c' -> pr_session (call_proc c') = pr_session (call_proc c) ->
     pr_shell (call_proc c') = pr_shell (call_proc c) -> Q tt c') ->
  wp (respond f) Q E W c.
Proof. intros Hc HQ. apply HQ; [by apply in_call_respond|done|done]. Qed.

Lemma wp_save {R} p0 key v (Q : unit -> call A I P K R -> Prop) E W c :
  in_call false p0 key c ->
  (forall c', in_call true p0 key c' -> pr_shell (call_proc c') = pr_shell (call_proc c) -> Q tt c') ->
  wp (save_resource v) Q E W c.
Proof. intros Hc HQ. apply HQ; [by apply in_call_save|done]. Qed.

Lemma next_buffer_behaves : well_behaved true (@next_buffer_handler A I P K).
Proof.
  intros p0 key req done Post E W c Hc Hdone HE HW. pose proof (fun e c' Hc' => HE e c' (in_call_weaken true _ _ c' Hc')) as HE'. unfold next_buffer_handler.
  apply wp_bind, wp_valid_session; [intros s Hs|by intros; apply HE'].
  apply wp_bind. eapply wp_on_session; [exact Hc|exact Hs|apply get_surface_quiet|..|exact HE'|exact HW].
  intros x c1 Hc1 Hs1 _. apply wp_bind.
  eapply (wp_on_session_post _ _ _ c1 s _ (fun _ e' => has_client_buffer x (env_stack e')));
    [exact Hc1|exact Hs1|intros e _ _; apply advance_has_buffer|..|exact HE'|exact HW].
  intros u c2 e2 Hc2 Hs2 _ Hst Hb. rewrite <- Hst in Hb. apply wp_bind.
  eapply wp_client_buffer_of; [exact Hc2|exact Hs2|exact Hb|..|exact HE'|exact HW].
  intros [bid pkg] c3 Hc3 _ _. apply wp_bind. eapply wp_respond; [exact Hc3|].
  intros c4 Hc4 _ _. apply wp_bind, (wp_save p0 key); [exact Hc4|]. intros c5 Hc5 _. by apply Hdone.
Qed.

Lemma release_surface_behaves : well_behaved false (@release_surface_handler A I P K).
Proof.
  intros p0 key req done Post E W c Hc Hdone HE HW. unfold release_surface_handler.
  apply wp_bind, wp_valid_session; [intros s Hs|by intros; apply HE].
  apply wp_bind. eapply wp_on_session; [exact Hc|exact Hs|apply destroy_quiet|..|exact HE|exact HW].
  intros u c1 Hc1 _ _. by apply Hdone.
Qed.

Lemma configure_behaves : well_behaved false (@configure_surface_handler A I P K).
Proof.
  intros p0 key req done Post E W c Hc Hdone HE HW. unfold configure_surface_handler.
  apply wp_bind. eapply wp_respond; [exact Hc|]. intros c0 Hc0 _ _.
  apply wp_bind, wp_valid_session; [intros s Hs|by intros; apply HE].
  apply wp_bind. eapply wp_on_session; [exact Hc0|exact Hs|apply configure_quiet|..|exact HE|exact HW].
  intros v c1 Hc1 _ _. apply wp_bind. eapply wp_respond; [exact Hc1|]. intros c2 Hc2 _ _. by apply Hdone.
Qed.

Lemma select_focus_behaves : well_behaved false (@select_focus_by_lightdm_id_handler A I P K).
Proof.
  intros p0 key req done Post E W c Hc Hdone HE HW. unfold select_focus_by_lightdm_id_handler.
  apply wp_bind, wp_valid_session; [intros s Hs|by intros; apply HE].
  apply wp_bind, wp_on_shell. pose proof (ic_server _ _ _ _ Hc) as [Hinv Ha].
  destruct (focus_id_spec req _ Hinv) as (sh' & Hr & Hinv' & Happs & _).
  unfold wp at 1. rewrite Hr. apply Hdone, in_call_put_shell; [done|done|by rewrite Happs].
Qed.

Lemma drm_gbm_behaves : well_behaved false (@drm_auth_magic_gbm A I P K _).
Proof.
  intros p0 key req done Post E W c Hc Hdone HE HW. unfold drm_auth_magic_gbm.
  apply wp_bind, wp_valid_session; [intros s Hs|by intros; apply HE].
  apply wp_bind. unfold wp at 1, try_catch, on_platform, zoom, mbind at 1, M_bind.
  cbn [view proc_lens platform_lens].
  pose proof (drm_auth_magic_ends req (pr_platform (call_proc c))) as Hd. unfold wp in Hd.
  assert (forall x (f : DRMAuthMagicStatus -> DRMAuthMagicStatus), in_call false p0 key (mkCall (over platform_lens x (call_proc c)) (call_key c)
    (f (call_response c)))) as Hplat.
  { intros x f. destruct Hc as [[Hs' Ha] Hk He Hcc Hu [Hf1 Hf2]]. by split. }
  destruct (drm_auth_magic_platform req _) as [u x|e x|x|]; [..|done|done].
  - simpl. apply Hdone, (Hplat x (fun m => mkDRMStatus (Some 0) (ds_error m))).
  - destruct e as [w|w|w code]; simpl.
    + apply HE, (Hplat x id).
    + apply HE, (Hplat x id).
    + apply Hdone, (Hplat x (fun m => mkDRMStatus (Some code) (ds_error m))).
Qed.

Lemma drm_android_behaves : well_behaved false (@drm_auth_magic_android A I P K).
Proof.
  intros p0 key req done Post E W c Hc Hdone HE HW. unfold drm_auth_magic_android.
  apply wp_bind, wp_valid_session; [intros s Hs|by intros; apply HE]. by apply HE.
Qed.

Lemma in_call_session {R} uses p0 key (c : call A I P K R) s :
  in_call uses p0 key c ->
  (forall q, s = Some q -> q ∈ apps (pr_shell (call_proc c)) /\
     (pr_session p0 = Some q \/ q ∉ apps (pr_shell p0))) ->
  in_call uses p0 key (mkCall (set_session s (call_proc c)) (call_key c) (call_response c)).
Proof.
  intros [[Hs Ha] Hk He Hc Hu [Hf1 Hf2]] Hq.
  split; try done; split; simpl; [done|intros q Hsq; by apply Hq|done|intros q Hsq; by apply Hq].
Qed.

Lemma wp_assign_session {R} uses p0 key (c : call A I P K R) s (Q : unit -> call A I P K R -> Prop) E W :
  in_call uses p0 key (mkCall (set_session s (call_proc c)) (call_key c) (call_response c)) ->
  (forall c', in_call uses p0 key c' -> pr_session (call_proc c') = s ->
     apps (pr_shell (call_proc c')) = apps (pr_shell (call_proc c)) -> Q tt c') ->
  wp (assign_session s) Q E W c.
Proof.
  intros Hc HQ. unfold assign_session, wp, mbind, M_bind, gets, modify.
  pose proof (ic_server _ _ _ _ Hc) as [Hinv Ha]. simpl in Hinv, Ha.
  destruct (pr_session (call_proc c)) as [old|]; [|by apply HQ].
  destruct (decide (s = Some old)); [by apply HQ|].
  unfold on_shell, zoom. cbn [view proc_lens shell_lens call_proc pr_shell set_session].
  destruct (release_session_spec old _ Hinv) as (sh' & -> & Hinv' & Happs & _).
  apply HQ; [|done|done]. eapply (in_call_put_shell uses p0 key _ sh' Hc); [done|].
  simpl. by rewrite Happs.
Qed.

Lemma disconnect_behaves : well_behaved false (@disconnect_handler A I P K).
Proof.
  intros p0 key req done Post E W c Hc Hdone HE HW. unfold disconnect_handler.
  apply wp_bind, wp_valid_session; [intros s Hs|by intros; apply HE].
  apply wp_bind, wp_on_shell. pose proof Hc as [[Hinv Ha] Hk He Hcc Hu [Hf1 Hf2]].
  destruct (close_session_spec s _ Hinv (Ha s Hs)) as (sh' & Hr & Hinv' & Happs & _).
  unfold wp at 1. rewrite Hr. apply wp_bind.
  apply (wp_assign_session false p0 key).
  - split; simpl; try done. split; simpl; [|done]. intros q Hq Hother. rewrite Happs.
    apply remove1_elem_of; [apply (proj1 Hinv)|]. split; [by apply Hf1|].
    intros ->. by destruct (Hf2 s Hs).
  - intros c' Hc' _ _. by apply Hdone.
Qed.

Lemma wp_on_platform {R B} uses p0 key (m : M P B) (Q : B -> call A I P K R -> Prop) E W c :
  in_call uses p0 key c ->
  (forall x, wp m (fun _ _ => True) (fun _ _ => True) (fun _ => False) x) ->
  (forall b c', in_call uses p0 key c' -> pr_session (call_proc c') = pr_session (call_proc c) ->
     pr_shell (call_proc c') = pr_shell (call_proc c) -> Q b c') ->
  (forall e c', in_call uses p0 key c' -> E e c') ->
  wp (on_platform m) Q E W c.
Proof.
  intros [[Hs Ha] Hk He Hc Hu [Hf1 Hf2]] Hm HQ HE. unfold wp, on_platform, zoom. cbn [view proc_lens platform_lens].
  specialize (Hm (pr_platform (call_proc c))). unfold wp in Hm.
  destruct (m (pr_platform (call_proc c))) as [b x|e x|x|]; [..|done|done].
  - apply HQ; repeat (split; try done).
  - apply HE; repeat (split; try done).
Qed.

Lemma connect_behaves : well_behaved true (@connect A I P K _ _).
Proof.
  intros p0 key req done Post E W c Hc Hdone HE HW. pose proof (fun e c' Hc' => HE e c' (in_call_weaken true _ _ c' Hc')) as HE'. unfold connect.
  apply wp_bind, wp_on_shell. pose proof (ic_server _ _ _ _ Hc) as [Hinv Ha].
  destruct (open_session_spec (cp_application_name req) _ Hinv) as (sh1 & Hr & Hinv1 & Happs & _).
  unfold wp at 1. rewrite Hr. set (s := sh_next (pr_shell (call_proc c))) in *.
  assert (in_call false p0 key (put_shell sh1 c)) as Hc1
    by (apply in_call_put_shell; [done|done|intros q Hq; rewrite Happs; set_solver]).
  apply wp_bind. apply (wp_assign_session false p0 key).
  { apply in_call_session; [done|]. intros q [= <-]. simpl. rewrite Happs. split; [set_solver|].
    destruct (decide (pr_session p0 = Some s)) as [|Hne]; [by left|right; intros Hin].
    apply (fr_others _ _ (ic_frame _ _ _ _ Hc)) in Hin; [|done].
    destruct (so_live _ (proj1 Hinv) _ Hin) as [x Hx].
    assert (s < sh_next (pr_shell (call_proc c)))%nat; [apply (so_fresh _ (proj1 Hinv)); eauto|subst s; lia]. }
  intros c2 Hc2 Hs2 Ha2. apply wp_bind.
  eapply wp_on_platform; [exact Hc2|apply get_ipc_package_ends|..|exact HE'].
  intros pkg c3 Hc3 Hs3 Hsh3. apply wp_bind. unfold wp at 1, gets. apply wp_bind.
  eapply wp_respond; [exact Hc3|]. intros c4 Hc4 Hs4 Hsh4.
  apply wp_bind, (wp_save p0 key); [exact Hc4|]. intros c5 Hc5 Hsh5.
  apply wp_bind. destruct (cp_lightdm_id req) as [id|]; [|by apply Hdone].
  apply wp_on_shell. pose proof (ic_server _ _ _ _ Hc5) as [Hinv5 Ha5].
  assert (s ∈ apps (pr_shell (call_proc c5))) as Hin.
  { rewrite Hsh5, Hsh4, Hsh3, Ha2. simpl. rewrite Happs. set_solver. }
  destruct (tag_session_spec s id _ Hinv5 Hin) as (sh6 & Hr6 & Hinv6 & _ & Happs6 & _).
  unfold wp at 1. rewrite Hr6. apply Hdone, in_call_put_shell; [done|done|by rewrite Happs6].
Qed.

Lemma create_surface_behaves : well_behaved true (@create_surface_handler A I P K _ _).
Proof.
  intros p0 key req done Post E W c Hc Hdone HE HW. pose proof (fun e c' Hc' => HE e c' (in_call_weaken true _ _ c' Hc')) as HE'. unfold create_surface_handler.
  apply wp_bind, wp_valid_session; [intros s Hs|by intros; apply HE'].
  apply wp_bind, wp_on_shell. pose proof (ic_server _ _ _ _ Hc) as [Hinv Ha].
  eapply wp_mono; [apply (create_surface_for_spec s (request_params req) _ Hinv (Ha s Hs))|..|done].
  2: { intros e sh' (Hinv' & _ & Happs). apply HE', in_call_put_shell; [done|done|by rewrite Happs]. }
  intros id sh1 (Hinv1 & _ & Happs & _). cbv beta.
  assert (in_call false p0 key (put_shell sh1 c)) as Hc1
    by (apply in_call_put_shell; [done|done|by rewrite Happs]).
  apply wp_bind. eapply wp_on_session; [exact Hc1|exact Hs|apply get_surface_quiet|..|exact HE'|exact HW].
  intros x c2 Hc2 Hs2 _. apply wp_bind. eapply wp_respond; [exact Hc2|]. intros c3 Hc3 Hs3 _.
  rewrite Hs2 in Hs3.
  assert (forall B (g : Surface -> B) (e : session_env A I), stack_ok none_held (env_stack e) ->
    wp (zoom env_stack_lens (locked_or_throw x (fun q => y ← deref (lock_surface q) ; mret (g y))))
      (fun _ => quiet e) (fun _ => quiet e) (quiet e) e) as Hget.
  { intros B g e Hok. apply getter_quiet; [done|]. intros q y st Hq.
    unfold mbind, M_bind, deref, lock_surface. rewrite Hq. eauto. }
  apply wp_bind. eapply wp_on_session; [exact Hc3|exact Hs3|apply Hget|..|exact HE'|exact HW].
  intros sz c4 Hc4 Hs4 _. apply wp_bind. eapply wp_respond; [exact Hc4|]. intros c5 Hc5 Hs5 _.
  rewrite Hs4 in Hs5.
  apply wp_bind. eapply wp_on_session; [exact Hc5|exact Hs5|apply Hget|..|exact HE'|exact HW].
  intros pf c6 Hc6 Hs6 _. apply wp_bind. eapply wp_respond; [exact Hc6|]. intros c7 Hc7 Hs7 _.
  rewrite Hs6 in Hs7.
  apply wp_bind. unfold supports_input, client_input_fd.
  assert (forall c8, in_call false p0 key c8 -> pr_session (call_proc c8) = Some s ->
    wp (on_surface s (ss_advance_client_buffer x) ;;
        '(bid, ipc_package) ← client_buffer_of s x ;
        respond (fun m =>
          set_surface_buffer (Some (set_buffer_fields bid ipc_package (default buffer0 (sm_buffer m)))) m) ;;
        save_resource (buffer_package ipc_package) ;; done) Post E W c8) as Hrest.
  { intros c8 Hc8 Hs8. apply wp_bind.
    eapply (wp_on_session_post _ _ _ c8 s _ (fun _ e' => has_client_buffer x (env_stack e')));
      [exact Hc8|exact Hs8|intros e _ _; apply advance_has_buffer|..|exact HE'|exact HW].
    intros u c9 e9 Hc9 Hs9 _ Hst Hb. rewrite <- Hst in Hb. apply wp_bind.
    eapply wp_client_buffer_of; [exact Hc9|exact Hs9|exact Hb|..|exact HE'|exact HW].
    intros [bid pkg] c10 Hc10 _ _. apply wp_bind. eapply wp_respond; [exact Hc10|].
    intros c11 Hc11 _ _. apply wp_bind, (wp_save p0 key); [exact Hc11|]. intros c12 Hc12 _. by apply Hdone. }
  destruct (input_channel x) as [ch|].
  - apply wp_bind. unfold wp at 1. simpl. eapply wp_respond; [exact Hc7|]. intros c8 Hc8 Hs8 _.
    apply Hrest; [done|congruence].
  - by apply Hrest.
Qed.

(** The call has been answered, once: [p] is the processor afterwards. *)
Record answered (p0 : processor A I P K) (id key : Z) (err : option string)
    (p : processor A I P K) : Prop := {
  an_server : server_ok p;
  an_frame : framed p0 p;
  an_sent : exists response tail,
    pr_sent p = pr_sent p0 ++ sent_result id response :: tail /\
    (tail = [] \/ exists fds, tail = [sent_fds fds]) /\ error_of response = err;
  an_cache : forall k, pr_cache p !! k = if decide (k = key) then None else pr_cache p0 !! k;
}.

(** The socket takes everything. *)
Definition sender_works : Prop :=
  forall m (k : K), wp (send m) (fun _ _ => True) (fun _ _ => False) (fun _ => False) k.

Lemma send_response_spec {R} `{CarriesFds R b} p0 id key (c : call A I P K R) :
  pr_cache p0 !! key = None -> in_call b p0 key c ->
  wp (send_response id)
    (fun _ c' => answered p0 id key (error_of (any (call_response c))) (call_proc c') /\
       pr_shell (call_proc c') = pr_shell (call_proc c))
    (fun _ c' => in_call b p0 key c' /\ ~ sender_works)
    (fun _ => False) c.
Proof.
  intros Hfree Hc. pose proof Hc as [Hs Hk He Hcc Hu [Hf1 Hf2]]. unfold send_response, wp, mbind at 1, M_bind, get.
  pose proof (extract_carries (call_response c)) as Hcar.
  pose proof (extract_error (call_response c)) as Herr.
  destruct (extract_fds (call_response c)) as [fds r]. simpl in Hcar, Herr.
  unfold respond, modify, mbind at 1, M_bind, zoom. cbn [view proc_lens call_proc].
  unfold mbind, M_bind, sender_send, zoom. cbn [view sender_lens].
  pose proof (send_ends (id, any r) (pr_sender (call_proc c))) as Hse. unfold wp in Hse.
  pose proof (fun Hw : sender_works => Hw (id, any r) (pr_sender (call_proc c))) as Hworks. unfold wp in Hworks.
  unfold mbind, M_bind, modify. cbn [over proc_lens call_proc call_key call_response].
  destruct (send (id, any r) (pr_sender (call_proc c))) as [u k|e k|k|]; [..|done|done].
  2: { simpl. split; [|by intros Hw; apply Hworks]. by repeat (split; try done). }
  destruct fds as [fd|].
  - unfold sender_send_fds, free_resource, modify, mbind, M_bind, zoom. simpl.
    pose proof (send_fds_returns fd k) as Hf. unfold wp in Hf.
    destruct (send_fds fd k) as [u' k'|e k'|k'|]; [|done|done|done]. simpl. split; [|done]. split.
    + done.
    + by split.
    + exists (any r), [sent_fds fd]. split; [by rewrite He, <- app_assoc|]. split; [eauto|done].
    + intros k0. simpl. rewrite Hk. destruct (decide (k0 = key)) as [->|Hne].
      * by rewrite lookup_delete_eq.
      * by rewrite lookup_delete_ne, Hcc by congruence.
  - simpl. split; [|done]. split.
    + done.
    + by split.
    + exists (any r), []. split; [by rewrite He|]. split; [by left|done].
    + intros k0. simpl. rewrite (Hu Hcar). by destruct (decide (k0 = key)) as [->|].
Qed.

Lemma in_call_start {R} `{ResultMessage R} uses p key :
  server_ok p -> in_call uses p key (mkCall p key (result0 : R)).
Proof. intros Hs. split; try done. apply framed_refl. Qed.

(** The connection has failed before the answer was out: nothing has been sent, and the
    cache is what it was but for the resource of this answer. *)
Definition unanswered (p0 : processor A I P K) (key : Z) (p : processor A I P K) : Prop :=
  server_ok p /\ framed p0 p /\ pr_sent p = pr_sent p0 /\ (forall k, k <> key -> pr_cache p !! k = pr_cache p0 !! k) /\ ~ sender_works.

(** A call that waits for a buffer has sent and cached nothing. *)
Definition still_waiting (p0 p : processor A I P K) : Prop :=
  server_ok p /\ framed p0 p /\ pr_sent p = pr_sent p0 /\ pr_cache p = pr_cache p0.

(** A request that is answered at once, one that blocks and is not answered
    yet, and a connection that fails. *)
Definition invoke_post (p0 : processor A I P K) (id key : Z)
    (m : M (processor A I P K) unit) : Prop :=
  wp m (fun _ p => exists err, answered p0 id key err p) (fun _ => unanswered p0 key) (still_waiting p0) p0.

Lemma invoke_spec {Q R} `{CarriesFds R b} (h : Q -> M (call A I P K R) unit -> M (call A I P K R) unit)
    req p id key :
  well_behaved b h -> server_ok p -> pr_cache p !! key = None -> invoke_post p id key (invoke h req id key).
Proof.
  intros Hh Hs Hfree. unfold invoke_post, wp, invoke, try_catch.
  pose proof (Hh p key req (send_response id)
    (fun _ c' => exists err, answered p id key err (call_proc c'))
    (fun _ c' => in_call b p key c') (in_call false p key) (mkCall p key result0)) as Hw.
  unfold wp in Hw.
  assert (match h req (send_response id) (mkCall p key result0) with
    | Ret _ c' => exists err, answered p id key err (call_proc c')
    | Throw _ c' => in_call b p key c'
    | Wait c' => in_call false p key c'
    | Undef => False end) as Hh'.
  { apply Hw; [by apply in_call_start|..|done|done]. intros c' Hc'.
    pose proof (send_response_spec p id key c' Hfree Hc') as Hsr. unfold wp in Hsr.
    unfold wp. destruct (send_response id c'); [destruct Hsr; by eexists|by destruct Hsr|done|done]. }
  clear Hw. destruct (h req _ _) as [u c|e c|c|]; [done| | |done].
  - unfold respond, modify, mbind, M_bind. set (c1 := mkCall _ _ _).
    assert (in_call b p key c1) as Hc1 by by apply in_call_respond.
    pose proof (send_response_spec p id key c1 Hfree Hc1) as Hsr. unfold wp in Hsr.
    destruct (send_response id c1) as [u c2|x c2| |]; [destruct Hsr; eauto| |done|done].
    destruct Hsr as [[? ? ? Hcc ? ?] Hnw]. done.
  - destruct Hh' as [? ? ? ? Hu ?]. repeat (split; [done|]). by apply Hu.
Qed.

Context `{Protobuf}.
Variable test_file_descriptors : VoidMsg -> M (call A I P K BufferMsg) unit -> M (call A I P K BufferMsg) unit.

(** [invoke] gives the handlers a null controller.  The mediator does not override
    [test_file_descriptors], and what the generated class does for a method that is not
    implemented is to report the failure to the controller and to run the closure: it
    answers like a handler, or it is undefined. *)
Definition stub_ok : Prop :=
  well_behaved true test_file_descriptors \/ forall req done c, test_file_descriptors req done c = Undef.

Definition known_methods : list string :=
  ["connect"; "create_surface"; "next_buffer"; "release_surface"; "drm_auth_magic";
   "select_focus_by_lightdm_id"; "configure_surface"; "disconnect"]%string.

Definition service_methods : list string := "test_file_descriptors"%string :: known_methods.

Lemma dispatch_method_spec drm_auth_magic inv key p :
  well_behaved false drm_auth_magic -> server_ok p -> pr_cache p !! key = None ->
  (method_name inv = "test_file_descriptors"%string -> well_behaved true test_file_descriptors) ->
  wp (dispatch_method test_file_descriptors drm_auth_magic inv key)
    (fun b p' =>
       if decide (method_name inv ∈ service_methods)
       then b = negb (String.eqb "disconnect" (method_name inv)) /\
            exists err, answered p (inv_id inv) key err p'
       else b = false /\ p' = p)
    (fun _ p' => method_name inv ∈ service_methods /\ unanswered p key p') (still_waiting p) p.
Proof.
  intros Hdrm Hs Hfree Hstub. unfold dispatch_method.
  assert (forall m b, method_name inv ∈ service_methods ->
    b = negb (String.eqb "disconnect" (method_name inv)) ->
    invoke_post p (inv_id inv) key m ->
    wp (m ;; mret b) (fun b p' =>
       if decide (method_name inv ∈ service_methods)
       then b = negb (String.eqb "disconnect" (method_name inv)) /\
            exists err, answered p (inv_id inv) key err p'
       else b = false /\ p' = p)
      (fun _ p' => method_name inv ∈ service_methods /\ unanswered p key p') (still_waiting p) p) as Hcase.
  { intros m b Hin Hb Hm. apply wp_bind. eapply wp_mono; [exact Hm|..|by intros|done].
    intros u p' He. unfold wp. simpl. by rewrite decide_True by done. }
  repeat lazymatch goal with
    |- wp (if String.eqb ?s ?n then _ else _) _ _ _ _ =>
      destruct (String.eqb_spec s n) as [Heq|?]
  end; try (rewrite <- Heq in *; apply Hcase; [unfold service_methods, known_methods; set_solver|done|]).
  - apply invoke_spec; [apply connect_behaves|done|done].
  - apply invoke_spec; [apply create_surface_behaves|done|done].
  - apply invoke_spec; [apply next_buffer_behaves|done|done].
  - apply invoke_spec; [apply release_surface_behaves|done|done].
  - apply invoke_spec; [by apply Hstub|done|done].
  - by apply invoke_spec.
  - apply invoke_spec; [apply select_focus_behaves|done|done].
  - apply invoke_spec; [apply configure_behaves|done|done].
  - apply invoke_spec; [apply disconnect_behaves|done|done].
  - unfold wp. simpl. rewrite decide_False; [done|]. unfold service_methods, known_methods.
    rewrite !elem_of_cons, elem_of_nil. intros Hin.
    repeat (destruct Hin as [Hin|Hin]; [congruence|]). done.
Qed.

(** A request for [test_file_descriptors] is undefined when the generated method is. *)
Lemma dispatch_stub drm_auth_magic inv key p :
  (forall req done c, test_file_descriptors req done c = Undef) -> method_name inv = "test_file_descriptors"%string ->
  dispatch test_file_descriptors drm_auth_magic inv key p = Undef.
Proof.
  intros Hu Hm. unfold dispatch, try_catch, dispatch_method. rewrite Hm. cbn [String.eqb Ascii.eqb Bool.eqb].
  unfold mbind, M_bind, invoke, try_catch. by rewrite Hu.
Qed.


(** Whatever a message holds, processing it keeps the server in order. *)
Lemma process_message_spec msg key p :
  server_ok p -> pr_cache p !! key = None ->
  (method_name (parse_invocation msg) = "test_file_descriptors"%string -> well_behaved true test_file_descriptors) ->
  wp (process_message test_file_descriptors drm_auth_magic_gbm msg key)
    (fun _ p' => server_ok p' /\ framed p p') (fun _ _ => False)
    (fun p' => server_ok p' /\ framed p p') p.
Proof.
  intros Hs Hfree Hstub. unfold wp, process_message, dispatch, try_catch.
  pose proof (dispatch_method_spec drm_auth_magic_gbm _ key p drm_gbm_behaves Hs Hfree Hstub) as Hd. unfold wp in Hd.
  destruct (dispatch_method _ _ _ key p) as [b p'|e p'|p'|]; [..|done].
  - case_decide; destruct Hd as [? Hd]; [destruct Hd as [err Han]; split; apply Han|].
    subst p'. split; [done|apply framed_refl].
  - simpl. destruct Hd as (_ & ? & ? & _). done.
  - destruct Hd as (? & ? & _). done.
Qed.

(** A handler that begins by checking the session. *)
Definition guarded {Q R} (h : Q -> M (call A I P K R) unit -> M (call A I P K R) unit) : Prop :=
  forall req done c, pr_session (call_proc c) = None -> exists r,
    h req done c = Throw (logic_error "Invalid application session") (mkCall (call_proc c) (call_key c) r).

Lemma valid_session_null {R} (c : call A I P K R) :
  pr_session (call_proc c) = None ->
  valid_session c = Throw (logic_error "Invalid application session") c.
Proof. intros Hc. unfold valid_session, mbind, M_bind, gets. by rewrite Hc. Qed.

Ltac solve_guarded :=
  intros ? ? c Hc; exists (call_response c);
  unfold mbind, M_bind; rewrite valid_session_null by exact Hc; by destruct c.

Lemma create_surface_guarded : guarded (@create_surface_handler A I P K _ _).
Proof. unfold create_surface_handler. solve_guarded. Qed.
Lemma next_buffer_guarded : guarded (@next_buffer_handler A I P K).
Proof. unfold next_buffer_handler. solve_guarded. Qed.
Lemma release_surface_guarded : guarded (@release_surface_handler A I P K).
Proof. unfold release_surface_handler. solve_guarded. Qed.
Lemma select_focus_guarded : guarded (@select_focus_by_lightdm_id_handler A I P K).
Proof. unfold select_focus_by_lightdm_id_handler. solve_guarded. Qed.
Lemma disconnect_guarded : guarded (@disconnect_handler A I P K).
Proof. unfold disconnect_handler. solve_guarded. Qed.
Lemma drm_guarded : guarded (@drm_auth_magic_gbm A I P K _).
Proof. unfold drm_auth_magic_gbm. solve_guarded. Qed.
Lemma configure_guarded : guarded (@configure_surface_handler A I P K).
Proof.
  intros req done c Hc. unfold configure_surface_handler, respond, modify, mbind, M_bind.
  rewrite valid_session_null by done. eauto.
Qed.

Lemma refuses_unconnected {Q R} `{CarriesFds R b}
    (h : Q -> M (call A I P K R) unit -> M (call A I P K R) unit) req id key p :
  guarded h ->
  server_ok p -> pr_cache p !! key = None -> sender_works -> pr_session p = None ->
  exists p', invoke h req id key p = Ret tt p' /\
    answered p id key (Some "Invalid application session"%string) p' /\ pr_shell p' = pr_shell p.
Proof.
  intros Hh Hs Hfree Hw Hn. unfold invoke, try_catch.
  destruct (Hh req (send_response id) (mkCall p key result0) Hn) as [r ->]. cbn [call_proc call_key].
  unfold respond, modify, mbind, M_bind. set (c1 := mkCall _ _ _).
  assert (in_call b p key c1) as Hc1 by (split; try done; apply framed_refl).
  pose proof (send_response_spec p id key c1 Hfree Hc1) as Hsr. unfold wp in Hsr.
  destruct (send_response id c1) as [u c2|x c2| |]; [|by destruct Hsr|done|done].
  exists (call_proc c2). destruct Hsr as [Han Hsh]. split; [done|]. split; [|done].
  simpl in Han. rewrite set_error_error in Han. exact Han.
Qed.

(** A client that has not connected, or has disconnected, gets an error
    answer to every request other than connecting, and the shell does not
    notice. *)
Theorem unconnected_is_refused inv key p :
  server_ok p -> pr_cache p !! key = None -> sender_works -> pr_session p = None ->
  method_name inv ∈ known_methods -> method_name inv <> "connect"%string ->
  exists p', dispatch test_file_descriptors drm_auth_magic_gbm inv key p =
      Ret (negb (String.eqb "disconnect" (method_name inv))) p' /\
    answered p (inv_id inv) key (Some "Invalid application session"%string) p' /\
    pr_shell p' = pr_shell p.
Proof.
  intros Hs Hfree Hw Hn Hin Hne. unfold dispatch, try_catch.
  assert (forall (m : M (processor A I P K) unit) b,
    (exists p', m p = Ret tt p' /\
       answered p (inv_id inv) key (Some "Invalid application session"%string) p' /\ pr_shell p' = pr_shell p) ->
    exists p', match (m ;; mret b) p with Throw _ s' => Ret false s' | o => o end = Ret b p' /\
      answered p (inv_id inv) key (Some "Invalid application session"%string) p' /\
      pr_shell p' = pr_shell p) as Hcase.
  { intros m b (p' & Hm & Han & Hsh). exists p'. unfold mbind, M_bind. by rewrite Hm. }
  unfold known_methods in Hin. rewrite !elem_of_cons, elem_of_nil in Hin. unfold dispatch_method.
  repeat destruct Hin as [Hin|Hin]; try done; rewrite Hin in *; simpl; apply Hcase;
    (eapply refuses_unconnected; [|done..]).
  - apply create_surface_guarded.
  - apply next_buffer_guarded.
  - apply release_surface_guarded.
  - apply drm_guarded.
  - apply select_focus_guarded.
  - apply configure_guarded.
  - apply disconnect_guarded.
Qed.
End Handlers.

(** ** A concrete connection *)

#[export] Instance demo_graphics : GraphicsPlatform unit := {
  get_ipc_package := mret (mkPlatformIPC [1] [33]);
  drm_auth_magic_platform m := if m =? 0 then throw (errno_error "drm" 22) else mret tt;
}.

#[export] Instance demo_graphics_laws : PlatformLaws unit.
Proof. split; [done|]. intros m x. unfold wp. simpl. by destruct (m =? 0). Qed.

#[export] Instance demo_sender : MessageSender unit := {
  send _ := mret tt;
  send_fds _ := mret tt;
}.

#[export] Instance demo_sender_laws : SenderLaws unit.
Proof. by split. Qed.

#[export] Instance demo_protobuf : Protobuf := {
  parse_connect s := mkConnectParameters s (Some 7);
  parse_surface_parameters s := mkSurfaceParameters 320 240 (pf_value argb_8888) (usage_value usage_hardware) s;
  parse_surface_id s := 0;
  parse_lightdm_id s := 7;
  parse_magic s := 5;
  parse_void s := void0;
  parse_setting s := mkSetting (Some 0) (Some 0) (Some 2) None;
  parse_invocation _ := mkInvocation 1 "connect" "app";
  unparsed _ := [];
}.

Definition demo_connection : Type := processor demo_platform Z unit unit.

Definition demo_processor : demo_connection := mkProcessor demo_shell0 None tt ∅ tt [].

Definition demo_test_fds : VoidMsg -> M (call demo_platform Z unit unit BufferMsg) unit ->
    M (call demo_platform Z unit unit BufferMsg) unit := fun _ done => done.

Lemma demo_processor_ok : server_ok demo_processor.
Proof. split; [apply (demo_serve_inv [])|done]. Qed.

(** Connect, create a surface, ask for a buffer, disconnect. *)
Definition demo_talk (names : list string) : option demo_connection :=
  fold_left (fun o n => o ≫= fun p =>
    match dispatch demo_test_fds drm_auth_magic_gbm (mkInvocation (Z.of_nat (length (pr_sent p))) n "app") 1 p with
    | Ret _ p' => Some p'
    | _ => None
    end) names (Some demo_processor).

Example demo_conversation :
  match demo_talk ["connect"; "create_surface"; "next_buffer"; "bogus"; "release_surface"; "disconnect"]%string with
  | Some p => pr_session p = None /\ apps (pr_shell p) = [] /\
      (fun s => match s with sent_result id r => (id, error_of r) | sent_fds l => (-1, None) end) <$> pr_sent p =
      [(0, None); (-1, None); (2, None); (-1, None); (4, None); (-1, None); (6, None); (7, None)]
  | None => False
  end.
Proof. vm_compute. repeat split. Qed.

Lemma demo_stub : stub_ok (A := demo_platform) (I := Z) (P := unit) (K := unit) demo_test_fds.
Proof. left. intros p0 key req done Post E W c Hc Hd _ _. by apply Hd, in_call_weaken. Qed.

(** A generated method that dereferences the null controller. *)
Example test_file_descriptors_undefined :
  dispatch (fun _ _ => undefined) drm_auth_magic_gbm (mkInvocation 3 "test_file_descriptors" EmptyString) 1 demo_processor = Undef.
Proof. reflexivity. Qed.


(** A socket that takes nothing. *)
Definition broken_sender : MessageSender unit := {| send _ := throw (runtime_error "write"); send_fds _ := mret tt |}.

(** When sending fails the package that was saved for the answer stays in the cache. *)
Example failed_send_keeps_resource :
  match dispatch (H2 := broken_sender) demo_test_fds drm_auth_magic_gbm (mkInvocation 3 "connect" "app") 1 demo_processor with
  | Ret b p' => b = false /\ pr_sent p' = [] /\ pr_cache p' !! 1 = Some (platform_package (mkPlatformIPC [1] [33]))
  | _ => False
  end.
Proof. vm_compute. repeat split. Qed.

Lemma unconnected_is_refused_witness :
  exists p', dispatch demo_test_fds drm_auth_magic_gbm (mkInvocation 3 "next_buffer" EmptyString) 1 demo_processor =
      Ret true p' /\
    answered demo_processor 3 1 (Some "Invalid application session"%string) p' /\
    pr_shell p' = pr_shell demo_processor.
Proof.
  apply (unconnected_is_refused (A := demo_platform) (I := Z) (P := unit) (K := unit) demo_test_fds
    (mkInvocation 3 "next_buffer" EmptyString) 1 demo_processor).
  - apply demo_processor_ok.
  - reflexivity.
  - by intros m k.
  - reflexivity.
  - apply (bool_decide_unpack _). reflexivity.
  - discriminate.
Defined.
