(* ===== verification/Wire.v ===== *)
(** * The wire between client and server

    The framing of messages and the passing of file descriptors:
    [frontend::detail::SocketSession] as a [MessageSender]
    ([src/server/frontend/socket_session.cpp]), and on the client's side
    [client::MirBasicRpcChannel], [detail::PendingCallCache]
    ([src/client/mir_basic_rpc_channel.cpp]) and [MirSocketRpcChannel]
    ([src/client/mir_socket_rpc_channel.cpp]), down to libancillary
    ([3rd_party/libancillary]).

    One direction of a connected Unix socket is a [Pipe]; protobuf's encoding
    is a [Codec]. *)

From S2P Require Import Prelude Geometry Buffers Swapper Bundle GbmBuffers SurfaceParams Surfaces Sessions SessionManager Messages Mediator.

(** ** The kernel's side of a socket *)

(** What has been sent and not been received: bytes, and the byte that
    [sendmsg] carries together with file descriptors ([SCM_RIGHTS]). *)
Inductive item : Set :=
| Data (b : Z)
| Rights (fds : list Z).

(** [write] of a whole buffer; [sendmsg] of one byte with descriptors, which
    gives its result; reading exactly [n] bytes; [recvmsg] of one byte with
    room for [n] descriptors: [None] is an error ([-1]), [Some None] a byte
    that came without descriptors. *)
Class Pipe (C : Type) : Type := {
  queued : C -> list item;
  asio_write : list Z -> M C unit;
  sendmsg : list Z -> M C Z;
  asio_read : nat -> M C (list Z);
  recvmsg : nat -> M C (option (option (list Z)));
}.

(** What is documented of it: [write] and [sendmsg] return or fail, and when
    they succeed the queue has grown at its end; a read gives what is at the
    front. *)
Class PipeLaws (C : Type) `{Pipe C} : Prop := {
  asio_write_appends : forall bytes c,
    wp (asio_write bytes) (fun _ c' => queued c' = queued c ++ map Data bytes) (fun _ _ => True)
      (fun _ => False) c;
  sendmsg_appends : forall fds c,
    wp (sendmsg fds) (fun n c' => 0 <= n -> queued c' = queued c ++ [Rights fds]) (fun _ _ => False)
      (fun _ => False) c;
  asio_read_length : forall n c,
    match asio_read n c with Ret bytes _ => length bytes = n | _ => True end;
  asio_read_takes : forall bytes rest c,
    queued c = map Data bytes ++ rest ->
    exists c', asio_read (length bytes) c = Ret bytes c' /\ queued c' = rest;
  recvmsg_takes : forall fds rest c,
    queued c = Rights fds :: rest ->
    exists c', recvmsg (length fds) c = Ret (Some (Some fds)) c' /\ queued c' = rest;
}.

(** ** Protobuf's encoding of the answers *)

(** The type of a response, which its receiver knows. *)
Inductive kind : Set :=
| k_connection | k_surface | k_buffer | k_platform | k_drm_status | k_void | k_setting.

Definition kind_of (a : AnyResponse) : kind :=
  match a with
  | r_connection _ => k_connection
  | r_surface _ => k_surface
  | r_buffer _ => k_buffer
  | r_platform _ => k_platform
  | r_drm_status _ => k_drm_status
  | r_void _ => k_void
  | r_setting _ => k_setting
  end.

(** [wire::Result]. *)
Record Result : Set := mkResult { res_id : Z; res_response : list Z }.

Class Codec : Type := {
  serialize_response : AnyResponse -> list Z;
  serialize_result : Result -> list Z;
  serialize_invocation : Invocation -> list Z;
  parse_response : kind -> list Z -> AnyResponse;
  parse_result : list Z -> Result;
}.

(** Parsing undoes serialization, and consumes what it parses; an identifier is a
    [uint32]. *)
Class CodecLaws `{Codec} `{Protobuf} : Prop := {
  parse_serialize_response : forall a, parse_response (kind_of a) (serialize_response a) = a;
  parse_serialize_result : forall r, is_u32 (res_id r) -> parse_result (serialize_result r) = r;
  parse_serialize_invocation : forall i, is_u32 (inv_id i) ->
    parse_invocation (serialize_invocation i) = i /\ unparsed (serialize_invocation i) = [];
}.

(** ** Framing *)

(** The two bytes of [header_bytes], as both ends write them. *)
Definition encode_header (size : Z) : list Z :=
  [Z.land (Z.shiftr size 8) 255; Z.land (Z.shiftr size 0) 255].

(** [(header_bytes[0] << 8) + header_bytes[1]]. *)
Definition decode_header (bytes : list Z) : option Z :=
  match bytes with
  | [b0; b1] => Some (Z.shiftl b0 8 + b1)
  | _ => None
  end.

(** [whole_message], [send_buffer]: resized, then filled by two copies. *)
Definition whole (body : list Z) : list Z := encode_header (Z.of_nat (length body)) ++ body.

(** ** libancillary *)

Section Ancillary.
Context {C : Type} `{Pipe C}.

Definition ANCIL_MAX_N_FDS : nat := 960.

(** [assert] ends the process. *)
Definition ancil_send_fds (fds : list Z) : M C Z :=
  if decide ((length fds <= ANCIL_MAX_N_FDS)%nat)
  then r ← sendmsg fds ; mret (if 0 <=? r then 0 else -1)
  else undefined.

(** The result, and the array, which was filled with -1 before the call.  When
    no descriptors come, the length in the header is the one put there. *)
Definition ancil_recv_fds (n : nat) : M C (Z * list Z) :=
  if decide ((n <= ANCIL_MAX_N_FDS)%nat)
  then r ← recvmsg n ;
    match r with
    | None => mret (-1, replicate n (-1))
    | Some None => mret (Z.of_nat n, replicate n (-1))
    | Some (Some fds) => mret (Z.of_nat (length fds), fds ++ replicate (n - length fds) (-1))
    end
  else undefined.

End Ancillary.

(** ** [SocketSession] as a sender *)

Section Server.
Context {C : Type} `{Pipe C} `{Codec}.

Record SocketSession : Type := mkSocketSession {
  session_id : Z;
  to_client : C;
  from_client : C;
  message_header_bytes : list Z;
  whole_message : list Z;
}.

Definition to_client_lens : lens SocketSession C :=
  Lens to_client (fun c s => mkSocketSession (session_id s) c (from_client s) (message_header_bytes s)
    (whole_message s)).
Definition from_client_lens : lens SocketSession C :=
  Lens from_client (fun c s => mkSocketSession (session_id s) (to_client s) c (message_header_bytes s)
    (whole_message s)).
Definition header_lens : lens SocketSession (list Z) :=
  Lens message_header_bytes (fun h s => mkSocketSession (session_id s) (to_client s) (from_client s) h
    (whole_message s)).
Definition whole_lens : lens SocketSession (list Z) :=
  Lens whole_message (fun w s => mkSocketSession (session_id s) (to_client s) (from_client s)
    (message_header_bytes s) w).

(** [SocketSession::send]. *)
Definition socket_send (body : list Z) : M SocketSession unit :=
  modify (over whole_lens (whole body)) ;;
  w ← gets whole_message ;
  zoom to_client_lens (asio_write w).

(** [SocketSession::send_fds]. *)
Definition socket_send_fds (fd : list Z) : M SocketSession unit :=
  if decide ((0 < length fd)%nat)
  then zoom to_client_lens (ancil_send_fds fd) ;; mret tt
  else mret tt.

(** What [ProtobufMessageProcessor::send_response] hands to [send]. *)
Definition result_bytes (id : Z) (response : AnyResponse) : list Z :=
  serialize_result (mkResult id (serialize_response response)).

#[export] Instance socket_sender : MessageSender SocketSession := {
  send m := socket_send (result_bytes (fst m) (snd m));
  send_fds := socket_send_fds;
}.

End Server.
Arguments SocketSession C : clear implicits.

(** ** The client's channel *)

Section Client.
Context {C : Type} `{Pipe C} `{Codec}.

(** [PendingCallCache::PendingCall]; [response] is the address of the message
    to fill in, [complete] the closure that the caller gave. *)
Record PendingCall : Set := mkPendingCall {
  send_buffer : list Z;
  response : Z;
  complete : Z;
}.

(** [MirSocketRpcChannel] and its base class.  [responses] is the memory the
    response messages are in; [ch_locked] is the mutex of the cache. *)
Record RpcChannel : Type := mkChannel {
  next_message_id : Z;
  pending_calls : OrdMap.t PendingCall;
  ch_locked : bool;
  ch_socket : C;
  ch_to_server : C;
  header_bytes : list Z;
  responses : gmap Z AnyResponse;
}.

Definition set_next_id (n : Z) (c : RpcChannel) : RpcChannel :=
  mkChannel n (pending_calls c) (ch_locked c) (ch_socket c) (ch_to_server c) (header_bytes c) (responses c).
Definition set_pending (m : OrdMap.t PendingCall) (c : RpcChannel) : RpcChannel :=
  mkChannel (next_message_id c) m (ch_locked c) (ch_socket c) (ch_to_server c) (header_bytes c) (responses c).
Definition set_locked (b : bool) (c : RpcChannel) : RpcChannel :=
  mkChannel (next_message_id c) (pending_calls c) b (ch_socket c) (ch_to_server c) (header_bytes c) (responses c).
Definition set_header (h : list Z) (c : RpcChannel) : RpcChannel :=
  mkChannel (next_message_id c) (pending_calls c) (ch_locked c) (ch_socket c) (ch_to_server c) h (responses c).
Definition set_responses (m : gmap Z AnyResponse) (c : RpcChannel) : RpcChannel :=
  mkChannel (next_message_id c) (pending_calls c) (ch_locked c) (ch_socket c) (ch_to_server c) (header_bytes c) m.
Definition ch_socket_lens : lens RpcChannel C :=
  Lens ch_socket (fun x c => mkChannel (next_message_id c) (pending_calls c) (ch_locked c) x (ch_to_server c)
    (header_bytes c) (responses c)).
Definition ch_to_server_lens : lens RpcChannel C :=
  Lens ch_to_server (fun x c => mkChannel (next_message_id c) (pending_calls c) (ch_locked c) (ch_socket c) x
    (header_bytes c) (responses c)).

(** [std::unique_lock<std::mutex> lock(mutex)] around [m]: taking a mutex that
    is held does not return; the lock is given back also when [m] throws. *)
Definition locking {B} (m : M RpcChannel B) : M RpcChannel B := fun c =>
  if ch_locked c then Wait c
  else match m (set_locked true c) with
       | Ret b c' => Ret b (set_locked false c')
       | Throw e c' => Throw e (set_locked false c')
       | Wait c' => Wait c'
       | Undef => Undef
       end.

(** *** [PendingCallCache] *)

Definition save_completion_details (id address closure : Z) : M RpcChannel unit :=
  locking (modify (fun c =>
    set_pending (OrdMap.insert (i32 id) (mkPendingCall [] address closure) (pending_calls c)) c)).

(** The reference that [save_completion_details] returns, written through by
    [send_message] after the lock has been given back. *)
Definition fill_send_buffer (id : Z) (bytes : list Z) : M RpcChannel unit :=
  p ← deref (fun c => OrdMap.find (i32 id) (pending_calls c)) ;
  modify (fun c => set_pending
    (OrdMap.insert (i32 id) (mkPendingCall bytes (response p) (complete p)) (pending_calls c)) c).

Definition is_empty : M RpcChannel bool :=
  locking (gets (fun c => match pending_calls c with [] => true | _ => false end)).

(** *** Receiving file descriptors *)

(** The spinning loop: it goes on while [ancil_recv_fds] gives -1. *)
Definition recv_loop (n : nat) : M RpcChannel (list Z) :=
  '(received, buf) ← zoom ch_socket_lens (ancil_recv_fds n) ;
  if received =? -1 then wait else mret (take (Z.to_nat received) buf).

(** [clear_fd], and as many descriptors as the message announces. *)
Definition announced_fds (fds_on_side_channel : option Z) : M RpcChannel (list Z) :=
  if 0 <? get_int fds_on_side_channel
  then recv_loop (Z.to_nat (get_int fds_on_side_channel))
  else mret [].

Definition with_buffer_fds (b : BufferMsg) (fds : list Z) : BufferMsg :=
  mkBufferMsg (bm_buffer_id b) fds (bm_data b) (bm_fds_on_side_channel b) (bm_stride b) (bm_error b).

Definition with_platform_fds (p : PlatformMsg) (fds : list Z) : PlatformMsg :=
  mkPlatformMsg fds (pm_data p) (pm_fds_on_side_channel p) (pm_error p).

Definition receive_fds_of (a : AnyResponse) : M RpcChannel AnyResponse :=
  match a with
  | r_surface s =>
      fds ← announced_fds (sm_fds_on_side_channel s) ;
      let s' := mkSurfaceMsg (sm_id s) (sm_width s) (sm_height s) (sm_pixel_format s) (sm_buffer_usage s)
                  (sm_buffer s) fds (sm_fds_on_side_channel s) (sm_error s) in
      match sm_buffer s with
      | Some b => bfds ← announced_fds (bm_fds_on_side_channel b) ;
                  mret (r_surface (set_surface_buffer (Some (with_buffer_fds b bfds)) s'))
      | None => mret (r_surface s')
      end
  | r_buffer b =>
      fds ← announced_fds (bm_fds_on_side_channel b) ; mret (r_buffer (with_buffer_fds b fds))
  | r_platform p =>
      fds ← announced_fds (pm_fds_on_side_channel p) ; mret (r_platform (with_platform_fds p fds))
  | r_connection m =>
      match cm_platform m with
      | Some p => fds ← announced_fds (pm_fds_on_side_channel p) ;
                  mret (r_connection (mkConnectionMsg (Some (with_platform_fds p fds))
                    (cm_display_info m) (cm_error m)))
      | None => mret (r_connection m)
      end
  | _ => mret a
  end.

(** The client's code behind a closure. *)
Variable run_closure : Z -> M RpcChannel unit.

Definition receive_file_descriptors (address closure : Z) : M RpcChannel unit :=
  a ← deref (fun c => responses c !! address) ;
  a' ← receive_fds_of a ;
  modify (fun c => set_responses (<[address := a']> (responses c)) c) ;;
  run_closure closure.

(** A result nobody waits for is logged; for any other one the response is
    parsed and the callback run, and then the call is forgotten. *)
Definition complete_response (result : Result) : M RpcChannel unit :=
  locking (
    o ← gets (fun c => OrdMap.find (i32 (res_id result)) (pending_calls c)) ;
    match o with
    | None => mret tt
    | Some completion =>
        a ← deref (fun c => responses c !! response completion) ;
        modify (fun c => set_responses
          (<[response completion := parse_response (kind_of a) (res_response result)]> (responses c)) c) ;;
        receive_file_descriptors (response completion) (complete completion) ;;
        modify (fun c => set_pending (OrdMap.erase (i32 (res_id result)) (pending_calls c)) c)
    end).

(** *** [MirBasicRpcChannel] and [MirSocketRpcChannel] *)

(** The sum [id + 1] of two [int]s must not overflow. *)
Definition next_id : M RpcChannel Z :=
  id ← gets next_message_id ;
  if id =? 2147483647 then undefined
  else modify (fun c => set_next_id (id + 1) c) ;; mret id.

(** [set_id] converts to [uint32]. *)
Definition invocation_for (method request : string) : M RpcChannel Invocation :=
  id ← next_id ;
  mret (mkInvocation (u32 id) method request).

(** The asynchronous write, as one that has completed before the next one is
    started. *)
Definition send_message (body : list Z) (id : Z) : M RpcChannel unit :=
  fill_send_buffer id (whole body) ;;
  p ← deref (fun c => OrdMap.find (i32 id) (pending_calls c)) ;
  zoom ch_to_server_lens (asio_write (send_buffer p)).

Definition CallMethod (method parameters : string) (address closure : Z) : M RpcChannel unit :=
  invocation ← invocation_for method parameters ;
  let buffer := serialize_invocation invocation in
  save_completion_details (inv_id invocation) address closure ;;
  send_message buffer (inv_id invocation).

Definition read_message_header : M RpcChannel Z :=
  deref (fun c => decode_header (header_bytes c)).

Definition read_message_body (body_size : Z) : M RpcChannel Result :=
  message ← zoom ch_socket_lens (asio_read (Z.to_nat body_size)) ;
  mret (parse_result message).

Definition read_message : M RpcChannel unit :=
  try_catch
    (body_size ← read_message_header ;
     result ← read_message_body body_size ;
     complete_response result)
    (fun _ => mret tt).

(** Whether another header is waited for.  On an error [empty] is asked, to
    decide what to log. *)
Definition on_header_read (error : bool) : M RpcChannel bool :=
  if error then is_empty ;; mret false
  else read_message ;; mret true.

(** One turn of the I/O service: two bytes have come in. *)
Definition io_turn : M RpcChannel bool :=
  h ← zoom ch_socket_lens (asio_read 2) ;
  modify (set_header h) ;;
  on_header_read false.

End Client.
Arguments RpcChannel C : clear implicits.

(** ** Lemmas on framing *)

Lemma low_byte n : 0 <= n -> Z.land n 255 = n mod 256.
Proof. intros. change 255 with (Z.ones 8). rewrite Z.land_ones by lia. done. Qed.

Lemma decode_encode_header n :
  0 <= n -> decode_header (encode_header n) = Some (n mod 65536).
Proof.
  intros Hn. unfold decode_header, encode_header.
  rewrite Z.shiftr_0_r, !low_byte, Z.shiftl_mul_pow2, Z.shiftr_div_pow2 by
    (try apply Z.shiftr_nonneg; lia).
  f_equal. change (2 ^ 8) with 256. change 65536 with (256 * 256).
  rewrite (Z.rem_mul_r n 256 256) by lia. lia.
Qed.

Lemma decode_whole (body : list Z) :
  decode_header (encode_header (Z.of_nat (length body))) = Some (Z.of_nat (length body)) <->
  Z.of_nat (length body) < 65536.
Proof.
  rewrite decode_encode_header by lia. split.
  - intros [= Hm]. pose proof (Z.mod_pos_bound (Z.of_nat (length body)) 65536 ltac:(lia)). lia.
  - intros Hl. rewrite Z.mod_small by lia. done.
Qed.

(** What an answer puts on the wire: the frame, and the descriptors if there
    are any. *)
Definition frame (body : list Z) : list item := map Data (whole body).

Definition side_items (fds : option (list Z)) : list item :=
  match fds with
  | Some (x :: l) => [Rights (x :: l)]
  | _ => []
  end.

(** The response as the receiver is given it: the descriptors of a buffer and of
    a platform are those the handler put there, and their count stays in the
    message.  A surface's own descriptors are lost: the overload of
    [send_response] for [Surface] sends only those of its buffer, the others go
    as numbers in the message, and the receiver clears them. *)
Definition counted_buffer (b : BufferMsg) : BufferMsg :=
  mkBufferMsg (bm_buffer_id b) (bm_fd b) (bm_data b) (Some (Z.of_nat (length (bm_fd b)))) (bm_stride b)
    (bm_error b).

Definition counted_platform (p : PlatformMsg) : PlatformMsg :=
  mkPlatformMsg (pm_fd p) (pm_data p) (Some (Z.of_nat (length (pm_fd p)))) (pm_error p).

Definition delivered (a : AnyResponse) : AnyResponse :=
  match a with
  | r_buffer b => r_buffer (counted_buffer b)
  | r_platform p => r_platform (counted_platform p)
  | r_connection m =>
      r_connection (mkConnectionMsg (counted_platform <$> cm_platform m) (cm_display_info m) (cm_error m))
  | r_surface s =>
      r_surface (mkSurfaceMsg (sm_id s) (sm_width s) (sm_height s) (sm_pixel_format s) (sm_buffer_usage s)
        (counted_buffer <$> sm_buffer s) [] (sm_fds_on_side_channel s) (sm_error s))
  | _ => a
  end.

(** A response announces no descriptors of a surface itself: no handler sets the
    count of a surface. *)
Definition no_surface_fds (a : AnyResponse) : Prop :=
  match a with
  | r_surface s => get_int (sm_fds_on_side_channel s) <= 0
  | _ => True
  end.

Section Proofs.
Context {C : Type} `{PipeLaws C} `{CodecLaws}.
Implicit Types (ch : RpcChannel C) (s : SocketSession C).

(** *** Receiving descriptors *)

Lemma recv_loop_spec ch fds rest :
  (length fds <= ANCIL_MAX_N_FDS)%nat ->
  queued (ch_socket ch) = Rights fds :: rest ->
  exists x, recv_loop (length fds) ch = Ret fds (over ch_socket_lens x ch) /\ queued x = rest.
Proof.
  intros Hle Hq. destruct (recvmsg_takes _ _ _ Hq) as (x & Hr & Hx). exists x. split; [|done].
  unfold recv_loop, zoom, ancil_recv_fds, mbind, M_bind. rewrite decide_True by done.
  cbn [view over ch_socket_lens]. rewrite Hr. simpl.
  destruct (Z.eqb_spec (Z.of_nat (length fds)) (-1)); [lia|].
  rewrite Nat2Z.id, take_app_length. done.
Qed.

Lemma announced_fds_spec ch fds rest :
  (length fds <= ANCIL_MAX_N_FDS)%nat ->
  queued (ch_socket ch) = side_items (Some fds) ++ rest ->
  exists x, announced_fds (Some (Z.of_nat (length fds))) ch = Ret fds (over ch_socket_lens x ch) /\
    queued x = rest.
Proof.
  intros Hle Hq. unfold announced_fds, get_int. simpl. destruct fds as [|fd fds].
  - exists (ch_socket ch). split; [by destruct ch|done].
  - rewrite (proj2 (Z.ltb_lt _ _)) by (simpl; lia). rewrite Nat2Z.id. by apply recv_loop_spec.
Qed.

Lemma announced_none ch o : get_int o <= 0 -> announced_fds o ch = Ret [] ch.
Proof. intros Ho. unfold announced_fds. rewrite (proj2 (Z.ltb_ge _ _)) by lia. done. Qed.

(** What the two ends agree on for a response type. *)
Class SideChannel (R : Type) `{ResultMessage R} : Prop := {
  side_kind : forall r, kind_of (any (snd (extract_fds r))) = kind_of (any r);
  side_restored : forall r ch rest,
    no_surface_fds (any r) ->
    (length (default [] (fst (extract_fds r))) <= ANCIL_MAX_N_FDS)%nat ->
    queued (ch_socket ch) = side_items (fst (extract_fds r)) ++ rest ->
    exists x, receive_fds_of (any (snd (extract_fds r))) ch =
        Ret (delivered (any r)) (over ch_socket_lens x ch) /\ queued x = rest;
}.

#[export] Instance buffer_side : SideChannel BufferMsg.
Proof.
  split; [done|]. intros b ch rest _ Hle Hq.
  destruct (announced_fds_spec ch (bm_fd b) rest Hle Hq) as (x & Hx & Hrest). exists x. split; [|done].
  simpl. unfold mbind, M_bind. rewrite Hx. done.
Qed.

#[export] Instance platform_side : SideChannel PlatformMsg.
Proof.
  split; [done|]. intros b ch rest _ Hle Hq.
  destruct (announced_fds_spec ch (pm_fd b) rest Hle Hq) as (x & Hx & Hrest). exists x. split; [|done].
  simpl. unfold mbind, M_bind. rewrite Hx. done.
Qed.

#[export] Instance connection_side : SideChannel ConnectionMsg.
Proof.
  split; [intros [[p|] i e]; done|]. intros [[p|] i e] ch rest _ Hle Hq.
  - destruct (announced_fds_spec ch (pm_fd p) rest Hle Hq) as (x & Hx & Hrest). exists x. split; [|done].
    simpl. unfold mbind, M_bind. rewrite Hx. done.
  - exists (ch_socket ch). split; [by destruct ch|done].
Qed.

#[export] Instance surface_side : SideChannel SurfaceMsg.
Proof.
  split; [intros []; by destruct sm_buffer|].
  intros [id w h pf u [b|] fd side e] ch rest Hno Hle Hq; simpl in Hno.
  - destruct (announced_fds_spec ch (bm_fd b) rest Hle Hq) as (x & Hx & Hrest). exists x. split; [|done].
    simpl. unfold mbind, M_bind. rewrite announced_none by done. rewrite Hx. done.
  - exists (ch_socket ch). split; [|done]. simpl. unfold mbind, M_bind.
    rewrite announced_none by done. by destruct ch.
Qed.

Lemma plain_side (R : Type) `{ResultMessage R} :
  (forall r, extract_fds r = (None, r)) ->
  (forall r ch, receive_fds_of (any r) ch = Ret (any r) ch) ->
  (forall r, delivered (any r) = any r) ->
  SideChannel R.
Proof.
  intros Hx Hr Hd. split.
  - intros r. by rewrite Hx.
  - intros r ch rest _ _ Hq. rewrite Hx in *. exists (ch_socket ch). simpl. rewrite Hr, Hd.
    split; [by destruct ch|done].
Qed.

#[export] Instance drm_side : SideChannel DRMAuthMagicStatus.
Proof. by apply plain_side. Qed.
#[export] Instance void_side : SideChannel VoidMsg.
Proof. by apply plain_side. Qed.
#[export] Instance setting_side : SideChannel SurfaceSetting.
Proof. by apply plain_side. Qed.

(** *** The server's end *)

(** [sendmsg] of descriptors succeeds. *)
Definition sends_descriptors : Prop :=
  forall fds (x : C), wp (sendmsg fds) (fun n _ => 0 <= n) (fun _ _ => False) (fun _ => False) x.

Lemma socket_send_spec body s u s' :
  socket_send body s = Ret u s' ->
  queued (to_client s') = queued (to_client s) ++ frame body /\ from_client s' = from_client s.
Proof.
  unfold socket_send, modify, gets, zoom, mbind, M_bind. cbn [view over to_client_lens whole_lens whole_message to_client].
  pose proof (asio_write_appends (whole body) (to_client s)) as Hw. unfold wp in Hw.
  destruct (asio_write (whole body) (to_client s)); intros; simplify_eq. done.
Qed.

Lemma socket_send_fds_spec fds s u s' :
  sends_descriptors -> socket_send_fds fds s = Ret u s' ->
  queued (to_client s') = queued (to_client s) ++ side_items (Some fds) /\
  (length fds <= ANCIL_MAX_N_FDS)%nat.
Proof.
  intros Hgood. unfold socket_send_fds. destruct fds as [|fd fds].
  - simpl. intros [= _ <-]. rewrite app_nil_r. split; [done|lia].
  - rewrite decide_True by (simpl; lia).
    unfold zoom, ancil_send_fds, mbind, M_bind, mret, M_ret. case_decide; [|done]. cbn [view over to_client_lens].
    pose proof (sendmsg_appends (fd :: fds) (to_client s)) as Hs.
    pose proof (Hgood (fd :: fds) (to_client s)) as Hg. unfold wp in Hs, Hg.
    destruct (sendmsg (fd :: fds) (to_client s)); intros; simplify_eq.
    split; [by apply Hs|done].
Qed.

Lemma send_response_emits {A I P R} `{ResultMessage R} id
    (c c' : call A I P (SocketSession C) R) :
  sends_descriptors -> send_response id c = Ret tt c' ->
  let '(fds, r) := extract_fds (call_response c) in
  queued (to_client (pr_sender (call_proc c'))) =
    queued (to_client (pr_sender (call_proc c))) ++ frame (result_bytes id (any r)) ++ side_items fds /\
  (length (default [] fds) <= ANCIL_MAX_N_FDS)%nat.
Proof.
  intros Hgood Hsend. unfold send_response, mbind, M_bind in Hsend.
  unfold get in Hsend. destruct (extract_fds (call_response c)) as [fds r].
  unfold respond, modify, sender_send, zoom, mbind, M_bind in Hsend.
  cbn [view over proc_lens sender_lens call_proc pr_sender send socket_sender fst snd] in Hsend.
  destruct (socket_send (result_bytes id (any r)) (pr_sender (call_proc c))) as [u s1| | |] eqn:E1; try done.
  apply socket_send_spec in E1 as [E1 _]. unfold modify in Hsend.
  destruct fds as [fd|].
  - unfold sender_send_fds, free_resource, zoom, modify, mbind, M_bind in Hsend.
    cbn [view over proc_lens sender_lens call_proc pr_sender send_fds socket_sender] in Hsend.
    destruct (socket_send_fds fd s1) as [u2 s2| | |] eqn:E2; try done.
    apply socket_send_fds_spec in E2 as [E2 Hle]; [|done].
    simplify_eq. simpl. rewrite E2, E1, <- app_assoc. done.
  - unfold mret, M_ret in Hsend. simplify_eq. simpl. rewrite E1, app_nil_r. split; [done|lia].
Qed.

(** *** The client's end *)

(** One message is read off the wire, and nothing else. *)
Lemma io_turn_reads run_closure ch body rest :
  Z.of_nat (length body) < 65536 ->
  queued (ch_socket ch) = frame body ++ rest ->
  exists x, queued x = rest /\
    io_turn run_closure ch =
      (try_catch (complete_response run_closure (parse_result body)) (fun _ => mret tt) ;; mret true)
        (set_header (encode_header (Z.of_nat (length body))) (over ch_socket_lens x ch)).
Proof.
  intros Hlen Hq. unfold frame, whole in Hq. rewrite map_app, <- app_assoc in Hq.
  destruct (asio_read_takes _ _ _ Hq) as (x1 & Hr1 & Hx1).
  destruct (asio_read_takes _ _ _ Hx1) as (x2 & Hr2 & Hx2). exists x2. split; [done|].
  unfold io_turn, zoom, modify, mbind, M_bind. cbn [view over ch_socket_lens].
  change (asio_read 2 (ch_socket ch)) with
    (asio_read (length (encode_header (Z.of_nat (length body)))) (ch_socket ch)).
  rewrite Hr1. cbv beta iota. unfold on_header_read, read_message, mbind, M_bind. unfold try_catch at 1.
  unfold read_message_header, deref. cbn [header_bytes set_header].
  rewrite (proj2 (decode_whole body) Hlen). unfold read_message_body, zoom, mbind, M_bind.
  cbn [view over ch_socket_lens ch_socket set_header]. rewrite Nat2Z.id, Hr2. cbv beta iota. done.
Qed.

(** The channel when the caller's closure is run: the message is off the wire
    and the response filled in, while the cache is still locked. *)
Definition at_callback ch (p : PendingCall) (a : AnyResponse) (rest : list item) (ch1 : RpcChannel C) : Prop :=
  queued (ch_socket ch1) = rest /\ responses ch1 = <[response p := a]> (responses ch) /\
  pending_calls ch1 = pending_calls ch /\ next_message_id ch1 = next_message_id ch /\
  ch_to_server ch1 = ch_to_server ch /\ ch_locked ch1 = true.

Lemma complete_response_spec {R} `{SideChannel R} run_closure id r ch p a rest :
  is_u32 id -> no_surface_fds (any r) ->
  (length (default [] (fst (extract_fds r))) <= ANCIL_MAX_N_FDS)%nat ->
  queued (ch_socket ch) = side_items (fst (extract_fds r)) ++ rest ->
  ch_locked ch = false ->
  OrdMap.find (i32 id) (pending_calls ch) = Some p ->
  responses ch !! response p = Some a -> kind_of a = kind_of (any r) ->
  exists ch1, at_callback ch p (delivered (any r)) rest ch1 /\
  complete_response run_closure (parse_result (result_bytes id (any (snd (extract_fds r))))) ch =
    match run_closure (complete p) ch1 with
    | Ret _ ch2 => Ret tt (set_locked false (set_pending (OrdMap.erase (i32 id) (pending_calls ch2)) ch2))
    | Throw e ch2 => Throw e (set_locked false ch2)
    | Wait ch2 => Wait ch2
    | Undef => Undef
    end.
Proof.
  intros Hid Hno Hle Hq Hl Hp Ha Hk.
  unfold result_bytes. rewrite parse_serialize_result by done.
  unfold complete_response, locking. rewrite Hl. unfold gets, mbind, M_bind. cbn [pending_calls set_locked res_id].
  rewrite Hp. unfold deref at 1. cbn [responses set_locked]. rewrite Ha. unfold modify at 1.
  cbn [res_response responses set_locked].
  rewrite Hk, <- (side_kind r), parse_serialize_response.
  unfold receive_file_descriptors, mbind, M_bind, deref. cbn [responses set_responses].
  rewrite lookup_insert_eq.
  edestruct (side_restored r) as (x & Hx & Hrest); [exact Hno|exact Hle| |rewrite Hx]; [exact Hq|].
  unfold modify at 1. cbv beta iota.
  match goal with |- context [run_closure _ ?s] => exists s end.
  split; [|destruct (run_closure _ _); reflexivity].
  split; [exact Hrest|]. simpl. rewrite insert_insert_eq. done.
Qed.

(** *** Requests *)

(** The pending calls are those of distinct earlier identifiers. *)
Record channel_ok ch : Prop := {
  co_sorted : OrdMap.sorted (pending_calls ch);
  co_ids : Forall (fun k => 0 <= k < next_message_id ch) (OrdMap.keys (pending_calls ch));
  co_next : 0 <= next_message_id ch <= 2147483647;
}.

Lemma channel_ok_call ch p p' ch' :
  channel_ok ch -> next_message_id ch < 2147483647 ->
  next_message_id ch' = next_message_id ch + 1 ->
  pending_calls ch' =
    OrdMap.insert (next_message_id ch) p' (OrdMap.insert (next_message_id ch) p (pending_calls ch)) ->
  channel_ok ch'.
Proof.
  intros [Hs Hk Hn] Hlt Hn' Hp.
  split; rewrite ?Hp; [by repeat apply insert_sorted| |lia].
  rewrite Forall_forall in *. intros i Hi. rewrite !keys_insert in Hi.
  assert (i = next_message_id ch \/ i ∈ OrdMap.keys (pending_calls ch)) as [->|Hin] by tauto; [lia|].
  specialize (Hk i Hin). simpl in Hk. lia.
Qed.

(** The call [id] has been added to the pending calls of [ch]. *)
Definition filed ch (id : Z) (body : list Z) (address closure : Z) (ch' : RpcChannel C) : Prop :=
  channel_ok ch' /\ (id ∉ OrdMap.keys (pending_calls ch)) /\
  forall k, OrdMap.find k (pending_calls ch') =
    (if k =? id then Some (mkPendingCall (whole body) address closure) else OrdMap.find k (pending_calls ch)).

(** A request gets an identifier that no pending call has; it is filed
    under it before anything is sent, with the caller's response and closure,
    and the calls that were pending stay as they were; what is sent is exactly
    one frame with the method and the parameters.  When the write fails the
    call stays pending. *)
Theorem call_is_filed_and_sent method parameters address closure ch :
  channel_ok ch -> next_message_id ch < 2147483647 -> ch_locked ch = false ->
  let id := next_message_id ch in
  let body := serialize_invocation (mkInvocation id method parameters) in
  wp (CallMethod method parameters address closure)
    (fun _ ch' => filed ch id body address closure ch' /\
       queued (ch_to_server ch') = queued (ch_to_server ch) ++ frame body)
    (fun _ => filed ch id body address closure) (fun _ => False) ch.
Proof.
  intros Hok Hlt Hl id body. pose proof (co_next _ Hok) as Hn.
  assert (forall x, filed ch id body address closure (mkChannel (id + 1)
    (OrdMap.insert id (mkPendingCall (whole body) address closure)
      (OrdMap.insert id (mkPendingCall [] address closure) (pending_calls ch)))
    false (ch_socket ch) x (header_bytes ch) (responses ch))) as Hfiled.
  { intros x. split; [by eapply (channel_ok_call ch)|]. split.
    - intros Hin. pose proof (co_ids _ Hok) as Hk. rewrite Forall_forall in Hk.
      specialize (Hk _ Hin). simpl in Hk. subst id. lia.
    - intros k. simpl. rewrite !find_insert. by destruct (k =? id). }
  assert (u32 id = id) as Hu by (apply u32_id; unfold is_u32; lia).
  assert (i32 id = id) as Hi by (apply i32_id; unfold is_i32; lia).
  unfold wp, CallMethod, invocation_for, next_id, gets, mbind, M_bind. fold id.
  destruct (Z.eqb_spec id 2147483647); [lia|]. unfold modify, mret, M_ret.
  cbn [inv_id]. rewrite Hu. fold body.
  unfold save_completion_details, locking, modify. cbn [ch_locked set_next_id]. rewrite Hl, Hi.
  unfold send_message, fill_send_buffer, deref, modify, zoom, mbind, M_bind.
  cbn [pending_calls set_pending set_locked set_next_id]. rewrite Hi, find_insert, Z.eqb_refl.
  cbn [pending_calls set_pending set_locked set_next_id]. rewrite find_insert, Z.eqb_refl.
  cbn [view over ch_to_server_lens send_buffer ch_to_server set_pending set_locked set_next_id response complete].
  pose proof (asio_write_appends (whole body) (ch_to_server ch)) as Hw. unfold wp in Hw.
  destruct (asio_write (whole body) (ch_to_server ch)); [|apply Hfiled|done..].
  split; [apply Hfiled|exact Hw].
Qed.

(** *** Answers *)

Section Answer.
Context {A I P R : Type} `{SideChannel R}.
Variables (id : Z) (c c' : call A I P (SocketSession C) R).
Variables (ch : RpcChannel C) (p : PendingCall) (a : AnyResponse) (rest : list item).

(** The handler's response fits a frame and has been sent on a connection
    with nothing under way; the client waits for it. *)
Hypothesis Hid : is_u32 id.
Hypothesis Hgood : sends_descriptors.
Hypothesis Hno : no_surface_fds (any (call_response c)).
Hypothesis Hsize : Z.of_nat (length (result_bytes id (any (snd (extract_fds (call_response c)))))) < 65536.
Hypothesis Hsend : send_response id c = Ret tt c'.
Hypothesis Hempty : queued (to_client (pr_sender (call_proc c))) = [].
Hypothesis Hq : queued (ch_socket ch) = queued (to_client (pr_sender (call_proc c'))) ++ rest.
Hypothesis Hl : ch_locked ch = false.
Hypothesis Hp : OrdMap.find (i32 id) (pending_calls ch) = Some p.
Hypothesis Ha : responses ch !! response p = Some a.
Hypothesis Hk : kind_of a = kind_of (any (call_response c)).

Lemma answer_turn run_closure :
  exists ch1, at_callback ch p (delivered (any (call_response c))) rest ch1 /\
    io_turn run_closure ch =
    match run_closure (complete p) ch1 with
    | Ret _ ch2 => Ret true (set_locked false (set_pending (OrdMap.erase (i32 id) (pending_calls ch2)) ch2))
    | Throw _ ch2 => Ret true (set_locked false ch2)
    | Wait ch2 => Wait ch2
    | Undef => Undef
    end.
Proof.
  pose proof (send_response_emits id c c' Hgood Hsend) as He.
  rewrite (surjective_pairing (extract_fds (call_response c))) in He. destruct He as [He Hle].
  rewrite He, Hempty, app_nil_l, <- app_assoc in Hq.
  destruct (io_turn_reads run_closure ch _ _ Hsize Hq) as (x & Hx & ->).
  edestruct (complete_response_spec run_closure id (call_response c)
    (set_header (encode_header (Z.of_nat
      (length (result_bytes id (any (snd (extract_fds (call_response c)))))))) (over ch_socket_lens x ch)))
    as (ch1 & Hch1 & Hcr); [exact Hid|exact Hno|exact Hle|exact Hx|exact Hl|exact Hp|exact Ha|exact Hk|].
  exists ch1. split; [exact Hch1|]. unfold mbind, M_bind, try_catch. rewrite Hcr.
  destruct (run_closure (complete p) ch1); done.
Qed.

(** C10: an answer reaches the caller as the handler made it, but for a surface's
    own descriptors.  What [send_response] puts on the wire is one frame and,
    when the buffer or the platform of the response holds file descriptors, one
    message with them; one turn of the client's I/O service takes exactly that
    off the wire and stores in the caller's response what the handler had
    written, the descriptors of the buffer or of the platform included and with
    their count.  The descriptors that a surface holds beside its buffer's (that
    of its input channel) are not among them: they are sent as numbers only, and
    the client clears them ([surface_descriptors_lost]).  Then the caller's
    closure is run; when it returns, the call is forgotten and the next message
    waited for.  This is for an answer whose frame's body is shorter than 65536
    bytes (the header has two), on a connection with nothing else under way and
    on which the message with the descriptors can be sent, when the client waits
    for that answer, and for a closure that does not throw, block or make
    requests (one that does blocks the channel). *)
Theorem answer_reaches_client run_closure :
  (forall ch1, at_callback ch p (delivered (any (call_response c))) rest ch1 ->
     wp (run_closure (complete p))
       (fun _ ch2 => queued (ch_socket ch2) = rest /\ pending_calls ch2 = pending_calls ch /\
          responses ch2 !! response p = responses ch1 !! response p)
       (fun _ _ => False) (fun _ => False) ch1) ->
  exists ch', io_turn run_closure ch = Ret true ch' /\
    queued (ch_socket ch') = rest /\ ch_locked ch' = false /\
    responses ch' !! response p = Some (delivered (any (call_response c))) /\
    pending_calls ch' = OrdMap.erase (i32 id) (pending_calls ch).
Proof.
  intros Hrun. destruct (answer_turn run_closure) as (ch1 & Hat & ->). specialize (Hrun ch1 Hat).
  unfold wp in Hrun. destruct (run_closure (complete p) ch1) as [u ch2| | |]; [|done..].
  destruct Hrun as (Hq2 & Hp2 & Hr2), Hat as (_ & Hr & _). eexists. split; [reflexivity|].
  simpl. rewrite Hp2, Hr2, Hr, lookup_insert_eq. done.
Qed.

(** C38: a closure that makes another request never returns: it is run while
    the mutex of the pending calls is held, and the request takes that mutex.
    The I/O thread stops there, before the call that was answered is
    forgotten. *)
Theorem call_in_callback_deadlocks method parameters address closure :
  next_message_id ch < 2147483647 ->
  exists ch2, io_turn (fun _ => CallMethod method parameters address closure) ch = Wait ch2 /\
    ch_locked ch2 = true /\ OrdMap.find (i32 id) (pending_calls ch2) = Some p.
Proof.
  intros Hn. destruct (answer_turn (fun _ => CallMethod method parameters address closure))
    as (ch1 & (_ & _ & Hp1 & Hn1 & _ & Hl1) & ->).
  unfold CallMethod, invocation_for, next_id, gets, mbind, M_bind. rewrite Hn1.
  destruct (Z.eqb_spec (next_message_id ch) 2147483647); [lia|]. unfold modify, mret, M_ret.
  unfold save_completion_details, locking. cbn [ch_locked set_next_id]. rewrite Hl1.
  eexists. split; [reflexivity|]. simpl. rewrite Hp1. done.
Qed.

End Answer.
End Proofs.

(** ** A concrete wire *)

(** A queue, and an encoding of values as sequences of bits. *)

Fixpoint bits (p : positive) : list Z :=
  match p with
  | xH => []
  | xO q => 0 :: bits q
  | xI q => 1 :: bits q
  end.

Fixpoint unbits (l : list Z) : positive :=
  match l with
  | [] => xH
  | b :: l' => if b =? 0 then xO (unbits l') else xI (unbits l')
  end.

Lemma unbits_bits p : unbits (bits p) = p.
Proof. induction p; simpl; congruence. Qed.

Definition to_bits {T} `{Countable T} (x : T) : list Z := bits (encode x).

Definition of_bits {T} `{Countable T} (d : T) (l : list Z) : T := default d (decode (unbits l)).

Lemma of_to_bits {T} `{Countable T} (d x : T) : of_bits d (to_bits x) = x.
Proof. unfold of_bits, to_bits. by rewrite unbits_bits, decode_encode. Qed.

(** Responses as tuples. *)

Definition buffer_t : Type := option Z * list Z * list Z * option Z * option Z * option string.
Definition of_buffer (b : BufferMsg) : buffer_t :=
  (bm_buffer_id b, bm_fd b, bm_data b, bm_fds_on_side_channel b, bm_stride b, bm_error b).
Definition to_buffer (t : buffer_t) : BufferMsg :=
  let '(i, f, d, n, s, e) := t in mkBufferMsg i f d n s e.
Definition platform_t : Type := list Z * list Z * option Z * option string.
Definition of_platform (b : PlatformMsg) : platform_t := (pm_fd b, pm_data b, pm_fds_on_side_channel b, pm_error b).
Definition to_platform (t : platform_t) : PlatformMsg := let '(f, d, n, e) := t in mkPlatformMsg f d n e.
Definition connection_t : Type := option platform_t * option (Z * Z * list Z) * option string.
Definition surface_t : Type :=
  option Z * option Z * option Z * option Z * option Z * option buffer_t * list Z * option Z * option string.
Definition response_t : Type :=
  connection_t + (surface_t + (buffer_t + (platform_t + ((option Z * option string) +
    (option string + (option Z * option Z * option Z * option string)))))).

Definition of_response (a : AnyResponse) : response_t :=
  match a with
  | r_connection m => inl (of_platform <$> cm_platform m,
      (fun d => (di_width d, di_height d, di_supported_pixel_format d)) <$> cm_display_info m, cm_error m)
  | r_surface m => inr (inl (sm_id m, sm_width m, sm_height m, sm_pixel_format m, sm_buffer_usage m,
      of_buffer <$> sm_buffer m, sm_fd m, sm_fds_on_side_channel m, sm_error m))
  | r_buffer m => inr (inr (inl (of_buffer m)))
  | r_platform m => inr (inr (inr (inl (of_platform m))))
  | r_drm_status m => inr (inr (inr (inr (inl (ds_status_code m, ds_error m)))))
  | r_void m => inr (inr (inr (inr (inr (inl (vm_error m))))))
  | r_setting m => inr (inr (inr (inr (inr (inr (ss_surfaceid m, ss_attrib m, ss_ivalue m, ss_error m))))))
  end.

Definition to_response (t : response_t) : AnyResponse :=
  match t with
  | inl (p, d, e) => r_connection (mkConnectionMsg (to_platform <$> p)
      ((fun '(w, h, l) => mkDisplayInfoMsg w h l) <$> d) e)
  | inr (inl (i, w, h, pf, u, b, f, n, e)) => r_surface (mkSurfaceMsg i w h pf u (to_buffer <$> b) f n e)
  | inr (inr (inl b)) => r_buffer (to_buffer b)
  | inr (inr (inr (inl p))) => r_platform (to_platform p)
  | inr (inr (inr (inr (inl (c, e))))) => r_drm_status (mkDRMStatus c e)
  | inr (inr (inr (inr (inr (inl e))))) => r_void (mkVoid e)
  | inr (inr (inr (inr (inr (inr (i, a, v, e)))))) => r_setting (mkSetting i a v e)
  end.

Lemma to_of_response a : to_response (of_response a) = a.
Proof.
  destruct a as [[[[]|] [[]|] ?]|[? ? ? ? ? [[]|] ? ? ?]|[]|[]|[]|[]|[]]; reflexivity.
Qed.

#[export] Instance bit_codec : Codec := {
  serialize_response a := to_bits (of_response a);
  serialize_result r := to_bits (res_id r, res_response r);
  serialize_invocation i := to_bits (inv_id i, method_name i, parameters i);
  parse_response _ l := to_response (of_bits (of_response (r_void void0)) l);
  parse_result l := let '(i, r) := of_bits (0, []) l in mkResult i r;
}.

(** The requests' parameters are as in the concrete connection above. *)
#[export] Instance bit_protobuf : Protobuf := {
  parse_connect := @parse_connect demo_protobuf;
  parse_surface_parameters := @parse_surface_parameters demo_protobuf;
  parse_surface_id := @parse_surface_id demo_protobuf;
  parse_lightdm_id := @parse_lightdm_id demo_protobuf;
  parse_magic := @parse_magic demo_protobuf;
  parse_void := @parse_void demo_protobuf;
  parse_setting := @parse_setting demo_protobuf;
  parse_invocation l :=
    let '(i, n, p) := of_bits (0, EmptyString, EmptyString) l in mkInvocation i n p;
  unparsed _ := [];
}.

#[export] Instance bit_codec_laws : CodecLaws.
Proof.
  split.
  - intros a. simpl. rewrite of_to_bits. apply to_of_response.
  - intros [i r] _. simpl. by rewrite of_to_bits.
  - intros [i n p] _. simpl. by rewrite of_to_bits.
Qed.

(** The bytes at the front of a queue. *)
Fixpoint take_bytes (n : nat) (l : list item) : option (list Z * list item) :=
  match n, l with
  | O, _ => Some ([], l)
  | S n', Data b :: l' => match take_bytes n' l' with Some (bs, r) => Some (b :: bs, r) | None => None end
  | _, _ => None
  end.

#[export] Instance queue_pipe : Pipe (list item) := {
  queued q := q;
  asio_write bytes q := Ret tt (q ++ map Data bytes);
  sendmsg fds q := Ret 1 (q ++ [Rights fds]);
  asio_read n q := match take_bytes n q with Some (bs, q') => Ret bs q' | None => Wait q end;
  recvmsg n q :=
    match q with
    | Rights fds :: q' => Ret (Some (Some (take n fds))) q'
    | Data _ :: q' => Ret (Some None) q'
    | [] => Ret None q
    end;
}.

Lemma take_bytes_length n q :
  match take_bytes n q with Some (bytes, _) => length bytes = n | None => True end.
Proof.
  revert q. induction n as [|n IH]; intros [|[b|fds] q]; simpl; try done.
  specialize (IH q). destruct (take_bytes n q) as [[bs r]|]; simpl; congruence.
Qed.

Lemma take_bytes_app bytes rest : take_bytes (length bytes) (map Data bytes ++ rest) = Some (bytes, rest).
Proof. induction bytes as [|b l IH]; simpl; [done|by rewrite IH]. Qed.

#[export] Instance queue_pipe_laws : PipeLaws (list item).
Proof.
  split; simpl.
  - done.
  - done.
  - intros n q. pose proof (take_bytes_length n q). by destruct (take_bytes n q) as [[]|].
  - intros bytes rest q ->. rewrite take_bytes_app. eauto.
  - intros fds rest q ->. rewrite firstn_all. eauto.
Qed.

Definition demo_socket : SocketSession (list item) := mkSocketSession 0 [] [] [] [].

Definition demo_call : call demo_platform Z unit (SocketSession (list item)) BufferMsg :=
  mkCall (mkProcessor demo_shell0 None tt ∅ demo_socket []) 1
    (mkBufferMsg (Some 4) [5; 6] [7] None (Some 1280) None).

Definition demo_sent : call demo_platform Z unit (SocketSession (list item)) BufferMsg :=
  match send_response 0 demo_call with Ret _ c => c | _ => demo_call end.

(** The client has asked for a buffer, to be put at address 9. *)
Definition demo_waiting : RpcChannel (list item) :=
  mkChannel 1 [(0, mkPendingCall [] 9 3)] false (to_client (pr_sender (call_proc demo_sent))) [] []
    {[ 9 := r_buffer buffer0 ]}.

Definition demo_fresh : RpcChannel (list item) := mkChannel 0 [] false [] [] [] {[ 9 := r_buffer buffer0 ]}.

Lemma demo_sends : sends_descriptors (C := list item).
Proof. intros fds x. unfold wp. simpl. lia. Qed.

Lemma call_is_filed_and_sent_witness :
  wp (CallMethod "next_buffer" EmptyString 9 3)
    (fun _ ch' => filed demo_fresh 0 (serialize_invocation (mkInvocation 0 "next_buffer" EmptyString)) 9 3 ch' /\
       queued (ch_to_server ch') = queued (ch_to_server demo_fresh) ++
         frame (serialize_invocation (mkInvocation 0 "next_buffer" EmptyString)))
    (fun _ => filed demo_fresh 0 (serialize_invocation (mkInvocation 0 "next_buffer" EmptyString)) 9 3)
    (fun _ => False) demo_fresh.
Proof.
  apply (call_is_filed_and_sent "next_buffer" EmptyString 9 3 demo_fresh);
    [split; [constructor|constructor|simpl; lia]|simpl; lia|reflexivity].
Defined.

Lemma answer_reaches_client_witness :
  exists ch', io_turn (fun _ => mret tt) demo_waiting = Ret true ch' /\
    queued (ch_socket ch') = [] /\ ch_locked ch' = false /\
    responses ch' !! 9 = Some (r_buffer (mkBufferMsg (Some 4) [5; 6] [7] (Some 2) (Some 1280) None)) /\
    pending_calls ch' = [].
Proof.
  edestruct (answer_reaches_client 0 demo_call demo_sent demo_waiting (mkPendingCall [] 9 3)
    (r_buffer buffer0) []) with (run_closure := fun _ : Z => mret tt : M (RpcChannel (list item)) unit)
    as (ch' & H1 & H2 & H3 & H4 & H5).
  - unfold is_u32. lia.
  - apply demo_sends.
  - exact Logic.I.
  - vm_compute. reflexivity.
  - vm_compute. reflexivity.
  - reflexivity.
  - vm_compute. reflexivity.
  - reflexivity.
  - reflexivity.
  - reflexivity.
  - reflexivity.
  - intros ch1 (Hq & Hr & Hp & _). split; [exact Hq|]. split; [exact Hp|reflexivity].
  - exists ch'. split; [exact H1|]. split; [exact H2|]. split; [exact H3|]. split; [exact H4|exact H5].
Defined.

(** The response to [create_surface], with the descriptor 8 of the input channel and the
    descriptors 5 and 6 of the buffer: the client is left with the latter. *)
Definition demo_surface_call : call demo_platform Z unit (SocketSession (list item)) SurfaceMsg :=
  mkCall (mkProcessor demo_shell0 None tt ∅ demo_socket []) 1
    (mkSurfaceMsg (Some 0) (Some 320) (Some 240) (Some 1) (Some 1)
      (Some (mkBufferMsg (Some 4) [5; 6] [7] None (Some 1280) None)) [8] None None).

Example surface_descriptors_lost :
  match send_response 0 demo_surface_call with
  | Ret _ c =>
      match io_turn (fun _ => mret tt) (mkChannel 1 [(0, mkPendingCall [] 9 3)] false (to_client (pr_sender (call_proc c))) [] []
              {[ 9 := r_surface surface0 ]}) with
      | Ret _ ch => match responses ch !! 9 with Some (r_surface m) => sm_fd m = [] /\ (bm_fd <$> sm_buffer m) = Some [5; 6] | _ => False end
      | _ => False
      end
  | _ => False
  end.
Proof. vm_compute. split; reflexivity. Qed.

Lemma call_in_callback_deadlocks_witness :
  exists ch2, io_turn (fun _ => CallMethod "next_buffer" EmptyString 9 3) demo_waiting = Wait ch2 /\
    ch_locked ch2 = true /\ OrdMap.find 0 (pending_calls ch2) = Some (mkPendingCall [] 9 3).
Proof.
  apply (call_in_callback_deadlocks 0 demo_call demo_sent demo_waiting (mkPendingCall [] 9 3)
    (r_buffer buffer0) []).
  - unfold is_u32. lia.
  - apply demo_sends.
  - exact Logic.I.
  - vm_compute. reflexivity.
  - vm_compute. reflexivity.
  - reflexivity.
  - vm_compute. reflexivity.
  - reflexivity.
  - reflexivity.
  - reflexivity.
  - reflexivity.
  - simpl. lia.
Defined.
