(* ===== verification/Server.v ===== *)
(** * The socket communicator: many clients

    [frontend::ProtobufSocketCommunicator]
    ([src/server/frontend/protobuf_socket_communicator.cpp]),
    [detail::ConnectedSessions] ([connected_sessions.h]) and the reading side of
    [detail::SocketSession] ([socket_session.cpp]), with the message processor
    and the shell behind them.

    The state holds what the connections share (the shell, the platform, the
    resource cache) and the sessions.  [armed] is what the I/O service has been
    asked to call: the handlers bind a plain pointer to their session, which
    [ConnectedSessions] owns.  A completed operation is an [event]. *)

From S2P Require Import Prelude Geometry Buffers Swapper Bundle GbmBuffers SurfaceParams Surfaces Sessions SessionManager Messages Mediator Wire.

Section Server.
Context {A I P K C : Type} `{GraphicBufferAllocator A} `{InputChannelFactory I}
  `{GraphicsPlatform P} `{MessageSender K} `{Pipe C} `{Protobuf}.

(** A [SocketSession] with its processor: the socket's two directions, the bytes of
    [message_header_bytes] and of the buffer [message], the session of the mediator, and
    what has been sent. *)
Record connection : Type := mkConnection {
  cn_id : Z;
  cn_in : C;
  cn_header : list Z;
  cn_message : list Z;
  cn_sender : K;
  cn_mediator : option session_ptr;
  cn_sent : list sent;
}.

(** The read an asynchronous operation is waiting for, by its handler. *)
Inductive reading : Set :=
| reading_header
| reading_body (size : Z).

Record Communicator : Type := mkCommunicator {
  sv_shell : Shell A I;
  sv_platform : P;
  sv_cache : gmap Z resource;
  next_session_id : Z;
  connected_sessions : OrdMap.t connection;
  accepting : option connection;
  armed : gmap Z reading;
}.

Definition sv_shell_lens : lens Communicator (Shell A I) :=
  Lens sv_shell (fun x c => mkCommunicator x (sv_platform c) (sv_cache c) (next_session_id c)
    (connected_sessions c) (accepting c) (armed c)).
Definition connected_lens : lens Communicator (OrdMap.t connection) :=
  Lens connected_sessions (fun x c => mkCommunicator (sv_shell c) (sv_platform c) (sv_cache c)
    (next_session_id c) x (accepting c) (armed c)).
Definition armed_lens : lens Communicator (gmap Z reading) :=
  Lens armed (fun x c => mkCommunicator (sv_shell c) (sv_platform c) (sv_cache c) (next_session_id c)
    (connected_sessions c) (accepting c) x).

(** ** [ConnectedSessions] *)

Definition add (session : connection) : M Communicator unit :=
  modify (fun c => over connected_lens (OrdMap.insert (cn_id session) session (connected_sessions c)) c).

(** Erasing the last reference to a session destroys it, with its processor and
    mediator: the mediator's reference to the shell's session is dropped. *)
Definition destroy (session : connection) : M Communicator unit :=
  match cn_mediator session with
  | Some s => zoom sv_shell_lens (release_session s)
  | None => mret tt
  end.

Definition remove (id : Z) : M Communicator unit :=
  o ← gets (fun c => OrdMap.find id (connected_sessions c)) ;
  modify (fun c => over connected_lens (OrdMap.erase id (connected_sessions c)) c) ;;
  match o with
  | Some session => destroy session
  | None => mret tt
  end.

Definition includes (id : Z) : M Communicator bool :=
  gets (fun c => match OrdMap.find id (connected_sessions c) with Some _ => true | None => false end).

Definition clear : M Communicator unit :=
  l ← gets connected_sessions ;
  modify (over connected_lens []) ;;
  for_each (map snd l) destroy.

(** ** [SocketSession]: reading *)

(** A member function called through the pointer that the handler holds. *)
Definition session_at (id : Z) : M Communicator connection :=
  deref (fun c => OrdMap.find id (connected_sessions c)).

Definition update_session (id : Z) (f : connection -> connection) : M Communicator unit :=
  s ← session_at id ;
  modify (fun c => over connected_lens (OrdMap.insert id (f s) (connected_sessions c)) c).

Definition arm (id : Z) (r : reading) : M Communicator unit :=
  modify (fun c => over armed_lens (<[id := r]> (armed c)) c).

Definition disarm (id : Z) : M Communicator unit :=
  modify (fun c => over armed_lens (delete id (armed c)) c).

Definition read_next_message (id : Z) : M Communicator unit :=
  session_at id ;; arm id reading_header.

Definition on_read_size (id : Z) (ec : bool) : M Communicator unit :=
  if ec then mret tt
  else
    s ← session_at id ;
    body_size ← deref (fun _ => decode_header (cn_header s)) ;
    arm id (reading_body body_size).

(** The processor of a connection, on the shared state. *)
Definition processor_of (s : connection) (c : Communicator) : processor A I P K :=
  mkProcessor (sv_shell c) (cn_mediator s) (sv_platform c) (sv_cache c) (cn_sender s) (cn_sent s).

Definition put_processor (id : Z) (s : connection) (p : processor A I P K) (c : Communicator) : Communicator :=
  mkCommunicator (pr_shell p) (pr_platform p) (pr_cache p) (next_session_id c)
    (OrdMap.insert id (mkConnection (cn_id s) (cn_in s) (cn_header s) (cn_message s) (pr_sender p) (pr_session p) (pr_sent p))
      (connected_sessions c)) (accepting c) (armed c).

Variable test_file_descriptors : VoidMsg -> M (call A I P K BufferMsg) unit -> M (call A I P K BufferMsg) unit.
Variable drm_auth_magic : Z -> M (call A I P K DRMAuthMagicStatus) unit -> M (call A I P K DRMAuthMagicStatus) unit.

Definition set_message (l : list Z) (s : connection) : connection :=
  mkConnection (cn_id s) (cn_in s) (cn_header s) l (cn_sender s) (cn_mediator s) (cn_sent s).

(** [processor->process_message(msg)], with its result message at [key]: the processor
    parses what is in the buffer, which keeps what the parser leaves. *)
Definition process (id : Z) (key : Z) : M Communicator bool := fun c =>
  match OrdMap.find id (connected_sessions c) with
  | None => Undef
  | Some s =>
      let s' := set_message (unparsed (cn_message s)) s in
      match process_message test_file_descriptors drm_auth_magic (cn_message s) key (processor_of s c) with
      | Ret b p => Ret b (put_processor id s' p c)
      | Throw e p => Throw e (put_processor id s' p c)
      | Wait p => Wait (put_processor id s' p c)
      | Undef => Undef
      end
  end.

Definition on_new_message (id : Z) (error : bool) (key : Z) : M Communicator unit :=
  if error
  then s ← session_at id ; remove (cn_id s) ;; throw (runtime_error "read")
  else
    more ← process id key ;
    if more : bool then read_next_message id
    else s ← session_at id ; remove (cn_id s).

(** ** [ProtobufSocketCommunicator] *)

Definition next_id : M Communicator Z :=
  id ← gets next_session_id ;
  if id =? 2147483647 then undefined
  else modify (fun c => mkCommunicator (sv_shell c) (sv_platform c) (sv_cache c) (id + 1)
         (connected_sessions c) (accepting c) (armed c)) ;; mret id.

(** A new session, with a mediator that is not connected, waits for a client;
    [socket] and [sender] are the two directions of its socket. *)
Definition start_accept (socket : C) (sender : K) : M Communicator unit :=
  id ← next_id ;
  modify (fun c => mkCommunicator (sv_shell c) (sv_platform c) (sv_cache c) (next_session_id c)
    (connected_sessions c) (Some (mkConnection id socket [] [] sender None [])) (armed c)).

Definition on_new_connection (ec : bool) (socket : C) (sender : K) : M Communicator unit :=
  o ← gets accepting ;
  match o with
  | Some session =>
      (if ec then mret tt else add session ;; read_next_message (cn_id session)) ;;
      start_accept socket sender
  | None => mret tt
  end.

(** The constructor, on the state of the server that is given to it. *)
Definition Communicator_new (sh : Shell A I) (platform : P) (socket : C) (sender : K) : M Communicator unit :=
  fun _ => start_accept socket sender (mkCommunicator sh platform ∅ 0 [] None ∅).

(** The destructor: the I/O service is stopped first, so that no handler is
    called any more. *)
Definition Communicator_delete : M Communicator unit :=
  modify (over armed_lens ∅) ;; clear.

(** ** The I/O service *)

(** A completed operation: an accept, or a read of a session's socket. *)
Inductive event : Type :=
| ev_accepted (ec : bool) (socket : C) (sender : K)
| ev_header (id : Z) (ec : bool)
| ev_body (id : Z) (ec : bool) (key : Z).

Definition read_socket (id : Z) (n : nat) : M Communicator (list Z) := fun c =>
  match OrdMap.find id (connected_sessions c) with
  | None => Undef
  | Some s =>
      let put x := over connected_lens (OrdMap.insert id
        (mkConnection (cn_id s) x (cn_header s) (cn_message s) (cn_sender s) (cn_mediator s) (cn_sent s))
        (connected_sessions c)) c in
      match asio_read n (cn_in s) with
      | Ret bytes x => Ret bytes (put x)
      | Throw e x => Throw e (put x)
      | Wait x => Wait (put x)
      | Undef => Undef
      end
  end.

Definition handle (e : event) : M Communicator unit :=
  match e with
  | ev_accepted ec socket sender => on_new_connection ec socket sender
  | ev_header id ec =>
      disarm id ;;
      (if ec then mret tt
       else h ← read_socket id 2 ;
         update_session id (fun s => mkConnection (cn_id s) (cn_in s) h (cn_message s) (cn_sender s) (cn_mediator s) (cn_sent s))) ;;
      on_read_size id ec
  | ev_body id ec key =>
      r ← gets (fun c => armed c !! id) ;
      disarm id ;;
      match r with
      | Some (reading_body n) =>
          (if ec then mret tt
           else body ← read_socket id (Z.to_nat n) ;
             update_session id (fun s => set_message (cn_message s ++ body) s)) ;;
          on_new_message id ec key
      | _ => mret tt
      end
  end.

(** An event that the I/O service can deliver: the read was asked for, and a
    successful one has its bytes; the address of a new local variable is not
    that of a saved resource. *)
Definition enabled (e : event) (c : Communicator) : Prop :=
  match e with
  | ev_accepted _ _ _ => is_Some (accepting c)
  | ev_header id ec =>
      armed c !! id = Some reading_header /\
      (ec = false -> forall s, OrdMap.find id (connected_sessions c) = Some s ->
        exists bytes x, asio_read 2 (cn_in s) = Ret bytes x)
  | ev_body id ec key =>
      sv_cache c !! key = None /\
      exists n, armed c !! id = Some (reading_body n) /\
      (ec = false -> forall s, OrdMap.find id (connected_sessions c) = Some s ->
        exists bytes x, asio_read (Z.to_nat n) (cn_in s) = Ret bytes x)
  end.

(** A message that has arrived and that asks for [test_file_descriptors]. *)
Definition asks_test (e : event) (c : Communicator) : Prop :=
  match e with
  | ev_body id false _ => exists n s bytes x, armed c !! id = Some (reading_body n) /\
      OrdMap.find id (connected_sessions c) = Some s /\ asio_read (Z.to_nat n) (cn_in s) = Ret bytes x /\
      method_name (parse_invocation (cn_message s ++ bytes)) = "test_file_descriptors"%string
  | _ => False
  end.

(** An accept for which no identifier is left. *)
Definition exhausts (e : event) (c : Communicator) : Prop :=
  match e with ev_accepted _ _ _ => next_session_id c = 2147483647 | _ => False end.

End Server.

Arguments connection K C : clear implicits.
Arguments Communicator A I P K C : clear implicits.
Arguments event K C : clear implicits.

(** ** The invariant of the server *)

Section Invariant.
Context {A I P K C : Type} `{AllocatorLaws A} `{InputChannelLaws I} `{PlatformLaws P} `{SenderLaws K}
  `{PipeLaws C} `{CodecLaws}.
Implicit Types (c : Communicator A I P K C) (s : connection K C).

Local Abbreviation sessions c k := (OrdMap.find k (connected_sessions c)).

(** Every connection is filed under its own identifier, its mediator's session
    is registered with the shell and is no other connection's, and every
    handler that can run has a session to run on. *)
Record comm_ok c : Prop := {
  ck_shell : shell_inv (sv_shell c);
  ck_sorted : OrdMap.sorted (connected_sessions c);
  ck_ids : forall k s, sessions c k = Some s -> cn_id s = k /\ 0 <= k < next_session_id c;
  ck_registered : forall k s p, sessions c k = Some s -> cn_mediator s = Some p -> p ∈ apps (sv_shell c);
  ck_distinct : forall k k' s s' p, sessions c k = Some s -> sessions c k' = Some s' ->
    cn_mediator s = Some p -> cn_mediator s' = Some p -> k = k';
  ck_armed : forall k, is_Some (armed c !! k) -> is_Some (sessions c k);
  ck_accepting : forall s, accepting c = Some s ->
    cn_mediator s = None /\ 0 <= cn_id s < next_session_id c /\ sessions c (cn_id s) = None;
  ck_next : 0 <= next_session_id c <= 2147483647;
}.

(** Of the connections, at most [id] is affected. *)
Definition only (id : Z) c (c' : Communicator A I P K C) : Prop :=
  forall k, k <> id -> sessions c' k = sessions c k /\ armed c' !! k = armed c !! k.

Lemma only_refl id c : only id c c.
Proof. by intros k _. Qed.

Lemma only_trans id c1 c2 c3 : only id c1 c2 -> only id c2 c3 -> only id c1 c3.
Proof. intros H12 H23 k Hk. destruct (H12 k Hk), (H23 k Hk). split; congruence. Qed.

Lemma comm_ok_update id s s' c :
  comm_ok c -> sessions c id = Some s -> cn_id s' = cn_id s -> cn_mediator s' = cn_mediator s ->
  let c' := over connected_lens (OrdMap.insert id s' (connected_sessions c)) c in
  comm_ok c' /\ only id c c' /\ sessions c' id = Some s'.
Proof.
  intros [H1' H2' H3' H4' H5' H6' H7' H8'] Hs Hid Hm c'.
  assert (forall k, sessions c' k = if k =? id then Some s' else sessions c k) as Hf
    by (intros k; apply find_insert).
  assert (forall k t, sessions c' k = Some t -> exists t0, sessions c k = Some t0 /\
    cn_id t = cn_id t0 /\ cn_mediator t = cn_mediator t0) as Hold.
  { intros k t. rewrite Hf. destruct (Z.eqb_spec k id) as [->|]; intros; simplify_eq; eauto. }
  split; [|split].
  - split; simpl; try done.
    + by apply insert_sorted.
    + intros k t Ht. destruct (Hold k t Ht) as (t0 & Ht0 & Heq & _). rewrite Heq. by apply H3'.
    + intros k t p Ht. destruct (Hold k t Ht) as (t0 & Ht0 & _ & ->). by eapply H4'.
    + intros k k' t t' p Ht Ht'. destruct (Hold k t Ht) as (t0 & Ht0 & _ & ->).
      destruct (Hold k' t' Ht') as (t1 & Ht1 & _ & ->). by eapply H5'.
    + intros k Hk. rewrite find_insert. destruct (k =? id); eauto.
    + intros t Ht. destruct (H7' t Ht) as (? & ? & Hnone). split; [done|]. split; [done|].
      rewrite find_insert. destruct (Z.eqb_spec (cn_id t) id) as [E|]; congruence.
  - intros k Hk. rewrite Hf. destruct (Z.eqb_spec k id); [done|]. done.
  - rewrite Hf, Z.eqb_refl. done.
Qed.

Lemma comm_ok_armed c m :
  comm_ok c -> (forall k, is_Some (m !! k) -> is_Some (sessions c k)) -> comm_ok (over armed_lens m c).
Proof. intros [] Hm. by split. Qed.

Lemma disarm_spec id c :
  comm_ok c -> exists c', disarm id c = Ret tt c' /\ comm_ok c' /\ only id c c' /\
    armed c' !! id = None /\ (forall k, sessions c' k = sessions c k) /\ accepting c' = accepting c /\
    sv_cache c' = sv_cache c.
Proof.
  intros Hok. eexists. split; [reflexivity|]. split.
  - apply comm_ok_armed; [done|]. intros k Hk. apply (ck_armed _ Hok).
    rewrite lookup_delete_is_Some in Hk. tauto.
  - repeat split; simpl; [by rewrite lookup_delete_ne by congruence|apply lookup_delete_eq].
Qed.

Lemma arm_spec id r c :
  comm_ok c -> is_Some (sessions c id) ->
  exists c', arm id r c = Ret tt c' /\ comm_ok c' /\ only id c c' /\ armed c' !! id = Some r /\
    (forall k, sessions c' k = sessions c k).
Proof.
  intros Hok Hs. eexists. split; [reflexivity|]. split.
  - apply comm_ok_armed; [done|]. intros k. destruct (decide (k = id)) as [->|Hne]; [done|].
    rewrite lookup_insert_ne by congruence. apply (ck_armed _ Hok).
  - repeat split; simpl; [by rewrite lookup_insert_ne by congruence|apply lookup_insert_eq].
Qed.

Lemma read_socket_spec id n s bytes x c :
  comm_ok c -> sessions c id = Some s -> asio_read n (cn_in s) = Ret bytes x ->
  exists c', read_socket id n c = Ret bytes c' /\ comm_ok c' /\ only id c c' /\
    length bytes = n /\ accepting c' = accepting c /\ sv_cache c' = sv_cache c /\
    sessions c' id = Some (mkConnection (cn_id s) x (cn_header s) (cn_message s) (cn_sender s) (cn_mediator s) (cn_sent s)).
Proof.
  intros Hok Hs Hr. unfold read_socket. rewrite Hs, Hr. eexists. split; [reflexivity|].
  edestruct (comm_ok_update id s (mkConnection (cn_id s) x (cn_header s) (cn_message s) (cn_sender s) (cn_mediator s)
    (cn_sent s)) c Hok Hs) as (? & ? & ?); [done|done|].
  split; [done|]. split; [done|]. split; [|done].
  pose proof (asio_read_length n (cn_in s)) as Hlen. by rewrite Hr in Hlen.
Qed.

(** Removing a connection whose handler is running. *)
Lemma remove_spec id c :
  comm_ok c -> armed c !! id = None ->
  exists c', remove id c = Ret tt c' /\ comm_ok c' /\ only id c c' /\ sessions c' id = None /\
    apps (sv_shell c') = apps (sv_shell c).
Proof.
  intros Hok Harm. pose proof Hok as [H1' H2' H3' H4' H5' H6' H7' H8'].
  set (c1 := over connected_lens (OrdMap.erase id (connected_sessions c)) c).
  assert (forall k, sessions c1 k = if k =? id then None else sessions c k) as Hf
    by (intros k; by apply find_erase).
  assert (forall sh, shell_inv sh -> apps sh = apps (sv_shell c) -> comm_ok (over sv_shell_lens sh c1)) as Hput.
  { intros sh Hsh Happs. split; simpl; try done.
    - by apply erase_sorted.
    - intros k t. fold c1. rewrite Hf. destruct (k =? id); [done|]. apply H3'.
    - intros k t p. rewrite Hf, Happs. destruct (k =? id); [done|]. apply H4'.
    - intros k k' t t' p. rewrite !Hf. destruct (k =? id), (k' =? id); try done. apply H5'.
    - intros k Hk. rewrite Hf. destruct (Z.eqb_spec k id) as [->|]; [|by apply H6'].
      rewrite Harm in Hk. by destruct Hk.
    - intros t Ht. destruct (H7' t Ht) as (? & ? & Hnone). split; [done|]. split; [done|].
      rewrite Hf. by destruct (_ =? id). }
  assert (forall sh, only id c (over sv_shell_lens sh c1)) as Honly.
  { intros sh k Hk. simpl. rewrite Hf. by destruct (Z.eqb_spec k id). }
  unfold remove, gets, modify, mbind, M_bind. fold c1.
  assert (sessions c1 id = None) as Hgone by by rewrite Hf, Z.eqb_refl.
  destruct (sessions c id) as [s|].
  - unfold destroy. destruct (cn_mediator s) as [p|].
    + unfold zoom. cbn [view sv_shell_lens].
      destruct (release_session_spec p (sv_shell c1) H1') as (sh' & -> & Hinv & Happs & _).
      eexists. split; [reflexivity|]. split; [by apply Hput|]. done.
    + exists c1. split; [done|]. split; [by apply (Hput (sv_shell c))|].
      split; [apply (Honly (sv_shell c))|done].
  - exists c1. split; [done|]. split; [by apply (Hput (sv_shell c))|].
    split; [apply (Honly (sv_shell c))|done].
Qed.

(** After the destructor no connection is left; the shell is in order, and keeps
    the sessions it had. *)
Lemma Communicator_delete_spec c :
  comm_ok c ->
  exists c', Communicator_delete c = Ret tt c' /\ connected_sessions c' = [] /\ armed c' = ∅ /\
    shell_inv (sv_shell c') /\ apps (sv_shell c') = apps (sv_shell c).
Proof.
  intros [Hinv _ _ _ _ _ _ _]. unfold Communicator_delete, clear, modify, gets, mbind, M_bind.
  cbn [connected_sessions over armed_lens connected_lens]. set (c0 := mkCommunicator _ _ _ _ [] _ _).
  assert (shell_inv (sv_shell c0) /\ apps (sv_shell c0) = apps (sv_shell c) /\
    connected_sessions c0 = [] /\ armed c0 = ∅) as (H1' & H2' & H3' & H4') by done.
  clearbody c0. induction (map snd (connected_sessions c)) as [|s l IH] in c0, H1', H2', H3', H4' |- *.
  - by exists c0.
  - simpl. unfold mbind, M_bind, destroy. destruct (cn_mediator s) as [p|]; [|by apply IH].
    unfold zoom. cbn [view sv_shell_lens].
    destruct (release_session_spec p (sv_shell c0) H1') as (sh' & -> & Hinv' & Happs & _).
    apply IH; simpl; congruence.
Qed.

(** A processor that has served a request of its client is put back. *)
Lemma put_processor_ok id s s1 c p :
  comm_ok c -> sessions c id = Some s -> cn_id s1 = cn_id s -> server_ok p -> framed (processor_of s c) p ->
  let c' := put_processor id s1 p c in
  comm_ok c' /\ only id c c' /\ is_Some (sessions c' id).
Proof.
  intros [H1' H2' H3' H4' H5' H6' H7' H8'] Hs Hid [Hinv Hreg] [Hothers Hsess] c'. simpl in Hothers, Hsess.
  set (s' := mkConnection (cn_id s1) (cn_in s1) (cn_header s1) (cn_message s1) (pr_sender p) (pr_session p) (pr_sent p)).
  assert (forall k, sessions c' k = if k =? id then Some s' else sessions c k) as Hf
    by (intros k; apply find_insert).
  assert (forall k t q, k <> id -> sessions c k = Some t -> cn_mediator t = Some q -> pr_session p <> Some q) as Hne.
  { intros k t q Hk Ht Hq Hp. destruct (Hsess q Hp) as [Heq|Hni]; [by apply Hk; eapply H5'|].
    apply Hni. by eapply H4'. }
  split; [|split].
  - split; try done.
    + by apply insert_sorted.
    + intros k t. rewrite Hf. destruct (Z.eqb_spec k id) as [->|]; [|apply H3'].
      intros [= <-]. cbn. rewrite Hid. by apply (H3' id s).
    + intros k t q. rewrite Hf. destruct (Z.eqb_spec k id) as [->|Hk]; [intros [= <-]; apply Hreg|].
      intros Ht Hq. apply Hothers; [by eapply H4'|]. intros Heq. apply Hk. by eapply H5'.
    + intros k k' t t' q. rewrite !Hf.
      destruct (Z.eqb_spec k id) as [->|Hk], (Z.eqb_spec k' id) as [->|Hk']; [done|..|apply H5'].
      * intros [= <-] Ht' Hq Hq'. by destruct (Hne k' t' q).
      * intros Ht [= <-] Hq Hq'. by destruct (Hne k t q).
    + intros k Hk. rewrite Hf. destruct (k =? id); [eauto|by apply H6'].
    + intros t Ht. destruct (H7' t Ht) as (? & ? & Hnone). split; [done|]. split; [done|].
      rewrite Hf. destruct (Z.eqb_spec (cn_id t) id) as [E|]; congruence.
  - intros k Hk. rewrite Hf. by destruct (Z.eqb_spec k id).
  - rewrite Hf, Z.eqb_refl. eauto.
Qed.

Variable test_file_descriptors : VoidMsg -> M (call A I P K BufferMsg) unit -> M (call A I P K BufferMsg) unit.

(** What is asked for is not [test_file_descriptors], or that is answered too. *)
Definition answerable (message : list Z) : Prop :=
  method_name (parse_invocation message) = "test_file_descriptors"%string -> well_behaved true test_file_descriptors.

Lemma process_spec id s key c :
  comm_ok c -> sessions c id = Some s -> sv_cache c !! key = None -> answerable (cn_message s) ->
  wp (process test_file_descriptors drm_auth_magic_gbm id key)
    (fun _ c' => comm_ok c' /\ only id c c' /\ armed c' = armed c /\ is_Some (sessions c' id)) (fun _ _ => False)
    (fun c' => comm_ok c' /\ only id c c' /\ armed c' = armed c) c.
Proof.
  intros Hok Hs Hfree Hne. unfold wp, process. rewrite Hs.
  pose proof (process_message_spec test_file_descriptors (cn_message s) key (processor_of s c)) as Hp.
  unfold wp in Hp. specialize (Hp (conj (ck_shell _ Hok) (fun q => ck_registered _ Hok id s q Hs)) Hfree Hne).
  destruct (process_message _ _ _ _ _) as [b p|e p|p|]; [..|done]; [|done|];
    destruct Hp as [Hsv Hfr]; destruct (put_processor_ok id s (set_message (unparsed (cn_message s)) s) c p Hok Hs eq_refl Hsv Hfr) as (? & ? & ?); done.
Qed.

Lemma read_next_spec id c :
  comm_ok c -> is_Some (sessions c id) ->
  exists c', read_next_message id c = Ret tt c' /\ comm_ok c' /\ only id c c' /\
    (forall k, sessions c' k = sessions c k).
Proof.
  intros Hok [s Hs]. unfold read_next_message, session_at, deref, mbind, M_bind. rewrite Hs.
  destruct (arm_spec id reading_header c Hok) as (c' & Hr & ? & ? & _ & ?); eauto.
Qed.

Lemma on_new_message_spec id s key c :
  comm_ok c -> sessions c id = Some s -> armed c !! id = None -> sv_cache c !! key = None ->
  answerable (cn_message s) ->
  wp (on_new_message test_file_descriptors drm_auth_magic_gbm id false key)
    (fun _ c' => comm_ok c' /\ only id c c') (fun _ _ => False)
    (fun c' => comm_ok c' /\ only id c c') c.
Proof.
  intros Hok Hs Ha Hfree Hne. unfold on_new_message. apply wp_bind.
  eapply wp_mono; [by eapply process_spec| |done|cbv beta; tauto].
  intros more c1 (Hok1 & Ho1 & Ha1 & [s1 Hs1]). cbv beta. destruct more.
  - destruct (read_next_spec id c1 Hok1) as (c2 & Hr & Hok2 & Ho2 & _); [eauto|].
    unfold wp. rewrite Hr. split; [done|by eapply only_trans].
  - unfold wp, session_at, deref, mbind, M_bind. rewrite Hs1.
    destruct (ck_ids _ Hok1 id s1 Hs1) as [-> _].
    destruct (remove_spec id c1 Hok1) as (c2 & -> & Hok2 & Ho2 & _); [by rewrite Ha1|].
    split; [done|by eapply only_trans].
Qed.

(** When a message asks for a method that is undefined, so is its handler. *)
Lemma on_new_message_undefined id s key c :
  sessions c id = Some s -> method_name (parse_invocation (cn_message s)) = "test_file_descriptors"%string ->
  (forall req done x, test_file_descriptors req done x = Undef) ->
  on_new_message test_file_descriptors drm_auth_magic_gbm id false key c = Undef.
Proof.
  intros Hs Hm Hu. unfold on_new_message, mbind, M_bind, process. rewrite Hs. unfold process_message, try_catch.
  by rewrite dispatch_stub.
Qed.

Lemma start_accept_exhausted socket sender c : next_session_id c = 2147483647 -> start_accept socket sender c = Undef.
Proof. intros E. unfold start_accept, next_id, gets, mbind, M_bind. by rewrite E. Qed.

Lemma start_accept_spec socket sender c :
  comm_ok c -> next_session_id c < 2147483647 ->
  exists c', start_accept socket sender c = Ret tt c' /\ comm_ok c' /\ armed c' = armed c /\
    (forall k, sessions c' k = sessions c k).
Proof.
  intros [H1' H2' H3' H4' H5' H6' H7' H8'] Hlt.
  unfold start_accept, next_id, gets, modify, mbind, M_bind.
  destruct (Z.eqb_spec (next_session_id c) 2147483647); [lia|].
  eexists. split; [reflexivity|]. split; [|done]. split; simpl; try done.
  - intros k s Hs. destruct (H3' k s Hs). split; [done|lia].
  - intros s [= <-]. simpl. split; [done|]. split; [lia|].
    destruct (sessions c (next_session_id c)) as [s|] eqn:E; [|done]. destruct (H3' _ _ E). lia.
  - lia.
Qed.

Lemma add_spec s c :
  comm_ok c -> accepting c = Some s ->
  exists c', add s c = Ret tt c' /\ comm_ok (mkCommunicator (sv_shell c') (sv_platform c') (sv_cache c')
      (next_session_id c') (connected_sessions c') None (armed c')) /\
    sessions c' (cn_id s) = Some s /\ only (cn_id s) c c' /\ next_session_id c' = next_session_id c.
Proof.
  intros [H1' H2' H3' H4' H5' H6' H7' H8'] Hacc. destruct (H7' s Hacc) as (Hm & Hid & Hnone).
  eexists. split; [reflexivity|].
  assert (forall k, OrdMap.find k (OrdMap.insert (cn_id s) s (connected_sessions c)) =
    if k =? cn_id s then Some s else sessions c k) as Hf by (intros k; apply find_insert).
  split; [|split; [|split; [|done]]].
  - split; simpl; try done.
    + by apply insert_sorted.
    + intros k t. rewrite Hf. destruct (Z.eqb_spec k (cn_id s)) as [->|]; [by intros [= <-]|apply H3'].
    + intros k t q. rewrite Hf. destruct (k =? cn_id s); [intros [= <-]; by rewrite Hm|apply H4'].
    + intros k k' t t' q. rewrite !Hf.
      destruct (k =? cn_id s), (k' =? cn_id s); intros; simplify_eq; eauto.
    + intros k Hk. rewrite Hf. destruct (k =? cn_id s); [eauto|by apply H6'].
  - simpl. rewrite Hf, Z.eqb_refl. done.
  - intros k Hk. simpl. rewrite Hf. by destruct (Z.eqb_spec k (cn_id s)).
Qed.

(** [start_accept] replaces the session that was waiting for a client. *)
Lemma accept_forgets id socket sender c :
  (read_next_message id ;; start_accept socket sender) c =
  (read_next_message id ;; start_accept socket sender)
    (mkCommunicator (sv_shell c) (sv_platform c) (sv_cache c) (next_session_id c) (connected_sessions c)
      None (armed c)).
Proof.
  unfold read_next_message, session_at, deref, mbind, M_bind. simpl.
  destruct (sessions c id); [|done]. unfold start_accept, next_id, gets, mbind, M_bind. simpl.
  by destruct (_ =? _).
Qed.

Lemma on_new_connection_spec ec socket sender s c :
  comm_ok c -> accepting c = Some s -> next_session_id c < 2147483647 ->
  exists c', on_new_connection ec socket sender c = Ret tt c' /\ comm_ok c' /\ only (cn_id s) c c' /\
    (ec = false -> sessions c' (cn_id s) = Some s).
Proof.
  intros Hok Hacc Hlt. unfold on_new_connection, gets. unfold mbind at 1, M_bind. rewrite Hacc.
  destruct ec.
  - destruct (start_accept_spec socket sender c Hok Hlt) as (c' & Hr & Hok' & Ha & Hs).
    exists c'. split; [exact Hr|]. split; [done|]. split; [|done]. intros k _. by rewrite Hs, Ha.
  - destruct (add_spec s c Hok Hacc) as (c1 & Hadd & Hok1 & Hs1 & Ho1 & Hn1).
    set (c2 := mkCommunicator (sv_shell c1) _ _ _ _ None _) in Hok1.
    destruct (read_next_spec (cn_id s) c2 Hok1) as (c3 & Hr & Hok3 & Ho3 & Hs3); [by exists s|].
    destruct (start_accept_spec socket sender c3 Hok3) as (c4 & Hst & Hok4 & Ha4 & Hs4).
    { unfold read_next_message, session_at, deref, arm, modify, mbind, M_bind in Hr.
      destruct (OrdMap.find (cn_id s) (connected_sessions c2)); simplify_eq. simpl. lia. }
    exists c4. split.
    + transitivity ((read_next_message (cn_id s) ;; start_accept socket sender) c1).
      { unfold mbind, M_bind. rewrite Hadd. by destruct (read_next_message (cn_id s) c1). }
      rewrite accept_forgets. fold c2. unfold mbind, M_bind. rewrite Hr. exact Hst.
    + split; [done|]. split; [|intros _; by rewrite Hs4, Hs3]. intros k Hk.
      destruct (Ho1 k Hk) as [E1 E2], (Ho3 k Hk) as [E3 E4]. rewrite Hs4, Ha4. simpl in E3, E4.
      split; congruence.
Qed.

Lemma header_spec id ec c :
  comm_ok c -> enabled (ev_header id ec) c ->
  exists c', handle test_file_descriptors drm_auth_magic_gbm (ev_header id ec) c = Ret tt c' /\
    comm_ok c' /\ only id c c' /\
    (ec = true -> armed c' !! id = None /\ forall k, sessions c' k = sessions c k).
Proof.
  intros Hok [Harm Hread]. destruct (disarm_spec id c Hok) as (c1 & Hd & Hok1 & Ho1 & Ha1 & Hs1 & _).
  unfold handle. unfold mbind at 1, M_bind. rewrite Hd. destruct ec; [by exists c1|].
  destruct (ck_armed _ Hok id (mk_is_Some _ _ Harm)) as [s Hs]. destruct (Hread eq_refl s Hs) as (bytes & x & Hr).
  rewrite <- Hs1 in Hs.
  destruct (read_socket_spec id 2 s bytes x c1 Hok1 Hs Hr) as (c2 & Hr2 & Hok2 & Ho2 & Hlen & _ & _ & Hs2).
  destruct bytes as [|b0 [|b1 [|]]]; try done.
  unfold mbind, M_bind. rewrite Hr2. unfold update_session, session_at, deref, modify, mbind, M_bind.
  rewrite Hs2. set (s3 := mkConnection _ _ [b0; b1] _ _ _ _).
  destruct (comm_ok_update id _ s3 c2 Hok2 Hs2 eq_refl eq_refl) as (Hok3 & Ho3 & Hs3).
  unfold on_read_size, session_at, deref, mbind, M_bind. rewrite Hs3. simpl.
  edestruct (arm_spec id (reading_body (Z.shiftl b0 8 + b1))) as (c4 & Hr4 & Hok4 & Ho4 & _ & _);
    [exact Hok3|by rewrite Hs3|]. exists c4. split; [exact Hr4|]. split; [done|]. split; [|done].
  eapply only_trans; [exact Ho1|]. eapply only_trans; [exact Ho2|]. by eapply only_trans.
Qed.

(** The body of a message has been put into the buffer. *)
Lemma body_read_spec id key n s bytes x c :
  comm_ok c -> armed c !! id = Some (reading_body n) -> sessions c id = Some s ->
  asio_read (Z.to_nat n) (cn_in s) = Ret bytes x ->
  exists c2 s2, handle test_file_descriptors drm_auth_magic_gbm (ev_body id false key) c =
      on_new_message test_file_descriptors drm_auth_magic_gbm id false key c2 /\
    comm_ok c2 /\ only id c c2 /\ sessions c2 id = Some s2 /\ cn_message s2 = cn_message s ++ bytes /\
    armed c2 !! id = None /\ sv_cache c2 = sv_cache c.
Proof.
  intros Hok Harm Hs Hr. destruct (disarm_spec id c Hok) as (c1 & Hd & Hok1 & Ho1 & Ha1 & Hs1 & _ & Hc1). rewrite <- Hs1 in Hs.
  destruct (read_socket_spec id _ s bytes x c1 Hok1 Hs Hr) as (c2 & Hr2 & Hok2 & Ho2 & _ & _ & Hc2 & Hs2).
  set (s2 := mkConnection _ _ _ _ _ _ _) in Hs2.
  destruct (comm_ok_update id s2 (set_message (cn_message s2 ++ bytes) s2) c2 Hok2 Hs2 eq_refl eq_refl) as (Hok3 & Ho3 & Hs3).
  eexists _, _. split; [|split; [exact Hok3|]].
  { unfold handle, gets, mbind at 1 2 3, M_bind. rewrite Harm, Hd. unfold mbind, M_bind. rewrite Hr2.
    unfold update_session, session_at, deref, modify, mbind, M_bind. rewrite Hs2. reflexivity. }
  split; [eapply only_trans; [exact Ho1|]; by eapply only_trans|]. split; [exact Hs3|]. split; [done|].
  assert (armed c2 = armed c1) as Ha2 by (unfold read_socket in Hr2; rewrite Hs, Hr in Hr2; by simplify_eq).
  split; [simpl; by rewrite Ha2|simpl; by rewrite Hc2].
Qed.

Lemma body_spec id ec key c :
  comm_ok c -> enabled (ev_body id ec key) c ->
  (asks_test (ev_body id ec key) c -> well_behaved true test_file_descriptors) ->
  wp (handle test_file_descriptors drm_auth_magic_gbm (ev_body id ec key))
    (fun _ c' => comm_ok c' /\ only id c c')
    (fun _ c' => comm_ok c' /\ only id c c' /\ ec = true /\ sessions c' id = None)
    (fun c' => comm_ok c' /\ only id c c') c.
Proof.
  intros Hok (Hfree & n & Harm & Hread) Hask. destruct (ck_armed _ Hok id (mk_is_Some _ _ Harm)) as [s Hs]. destruct ec.
  - destruct (disarm_spec id c Hok) as (c1 & Hd & Hok1 & Ho1 & Ha1 & Hs1 & _ & Hc1).
    unfold handle, wp, gets, mbind at 1 2, M_bind. rewrite Harm, Hd. rewrite <- Hs1 in Hs.
    unfold mbind, M_bind, on_new_message, session_at, deref. simpl. unfold mbind, M_bind.
    rewrite Hs. destruct (ck_ids _ Hok1 id s Hs) as [-> _].
    destruct (remove_spec id c1 Hok1 Ha1) as (c2 & -> & Hok2 & Ho2 & Hgone & _).
    split; [done|]. split; [by eapply only_trans|done].
  - destruct (Hread eq_refl s Hs) as (bytes & x & Hr).
    destruct (body_read_spec id key n s bytes x c Hok Harm Hs Hr) as (c2 & s2 & E & Hok2 & Ho2 & Hs2 & Hm & Ha2 & Hc2).
    unfold wp. rewrite E. pose proof (on_new_message_spec id s2 key c2 Hok2 Hs2 Ha2) as Hn. unfold wp in Hn.
    rewrite Hc2, Hm in Hn. specialize (Hn Hfree). assert (answerable (cn_message s ++ bytes)) as Ha by (intros Hn'; apply Hask; by exists n, s, bytes, x).
    specialize (Hn Ha). destruct (on_new_message _ _ id false key c2); try done; destruct Hn as [? Ho]; (split; [done|by eapply only_trans]).
Qed.

(** A handler is undefined where it runs out of identifiers or asks for a method that is. *)
Lemma connection_exhausted ec socket sender s c :
  comm_ok c -> accepting c = Some s -> next_session_id c = 2147483647 -> on_new_connection ec socket sender c = Undef.
Proof.
  intros Hok Hacc E. unfold on_new_connection, gets. unfold mbind at 1, M_bind. rewrite Hacc. destruct ec.
  - unfold mbind, M_bind. by apply start_accept_exhausted.
  - destruct (add_spec s c Hok Hacc) as (c1 & Hadd & _ & Hs1 & _ & Hn1). unfold mbind, M_bind. rewrite Hadd.
    unfold read_next_message, session_at, deref, mbind, M_bind. rewrite Hs1. unfold arm, modify. apply start_accept_exhausted. cbn. congruence.
Qed.

Lemma asks_undefined e c :
  comm_ok c -> asks_test e c -> (forall req done x, test_file_descriptors req done x = Undef) ->
  handle test_file_descriptors drm_auth_magic_gbm e c = Undef.
Proof.
  intros Hok Hask Hu. destruct e as [| |id [] key]; try done. destruct Hask as (n & s & bytes & x & Harm & Hs & Hr & Hm).
  destruct (body_read_spec id key n s bytes x c Hok Harm Hs Hr) as (c2 & s2 & -> & _ & _ & Hs2 & Hm2 & _).
  apply (on_new_message_undefined id s2); [done|by rewrite Hm2|done].
Qed.

(** ** Runs of the I/O service *)

(** What an event leaves behind, however its handler ended. *)
Definition leaves {B} (o : outcome (Communicator A I P K C) B) c : Prop :=
  match o with
  | Ret _ c' | Throw _ c' | Wait c' => c' = c
  | Undef => False
  end.

Inductive serves : Communicator A I P K C -> Communicator A I P K C -> Prop :=
| serves_nothing c : serves c c
| serves_event c e c1 c2 :
    enabled e c -> leaves (handle test_file_descriptors drm_auth_magic_gbm e c) c1 -> serves c1 c2 -> serves c c2.

Lemma serves_app c1 c2 c3 : serves c1 c2 -> serves c2 c3 -> serves c1 c3.
Proof. induction 1; eauto using serves. Qed.

(** The connection an event is for, and no other, is affected. *)
Definition event_id (e : event K C) c : option Z :=
  match e with
  | ev_accepted _ _ _ => cn_id <$> accepting c
  | ev_header id _ | ev_body id _ _ => Some id
  end.

(** The ways in which a handler can be undefined. *)
Definition goes_wrong (e : event K C) c : Prop :=
  exhausts e c \/ (asks_test e c /\ forall req done x, test_file_descriptors req done x = Undef).

(** What a handler leaves. *)
Definition handled (e : event K C) c (o : outcome (Communicator A I P K C) unit) : Prop :=
  match o with
  | Ret _ c' | Wait c' => comm_ok c' /\ exists id, event_id e c = Some id /\ only id c c'
  | Throw _ c' => comm_ok c' /\ (exists id, event_id e c = Some id /\ only id c c') /\ exists id key, e = ev_body id true key
  | Undef => goes_wrong e c
  end.

Lemma handle_spec e c :
  stub_ok test_file_descriptors -> comm_ok c -> enabled e c -> handled e c (handle test_file_descriptors drm_auth_magic_gbm e c).
Proof.
  intros Hstub Hok He. destruct e as [ec socket sender|id ec|id ec key].
  - destruct He as [s Hacc]. pose proof (ck_next _ Hok) as Hn. destruct (decide (next_session_id c = 2147483647)) as [E|Hne].
    { unfold handle. rewrite (connection_exhausted ec socket sender s c Hok Hacc E). by left. }
    destruct (on_new_connection_spec ec socket sender s c Hok Hacc) as (c' & Hr & Hok' & Ho & _); [lia|].
    unfold handle. rewrite Hr. split; [done|]. exists (cn_id s). simpl. by rewrite Hacc.
  - destruct (header_spec id ec c Hok He) as (c' & Hr & Hok' & Ho & _). rewrite Hr. split; [done|]. by exists id.
  - assert (handled (ev_body id ec key) c (handle test_file_descriptors drm_auth_magic_gbm (ev_body id ec key) c) \/
      asks_test (ev_body id ec key) c /\ forall req done x, test_file_descriptors req done x = Undef) as [Hh|[Hask Hu]]; [|exact Hh|].
    2:{ rewrite (asks_undefined _ c Hok Hask Hu). by right. }
    assert ((asks_test (ev_body id ec key) c -> well_behaved true test_file_descriptors) \/
      asks_test (ev_body id ec key) c /\ forall req done x, test_file_descriptors req done x = Undef) as [Ha|?]; [|left|by right].
    { destruct Hstub as [?|Hu]; [by left; intros|]. destruct ec; [by left|]. destruct He as (_ & n & Harm & Hread).
      destruct (ck_armed _ Hok id (mk_is_Some _ _ Harm)) as [s Hs]. destruct (Hread eq_refl s Hs) as (bytes & x & Hr).
      destruct (decide (method_name (parse_invocation (cn_message s ++ bytes)) = "test_file_descriptors"%string)) as [Hm|Hm].
      - right. split; [|done]. by exists n, s, bytes, x.
      - left. intros (n' & s' & bytes' & x' & Harm' & Hs' & Hr' & Hm'). simplify_eq. congruence. }
    pose proof (body_spec id ec key c Hok He Ha) as Hb. unfold wp in Hb. unfold handled.
    destruct (handle _ _ _ c) as [u c'|x c'|c'|]; [..|done].
    + destruct Hb. split; [done|]. by exists id.
    + destruct Hb as (? & ? & -> & _). split; [done|]. split; [by exists id|eauto].
    + destruct Hb. split; [done|]. by exists id.
Qed.

Hypothesis Hstub : stub_ok test_file_descriptors.

Lemma leaves_spec e c c1 :
  comm_ok c -> enabled e c -> leaves (handle test_file_descriptors drm_auth_magic_gbm e c) c1 ->
  comm_ok c1 /\ exists id, event_id e c = Some id /\ only id c c1.
Proof.
  intros Hok He Hl. pose proof (handle_spec e c Hstub Hok He) as Hh. unfold handled in Hh.
  destruct (handle _ _ e c) as [u x|x y|x|]; simpl in Hl; subst; tauto.
Qed.

Lemma serves_ok c c' : comm_ok c -> serves c c' -> comm_ok c'.
Proof.
  intros Hok Hrun. induction Hrun as [|c e c1 c2 He Hl _ IH]; [done|].
  apply IH. by destruct (leaves_spec e c c1 Hok He Hl).
Qed.

Lemma Communicator_new_ok sh platform socket sender any_state :
  shell_inv sh ->
  exists c, Communicator_new sh platform socket sender any_state = Ret tt c /\ comm_ok c.
Proof.
  intros Hinv. unfold Communicator_new.
  destruct (start_accept_spec socket sender (mkCommunicator sh platform ∅ 0 [] None ∅)) as (c & ? & ? & _);
    [|simpl; lia|eauto].
  split; simpl; try done; [constructor|]. intros k [r Hr]. by rewrite lookup_empty in Hr.
Qed.


(** The connection [id] has no handler left to run. *)
Definition abandoned (id : Z) s c : Prop := sessions c id = Some s /\ armed c !! id = None.

Lemma abandoned_stays id s c c' :
  comm_ok c -> abandoned id s c -> serves c c' -> abandoned id s c'.
Proof.
  intros Hok Hab Hrun. induction Hrun as [|c e c1 c2 He Hl _ IH]; [done|].
  destruct (leaves_spec e c c1 Hok He Hl) as (Hok1 & k & Hk & Ho). apply IH; [done|].
  destruct Hab as [Hs Ha]. destruct (Ho id) as [E1 E2].
  - intros <-. destruct e as [ec socket sender|id' ec|id' ec key]; simpl in Hk.
    + destruct (accepting c) as [t|] eqn:Ht; simplify_eq. destruct (ck_accepting _ Hok t Ht). naive_solver.
    + simplify_eq. destruct He. congruence.
    + simplify_eq. destruct He as (_ & n & ? & _). congruence.
  - split; congruence.
Qed.

(** A client that goes away between two messages is never noticed: the
    read of the next header fails, the handler does nothing, and from then on,
    whatever happens, the connection stays in the list and its application
    session stays registered with the shell. *)
Theorem vanished_client_stays id s p c :
  comm_ok c -> armed c !! id = Some reading_header ->
  sessions c id = Some s -> cn_mediator s = Some p ->
  exists c1, handle test_file_descriptors drm_auth_magic_gbm (ev_header id true) c = Ret tt c1 /\
    forall c2, serves c1 c2 -> sessions c2 id = Some s /\ p ∈ apps (sv_shell c2).
Proof.
  intros Hok Ha Hs Hp.
  destruct (header_spec id true c Hok) as (c1 & Hr & Hok1 & _ & Hq); [by split|].
  exists c1. split; [done|]. intros c2 Hrun. destruct (Hq eq_refl) as [Ha1 Hs1].
  assert (abandoned id s c1) as Hab by (split; [by rewrite Hs1|done]).
  destruct (abandoned_stays id s c1 c2 Hok1 Hab Hrun) as [Hs2 _]. split; [done|].
  eapply (ck_registered c2); [by eapply serves_ok|exact Hs2|exact Hp].
Qed.

(** Writing back a session that has been read. *)
Definition put_session (id : Z) s c : Communicator A I P K C :=
  over connected_lens (OrdMap.insert id s (connected_sessions c)) c.

Lemma sessions_put id s c k : sessions (put_session id s c) k = if k =? id then Some s else sessions c k.
Proof. apply find_insert. Qed.

Lemma read_socket_eq id n s bytes x c :
  sessions c id = Some s -> asio_read n (cn_in s) = Ret bytes x ->
  read_socket id n c = Ret bytes (put_session id
    (mkConnection (cn_id s) x (cn_header s) (cn_message s) (cn_sender s) (cn_mediator s) (cn_sent s)) c).
Proof. intros Hs Hr. unfold read_socket. by rewrite Hs, Hr. Qed.

Lemma update_session_eq id s f c :
  sessions c id = Some s -> update_session id f c = Ret tt (put_session id (f s) c).
Proof. intros Hs. unfold update_session, session_at, deref, modify, mbind, M_bind. by rewrite Hs. Qed.

Lemma on_read_size_eq id s n c :
  sessions c id = Some s -> decode_header (cn_header s) = Some n ->
  on_read_size id false c = Ret tt (over armed_lens (<[id := reading_body n]> (armed c)) c).
Proof. intros Hs Hn. unfold on_read_size, session_at, deref, mbind, M_bind. by rewrite Hs, Hn. Qed.

(** The header of a frame has been read. *)
Lemma handle_header_eq id s bytes n x c :
  sessions c id = Some s -> asio_read 2 (cn_in s) = Ret bytes x -> decode_header bytes = Some n ->
  exists c1, handle test_file_descriptors drm_auth_magic_gbm (ev_header id false) c = Ret tt c1 /\
    sessions c1 id = Some (mkConnection (cn_id s) x bytes (cn_message s) (cn_sender s) (cn_mediator s) (cn_sent s)) /\
    armed c1 !! id = Some (reading_body n) /\ only id c c1 /\
    sv_shell c1 = sv_shell c /\ sv_cache c1 = sv_cache c.
Proof.
  intros Hs Hr Hn. unfold handle, disarm, modify. unfold mbind at 1 2 3, M_bind. cbv beta iota.
  erewrite read_socket_eq by done. cbv beta iota.
  erewrite update_session_eq by (rewrite sessions_put, Z.eqb_refl; done). cbv beta iota.
  erewrite on_read_size_eq by (rewrite ?sessions_put, ?Z.eqb_refl; done).
  eexists. split; [reflexivity|]. cbn [connected_sessions over armed_lens armed].
  rewrite !sessions_put, Z.eqb_refl, lookup_insert_eq. split; [done|]. split; [done|]. split; [|done].
  intros k Hk. cbn [connected_sessions over armed_lens armed put_session connected_lens].
  fold (put_session id). rewrite !find_insert.
  destruct (Z.eqb_spec k id); [done|]. split; [done|].
  by rewrite lookup_insert_ne, lookup_delete_ne by congruence.
Qed.

(** The body has been read. *)
Lemma handle_body_eq id key s bytes n x c :
  sessions c id = Some s -> armed c !! id = Some (reading_body n) ->
  asio_read (Z.to_nat n) (cn_in s) = Ret bytes x ->
  exists c2, handle test_file_descriptors drm_auth_magic_gbm (ev_body id false key) c =
      on_new_message test_file_descriptors drm_auth_magic_gbm id false key c2 /\
    sessions c2 id = Some (mkConnection (cn_id s) x (cn_header s) (cn_message s ++ bytes) (cn_sender s) (cn_mediator s) (cn_sent s)) /\
    armed c2 !! id = None /\ only id c c2 /\ sv_shell c2 = sv_shell c /\ sv_cache c2 = sv_cache c.
Proof.
  intros Hs Ha Hr. unfold handle, gets, disarm, modify. unfold mbind at 1 2, M_bind. rewrite Ha.
  unfold mbind, M_bind. erewrite read_socket_eq by done. cbv beta iota.
  erewrite update_session_eq by (rewrite sessions_put, Z.eqb_refl; done). cbv beta iota.
  eexists. split; [reflexivity|]. rewrite sessions_put, Z.eqb_refl. split; [done|]. split; [apply lookup_delete_eq|].
  split; [|done]. intros k Hk. rewrite !sessions_put. destruct (Z.eqb_spec k id); [done|]. split; [done|].
  simpl. by rewrite lookup_delete_ne by congruence.
Qed.

(** What is in the buffer is parsed, and what the parser leaves stays there. *)
Definition parsed (id : Z) (message : list Z) (o : outcome (Communicator A I P K C) bool) : Prop :=
  match o with
  | Ret _ c | Throw _ c | Wait c => cn_message <$> sessions c id = Some (unparsed message)
  | Undef => True
  end.

Lemma process_parsed id key s c : sessions c id = Some s ->
  parsed id (cn_message s) (process test_file_descriptors drm_auth_magic_gbm id key c).
Proof.
  intros Hs. unfold process. rewrite Hs. destruct (process_message _ _ _ _ _); simpl; try done; by rewrite find_insert, Z.eqb_refl.
Qed.


End Invariant.

(** ** A concrete server *)

Definition demo_comm : Type := Communicator demo_platform Z unit unit (list item).

Definition demo_connect : list Z := serialize_invocation (mkInvocation 0 "connect" "app").

(** The first client has sent a request to connect. *)
Definition demo_new : demo_comm :=
  match Communicator_new (C := list item) demo_shell0 tt (frame demo_connect) tt
          (mkCommunicator demo_shell0 tt ∅ 0 [] None ∅) with
  | Ret _ c => c
  | _ => mkCommunicator demo_shell0 tt ∅ 0 [] None ∅
  end.

Definition demo_handle (e : event unit (list item)) (c : demo_comm) : demo_comm :=
  match handle demo_test_fds drm_auth_magic_gbm e c with Ret _ c' => c' | _ => c end.

Definition demo_accepted : demo_comm := demo_handle (ev_accepted false [] tt) demo_new.

(** After its request has been served. *)
Definition demo_served : demo_comm := demo_handle (ev_body 0 false 1) (demo_handle (ev_header 0 false) demo_accepted).

Example demo_served_connected :
  (cn_mediator <$> OrdMap.find 0 (connected_sessions demo_served)) = Some (Some 0%nat) /\
  armed demo_served !! 0 = Some reading_header /\ apps (sv_shell demo_served) = [0%nat].
Proof. vm_compute. repeat split. Qed.

Lemma demo_new_ok : comm_ok demo_new.
Proof.
  destruct (Communicator_new_ok (K := unit) (C := list item) demo_shell0 tt (frame demo_connect) tt
    (mkCommunicator demo_shell0 tt ∅ 0 [] None ∅)) as (c & Hr & Hok); [apply (demo_serve_inv [])|].
  unfold demo_new. rewrite Hr. exact Hok.
Qed.

Lemma demo_runs : serves demo_test_fds demo_new demo_served.
Proof.
  eapply (serves_event _ _ (ev_accepted false [] tt) demo_accepted).
  { by eexists. }
  { vm_compute. reflexivity. }
  eapply (serves_event _ _ (ev_header 0 false) (demo_handle (ev_header 0 false) demo_accepted)).
  { split; [reflexivity|]. intros _ s Hs. vm_compute in Hs. injection Hs as <-. by eexists _, _. }
  { vm_compute. reflexivity. }
  eapply (serves_event _ _ (ev_body 0 false 1) demo_served); [..|constructor].
  { split; [reflexivity|]. eexists. split; [vm_compute; reflexivity|]. intros _ s Hs.
    vm_compute in Hs. injection Hs as <-. by eexists _, _. }
  { vm_compute. reflexivity. }
Qed.

Lemma demo_served_ok : comm_ok demo_served.
Proof. exact (serves_ok demo_test_fds demo_stub _ _ demo_new_ok demo_runs). Qed.


Lemma vanished_client_stays_witness :
  exists s c1, handle demo_test_fds drm_auth_magic_gbm (ev_header 0 true) demo_served = Ret tt c1 /\
    forall c2, serves demo_test_fds c1 c2 ->
      OrdMap.find 0 (connected_sessions c2) = Some s /\ 0%nat ∈ apps (sv_shell c2).
Proof.
  eexists.
  apply (vanished_client_stays demo_test_fds demo_stub 0 _ 0%nat demo_served demo_served_ok).
  - vm_compute. reflexivity.
  - vm_compute. reflexivity.
  - reflexivity.
Defined.

