(* ===== verification/RunServer.v ===== *)
(** * Running the server

    [mir::run_mir] ([src/server/run_mir.cpp]), [DisplayServer]
    ([src/server/display_server.cpp]) and [SignalDispatcher]
    ([src/server/signal_dispatcher.cpp]): the thread that runs the server, and
    the worker that reads the signals from a socket pair and stops it.

    [run] holds [exit_guard] except while it waits, so each of its parts is one
    step, as is [stop]. *)

From S2P Require Import Prelude.

(** The calls of the server's components. *)
Inductive component_call : Set :=
| communicator_start | compositor_start | input_manager_start
| input_manager_stop | compositor_stop | shell_shutdown.

(** Where the thread of [run_mir] is: before the server exists; the pointer
    stored, [init] running; in [exit_cv.wait], asleep or awake again; returned
    from [run]; past the server's destructor. *)
Inductive server_phase : Set :=
| booting | initialising | waiting | awake | returned | destroyed.

#[export] Instance server_phase_eq_dec : EqDecision server_phase.
Proof. solve_decision. Defined.

(** The worker: in [read]; in [signal_terminate]; after a call of [stop] on a
    server that is gone. *)
Inductive worker_phase : Set := reading | terminating | crashed.

Record server_state : Set := mkServerState {
  phase : server_phase;
  exit : bool;
  worker : worker_phase;
  (** The signals written to the socket pair and not read. *)
  socket : list Z;
  calls : list component_call;
}.

Definition server_start : server_state := mkServerState booting false reading [] [].

(** [signal_display_server], which is never reset. *)
Definition signal_display_server (s : server_state) : bool :=
  match phase s with booting => false | _ => true end.

(** The part of [run] up to the first [wait], or to the end. *)
Definition run_begin (s : server_state) : server_state :=
  let calls := calls s ++ [communicator_start; compositor_start; input_manager_start] in
  if exit s
  then mkServerState returned (exit s) (worker s) (socket s) (calls ++ [input_manager_stop; compositor_stop])
  else mkServerState waiting (exit s) (worker s) (socket s) calls.

(** The part after a [wait]. *)
Definition run_wake (s : server_state) : server_state :=
  if exit s
  then mkServerState returned (exit s) (worker s) (socket s) (calls s ++ [input_manager_stop; compositor_stop])
  else mkServerState waiting (exit s) (worker s) (socket s) (calls s).

(** [~DisplayServer]. *)
Definition server_delete (s : server_state) : server_state :=
  mkServerState destroyed (exit s) (worker s) (socket s) (calls s ++ [shell_shutdown]).

(** [stop]: [notify_one] wakes the thread if it sleeps. *)
Definition stop (s : server_state) : server_state :=
  mkServerState (match phase s with waiting => awake | p => p end) true (worker s) (socket s) (calls s).

(** [signal_handler]. *)
Definition signal_handler (signal : Z) (s : server_state) : server_state :=
  mkServerState (phase s) (exit s) (worker s) (socket s ++ [signal]) (calls s).

Definition set_worker (w : worker_phase) (l : list Z) (s : server_state) : server_state :=
  mkServerState (phase s) (exit s) w l (calls s).

Definition set_phase (p : server_phase) (s : server_state) : server_state :=
  mkServerState p (exit s) (worker s) (socket s) (calls s).

Inductive step : server_state -> server_state -> Prop :=
| step_signal n s : step s (signal_handler n s)
| step_construct s : phase s = booting -> step s (set_phase initialising s)
(** [init] may stop the server it is given. *)
| step_init s : phase s = initialising -> step s (stop s)
| step_run s : phase s = initialising -> step s (run_begin s)
| step_spurious s : phase s = waiting -> step s (set_phase awake s)
| step_wake s : phase s = awake -> step s (run_wake s)
| step_delete s : phase s = returned -> step s (server_delete s)
| step_read n l s : worker s = reading -> socket s = n :: l -> step s (set_worker terminating l s)
(** The loop until the pointer is set. *)
| step_yield s : worker s = terminating -> signal_display_server s = false -> step s s
| step_stop s :
    worker s = terminating -> signal_display_server s = true ->
    step s (if decide (phase s = destroyed) then set_worker crashed (socket s) s
            else set_worker reading (socket s) (stop s)).

Inductive steps : server_state -> server_state -> Prop :=
| steps_refl s : steps s s
| steps_cons s1 s2 s3 : step s1 s2 -> steps s2 s3 -> steps s1 s3.

(** ** The invariant *)

(** The components are started once, in order, and stopped in the reverse
    order before the shell is shut down. *)
Definition calls_of (p : server_phase) : list component_call :=
  match p with
  | booting | initialising => []
  | waiting | awake => [communicator_start; compositor_start; input_manager_start]
  | returned => [communicator_start; compositor_start; input_manager_start; input_manager_stop; compositor_stop]
  | destroyed => [communicator_start; compositor_start; input_manager_start; input_manager_stop; compositor_stop;
                  shell_shutdown]
  end.

Record server_ok (s : server_state) : Prop := {
  so_calls : calls s = calls_of (phase s);
  so_wake : phase s = waiting -> exit s = false;
  so_exit : phase s = returned \/ phase s = destroyed -> exit s = true;
  so_crash : worker s = crashed -> phase s = destroyed;
}.

Lemma run_step_ok s s' : server_ok s -> step s s' -> server_ok s'.
Proof.
  intros [Hc Hw He Hk] Hst. destruct s as [p ex w l cs]. simpl in *. subst cs.
  inversion Hst; subst; simpl in *; subst; simpl;
    unfold run_begin, run_wake, server_delete, stop, set_phase, set_worker in *; simpl in *;
    try (destruct ex; split; simpl; naive_solver).
  - case_decide as Hd; [subst p; split; simpl; naive_solver|].
    split; simpl; destruct p; simpl; naive_solver.
Qed.

Lemma run_steps_ok s s' : server_ok s -> steps s s' -> server_ok s'.
Proof. intros Hok Hst. induction Hst; eauto using run_step_ok. Qed.

Lemma server_start_ok : server_ok server_start.
Proof. split; simpl; try done. by intros [|]. Qed.

(** ** Theorems *)

(** A signal has been written that the worker has not acted upon. *)
Definition signalled (s : server_state) : Prop :=
  worker s = terminating \/ (worker s = reading /\ socket s <> []).

Definition over (s : server_state) : Prop := phase s = returned \/ phase s = destroyed.

(** The steps of the two threads up to the return of [run], when no further signal arrives, [init] does not
    stop the server and the wait is not woken spuriously. *)
Inductive progress : server_state -> server_state -> Prop :=
| progress_construct s : phase s = booting -> progress s (set_phase initialising s)
| progress_run s : phase s = initialising -> progress s (run_begin s)
| progress_wake s : phase s = awake -> progress s (run_wake s)
| progress_read n l s : worker s = reading -> socket s = n :: l -> progress s (set_worker terminating l s)
| progress_stop s :
    worker s = terminating -> signal_display_server s = true -> phase s <> destroyed ->
    progress s (set_worker reading (socket s) (stop s)).

Lemma progress_is_step s s' : progress s s' -> step s s'.
Proof.
  destruct 1 as [s Hp|s Hp|s Hp|n l s Hw Hl|s Hw Hp Hd]; [by apply step_construct|by apply step_run|by apply step_wake|by eapply step_read|].
  pose proof (step_stop s Hw Hp) as Hst. by rewrite decide_False in Hst.
Qed.

(** What is left to do. *)
Definition phase_work (p : server_phase) : nat :=
  match p with booting => 5 | initialising => 4 | awake => 3 | waiting => 2 | returned => 1 | destroyed => 0 end.
Definition work (s : server_state) : nat :=
  3 * length (socket s) + match worker s with terminating => 2 | _ => 0 end + phase_work (phase s).

Lemma progress_work s s' : progress s s' -> (work s' < work s)%nat.
Proof.
  destruct s as [p ex w l cs]. unfold work. intros Hst. inversion Hst; subst; simpl in *; subst; simpl; try lia.
  - unfold run_begin. simpl. destruct ex; simpl; lia.
  - unfold run_wake. simpl. destruct ex; simpl; lia.
  - destruct p; simpl; try done; lia.
Qed.

Lemma progress_terminates s : sn progress s.
Proof.
  remember (work s) as n eqn:E. revert s E. induction (lt_wf n) as [n _ IH]. intros s ->. constructor. intros s' Hs.
  eapply IH; [by apply progress_work|done].
Qed.

(** The signal is not lost on the way: it is still to be acted upon, or [exit] is set. *)
Definition doomed (s : server_state) : Prop := (signalled s \/ exit s = true) /\ phase s <> destroyed.

Lemma progress_doomed s s' : server_ok s -> doomed s -> progress s s' -> doomed s'.
Proof.
  intros [_ _ _ Hk] [Hs Hd] Hst. destruct s as [p ex w l cs]. unfold doomed, signalled in *. simpl in *.
  inversion Hst; subst; simpl in *; subst; simpl; try (split; [naive_solver|done]).
  - unfold run_begin. simpl. destruct ex; simpl; (split; [naive_solver|done]).
  - unfold run_wake. simpl. destruct ex; simpl; (split; [naive_solver|done]).
  - split; [by right|]. by destruct p.
Qed.

(** It is acted upon. *)
Lemma doomed_progress s : server_ok s -> doomed s -> phase s = returned \/ exists s', progress s s'.
Proof.
  intros [_ Hw _ Hk] [Hs Hd]. destruct (decide (phase s = returned)) as [|Hr]; [by left|]. right.
  destruct (decide (phase s = booting)) as [Hb|Hb]; [eexists; by apply progress_construct|].
  assert (signal_display_server s = true) as Hp by (unfold signal_display_server; by destruct (phase s)).
  destruct Hs as [[Ht|[Hre Hl]]|He].
  - eexists. by apply progress_stop.
  - destruct (socket s) as [|n l] eqn:E; [done|]. eexists. by eapply progress_read.
  - destruct (phase s) eqn:E; try done; [eexists; by apply progress_run|specialize (Hw eq_refl); congruence|eexists; by apply progress_wake].
Qed.

Lemma progress_all s s' : server_ok s -> doomed s -> rtc progress s s' -> server_ok s' /\ doomed s'.
Proof.
  intros Hok Hd. induction 1 as [|s1 s2 s3 Hs _ IH]; [done|]. apply IH; [by eapply run_step_ok, progress_is_step|by eapply progress_doomed].
Qed.


(** The pointer to the server is never reset: a signal that arrives when
    [run_mir] has returned makes the worker call [stop] on a server that has
    been destroyed. *)
Theorem late_signal_uses_destroyed_server s (n : Z) :
  steps server_start s -> phase s = destroyed -> worker s = reading -> socket s = [] ->
  exists s', step s (signal_handler n s) /\ steps (signal_handler n s) s' /\ worker s' = crashed /\ calls s' = calls s.
Proof.
  intros _ Hp Hw Hl. set (s1 := signal_handler n s). set (s2 := set_worker terminating [] s1).
  exists (set_worker crashed [] s2). split; [apply step_signal|]. split; [|done].
  eapply steps_cons.
  { eapply (step_read n []); [done|]. simpl. by rewrite Hl. }
  eapply steps_cons; [|constructor]. fold s1 s2.
  pose proof (step_stop s2 eq_refl) as Hst. unfold signal_display_server in Hst. simpl in Hst. rewrite Hp in Hst.
  specialize (Hst eq_refl). by rewrite decide_True in Hst.
Qed.

(** ** On concrete runs *)

Definition demo_waiting : server_state :=
  mkServerState waiting false reading [2] [communicator_start; compositor_start; input_manager_start].

Lemma demo_waiting_reached : steps server_start demo_waiting.
Proof.
  eapply steps_cons; [by apply step_construct|]. eapply steps_cons; [by apply step_run|].
  eapply steps_cons; [apply (step_signal 2)|]. apply steps_refl.
Qed.


(** The signal is read, the server stopped, and its thread wakes up. *)
Example demo_returns :
  rtc progress demo_waiting (mkServerState returned true reading []
    [communicator_start; compositor_start; input_manager_start; input_manager_stop; compositor_stop]).
Proof.
  eapply rtc_l; [by eapply (progress_read 2 [])|]. eapply rtc_l; [by apply progress_stop|]. eapply rtc_l; [by apply progress_wake|]. apply rtc_refl.
Qed.

Definition demo_ended : server_state := mkServerState destroyed true reading [] (calls_of destroyed).

Lemma demo_ended_reached : steps server_start demo_ended.
Proof.
  eapply steps_cons; [by apply step_construct|]. eapply steps_cons; [by apply step_init|].
  eapply steps_cons; [by apply step_run|]. eapply steps_cons; [by apply step_delete|]. apply steps_refl.
Qed.

Lemma late_signal_uses_destroyed_server_witness :
  exists s', step demo_ended (signal_handler 15 demo_ended) /\ steps (signal_handler 15 demo_ended) s' /\
    worker s' = crashed /\ calls s' = calls demo_ended.
Proof.
  apply (late_signal_uses_destroyed_server demo_ended 15 demo_ended_reached); reflexivity.
Defined.
