(* ===== verification/Reports.v ===== *)
(** * Reports

    [logging::MessageProcessorReport]
    ([src/server/logging/message_processor_report.cpp]), which keeps the
    invocations that are being handled, and the reports that only write
    ([session_mediator_report.cpp], [display_report.cpp]).

    A report writes lines of a severity for a component.  How a pointer is
    printed is left open; numbers are printed in decimals. *)

From stdpp Require Import pretty.
From S2P Require Import Prelude.

Inductive severity : Set := critical | error | warning | informational | debug.

Record log_line : Set := mkLine { ll_severity : severity; ll_text : string; ll_component : string }.

Definition quoted (s : string) : string :=
  String (Ascii.ascii_of_nat 34) EmptyString +:+ s +:+ String (Ascii.ascii_of_nat 34) EmptyString.

Definition endl : string := String (Ascii.ascii_of_nat 10) EmptyString.

(** ** Invocations *)

Record InvocationDetails : Set := mkInvocation {
  inv_start : Z;
  inv_method : string;
  inv_exception : string;
}.

Record MessageProcessorReport : Set := mkReport {
  mediators : gmap Z (gmap Z InvocationDetails);
  report_log : list log_line;
}.

Definition report_new : MessageProcessorReport := mkReport ∅ [].

Section Processor.
Context (show_pointer : Z -> string).

Definition component : string := "frontend::MessageProcessor".

Definition log (s : severity) (text : string) : M MessageProcessorReport unit :=
  modify (fun r => mkReport (mediators r) (report_log r ++ [mkLine s text component])).

Definition set_mediators (f : gmap Z (gmap Z InvocationDetails) -> gmap Z (gmap Z InvocationDetails))
    : M MessageProcessorReport unit :=
  modify (fun r => mkReport (f (mediators r)) (report_log r)).

(** [mediators[mediator].current_invocations[id]]: both are made if they are not
    there; an exception that is recorded already is kept. *)
Definition received_invocation (mediator id : Z) (method : string) (sample : Z) : M MessageProcessorReport unit :=
  log debug ("mediator=" +:+ show_pointer mediator +:+ ", method=" +:+ method +:+ "()") ;;
  set_mediators (fun m =>
    let invocations := default ∅ (m !! mediator) in
    let exception := default EmptyString (inv_exception <$> invocations !! id) in
    <[mediator := <[id := mkInvocation sample method exception]> invocations]> m).

Definition error_text (exception : string) : string :=
  if decide (exception = EmptyString) then EmptyString else " ERROR=" +:+ exception.

(** [invocations.erase(pi)] is undefined at the end of the map. *)
Definition completed_invocation (mediator id : Z) (result : bool) (sample : Z) : M MessageProcessorReport unit :=
  r ← get ;
  match mediators r !! mediator with
  | None => log informational EmptyString
  | Some invocations =>
      match invocations !! id with
      | None => undefined
      | Some pi =>
          let out := "mediator=" +:+ show_pointer mediator +:+ ": " +:+ inv_method pi +:+ "(), elapsed=" +:+
            pretty (Z.quot (sample - inv_start pi) 1000) +:+ "µs" +:+ error_text (inv_exception pi) +:+
            (if result then EmptyString else " (disconnecting)") in
          let invocations := delete id invocations in
          set_mediators (fun m =>
            if decide (invocations = ∅) then delete mediator m else <[mediator := invocations]> m) ;;
          log informational out
      end
  end.

Definition unknown_method (mediator id : Z) (method : string) : M MessageProcessorReport unit :=
  log warning ("mediator=" +:+ show_pointer mediator +:+ ", id=" +:+ pretty id +:+ ", UNKNOWN method=" +:+ quoted method) ;;
  set_mediators (delete mediator).

(** [exception_handled(mediator, id, error)]. *)
Definition exception_handled (mediator id : Z) (diagnostic : string) : M MessageProcessorReport unit :=
  set_mediators (fun m =>
    match m !! mediator with
    | None => m
    | Some invocations =>
        match invocations !! id with
        | None => m
        | Some pi => <[mediator := <[id := mkInvocation (inv_start pi) (inv_method pi) diagnostic]> invocations]> m
        end
    end).

(** [exception_handled(mediator, error)]. *)
Definition exception_handled_message (mediator : Z) (diagnostic : string) : M MessageProcessorReport unit :=
  log informational ("mediator=" +:+ show_pointer mediator +:+ ", ERROR: " +:+ diagnostic) ;;
  set_mediators (delete mediator).

(** The destructor; the order of an [unordered_map] is taken to be that of the
    keys. *)
Definition outstanding (r : MessageProcessorReport) : string :=
  foldr (fun med out =>
    foldr (fun inv out =>
      "mediator=" +:+ show_pointer (fst med) +:+ ": " +:+ inv_method (snd inv) +:+ "()" +:+
      error_text (inv_exception (snd inv)) +:+ endl +:+ out) out (map_to_list (snd med)))
    EmptyString (map_to_list (mediators r)).

Definition report_delete : M MessageProcessorReport unit :=
  r ← get ;
  if decide (mediators r = ∅) then mret tt
  else log informational ("Calls outstanding on exit:" +:+ endl +:+ outstanding r).

(** ** What the message processors report

    Each processor handles one message at a time; the processors of different
    connections interleave.  [busy] has, for each processor in [dispatch], the
    identifier of the message and whether its method is known. *)

Inductive reported : MessageProcessorReport -> gmap Z (Z * bool) -> Prop :=
| rp_new : reported report_new ∅
| rp_received mediator id method sample r r' busy :
    reported r busy -> busy !! mediator = None ->
    received_invocation mediator id method sample r = Ret tt r' -> reported r' (<[mediator := (id, true)]> busy)
| rp_unknown mediator id method r r' busy :
    reported r busy -> busy !! mediator = Some (id, true) ->
    unknown_method mediator id method r = Ret tt r' -> reported r' (<[mediator := (id, false)]> busy)
| rp_exception mediator id diagnostic r r' busy :
    reported r busy -> busy !! mediator = Some (id, true) ->
    exception_handled mediator id diagnostic r = Ret tt r' -> reported r' busy
| rp_completed mediator id known result sample r r' busy :
    reported r busy -> busy !! mediator = Some (id, known) ->
    completed_invocation mediator id result sample r = Ret tt r' -> reported r' (delete mediator busy)
| rp_bad_message mediator diagnostic r r' busy :
    reported r busy -> busy !! mediator = None ->
    exception_handled_message mediator diagnostic r = Ret tt r' -> reported r' busy.

(** A processor has exactly its own invocation. *)
Definition tracks (r : MessageProcessorReport) (busy : gmap Z (Z * bool)) : Prop :=
  forall mediator,
    match busy !! mediator with
    | Some (id, true) => exists d, mediators r !! mediator = Some {[ id := d ]}
    | _ => mediators r !! mediator = None
    end.

Lemma tracks_insert r busy mediator id d log' :
  tracks r busy -> tracks (mkReport (<[mediator := {[ id := d ]}]> (mediators r)) log') (<[mediator := (id, true)]> busy).
Proof.
  intros Ht m. destruct (decide (m = mediator)) as [->|Hne]; simpl.
  - rewrite !lookup_insert_eq. by exists d.
  - rewrite !lookup_insert_ne by done. apply Ht.
Qed.

Lemma tracks_delete r busy busy' mediator log' :
  tracks r busy -> (forall m, m <> mediator -> busy' !! m = busy !! m) ->
  (match busy' !! mediator with Some (_, true) => False | _ => True end) ->
  tracks (mkReport (delete mediator (mediators r)) log') busy'.
Proof.
  intros Ht Hb Hm m. simpl. destruct (decide (m = mediator)) as [->|Hne].
  - rewrite lookup_delete_eq. by destruct (busy' !! mediator) as [[id []]|].
  - rewrite lookup_delete_ne by done. rewrite Hb by done. apply Ht.
Qed.

Lemma completed_spec mediator id known result sample r busy :
  tracks r busy -> busy !! mediator = Some (id, known) ->
  exists text, completed_invocation mediator id result sample r =
    Ret tt (mkReport (delete mediator (mediators r)) (report_log r ++ [mkLine informational text component])).
Proof.
  intros Ht Hb. specialize (Ht mediator). rewrite Hb in Ht. unfold completed_invocation, get, mbind, M_bind.
  destruct known.
  - destruct Ht as [d Hd]. rewrite Hd. unfold set_mediators, log, modify. rewrite lookup_singleton_eq.
    cbn [mediators report_log]. rewrite delete_singleton_eq, decide_True by done. by eexists.
  - rewrite Ht. unfold log, modify. exists EmptyString. by rewrite delete_id.
Qed.

Lemma reported_tracks r busy : reported r busy -> tracks r busy.
Proof.
  induction 1 as [|mediator id method sample r r' busy _ IH Hb Hr|mediator id method r r' busy _ IH Hb Hr
    |mediator id diagnostic r r' busy _ IH Hb Hr|mediator id known result sample r r' busy _ IH Hb Hr
    |mediator diagnostic r r' busy _ IH Hb Hr].
  - intros m. rewrite lookup_empty. apply lookup_empty.
  - injection Hr as <-. pose proof (IH mediator) as Hm. rewrite Hb in Hm. cbn [mediators]. rewrite Hm. simpl.
    rewrite lookup_empty, insert_empty. by apply tracks_insert.
  - injection Hr as <-. apply (tracks_delete _ busy); [done| |].
    + intros m Hne. by rewrite lookup_insert_ne.
    + by rewrite lookup_insert_eq.
  - injection Hr as <-. pose proof (IH mediator) as Hm. rewrite Hb in Hm. destruct Hm as [d Hd]. rewrite Hd.
    rewrite lookup_singleton_eq, insert_singleton_eq.
    rewrite <- (insert_id busy mediator (id, true) Hb). by apply tracks_insert.
  - destruct (completed_spec mediator id known result sample r busy IH Hb) as [text E]. rewrite E in Hr.
    injection Hr as <-. apply (tracks_delete _ busy); [done| |].
    + intros m Hne. by rewrite lookup_delete_ne.
    + by rewrite lookup_delete_eq.
  - injection Hr as <-. apply (tracks_delete _ busy); [done|done|]. by rewrite Hb.
Qed.

(** The report follows the processors.  However the processors of the
    connections interleave, an invocation is kept exactly while it is being
    handled and its method is known; reporting its completion is always defined
    and writes one line; and when no processor is in a call, the destructor has
    nothing to write. *)
Theorem report_tracks_invocations r busy :
  reported r busy ->
  (forall mediator id known result sample, busy !! mediator = Some (id, known) ->
    exists r' line, completed_invocation mediator id result sample r = Ret tt r' /\ report_log r' = report_log r ++ [line]) /\
  (forall mediator id, is_Some (mediators r !! mediator ≫= (.!! id)) <-> busy !! mediator = Some (id, true)) /\
  (busy = ∅ -> report_delete r = Ret tt r).
Proof.
  intros Hr%reported_tracks. split; [|split].
  - intros mediator id known result sample Hb.
    destruct (completed_spec mediator id known result sample r busy Hr Hb) as [text E]. rewrite E. by eexists _, _.
  - intros mediator id. specialize (Hr mediator). destruct (busy !! mediator) as [[id' []]|].
    + destruct Hr as [d ->]. simpl. rewrite lookup_singleton_is_Some. naive_solver.
    + rewrite Hr. simpl. split; [by intros [? ?]|done].
    + rewrite Hr. simpl. split; [by intros [? ?]|done].
  - intros ->. assert (mediators r = ∅) as E.
    { apply map_empty. intros m. specialize (Hr m). by rewrite lookup_empty in Hr. }
    unfold report_delete, get, mbind, M_bind. by rewrite decide_True.
Qed.

(** An unknown method is forgotten before its completion is reported, and an
    empty line is written for it. *)
Lemma unknown_method_logs_empty mediator id method result sample r busy :
  reported r busy -> busy !! mediator = Some (id, true) ->
  exists r' text, (unknown_method mediator id method ;; completed_invocation mediator id result sample) r = Ret tt r' /\
    report_log r' = report_log r ++ [mkLine warning text component; mkLine informational EmptyString component].
Proof.
  intros Hr Hb. unfold mbind at 1, M_bind, unknown_method. unfold mbind, M_bind, log, set_mediators, modify.
  unfold completed_invocation, get, mbind, M_bind. simpl. rewrite lookup_delete_eq. eexists _, _. split; [reflexivity|].
  simpl. by rewrite <- app_assoc.
Qed.

End Processor.

(** ** Reports that only write *)

Definition display_line (text : string) : log_line := mkLine informational text "graphics".

Definition report_successful_setup_of_native_resources : log_line := display_line "Successfully setup native resources.".
Definition report_successful_egl_make_current_on_construction : log_line :=
  display_line "Successfully made egl context current on construction.".
Definition report_successful_egl_buffer_swap_on_construction : log_line :=
  display_line "Successfully performed egl buffer swap on construction.".
Definition report_successful_drm_mode_set_crtc_on_construction : log_line :=
  display_line "Successfully performed drm mode setup on construction.".
Definition report_successful_display_construction : log_line := display_line "Successfully finished construction.".

Definition mediator_line (s : severity) (text : string) : log_line := mkLine s text "frontend::SessionMediator".

Definition session_connect_called (app_name : string) : log_line :=
  mediator_line informational ("session_connect(" +:+ quoted app_name +:+ ")").
Definition session_create_surface_called (app_name : string) : log_line :=
  mediator_line informational ("session_create_surface(" +:+ quoted app_name +:+ ")").
Definition session_next_buffer_called (app_name : string) : log_line :=
  mediator_line informational ("session_next_buffer_called(" +:+ quoted app_name +:+ ")").
Definition session_release_surface_called (app_name : string) : log_line :=
  mediator_line informational ("session_release_surface_called(" +:+ quoted app_name +:+ ")").
Definition session_disconnect_called (app_name : string) : log_line :=
  mediator_line informational ("session_disconnect_called(" +:+ quoted app_name +:+ ")").
Definition session_drm_auth_magic_called (app_name : string) : log_line :=
  mediator_line informational ("session_drm_auth_magic_called(" +:+ quoted app_name +:+ ")").
Definition session_configure_surface_called (app_name : string) : log_line :=
  mediator_line informational ("session_configure_surface_called(" +:+ quoted app_name +:+ ")").
Definition session_error (app_name method what : string) : log_line :=
  mediator_line error (method +:+ " - session_error(" +:+ quoted app_name +:+ "):" +:+ endl +:+ what).

(** ** On a concrete report *)

Definition demo_pointer (p : Z) : string := pretty p.

(** Mediator 7 is in [connect], which has thrown. *)
Definition demo_report : MessageProcessorReport :=
  mkReport {[ 7 := {[ 1 := mkInvocation 1000 "connect" "boom" ]} ]}
    [mkLine debug "mediator=7, method=connect()" component].

Lemma demo_reported : reported demo_pointer demo_report {[ 7 := (1, true) ]}.
Proof.
  apply (rp_exception demo_pointer 7 1 "boom" (mkReport {[ 7 := {[ 1 := mkInvocation 1000 "connect" "" ]} ]}
    [mkLine debug "mediator=7, method=connect()" component])); [|done|vm_compute; reflexivity].
  apply (rp_received demo_pointer 7 1 "connect" 1000 report_new _ ∅); [constructor|done|vm_compute; reflexivity].
Qed.

Lemma report_tracks_invocations_witness :
  exists r' line, completed_invocation demo_pointer 7 1 false 53000 demo_report = Ret tt r' /\
    report_log r' = report_log demo_report ++ [line].
Proof.
  exact (proj1 (report_tracks_invocations demo_pointer demo_report {[ 7 := (1, true) ]} demo_reported) 7 1 true false 53000 eq_refl).
Defined.

Example demo_completed :
  match completed_invocation demo_pointer 7 1 false 53000 demo_report with
  | Ret _ r => last (report_log r) =
      Some (mkLine informational "mediator=7: connect(), elapsed=52µs ERROR=boom (disconnecting)" component)
  | _ => False
  end.
Proof. vm_compute. reflexivity. Qed.
