(* ===== verification/Configuration.v ===== *)
(** * The default configuration

    [DefaultServerConfiguration] ([src/server/default_server_configuration.cpp],
    [src/server/frontend/make_protobuf_socket_communicator.cpp]): every component
    is made on demand, from others made on demand, and cached in a [CachedPtr]
    ([include/server/mir/cached_ptr.h]), which holds it only weakly.  An object
    lives as long as it can be reached from a [shared_ptr] that is held. *)

From S2P Require Import Prelude.

Inductive component : Set :=
| c_communicator | c_session_manager | c_input_manager | c_graphics_platform | c_buffer_initializer
| c_buffer_allocator | c_display | c_ipc_factory | c_session_mediator_report | c_message_processor_report
| c_buffer_allocation_strategy | c_renderer | c_buffer_bundle_manager | c_surface_stack | c_surface_source
| c_compositing_strategy | c_compositor | c_logger | c_display_report | c_surface_controller | c_time_source.

#[export] Instance component_eq_dec : EqDecision component.
Proof. solve_decision. Defined.

(** The options that decide what is made. *)
Record options : Set := mkOptions { log_display : bool; log_app_mediator : bool; log_msg_processor : bool }.

(** The members of the configuration that are called to make a component, in
    order, and whether the new object keeps what it gets.  On the GBM platform,
    which keeps its report and is kept by its displays and allocators. *)
Definition recipe (o : options) (c : component) : list (component * bool) :=
  match c with
  | c_display_report => if log_display o then [(c_logger, true)] else []
  | c_graphics_platform => [(c_display_report, true)]
  | c_buffer_initializer => []
  | c_buffer_allocation_strategy => [(c_buffer_allocator, true)]
  | c_renderer => [(c_display, false)]
  | c_session_manager => [(c_input_manager, true); (c_display, true); (c_surface_source, true)]
  | c_input_manager => [(c_display, true)]
  | c_buffer_allocator => [(c_graphics_platform, true); (c_buffer_initializer, true)]
  | c_display => [(c_graphics_platform, true)]
  | c_surface_stack => [(c_buffer_bundle_manager, true)]
  | c_surface_source => [(c_surface_controller, true); (c_input_manager, true)]
  | c_surface_controller => [(c_surface_stack, true)]
  | c_compositing_strategy => [(c_surface_stack, true); (c_renderer, true)]
  | c_buffer_bundle_manager => [(c_buffer_allocation_strategy, true)]
  | c_compositor => [(c_display, true); (c_surface_stack, true); (c_compositing_strategy, true)]
  | c_ipc_factory =>
      [(c_session_manager, true); (c_display, true); (c_buffer_allocator, true);
       (c_session_mediator_report, true); (c_message_processor_report, true); (c_graphics_platform, true)]
  | c_communicator => [(c_ipc_factory, true)]
  | c_session_mediator_report => if log_app_mediator o then [(c_logger, true)] else []
  | c_message_processor_report => if log_msg_processor o then [(c_logger, true); (c_time_source, true)] else []
  | c_logger => []
  | c_time_source => []
  end.

(** ** Objects *)

Record object : Set := mkObject { kind : component; owned : list nat }.

Record config : Type := mkConfig {
  (** What the [weak_ptr]s refer to, dead or alive; the latest first. *)
  cache : list (component * nat);
  (** All objects ever made, by number. *)
  objects : list object;
  (** The [shared_ptr]s held outside of objects, temporaries included. *)
  held : list nat;
}.

Definition config_new : config := mkConfig [] [] [].

Definition owned_by (objs : list object) (i : nat) : list nat := default [] (owned <$> objs !! i).

(** What is reached in at most [n] steps; there are no longer paths than
    objects. *)
Fixpoint reach (n : nat) (objs : list object) (i : nat) : list nat :=
  match n with
  | O => [i]
  | S n' => i :: flat_map (reach n' objs) (owned_by objs i)
  end.

Definition cached (c : component) (s : config) : option nat :=
  snd <$> List.find (fun e => bool_decide (fst e = c)) (cache s).

(** [!expired()]. *)
Definition alive (s : config) (i : nat) : bool :=
  existsb (fun r => existsb (Nat.eqb i) (reach (length (objects s)) (objects s) r)) (held s).

Definition hold (i : nat) (s : config) : config := mkConfig (cache s) (objects s) (i :: held s).

(** The new object owns [parts]; the temporaries in excess of [before] go. *)
Definition make_object (c : component) (parts before : list nat) (s : config) : config :=
  let i := length (objects s) in
  mkConfig ((c, i) :: cache s) (objects s ++ [mkObject c parts]) (i :: before).

(** [CachedPtr::operator()] on the recipe of [c]; the result is held.  [fuel]
    bounds the depth of the calls, and [backwards] tells whether arguments are
    evaluated from the last to the first. *)
Fixpoint the (fuel : nat) (o : options) (backwards : bool) (c : component) : M config nat :=
  match fuel with
  | O => undefined
  | S fuel' =>
      s ← get ;
      let make :=
        before ← gets held ;
        parts ← (fix args (l : list (component * bool)) : M config (list nat) :=
                   match l with
                   | [] => mret []
                   | (c', keep) :: l' =>
                       i ← the fuel' o backwards c' ;
                       rest ← args l' ;
                       mret (if keep : bool then i :: rest else rest)
                   end) (if backwards then rev (recipe o c) else recipe o c) ;
        modify (make_object c parts before) ;;
        gets (fun s => pred (length (objects s))) in
      match cached c s with
      | Some i => if alive s i then modify (hold i) ;; mret i else make
      | None => make
      end
  end.

(** The depth of the recipes. *)
Definition depth : nat := 12.

(** The members of [DisplayServer::Private], which stay held. *)
Definition DisplayServer_new (o : options) (backwards : bool) : M config (list nat) :=
  display ← the depth o backwards c_display ;
  compositor ← the depth o backwards c_compositor ;
  shell ← the depth o backwards c_session_manager ;
  communicator ← the depth o backwards c_communicator ;
  input_manager ← the depth o backwards c_input_manager ;
  mret [display; compositor; shell; communicator; input_manager].

(** ** Theorems *)

(** The part of kind [c] of an object, along a path of kinds. *)
Fixpoint part (s : config) (path : list component) (i : nat) : option nat :=
  match path with
  | [] => Some i
  | c :: path' =>
      j ← List.find (fun j => bool_decide (kind <$> objects s !! j = Some c)) (owned_by (objects s) i) ;
      part s path' j
  end.

(** The parts of the server are connected as they must be.  Whatever the
    options, and in whichever order arguments are evaluated, making the display
    server makes no component twice, although the caches hold nothing
    themselves: the compositor draws the stack into which the shell puts its
    surfaces, on the display that the shell places them on and that clients are
    told about; clients talk to the server's own shell; their buffers come from
    the allocator that is announced to them; and the input goes to the shell's
    focus. *)
Theorem server_is_wired o backwards :
  match DisplayServer_new o backwards config_new with
  | Ret [display; compositor; shell; communicator; input_manager] s =>
      NoDup (kind <$> objects s) /\
      (exists stack,
         part s [c_surface_stack] compositor = Some stack /\
         part s [c_compositing_strategy; c_surface_stack] compositor = Some stack /\
         part s [c_surface_source; c_surface_controller; c_surface_stack] shell = Some stack /\
         (exists allocator,
            part s [c_buffer_bundle_manager; c_buffer_allocation_strategy; c_buffer_allocator] stack = Some allocator /\
            part s [c_ipc_factory; c_buffer_allocator] communicator = Some allocator)) /\
      part s [c_display] compositor = Some display /\ part s [c_display] shell = Some display /\
      part s [c_ipc_factory; c_display] communicator = Some display /\
      part s [c_ipc_factory; c_session_manager] communicator = Some shell /\
      part s [c_input_manager] shell = Some input_manager /\
      part s [c_surface_source; c_input_manager] shell = Some input_manager
  | _ => False
  end.
Proof.
  destruct o as [[] [] []], backwards;
    (match goal with |- match ?m with _ => _ end =>
       let v := eval vm_compute in m in replace m with v by (vm_compute; reflexivity) end);
    (split; [apply (bool_decide_unpack _); vm_compute; exact Logic.I|]);
    (split; [do 2 (eexists; repeat (split; [vm_compute; reflexivity|])); vm_compute; reflexivity|]);
    repeat split; vm_compute; reflexivity.
Qed.

(** The caches do not keep a component: one that nobody holds any more is made
    anew. *)
Example dropped_display_is_remade :
  match (the depth (mkOptions false false false) false c_display) config_new with
  | Ret d s =>
      match the depth (mkOptions false false false) false c_display (mkConfig (cache s) (objects s) []) with
      | Ret d' _ => d = 2%nat /\ d' = 5%nat
      | _ => False
      end
  | _ => False
  end.
Proof. vm_compute. done. Qed.
