(* ===== verification/Options.v ===== *)
(** * Options

    [options::ProgramOption] ([src/server/options/program_option.cpp]) and the
    constructor of [DefaultServerConfiguration], which reads the command line and
    then the environment.

    What [boost::program_options] makes of its input is given as the options it
    finds; [store] keeps a value that is there already, as documented. *)

From Stdlib Require Import Ascii.
From S2P Require Import Prelude.

(** A value in the [variables_map]. *)
Inductive value : Set := v_bool (b : bool) | v_int (i : Z) | v_string (s : string).

Abbreviation variables_map := (gmap string value).

Definition store (parsed options : variables_map) : variables_map := options ∪ parsed.

(** ** Names in the environment *)

Definition tolower (ch : ascii) : ascii :=
  let n := nat_of_ascii ch in if (65 <=? n)%nat && (n <=? 90)%nat then ascii_of_nat (n + 32) else ch.

Fixpoint map_chars (f : ascii -> ascii) (s : string) : string :=
  match s with
  | EmptyString => EmptyString
  | String ch s' => String (f ch) (map_chars f s')
  end.

Definition option_char (ch : ascii) : ascii := if Ascii.eqb ch "_" then "-"%char else tolower ch.

(** [std::string(from, n)]. *)
Fixpoint drop_chars (n : nat) (s : string) : string :=
  match n, s with
  | S n', String _ s' => drop_chars n' s'
  | _, _ => s
  end.

(** The function [parse_environment] passes to the library: the option that a
    variable sets, or the empty string. *)
Definition option_of_variable (prefix from : string) : string :=
  if (String.length from <? String.length prefix)%nat || negb (String.prefix prefix from) then EmptyString
  else map_chars option_char (drop_chars (String.length prefix) from).

(** [parse_environment]; [parsed] is what the library makes of the variables
    with that function. *)
Definition parse_environment (parsed : (string -> string) -> variables_map) (prefix : string)
    (options : variables_map) : variables_map :=
  store (parsed (option_of_variable prefix)) options.

Definition parse_arguments (parsed options : variables_map) : variables_map := store parsed options.

(** ** Configuration files *)

(** The directories, from the three variables of the environment. *)
Definition config_roots (XDG_CONFIG_HOME HOME XDG_CONFIG_DIRS : option string) : string :=
  (match XDG_CONFIG_HOME, HOME with
   | Some config_home, _ => config_home +:+ ":"
   | None, Some home => home +:+ "/.config:"
   | None, None => EmptyString
   end) +:+ default "/etc/xdg"%string XDG_CONFIG_DIRS.

(** [getline(stream, line, ':')] until it fails: a line that is empty and ends
    the stream does not count. *)
Fixpoint lines_from (line : string) (s : string) : list string :=
  match s with
  | EmptyString => if decide (line = EmptyString) then [] else [line]
  | String ch s' => if Ascii.eqb ch ":" then line :: lines_from EmptyString s' else lines_from (line +:+ String ch EmptyString) s'
  end.

(** [parse_file]; a file that cannot be parsed is skipped. *)
Fixpoint parse_files (parse_config_file : string -> option variables_map) (names : list string)
    (options : variables_map) : variables_map :=
  match names with
  | [] => options
  | filename :: names' =>
      parse_files parse_config_file names'
        (match parse_config_file filename with Some parsed => store parsed options | None => options end)
  end.

Definition parse_file (parse_config_file : string -> option variables_map)
    (XDG_CONFIG_HOME HOME XDG_CONFIG_DIRS : option string) (name : string) (options : variables_map) : variables_map :=
  parse_files parse_config_file
    ((fun root => root +:+ name) <$> lines_from EmptyString (config_roots XDG_CONFIG_HOME HOME XDG_CONFIG_DIRS)) options.

(** ** Reading *)

Definition is_set (name : string) (options : variables_map) : bool := bool_decide (is_Some (options !! name)).

(** [boost::bad_any_cast], from [as<T>()] of a value of another type. *)
Definition bad_any_cast : exn := logic_error "boost::bad_any_cast: failed conversion using boost::any_cast".

Definition get_bool (name : string) (default_ : bool) (options : variables_map) : M unit bool :=
  match options !! name with
  | Some (v_bool b) => mret b
  | Some _ => throw bad_any_cast
  | None => mret default_
  end.

Definition get_string (name default_ : string) (options : variables_map) : M unit string :=
  match options !! name with
  | Some (v_string s) => mret s
  | Some _ => throw bad_any_cast
  | None => mret default_
  end.

Definition get_option_int (name : string) (default_ : Z) (options : variables_map) : M unit Z :=
  match options !! name with
  | Some (v_int i) => mret i
  | Some _ => throw bad_any_cast
  | None => mret default_
  end.

(** The constructor of [DefaultServerConfiguration]; the library throws
    ([None]), or finds [arguments]. *)
Definition configuration_options (arguments : option variables_map) (environment : (string -> string) -> variables_map)
    (help_text : string) : M unit variables_map :=
  match arguments with
  | None => throw (runtime_error help_text)
  | Some parsed =>
      let options := parse_arguments parsed ∅ in
      if is_set "help" options then throw (runtime_error help_text)
      else mret (parse_environment environment "MIR_SERVER_" options)
  end.

(** ** Theorems *)

(** An option's name: small letters, digits and hyphens. *)
Definition name_char (ch : ascii) : bool :=
  let n := nat_of_ascii ch in
  ((97 <=? n)%nat && (n <=? 122)%nat) || ((48 <=? n)%nat && (n <=? 57)%nat) || Ascii.eqb ch "-".

Fixpoint is_name (s : string) : bool :=
  match s with EmptyString => true | String ch s' => name_char ch && is_name s' end.

(** The variable for an option, as the help text describes it: capitals, and
    underscores in place of hyphens. *)
Definition variable_char (ch : ascii) : ascii :=
  let n := nat_of_ascii ch in
  if Ascii.eqb ch "-" then "_"%char else if (97 <=? n)%nat && (n <=? 122)%nat then ascii_of_nat (n - 32) else ch.

Definition variable_of_option (prefix name : string) : string := prefix +:+ map_chars variable_char name.

Lemma char_roundtrip ch : name_char ch = true -> option_char (variable_char ch) = ch.
Proof. destruct ch as [[] [] [] [] [] [] [] []]; vm_compute; congruence. Qed.

Lemma map_chars_roundtrip s : is_name s = true -> map_chars option_char (map_chars variable_char s) = s.
Proof.
  induction s as [|ch s IH]; simpl; [done|]. intros [Hc Hs]%andb_true_iff. by rewrite char_roundtrip, IH.
Qed.

Lemma drop_prefix p s : drop_chars (String.length p) (p +:+ s) = s.
Proof. induction p as [|ch p IH]; simpl; [by destruct s|done]. Qed.

Lemma prefix_app p s : String.prefix p (p +:+ s) = true.
Proof. induction p as [|ch p IH]; simpl; [by destruct s|]. destruct (ascii_dec ch ch); done. Qed.

Lemma length_app_string p s : String.length (p +:+ s) = (String.length p + String.length s)%nat.
Proof. induction p as [|ch p IH]; simpl; [done|]. by rewrite IH. Qed.

(** The variable that the help text describes for an option sets exactly
    that option; a variable without the prefix sets none. *)
Theorem variable_names_option prefix name from :
  is_name name = true ->
  option_of_variable prefix (variable_of_option prefix name) = name /\
  (String.prefix prefix from = false -> option_of_variable prefix from = EmptyString).
Proof.
  intros Hn. split.
  - unfold option_of_variable, variable_of_option.
    rewrite length_app_string, prefix_app, (proj2 (Nat.ltb_ge _ _)) by lia. simpl.
    rewrite drop_prefix. by apply map_chars_roundtrip.
  - intros Hp. unfold option_of_variable. rewrite Hp. by rewrite orb_true_r.
Qed.

(** The command line comes first.  An option has the value of the command
    line, or else that of the environment, or else the default; a configuration
    that is made has not been asked for help. *)
Theorem command_line_wins arguments environment help_text options :
  configuration_options (Some arguments) environment help_text tt = Ret options tt ->
  arguments !! "help"%string = None /\
  forall name, options !! name =
    match arguments !! name with
    | Some v => Some v
    | None => environment (option_of_variable "MIR_SERVER_") !! name
    end.
Proof.
  unfold configuration_options, is_set, parse_arguments, store. rewrite (left_id_L ∅ (∪)).
  destruct (arguments !! "help"%string) eqn:Eh; simpl; [done|]. intros [= <-]. split; [done|].
  intros name. unfold parse_environment, store. rewrite lookup_union. destruct (arguments !! name); simpl.
  - by destruct (environment _ !! name).
  - by destruct (environment _ !! name).
Qed.

Lemma variable_names_option_witness :
  option_of_variable "MIR_SERVER_" (variable_of_option "MIR_SERVER_" "ipc-thread-pool") = "ipc-thread-pool"%string.
Proof. exact (proj1 (variable_names_option "MIR_SERVER_" "ipc-thread-pool" "HOME" eq_refl)). Defined.

Example variable_text : variable_of_option "MIR_SERVER_" "ipc-thread-pool" = "MIR_SERVER_IPC_THREAD_POOL"%string.
Proof. reflexivity. Qed.

Definition demo_arguments : variables_map := {[ "file"%string := v_string "/run/mir" ]}.

(** The environment has another file, and a number of threads. *)
Definition demo_environment (f : string -> string) : variables_map :=
  <[f "MIR_SERVER_FILE" := v_string "/tmp/other"]> {[ f "MIR_SERVER_IPC_THREAD_POOL"%string := v_int 4 ]}.

Definition demo_options : variables_map :=
  parse_environment demo_environment "MIR_SERVER_" (parse_arguments demo_arguments ∅).

Lemma command_line_wins_witness :
  configuration_options (Some demo_arguments) demo_environment "usage" tt = Ret demo_options tt /\
  demo_options !! "file"%string = Some (v_string "/run/mir").
Proof.
  split; [reflexivity|].
  exact (proj2 (command_line_wins demo_arguments demo_environment "usage" demo_options eq_refl) "file"%string).
Defined.

Example demo_options_read :
  get_string "file" "/tmp/mir_socket" demo_options tt = Ret "/run/mir"%string tt /\
  get_option_int "ipc-thread-pool" 10 demo_options tt = Ret 4 tt /\
  get_bool "log-display" false demo_options tt = Ret false tt.
Proof. vm_compute. done. Qed.

Example demo_roots :
  lines_from EmptyString (config_roots None (Some "/home/u"%string) None) = ["/home/u/.config"%string; "/etc/xdg"%string].
Proof. reflexivity. Qed.
