(* ===== verification/Depository.v ===== *)
(** * The client's buffers

    [client::ClientBufferDepository] ([src/client/client_buffer_depository.cpp])
    and [client::AgingBuffer] ([src/client/aging_buffer.cpp]).

    The buffers are [shared_ptr]s to what the platform's factory makes of the
    package from the server; here a buffer is that value with its age.  The
    factory is an interface: it may throw. *)

From S2P Require Import Prelude Geometry.

(** [MirBufferPackage], without the items beyond the counts. *)
Record MirBufferPackage : Set := mkBufferPackage {
  bp_data : list Z;
  bp_fd : list Z;
  bp_stride : Z;
}.

(** [client::ClientBufferFactory]; [B] is what it makes, [F] its state. *)
Class ClientBufferFactory (F B : Type) : Type := {
  create_buffer : MirBufferPackage -> Size -> PixelFormat -> M F B;
}.

(** ** [AgingBuffer] *)

Definition increment_age (buffer_age : Z) : Z := if buffer_age =? 0 then 0 else u32 (buffer_age + 1).

Definition mark_as_submitted (buffer_age : Z) : Z := 1.

Section Depository.
Context {F B : Type} `{ClientBufferFactory F B}.

(** ** [ClientBufferDepository] *)

(** [current_buffer_iter] is an iterator of a [std::map]: the key it is at, or
    [None] for [end()]. *)
Record ClientBufferDepository : Type := mkDepository {
  factory : F;
  buffers : OrdMap.t (B * Z);
  current_buffer_iter : option Z;
  max_age : Z;
}.

Definition ClientBufferDepository_new (f : F) (max_buffers : Z) : ClientBufferDepository :=
  mkDepository f [] None (u32 (max_buffers - 1)).

Definition factory_lens : lens ClientBufferDepository F :=
  Lens factory (fun f d => mkDepository f (buffers d) (current_buffer_iter d) (max_age d)).
Definition set_buffers (m : OrdMap.t (B * Z)) (d : ClientBufferDepository) : ClientBufferDepository :=
  mkDepository (factory d) m (current_buffer_iter d) (max_age d).
Definition set_current (c : option Z) (d : ClientBufferDepository) : ClientBufferDepository :=
  mkDepository (factory d) (buffers d) c (max_age d).

(** The condition under which the first loop erases an element. *)
Definition too_old (current : option Z) (id limit : Z) (e : Z * (B * Z)) : bool :=
  negb (bool_decide (current = Some (fst e))) && negb (fst e =? id) && (limit <=? snd (snd e)).

Definition with_age (f : Z -> Z) (e : Z * (B * Z)) : Z * (B * Z) := (fst e, (fst (snd e), f (snd (snd e)))).

Definition deposit_package (package : MirBufferPackage) (id : Z) (size : Size) (pf : PixelFormat)
    : M ClientBufferDepository unit :=
  modify (fun d => set_buffers
    (List.filter (fun e => negb (too_old (current_buffer_iter d) id (max_age d) e)) (buffers d)) d) ;;
  modify (fun d => set_buffers (map (with_age increment_age) (buffers d)) d) ;;
  c ← gets current_buffer_iter ;
  match c with
  | Some k =>
      b ← deref (fun d => OrdMap.find k (buffers d)) ;
      modify (fun d => set_buffers (OrdMap.insert k (fst b, mark_as_submitted (snd b)) (buffers d)) d)
  | None => mret tt
  end ;;
  found ← gets (fun d => OrdMap.find id (buffers d)) ;
  match found with
  | Some _ => modify (set_current (Some id))
  | None =>
      modify (set_current None) ;;
      new_buffer ← zoom factory_lens (create_buffer package size pf) ;
      modify (fun d => set_buffers (OrdMap.insert id (new_buffer, 0) (buffers d)) d) ;;
      modify (set_current (Some id))
  end.

(** Dereferencing [end()] is undefined. *)
Definition current_buffer : M ClientBufferDepository (B * Z) :=
  deref (fun d => c ← current_buffer_iter d ; OrdMap.find c (buffers d)).

End Depository.
Arguments ClientBufferDepository F B : clear implicits.

(** ** The abstract depository: the history of the deposits *)

(** The position of an identifier in a history, most recent first. *)
Fixpoint index (k : Z) (h : list Z) : option Z :=
  match h with
  | [] => None
  | x :: h' => if k =? x then Some 0 else (fun i => i + 1) <$> index k h'
  end.

(** How far back a buffer that is not the current one is still kept. *)
Definition horizon (limit : Z) : Z := Z.max 1 limit.

(** Which buffers are held, with their ages: the current one is as old as its
    previous use, counted in submissions, or 0 when that was too long ago; any
    other one is as old as its last use, and is held up to the horizon. *)
Definition abstract_age (limit : Z) (h : list Z) (k : Z) : option Z :=
  match h with
  | [] => None
  | c :: t =>
      match index k t with
      | Some j =>
          if k =? c then Some (if j <=? horizon limit then j + 1 else 0)
          else if j + 1 <=? horizon limit then Some (j + 1) else None
      | None => if k =? c then Some 0 else None
      end
  end.

Definition age_of {F B} (k : Z) (d : ClientBufferDepository F B) : option Z :=
  snd <$> OrdMap.find k (buffers d).

(** ** Lemmas *)

Lemma index_nonneg k h j : index k h = Some j -> 0 <= j.
Proof.
  revert j. induction h as [|x h IH]; intros j; simpl; [done|].
  destruct (k =? x); [intros; simplify_eq; lia|].
  destruct (index k h) as [i|]; simpl; intros; simplify_eq. specialize (IH i eq_refl). lia.
Qed.

Lemma find_filter {V} (f : Z * V -> bool) (m : list (Z * V)) k :
  OrdMap.sorted m ->
  OrdMap.find k (List.filter f m) =
    match OrdMap.find k m with Some v => if f (k, v) then Some v else None | None => None end.
Proof.
  induction m as [|[k0 v0] m IH]; simpl; intros Hs; [done|].
  pose proof (sorted_head_fresh _ _ _ Hs) as Hf. apply sorted_cons_inv in Hs as [Hs _]. specialize (IH Hs).
  destruct (Z.eqb_spec k k0) as [->|Hne].
  - destruct (f (k0, v0)); simpl; [by rewrite Z.eqb_refl|].
    rewrite IH. by rewrite (find_keys_none m k0 Hf).
  - destruct (f (k0, v0)); simpl; [|done]. by destruct (Z.eqb_spec k k0).
Qed.

Lemma keys_filter_sub {V} (f : Z * V -> bool) (m : list (Z * V)) :
  OrdMap.keys (List.filter f m) ⊆ OrdMap.keys m.
Proof.
  unfold OrdMap.keys. induction m as [|[k0 v0] m IH]; simpl; [done|]. destruct (f (k0, v0)); simpl; set_solver.
Qed.

Lemma filter_sorted {V} (f : Z * V -> bool) (m : list (Z * V)) :
  OrdMap.sorted m -> OrdMap.sorted (List.filter f m).
Proof.
  induction m as [|[k0 v0] m IH]; simpl; intros Hs; [done|].
  apply sorted_cons_inv in Hs as [Hs Hall]. destruct (f (k0, v0)); [|by apply IH].
  constructor; [by apply IH|]. rewrite Forall_forall in *. intros x Hx.
  apply Hall. by apply (keys_filter_sub f).
Qed.

Lemma find_with_age {B} (f : Z -> Z) (m : list (Z * (B * Z))) k :
  OrdMap.find k (map (with_age f) m) = (fun v => (fst v, f (snd v))) <$> OrdMap.find k m.
Proof.
  induction m as [|[k0 [b a]] m IH]; simpl; [done|]. by destruct (k =? k0).
Qed.

Lemma with_age_sorted {B} (f : Z -> Z) (m : list (Z * (B * Z))) :
  OrdMap.sorted m -> OrdMap.sorted (map (with_age f) m).
Proof.
  unfold OrdMap.sorted. replace (OrdMap.keys (map (with_age f) m)) with (OrdMap.keys m); [done|].
  unfold OrdMap.keys. rewrite List.map_map. done.
Qed.

Section Ages.
Context {F B : Type} `{ClientBufferFactory F B}.
Implicit Types (d : ClientBufferDepository F B) (h : list Z).

(** The depository holds what the history says. *)
Record reflects h d : Prop := {
  re_sorted : OrdMap.sorted (buffers d);
  re_current : current_buffer_iter d = head h;
  re_ages : forall k, age_of k d = abstract_age (max_age d) h k;
  re_limit : 0 <= max_age d < 2147483648;
}.

(** The two loops and [mark_as_submitted], as one function. *)
Definition aged d (id : Z) : OrdMap.t (B * Z) :=
  map (with_age increment_age)
    (List.filter (fun e => negb (too_old (current_buffer_iter d) id (max_age d) e)) (buffers d)).

Lemma find_aged d id k :
  OrdMap.sorted (buffers d) ->
  OrdMap.find k (aged d id) =
    match OrdMap.find k (buffers d) with
    | Some (b, a) =>
        if too_old (current_buffer_iter d) id (max_age d) (k, (b, a)) then None else Some (b, increment_age a)
    | None => None
    end.
Proof.
  intros Hs. unfold aged. rewrite find_with_age, find_filter by done.
  destruct (OrdMap.find k (buffers d)) as [[b a]|]; [|done]. by destruct (too_old _ _ _ _).
Qed.

(** What is held after the submission of the current buffer. *)
Definition submitted d (id : Z) : OrdMap.t (B * Z) :=
  match current_buffer_iter d with
  | Some c => match OrdMap.find c (aged d id) with
              | Some b => OrdMap.insert c (fst b, mark_as_submitted (snd b)) (aged d id)
              | None => aged d id
              end
  | None => aged d id
  end.

Lemma submitted_sorted d id : OrdMap.sorted (buffers d) -> OrdMap.sorted (submitted d id).
Proof.
  intros Hs. assert (OrdMap.sorted (aged d id)) by (apply with_age_sorted, filter_sorted, Hs).
  unfold submitted. destruct (current_buffer_iter d) as [c|]; [|done].
  destruct (OrdMap.find c (aged d id)); [by apply insert_sorted|done].
Qed.

Lemma increment_positive j : 0 <= j <= 2147483648 -> increment_age (j + 1) = j + 2.
Proof.
  intros Hj. unfold increment_age. destruct (Z.eqb_spec (j + 1) 0); [lia|].
  rewrite u32_id by (unfold is_u32; lia). lia.
Qed.

(** Ages after the submission, before the new buffer comes in: those of the
    longer history, except that the incoming identifier is only held when it
    was in reach. *)
Lemma submitted_ages h d id k :
  reflects h d ->
  snd <$> OrdMap.find k (submitted d id) =
    match index k h with
    | Some j =>
        if k =? id then if j <=? horizon (max_age d) then Some (j + 1) else None
        else if j + 1 <=? horizon (max_age d) then Some (j + 1) else None
    | None => None
    end.
Proof.
  intros [Hs Hc Hall Hl]. pose proof (find_aged d id) as Hf. unfold submitted. rewrite Hc in *.
  unfold age_of in Hall. destruct h as [|c t]; cbn [head index] in *.
  { rewrite Hf by done. specialize (Hall k). by destruct (OrdMap.find k (buffers d)). }
  assert (exists b a, OrdMap.find c (buffers d) = Some (b, a)) as (bc & ac & Hbc).
  { specialize (Hall c). simpl in Hall. rewrite Z.eqb_refl in Hall.
    destruct (OrdMap.find c (buffers d)) as [[b a]|]; [eauto|]. by destruct (index c t). }
  assert (OrdMap.find c (aged d id) = Some (bc, increment_age ac)) as Hac.
  { rewrite Hf, Hbc by done. unfold too_old. by rewrite bool_decide_eq_true_2. }
  rewrite Hac, find_insert. destruct (Z.eqb_spec k c) as [->|Hkc].
  { assert ((0 <=? horizon (max_age d)) = true) as -> by (apply Z.leb_le; unfold horizon; lia).
    assert ((0 + 1 <=? horizon (max_age d)) = true) as -> by (apply Z.leb_le; unfold horizon; lia).
    by destruct (c =? id). }
  rewrite Hf by done. specialize (Hall k). simpl in Hall. rewrite (proj2 (Z.eqb_neq _ _) Hkc) in Hall.
  destruct (index k t) as [j|] eqn:Ej; simpl.
  2: { by destruct (OrdMap.find k (buffers d)). }
  pose proof (index_nonneg _ _ _ Ej) as Hj.
  destruct (Z.leb_spec (j + 1) (horizon (max_age d))) as [Hin|Hout].
  2: { destruct (OrdMap.find k (buffers d)); [done|].
       destruct (k =? id); [done|]. destruct (Z.leb_spec (j + 1 + 1) (horizon (max_age d))); [lia|done]. }
  destruct (OrdMap.find k (buffers d)) as [[b a]|]; [|done]. simpl in Hall. injection Hall as ->.
  unfold too_old. rewrite bool_decide_eq_false_2 by (simpl; congruence). simpl.
  destruct (Z.eqb_spec k id); simpl.
  { rewrite increment_positive by (unfold horizon in Hin; lia). f_equal. lia. }
  destruct (Z.leb_spec (max_age d) (j + 1)), (Z.leb_spec (j + 1 + 1) (horizon (max_age d)));
    try (unfold horizon in *; lia); [done|]. simpl.
  rewrite increment_positive by (unfold horizon in Hin; lia). f_equal. lia.
Qed.

(** What [deposit_package] does, when nothing is wrong with the depository. *)
Lemma deposit_eq package id size pf d :
  OrdMap.sorted (buffers d) ->
  (forall c, current_buffer_iter d = Some c -> is_Some (OrdMap.find c (buffers d))) ->
  deposit_package package id size pf d =
    let d1 := set_buffers (submitted d id) d in
    match OrdMap.find id (submitted d id) with
    | Some _ => Ret tt (set_current (Some id) d1)
    | None =>
        match create_buffer package size pf (factory d) with
        | Ret b f => Ret tt (mkDepository f (OrdMap.insert id (b, 0) (submitted d id)) (Some id) (max_age d))
        | Throw e f => Throw e (mkDepository f (submitted d id) None (max_age d))
        | Wait f => Wait (mkDepository f (submitted d id) None (max_age d))
        | Undef => Undef
        end
    end.
Proof.
  intros Hs Hcur. unfold deposit_package, modify, gets, mbind, M_bind. simpl.
  change (map (with_age increment_age) _) with (aged d id). unfold submitted.
  destruct (current_buffer_iter d) as [c|] eqn:Ec.
  - destruct (Hcur c eq_refl) as [[b a] Hb].
    assert (OrdMap.find c (aged d id) = Some (b, increment_age a)) as Hc.
    { rewrite find_aged, Hb by done. unfold too_old. rewrite Ec. by rewrite bool_decide_eq_true_2. }
    unfold deref. simpl. rewrite Hc. simpl.
    destruct (OrdMap.find id (OrdMap.insert c _ _)); [done|].
    unfold zoom. simpl. by destruct (create_buffer package size pf (factory d)).
  - simpl. destruct (OrdMap.find id (aged d id)); [done|].
    unfold zoom. simpl. by destruct (create_buffer package size pf (factory d)).
Qed.

Lemma reflects_current h d c : reflects h d -> current_buffer_iter d = Some c -> is_Some (OrdMap.find c (buffers d)).
Proof.
  intros [Hs Hc Hall Hl] E. rewrite E in Hc. destruct h as [|x t]; simplify_eq/=.
  specialize (Hall x). unfold age_of in Hall. simpl in Hall. rewrite Z.eqb_refl in Hall.
  destruct (OrdMap.find x (buffers d)); [eauto|]. by destruct (index x t).
Qed.

(** A deposit that returns extends the history. *)
Lemma deposit_reflects h package id size pf d d' :
  reflects h d -> deposit_package package id size pf d = Ret tt d' ->
  reflects (id :: h) d' /\ max_age d' = max_age d.
Proof.
  intros Hr. pose proof Hr as [Hs Hc Hall Hl].
  rewrite deposit_eq by (try done; intros; by eapply reflects_current). cbv zeta.
  pose proof (submitted_sorted d id Hs) as Hss.
  pose proof (submitted_ages h d id) as Hages.
  assert (forall k, k <> id -> snd <$> OrdMap.find k (submitted d id) = abstract_age (max_age d) (id :: h) k) as Hother.
  { intros k Hk. rewrite (Hages k Hr). simpl. rewrite (proj2 (Z.eqb_neq _ _) Hk). done. }
  pose proof (Hages id Hr) as Hid. rewrite Z.eqb_refl in Hid.
  destruct (OrdMap.find id (submitted d id)) as [[b a]|] eqn:Ef.
  - intros [= <-]. split; [|done]. split; simpl; [done|done| |done]. intros k. unfold age_of. simpl.
    destruct (Z.eqb_spec k id) as [->|Hk]; [|rewrite (Hother k Hk); simpl; by rewrite (proj2 (Z.eqb_neq _ _) Hk)].
    rewrite Ef. rewrite Hid. destruct (index id h) as [j|]; [|done]. by destruct (j <=? _).
  - destruct (create_buffer package size pf (factory d)) as [b f| | |]; intros; simplify_eq.
    split; [|done]. split; simpl; [by apply insert_sorted|done| |done]. intros k. unfold age_of. simpl. rewrite find_insert.
    destruct (Z.eqb_spec k id) as [->|Hk]; [|rewrite (Hother k Hk); simpl; by rewrite (proj2 (Z.eqb_neq _ _) Hk)].
    simpl. destruct (index id h) as [j|]; [|done]. by destruct (j <=? _).
Qed.

(** A sequence of deposits. *)
Record deposit : Set := mkDeposit {
  dp_package : MirBufferPackage;
  dp_id : Z;
  dp_size : Size;
  dp_format : PixelFormat;
}.

Definition deposit_all (l : list deposit) : M (ClientBufferDepository F B) unit :=
  for_each l (fun x => deposit_package (dp_package x) (dp_id x) (dp_size x) (dp_format x)).

Lemma deposit_all_reflects l h d d' :
  reflects h d -> deposit_all l d = Ret tt d' ->
  reflects (rev (map dp_id l) ++ h) d' /\ max_age d' = max_age d.
Proof.
  revert h d. induction l as [|x l IH]; intros h d Hr; simpl.
  - unfold deposit_all, for_each. by intros [= <-].
  - unfold deposit_all, for_each, mbind, M_bind. fold (for_each (A := deposit) (S := ClientBufferDepository F B)).
    destruct (deposit_package _ _ _ _ d) as [[] d1| | |] eqn:E; try done. intros Hl.
    destruct (deposit_reflects h _ _ _ _ _ _ Hr E) as [H1 Hm1]. rewrite <- app_assoc. simpl.
    destruct (IH _ d1 H1 Hl) as [H2 Hm2]. split; [done|congruence].
Qed.

Lemma new_reflects f max_buffers :
  1 <= max_buffers < 2147483648 -> reflects [] (ClientBufferDepository_new f max_buffers).
Proof.
  intros Hm. split; simpl; [apply sorted_nil_map|done|done|].
  rewrite u32_id by (unfold is_u32; lia). lia.
Qed.

Lemma index_lookup k h j : index k h = Some j -> h !! Z.to_nat j = Some k.
Proof.
  revert j. induction h as [|x h IH]; intros j; simpl; [done|].
  destruct (Z.eqb_spec k x) as [->|]; [by intros [= <-]|].
  destruct (index k h) as [i|] eqn:E; simpl; [|done]. intros [= <-].
  pose proof (index_nonneg _ _ _ E). rewrite Z2Nat.inj_add by lia.
  rewrite Nat.add_1_r. simpl. by apply IH.
Qed.

(** Every buffer that is held was used within the horizon. *)
Lemma held_within h d k :
  reflects h d -> is_Some (OrdMap.find k (buffers d)) ->
  exists n, (n <= Z.to_nat (horizon (max_age d)))%nat /\ h !! n = Some k.
Proof.
  intros [Hs Hc Hall Hl] [v Hv]. specialize (Hall k). unfold age_of in Hall. rewrite Hv in Hall.
  destruct h as [|c t]; simpl in Hall; [done|].
  destruct (Z.eqb_spec k c) as [->|Hk]; [by exists 0%nat; split; [lia|]|].
  destruct (index k t) as [j|] eqn:Ej; [|done].
  destruct (Z.leb_spec (j + 1) (horizon (max_age d))); [|done].
  pose proof (index_nonneg _ _ _ Ej). exists (S (Z.to_nat j)). split; [lia|]. simpl. by apply index_lookup.
Qed.

Lemma held_count h d :
  reflects h d -> (length (buffers d) <= S (Z.to_nat (horizon (max_age d))))%nat.
Proof.
  intros Hr. pose proof (sorted_NoDup _ (re_sorted _ _ Hr)) as Hnd.
  replace (length (buffers d)) with (length (OrdMap.keys (buffers d)))
    by (unfold OrdMap.keys; apply List.length_map).
  transitivity (length (take (S (Z.to_nat (horizon (max_age d)))) h)); [|rewrite length_take; lia].
  apply submseteq_length, NoDup_submseteq; [done|]. intros k Hk.
  destruct (OrdMap.find k (buffers d)) as [v|] eqn:E.
  - destruct (held_within h d k Hr) as (n & Hn & Hl); [eauto|].
    apply list_elem_of_lookup. exists n. rewrite lookup_take_lt by lia. done.
  - exfalso. apply list_elem_of_fmap in Hk as ([k' v] & -> & Hin).
    simpl in E. by rewrite (find_In_sorted _ _ _ (re_sorted _ _ Hr) Hin) in E.
Qed.

(** C33: the depository behaves as the history of its deposits prescribes.  The
    buffer deposited last is the current one; its age is the number of
    submissions since it was the current one before, and 0 when the client does
    not know its contents any more; every other buffer has the number of
    submissions since it was current.  A buffer is held as long as that number
    is within reach of [max_buffers], so that no more than [max_buffers] are
    held (two, when [max_buffers] is one). *)
Theorem ages_count_submissions f max_buffers l d :
  1 <= max_buffers < 2147483648 ->
  deposit_all l (ClientBufferDepository_new f max_buffers) = Ret tt d ->
  (forall k, age_of k d = abstract_age (max_buffers - 1) (rev (map dp_id l)) k) /\
  (Z.of_nat (length (buffers d)) <= Z.max 2 max_buffers) /\
  match rev (map dp_id l) with
  | [] => current_buffer d = Undef
  | c :: _ => exists b a, current_buffer d = Ret (b, a) d /\ age_of c d = Some a
  end.
Proof.
  intros Hm Hrun. pose proof (new_reflects f max_buffers Hm) as H0.
  destruct (deposit_all_reflects l [] _ d H0 Hrun) as [Hr Hage]. rewrite app_nil_r in Hr.
  simpl in Hage. rewrite u32_id in Hage by (unfold is_u32; lia).
  rewrite <- Hage. split; [apply Hr|]. split.
  - pose proof (held_count _ _ Hr) as Hc. unfold horizon in Hc. lia.
  - pose proof (re_current _ _ Hr) as Hcur. unfold current_buffer, deref.
    destruct (rev (map dp_id l)) as [|c t]; simpl in Hcur; rewrite Hcur; [done|].
    destruct (reflects_current _ _ c Hr Hcur) as [[b a] Hb]. simpl. rewrite Hb.
    exists b, a. split; [done|]. unfold age_of. by rewrite Hb.
Qed.

(** A package for a buffer the depository holds is not looked at: no buffer
    is made of it, and the current buffer is the one that was made when the
    identifier first came, only older. *)
Theorem known_buffer_is_reused h package id size pf d b a :
  reflects h d -> OrdMap.find id (buffers d) = Some (b, a) ->
  exists d' a', deposit_package package id size pf d = Ret tt d' /\
    current_buffer d' = Ret (b, a') d' /\ a' <> 0 /\ factory d' = factory d.
Proof.
  intros Hr Hb. pose proof Hr as [Hs Hc Hall Hl].
  assert (exists a', OrdMap.find id (submitted d id) = Some (b, a')) as [a' Ha'].
  { pose proof (find_aged d id id Hs) as Hf. rewrite Hb in Hf.
    assert (too_old (current_buffer_iter d) id (max_age d) (id, (b, a)) = false) as E.
    { unfold too_old. simpl. rewrite Z.eqb_refl, andb_false_r. done. }
    rewrite E in Hf. unfold submitted. destruct (current_buffer_iter d) as [c|]; [|eauto].
    destruct (OrdMap.find c (aged d id)) as [bc|] eqn:Ec; [|eauto]. rewrite find_insert.
    destruct (Z.eqb_spec id c) as [->|]; [|eauto]. rewrite Ec in Hf. simplify_eq. simpl. eauto. }
  rewrite deposit_eq by (try done; intros; by eapply reflects_current). cbv zeta. rewrite Ha'.
  eexists _, a'. split; [done|]. unfold current_buffer, deref. simpl. rewrite Ha'. split; [done|]. split; [|done].
  pose proof (submitted_ages h d id id Hr) as Hag. rewrite Ha', Z.eqb_refl in Hag. simpl in Hag.
  destruct (index id h) as [j|] eqn:Ej; [|done]. pose proof (index_nonneg _ _ _ Ej).
  destruct (j <=? _); simplify_eq. lia.
Qed.

(** When the platform cannot make a buffer of a new package, the exception
    leaves the depository without a current buffer, although the client still
    has one on its screen: asking for it dereferences the end of the map. *)
Theorem failed_deposit_loses_current h package id size pf d e f :
  reflects h d -> OrdMap.find id (buffers d) = None ->
  create_buffer package size pf (factory d) = Throw e f ->
  exists d', deposit_package package id size pf d = Throw e d' /\ current_buffer d' = Undef.
Proof.
  intros Hr Hb Hf. pose proof Hr as [Hs Hc Hall Hl].
  assert (OrdMap.find id (submitted d id) = None) as Hn.
  { pose proof (find_aged d id id Hs) as Hfa. rewrite Hb in Hfa. unfold submitted.
    destruct (current_buffer_iter d) as [c|] eqn:Ec; [|done].
    destruct (OrdMap.find c (aged d id)) as [bc|] eqn:Eb; [|done]. rewrite find_insert.
    destruct (Z.eqb_spec id c) as [->|]; [|done]. congruence. }
  rewrite deposit_eq by (try done; intros; by eapply reflects_current). cbv zeta. rewrite Hn, Hf.
  eexists. split; [reflexivity|]. done.
Qed.

End Ages.

(** ** A concrete depository *)

(** A factory that counts its buffers and fails for a package without data. *)
#[export] Instance demo_factory : ClientBufferFactory Z Z := {
  create_buffer p _ _ := fun n =>
    match bp_data p with
    | [] => Throw (runtime_error "no data") n
    | _ => Ret n (n + 1)
    end;
}.

Definition demo_deposit (id : Z) : deposit :=
  mkDeposit (mkBufferPackage [id] [] 1280) id (mkSize (wrap 320) (wrap 240)) abgr_8888.

(** Three buffers in turn, the last of them twice. *)
Definition demo_depository : ClientBufferDepository Z Z :=
  match deposit_all (map demo_deposit [1; 2; 3; 1; 2; 2]) (ClientBufferDepository_new 0 3) with
  | Ret _ d => d
  | _ => ClientBufferDepository_new 0 3
  end.

Lemma ages_count_submissions_witness :
  (forall k, age_of k demo_depository = abstract_age 2 [2; 2; 1; 3; 2; 1] k) /\
  (Z.of_nat (length (buffers demo_depository)) <= 3) /\
  exists b a, current_buffer demo_depository = Ret (b, a) demo_depository /\ age_of 2 demo_depository = Some a.
Proof.
  apply (ages_count_submissions 0 3 (map demo_deposit [1; 2; 3; 1; 2; 2]) demo_depository); [lia|].
  vm_compute. reflexivity.
Defined.

Lemma demo_reflects : reflects [2; 2; 1; 3; 2; 1] demo_depository.
Proof.
  assert (deposit_all (map demo_deposit [1; 2; 3; 1; 2; 2]) (ClientBufferDepository_new 0 3) =
    Ret tt demo_depository) as Hrun by (vm_compute; reflexivity).
  apply (deposit_all_reflects (map demo_deposit [1; 2; 3; 1; 2; 2]) []) in Hrun as [Hr _]; [exact Hr|].
  apply new_reflects. lia.
Qed.

Lemma known_buffer_is_reused_witness :
  exists d' a', deposit_package (mkBufferPackage [9] [] 1280) 1 (mkSize (wrap 320) (wrap 240)) abgr_8888
      demo_depository = Ret tt d' /\
    current_buffer d' = Ret (0, a') d' /\ a' <> 0 /\ factory d' = factory demo_depository.
Proof.
  apply (known_buffer_is_reused [2; 2; 1; 3; 2; 1] _ 1 _ _ demo_depository 0 2 demo_reflects).
  vm_compute. reflexivity.
Defined.

Lemma failed_deposit_loses_current_witness :
  exists d', deposit_package (mkBufferPackage [] [] 1280) 9 (mkSize (wrap 320) (wrap 240)) abgr_8888
      demo_depository = Throw (runtime_error "no data") d' /\ current_buffer d' = Undef.
Proof.
  apply (failed_deposit_loses_current [2; 2; 1; 3; 2; 1] _ 9 _ _ demo_depository _ 3 demo_reflects).
  - vm_compute. reflexivity.
  - vm_compute. reflexivity.
Defined.
