(* ===== verification/ClientPlatform.v ===== *)
(** * The client's GBM platform

    [client::gbm::GBMClientBuffer] with its GEM handles and mappings
    ([src/client/gbm/gbm_client_buffer.cpp]), [GBMClientPlatform]
    ([gbm_client_platform.cpp]) and [MesaNativeDisplayContainer]
    ([mesa_native_display_container.cpp]). *)

From S2P Require Import Prelude Geometry Depository.

(** ** Buffers mapped for the CPU *)

(** [DRMFDHandler]: its [ioctl]s with their arguments, and [mmap].  The results
    are the return value, the member the kernel has filled in, and [errno]. *)
Class DRMFDHandler (K : Type) : Type := {
  ioctl_gem_open : Z -> K -> (Z * Z) * K;
  ioctl_gem_close : Z -> K -> K;
  ioctl_map_dumb : Z -> K -> (Z * Z) * K;
  (** Size and offset; [None] for [MAP_FAILED]. *)
  drm_map : Z -> Z -> K -> option Z * K;
  drm_unmap : Z -> Z -> K -> K;
  get_errno : K -> Z;
}.

Record GBMMemoryRegion : Set := mkRegion {
  gem_handle : Z;
  size_in_bytes : Z;
  region_width : Width;
  region_height : Height;
  region_stride : Stride;
  region_format : PixelFormat;
  vaddr : Z;
}.

Section Regions.
Context {K : Type} {handler : DRMFDHandler K}.

Definition kernel {A} (f : K -> A * K) : M K A := fun k => let '(a, k') := f k in Ret a k'.

(** [GEMHandle]. *)
Definition GEMHandle_new (gem_name : Z) : M K Z :=
  '(ret, handle) ← kernel (ioctl_gem_open gem_name) ;
  if negb (ret =? 0) then
    k ← get ; throw (errno_error "Failed to open GEM handle for DRM buffer" (get_errno k))
  else mret handle.

Definition GEMHandle_delete (handle : Z) : M K unit := modify (ioctl_gem_close handle).

(** The body of the constructor of [GBMMemoryRegion]. *)
Definition map_region (handle size : Z) : M K Z :=
  '(ret, offset) ← kernel (ioctl_map_dumb handle) ;
  if negb (ret =? 0) then
    k ← get ; throw (errno_error "Failed to map dumb DRM buffer" (get_errno k))
  else
    map ← kernel (drm_map size offset) ;
    match map with
    | None => k ← get ; throw (errno_error "Failed to mmap DRM buffer" (get_errno k))
    | Some addr => mret addr
    end.

(** The product of two [uint32_t]. *)
Definition region_bytes (size : Size) (stride : Stride) : Z :=
  u32 (as_uint32_t (size_height size) * as_uint32_t stride).

(** The constructor; when its body throws, [gem_handle] is destroyed. *)
Definition GBMMemoryRegion_new (gem_name : Z) (size : Size) (stride : Stride) (format : PixelFormat)
    : M K GBMMemoryRegion :=
  handle ← GEMHandle_new gem_name ;
  let bytes := region_bytes size stride in
  addr ← try_catch (map_region handle bytes) (fun e => GEMHandle_delete handle ;; throw e) ;
  mret (mkRegion handle bytes (size_width size) (size_height size) stride format addr).

(** The destructor, and then the one of [gem_handle]. *)
Definition GBMMemoryRegion_delete (r : GBMMemoryRegion) : M K unit :=
  modify (drm_unmap (vaddr r) (size_in_bytes r)) ;;
  GEMHandle_delete (gem_handle r).

(** [GBMClientBuffer]. *)
Record GBMClientBuffer : Set := mkClientBuffer {
  creation_package : MirBufferPackage;
  cb_size : Size;
  buffer_pf : PixelFormat;
}.

Definition buffer_stride (b : GBMClientBuffer) : Stride := wrap (bp_stride (creation_package b)).

(** [data[0]] of an array that is zero where nothing was sent. *)
Definition secure_for_cpu_write (b : GBMClientBuffer) : M K GBMMemoryRegion :=
  let gem_name := u32 (default 0 (head (bp_data (creation_package b)))) in
  GBMMemoryRegion_new gem_name (cb_size b) (buffer_stride b) (buffer_pf b).

(** [GBMClientBufferFactory::create_buffer]. *)
#[export] Instance gbm_buffer_factory : ClientBufferFactory K GBMClientBuffer := {
  create_buffer package size pf := mret (mkClientBuffer package size pf);
}.

End Regions.

(** [create_client_platform]: the descriptor of the first item, or -1. *)
Definition platform_drm_fd (fd_items : list Z) : Z := default (-1) (head fd_items).

(** ** Native displays *)

(** [MirMesaEGLNativeDisplay]: the connection it is for.  The displays that
    exist, by their address, and the set of the container. *)
Record MesaNativeDisplayContainer : Set := mkContainer {
  valid_displays : gset Z;
  native_displays : gmap Z Z;
}.

Definition container_new : MesaNativeDisplayContainer := mkContainer ∅ ∅.

Definition validate (display : Z) (c : MesaNativeDisplayContainer) : bool := bool_decide (display ∈ valid_displays c).

(** [create]; [address] is where [new] puts the display. *)
Definition create_display (address connection : Z) : M MesaNativeDisplayContainer Z :=
  modify (fun c => mkContainer (valid_displays c) (<[address := connection]> (native_displays c))) ;;
  modify (fun c => mkContainer ({[ address ]} ∪ valid_displays c) (native_displays c)) ;;
  mret address.

Definition delete_display (display : Z) : M MesaNativeDisplayContainer unit :=
  _ ← deref (fun c => native_displays c !! display) ;
  modify (fun c => mkContainer (valid_displays c) (delete display (native_displays c))).

Definition release (display : Z) : M MesaNativeDisplayContainer unit :=
  c ← get ;
  if decide (display ∈ valid_displays c) then
    delete_display display ;;
    modify (fun c => mkContainer (valid_displays c ∖ {[ display ]}) (native_displays c))
  else mret tt.

(** The destructor of the container. *)
Definition container_delete : M MesaNativeDisplayContainer unit :=
  c ← get ;
  for_each (elements (valid_displays c)) delete_display.

(** ** What the kernel keeps *)

Class DRMFDHandlerLaws (K : Type) `{DRMFDHandler K} : Type := {
  gem_handles : K -> gset Z;
  mappings : K -> gset (Z * Z);
  gem_open_law name k :
    let '((ret, handle), k') := ioctl_gem_open name k in
    mappings k' = mappings k /\
    (if ret =? 0 then (handle ∉ gem_handles k) /\ gem_handles k' = {[ handle ]} ∪ gem_handles k
     else gem_handles k' = gem_handles k);
  gem_close_law handle k :
    gem_handles (ioctl_gem_close handle k) = gem_handles k ∖ {[ handle ]} /\
    mappings (ioctl_gem_close handle k) = mappings k;
  map_dumb_law handle k :
    gem_handles (snd (ioctl_map_dumb handle k)) = gem_handles k /\
    mappings (snd (ioctl_map_dumb handle k)) = mappings k;
  map_law size offset k :
    let '(r, k') := drm_map size offset k in
    gem_handles k' = gem_handles k /\
    match r with
    | Some addr => ((addr, size) ∉ mappings k) /\ mappings k' = {[ (addr, size) ]} ∪ mappings k
    | None => mappings k' = mappings k
    end;
  unmap_law addr size k :
    gem_handles (drm_unmap addr size k) = gem_handles k /\
    mappings (drm_unmap addr size k) = mappings k ∖ {[ (addr, size) ]};
}.

Section RegionLaws.
Context {K : Type} `{DRMFDHandlerLaws K}.

(** The kernel holds the same handles and mappings. *)
Definition same_holdings (k k' : K) : Prop := gem_handles k' = gem_handles k /\ mappings k' = mappings k.

Lemma map_region_spec handle size k :
  match map_region handle size k with
  | Ret addr k' => gem_handles k' = gem_handles k /\ ((addr, size) ∉ mappings k) /\
      mappings k' = {[ (addr, size) ]} ∪ mappings k
  | Throw _ k' => same_holdings k k'
  | Wait _ | Undef => False
  end.
Proof.
  unfold map_region, kernel, get, mbind, M_bind. pose proof (map_dumb_law handle k) as [H1 H2].
  destruct (ioctl_map_dumb handle k) as [[ret offset] k1]. simpl in H1, H2.
  destruct (ret =? 0); simpl; [|by split]. pose proof (map_law size offset k1) as Hm.
  destruct (drm_map size offset k1) as [[addr|] k2]; simpl in *.
  - destruct Hm as (H3 & H4 & H5). rewrite H2 in H4, H5. split; [congruence|done].
  - destruct Hm as (H3 & H4). split; congruence.
Qed.

(** Mapping a buffer for the CPU either gives a region that holds one new
    GEM handle and one new mapping, which go with the region, or throws and
    leaves no handle behind, whichever call fails.  The mapping has room for
    all the rows as long as height and stride do not overflow 32 bits, and is
    too small when they do. *)
Theorem cpu_region_accounting b k :
  match secure_for_cpu_write b k with
  | Ret r k' =>
      (gem_handle r ∉ gem_handles k) /\ gem_handles k' = {[ gem_handle r ]} ∪ gem_handles k /\
      mappings k' = {[ (vaddr r, size_in_bytes r) ]} ∪ mappings k /\
      (let bytes := as_uint32_t (size_height (cb_size b)) * as_uint32_t (buffer_stride b) in
       0 <= bytes -> (bytes < 4294967296 -> size_in_bytes r = bytes) /\ (4294967296 <= bytes -> size_in_bytes r < bytes)) /\
      exists k'', GBMMemoryRegion_delete r k' = Ret tt k'' /\ same_holdings k k''
  | Throw _ k' => same_holdings k k'
  | Wait _ | Undef => False
  end.
Proof.
  unfold secure_for_cpu_write, GBMMemoryRegion_new, GEMHandle_new, GEMHandle_delete, kernel, get, modify, try_catch, mbind, M_bind.
  set (name := u32 _). pose proof (gem_open_law name k) as Ho.
  destruct (ioctl_gem_open name k) as [[ret handle] k1]. destruct Ho as [Hm1 Ho].
  destruct (ret =? 0); simpl; [|by split]. destruct Ho as [Hnew Hg1].
  set (bytes := region_bytes (cb_size b) (buffer_stride b)).
  pose proof (map_region_spec handle bytes k1) as Hmap.
  destruct (map_region handle bytes k1) as [addr k2|e k2|k2|]; simpl; try done.
  - destruct Hmap as (Hg2 & Hnm & Hm2). rewrite Hm1 in Hnm, Hm2.
    split; [done|]. split; [congruence|]. split; [done|]. split.
    + intros Hb. split; intros Hlt; subst bytes; unfold region_bytes.
      * by rewrite u32_id.
      * pose proof (u32_range (as_uint32_t (size_height (cb_size b)) * as_uint32_t (buffer_stride b))) as Hr.
        unfold is_u32 in Hr. lia.
    + eexists. split; [reflexivity|]. destruct (unmap_law addr bytes k2) as [H3 H4].
      destruct (gem_close_law handle (drm_unmap addr bytes k2)) as [H5 H6]. split; simpl.
      * rewrite H5, H3, Hg2, Hg1. set_solver.
      * rewrite H6, H4, Hm2. set_solver.
  - destruct Hmap as [H1 H2]. destruct (gem_close_law handle k2) as [H5 H6]. split.
    + rewrite H5, H1, Hg1. set_solver.
    + by rewrite H6, H2.
Qed.

End RegionLaws.

(** ** Native displays: theorems *)

(** The set names exactly the displays that exist. *)
Definition container_ok (c : MesaNativeDisplayContainer) : Prop := valid_displays c = dom (native_displays c).

(** What an application does with native displays. *)
Inductive display_call : Set :=
| call_create (address connection : Z)
| call_release (display : Z).

(** [new] gives an address that is not in use. *)
Definition call_possible (d : display_call) (c : MesaNativeDisplayContainer) : Prop :=
  match d with call_create address _ => native_displays c !! address = None | call_release _ => True end.

Definition run_display_call (d : display_call) : M MesaNativeDisplayContainer unit :=
  match d with
  | call_create address connection => create_display address connection ;; mret tt
  | call_release display => release display
  end.

Inductive container_runs : list display_call -> MesaNativeDisplayContainer -> Prop :=
| runs_nil : container_runs [] container_new
| runs_snoc l d c c' :
    container_runs l c -> call_possible d c -> run_display_call d c = Ret tt c' -> container_runs (l ++ [d]) c'.

(** The displays that have been created and not released since. *)
Definition live_displays (l : list display_call) : gset Z :=
  fold_left (fun s d => match d with call_create a _ => {[ a ]} ∪ s | call_release x => s ∖ {[ x ]} end) l ∅.

Lemma delete_display_eq x con c :
  native_displays c !! x = Some con ->
  delete_display x c = Ret tt (mkContainer (valid_displays c) (delete x (native_displays c))).
Proof. intros Hx. unfold delete_display, deref, mbind, M_bind. by rewrite Hx. Qed.

Lemma release_ok x c :
  container_ok c ->
  exists c', release x c = Ret tt c' /\ container_ok c' /\ valid_displays c' = valid_displays c ∖ {[ x ]}.
Proof.
  unfold container_ok. intros Hok. unfold release, get, modify, mbind, M_bind.
  destruct (decide (x ∈ valid_displays c)) as [Hin|Hnin].
  - rewrite Hok in Hin. apply elem_of_dom in Hin as [con Hcon]. rewrite (delete_display_eq x con) by done. simpl.
    eexists. split; [reflexivity|]. simpl. rewrite dom_delete_L, Hok. done.
  - exists c. split; [done|]. split; [done|]. set_solver.
Qed.

Lemma container_runs_ok l c : container_runs l c -> container_ok c /\ valid_displays c = live_displays l.
Proof.
  induction 1 as [|l d c c' _ [Hok Hlive] Hposs Hrun]; [done|].
  unfold live_displays. rewrite fold_left_app. simpl. fold (live_displays l). destruct d as [a con|x]; simpl in Hrun.
  - injection Hrun as <-. unfold container_ok in *. simpl. rewrite dom_insert_L, Hok. split; [done|]. by rewrite <- Hlive, Hok.
  - destruct (release_ok x c Hok) as (c2 & Hr & Hok2 & Hv). unfold run_display_call in Hrun. rewrite Hr in Hrun.
    injection Hrun as <-. split; [done|]. by rewrite Hv, Hlive.
Qed.

Lemma delete_all_ok (l : list Z) c :
  NoDup l -> (forall x, x ∈ l -> is_Some (native_displays c !! x)) ->
  exists c', for_each l delete_display c = Ret tt c' /\ dom (native_displays c') = dom (native_displays c) ∖ list_to_set l.
Proof.
  revert c. induction l as [|x l IH]; intros c Hnd Hin.
  { exists c. split; [done|]. set_solver. }
  apply NoDup_cons in Hnd as [Hx Hnd]. destruct (Hin x) as [con Hcon]; [left|].
  cbn [for_each]. unfold mbind, M_bind. rewrite (delete_display_eq x con) by done.
  destruct (IH (mkContainer (valid_displays c) (delete x (native_displays c)))) as (c' & Hrun & Hdom).
  - done.
  - intros y Hy. simpl. rewrite lookup_delete_ne by set_solver. apply Hin. by right.
  - exists c'. split; [exact Hrun|]. rewrite Hdom. simpl. rewrite dom_delete_L. set_solver.
Qed.

(** A native display is valid from its creation to its release, and
    [validate], [release] and the container's destructor never touch one that is
    gone: releasing twice, or validating a stale pointer, is harmless, and the
    destructor deletes every display that is left exactly once. *)
Theorem native_display_lifetime l c :
  container_runs l c ->
  (forall x, validate x c = true <-> x ∈ live_displays l) /\
  (forall x, exists c', release x c = Ret tt c' /\ validate x c' = false) /\
  exists c', container_delete c = Ret tt c' /\ native_displays c' = ∅.
Proof.
  intros Hruns. destruct (container_runs_ok l c Hruns) as [Hok Hlive]. split; [|split].
  - intros x. unfold validate. rewrite bool_decide_eq_true. by rewrite Hlive.
  - intros x. destruct (release_ok x c Hok) as (c' & Hr & _ & Hv). exists c'. split; [done|].
    unfold validate. apply bool_decide_eq_false. rewrite Hv. set_solver.
  - unfold container_delete, get, mbind, M_bind.
    destruct (delete_all_ok (elements (valid_displays c)) c) as (c' & Hrun & Hdom).
    + apply NoDup_elements.
    + intros x Hx. apply elem_of_elements in Hx. rewrite Hok in Hx. by apply elem_of_dom.
    + exists c'. split; [done|]. apply dom_empty_inv_L. rewrite Hdom, list_to_set_elements_L, Hok. set_solver.
Qed.

(** ** On concrete values *)

Record demo_drm : Set := mkDemoDrm { dd_handles : gset Z; dd_maps : gset (Z * Z); dd_fail_map : bool }.

(** GEM names are handles here, a name that is open cannot be opened again, and
    mappings lie one after the other. *)
#[export] Instance demo_handler : DRMFDHandler demo_drm := {
  ioctl_gem_open name k :=
    if decide (name ∈ dd_handles k) then ((-1, 0), k)
    else ((0, name), mkDemoDrm ({[ name ]} ∪ dd_handles k) (dd_maps k) (dd_fail_map k));
  ioctl_gem_close h k := mkDemoDrm (dd_handles k ∖ {[ h ]}) (dd_maps k) (dd_fail_map k);
  ioctl_map_dumb h k := ((0, h * 4096), k);
  drm_map size offset k :=
    if decide (dd_fail_map k = true \/ (offset, size) ∈ dd_maps k) then (None, k)
    else (Some offset, mkDemoDrm (dd_handles k) ({[ (offset, size) ]} ∪ dd_maps k) (dd_fail_map k));
  drm_unmap a size k := mkDemoDrm (dd_handles k) (dd_maps k ∖ {[ (a, size) ]}) (dd_fail_map k);
  get_errno _ := 12;
}.

#[export, refine] Instance demo_handler_laws : DRMFDHandlerLaws demo_drm := {
  gem_handles := dd_handles; mappings := dd_maps;
}.
Proof.
  - intros name k. simpl. by case_decide.
  - done.
  - done.
  - intros size offset k. simpl. case_decide as Hd; simpl; [done|]. split; [done|]. split; [tauto|done].
  - done.
Defined.

Definition demo_client_buffer : GBMClientBuffer :=
  mkClientBuffer (mkBufferPackage [77] [] 2560) (mkSize (wrap 640) (wrap 480)) abgr_8888.

Lemma cpu_region_accounting_witness :
  match secure_for_cpu_write demo_client_buffer (mkDemoDrm ∅ ∅ true) with
  | Throw _ k' => same_holdings (mkDemoDrm ∅ ∅ true) k'
  | _ => False
  end.
Proof. exact (cpu_region_accounting demo_client_buffer (mkDemoDrm ∅ ∅ true)). Defined.

Example demo_region :
  match secure_for_cpu_write demo_client_buffer (mkDemoDrm ∅ ∅ false) with
  | Ret r _ => size_in_bytes r = 1228800 /\ gem_handle r = 77
  | _ => False
  end.
Proof. vm_compute. done. Qed.

Lemma native_display_lifetime_witness :
  let c := mkContainer {[ 9 ]} {[ 9 := 1 ]} in
  (forall x, validate x c = true <-> x ∈ live_displays [call_create 9 1]) /\
  (forall x, exists c', release x c = Ret tt c' /\ validate x c' = false) /\
  exists c', container_delete c = Ret tt c' /\ native_displays c' = ∅.
Proof.
  apply (native_display_lifetime [call_create 9 1]).
  apply (runs_snoc [] (call_create 9 1) container_new); [constructor|reflexivity|reflexivity].
Defined.
