(* ===== verification/ClientLib.v ===== *)
(** * The client library: wait handles, surfaces and connections

    [MirWaitHandle] ([src/client/mir_wait_handle.cpp]), [MirSurface]
    ([mir_surface.cpp]) and [MirConnection] ([mir_connection.cpp]).

    A request is recorded with its arguments when the stub is called; the
    answer arrives when its callback is run, after the channel has written the
    response message.  The client's own callbacks are recorded by their
    context. *)

From S2P Require Import Prelude Geometry Buffers Swapper Bundle GbmBuffers SurfaceParams Surfaces Sessions SessionManager Messages Mediator Depository.

(** ** [MirWaitHandle] *)

Record MirWaitHandle : Set := mkWaitHandle { expecting : Z; received : Z; wait_condition : CondVar }.

Definition MirWaitHandle_new : MirWaitHandle := mkWaitHandle 0 0 cv_init.

Definition expect_result : M MirWaitHandle unit :=
  modify (fun h => mkWaitHandle (expecting h + 1) (received h) (wait_condition h)).

(** One more result; every thread that sleeps on the handle is woken. *)
Definition receive (h : MirWaitHandle) : MirWaitHandle :=
  mkWaitHandle (expecting h) (received h + 1) (cv_notify_all (wait_condition h)).

Definition result_received : M MirWaitHandle unit := modify receive.

(** The condition of the loop. *)
Definition must_wait (h : MirWaitHandle) : bool :=
  ((expecting h =? 0) && (received h =? 0)) || (received h <? expecting h).

Definition wait_for_result : M MirWaitHandle unit := fun h =>
  if must_wait h then Wait (mkWaitHandle (expecting h) (received h) (cv_block (wait_condition h)))
  else Ret tt (mkWaitHandle 0 0 (wait_condition h)).

(** A woken thread looks at the condition again. *)
Definition wait_for_result_resume : M MirWaitHandle unit :=
  modify (fun h => mkWaitHandle (expecting h) (received h) (cv_resume (wait_condition h))) ;; wait_for_result.

(** ** [MirSurface] *)

Definition mir_buffer_package_max : nat := 32.
Definition mir_surface_attrib_type : Z := 0.
Definition mir_surface_type_normal : Z := 0.
Definition mir_pixel_format_abgr_8888 : Z := 1.

Record MirSurfaceParameters : Set := mkMirParams {
  mp_name : option string;
  mp_width : Z;
  mp_height : Z;
  mp_pixel_format : Z;
  mp_buffer_usage : Z;
}.

(** A call of the stub, with the arguments that are sent. *)
Inductive request : Set :=
| rq_create_surface (p : SurfaceParameters)
| rq_next_buffer (id : option Z)
| rq_configure_surface (s : SurfaceSetting)
| rq_release_surface (id : Z)
| rq_connect (p : ConnectParameters)
| rq_select_focus (id : Z)
| rq_drm_auth_magic (magic : Z)
| rq_disconnect.

Section Surface.
Context {F B : Type} `{ClientBufferFactory F B}.

Record MirSurface : Type := mkMirSurface {
  surface_msg : SurfaceMsg;
  create_wait_handle : MirWaitHandle;
  next_buffer_wait_handle : MirWaitHandle;
  configure_wait_handle : MirWaitHandle;
  secured_region : option B;
  buffer_depository : ClientBufferDepository F B;
  configure_result : SurfaceSetting;
  attrib_cache : list Z;
  ms_requests : list request;
  ms_callbacks : list Z;
}.

Definition set_surface_msg (m : SurfaceMsg) (s : MirSurface) : MirSurface :=
  mkMirSurface m (create_wait_handle s) (next_buffer_wait_handle s) (configure_wait_handle s) (secured_region s)
    (buffer_depository s) (configure_result s) (attrib_cache s) (ms_requests s) (ms_callbacks s).
Definition create_lens : lens MirSurface MirWaitHandle :=
  Lens create_wait_handle (fun h s => mkMirSurface (surface_msg s) h (next_buffer_wait_handle s)
    (configure_wait_handle s) (secured_region s) (buffer_depository s) (configure_result s) (attrib_cache s)
    (ms_requests s) (ms_callbacks s)).
Definition next_buffer_lens : lens MirSurface MirWaitHandle :=
  Lens next_buffer_wait_handle (fun h s => mkMirSurface (surface_msg s) (create_wait_handle s) h
    (configure_wait_handle s) (secured_region s) (buffer_depository s) (configure_result s) (attrib_cache s)
    (ms_requests s) (ms_callbacks s)).
Definition configure_lens : lens MirSurface MirWaitHandle :=
  Lens configure_wait_handle (fun h s => mkMirSurface (surface_msg s) (create_wait_handle s)
    (next_buffer_wait_handle s) h (secured_region s) (buffer_depository s) (configure_result s) (attrib_cache s)
    (ms_requests s) (ms_callbacks s)).
Definition set_region (r : option B) (s : MirSurface) : MirSurface :=
  mkMirSurface (surface_msg s) (create_wait_handle s) (next_buffer_wait_handle s) (configure_wait_handle s) r
    (buffer_depository s) (configure_result s) (attrib_cache s) (ms_requests s) (ms_callbacks s).
Definition depository_lens : lens MirSurface (ClientBufferDepository F B) :=
  Lens buffer_depository (fun d s => mkMirSurface (surface_msg s) (create_wait_handle s)
    (next_buffer_wait_handle s) (configure_wait_handle s) (secured_region s) d (configure_result s)
    (attrib_cache s) (ms_requests s) (ms_callbacks s)).
Definition set_configure_result (r : SurfaceSetting) (s : MirSurface) : MirSurface :=
  mkMirSurface (surface_msg s) (create_wait_handle s) (next_buffer_wait_handle s) (configure_wait_handle s)
    (secured_region s) (buffer_depository s) r (attrib_cache s) (ms_requests s) (ms_callbacks s).
Definition set_attrib_cache (l : list Z) (s : MirSurface) : MirSurface :=
  mkMirSurface (surface_msg s) (create_wait_handle s) (next_buffer_wait_handle s) (configure_wait_handle s)
    (secured_region s) (buffer_depository s) (configure_result s) l (ms_requests s) (ms_callbacks s).

Definition call_server (r : request) : M MirSurface unit :=
  modify (fun s => mkMirSurface (surface_msg s) (create_wait_handle s) (next_buffer_wait_handle s)
    (configure_wait_handle s) (secured_region s) (buffer_depository s) (configure_result s) (attrib_cache s)
    (ms_requests s ++ [r]) (ms_callbacks s)).

Definition call_back (context : Z) : M MirSurface unit :=
  modify (fun s => mkMirSurface (surface_msg s) (create_wait_handle s) (next_buffer_wait_handle s)
    (configure_wait_handle s) (secured_region s) (buffer_depository s) (configure_result s) (attrib_cache s)
    (ms_requests s) (ms_callbacks s ++ [context])).

(** The constructor: the depository is made for three buffers. *)
Definition MirSurface_new (f : F) (params : MirSurfaceParameters) : MirSurface :=
  mkMirSurface surface0 MirWaitHandle_new MirWaitHandle_new MirWaitHandle_new None
    (ClientBufferDepository_new f 3) setting0 [mir_surface_type_normal]
    [rq_create_surface (mkSurfaceParameters (mp_width params) (mp_height params) (mp_pixel_format params)
      (mp_buffer_usage params) (default EmptyString (mp_name params)))] [].

Definition surface_id (s : MirSurface) : Z := get_int (sm_id (surface_msg s)).

Definition is_valid (s : MirSurface) : bool :=
  match sm_error (surface_msg s) with Some _ => false | None => true end.

Definition get_parameters (s : MirSurface) : MirSurfaceParameters :=
  mkMirParams None (get_int (sm_width (surface_msg s))) (get_int (sm_height (surface_msg s)))
    (get_int (sm_pixel_format (surface_msg s))) (get_int (sm_buffer_usage (surface_msg s))).

Definition release_cpu_region : M MirSurface unit := modify (set_region None).

(** [secure_for_cpu_write] maps the current buffer. *)
Definition get_cpu_region : M MirSurface unit :=
  b ← zoom depository_lens current_buffer ;
  modify (set_region (Some (fst b))).

(** [surface.mutable_buffer()] makes the field present. *)
Definition next_buffer (context : Z) : M MirSurface unit :=
  release_cpu_region ;;
  s ← get ;
  call_server (rq_next_buffer (sm_id (surface_msg s))) ;;
  modify (fun s => set_surface_msg (set_surface_buffer (Some (default buffer0 (sm_buffer (surface_msg s))))
    (surface_msg s)) s).

Definition convert_ipc_pf_to_geometry (pf : Z) : PixelFormat :=
  if pf =? mir_pixel_format_abgr_8888 then abgr_8888 else pf_invalid.

(** The two loops write to arrays of fixed size. *)
Definition populate : M MirSurface MirBufferPackage :=
  s ← get ;
  match is_valid s, sm_buffer (surface_msg s) with
  | true, Some b =>
      if decide ((length (bm_data b) <= mir_buffer_package_max)%nat /\
                 (length (bm_fd b) <= mir_buffer_package_max)%nat)
      then mret (mkBufferPackage (bm_data b) (bm_fd b) (get_int (bm_stride b)))
      else undefined
  | _, _ => mret (mkBufferPackage [] [] 0)
  end.

(** [catch (const std::runtime_error& err)]: [logic_error] is not one. *)
Definition catch_runtime_error {S A} (m : M S A) (h : M S A) : M S A :=
  try_catch m (fun e => match e with logic_error _ => throw e | _ => h end).

Definition process_incoming_buffer : M MirSurface unit :=
  s ← get ;
  let m := surface_msg s in
  let surface_size := mkSize (wrap (get_int (sm_width m))) (wrap (get_int (sm_height m))) in
  let surface_pf := convert_ipc_pf_to_geometry (get_int (sm_pixel_format m)) in
  ipc_package ← populate ;
  catch_runtime_error
    (zoom depository_lens
      (deposit_package ipc_package (get_int (default buffer0 (sm_buffer m)).(bm_buffer_id)) surface_size surface_pf))
    (mret tt).

Definition created (context : Z) : M MirSurface unit :=
  process_incoming_buffer ;;
  call_back context ;;
  zoom create_lens result_received.

Definition new_buffer (context : Z) : M MirSurface unit :=
  process_incoming_buffer ;;
  call_back context ;;
  zoom next_buffer_lens result_received.

(** [mutable_surfaceid()->CopyFrom(surface.id())]: the field becomes present. *)
Definition configure (at_ value : Z) : M MirSurface unit :=
  s ← get ;
  zoom configure_lens expect_result ;;
  call_server (rq_configure_surface
    (mkSetting (Some (get_int (sm_id (surface_msg s)))) (Some at_) (Some value) None)).

(** [assert(false)] ends the process. *)
Definition on_configured : M MirSurface unit :=
  s ← get ;
  let r := configure_result s in
  match ss_surfaceid r, ss_attrib r with
  | Some i, Some a =>
      if i =? surface_id s then
        (if a =? mir_surface_attrib_type then
           match ss_ivalue r with
           | Some t => modify (set_attrib_cache (<[Z.to_nat mir_surface_attrib_type := t]> (attrib_cache s)))
           | None => mret tt
           end
         else undefined) ;;
        zoom configure_lens result_received
      else mret tt
  | _, _ => mret tt
  end.

(** Indexing outside of the array is undefined. *)
Definition attrib (at_ : Z) : M MirSurface Z :=
  if at_ <? 0 then undefined else deref (fun s => attrib_cache s !! Z.to_nat at_).

(** The channel writes the answer into the message the request named, and runs
    the callback. *)
Definition buffer_answered (b : BufferMsg) (context : Z) : M MirSurface unit :=
  modify (fun s => set_surface_msg (set_surface_buffer (Some b) (surface_msg s)) s) ;; new_buffer context.

Definition create_answered (m : SurfaceMsg) (context : Z) : M MirSurface unit :=
  modify (set_surface_msg m) ;; created context.

Definition configure_answered (r : SurfaceSetting) : M MirSurface unit :=
  modify (set_configure_result r) ;; on_configured.

End Surface.
Arguments MirSurface F B : clear implicits.

(** ** [MirConnection] *)

Definition mir_platform_package_max : nat := 32.
Definition mir_supported_pixel_format_max : nat := 32.

Record MirPlatformPackage : Set := mkPlatformPackage { pp_data : list Z; pp_fd : list Z }.

(** The items up to [supported_pixel_format_items]. *)
Record MirDisplayInfo : Set := mkMirDisplayInfo {
  mdi_width : Z;
  mdi_height : Z;
  mdi_supported_pixel_format : list Z;
}.

(** A connection, with the wait handles it has allocated for the surfaces that
    are being released ([release_wait_handles] are their addresses), and the
    surfaces it has created. *)
Record MirConnection : Set := mkMirConnection {
  connect_parameters : ConnectParameters;
  connect_result : ConnectionMsg;
  mc_error_message : string;
  drm_auth_magic_status : DRMAuthMagicStatus;
  platform_created : bool;
  connect_wait_handle : MirWaitHandle;
  disconnect_wait_handle : MirWaitHandle;
  drm_auth_magic_wait_handle : MirWaitHandle;
  release_wait_handles : list Z;
  mc_handles : gmap Z MirWaitHandle;
  mc_surfaces : gset Z;
  mc_requests : list request;
  mc_callbacks : list Z;
}.

(** All connections of the process: [valid_connections], and the objects. *)
Record ClientLibrary : Set := mkLibrary {
  valid_connections : gset Z;
  connections : gmap Z MirConnection;
}.

(** The default constructor makes the error connection; it is not entered in
    the set. *)
Definition error_connection (error : string) : MirConnection :=
  mkMirConnection (mkConnectParameters EmptyString None) connection0 error drm_status0 false MirWaitHandle_new
    MirWaitHandle_new MirWaitHandle_new [] ∅ ∅ [] [].

Definition MirConnection_new (this : Z) : M ClientLibrary unit :=
  modify (fun l => mkLibrary ({[ this ]} ∪ valid_connections l)
    (<[this := mkMirConnection (mkConnectParameters EmptyString None)
       (mkConnectionMsg None None (Some "connect not called"%string)) EmptyString drm_status0 false
       MirWaitHandle_new MirWaitHandle_new MirWaitHandle_new [] ∅ ∅ [] []]> (connections l))).

Definition MirConnection_delete (this : Z) : M ClientLibrary unit :=
  modify (fun l => mkLibrary (valid_connections l ∖ {[ this ]}) (delete this (connections l))).

(** [MirConnection::is_valid]: the set is looked at first. *)
Definition connection_is_valid (connection : Z) : M ClientLibrary bool :=
  l ← get ;
  if decide (connection ∈ valid_connections l)
  then c ← deref (fun l => connections l !! connection) ;
       mret (match cm_error (connect_result c) with Some _ => false | None => true end)
  else mret false.

(** A member function of a live connection. *)
Definition on_connection {A} (this : Z) (m : M MirConnection A) : M ClientLibrary A := fun l =>
  match connections l !! this with
  | None => Undef
  | Some c =>
      let put c' := mkLibrary (valid_connections l) (<[this := c']> (connections l)) in
      match m c with
      | Ret a c' => Ret a (put c')
      | Throw e c' => Throw e (put c')
      | Wait c' => Wait (put c')
      | Undef => Undef
      end
  end.

Definition get_error_message (c : MirConnection) : string := default (mc_error_message c) (cm_error (connect_result c)).

Definition connection_request (r : request) : M MirConnection unit :=
  modify (fun c => mkMirConnection (connect_parameters c) (connect_result c) (mc_error_message c)
    (drm_auth_magic_status c) (platform_created c) (connect_wait_handle c) (disconnect_wait_handle c)
    (drm_auth_magic_wait_handle c) (release_wait_handles c) (mc_handles c) (mc_surfaces c)
    (mc_requests c ++ [r]) (mc_callbacks c)).

Definition connection_call_back (context : Z) : M MirConnection unit :=
  modify (fun c => mkMirConnection (connect_parameters c) (connect_result c) (mc_error_message c)
    (drm_auth_magic_status c) (platform_created c) (connect_wait_handle c) (disconnect_wait_handle c)
    (drm_auth_magic_wait_handle c) (release_wait_handles c) (mc_handles c) (mc_surfaces c)
    (mc_requests c) (mc_callbacks c ++ [context])).

(** Both overloads of [connect]. *)
Definition connect_request (app_name : string) (lightdm_id : option Z) : M MirConnection unit :=
  modify (fun c => mkMirConnection (mkConnectParameters app_name
      (match lightdm_id with Some i => Some i | None => cp_lightdm_id (connect_parameters c) end))
    (connect_result c) (mc_error_message c) (drm_auth_magic_status c) (platform_created c)
    (connect_wait_handle c) (disconnect_wait_handle c) (drm_auth_magic_wait_handle c) (release_wait_handles c)
    (mc_handles c) (mc_surfaces c) (mc_requests c) (mc_callbacks c)) ;;
  c ← get ;
  connection_request (rq_connect (connect_parameters c)).

(** The answer to [connect] has been written to [connect_result]. *)
Definition connected (result : ConnectionMsg) (context : Z) : M MirConnection unit :=
  modify (fun c => mkMirConnection (connect_parameters c) result (mc_error_message c)
    (drm_auth_magic_status c) true (connect_wait_handle c) (disconnect_wait_handle c)
    (drm_auth_magic_wait_handle c) (release_wait_handles c) (mc_handles c) (mc_surfaces c)
    (mc_requests c) (mc_callbacks c)) ;;
  connection_call_back context ;;
  modify (fun c => mkMirConnection (connect_parameters c) (connect_result c) (mc_error_message c)
    (drm_auth_magic_status c) (platform_created c)
    (receive (connect_wait_handle c))
    (disconnect_wait_handle c) (drm_auth_magic_wait_handle c) (release_wait_handles c) (mc_handles c)
    (mc_surfaces c) (mc_requests c) (mc_callbacks c)).

Definition select_focus_by_lightdm_id (lightdm_id : Z) : M MirConnection unit :=
  connection_request (rq_select_focus lightdm_id).

(** [MirConnection::create_surface]: the new surface, at [address], sends the
    request; the platform pointer must not be null. *)
Definition create_surface_request (address : Z) (params : SurfaceParameters) : M MirConnection unit :=
  c ← get ;
  if platform_created c then
    modify (fun c => mkMirConnection (connect_parameters c) (connect_result c) (mc_error_message c)
      (drm_auth_magic_status c) (platform_created c) (connect_wait_handle c) (disconnect_wait_handle c)
      (drm_auth_magic_wait_handle c) (release_wait_handles c) (mc_handles c) ({[ address ]} ∪ mc_surfaces c)
      (mc_requests c) (mc_callbacks c)) ;;
    connection_request (rq_create_surface params)
  else undefined.

(** [new MirWaitHandle] is at the address [handle]. *)
Definition release_surface (surface_address id handle : Z) : M MirConnection unit :=
  connection_request (rq_release_surface id) ;;
  modify (fun c => mkMirConnection (connect_parameters c) (connect_result c) (mc_error_message c)
    (drm_auth_magic_status c) (platform_created c) (connect_wait_handle c) (disconnect_wait_handle c)
    (drm_auth_magic_wait_handle c) (release_wait_handles c ++ [handle])
    (<[handle := MirWaitHandle_new]> (mc_handles c)) (mc_surfaces c) (mc_requests c) (mc_callbacks c)).

(** The handle and the surface must still exist. *)
Definition released (surface_address handle context : Z) : M MirConnection unit :=
  connection_call_back context ;;
  h ← deref (fun c => mc_handles c !! handle) ;
  c ← get ;
  if decide (surface_address ∈ mc_surfaces c)
  then modify (fun c => mkMirConnection (connect_parameters c) (connect_result c) (mc_error_message c)
         (drm_auth_magic_status c) (platform_created c) (connect_wait_handle c) (disconnect_wait_handle c)
         (drm_auth_magic_wait_handle c) (release_wait_handles c)
         (<[handle := receive h]> (mc_handles c))
         (mc_surfaces c ∖ {[ surface_address ]}) (mc_requests c) (mc_callbacks c))
  else undefined.

Definition disconnect : M MirConnection unit := connection_request rq_disconnect.

(** The handles are deleted one by one; deleting one twice is undefined. *)
Definition done_disconnect : M MirConnection unit :=
  c ← get ;
  for_each (release_wait_handles c) (fun handle =>
    deref (fun c => mc_handles c !! handle) ;;
    modify (fun c => mkMirConnection (connect_parameters c) (connect_result c) (mc_error_message c)
      (drm_auth_magic_status c) (platform_created c) (connect_wait_handle c) (disconnect_wait_handle c)
      (drm_auth_magic_wait_handle c) (release_wait_handles c) (delete handle (mc_handles c))
      (mc_surfaces c) (mc_requests c) (mc_callbacks c))) ;;
  modify (fun c => mkMirConnection (connect_parameters c) (connect_result c) (mc_error_message c)
    (drm_auth_magic_status c) (platform_created c) (connect_wait_handle c)
    (receive (disconnect_wait_handle c))
    (drm_auth_magic_wait_handle c) (release_wait_handles c) (mc_handles c) (mc_surfaces c)
    (mc_requests c) (mc_callbacks c)).

Definition drm_auth_magic_request (magic : Z) : M MirConnection unit :=
  connection_request (rq_drm_auth_magic magic).

Definition done_drm_auth_magic (status : DRMAuthMagicStatus) (context : Z) : M MirConnection Z :=
  modify (fun c => mkMirConnection (connect_parameters c) (connect_result c) (mc_error_message c)
    status (platform_created c) (connect_wait_handle c) (disconnect_wait_handle c)
    (drm_auth_magic_wait_handle c) (release_wait_handles c) (mc_handles c) (mc_surfaces c)
    (mc_requests c) (mc_callbacks c)) ;;
  connection_call_back context ;;
  modify (fun c => mkMirConnection (connect_parameters c) (connect_result c) (mc_error_message c)
    (drm_auth_magic_status c) (platform_created c) (connect_wait_handle c) (disconnect_wait_handle c)
    (receive (drm_auth_magic_wait_handle c))
    (release_wait_handles c) (mc_handles c) (mc_surfaces c) (mc_requests c) (mc_callbacks c)) ;;
  mret (get_int (ds_status_code status)).

(** [populate(MirPlatformPackage&)]: the arrays have 32 elements each. *)
Definition populate_platform : M MirConnection MirPlatformPackage :=
  c ← get ;
  match cm_error (connect_result c), cm_platform (connect_result c) with
  | None, Some p =>
      if decide ((length (pm_data p) <= mir_platform_package_max)%nat /\
                 (length (pm_fd p) <= mir_platform_package_max)%nat)
      then mret (mkPlatformPackage (pm_data p) (pm_fd p))
      else undefined
  | _, _ => mret (mkPlatformPackage [] [])
  end.

(** [populate(MirDisplayInfo&)]. *)
Definition populate_display_info : M MirConnection MirDisplayInfo :=
  c ← get ;
  match cm_error (connect_result c), cm_display_info (connect_result c) with
  | None, Some d =>
      let pf_size := length (di_supported_pixel_format d) in
      let items := if decide ((mir_supported_pixel_format_max < pf_size)%nat)
                   then mir_supported_pixel_format_max else pf_size in
      mret (mkMirDisplayInfo (di_width d) (di_height d) (take items (di_supported_pixel_format d)))
  | _, _ => mret (mkMirDisplayInfo 0 0 [])
  end.

(** ** Properties of surfaces *)

Section SurfaceProofs.
Context {F B : Type} `{ClientBufferFactory F B}.
Implicit Types s : MirSurface F B.

(** The platform makes a buffer of a package, or throws an exception that the surface
    catches. *)
Definition factory_answers : Prop :=
  forall p sz pf (f : F), wp (create_buffer p sz pf) (fun _ _ => True)
    (fun e _ => match e with logic_error _ => False | _ => True end) (fun _ => False) f.

(** The package that [populate] makes of a buffer message, and its deposit. *)
Definition incoming (b : BufferMsg) s : M (ClientBufferDepository F B) unit :=
  let m := surface_msg s in
  deposit_package (if is_valid s then mkBufferPackage (bm_data b) (bm_fd b) (get_int (bm_stride b)) else mkBufferPackage [] [] 0)
    (get_int (bm_buffer_id b)) (mkSize (wrap (get_int (sm_width m))) (wrap (get_int (sm_height m))))
    (convert_ipc_pf_to_geometry (get_int (sm_pixel_format m))).

(** The deposit of a package: the buffer is held and current, or the factory has thrown
    and no buffer is current. *)
Lemma deposit_ends h package id size pf (d : ClientBufferDepository F B) :
  factory_answers -> reflects h d ->
  (exists d', deposit_package package id size pf d = Ret tt d' /\ reflects (id :: h) d') \/
  (exists e d', deposit_package package id size pf d = Throw e d' /\ (match e with logic_error _ => False | _ => True end) /\
     current_buffer_iter d' = None).
Proof.
  intros Hw Hr. destruct (deposit_package package id size pf d) as [[] d'|e d'|d'|] eqn:E.
  1: { left. exists d'. split; [done|]. by apply (deposit_reflects h package id size pf d d'). }
  all: rewrite deposit_eq in E by (try apply Hr; intros c Hc; by apply (reflects_current h d c));
       cbv zeta in E; destruct (OrdMap.find id _); [done|];
       specialize (Hw package size pf (factory d)); unfold wp in Hw;
       destruct (create_buffer package size pf (factory d)); simplify_eq; try done.
  right. by eexists _, _.
Qed.

(** The threads that wait on a handle have been told: none sleeps any more, and once as
    many results have come as are expected, waiting ends at once for a thread that was
    woken and for one that comes now. *)
Definition told (w w' : MirWaitHandle) : Prop :=
  waiting (wait_condition w') = 0%nat /\ woken (wait_condition w') = (waiting (wait_condition w) + woken (wait_condition w))%nat /\
  received w' = received w + 1 /\ expecting w' = expecting w /\
  (expecting w <= received w + 1 -> 0 <= received w ->
   wait_for_result w' = Ret tt (mkWaitHandle 0 0 (wait_condition w')) /\
   wait_for_result_resume w' = Ret tt (mkWaitHandle 0 0 (cv_resume (wait_condition w')))).

Lemma receive_tells w : told w (receive w).
Proof.
  do 4 (split; [done|]). intros H1 H2. assert (must_wait (receive w) = false) as Hm.
  { unfold must_wait, receive. cbn [expecting received]. destruct (Z.eqb_spec (expecting w) 0), (Z.eqb_spec (received w + 1) 0),
      (Z.ltb_spec (received w + 1) (expecting w)); try lia; done. }
  split; [unfold wait_for_result; by rewrite Hm|]. unfold wait_for_result_resume, wait_for_result, modify, mbind, M_bind.
  change (must_wait (mkWaitHandle (expecting (receive w)) (received (receive w)) (cv_resume (wait_condition (receive w))))) with (must_wait (receive w)).
  by rewrite Hm.
Qed.


End SurfaceProofs.

(** ** The two ends of [configure] *)

(** The handler names the surface and the attribute in its response before
    anything can fail. *)
Lemma configure_echoes {A I P K} (req : SurfaceSetting) (c : call A I P K SurfaceSetting) :
  match configure_surface_handler req (mret tt) c with
  | Ret _ c' | Throw _ c' | Wait c' =>
      ss_surfaceid (call_response c') = Some (get_int (ss_surfaceid req)) /\
      ss_attrib (call_response c') = Some (get_int (ss_attrib req))
  | Undef => True
  end.
Proof.
  unfold configure_surface_handler, respond, modify. unfold mbind at 1, M_bind. cbv beta iota.
  unfold valid_session, gets, mbind, M_bind. cbn [call_proc].
  destruct (pr_session (call_proc c)) as [p|]; [|done]. unfold mret at 1, M_ret. cbv beta iota.
  unfold on_session, on_shell, zoom. cbn [view proc_lens].
  destruct (with_session p _ _); done.
Qed.

(** The answer the client gets, as [invoke] makes it. *)
Definition configure_response {A I P K} (req : SurfaceSetting) (c : call A I P K SurfaceSetting)
    : option SurfaceSetting :=
  match configure_surface_handler req (mret tt) c with
  | Ret _ c' => Some (call_response c')
  | Throw e c' => Some (set_error (diagnostic_information e) (call_response c'))
  | _ => None
  end.

(** A request to configure a surface ends, whatever the server makes of it.
    The answer of the server's handler, also when it refuses, names the surface
    and the attribute; so the client recognises it, remembers the value if it
    was given one and its old value otherwise, and whoever waits for the answer
    goes on. *)
Theorem configure_ends {F B A I P K} (s : MirSurface F B) v old
    (c : call A I P K SurfaceSetting) r :
  attrib_cache s = [old] -> configure_wait_handle s = MirWaitHandle_new ->
  configure_response (mkSetting (Some (surface_id s)) (Some mir_surface_attrib_type) (Some v) None) c = Some r ->
  exists s1 s2,
    configure mir_surface_attrib_type v s = Ret tt s1 /\
    ms_requests s1 = ms_requests s ++ [rq_configure_surface
      (mkSetting (Some (surface_id s)) (Some mir_surface_attrib_type) (Some v) None)] /\
    configure_answered r s1 = Ret tt s2 /\
    attrib mir_surface_attrib_type s2 = Ret (default old (ss_ivalue r)) s2 /\
    wait_for_result (configure_wait_handle s2) = Ret tt MirWaitHandle_new.
Proof.
  intros Hcache Hwait Hresp. set (req := mkSetting _ _ _ _) in *.
  assert (ss_surfaceid r = Some (surface_id s) /\ ss_attrib r = Some mir_surface_attrib_type) as [Hi Ha].
  { pose proof (configure_echoes req c) as He. unfold configure_response in Hresp.
    destruct (configure_surface_handler req (mret tt) c); simplify_eq; exact He. }
  assert (exists s1, configure mir_surface_attrib_type v s = Ret tt s1 /\
    ms_requests s1 = ms_requests s ++ [rq_configure_surface req] /\ surface_id s1 = surface_id s /\
    attrib_cache s1 = [old] /\ configure_wait_handle s1 = mkWaitHandle 1 0 cv_init) as (s1 & H1 & H2 & H3 & H4 & H5).
  { unfold configure, call_server, zoom, expect_result, modify, get, mbind, M_bind.
    cbn [view over configure_lens]. rewrite Hwait. eexists. split; [reflexivity|]. done. }
  exists s1. unfold configure_answered, on_configured, modify, get, mbind, M_bind.
  cbn [configure_result set_configure_result]. rewrite Hi, Ha.
  change (surface_id (set_configure_result r s1)) with (surface_id s1). rewrite H3, Z.eqb_refl, Z.eqb_refl.
  unfold zoom, result_received, modify, attrib, deref.
  destruct (ss_ivalue r) as [t|]; eexists; (split; [done|]); (split; [done|]); (split; [reflexivity|]); simpl;
    rewrite H4, H5; done.
Qed.

(** ** Properties of connections *)

(** What a connection tells about the display always fits the caller's
    structure: at most 32 formats are copied, the first ones the server named.
    The platform's package is copied without that limit: with more than 32 data
    items or file descriptors the copy runs over the array. *)
Theorem populate_bounds c d p :
  cm_error (connect_result c) = None -> cm_display_info (connect_result c) = Some d ->
  cm_platform (connect_result c) = Some p ->
  (exists info, populate_display_info c = Ret info c /\
     (length (mdi_supported_pixel_format info) <= 32)%nat /\
     mdi_supported_pixel_format info `prefix_of` di_supported_pixel_format d /\
     ((length (di_supported_pixel_format d) <= 32)%nat ->
      mdi_supported_pixel_format info = di_supported_pixel_format d)) /\
  (populate_platform c = Undef <-> (32 < length (pm_data p))%nat \/ (32 < length (pm_fd p))%nat).
Proof.
  intros He Hd Hp. unfold populate_display_info, populate_platform, get, mbind, M_bind. rewrite He, Hd, Hp.
  unfold mir_supported_pixel_format_max, mir_platform_package_max. split.
  - eexists. split; [reflexivity|]. cbn [mdi_supported_pixel_format]. split; [|split].
    + rewrite length_take. case_decide; lia.
    + apply prefix_take.
    + intros Hle. rewrite decide_False by lia. apply firstn_all.
  - case_decide; [|]; split; try done; intros; try lia.
Qed.

(** A connection is valid exactly from the moment its request to connect has
    been answered without an error until it is released; asking is never
    undefined, not even with a pointer to a connection that is gone. *)
Theorem connection_validity this l result context :
  this ∉ valid_connections l ->
  (forall k, k ∈ valid_connections l -> is_Some (connections l !! k)) ->
  exists l1 l2 l3, MirConnection_new this l = Ret tt l1 /\ connection_is_valid this l1 = Ret false l1 /\
    on_connection this (connected result context) l1 = Ret tt l2 /\
    connection_is_valid this l2 = Ret (bool_decide (cm_error result = None)) l2 /\
    MirConnection_delete this l2 = Ret tt l3 /\ connection_is_valid this l3 = Ret false l3 /\
    (forall k, k <> this -> connection_is_valid k l = Ret true l -> connection_is_valid k l3 = Ret true l3).
Proof.
  intros Hnew Hlive. eexists. eexists. eexists. split; [reflexivity|]. split.
  { unfold connection_is_valid, get, mbind, M_bind. cbn [valid_connections connections].
    rewrite decide_True by set_solver. unfold deref. cbn [connections]. by rewrite lookup_insert_eq. }
  split.
  { unfold on_connection. cbn [connections]. rewrite lookup_insert_eq. reflexivity. }
  split.
  { unfold connection_is_valid, get, mbind, M_bind. cbn [valid_connections connections].
    rewrite decide_True by set_solver. unfold deref. cbn [connections]. rewrite lookup_insert_eq. simpl.
    by destruct (cm_error result). }
  split; [reflexivity|]. split.
  { unfold connection_is_valid, get, mbind, M_bind. cbn [valid_connections]. by rewrite decide_False by set_solver. }
  intros k Hk. unfold connection_is_valid, get, mbind, M_bind. cbn [valid_connections].
  case_decide as Hin; [|done]. rewrite decide_True by set_solver. unfold deref. cbn [connections].
  rewrite lookup_delete_ne, !lookup_insert_ne by congruence.
  destruct (Hlive k Hin) as [x ->]. unfold mret, M_ret. by destruct (cm_error (connect_result x)).
Qed.

(** ** Concrete clients *)

#[local] Instance demo_plain_factory : ClientBufferFactory unit Z := {
  create_buffer p _ _ := mret (bp_stride p);
}.

Definition demo_mir_surface : MirSurface unit Z :=
  MirSurface_new tt (mkMirParams (Some "window"%string) 320 240 1 1).

Definition demo_answer : BufferMsg := mkBufferMsg (Some 4) [5; 6] [7] (Some 2) (Some 1280) None.

(** Two threads sleep on the surface's handle. *)
Definition demo_awaited : MirSurface unit Z := over next_buffer_lens (mkWaitHandle 0 0 (mkCondVar 2 0)) demo_mir_surface.


(** The server has no session for the client: the answer is an error. *)
Definition demo_configure_call : call demo_platform Z unit unit SurfaceSetting :=
  mkCall demo_processor 1 setting0.

Lemma configure_ends_witness :
  exists s1 s2,
    configure mir_surface_attrib_type 2 demo_mir_surface = Ret tt s1 /\
    ms_requests s1 = ms_requests demo_mir_surface ++ [rq_configure_surface
      (mkSetting (Some 0) (Some mir_surface_attrib_type) (Some 2) None)] /\
    configure_answered (mkSetting (Some 0) (Some 0) None (Some "Invalid application session"%string)) s1 =
      Ret tt s2 /\
    attrib mir_surface_attrib_type s2 = Ret 0 s2 /\
    wait_for_result (configure_wait_handle s2) = Ret tt MirWaitHandle_new.
Proof.
  apply (configure_ends demo_mir_surface 2 0 demo_configure_call
    (mkSetting (Some 0) (Some 0) None (Some "Invalid application session"%string)));
    [reflexivity|reflexivity|vm_compute; reflexivity].
Defined.

Definition demo_library : ClientLibrary := mkLibrary ∅ ∅.

Definition demo_connected : MirConnection :=
  match connected (mkConnectionMsg (Some (mkPlatformMsg [33] (replicate 40 0) None None))
      (Some (mkDisplayInfoMsg 1024 768 [1; 3])) None) 5 (error_connection EmptyString) with
  | Ret _ c => c
  | _ => error_connection EmptyString
  end.

Lemma populate_bounds_witness :
  (exists info, populate_display_info demo_connected = Ret info demo_connected /\
     (length (mdi_supported_pixel_format info) <= 32)%nat /\
     mdi_supported_pixel_format info `prefix_of` [1; 3] /\
     ((length [1; 3] <= 32)%nat -> mdi_supported_pixel_format info = [1; 3])) /\
  (populate_platform demo_connected = Undef <->
   (32 < length (replicate 40 0))%nat \/ (32 < length [33])%nat).
Proof.
  apply (populate_bounds demo_connected (mkDisplayInfoMsg 1024 768 [1; 3])
    (mkPlatformMsg [33] (replicate 40 0) None None)); reflexivity.
Defined.

Lemma connection_validity_witness :
  exists l1 l2 l3, MirConnection_new 7 demo_library = Ret tt l1 /\ connection_is_valid 7 l1 = Ret false l1 /\
    on_connection 7 (connected connection0 5) l1 = Ret tt l2 /\
    connection_is_valid 7 l2 = Ret true l2 /\
    MirConnection_delete 7 l2 = Ret tt l3 /\ connection_is_valid 7 l3 = Ret false l3 /\
    (forall k, k <> 7 -> connection_is_valid k demo_library = Ret true demo_library ->
       connection_is_valid k l3 = Ret true l3).
Proof.
  apply (connection_validity 7 demo_library connection0 5).
  - apply (bool_decide_unpack _). vm_compute. exact Logic.I.
  - intros k Hk. exfalso. simpl in Hk. set_solver.
Defined.
