(* ===== verification/ClientApi.v ===== *)
(** * The C interface of the client library

    [mir_toolkit::mir_connect] and the functions around it
    ([src/client/mir_client_library.cpp]), over the connections, surfaces and
    wait handles of [ClientLib].

    A function that waits for an answer is given [io], what the I/O thread does
    in the meantime. *)

From S2P Require Import Prelude Geometry Buffers Swapper Bundle GbmBuffers SurfaceParams Surfaces Sessions SessionManager Messages Mediator Depository ClientLib.

(** A [MirConnection *]: null, the static [error_connection], or an object on
    the heap. *)
Inductive connection_ptr : Set :=
| null_connection
| error_connection_ptr
| heap_connection (address : Z).

#[export] Instance connection_ptr_eq_dec : EqDecision connection_ptr.
Proof. solve_decision. Defined.

Record Api : Set := mkApi {
  api_library : ClientLibrary;
  (** The object [error_connection]. *)
  api_error : MirConnection;
  (** The calls of callbacks with the error connection. *)
  api_errors : list Z;
}.

Definition library : lens Api ClientLibrary := Lens api_library (fun l a => mkApi l (api_error a) (api_errors a)).

Definition with_error_message (error : string) (c : MirConnection) : MirConnection :=
  mkMirConnection (connect_parameters c) (connect_result c) error (drm_auth_magic_status c) (platform_created c)
    (connect_wait_handle c) (disconnect_wait_handle c) (drm_auth_magic_wait_handle c) (release_wait_handles c)
    (mc_handles c) (mc_surfaces c) (mc_requests c) (mc_callbacks c).

(** [x.what()]. *)
Definition what (e : exn) : string :=
  match e with logic_error w | runtime_error w | errno_error w _ => w end.

(** The wait handle of a connection that a function returns a pointer to. *)
Inductive connection_handle : Set := connect_handle | disconnect_handle.

Definition handle_lens (h : connection_handle) : lens MirConnection MirWaitHandle :=
  match h with
  | connect_handle => Lens connect_wait_handle (fun w c => mkMirConnection (connect_parameters c) (connect_result c)
      (mc_error_message c) (drm_auth_magic_status c) (platform_created c) w (disconnect_wait_handle c)
      (drm_auth_magic_wait_handle c) (release_wait_handles c) (mc_handles c) (mc_surfaces c) (mc_requests c) (mc_callbacks c))
  | disconnect_handle => Lens disconnect_wait_handle (fun w c => mkMirConnection (connect_parameters c) (connect_result c)
      (mc_error_message c) (drm_auth_magic_status c) (platform_created c) (connect_wait_handle c) w
      (drm_auth_magic_wait_handle c) (release_wait_handles c) (mc_handles c) (mc_surfaces c) (mc_requests c) (mc_callbacks c))
  end.

(** [mir_connect] and [mir_connect_with_lightdm_id].  [channel] and [sent] are
    the exceptions of making the channel and of sending the request; [address]
    is where [new] puts the connection. *)
Definition mir_connect (address : Z) (channel sent : option exn) (name : string) (lightdm_id : option Z) (context : Z)
    : M Api (option (Z * connection_handle)) :=
  try_catch
    ((match channel with Some e => throw e | None => mret tt end) ;;
     zoom library (MirConnection_new address) ;;
     zoom library (on_connection address (connect_request name lightdm_id)) ;;
     (match sent with Some e => throw e | None => mret tt end) ;;
     mret (Some (address, connect_handle)))
    (fun e =>
       modify (fun a => mkApi (api_library a) (with_error_message (what e) (api_error a)) (api_errors a)) ;;
       modify (fun a => mkApi (api_library a) (api_error a) (api_errors a ++ [context])) ;;
       mret None).

Definition mir_wait_for (wait_handle : option (Z * connection_handle)) : M Api unit :=
  match wait_handle with
  | Some (address, h) => zoom library (on_connection address (zoom (handle_lens h) wait_for_result))
  | None => mret tt
  end.

(** [assign_result] as the callback: [conn] is set when it has been called, with
    the error connection or by the connection itself. *)
Definition mir_connect_sync (address : Z) (channel sent : option exn) (app_name : string) (context : Z)
    (io : M ClientLibrary unit) : M Api connection_ptr :=
  before ← gets api_errors ;
  handle ← mir_connect address channel sent app_name None context ;
  zoom library io ;;
  mir_wait_for handle ;;
  a ← get ;
  mret (if decide (api_errors a = before ++ [context]) then error_connection_ptr
        else match connections (api_library a) !! address with
             | Some c => if decide (context ∈ mc_callbacks c) then heap_connection address else null_connection
             | None => null_connection
             end).

Definition mir_connection_is_valid (connection : connection_ptr) : M Api bool :=
  match connection with
  | heap_connection address => zoom library (connection_is_valid address)
  | _ => mret false
  end.

Definition mir_connection_get_error_message (connection : connection_ptr) : M Api string :=
  match connection with
  | null_connection => undefined
  | error_connection_ptr => gets (fun a => get_error_message (api_error a))
  | heap_connection address =>
      c ← deref (fun a => connections (api_library a) !! address) ; mret (get_error_message c)
  end.

Definition mir_connection_release (connection : connection_ptr) (io : M ClientLibrary unit) : M Api unit :=
  match connection with
  | error_connection_ptr => mret tt
  | null_connection => undefined
  | heap_connection address =>
      zoom library (on_connection address disconnect) ;;
      zoom library io ;;
      mir_wait_for (Some (address, disconnect_handle)) ;;
      zoom library (MirConnection_delete address)
  end.

(** [mir_surface_create]: the surface, which is made at [surface]; [failed] is an
    exception on the way. *)
Definition mir_surface_create (connection : connection_ptr) (surface : Z) (failed : option exn)
    (params : SurfaceParameters) : M Api (option Z) :=
  match connection with
  | error_connection_ptr => mret None
  | null_connection => undefined
  | heap_connection address =>
      try_catch
        (zoom library (on_connection address (create_surface_request surface params)) ;;
         (match failed with Some e => throw e | None => mret tt end) ;;
         mret (Some surface))
        (fun _ => mret None)
  end.

(** [mir_select_focus_by_lightdm_id]: exceptions are ignored. *)
Definition mir_select_focus_by_lightdm_id (address lightdm_id : Z) : M Api unit :=
  try_catch (zoom library (on_connection address (select_focus_by_lightdm_id lightdm_id))) (fun _ => mret tt).

Section SurfaceApi.
Context {F B : Type} `{ClientBufferFactory F B}.

(** A surface and whether the pointer to it is null. *)
Definition mir_surface_set_type (surf : option (MirSurface F B)) (type : Z) : outcome (MirSurface F B) unit + unit :=
  match surf with
  | Some s => inl (configure mir_surface_attrib_type type s)
  | None => inr tt
  end.

Definition mir_surface_get_type (surf : option (MirSurface F B)) : option Z :=
  match surf with
  | Some s => match attrib mir_surface_attrib_type s with Ret t _ => Some t | _ => None end
  | None => Some mir_surface_type_normal
  end.

(** [mir_surface_get_current_buffer]: all the items of the arrays are copied. *)
Definition copy_package (package : MirBufferPackage) (data fd : list Z) : MirBufferPackage :=
  mkBufferPackage (take mir_buffer_package_max data) (take mir_buffer_package_max fd) (bp_stride package).

End SurfaceApi.

(** ** Theorems *)

Definition api_new : Api := mkApi (mkLibrary ∅ ∅) (error_connection "ERROR") [].

(** The I/O thread delivers the answer to [connect]. *)
Definition answer_connect (address : Z) (result : ConnectionMsg) (context : Z) : M ClientLibrary unit :=
  on_connection address (connected result context).

(** Put a connection back. *)
Definition put (this : Z) (c : MirConnection) (l : ClientLibrary) : ClientLibrary :=
  mkLibrary (valid_connections l) (<[this := c]> (connections l)).

Lemma on_connection_ret {A} this (m : M MirConnection A) l c x c' :
  connections l !! this = Some c -> m c = Ret x c' -> on_connection this m l = Ret x (put this c' l).
Proof. intros Hc Hm. unfold on_connection. by rewrite Hc, Hm. Qed.

Lemma connections_put this c l : connections (put this c l) !! this = Some c.
Proof. apply lookup_insert_eq. Qed.

Lemma zoom_library {A} (m : M ClientLibrary A) a x l :
  m (api_library a) = Ret x l -> zoom library m a = Ret x (mkApi l (api_error a) (api_errors a)).
Proof. intros Hm. unfold zoom. simpl. by rewrite Hm. Qed.

(** The connection once it is made, its request sent, the answer delivered and
    the wait over. *)
Definition new_connection : MirConnection :=
  mkMirConnection (mkConnectParameters EmptyString None) (mkConnectionMsg None None (Some "connect not called"%string))
    EmptyString drm_status0 false MirWaitHandle_new MirWaitHandle_new MirWaitHandle_new [] ∅ ∅ [] [].

Definition requested (name : string) : MirConnection :=
  mkMirConnection (mkConnectParameters name None) (mkConnectionMsg None None (Some "connect not called"%string))
    EmptyString drm_status0 false MirWaitHandle_new MirWaitHandle_new MirWaitHandle_new [] ∅ ∅
    [rq_connect (mkConnectParameters name None)] [].

Definition answered (name : string) (result : ConnectionMsg) (context : Z) (h : MirWaitHandle) : MirConnection :=
  mkMirConnection (mkConnectParameters name None) result
    EmptyString drm_status0 true h MirWaitHandle_new MirWaitHandle_new [] ∅ ∅
    [rq_connect (mkConnectParameters name None)] [context].

Lemma mir_connect_sent address name context a :
  mir_connect address None None name None context a =
    Ret (Some (address, connect_handle))
      (mkApi (put address (requested name) (put address new_connection
        (mkLibrary ({[ address ]} ∪ valid_connections (api_library a)) (connections (api_library a)))))
        (api_error a) (api_errors a)).
Proof.
  unfold mir_connect, try_catch, mbind at 1, M_bind at 1. cbn [mret M_ret].
  unfold mbind at 1, M_bind at 1. erewrite zoom_library by reflexivity.
  unfold mbind at 1, M_bind at 1. erewrite zoom_library; [reflexivity|].
  eapply (on_connection_ret address _ _ new_connection); [apply lookup_insert_eq|reflexivity].
Qed.

(** Connecting synchronously always ends with a connection to look at.  If
    the channel cannot be made, it is the error connection, which is not valid
    and whose message is that of the exception.  Otherwise it is the new
    connection once its request is answered, valid exactly if the answer has no
    error, and the message is the answer's. *)
Theorem connect_sync_result address channel name context result (a : Api) :
  connections (api_library a) !! address = None ->
  address ∉ valid_connections (api_library a) ->
  cm_error (connect_result (api_error a)) = None ->
  match channel with
  | Some e =>
      exists a', mir_connect_sync address channel None name context (mret tt) a = Ret error_connection_ptr a' /\
        mir_connection_is_valid error_connection_ptr a' = Ret false a' /\
        mir_connection_get_error_message error_connection_ptr a' = Ret (what e) a' /\
        api_library a' = api_library a
  | None =>
      exists a', mir_connect_sync address None None name context (answer_connect address result context) a =
          Ret (heap_connection address) a' /\
        mir_connection_is_valid (heap_connection address) a' = Ret (bool_decide (cm_error result = None)) a' /\
        (forall e, cm_error result = Some e ->
           mir_connection_get_error_message (heap_connection address) a' = Ret e a')
  end.
Proof.
  intros Hnew Hnv Herr. destruct channel as [e|].
  - eexists. split.
    + unfold mir_connect_sync, mir_connect, try_catch, zoom, gets, get, mbind, M_bind. simpl.
      rewrite decide_True by done. reflexivity.
    + split; [done|]. split; [|done]. unfold mir_connection_get_error_message, gets, get_error_message. simpl.
      by rewrite Herr.
  - set (l2 := put address (requested name) (put address new_connection
        (mkLibrary ({[ address ]} ∪ valid_connections (api_library a)) (connections (api_library a))))).
    set (l3 := put address (answered name result context (mkWaitHandle 0 1 cv_init)) l2).
    set (l4 := put address (answered name result context MirWaitHandle_new) l3).
    assert (connections l4 !! address = Some (answered name result context MirWaitHandle_new)) as Hc
      by apply connections_put.
    exists (mkApi l4 (api_error a) (api_errors a)). split; [|split].
    + unfold mir_connect_sync, mbind at 1, M_bind at 1, gets at 1. unfold mbind at 1, M_bind at 1.
      rewrite mir_connect_sent. fold l2. unfold mbind at 1, M_bind at 1.
      rewrite (zoom_library _ _ tt l3); [|by eapply on_connection_ret; [apply connections_put|]].
      unfold mbind at 1, M_bind at 1, mir_wait_for.
      rewrite (zoom_library _ _ tt l4); [|by eapply on_connection_ret; [apply connections_put|]].
      unfold get, mbind, M_bind. cbn [api_errors api_library api_error]. rewrite Hc.
      rewrite decide_False by (intros E; apply (f_equal length) in E; rewrite length_app in E; simpl in E; lia).
      by rewrite decide_True by (simpl; set_solver).
    + unfold mir_connection_is_valid. eapply (zoom_library _ (mkApi l4 _ _)). cbn [api_library].
      unfold connection_is_valid, get, deref, mbind, M_bind. rewrite decide_True by (simpl; set_solver).
      rewrite Hc. simpl. by destruct (cm_error result).
    + intros e He. unfold mir_connection_get_error_message, deref, mbind, M_bind. cbn [api_library]. rewrite Hc.
      unfold get_error_message. simpl. by rewrite He.
Qed.

(** Deleting the wait handles, each of which exists. *)
Lemma done_disconnect_ret c :
  NoDup (release_wait_handles c) -> (forall h, h ∈ release_wait_handles c -> is_Some (mc_handles c !! h)) ->
  exists c', done_disconnect c = Ret tt c' /\
    disconnect_wait_handle c' = receive (disconnect_wait_handle c).
Proof.
  intros Hnd Hin. unfold done_disconnect, get, mbind at 1, M_bind at 1.
  match goal with |- context [for_each _ ?f] => set (del := f) end.
  assert (forall x l h, mc_handles x !! h = Some l -> exists x', del h x = Ret tt x' /\
    mc_handles x' = delete h (mc_handles x) /\ disconnect_wait_handle x' = disconnect_wait_handle x) as Hdel.
  { intros x l h Hh. unfold del, deref, modify, mbind, M_bind. rewrite Hh. by eexists. }
  assert (forall l x, NoDup l -> (forall h, h ∈ l -> is_Some (mc_handles x !! h)) ->
    exists x', for_each l del x = Ret tt x' /\ disconnect_wait_handle x' = disconnect_wait_handle x) as Hloop.
  { clearbody del. induction l as [|h l IH]; intros x Hn Hx; [by exists x|]. apply NoDup_cons in Hn as [Hh Hn].
    destruct (Hx h) as [w Hw]; [left|]. destruct (Hdel x w h Hw) as (x1 & Hx1 & Hm & Hd).
    destruct (IH x1 Hn) as (x2 & Hx2 & Hd2).
    { intros h' Hh'. rewrite Hm, lookup_delete_ne by set_solver. apply Hx. by right. }
    exists x2. cbn [for_each]. unfold mbind, M_bind. rewrite Hx1, Hx2. split; [done|congruence]. }
  destruct (Hloop (release_wait_handles c) c Hnd Hin) as (x & Hx & Hd). unfold mbind, M_bind. rewrite Hx.
  eexists. split; [reflexivity|]. simpl. by rewrite Hd.
Qed.

Lemma on_connection_wait {A} this (m : M MirConnection A) l c c' :
  connections l !! this = Some c -> m c = Wait c' -> on_connection this m l = Wait (put this c' l).
Proof. intros Hc Hm. unfold on_connection. by rewrite Hc, Hm. Qed.

(** Releasing a connection waits for the server's answer, and only then
    forgets it: afterwards the pointer is no longer valid, and the other
    connections are as they were.  Without the answer it waits; the error
    connection is never released. *)
Theorem release_forgets_connection address c (a : Api) :
  connections (api_library a) !! address = Some c -> NoDup (release_wait_handles c) ->
  (forall h, h ∈ release_wait_handles c -> is_Some (mc_handles c !! h)) ->
  disconnect_wait_handle c = MirWaitHandle_new ->
  (exists a', mir_connection_release (heap_connection address) (on_connection address done_disconnect) a = Ret tt a' /\
     connections (api_library a') !! address = None /\
     mir_connection_is_valid (heap_connection address) a' = Ret false a' /\
     (forall k, k <> address -> connections (api_library a') !! k = connections (api_library a) !! k)) /\
  (exists a', mir_connection_release (heap_connection address) (mret tt) a = Wait a' /\
     is_Some (connections (api_library a') !! address)) /\
  mir_connection_release error_connection_ptr (mret tt) a = Ret tt a.
Proof.
  intros Hc Hnd Hin Hw.
  set (c1 := mkMirConnection (connect_parameters c) (connect_result c) (mc_error_message c)
    (drm_auth_magic_status c) (platform_created c) (connect_wait_handle c) (disconnect_wait_handle c)
    (drm_auth_magic_wait_handle c) (release_wait_handles c) (mc_handles c) (mc_surfaces c)
    (mc_requests c ++ [rq_disconnect]) (mc_callbacks c)).
  set (l1 := put address c1 (api_library a)).
  assert (zoom library (on_connection address disconnect) a = Ret tt (mkApi l1 (api_error a) (api_errors a))) as H1.
  { apply zoom_library. by eapply on_connection_ret. }
  split; [|split; [|done]].
  - destruct (done_disconnect_ret c1 Hnd Hin) as (c2 & Hc2 & Hd). cbn [c1 disconnect_wait_handle] in Hd.
    rewrite Hw in Hd. simpl in Hd. set (l2 := put address c2 l1).
    set (c3 := over (handle_lens disconnect_handle) MirWaitHandle_new c2). set (l3 := put address c3 l2).
    exists (mkApi (mkLibrary (valid_connections l3 ∖ {[ address ]}) (delete address (connections l3)))
      (api_error a) (api_errors a)). split.
    + unfold mir_connection_release, mbind at 1, M_bind at 1. rewrite H1. unfold mbind at 1, M_bind at 1.
      rewrite (zoom_library _ _ tt l2); [|by eapply on_connection_ret; [apply connections_put|]].
      unfold mbind at 1, M_bind at 1, mir_wait_for. rewrite (zoom_library _ _ tt l3); [done|].
      eapply on_connection_ret; [apply connections_put|]. unfold zoom. simpl. rewrite Hd. done.
    + split; [apply lookup_delete_eq|]. split.
      * unfold mir_connection_is_valid. eapply (zoom_library _ (mkApi _ _ _)). cbn [api_library].
        unfold connection_is_valid, get, mbind, M_bind. by rewrite decide_False by (simpl; set_solver).
      * intros k Hk. simpl. by rewrite lookup_delete_ne, !lookup_insert_ne by congruence.
  - set (c2 := over (handle_lens disconnect_handle) (mkWaitHandle 0 0 (cv_block cv_init)) c1).
    exists (mkApi (put address c2 l1) (api_error a) (api_errors a)). split; [|eexists; apply connections_put].
    unfold mir_connection_release, mbind at 1, M_bind at 1. rewrite H1. unfold mbind at 1, M_bind at 1.
    rewrite (zoom_library (mret tt) _ tt l1) by done. unfold mbind at 1, M_bind at 1, mir_wait_for, zoom at 1. simpl.
    rewrite (on_connection_wait address _ l1 c1 c2); [done|apply connections_put|].
    unfold zoom, wait_for_result. cbn [view over handle_lens c1 disconnect_wait_handle]. by rewrite Hw.
Qed.

(** ** On concrete values *)

Lemma connect_sync_result_witness :
  exists a', mir_connect_sync 5 (Some (runtime_error "no such file")) None "demo" 1 (mret tt) api_new =
      Ret error_connection_ptr a' /\
    mir_connection_is_valid error_connection_ptr a' = Ret false a' /\
    mir_connection_get_error_message error_connection_ptr a' = Ret "no such file"%string a' /\
    api_library a' = api_library api_new.
Proof.
  apply (connect_sync_result 5 (Some (runtime_error "no such file")) "demo" 1 connection0 api_new);
    [reflexivity| |reflexivity].
  apply (bool_decide_unpack _). vm_compute. exact Logic.I.
Defined.

Definition demo_api : Api := mkApi (mkLibrary {[ 5 ]} {[ 5 := requested "demo" ]}) (error_connection "ERROR") [].

Lemma release_forgets_connection_witness :
  (exists a', mir_connection_release (heap_connection 5) (on_connection 5 done_disconnect) demo_api = Ret tt a' /\
     connections (api_library a') !! 5 = None /\
     mir_connection_is_valid (heap_connection 5) a' = Ret false a' /\
     (forall k, k <> 5 -> connections (api_library a') !! k = connections (api_library demo_api) !! k)) /\
  (exists a', mir_connection_release (heap_connection 5) (mret tt) demo_api = Wait a' /\
     is_Some (connections (api_library a') !! 5)) /\
  mir_connection_release error_connection_ptr (mret tt) demo_api = Ret tt demo_api.
Proof.
  apply (release_forgets_connection 5 (requested "demo") demo_api); [reflexivity|constructor| |reflexivity].
  intros h Hh. by apply elem_of_nil in Hh.
Defined.
