(* ===== verification/AndroidClient.v ===== *)
(** * The client's Android platform

    [client::android] ([src/client/android/]): [AndroidClientBuffer]
    ([android_client_buffer.cpp]) with the registrar of the gralloc module
    ([android_registrar.cpp]), and the native window the driver draws to:
    [MirNativeWindow] ([mir_native_window.cpp]), [SyncFence] ([syncfence.cpp])
    and [ClientSurfaceInterpreter] ([client_surface_interpreter.cpp]).

    The server's side of a native handle is in [AndroidBuffers]. *)

From S2P Require Import Prelude Geometry Buffers Swapper Bundle GbmBuffers AndroidBuffers SurfaceParams Surfaces Sessions SessionManager Messages Mediator Wire Depository ClientLib.

(** ** Native handles *)

(** [sizeof(native_handle_t)]. *)
Definition native_handle_header_size : Z := 12.

(** [convert_to_native_handle]: the two loops into the new array, whose items
    are not set before. *)
Definition convert_to_native_handle (package : MirBufferPackage) : native_handle :=
  let fd_items := length (bp_fd package) in
  let data_items := length (bp_data package) in
  let data := list_inserts 0 (bp_fd package) (replicate (fd_items + data_items) 0) in
  let data := list_inserts fd_items (bp_data package) data in
  mkNative native_handle_header_size (Z.of_nat fd_items) (Z.of_nat data_items) data.

(** ** Buffers *)

(** The gralloc module, and the heap the handles are on. *)
Class GrallocModule (K : Type) : Type := {
  malloc_handle : native_handle -> K -> Z * K;
  free_handle : Z -> K -> K;
  registerBuffer : Z -> K -> Z * K;
  unregisterBuffer : Z -> K -> K;
  (** Handle, usage, left, top, width, height; the result and the address. *)
  lock_buffer : Z -> Z -> Z -> Z -> Z -> Z -> K -> (Z * Z) * K;
  unlock_buffer : Z -> K -> K;
}.

Definition GRALLOC_USAGE_SW_READ_OFTEN : Z := 3.
Definition GRALLOC_USAGE_SW_WRITE_OFTEN : Z := 48.

Record AndroidClientBuffer : Set := mkAndroidClientBuffer {
  acb_package : MirBufferPackage;
  acb_rect : Rectangle;
  acb_pf : PixelFormat;
  (** The handle, on the heap. *)
  native_handle_ptr : Z;
  native_window_buffer : ANativeWindowBuffer;
}.

(** [MemoryRegion], with the handle whose lock its address is. *)
Record MemoryRegion : Set := mkMemoryRegion {
  mr_vaddr : Z; mr_width : Width; mr_height : Height; mr_stride : Stride; mr_format : PixelFormat;
  mr_handle : Z;
}.

Section Buffers.
Context {K : Type} {module : GrallocModule K}.

Definition gralloc_call {A} (f : K -> A * K) : M K A := fun k => let '(a, k') := f k in Ret a k'.

(** [AndroidRegistrarGralloc]. *)
Definition register_buffer (handle : Z) : M K unit :=
  ret ← gralloc_call (registerBuffer handle) ;
  if negb (ret =? 0) then throw (runtime_error ("error registering graphics buffer for client use" +:+ newline)) else mret tt.

Definition unregister_buffer (handle : Z) : M K unit := modify (unregisterBuffer handle).

Definition secure_for_cpu (handle : Z) (rect : Rectangle) : M K Z :=
  let usage := Z.lor GRALLOC_USAGE_SW_READ_OFTEN GRALLOC_USAGE_SW_WRITE_OFTEN in
  let width := i32 (as_uint32_t (size_width (rect_size rect))) in
  let height := i32 (as_uint32_t (size_height (rect_size rect))) in
  let top := i32 (as_uint32_t (point_x (top_left rect))) in
  let left := i32 (as_uint32_t (point_y (top_left rect))) in
  '(ret, vaddr) ← gralloc_call (lock_buffer handle usage top left width height) ;
  if negb (ret =? 0) then throw (runtime_error "error securing buffer for client cpu use") else mret vaddr.

(** [pack_native_window_buffer]; the format is not set here. *)
Definition pack_native_window_buffer (package : MirBufferPackage) (rect : Rectangle) (address : Z) (h : native_handle)
    : ANativeWindowBuffer :=
  mkAnw (i32 (as_uint32_t (size_width (rect_size rect)))) (i32 (as_uint32_t (size_height (rect_size rect))))
    (bp_stride package) (mkHandle address h) 0 (Z.lor GRALLOC_USAGE_HW_TEXTURE GRALLOC_USAGE_HW_RENDER).

(** The constructor; if it throws, the handle is freed with its pointer. *)
Definition AndroidClientBuffer_new (package : MirBufferPackage) (size : Size) (pf : PixelFormat)
    : M K AndroidClientBuffer :=
  let rect := mkRectangle (mkPoint (wrap 0) (wrap 0)) size in
  let handle := convert_to_native_handle package in
  address ← gralloc_call (malloc_handle handle) ;
  try_catch (register_buffer address) (fun e => modify (free_handle address) ;; throw e) ;;
  mret (mkAndroidClientBuffer package rect pf address (pack_native_window_buffer package rect address handle)).

(** The destructor, and then the handle's. *)
Definition AndroidClientBuffer_delete (b : AndroidClientBuffer) : M K unit :=
  unregister_buffer (native_handle_ptr b) ;;
  modify (free_handle (native_handle_ptr b)).

Definition android_secure_for_cpu_write (b : AndroidClientBuffer) : M K MemoryRegion :=
  vaddr ← secure_for_cpu (native_handle_ptr b) (acb_rect b) ;
  mret (mkMemoryRegion vaddr (size_width (rect_size (acb_rect b))) (size_height (rect_size (acb_rect b)))
    (wrap (bp_stride (acb_package b))) (acb_pf b) (native_handle_ptr b)).

(** [MemoryRegionDeleter]. *)
Definition region_delete (r : MemoryRegion) : M K unit := modify (unlock_buffer (mr_handle r)).

(** [AndroidClientBufferFactory]. *)
#[export] Instance android_buffer_factory : ClientBufferFactory K AndroidClientBuffer := {
  create_buffer := AndroidClientBuffer_new;
}.

(** ** The native window *)

(** [ClientSurfaceInterpreter], with the surface and the calls on fences. *)
Inductive fence_call : Set := sync_wait (fd : Z) | fd_close (fd : Z).

Record interpreter : Type := mkInterpreter {
  ip_surface : MirSurface K AndroidClientBuffer;
  driver_pixel_format : Z;
  ip_fences : list fence_call;
}.

Definition ClientSurfaceInterpreter_new (surface : MirSurface K AndroidClientBuffer) : interpreter :=
  mkInterpreter surface (-1) [].

Definition to_surface : lens interpreter (MirSurface K AndroidClientBuffer) :=
  Lens ip_surface (fun s i => mkInterpreter s (driver_pixel_format i) (ip_fences i)).

Definition set_format (format : Z) (b : AndroidClientBuffer) : AndroidClientBuffer :=
  let a := native_window_buffer b in
  mkAndroidClientBuffer (acb_package b) (acb_rect b) (acb_pf b) (native_handle_ptr b)
    (mkAnw (anw_width a) (anw_height a) (anw_stride a) (anw_handle a) format (anw_usage a)).

(** [buffer_to_driver->format = format], in the buffer that the depository
    holds. *)
Definition set_current_format (format : Z) : M (ClientBufferDepository K AndroidClientBuffer) unit :=
  modify (fun d =>
    match current_buffer_iter d with
    | Some k =>
        match OrdMap.find k (Depository.buffers d) with
        | Some (b, age) => Depository.set_buffers (OrdMap.insert k (set_format format b, age) (Depository.buffers d)) d
        | None => d
        end
    | None => d
    end).

Definition driver_requests_buffer : M interpreter ANativeWindowBuffer :=
  format ← gets driver_pixel_format ;
  b ← zoom to_surface (zoom depository_lens current_buffer) ;
  zoom to_surface (zoom depository_lens (set_current_format format)) ;;
  mret (native_window_buffer (set_format format (fst b))).

(** [mir_wait_for(surface.next_buffer(empty, NULL))]; [io] is what the I/O
    thread does in the meantime. *)
Definition driver_returns_buffer (io : M (MirSurface K AndroidClientBuffer) unit) : M interpreter unit :=
  zoom to_surface (next_buffer 0) ;;
  zoom to_surface io ;;
  zoom to_surface (zoom next_buffer_lens wait_for_result).

Definition dispatch_driver_request_format (format : Z) : M interpreter unit :=
  modify (fun i => mkInterpreter (ip_surface i) format (ip_fences i)).

Definition NATIVE_WINDOW_WIDTH : Z := 0.
Definition NATIVE_WINDOW_HEIGHT : Z := 1.
Definition NATIVE_WINDOW_FORMAT : Z := 2.
Definition NATIVE_WINDOW_DEFAULT_WIDTH : Z := 6.
Definition NATIVE_WINDOW_DEFAULT_HEIGHT : Z := 7.
Definition NATIVE_WINDOW_TRANSFORM_HINT : Z := 8.
Definition NATIVE_WINDOW_SET_BUFFERS_FORMAT : Z := 9.

Definition driver_requests_info (key : Z) : M interpreter Z :=
  i ← get ;
  if (key =? NATIVE_WINDOW_WIDTH) || (key =? NATIVE_WINDOW_DEFAULT_WIDTH)
  then mret (mp_width (get_parameters (ip_surface i)))
  else if (key =? NATIVE_WINDOW_HEIGHT) || (key =? NATIVE_WINDOW_DEFAULT_HEIGHT)
  then mret (mp_height (get_parameters (ip_surface i)))
  else if key =? NATIVE_WINDOW_FORMAT then mret (driver_pixel_format i)
  else if key =? NATIVE_WINDOW_TRANSFORM_HINT then mret 0
  else throw (runtime_error "driver requested unsupported query").

(** [SyncFence]. *)
Definition fence_event (c : fence_call) : M interpreter unit :=
  modify (fun i => mkInterpreter (ip_surface i) (driver_pixel_format i) (ip_fences i ++ [c])).

Definition SyncFence_wait (fence_fd : Z) : M interpreter unit :=
  if 0 <? fence_fd then fence_event (sync_wait fence_fd) else mret tt.

Definition SyncFence_delete (fence_fd : Z) : M interpreter unit :=
  if 0 <? fence_fd then fence_event (fd_close fence_fd) else mret tt.

(** [MirNativeWindow]. *)
Definition dequeueBuffer : M interpreter (Z * ANativeWindowBuffer) :=
  b ← driver_requests_buffer ; mret (0, b).

Definition queueBuffer (fence_fd : Z) (io : M (MirSurface K AndroidClientBuffer) unit) : M interpreter Z :=
  SyncFence_wait fence_fd ;;
  driver_returns_buffer io ;;
  mret 0.

(** [queueBuffer_static]: the fence dies with the call, however it ends. *)
Definition queueBuffer_static (fence_fd : Z) (io : M (MirSurface K AndroidClientBuffer) unit) : M interpreter Z :=
  r ← try_catch (queueBuffer fence_fd io) (fun e => SyncFence_delete fence_fd ;; throw e) ;
  SyncFence_delete fence_fd ;;
  mret r.

Definition query (key : Z) : M interpreter (Z * Z) :=
  value ← driver_requests_info key ; mret (0, value).

(** [perform], with the argument of the one key it knows. *)
Definition perform (key arg : Z) : M interpreter Z :=
  (if key =? NATIVE_WINDOW_SET_BUFFERS_FORMAT then dispatch_driver_request_format arg else mret tt) ;;
  mret 0.

End Buffers.

Arguments interpreter : clear implicits.

(** ** Handles across the connection *)

Lemma convert_eq package :
  convert_to_native_handle package =
    mkNative native_handle_header_size (Z.of_nat (length (bp_fd package))) (Z.of_nat (length (bp_data package)))
      (bp_fd package ++ bp_data package).
Proof.
  unfold convert_to_native_handle. f_equal. rewrite replicate_add.
  rewrite (list_inserts_0_r (bp_fd package)) by (by rewrite length_replicate).
  rewrite <- (Nat.add_0_r (length (bp_fd package))) at 1. rewrite list_inserts_app_r. f_equal.
  rewrite <- (app_nil_r (replicate _ 0)), list_inserts_0_r by (by rewrite length_replicate). apply app_nil_r.
Qed.

(** A native handle survives the connection.  The package that the server
    makes of a well-formed handle of at most 32 descriptors and 32 integers is
    sent as a [Buffer] message; the client, which receives the descriptors under
    new numbers, makes a handle of it that has the same counts, its own
    descriptors in the place of the server's, and the same integers and stride. *)
Theorem native_handle_roundtrip {F B} (anw : ANativeWindowBuffer) package id fds (s : MirSurface F B) :
  let h := bh_native (anw_handle anw) in
  handle_ok h -> numFds h <= 32 -> numInts h <= 32 ->
  pack_ipc_package anw tt = Ret package tt -> length fds = length (ipc_fds package) ->
  sm_error (surface_msg s) = None ->
  sm_buffer (surface_msg s) = Some (with_buffer_fds (set_buffer_fields id package buffer0) fds) ->
  exists p, populate s = Ret p s /\ bp_stride p = anw_stride anw /\
    convert_to_native_handle p =
      mkNative native_handle_header_size (numFds h) (numInts h) (fds ++ drop (Z.to_nat (numFds h)) (nh_data h)).
Proof.
  intros h Hok Hf Hi Hpack Hfds He Hb. rewrite pack_ipc_package_spec in Hpack by done. injection Hpack as <-.
  destruct Hok as (Hf0 & Hi0 & Hlen). unfold package_of in Hb, Hfds. fold h in Hb, Hfds. simpl in Hb, Hfds.
  rewrite length_take in Hfds. unfold populate, get, is_valid, mbind, M_bind. rewrite He, Hb. simpl.
  rewrite length_drop. unfold mir_buffer_package_max. rewrite decide_True by lia.
  eexists. split; [reflexivity|]. split; [done|]. rewrite convert_eq. cbn [bp_fd bp_data].
  rewrite length_drop. f_equal; lia.
Qed.

(** ** What the module and the heap keep *)

Class GrallocModuleLaws (K : Type) `{GrallocModule K} : Type := {
  handles : K -> gmap Z native_handle;
  registered : K -> gset Z;
  locked : K -> gset Z;
  holdings k : gmap Z native_handle * gset Z * gset Z := (handles k, registered k, locked k);
  malloc_law h k :
    let '(x, k') := malloc_handle h k in
    handles k !! x = None /\ holdings k' = (<[x := h]> (handles k), registered k, locked k);
  free_handle_law x k : holdings (free_handle x k) = (delete x (handles k), registered k, locked k);
  register_buffer_law x k :
    let '(ret, k') := registerBuffer x k in
    if ret =? 0 then (x ∉ registered k) /\ holdings k' = (handles k, {[ x ]} ∪ registered k, locked k)
    else holdings k' = holdings k;
  unregister_law x k : holdings (unregisterBuffer x k) = (handles k, registered k ∖ {[ x ]}, locked k);
  lock_law x usage l t w h k :
    let '((ret, _), k') := lock_buffer x usage l t w h k in
    if ret =? 0 then (x ∉ locked k) /\ holdings k' = (handles k, registered k, {[ x ]} ∪ locked k)
    else holdings k' = holdings k;
  unlock_law x k : holdings (unlock_buffer x k) = (handles k, registered k, locked k ∖ {[ x ]});
}.

Section BufferLaws.
Context {K : Type} `{GrallocModuleLaws K}.

Lemma holdings_eq (k : K) a b c : holdings k = (a, b, c) -> handles k = a /\ registered k = b /\ locked k = c.
Proof. unfold holdings. intros [= <- <- <-]. done. Qed.

(** Securing a buffer locks it until the region is gone. *)
Lemma secure_spec b (k : K) :
  match android_secure_for_cpu_write b k with
  | Ret r k1 => locked k1 = {[ native_handle_ptr b ]} ∪ locked k /\
      exists k2, region_delete r k1 = Ret tt k2 /\ holdings k2 = holdings k
  | Throw _ k1 => holdings k1 = holdings k
  | _ => False
  end.
Proof.
  unfold android_secure_for_cpu_write, secure_for_cpu, gralloc_call, mbind, M_bind.
  set (u := Z.lor _ _). set (x := i32 _). set (y := i32 _) at 1. set (w := i32 _) at 1. set (h := i32 _) at 1.
  pose proof (lock_law (native_handle_ptr b) u x y w h k) as Hl.
  destruct (lock_buffer (native_handle_ptr b) u x y w h k) as [[ret vaddr] k1]. destruct (ret =? 0); simpl; [|done].
  destruct Hl as [Hfresh Hl]. apply holdings_eq in Hl as (L1 & L2 & L3). split; [done|]. eexists. split; [reflexivity|].
  rewrite unlock_law. unfold holdings. rewrite L1, L2, L3. f_equal. set_solver.
Qed.

(** A client buffer on Android gives back what it takes.  A buffer that was
    made has one handle, converted from its package, and one registration; while
    it is mapped for the CPU it is locked, and unlocked with the region; its
    destructor ends the registration and frees the handle.  A buffer that could
    not be registered has taken nothing. *)
Theorem android_client_accounting package size pf (k : K) :
  match AndroidClientBuffer_new package size pf k with
  | Ret b k1 =>
      handles k1 !! native_handle_ptr b = Some (convert_to_native_handle package) /\
      registered k1 = {[ native_handle_ptr b ]} ∪ registered k /\
      (match android_secure_for_cpu_write b k1 with
       | Ret r k2 => locked k2 = {[ native_handle_ptr b ]} ∪ locked k1 /\
           exists k3, region_delete r k2 = Ret tt k3 /\ holdings k3 = holdings k1
       | Throw _ k2 => holdings k2 = holdings k1
       | _ => False
       end) /\
      exists k4, AndroidClientBuffer_delete b k1 = Ret tt k4 /\ holdings k4 = holdings k
  | Throw _ k1 => holdings k1 = holdings k
  | _ => False
  end.
Proof.
  unfold AndroidClientBuffer_new, gralloc_call, try_catch, register_buffer, mbind, M_bind.
  set (h := convert_to_native_handle package). pose proof (malloc_law h k) as Hm.
  destruct (malloc_handle h k) as [x k0]. destruct Hm as [Hx Hm]. apply holdings_eq in Hm as (A1 & A2 & A3).
  unfold gralloc_call. pose proof (register_buffer_law x k0) as Hr. destruct (registerBuffer x k0) as [ret k1].
  destruct (ret =? 0); simpl.
  - destruct Hr as [Hfresh Hr]. apply holdings_eq in Hr as (B1 & B2 & B3). rewrite B1, B2, A1, A2.
    split; [apply lookup_insert_eq|]. split; [done|]. split.
    + exact (secure_spec (mkAndroidClientBuffer package _ pf x _) k1).
    + eexists. split; [reflexivity|]. rewrite free_handle_law. cbn [native_handle_ptr].
      destruct (holdings_eq _ _ _ _ (unregister_law x k1)) as (C1 & C2 & C3). unfold holdings.
      rewrite C1, C2, C3, B1, B2, B3, A1, A2, A3. rewrite delete_insert_id by done. f_equal. f_equal. rewrite A2 in Hfresh. set_solver.
  - apply holdings_eq in Hr as (B1 & B2 & B3). rewrite free_handle_law. unfold holdings.
    rewrite B1, B2, B3, A1, A2, A3. by rewrite delete_insert_id.
Qed.

End BufferLaws.

(** ** Queueing a buffer *)

Section Window.
Context {K : Type} `{GrallocModule K}.

(** What happens to a fence; a descriptor of zero counts as none. *)
Definition fence_waited (fd : Z) : list fence_call := if 0 <? fd then [sync_wait fd] else [].
Definition fence_closed (fd : Z) : list fence_call := if 0 <? fd then [fd_close fd] else [].

Lemma fence_wait_spec fd (i : interpreter K) :
  SyncFence_wait fd i = Ret tt (mkInterpreter (ip_surface i) (driver_pixel_format i) (ip_fences i ++ fence_waited fd)).
Proof. unfold SyncFence_wait, fence_waited. destruct (0 <? fd); [done|]. rewrite app_nil_r. by destruct i. Qed.

Lemma fence_delete_spec fd (i : interpreter K) :
  SyncFence_delete fd i = Ret tt (mkInterpreter (ip_surface i) (driver_pixel_format i) (ip_fences i ++ fence_closed fd)).
Proof. unfold SyncFence_delete, fence_closed. destruct (0 <? fd); [done|]. rewrite app_nil_r. by destruct i. Qed.

Lemma wait_never_throws (s : MirSurface K AndroidClientBuffer) :
  match zoom next_buffer_lens wait_for_result s with Ret _ _ | Wait _ => True | _ => False end.
Proof.
  unfold zoom, wait_for_result. cbn [view next_buffer_lens]. by destruct (must_wait _).
Qed.

Lemma driver_returns_spec io (i : interpreter K) s1 :
  next_buffer 0 (ip_surface i) = Ret tt s1 ->
  match driver_returns_buffer io i with
  | Ret _ i' => ip_fences i' = ip_fences i /\
      exists s2, io s1 = Ret tt s2 /\ zoom next_buffer_lens wait_for_result s2 = Ret tt (ip_surface i')
  | Throw e i' => ip_fences i' = ip_fences i /\ io s1 = Throw e (ip_surface i')
  | Wait i' => ip_fences i' = ip_fences i
  | Undef => io s1 = Undef
  end.
Proof.
  intros Hn. unfold driver_returns_buffer, mbind, M_bind. unfold zoom at 1. cbn [view over to_surface].
  rewrite Hn. unfold zoom at 1. cbn [view over to_surface ip_surface].
  destruct (io s1) as [[] s2|e s2|s2|] eqn:Eio; try done. unfold zoom at 1. cbn [view over to_surface ip_surface].
  pose proof (wait_never_throws s2) as Hw.
  destruct (zoom next_buffer_lens wait_for_result s2) as [[] s3|e s3|s3|] eqn:Ew; try done. split; [done|]. eauto.
Qed.

(** Queueing a buffer waits for its fence, asks the server for the next
    buffer and waits for the answer; the fence is closed exactly once when the
    call returns or throws, and is still open while it blocks.  The call returns
    zero only after the answer has arrived. *)
Theorem queue_buffer_fenced fd io (i : interpreter K) s1 :
  next_buffer 0 (ip_surface i) = Ret tt s1 ->
  match queueBuffer_static fd io i with
  | Ret r i' => r = 0 /\ ip_fences i' = ip_fences i ++ fence_waited fd ++ fence_closed fd /\
      exists s2, io s1 = Ret tt s2 /\ zoom next_buffer_lens wait_for_result s2 = Ret tt (ip_surface i')
  | Throw e i' => ip_fences i' = ip_fences i ++ fence_waited fd ++ fence_closed fd /\ io s1 = Throw e (ip_surface i')
  | Wait i' => ip_fences i' = ip_fences i ++ fence_waited fd
  | Undef => io s1 = Undef
  end.
Proof.
  intros Hn. unfold queueBuffer_static, queueBuffer, try_catch, mbind, M_bind. rewrite fence_wait_spec.
  set (i1 := mkInterpreter _ _ _). pose proof (driver_returns_spec io i1 s1 Hn) as Hd.
  destruct (driver_returns_buffer io i1) as [[] i2|e i2|i2|]; try done; unfold mret, M_ret, throw;
    rewrite ?fence_delete_spec; cbn [ip_fences ip_surface]; destruct Hd as [-> Hd]; subst i1; cbn [ip_fences];
    by rewrite app_assoc.
Qed.

End Window.

(** ** A concrete module *)

Record demo_module : Set := mkModule { dm_handles : gmap Z native_handle; dm_registered : gset Z; dm_locked : gset Z }.

(** Handle 9 cannot be registered, and a buffer is locked by one user only. *)
#[export] Instance demo_gralloc_module : GrallocModule demo_module := {
  malloc_handle h k :=
    let x := above (dom (dm_handles k)) in (x, mkModule (<[x := h]> (dm_handles k)) (dm_registered k) (dm_locked k));
  free_handle x k := mkModule (delete x (dm_handles k)) (dm_registered k) (dm_locked k);
  registerBuffer x k :=
    if decide (x = 9 \/ x ∈ dm_registered k) then (-22, k)
    else (0, mkModule (dm_handles k) ({[ x ]} ∪ dm_registered k) (dm_locked k));
  unregisterBuffer x k := mkModule (dm_handles k) (dm_registered k ∖ {[ x ]}) (dm_locked k);
  lock_buffer x _ _ _ _ _ k :=
    if decide (x ∈ dm_locked k) then ((-16, 0), k)
    else ((0, 4096 * x), mkModule (dm_handles k) (dm_registered k) ({[ x ]} ∪ dm_locked k));
  unlock_buffer x k := mkModule (dm_handles k) (dm_registered k) (dm_locked k ∖ {[ x ]});
}.

#[export, refine] Instance demo_module_laws : GrallocModuleLaws demo_module := {
  handles := dm_handles; registered := dm_registered; locked := dm_locked;
}.
Proof.
  - intros h k. simpl. split; [|done]. apply not_elem_of_dom, above_fresh.
  - done.
  - intros x k. simpl. case_decide as Hd; simpl; [done|]. split; [tauto|done].
  - done.
  - intros x usage l t w h k. simpl. by case_decide.
  - done.
Defined.

Definition demo_package : MirBufferPackage := mkBufferPackage [7; 8] [40] 256.

Lemma android_client_accounting_witness :
  let k := mkModule ∅ ∅ ∅ in
  match AndroidClientBuffer_new demo_package (mkSize (wrap 64) (wrap 32)) abgr_8888 k with
  | Ret b k1 =>
      handles k1 !! native_handle_ptr b = Some (mkNative 12 1 2 [40; 7; 8]) /\
      registered k1 = {[ native_handle_ptr b ]} ∪ registered k /\
      (match android_secure_for_cpu_write b k1 with
       | Ret r k2 => locked k2 = {[ native_handle_ptr b ]} ∪ locked k1 /\
           exists k3, region_delete r k2 = Ret tt k3 /\ holdings k3 = holdings k1
       | Throw _ k2 => holdings k2 = holdings k1
       | _ => False
       end) /\
      exists k4, AndroidClientBuffer_delete b k1 = Ret tt k4 /\ holdings k4 = holdings k
  | Throw _ k1 => holdings k1 = holdings k
  | _ => False
  end.
Proof. exact (android_client_accounting demo_package (mkSize (wrap 64) (wrap 32)) abgr_8888 (mkModule ∅ ∅ ∅)). Defined.

Definition demo_anw : ANativeWindowBuffer := mkAnw 64 32 256 (mkHandle 4 (mkNative 12 1 2 [40; 7; 8])) 1 768.

(** A surface that has been sent the buffer, whose descriptor 40 arrived as 61. *)
Definition demo_client_surface : MirSurface demo_module AndroidClientBuffer :=
  set_surface_msg (set_surface_buffer
      (Some (with_buffer_fds (set_buffer_fields (mkBufferID 3) (mkBufferIPCPackage [7; 8] [40] 256) buffer0) [61])) surface0)
    (MirSurface_new (mkModule ∅ ∅ ∅) (mkMirParams None 64 32 1 0)).

Lemma native_handle_roundtrip_witness :
  exists p, populate demo_client_surface = Ret p demo_client_surface /\ bp_stride p = 256 /\
    convert_to_native_handle p = mkNative native_handle_header_size 1 2 ([61] ++ [7; 8]).
Proof.
  apply (native_handle_roundtrip demo_anw (mkBufferIPCPackage [7; 8] [40] 256) (mkBufferID 3) [61] demo_client_surface);
    done.
Defined.

Definition demo_interpreter : interpreter demo_module := ClientSurfaceInterpreter_new demo_client_surface.

Definition demo_requested : MirSurface demo_module AndroidClientBuffer :=
  match next_buffer 0 demo_client_surface with Ret _ s => s | _ => demo_client_surface end.

Lemma queue_buffer_fenced_witness :
  match queueBuffer_static 15 (new_buffer 0) demo_interpreter with
  | Ret r i' => r = 0 /\ ip_fences i' = [sync_wait 15; fd_close 15] /\
      exists s2, new_buffer 0 demo_requested = Ret tt s2 /\ zoom next_buffer_lens wait_for_result s2 = Ret tt (ip_surface i')
  | Throw e i' => ip_fences i' = [sync_wait 15; fd_close 15] /\ new_buffer 0 demo_requested = Throw e (ip_surface i')
  | Wait i' => ip_fences i' = [sync_wait 15]
  | Undef => new_buffer 0 demo_requested = Undef
  end.
Proof. exact (queue_buffer_fenced 15 (new_buffer 0) demo_interpreter demo_requested eq_refl). Defined.

(** The frame after: the driver gets the new buffer, in the format it has set. *)
Example demo_frame :
  match (queueBuffer_static 15 (new_buffer 0) ;; perform NATIVE_WINDOW_SET_BUFFERS_FORMAT 5 ;; dequeueBuffer) demo_interpreter with
  | Ret (0, anw) _ => nh_data (bh_native (anw_handle anw)) = [61; 7; 8] /\ anw_format anw = 5
  | _ => False
  end.
Proof. vm_compute. done. Qed.
